(* ===== verification/_CoqProject ===== *)
-Q . S2P
Prelude.v
Generations.v
Machine.v
Celltypes.v
Shades.v
Cow.v
Lists.v
Fifo.v
Queue.v
Bitops.v
Root.v
Compare.v
Avl.v
AvlBc.v
Cells.v
Pages.v
Genlist.v
Smartptr.v
Io.v
Reopen.v
Disk.v
Layout.v
Copy.v
Forward.v
Copying.v
Drain.v
Roots.v
Copied.v
Chain.v
Retire.v
Commit.v
Mature.v
Choose.v
Remember.v
Relocate.v
Step.v
Release.v
Log.v
Sample.v
MajorStep.v
Collect.v
Gather.v
Flush.v
Twice.v
View.v
Preserve.v
Mark.v
Major.v
Group.v
Priq.v
Digits.v
Triev2.v
Triev2Insert.v
Triev2Delete.v
Triev2Search.v
Oid.v
Dh.v
