(* ===== verification/Prelude.v ===== *)
(** * Shades: the main-memory database of HiBase

    A verification development for src/hibase-0.1.3, the Shades main-memory
    database (C, built for debugging: assertions are executed; the optional red
    zones are off).

    ** The program and this library

    Shades keeps all data in cells, small vectors of 32-bit words with a type tag
    in the first one.  New cells are allocated downwards in the first generation
    and, once written, are not changed: every operation on an index structure
    copies the path it changes and returns a new root ("copy on write").  Global
    data hangs from the words of the root block.  The library has a file for each
    part; where the C code calls another part, the file requires its file.

    - [Prelude]: 32-bit words ([w32], [shl32], [shr32], [s32]), lists, hints.
    - [Machine]: the state of the C program (memory image, allocation pointers,
      root block, static variables), the state-and-error monad [M] every C
      function is translated to, loops with fuel, and weakest preconditions [wp].
      [wp m Q s] says that [m] returns: no assertion fails, no access is outside
      the image or a local array, the fuel is enough.
    - [Celltypes]: the tags of cells.h.
    - [Shades]: shades.c, "The first generation": [allocate], [raw_allocate],
      [can_allocate], allocation points, clearing; [wf] (well-formed states),
      [ext] (nothing allocated is touched), [grow] (what an operation allocated).
    - [Cow]: symbolic execution of copy-on-write code; [fn_spec].
    - [Lists] (list.h, list.c), [Fifo] (the list specification of queues) and
      [Queue] (queue.h, queue.c: the real-time queue of Hood and Melville).
    - [Bitops]: bitops.h, bitops.c.
    - [Root]: root.h, root-def.h, root.c.
    - [Compare]: the comparison and update functions that callers pass (their C
      types are [cmp_fun_t] and [word_t ( * )(word_t, word_t, void * )]).
    - [Avl], [AvlBc]: avl.c, the applicative AVL trees and their interface for
      byte code, which keeps the path in a list of history cells.
    - [Cells]: cells-def.h, the sizes and field declarations of all cell types and
      instructions, and the operations of cells.c over them.
    - [Priq]: priq.c, binomial heaps.
    - [Digits] (keys as base-4 digits), [Triev2] (the searching functions of
      triev2.c and the representation of tries), [Triev2Insert], [Triev2Delete],
      [Triev2Search] (nearest and unused keys); [Dh] (dh.c: dynamic hashing).
    - [Oid]: oid.c, object identities, which uses the root block and the index trie.
    - [Generations]: the variables of the memory management: [generation_info_t],
      [page_info_t], the collector's position, the ring of smart pointers.
    - [Pages]: shades.c, "Page management" and "Generation management"; [pool] (the
      linked list of free pages, their cookies and their deadbeefs).
    - [Genlist]: the free entries of the table of generations.
    - [Io]: io.c, disk pages and the root block on files that are written
      synchronously; [disk] (the files store these pages and this root block);
      [Reopen]: a process that opens the files that another one has written, and
      declares their pages allocated or free; [Disk]: programs that use io.c, against
      a store of pages.  Whether a file is open for reading is part of its state:
      [io_create_file] opens the files for writing only.
    - [Layout]: which words of a cell its declaration block declares, found by running
      the block, over the memory for byte code and continuations.
    - [Smartptr]: smartptr.h, smartptr.c, the ring of the pointers that the
      collector updates.
    - [Copy]: the definitions of the copying collector of shades.c; [Forward]: what
      it collects ([from_cell], [reaches], [collectable]) and the invariant
      [gc_inv] of a collection: forwarded cells, addresses whose pointers are still
      to be redirected, to-pages, remembered sets, what stays the same; [Copying]
      (copying one cell), [Drain] (the loop over the copy stack), [Roots] (the root
      block and the smart pointers), [Copied] (the pages are written to disk; what a
      whole collection has done) and [Collect] ([collect_first_generation]).
    - [Commit]: the definitions of the collection of the mature generations and of
      group commit; [Chain] (the doubly linked list of generations) and [Retire] (the
      lists of generations that were collected once or twice).
    - [Mature]: the invariant [db] of the whole database between two collections,
      over a [layout]: the generations in their order (new, being collected,
      awaiting collection, old), their cells, those of the first generation, free
      pages, remembered sets, retired generations, pages on disk, roots.
    - A step of the mature collection, [major_gc_step]: [Choose] (the generations to
      collect), [Remember] (the pointers into them), [Relocate] (the database after
      any collection, stated once for both collectors), [Step] (the instance for the
      step), [Release] (the collected generations), [Log] (the description that is
      allocated for the new one), [Sample] (a small database at which theorems are
      applied) and [MajorStep] (the whole step).
    - Group commit, [flush_batch]: [Gather] (the first generation's collection on a
      whole database), [Flush] (the words of the root block, clearing), [Twice]
      (generations that cease to exist), [Mark] (a new collection is started),
      [View] (what a program sees: the data along the paths from the roots and which
      paths meet), [Preserve] (both collections keep it), [Major] (the loop
      [major_gc]) and [Group] ([flush_batch]).

    ** How C is modelled

    A [ptr_t] is the offset from [mem_base] in bytes, so that [PTR_TO_WORD] and
    [WORD_TO_PTR] are the identity; words are [Z] and every operation that can
    leave 32 bits is wrapped where the C code wraps.  The names of definitions are
    those of the C functions; a function with several loops or branches is the
    composition of definitions for them.  Update and comparison functions are
    arguments, with the laws the code relies on as hypotheses ([compares],
    [pure_update], [noting_update]); [random()] is an argument of oid.c's model.
    Loops that are not counted take fuel: a hypothesis bounds it from below by
    what the data structure needs (the height of a tree, the number of digits of a
    key plus one, the length of a list plus one; for the collector more than the
    number of words it collects, than twice the number of generations and than the
    number of smart pointers), and every theorem says that the result is then
    reached.

    Data structures in memory are described over cell environments ([cenv], sets
    of cells that do not change), so that a structure built in one state is still
    there in every later one: this is what copy on write promises, and each
    operation's theorem includes it.

    ** What the theorems show

    - Memory: [can_allocate] and [allocate] agree, allocation points undo a whole
      operation.
    - Structures: each operation of queues, AVL trees, binomial heaps and tries
      does on the represented list, map or multiset what its header file says, on
      every branch and within the allocation bound the header declares; run
      sequences of queue operations and of clients of object identities refine an
      abstract specification; the structures' self-tests pass.
    - Cells: the declarations cover each cell exactly (slots without contents aside),
      copies are faithful, the consistency checks accept well-typed cells.
    - Words and root block: bit operations compute what they say (where they do
      not, the theorem says what they do compute), time stamps increase.
    - Group commit: [flush_batch] returns, keeps [db], and every path from a data root
      or a smart pointer shows the same data after it as before, with the same
      sharing; the root block on disk belongs to such a database.  [major_gc] ends,
      and each of its calls takes steps of the collection that goes on ([major_ran]),
      each of which copies exactly the cells that are reached from outside.
    - Garbage collection: [collect_first_generation] copies exactly the reachable
      cells, redirects every pointer to them, changes no other page, and records
      the pointers into generations that await collection; the ring of smart
      pointers behaves as an association of pointers and values.
    - Disk: clients of io.c see a store of pages and a root block, that a later process
      finds as they were left; reading in the process that created the files exits.
    - Errors: operations on empty queues fail their assertions; [avl_delete] loses
      keys whenever its rotations reach the root, [cell_is_equal] reports copies unequal, [oid_update] updates
      another object.  PROJECT.json lists these under "findings".

    ** Not modelled

    Recovery (the functions rvy_ of shades.c and [recover_db]), the strings (shtring*.c), the
    byte code interpreter and assembler, the index structures that only tests use
    (trie.c, lq.c, ist234.c), printing, asynchronous and network I/O and
    parameters.  The statistics from which [mark_major_gc_generations] and
    [major_gc] take their schedule are in floating point: their outcomes are
    arguments of the model, and the theorems hold for all of them. *)

From Stdlib Require Export ZArith Lia.
From stdpp Require Export base gmap list list_numbers numbers sorting.


(** * Shared notation *)

Declare Scope shades_scope.
Delimit Scope shades_scope with shades.
#[global] Open Scope Z_scope.

(** * Machine words

    [word_t] is a 32-bit unsigned integer (src/hibase-0.1.3/includes.h); it is
    modelled as a [Z] and every C operation that can leave the range is wrapped
    with [w32]. *)

Definition word_modulus : Z := 2 ^ 32.

Definition w32 (z : Z) : Z := z mod word_modulus.

Definition is_word (z : Z) : Prop := 0 ≤ z < word_modulus.

#[global] Instance is_word_dec z : Decision (is_word z).
Proof. unfold is_word. apply _. Defined.

(** The signed reading of a word: C's conversion to [int] / [signed_word_t]. *)
Definition s32 (z : Z) : Z :=
  let u := w32 z in if bool_decide (u < 2 ^ 31) then u else u - 2 ^ 32.

(** [shl32 x n] and [shr32 x n] are C's [x << n] and [x >> n] on [word_t]. *)
Definition shl32 (x n : Z) : Z := w32 (Z.shiftl x n).
Definition shr32 (x n : Z) : Z := Z.shiftr x n.

Lemma word_modulus_val : word_modulus = 4294967296.
Proof. reflexivity. Qed.

Lemma w32_small z : is_word z → w32 z = z.
Proof. apply Z.mod_small. Qed.

Lemma w32_is_word z : is_word (w32 z).
Proof. apply Z.mod_pos_bound. reflexivity. Qed.

Lemma w32_idemp z : w32 (w32 z) = w32 z.
Proof. apply w32_small, w32_is_word. Qed.

Lemma w32_add_l a b : w32 (w32 a + b) = w32 (a + b).
Proof. unfold w32. apply Zplus_mod_idemp_l. Qed.

Lemma w32_sub_r a b : w32 (a - w32 b) = w32 (a - b).
Proof. unfold w32. apply Zminus_mod_idemp_r. Qed.

Lemma w32_succ n : Z.of_nat n + 1 < word_modulus → w32 (Z.of_nat n + 1) = Z.of_nat (S n).
Proof. intros H. rewrite w32_small; [lia|]. unfold is_word. lia. Qed.

Lemma w32_pred n : Z.of_nat n < word_modulus → (0 < n)%nat →
  w32 (Z.of_nat n - 1) = Z.of_nat (n - 1).
Proof. intros H Hn. rewrite w32_small; [lia|]. unfold is_word. lia. Qed.

Lemma shr32_is_word x n : is_word x → 0 ≤ n → is_word (shr32 x n).
Proof.
  intros Hx Hn. unfold shr32, is_word in *. rewrite Z.shiftr_div_pow2 by lia.
  assert (0 < 2 ^ n) by (apply Z.pow_pos_nonneg; lia).
  split; [apply Z.div_pos; lia|]. apply Z.div_lt_upper_bound; [done|].
  rewrite word_modulus_val in *. nia.
Qed.

(** A field of a word: [(x >> lo) & (2^n - 1)]. *)
Lemma land_ones_mod x n : 0 ≤ n → Z.land x (2 ^ n - 1) = x mod 2 ^ n.
Proof. intros Hn. rewrite <- Z.land_ones by done. f_equal. by rewrite Z.ones_equiv, Z.sub_1_r. Qed.

(** Setting clear low bits with [|=] is an addition. *)
Lemma lor_add_disjoint h l n :
  0 ≤ n → 0 ≤ l < 2 ^ n → h mod 2 ^ n = 0 → Z.lor h l = h + l.
Proof.
  intros Hn Hl Hh.
  assert (Z.land h l = 0) as Hd.
  { apply Z.bits_inj'. intros i Hi. rewrite Z.land_spec, Z.bits_0.
    destruct (decide (i < n)).
    - rewrite <- (Z.mod_pow2_bits_low h n i), Hh, Z.bits_0 by lia. done.
    - destruct (decide (l = 0)) as [->|]; [by rewrite Z.bits_0, andb_false_r|].
      rewrite (Z.bits_above_log2 l i), andb_false_r; [done|lia|].
      apply Z.lt_le_trans with n; [|lia]. apply Z.log2_lt_pow2; lia. }
  rewrite <- Z.lxor_lor by done. symmetry. by apply Z.add_nocarry_lxor.
Qed.

(** [lia] with divisions and remainders by constants. *)
Ltac zdiv := Z.to_euclidean_division_equations; lia.

(** * Lists *)

Lemma drop_prefix {A} j (l ys xs : list A) :
  drop j l = ys ++ xs → (j ≤ length l)%nat →
  drop (j + length ys) l = xs ∧ take (j + length ys) l = take j l ++ ys.
Proof.
  intros E Hj. rewrite <- (take_drop j l), E.
  assert (length (take j l) = j) as Hl by (rewrite length_take; lia).
  rewrite drop_app_ge, take_app_ge, Hl by lia.
  replace (j + length ys - j)%nat with (length ys) by lia.
  rewrite drop_app_length, take_app_length. split; [done|].
  by rewrite take_app_le, (take_ge (take j l) j) by lia.
Qed.

(** Arrays indexed by integers: there is nothing outside their bounds. *)
Definition zlookup {A} (l : list A) (i : Z) : option A :=
  if bool_decide (0 ≤ i < Z.of_nat (length l)) then l !! Z.to_nat i else None.
Definition zinsert {A} (i : Z) (x : A) (l : list A) : list A := <[Z.to_nat i := x]> l.

Section arrays.
Context {A : Type}.
Implicit Types (l : list A) (x : A) (i j : Z).

Lemma zlookup_Some l i x : zlookup l i = Some x ↔ 0 ≤ i < Z.of_nat (length l) ∧ l !! Z.to_nat i = Some x.
Proof. unfold zlookup. case_bool_decide; split; [done|by intros [_ ?]|done|by intros [? _]]. Qed.

Lemma zlookup_lt l i : 0 ≤ i < Z.of_nat (length l) → ∃ x, zlookup l i = Some x.
Proof.
  intros Hi. destruct (lookup_lt_is_Some_2 l (Z.to_nat i)) as [x Hx]; [lia|]. exists x. by apply zlookup_Some.
Qed.

Lemma length_zinsert l i x : length (zinsert i x l) = length l.
Proof. apply length_insert. Qed.

Lemma zlookup_insert l i x : 0 ≤ i < Z.of_nat (length l) → zlookup (zinsert i x l) i = Some x.
Proof.
  intros Hi. apply zlookup_Some. rewrite length_zinsert. split; [done|]. apply list_lookup_insert_eq. lia.
Qed.

Lemma zlookup_insert_ne l i j x : 0 ≤ i → i ≠ j → zlookup (zinsert i x l) j = zlookup l j.
Proof.
  intros Hi Hij. unfold zlookup. rewrite length_zinsert. case_bool_decide; [|done]. unfold zinsert.
  apply list_lookup_insert_ne. lia.
Qed.

Lemma zinsert_id l i x : zlookup l i = Some x → zinsert i x l = l.
Proof. intros [_ H]%zlookup_Some. by apply list_insert_id. Qed.

Lemma zinsert_zinsert l i x y : zinsert i x (zinsert i y l) = zinsert i x l.
Proof. apply list_insert_insert_eq. Qed.

Lemma zlookup_insert_Some l i j x y : 0 ≤ i < Z.of_nat (length l) →
  zlookup (zinsert i x l) j = Some y ↔ (i = j ∧ x = y) ∨ (i ≠ j ∧ zlookup l j = Some y).
Proof.
  intros Hi. destruct (decide (i = j)) as [<-|Hne].
  - rewrite zlookup_insert by done. split; [intros [= ->]; by left|by intros [[_ ->]|[? _]]].
  - rewrite zlookup_insert_ne by (done || lia). split; [by right|by intros [[? _]|[_ ?]]].
Qed.
End arrays.

(** * Hint databases *)

Create HintDb word.
Create Rewrite HintDb word_rw.
Create Rewrite HintDb header.
Create HintDb wp.
#[export] Hint Resolve w32_is_word shr32_is_word : word.
#[export] Hint Rewrite w32_idemp w32_add_l w32_sub_r : word_rw.
