(* ===== verification/Generations.v ===== *)
(** The variables of the memory management of shades.c and the records they are
    made of: pages, generations, remembered sets, the copying collector's
    position, the ring of smart pointers (smartptr.h), and the files of io.c; the
    parameters of params-def.h that they use. *)

From S2P Require Import Prelude.

(** [status] of [generation_info_t]. *)
Inductive gc_status :=
| NONEXISTENT
| NORMAL
| TO_BE_COLLECTED
| BEING_COLLECTED
| COLLECTED_ONCE
| COLLECTED_TWICE.

#[export] Instance gc_status_eq_dec : EqDecision gc_status.
Proof. solve_decision. Defined.

(** A remembered set is a list of nodes, youngest first, and a node is the used
    part of its array [referrer], which fills from its end: [rem_set] and
    [rem_set_allocation_ptr] in one.  The empty list is [REM_SET_TAIL_COOKIE].
    The statistics [shrinkage] are left out. *)
Record generation_info_t := GenerationInfo {
  gi_status : gc_status;
  gi_rem_set : list (list Z);
  gi_npages : Z;
  gi_page : list Z;
  gi_disk_page : list Z;
  gi_younger : Z;
  gi_older : Z;
  gi_from : Z;
  gi_next_from : Z;
  gi_next_collected_twice : Z
}.

(** [generation] is the number of the generation that the pointer refers to,
    [INVALID_GENERATION_NUMBER] for [NULL]. *)
Record page_info_t := PageInfo {
  pg_generation : Z;
  pg_is_allocated : bool;
  pg_next_free_page : Z
}.

Record smart_ptr_t := SmartPtr {
  sp_ptr : Z;
  sp_next : Z;
  sp_prev : Z
}.

(** [disk_page_status_t] without [ROOT], which the other placement of the root
    block uses. *)
Inductive disk_page_status_t :=
| ALLOCATED
| FREE
| UNKNOWN.

#[export] Instance disk_page_status_eq_dec : EqDecision disk_page_status_t.
Proof. solve_decision. Defined.

(** [file_t] and the file itself: [fl_readable] tells whether its descriptor [fd] was
    opened for reading too, [fl_size] is its size in bytes and [fl_data] the words that
    were written to it, by their offsets. *)
Record file_t := File {
  fl_number_of_pages : Z;
  fl_number_of_free_pages : Z;
  fl_status : list disk_page_status_t;
  fl_cursor : Z;
  fl_readable : bool;
  fl_size : Z;
  fl_data : gmap Z Z
}.

(** The variables of io.c; [number_of_files] is the length of [file]. *)
Record io_state := IoState {
  file : list file_t;
  file_cursor : Z;
  number_of_free_disk_pages : Z
}.

(** The global and static variables.  [page_info] has [number_of_pages] and
    [generation_info] has [number_of_generations] entries; [next_gn] is the static
    variable of [allocate_generation]; [copy_stack] lists the addresses on the
    stack, its top first; [smart_ptrs] are the smart pointers by address, with
    [first_smart_ptr] at 0. *)
Record gc_state := GcState {
  page_info : list page_info_t;
  list_of_free_pages : Z;
  number_of_free_pages : Z;
  is_recovering : bool;
  generation_info : list generation_info_t;
  number_of_nonexistent_generations : Z;
  next_gn : Z;
  youngest_gn : Z;
  to_gn : Z;
  prev_to_gn : Z;
  generations_collected_twice : Z;
  to_pn : Z;
  to_ptr : Z;
  to_end : Z;
  copy_stack : list Z;
  smart_ptrs : gmap Z smart_ptr_t;
  major_gc_was_started : bool;
  is_collecting : bool;
  io : io_state
}.

Definition set_page_info (x : list page_info_t) (g : gc_state) : gc_state :=
  GcState x (list_of_free_pages g) (number_of_free_pages g) (is_recovering g) (generation_info g)
    (number_of_nonexistent_generations g) (next_gn g) (youngest_gn g) (to_gn g) (prev_to_gn g)
    (generations_collected_twice g) (to_pn g) (to_ptr g) (to_end g) (copy_stack g) (smart_ptrs g)
    (major_gc_was_started g) (is_collecting g) (io g).
Definition set_list_of_free_pages (x : Z) (g : gc_state) : gc_state :=
  GcState (page_info g) x (number_of_free_pages g) (is_recovering g) (generation_info g)
    (number_of_nonexistent_generations g) (next_gn g) (youngest_gn g) (to_gn g) (prev_to_gn g)
    (generations_collected_twice g) (to_pn g) (to_ptr g) (to_end g) (copy_stack g) (smart_ptrs g)
    (major_gc_was_started g) (is_collecting g) (io g).
Definition set_number_of_free_pages (x : Z) (g : gc_state) : gc_state :=
  GcState (page_info g) (list_of_free_pages g) x (is_recovering g) (generation_info g)
    (number_of_nonexistent_generations g) (next_gn g) (youngest_gn g) (to_gn g) (prev_to_gn g)
    (generations_collected_twice g) (to_pn g) (to_ptr g) (to_end g) (copy_stack g) (smart_ptrs g)
    (major_gc_was_started g) (is_collecting g) (io g).
Definition set_is_recovering (x : bool) (g : gc_state) : gc_state :=
  GcState (page_info g) (list_of_free_pages g) (number_of_free_pages g) x (generation_info g)
    (number_of_nonexistent_generations g) (next_gn g) (youngest_gn g) (to_gn g) (prev_to_gn g)
    (generations_collected_twice g) (to_pn g) (to_ptr g) (to_end g) (copy_stack g) (smart_ptrs g)
    (major_gc_was_started g) (is_collecting g) (io g).
Definition set_generation_info (x : list generation_info_t) (g : gc_state) : gc_state :=
  GcState (page_info g) (list_of_free_pages g) (number_of_free_pages g) (is_recovering g) x
    (number_of_nonexistent_generations g) (next_gn g) (youngest_gn g) (to_gn g) (prev_to_gn g)
    (generations_collected_twice g) (to_pn g) (to_ptr g) (to_end g) (copy_stack g) (smart_ptrs g)
    (major_gc_was_started g) (is_collecting g) (io g).
Definition set_number_of_nonexistent_generations (x : Z) (g : gc_state) : gc_state :=
  GcState (page_info g) (list_of_free_pages g) (number_of_free_pages g) (is_recovering g)
    (generation_info g) x (next_gn g) (youngest_gn g) (to_gn g) (prev_to_gn g)
    (generations_collected_twice g) (to_pn g) (to_ptr g) (to_end g) (copy_stack g) (smart_ptrs g)
    (major_gc_was_started g) (is_collecting g) (io g).
Definition set_next_gn (x : Z) (g : gc_state) : gc_state :=
  GcState (page_info g) (list_of_free_pages g) (number_of_free_pages g) (is_recovering g)
    (generation_info g) (number_of_nonexistent_generations g) x (youngest_gn g) (to_gn g) (prev_to_gn g)
    (generations_collected_twice g) (to_pn g) (to_ptr g) (to_end g) (copy_stack g) (smart_ptrs g)
    (major_gc_was_started g) (is_collecting g) (io g).
Definition set_youngest_gn (x : Z) (g : gc_state) : gc_state :=
  GcState (page_info g) (list_of_free_pages g) (number_of_free_pages g) (is_recovering g)
    (generation_info g) (number_of_nonexistent_generations g) (next_gn g) x (to_gn g) (prev_to_gn g)
    (generations_collected_twice g) (to_pn g) (to_ptr g) (to_end g) (copy_stack g) (smart_ptrs g)
    (major_gc_was_started g) (is_collecting g) (io g).
Definition set_to_gn (x : Z) (g : gc_state) : gc_state :=
  GcState (page_info g) (list_of_free_pages g) (number_of_free_pages g) (is_recovering g)
    (generation_info g) (number_of_nonexistent_generations g) (next_gn g) (youngest_gn g) x (prev_to_gn
    g) (generations_collected_twice g) (to_pn g) (to_ptr g) (to_end g) (copy_stack g) (smart_ptrs g)
    (major_gc_was_started g) (is_collecting g) (io g).
Definition set_prev_to_gn (x : Z) (g : gc_state) : gc_state :=
  GcState (page_info g) (list_of_free_pages g) (number_of_free_pages g) (is_recovering g)
    (generation_info g) (number_of_nonexistent_generations g) (next_gn g) (youngest_gn g) (to_gn g) x
    (generations_collected_twice g) (to_pn g) (to_ptr g) (to_end g) (copy_stack g) (smart_ptrs g)
    (major_gc_was_started g) (is_collecting g) (io g).
Definition set_generations_collected_twice (x : Z) (g : gc_state) : gc_state :=
  GcState (page_info g) (list_of_free_pages g) (number_of_free_pages g) (is_recovering g)
    (generation_info g) (number_of_nonexistent_generations g) (next_gn g) (youngest_gn g) (to_gn g)
    (prev_to_gn g) x (to_pn g) (to_ptr g) (to_end g) (copy_stack g) (smart_ptrs g) (major_gc_was_started
    g) (is_collecting g) (io g).
Definition set_to_pn (x : Z) (g : gc_state) : gc_state :=
  GcState (page_info g) (list_of_free_pages g) (number_of_free_pages g) (is_recovering g)
    (generation_info g) (number_of_nonexistent_generations g) (next_gn g) (youngest_gn g) (to_gn g)
    (prev_to_gn g) (generations_collected_twice g) x (to_ptr g) (to_end g) (copy_stack g) (smart_ptrs g)
    (major_gc_was_started g) (is_collecting g) (io g).
Definition set_to_ptr (x : Z) (g : gc_state) : gc_state :=
  GcState (page_info g) (list_of_free_pages g) (number_of_free_pages g) (is_recovering g)
    (generation_info g) (number_of_nonexistent_generations g) (next_gn g) (youngest_gn g) (to_gn g)
    (prev_to_gn g) (generations_collected_twice g) (to_pn g) x (to_end g) (copy_stack g) (smart_ptrs g)
    (major_gc_was_started g) (is_collecting g) (io g).
Definition set_to_end (x : Z) (g : gc_state) : gc_state :=
  GcState (page_info g) (list_of_free_pages g) (number_of_free_pages g) (is_recovering g)
    (generation_info g) (number_of_nonexistent_generations g) (next_gn g) (youngest_gn g) (to_gn g)
    (prev_to_gn g) (generations_collected_twice g) (to_pn g) (to_ptr g) x (copy_stack g) (smart_ptrs g)
    (major_gc_was_started g) (is_collecting g) (io g).
Definition set_copy_stack (x : list Z) (g : gc_state) : gc_state :=
  GcState (page_info g) (list_of_free_pages g) (number_of_free_pages g) (is_recovering g)
    (generation_info g) (number_of_nonexistent_generations g) (next_gn g) (youngest_gn g) (to_gn g)
    (prev_to_gn g) (generations_collected_twice g) (to_pn g) (to_ptr g) (to_end g) x (smart_ptrs g)
    (major_gc_was_started g) (is_collecting g) (io g).
Definition set_smart_ptrs (x : gmap Z smart_ptr_t) (g : gc_state) : gc_state :=
  GcState (page_info g) (list_of_free_pages g) (number_of_free_pages g) (is_recovering g)
    (generation_info g) (number_of_nonexistent_generations g) (next_gn g) (youngest_gn g) (to_gn g)
    (prev_to_gn g) (generations_collected_twice g) (to_pn g) (to_ptr g) (to_end g) (copy_stack g) x
    (major_gc_was_started g) (is_collecting g) (io g).
Definition set_major_gc_was_started (x : bool) (g : gc_state) : gc_state :=
  GcState (page_info g) (list_of_free_pages g) (number_of_free_pages g) (is_recovering g)
    (generation_info g) (number_of_nonexistent_generations g) (next_gn g) (youngest_gn g) (to_gn g)
    (prev_to_gn g) (generations_collected_twice g) (to_pn g) (to_ptr g) (to_end g) (copy_stack g)
    (smart_ptrs g) x (is_collecting g) (io g).
Definition set_is_collecting (x : bool) (g : gc_state) : gc_state :=
  GcState (page_info g) (list_of_free_pages g) (number_of_free_pages g) (is_recovering g)
    (generation_info g) (number_of_nonexistent_generations g) (next_gn g) (youngest_gn g) (to_gn g)
    (prev_to_gn g) (generations_collected_twice g) (to_pn g) (to_ptr g) (to_end g) (copy_stack g)
    (smart_ptrs g) (major_gc_was_started g) x (io g).
Definition set_io (x : io_state) (g : gc_state) : gc_state :=
  GcState (page_info g) (list_of_free_pages g) (number_of_free_pages g) (is_recovering g)
    (generation_info g) (number_of_nonexistent_generations g) (next_gn g) (youngest_gn g) (to_gn g)
    (prev_to_gn g) (generations_collected_twice g) (to_pn g) (to_ptr g) (to_end g) (copy_stack g)
    (smart_ptrs g) (major_gc_was_started g) (is_collecting g) x.

Definition INVALID_PAGE_NUMBER : Z := 0xFFFFFFFF.
Definition INVALID_GENERATION_NUMBER : Z := 0xFFFFFFFF.

(** The parameters that the modelled code reads, set before [init_shades].
    [number_of_pages_to_mark] is what [mark_major_gc_generations] computes from the
    sizes of the database and of the first generation, [mature_generation_limit] the
    least integer that is not below
    [first_generation_size * relative_mature_generation_size]. *)
Class Params := {
  first_generation_size : Z;
  max_gc_effort : Z;
  start_gc_limit : Z;
  allow_additional_generationality : bool;
  number_of_pages_to_mark : Z;
  mature_generation_limit : Z;
  disk_skip_nbytes : Z
}.

(** The defaults of params-def.h. *)
Definition default_params : Params := {|
  first_generation_size := 1048576; max_gc_effort := 20971520; start_gc_limit := 2097152;
  allow_additional_generationality := false; number_of_pages_to_mark := 71;
  mature_generation_limit := 734004; disk_skip_nbytes := 1048576
|}.

(** The initialisers of the variables. *)
Definition initial_gc : gc_state :=
  GcState [] INVALID_PAGE_NUMBER 0 false [] 0 0 INVALID_GENERATION_NUMBER INVALID_GENERATION_NUMBER
    INVALID_GENERATION_NUMBER INVALID_GENERATION_NUMBER 0 0 0 [] {[0 := SmartPtr 0 0 0]} false false (IoState [] 0 0).
