(* ===== verification/Machine.v ===== *)
(** The machine the C code runs on: the memory image and the global variables
    of Shades, an error-and-state monad for C functions, loops with fuel, and
    the weakest-precondition rules used by every proof of the development. *)

From S2P Require Import Prelude Generations.


(** * State

    A [ptr_t] is modelled by its offset from [mem_base] in bytes, that is by
    the word [PTR_TO_WORD] makes of it; [WORD_TO_PTR] and [PTR_TO_WORD]
    (shades.h) are then both the identity and [NULL_PTR] and [NULL_WORD] are
    both 0.  [mem] maps the offset of each word of the image to its value; an
    offset outside its domain is outside the allocated image.  [root] is the
    root block and [ix_is_ptr] the table of root.c that tells which of its words
    are pointers.  [old_value] is the static variable of oid.c,
    and [gc] are the variables of the garbage collector. *)

Record state := mkState {
  mem : gmap Z Z;
  first_generation_start : Z;
  first_generation_end : Z;
  first_generation_allocation_ptr : Z;
  first_generation_can_allocate_ptr : Z;
  root : list Z;
  ix_is_ptr : list bool;
  old_value : Z;
  gc : gc_state
}.

Definition NULL_WORD : Z := 0.
Definition NULL_PTR : Z := 0.

Definition set_mem (m : gmap Z Z) (s : state) : state :=
  mkState m (first_generation_start s) (first_generation_end s)
    (first_generation_allocation_ptr s) (first_generation_can_allocate_ptr s)
    (root s) (ix_is_ptr s) (old_value s) (gc s).
Definition set_fg_ptr (p : Z) (s : state) : state :=
  mkState (mem s) (first_generation_start s) (first_generation_end s)
    p (first_generation_can_allocate_ptr s) (root s) (ix_is_ptr s) (old_value s) (gc s).
Definition set_fg_can (p : Z) (s : state) : state :=
  mkState (mem s) (first_generation_start s) (first_generation_end s)
    (first_generation_allocation_ptr s) p (root s) (ix_is_ptr s) (old_value s) (gc s).
Definition set_root (r : list Z) (s : state) : state :=
  mkState (mem s) (first_generation_start s) (first_generation_end s)
    (first_generation_allocation_ptr s) (first_generation_can_allocate_ptr s) r (ix_is_ptr s) (old_value s) (gc s).
Definition set_ix_is_ptr (b : list bool) (s : state) : state :=
  mkState (mem s) (first_generation_start s) (first_generation_end s)
    (first_generation_allocation_ptr s) (first_generation_can_allocate_ptr s) (root s) b (old_value s) (gc s).
Definition set_old_value (v : Z) (s : state) : state :=
  mkState (mem s) (first_generation_start s) (first_generation_end s)
    (first_generation_allocation_ptr s) (first_generation_can_allocate_ptr s) (root s) (ix_is_ptr s) v (gc s).
Definition set_gc (g : gc_state) (s : state) : state :=
  mkState (mem s) (first_generation_start s) (first_generation_end s)
    (first_generation_allocation_ptr s) (first_generation_can_allocate_ptr s) (root s) (ix_is_ptr s) (old_value s) g.

(** * The monad

    [AssertFailed] is a failing [assert], [BadAddress] an access outside the
    image or outside a local array, [OutOfFuel] a loop that did not finish
    within the given fuel, [Exited] a call of [exit]. *)

Inductive error := AssertFailed | BadAddress | OutOfFuel | Exited.

Inductive result (A : Type) :=
| Ok (x : A) (s : state)
| Err (e : error).
Arguments Ok {A} _ _.
Arguments Err {A} _.

Definition M (A : Type) : Type := state → result A.

#[export] Instance M_ret : MRet M := λ A x s, Ok x s.
#[export] Instance M_bind : MBind M := λ A B f m s,
  match m s with
  | Ok x s' => f x s'
  | Err e => Err e
  end.

Definition fail {A} (e : error) : M A := λ _, Err e.
Definition get : M state := λ s, Ok s s.
Definition gets {A} (f : state → A) : M A := λ s, Ok (f s) s.
Definition modify (f : state → state) : M unit := λ s, Ok tt (f s).
Definition massert (b : bool) : M unit := if b then mret tt else fail AssertFailed.
Definition of_option {A} (o : option A) : M A :=
  match o with Some x => mret x | None => fail BadAddress end.

(** [load] and [store] access one word; [rd p i] is [p[i]] and [wr p i v] is
    [p[i] = v] for a [ptr_t p]. *)
Definition load (a : Z) : M Z := λ s,
  match mem s !! a with
  | Some w => Ok w s
  | None => Err BadAddress
  end.

Definition store (a v : Z) : M unit := λ s,
  match mem s !! a with
  | Some _ => Ok tt (set_mem (<[a := v]> (mem s)) s)
  | None => Err BadAddress
  end.

Definition rd (p i : Z) : M Z := load (p + 4 * i).
Definition wr (p i v : Z) : M unit := store (p + 4 * i) v.

(** [loop fuel body a] runs [body] on the loop's local variables until it
    yields [inr] (the loop's or the function's result). *)
Fixpoint loop {A B} (fuel : nat) (body : A → M (A + B)) (a : A) : M B :=
  match fuel with
  | O => fail OutOfFuel
  | S n => r ← body a;
           match r with
           | inl a' => loop n body a'
           | inr b => mret b
           end
  end.

(** [for_ n body a] runs [body 0], ..., [body (n - 1)] in order. *)
Fixpoint for_from {A} (k n : nat) (body : nat → A → M A) (a : A) : M A :=
  match n with
  | O => mret a
  | S n' => a' ← body k a; for_from (S k) n' body a'
  end.
Definition for_ {A} (n : nat) (body : nat → A → M A) (a : A) : M A :=
  for_from 0 n body a.

(** * Weakest preconditions

    [wp m Q s]: run from [s], [m] returns (no assertion fails, no access is
    out of bounds, the fuel suffices) and result and final state satisfy [Q]. *)

Definition wp {A} (m : M A) (Q : A → state → Prop) (s : state) : Prop :=
  match m s with
  | Ok x s' => Q x s'
  | Err _ => False
  end.

Section wp_rules.
Context {A B : Type}.
Implicit Types (s : state) (m : M A).

Lemma wp_ret (x : A) (Q : A → state → Prop) s : Q x s → wp (mret x) Q s.
Proof. done. Qed.

Lemma wp_bind m (f : A → M B) Q s :
  wp m (λ x, wp (f x) Q) s → wp (m ≫= f) Q s.
Proof. unfold wp, mbind, M_bind. by destruct (m s). Qed.

Lemma wp_bind_inv m (f : A → M B) Q s :
  wp (m ≫= f) Q s → wp m (λ x, wp (f x) Q) s.
Proof. unfold wp, mbind, M_bind. by destruct (m s). Qed.

Lemma wp_mono m (P Q : A → state → Prop) s :
  wp m P s → (∀ x s', P x s' → Q x s') → wp m Q s.
Proof. unfold wp. destruct (m s); [|done]. eauto. Qed.

Lemma wp_assert (b : bool) (Q : unit → state → Prop) s :
  b = true → Q tt s → wp (massert b) Q s.
Proof. by intros ->. Qed.

Lemma wp_gets (f : state → A) (Q : A → state → Prop) s :
  Q (f s) s → wp (gets f) Q s.
Proof. done. Qed.

Lemma wp_modify f (Q : unit → state → Prop) s : Q tt (f s) → wp (modify f) Q s.
Proof. done. Qed.

Lemma wp_of_option (o : option A) x Q s :
  o = Some x → Q x s → wp (of_option o) Q s.
Proof. by intros ->. Qed.

Lemma wp_load a w (Q : Z → state → Prop) s :
  mem s !! a = Some w → Q w s → wp (load a) Q s.
Proof. intros Ha HQ. unfold wp, load. by rewrite Ha. Qed.

Lemma wp_store a v (Q : unit → state → Prop) s :
  is_Some (mem s !! a) → Q tt (set_mem (<[a := v]> (mem s)) s) → wp (store a v) Q s.
Proof. intros [w Ha] HQ. unfold wp, store. by rewrite Ha. Qed.

(** A successful run is the [wp] of its result. *)
Lemma wp_run m x s s' (Q : A → state → Prop) : m s = Ok x s' → Q x s' → wp m Q s.
Proof. intros Hm HQ. unfold wp. by rewrite Hm. Qed.

Lemma wp_inv m Q s : wp m Q s → ∃ x s', m s = Ok x s' ∧ Q x s'.
Proof. unfold wp. destruct (m s); [eauto|done]. Qed.
End wp_rules.

(** Loop rule: an invariant [I n] indexed by the number of iterations that
    suffice from there. *)
Lemma wp_loop {A B} (I : nat → A → state → Prop) (body : A → M (A + B)) Q n fuel a s :
  (n < fuel)%nat →
  I n a s →
  (∀ n a s, I n a s → wp (body a) (λ r s',
     match r with
     | inl a' => ∃ n', (n' < n)%nat ∧ I n' a' s'
     | inr b => Q b s'
     end) s) →
  wp (loop fuel body a) Q s.
Proof.
  intros Hn HI Hbody. revert n a s Hn HI.
  induction fuel as [|fuel IH]; intros n a s Hn HI; [lia|]. simpl.
  apply wp_bind. eapply wp_mono; [by eapply Hbody|].
  intros [a'|b] s' Hr; [|by apply wp_ret].
  destruct Hr as (n' & Hn' & HI'). apply (IH n'); [lia|done].
Qed.

(** One iteration. *)
Lemma wp_loop_S {A B} fuel (body : A → M (A + B)) a (Q : B → state → Prop) s :
  wp (body a) (λ r s', match r with inl a' => wp (loop fuel body a') Q s' | inr b => Q b s' end) s → wp (loop (S fuel) body a) Q s.
Proof. intros H. apply wp_bind. eapply wp_mono; [exact H|]. intros [a'|b] s' HQ; [done|by apply wp_ret]. Qed.

Lemma wp_for_from {A} (I : nat → A → state → Prop) (body : nat → A → M A) Q k n a s :
  I k a s →
  (∀ i a s, (k ≤ i < k + n)%nat → I i a s → wp (body i a) (I (S i)) s) →
  (∀ a s, I (k + n)%nat a s → Q a s) →
  wp (for_from k n body a) Q s.
Proof.
  revert k a s. induction n as [|n IH]; intros k a s HI Hbody HQ; simpl.
  - apply wp_ret, HQ. by rewrite Nat.add_0_r.
  - apply wp_bind. eapply wp_mono; [apply Hbody; [lia|done]|].
    intros a' s' HI'. apply IH; [done| |].
    + intros i a'' s'' Hi. apply Hbody. lia.
    + intros a'' s''. rewrite Nat.add_succ_comm. apply HQ.
Qed.

Lemma wp_for {A} (I : nat → A → state → Prop) (body : nat → A → M A) Q n a s :
  I 0%nat a s →
  (∀ i a s, (i < n)%nat → I i a s → wp (body i a) (I (S i)) s) →
  (∀ a s, I n a s → Q a s) →
  wp (for_ n body a) Q s.
Proof. intros HI Hbody HQ. eapply wp_for_from; [done| |done]. intros. apply Hbody; [lia|done]. Qed.

(** More fuel never changes a result. *)
Lemma loop_fuel_mono {A B} (body : A → M (A + B)) n m a s x s' :
  loop n body a s = Ok x s' → (n ≤ m)%nat → loop m body a s = Ok x s'.
Proof.
  revert m a s. induction n as [|n IH]; intros m a s Hl Hle; [done|].
  destruct m as [|m]; [lia|]. simpl in *. unfold mbind, M_bind in *.
  destruct (body a s) as [[a'|b] s1|]; [|done|done]. apply IH; [done|lia].
Qed.

#[export] Hint Resolve wp_ret : wp.
