(* ===== verification/Celltypes.v ===== *)
(** Cell type tags (cells.h and the order of the declarations in cells-def.h)
    and the layout of a cell's first word: the tag in the uppermost eight bits,
    24 bits of cell-specific data below it. *)

From S2P Require Import Prelude Machine.

(** The enumeration [cell_type_t]. *)
Inductive cell_type :=
| CELL_bonk
| CELL_list
| CELL_object
| CELL_oid_freelist
| CELL_oid_object
| CELL_word_vector
| CELL_internal
| CELL_leaf
| CELL_queue
| CELL_queue_rev
| CELL_lq_entry_point
| CELL_lq_item00
| CELL_lq_item01
| CELL_lq_item10
| CELL_lq_item11
| CELL_priq_item
| CELL_ist234
| CELL_avl_internal
| CELL_avl_leaf
| CELL_history
| CELL_quad_trie
| CELL_tuple
| CELL_shtring
| CELL_shtring_chunk
| CELL_shtring_node
| CELL_shtring_intern_root
| CELL_shtring_intern_node
| CELL_shtring_cursor
| CELL_bcode
| CELL_cont
| CELL_context
| CELL_generation_pinfo
| CELL_forward_pointer
| CELL_trie1234
| CELL_trie123
| CELL_trie124
| CELL_trie12
| CELL_trie134
| CELL_trie13
| CELL_trie14
| CELL_trie1
| CELL_trie234
| CELL_trie23
| CELL_trie24
| CELL_trie2
| CELL_trie34
| CELL_trie3
| CELL_trie4.

#[export] Instance cell_type_eq_dec : EqDecision cell_type.
Proof. solve_decision. Defined.

(** The enumerators' values. *)
Definition cell_tag (t : cell_type) : Z :=
  match t with
  | CELL_bonk => 0
  | CELL_list => 1
  | CELL_object => 2
  | CELL_oid_freelist => 3
  | CELL_oid_object => 4
  | CELL_word_vector => 5
  | CELL_internal => 6
  | CELL_leaf => 7
  | CELL_queue => 8
  | CELL_queue_rev => 9
  | CELL_lq_entry_point => 10
  | CELL_lq_item00 => 11
  | CELL_lq_item01 => 12
  | CELL_lq_item10 => 13
  | CELL_lq_item11 => 14
  | CELL_priq_item => 15
  | CELL_ist234 => 16
  | CELL_avl_internal => 17
  | CELL_avl_leaf => 18
  | CELL_history => 19
  | CELL_quad_trie => 20
  | CELL_tuple => 21
  | CELL_shtring => 22
  | CELL_shtring_chunk => 23
  | CELL_shtring_node => 24
  | CELL_shtring_intern_root => 25
  | CELL_shtring_intern_node => 26
  | CELL_shtring_cursor => 27
  | CELL_bcode => 28
  | CELL_cont => 29
  | CELL_context => 30
  | CELL_generation_pinfo => 31
  | CELL_forward_pointer => 32
  | CELL_trie1234 => 33
  | CELL_trie123 => 34
  | CELL_trie124 => 35
  | CELL_trie12 => 36
  | CELL_trie134 => 37
  | CELL_trie13 => 38
  | CELL_trie14 => 39
  | CELL_trie1 => 40
  | CELL_trie234 => 41
  | CELL_trie23 => 42
  | CELL_trie24 => 43
  | CELL_trie2 => 44
  | CELL_trie34 => 45
  | CELL_trie3 => 46
  | CELL_trie4 => 47
  end.

Definition NUMBER_OF_CELLS : Z := 48.

Definition cell_types : list cell_type :=
  [CELL_bonk; CELL_list; CELL_object; CELL_oid_freelist;
   CELL_oid_object; CELL_word_vector; CELL_internal; CELL_leaf;
   CELL_queue; CELL_queue_rev; CELL_lq_entry_point; CELL_lq_item00;
   CELL_lq_item01; CELL_lq_item10; CELL_lq_item11; CELL_priq_item;
   CELL_ist234; CELL_avl_internal; CELL_avl_leaf; CELL_history;
   CELL_quad_trie; CELL_tuple; CELL_shtring; CELL_shtring_chunk;
   CELL_shtring_node; CELL_shtring_intern_root; CELL_shtring_intern_node; CELL_shtring_cursor;
   CELL_bcode; CELL_cont; CELL_context; CELL_generation_pinfo;
   CELL_forward_pointer; CELL_trie1234; CELL_trie123; CELL_trie124;
   CELL_trie12; CELL_trie134; CELL_trie13; CELL_trie14;
   CELL_trie1; CELL_trie234; CELL_trie23; CELL_trie24;
   CELL_trie2; CELL_trie34; CELL_trie3; CELL_trie4].

(** The conversion of a tag to the enumeration; [None] is a value that no
    enumerator has. *)
Definition cell_type_of (z : Z) : option cell_type :=
  if bool_decide (0 ≤ z) then cell_types !! Z.to_nat z else None.

Definition CELL_TYPE_BITS : Z := 8.
Definition CELL_TYPE_MASK : Z := 0xFF000000.
(** [0xFFFFFF], the mask of the cell-specific bits. *)
Definition LOW_MASK : Z := 0xFFFFFF.

(** [CELL_TYPE(p)]. *)
Definition CELL_TYPE (p : Z) : M (option cell_type) :=
  p0 ← rd p 0; mret (cell_type_of (shr32 p0 (32 - CELL_TYPE_BITS))).

(** * The first word of a cell *)

Definition header (t : cell_type) (low : Z) : Z :=
  shl32 (cell_tag t) (32 - CELL_TYPE_BITS) + low.

Lemma cell_type_of_tag t : cell_type_of (cell_tag t) = Some t.
Proof. by destruct t. Qed.

Lemma cell_tag_inj t1 t2 : cell_tag t1 = cell_tag t2 → t1 = t2.
Proof.
  intros H. apply (f_equal cell_type_of) in H. rewrite !cell_type_of_tag in H.
  congruence.
Qed.

Lemma cell_tag_range t : 0 ≤ cell_tag t < NUMBER_OF_CELLS.
Proof. unfold NUMBER_OF_CELLS. by destruct t. Qed.

Lemma cell_tag_shl t : shl32 (cell_tag t) (32 - CELL_TYPE_BITS) = cell_tag t * 2 ^ 24.
Proof. by destruct t. Qed.

Lemma header_add t low : header t low = cell_tag t * 2 ^ 24 + low.
Proof. unfold header. by rewrite cell_tag_shl. Qed.

Lemma header_0 t : header t 0 = shl32 (cell_tag t) (32 - CELL_TYPE_BITS).
Proof. unfold header. lia. Qed.

Section header.
Context (t : cell_type) (low : Z) (Hlow : 0 ≤ low < 2 ^ 24).

Lemma header_type : cell_type_of (shr32 (header t low) (32 - CELL_TYPE_BITS)) = Some t.
Proof.
  rewrite header_add. change (32 - CELL_TYPE_BITS) with 24.
  unfold shr32. rewrite Z.shiftr_div_pow2, Z.div_add_l, Z.div_small by lia.
  rewrite Z.add_0_r. apply cell_type_of_tag.
Qed.

Lemma header_low : Z.land (header t low) LOW_MASK = low.
Proof.
  rewrite header_add. change LOW_MASK with (2 ^ 24 - 1).
  rewrite land_ones_mod, Z.add_comm, Z_mod_plus_full by lia. by apply Z.mod_small.
Qed.

Lemma header_lor : Z.lor (header t 0) low = header t low.
Proof.
  rewrite !header_add, Z.add_0_r. apply lor_add_disjoint with 24; [lia..|].
  by apply Z_mod_mult.
Qed.

(** [x >>= 24; x <<= 24] clears the cell-specific bits. *)
Lemma header_clear : shl32 (shr32 (header t low) 24) 24 = header t 0.
Proof.
  rewrite !header_add. unfold shl32, shr32.
  rewrite Z.shiftr_div_pow2, Z.div_add_l, Z.div_small by lia.
  rewrite Z.shiftl_mul_pow2 by lia. rewrite !Z.add_0_r. apply w32_small.
  unfold is_word. rewrite word_modulus_val.
  pose proof (cell_tag_range t). unfold NUMBER_OF_CELLS in *. lia.
Qed.

(** So does [x &= 0xFF << 24]. *)
Lemma header_mask : Z.land (header t low) CELL_TYPE_MASK = header t 0.
Proof.
  rewrite !header_add, Z.add_0_r. change CELL_TYPE_MASK with (Z.shiftl (Z.ones 8) 24).
  apply Z.bits_inj'. intros i Hi. rewrite Z.land_spec, Z.shiftl_spec by lia.
  destruct (decide (i < 24)).
  - rewrite (Z.testbit_neg_r (Z.ones 8)), andb_false_r by lia.
    rewrite Z.mul_pow2_bits_low; [done|lia].
  - replace i with (i - 24 + 24) by lia. rewrite Z.add_simpl_r.
    rewrite <- (Z.div_pow2_bits (_ + low)) by lia.
    rewrite Z.div_add_l, Z.div_small, Z.add_0_r by lia.
    rewrite Z.mul_pow2_bits, Z.add_simpl_r by lia.
    destruct (decide (i - 24 < 8)).
    + rewrite Z.ones_spec_low by lia. by rewrite andb_true_r.
    + rewrite (Z.bits_above_log2 (cell_tag t)); [done| |].
      * pose proof (cell_tag_range t). lia.
      * apply Z.le_lt_trans with 5; [|lia]. destruct t; apply Z.leb_le; reflexivity.
Qed.

Lemma header_is_word : is_word (header t low).
Proof.
  rewrite header_add. unfold is_word. rewrite word_modulus_val.
  pose proof (cell_tag_range t). unfold NUMBER_OF_CELLS in *. lia.
Qed.
End header.

#[export] Hint Rewrite header_0 : header.
