(* ===== verification/Shades.v ===== *)
(** The first generation (shades.c, "The first generation and routines for
    managing it"; shades.h): allocation of cells, allocation points, and the
    predicates the index structures' proofs are written with.

    The debugging build without red zones is modelled: the assertions are
    executed and the unallocated part of the first generation holds
    [FIRST_GENERATION_DEADBEEF]. *)

From S2P Require Import Prelude Generations Machine Celltypes.

(** * Operations *)

(** The default page size of configure.in; [NUMBER_OF_WORDS_PER_PAGE] of
    shades.c. *)
Definition PAGE_SIZE : Z := 64 * 1024.
Definition NUMBER_OF_WORDS_PER_PAGE : Z := PAGE_SIZE / 4.

(** cookies.h *)
Definition FIRST_GENERATION_DEADBEEF : Z := 0xF6BEEF00.

Definition can_allocate (number_of_words : Z) : M bool :=
  ap ← gets first_generation_allocation_ptr;
  let p := ap - 4 * number_of_words in
  massert (bool_decide (2 ≤ number_of_words));;
  cp ← gets first_generation_can_allocate_ptr;
  (if bool_decide (p < cp) then modify (set_fg_can p) else mret tt);;
  e ← gets first_generation_end;
  mret (bool_decide (e ≤ ap - 4 * number_of_words)).

(** The common part of [allocate] and [raw_allocate]. *)
Definition raw_allocate (number_of_words : Z) : M Z :=
  massert (bool_decide (2 ≤ number_of_words));;
  massert (bool_decide (number_of_words ≤ NUMBER_OF_WORDS_PER_PAGE - 2));;
  ap ← gets first_generation_allocation_ptr;
  let p := ap - 4 * number_of_words in
  modify (set_fg_ptr p);;
  for_ (Z.to_nat number_of_words) (λ i _,
    w ← rd p (Z.of_nat i);
    massert (bool_decide (w = FIRST_GENERATION_DEADBEEF))) tt;;
  mret p.

Definition allocate (number_of_words : Z) (type : cell_type) : M Z :=
  p ← raw_allocate number_of_words;
  wr p 0 (shl32 (cell_tag type) (32 - CELL_TYPE_BITS));;
  mret p.

(** The loop of [restore_allocation_point] and [clear_first_generation] that
    overwrites [n] words from [a] on. *)
Definition deadbeef_loop (a : Z) (n : nat) : M unit :=
  for_ n (λ i _, wr a (Z.of_nat i) FIRST_GENERATION_DEADBEEF) tt.

Definition get_allocation_point : M Z := gets first_generation_allocation_ptr.

Definition restore_allocation_point (p : Z) : M unit :=
  ap ← gets first_generation_allocation_ptr;
  massert (bool_decide (ap ≤ p));;
  deadbeef_loop ap (Z.to_nat ((p - ap) / 4));;
  modify (set_fg_ptr p).

Definition is_in_first_generation (p : Z) : M bool :=
  e ← gets first_generation_end;
  ap ← gets first_generation_allocation_ptr;
  massert (negb (bool_decide (e ≤ p) && bool_decide (p < ap)));;
  mret (bool_decide (ap ≤ p)).

Definition clear_first_generation : M unit :=
  e ← gets first_generation_end;
  st ← gets first_generation_start;
  deadbeef_loop e (Z.to_nat ((st - e) / 4));;
  modify (set_fg_ptr st);;
  modify (set_fg_can st).

(** [init_shades]'s memory image: [db_words] words of pages, followed by a
    first generation of [fg_words] words that [clear_first_generation] has
    cleared.  The contents of the pages are irrelevant before recovery; they
    are 0 here. *)
Definition image (db_words fg_words : nat) : gmap Z Z :=
  list_to_map ((λ i : nat, (4 * Z.of_nat i,
    if bool_decide (i < db_words)%nat then 0 else FIRST_GENERATION_DEADBEEF))
    <$> seq 0 (db_words + fg_words)).

Definition init_state (db_words fg_words : nat) (r : list Z) : state :=
  let e := 4 * Z.of_nat db_words in
  let st := 4 * Z.of_nat (db_words + fg_words) in
  mkState (image db_words fg_words) st e st st r (replicate (length r) false) NULL_WORD initial_gc.

(** * Well-formed states *)

Record wf (s : state) : Prop := {
  wf_end : 0 < first_generation_end s;
  wf_start : first_generation_start s ≤ word_modulus;
  wf_ap : first_generation_end s ≤ first_generation_allocation_ptr s
          ≤ first_generation_start s;
  wf_aligned : first_generation_allocation_ptr s mod 4 = 0;
  wf_end_aligned : first_generation_end s mod 4 = 0;
  wf_start_aligned : first_generation_start s mod 4 = 0;
  wf_virgin : ∀ a, first_generation_end s ≤ a < first_generation_allocation_ptr s →
    a mod 4 = 0 → mem s !! a = Some FIRST_GENERATION_DEADBEEF;
  wf_mapped : ∀ a, first_generation_end s ≤ a < first_generation_start s →
    a mod 4 = 0 → is_Some (mem s !! a)
}.

(** There is room for [n] more words: what [can_allocate n] tests. *)
Definition room (s : state) (n : Z) : Prop :=
  first_generation_end s ≤ first_generation_allocation_ptr s - 4 * n.

#[export] Instance room_dec s n : Decision (room s n).
Proof. unfold room. apply _. Defined.

(** * The copy-on-write order on states

    [ext s s']: nothing that was allocated in [s] differs in [s']. *)

Definition live (s : state) (a : Z) : Prop :=
  a < first_generation_end s ∨ first_generation_allocation_ptr s ≤ a.

Record ext (s s' : state) : Prop := {
  ext_end : first_generation_end s' = first_generation_end s;
  ext_start : first_generation_start s' = first_generation_start s;
  ext_ap : first_generation_allocation_ptr s' ≤ first_generation_allocation_ptr s;
  ext_root : root s' = root s;
  ext_old_value : old_value s' = old_value s;
  ext_mem : ∀ a, live s a → mem s' !! a = mem s !! a
}.

Infix "⊑ₛ" := ext (at level 70) : shades_scope.
#[global] Open Scope shades_scope.

#[export] Instance ext_preorder : PreOrder ext.
Proof.
  split.
  - intros s. by split.
  - intros s1 s2 s3 [] []. split; [congruence|congruence|lia|congruence|congruence|].
    intros a Ha. rewrite ext_mem1, ext_mem0; [done|done|]. unfold live in *. lia.
Qed.

(** A cell: [blk s p ws] says the words [ws] are allocated at [p]. *)
Record blk (s : state) (p : Z) (ws : list Z) : Prop := {
  blk_pos : 0 < p;
  blk_aligned : p mod 4 = 0;
  blk_top : p + 4 * Z.of_nat (length ws) ≤ first_generation_start s;
  blk_live : p + 4 * Z.of_nat (length ws) ≤ first_generation_end s
             ∨ first_generation_allocation_ptr s ≤ p;
  blk_words : ∀ i w, ws !! i = Some w → mem s !! (p + 4 * Z.of_nat i) = Some w
}.

Lemma blk_ext s s' p ws : s ⊑ₛ s' → blk s p ws → blk s' p ws.
Proof.
  intros [] []. split; [done..|lia|lia|].
  intros i w Hi. rewrite ext_mem0; [by apply blk_words0|].
  apply lookup_lt_Some in Hi. unfold live. lia.
Qed.

Lemma blk_agree s p ws1 ws2 :
  blk s p ws1 → blk s p ws2 → length ws1 = length ws2 → ws1 = ws2.
Proof.
  intros H1 H2 Hl. apply list_eq. intros i. destruct (ws1 !! i) as [w|] eqn:E1.
  - assert (is_Some (ws2 !! i)) as [w' E2].
    { apply lookup_lt_is_Some. rewrite <- Hl. by eapply lookup_lt_Some. }
    apply (blk_words _ _ _ H1) in E1. rewrite E2.
    apply (blk_words _ _ _ H2) in E2. congruence.
  - apply lookup_ge_None in E1. rewrite Hl in E1. symmetry. by apply lookup_ge_None.
Qed.

(** * Cell environments

    A cell environment is a set of cells whose contents no longer change; the
    representation predicates of the index structures are stated over it, so
    that they do not depend on the state. *)

Definition cenv : Type := Z → list Z → Prop.
Definition cell : Type := Z * list Z.

Definition holds (s : state) (C : cenv) : Prop := ∀ p ws, C p ws → blk s p ws.
Definition adds (C : cenv) (cs : list cell) : cenv := λ p ws, C p ws ∨ (p, ws) ∈ cs.
Definition csub (C C' : cenv) : Prop := ∀ p ws, C p ws → C' p ws.

#[export] Instance csub_preorder : PreOrder csub.
Proof. split; [by intros C p ws|]. intros C1 C2 C3 H1 H2 p ws H. by apply H2, H1. Qed.

Lemma adds_base C cs : csub C (adds C cs).
Proof. intros p ws. by left. Qed.

Lemma adds_mono C C' cs cs' : csub C C' → cs ⊆ cs' → csub (adds C cs) (adds C' cs').
Proof. intros HC Hcs p ws [H|H]; [left; by apply HC|right; by apply Hcs]. Qed.

Lemma adds_nil C : csub (adds C []) C.
Proof. intros p ws [H|H]; [done|]. by apply not_elem_of_nil in H. Qed.

Lemma adds_assoc C cs cs' : csub (adds (adds C cs) cs') (adds C (cs' ++ cs)).
Proof. intros p ws [[H|H]|H]; unfold adds; rewrite elem_of_app; tauto. Qed.

Lemma holds_ext s s' C : s ⊑ₛ s' → holds s C → holds s' C.
Proof. intros Hs H p ws Hp. eapply blk_ext; eauto. Qed.

Lemma holds_csub s C C' : csub C C' → holds s C' → holds s C.
Proof. intros HC H p ws Hp. by apply H, HC. Qed.

Lemma holds_blk s : holds s (blk s).
Proof. by intros p ws. Qed.

(** * Growth of the first generation

    [grow s0 s u cs]: from [s0] to [s], [u] words were allocated and nothing
    older was touched; [cs] are (some of) the new cells with their present
    contents, at disjoint places.  The cells of [cs] may still be written. *)

Definition disj (c1 c2 : cell) : Prop :=
  c1.1 + 4 * Z.of_nat (length c1.2) ≤ c2.1 ∨ c2.1 + 4 * Z.of_nat (length c2.2) ≤ c1.1.

Definition fresh_cell (s0 s : state) (c : cell) : Prop :=
  blk s c.1 c.2 ∧
  first_generation_allocation_ptr s ≤ c.1 ∧
  c.1 + 4 * Z.of_nat (length c.2) ≤ first_generation_allocation_ptr s0.

Inductive pairwise : list cell → Prop :=
| pairwise_nil : pairwise []
| pairwise_cons c cs : Forall (disj c) cs → pairwise cs → pairwise (c :: cs).

Record grow (s0 s : state) (u : Z) (cs : list cell) : Prop := {
  grow_ext : s0 ⊑ₛ s;
  grow_wf : wf s;
  grow_used : first_generation_allocation_ptr s = first_generation_allocation_ptr s0 - 4 * u;
  grow_cells : Forall (fresh_cell s0 s) cs;
  grow_disj : pairwise cs
}.

Lemma disj_sym c1 c2 : disj c1 c2 → disj c2 c1.
Proof. unfold disj. lia. Qed.

Lemma pairwise_perm cs cs' : cs ≡ₚ cs' → pairwise cs → pairwise cs'.
Proof.
  induction 1 as [|c cs cs' HP IH|c1 c2 cs|cs1 cs2 cs3 _ IH1 _ IH2]; intros H.
  - done.
  - inversion_clear H. constructor; [|by apply IH]. by rewrite <- HP.
  - inversion_clear H as [|? ? H1 H2]. inversion_clear H2. inversion_clear H1.
    constructor; [constructor; [by apply disj_sym|done]|]. by constructor.
  - auto.
Qed.

Lemma pairwise_app cs1 cs2 :
  pairwise cs1 → pairwise cs2 → (∀ c1 c2, c1 ∈ cs1 → c2 ∈ cs2 → disj c1 c2) →
  pairwise (cs1 ++ cs2).
Proof.
  induction 1 as [|c cs1 Hc _ IH]; intros H2 H; [done|]. simpl. constructor.
  - apply Forall_app. split; [done|]. apply Forall_forall. intros. apply H; set_solver.
  - apply IH; [done|]. intros. apply H; set_solver.
Qed.

Lemma pairwise_app_inv cs1 cs2 : pairwise (cs1 ++ cs2) → pairwise cs1 ∧ pairwise cs2.
Proof.
  induction cs1 as [|c cs1 IH]; simpl; intros H; [by split; [constructor|]|].
  inversion_clear H as [|? ? Hc H']. apply Forall_app in Hc as [Hc _].
  apply IH in H' as [H1 H2]. split; [by constructor|done].
Qed.

Lemma grow_refl s : wf s → grow s s 0 [].
Proof. intros H. split; [done..|lia|by constructor|constructor]. Qed.

Lemma grow_perm s0 s u cs cs' : cs ≡ₚ cs' → grow s0 s u cs → grow s0 s u cs'.
Proof.
  intros HP []. split; [done..| |by eapply pairwise_perm]. by rewrite <- HP.
Qed.

Lemma grow_swap s0 s u c1 c2 cs : grow s0 s u (c1 :: c2 :: cs) → grow s0 s u (c2 :: c1 :: cs).
Proof. apply grow_perm. constructor. Qed.

Lemma grow_app_r s0 s u cs cs' : grow s0 s u (cs ++ cs') → grow s0 s u cs'.
Proof.
  intros []. split; [done..| |by eapply pairwise_app_inv].
  by eapply Forall_app.
Qed.

Lemma grow_app_l s0 s u cs cs' : grow s0 s u (cs ++ cs') → grow s0 s u cs.
Proof. intros H. eapply grow_app_r, grow_perm, H. apply Permutation_app_comm. Qed.

Lemma grow_holds s0 s u cs C : grow s0 s u cs → holds s0 C → holds s (adds C cs).
Proof.
  intros [] H p ws [Hp|Hp].
  - eapply blk_ext; [done|]. by apply H.
  - rewrite Forall_forall in grow_cells0. apply (grow_cells0 _ Hp).
Qed.

Lemma grow_room s0 s u cs n : grow s0 s u cs → room s0 (u + n) → room s n.
Proof. intros [] H. unfold room in *. destruct grow_ext0. lia. Qed.

Lemma grow_trans s0 s1 s2 u1 u2 cs1 cs2 :
  grow s0 s1 u1 cs1 → grow s1 s2 u2 cs2 → grow s0 s2 (u1 + u2) (cs2 ++ cs1).
Proof.
  intros [E1 W1 U1 F1 D1] [E2 W2 U2 F2 D2]. rewrite Forall_forall in F1, F2.
  pose proof (ext_ap _ _ E1). pose proof (ext_ap _ _ E2).
  split; [by etrans|done|lia| |].
  - apply Forall_app; split; apply Forall_forall; intros c Hc.
    + destruct (F2 _ Hc) as (?&?&?). split; [done|]. lia.
    + destruct (F1 _ Hc) as (?&?&?). split; [by eapply blk_ext|]. lia.
  - apply pairwise_app; [done..|]. intros c1 c2 Hc1 Hc2.
    destruct (F2 _ Hc1) as (?&?&?), (F1 _ Hc2) as (?&?&?). left. lia.
Qed.

(** * The other variables

    Cells, allocation and well-formedness do not depend on the root block and
    on the static variables. *)

Definition same_cells (s s' : state) : Prop :=
  mem s' = mem s ∧ first_generation_start s' = first_generation_start s ∧
  first_generation_end s' = first_generation_end s ∧
  first_generation_allocation_ptr s' = first_generation_allocation_ptr s.

Lemma same_cells_blk s s' p ws : same_cells s s' → blk s p ws → blk s' p ws.
Proof. intros (Em & Es & Ee & Ea) []. by split; rewrite ?Em, ?Es, ?Ee, ?Ea. Qed.

Lemma same_cells_holds s s' C : same_cells s s' → holds s C → holds s' C.
Proof. intros Hs H p ws Hp. eapply same_cells_blk; eauto. Qed.

Lemma same_cells_wf s s' : same_cells s s' → wf s → wf s'.
Proof. intros (Em & Es & Ee & Ea) []. by split; rewrite ?Em, ?Es, ?Ee, ?Ea. Qed.

Lemma same_cells_room s s' n : same_cells s s' → room s n → room s' n.
Proof. intros (Em & Es & Ee & Ea). unfold room. by rewrite Ee, Ea. Qed.

Lemma set_root_same_cells s r : same_cells s (set_root r s).
Proof. done. Qed.

Lemma set_old_value_same_cells s v : same_cells s (set_old_value v s).
Proof. done. Qed.

Lemma grow_set_old_value s0 s u cs v :
  grow s0 s u cs → grow (set_old_value v s0) (set_old_value v s) u cs.
Proof.
  intros [[] Hw Hu Hc Hd]. split; [done| |done| |done].
  - eapply same_cells_wf, Hw. apply set_old_value_same_cells.
  - eapply Forall_impl; [exact Hc|]. intros c (Hb & H). split; [|exact H].
    eapply same_cells_blk, Hb. apply set_old_value_same_cells.
Qed.

(** * Rules for the primitives *)

Lemma wp_rd s p ws i w (Q : Z → state → Prop) :
  blk s p ws → 0 ≤ i → ws !! Z.to_nat i = Some w → Q w s → wp (rd p i) Q s.
Proof.
  intros Hb Hi Hw HQ. unfold rd. eapply wp_load; [|done].
  rewrite <- (Z2Nat.id i) at 1 by done. by apply (blk_words _ _ _ Hb).
Qed.

Lemma wp_CELL_TYPE s p ws w (Q : option cell_type → state → Prop) :
  blk s p ws → ws !! 0%nat = Some w →
  Q (cell_type_of (shr32 w (32 - CELL_TYPE_BITS))) s → wp (CELL_TYPE p) Q s.
Proof. intros Hb Hw HQ. apply wp_bind. eapply wp_rd; [done..|]. by apply wp_ret. Qed.

Section store.
Context (s : state) (a v : Z).
Let s' := set_mem (<[a := v]> (mem s)) s.

Lemma store_ext s0 :
  s0 ⊑ₛ s → ¬ live s0 a → s0 ⊑ₛ s'.
Proof.
  intros [] Ha. split; simpl; [done..|]. intros b Hb.
  rewrite lookup_insert_ne; [by apply ext_mem0|]. by intros ->.
Qed.

Lemma store_wf :
  wf s → first_generation_allocation_ptr s ≤ a → wf s'.
Proof.
  intros [] Ha. split; simpl; [done..| |].
  - intros b Hb Hm. rewrite lookup_insert_ne by lia. by apply wf_virgin0.
  - intros b Hb Hm. destruct (decide (a = b)) as [<-|].
    + rewrite lookup_insert_eq. eauto.
    + rewrite lookup_insert_ne by done. eauto.
Qed.

Lemma store_blk_ne p ws :
  blk s p ws → a < p ∨ p + 4 * Z.of_nat (length ws) ≤ a → blk s' p ws.
Proof.
  intros [] Ha. split; simpl; [done..|]. intros i w Hi.
  pose proof (lookup_lt_Some _ _ _ Hi). rewrite lookup_insert_ne by lia. eauto.
Qed.

Lemma store_blk_eq p ws i :
  blk s p ws → (i < length ws)%nat → a = p + 4 * Z.of_nat i → blk s' p (<[i := v]> ws).
Proof.
  intros [] Hi Ha. split; simpl; rewrite ?length_insert; [done..|]. intros j w Hj.
  destruct (decide (i = j)) as [<-|].
  - rewrite list_lookup_insert_eq in Hj by done. simplify_eq. apply lookup_insert_eq.
  - rewrite list_lookup_insert_ne in Hj by done. rewrite lookup_insert_ne by lia. eauto.
Qed.
End store.

(** [p\[i\] = v] on a new cell. *)
Lemma wp_wr s0 s u cs k p ws i v (Q : unit → state → Prop) :
  grow s0 s u cs →
  cs !! k = Some (p, ws) → 0 ≤ i < Z.of_nat (length ws) →
  (∀ s', grow s0 s' u (<[k := (p, <[Z.to_nat i := v]> ws)]> cs) → Q tt s') →
  wp (wr p i v) Q s.
Proof.
  intros [He Hw Hu Hc Hd] Hk Hi HQ. unfold wr.
  pose proof (proj1 (Forall_lookup _ _) Hc _ _ Hk) as (Hb & Hp & Htop). simpl in *.
  pose proof (ext_ap _ _ He). pose proof (wf_ap _ Hw).
  apply wp_store.
  { destruct (ws !! Z.to_nat i) as [w|] eqn:E.
    - apply (blk_words _ _ _ Hb) in E. rewrite Z2Nat.id in E by lia. eauto.
    - apply lookup_ge_None in E. lia. }
  apply HQ. assert (Hne : ∀ k' c, k ≠ k' → cs !! k' = Some c → disj c (p, ws)).
  { clear -Hd Hk. intros k' c Hkk Hk'. revert k k' Hk Hk' Hkk.
    induction Hd as [|c' cs Hf _ IH]; intros k k' Hk Hk' Hkk; [done|].
    rewrite Forall_lookup in Hf.
    destruct k as [|k], k' as [|k']; simplify_eq/=; eauto using disj_sym. }
  split; simpl; [| |done| |].
  - apply store_ext; [done|]. unfold live. destruct He. lia.
  - apply store_wf; [done|lia].
  - apply Forall_lookup. intros k' c Hc'. rewrite Forall_lookup in Hc.
    destruct (decide (k = k')) as [<-|Hkk].
    + rewrite list_lookup_insert_eq in Hc' by (by eapply lookup_lt_Some). simplify_eq.
      split; [|by simpl; rewrite length_insert]. simpl.
      apply store_blk_eq; [done|lia|lia].
    + rewrite list_lookup_insert_ne in Hc' by done.
      destruct (Hc _ _ Hc') as (?&?&?). split; [|done].
      apply store_blk_ne; [done|]. specialize (Hne _ _ Hkk Hc').
      unfold disj in Hne. simpl in Hne. lia.
  - clear -Hd Hk. revert k Hk. induction Hd as [|c' cs Hf Hp IH]; intros k Hk; [done|].
    destruct k as [|k]; simplify_eq/=; constructor; [|done| |by apply IH].
    + eapply Forall_impl; [done|]. unfold disj. simpl. intros c. by rewrite length_insert.
    + apply Forall_insert; [done|]. rewrite Forall_lookup in Hf. specialize (Hf _ _ Hk).
      unfold disj in *. simpl in *. by rewrite length_insert.
Qed.

Lemma set_fg_ptr_ext s p :
  p ≤ first_generation_allocation_ptr s → s ⊑ₛ set_fg_ptr p s.
Proof. intros Hp. by split. Qed.

Lemma wp_raw_allocate s0 s u cs n (Q : Z → state → Prop) :
  grow s0 s u cs → room s0 (u + n) → 2 ≤ n ≤ NUMBER_OF_WORDS_PER_PAGE - 2 →
  (∀ p s', p = first_generation_allocation_ptr s - 4 * n →
    grow s0 s' (u + n) ((p, replicate (Z.to_nat n) FIRST_GENERATION_DEADBEEF) :: cs) →
    Q p s') →
  wp (raw_allocate n) Q s.
Proof.
  intros HG Hroom Hn HQ. unfold raw_allocate.
  assert (wf s) as Hw by apply HG. pose proof (grow_room _ _ _ _ n HG Hroom) as Hr.
  unfold room in Hr. pose proof (wf_ap _ Hw). pose proof (wf_aligned _ Hw).
  do 2 (apply wp_bind, wp_assert; [apply bool_decide_eq_true; lia|]).
  apply wp_bind, wp_gets. apply wp_bind, wp_modify.
  set (p := first_generation_allocation_ptr s - 4 * n). set (s' := set_fg_ptr p s).
  assert (Hpm : p mod 4 = 0).
  { subst p. rewrite Zminus_mod, (Z.mul_comm 4), Z_mod_mult, H0. done. }
  apply wp_bind. apply wp_for with (I := λ _ _ s1, s1 = s'); [done| |].
  - intros i _ s1 Hi ->. apply wp_bind. eapply wp_load with FIRST_GENERATION_DEADBEEF.
    + simpl. apply (wf_virgin _ Hw); [subst p; lia|].
      by rewrite Zplus_mod, (Z.mul_comm 4), Z_mod_mult, Hpm.
    + by apply wp_assert; [apply bool_decide_eq_true|].
  - intros _ s1 ->. apply wp_ret, HQ; [done|].
    assert (Hext : s ⊑ₛ s') by (apply set_fg_ptr_ext; subst p; lia).
    assert (Hw' : wf s').
    { destruct Hw. split; simpl; [done..|lia|done|done|done| |done].
      intros a Ha. apply wf_virgin0. lia. }
    replace ((p, _) :: cs) with ([(p, replicate (Z.to_nat n) FIRST_GENERATION_DEADBEEF)] ++ cs) by done.
    eapply grow_trans; [done|]. split; [done..| |].
    + apply Forall_singleton. unfold fresh_cell. simpl. rewrite length_replicate.
      pose proof (wf_end _ Hw). pose proof (wf_start _ Hw).
      split; [|lia]. split; rewrite ?length_replicate; simpl; [lia|done|lia|lia|].
      intros i w Hi. apply lookup_replicate in Hi as [-> Hi].
      apply (wf_virgin _ Hw); [lia|].
      by rewrite Zplus_mod, (Z.mul_comm 4), Z_mod_mult, Hpm.
    + repeat constructor.
Qed.

Lemma wp_allocate s0 s u cs n t (Q : Z → state → Prop) :
  grow s0 s u cs → room s0 (u + n) → 2 ≤ n ≤ NUMBER_OF_WORDS_PER_PAGE - 2 →
  (∀ p s', 0 < p →
    grow s0 s' (u + n)
      ((p, header t 0 :: replicate (Z.to_nat n - 1) FIRST_GENERATION_DEADBEEF) :: cs) →
    Q p s') →
  wp (allocate n t) Q s.
Proof.
  intros HG Hroom Hn HQ. apply wp_bind. eapply wp_raw_allocate; [done..|].
  intros p s' _ HG'. apply wp_bind. eapply (wp_wr _ _ _ _ 0%nat); [done..| |].
  { rewrite length_replicate. lia. }
  intros s'' HG''. apply wp_ret, HQ.
  - pose proof (grow_cells _ _ _ _ HG'') as Hc. simpl in Hc.
    apply Forall_cons in Hc as [[Hb _] _]. by apply blk_pos in Hb.
  - rewrite header_0. destruct (Z.to_nat n) as [|m] eqn:Em; [lia|].
    simpl in HG''. rewrite Nat.sub_succ, Nat.sub_0_r. done.
Qed.

Lemma wp_deadbeef s a n (Q : unit → state → Prop) :
  (∀ i, (i < n)%nat → is_Some (mem s !! (a + 4 * Z.of_nat i))) →
  (∀ m,
    (∀ b, mem s !! b = None → m !! b = None) →
    (∀ i, (i < n)%nat → m !! (a + 4 * Z.of_nat i) = Some FIRST_GENERATION_DEADBEEF) →
    (∀ b, b < a ∨ a + 4 * Z.of_nat n ≤ b → m !! b = mem s !! b) →
    (∀ b, is_Some (mem s !! b) → is_Some (m !! b)) →
    Q tt (set_mem m s)) →
  wp (deadbeef_loop a n) Q s.
Proof.
  intros Hmapped HQ.
  apply wp_for with (I := λ k _ s1, ∃ m, s1 = set_mem m s ∧
    (∀ b, mem s !! b = None → m !! b = None) ∧
    (∀ i, (i < k)%nat → m !! (a + 4 * Z.of_nat i) = Some FIRST_GENERATION_DEADBEEF) ∧
    (∀ b, b < a ∨ a + 4 * Z.of_nat k ≤ b → m !! b = mem s !! b) ∧
    (∀ b, is_Some (mem s !! b) → is_Some (m !! b))).
  - exists (mem s). split; [by destruct s|]. split; [done|]. split; [lia|]. done.
  - intros i _ s1 Hi (m & -> & Hn & Hd & Ho & Hs). apply wp_store; [by apply Hs, Hmapped|].
    exists (<[a + 4 * Z.of_nat i := FIRST_GENERATION_DEADBEEF]> m).
    split; [done|]. split; [|split; [|split]].
    + intros b Hb. destruct (decide (a + 4 * Z.of_nat i = b)) as [<-|].
      * destruct (Hmapped _ Hi). congruence.
      * rewrite lookup_insert_ne by done. by apply Hn.
    + intros j Hj. destruct (decide (i = j)) as [<-|]; [apply lookup_insert_eq|].
      rewrite lookup_insert_ne by lia. apply Hd. lia.
    + intros b Hb. rewrite lookup_insert_ne by lia. apply Ho. lia.
    + intros b Hb. destruct (decide (a + 4 * Z.of_nat i = b)) as [<-|].
      * rewrite lookup_insert_eq. eauto.
      * rewrite lookup_insert_ne by done. by apply Hs.
  - intros [] s1 (m & -> & Hn & Hd & Ho & Hs). by apply HQ.
Qed.

Lemma aligned_offset a b : a mod 4 = 0 → b mod 4 = 0 → a ≤ b →
  a + 4 * Z.of_nat (Z.to_nat ((b - a) / 4)) = b.
Proof.
  intros Ha Hb Hab. rewrite Z2Nat.id by (apply Z.div_pos; lia).
  pose proof (Z.div_mod (b - a) 4 ltac:(lia)) as H.
  rewrite Zminus_mod, Ha, Hb in H. change (0 - 0) with 0 in H.
  rewrite Zmod_0_l in H. lia.
Qed.

(** The [i]th word of an aligned range. *)
Lemma aligned_index a b n : a mod 4 = 0 → b mod 4 = 0 → a ≤ b < a + 4 * Z.of_nat n →
  ∃ i, (i < n)%nat ∧ b = a + 4 * Z.of_nat i.
Proof.
  intros Ha Hb Hab. exists (Z.to_nat ((b - a) / 4)).
  pose proof (aligned_offset a b Ha Hb ltac:(lia)). lia.
Qed.

Lemma aligned_word a i : a mod 4 = 0 → (a + 4 * i) mod 4 = 0.
Proof. intros Ha. by rewrite Zplus_mod, (Z.mul_comm 4), Z_mod_mult, Ha. Qed.

(** [restore_allocation_point(ap)] of an allocation point [ap] taken in [s0]
    gives back all that was allocated since. *)
Lemma wp_restore s0 s u cs (Q : unit → state → Prop) :
  wf s0 → grow s0 s u cs →
  (∀ s', grow s0 s' 0 [] → Q tt s') →
  wp (restore_allocation_point (first_generation_allocation_ptr s0)) Q s.
Proof.
  intros Hw0 HG HQ. destruct HG as [He Hw Hu _ _].
  pose proof (wf_ap _ Hw). pose proof (wf_ap _ Hw0). pose proof (ext_ap _ _ He).
  pose proof (ext_end _ _ He). pose proof (ext_start _ _ He).
  set (p := first_generation_allocation_ptr s0) in *.
  set (ap := first_generation_allocation_ptr s) in *.
  apply wp_bind, wp_gets. apply wp_bind, wp_assert; [by apply bool_decide_eq_true|].
  pose proof (aligned_offset ap p (wf_aligned _ Hw) (wf_aligned _ Hw0) ltac:(lia)) as Hoff.
  apply wp_bind, wp_deadbeef; fold ap.
  { intros i Hi. apply (wf_mapped _ Hw); [lia|]. apply aligned_word, Hw. }
  intros m _ Hd Ho Hs. apply wp_modify, HQ.
  split; [| |simpl; subst p; lia|constructor|constructor].
  - destruct He as [? ? ? ? ? Hm]. split; simpl; [done..|]. intros a Ha.
    rewrite <- (Hm a Ha). apply Ho. unfold live in Ha.
    pose proof (wf_ap _ Hw0). fold p in Ha. lia.
  - split; simpl; [apply Hw|apply Hw|fold p; lia|apply Hw0|apply Hw|apply Hw| |].
    + intros a Ha Hm. destruct (decide (a < ap)).
      * rewrite Ho by lia. apply (wf_virgin _ Hw); [fold ap; lia|done].
      * destruct (aligned_index ap a (Z.to_nat ((p - ap) / 4))) as (i & Hi & ->);
          [apply Hw|done|lia|]. by apply Hd.
    + intros a Ha Hm. by apply Hs, (wf_mapped _ Hw).
Qed.

(** [can_allocate(n)] answers whether there is room for [n] words. *)
Lemma wp_can_allocate s0 s u cs n (Q : bool → state → Prop) :
  grow s0 s u cs → 2 ≤ n →
  (∀ s', grow s0 s' u cs → Q (bool_decide (room s0 (u + n))) s') →
  wp (can_allocate n) Q s.
Proof.
  intros [He Hw Hu Hc Hd] Hn HQ.
  assert (Hset : ∀ c, grow s0 (set_fg_can c s) u cs).
  { intros c. split; [by destruct He|by destruct Hw|done| |done].
    eapply Forall_impl; [done|]. intros x ([] & ?). by split. }
  assert (Hr : first_generation_end s ≤ first_generation_allocation_ptr s - 4 * n
    ↔ room s0 (u + n)).
  { unfold room. destruct He. lia. }
  apply wp_bind, wp_gets. apply wp_bind, wp_assert; [by apply bool_decide_eq_true|].
  apply wp_bind, wp_gets. apply wp_bind.
  destruct (bool_decide (_ < _)); [apply wp_modify|apply wp_ret];
    apply wp_bind, wp_gets; apply wp_ret;
    rewrite (bool_decide_ext _ _ Hr); apply HQ; [done|by split].
Qed.

(** [is_in_first_generation] distinguishes the cells allocated since the last
    [flush_batch] from those of mature generations. *)
Lemma wp_is_in_first_generation s p (Q : bool → state → Prop) :
  wf s → live s p → Q (bool_decide (first_generation_allocation_ptr s ≤ p)) s →
  wp (is_in_first_generation p) Q s.
Proof.
  intros Hw Hl HQ. do 2 apply wp_bind, wp_gets. apply wp_bind, wp_assert.
  - unfold live in Hl. rewrite <- !bool_decide_and, <- bool_decide_not.
    apply bool_decide_eq_true. lia.
  - by apply wp_ret.
Qed.

(** [clear_first_generation] makes the whole first generation available again
    and touches no page. *)
Lemma wp_clear_first_generation_all s (Q : unit → state → Prop) :
  wf s →
  (∀ m, wf (set_fg_can (first_generation_start s) (set_fg_ptr (first_generation_start s) (set_mem m s))) →
    (∀ a, a < first_generation_end s → m !! a = mem s !! a) →
    Q tt (set_fg_can (first_generation_start s) (set_fg_ptr (first_generation_start s) (set_mem m s)))) →
  wp clear_first_generation Q s.
Proof.
  intros Hw HQ. do 2 apply wp_bind, wp_gets. pose proof (wf_ap _ Hw).
  pose proof (aligned_offset _ _ (wf_end_aligned _ Hw) (wf_start_aligned _ Hw) ltac:(lia)) as Hoff.
  apply wp_bind, wp_deadbeef.
  { intros i Hi. apply (wf_mapped _ Hw); [lia|]. apply aligned_word, Hw. }
  intros m _ Hd Ho Hs. apply wp_bind, wp_modify, wp_modify.
  apply (HQ m); simpl; [|intros; apply Ho; lia].
  split; simpl; [apply Hw|apply Hw|lia|apply Hw|apply Hw|apply Hw| |].
  - intros a Ha Hm.
    destruct (aligned_index (first_generation_end s) a
      (Z.to_nat ((first_generation_start s - first_generation_end s) / 4)))
      as (i & Hi & ->); [apply Hw|done|lia|]. by apply Hd.
  - intros a Ha Hm. by apply Hs, (wf_mapped _ Hw).
Qed.

(** * Initial states *)

Lemma image_lookup db fg i : (i < db + fg)%nat →
  image db fg !! (4 * Z.of_nat i) =
    Some (if bool_decide (i < db)%nat then 0 else FIRST_GENERATION_DEADBEEF).
Proof.
  intros Hi. unfold image. apply elem_of_list_to_map_1.
  - rewrite <- list_fmap_compose. apply NoDup_fmap_2; [|apply NoDup_seq].
    intros a b. simpl. lia.
  - apply list_elem_of_fmap. exists i. split; [done|]. apply elem_of_seq. lia.
Qed.

Lemma init_state_wf db fg r :
  (0 < db)%nat → 4 * (Z.of_nat db + Z.of_nat fg) ≤ word_modulus → wf (init_state db fg r).
Proof.
  intros Hdb Hmax. split; simpl; [lia..| | | | |].
  1-3: by rewrite Z.mul_comm, Z_mod_mult.
  - intros a Ha Hm. destruct (aligned_index 0 a (db + fg)) as (i & Hi & ->); [done|done|lia|].
    rewrite Z.add_0_l, image_lookup by done. rewrite bool_decide_eq_false_2; [done|lia].
  - intros a Ha Hm. destruct (aligned_index 0 a (db + fg)) as (i & Hi & ->); [done|done|lia|].
    rewrite Z.add_0_l, image_lookup by done. eauto.
Qed.

Lemma init_state_room db fg r n : 4 * n ≤ 4 * Z.of_nat fg → room (init_state db fg r) n.
Proof. unfold room. simpl. lia. Qed.

(** * Deciding on concrete states

    [wfb] and [blkb] evaluate [wf] and [blk]. *)

Definition wfb (s : state) : bool :=
  let e := first_generation_end s in
  let st := first_generation_start s in
  let ap := first_generation_allocation_ptr s in
  bool_decide (0 < e ∧ st ≤ word_modulus ∧ (e ≤ ap ∧ ap ≤ st) ∧
    ap mod 4 = 0 ∧ e mod 4 = 0 ∧ st mod 4 = 0) &&
  forallb (λ i, bool_decide (mem s !! (e + 4 * Z.of_nat i) = Some FIRST_GENERATION_DEADBEEF))
    (seq 0 (Z.to_nat ((ap - e) / 4))) &&
  forallb (λ i, bool_decide (is_Some (mem s !! (e + 4 * Z.of_nat i))))
    (seq 0 (Z.to_nat ((st - e) / 4))).

Lemma wfb_sound s : wfb s = true → wf s.
Proof.
  unfold wfb. rewrite !andb_true_iff, !forallb_forall. intros [[H1 H2] H3].
  apply bool_decide_eq_true in H1 as (?&?&[??]&Hap&He&Hst).
  split; [done..| |].
  - intros a Ha Hm.
    pose proof (aligned_offset _ _ He Hap ltac:(lia)) as Hoff.
    destruct (aligned_index (first_generation_end s) a
      (Z.to_nat ((first_generation_allocation_ptr s - first_generation_end s) / 4)))
      as (i & Hi & ->); [done|done|lia|].
    eapply bool_decide_eq_true, H2, in_seq. lia.
  - intros a Ha Hm.
    pose proof (aligned_offset _ _ He Hst ltac:(lia)) as Hoff.
    destruct (aligned_index (first_generation_end s) a
      (Z.to_nat ((first_generation_start s - first_generation_end s) / 4)))
      as (i & Hi & ->); [done|done|lia|].
    eapply bool_decide_eq_true, H3, in_seq. lia.
Qed.

Definition blkb (s : state) (p : Z) (ws : list Z) : bool :=
  let n := 4 * Z.of_nat (length ws) in
  bool_decide (0 < p ∧ p mod 4 = 0 ∧ p + n ≤ first_generation_start s ∧
    (p + n ≤ first_generation_end s ∨ first_generation_allocation_ptr s ≤ p)) &&
  bool_decide (imap (λ i _, mem s !! (p + 4 * Z.of_nat i)) ws = Some <$> ws).

Lemma blkb_sound s p ws : blkb s p ws = true → blk s p ws.
Proof.
  unfold blkb. rewrite andb_true_iff, !bool_decide_eq_true.
  intros [(?&?&?&?) E]. split; [done..|]. intros i w Hw.
  apply (f_equal (.!! i)) in E. rewrite list_lookup_imap, list_lookup_fmap, Hw in E.
  by simplify_eq/=.
Qed.

(** The state and the value a run ends with. *)
Definition exec {A} (m : M A) (s : state) : state :=
  match m s with Ok _ s' => s' | Err _ => s end.
Definition value {A} (d : A) (m : M A) (s : state) : A :=
  match m s with Ok x _ => x | Err _ => d end.

(** * Properties *)

(** C11. [can_allocate(n)] tells the truth: it returns, it changes nothing that
    a later call observes, and if it answers non-zero then [allocate(n, type)]
    does not fail; the new cell lies where nothing was allocated before, its tag
    is in place, all other words of it are free to use, and no old cell is
    touched. *)
Theorem can_allocate_allocate n t s :
  wf s → 2 ≤ n ≤ NUMBER_OF_WORDS_PER_PAGE - 2 →
  ∃ b s1, can_allocate n s = Ok b s1 ∧ s ⊑ₛ s1 ∧ s1 ⊑ₛ s ∧ wf s1 ∧
    (b = true ↔ room s n) ∧
    (b = true → ∃ p s2, allocate n t s1 = Ok p s2 ∧ s ⊑ₛ s2 ∧ wf s2 ∧
      p = first_generation_allocation_ptr s - 4 * n ∧
      first_generation_allocation_ptr s2 = p ∧
      blk s2 p (header t 0 :: replicate (Z.to_nat n - 1) FIRST_GENERATION_DEADBEEF)).
Proof.
  intros Hw Hn.
  assert (Hcan : wp (can_allocate n) (λ b s1,
    b = bool_decide (room s n) ∧ grow s s1 0 [] ∧
    first_generation_allocation_ptr s1 = first_generation_allocation_ptr s) s).
  { eapply wp_can_allocate; [by apply grow_refl|lia|]. intros s1 HG.
    split; [done|]. split; [done|]. rewrite (grow_used _ _ _ _ HG). lia. }
  apply wp_inv in Hcan as (b & s1 & E & -> & HG & Hap).
  exists (bool_decide (room s n)), s1. split; [done|]. split; [apply HG|].
  split; [|split; [apply HG|split; [apply bool_decide_eq_true|]]].
  { destruct (grow_ext _ _ _ _ HG) as [He1 He2 He3 He4 He5 Hm]. split; [done|done|lia|done|done|].
    intros a Ha. symmetry. apply Hm. unfold live in *. lia. }
  intros Hr%bool_decide_eq_true.
  assert (Hal : wp (allocate n t) (λ p s2, s ⊑ₛ s2 ∧ wf s2 ∧
      p = first_generation_allocation_ptr s - 4 * n ∧
      first_generation_allocation_ptr s2 = p ∧
      blk s2 p (header t 0 :: replicate (Z.to_nat n - 1) FIRST_GENERATION_DEADBEEF)) s1).
  { eapply wp_allocate; [exact HG|done|done|]. intros p s2 Hp HG2.
    pose proof (grow_used _ _ _ _ HG2) as Hu.
    pose proof (grow_cells _ _ _ _ HG2) as Hc.
    apply Forall_cons in Hc as [(Hb & Hlo & Hhi) _]. cbn [fst snd length] in *.
    rewrite length_replicate in Hhi.
    split; [apply HG2|]. split; [apply HG2|]. split; [lia|]. split; [lia|done]. }
  apply wp_inv in Hal as (p & s2 & ? & ?). by exists p, s2.
Qed.

Lemma can_allocate_allocate_witness :
  let s := init_state 4 100 [] in
  ∃ b s1, can_allocate 5 s = Ok b s1 ∧ s ⊑ₛ s1 ∧ s1 ⊑ₛ s ∧ wf s1 ∧
    (b = true ↔ room s 5) ∧
    (b = true → ∃ p s2, allocate 5 CELL_queue s1 = Ok p s2 ∧ s ⊑ₛ s2 ∧ wf s2 ∧
      p = first_generation_allocation_ptr s - 4 * 5 ∧
      first_generation_allocation_ptr s2 = p ∧
      blk s2 p (header CELL_queue 0 :: replicate (Z.to_nat 5 - 1) FIRST_GENERATION_DEADBEEF)).
Proof.
  apply (can_allocate_allocate 5 CELL_queue (init_state 4 100 [])).
  - apply wfb_sound. by vm_compute.
  - by vm_compute.
Defined.
