(* ===== verification/Cow.v ===== *)
(** Symbolic execution of copy-on-write code: the tactics that run a C
    function's model under a [grow] hypothesis, and the rule for calls. *)

From S2P Require Import Prelude Machine Celltypes Shades.

(** * Pointers to pointers, as the functions use them that link copies to copies *)

(** [pp]: the address of [new_root] or of a word of a cell. *)
Inductive slot_ptr := RootSlot | CellSlot (p i : Z).

(** [*pp = v]; it yields the value of [new_root]. *)
Definition set_slot (pp : slot_ptr) (v new_root : Z) : M Z :=
  match pp with
  | RootSlot => mret v
  | CellSlot p i => wr p i v;; mret new_root
  end.

(** [p\[0\] |= v] *)
Definition or_header (p v : Z) : M unit := w ← rd p 0; wr p 0 (Z.lor w v).

(** * Reading *)

(** A cell that is old (in an environment that holds initially) or new. *)
Lemma grow_blk_old s0 s u cs C p ws : grow s0 s u cs → holds s0 C → C p ws → blk s p ws.
Proof. intros HG HC Hp. eapply (grow_holds _ _ _ _ _ HG HC). by left. Qed.

Lemma grow_blk_new s0 s u cs k p ws : grow s0 s u cs → cs !! k = Some (p, ws) → blk s p ws.
Proof.
  intros HG Hk. apply grow_cells in HG. rewrite Forall_lookup in HG. apply (HG _ _ Hk).
Qed.

(** A cell of an environment extended with some of the new cells. *)
Lemma grow_blk_adds s0 s u cs cs' C p ws :
  grow s0 s u cs → holds s0 C → adds C cs' p ws → cs' ⊆ cs → blk s p ws.
Proof.
  intros HG HC Hp Hs. eapply (grow_holds _ _ _ _ _ HG HC).
  eapply adds_mono, Hp; [reflexivity|done].
Qed.

(** * Calls

    [fn_spec N m P]: run from any well-formed state in which [C] holds and [N]
    words are available, [m] returns, having allocated at most [N] words and
    written to none but new cells; [P r cs] relates its result to the cells it
    made. *)
Definition fn_spec {A} (C : cenv) (N : Z) (m : M A) (P : A → list cell → Prop) : Prop :=
  ∀ s, wf s → holds s C → room s N →
    wp m (λ r s', ∃ u cs, 0 ≤ u ≤ N ∧ grow s s' u cs ∧ P r cs) s.

Lemma wp_call {A} s0 s u cs cs' C N (m : M A) P (Q : A → state → Prop) :
  grow s0 s u cs → holds s0 C → cs' ⊆ cs → room s0 (u + N) →
  fn_spec (adds C cs') N m P →
  (∀ r s' u' new, 0 ≤ u' ≤ N → P r new → grow s0 s' (u + u') (new ++ cs) → Q r s') →
  wp m Q s.
Proof.
  intros HG HC Hsub Hroom Hspec HQ.
  eapply wp_mono; [apply Hspec|].
  - apply HG.
  - eapply holds_csub; [|by eapply grow_holds]. by apply adds_mono.
  - by eapply grow_room.
  - intros r s' (u' & new & Hu & HG' & HP). eapply HQ; [done..|by eapply grow_trans].
Qed.

(** Running a specified function directly. *)
Lemma fn_spec_run {A} C N (m : M A) P s :
  fn_spec C N m P → wf s → holds s C → room s N →
  wp m (λ r s', s ⊑ₛ s' ∧ wf s' ∧
    first_generation_allocation_ptr s - 4 * N ≤ first_generation_allocation_ptr s' ∧
    ∃ cs, holds s' (adds C cs) ∧ P r cs) s.
Proof.
  intros Hspec Hw HC Hr. eapply wp_mono; [by apply Hspec|].
  intros r s' (u & cs & Hu & HG & HP). split; [apply HG|]. split; [apply HG|].
  split; [pose proof (grow_used _ _ _ _ HG); lia|].
  exists cs. split; [by eapply grow_holds|done].
Qed.

Lemma fn_spec_mono {A} C N N' (m : M A) (P P' : A → list cell → Prop) :
  fn_spec C N m P → N ≤ N' → (∀ r cs, P r cs → P' r cs) → fn_spec C N' m P'.
Proof.
  intros Hspec HN HP s Hw HC Hr. eapply wp_mono; [apply Hspec; [done..|]|].
  - unfold room in *. lia.
  - intros r s' (u & cs & Hu & HG & HPr). exists u, cs. split; [lia|]. auto.
Qed.

(** * Tactics *)

(** Numerals computed away by the tactics below. *)
Ltac eval_nat t := let v := eval vm_compute in t in change t with v in *.

(** The position of the cell at [p] in a list of cells. *)
Ltac cell_index cs p :=
  lazymatch cs with
  | (p, _) :: _ => constr:(0%nat)
  | _ :: ?cs' => let k := cell_index cs' p in constr:(S k)
  end.

(** Exchange the two newest cells. *)
Ltac swap_cells := lazymatch goal with HG : grow _ _ _ _ |- _ => apply grow_swap in HG end.

(** Inclusions between lists of cells, the right one longer. *)
Ltac solve_incl :=
  repeat first [ reflexivity | assumption | apply list_subseteq_nil | apply list_subseteq_cons
               | apply list_subseteq_app_r | apply list_subseteq_app_l ].

(** [solve_blk]: [blk s p ?ws] from the [grow] hypothesis and the context. *)
Ltac solve_blk :=
  lazymatch goal with
  | HG : grow ?s0 ?s _ ?cs |- blk ?s ?p _ =>
    first
      [ let k := cell_index cs p in exact (grow_blk_new _ _ _ _ k _ _ HG eq_refl)
      | match goal with
        | HC : holds s0 ?C, Hp : ?C p _ |- _ =>
          exact (grow_blk_old _ _ _ _ _ _ _ HG HC Hp)
        | HC : holds s0 ?C, Hp : adds ?C ?cs' p _ |- _ =>
          exact (grow_blk_adds _ _ _ _ _ _ _ _ HG HC Hp ltac:(solve_incl))
        end ]
  | HC : holds ?s ?C, Hp : ?C ?p _ |- blk ?s ?p _ => exact (HC _ _ Hp)
  end.

Ltac solve_room :=
  lazymatch goal with
  | |- room _ _ => unfold room in *; lia
  end.

(** Side conditions: booleans of assertions and bounds. *)
Ltac solve_side :=
  solve [ reflexivity | done | lia
        | apply bool_decide_eq_true; first [done | lia]
        | apply negb_true_iff, bool_decide_eq_false; first [done | lia] ].

(** Tidy the cells of the new [grow] hypothesis after a step. *)
Ltac tidy_cells H := cbn [insert list_insert replicate] in H.

(** One primitive.  [wp_hook] is redefined by the files that add rules for
    their own operations. *)
Ltac wp_hook := fail.

Ltac wp_prim :=
  lazymatch goal with
  | |- wp (mbind _ _) _ _ => apply wp_bind
  | |- wp (mret _) _ _ => apply wp_ret
  | |- wp (massert _) _ _ => apply wp_assert; [try solve_side|]
  | |- wp (gets _) _ _ => apply wp_gets
  | |- wp get_allocation_point _ _ => apply wp_gets
  | |- wp (if bool_decide (Some ?a = Some ?b) then _ else _) _ _ =>
    first [ rewrite (bool_decide_eq_true_2 (Some a = Some b)) by reflexivity
          | rewrite (bool_decide_eq_false_2 (Some a = Some b)) by discriminate ]
  | |- wp (CELL_TYPE _) _ _ =>
    eapply wp_CELL_TYPE; [solve_blk|reflexivity|rewrite ?header_type by lia]
  | |- wp (rd _ ?i) _ _ =>
    eapply wp_rd; [solve_blk|lia|eval_nat (Z.to_nat i); reflexivity|]
  | HG : grow ?s0 ?s ?u ?cs |- wp (wr ?p ?i _) _ ?s =>
    let k := cell_index cs p in
    let s' := fresh "s" in let HG' := fresh "HG" in
    refine (wp_wr _ _ _ _ k _ _ _ _ _ HG eq_refl _ _);
    [cbn [length]; lia|];
    intros s' HG'; eval_nat (Z.to_nat i); tidy_cells HG'; clear HG; try clear s; rename HG' into HG
  | HG : grow ?s0 ?s ?u ?cs |- wp (allocate ?n _) _ ?s =>
    let s' := fresh "s" in let p := fresh "p" in
    let Hp := fresh "Hp" in let HG' := fresh "HG" in
    let v := eval vm_compute in n in
    let l := eval vm_compute in (Z.to_nat n - 1)%nat in
    refine (wp_allocate _ _ _ _ v _ _ HG _ _ _);
    [solve_room|vm_compute; split; discriminate|];
    intros p s' Hp HG'; change (Z.to_nat v - 1)%nat with l in HG'; tidy_cells HG'; clear HG; try clear s; rename HG' into HG
  end.

Ltac wp_step := first [wp_hook | wp_prim].
Ltac wp_steps := repeat wp_step.

(** Start the proof of an [fn_spec]. *)
Ltac fn_start :=
  let s := fresh "s" in let Hw := fresh "Hwf" in let HC := fresh "HC" in
  let Hr := fresh "Hroom" in
  intros s Hw HC Hr;
  lazymatch type of Hr with room _ ?n =>
    let v := eval vm_compute in n in
    lazymatch v with Zpos _ => change n with v in * | _ => idtac end end;
  pose proof (grow_refl s Hw) as HG.

(** Close the proof of an [fn_spec] once the function has returned. *)
Ltac fn_end :=
  lazymatch goal with HG : grow _ _ ?u ?cs |- _ =>
    exists u, cs; split; [lia|]; split; [exact HG|]
  end.

(** [C p ws] for a cell [p] of the new ones. *)
Ltac solve_cell := right; cbn [app]; repeat first [apply list_elem_of_here | apply list_elem_of_further].

(** * Properties of the first generation *)

(** Two states that agree on everything allocated agree on the whole image. *)
Lemma ext_same_ap s s' a :
  wf s → wf s' → s ⊑ₛ s' →
  first_generation_allocation_ptr s' = first_generation_allocation_ptr s →
  a mod 4 = 0 → mem s' !! a = mem s !! a.
Proof.
  intros Hw Hw' He Hap Ha.
  destruct (decide (first_generation_end s ≤ a < first_generation_allocation_ptr s)) as [Hin|Hout].
  - rewrite (wf_virgin _ Hw a), (wf_virgin _ Hw' a); [done| |done|done|done].
    rewrite (ext_end _ _ He). lia.
  - apply (ext_mem _ _ He). unfold live. lia.
Qed.

(** C12. [restore_allocation_point] undoes a whole operation: if an
    allocation point is taken, any copy-on-write operation run and the point
    restored, the memory image and the allocation pointer are what they were. *)
Theorem restore_allocation_point_undoes {A} C N (m : M A) P s :
  fn_spec C N m P → wf s → holds s C → room s N →
  ∃ s', (ap ← get_allocation_point; m;; restore_allocation_point ap) s = Ok tt s' ∧
    first_generation_allocation_ptr s' = first_generation_allocation_ptr s ∧
    first_generation_end s' = first_generation_end s ∧
    first_generation_start s' = first_generation_start s ∧ root s' = root s ∧
    ∀ a, a mod 4 = 0 → mem s' !! a = mem s !! a.
Proof.
  intros Hspec Hw HC Hr.
  assert (H : wp (ap ← get_allocation_point; m;; restore_allocation_point ap)
    (λ _ s', wf s' ∧ s ⊑ₛ s' ∧
      first_generation_allocation_ptr s' = first_generation_allocation_ptr s) s).
  { apply wp_bind, wp_gets, wp_bind. eapply wp_mono; [by apply Hspec|].
    intros r s1 (u & cs & _ & HG & _). eapply wp_restore; [done|exact HG|].
    intros s' HG'. split; [apply HG'|]. split; [apply HG'|].
    rewrite (grow_used _ _ _ _ HG'). lia. }
  apply wp_inv in H as ([] & s' & E & Hw' & He & Hap). exists s'.
  pose proof He as [? ? ? ? _]. split_and!; [done..|].
  intros a Ha. by apply ext_same_ap.
Qed.

(** A small operation for the examples: two cells, one pointing to the other. *)
Definition example_operation : M Z :=
  p ← allocate 3 CELL_list; q ← allocate 3 CELL_list; wr q 2 p;; wr q 1 7;; mret q.

Lemma example_operation_spec C : fn_spec C 6 example_operation (λ _ _, True).
Proof. fn_start. unfold example_operation. wp_steps. eexists _, _. split; [|split; [exact HG|done]]. lia. Qed.

Lemma restore_allocation_point_undoes_witness :
  let s := init_state 4 100 [] in
  ∃ s', (ap ← get_allocation_point; example_operation;; restore_allocation_point ap) s = Ok tt s' ∧
    first_generation_allocation_ptr s' = first_generation_allocation_ptr s ∧
    first_generation_end s' = first_generation_end s ∧
    first_generation_start s' = first_generation_start s ∧ root s' = root s ∧
    ∀ a, a mod 4 = 0 → mem s' !! a = mem s !! a.
Proof.
  apply (restore_allocation_point_undoes _ _ _ _ (init_state 4 100 [])
    (example_operation_spec (λ _ _, False))).
  - apply wfb_sound. by vm_compute.
  - by intros p ws.
  - apply init_state_room. by vm_compute.
Defined.
