(* ===== verification/Lists.v ===== *)
(** LISP-like lists: list.h and list.c. *)

From S2P Require Import Prelude Machine Celltypes Shades Cow.

(** * Operations *)

Definition CAR (p : Z) : M Z :=
  t ← CELL_TYPE p;
  massert (bool_decide (t = Some CELL_list));;
  rd p 1.

Definition CDR (p : Z) : M Z :=
  t ← CELL_TYPE p;
  massert (bool_decide (t = Some CELL_list));;
  rd p 2.

(** [WCAR(x)] is [CAR(WORD_TO_PTR(x))], and so on. *)
Definition WCAR (x : Z) : M Z := CAR x.
Definition WCDR (x : Z) : M Z := CDR x.
Definition WCADR (x : Z) : M Z := d ← WCDR x; WCAR d.

Definition car (p : Z) : M Z :=
  t ← CELL_TYPE p;
  massert (bool_decide (t = Some CELL_list));;
  rd p 1.

Definition cdr (p : Z) : M Z :=
  t ← CELL_TYPE p;
  massert (bool_decide (t = Some CELL_list));;
  rd p 2.

Definition cons_ (a d : Z) : M Z :=
  r ← allocate 3 CELL_list;
  wr r 1 a;;
  wr r 2 d;;
  mret r.

(** [wcons], and the macro [WCONS]. *)
Definition WCONS (a d : Z) : M Z :=
  r ← allocate 3 CELL_list;
  wr r 1 a;;
  wr r 2 d;;
  mret r.

Definition list_length (fuel : nat) (l : Z) : M Z :=
  loop fuel (λ '(n, l),
    if bool_decide (l = NULL_PTR) then mret (inr n)
    else d ← CDR l; mret (inl (s32 (n + 1), d))) (0, l).

(** * Representation *)

Fixpoint is_list (C : cenv) (w : Z) (xs : list Z) : Prop :=
  match xs with
  | [] => w = NULL_WORD
  | x :: xs' => ∃ nx, C w [header CELL_list 0; x; nx] ∧ is_list C nx xs'
  end.

#[global] Arguments is_list : simpl never.

Lemma is_list_mono C C' w xs : csub C C' → is_list C w xs → is_list C' w xs.
Proof.
  intros HC. revert w. induction xs as [|x xs IH]; [done|].
  intros w (nx & Hw & H). exists nx. split; [by apply HC|]. by apply IH.
Qed.

Lemma is_list_grow C cs c w xs : is_list (adds C cs) w xs → is_list (adds C (c :: cs)) w xs.
Proof. apply is_list_mono, adds_mono; [done|]. by apply list_subseteq_cons. Qed.

Lemma is_list_cons C cs c x d xs :
  is_list (adds C cs) d xs →
  is_list (adds C ((c, [header CELL_list 0; x; d]) :: cs)) c (x :: xs).
Proof.
  intros H. exists d. split; [right; apply list_elem_of_here|]. by apply is_list_grow.
Qed.

(** The pointer of a list determines whether the list is empty. *)
Lemma is_list_null s C w xs : holds s C → is_list C w xs → w = NULL_WORD ↔ xs = [].
Proof.
  intros HC H. destruct xs as [|x xs]; [done|].
  destruct H as (nx & Hw & _). apply HC, blk_pos in Hw. unfold NULL_WORD.
  split; [lia|done].
Qed.

(** The environment determines the contents of a list. *)
Lemma is_list_det s C w xs ys : holds s C → is_list C w xs → is_list C w ys → xs = ys.
Proof.
  intros HC. revert w ys. induction xs as [|x xs IH]; intros w ys H1 H2.
  - symmetry. by eapply is_list_null.
  - destruct ys as [|y ys].
    { eapply (is_list_null _ _ _ (x :: xs)) in HC; [|done]. by apply HC. }
    destruct H1 as (n1 & B1 & H1), H2 as (n2 & B2 & H2).
    apply HC in B1, B2. pose proof (blk_agree _ _ _ _ B1 B2 eq_refl). simplify_eq.
    f_equal. by eapply IH.
Qed.

(** * Rules *)

Lemma wp_CAR s p low a d (Q : Z → state → Prop) :
  0 ≤ low < 2 ^ 24 → blk s p [header CELL_list low; a; d] → Q a s → wp (CAR p) Q s.
Proof.
  intros Hlow Hb HQ. apply wp_bind. eapply wp_CELL_TYPE; [done..|].
  rewrite header_type by done. do 2 wp_step. by eapply wp_rd.
Qed.

Lemma wp_CDR s p low a d (Q : Z → state → Prop) :
  0 ≤ low < 2 ^ 24 → blk s p [header CELL_list low; a; d] → Q d s → wp (CDR p) Q s.
Proof.
  intros Hlow Hb HQ. apply wp_bind. eapply wp_CELL_TYPE; [done..|].
  rewrite header_type by done. do 2 wp_step. by eapply wp_rd.
Qed.

Lemma wp_WCONS s0 s u cs a d (Q : Z → state → Prop) :
  grow s0 s u cs → room s0 (u + 3) →
  (∀ r s', 0 < r → grow s0 s' (u + 3) ((r, [header CELL_list 0; a; d]) :: cs) → Q r s') →
  wp (WCONS a d) Q s.
Proof. intros HG Hroom HQ. unfold WCONS. wp_steps. by apply HQ. Qed.

Ltac list_step :=
  lazymatch goal with
  | |- wp (WCAR _) _ _ => eapply (wp_CAR _ _ 0); [done|solve_blk|]
  | |- wp (WCDR _) _ _ => eapply (wp_CDR _ _ 0); [done|solve_blk|]
  | |- wp (CAR _) _ _ => eapply (wp_CAR _ _ 0); [done|solve_blk|]
  | |- wp (CDR _) _ _ => eapply (wp_CDR _ _ 0); [done|solve_blk|]
  | |- wp (WCADR _) _ _ => apply wp_bind
  | HG : grow _ ?s _ _ |- wp (WCONS _ _) _ ?s =>
    let s' := fresh "s" in let p := fresh "p" in
    let Hp := fresh "Hp" in let HG' := fresh "HG" in
    refine (wp_WCONS _ _ _ _ _ _ _ HG _ _);
    [solve_room|]; intros p s' Hp HG'; clear HG; try clear s; rename HG' into HG
  end.

Ltac wp_hook ::= list_step.

(** After a new cell [c], restate the list facts over the larger environment. *)
Ltac lists_grow :=
  repeat match goal with
  | HG : grow _ _ _ (?q :: ?c :: ?cs), H : is_list (adds ?C ?cs) _ _ |- _ =>
    apply (is_list_grow _ _ c) in H
  end.

(** * Properties *)

Section length.
Context (C : cenv) (s : state) (HC : holds s C).

Lemma list_length_spec w xs fuel (Q : Z → state → Prop) :
  is_list C w xs → (length xs < fuel)%nat → Z.of_nat (length xs) < 2 ^ 31 →
  Q (Z.of_nat (length xs)) s → wp (list_length fuel w) Q s.
Proof.
  intros Hl Hfuel Hmax HQ.
  apply wp_loop with (n := length xs) (I := λ k '(n, l) s1, s1 = s ∧ ∃ ys,
    is_list C l ys ∧ k = length ys ∧ n = Z.of_nat (length xs - length ys) ∧
    (length ys ≤ length xs)%nat); [done| |].
  - split; [done|]. exists xs. rewrite Nat.sub_diag. done.
  - intros k [n l] s1 (-> & ys & Hys & -> & -> & Hle).
    pose proof (is_list_null _ _ _ _ HC Hys) as Hnull. case_bool_decide as Hl0.
    + apply Hnull in Hl0 as ->. apply wp_ret. by rewrite Nat.sub_0_r.
    + destruct ys as [|y ys]; [by destruct Hl0; apply Hnull|].
      destruct Hys as (nx & Hb & Hys). wp_steps. exists (length ys).
      split; [simpl; lia|]. split; [done|]. exists ys. simpl in *.
      split; [done|]. split; [done|]. split; [|lia].
      unfold s32. rewrite w32_small.
      * rewrite bool_decide_eq_true_2 by lia. lia.
      * unfold is_word. rewrite word_modulus_val. lia.
Qed.
End length.

Lemma cons_spec C a d xs :
  is_list C d xs → fn_spec C 3 (cons_ a d) (λ r cs, is_list (adds C cs) r (a :: xs)).
Proof.
  intros Hd. fn_start. unfold cons_. wp_steps.
  eexists _, _. split; [|split; [done|]]; [lia|].
  eexists. split; [right; by apply list_elem_of_here|].
  eapply is_list_mono; [apply adds_base|done].
Qed.
