(* ===== verification/Fifo.v ===== *)
(** The interface of a persistent FIFO queue, and what a client that runs a
    sequence of operations may rely on.  [Queue] implements it. *)

From S2P Require Import Prelude Machine Celltypes Shades Cow.

(** * Specification: a queue is the list of its items, oldest first *)

Inductive fifo_op :=
| Insert_last (x : Z)
| Remove_first.

(** The items removed, and the queue at the end; [None] when an item is removed
    from an empty queue. *)
Fixpoint spec_run (ops : list fifo_op) (xs : list Z) : option (list Z * list Z) :=
  match ops with
  | [] => Some ([], xs)
  | Insert_last x :: ops' => spec_run ops' (xs ++ [x])
  | Remove_first :: ops' =>
    match xs with
    | [] => None
    | x :: xs' => prod_map (cons x) id <$> spec_run ops' xs'
    end
  end.

(** * The interface

    [fifo_words] bounds the words one operation allocates and [fifo_max] the
    number of items for which the implementation's counters do not overflow. *)

Class Fifo := {
  fifo_insert : Z → Z → M Z;
  fifo_remove : Z → M Z;
  fifo_first : Z → M Z;
  fifo_words : Z;
  fifo_max : Z;
  fifo_repr : cenv → Z → list Z → Prop
}.

Class FifoLaws (F : Fifo) : Prop := {
  fifo_words_nonneg : 0 ≤ fifo_words;
  fifo_repr_mono C C' q xs : csub C C' → fifo_repr C q xs → fifo_repr C' q xs;
  fifo_repr_empty C : fifo_repr C NULL_PTR [];
  fifo_repr_null s C q xs : holds s C → fifo_repr C q xs → q = NULL_PTR ↔ xs = [];
  fifo_insert_law C q x xs :
    fifo_repr C q xs → Z.of_nat (length xs) < fifo_max →
    fn_spec C fifo_words (fifo_insert q x) (λ q' cs, fifo_repr (adds C cs) q' (xs ++ [x]));
  fifo_remove_law C q x xs :
    fifo_repr C q (x :: xs) → Z.of_nat (length (x :: xs)) ≤ fifo_max →
    fn_spec C fifo_words (fifo_remove q) (λ q' cs, fifo_repr (adds C cs) q' xs);
  fifo_first_law C q x xs s (Q : Z → state → Prop) :
    holds s C → fifo_repr C q (x :: xs) → Q x s → wp (fifo_first q) Q s
}.

(** * A client *)

Fixpoint fifo_run `{Fifo} (ops : list fifo_op) (q : Z) : M (list Z * Z) :=
  match ops with
  | [] => mret ([], q)
  | Insert_last x :: ops' => q' ← fifo_insert q x; fifo_run ops' q'
  | Remove_first :: ops' =>
    x ← fifo_first q;
    q' ← fifo_remove q;
    '(outs, q'') ← fifo_run ops' q';
    mret (x :: outs, q'')
  end.

Section client.
Context {F : Fifo} {FL : FifoLaws F}.

(** What an operation of the queue does to a state. *)
Definition queue_post (s : state) (n : Z) (q : Z) (xs : list Z) (s' : state) : Prop :=
  s ⊑ₛ s' ∧ wf s' ∧ fifo_repr (blk s') q xs ∧
  first_generation_allocation_ptr s - 4 * n ≤ first_generation_allocation_ptr s'.

Lemma queue_post_step s s' s'' n m q q' xs ys :
  queue_post s n q xs s' → queue_post s' m q' ys s'' → queue_post s (n + m) q' ys s''.
Proof. intros (?&?&?&?) (?&?&?&?). split; [by etrans|]. split_and!; [done..|lia]. Qed.

Lemma fn_spec_post N (m : M Z) xs s :
  fn_spec (blk s) N m (λ q' cs, fifo_repr (adds (blk s) cs) q' xs) → wf s → room s N →
  ∃ q' s', m s = Ok q' s' ∧ queue_post s N q' xs s'.
Proof.
  intros Hspec Hw Hr.
  pose proof (fn_spec_run _ _ _ _ _ Hspec Hw (holds_blk s) Hr) as H.
  apply wp_inv in H as (q' & s' & E & Hext & Hw' & Hap & cs & Hcs & Hq').
  exists q', s'. split; [done|]. split; [done|]. split; [done|]. split; [|done].
  by eapply fifo_repr_mono.
Qed.

Lemma room_step s s' n m : s ⊑ₛ s' →
  first_generation_allocation_ptr s - 4 * n ≤ first_generation_allocation_ptr s' →
  room s (n + m) → room s' m.
Proof. intros [] ? ?. unfold room in *. lia. Qed.

Lemma fifo_run_ok ops q xs outs ys s :
  fifo_repr (blk s) q xs → wf s →
  room s (fifo_words * Z.of_nat (length ops)) →
  Z.of_nat (length xs + length ops) ≤ fifo_max →
  spec_run ops xs = Some (outs, ys) →
  ∃ q' s', fifo_run ops q s = Ok (outs, q') s' ∧
    queue_post s (fifo_words * Z.of_nat (length ops)) q' ys s'.
Proof.
  revert q xs outs s. induction ops as [|[x|] ops IH]; intros q xs outs s Hq Hw Hr Hmax E;
    cbn [fifo_run spec_run length] in *.
  - simplify_eq. exists q, s. split; [done|]. split; [done|]. split_and!; [done..|lia].
  - destruct (fn_spec_post _ _ _ _ (fifo_insert_law _ _ x _ Hq ltac:(lia)) Hw)
      as (q1 & s1 & E1 & Hp1); [unfold room in *; pose proof fifo_words_nonneg; nia|].
    pose proof Hp1 as (He1 & Hw1 & Hq1 & Hap1).
    destruct (IH q1 (xs ++ [x]) outs s1) as (q2 & s2 & E2 & Hp2); [done|done| | |done|].
    { eapply room_step; [done..|]. eapply (eq_rect _ (room s)); [exact Hr|lia]. }
    { rewrite length_app. simpl. lia. }
    exists q2, s2. split.
    + unfold mbind, M_bind. by rewrite E1.
    + replace (fifo_words * Z.of_nat (S (length ops)))
        with (fifo_words + fifo_words * Z.of_nat (length ops)) by lia.
      by eapply queue_post_step.
  - destruct xs as [|x xs]; [done|].
    destruct (spec_run ops xs) as [[outs' ys']|] eqn:E'; [|done]. simplify_eq/=.
    assert (E0 : fifo_first q s = Ok x s).
    { pose proof (fifo_first_law _ _ _ _ s (λ y s', y = x ∧ s' = s) (holds_blk s) Hq) as H.
      apply wp_inv in H as (? & ? & ? & -> & ->); done. }
    destruct (fn_spec_post _ _ _ _ (fifo_remove_law _ _ _ _ Hq ltac:(simpl; lia)) Hw)
      as (q1 & s1 & E1 & Hp1); [unfold room in *; pose proof fifo_words_nonneg; nia|].
    pose proof Hp1 as (He1 & Hw1 & Hq1 & Hap1).
    destruct (IH q1 xs outs' s1) as (q2 & s2 & E2 & Hp2); [done|done| |lia|done|].
    { eapply room_step; [done..|]. eapply (eq_rect _ (room s)); [exact Hr|lia]. }
    exists q2, s2. split.
    + unfold mbind, M_bind. rewrite E0, E1, E2. done.
    + replace (fifo_words * Z.of_nat (S (length ops)))
        with (fifo_words + fifo_words * Z.of_nat (length ops)) by lia.
      by eapply queue_post_step.
Qed.
End client.
