(* ===== verification/Queue.v ===== *)
(** Real-time FIFO queues of Hood and Melville: queue.h and queue.c. *)

From S2P Require Import Prelude Machine Celltypes Shades Cow Lists Fifo.

(** * Operations *)

Definition WORDS_IN_QUEUE_HEADER : Z := 5.

Definition QUEUE_MAX_ALLOCATION : Z :=
  3 + WORDS_IN_QUEUE_HEADER + WORDS_IN_QUEUE_HEADER + 6 + 3 * 2 * 3.

Definition QUEUE_IS_EMPTY (queue : Z) : bool := bool_decide (queue = NULL_PTR).

Definition QUEUE_GET_FIRST (queue : Z) : M Z :=
  massert (negb (QUEUE_IS_EMPTY queue));;
  q1 ← rd queue 1;
  t ← CELL_TYPE q1;
  massert (bool_decide (t = Some CELL_list));;
  WCAR q1.

(** The two lines
      new_queue[dst] = WCONS(WCAR(new_queue[src]), new_queue[dst]);
      new_queue[src] = WCDR(new_queue[src]);
    which occur throughout the code. *)
Definition shift_item (new_queue src dst : Z) : M unit :=
  a ← rd new_queue src;
  x ← WCAR a;
  d ← rd new_queue dst;
  c ← WCONS x d;
  wr new_queue dst c;;
  a ← rd new_queue src;
  a' ← WCDR a;
  wr new_queue src a'.

(** new_queue[i] = queue[i] *)
Definition copy_field (new_queue queue i : Z) : M unit :=
  w ← rd queue i; wr new_queue i w.

(** The loop that starts the transferring process. *)
Definition start_transfer (new_queue : Z) : M unit :=
  n ← rd new_queue 3;
  for_ (Z.to_nat (2 + n mod 2)) (λ _ _,
    shift_item new_queue 5 6;;
    shift_item new_queue 7 8) tt.

(** One step of the second phase:
      new_queue[8] = WCONS(WCAR(new_queue[6]), new_queue[8]);
      new_queue[6] = WCDR(new_queue[6]);
      new_queue[9]++;  *)
Definition second_phase_item (new_queue : Z) : M unit :=
  shift_item new_queue 6 8;;
  m ← rd new_queue 9;
  wr new_queue 9 (w32 (m + 1)).

(** "The transferring operation is complete": replace the header if so. *)
Definition finish_transfer (new_queue : Z) : M Z :=
  n3 ← rd new_queue 3;
  n9 ← rd new_queue 9;
  if bool_decide (n3 = n9) then
    queue ← allocate WORDS_IN_QUEUE_HEADER CELL_queue;
    n8 ← rd new_queue 8;
    wr queue 1 n8;;
    copy_field queue new_queue 2;;
    n3 ← rd new_queue 3;
    n10 ← rd new_queue 10;
    wr queue 3 (w32 (n3 + n10 + 1));;
    copy_field queue new_queue 4;;
    mret queue
  else mret new_queue.

(** The body of the loop
      for (i = 0; (i < 2) && (new_queue[3] > new_queue[9]); i++)
    whose condition ends the loop at its first failure; only the body changes
    what it tests. *)
Definition second_phase_step (new_queue : Z) : M unit :=
  n3 ← rd new_queue 3;
  n9 ← rd new_queue 9;
  if bool_decide (n9 < n3) then second_phase_item new_queue else mret tt.

(** The extra step taken when the second phase begins with an odd number of
    items to move.  [queue_insert_last] reads the field 9 of the old queue here,
    [queue_remove_first] that of the new one, to which it has been copied. *)
Definition second_phase_odd (queue new_queue : Z) : M unit :=
  n9 ← rd queue 9;
  n3 ← rd new_queue 3;
  if bool_decide (n9 = 0) && negb (bool_decide (n3 mod 2 = 0))
  then second_phase_item new_queue else mret tt.

(** The part of the transferring process done by an operation on a queue in
    transfer; it is the same code at the end of both operations, but for the
    [queue] of [second_phase_odd]. *)
Definition continue_transfer (queue new_queue : Z) : M Z :=
  n5 ← rd new_queue 5;
  if bool_decide (n5 = NULL_WORD) then
    n7 ← rd new_queue 7;
    massert (bool_decide (n7 = NULL_WORD));;
    second_phase_odd queue new_queue;;
    for_ 2 (λ _ _, second_phase_step new_queue) tt;;
    finish_transfer new_queue
  else
    shift_item new_queue 5 6;;
    shift_item new_queue 5 6;;
    shift_item new_queue 7 8;;
    shift_item new_queue 7 8;;
    mret new_queue.

Definition queue_insert_last (queue data : Z) : M Z :=
  if QUEUE_IS_EMPTY queue then
    new_queue ← allocate WORDS_IN_QUEUE_HEADER CELL_queue;
    c ← WCONS data NULL_WORD;
    wr new_queue 1 c;;
    wr new_queue 2 NULL_WORD;;
    wr new_queue 3 1;;
    wr new_queue 4 0;;
    mret new_queue
  else
  t ← CELL_TYPE queue;
  if bool_decide (t = Some CELL_queue) then
    q3 ← rd queue 3;
    q4 ← rd queue 4;
    if bool_decide (q3 = q4) then
      if bool_decide (q3 = 1) then
        new_queue ← allocate WORDS_IN_QUEUE_HEADER CELL_queue;
        new_tail ← WCONS data NULL_WORD;
        q2 ← rd queue 2;
        x2 ← WCAR q2;
        new_tail ← WCONS x2 new_tail;
        q1 ← rd queue 1;
        x1 ← WCAR q1;
        c ← WCONS x1 new_tail;
        wr new_queue 1 c;;
        wr new_queue 2 NULL_WORD;;
        wr new_queue 3 3;;
        wr new_queue 4 0;;
        mret new_queue
      else
        new_queue ← allocate (WORDS_IN_QUEUE_HEADER + 6) CELL_queue_rev;
        copy_field new_queue queue 1;;
        wr new_queue 2 NULL_WORD;;
        copy_field new_queue queue 3;;
        wr new_queue 4 0;;
        n1 ← rd new_queue 1;
        wr new_queue 5 n1;;
        wr new_queue 6 NULL_WORD;;
        q2 ← rd queue 2;
        wr new_queue 7 q2;;
        c ← WCONS data NULL_WORD;
        wr new_queue 8 c;;
        wr new_queue 9 0;;
        q3 ← rd queue 3;
        wr new_queue 10 q3;;
        start_transfer new_queue;;
        mret new_queue
    else
      new_queue ← allocate WORDS_IN_QUEUE_HEADER CELL_queue;
      copy_field new_queue queue 1;;
      q2 ← rd queue 2;
      c ← WCONS data q2;
      wr new_queue 2 c;;
      copy_field new_queue queue 3;;
      q4 ← rd queue 4;
      wr new_queue 4 (w32 (q4 + 1));;
      mret new_queue
  else
    massert (bool_decide (t = Some CELL_queue_rev));;
    new_queue ← allocate (WORDS_IN_QUEUE_HEADER + 6) CELL_queue_rev;
    copy_field new_queue queue 1;;
    q2 ← rd queue 2;
    c ← WCONS data q2;
    wr new_queue 2 c;;
    copy_field new_queue queue 3;;
    q4 ← rd queue 4;
    wr new_queue 4 (w32 (q4 + 1));;
    copy_field new_queue queue 5;;
    copy_field new_queue queue 6;;
    copy_field new_queue queue 7;;
    copy_field new_queue queue 8;;
    copy_field new_queue queue 9;;
    copy_field new_queue queue 10;;
    continue_transfer queue new_queue.

Definition queue_remove_first (queue : Z) : M Z :=
  massert (negb (QUEUE_IS_EMPTY queue));;
  q1 ← rd queue 1;
  t1 ← CELL_TYPE q1;
  massert (bool_decide (t1 = Some CELL_list));;
  t ← CELL_TYPE queue;
  if bool_decide (t = Some CELL_queue) then
    q3 ← rd queue 3;
    q4 ← rd queue 4;
    if bool_decide (q3 = q4) then
      if bool_decide (q3 = 1) then
        new_queue ← allocate WORDS_IN_QUEUE_HEADER CELL_queue;
        q2 ← rd queue 2;
        wr new_queue 1 q2;;
        wr new_queue 2 NULL_WORD;;
        wr new_queue 3 1;;
        wr new_queue 4 0;;
        mret new_queue
      else if bool_decide (q3 = 2) then
        new_queue ← allocate WORDS_IN_QUEUE_HEADER CELL_queue;
        q2 ← rd queue 2;
        x ← WCAR q2;
        new_tail ← WCONS x NULL_WORD;
        y ← WCADR q2;
        new_tail ← WCONS y new_tail;
        q1 ← rd queue 1;
        z ← WCADR q1;
        c ← WCONS z new_tail;
        wr new_queue 1 c;;
        wr new_queue 2 NULL_WORD;;
        wr new_queue 3 3;;
        wr new_queue 4 0;;
        mret new_queue
      else
        new_queue ← allocate (WORDS_IN_QUEUE_HEADER + 6) CELL_queue_rev;
        q1 ← rd queue 1;
        d ← WCDR q1;
        wr new_queue 1 d;;
        wr new_queue 2 NULL_WORD;;
        q3 ← rd queue 3;
        wr new_queue 3 (w32 (q3 - 1));;
        wr new_queue 4 0;;
        n1 ← rd new_queue 1;
        wr new_queue 5 n1;;
        wr new_queue 6 NULL_WORD;;
        q2 ← rd queue 2;
        x ← WCAR q2;
        c ← WCONS x NULL_WORD;
        wr new_queue 8 c;;
        q2 ← rd queue 2;
        d ← WCDR q2;
        wr new_queue 7 d;;
        wr new_queue 9 0;;
        n3 ← rd new_queue 3;
        wr new_queue 10 n3;;
        start_transfer new_queue;;
        mret new_queue
    else
      if bool_decide (q3 = 1) && bool_decide (q4 = 0) then mret NULL_PTR
      else
        new_queue ← allocate WORDS_IN_QUEUE_HEADER CELL_queue;
        q1 ← rd queue 1;
        d ← WCDR q1;
        wr new_queue 1 d;;
        copy_field new_queue queue 2;;
        q3 ← rd queue 3;
        wr new_queue 3 (w32 (q3 - 1));;
        copy_field new_queue queue 4;;
        mret new_queue
  else
    massert (bool_decide (t = Some CELL_queue_rev));;
    new_queue ← allocate (WORDS_IN_QUEUE_HEADER + 6) CELL_queue_rev;
    q1 ← rd queue 1;
    d ← WCDR q1;
    wr new_queue 1 d;;
    copy_field new_queue queue 2;;
    q3 ← rd queue 3;
    wr new_queue 3 (w32 (q3 - 1));;
    copy_field new_queue queue 4;;
    copy_field new_queue queue 5;;
    copy_field new_queue queue 6;;
    copy_field new_queue queue 7;;
    copy_field new_queue queue 8;;
    copy_field new_queue queue 9;;
    copy_field new_queue queue 10;;
    continue_transfer new_queue new_queue.

(** * Representation

    An empty queue is [NULL_PTR].  A plain queue holds its first items in the
    list [H] and its last ones, newest first, in [T]. *)

Definition plain_cell (h t : Z) (nh nt : nat) : list Z :=
  [header CELL_queue 0; h; t; Z.of_nat nh; Z.of_nat nt].

Definition is_plain (C : cenv) (q : Z) (xs : list Z) : Prop :=
  ∃ h t H T, C q (plain_cell h t (length H) (length T)) ∧
    is_list C h H ∧ is_list C t T ∧ xs = H ++ rev T ∧
    (0 < length H)%nat ∧ (length T ≤ length H)%nat.

(** A queue in transfer.  [H0] is the head list and [OT] the items of the tail
    (oldest first) when the transfer started, [T] the items inserted since, [r]
    the number of items removed since, [j] the number of items of [H0] that the
    first phase has reversed and [m] the number of items that the second phase
    has put in front of the reversed tail.  The last clause is what makes the
    queue real-time: the transfer is ahead of the operations. *)

Definition rev_cell (w1 w2 : Z) (n3 n4 : nat) (w5 w6 w7 w8 : Z) (m n10 : nat) : list Z :=
  [header CELL_queue_rev 0; w1; w2; Z.of_nat n3; Z.of_nat n4; w5; w6; w7; w8;
   Z.of_nat m; Z.of_nat n10].

Record transfer (slack : nat) (H0 OT T A' B' : list Z) (r j m : nat) : Prop := {
  tr_j : (j ≤ length H0)%nat;
  tr_A : length A' = (length H0 - j)%nat;
  tr_even : ∃ k, length H0 = (j + 2 * k)%nat;
  tr_new : rev A' ++ B' = drop (length H0 - m) H0 ++ OT;
  tr_OT : length OT = S (length H0);
  tr_two : (2 ≤ length H0)%nat;
  tr_head : (m + r ≤ length H0)%nat;
  tr_slack : (m = 0 ∧ 2 * (r + length T) + slack ≤ j)%nat ∨
             (0 < m ∧ j = length H0 ∧ 2 * length T + slack ≤ length H0 + m)%nat
}.

Definition is_rev (C : cenv) (q : Z) (xs : list Z) : Prop :=
  ∃ w1 w2 w5 w6 w7 w8 H0 OT T A' B' r j m,
    C q (rev_cell w1 w2 (length H0 - r) (length T) w5 w6 w7 w8 m (length H0)) ∧
    is_list C w1 (drop r H0) ∧ is_list C w2 T ∧ is_list C w5 (drop j H0) ∧
    is_list C w6 (rev (take (j - m) H0)) ∧ is_list C w7 A' ∧ is_list C w8 B' ∧
    xs = drop r H0 ++ OT ++ rev T ∧ (m + r < length H0)%nat ∧
    transfer 2 H0 OT T A' B' r j m.

Definition is_queue (C : cenv) (q : Z) (xs : list Z) : Prop :=
  (q = NULL_PTR ∧ xs = []) ∨ is_plain C q xs ∨ is_rev C q xs.

Lemma is_queue_mono C C' q xs : csub C C' → is_queue C q xs → is_queue C' q xs.
Proof.
  intros HC [H|[H|H]]; [by left|right; left|right; right].
  - destruct H as (h & t & H & T & ? & ? & ? & ?).
    exists h, t, H, T. split; [auto|]. eauto using is_list_mono.
  - destruct H as (w1 & w2 & w5 & w6 & w7 & w8 & H0 & OT & T & A' & B' & r & j & m & Hq & H).
    exists w1, w2, w5, w6, w7, w8, H0, OT, T, A', B', r, j, m.
    destruct_and! H. split; [auto|]. split_and!; eauto using is_list_mono.
Qed.

(** * Moving one list item *)

Lemma wp_shift_item s0 s u q ws cs C src dst i j a d x xs ys (Q : unit → state → Prop) :
  grow s0 s u ((q, ws) :: cs) → holds s0 C → room s0 (u + 3) →
  src = Z.of_nat i → dst = Z.of_nat j → i ≠ j →
  ws !! i = Some a → ws !! j = Some d →
  is_list (adds C cs) a (x :: xs) → is_list (adds C cs) d ys →
  (∀ s' c a',
    grow s0 s' (u + 3)
      ((q, <[i := a']> (<[j := c]> ws)) :: (c, [header CELL_list 0; x; d]) :: cs) →
    is_list (adds C cs) a' xs →
    is_list (adds C ((c, [header CELL_list 0; x; d]) :: cs)) c (x :: ys) →
    Q tt s') →
  wp (shift_item q src dst) Q s.
Proof.
  intros HG HC Hroom -> -> Hij Hi Hj (a' & Ha & Hxs) Hys HQ. unfold shift_item.
  assert (Hrd : ∀ s ws cs k w u (Q : Z → state → Prop), grow s0 s u ((q, ws) :: cs) →
    ws !! k = Some w → Q w s → wp (rd q (Z.of_nat k)) Q s).
  { intros. eapply wp_rd; [by eapply (grow_blk_new _ _ _ _ 0%nat)|lia|by rewrite Nat2Z.id|done]. }
  pose proof (lookup_lt_Some _ _ _ Hi). pose proof (lookup_lt_Some _ _ _ Hj).
  apply wp_bind. eapply Hrd; [done..|]. apply wp_bind. wp_hook.
  apply wp_bind. eapply Hrd; [done..|]. apply wp_bind. wp_hook.
  swap_cells. apply wp_bind. eapply (wp_wr _ _ _ _ 0%nat); [done..|lia|].
  clear HG. intros ? HG. simpl in HG.
  rewrite Nat2Z.id in HG. apply wp_bind. eapply Hrd; [done| |].
  { by rewrite list_lookup_insert_ne. }
  apply wp_bind. wp_hook.
  eapply (wp_wr _ _ _ _ 0%nat); [done..|rewrite length_insert; lia|]. intros ? HG'. simpl in HG'.
  rewrite Nat2Z.id in HG'. eapply HQ; [done..|]. by apply is_list_cons.
Qed.

Ltac queue_step :=
  lazymatch goal with
  | |- wp (copy_field _ _ _) _ _ => apply wp_bind
  | _ => list_step
  end.

Ltac wp_hook ::= queue_step.

(** One [shift_item] from field [i] to field [j] of the queue's cell. *)
Ltac shift_step i j :=
  lazymatch goal with
  | HG : grow _ ?s _ ((?q, _) :: _) |- wp (shift_item ?q _ _) _ ?s =>
    let HG' := fresh "HG" in
    eapply (wp_shift_item _ _ _ _ _ _ _ _ _ i j);
    [exact HG|eassumption|solve_room|done|done|done|done|done|eassumption|eassumption|];
    clear HG; intros ? ? ? HG' ? ?; simpl in HG'; lists_grow; rename HG' into HG
  end.

(** At the end, restate the list facts over all the new cells. *)
Ltac lists_close :=
  repeat match goal with
  | HG : grow _ _ _ (?q :: ?cs), H : is_list (adds ?C ?cs) _ _ |- _ =>
    apply (is_list_grow _ _ q) in H
  | HG : grow _ _ _ (?p :: ?q :: ?cs), H : is_list (adds ?C ?cs) _ _ |- _ =>
    apply (is_list_grow _ _ q) in H
  end.

(** * The second phase *)

Section second_phase.
Context (C : cenv) (s0 : state) (HC : holds s0 C).
Context (q w1 w2 w5 w7 : Z) (H0 OT : list Z) (n3 n4 m0 : nat) (u0 : Z) (cs0 : list cell).
Context (Hroom : room s0 (u0 + 9)) (Hn3 : (n3 ≤ length H0)%nat).
Context (Hword : Z.of_nat (length H0) < word_modulus).

(** The state of the transfer when [m] items are in front of the new head. *)
Definition moved (m : nat) (s : state) : Prop :=
  ∃ w6 w8 new,
    grow s0 s (u0 + 3 * Z.of_nat (m - m0))
      ((q, rev_cell w1 w2 n3 n4 w5 w6 w7 w8 m (length H0)) :: new ++ cs0) ∧
    (m0 ≤ m ≤ n3)%nat ∧
    is_list (adds C (new ++ cs0)) w6 (rev (take (length H0 - m) H0)) ∧
    is_list (adds C (new ++ cs0)) w8 (drop (length H0 - m) H0 ++ OT).

Lemma wp_second_phase_item m s (Q : unit → state → Prop) :
  moved m s → (m < n3)%nat → (m - m0 < 3)%nat →
  (∀ s', moved (S m) s' → Q tt s') → wp (second_phase_item q) Q s.
Proof.
  intros (w6 & w8 & new & HG & Hm & H6 & H8) Hlt Hm0 HQ.
  destruct (lookup_lt_is_Some_2 H0 (length H0 - S m)) as [x Hx]; [lia|].
  replace (length H0 - m)%nat with (S (length H0 - S m)) in H6, H8 by lia.
  rewrite (take_S_r _ _ _ Hx), rev_unit in H6.
  apply wp_bind. eapply (wp_shift_item _ _ _ _ _ _ _ _ _ 6 8);
    [exact HG|exact HC|solve_room|done|done|done|done|done|exact H6|exact H8|].
  intros s' c a' HG' H6' H8'. simpl in HG'. clear HG. rename HG' into HG. wp_steps. apply HQ.
  exists a', c, ((c, [header CELL_list 0; x; w8]) :: new).
  rewrite w32_small in HG by (unfold is_word; lia).
  replace (Z.of_nat m + 1) with (Z.of_nat (S m)) in HG by lia.
  split; [|split; [lia|split]].
  - by replace (u0 + 3 * Z.of_nat (S m - m0)) with (u0 + 3 * Z.of_nat (m - m0) + 3) by lia.
  - by apply is_list_grow.
  - by rewrite (drop_S _ _ _ Hx).
Qed.

Lemma wp_second_phase_step m s (Q : unit → state → Prop) :
  moved m s → (m - m0 < 3)%nat →
  (∀ s', moved (S m `min` n3) s' → Q tt s') →
  wp (second_phase_step q) Q s.
Proof.
  intros Hmv Hm0 HQ. pose proof Hmv as (w6 & w8 & new & HG & Hm & _).
  unfold second_phase_step. wp_steps. case_bool_decide.
  - eapply wp_second_phase_item; [done|lia|lia|]. intros s' Hs'. apply HQ.
    by rewrite Nat.min_l by lia.
  - apply wp_ret, HQ. by replace (S m `min` n3)%nat with m by lia.
Qed.

(** Both steps together. *)
Lemma wp_second_phase_steps m s (Q : unit → state → Prop) :
  moved m s → (m - m0 < 2)%nat →
  (∀ s', moved (S (S m) `min` n3) s' → Q tt s') →
  wp (for_ 2 (λ _ _, second_phase_step q) tt) Q s.
Proof.
  intros Hmv Hm0 HQ. cbn [for_ for_from]. apply wp_bind.
  eapply wp_second_phase_step; [done|lia|]. intros s1 Hmv1. apply wp_bind.
  eapply wp_second_phase_step; [done|lia|]. intros s2 Hmv2. apply wp_ret, HQ.
  by replace (S (S m) `min` n3)%nat with (S (S m `min` n3) `min` n3)%nat by lia.
Qed.

(** The extra step that makes the number of items left even. *)
Lemma wp_second_phase_odd src ws s (Q : unit → state → Prop) :
  blk s src ws → ws !! 9%nat = Some (Z.of_nat m0) → moved m0 s → (0 < n3)%nat →
  (∀ s' m, (m0 ≤ m ≤ S m0)%nat → (m ≤ n3)%nat → moved m s' → Q tt s') →
  wp (second_phase_odd src q) Q s.
Proof.
  intros Hsrc H9 Hmv Hpos HQ. pose proof Hmv as (w6 & w8 & new & HG & Hm & _).
  apply wp_bind. eapply wp_rd; [exact Hsrc|lia|exact H9|]. wp_steps. destruct (bool_decide _ && _) eqn:E.
  - apply andb_true_iff in E as [E _]. apply bool_decide_eq_true in E.
    eapply wp_second_phase_item; [done|lia|lia|]. intros s' Hs'.
    by eapply HQ; [..|done]; lia.
  - apply wp_ret. by eapply HQ; [..|done]; lia.
Qed.
End second_phase.

(** * Continuing a transfer *)

Lemma null_iff_done C cs s0 s u q ws w5 (H0 : list Z) j :
  grow s0 s u ((q, ws) :: cs) → holds s0 C → is_list (adds C cs) w5 (drop j H0) →
  (j ≤ length H0)%nat → w5 = NULL_WORD ↔ j = length H0.
Proof.
  intros HG HC Hl Hj. rewrite is_list_null; [|eapply grow_holds, HC|done].
  - split; [|intros ->; by rewrite drop_all].
    intros E%(f_equal length). rewrite length_drop in E. simpl in E. lia.
  - eapply (grow_app_r _ _ _ [_]). exact HG.
Qed.

Lemma wp_continue_transfer C s0 s u src ws q cs w1 w2 w5 w6 w7 w8 H0 OT T A' B' r j m
    (Q : Z → state → Prop) :
  grow s0 s u
    ((q, rev_cell w1 w2 (length H0 - r) (length T) w5 w6 w7 w8 m (length H0)) :: cs) →
  blk s src ws → ws !! 9%nat = Some (Z.of_nat m) →
  holds s0 C → room s0 (u + 14) →
  Z.of_nat (length (drop r H0 ++ OT ++ rev T)) < word_modulus →
  Z.of_nat (length H0) < word_modulus →
  is_list (adds C cs) w1 (drop r H0) → is_list (adds C cs) w2 T →
  is_list (adds C cs) w5 (drop j H0) → is_list (adds C cs) w6 (rev (take (j - m) H0)) →
  is_list (adds C cs) w7 A' → is_list (adds C cs) w8 B' →
  transfer 0 H0 OT T A' B' r j m →
  (∀ q' s' u' new, u ≤ u' ≤ u + 14 → grow s0 s' u' new →
    is_queue (adds C new) q' (drop r H0 ++ OT ++ rev T) → Q q' s') →
  wp (continue_transfer src q) Q s.
Proof.
  intros HG Hsrc H9 HC Hroom Hlen Hlen0 L1 L2 L5 L6 L7 L8 Htr HQ.
  destruct Htr as [Hj HA [k Hk] Hnew HOT Htwo Hhead Hslack].
  pose proof (null_iff_done _ _ _ _ _ _ _ _ _ _ HG HC L5 Hj) as Hnull.
  unfold continue_transfer. wp_steps. case_bool_decide as H5.
  - (* second phase *)
    apply Hnull in H5 as ->.
    assert (A' = []) as -> by (apply length_zero_iff_nil; lia).
    rewrite drop_all in L5. rewrite Nat.sub_diag in HA.
    assert (w7 = NULL_WORD) as -> by done. simpl in Hnew. subst B'.
    wp_steps.
    assert (Hmv : moved C s0 q w1 w2 w5 NULL_WORD H0 OT (length H0 - r) (length T) m u cs m s).
    { exists w6, w8, []. rewrite Nat.sub_diag, Z.add_0_r. split; [done|]. split; [lia|done]. }
    assert (Hpos : (0 < length H0 - r)%nat) by lia.
    assert (Hroom9 : room s0 (u + 9)) by (unfold room in *; lia).
    assert (Hn3 : (length H0 - r ≤ length H0)%nat) by lia.
    apply (wp_second_phase_odd C s0 HC _ _ _ _ _ _ _ _ _ _ _ _ Hroom9 Hn3 Hlen0 _ _ _ _ Hsrc H9 Hmv Hpos).
    intros s1 m1 Hm1 Hm1' Hmv1. apply wp_bind.
    apply (wp_second_phase_steps C s0 HC _ _ _ _ _ _ _ _ _ _ _ _ Hroom9 Hn3 Hlen0 _ _ _ Hmv1); [lia|].
    intros s2 (w6' & w8' & new & HG2 & Hm2 & L6' & L8'). clear HG Hmv Hmv1.
    remember (S (S m1) `min` (length H0 - r))%nat as m2 eqn:Em2.
    apply (is_list_mono _ (adds C (new ++ cs))) in L1, L2; [|apply adds_mono; [done|solve_incl]..].
    unfold finish_transfer. wp_steps. case_bool_decide as Hfin.
    + assert (m2 = length H0 - r)%nat as Em3 by lia.
      assert (length H0 - r - m ≤ 3)%nat by lia. clear Em2. subst m2.
      wp_steps. lists_close.
      lazymatch goal with HG : grow _ _ _ _ |- _ => (eapply HQ; [|exact HG|]; [lia|]) end.
      right; left. exists w8', w2, (drop r H0 ++ OT), T.
      replace (length H0 - (length H0 - r))%nat with r in L8' by lia.
      assert (Hr : (r + (length H0 - r) = length H0)%nat) by lia.
      rewrite !length_app, !length_drop, length_rev, HOT in *.
      rewrite <- app_assoc. split_and!; [|done|done|done|lia|lia].
      right. apply elem_of_cons; left. unfold plain_cell. repeat f_equal.
      rewrite w32_small by (unfold is_word; lia). lia.
    + apply wp_ret. lists_close. eapply HQ; [|exact HG2|]; [lia|]. right; right.
      eexists w1, w2, w5, w6', NULL_WORD, w8', H0, OT, T, [], _, r, (length H0), m2.
      split; [right; apply list_elem_of_here|]. rewrite drop_all.
      split_and!; [done|done|(by eapply is_list_mono; [|exact L5]; apply adds_mono; [done|solve_incl])
                  |done|done|exact L8'|done|lia|].
      split; [lia|simpl; lia|(by exists 0%nat; lia)|done|done|done|lia|lia].
  - (* first phase *)
    assert (m = 0%nat) as -> by (destruct Hslack as [[-> _]|(_ & -> & _)]; tauto).
    destruct k as [|k]; [exfalso; apply H5, Hnull; lia|].
    destruct (drop j H0) as [|x1 [|x2 xs]] eqn:Ed;
      [apply (f_equal length) in Ed; rewrite length_drop in Ed; simpl in Ed; lia..|].
    destruct A' as [|y1 [|y2 ys]]; simpl in HA; [lia..|].
    do 2 (wp_step; shift_step 5%nat 6%nat). do 2 (wp_step; shift_step 7%nat 8%nat).
    lists_close. eapply (wp_ret _ _ _), HQ; [|exact HG|]; [lia|]. right; right.
    eexists _, _, _, _, _, _, H0, OT, T, ys, _, r, (j + 2)%nat, 0%nat.
    split; [right; apply list_elem_of_here|].
    destruct (drop_prefix j H0 [x1; x2] xs Ed Hj) as [Hd Ht]. simpl in Hd, Ht.
    rewrite Nat.sub_0_r, Hd, Ht, rev_app_distr. rewrite Nat.sub_0_r in *.
    split_and!; [eassumption..|done|lia|].
    split; [lia|lia|(exists k; lia)| |done|done|lia|lia].
    rewrite Nat.sub_0_r, <- Hnew. simpl. by rewrite <- !app_assoc.
Qed.

(** * Starting a transfer *)

Section start.
Context (C : cenv) (s0 : state) (HC : holds s0 C).
Context (q w1 : Z) (H0 OT : list Z) (u0 : Z) (cs0 : list cell).
Context (Hroom : room s0 (u0 + 18)) (HOT : length OT = S (length H0)).

(** The state after [k] items of each list have been moved. *)
Definition started (k : nat) (s : state) : Prop :=
  ∃ w5 w6 w7 w8 new A' B',
    grow s0 s (u0 + 6 * Z.of_nat k)
      ((q, rev_cell w1 NULL_WORD (length H0) 0 w5 w6 w7 w8 0 (length H0)) :: new ++ cs0) ∧
    is_list (adds C (new ++ cs0)) w5 (drop k H0) ∧
    is_list (adds C (new ++ cs0)) w6 (rev (take k H0)) ∧
    is_list (adds C (new ++ cs0)) w7 A' ∧ is_list (adds C (new ++ cs0)) w8 B' ∧
    rev A' ++ B' = OT ∧ length B' = S k.

Lemma wp_start_item k s (Q : unit → state → Prop) :
  started k s → (k < length H0)%nat → (k < 3)%nat →
  (∀ s', started (S k) s' → Q tt s') →
  wp (shift_item q 5 6;; shift_item q 7 8) Q s.
Proof.
  intros (w5 & w6 & w7 & w8 & new & A' & B' & HG & L5 & L6 & L7 & L8 & E & HB) Hk Hk3 HQ.
  destruct (lookup_lt_is_Some_2 H0 k Hk) as [x Hx]. rewrite (drop_S _ _ _ Hx) in L5.
  destruct A' as [|y A']; [apply (f_equal length) in E; simpl in E; lia|].
  wp_step. shift_step 5%nat 6%nat. shift_step 7%nat 8%nat. apply HQ.
  eexists _, _, _, _, (_ :: _ :: new), A', (y :: B').
  replace (u0 + 6 * Z.of_nat (S k)) with (u0 + 6 * Z.of_nat k + 3 + 3) by lia.
  rewrite (take_S_r _ _ _ Hx), rev_unit, <- E. simpl. rewrite <- app_assoc.
  split; [exact HG|]. split_and!; [done..|lia].
Qed.

Lemma wp_start_transfer s w5 w7 w8 A' B' (Q : unit → state → Prop) :
  grow s0 s u0 ((q, rev_cell w1 NULL_WORD (length H0) 0 w5 NULL_WORD w7 w8 0 (length H0)) :: cs0) →
  is_list (adds C cs0) w5 H0 → is_list (adds C cs0) w7 A' → is_list (adds C cs0) w8 B' →
  rev A' ++ B' = OT → length B' = 1%nat → (2 ≤ length H0)%nat →
  (∀ s' u w5 w6 w7 w8 new A' B' j,
    u0 ≤ u ≤ u0 + 18 →
    grow s0 s' u
      ((q, rev_cell w1 NULL_WORD (length H0) 0 w5 w6 w7 w8 0 (length H0)) :: new ++ cs0) →
    is_list (adds C (new ++ cs0)) w5 (drop j H0) →
    is_list (adds C (new ++ cs0)) w6 (rev (take j H0)) →
    is_list (adds C (new ++ cs0)) w7 A' → is_list (adds C (new ++ cs0)) w8 B' →
    transfer 2 H0 OT [] A' B' 0 j 0 → Q tt s') →
  wp (start_transfer q) Q s.
Proof.
  intros HG L5 L7 L8 E HB Htwo HQ. unfold start_transfer. do 2 wp_step.
  set (j := Z.to_nat (2 + Z.of_nat (length H0) mod 2)).
  assert (Hj : ∃ k, length H0 = (j + 2 * k)%nat).
  { pose proof (Z.div_mod (Z.of_nat (length H0)) 2 ltac:(lia)).
    pose proof (Z.mod_pos_bound (Z.of_nat (length H0)) 2 ltac:(lia)).
    exists (Z.to_nat (Z.of_nat (length H0) / 2 - 1)). unfold j. lia. }
  assert (Hj3 : (2 ≤ j ≤ 3)%nat).
  { pose proof (Z.mod_pos_bound (Z.of_nat (length H0)) 2 ltac:(lia)). unfold j. lia. }
  clearbody j. destruct Hj as [k Hk].
  apply wp_for with (I := λ k _ s, started k s).
  - exists w5, NULL_WORD, w7, w8, [], A', B'. rewrite Z.add_0_r. done.
  - intros i [] s1 Hi Hs. eapply wp_start_item; [done|lia|lia|done].
  - intros [] s1 (v5 & v6 & v7 & v8 & new & A & B & HG1 & M5 & M6 & M7 & M8 & E1 & HB1).
    eapply HQ; [|exact HG1|exact M5|exact M6|exact M7|exact M8|]; [lia|].
    assert (length A + length B = S (length H0))%nat.
    { rewrite <- HOT, <- E1, length_app, length_rev. lia. }
    split; rewrite ?Nat.sub_0_r; [lia|lia|by exists k| |done|done|lia|simpl; lia].
    by rewrite drop_all.
Qed.
End start.

(** * The operations *)

(** The null pointer is no queue but the empty one. *)
Lemma is_queue_null s C q xs : holds s C → is_queue C q xs → q = NULL_PTR ↔ xs = [].
Proof.
  intros HC [[-> ->]|[H|H]]; [done| |].
  - destruct H as (h & t & H & T & Hq & _ & _ & -> & Hpos & _).
    apply HC, blk_pos in Hq. unfold NULL_PTR. split; [lia|].
    intros [-> _]%app_nil. simpl in Hpos. lia.
  - destruct H as (w1 & w2 & w5 & w6 & w7 & w8 & H0 & OT & T & A' & B' & r & j & m & Hq & H).
    destruct_and! H. apply HC, blk_pos in Hq. unfold NULL_PTR. split; [lia|]. subst xs.
    intros [E%(f_equal length) _]%app_nil. rewrite length_drop in E. simpl in E. lia.
Qed.

Ltac list_lift := eapply is_list_mono; [|eassumption]; first [apply adds_base | apply adds_mono; [done|solve_incl]].

Section insert.
Context (C : cenv) (data : Z).

Lemma insert_empty :
  fn_spec C QUEUE_MAX_ALLOCATION (queue_insert_last NULL_PTR data)
    (λ q' cs, is_queue (adds C cs) q' [data]).
Proof.
  fn_start. unfold queue_insert_last. simpl. wp_steps. fn_end.
  right; left. eexists _, NULL_WORD, [data], []. split; [solve_cell|].
  split_and!; [|done|done|simpl; lia|simpl; lia].
  eexists. split; [solve_cell|done].
Qed.

Lemma insert_plain q xs :
  is_plain C q xs → Z.of_nat (length xs) + 1 < word_modulus →
  fn_spec C QUEUE_MAX_ALLOCATION (queue_insert_last q data)
    (λ q' cs, is_queue (adds C cs) q' (xs ++ [data])).
Proof.
  intros (h & t & H & T & Hq & LH & LT & -> & Hpos & Hle) Hmax. fn_start.
  assert (Hq0 : q ≠ NULL_PTR) by (apply HC, blk_pos in Hq; unfold NULL_PTR; lia).
  unfold queue_insert_last, QUEUE_IS_EMPTY. rewrite bool_decide_eq_false_2 by done.
  wp_steps. case_bool_decide as Heq; [case_bool_decide as H1|].
  - (* the queue has two items *)
    destruct H as [|x [|]]; simpl in *; [lia| |lia].
    destruct T as [|y [|]]; simpl in *; [lia| |lia].
    destruct LH as (? & Bx & ->), LT as (? & By & ->). wp_steps. fn_end.
    right; left. eexists _, NULL_WORD, [x; y; data], []. split; [solve_cell|].
    split_and!; [|done|done|simpl; lia|simpl; lia].
    do 2 (eexists; split; [solve_cell|]). eexists. split; [solve_cell|done].
  - (* start a transfer *)
    assert (Hl : length T = length H) by lia. rewrite Hl in Hq.
    wp_steps. swap_cells.
    eapply (wp_start_transfer C s HC _ _ H (rev T ++ [data])) with (B' := [data]);
      [|rewrite length_app, length_rev; simpl; lia|eassumption|list_lift|list_lift| | | |lia|].
    { solve_room. }
    { exists NULL_WORD. split; [solve_cell|done]. }
    { done. }
    { done. }
    lazymatch goal with HG : grow _ _ _ _ |- _ => clear HG end.
    intros s' u w5 w6 w7 w8 new A' B' j Hu HG L5 L6 L7 L8 Htr. wp_steps. lists_close. fn_end.
    right; right.
    exists h, NULL_WORD, w5, w6, w7, w8, H, (rev T ++ [data]), [], A', B', 0%nat, j, 0%nat.
    rewrite !Nat.sub_0_r, drop_0. split; [solve_cell|].
    split_and!; [list_lift|done|done|done|done|done| |lia|done].
    by rewrite app_nil_r, app_assoc.
  - (* the tail is shorter than the head *)
    rewrite !length_app, length_rev in Hmax. wp_steps.
    rewrite w32_succ in HG by lia. fn_end.
    right; left. eexists h, _, H, (data :: T). split; [solve_cell|].
    split_and!; [list_lift| |simpl; by rewrite app_assoc|done|simpl; lia].
    exists t. split; [solve_cell|list_lift].
Qed.

Lemma transfer_insert H0 OT T A' B' r j m :
  transfer 2 H0 OT T A' B' r j m → transfer 0 H0 OT (data :: T) A' B' r j m.
Proof. intros []. split; [done..|]. simpl. lia. Qed.

Lemma insert_rev q xs :
  is_rev C q xs → Z.of_nat (length xs) + 1 < word_modulus →
  fn_spec C QUEUE_MAX_ALLOCATION (queue_insert_last q data)
    (λ q' cs, is_queue (adds C cs) q' (xs ++ [data])).
Proof.
  intros (w1 & w2 & w5 & w6 & w7 & w8 & H0 & OT & T & A' & B' & r & j & m & Hq & L1 & L2
    & L5 & L6 & L7 & L8 & -> & Hmr & Htr) Hmax. fn_start.
  assert (Hq0 : q ≠ NULL_PTR) by (apply HC, blk_pos in Hq; unfold NULL_PTR; lia).
  rewrite !length_app, length_rev, (tr_OT _ _ _ _ _ _ _ _ _ Htr) in Hmax.
  unfold queue_insert_last, QUEUE_IS_EMPTY. rewrite bool_decide_eq_false_2 by done.
  wp_steps. rewrite w32_succ in HG by lia. swap_cells.
  apply transfer_insert in Htr as Htr'.
  eapply (wp_continue_transfer C s _ _ q _ _ _ _ _ _ _ _ _ H0 OT (data :: T));
    [eassumption|solve_blk|done|done|solve_room| |lia|list_lift| |list_lift|list_lift|list_lift|list_lift
    |exact Htr'|].
  - rewrite !length_app, length_rev, (tr_OT _ _ _ _ _ _ _ _ _ Htr). simpl. lia.
  - exists w2. split; [solve_cell|list_lift].
  - intros q' s' u new Hu HG' Hq'. exists u, new. split; [lia|]. split; [done|].
    simpl in Hq'. by rewrite <- !app_assoc.
Qed.
End insert.

Section remove.
Context (C : cenv).

Lemma remove_plain q x xs :
  is_plain C q (x :: xs) → Z.of_nat (length (x :: xs)) < word_modulus →
  fn_spec C QUEUE_MAX_ALLOCATION (queue_remove_first q)
    (λ q' cs, is_queue (adds C cs) q' xs).
Proof.
  intros (h & t & H & T & Hq & LH & LT & E & Hpos & Hle) Hmax. fn_start.
  assert (Hq0 : q ≠ NULL_PTR) by (apply HC, blk_pos in Hq; unfold NULL_PTR; lia).
  rewrite E, length_app, length_rev in Hmax.
  destruct H as [|x' H]; [simpl in Hpos; lia|]. simpl in E. injection E as <- ->.
  destruct LH as (h' & Bh & LH).
  unfold queue_remove_first, QUEUE_IS_EMPTY. rewrite bool_decide_eq_false_2 by done.
  wp_steps. case_bool_decide as Heq; [case_bool_decide as H1; [|case_bool_decide as H2]|].
  - (* one item in each list *)
    destruct H; [|simpl in H1; lia]. destruct T as [|y [|]]; simpl in *; [lia| |lia].
    wp_steps. fn_end. right; left. exists t, NULL_WORD, [y], []. split; [solve_cell|].
    split_and!; [list_lift|done|done|simpl; lia|simpl; lia].
  - (* two items in each list *)
    destruct H as [|y [|]]; simpl in H2; [lia| |lia].
    destruct T as [|z1 [|z2 [|]]]; simpl in Heq; [lia|lia| |lia].
    destruct LT as (? & ? & ? & ? & ->), LH as (? & ? & ->).
    wp_steps. fn_end. right; left. eexists _, NULL_WORD, [y; z2; z1], []. split; [solve_cell|].
    split_and!; [|done|done|simpl; lia|simpl; lia].
    do 2 (eexists; split; [solve_cell|]). eexists. split; [solve_cell|done].
  - (* start a transfer *)
    destruct T as [|y T]; simpl in Heq; [lia|]. destruct LT as (t' & Bt & LT).
    simpl length in *. wp_steps. swap_cells.
    rewrite w32_pred in HG by lia. rewrite Nat.sub_succ, Nat.sub_0_r in HG.
    eapply (wp_start_transfer C s HC _ _ H (rev T ++ [y])) with (B' := [y]);
      [|rewrite length_app, length_rev; simpl; lia|exact HG|list_lift|list_lift
      | |done|done|lia|].
    { solve_room. }
    { exists NULL_WORD. split; [solve_cell|done]. }
    clear HG. intros s' u w5 w6 w7 w8 new A' B' j Hu HG L5 L6 L7 L8 Htr.
    wp_steps. lists_close. fn_end. right; right.
    exists h', NULL_WORD, w5, w6, w7, w8, H, (rev T ++ [y]), [], A', B', 0%nat, j, 0%nat.
    rewrite !Nat.sub_0_r, drop_0. split; [solve_cell|].
    split_and!; [list_lift|done|done|done|done|done| |lia|done].
    simpl. by rewrite app_nil_r.
  - (* the lists have different lengths *)
    destruct (bool_decide _ && _) eqn:E.
    + apply andb_true_iff in E as [E1%bool_decide_eq_true E2%bool_decide_eq_true].
      destruct H; [|simpl in E1; lia]. destruct T; [|simpl in E2; lia].
      wp_steps. fn_end. by left.
    + assert (0 < length H)%nat.
      { destruct H, T; simpl in *; lia || discriminate. }
      simpl length in *. wp_steps. rewrite w32_pred in HG by lia.
      rewrite Nat.sub_succ, Nat.sub_0_r in HG. fn_end.
      right; left. eexists h', t, H, T. split; [solve_cell|].
      split_and!; [list_lift|list_lift|done|lia|lia].
Qed.

Lemma transfer_remove H0 OT T A' B' r j m :
  transfer 2 H0 OT T A' B' r j m → (m + r < length H0)%nat →
  transfer 0 H0 OT T A' B' (S r) j m.
Proof. intros [] ?. split; [done..|lia|lia]. Qed.

Lemma remove_rev q x xs :
  is_rev C q (x :: xs) → Z.of_nat (length (x :: xs)) < word_modulus →
  fn_spec C QUEUE_MAX_ALLOCATION (queue_remove_first q)
    (λ q' cs, is_queue (adds C cs) q' xs).
Proof.
  intros (w1 & w2 & w5 & w6 & w7 & w8 & H0 & OT & T & A' & B' & r & j & m & Hq & L1 & L2
    & L5 & L6 & L7 & L8 & E & Hmr & Htr) Hmax. fn_start.
  assert (Hq0 : q ≠ NULL_PTR) by (apply HC, blk_pos in Hq; unfold NULL_PTR; lia).
  rewrite E, !length_app, length_rev, length_drop, (tr_OT _ _ _ _ _ _ _ _ _ Htr) in Hmax.
  destruct (lookup_lt_is_Some_2 H0 r) as [x' Hx]; [lia|].
  rewrite (drop_S _ _ _ Hx) in L1, E. simpl in E. injection E as <- ->.
  destruct L1 as (w1' & B1 & L1).
  unfold queue_remove_first, QUEUE_IS_EMPTY. rewrite bool_decide_eq_false_2 by done.
  wp_steps. rewrite w32_pred in HG by lia.
  replace (length H0 - r - 1)%nat with (length H0 - S r)%nat in HG by lia.
  apply transfer_remove in Htr as Htr'; [|lia].
  eapply (wp_continue_transfer C s _ _ p _ _ _ _ _ _ _ _ _ H0 OT T _ _ (S r));
    [exact HG|solve_blk|done|done|solve_room| |lia|list_lift|list_lift|list_lift|list_lift|list_lift|list_lift
    |exact Htr'|].
  - rewrite !length_app, length_rev, length_drop, (tr_OT _ _ _ _ _ _ _ _ _ Htr). lia.
  - intros q' s' u new Hu HG' Hq'. exists u, new. split; [lia|]. split; [done|done].
Qed.
End remove.

Lemma queue_insert_last_spec C q data xs :
  is_queue C q xs → Z.of_nat (length xs) + 1 < word_modulus →
  fn_spec C QUEUE_MAX_ALLOCATION (queue_insert_last q data)
    (λ q' cs, is_queue (adds C cs) q' (xs ++ [data])).
Proof.
  intros [[-> ->]|[H|H]] Hmax; [apply insert_empty|by apply insert_plain|by apply insert_rev].
Qed.

Lemma queue_remove_first_spec C q x xs :
  is_queue C q (x :: xs) → Z.of_nat (length (x :: xs)) < word_modulus →
  fn_spec C QUEUE_MAX_ALLOCATION (queue_remove_first q)
    (λ q' cs, is_queue (adds C cs) q' xs).
Proof.
  intros [[_ ?]|[H|H]] Hmax; [done|by eapply remove_plain|by eapply remove_rev].
Qed.

Lemma QUEUE_GET_FIRST_spec C q x xs s (Q : Z → state → Prop) :
  holds s C → is_queue C q (x :: xs) → Q x s → wp (QUEUE_GET_FIRST q) Q s.
Proof.
  intros HC Hq HQ.
  assert (Hq0 : q ≠ NULL_PTR) by (rewrite (is_queue_null _ _ _ _ HC Hq); done).
  unfold QUEUE_GET_FIRST, QUEUE_IS_EMPTY. rewrite bool_decide_eq_false_2 by done.
  destruct Hq as [[? ?]|[H|H]]; [done| |].
  - destruct H as (h & t & H & T & Hq & LH & LT & E & Hpos & Hle).
    destruct H as [|x' H]; [simpl in Hpos; lia|]. simpl in E. injection E as <- ->.
    destruct LH as (? & ? & ?). by wp_steps.
  - destruct H as (w1 & w2 & w5 & w6 & w7 & w8 & H0 & OT & T & A' & B' & r & j & m & Hq & L1 & L2
      & L5 & L6 & L7 & L8 & E & Hmr & Htr).
    destruct (lookup_lt_is_Some_2 H0 r) as [x' Hx]; [lia|].
    rewrite (drop_S _ _ _ Hx) in L1, E. simpl in E. injection E as <- ->.
    destruct L1 as (? & ? & ?). by wp_steps.
Qed.

(** * The interface *)

#[export] Instance queue_fifo : Fifo := {|
  fifo_insert := queue_insert_last;
  fifo_remove := queue_remove_first;
  fifo_first := QUEUE_GET_FIRST;
  fifo_words := QUEUE_MAX_ALLOCATION;
  fifo_max := word_modulus - 1;
  fifo_repr := is_queue
|}.

#[export] Instance queue_fifo_laws : FifoLaws queue_fifo.
Proof.
  split; simpl.
  - done.
  - intros. by eapply is_queue_mono.
  - intros. by left.
  - intros. by eapply is_queue_null.
  - intros. apply queue_insert_last_spec; [done|lia].
  - intros. eapply queue_remove_first_spec; [done|simpl in *; lia].
  - intros. by eapply QUEUE_GET_FIRST_spec.
Qed.

(** * Properties *)

(** C9. Any sequence of [queue_insert_last], [QUEUE_GET_FIRST] and
    [queue_remove_first] calls, started from the empty queue, behaves as the
    list specification: it terminates without a failing assertion or a bad
    access, yields the items in the order of their insertion, leaves a queue of
    the items the specification leaves, changes no cell that was allocated
    before, and allocates at most [QUEUE_MAX_ALLOCATION] words per operation. *)
Theorem queue_run_refines_list ops outs ys s :
  wf s → room s (QUEUE_MAX_ALLOCATION * Z.of_nat (length ops)) →
  Z.of_nat (length ops) < word_modulus →
  spec_run ops [] = Some (outs, ys) →
  ∃ q' s', fifo_run ops NULL_PTR s = Ok (outs, q') s' ∧
    s ⊑ₛ s' ∧ wf s' ∧ is_queue (blk s') q' ys ∧
    first_generation_allocation_ptr s - 4 * (QUEUE_MAX_ALLOCATION * Z.of_nat (length ops))
      ≤ first_generation_allocation_ptr s'.
Proof.
  intros Hw Hr Hmax E.
  apply (fifo_run_ok (F := queue_fifo) ops NULL_PTR []); [by left|done|done|simpl; lia|done].
Qed.

Lemma queue_run_refines_list_witness :
  ∃ q' s', fifo_run [Insert_last 5; Insert_last 6; Remove_first; Insert_last 7; Insert_last 8;
      Insert_last 9; Remove_first; Remove_first] NULL_PTR (init_state 4 1000 [])
      = Ok ([5; 6; 7], q') s' ∧
    init_state 4 1000 [] ⊑ₛ s' ∧ wf s' ∧ is_queue (blk s') q' [8; 9] ∧
    4016 - 4 * (37 * 8) ≤ first_generation_allocation_ptr s'.
Proof.
  apply (queue_run_refines_list [Insert_last 5; Insert_last 6; Remove_first; Insert_last 7;
    Insert_last 8; Insert_last 9; Remove_first; Remove_first] [5; 6; 7] [8; 9] (init_state 4 1000 [])).
  - apply init_state_wf; [lia|by vm_compute].
  - apply init_state_room. by vm_compute.
  - by vm_compute.
  - reflexivity.
Defined.

(** [queue_insert_last] on any queue of fewer than [2^32 - 1] items appends
    the new item, on every branch (empty, short, starting a transfer, in either
    phase of one), and every other queue of the old state, the argument
    included, is still the same queue afterwards. *)
Theorem queue_insert_last_correct q data xs s :
  wf s → is_queue (blk s) q xs → room s QUEUE_MAX_ALLOCATION →
  Z.of_nat (length xs) + 1 < word_modulus →
  ∃ q' s', queue_insert_last q data s = Ok q' s' ∧ s ⊑ₛ s' ∧ wf s' ∧
    is_queue (blk s') q' (xs ++ [data]) ∧
    (∀ q0 ys, is_queue (blk s) q0 ys → is_queue (blk s') q0 ys).
Proof.
  intros Hw Hq Hr Hmax.
  destruct (fn_spec_post (F := queue_fifo) _ _ _ _ (queue_insert_last_spec _ _ data _ Hq Hmax) Hw Hr)
    as (q' & s' & E & He & Hw' & Hq' & _).
  exists q', s'. split_and!; [done..|].
  intros q0 ys. apply is_queue_mono. intros p ws. by apply blk_ext.
Qed.

Lemma queue_insert_last_correct_witness :
  ∃ q' s', queue_insert_last NULL_PTR 17 (init_state 4 100 []) = Ok q' s' ∧
    init_state 4 100 [] ⊑ₛ s' ∧ wf s' ∧ is_queue (blk s') q' [17] ∧
    (∀ q0 ys, is_queue (blk (init_state 4 100 [])) q0 ys → is_queue (blk s') q0 ys).
Proof.
  apply (queue_insert_last_correct NULL_PTR 17 []).
  - apply init_state_wf; [lia|by vm_compute].
  - by left.
  - apply init_state_room. by vm_compute.
  - by vm_compute.
Defined.

(** C10. [queue_remove_first] on any non-empty queue removes its first item, on
    every branch, and every queue of the old state is still the same queue. *)
Theorem queue_remove_first_correct q x xs s :
  wf s → is_queue (blk s) q (x :: xs) → room s QUEUE_MAX_ALLOCATION →
  Z.of_nat (length (x :: xs)) < word_modulus →
  QUEUE_GET_FIRST q s = Ok x s ∧
  ∃ q' s', queue_remove_first q s = Ok q' s' ∧ s ⊑ₛ s' ∧ wf s' ∧
    is_queue (blk s') q' xs ∧
    (∀ q0 ys, is_queue (blk s) q0 ys → is_queue (blk s') q0 ys).
Proof.
  intros Hw Hq Hr Hmax. split.
  { assert (H : wp (QUEUE_GET_FIRST q) (λ y s', y = x ∧ s' = s) s)
      by (eapply QUEUE_GET_FIRST_spec; [apply holds_blk|exact Hq|done]).
    apply wp_inv in H as (? & ? & ? & -> & ->); done. }
  destruct (fn_spec_post (F := queue_fifo) _ _ _ _ (queue_remove_first_spec _ _ _ _ Hq Hmax) Hw Hr)
    as (q' & s' & E & He & Hw' & Hq' & _).
  exists q', s'. split_and!; [done..|].
  intros q0 ys. apply is_queue_mono. intros p ws. by apply blk_ext.
Qed.

(** A state with a queue of two items: its header is at 364, its items are at
    384 and 352. *)
Definition example_state : state :=
  exec (fifo_run [Insert_last 5; Insert_last 6] NULL_PTR) (init_state 4 100 []).
Definition example_queue : Z :=
  (value ([], 0) (fifo_run [Insert_last 5; Insert_last 6] NULL_PTR) (init_state 4 100 [])).2.

Lemma queue_remove_first_correct_witness :
  QUEUE_GET_FIRST example_queue example_state = Ok 5 example_state ∧
  ∃ q' s', queue_remove_first example_queue example_state = Ok q' s' ∧
    example_state ⊑ₛ s' ∧ wf s' ∧ is_queue (blk s') q' [6] ∧
    (∀ q0 ys, is_queue (blk example_state) q0 ys → is_queue (blk s') q0 ys).
Proof.
  apply (queue_remove_first_correct example_queue 5 [6]).
  - apply wfb_sound. by vm_compute.
  - right; left. exists 384, 352, [5], [6].
    split; [apply blkb_sound; vm_compute; reflexivity|].
    split_and!; try (vm_compute; lia); [| |done].
    + exists 0. split; [apply blkb_sound; vm_compute; reflexivity|]. done.
    + exists 0. split; [apply blkb_sound; vm_compute; reflexivity|]. done.
  - vm_compute. discriminate.
  - by vm_compute.
Defined.

(** On the empty queue, and only there, [QUEUE_IS_EMPTY] holds, and
    [QUEUE_GET_FIRST] and [queue_remove_first] stop at their assertions. *)
Theorem queue_empty_errors s :
  QUEUE_GET_FIRST NULL_PTR s = Err AssertFailed ∧
  queue_remove_first NULL_PTR s = Err AssertFailed ∧
  (∀ q, QUEUE_IS_EMPTY q = true ↔ q = NULL_PTR).
Proof. split; [done|]. split; [done|]. intros q. apply bool_decide_eq_true. Qed.
