(* ===== verification/Bitops.v ===== *)
(** Bit operations on words: bitops.h and bitops.c. *)

From S2P Require Import Prelude.

(** * Operations

    An index outside a table is [None]. *)

Definition highest_bit_index : list Z :=
  [0; 0; 1; 1; 2; 2; 2; 2; 3; 3; 3; 3; 3; 3; 3; 3;
   4; 4; 4; 4; 4; 4; 4; 4; 4; 4; 4; 4; 4; 4; 4; 4;
   5; 5; 5; 5; 5; 5; 5; 5; 5; 5; 5; 5; 5; 5; 5; 5;
   5; 5; 5; 5; 5; 5; 5; 5; 5; 5; 5; 5; 5; 5; 5; 5;
   6; 6; 6; 6; 6; 6; 6; 6; 6; 6; 6; 6; 6; 6; 6; 6;
   6; 6; 6; 6; 6; 6; 6; 6; 6; 6; 6; 6; 6; 6; 6; 6;
   6; 6; 6; 6; 6; 6; 6; 6; 6; 6; 6; 6; 6; 6; 6; 6;
   6; 6; 6; 6; 6; 6; 6; 6; 6; 6; 6; 6; 6; 6; 6; 6;
   7; 7; 7; 7; 7; 7; 7; 7; 7; 7; 7; 7; 7; 7; 7; 7;
   7; 7; 7; 7; 7; 7; 7; 7; 7; 7; 7; 7; 7; 7; 7; 7;
   7; 7; 7; 7; 7; 7; 7; 7; 7; 7; 7; 7; 7; 7; 7; 7;
   7; 7; 7; 7; 7; 7; 7; 7; 7; 7; 7; 7; 7; 7; 7; 7;
   7; 7; 7; 7; 7; 7; 7; 7; 7; 7; 7; 7; 7; 7; 7; 7;
   7; 7; 7; 7; 7; 7; 7; 7; 7; 7; 7; 7; 7; 7; 7; 7;
   7; 7; 7; 7; 7; 7; 7; 7; 7; 7; 7; 7; 7; 7; 7; 7;
   7; 7; 7; 7; 7; 7; 7; 7; 7; 7; 7; 7; 7; 7; 7; 7].

Definition highest_bit (x : Z) : option Z :=
  let '(n, x) := if bool_decide (shr32 x 16 ≠ 0) then (16, shr32 x 16) else (0, x) in
  let '(n, x) := if bool_decide (shr32 x 8 ≠ 0) then (n + 8, shr32 x 8) else (n, x) in
  Z.add n <$> highest_bit_index !! Z.to_nat x.

Definition ilog2 (x : Z) : option Z :=
  if bool_decide (x = 0) then Some 0
  else
    let n := 1 in
    let '(n, x) := if bool_decide (shr32 x 16 ≠ 0) then (16, shr32 x 16) else (n, x) in
    let '(n, x) := if bool_decide (shr32 x 8 ≠ 0) then (n + 8, shr32 x 8) else (n, x) in
    Z.add n <$> highest_bit_index !! Z.to_nat x.

(** [DO_ILOG2]: the chain of conditionals tests [x < 2^0], [x < 2^1], ... in
    this order; the last resort is 32. *)
Fixpoint DO_ILOG2_from (k n : nat) (x : Z) : Z :=
  match n with
  | O => Z.of_nat k
  | S n' => if bool_decide (x < 2 ^ Z.of_nat k) then Z.of_nat k else DO_ILOG2_from (S k) n' x
  end.
Definition DO_ILOG2 (x : Z) : Z := DO_ILOG2_from 0 32 x.

Definition lowest_bit_index : list Z :=
  [0; 0; 1; 0; 2; 0; 1; 0; 3; 0; 1; 0; 2; 0; 1; 0;
   4; 0; 1; 0; 2; 0; 1; 0; 3; 0; 1; 0; 2; 0; 1; 0;
   5; 0; 1; 0; 2; 0; 1; 0; 3; 0; 1; 0; 2; 0; 1; 0;
   4; 0; 1; 0; 2; 0; 1; 0; 3; 0; 1; 0; 2; 0; 1; 0;
   6; 0; 1; 0; 2; 0; 1; 0; 3; 0; 1; 0; 2; 0; 1; 0;
   4; 0; 1; 0; 2; 0; 1; 0; 3; 0; 1; 0; 2; 0; 1; 0;
   5; 0; 1; 0; 2; 0; 1; 0; 3; 0; 1; 0; 2; 0; 1; 0;
   4; 0; 1; 0; 2; 0; 1; 0; 3; 0; 1; 0; 2; 0; 1; 0;
   7; 0; 1; 0; 2; 0; 1; 0; 3; 0; 1; 0; 2; 0; 1; 0;
   4; 0; 1; 0; 2; 0; 1; 0; 3; 0; 1; 0; 2; 0; 1; 0;
   5; 0; 1; 0; 2; 0; 1; 0; 3; 0; 1; 0; 2; 0; 1; 0;
   4; 0; 1; 0; 2; 0; 1; 0; 3; 0; 1; 0; 2; 0; 1; 0;
   6; 0; 1; 0; 2; 0; 1; 0; 3; 0; 1; 0; 2; 0; 1; 0;
   4; 0; 1; 0; 2; 0; 1; 0; 3; 0; 1; 0; 2; 0; 1; 0;
   5; 0; 1; 0; 2; 0; 1; 0; 3; 0; 1; 0; 2; 0; 1; 0;
   4; 0; 1; 0; 2; 0; 1; 0; 3; 0; 1; 0; 2; 0; 1; 0].

Definition lowest_bit (x : Z) : option Z :=
  let '(n, x) := if bool_decide (shl32 x 16 = 0) then (16, shr32 x 16) else (0, x) in
  let '(n, x) := if bool_decide (shl32 x 8 = 0) then (n + 8, shr32 x 8) else (n, x) in
  Z.add n <$> lowest_bit_index !! Z.to_nat (Z.land x 0xFF).

Definition count_bits (x : Z) : Z :=
  let x := w32 (w32 (x - Z.land (shr32 x 1) 0xdb6db6db) - Z.land (shr32 x 2) 0x49249249) in
  let x := Z.land (w32 (x + shr32 x 3)) 0xc71c71c7 in
  let x := w32 (x + shr32 x 6) in
  let x := Z.land (w32 (w32 (x + shr32 x 12) + shr32 x 24)) 0x3f in
  x.

Definition swap_bytes (x : Z) : Z :=
  let m := 0xFF00FF in
  let x := Z.lor (shl32 (Z.land x m) 8) (Z.land (shr32 x 8) m) in
  Z.lor (shl32 x 16) (shr32 x 16).

(** * Digits

    The bit operations of the functions above act on groups of bits; a word is
    written [d + 2 ^ w * a] to take off its lowest [w] bits. *)

Section digits.
Context (w : Z) (Hw : 0 ≤ w).

Lemma pow_w_pos : 0 < 2 ^ w.
Proof. apply Z.pow_pos_nonneg; lia. Qed.

Lemma digit_mod d a : 0 ≤ d < 2 ^ w → (d + 2 ^ w * a) mod 2 ^ w = d.
Proof. intros Hd. rewrite Z.mul_comm, Z_mod_plus_full. by apply Z.mod_small. Qed.

Lemma digit_div d a : 0 ≤ d < 2 ^ w → (d + 2 ^ w * a) / 2 ^ w = a.
Proof.
  intros Hd. pose proof pow_w_pos. rewrite Z.mul_comm, Z.div_add, Z.div_small by lia. lia.
Qed.

Lemma digit_shiftr d a : 0 ≤ d < 2 ^ w → Z.shiftr (d + 2 ^ w * a) w = a.
Proof. intros Hd. rewrite Z.shiftr_div_pow2 by done. by apply digit_div. Qed.

Lemma digit_land d e a b :
  0 ≤ d < 2 ^ w → 0 ≤ e < 2 ^ w →
  Z.land (d + 2 ^ w * a) (e + 2 ^ w * b) = Z.land d e + 2 ^ w * Z.land a b.
Proof.
  intros Hd He. pose proof pow_w_pos.
  rewrite (Z.div_mod (Z.land (d + 2 ^ w * a) (e + 2 ^ w * b)) (2 ^ w)) by lia.
  rewrite <- Z.shiftr_div_pow2, Z.shiftr_land, !digit_shiftr by done.
  rewrite Z.add_comm. f_equal.
  rewrite <- (digit_mod d a) at 2 by done. rewrite <- (digit_mod e b) at 2 by done.
  rewrite <- !Z.land_ones by done. apply Z.bits_inj'. intros i Hi.
  rewrite !Z.land_spec. by destruct (Z.testbit _ _), (Z.testbit _ _), (Z.testbit _ _).
Qed.

Lemma digit_lor d e a b :
  0 ≤ d < 2 ^ w → 0 ≤ e < 2 ^ w →
  Z.lor (d + 2 ^ w * a) (e + 2 ^ w * b) = Z.lor d e + 2 ^ w * Z.lor a b.
Proof.
  intros Hd He. pose proof pow_w_pos.
  rewrite (Z.div_mod (Z.lor (d + 2 ^ w * a) (e + 2 ^ w * b)) (2 ^ w)) by lia.
  rewrite <- Z.shiftr_div_pow2, Z.shiftr_lor, !digit_shiftr by done.
  rewrite Z.add_comm. f_equal.
  rewrite <- (digit_mod d a) at 2 by done. rewrite <- (digit_mod e b) at 2 by done.
  rewrite <- !Z.land_ones by done. by rewrite Z.land_lor_distr_l.
Qed.

(** Every number has a lowest digit. *)
Lemma digit_split x : ∃ d a, 0 ≤ d < 2 ^ w ∧ x = d + 2 ^ w * a.
Proof.
  pose proof pow_w_pos. exists (x mod 2 ^ w), (x / 2 ^ w).
  split; [by apply Z.mod_pos_bound|]. rewrite (Z.div_mod x (2 ^ w)) at 1 by lia. lia.
Qed.
End digits.

(** * Swapping bytes *)

(** The word of four bytes, lowest first. *)
Definition bytes4 (b0 b1 b2 b3 : Z) : Z :=
  b0 + 2 ^ 8 * (b1 + 2 ^ 8 * (b2 + 2 ^ 8 * b3)).

Definition is_byte (b : Z) : Prop := 0 ≤ b < 2 ^ 8.

Lemma word_bytes x : is_word x →
  ∃ b0 b1 b2 b3, is_byte b0 ∧ is_byte b1 ∧ is_byte b2 ∧ is_byte b3 ∧ x = bytes4 b0 b1 b2 b3.
Proof.
  intros Hx.
  destruct (digit_split 8 ltac:(lia) x) as (b0 & x1 & H0 & ->).
  destruct (digit_split 8 ltac:(lia) x1) as (b1 & x2 & H1 & ->).
  destruct (digit_split 8 ltac:(lia) x2) as (b2 & b3 & H2 & ->).
  exists b0, b1, b2, b3. unfold is_word, is_byte in *. rewrite word_modulus_val in Hx.
  split_and!; lia || done.
Qed.

Lemma land_byte b : is_byte b → Z.land b 0xFF = b.
Proof. intros Hb. change 0xFF with (2 ^ 8 - 1). rewrite land_ones_mod by lia. by apply Z.mod_small. Qed.

Lemma swap_bytes_bytes b0 b1 b2 b3 :
  is_byte b0 → is_byte b1 → is_byte b2 → is_byte b3 →
  swap_bytes (bytes4 b0 b1 b2 b3) = bytes4 b3 b2 b1 b0.
Proof.
  intros H0 H1 H2 H3. unfold swap_bytes, is_byte in *.
  assert (E1 : Z.land (bytes4 b0 b1 b2 b3) 0xFF00FF = bytes4 b0 0 b2 0).
  { change 0xFF00FF with (bytes4 0xFF 0 0xFF 0). unfold bytes4.
    rewrite !digit_land, !land_byte, !Z.land_0_r by done. done. }
  assert (E2 : shr32 (bytes4 b0 b1 b2 b3) 8 = bytes4 b1 b2 b3 0).
  { unfold shr32, bytes4. rewrite digit_shiftr by done. lia. }
  assert (E3 : Z.land (bytes4 b1 b2 b3 0) 0xFF00FF = bytes4 b1 0 b3 0).
  { change 0xFF00FF with (bytes4 0xFF 0 0xFF 0). unfold bytes4.
    rewrite !digit_land, !land_byte, !Z.land_0_r by done. done. }
  assert (E4 : shl32 (bytes4 b0 0 b2 0) 8 = bytes4 0 b0 0 b2).
  { unfold shl32. rewrite Z.shiftl_mul_pow2 by lia. unfold bytes4.
    rewrite w32_small; [lia|]. unfold is_word. rewrite word_modulus_val. lia. }
  rewrite E1, E2, E3, E4.
  assert (E5 : Z.lor (bytes4 0 b0 0 b2) (bytes4 b1 0 b3 0) = bytes4 b1 b0 b3 b2).
  { unfold bytes4. rewrite !digit_lor, !Z.lor_0_r by done. done. }
  rewrite E5.
  assert (E6 : shr32 (bytes4 b1 b0 b3 b2) 16 = bytes4 b3 b2 0 0).
  { unfold shr32. change 16 with (8 + 8). rewrite <- Z.shiftr_shiftr by lia. unfold bytes4.
    rewrite !digit_shiftr by done. lia. }
  assert (E7 : shl32 (bytes4 b1 b0 b3 b2) 16 = bytes4 0 0 b1 b0).
  { unfold shl32, w32. rewrite Z.shiftl_mul_pow2 by lia. unfold bytes4. rewrite word_modulus_val.
    replace (_ * 2 ^ 16) with (2 ^ 8 * (2 ^ 8 * (b1 + 2 ^ 8 * b0)) + (b3 + 2 ^ 8 * b2) * 4294967296)
      by lia.
    rewrite Z_mod_plus_full, Z.mod_small; lia. }
  rewrite E6, E7. unfold bytes4. rewrite !digit_lor, !Z.lor_0_r by done. done.
Qed.

(** * Counting bits *)

(** The number of bits set among the lowest [n]. *)
Fixpoint popcount (n : nat) (x : Z) : Z :=
  match n with
  | O => 0
  | S n' => x mod 2 + popcount n' (x / 2)
  end.

(** The value of a list of octal digits, lowest first. *)
Fixpoint octal (ds : list Z) : Z :=
  match ds with
  | [] => 0
  | d :: ds' => d + 2 ^ 3 * octal ds'
  end.

Definition is_octal (ds : list Z) : Prop := Forall (λ d, 0 ≤ d < 2 ^ 3) ds.

(** The number of bits of an octal digit, as [count_bits] computes it. *)
Definition digit_bits (d : Z) : Z := d - Z.land d 6 / 2 - Z.land d 4 / 4.

Lemma octal_digit_cases (P : Z → Prop) d :
  P 0 → P 1 → P 2 → P 3 → P 4 → P 5 → P 6 → P 7 → 0 ≤ d < 2 ^ 3 → P d.
Proof.
  intros ???????? Hd.
  assert (d = 0 ∨ d = 1 ∨ d = 2 ∨ d = 3 ∨ d = 4 ∨ d = 5 ∨ d = 6 ∨ d = 7) as Hc by lia.
  by destruct Hc as [->|[->|[->|[->|[->|[->|[->| ->]]]]]]].
Qed.

Lemma popcount_octal_step n d a : 0 ≤ d < 2 ^ 3 →
  popcount (S (S (S n))) (d + 2 ^ 3 * a) = digit_bits d + popcount n a.
Proof.
  apply (octal_digit_cases (λ d, popcount (S (S (S n))) (d + 2 ^ 3 * a) = digit_bits d + popcount n a));
    cbn [popcount];
    (lazymatch goal with |- context [popcount n ?x] => replace x with a by zdiv end);
    (match goal with |- context [digit_bits ?d] =>
       let v := eval vm_compute in (digit_bits d) in change (digit_bits d) with v end); zdiv.
Qed.

Lemma digit_bits_range d : 0 ≤ d < 2 ^ 3 → 0 ≤ digit_bits d ≤ 3.
Proof. apply (octal_digit_cases (λ d, 0 ≤ digit_bits d ≤ 3)); by vm_compute. Qed.

(** Every word is eleven octal digits, the highest below 4. *)
Lemma word_octal x : is_word x →
  ∃ d0 d1 d2 d3 d4 d5 d6 d7 d8 d9 d10,
    is_octal [d0; d1; d2; d3; d4; d5; d6; d7; d8; d9; d10] ∧ d10 < 4 ∧
    x = octal [d0; d1; d2; d3; d4; d5; d6; d7; d8; d9; d10].
Proof.
  intros Hx. unfold is_word in Hx. rewrite word_modulus_val in Hx.
  do 10 (let d := fresh "d" in let y := fresh "x" in let E := fresh "E" in
    destruct (digit_split 3 ltac:(lia) x) as (d & y & ? & E); subst x; rename y into x).
  eexists d, d0, d1, d2, d3, d4, d5, d6, d7, d8, x.
  split; [|split; [lia|simpl; lia]].
  repeat (apply Forall_cons; split; [lia|]). constructor.
Qed.

(** Masking a list of octal digits. *)
Lemma octal_land ds es : is_octal ds → is_octal es → length ds = length es →
  Z.land (octal ds) (octal es) = octal (zip_with Z.land ds es).
Proof.
  intros Hds. revert es. induction Hds as [|d ds Hd Hds IH]; intros es Hes Hlen;
    destruct Hes as [|e es He Hes]; simplify_eq/=; [done|].
  rewrite (digit_land 3) by done. by rewrite IH.
Qed.

Lemma land_shr32 x m k : 0 ≤ k → Z.land (shr32 x k) m = Z.land x (2 ^ k * m) / 2 ^ k.
Proof.
  intros Hk. unfold shr32. rewrite <- Z.shiftr_div_pow2, Z.shiftr_land by done. f_equal.
  rewrite Z.shiftr_div_pow2, Z.mul_comm, Z.div_mul by lia || done. done.
Qed.

(** The two subtrahends of a digit. *)
Lemma digit_halves d : 0 ≤ d < 2 ^ 3 →
  ∃ g h, Z.land d 6 = 2 * g ∧ Z.land d 4 = 4 * h ∧ 0 ≤ g ∧ 0 ≤ h ∧ g + h ≤ d ∧
    digit_bits d = d - g - h.
Proof.
  apply (octal_digit_cases (λ d, ∃ g h, Z.land d 6 = 2 * g ∧ Z.land d 4 = 4 * h ∧ 0 ≤ g ∧ 0 ≤ h ∧
    g + h ≤ d ∧ digit_bits d = d - g - h)).
  1, 2: by exists 0, 0. 1, 2: by exists 1, 0. 1, 2: by exists 2, 1. all: by exists 3, 1.
Qed.

Lemma popcount_word d0 d1 d2 d3 d4 d5 d6 d7 d8 d9 d10 :
  is_octal [d0; d1; d2; d3; d4; d5; d6; d7; d8; d9; d10] → d10 < 4 →
  popcount 32 (octal [d0; d1; d2; d3; d4; d5; d6; d7; d8; d9; d10]) =
    digit_bits d0 + digit_bits d1 + digit_bits d2 + digit_bits d3 + digit_bits d4 + digit_bits d5 +
    digit_bits d6 + digit_bits d7 + digit_bits d8 + digit_bits d9 + digit_bits d10.
Proof.
  intros Hd Hlt. repeat (apply Forall_cons in Hd as [? Hd]). cbn [octal].
  assert (popcount 2 (d10 + 2 ^ 3 * 0) = digit_bits d10) as Elast.
  { assert (d10 = 0 ∨ d10 = 1 ∨ d10 = 2 ∨ d10 = 3) as Hc by lia.
    by destruct Hc as [->|[->|[->| ->]]]. }
  do 10 (lazymatch goal with |- context [popcount (S (S (S ?n))) (?d + 2 ^ 3 * ?a)] =>
    rewrite (popcount_octal_step n d a) by done end).
  rewrite Elast. lia.
Qed.

(** The first line of [count_bits] replaces each octal digit by the number of
    its bits. *)
Lemma count_bits_digits x : is_word x →
  ∃ p0 p1 p2 p3 p4 p5 p6 p7 p8 p9 p10,
    Forall (λ p, 0 ≤ p ≤ 3) [p0; p1; p2; p3; p4; p5; p6; p7; p8; p9; p10] ∧
    w32 (w32 (x - Z.land (shr32 x 1) 0xdb6db6db) - Z.land (shr32 x 2) 0x49249249) =
      octal [p0; p1; p2; p3; p4; p5; p6; p7; p8; p9; p10] ∧
    popcount 32 x = p0 + p1 + p2 + p3 + p4 + p5 + p6 + p7 + p8 + p9 + p10.
Proof.
  intros Hx. destruct (word_octal x Hx) as (d0&d1&d2&d3&d4&d5&d6&d7&d8&d9&d10&Hd&Hd10&->).
  exists (digit_bits d0), (digit_bits d1), (digit_bits d2), (digit_bits d3), (digit_bits d4),
    (digit_bits d5), (digit_bits d6), (digit_bits d7), (digit_bits d8), (digit_bits d9),
    (digit_bits d10).
  split; [|split; [|by apply popcount_word]].
  { eapply Forall_impl with (P := λ p, 0 ≤ p ≤ 3); [|done].
    change (Forall (λ p, 0 ≤ p ≤ 3) (digit_bits <$> [d0; d1; d2; d3; d4; d5; d6; d7; d8; d9; d10])).
    apply Forall_fmap. eapply Forall_impl; [exact Hd|]. apply digit_bits_range. }
  rewrite !land_shr32 by done.
  change (2 ^ 1 * 0xdb6db6db) with (octal [6; 6; 6; 6; 6; 6; 6; 6; 6; 6; 6]).
  change (2 ^ 2 * 0x49249249) with (octal [4; 4; 4; 4; 4; 4; 4; 4; 4; 4; 4]).
  rewrite !octal_land by (done || by repeat constructor). cbn [zip_with].
  unfold is_word in Hx. rewrite word_modulus_val in Hx.
  repeat (let Hi := fresh in apply Forall_cons in Hd as [Hi Hd];
    destruct (digit_halves _ Hi) as (? & ? & -> & -> & ? & ? & ? & ->)).
  cbn [octal] in *. unfold w32. rewrite word_modulus_val.
  lazymatch goal with |- ((?x - ?a `div` _) `mod` _ - ?b `div` _) `mod` _ = _ =>
    let p := fresh "p" in let q := fresh "q" in
    remember (a `div` 2 ^ 1) as p; remember (b `div` 2 ^ 2) as q
  end.
  assert (0 ≤ p) by zdiv. rewrite (Z.mod_small (_ - p)) by zdiv. rewrite Z.mod_small; zdiv.
Qed.

(** The remaining lines add up the digits. *)
Lemma count_bits_sum p0 p1 p2 p3 p4 p5 p6 p7 p8 p9 p10 :
  Forall (λ p, 0 ≤ p ≤ 3) [p0; p1; p2; p3; p4; p5; p6; p7; p8; p9; p10] →
  let x := octal [p0; p1; p2; p3; p4; p5; p6; p7; p8; p9; p10] in
  let y := Z.land (w32 (x + shr32 x 3)) 0xc71c71c7 in
  let z := w32 (y + shr32 y 6) in
  Z.land (w32 (w32 (z + shr32 z 12) + shr32 z 24)) 0x3f =
    p0 + p1 + p2 + p3 + p4 + p5 + p6 + p7 + p8 + p9 + p10.
Proof.
  intros Hp x y z.
  repeat (let Hi := fresh in apply Forall_cons in Hp as [Hi Hp]).
  assert (Ey : y = octal [p0 + p1; 0; p2 + p3; 0; p4 + p5; 0; p6 + p7; 0; p8 + p9; 0; p10]).
  { subst y. change 0xc71c71c7 with (octal [7; 0; 7; 0; 7; 0; 7; 0; 7; 0; 3]).
    assert (Ex : w32 (x + shr32 x 3) = octal [p0 + p1; p1 + p2; p2 + p3; p3 + p4; p4 + p5;
      p5 + p6; p6 + p7; p7 + p8; p8 + p9; p9 + p10; p10]).
    { subst x. cbn [octal]. unfold shr32. rewrite digit_shiftr by lia.
      rewrite w32_small; [lia|]. unfold is_word. rewrite word_modulus_val. lia. }
    rewrite Ex, octal_land; [|repeat (apply Forall_cons; split; [lia|]); constructor
      |by repeat constructor|done].
    cbn [zip_with]. rewrite !Z.land_0_r.
    repeat rewrite (land_ones_mod _ 3), Z.mod_small by lia.
    change 3 with (2 ^ 2 - 1). rewrite (land_ones_mod _ 2), Z.mod_small by lia. done. }
  clearbody y. subst y. clear x.
  assert (Ez : z = (p0 + p1 + (p2 + p3)) + 2 ^ 6 * ((p2 + p3 + (p4 + p5)) + 2 ^ 6 *
    ((p4 + p5 + (p6 + p7)) + 2 ^ 6 * ((p6 + p7 + (p8 + p9)) + 2 ^ 6 * ((p8 + p9 + p10) + 2 ^ 6 * p10))))).
  { subst z. cbn [octal]. unfold shr32. rewrite Z.shiftr_div_pow2 by lia.
    rewrite w32_small; [zdiv|]. unfold is_word. rewrite word_modulus_val. zdiv. }
  clearbody z. subst z.
  assert (Es : ∀ t0 t1 t2 t3 t4 t5, Forall (λ t, 0 ≤ t < 2 ^ 6) [t0; t1; t2; t3] →
    let z := t0 + 2 ^ 6 * (t1 + 2 ^ 6 * (t2 + 2 ^ 6 * (t3 + 2 ^ 6 * (t4 + 2 ^ 6 * t5)))) in
    shr32 z 12 = t2 + 2 ^ 6 * (t3 + 2 ^ 6 * (t4 + 2 ^ 6 * t5)) ∧ shr32 z 24 = t4 + 2 ^ 6 * t5).
  { intros t0 t1 t2 t3 t4 t5 Ht z.
    repeat (let Hi := fresh in apply Forall_cons in Ht as [Hi Ht]). subst z. unfold shr32.
    change 24 with (6 + 6 + 6 + 6). change 12 with (6 + 6).
    rewrite <- !Z.shiftr_shiftr, !digit_shiftr by lia. done. }
  destruct (Es (p0 + p1 + (p2 + p3)) (p2 + p3 + (p4 + p5)) (p4 + p5 + (p6 + p7))
    (p6 + p7 + (p8 + p9)) (p8 + p9 + p10) p10) as [-> ->].
  { repeat (apply Forall_cons; split; [lia|]). constructor. }
  rewrite w32_add_l, w32_small by (unfold is_word; rewrite word_modulus_val; lia).
  change 0x3f with (2 ^ 6 - 1). rewrite land_ones_mod by lia.
  rewrite <- (digit_mod 6 (p0 + p1 + p2 + p3 + p4 + p5 + p6 + p7 + p8 + p9 + p10)
    (p2 + p3 + (p4 + p5) + (p6 + p7 + (p8 + p9)) + p10 + 2 ^ 6 * (p4 + p5 + (p6 + p7) + (p8 + p9 + p10)
     + 2 ^ 6 * (p6 + p7 + (p8 + p9) + p10 + 2 ^ 6 * (p8 + p9 + p10 + 2 ^ 6 * p10))))) by lia.
  f_equal. lia.
Qed.

Lemma count_bits_popcount x : is_word x → count_bits x = popcount 32 x.
Proof.
  intros Hx. destruct (count_bits_digits x Hx)
    as (p0&p1&p2&p3&p4&p5&p6&p7&p8&p9&p10&Hp&E&->).
  unfold count_bits. rewrite E. by apply count_bits_sum.
Qed.

(** * Highest and lowest bits *)

Lemma highest_bit_index_log2 x : 0 < x < 2 ^ 8 →
  highest_bit_index !! Z.to_nat x = Some (Z.log2 x).
Proof.
  intros Hx.
  assert (H : forallb (λ i, bool_decide (highest_bit_index !! i = Some (Z.log2 (Z.of_nat i))))
    (seq 1 255) = true) by by vm_compute.
  rewrite forallb_forall in H. specialize (H (Z.to_nat x)).
  rewrite bool_decide_eq_true, Z2Nat.id in H by lia. apply H, in_seq. lia.
Qed.

(** One halving step of [highest_bit] and [ilog2]. *)
Lemma shift_step x n k : 0 < x → 0 ≤ k →
  let '(n', x') := if bool_decide (shr32 x k ≠ 0) then (n + k, shr32 x k) else (n, x) in
  0 < x' ∧ n' + Z.log2 x' = n + Z.log2 x ∧ (x < 2 ^ (2 * k) → x' < 2 ^ k).
Proof.
  intros Hx Hk. unfold shr32. case_bool_decide as Hs.
  - assert (Hl : k ≤ Z.log2 x).
    { destruct (decide (k ≤ Z.log2 x)); [done|]. destruct Hs. apply Z.shiftr_eq_0; lia. }
    assert (Hp : 0 ≤ Z.shiftr x k) by (apply Z.shiftr_nonneg; lia).
    split; [lia|]. split.
    + rewrite Z.log2_shiftr by lia. lia.
    + intros Hlt. rewrite Z.shiftr_div_pow2 by lia. apply Z.div_lt_upper_bound.
      { apply Z.pow_pos_nonneg; lia. }
      rewrite <- Z.pow_add_r by lia. by replace (k + k) with (2 * k) by lia.
  - split; [done|]. split; [done|]. intros _.
    apply Z.shiftr_eq_0_iff in Hs as [->|[_ Hl]]; [lia|].
    by apply Z.log2_lt_pow2.
Qed.

Lemma highest_bit_log2 x : is_word x → x ≠ 0 → highest_bit x = Some (Z.log2 x).
Proof.
  intros Hx H0. unfold is_word in Hx. rewrite word_modulus_val in Hx. unfold highest_bit.
  pose proof (shift_step x 0 16 ltac:(lia) ltac:(lia)) as H1. rewrite Z.add_0_l in H1.
  destruct (if bool_decide (shr32 x 16 ≠ 0) then _ else _) as [n1 x1].
  destruct H1 as (Hp1 & El1 & Hb1).
  pose proof (shift_step x1 n1 8 Hp1 ltac:(lia)) as H2.
  destruct (if bool_decide (shr32 x1 8 ≠ 0) then _ else _) as [n2 x2].
  destruct H2 as (Hp2 & El2 & Hb2).
  rewrite highest_bit_index_log2 by lia. simpl. f_equal. lia.
Qed.

(** What [ilog2] computes. *)
Lemma ilog2_value x : is_word x →
  ilog2 x = Some (if bool_decide (x = 0) then 0
                  else if bool_decide (x < 2 ^ 16) then 1 + Z.log2 x else Z.log2 x).
Proof.
  intros Hx. unfold is_word in Hx. rewrite word_modulus_val in Hx. unfold ilog2.
  case_bool_decide as H0; [done|].
  pose proof (shift_step x 0 16 ltac:(lia) ltac:(lia)) as H1.
  case_bool_decide as Hs.
  - assert (Hge : ¬ x < 2 ^ 16).
    { intros Hlt. apply Hs. unfold shr32. rewrite Z.shiftr_div_pow2 by lia. apply Z.div_small. lia. }
    rewrite (bool_decide_eq_false_2 (x < 2 ^ 16)) by done. destruct H1 as (Hp1 & El1 & Hb1).
    pose proof (shift_step (shr32 x 16) 16 8 Hp1 ltac:(lia)) as H2.
    destruct (if bool_decide (shr32 (shr32 x 16) 8 ≠ 0) then _ else _) as [n2 x2].
    destruct H2 as (Hp2 & El2 & Hb2).
    rewrite highest_bit_index_log2 by lia. simpl. f_equal. lia.
  - destruct H1 as (Hp1 & El1 & Hb1). rewrite (bool_decide_eq_true_2 (x < 2 ^ 16)) by lia.
    pose proof (shift_step x 1 8 Hp1 ltac:(lia)) as H2.
    destruct (if bool_decide (shr32 x 8 ≠ 0) then _ else _) as [n2 x2].
    destruct H2 as (Hp2 & El2 & Hb2).
    rewrite highest_bit_index_log2 by lia. simpl. f_equal. lia.
Qed.

Lemma DO_ILOG2_from_spec n k x : 0 ≤ x →
  (k = 0%nat ∨ 2 ^ (Z.of_nat k - 1) ≤ x) → x < 2 ^ Z.of_nat (k + n) →
  DO_ILOG2_from k n x = if bool_decide (x = 0) then 0 else 1 + Z.log2 x.
Proof.
  revert k. induction n as [|n IH]; intros k Hx Hk Hn; cbn [DO_ILOG2_from].
  - rewrite Nat.add_0_r in Hn. case_bool_decide as H0.
    + subst. destruct k as [|k]; [done|]. destruct Hk as [?|Hk]; [done|].
      assert (0 < 2 ^ (Z.of_nat (S k) - 1)) by (apply Z.pow_pos_nonneg; lia). lia.
    + destruct k as [|k]; [simpl in Hn; lia|]. destruct Hk as [?|Hk]; [done|].
      rewrite (Z.log2_unique x (Z.of_nat (S k) - 1)); [lia|lia|].
      replace (Z.succ (Z.of_nat (S k) - 1)) with (Z.of_nat (S k)) by lia. done.
  - destruct (bool_decide (x < 2 ^ Z.of_nat k)) eqn:Hlt;
      [apply bool_decide_eq_true in Hlt|apply bool_decide_eq_false in Hlt].
    + clear IH. case_bool_decide as H0.
      * subst. destruct k as [|k]; [done|]. destruct Hk as [?|Hk]; [done|].
        assert (0 < 2 ^ (Z.of_nat (S k) - 1)) by (apply Z.pow_pos_nonneg; lia). lia.
      * destruct k as [|k]; [simpl in Hlt; lia|]. destruct Hk as [?|Hk]; [done|].
        rewrite (Z.log2_unique x (Z.of_nat (S k) - 1)); [lia|lia|].
        replace (Z.succ (Z.of_nat (S k) - 1)) with (Z.of_nat (S k)) by lia. done.
    + apply IH; [done| |by rewrite Nat.add_succ_comm].
      right. replace (Z.of_nat (S k) - 1) with (Z.of_nat k) by lia. lia.
Qed.

(** The lowest set bit of a nonzero byte is in the table. *)
Definition is_lowest_bit (x k : Z) : Prop :=
  0 ≤ k ∧ Z.testbit x k = true ∧ ∀ j, 0 ≤ j < k → Z.testbit x j = false.

Lemma lowest_bit_index_spec x k : 0 ≤ x < 2 ^ 8 → is_lowest_bit x k →
  lowest_bit_index !! Z.to_nat x = Some k.
Proof.
  intros Hx (Hk & Ht & Hl).
  assert (Hk8 : k < 8).
  { destruct (decide (k < 8)); [done|]. rewrite Z.bits_above_log2 in Ht; [done|lia|].
    destruct (decide (x = 0)) as [->|]; [simpl; lia|].
    assert (Z.log2 x < 8) by (apply Z.log2_lt_pow2; lia). lia. }
  assert (H : forallb (λ i, forallb (λ k,
      implb (Z.testbit (Z.of_nat i) k && forallb (λ j, negb (Z.testbit (Z.of_nat i) j)) (seqZ 0 k))
        (bool_decide (lowest_bit_index !! i = Some k))) (seqZ 0 8)) (seq 0 256) = true)
    by by vm_compute.
  rewrite forallb_forall in H. specialize (H (Z.to_nat x)).
  rewrite forallb_forall in H. specialize (H ltac:(apply in_seq; lia) k).
  rewrite Z2Nat.id in H by lia. rewrite Ht, andb_true_l in H.
  assert (Hj : forallb (λ j, negb (Z.testbit x j)) (seqZ 0 k) = true).
  { apply forallb_forall. intros j Hj%list_elem_of_In. apply elem_of_seqZ in Hj.
    by rewrite Hl by lia. }
  rewrite Hj in H. cbn [andb implb] in H. eapply bool_decide_eq_true, H, list_elem_of_In, elem_of_seqZ. lia.
Qed.

(** Shifting out zero bits moves the lowest set bit. *)
Lemma lowest_bit_shift x k m : 0 ≤ m ≤ k → is_lowest_bit x k → is_lowest_bit (shr32 x m) (k - m).
Proof.
  intros Hm (Hk & Ht & Hl). unfold shr32. split; [lia|]. split.
  - rewrite Z.shiftr_spec by lia. by replace (k - m + m) with k by lia.
  - intros j Hj. rewrite Z.shiftr_spec by lia. apply Hl. lia.
Qed.

(** [x << m] is zero in 32 bits if and only if the lowest set bit is shifted out. *)
Lemma shl32_zero x k m : 0 ≤ m ≤ 32 → is_lowest_bit x k → shl32 x m = 0 ↔ 32 ≤ k + m.
Proof.
  intros Hm (Hk & Ht & Hl). unfold shl32, w32, word_modulus. rewrite <- Z.land_ones by lia. split.
  - intros E. destruct (decide (32 ≤ k + m)); [done|]. exfalso.
    apply (f_equal (λ y, Z.testbit y (k + m))) in E.
    rewrite Z.land_spec, Z.shiftl_spec, Z.ones_spec_low, Z.bits_0 in E by lia.
    replace (k + m - m) with k in E by lia. by rewrite Ht in E.
  - intros Hkm. apply Z.bits_inj'. intros j Hj. rewrite Z.land_spec, Z.shiftl_spec, Z.bits_0 by lia.
    destruct (decide (j < 32)).
    + destruct (decide (j < m)).
      * by rewrite Z.testbit_neg_r by lia.
      * by rewrite Hl by lia.
    + by rewrite Z.ones_spec_high, andb_false_r by lia.
Qed.

(** The byte at the bottom. *)
Lemma lowest_bit_byte x k : 0 ≤ k < 8 → is_lowest_bit x k → is_lowest_bit (Z.land x 0xFF) k.
Proof.
  intros Hk (_ & Ht & Hl). change 0xFF with (Z.ones 8). split; [lia|]. split.
  - rewrite Z.land_spec, Ht, Z.ones_spec_low by lia. done.
  - intros j Hj. by rewrite Z.land_spec, Hl by lia.
Qed.

Lemma lowest_bit_empty_byte x k : 8 ≤ k → is_lowest_bit x k → Z.land x 0xFF = 0.
Proof.
  intros Hk (_ & Ht & Hl). change 0xFF with (Z.ones 8). apply Z.bits_inj'. intros j Hj.
  rewrite Z.land_spec, Z.bits_0. destruct (decide (j < 8)).
  - by rewrite Hl by lia.
  - by rewrite Z.ones_spec_high, andb_false_r by lia.
Qed.

Lemma land_byte_range x : 0 ≤ Z.land x 0xFF < 2 ^ 8.
Proof. change 0xFF with (2 ^ 8 - 1). rewrite land_ones_mod by lia. by apply Z.mod_pos_bound. Qed.

Lemma lowest_bit_value x k : is_lowest_bit x k → k < 32 →
  lowest_bit x = Some (if bool_decide (k mod 16 < 8) then k else k - k mod 16).
Proof.
  intros Hlow Hk. unfold lowest_bit.
  assert (Hlast : ∀ n y j, is_lowest_bit y j → 0 ≤ j < 24 →
    (let '(n, y) := if bool_decide (shl32 y 8 = 0) then (n + 8, shr32 y 8) else (n, y) in
     Z.add n <$> lowest_bit_index !! Z.to_nat (Z.land y 0xFF)) =
    Some (if bool_decide (j < 8) then n + j else n)).
  { intros n y j Hy Hj. rewrite bool_decide_eq_false_2.
    - case_bool_decide.
      + by rewrite (lowest_bit_index_spec _ j (land_byte_range _)) by (by apply lowest_bit_byte; [lia|]).
      + rewrite (lowest_bit_empty_byte _ j) by (lia || done). simpl. f_equal. lia.
    - rewrite (shl32_zero y j) by (lia || done). lia. }
  case_bool_decide as Hs; rewrite (shl32_zero x k) in Hs by (lia || done).
  - rewrite (Hlast 16 (shr32 x 16) (k - 16)); [|by apply lowest_bit_shift; [lia|]|lia].
    assert (k mod 16 = k - 16) as -> by zdiv. f_equal. case_bool_decide; lia.
  - destruct Hlow as [Hk0 Hlow]. rewrite (Hlast 0 x k) by (done || lia).
    assert (k mod 16 = k) as -> by zdiv. f_equal. case_bool_decide; lia.
Qed.

(** * Properties *)

(** C28. [highest_bit] is the integer logarithm of every nonzero word, [DO_ILOG2]
    is one more than it (0 for 0), no table access is out of bounds, and
    [ilog2], which is meant to agree with [DO_ILOG2], does so exactly for the
    words below [2^16]: from there on it is one too small, because it sets [n]
    to 16 instead of adding 16. *)
Theorem logarithms x : is_word x →
  (x ≠ 0 → highest_bit x = Some (Z.log2 x)) ∧
  DO_ILOG2 x = (if bool_decide (x = 0) then 0 else 1 + Z.log2 x) ∧
  ilog2 x = Some (if bool_decide (x < 2 ^ 16) then DO_ILOG2 x else DO_ILOG2 x - 1).
Proof.
  intros Hx. split; [by apply highest_bit_log2|].
  assert (E : DO_ILOG2 x = if bool_decide (x = 0) then 0 else 1 + Z.log2 x).
  { apply DO_ILOG2_from_spec; [apply Hx|by left|apply Hx]. }
  split; [exact E|]. rewrite ilog2_value, E by done. f_equal.
  case_bool_decide as H0; [by subst|]. case_bool_decide; lia.
Qed.

Lemma logarithms_witness :
  (0x80000000 ≠ 0 → highest_bit 0x80000000 = Some 31) ∧ DO_ILOG2 0x80000000 = 32 ∧
  ilog2 0x80000000 = Some 31.
Proof. apply (logarithms 0x80000000). by vm_compute. Defined.

(** C29. [lowest_bit] returns the position [k] of the lowest set bit of a word if
    [k mod 16 < 8]; otherwise, because it tests [x << 8] instead of
    [x << 24], it returns [k] rounded down to a multiple of 16. *)
Theorem lowest_bit_result x k : is_lowest_bit x k → k < 32 →
  lowest_bit x = Some (if bool_decide (k mod 16 < 8) then k else k - k mod 16).
Proof. apply lowest_bit_value. Qed.

Lemma lowest_bit_result_witness : lowest_bit 0x100 = Some 0 ∧ lowest_bit 0x50000 = Some 16.
Proof.
  split; [apply (lowest_bit_result 0x100 8)|apply (lowest_bit_result 0x50000 16)]; try lia.
  - split; [lia|]. split; [done|]. intros j Hj.
    assert (j = 0 ∨ j = 1 ∨ j = 2 ∨ j = 3 ∨ j = 4 ∨ j = 5 ∨ j = 6 ∨ j = 7) as Hc by lia.
    by destruct Hc as [->|[->|[->|[->|[->|[->|[->| ->]]]]]]].
  - split; [lia|]. split; [done|]. intros j Hj. change 0x50000 with (Z.shiftl 5 16).
    rewrite Z.shiftl_spec, Z.testbit_neg_r by lia. done.
Defined.

(** [count_bits] counts the set bits of every 32-bit word. *)
Theorem count_bits_correct x : is_word x → count_bits x = popcount 32 x.
Proof. apply count_bits_popcount. Qed.

Lemma count_bits_correct_witness : count_bits 0xF00F0001 = 9.
Proof. rewrite (count_bits_correct 0xF00F0001); [reflexivity|by vm_compute]. Defined.

(** [swap_bytes] reverses the four bytes of a word, so it is its own
    inverse. *)
Theorem swap_bytes_involutive x : is_word x →
  swap_bytes (swap_bytes x) = x ∧
  ∀ b0 b1 b2 b3, is_byte b0 → is_byte b1 → is_byte b2 → is_byte b3 →
    x = bytes4 b0 b1 b2 b3 → swap_bytes x = bytes4 b3 b2 b1 b0.
Proof.
  intros Hx. split.
  - destruct (word_bytes x Hx) as (b0 & b1 & b2 & b3 & H0 & H1 & H2 & H3 & ->).
    by rewrite !swap_bytes_bytes.
  - intros b0 b1 b2 b3 H0 H1 H2 H3 ->. by apply swap_bytes_bytes.
Qed.

Lemma swap_bytes_involutive_witness :
  swap_bytes (swap_bytes 0x12345678) = 0x12345678 ∧
  ∀ b0 b1 b2 b3, is_byte b0 → is_byte b1 → is_byte b2 → is_byte b3 →
    0x12345678 = bytes4 b0 b1 b2 b3 → swap_bytes 0x12345678 = bytes4 b3 b2 b1 b0.
Proof. apply (swap_bytes_involutive 0x12345678). by vm_compute. Defined.
