(* ===== verification/Root.v ===== *)
(** The root block: root.h, root-def.h and root.c.

    [GET_ROOT_WORD(name)] and the other accessors are [get_root] and [set_root]
    of the name's index; [GET_ROOT_PTR] and [SET_ROOT_PTR] are the same
    functions, as pointers are modelled by words. *)

From S2P Require Import Prelude Generations Machine Celltypes Shades.

(** * The items of root-def.h *)

(** [root_ix_t] *)
Inductive root_ix :=
| ROOT_IX_magic_cookie
| ROOT_IX_time_stamp_hi
| ROOT_IX_time_stamp_lo
| ROOT_IX_interned_shtrings
| ROOT_IX_bcodes
| ROOT_IX_globals
| ROOT_IX_suspended_cont
| ROOT_IX_suspended_accu_type
| ROOT_IX_suspended_accu
| ROOT_IX_suspended_thread_id
| ROOT_IX_suspended_priority
| ROOT_IX_contexts
| ROOT_IX_context1
| ROOT_IX_context2
| ROOT_IX_context3
| ROOT_IX_blocked_threads
| ROOT_IX_highest_thread_id
| ROOT_IX_oid_map
| ROOT_IX_oid_freelist
| ROOT_IX_oid_in_use
| ROOT_IX_oid_max
| ROOT_IX_oid_allocation_cursor
| ROOT_IX_oid_prev_random
| ROOT_IX_cpp_view
| ROOT_IX_cpp_consistent
| ROOT_IX_test1
| ROOT_IX_test2
| ROOT_IX_test3
| ROOT_IX_test4
| ROOT_IX_test_branch
| ROOT_IX_test_teller
| ROOT_IX_test_account
| ROOT_IX_test_history
| ROOT_IX_test_acc_info
| ROOT_IX_test_cust_info
| ROOT_IX_test_hot_info
| ROOT_IX_test_store_info
| ROOT_IX_generation_pinfo_list
| ROOT_IX_prev_generation_pinfo_list
| ROOT_IX_prev_prev_generation_pinfo_list
| ROOT_IX_youngest_generation_number_of_pages
| ROOT_IX_youngest_generation_number
| ROOT_IX_youngest_generation_number_of_referring_ptrs
| ROOT_IX_youngest_generation_page_number0
| ROOT_IX_youngest_generation_disk_page_number0.

#[export] Instance root_ix_eq_dec : EqDecision root_ix.
Proof. solve_decision. Defined.

Definition root_ixs : list root_ix :=
  [ROOT_IX_magic_cookie; ROOT_IX_time_stamp_hi; ROOT_IX_time_stamp_lo;
   ROOT_IX_interned_shtrings; ROOT_IX_bcodes; ROOT_IX_globals;
   ROOT_IX_suspended_cont; ROOT_IX_suspended_accu_type; ROOT_IX_suspended_accu;
   ROOT_IX_suspended_thread_id; ROOT_IX_suspended_priority; ROOT_IX_contexts;
   ROOT_IX_context1; ROOT_IX_context2; ROOT_IX_context3;
   ROOT_IX_blocked_threads; ROOT_IX_highest_thread_id; ROOT_IX_oid_map;
   ROOT_IX_oid_freelist; ROOT_IX_oid_in_use; ROOT_IX_oid_max;
   ROOT_IX_oid_allocation_cursor; ROOT_IX_oid_prev_random; ROOT_IX_cpp_view;
   ROOT_IX_cpp_consistent; ROOT_IX_test1; ROOT_IX_test2;
   ROOT_IX_test3; ROOT_IX_test4; ROOT_IX_test_branch;
   ROOT_IX_test_teller; ROOT_IX_test_account; ROOT_IX_test_history;
   ROOT_IX_test_acc_info; ROOT_IX_test_cust_info; ROOT_IX_test_hot_info;
   ROOT_IX_test_store_info; ROOT_IX_generation_pinfo_list; ROOT_IX_prev_generation_pinfo_list;
   ROOT_IX_prev_prev_generation_pinfo_list; ROOT_IX_youngest_generation_number_of_pages; ROOT_IX_youngest_generation_number;
   ROOT_IX_youngest_generation_number_of_referring_ptrs; ROOT_IX_youngest_generation_page_number0; ROOT_IX_youngest_generation_disk_page_number0].

(** The value of an enumerator. *)
Definition root_ix_num (x : root_ix) : nat :=
  match list_find (x =.) root_ixs with
  | Some (i, _) => i
  | None => 0
  end.

Definition NUMBER_OF_ROOT_IXS : Z := Z.of_nat (length root_ixs).

(** cookies.h *)
Definition ROOT_MAGIC_COOKIE : Z := 0x50073A61.

(** [ROOT_WORD(name, initial_value)] and [ROOT_PTR(name)]. *)
Inductive root_item :=
| ROOT_WORD (initial_value : Z)
| ROOT_PTR.

Definition root_def (x : root_ix) : root_item :=
  match x with
  | ROOT_IX_magic_cookie => ROOT_WORD ROOT_MAGIC_COOKIE
  | ROOT_IX_time_stamp_hi => ROOT_WORD 0
  | ROOT_IX_time_stamp_lo => ROOT_WORD 1
  | ROOT_IX_interned_shtrings => ROOT_PTR
  | ROOT_IX_bcodes => ROOT_PTR
  | ROOT_IX_globals => ROOT_PTR
  | ROOT_IX_suspended_cont => ROOT_PTR
  | ROOT_IX_suspended_accu_type => ROOT_WORD 0
  | ROOT_IX_suspended_accu => ROOT_WORD 0
  | ROOT_IX_suspended_thread_id => ROOT_WORD 0
  | ROOT_IX_suspended_priority => ROOT_WORD 0
  | ROOT_IX_contexts => ROOT_PTR
  | ROOT_IX_context1 => ROOT_PTR
  | ROOT_IX_context2 => ROOT_PTR
  | ROOT_IX_context3 => ROOT_PTR
  | ROOT_IX_blocked_threads => ROOT_PTR
  | ROOT_IX_highest_thread_id => ROOT_WORD 0
  | ROOT_IX_oid_map => ROOT_PTR
  | ROOT_IX_oid_freelist => ROOT_PTR
  | ROOT_IX_oid_in_use => ROOT_WORD 0
  | ROOT_IX_oid_max => ROOT_WORD 0
  | ROOT_IX_oid_allocation_cursor => ROOT_WORD 0
  | ROOT_IX_oid_prev_random => ROOT_WORD 0
  | ROOT_IX_cpp_view => ROOT_PTR
  | ROOT_IX_cpp_consistent => ROOT_PTR
  | ROOT_IX_test1 => ROOT_PTR
  | ROOT_IX_test2 => ROOT_PTR
  | ROOT_IX_test3 => ROOT_PTR
  | ROOT_IX_test4 => ROOT_PTR
  | ROOT_IX_test_branch => ROOT_PTR
  | ROOT_IX_test_teller => ROOT_PTR
  | ROOT_IX_test_account => ROOT_PTR
  | ROOT_IX_test_history => ROOT_PTR
  | ROOT_IX_test_acc_info => ROOT_PTR
  | ROOT_IX_test_cust_info => ROOT_PTR
  | ROOT_IX_test_hot_info => ROOT_PTR
  | ROOT_IX_test_store_info => ROOT_PTR
  | ROOT_IX_generation_pinfo_list => ROOT_PTR
  | ROOT_IX_prev_generation_pinfo_list => ROOT_WORD 0
  | ROOT_IX_prev_prev_generation_pinfo_list => ROOT_WORD 0
  | ROOT_IX_youngest_generation_number_of_pages => ROOT_WORD 0
  | ROOT_IX_youngest_generation_number => ROOT_WORD 0xFFFFFFFF
  | ROOT_IX_youngest_generation_number_of_referring_ptrs => ROOT_WORD 0
  | ROOT_IX_youngest_generation_page_number0 => ROOT_WORD 0
  | ROOT_IX_youngest_generation_disk_page_number0 => ROOT_WORD 0
  end.

(** io.h, root.h *)
Definition DISK_BLOCK_SIZE : Z := 512.
Definition NUMBER_OF_ROOT_BLOCK_ITEMS : Z := DISK_BLOCK_SIZE / 4.

(** * Operations *)

Definition get_root (x : root_ix) : M Z :=
  r ← gets root;
  of_option (r !! root_ix_num x).

Definition update_root (i : nat) (v : Z) : M unit :=
  r ← gets root;
  _ ← of_option (r !! i);
  modify (set_root (<[i := v]> r)).
Definition set_root_item (x : root_ix) (v : Z) : M unit := update_root (root_ix_num x) v.

(** [ix_is_ptr\[i\] = b] *)
Definition update_ix_is_ptr (i : nat) (b : bool) : M unit :=
  r ← gets ix_is_ptr;
  _ ← of_option (r !! i);
  modify (set_ix_is_ptr (<[i := b]> r)).

(** The initialisation of one item, the expansion of a line of root-def.h. *)
Definition init_root_item (x : root_ix) : M unit :=
  match root_def x with
  | ROOT_WORD v => set_root_item x v;; update_ix_is_ptr (root_ix_num x) false
  | ROOT_PTR => set_root_item x NULL_WORD;; update_ix_is_ptr (root_ix_num x) true
  end.

Fixpoint init_root_items (xs : list root_ix) : M unit :=
  match xs with
  | [] => mret tt
  | x :: xs' => init_root_item x;; init_root_items xs'
  end.

Definition init_root : M unit :=
  massert (bool_decide (NUMBER_OF_ROOT_IXS * 4 < DISK_BLOCK_SIZE));;
  init_root_items root_ixs.

Definition increment_root_time_stamp : M unit :=
  lo ← get_root ROOT_IX_time_stamp_lo;
  if bool_decide (lo = 0xFFFFFFFF) then
    hi ← get_root ROOT_IX_time_stamp_hi;
    set_root_item ROOT_IX_time_stamp_hi (w32 (hi + 1));;
    set_root_item ROOT_IX_time_stamp_lo 0
  else
    lo ← get_root ROOT_IX_time_stamp_lo;
    set_root_item ROOT_IX_time_stamp_lo (w32 (lo + 1)).

Definition time_stamp_is_newer_than (a_hi a_lo b_hi b_lo : Z) : bool :=
  if bool_decide (a_hi > b_hi) then true
  else if bool_decide (a_hi < b_hi) then false
  else if bool_decide (a_lo > b_lo) then true
  else false.

Definition root_ix_is_ptr (i : Z) : M bool :=
  massert (bool_decide (i >= 0));;
  massert (bool_decide (i < NUMBER_OF_ROOT_IXS));;
  r ← gets ix_is_ptr;
  of_option (r !! Z.to_nat i).

(** * Properties *)

Lemma wp_get_root x v s (Q : Z → state → Prop) :
  root s !! root_ix_num x = Some v → Q v s → wp (get_root x) Q s.
Proof. intros Hx HQ. apply wp_bind, wp_gets. by eapply wp_of_option. Qed.

Lemma wp_set_root_item x v s (Q : unit → state → Prop) :
  (root_ix_num x < length (root s))%nat →
  Q tt (set_root (<[root_ix_num x := v]> (root s)) s) → wp (set_root_item x v) Q s.
Proof.
  intros Hx HQ. apply wp_bind, wp_gets, wp_bind.
  destruct (lookup_lt_is_Some_2 _ _ Hx) as [w Hw].
  eapply wp_of_option; [done|]. by apply wp_modify.
Qed.

(** The number that the two words of a time stamp stand for. *)
Definition stamp (hi lo : Z) : Z := hi * word_modulus + lo.

(** The time stamp in the root block. *)
Definition root_stamp (s : state) : option Z :=
  hi ← root s !! root_ix_num ROOT_IX_time_stamp_hi;
  lo ← root s !! root_ix_num ROOT_IX_time_stamp_lo;
  Some (stamp hi lo).

Lemma time_stamp_is_newer_than_stamp a_hi a_lo b_hi b_lo :
  is_word a_hi → is_word a_lo → is_word b_hi → is_word b_lo →
  time_stamp_is_newer_than a_hi a_lo b_hi b_lo =
    bool_decide (stamp b_hi b_lo < stamp a_hi a_lo).
Proof.
  unfold is_word, stamp, time_stamp_is_newer_than. rewrite word_modulus_val. intros Ha Hal Hb Hbl.
  destruct (decide (a_hi > b_hi)); [rewrite !bool_decide_eq_true_2 by lia; done|].
  rewrite (bool_decide_eq_false_2 (a_hi > b_hi)) by done.
  destruct (decide (a_hi < b_hi)).
  { rewrite bool_decide_eq_true_2 by lia. rewrite bool_decide_eq_false_2 by lia. done. }
  rewrite (bool_decide_eq_false_2 (a_hi < b_hi)) by done. assert (a_hi = b_hi) as -> by lia.
  destruct (decide (a_lo > b_lo)); [rewrite !bool_decide_eq_true_2 by lia; done|].
  rewrite !bool_decide_eq_false_2 by lia. done.
Qed.

(** The indices are those of the list, and so distinct. *)
Lemma root_ixs_lookup x : root_ixs !! root_ix_num x = Some x.
Proof. by destruct x. Qed.

Lemma root_ix_num_inj x y : root_ix_num x = root_ix_num y → x = y.
Proof. intros E. pose proof (root_ixs_lookup x) as H. rewrite E, root_ixs_lookup in H. congruence. Qed.

Lemma root_ix_num_lt x : (root_ix_num x < 128)%nat.
Proof. destruct x; vm_compute; lia. Qed.

(** The initial value of an item. *)
Definition initial_value (x : root_ix) : Z :=
  match root_def x with ROOT_WORD v => v | ROOT_PTR => NULL_WORD end.
Definition initial_is_ptr (x : root_ix) : bool :=
  match root_def x with ROOT_WORD _ => false | ROOT_PTR => true end.

Lemma wp_init_root_item x s (Q : unit → state → Prop) :
  (root_ix_num x < length (root s))%nat → (root_ix_num x < length (ix_is_ptr s))%nat →
  Q tt (set_ix_is_ptr (<[root_ix_num x := initial_is_ptr x]> (ix_is_ptr s))
         (set_root (<[root_ix_num x := initial_value x]> (root s)) s)) →
  wp (init_root_item x) Q s.
Proof.
  intros H1 H2 HQ.
  assert (H : wp (set_root_item x (initial_value x);; update_ix_is_ptr (root_ix_num x) (initial_is_ptr x)) Q s).
  { apply wp_bind, wp_set_root_item; [done|]. apply wp_bind, wp_gets, wp_bind.
    destruct (lookup_lt_is_Some_2 _ _ H2) as [b Hb]. eapply wp_of_option; [done|].
    by apply wp_modify. }
  unfold init_root_item, initial_value, initial_is_ptr in *. by destruct (root_def x).
Qed.

(** Initialising a list of items without repetition. *)
Lemma wp_init_root_items xs s (Q : unit → state → Prop) :
  (128 ≤ length (root s))%nat → (128 ≤ length (ix_is_ptr s))%nat → NoDup xs →
  (∀ s', same_cells s s' →
    length (root s') = length (root s) → length (ix_is_ptr s') = length (ix_is_ptr s) →
    (∀ x, x ∈ xs → root s' !! root_ix_num x = Some (initial_value x) ∧
                   ix_is_ptr s' !! root_ix_num x = Some (initial_is_ptr x)) →
    (∀ i, (∀ x, x ∈ xs → root_ix_num x ≠ i) →
      root s' !! i = root s !! i ∧ ix_is_ptr s' !! i = ix_is_ptr s !! i) →
    Q tt s') →
  wp (init_root_items xs) Q s.
Proof.
  intros Hr Hi Hnd. revert s Hr Hi Q. induction Hnd as [|x xs Hx _ IH]; intros s Hr Hi Q HQ.
  - apply wp_ret, HQ; try done. set_solver.
  - pose proof (root_ix_num_lt x). apply wp_bind, wp_init_root_item; [lia..|].
    apply IH; [simpl; rewrite length_insert; lia..|]. simpl. rewrite !length_insert.
    intros s' Hm Hlr Hli Hin Hout. apply HQ; [done..| |].
    + intros z [->|Hz]%elem_of_cons; [|by apply Hin].
      destruct (Hout (root_ix_num x)) as [-> ->].
      { intros y Hy E. apply root_ix_num_inj in E as ->. done. }
      rewrite !list_lookup_insert_eq by lia. done.
    + intros i Hne. destruct (Hout i) as [-> ->].
      { intros z Hz. apply Hne. by right. }
      rewrite !list_lookup_insert_ne by (apply Hne; left). done.
Qed.

(** [init_root] passes its size assertion and gives every item of the root
    block its declared initial value; afterwards [root_ix_is_ptr(i)] answers
    whether item [i] was declared by [ROOT_PTR], and fails its assertions for an
    [i] that is no item. *)
Theorem init_root_correct s :
  length (root s) = Z.to_nat NUMBER_OF_ROOT_BLOCK_ITEMS →
  length (ix_is_ptr s) = Z.to_nat NUMBER_OF_ROOT_BLOCK_ITEMS →
  ∃ s', init_root s = Ok tt s' ∧ same_cells s s' ∧
    (∀ x, get_root x s' = Ok (initial_value x) s' ∧
      root_ix_is_ptr (Z.of_nat (root_ix_num x)) s' = Ok (initial_is_ptr x) s') ∧
    (∀ i, i < 0 ∨ NUMBER_OF_ROOT_IXS ≤ i → root_ix_is_ptr i s' = Err AssertFailed).
Proof.
  intros Hr Hi. change (Z.to_nat NUMBER_OF_ROOT_BLOCK_ITEMS) with 128%nat in *.
  assert (H : wp init_root (λ _ s', same_cells s s' ∧
    ∀ x, root s' !! root_ix_num x = Some (initial_value x) ∧
         ix_is_ptr s' !! root_ix_num x = Some (initial_is_ptr x)) s).
  { apply wp_bind, wp_assert; [done|].
    apply wp_init_root_items; [lia|lia|by apply (bool_decide_unpack _); vm_compute|].
    intros s' Hm _ _ Hin _. split; [done|]. intros x. apply Hin.
    eapply list_elem_of_lookup_2, root_ixs_lookup. }
  apply wp_inv in H as ([] & s' & E & Hm & Hall). exists s'.
  split; [done|]. split; [done|]. split.
  - intros x. destruct (Hall x) as [H1 H2]. split.
    + unfold get_root, gets, mbind, M_bind. by rewrite H1.
    + assert (Hlt : Z.of_nat (root_ix_num x) < NUMBER_OF_ROOT_IXS).
      { unfold NUMBER_OF_ROOT_IXS. pose proof (root_ixs_lookup x) as Hl%lookup_lt_Some. lia. }
      unfold root_ix_is_ptr. rewrite (bool_decide_eq_true_2 (_ >= 0)) by lia.
      rewrite (bool_decide_eq_true_2 (_ < NUMBER_OF_ROOT_IXS)) by lia. unfold gets, mbind, M_bind. simpl.
      by rewrite Nat2Z.id, H2.
  - intros i Hbad. unfold root_ix_is_ptr. destruct (decide (i >= 0)).
    + rewrite (bool_decide_eq_true_2 (_ >= 0)) by done.
      by rewrite (bool_decide_eq_false_2 (_ < NUMBER_OF_ROOT_IXS)) by lia.
    + by rewrite (bool_decide_eq_false_2 (_ >= 0)) by done.
Qed.

Definition blank_state : state :=
  mkState ∅ 0 0 0 0 (replicate 128 0) (replicate 128 false) 0 initial_gc.

Lemma init_root_correct_witness :
  ∃ s', init_root blank_state = Ok tt s' ∧ same_cells blank_state s' ∧
    (∀ x, get_root x s' = Ok (initial_value x) s' ∧
      root_ix_is_ptr (Z.of_nat (root_ix_num x)) s' = Ok (initial_is_ptr x) s') ∧
    (∀ i, i < 0 ∨ NUMBER_OF_ROOT_IXS ≤ i → root_ix_is_ptr i s' = Err AssertFailed).
Proof. by apply (init_root_correct blank_state). Defined.

(** Incrementing writes the two words of the time stamp. *)
Lemma wp_increment_root_time_stamp hi lo s (Q : unit → state → Prop) :
  root s !! root_ix_num ROOT_IX_time_stamp_hi = Some hi →
  root s !! root_ix_num ROOT_IX_time_stamp_lo = Some lo →
  is_word hi → is_word lo →
  (∀ hi' lo', is_word hi' → is_word lo' → stamp hi' lo' = (stamp hi lo + 1) mod 2 ^ 64 →
    Q tt (set_root (<[root_ix_num ROOT_IX_time_stamp_lo := lo']> (<[root_ix_num ROOT_IX_time_stamp_hi := hi']> (root s))) s)) →
  wp increment_root_time_stamp Q s.
Proof.
  intros Hhi Hlo Whi Wlo HQ. pose proof (lookup_lt_Some _ _ _ Hhi) as Lhi. pose proof (lookup_lt_Some _ _ _ Hlo) as Llo.
  apply wp_bind. eapply wp_get_root; [exact Hlo|]. case_bool_decide as Hmax.
  - apply wp_bind. eapply wp_get_root; [exact Hhi|]. apply wp_bind, wp_set_root_item; [done|].
    apply wp_set_root_item; [simpl; by rewrite length_insert|]. apply (HQ (w32 (hi + 1)) 0); [auto with word|by vm_compute|].
    subst. unfold stamp, w32, is_word in *. rewrite word_modulus_val in *. zdiv.
  - apply wp_bind. eapply wp_get_root; [exact Hlo|]. apply wp_set_root_item; [done|].
    assert (Hlt : lo + 1 < word_modulus) by (unfold is_word in *; rewrite word_modulus_val in *; lia).
    specialize (HQ hi (w32 (lo + 1))). rewrite (list_insert_id (root s)) in HQ by exact Hhi. apply HQ; [done|auto with word|].
    rewrite w32_small by (unfold is_word in *; lia). unfold stamp, is_word in *. rewrite word_modulus_val in *. zdiv.
Qed.

(** [increment_root_time_stamp] adds one to the 64-bit time stamp of the
    root block, with the carry from the low word, and changes nothing else; by
    [time_stamp_is_newer_than], which orders all pairs of words as 64-bit
    numbers, the new stamp is newer than the old one unless the stamp wrapped. *)
Theorem increment_root_time_stamp_correct hi lo s :
  root s !! root_ix_num ROOT_IX_time_stamp_hi = Some hi →
  root s !! root_ix_num ROOT_IX_time_stamp_lo = Some lo →
  is_word hi → is_word lo →
  ∃ hi' lo' s', increment_root_time_stamp s = Ok tt s' ∧
    get_root ROOT_IX_time_stamp_hi s' = Ok hi' s' ∧
    get_root ROOT_IX_time_stamp_lo s' = Ok lo' s' ∧ is_word hi' ∧ is_word lo' ∧
    stamp hi' lo' = (stamp hi lo + 1) mod 2 ^ 64 ∧ mem s' = mem s ∧
    (∀ x, x ≠ ROOT_IX_time_stamp_hi → x ≠ ROOT_IX_time_stamp_lo →
      root s' !! root_ix_num x = root s !! root_ix_num x) ∧
    (stamp hi lo + 1 < 2 ^ 64 → time_stamp_is_newer_than hi' lo' hi lo = true) ∧
    (∀ a b, is_word a → is_word b →
      time_stamp_is_newer_than a b hi lo = bool_decide (stamp hi lo < stamp a b)).
Proof.
  intros Hhi Hlo Whi Wlo.
  assert (H : wp increment_root_time_stamp (λ _ s', ∃ hi' lo',
    root s' !! root_ix_num ROOT_IX_time_stamp_hi = Some hi' ∧
    root s' !! root_ix_num ROOT_IX_time_stamp_lo = Some lo' ∧ is_word hi' ∧ is_word lo' ∧
    stamp hi' lo' = (stamp hi lo + 1) mod 2 ^ 64 ∧ mem s' = mem s ∧
    (∀ x, x ≠ ROOT_IX_time_stamp_hi → x ≠ ROOT_IX_time_stamp_lo →
      root s' !! root_ix_num x = root s !! root_ix_num x)) s).
  { eapply wp_increment_root_time_stamp; [exact Hhi|exact Hlo|done|done|]. intros hi' lo' W1 W2 E. exists hi', lo'. simpl.
    rewrite (list_lookup_insert_ne _ (root_ix_num ROOT_IX_time_stamp_lo)) by done.
    rewrite !list_lookup_insert_eq by (rewrite ?length_insert; by eapply lookup_lt_Some). split_and!; [done..|].
    intros x Hx1 Hx2. rewrite !list_lookup_insert_ne; [done|..]; intros E'; apply root_ix_num_inj in E'; done. }
  apply wp_inv in H as ([] & s' & E & hi' & lo' & H1 & H2 & W1 & W2 & Hst & Hm & Ho).
  exists hi', lo', s'. unfold get_root, gets, mbind, M_bind. rewrite H1, H2.
  split_and!; [done..| |].
  - intros Hlt. rewrite time_stamp_is_newer_than_stamp by done. apply bool_decide_eq_true.
    rewrite Hst, Z.mod_small; [lia|]. unfold stamp, is_word in *. rewrite word_modulus_val in *. lia.
  - intros a b Wa Wb. by apply time_stamp_is_newer_than_stamp.
Qed.

Definition stamped_state : state :=
  mkState ∅ 0 0 0 0 (<[1%nat := 5]> (<[2%nat := 0xFFFFFFFF]> (replicate 128 0))) [] 0 initial_gc.

Lemma increment_root_time_stamp_correct_witness :
  ∃ hi' lo' s', increment_root_time_stamp stamped_state = Ok tt s' ∧
    get_root ROOT_IX_time_stamp_hi s' = Ok hi' s' ∧
    get_root ROOT_IX_time_stamp_lo s' = Ok lo' s' ∧ is_word hi' ∧ is_word lo' ∧
    stamp hi' lo' = (stamp 5 0xFFFFFFFF + 1) mod 2 ^ 64 ∧ mem s' = mem stamped_state ∧
    (∀ x, x ≠ ROOT_IX_time_stamp_hi → x ≠ ROOT_IX_time_stamp_lo →
      root s' !! root_ix_num x = root stamped_state !! root_ix_num x) ∧
    (stamp 5 0xFFFFFFFF + 1 < 2 ^ 64 → time_stamp_is_newer_than hi' lo' 5 0xFFFFFFFF = true) ∧
    (∀ a b, is_word a → is_word b →
      time_stamp_is_newer_than a b 5 0xFFFFFFFF = bool_decide (stamp 5 0xFFFFFFFF < stamp a b)).
Proof. apply (increment_root_time_stamp_correct 5 0xFFFFFFFF stamped_state); by vm_compute. Defined.
