(* ===== verification/Compare.v ===== *)
(** Comparison functions (cells.h, [cmp_result_t] and [cmp_fun_t]) and what the
    index structures rely on: a comparison changes nothing and either compares
    ranks or reports that it failed. *)

From S2P Require Import Prelude Machine Celltypes Shades Cow.

(** [cmp_result_t] of cells.h. *)
Inductive cmp_result :=
| CMP_EQUAL
| CMP_LESS
| CMP_GREATER
| CMP_UNCOMPARABLE
| CMP_ERROR
| CMP_PLEASE_CONTINUE.

#[export] Instance cmp_result_eq_dec : EqDecision cmp_result.
Proof. solve_decision. Defined.

(** A comparison function with its context argument supplied. *)
Definition cmp_fun : Type := Z → Z → M cmp_result.
(** The result of comparing keys by rank. *)
Definition order (x y : Z) : cmp_result :=
  if bool_decide (x < y) then CMP_LESS else if bool_decide (x = y) then CMP_EQUAL else CMP_GREATER.

(** The condition of the branches of a descent. *)
Lemma order_left x y :
  bool_decide (order x y = CMP_LESS) || bool_decide (order x y = CMP_EQUAL) = true ↔ x ≤ y.
Proof.
  rewrite orb_true_iff, !bool_decide_eq_true. unfold order.
  destruct (decide (x < y)); [rewrite bool_decide_eq_true_2 by done; split; [lia|by left]|].
  rewrite bool_decide_eq_false_2 by done.
  destruct (decide (x = y)); [rewrite bool_decide_eq_true_2 by done; split; [lia|by right]|].
  rewrite bool_decide_eq_false_2 by done. split; [by intros []|lia].
Qed.

Lemma order_eq x y : order x y = CMP_EQUAL ↔ x = y.
Proof. unfold order. repeat case_bool_decide; split; (lia || done). Qed.

Lemma order_less x y : order x y = CMP_LESS ↔ x < y.
Proof. unfold order. repeat case_bool_decide; split; (lia || done). Qed.

(** A comparison function [item_cmp], called for keys in [K] while [C] holds,
    changes nothing and answers [c]; where it does not fail it compares ranks. *)
Record compares (C : cenv) (K : Z → Prop) (rank : Z → Z) (item_cmp : cmp_fun)
    (c : Z → Z → cmp_result) : Prop := {
  cmp_run a b s : K a → K b → holds s C → item_cmp a b s = Ok (c a b) s;
  cmp_order a b : K a → K b → c a b = order (rank a) (rank b) ∨ c a b = CMP_ERROR
}.

Lemma compares_mono C C' K rank item_cmp c :
  csub C C' → compares C K rank item_cmp c → compares C' K rank item_cmp c.
Proof. intros HC []. split; [|done]. intros a b s Ha Hb Hs. apply cmp_run0; [done..|]. by eapply holds_csub. Qed.

Lemma order_greater x y : order x y = CMP_GREATER ↔ y < x.
Proof. unfold order. repeat case_bool_decide; split; (lia || done). Qed.

Lemma wp_compare C K rank item_cmp c s0 s u cs a b (Q : cmp_result → state → Prop) :
  compares C K rank item_cmp c → grow s0 s u cs → holds s0 C → K a → K b → Q (c a b) s →
  wp (item_cmp a b) Q s.
Proof.
  intros Hcmp HG HC Ha Hb HQ. eapply wp_run; [|exact HQ]. apply (cmp_run _ _ _ _ _ Hcmp); [done..|].
  eapply holds_ext, HC. apply HG.
Qed.

(** Comparison of the items as words. *)
Definition word_cmp (a b : Z) : M cmp_result := mret (order a b).

Lemma word_cmp_compares C : compares C (λ _, True) (λ x, x) word_cmp order.
Proof. split; [done|]. intros a b _ _. by left. Qed.

(** * Update functions

    The functions that a caller passes to compute a key's new data from the old
    one, with the context argument supplied; [None] is [NULL]. *)
Definition update_fun : Type := option (Z → Z → M Z).

(** The update changes nothing and computes [g]. *)
Definition pure_update (C : cenv) (f : update_fun) (g : option (Z → Z → Z)) : Prop :=
  match f, g with
  | None, None => True
  | Some f, Some g => ∀ a b s, holds s C → f a b s = Ok (g a b) s
  | _, _ => False
  end.
Definition updated (g : option (Z → Z → Z)) (old data : Z) : Z :=
  match g with Some g => g old data | None => data end.

Lemma wp_update C s f g a b (Q : Z → state → Prop) :
  holds s C → pure_update C (Some f) g → Q (updated g a b) s → wp (f a b) Q s.
Proof. intros HC Hg HQ. destruct g as [g|]; [|done]. eapply wp_run; [by apply Hg|done]. Qed.

(** An update function may also note something in the static variable
    [old_value] of its file: [o a b v] is what it leaves there instead of [v]. *)
Definition noting_update (C : cenv) (f : update_fun) (g : option (Z → Z → Z)) (o : Z → Z → Z → Z) : Prop :=
  match f, g with
  | None, None => True
  | Some f, Some g => ∀ a b s, holds s C → f a b s = Ok (g a b) (set_old_value (o a b (old_value s)) s)
  | _, _ => False
  end.
Definition noted (g : option (Z → Z → Z)) (o : Z → Z → Z → Z) (old : option Z) (data : Z) (s : state) : state :=
  match g, old with
  | Some _, Some d => set_old_value (o d data (old_value s)) s
  | _, _ => s
  end.
Definition no_note : Z → Z → Z → Z := λ _ _ v, v.

Lemma pure_update_noting C f g : pure_update C f g → noting_update C f g no_note.
Proof.
  destruct f as [f|], g as [g|]; [|done..]. intros H a b s Hs. rewrite (H _ _ _ Hs).
  by destruct s.
Qed.

Lemma noted_no_note g old data s : noted g no_note old data s = s.
Proof. by destruct g, old, s. Qed.
