(* ===== verification/Avl.v ===== *)
(** AVL trees: avl.h and avl.c. *)

From S2P Require Import Prelude Machine Celltypes Shades Cow Compare.

(** * Operations *)

Definition IS_INTERNAL_NODE (p : Z) : M bool :=
  t ← CELL_TYPE p; mret (bool_decide (t = Some CELL_avl_internal)).

Definition AVL_IS_EMPTY (root : Z) : bool := bool_decide (root = NULL_PTR).

Definition AVL_MAX_ALLOCATION_IN_INSERT : Z := 207.
Definition AVL_MAX_ALLOCATION_IN_DELETE : Z := 583.

(** The height in the header of the node that [p\[i\]] points to. *)
Definition son_height (p i : Z) : M Z :=
  q ← rd p i; w ← rd q 0; mret (Z.land w LOW_MASK).

Definition HEIGHT (p : Z) : M Z :=
  l ← son_height p 2;
  r ← son_height p 3;
  mret (if bool_decide (l > r) then w32 (l + 1) else w32 (r + 1)).

(** [int balance = BALANCE(p)]: a difference of words, converted to [int]. *)
Definition BALANCE (p : Z) : M Z :=
  r ← son_height p 3;
  l ← son_height p 2;
  mret (s32 (w32 (r - l))).

(** [p\[0\] |= HEIGHT(p)] *)
Definition or_height (p : Z) : M unit :=
  h ← HEIGHT p; w ← rd p 0; wr p 0 (Z.lor w h).

(** [p\[0\] >>= 24; p\[0\] <<= 24; p\[0\] |= HEIGHT(p);] *)
Definition set_height (p : Z) : M unit :=
  w ← rd p 0; wr p 0 (shr32 w 24);;
  w ← rd p 0; wr p 0 (shl32 w 24);;
  or_height p.

Definition simple_rotate_right (p : Z) : M Z :=
  q ← rd p 2;
  massert (negb (bool_decide (q = NULL_PTR)));;
  q3 ← rd q 3; wr p 2 q3;;
  set_height p;;
  new_q ← allocate 4 CELL_avl_internal;
  q1 ← rd q 1; wr new_q 1 q1;;
  q2 ← rd q 2; wr new_q 2 q2;;
  wr new_q 3 p;;
  or_height new_q;;
  mret new_q.

Definition simple_rotate_left (p : Z) : M Z :=
  q ← rd p 3;
  massert (negb (bool_decide (q = NULL_PTR)));;
  q2 ← rd q 2; wr p 3 q2;;
  set_height p;;
  new_q ← allocate 4 CELL_avl_internal;
  q1 ← rd q 1; wr new_q 1 q1;;
  wr new_q 2 p;;
  q3 ← rd q 3; wr new_q 3 q3;;
  or_height new_q;;
  mret new_q.

Definition double_rotate_right (p : Z) : M Z :=
  q ← rd p 2;
  massert (negb (bool_decide (q = NULL_PTR)));;
  r ← rd q 3;
  massert (negb (bool_decide (r = NULL_PTR)));;
  r3 ← rd r 3; wr p 2 r3;;
  set_height p;;
  new_q ← allocate 4 CELL_avl_internal;
  q1 ← rd q 1; wr new_q 1 q1;;
  q2 ← rd q 2; wr new_q 2 q2;;
  r2 ← rd r 2; wr new_q 3 r2;;
  or_height new_q;;
  new_r ← allocate 4 CELL_avl_internal;
  r1 ← rd r 1; wr new_r 1 r1;;
  wr new_r 2 new_q;;
  wr new_r 3 p;;
  or_height new_r;;
  mret new_r.

Definition double_rotate_left (p : Z) : M Z :=
  q ← rd p 3;
  massert (negb (bool_decide (q = NULL_PTR)));;
  r ← rd q 2;
  massert (negb (bool_decide (r = NULL_PTR)));;
  r2 ← rd r 2; wr p 3 r2;;
  set_height p;;
  new_q ← allocate 4 CELL_avl_internal;
  q1 ← rd q 1; wr new_q 1 q1;;
  r3 ← rd r 3; wr new_q 2 r3;;
  q3 ← rd q 3; wr new_q 3 q3;;
  or_height new_q;;
  new_r ← allocate 4 CELL_avl_internal;
  r1 ← rd r 1; wr new_r 1 r1;;
  wr new_r 2 p;;
  wr new_r 3 new_q;;
  or_height new_r;;
  mret new_r.

Definition avl_find_min (fuel : nat) (root : Z) : M Z :=
  if bool_decide (root = NULL_PTR) then mret NULL_PTR
  else
    p ← loop fuel (λ p,
      b ← IS_INTERNAL_NODE p;
      if b : bool then p' ← rd p 2; mret (inl p') else mret (inr p)) root;
    t ← CELL_TYPE p;
    massert (bool_decide (t = Some CELL_avl_leaf));;
    rd p 2.

(** One iteration of the loop of [avl_find]. *)
Definition avl_find_step (key : Z) (item_cmp : cmp_fun) (p : Z) : M (Z + option Z) :=
  b ← IS_INTERNAL_NODE p;
  if b : bool then
    k ← rd p 1;
    cmp_result ← item_cmp key k;
    if bool_decide (cmp_result = CMP_ERROR) then mret (inr None)
    else if bool_decide (cmp_result = CMP_LESS) || bool_decide (cmp_result = CMP_EQUAL)
    then p' ← rd p 2; mret (inl p')
    else p' ← rd p 3; mret (inl p')
  else mret (inr (Some p)).

Definition avl_find (fuel : nat) (root key : Z) (item_cmp : cmp_fun) : M Z :=
  if bool_decide (root = NULL_PTR) then mret NULL_PTR
  else
    r ← loop fuel (avl_find_step key item_cmp) root;
    match r with
    | None => mret NULL_PTR
    | Some p =>
      t ← CELL_TYPE p;
      massert (bool_decide (t = Some CELL_avl_leaf));;
      k ← rd p 1;
      cmp_result ← item_cmp key k;
      if negb (bool_decide (cmp_result = CMP_EQUAL)) then mret NULL_PTR else rd p 2
    end.

(** The array [path]: its entries [(node, son)] below [level], the deepest
    first; the other entries are never read.  Its size is 50. *)
Definition path_t : Type := list (Z * Z).
Definition PATH_SIZE : nat := 50.

(** [path\[0\].node] *)
Definition path_root (path : path_t) : Z :=
  match last path with Some (node, _) => node | None => NULL_PTR end.

(** [path\[level - 1\].node\[path\[level - 1\].son\] = q], if [level > 0] *)
Definition link_path (path : path_t) (q : Z) : M unit :=
  match path with
  | [] => mret tt
  | (node, son) :: _ => wr node son q
  end.

(** One iteration of the first loop of [avl_insert] and [avl_delete]; it ends
    with [None] when the comparison failed. *)
Definition avl_descend_step (key : Z) (item_cmp : cmp_fun) :
    Z * path_t → M ((Z * path_t) + option (Z * path_t)) := λ '(p, path),
  b ← IS_INTERNAL_NODE p;
  if b : bool then
    new_p ← allocate 4 CELL_avl_internal;
    w ← rd p 0; wr new_p 0 w;;
    w ← rd p 1; wr new_p 1 w;;
    w ← rd p 2; wr new_p 2 w;;
    w ← rd p 3; wr new_p 3 w;;
    (if bool_decide (length path < PATH_SIZE)%nat then mret tt else fail BadAddress);;
    link_path path new_p;;
    k ← rd p 1;
    cmp_result ← item_cmp key k;
    if bool_decide (cmp_result = CMP_ERROR) then mret (inr None)
    else if bool_decide (cmp_result = CMP_LESS) || bool_decide (cmp_result = CMP_EQUAL)
    then p' ← rd p 2; mret (inl (p', (new_p, 2) :: path))
    else p' ← rd p 3; mret (inl (p', (new_p, 3) :: path))
  else mret (inr (Some (p, path))).

(** The choice of a rotation after an insertion, when the left son is too high
    and when the right one is; the same lines stand in [avl_bc_insert]. *)
Definition insert_rotate_right (p : Z) : M Z :=
  q ← rd p 2;
  balance_of_son ← BALANCE q;
  if bool_decide (balance_of_son = -1) then simple_rotate_right p
  else if bool_decide (balance_of_son = 1) then double_rotate_right p
  else mret p.

Definition insert_rotate_left (p : Z) : M Z :=
  q ← rd p 3;
  balance_of_son ← BALANCE q;
  if bool_decide (balance_of_son = 1) then simple_rotate_left p
  else if bool_decide (balance_of_son = -1) then double_rotate_left p
  else mret p.

(** And after a deletion; the same lines stand in [avl_bc_delete]. *)
Definition delete_rotate_right (p : Z) : M Z :=
  q ← rd p 2;
  balance_of_son ← BALANCE q;
  if bool_decide (balance_of_son = 1) then double_rotate_right p
  else simple_rotate_right p.

Definition delete_rotate_left (p : Z) : M Z :=
  q ← rd p 3;
  balance_of_son ← BALANCE q;
  if bool_decide (balance_of_son = -1) then double_rotate_left p
  else simple_rotate_left p.

(** The loop of [avl_insert] that goes back upwards; [top] is
    [path\[0\].node]. *)
Fixpoint avl_insert_up (top : Z) (path : path_t) : M Z :=
  match path with
  | [] => mret top
  | (p, _) :: path' =>
    balance ← BALANCE p;
    if bool_decide (balance < -1) then
      p' ← insert_rotate_right p;
      if bool_decide (path' = []) then mret p'
      else link_path path' p';; mret top
    else if bool_decide (balance > 1) then
      p' ← insert_rotate_left p;
      if bool_decide (path' = []) then mret p'
      else link_path path' p';; mret top
    else
      set_height p;;
      avl_insert_up top path'
  end.

Definition avl_insert (fuel : nat) (root key : Z) (item_cmp : cmp_fun)
    (update_fun : update_fun) (data : Z) : M Z :=
  ap ← get_allocation_point;
  if bool_decide (root = NULL_PTR) then
    data ← (match update_fun with Some f => f root data | None => mret data end);
    root ← allocate 3 CELL_avl_leaf;
    wr root 1 key;;
    wr root 2 data;;
    mret root
  else
  r ← loop fuel (avl_descend_step key item_cmp) (root, []);
  match r with
  | None => restore_allocation_point ap;; mret root
  | Some (p, path) =>
    t ← CELL_TYPE p;
    massert (bool_decide (t = Some CELL_avl_leaf));;
    k ← rd p 1;
    cmp_result ← item_cmp key k;
    if bool_decide (cmp_result = CMP_ERROR) then restore_allocation_point ap;; mret root
    else
    data ← (match update_fun with
            | Some f => d ← rd p 2; f d data
            | None => mret data
            end);
    if bool_decide (cmp_result = CMP_EQUAL) then
      p2 ← rd p 2;
      if bool_decide (p2 = data) then restore_allocation_point ap;; mret root
      else
        p ← allocate 3 CELL_avl_leaf;
        wr p 1 key;;
        wr p 2 data;;
        if bool_decide (path = []) then mret p
        else link_path path p;; mret (path_root path)
    else
      item ← allocate 3 CELL_avl_leaf;
      wr item 1 key;;
      wr item 2 data;;
      new_p ← allocate 4 CELL_avl_internal;
      w ← rd new_p 0; wr new_p 0 (Z.lor w 1);;
      (if bool_decide (cmp_result = CMP_LESS) then
         wr new_p 1 key;;
         wr new_p 2 item;;
         wr new_p 3 p
       else
         k ← rd p 1; wr new_p 1 k;;
         wr new_p 2 p;;
         wr new_p 3 item);;
      if bool_decide (path = []) then mret new_p
      else link_path path new_p;; avl_insert_up (path_root path) path
  end.

(** The loop of [avl_delete] that goes back upwards. *)
Fixpoint avl_delete_up (top : Z) (path : path_t) : M Z :=
  match path with
  | [] => mret top
  | (p, _) :: path' =>
    balance ← BALANCE p;
    if bool_decide (balance < -1) then
      p' ← delete_rotate_right p;
      link_path path' p';;
      avl_delete_up top path'
    else if bool_decide (balance > 1) then
      p' ← delete_rotate_left p;
      link_path path' p';;
      avl_delete_up top path'
    else
      set_height p;;
      avl_delete_up top path'
  end.

(** [(son + 1) % 2 + 2]: the other son. *)
Definition other_son (son : Z) : Z := (son + 1) mod 2 + 2.

Definition avl_delete (fuel : nat) (root key : Z) (item_cmp : cmp_fun)
    (delete_fun : update_fun) (data : Z) : M Z :=
  ap ← get_allocation_point;
  if bool_decide (root = NULL_PTR) then mret NULL_PTR
  else
  r ← loop fuel (avl_descend_step key item_cmp) (root, []);
  match r with
  | None => restore_allocation_point ap;; mret root
  | Some (p, path) =>
    t ← CELL_TYPE p;
    massert (bool_decide (t = Some CELL_avl_leaf));;
    k ← rd p 1;
    cmp_result ← item_cmp key k;
    if negb (bool_decide (cmp_result = CMP_EQUAL)) then restore_allocation_point ap;; mret root
    else
    match delete_fun with
    | Some f =>
      d ← rd p 2;
      data ← f d data;
      p2 ← rd p 2;
      if bool_decide (p2 = data) then restore_allocation_point ap;; mret root
      else
        new_p ← allocate 3 CELL_avl_leaf;
        k ← rd p 1; wr new_p 1 k;;
        wr new_p 2 data;;
        if bool_decide (path = []) then mret new_p
        else link_path path new_p;; mret (path_root path)
    | None =>
      match path with
      | [] => mret NULL_PTR
      | (p, son) :: path' =>
        let ix := other_son son in
        w ← rd p ix;
        if bool_decide (path' = []) then mret w
        else link_path path' w;; avl_delete_up (path_root path') path'
      end
    end
  end.

(** * Trees

    The trees that the cells represent, and what the operations do to them. *)

Inductive tree :=
| Leaf (k d : Z)
| Node (k : Z) (l r : tree).

Fixpoint height (t : tree) : nat :=
  match t with
  | Leaf _ _ => 0
  | Node _ l r => S (height l `max` height r)
  end.

Definition bal (t : tree) : Z :=
  match t with
  | Leaf _ _ => 0
  | Node _ l r => Z.of_nat (height r) - Z.of_nat (height l)
  end.

Fixpoint balanced (t : tree) : Prop :=
  match t with
  | Leaf _ _ => True
  | Node _ l r => balanced l ∧ balanced r ∧
      (height l ≤ S (height r))%nat ∧ (height r ≤ S (height l))%nat
  end.

(** The items in order. *)
Fixpoint elements (t : tree) : list (Z * Z) :=
  match t with
  | Leaf k d => [(k, d)]
  | Node _ l r => elements l ++ elements r
  end.

Definition rot_right (t : tree) : tree :=
  match t with Node k (Node k1 a b) c => Node k1 a (Node k b c) | _ => t end.
Definition rot_left (t : tree) : tree :=
  match t with Node k a (Node k1 b c) => Node k1 (Node k a b) c | _ => t end.
Definition drot_right (t : tree) : tree :=
  match t with
  | Node k (Node k1 a (Node k2 b c)) d => Node k2 (Node k1 a b) (Node k c d)
  | _ => t
  end.
Definition drot_left (t : tree) : tree :=
  match t with
  | Node k a (Node k1 (Node k2 b c) d) => Node k2 (Node k a b) (Node k1 c d)
  | _ => t
  end.

(** A position in a tree: the path to it, the deepest node first.  [fh] is the
    height in the header of the copied node, [fo] the pointer to the other son
    and [ft] that son. *)
Record frame := mkFrame {
  fnode : Z;
  fleft : bool;
  fk : Z;
  fo : Z;
  ft : tree;
  fh : nat
}.

Definition fson (f : frame) : Z := if fleft f then 2 else 3.
Definition fill (f : frame) (t : tree) : tree :=
  if fleft f then Node (fk f) t (ft f) else Node (fk f) (ft f) t.
Definition plug (fs : list frame) (t : tree) : tree := foldl (λ t f, fill f t) t fs.

Definition frame_cell (f : frame) (q : Z) : cell :=
  (fnode f, [header CELL_avl_internal (Z.of_nat (fh f)); fk f;
             if fleft f then q else fo f; if fleft f then fo f else q]).

Definition frames_path (fs : list frame) : path_t := (λ f, (fnode f, fson f)) <$> fs.
Definition top_of (fs : list frame) (q : Z) : Z :=
  match last fs with Some f => fnode f | None => q end.

(** The cells of the path when the deepest node's son is [q]. *)
Fixpoint path_cells (fs : list frame) (q : Z) : list cell :=
  match fs with
  | [] => []
  | f :: fs' => frame_cell f q :: path_cells fs' (fnode f)
  end.

(** * Representation *)

Fixpoint is_avl (C : cenv) (p : Z) (t : tree) : Prop :=
  match t with
  | Leaf k d => C p [header CELL_avl_leaf 0; k; d]
  | Node k l r => ∃ pl pr,
      C p [header CELL_avl_internal (Z.of_nat (height t)); k; pl; pr] ∧
      is_avl C pl l ∧ is_avl C pr r
  end.

(** The memory determines the tree. *)
Lemma is_avl_agree s p t : ∀ t', is_avl (blk s) p t → is_avl (blk s) p t' →
  Z.of_nat (height t) < 2 ^ 24 → Z.of_nat (height t') < 2 ^ 24 → t = t'.
Proof.
  assert (Hkind : ∀ p k d k' h pl pr, blk s p [header CELL_avl_leaf 0; k; d] → 0 ≤ h < 2 ^ 24 →
    ¬ blk s p [header CELL_avl_internal h; k'; pl; pr]).
  { intros p' k d k' h pl pr H1 Hh H2. pose proof (blk_words _ _ _ H1 0 _ eq_refl) as E. rewrite (blk_words _ _ _ H2 0 _ eq_refl) in E.
    injection E as E. apply (f_equal (λ w, cell_type_of (shr32 w (32 - CELL_TYPE_BITS)))) in E. by rewrite !header_type in E by lia. }
  revert p. induction t as [k d|k l IHl r IHr]; intros p [k' d'|k' l' r']; cbn [is_avl].
  - intros H1 H2 _ _. pose proof (blk_agree _ _ _ _ H1 H2 eq_refl) as E. congruence.
  - intros H1 (pl & pr & H2 & _) _ Hh. by apply (Hkind _ _ _ _ _ _ _ H1) in H2; [|lia].
  - intros (pl & pr & H2 & _) H1 Hh _. by apply (Hkind _ _ _ _ _ _ _ H1) in H2; [|lia].
  - intros (pl & pr & H1 & Hl & Hr) (pl' & pr' & H1' & Hl' & Hr') Hh Hh'. pose proof (blk_agree _ _ _ _ H1 H1' eq_refl) as E.
    pose proof (f_equal (λ l, nth 1 l 0) E : k = k') as ->. pose proof (f_equal (λ l, nth 2 l 0) E : pl = pl') as ->.
    pose proof (f_equal (λ l, nth 3 l 0) E : pr = pr') as ->. cbn [height] in Hh, Hh'.
    rewrite (IHl _ _ Hl Hl'), (IHr _ _ Hr Hr') by lia. done.
Qed.

Lemma is_avl_mono C C' p t : csub C C' → is_avl C p t → is_avl C' p t.
Proof.
  intros HC. revert p. induction t as [k d|k l IHl r IHr]; intros p; simpl; [apply HC|].
  intros (pl & pr & Hp & Hl & Hr). exists pl, pr. split; [by apply HC|]. split; auto.
Qed.

(** The frames of a path whose hole has height [n]. *)
Fixpoint frames_ok (C : cenv) (fs : list frame) (n : nat) : Prop :=
  match fs with
  | [] => True
  | f :: fs' => is_avl C (fo f) (ft f) ∧ fh f = S (n `max` height (ft f)) ∧
                frames_ok C fs' (fh f)
  end.

Lemma fill_height f t : height (fill f t) = S (height t `max` height (ft f)).
Proof. unfold fill. destruct (fleft f); simpl; lia. Qed.

Lemma frames_ok_mono C C' fs n : csub C C' → frames_ok C fs n → frames_ok C' fs n.
Proof.
  intros HC. revert n. induction fs as [|f fs IH]; intros n; simpl; [done|].
  intros (H1 & H2 & H3). split_and!; [by eapply is_avl_mono|done|by apply IH].
Qed.

(** The whole tree is there when the path's headers are right. *)
Lemma is_avl_fill C f q t :
  C (frame_cell f q).1 (frame_cell f q).2 → is_avl C (fo f) (ft f) → is_avl C q t →
  fh f = height (fill f t) → is_avl C (fnode f) (fill f t).
Proof.
  unfold frame_cell, fill. cbn [fst snd]. intros Hf Ho Hq E. rewrite E in Hf.
  destruct (fleft f); simpl in *; eauto 10.
Qed.

Lemma is_avl_plug C fs q t :
  (∀ c, c ∈ path_cells fs q → C c.1 c.2) →
  frames_ok C fs (height t) → is_avl C q t → is_avl C (top_of fs q) (plug fs t).
Proof.
  revert q t. induction fs as [|f fs IH]; intros q t Hc Hok Ht; [done|].
  destruct Hok as (Ho & Hh & Hok). rewrite <- fill_height in Hh. simpl in Hc.
  assert (top_of (f :: fs) q = top_of fs (fnode f)) as ->.
  { unfold top_of. rewrite last_cons. by destruct (last fs). }
  apply IH.
  - intros c H. apply Hc. by right.
  - by rewrite <- Hh.
  - eapply is_avl_fill; [|done..]. apply Hc. by left.
Qed.

(** * Rules *)

Section rules.
Context (s : state).

Lemma wp_son_height p i q ws t h low (Q : Z → state → Prop) :
  blk s p ws → 0 ≤ i → ws !! Z.to_nat i = Some q → 
  (∃ qs, blk s q (header t low :: qs)) → h = low → 0 ≤ low < 2 ^ 24 →
  Q h s → wp (son_height p i) Q s.
Proof.
  intros Hp Hi Hw [qs Hq] -> Hlow HQ. apply wp_bind. eapply wp_rd; [done..|].
  apply wp_bind. eapply wp_rd; [exact Hq|done|done|]. apply wp_ret. by rewrite header_low.
Qed.
End rules.

(** The header of a represented node. *)
Lemma is_avl_header s C p t : holds s C → is_avl C p t →
  ∃ ct qs, blk s p (header ct (Z.of_nat (height t)) :: qs).
Proof.
  intros HC. destruct t as [k d|k l r]; simpl.
  - intros Hp. eexists _, _. by apply HC.
  - intros (pl & pr & Hp & _). eexists _, _. by apply HC.
Qed.

(** HEIGHT and BALANCE of a node whose sons are known. *)
Section node.
Context (C : cenv) (s : state) (p : Z) (w k pl pr : Z) (l r : tree).
Context (HC : holds s C) (Hp : blk s p [w; k; pl; pr]).
Context (Hl : is_avl C pl l) (Hr : is_avl C pr r).
Context (Bl : Z.of_nat (height l) < 2 ^ 23) (Br : Z.of_nat (height r) < 2 ^ 23).

Lemma wp_son2 (Q : Z → state → Prop) : Q (Z.of_nat (height l)) s → wp (son_height p 2) Q s.
Proof.
  intros HQ. destruct (is_avl_header _ _ _ _ HC Hl) as (ct & qs & Hb).
  eapply wp_son_height; [exact Hp|done|done|by exists qs|done|lia|done].
Qed.

Lemma wp_son3 (Q : Z → state → Prop) : Q (Z.of_nat (height r)) s → wp (son_height p 3) Q s.
Proof.
  intros HQ. destruct (is_avl_header _ _ _ _ HC Hr) as (ct & qs & Hb).
  eapply wp_son_height; [exact Hp|done|done|by exists qs|done|lia|done].
Qed.

Lemma wp_HEIGHT (Q : Z → state → Prop) :
  Q (Z.of_nat (S (height l `max` height r))) s → wp (HEIGHT p) Q s.
Proof.
  intros HQ. apply wp_bind, wp_son2, wp_bind, wp_son3, wp_ret.
  lazymatch goal with |- Q ?x _ =>
    replace x with (Z.of_nat (S (height l `max` height r))); [done|] end.
  case_bool_decide; rewrite w32_succ by (rewrite word_modulus_val; lia); lia.
Qed.

Lemma wp_BALANCE (Q : Z → state → Prop) :
  Q (Z.of_nat (height r) - Z.of_nat (height l)) s → wp (BALANCE p) Q s.
Proof.
  intros HQ. apply wp_bind, wp_son3, wp_bind, wp_son2, wp_ret.
  lazymatch goal with |- Q ?x _ =>
    replace x with (Z.of_nat (height r) - Z.of_nat (height l)); [done|] end.
  unfold s32. rewrite w32_idemp. unfold w32. rewrite word_modulus_val.
  case_bool_decide; zdiv.
Qed.
End node.

(** What is known of the cells behind the newest one. *)
Lemma node_holds C s0 s u c cs : grow s0 s u (c :: cs) → holds s0 C → holds s (adds C cs).
Proof. intros HG HC. eapply grow_holds, HC. eapply (grow_app_r _ _ _ [_]), HG. Qed.

Section new_node.
Context (C : cenv) (s0 s : state) (u : Z) (cs : list cell) (p : Z) (w k pl pr : Z) (l r : tree).
Context (HG : grow s0 s u ((p, [w; k; pl; pr]) :: cs)) (HC : holds s0 C).
Context (Hl : is_avl (adds C cs) pl l) (Hr : is_avl (adds C cs) pr r).
Context (Bl : Z.of_nat (height l) < 2 ^ 23) (Br : Z.of_nat (height r) < 2 ^ 23).

Lemma wp_or_height ct (Q : unit → state → Prop) :
  w = header ct 0 →
  (∀ s', grow s0 s' u ((p, [header ct (Z.of_nat (S (height l `max` height r))); k; pl; pr]) :: cs) →
    Q tt s') → wp (or_height p) Q s.
Proof.
  intros Hw HQ. pose proof (grow_blk_new _ _ _ _ 0 _ _ HG eq_refl) as Hblk.
  apply wp_bind. eapply wp_HEIGHT; [by eapply node_holds|exact Hblk|done..|].
  apply wp_bind. eapply wp_rd; [exact Hblk|done|done|].
  rewrite Hw, header_lor by lia. eapply (wp_wr _ _ _ _ 0%nat); [exact HG|done|simpl; lia|].
  intros s' HG'. by apply HQ.
Qed.

Lemma wp_new_BALANCE (Q : Z → state → Prop) :
  Q (Z.of_nat (height r) - Z.of_nat (height l)) s → wp (BALANCE p) Q s.
Proof.
  intros HQ. eapply wp_BALANCE; [by eapply node_holds|exact (grow_blk_new _ _ _ _ 0 _ _ HG eq_refl)|done..].
Qed.
End new_node.

Lemma wp_set_height C s0 s u cs p ct low k pl pr l r (Q : unit → state → Prop) :
  grow s0 s u ((p, [header ct low; k; pl; pr]) :: cs) → holds s0 C → 0 ≤ low < 2 ^ 24 →
  is_avl (adds C cs) pl l → is_avl (adds C cs) pr r →
  Z.of_nat (height l) < 2 ^ 23 → Z.of_nat (height r) < 2 ^ 23 →
  (∀ s', grow s0 s' u ((p, [header ct (Z.of_nat (S (height l `max` height r))); k; pl; pr]) :: cs) →
    Q tt s') → wp (set_height p) Q s.
Proof.
  intros HG HC Hlow Hl Hr Bl Br HQ. unfold set_height. wp_steps.
  eapply wp_or_height; [exact HG|done..|by apply header_clear|done].
Qed.

(** * Rotations *)

(** Lifting a subtree to a larger environment. *)
Ltac avl_lift :=
  match goal with
  | H : is_avl _ _ _ |- _ =>
    solve [ eapply is_avl_mono; [|exact H];
            first [ reflexivity | apply adds_base | apply adds_mono; [done|solve_incl] ] ]
  end.

(** A pointer to a represented tree is not null. *)
Lemma is_avl_pos s C p t : holds s C → is_avl C p t → 0 < p.
Proof.
  intros HC H. destruct (is_avl_header _ _ _ _ HC H) as (? & ? & Hb). apply (blk_pos _ _ _ Hb).
Qed.

Lemma bool_neq_null p : 0 < p → negb (bool_decide (p = NULL_PTR)) = true.
Proof. intros Hp. apply negb_true_iff, bool_decide_eq_false. unfold NULL_PTR. lia. Qed.

Section rotations.
Context (C : cenv) (s0 s : state) (u : Z) (cs done : list cell) (p low k : Z).
Context (HC : holds s0 C) (Hsub : done ⊆ cs) (Hlow : 0 ≤ low < 2 ^ 24).

(** The tree [t'] is at [p'], in cells that are new or in [done]; the node [p]
    has become the root of its subtree [tp]. *)
Definition rotated (n : Z) (t' tp : tree) (p' : Z) (s' : state) : Prop :=
  ∃ new, grow s0 s' (u + n) (new ++ cs) ∧
    is_avl (adds C (new ++ done)) p' t' ∧ is_avl (adds C (new ++ done)) p tp.

Lemma wp_simple_rotate_right q pc k1 a b c (Q : Z → state → Prop) :
  grow s0 s u ((p, [header CELL_avl_internal low; k; q; pc]) :: cs) →
  is_avl (adds C done) q (Node k1 a b) → is_avl (adds C done) pc c →
  room s0 (u + 4) →
  Z.of_nat (height a) < 2 ^ 22 → Z.of_nat (height b) < 2 ^ 22 → Z.of_nat (height c) < 2 ^ 22 →
  (∀ p' s', rotated 4 (Node k1 a (Node k b c)) (Node k b c) p' s' → Q p' s') →
  wp (simple_rotate_right p) Q s.
Proof.
  intros HG (pa & pb & Hq & Ha & Hb) Hc Hroom Ba Bb Bc HQ.
  assert (Hqpos : 0 < q) by (eapply blk_pos, grow_blk_adds; [exact HG|done|exact Hq|solve_incl]).
  unfold simple_rotate_right. wp_steps; [by apply bool_neq_null|]. wp_steps.
  eapply (wp_set_height C); [exact HG|done|done|avl_lift|avl_lift|lia|lia|].
  clear HG. intros ? HG. wp_steps.
  eapply (wp_or_height C _ _ _ _ _ _ _ _ _ a (Node k b c));
    [exact HG|done| | |lia|simpl; lia|done|].
  { avl_lift. }
  { exists pb, pc. split; [solve_cell|]. split; avl_lift. }
  clear HG. intros ? HG. wp_steps. apply HQ. eexists [_; _]. split; [exact HG|].
  split; [exists pa, p; split; [solve_cell|]; split; [avl_lift|]|];
    (exists pb, pc; split; [solve_cell|]; split; avl_lift).
Qed.

Lemma wp_simple_rotate_left pa q k1 a b c (Q : Z → state → Prop) :
  grow s0 s u ((p, [header CELL_avl_internal low; k; pa; q]) :: cs) →
  is_avl (adds C done) pa a → is_avl (adds C done) q (Node k1 b c) →
  room s0 (u + 4) →
  Z.of_nat (height a) < 2 ^ 22 → Z.of_nat (height b) < 2 ^ 22 → Z.of_nat (height c) < 2 ^ 22 →
  (∀ p' s', rotated 4 (Node k1 (Node k a b) c) (Node k a b) p' s' → Q p' s') →
  wp (simple_rotate_left p) Q s.
Proof.
  intros HG Ha (pb & pc & Hq & Hb & Hc) Hroom Ba Bb Bc HQ.
  assert (Hqpos : 0 < q) by (eapply blk_pos, grow_blk_adds; [exact HG|done|exact Hq|solve_incl]).
  unfold simple_rotate_left. wp_steps; [by apply bool_neq_null|]. wp_steps.
  eapply (wp_set_height C); [exact HG|done|done|avl_lift|avl_lift|lia|lia|].
  clear HG. intros ? HG. wp_steps.
  eapply (wp_or_height C _ _ _ _ _ _ _ _ _ (Node k a b) c);
    [exact HG|done| | |simpl; lia|lia|done|].
  { exists pa, pb. split; [solve_cell|]. split; avl_lift. }
  { avl_lift. }
  clear HG. intros ? HG. wp_steps. apply HQ. eexists [_; _]. split; [exact HG|].
  split; [exists p, pc; split; [solve_cell|]; split; [|avl_lift]|];
    (exists pa, pb; split; [solve_cell|]; split; avl_lift).
Qed.

Lemma wp_double_rotate_right q pd k1 k2 a b c d (Q : Z → state → Prop) :
  grow s0 s u ((p, [header CELL_avl_internal low; k; q; pd]) :: cs) →
  is_avl (adds C done) q (Node k1 a (Node k2 b c)) → is_avl (adds C done) pd d →
  room s0 (u + 8) →
  Z.of_nat (height a) < 2 ^ 22 → Z.of_nat (height b) < 2 ^ 22 →
  Z.of_nat (height c) < 2 ^ 22 → Z.of_nat (height d) < 2 ^ 22 →
  (∀ p' s', rotated 8 (Node k2 (Node k1 a b) (Node k c d)) (Node k c d) p' s' → Q p' s') →
  wp (double_rotate_right p) Q s.
Proof.
  intros HG (pa & r & Hq & Ha & pb & pc & Hr & Hb & Hc) Hd Hroom Ba Bb Bc Bd HQ.
  assert (Hqpos : 0 < q) by (eapply blk_pos, grow_blk_adds; [exact HG|done|exact Hq|solve_incl]).
  assert (Hrpos : 0 < r) by (eapply blk_pos, grow_blk_adds; [exact HG|done|exact Hr|solve_incl]).
  unfold double_rotate_right. wp_steps; [by apply bool_neq_null..|]. wp_steps.
  eapply (wp_set_height C); [exact HG|done|done|avl_lift|avl_lift|lia|lia|].
  clear HG. intros ? HG. wp_steps.
  eapply (wp_or_height C _ _ _ _ _ _ _ _ _ a b); [exact HG|done|avl_lift|avl_lift|lia|lia|done|].
  clear HG. intros ? HG. wp_steps.
  eapply (wp_or_height C _ _ _ _ _ _ _ _ _ (Node k1 a b) (Node k c d));
    [exact HG|done| | |simpl; lia|simpl; lia|done|].
  { exists pa, pb. split; [solve_cell|]. split; avl_lift. }
  { exists pc, pd. split; [solve_cell|]. split; avl_lift. }
  clear HG. intros ? HG. wp_steps. apply HQ.
  replace (u + 4 + 4) with (u + 8) in HG by lia. eexists [_; _; _]. split; [exact HG|].
  split; [do 2 eexists; split; [solve_cell|]; split|].
  - exists pa, pb. split; [solve_cell|]. split; avl_lift.
  - exists pc, pd. split; [solve_cell|]. split; avl_lift.
  - exists pc, pd. split; [solve_cell|]. split; avl_lift.
Qed.

Lemma wp_double_rotate_left pa q k1 k2 a b c d (Q : Z → state → Prop) :
  grow s0 s u ((p, [header CELL_avl_internal low; k; pa; q]) :: cs) →
  is_avl (adds C done) pa a → is_avl (adds C done) q (Node k1 (Node k2 b c) d) →
  room s0 (u + 8) →
  Z.of_nat (height a) < 2 ^ 22 → Z.of_nat (height b) < 2 ^ 22 →
  Z.of_nat (height c) < 2 ^ 22 → Z.of_nat (height d) < 2 ^ 22 →
  (∀ p' s', rotated 8 (Node k2 (Node k a b) (Node k1 c d)) (Node k a b) p' s' → Q p' s') →
  wp (double_rotate_left p) Q s.
Proof.
  intros HG Ha (r & pd & Hq & (pb & pc & Hr & Hb & Hc) & Hd) Hroom Ba Bb Bc Bd HQ.
  assert (Hqpos : 0 < q) by (eapply blk_pos, grow_blk_adds; [exact HG|done|exact Hq|solve_incl]).
  assert (Hrpos : 0 < r) by (eapply blk_pos, grow_blk_adds; [exact HG|done|exact Hr|solve_incl]).
  unfold double_rotate_left. wp_steps; [by apply bool_neq_null..|]. wp_steps.
  eapply (wp_set_height C); [exact HG|done|done|avl_lift|avl_lift|lia|lia|].
  clear HG. intros ? HG. wp_steps.
  eapply (wp_or_height C _ _ _ _ _ _ _ _ _ c d); [exact HG|done|avl_lift|avl_lift|lia|lia|done|].
  clear HG. intros ? HG. wp_steps.
  eapply (wp_or_height C _ _ _ _ _ _ _ _ _ (Node k a b) (Node k1 c d));
    [exact HG|done| | |simpl; lia|simpl; lia|done|].
  { exists pa, pb. split; [solve_cell|]. split; avl_lift. }
  { exists pc, pd. split; [solve_cell|]. split; avl_lift. }
  clear HG. intros ? HG. wp_steps. apply HQ.
  replace (u + 4 + 4) with (u + 8) in HG by lia. eexists [_; _; _]. split; [exact HG|].
  split; [do 2 eexists; split; [solve_cell|]; split|].
  - exists pa, pb. split; [solve_cell|]. split; avl_lift.
  - exists pc, pd. split; [solve_cell|]. split; avl_lift.
  - exists pa, pb. split; [solve_cell|]. split; avl_lift.
Qed.
End rotations.

(** * Going back upwards after an insertion *)

Definition ins_fix (t : tree) : tree :=
  match t with
  | Leaf _ _ => t
  | Node _ l r =>
    if bool_decide (bal t < -1) then
      if bool_decide (bal l = -1) then rot_right t
      else if bool_decide (bal l = 1) then drot_right t else t
    else
      if bool_decide (bal r = 1) then rot_left t
      else if bool_decide (bal r = -1) then drot_left t else t
  end.

Fixpoint ins_up (fs : list frame) (t : tree) : tree :=
  match fs with
  | [] => t
  | f :: fs' =>
    let t' := fill f t in
    if bool_decide (-1 ≤ bal t' ≤ 1) then ins_up fs' t' else plug fs' (ins_fix t')
  end.

(** Every node on the path is balanced when its hole has height [n]. *)
Fixpoint path_balanced (fs : list frame) (n : nat) : Prop :=
  match fs with
  | [] => True
  | f :: fs' => (n ≤ S (height (ft f)))%nat ∧ (height (ft f) ≤ S n)%nat ∧ balanced (ft f) ∧
                path_balanced fs' (S (n `max` height (ft f)))
  end.

(** [t] may replace a tree of height [n]: it is at most one higher, and if so it
    is not perfectly balanced, unless it is the smallest tree with a node. *)
Definition grown (n : nat) (t : tree) : Prop :=
  balanced t ∧ (height t = n ∨ (height t = S n ∧ (n = 0%nat ∨ bal t ≠ 0))).

(** The trees that an unbalanced node is made of. *)
Lemma heavy_left k l r n : grown n l → (n ≤ S (height r))%nat → balanced r →
  bal (Node k l r) < -1 →
  height l = S (S (height r)) ∧ n = S (height r) ∧
  ((∃ k1 a b, l = Node k1 a b ∧ bal l = -1 ∧ height a = S (height r) ∧ height b = height r) ∨
   (∃ k1 a k2 b c, l = Node k1 a (Node k2 b c) ∧ bal l = 1 ∧ height a = height r ∧
      S (height b `max` height c) = S (height r) ∧ balanced (Node k2 b c))).
Proof.
  intros [Hb Hg] Hn Hr Hbal. simpl in Hbal.
  assert (Hh : height l = S (S (height r))) by lia. split; [done|]. split; [lia|].
  destruct l as [|k1 a b]; simpl in *; [lia|]. destruct Hb as (Ba & Bb & ?).
  assert (bal (Node k1 a b) ≠ 0) by (simpl; lia).
  destruct (decide (height a = S (height r))).
  - left. exists k1, a, b. simpl in *. split_and!; [done|lia|done|lia].
  - right. destruct b as [|k2 b c]; simpl in *; [lia|].
    exists k1, a, k2, b, c. simpl. split_and!; [done|lia|lia|lia|tauto..|lia|lia].
Qed.

Lemma heavy_right k l r n : grown n r → (n ≤ S (height l))%nat → balanced l →
  1 < bal (Node k l r) →
  height r = S (S (height l)) ∧ n = S (height l) ∧
  ((∃ k1 b c, r = Node k1 b c ∧ bal r = 1 ∧ height c = S (height l) ∧ height b = height l) ∨
   (∃ k1 k2 b c d, r = Node k1 (Node k2 b c) d ∧ bal r = -1 ∧ height d = height l ∧
      S (height b `max` height c) = S (height l) ∧ balanced (Node k2 b c))).
Proof.
  intros [Hb Hg] Hn Hl Hbal. simpl in Hbal.
  assert (Hh : height r = S (S (height l))) by lia. split; [done|]. split; [lia|].
  destruct r as [|k1 b c]; simpl in *; [lia|]. destruct Hb as (Bb & Bc & ?).
  assert (bal (Node k1 b c) ≠ 0) by (simpl; lia).
  destruct (decide (height c = S (height l))).
  - left. exists k1, b, c. simpl in *. split_and!; [done|lia|done|lia].
  - right. destruct b as [|k2 b d]; simpl in *; [lia|].
    exists k1, k2, b, d, c. simpl. split_and!; [done|lia|lia|lia|tauto..|lia|lia].
Qed.

Lemma wp_link_path s0 s u fs p p' done (Q : unit → state → Prop) :
  grow s0 s u (path_cells fs p ++ done) →
  (∀ s', grow s0 s' u (path_cells fs p' ++ done) → Q tt s') →
  wp (link_path (frames_path fs) p') Q s.
Proof.
  intros HG HQ. destruct fs as [|f fs]; simpl in *; [by apply wp_ret, HQ|].
  unfold frame_cell, fson in *.
  destruct (fleft f); (eapply (wp_wr _ _ _ _ 0%nat); [exact HG|done|simpl; lia|]);
    intros s' HG'; by apply HQ.
Qed.

(** Growing cells move behind the path's. *)
Lemma grow_shift s0 s u new cs done :
  grow s0 s u (new ++ cs ++ done) → grow s0 s u (cs ++ new ++ done).
Proof.
  apply grow_perm. rewrite !app_assoc. apply Permutation_app_tail, Permutation_app_comm.
Qed.

Lemma top_of_cons f fs q : top_of (f :: fs) q = top_of fs (fnode f).
Proof. unfold top_of. rewrite last_cons. by destruct (last fs). Qed.

Lemma top_of_nonempty fs q q' : fs ≠ [] → top_of fs q = top_of fs q'.
Proof. intros Hne. unfold top_of. destruct (last fs) eqn:E; [done|]. by apply last_None in E. Qed.

(** The end of both loops after a rotation: the parent is linked, its ancestors
    stay as they are. *)
Lemma wp_finish_path C s0 s u fs p p' t done (Q : Z → state → Prop) :
  holds s0 C → grow s0 s u (path_cells fs p ++ done) → is_avl (adds C done) p' t →
  frames_ok C fs (height t) →
  (∀ q s' new, grow s0 s' u new → is_avl (adds C new) q (plug fs t) → Q q s') →
  wp (if bool_decide (frames_path fs = []) then mret p'
      else link_path (frames_path fs) p';; mret (top_of fs p)) Q s.
Proof.
  intros HC HG Ht Hok HQ.
  assert (Hfin : ∀ s', grow s0 s' u (path_cells fs p' ++ done) →
    is_avl (adds C (path_cells fs p' ++ done)) (top_of fs p') (plug fs t)).
  { intros s' HG'. apply is_avl_plug.
    - intros c Hc. right. rewrite <- surjective_pairing. apply elem_of_app. by left.
    - eapply frames_ok_mono, Hok. apply adds_base.
    - eapply is_avl_mono, Ht. apply adds_mono; [done|]. by apply list_subseteq_app_r. }
  case_bool_decide as Hnil.
  - apply fmap_nil_inv in Hnil as ->. apply wp_ret. eapply HQ; [exact HG|]. by apply (Hfin s).
  - apply wp_bind. eapply wp_link_path; [exact HG|]. intros s' HG'. apply wp_ret.
    rewrite (top_of_nonempty _ p p') by (by intros ->). eapply HQ; [exact HG'|]. by apply (Hfin s').
Qed.

Lemma bal_fill_left f t : fleft f = true → bal (fill f t) = Z.of_nat (height (ft f)) - Z.of_nat (height t).
Proof. intros E. unfold fill. by rewrite E. Qed.
Lemma bal_fill_right f t : fleft f = false → bal (fill f t) = Z.of_nat (height t) - Z.of_nat (height (ft f)).
Proof. intros E. unfold fill. by rewrite E. Qed.

(** A node that stays balanced. *)
Lemma grown_fill n f t : grown n t → (n ≤ S (height (ft f)))%nat → (height (ft f) ≤ S n)%nat →
  balanced (ft f) → -1 ≤ bal (fill f t) ≤ 1 → grown (S (n `max` height (ft f))) (fill f t).
Proof.
  intros [Hb Hg] H1 H2 Hs Hbal. split.
  - unfold fill in *. destruct (fleft f); simpl in *; split_and!; try done; lia.
  - rewrite fill_height. unfold fill in *.
    destruct Hg as [E|[E _]]; [left; lia|].
    destruct (decide (S n `max` height (ft f) = n `max` height (ft f))%nat); [left; lia|].
    right. split; [lia|]. right. destruct (fleft f); simpl in *; lia.
Qed.

Section insert_up.
Context (C : cenv) (s0 : state) (HC : holds s0 C).

(** The node at [p], out of balance, is replaced by the rotated one. *)
Definition fixed (u : Z) (cs done : list cell) (t : tree) (Q : Z → state → Prop) : Prop :=
  ∀ p' s' u' new, u ≤ u' ≤ u + 8 → grow s0 s' u' (new ++ cs) →
    is_avl (adds C (new ++ done)) p' t → Q p' s'.

Lemma fixed_rotated n u cs done p t tp Q p' s' : 0 ≤ n ≤ 8 →
  fixed u cs done t Q → rotated C s0 u cs done p n t tp p' s' → Q p' s'.
Proof. intros Hn HQ (new & HG & Ht & _). eapply HQ; [|exact HG|exact Ht]. lia. Qed.

Lemma wp_fix_left s u cs done p low k pl pr l r n (Q : Z → state → Prop) :
  grow s0 s u ((p, [header CELL_avl_internal low; k; pl; pr]) :: cs) → done ⊆ cs →
  0 ≤ low < 2 ^ 24 →
  is_avl (adds C done) pl l → is_avl (adds C done) pr r → room s0 (u + 8) →
  Z.of_nat (height r) < 2 ^ 21 → grown n l → (n ≤ S (height r))%nat → balanced r →
  bal (Node k l r) < -1 →
  fixed u cs done (ins_fix (Node k l r)) Q →
  wp (insert_rotate_right p) Q s.
Proof.
  intros HG Hsub Hlow Hl Hr Hroom Br Hg Hn Hbr Hbal HQ.
  destruct (heavy_left _ _ _ _ Hg Hn Hbr Hbal) as (Hh & _ & Hc).
  unfold ins_fix in HQ. rewrite (bool_decide_eq_true_2 (_ < -1)) in HQ by done.
  destruct Hc as [(k1 & a & b & -> & Hbl & Ha & Hb)|(k1 & a & k2 & b & c & -> & Hbl & Ha & Hb & _)].
  all: rewrite Hbl in HQ; simpl in HQ; pose proof Hl as (q1 & q2 & Hq & H1 & H2).
  - apply wp_bind. wp_step. apply wp_bind.
    eapply (wp_BALANCE (adds C cs)); [by eapply node_holds|solve_blk|avl_lift|avl_lift|simpl in *; lia..|].
    rewrite bool_decide_eq_true_2 by (simpl in *; lia).
    eapply wp_simple_rotate_right; [exact HC|exact Hsub|done|exact HG|exact Hl|done|solve_room|simpl in *; lia..|].
    intros p' s'. by apply fixed_rotated.
  - apply wp_bind. wp_step. apply wp_bind.
    eapply (wp_BALANCE (adds C cs)); [by eapply node_holds|solve_blk|avl_lift|avl_lift|simpl in *; lia..|].
    rewrite bool_decide_eq_false_2 by (simpl in *; lia).
    rewrite bool_decide_eq_true_2 by (simpl in *; lia).
    eapply wp_double_rotate_right; [exact HC|exact Hsub|done|exact HG|exact Hl|done|solve_room|simpl in *; lia..|].
    intros p' s'. by apply fixed_rotated.
Qed.

Lemma wp_fix_right s u cs done p low k pl pr l r n (Q : Z → state → Prop) :
  grow s0 s u ((p, [header CELL_avl_internal low; k; pl; pr]) :: cs) → done ⊆ cs →
  0 ≤ low < 2 ^ 24 →
  is_avl (adds C done) pl l → is_avl (adds C done) pr r → room s0 (u + 8) →
  Z.of_nat (height l) < 2 ^ 21 → grown n r → (n ≤ S (height l))%nat → balanced l →
  1 < bal (Node k l r) →
  fixed u cs done (ins_fix (Node k l r)) Q →
  wp (insert_rotate_left p) Q s.
Proof.
  intros HG Hsub Hlow Hl Hr Hroom Br Hg Hn Hbr Hbal HQ.
  destruct (heavy_right _ _ _ _ Hg Hn Hbr Hbal) as (Hh & _ & Hc).
  unfold ins_fix in HQ. rewrite (bool_decide_eq_false_2 (_ < -1)) in HQ by lia.
  destruct Hc as [(k1 & b & c & -> & Hbl & Ha & Hb)|(k1 & k2 & b & c & d & -> & Hbl & Ha & Hb & _)].
  all: rewrite Hbl in HQ; simpl in HQ; pose proof Hr as (q1 & q2 & Hq & H1 & H2).
  - apply wp_bind. wp_step. apply wp_bind.
    eapply (wp_BALANCE (adds C cs)); [by eapply node_holds|solve_blk|avl_lift|avl_lift|simpl in *; lia..|].
    rewrite bool_decide_eq_true_2 by (simpl in *; lia).
    eapply wp_simple_rotate_left; [exact HC|exact Hsub|done|exact HG|done|exact Hr|solve_room|simpl in *; lia..|].
    intros p' s'. by apply fixed_rotated.
  - apply wp_bind. wp_step. apply wp_bind.
    eapply (wp_BALANCE (adds C cs)); [by eapply node_holds|solve_blk|avl_lift|avl_lift|simpl in *; lia..|].
    rewrite bool_decide_eq_false_2 by (simpl in *; lia).
    rewrite bool_decide_eq_true_2 by (simpl in *; lia).
    eapply wp_double_rotate_left; [exact HC|exact Hsub|done|exact HG|done|exact Hr|solve_room|simpl in *; lia..|].
    intros p' s'. by apply fixed_rotated.
Qed.

(** The height of the tree that a rotation makes. *)
Lemma ins_fix_height k l r n :
  balanced l → balanced r →
  (grown n l ∧ (n ≤ S (height r))%nat ∧ bal (Node k l r) < -1) ∨
  (grown n r ∧ (n ≤ S (height l))%nat ∧ 1 < bal (Node k l r)) →
  balanced (ins_fix (Node k l r)) ∧
  height (ins_fix (Node k l r)) = (height l `max` height r)%nat ∧
  elements (ins_fix (Node k l r)) = elements (Node k l r).
Proof.
  intros Bl Br [(Hg & Hn & Hbal)|(Hg & Hn & Hbal)].
  - destruct (heavy_left _ _ _ _ Hg Hn Br Hbal) as (Hh & _ & Hc). unfold ins_fix.
    rewrite (bool_decide_eq_true_2 (_ < -1)) by done.
    destruct Hc as [(k1 & a & b & -> & -> & Ha & Hb)|(k1 & a & k2 & b & c & -> & -> & Ha & Hb & Hbc)];
      simpl in *; rewrite <- ?app_assoc; split_and!; try tauto; try lia.
  - destruct (heavy_right _ _ _ _ Hg Hn Bl Hbal) as (Hh & _ & Hc). unfold ins_fix.
    rewrite (bool_decide_eq_false_2 (_ < -1)) by lia.
    destruct Hc as [(k1 & b & c & -> & -> & Ha & Hb)|(k1 & k2 & b & c & d & -> & -> & Ha & Hb & Hbc)];
      simpl in *; rewrite <- ?app_assoc; split_and!; try tauto; try lia.
Qed.

(** Two facts about a path: the tree has the items of its parts, and the parts
    are no higher than the path. *)
Lemma wp_avl_insert_up fs : ∀ s u q t n done (Q : Z → state → Prop),
  grow s0 s u (path_cells fs q ++ done) → is_avl (adds C done) q t →
  frames_ok C fs n → path_balanced fs n → grown n t →
  Forall (λ f, Z.of_nat (fh f) < 2 ^ 20) fs → room s0 (u + 8) →
  (∀ q' s' u' new, u ≤ u' ≤ u + 8 → grow s0 s' u' new →
    is_avl (adds C new) q' (ins_up fs t) → Q q' s') →
  wp (avl_insert_up (top_of fs q) (frames_path fs)) Q s.
Proof.
  induction fs as [|f fs IH]; intros s u q t n done Q HG Ht Hok Hpb Hg Hmax Hroom HQ.
  { apply wp_ret. eapply HQ; [|exact HG|exact Ht]. lia. }
  rewrite top_of_cons. cbn [path_cells app] in HG. cbn [frames_ok path_balanced ins_up] in *.
  destruct Hok as (Ho & Hh & Hok), Hpb as (Hn & Hs & Bs & Hpb).
  apply Forall_cons in Hmax as [Hfh Hmax]. rewrite Hh in Hok, Hfh.
  set (cs := path_cells fs (fnode f) ++ done) in *.
  assert (Hdone : done ⊆ cs) by (apply list_subseteq_app_r; reflexivity).
  assert (Ho' : is_avl (adds C done) (fo f) (ft f)) by avl_lift.
  assert (Hocs : is_avl (adds C cs) (fo f) (ft f)) by avl_lift.
  assert (Htcs : is_avl (adds C cs) q t) by avl_lift.
  assert (Hht : (n ≤ height t ≤ S n)%nat) by (destruct Hg as [_ [?|[? _]]]; lia).
  cbn [frames_path fmap list_fmap avl_insert_up]. fold (frames_path fs).
  apply wp_bind. unfold frame_cell in HG. rewrite Hh in HG.
  (* the common end of the rotating branches *)
  assert (Hfin : ∀ t', height t' = S (n `max` height (ft f)) →
    (-1 ≤ bal (fill f t) ≤ 1 → False) → ins_fix (fill f t) = t' →
    fixed u cs done t' (λ p' s', wp
      (if bool_decide (frames_path fs = []) then mret p'
       else link_path (frames_path fs) p';; mret (top_of fs (fnode f))) Q s')).
  { intros t' Ht' Hbal E p' s' u' new Hu HG' Hp'. unfold cs in HG'. apply grow_shift in HG'.
    eapply wp_finish_path; [exact HC|exact HG'|exact Hp'|by rewrite Ht'|].
    intros q' s'' new' HG'' Hq'. rewrite bool_decide_eq_false_2, E in HQ by tauto.
    by eapply HQ. }
  destruct (fleft f) eqn:Hleft.
  - pose proof (bal_fill_left f t Hleft) as Hbal.
    eapply wp_new_BALANCE; [exact HG|exact HC|exact Htcs|exact Hocs|lia|lia|].
    rewrite <- Hbal. destruct (decide (bal (fill f t) < -1)) as [Hb1|Hb1];
      [rewrite (bool_decide_eq_true_2 (_ < -1)) by done
      |rewrite (bool_decide_eq_false_2 (_ < -1)), (bool_decide_eq_false_2 (_ > 1)) by lia].
    + assert (Hf : fill f t = Node (fk f) t (ft f)) by (unfold fill; by rewrite Hleft).
      rewrite Hf in Hb1, Hfin.
      destruct (ins_fix_height (fk f) t (ft f) n) as (_ & Hfh' & _); [apply Hg|done|by left|].
      apply wp_bind. eapply wp_fix_left; [exact HG|exact Hdone|lia|exact Ht|exact Ho'|done|lia
        |exact Hg|done|done|done|].
      apply Hfin; [|lia|done].
      destruct (heavy_left _ _ _ _ Hg Hn Bs Hb1) as (? & ? & _). lia.
    + apply wp_bind. eapply wp_set_height; [exact HG|exact HC|lia|exact Htcs|exact Hocs|lia|lia|].
      intros s' HG'. unfold cs in HG'. apply (grow_shift _ _ _ [_]) in HG'.
      eapply (IH s' u (fnode f) (fill f t)); [exact HG'| |exact Hok|exact Hpb| |exact Hmax|done|].
      * unfold fill. rewrite Hleft. exists q, (fo f). split; [solve_cell|]. split; avl_lift.
      * apply grown_fill; [done..|lia].
      * intros q' s'' u' new Hu HG'' Hq'. eapply HQ; [done|exact HG''|].
        by rewrite bool_decide_eq_true_2 by lia.
  - pose proof (bal_fill_right f t Hleft) as Hbal.
    eapply wp_new_BALANCE; [exact HG|exact HC|exact Hocs|exact Htcs|lia|lia|].
    rewrite <- Hbal. rewrite (bool_decide_eq_false_2 (_ < -1)) by lia.
    destruct (decide (bal (fill f t) > 1)) as [Hb1|Hb1];
      [rewrite (bool_decide_eq_true_2 (_ > 1)) by done
      |rewrite (bool_decide_eq_false_2 (_ > 1)) by lia].
    + assert (Hf : fill f t = Node (fk f) (ft f) t) by (unfold fill; by rewrite Hleft).
      rewrite Hf in Hb1, Hfin.
      destruct (ins_fix_height (fk f) (ft f) t n) as (_ & Hfh' & _); [done|apply Hg|right|].
      { split; [done|]. split; [done|lia]. }
      apply wp_bind. eapply wp_fix_right; [exact HG|exact Hdone|lia|exact Ho'|exact Ht|done|lia
        |exact Hg|done|done|lia|].
      apply Hfin; [|lia|done].
      assert (Hb2 : 1 < bal (Node (fk f) (ft f) t)) by lia.
      destruct (heavy_right _ _ _ _ Hg Hn Bs Hb2) as (? & ? & _). lia.
    + apply wp_bind. eapply wp_set_height; [exact HG|exact HC|lia|exact Hocs|exact Htcs|lia|lia|].
      intros s' HG'. unfold cs in HG'. apply (grow_shift _ _ _ [_]) in HG'.
      eapply (IH s' u (fnode f) (fill f t)); [exact HG'| |exact Hok|exact Hpb| |exact Hmax|done|].
      * unfold fill. rewrite Hleft. exists (fo f), q. split; [|split; avl_lift].
        replace (S (height (ft f) `max` height t)) with (height (Node (fk f) (ft f) t)) by done.
        solve_cell.
      * apply grown_fill; [done..|lia].
      * intros q' s'' u' new Hu HG'' Hq'. eapply HQ; [done|exact HG''|].
        by rewrite bool_decide_eq_true_2 by lia.
Qed.
End insert_up.

(** * Going back upwards after a deletion *)

Lemma elements_rot t : elements (rot_right t) = elements t ∧ elements (rot_left t) = elements t ∧
  elements (drot_right t) = elements t ∧ elements (drot_left t) = elements t.
Proof.
  destruct t as [|k [|k1 a [|k2 b c]] [|k3 [|k4 d e] f]]; simpl; rewrite <- ?app_assoc; done.
Qed.

Definition del_fix (t : tree) : tree :=
  match t with
  | Leaf _ _ => t
  | Node _ l r =>
    if bool_decide (bal t < -1) then if bool_decide (bal l = 1) then drot_right t else rot_right t
    else if bool_decide (bal r = -1) then drot_left t else rot_left t
  end.

(** The subtree of [del_fix t] whose root is [t]'s. *)
Definition demoted (t : tree) : tree :=
  match del_fix t with
  | Leaf _ _ => t
  | Node _ l r => if bool_decide (bal t < -1) then r else l
  end.

(** What [avl_delete] returns: after a rotation at the root, only a part of the
    tree. *)
Fixpoint del_up (fs : list frame) (t : tree) : tree :=
  match fs with
  | [] => t
  | f :: fs' =>
    let t' := fill f t in
    if bool_decide (-1 ≤ bal t' ≤ 1) then del_up fs' t'
    else if bool_decide (fs' = []) then demoted t' else del_up fs' (del_fix t')
  end.

(** The same loop below the root. *)
Definition del_balance (t : tree) : tree :=
  if bool_decide (-1 ≤ bal t ≤ 1) then t else del_fix t.
Definition del_rebuild (fs : list frame) (t : tree) : tree := foldl (λ t f, del_balance (fill f t)) t fs.
Definition root_balance (t : tree) : tree :=
  if bool_decide (-1 ≤ bal t ≤ 1) then t else demoted t.

Lemma del_up_snoc fs f t : del_up (fs ++ [f]) t = root_balance (fill f (del_rebuild fs t)).
Proof.
  revert t. induction fs as [|g fs IH]; intros t; [done|]. cbn [app del_up].
  change (del_rebuild (g :: fs) t) with (del_rebuild fs (if bool_decide (-1 ≤ bal (fill g t) ≤ 1) then fill g t else del_fix (fill g t))).
  rewrite (bool_decide_eq_false_2 (fs ++ [f] = [])) by by destruct fs. case_bool_decide; apply IH.
Qed.

(** [t] may replace a tree of height [n] after a deletion. *)
Definition shrunk (n : nat) (t : tree) : Prop := balanced t ∧ (height t = n ∨ S (height t) = n).

Lemma shrunk_fill n f t : shrunk n t → (n ≤ S (height (ft f)))%nat → (height (ft f) ≤ S n)%nat →
  balanced (ft f) → -1 ≤ bal (fill f t) ≤ 1 → shrunk (S (n `max` height (ft f))) (fill f t).
Proof.
  intros [Hb Hg] H1 H2 Hs Hbal. split.
  - unfold fill in *. destruct (fleft f); simpl in *; split_and!; try done; lia.
  - rewrite fill_height. lia.
Qed.

(** The trees below a node with a son that is too high. *)
Lemma heavy_son l h : balanced l → height l = S (S h) →
  ∃ k1 a b, l = Node k1 a b ∧ balanced a ∧ balanced b ∧
    ((bal l = -1 ∧ height a = S h ∧ height b = h) ∨
     (bal l = 0 ∧ height a = S h ∧ height b = S h) ∨
     (bal l = 1 ∧ height a = h ∧ height b = S h)).
Proof.
  intros Hb Hh. destruct l as [|k1 a b]; [done|]. simpl in *. destruct Hb as (? & ? & ? & ?).
  exists k1, a, b. do 3 (split; [done|]). lia.
Qed.

Lemma high_son l h : balanced l → height l = S h →
  ∃ k1 a b, l = Node k1 a b ∧ balanced a ∧ balanced b ∧ (height a `max` height b)%nat = h ∧
    (height a ≤ S (height b))%nat ∧ (height b ≤ S (height a))%nat.
Proof.
  intros Hb Hh. destruct l as [|k1 a b]; [done|]. simpl in *. destruct Hb as (? & ? & ? & ?).
  exists k1, a, b. do 3 (split; [done|]). lia.
Qed.

Lemma elements_nonempty t : elements t ≠ [].
Proof. induction t as [k d|k l IHl r IHr]; simpl; [done|]. by intros [? _]%app_nil. Qed.

Definition fix_ok (h : nat) (t : tree) : Prop :=
  balanced (del_fix t) ∧ (height (del_fix t) = S (S h) ∨ height (del_fix t) = S (S (S h))) ∧
  elements (del_fix t) = elements t ∧ balanced (demoted t).

Lemma elements_del_fix t : elements (del_fix t) = elements t.
Proof.
  pose proof (elements_rot t) as (H1 & H2 & H3 & H4). unfold del_fix.
  destruct t as [|k l r]; [done|]. by repeat case_bool_decide.
Qed.

Lemma del_fix_left k l r : balanced l → balanced r → height l = S (S (height r)) →
  fix_ok (height r) (Node k l r).
Proof.
  intros Hl Hr Hh. destruct (heavy_son l _ Hl Hh) as (k1 & a & b & -> & Ha & Hb & Hc).
  assert (Hlow : bal (Node k (Node k1 a b) r) < -1) by (simpl in *; lia).
  unfold fix_ok. split_and!.
  all: try apply elements_del_fix.
  all: unfold demoted, del_fix; rewrite !(bool_decide_eq_true_2 (_ < -1)) by done.
  all: destruct Hc as [(E & Ea & Eb)|[(E & Ea & Eb)|(E & Ea & Eb)]]; rewrite E.
  all: rewrite ?(bool_decide_eq_false_2 (-1 = 1)), ?(bool_decide_eq_false_2 (0 = 1)),
    ?(bool_decide_eq_true_2 (1 = 1)) by done.
  all: try (simpl in *; first [lia | by eauto | split_and!; done || lia]).
  all: destruct (high_son b _ Hb Eb) as (k2 & b1 & b2 & -> & ? & ? & ? & ? & ?);
    simpl in *; first [lia | by eauto | split_and!; done || lia].
Qed.

Lemma del_fix_right k l r : balanced l → balanced r → height r = S (S (height l)) →
  fix_ok (height l) (Node k l r).
Proof.
  intros Hl Hr Hh. destruct (heavy_son r _ Hr Hh) as (k1 & a & b & -> & Ha & Hb & Hc).
  assert (Hhigh : 1 < bal (Node k l (Node k1 a b))) by (simpl in *; lia).
  unfold fix_ok. split_and!.
  all: try apply elements_del_fix.
  all: unfold demoted, del_fix; rewrite !(bool_decide_eq_false_2 (_ < -1)) by lia.
  all: destruct Hc as [(E & Ea & Eb)|[(E & Ea & Eb)|(E & Ea & Eb)]]; rewrite E.
  all: rewrite ?(bool_decide_eq_false_2 (1 = -1)), ?(bool_decide_eq_false_2 (0 = -1)),
    ?(bool_decide_eq_true_2 (-1 = -1)) by done.
  all: try (simpl in *; first [lia | by eauto | split_and!; done || lia]).
  all: destruct (high_son a _ Ha Ea) as (k2 & b1 & b2 & -> & ? & ? & ? & ? & ?);
    simpl in *; first [lia | by eauto | split_and!; done || lia].
Qed.

(** A node of the path that a deletion below it has put out of balance. *)
Lemma unbalanced_fill n f t : shrunk n t → (n ≤ S (height (ft f)))%nat → (height (ft f) ≤ S n)%nat →
  balanced (ft f) → ¬ (-1 ≤ bal (fill f t) ≤ 1) →
  height (ft f) = S (S (height t)) ∧ n = S (height t) ∧ fix_ok (height t) (fill f t).
Proof.
  intros [Hb Hg] H1 H2 Hs Hbal. assert (Hh : height (ft f) = S (S (height t))).
  { unfold fill in Hbal. destruct (fleft f); simpl in Hbal; lia. }
  split; [done|]. split; [lia|]. unfold fill. destruct (fleft f).
  - by apply del_fix_right.
  - by apply del_fix_left.
Qed.

Lemma del_balance_ok f t n : (n ≤ S (height (ft f)))%nat → (height (ft f) ≤ S n)%nat → balanced (ft f) → shrunk n t →
  shrunk (S (n `max` height (ft f))) (del_balance (fill f t)) ∧
  elements (del_balance (fill f t)) = elements (fill f t).
Proof.
  intros H1 H2 H3 Hg. unfold del_balance. case_bool_decide as Hb.
  { split; [by apply shrunk_fill|done]. }
  destruct (unbalanced_fill n f t Hg H1 H2 H3 Hb) as (Eft & En & Hbf & Hhf & Hef & _).
  split; [|done]. split; [done|]. lia.
Qed.

Section delete_up.
Context (C : cenv) (s0 : state) (HC : holds s0 C).

(** The tree [T] of the node at [p], out of balance, is rotated; [p] stays in
    it, lower. *)
Definition del_fixed (u : Z) (cs done : list cell) (p : Z) (T : tree) (Q : Z → state → Prop) : Prop :=
  ∀ p' s' u' new, u ≤ u' ≤ u + 8 → grow s0 s' u' (new ++ cs) →
    is_avl (adds C (new ++ done)) p' (del_fix T) → is_avl (adds C (new ++ done)) p (demoted T) →
    Q p' s'.

Lemma del_fixed_rotated n u cs done p T t tp Q p' s' : 0 ≤ n ≤ 8 →
  del_fixed u cs done p T Q → rotated C s0 u cs done p n t tp p' s' →
  del_fix T = t → demoted T = tp → Q p' s'.
Proof.
  intros Hn HQ (new & HG & Ht & Htp) <- <-. eapply HQ; [|exact HG|exact Ht|exact Htp]. lia.
Qed.

Lemma wp_del_left s u cs done p low k pl pr l r (Q : Z → state → Prop) :
  grow s0 s u ((p, [header CELL_avl_internal low; k; pl; pr]) :: cs) → done ⊆ cs →
  0 ≤ low < 2 ^ 24 →
  is_avl (adds C done) pl l → is_avl (adds C done) pr r → room s0 (u + 8) →
  Z.of_nat (height r) < 2 ^ 21 → balanced l → height l = S (S (height r)) →
  del_fixed u cs done p (Node k l r) Q →
  wp (delete_rotate_right p) Q s.
Proof.
  intros HG Hsub Hlow Hl Hr Hroom Br Hbl Hh HQ.
  destruct (heavy_son l _ Hbl Hh) as (k1 & a & b & -> & Ba & Bb & Hc).
  assert (Hlo : bal (Node k (Node k1 a b) r) < -1) by (simpl in *; lia).
  pose proof Hl as (q1 & q2 & Hq & H1 & H2). apply wp_bind. wp_step. apply wp_bind.
  eapply (wp_BALANCE (adds C cs)); [by eapply node_holds|solve_blk|avl_lift|avl_lift|simpl in *; lia..|].
  change (Z.of_nat (height b) - Z.of_nat (height a)) with (bal (Node k1 a b)).
  destruct (decide (bal (Node k1 a b) = 1)) as [E|E].
  - rewrite bool_decide_eq_true_2 by done.
    destruct (high_son b (height r) Bb) as (k2 & b1 & b2 & -> & _ & _ & _ & _); [simpl in *; lia|].
    eapply wp_double_rotate_right; [exact HC|exact Hsub|done|exact HG|exact Hl|done|solve_room|simpl in *; lia..|].
    intros p' s' Hrot. eapply del_fixed_rotated; [|exact HQ|exact Hrot|..]; [done|..];
      unfold demoted, del_fix; by rewrite !(bool_decide_eq_true_2 (_ < -1)), !(bool_decide_eq_true_2 (_ = 1)) by done.
  - rewrite bool_decide_eq_false_2 by done.
    eapply wp_simple_rotate_right; [exact HC|exact Hsub|done|exact HG|exact Hl|done|solve_room|simpl in *; lia..|].
    intros p' s' Hrot. eapply del_fixed_rotated; [|exact HQ|exact Hrot|..]; [done|..];
      unfold demoted, del_fix; by rewrite !(bool_decide_eq_true_2 (_ < -1)), !(bool_decide_eq_false_2 (_ = 1)) by done.
Qed.

Lemma wp_del_right s u cs done p low k pl pr l r (Q : Z → state → Prop) :
  grow s0 s u ((p, [header CELL_avl_internal low; k; pl; pr]) :: cs) → done ⊆ cs →
  0 ≤ low < 2 ^ 24 →
  is_avl (adds C done) pl l → is_avl (adds C done) pr r → room s0 (u + 8) →
  Z.of_nat (height l) < 2 ^ 21 → balanced r → height r = S (S (height l)) →
  del_fixed u cs done p (Node k l r) Q →
  wp (delete_rotate_left p) Q s.
Proof.
  intros HG Hsub Hlow Hl Hr Hroom Br Hbr Hh HQ.
  destruct (heavy_son r _ Hbr Hh) as (k1 & a & b & -> & Ba & Bb & Hc).
  assert (Hlo : ¬ bal (Node k l (Node k1 a b)) < -1) by (simpl in *; lia).
  pose proof Hr as (q1 & q2 & Hq & H1 & H2). apply wp_bind. wp_step. apply wp_bind.
  eapply (wp_BALANCE (adds C cs)); [by eapply node_holds|solve_blk|avl_lift|avl_lift|simpl in *; lia..|].
  change (Z.of_nat (height b) - Z.of_nat (height a)) with (bal (Node k1 a b)).
  destruct (decide (bal (Node k1 a b) = -1)) as [E|E].
  - rewrite bool_decide_eq_true_2 by done.
    destruct (high_son a (height l) Ba) as (k2 & b1 & b2 & -> & _ & _ & _ & _); [simpl in *; lia|].
    eapply wp_double_rotate_left; [exact HC|exact Hsub|done|exact HG|done|exact Hr|solve_room|simpl in *; lia..|].
    intros p' s' Hrot. eapply del_fixed_rotated; [|exact HQ|exact Hrot|..]; [done|..];
      unfold demoted, del_fix; by rewrite !(bool_decide_eq_false_2 (_ < -1)), !(bool_decide_eq_true_2 (_ = -1)) by done.
  - rewrite bool_decide_eq_false_2 by done.
    eapply wp_simple_rotate_left; [exact HC|exact Hsub|done|exact HG|done|exact Hr|solve_room|simpl in *; lia..|].
    intros p' s' Hrot. eapply del_fixed_rotated; [|exact HQ|exact Hrot|..]; [done|..];
      unfold demoted, del_fix; by rewrite !(bool_decide_eq_false_2 (_ < -1)), !(bool_decide_eq_false_2 (_ = -1)) by done.
Qed.

(** One step up: the node is rotated or gets its height. *)
Lemma wp_avl_delete_up fs : ∀ s u q t n done (Q : Z → state → Prop),
  grow s0 s u (path_cells fs q ++ done) → is_avl (adds C done) q t →
  frames_ok C fs n → path_balanced fs n → shrunk n t →
  Forall (λ f, Z.of_nat (fh f) < 2 ^ 20) fs → room s0 (u + 8 * Z.of_nat (length fs)) →
  (∀ q' s' u' new, u ≤ u' ≤ u + 8 * Z.of_nat (length fs) → grow s0 s' u' new →
    is_avl (adds C new) q' (del_up fs t) → Q q' s') →
  wp (avl_delete_up (top_of fs q) (frames_path fs)) Q s.
Proof.
  induction fs as [|f fs IH]; intros s u q t n done Q HG Ht Hok Hpb Hg Hmax Hroom HQ.
  { apply wp_ret. eapply HQ; [|exact HG|exact Ht]. simpl. lia. }
  rewrite top_of_cons. cbn [path_cells app length] in *. cbn [frames_ok path_balanced del_up] in *.
  destruct Hok as (Ho & Hh & Hok), Hpb as (Hn & Hs & Bs & Hpb).
  apply Forall_cons in Hmax as [Hfh Hmax]. rewrite Hh in Hok, Hfh.
  set (cs := path_cells fs (fnode f) ++ done) in *.
  assert (Hdone : done ⊆ cs) by (apply list_subseteq_app_r; reflexivity).
  assert (Ho' : is_avl (adds C done) (fo f) (ft f)) by avl_lift.
  assert (Hocs : is_avl (adds C cs) (fo f) (ft f)) by avl_lift.
  assert (Htcs : is_avl (adds C cs) q t) by avl_lift.
  assert (Hht : (n ≤ S (height t) ∧ height t ≤ n)%nat) by (destruct Hg as [_ [?|?]]; lia).
  cbn [frames_path fmap list_fmap avl_delete_up]. fold (frames_path fs).
  apply wp_bind. unfold frame_cell in HG. rewrite Hh in HG.
  (* the common end of the rotating branches *)
  assert (Hfin : ¬ (-1 ≤ bal (fill f t) ≤ 1) →
    del_fixed u cs done (fnode f) (fill f t) (λ p' s',
      wp (link_path (frames_path fs) p';; avl_delete_up (top_of fs (fnode f)) (frames_path fs)) Q s')).
  { intros Hbal p' s' u' new Hu HG' Hp' Hp. unfold cs in HG'. apply grow_shift in HG'.
    destruct (unbalanced_fill n f t Hg Hn Hs Bs Hbal) as (Eft & En & Hb & Hhf & _).
    rewrite bool_decide_eq_false_2 in HQ by done.
    apply wp_bind. eapply wp_link_path; [exact HG'|]. clear HG'. intros s2 HG'.
    destruct (decide (fs = [])) as [->|Hne].
    - rewrite bool_decide_eq_true_2 in HQ by done. apply wp_ret.
      eapply HQ; [|exact HG'|exact Hp]. simpl. lia.
    - rewrite bool_decide_eq_false_2 in HQ by done.
      rewrite (top_of_nonempty fs _ p') by done.
      eapply (IH s2 u' p' (del_fix (fill f t))); [exact HG'|exact Hp'|exact Hok|exact Hpb| |exact Hmax| |].
      + split; [done|]. lia.
      + unfold room in *. lia.
      + intros q' s'' u'' new' Hu'' HG'' Hq'. eapply HQ; [|exact HG''|exact Hq']. lia. }
  (* and of the branch that sets the height *)
  assert (Hstay : -1 ≤ bal (fill f t) ≤ 1 → ∀ s', 
    grow s0 s' u (frame_cell (mkFrame (fnode f) (fleft f) (fk f) (fo f) (ft f) (height (fill f t))) q :: cs) →
    wp (avl_delete_up (top_of fs (fnode f)) (frames_path fs)) Q s').
  { intros Hbal s' HG'. unfold cs in HG'. apply (grow_shift _ _ _ [_]) in HG'.
    eapply (IH s' u (fnode f) (fill f t)); [exact HG'| |exact Hok|exact Hpb| |exact Hmax| |].
    - eapply (is_avl_fill _ (mkFrame (fnode f) (fleft f) (fk f) (fo f) (ft f) (height (fill f t))));
        [solve_cell|simpl; avl_lift|avl_lift|done].
    - by apply shrunk_fill.
    - unfold room in *. lia.
    - intros q' s'' u' new Hu HG'' Hq'. eapply HQ; [|exact HG''|].
      + lia.
      + by rewrite bool_decide_eq_true_2 by lia. }
  unfold frame_cell in Hstay. cbn [fnode fleft fk fo ft fh] in Hstay.
  assert (Hunb := unbalanced_fill n f t Hg Hn Hs Bs).
  unfold fill in Hfin, Hstay, Hunb. destruct (fleft f) eqn:Hleft.
  - change (height (Node (fk f) t (ft f))) with (S (height t `max` height (ft f))) in Hstay.
    eapply wp_new_BALANCE; [exact HG|exact HC|exact Htcs|exact Hocs|lia|lia|].
    change (Z.of_nat (height (ft f)) - Z.of_nat (height t)) with (bal (Node (fk f) t (ft f))).
    rewrite (bool_decide_eq_false_2 (_ < -1)) by (simpl; lia).
    destruct (decide (bal (Node (fk f) t (ft f)) > 1)) as [Hb1|Hb1].
    + rewrite (bool_decide_eq_true_2 (_ > 1)) by done. destruct Hunb as (Eft & En & _); [lia|].
      apply wp_bind. eapply wp_del_right; [exact HG|exact Hdone|lia|exact Ht|exact Ho'| |lia|exact Bs|exact Eft|].
      { unfold room in *. lia. }
      apply Hfin. lia.
    + rewrite (bool_decide_eq_false_2 (_ > 1)) by lia.
      apply wp_bind. eapply wp_set_height; [exact HG|exact HC|lia|exact Htcs|exact Hocs|lia|lia|].
      apply Hstay. simpl in *. lia.
  - change (height (Node (fk f) (ft f) t)) with (S (height (ft f) `max` height t)) in Hstay.
    eapply wp_new_BALANCE; [exact HG|exact HC|exact Hocs|exact Htcs|lia|lia|].
    change (Z.of_nat (height t) - Z.of_nat (height (ft f))) with (bal (Node (fk f) (ft f) t)).
    destruct (decide (bal (Node (fk f) (ft f) t) < -1)) as [Hb1|Hb1].
    + rewrite (bool_decide_eq_true_2 (_ < -1)) by done. destruct Hunb as (Eft & En & _); [lia|].
      apply wp_bind. eapply wp_del_left; [exact HG|exact Hdone|lia|exact Ho'|exact Ht| |lia|exact Bs|exact Eft|].
      { unfold room in *. lia. }
      apply Hfin. lia.
    + rewrite (bool_decide_eq_false_2 (_ < -1)), (bool_decide_eq_false_2 (_ > 1)) by (simpl in *; lia).
      apply wp_bind. eapply wp_set_height; [exact HG|exact HC|lia|exact Hocs|exact Htcs|lia|lia|].
      apply Hstay. simpl in *. lia.
Qed.
End delete_up.

(** * Search trees *)

Section search.
Context (rank : Z → Z) (K : Z → Prop).

(** All keys are in [K]; those on the left of a node are at most its key, those
    on the right are greater. *)
Fixpoint bst (t : tree) : Prop :=
  match t with
  | Leaf k _ => K k
  | Node k l r => K k ∧ bst l ∧ bst r ∧
      Forall (λ e, rank e.1 ≤ rank k) (elements l) ∧ Forall (λ e, rank k < rank e.1) (elements r)
  end.

(** The finite map that a tree represents. *)
Definition tree_map (t : tree) : gmap Z Z :=
  list_to_map ((λ e, (rank e.1, e.2)) <$> elements t).

Fixpoint ctx_left (fs : list frame) : list (Z * Z) :=
  match fs with
  | [] => []
  | f :: fs' => ctx_left fs' ++ if fleft f then [] else elements (ft f)
  end.
Fixpoint ctx_right (fs : list frame) : list (Z * Z) :=
  match fs with
  | [] => []
  | f :: fs' => (if fleft f then elements (ft f) else []) ++ ctx_right fs'
  end.

Lemma elements_fill f t :
  elements (fill f t) = (if fleft f then [] else elements (ft f)) ++ elements t ++
    (if fleft f then elements (ft f) else []).
Proof. unfold fill. destruct (fleft f); simpl; by rewrite ?app_nil_r. Qed.

Lemma elements_plug fs t : elements (plug fs t) = ctx_left fs ++ elements t ++ ctx_right fs.
Proof.
  revert t. induction fs as [|f fs IH]; intros t; simpl; [by rewrite app_nil_r|].
  rewrite IH, elements_fill, <- !app_assoc. done.
Qed.

Lemma elements_ins_fix t : elements (ins_fix t) = elements t.
Proof.
  pose proof (elements_rot t) as (H1 & H2 & H3 & H4). unfold ins_fix.
  destruct t as [|k l r]; [done|]. by repeat case_bool_decide.
Qed.

Lemma bst_rot t : bst t → bst (rot_right t) ∧ bst (rot_left t) ∧ bst (drot_right t) ∧ bst (drot_left t).
Proof.
  assert (Hle : ∀ k1 k l, rank k1 ≤ rank k → Forall (λ e, rank e.1 ≤ rank k1) l →
    Forall (λ e : Z * Z, rank e.1 ≤ rank k) l).
  { intros k1 k l Hk Hl. eapply Forall_impl; [exact Hl|]. simpl. intros e ?. lia. }
  assert (Hlt : ∀ k1 k l, rank k ≤ rank k1 → Forall (λ e, rank k1 < rank e.1) l →
    Forall (λ e : Z * Z, rank k < rank e.1) l).
  { intros k1 k l Hk Hl. eapply Forall_impl; [exact Hl|]. simpl. intros e ?. lia. }
  assert (Hne : ∀ t, elements t ≠ []).
  { clear t. intros t. induction t as [|k l IHl r IHr]; simpl; [done|]. by intros [? _]%app_nil. }
  assert (Hbetween : ∀ k1 k t, Forall (λ e, rank e.1 ≤ rank k) (elements t) →
    Forall (λ e, rank k1 < rank e.1) (elements t) → rank k1 < rank k).
  { intros k1 k x H1 H2. specialize (Hne x). destruct (elements x) as [|e l]; [done|].
    apply Forall_cons in H1 as [H1 _], H2 as [H2 _]. lia. }
  intros Ht. split_and!.
  - destruct t as [|k [|k1 a b] c]; [done..|]. simpl in *. rewrite !Forall_app in *.
    destruct Ht as (Kk & (Kk1 & Ba & Bb & Ha & Hb) & Bc & (Ha' & Hb') & Hc).
    pose proof (Hbetween k1 k b Hb' Hb).
    split_and!; try done. eapply Hlt, Hc. lia.
  - destruct t as [|k a [|k1 b c]]; [done..|]. simpl in *. rewrite !Forall_app in *.
    destruct Ht as (Kk & Ba & (Kk1 & Bb & Bc & Hb & Hc) & Ha & (Hb' & Hc')).
    pose proof (Hbetween k k1 b Hb Hb').
    split_and!; try done. eapply Hle, Ha. lia.
  - destruct t as [|k [|k1 a [|k2 b c]] d]; [done..|]. simpl in *. rewrite !Forall_app in *.
    destruct Ht as (Kk & (Kk1 & Ba & (Kk2 & Bb & Bc & Hb & Hc) & Ha & (Hb1 & Hc1)) & Bd & (Ha0 & Hb0 & Hc0) & Hd).
    pose proof (Hbetween k1 k2 b Hb Hb1). pose proof (Hbetween k2 k c Hc0 Hc).
    split_and!; try done; [eapply Hle, Ha; lia|eapply Hlt, Hd; lia].
  - destruct t as [|k a [|k1 [|k2 b c] d]]; [done..|]. simpl in *. rewrite !Forall_app in *.
    destruct Ht as (Kk & Ba & (Kk1 & (Kk2 & Bb & Bc & Hb & Hc) & Bd & (Hb1 & Hc1) & Hd) & Ha & ((Hb0 & Hc0) & Hd0)).
    pose proof (Hbetween k k2 b Hb Hb0). pose proof (Hbetween k2 k1 c Hc1 Hc).
    split_and!; try done; [eapply Hle, Ha; lia|eapply Hlt, Hd; lia].
Qed.

Lemma bst_ins_fix t : bst t → bst (ins_fix t).
Proof.
  intros H. pose proof (bst_rot t H) as (H1 & H2 & H3 & H4). unfold ins_fix.
  destruct t as [|k l r]; [done|]. by repeat case_bool_decide.
Qed.

(** Changing what is at the end of a path. *)
Definition fits (fs : list frame) (e : Z * Z) : Prop :=
  Forall (λ f, if fleft f then rank e.1 ≤ rank (fk f) else rank (fk f) < rank e.1) fs.

Lemma bst_plug_sub fs t : bst (plug fs t) → bst t.
Proof.
  revert t. induction fs as [|f fs IH]; intros t H; [done|]. apply IH in H.
  unfold fill in H. destruct (fleft f); simpl in H; tauto.
Qed.

Lemma bst_plug fs t t0 : bst (plug fs t0) → bst t →
  (∀ e, e ∈ elements t → e ∈ elements t0 ∨ fits fs e) → bst (plug fs t).
Proof.
  revert t t0. induction fs as [|f fs IH]; intros t t0 H0 Ht He; [done|].
  simpl. apply (IH _ (fill f t0)); [done| |].
  - apply (bst_plug_sub fs (fill f t0)) in H0. unfold fill in *.
    assert (Hfit : ∀ e, e ∈ elements t → e ∈ elements t0 ∨
      if fleft f then rank e.1 ≤ rank (fk f) else rank (fk f) < rank e.1).
    { intros e [?|Hf]%He; [by left|right]. by apply Forall_cons in Hf as [? _]. }
    destruct (fleft f); simpl in *; rewrite !Forall_forall in *; split_and!; try tauto.
    + intros e Hin. destruct (Hfit e Hin); [|done]. by apply H0.
    + intros e Hin. destruct (Hfit e Hin); [|done]. by apply H0.
  - intros e. rewrite !elements_fill, !elem_of_app.
    intros [?|[Hin|?]]; [by left; left| |by left; right; right].
    destruct (He e Hin) as [?|Hf]; [by left; right; left|right].
    by apply Forall_cons in Hf as [_ ?].
Qed.

Lemma balanced_plug fs t n : path_balanced fs n → height t = n → balanced t → balanced (plug fs t).
Proof.
  revert t n. induction fs as [|f fs IH]; intros t n Hp <- Ht; [done|].
  destruct Hp as (H1 & H2 & H3 & Hp). simpl. eapply IH; [exact Hp|apply fill_height|].
  unfold fill. destruct (fleft f); simpl; split_and!; done || lia.
Qed.

Lemma balanced_plug_sub fs t : balanced (plug fs t) → balanced t.
Proof.
  revert t. induction fs as [|f fs IH]; intros t H; [done|]. apply IH in H.
  unfold fill in H. destruct (fleft f); simpl in H; tauto.
Qed.

(** The loop after an insertion keeps the items and their order, and restores
    the balance. *)
Lemma ins_up_correct fs t : ∀ n, path_balanced fs n → grown n t → bst (plug fs t) →
  elements (ins_up fs t) = elements (plug fs t) ∧ balanced (ins_up fs t) ∧ bst (ins_up fs t).
Proof.
  revert t. induction fs as [|f fs IH]; intros t n Hpb Hg Hbst; [by destruct Hg|].
  destruct Hpb as (H1 & H2 & H3 & Hpb). cbn [ins_up plug foldl]. case_bool_decide as Hbal.
  - eapply IH; [exact Hpb| |done]. by apply grown_fill.
  - assert (Hbt : balanced t) by apply Hg.
    assert (Hfix : balanced (ins_fix (fill f t)) ∧
      height (ins_fix (fill f t)) = S (n `max` height (ft f))).
    { unfold fill in *. destruct (fleft f).
      - assert (Hlow : bal (Node (fk f) t (ft f)) < -1).
        { destruct Hg as [_ [?|[? _]]]; simpl in *; lia. }
        destruct (ins_fix_height (fk f) t (ft f) n) as (Hb & Hh & _); [done|done|by left|].
        split; [done|]. rewrite Hh.
        destruct (heavy_left _ _ _ _ Hg H1 H3 Hlow) as (? & ? & _). lia.
      - assert (Hhigh : 1 < bal (Node (fk f) (ft f) t)).
        { destruct Hg as [_ [?|[? _]]]; simpl in *; lia. }
        destruct (ins_fix_height (fk f) (ft f) t n) as (Hb & Hh & _); [done|done|by right|].
        split; [done|]. rewrite Hh.
        destruct (heavy_right _ _ _ _ Hg H1 H3 Hhigh) as (? & ? & _). lia. }
    destruct Hfix as [Hb Hh]. split_and!.
    + change (elements (plug fs (ins_fix (fill f t))) = elements (plug fs (fill f t))).
      by rewrite !elements_plug, elements_ins_fix.
    + by eapply balanced_plug.
    + eapply (bst_plug fs _ (fill f t)); [exact Hbst|apply bst_ins_fix, (bst_plug_sub fs _ Hbst)|].
      intros e. rewrite elements_ins_fix. by left.
Qed.

Lemma bst_del_fix t : bst t → bst (del_fix t).
Proof.
  intros H. pose proof (bst_rot t H) as (H1 & H2 & H3 & H4). unfold del_fix.
  destruct t as [|k l r]; [done|]. by repeat case_bool_decide.
Qed.

Lemma bst_demoted t : bst t → bst (demoted t).
Proof.
  intros H. pose proof (bst_del_fix t H) as Hf. unfold demoted.
  destruct (del_fix t) as [|k l r]; [done|]. case_bool_decide; apply Hf.
Qed.

Lemma bst_del_balance t : bst t → bst (del_balance t).
Proof. intros H. unfold del_balance. case_bool_decide; [done|by apply bst_del_fix]. Qed.

(** Going back upwards to the frames [fs2] restores the balance and keeps the items. *)
Lemma del_rebuild_below fs1 fs2 t : ∀ n, path_balanced (fs1 ++ fs2) n → shrunk n t → bst (plug (fs1 ++ fs2) t) →
  ∃ n', path_balanced fs2 n' ∧ shrunk n' (del_rebuild fs1 t) ∧ elements (del_rebuild fs1 t) = elements (plug fs1 t) ∧
    bst (plug fs2 (del_rebuild fs1 t)).
Proof.
  revert t. induction fs1 as [|f fs1 IH]; intros t n Hpb Hg Hbst; [by exists n|].
  destruct Hpb as (H1 & H2 & H3 & Hpb). cbn [app del_rebuild plug foldl] in *.
  destruct (del_balance_ok f t n H1 H2 H3 Hg) as (Hg' & He).
  destruct (IH (del_balance (fill f t)) _ Hpb Hg') as (n' & Hp' & Hs' & E & Hb').
  - eapply (bst_plug (fs1 ++ fs2) _ (fill f t)); [exact Hbst|apply bst_del_balance, (bst_plug_sub (fs1 ++ fs2)), Hbst|].
    intros e. rewrite He. by left.
  - exists n'. split; [done|]. split; [done|]. split; [|done]. etrans; [exact E|].
    change (elements (plug fs1 (del_balance (fill f t))) = elements (plug fs1 (fill f t))). by rewrite !elements_plug, He.
Qed.

Lemma del_rebuild_correct fs t n : path_balanced fs n → shrunk n t → bst (plug fs t) →
  elements (del_rebuild fs t) = elements (plug fs t) ∧ balanced (del_rebuild fs t) ∧ bst (del_rebuild fs t).
Proof.
  intros Hpb Hg Hbst. destruct (del_rebuild_below fs [] t n) as (n' & _ & [Hb _] & E & Hs); rewrite ?app_nil_r; done.
Qed.

(** ** The keys that a deletion loses

    [removed x t] is the tree that is left below the root when the leaf at the end of
    the search for [x] is taken out of [t] ([None] when there is no other leaf). *)
Fixpoint removed (x : Z) (t : tree) : option tree :=
  match t with
  | Leaf _ _ => None
  | Node k l r => Some (
      if bool_decide (x ≤ rank k)
      then match removed x l with Some l' => del_balance (Node k l' r) | None => r end
      else match removed x r with Some r' => del_balance (Node k l r') | None => l end)
  end.

(** What [avl_delete] rotates is the root when the taking out makes the other side of it
    too high. *)
Definition root_rotates (x : Z) (T : tree) : bool :=
  match T with
  | Leaf _ _ => false
  | Node k l r =>
    if bool_decide (x ≤ rank k)
    then match removed x l with Some l' => bool_decide (1 < bal (Node k l' r)) | None => false end
    else match removed x r with Some r' => bool_decide (bal (Node k l r') < -1) | None => false end
  end.

(** It returns the node that was the root, which the rotation has put below another one:
    the node of the key [cut]. *)
Definition cut_right (r : tree) : Z :=
  match r with
  | Node k1 (Node k2 _ _) _ => if bool_decide (bal r = -1) then rank k2 else rank k1
  | Node k _ _ | Leaf k _ => rank k
  end.
Definition cut_left (l : tree) : Z :=
  match l with
  | Node k1 _ (Node k2 _ _) => if bool_decide (bal l = 1) then rank k2 else rank k1
  | Node k _ _ | Leaf k _ => rank k
  end.

(** The key [y] is on the other side of that node. *)
Definition lost (x : Z) (T : tree) (y : Z) : bool :=
  root_rotates x T &&
  match T with
  | Leaf _ _ => false
  | Node k l r => if bool_decide (x ≤ rank k) then bool_decide (cut_right r < y) else bool_decide (y ≤ cut_left l)
  end.

Lemma plug_snoc fs f t : plug (fs ++ [f]) t = fill f (plug fs t).
Proof. unfold plug. by rewrite foldl_app. Qed.

Lemma removed_plug fs k d key : fits fs (key, 0) →
  removed (rank key) (plug fs (Leaf k d)) = match fs with [] => None | f :: fs' => Some (del_rebuild fs' (ft f)) end.
Proof.
  induction fs as [|f fs IH] using rev_ind; intros Hf; [done|]. apply Forall_app in Hf as [Hfs [Hf _]%Forall_cons].
  rewrite plug_snoc. specialize (IH Hfs). simpl in Hf. unfold fill. destruct (fleft f) eqn:El; cbn [removed].
  - rewrite bool_decide_eq_true_2, IH by done. destruct fs as [|f0 fs]; [done|]. cbn [app]. f_equal.
    unfold del_rebuild. rewrite foldl_app. simpl. unfold fill. by rewrite El.
  - rewrite bool_decide_eq_false_2, IH by lia. destruct fs as [|f0 fs]; [done|]. cbn [app]. f_equal.
    unfold del_rebuild. rewrite foldl_app. simpl. unfold fill. by rewrite El.
Qed.

(** A part of a tree with the keys that satisfy [P]. *)
Lemma filter_entries (P : Z → Prop) `{∀ e : Z * Z, Decision (P e.1)} (l1 l l2 : list (Z * Z)) :
  Forall (λ e, ¬ P (rank e.1)) l1 → Forall (λ e, P (rank e.1)) l → Forall (λ e, ¬ P (rank e.1)) l2 →
  filter (λ e, P e.1) (list_to_map ((λ e, (rank e.1, e.2)) <$> (l1 ++ l ++ l2)) : gmap Z Z) = list_to_map ((λ e, (rank e.1, e.2)) <$> l).
Proof.
  assert (Hkey : ∀ (Q : Z → Prop) l y d, Forall (λ e : Z * Z, Q (rank e.1)) l →
    (list_to_map ((λ e, (rank e.1, e.2)) <$> l) : gmap Z Z) !! y = Some d → Q y).
  { intros Q l' y d Hl Hy%elem_of_list_to_map_2. apply list_elem_of_fmap in Hy as (e & [= -> _] & He).
    rewrite Forall_forall in Hl. by apply Hl. }
  intros H1 H0 H2. rewrite !fmap_app, !list_to_map_app. apply map_eq. intros y. apply option_eq. intros d.
  rewrite map_lookup_filter_Some, !lookup_union_Some_raw. cbn [fst]. split.
  - intros [[Hy|[_ [Hy|[_ Hy]]]] HP]; [|done|]; by apply (Hkey (λ y, ¬ P y)) in Hy.
  - intros Hy. pose proof (Hkey P _ _ _ H0 Hy) as HP. split; [|done]. right. split; [|by left].
    apply eq_None_not_Some. intros [d' Hy']. by apply (Hkey (λ y, ¬ P y)) in Hy'.
Qed.

Lemma below_some u k k' : Forall (λ e, rank k < rank e.1) (elements u) → Forall (λ e, rank e.1 ≤ rank k') (elements u) → rank k < rank k'.
Proof.
  intros H1 H2. pose proof (elements_nonempty u) as Hne. destruct (elements u) as [|e l]; [done|].
  apply Forall_cons in H1 as [H1 _], H2 as [H2 _]. lia.
Qed.

Lemma le_all k k' (l : list (Z * Z)) : rank k ≤ rank k' → Forall (λ e, rank e.1 ≤ rank k) l → Forall (λ e, rank e.1 ≤ rank k') l.
Proof. intros Hk Hl. eapply Forall_impl; [exact Hl|]. simpl. intros e ?. lia. Qed.

Lemma lt_all k k' (l : list (Z * Z)) : rank k ≤ rank k' → Forall (λ e, rank k' < rank e.1) l → Forall (λ e, rank k < rank e.1) l.
Proof. intros Hk Hl. eapply Forall_impl; [exact Hl|]. simpl. intros e ?. lia. Qed.

(** The subtree that a rotation puts below the new root: its side of the tree. *)
Lemma demoted_right k l r : bst (Node k l r) → 1 < bal (Node k l r) → ∃ l2, elements (Node k l r) = elements (demoted (Node k l r)) ++ l2 ∧
  Forall (λ e, rank e.1 ≤ cut_right r) (elements (demoted (Node k l r))) ∧ Forall (λ e, cut_right r < rank e.1) l2.
Proof.
  intros Hb Hbal. unfold demoted, del_fix. rewrite !(bool_decide_eq_false_2 (bal (Node k l r) < -1)) by lia.
  destruct r as [|k1 a b]; [simpl in Hbal; lia|]. destruct Hb as (_ & Bl & (_ & Ba & Bb & Ha & Hb) & Hl & Hr).
  cbn [elements] in *. apply Forall_app in Hr as [Hra Hrb]. case_bool_decide as E.
  - destruct a as [|k2 a1 a2]; [simpl in E; lia|]. destruct Ba as (_ & _ & _ & H1 & H2). cbn [elements drot_left cut_right] in *.
    rewrite (bool_decide_eq_true_2 (bal _ = -1)) by done. apply Forall_app in Hra as [Hr1 Hr2], Ha as [Ha1 Ha2].
    pose proof (below_some a1 k k2 Hr1 H1). pose proof (below_some a2 k2 k1 H2 Ha2).
    exists (elements a2 ++ elements b). split; [by rewrite <- !app_assoc|]. rewrite !Forall_app. split_and!; try done.
    + apply (le_all k k2); [lia|done].
    + apply (lt_all k2 k1); [lia|done].
  - cbn [rot_left]. assert (Ec : cut_right (Node k1 a b) = rank k1).
    { destruct a; [done|]. cbn [cut_right]. by rewrite bool_decide_eq_false_2. }
    rewrite Ec. pose proof (below_some a k k1 Hra Ha). exists (elements b). cbn [elements]. split; [by rewrite <- !app_assoc|].
    rewrite !Forall_app. split_and!; try done. apply (le_all k k1); [lia|done].
Qed.

Lemma demoted_left k l r : bst (Node k l r) → bal (Node k l r) < -1 → ∃ l1, elements (Node k l r) = l1 ++ elements (demoted (Node k l r)) ∧
  Forall (λ e, rank e.1 ≤ cut_left l) l1 ∧ Forall (λ e, cut_left l < rank e.1) (elements (demoted (Node k l r))).
Proof.
  intros Hb Hbal. unfold demoted, del_fix. rewrite !(bool_decide_eq_true_2 (bal (Node k l r) < -1)) by lia.
  destruct l as [|k1 a b]; [simpl in Hbal; lia|]. destruct Hb as (_ & (_ & Ba & Bb & Ha & Hb) & Br & Hl & Hr).
  cbn [elements] in *. apply Forall_app in Hl as [Hla Hlb]. case_bool_decide as E.
  - destruct b as [|k2 b1 b2]; [simpl in E; lia|]. destruct Bb as (_ & _ & _ & H1 & H2). cbn [elements drot_right cut_left] in *.
    rewrite (bool_decide_eq_true_2 (bal _ = 1)) by done. apply Forall_app in Hlb as [Hl1 Hl2], Hb as [Hb1 Hb2].
    pose proof (below_some b1 k1 k2 Hb1 H1). pose proof (below_some b2 k2 k H2 Hl2).
    exists (elements a ++ elements b1). split; [by rewrite <- !app_assoc|]. rewrite !Forall_app. split_and!; try done.
    + apply (le_all k1 k2); [lia|done].
    + apply (lt_all k2 k); [lia|done].
  - cbn [rot_right]. assert (Ec : cut_left (Node k1 a b) = rank k1).
    { destruct b; [done|]. cbn [cut_left]. by rewrite bool_decide_eq_false_2. }
    rewrite Ec. pose proof (below_some b k1 k Hb Hlb). exists (elements a). cbn [elements]. split; [by rewrite <- !app_assoc|].
    rewrite !Forall_app. split_and!; try done. apply (lt_all k1 k); [lia|done].
Qed.

Lemma lost_false x k l r y : lost x (Node k l r) y = false ↔
  root_rotates x (Node k l r) = false ∨ (if bool_decide (x ≤ rank k) then ¬ cut_right r < y else ¬ y ≤ cut_left l).
Proof.
  unfold lost. rewrite andb_false_iff. case_bool_decide; rewrite bool_decide_eq_false; done.
Qed.

(** A rotation at the root loses a key. *)
Lemma some_element u : ∃ e, e ∈ elements u.
Proof. pose proof (elements_nonempty u). destruct (elements u) as [|e l]; [done|]. exists e. by left. Qed.

Lemma cut_right_le k a b : bst (Node k a b) → cut_right (Node k a b) ≤ rank k.
Proof.
  intros (_ & Ba & _ & Ha & _). destruct a as [|k2 a1 a2]; simpl; [lia|]. case_bool_decide; [|lia].
  destruct Ba as (_ & _ & _ & _ & H2). cbn [elements] in Ha. apply Forall_app in Ha as [_ Ha]. pose proof (below_some a2 k2 k H2 Ha). lia.
Qed.

Lemma cut_left_ge k a b : bst (Node k a b) → rank k ≤ cut_left (Node k a b).
Proof.
  intros (_ & _ & Bb & _ & Hb). destruct b as [|k2 b1 b2]; simpl; [lia|]. case_bool_decide; [|lia].
  destruct Bb as (_ & _ & _ & H1 & _). cbn [elements] in Hb. apply Forall_app in Hb as [Hb _]. pose proof (below_some b1 k k2 Hb H1). lia.
Qed.

Lemma root_rotates_lost x T : bst T → root_rotates x T = true → ∃ e, e ∈ elements T ∧ rank e.1 ≠ x ∧ lost x T (rank e.1) = true.
Proof.
  intros Hb Hx. unfold lost. rewrite Hx. destruct T as [|k l r]; [done|]. destruct Hb as (_ & Bl & Br & Hl & Hr). cbn [root_rotates elements] in *.
  rewrite Forall_forall in Hl, Hr. case_bool_decide as Hk.
  - destruct (removed x l) as [l'|]; [|done]. apply bool_decide_eq_true in Hx. destruct r as [|k1 a b]; [simpl in Hx; lia|].
    destruct (some_element b) as [e He]. exists e. assert (Hin : e ∈ elements (Node k1 a b)) by (simpl; apply elem_of_app; by right).
    specialize (Hr e Hin). split; [apply elem_of_app; by right|]. split; [lia|]. apply bool_decide_eq_true.
    pose proof (cut_right_le _ _ _ Br). destruct Br as (_ & _ & _ & _ & H2). rewrite Forall_forall in H2. specialize (H2 e He). lia.
  - destruct (removed x r) as [r'|]; [|done]. apply bool_decide_eq_true in Hx. destruct l as [|k1 a b]; [simpl in Hx; lia|].
    destruct (some_element a) as [e He]. exists e. assert (Hin : e ∈ elements (Node k1 a b)) by (simpl; apply elem_of_app; by left).
    specialize (Hl e Hin). split; [apply elem_of_app; by left|]. split; [lia|]. apply bool_decide_eq_true.
    pose proof (cut_left_ge _ _ _ Bl). destruct Bl as (_ & _ & _ & H1 & _). rewrite Forall_forall in H1. specialize (H1 e He). lia.
Qed.

(** The last step, at the root of [fill f t0], below which [t] is left. *)
Lemma root_balance_map f t t0 n key : path_balanced [f] n → shrunk n t → bst (fill f t) → fits [f] (key, 0) →
  removed (rank key) t0 = Some t →
  balanced (root_balance (fill f t)) ∧ bst (root_balance (fill f t)) ∧
  tree_map (root_balance (fill f t)) = filter (λ e, lost (rank key) (fill f t0) e.1 = false) (tree_map (fill f t)).
Proof.
  intros (H1 & H2 & H3 & _) Hg Hb [Hf _]%Forall_cons Hrem. simpl in Hf. pose proof (unbalanced_fill n f t Hg H1 H2 H3) as Hunb.
  unfold root_balance. case_bool_decide as Hbal.
  - split; [by apply (shrunk_fill n)|]. split; [done|]. symmetry. apply map_filter_id. intros y d _. cbn [fst].
    unfold fill in *. destruct (fleft f); apply lost_false; left; cbn [root_rotates].
    + rewrite bool_decide_eq_true_2, Hrem by done. apply bool_decide_eq_false_2. lia.
    + rewrite bool_decide_eq_false_2, Hrem by lia. apply bool_decide_eq_false_2. lia.
  - destruct (Hunb Hbal) as (Eft & En & _ & _ & _ & Hbd). split; [done|]. split; [by apply bst_demoted|].
    unfold fill in *. destruct (fleft f).
    + assert (Hhigh : 1 < bal (Node (fk f) t (ft f))) by (simpl in *; lia). destruct (demoted_right _ _ _ Hb Hhigh) as (l2 & E & L1 & L2).
      unfold tree_map. rewrite E. symmetry. etrans; [apply (map_filter_ext _ (λ e, ¬ cut_right (ft f) < e.1))|].
      2:{ rewrite <- (app_nil_l (_ ++ l2)). apply (filter_entries (λ y, ¬ cut_right (ft f) < y)); [done|..];
          (eapply Forall_impl; [eassumption|]; simpl; intros; lia). }
      intros y d _. cbn [fst]. rewrite lost_false. cbn [root_rotates]. rewrite bool_decide_eq_true_2, Hrem, bool_decide_eq_true_2 by done.
      split; [by intros [?|?]|by right].
    + assert (Hlow : bal (Node (fk f) (ft f) t) < -1) by (simpl in *; lia). destruct (demoted_left _ _ _ Hb Hlow) as (l1 & E & L1 & L2).
      unfold tree_map. rewrite E. symmetry. etrans; [apply (map_filter_ext _ (λ e, ¬ e.1 ≤ cut_left (ft f)))|].
      2:{ rewrite <- (app_nil_r (elements (demoted _))) at 1. apply (filter_entries (λ y, ¬ y ≤ cut_left (ft f))); [..|done];
          (eapply Forall_impl; [eassumption|]; simpl; intros; lia). }
      intros y d _. cbn [fst]. rewrite lost_false. cbn [root_rotates]. rewrite bool_decide_eq_false_2, Hrem, bool_decide_eq_true_2 by (done || lia).
      split; [by intros [?|?]|by right].
Qed.

(** The tree that [avl_delete] makes of the whole tree. *)
Lemma del_up_map f fs k d key n : fits (f :: fs) (key, 0) → path_balanced fs n → shrunk n (ft f) → bst (plug fs (ft f)) →
  balanced (del_up fs (ft f)) ∧ bst (del_up fs (ft f)) ∧
  tree_map (del_up fs (ft f)) = filter (λ e, lost (rank key) (plug (f :: fs) (Leaf k d)) e.1 = false) (tree_map (plug fs (ft f))).
Proof.
  intros Hf Hpb Hg Hb. destruct fs as [|f0 fs1 _] using rev_ind.
  - split; [apply Hg|]. split; [done|]. symmetry. apply map_filter_id. intros y e _. cbn [fst plug foldl].
    unfold fill. apply Forall_cons in Hf as [Hf _]. simpl in Hf. destruct (fleft f); apply lost_false; left; cbn [root_rotates].
    + by rewrite bool_decide_eq_true_2.
    + by rewrite bool_decide_eq_false_2 by lia.
  - destruct (del_rebuild_below fs1 [f0] (ft f) n Hpb Hg Hb) as (n' & Hpb' & Hg' & E & Hb').
    rewrite app_comm_cons in Hf. pose proof Hf as [Hf1 Hf0]%Forall_app.
    pose proof (removed_plug (f :: fs1) k d key Hf1) as Hr. cbn [app] in Hr.
    rewrite del_up_snoc, app_comm_cons, plug_snoc.
    destruct (root_balance_map f0 (del_rebuild fs1 (ft f)) _ n' key Hpb' Hg' Hb' Hf0 Hr) as (R1 & R2 & R3).
    split; [done|]. split; [done|]. rewrite R3. f_equal. unfold tree_map. by rewrite plug_snoc, !elements_fill, E.
Qed.
End search.

(** * Descending *)

Section descend.
Context (rank : Z → Z) (K : Z → Prop) (C : cenv) (item_cmp : cmp_fun) (c : Z → Z → cmp_result).
Context (Hcmp : compares C K rank item_cmp c).
Context (s0 : state) (HC : holds s0 C) (key : Z) (Hkey : K key).
Context (T : tree) (HT : bst rank K T) (Hbal : balanced T) (Hmax : (height T ≤ PATH_SIZE)%nat).
Context (Hroom : room s0 (4 * Z.of_nat (height T))).

(** What is known of the position reached after some iterations. *)
Record descended (fs : list frame) (p : Z) (t : tree) (s : state) : Prop := {
  dn_grow : grow s0 s (4 * Z.of_nat (length fs)) (path_cells fs p);
  dn_tree : is_avl C p t;
  dn_plug : plug fs t = T;
  dn_frames : frames_ok C fs (height t);
  dn_balanced : path_balanced fs (height t);
  dn_heights : Forall (λ f, (fh f ≤ height T)%nat) fs;
  dn_length : (length fs + height t ≤ height T)%nat;
  dn_fits : fits rank fs (key, 0)
}.

(** The comparison with some key failed; what was allocated is garbage. *)
Definition cmp_failed (s : state) : Prop :=
  (∃ k, K k ∧ c key k = CMP_ERROR) ∧ ∃ u cs, grow s0 s u cs.

Lemma wp_cmp k s u cs (Q : cmp_result → state → Prop) :
  grow s0 s u cs → K k → Q (c key k) s → wp (item_cmp key k) Q s.
Proof. intros HG Hk. by eapply wp_compare. Qed.

Lemma wp_internal s ct p low ws (Q : bool → state → Prop) :
  blk s p (header ct low :: ws) → 0 ≤ low < 2 ^ 24 →
  Q (bool_decide (ct = CELL_avl_internal)) s → wp (IS_INTERNAL_NODE p) Q s.
Proof.
  intros Hb Hlow HQ. apply wp_bind. eapply wp_CELL_TYPE; [exact Hb|done|].
  rewrite header_type by done. apply wp_ret.
  replace (bool_decide (Some ct = Some CELL_avl_internal)) with (bool_decide (ct = CELL_avl_internal));
    [done|]. apply bool_decide_ext. split; congruence.
Qed.

(** The keys of a subtree are known keys. *)
Lemma bst_node fs k l r : bst rank K (plug fs (Node k l r)) → K k.
Proof. intros H. apply (bst_plug_sub _ _ fs) in H. apply H. Qed.

Lemma wp_avl_descend fuel : ∀ t fs p s (Q : option (Z * path_t) → state → Prop),
  descended fs p t s → (height t < fuel)%nat →
  (∀ s', cmp_failed s' → Q None s') →
  (∀ fs' p' k d s', descended fs' p' (Leaf k d) s' → Q (Some (p', frames_path fs')) s') →
  wp (loop fuel (avl_descend_step key item_cmp) (p, frames_path fs)) Q s.
Proof.
  induction fuel as [|fuel IH]; intros t fs p s Q Hd Hfuel Herr HQ; [lia|].
  destruct Hd as [HG Ht Hplug Hfr Hpb Hhs Hlen Hfit]. cbn [loop]. apply wp_bind.
  unfold avl_descend_step. apply wp_bind. destruct t as [k d|k l r].
  - eapply wp_internal; [eapply grow_blk_old; [exact HG|exact HC|exact Ht]|done|].
    rewrite bool_decide_eq_false_2 by done. do 2 apply wp_ret. apply (HQ fs p k d). by split.
  - destruct Ht as (pl & pr & Hp & Hl & Hr).
    assert (Hlow : 0 ≤ Z.of_nat (height (Node k l r)) < 2 ^ 24).
    { unfold PATH_SIZE in Hmax. lia. }
    eapply wp_internal; [eapply grow_blk_old; [exact HG|exact HC|exact Hp]|done|].
    rewrite bool_decide_eq_true_2 by done.
    assert (Hr4 : room s0 (4 * Z.of_nat (length fs) + 4)).
    { simpl in Hlen. unfold room in *. lia. }
    wp_steps. unfold frames_path. rewrite bool_decide_eq_true_2 by (rewrite length_fmap; simpl in Hlen; lia).
    apply wp_ret. fold (frames_path fs).
    (* chain the new node to the previous one *)
    rewrite <- (app_nil_r (path_cells fs p)) in HG. apply (grow_shift _ _ _ [_]) in HG.
    apply wp_bind. eapply wp_link_path; [exact HG|]. clear HG. intros s2 HG.
    apply (grow_shift _ _ _ _ [_] []) in HG. rewrite app_nil_r in HG.
    replace (4 * Z.of_nat (length fs) + 4) with (4 * Z.of_nat (S (length fs))) in HG by lia.
    wp_steps. eapply wp_cmp; [exact HG|by eapply (bst_node fs); rewrite Hplug|].
    assert (Kk : K k) by (eapply (bst_node fs); by rewrite Hplug).
    case_bool_decide as Herrc.
    { do 2 apply wp_ret. apply Herr. split; eauto. }
    destruct (cmp_order _ _ _ _ _ Hcmp key k Hkey Kk) as [Hord|]; [|done]. rewrite Hord.
    simpl in Hlen, Hfuel, Hhs.
    assert (Hbt : balanced (Node k l r)) by (apply (balanced_plug_sub fs); by rewrite Hplug).
    destruct Hbt as (Bl & Br & H1 & H2).
    destruct (decide (rank key ≤ rank k)) as [Hkk|Hkk].
    + replace (bool_decide (order _ _ = CMP_LESS) || _) with true by (symmetry; by apply order_left).
      wp_steps. apply (IH l (mkFrame p0 true k pr r (S (height l `max` height r)) :: fs)); [|lia|done..].
      split; simpl; [exact HG|done|done| | |constructor; [simpl; lia|done]|lia|by constructor].
      * split_and!; [done|done|exact Hfr].
      * split_and!; done.
    + replace (bool_decide (order _ _ = CMP_LESS) || _) with false
        by (symmetry; apply not_true_iff_false; rewrite order_left; lia).
      wp_steps. apply (IH r (mkFrame p0 false k pl l (S (height l `max` height r)) :: fs)); [|lia|done..].
      split; simpl; [exact HG|done|done| | |constructor; [simpl; lia|done]|lia|constructor; [simpl; lia|done]].
      * split_and!; [done|simpl; by rewrite Nat.max_comm|exact Hfr].
      * split_and!; [done..|by rewrite Nat.max_comm].
Qed.
End descend.

(** * Sizes *)

(** The least number of items of a balanced tree of height [h]. *)
Fixpoint min_size_pair (h : nat) : Z * Z :=
  match h with
  | O => (1, 2)
  | S h' => let '(a, b) := min_size_pair h' in (b, a + b)
  end.
Definition min_size (h : nat) : Z := (min_size_pair h).1.

Lemma min_size_step h : min_size (S (S h)) = min_size (S h) + min_size h.
Proof. unfold min_size. simpl. destruct (min_size_pair h). simpl. lia. Qed.

Lemma min_size_pos h : 0 < min_size h ∧ min_size h < min_size (S h).
Proof.
  induction h as [|h IH]; [by vm_compute|]. rewrite min_size_step. lia.
Qed.

Lemma min_size_mono h h' : (h ≤ h')%nat → min_size h ≤ min_size h'.
Proof. induction 1 as [|h' _ IH]; [lia|]. pose proof (min_size_pos h'). lia. Qed.

Lemma balanced_size t : balanced t → min_size (height t) ≤ Z.of_nat (length (elements t)).
Proof.
  induction t as [k d|k l IHl r IHr]; [simpl; by vm_compute|]. intros (Hl & Hr & H1 & H2).
  cbn [height elements]. rewrite length_app. specialize (IHl Hl). specialize (IHr Hr).
  destruct (height l `max` height r)%nat as [|h] eqn:Em.
  { change (min_size 1) with 2. pose proof (min_size_pos (height l)). pose proof (min_size_pos (height r)). lia. }
  rewrite min_size_step.
  destruct (decide (height r ≤ height l)%nat).
  - assert (height l = S h) as E by lia. rewrite E in IHl.
    pose proof (min_size_mono h (height r) ltac:(lia)). lia.
  - assert (height r = S h) as E by lia. rewrite E in IHr.
    pose proof (min_size_mono h (height l) ltac:(lia)). lia.
Qed.

(** Fewer than [2^32] items: the height is at most 45, which fits [path]. *)
Definition MAX_HEIGHT : nat := 45.

Lemma height_bound t : balanced t → Z.of_nat (length (elements t)) < 2 ^ 32 →
  (height t ≤ MAX_HEIGHT)%nat.
Proof.
  intros Hb Hs. destruct (decide (height t ≤ MAX_HEIGHT)%nat); [done|].
  pose proof (balanced_size t Hb). pose proof (min_size_mono 46 (height t)) as Hm.
  unfold MAX_HEIGHT in *. change (min_size 46) with 4807526976 in Hm. lia.
Qed.

(** * Maps *)

Section maps.
Context (rank : Z → Z) (K : Z → Prop).

Definition entry (e : Z * Z) : Z * Z := (rank e.1, e.2).

Lemma not_in_ranks (x : Z) (l : list (Z * Z)) :
  Forall (λ e, rank e.1 ≠ x) l → x ∉ (entry <$> l).*1.
Proof.
  intros Hl Hx. apply list_elem_of_fmap in Hx as (e & -> & He).
  apply list_elem_of_fmap in He as (e' & -> & He'). rewrite Forall_forall in Hl. by apply (Hl e').
Qed.

(** An entry in the middle. *)
Lemma map_mid k d (L R : list (Z * Z)) :
  Forall (λ e, rank e.1 ≠ rank k) L →
  list_to_map (M := gmap Z Z) (entry <$> (L ++ (k, d) :: R)) =
    <[rank k := d]> (list_to_map (entry <$> (L ++ R))).
Proof.
  intros HL%not_in_ranks. rewrite !fmap_app, !list_to_map_app. cbn [fmap list_fmap list_to_map entry fst snd].
  rewrite insert_union_r; [done|]. by apply not_elem_of_list_to_map_1.
Qed.

Lemma map_absent x (l : list (Z * Z)) :
  Forall (λ e, rank e.1 ≠ x) l → list_to_map (M := gmap Z Z) (entry <$> l) !! x = None.
Proof. intros H%not_in_ranks. by apply not_elem_of_list_to_map_1. Qed.

(** Everything off the path to [key] is on the right side of it. *)
Lemma ctx_fits fs t key : bst rank K (plug fs t) → fits rank fs (key, 0) →
  Forall (λ e, rank e.1 < rank key) (ctx_left fs) ∧
  Forall (λ e, rank key < rank e.1) (ctx_right fs).
Proof.
  revert t. induction fs as [|f fs IH]; intros t Hb Hf; [done|].
  apply Forall_cons in Hf as [Hf1 Hf]. pose proof Hb as Hb1.
  apply (bst_plug_sub _ _ fs (fill f t)) in Hb1. destruct (IH _ Hb Hf) as [HL HR].
  cbn [ctx_left ctx_right]. rewrite !Forall_app. simpl in Hf1.
  unfold fill in Hb1. destruct (fleft f); simpl in Hb1; destruct Hb1 as (_ & _ & _ & H1 & H2);
    split_and!; try done; (eapply Forall_impl; [eassumption|]; simpl; intros; lia).
Qed.

Section position.
Context (fs : list frame) (k d key : Z).
Context (Hbst : bst rank K (plug fs (Leaf k d))) (Hfit : fits rank fs (key, 0)).

Lemma ctx_ne : Forall (λ e, rank e.1 ≠ rank key) (ctx_left fs) ∧
  Forall (λ e, rank e.1 ≠ rank key) (ctx_right fs).
Proof.
  destruct (ctx_fits fs _ key Hbst Hfit) as [HL HR].
  split; (eapply Forall_impl; [eassumption|]; simpl; intros; lia).
Qed.

Lemma tree_map_plug t :
  tree_map rank (plug fs t) = list_to_map (entry <$> (ctx_left fs ++ elements t ++ ctx_right fs)).
Proof. unfold tree_map. by rewrite elements_plug. Qed.

(** Looking up the key of the descent. *)
Lemma tree_map_lookup :
  tree_map rank (plug fs (Leaf k d)) !! rank key = if bool_decide (rank k = rank key) then Some d else None.
Proof.
  destruct ctx_ne as [HL HR]. rewrite tree_map_plug. cbn [elements app].
  case_bool_decide as E.
  - rewrite map_mid; [|by rewrite E]. rewrite E. apply lookup_insert_eq.
  - apply map_absent. rewrite Forall_app. split; [done|]. by constructor.
Qed.

(** The leaf's own entry. *)
Lemma tree_map_leaf : tree_map rank (plug fs (Leaf k d)) !! rank k = Some d.
Proof.
  assert (H : ∀ fs t, bst rank K (plug fs t) → ∀ x e, x ∈ elements t →
    (e ∈ ctx_left fs ∨ e ∈ ctx_right fs) → rank e.1 ≠ rank x.1).
  { clear. induction fs as [|f fs IH]; intros t Hb x e Hx He; [set_solver|].
    pose proof Hb as Hb1. apply (bst_plug_sub _ _ fs (fill f t)) in Hb1.
    assert (Hfx : x ∈ elements (fill f t)).
    { rewrite elements_fill, !elem_of_app. tauto. }
    specialize (IH _ Hb x e Hfx). cbn [ctx_left ctx_right] in He. rewrite !elem_of_app in He.
    assert (Hside : e ∈ elements (ft f) → rank e.1 ≠ rank x.1).
    { intros Hin. unfold fill in Hb1. destruct (fleft f); simpl in Hb1;
        destruct Hb1 as (_ & _ & _ & H1 & H2); rewrite Forall_forall in H1, H2.
      - specialize (H1 x Hx). specialize (H2 e Hin). lia.
      - specialize (H1 e Hin). specialize (H2 x Hx). lia. }
    destruct (fleft f); destruct He as [[?|?]|[?|?]]; try tauto; set_solver. }
  rewrite tree_map_plug. cbn [elements app]. rewrite map_mid; [apply lookup_insert_eq|].
  apply Forall_forall. intros e He. apply (H fs (Leaf k d) Hbst (k, d) e); [set_solver|by left].
Qed.

(** Replacing the leaf of the same rank. *)
Lemma tree_map_update d' : rank k = rank key →
  tree_map rank (plug fs (Leaf key d')) = <[rank key := d']> (tree_map rank (plug fs (Leaf k d))).
Proof.
  intros E. destruct ctx_ne as [HL HR]. rewrite !tree_map_plug. cbn [elements app].
  rewrite !map_mid by (rewrite ?E; done). rewrite E. by rewrite insert_insert_eq.
Qed.

(** Adding a leaf beside it. *)
Lemma tree_map_add d' t : rank k ≠ rank key →
  elements t = (if bool_decide (rank key < rank k) then [(key, d'); (k, d)] else [(k, d); (key, d')]) →
  tree_map rank (plug fs t) = <[rank key := d']> (tree_map rank (plug fs (Leaf k d))).
Proof.
  intros Hne E. destruct ctx_ne as [HL HR]. rewrite !tree_map_plug, E. case_bool_decide.
  - cbn [elements app]. by rewrite map_mid.
  - cbn [elements app].
    replace (ctx_left fs ++ (k, d) :: (key, d') :: ctx_right fs)
      with ((ctx_left fs ++ [(k, d)]) ++ (key, d') :: ctx_right fs) by by rewrite <- app_assoc.
    rewrite map_mid; [by rewrite <- app_assoc|].
    apply Forall_app. split; [done|]. by constructor.
Qed.

(** Taking it away. *)
Lemma tree_map_remove t : rank k = rank key → elements t = [] ++ ctx_left fs ++ ctx_right fs →
  tree_map rank t = delete (rank key) (tree_map rank (plug fs (Leaf k d))).
Proof.
  intros E Et. destruct ctx_ne as [HL HR]. rewrite tree_map_plug. unfold tree_map. rewrite Et.
  cbn [elements app]. rewrite map_mid by (by rewrite E). rewrite E, delete_insert_id; [done|].
  apply map_absent. by apply Forall_app.
Qed.
End position.

(** A search tree has one item for every key of its map. *)
Lemma bst_NoDup t : bst rank K t → NoDup (rank ∘ fst <$> elements t).
Proof.
  induction t as [k d|k l IHl r IHr]; simpl; [intros _; apply NoDup_singleton|].
  intros (_ & Hl & Hr & H1 & H2). rewrite fmap_app. apply NoDup_app.
  split; [by apply IHl|]. split; [|by apply IHr].
  intros x Hx1 Hx2. apply list_elem_of_fmap in Hx1 as (e1 & -> & He1), Hx2 as (e2 & E & He2).
  rewrite Forall_forall in H1, H2. specialize (H1 _ He1). specialize (H2 _ He2). simpl in E. lia.
Qed.

Lemma tree_map_size t : bst rank K t → size (tree_map rank t) = length (elements t).
Proof.
  intros H%bst_NoDup. unfold tree_map. rewrite map_size_list_to_map; [by rewrite length_fmap|].
  by rewrite <- list_fmap_compose.
Qed.
End maps.

(** * The operations *)

(** The AVL tree at [root] represents the finite map [m] from ranks of keys to
    data. *)
Definition avl_repr (rank : Z → Z) (K : Z → Prop) (C : cenv) (root : Z) (m : gmap Z Z) : Prop :=
  (root = NULL_PTR ∧ m = ∅) ∨
  ∃ t, is_avl C root t ∧ balanced t ∧ bst rank K t ∧ m = tree_map rank t ∧
    Z.of_nat (length (elements t)) < 2 ^ 32.

Section operations.
Context (rank : Z → Z) (K : Z → Prop) (C : cenv) (item_cmp : cmp_fun) (c : Z → Z → cmp_result).
Context (Hcmp : compares C K rank item_cmp c).
Context (fuel : nat) (Hfuel : (MAX_HEIGHT < fuel)%nat).

(** Starting the descent at the root. *)
Lemma wp_avl_descend_root s0 key T p (Q : option (Z * path_t) → state → Prop) :
  holds s0 C → wf s0 → K key → is_avl C p T → balanced T → bst rank K T →
  (height T ≤ MAX_HEIGHT)%nat → room s0 (4 * Z.of_nat MAX_HEIGHT) →
  (∀ s', cmp_failed K c s0 key s' → Q None s') →
  (∀ fs' p' k d s', descended rank C s0 key T fs' p' (Leaf k d) s' →
    Q (Some (p', frames_path fs')) s') →
  wp (loop fuel (avl_descend_step key item_cmp) (p, [])) Q s0.
Proof.
  intros HC Hw Hkey Ht Hb Hbst Hh Hr Herr HQ.
  eapply (wp_avl_descend rank K C item_cmp c Hcmp s0 HC key Hkey T Hbst Hb) with (fs := []) (t := T);
    [unfold MAX_HEIGHT, PATH_SIZE in *; lia|unfold room in *; lia| |lia|done|done].
  split; simpl; [by apply grow_refl|done..|by constructor|lia|by constructor].
Qed.

Lemma avl_repr_nonnull s root m : holds s C → avl_repr rank K C root m → root ≠ NULL_PTR →
  ∃ t, is_avl C root t ∧ balanced t ∧ bst rank K t ∧ m = tree_map rank t ∧
    (height t ≤ MAX_HEIGHT)%nat ∧ Z.of_nat (length (elements t)) < 2 ^ 32.
Proof.
  intros HC [[-> _]|(t & Ht & Hb & Hbst & Hm & Hs)] Hne; [done|].
  exists t. split_and!; try done. by apply height_bound.
Qed.

Lemma wp_avl_find s root m key (Q : Z → state → Prop) :
  holds s C → K key → avl_repr rank K C root m → (∀ b, K b → c key b ≠ CMP_ERROR) →
  Q (default NULL_PTR (m !! rank key)) s →
  wp (avl_find fuel root key item_cmp) Q s.
Proof.
  intros HC Hkey Hrepr Hnoerr HQ. unfold avl_find. case_bool_decide as Hnull.
  { destruct Hrepr as [[_ ->]|(t & Ht & _)]; [by apply wp_ret|].
    apply (is_avl_pos _ _ _ _ HC) in Ht. unfold NULL_PTR in *. lia. }
  destruct (avl_repr_nonnull _ _ _ HC Hrepr Hnull) as (T & HT & Hb & Hbst & -> & Hh & _).
  apply wp_bind.
  assert (Hc : ∀ b, K b → ∀ Q' : cmp_result → state → Prop, Q' (order (rank key) (rank b)) s →
    wp (item_cmp key b) Q' s).
  { intros b Kb Q' HQ'. eapply wp_run; [by apply (cmp_run _ _ _ _ _ Hcmp)|].
    destruct (cmp_order _ _ _ _ _ Hcmp key b Hkey Kb) as [->|E]; [done|].
    by destruct (Hnoerr b Kb). }
  assert (Hloop : ∀ fuel t fs p Q', is_avl C p t → plug fs t = T → fits rank fs (key, 0) →
    (height t ≤ MAX_HEIGHT)%nat → (height t < fuel)%nat →
    (∀ fs' p' k d, plug fs' (Leaf k d) = T → fits rank fs' (key, 0) →
      is_avl C p' (Leaf k d) → Q' (Some p') s) →
    wp (loop fuel (avl_find_step key item_cmp) p) Q' s).
  { clear Hnull Hrepr HQ Q Hfuel fuel. induction fuel as [|fuel IH];
      intros t fs p Q' Ht Hplug Hfit Hht Hf HQ; [lia|].
    cbn [loop]. do 2 apply wp_bind. destruct t as [k d|k l r].
    - eapply wp_internal; [by apply HC|done|]. rewrite bool_decide_eq_false_2 by done.
      do 2 apply wp_ret. by eapply HQ.
    - destruct Ht as (pl & pr & Hp & Hl & Hr). simpl in Hht, Hf.
      eapply wp_internal; [by apply HC|unfold MAX_HEIGHT in *; simpl; lia|].
      rewrite bool_decide_eq_true_2 by done. wp_steps.
      assert (Kk : K k) by (eapply (bst_node _ _ fs); by rewrite Hplug).
      apply Hc; [done|].
      rewrite (bool_decide_eq_false_2 (_ = CMP_ERROR)) by (unfold order; by repeat case_bool_decide).
      destruct (decide (rank key ≤ rank k)) as [Hkk|Hkk].
      + replace (bool_decide (order _ _ = CMP_LESS) || _) with true by (symmetry; by apply order_left).
        wp_steps. eapply (IH l (mkFrame p true k pr r 0 :: fs)); [done|done|by constructor|lia..|done].
      + replace (bool_decide (order _ _ = CMP_LESS) || _) with false
          by (symmetry; apply not_true_iff_false; rewrite order_left; lia).
        wp_steps. eapply (IH r (mkFrame p false k pl l 0 :: fs)); [done|done| |lia..|done].
        constructor; [simpl; lia|done]. }
  eapply (Hloop fuel T [] root); [done|done|by constructor|done|lia|].
  intros fs p k d Hplug Hfit Hp. subst T. cbn [is_avl] in Hp. wp_steps.
  assert (Kk : K k) by apply (bst_plug_sub _ _ fs _ Hbst).
  apply Hc; [done|]. rewrite (tree_map_lookup _ _ _ _ _ _ Hbst Hfit) in HQ.
  replace (bool_decide (order _ _ = CMP_EQUAL)) with (bool_decide (rank k = rank key)).
  - case_bool_decide; simpl; [by wp_steps|by apply wp_ret].
  - apply bool_decide_ext. unfold order. repeat case_bool_decide; split; (lia || done).
Qed.

(** The least key's data. *)
Lemma wp_avl_find_min s p t (Q : Z → state → Prop) :
  holds s C → is_avl C p t → balanced t → (height t ≤ MAX_HEIGHT)%nat →
  (∀ k d l, elements t = (k, d) :: l → Q d s) → wp (avl_find_min fuel p) Q s.
Proof.
  intros HC Ht Hb Hh HQ. unfold avl_find_min.
  rewrite bool_decide_eq_false_2 by (apply (is_avl_pos _ _ _ _ HC) in Ht; unfold NULL_PTR; lia).
  apply wp_bind. clear Hb. assert (Hf : (height t < fuel)%nat) by lia. clear Hfuel.
  revert t p Ht Hh HQ Hf. induction fuel as [|n IH]; intros t p Ht Hh HQ Hf; [lia|].
  cbn [loop]. do 2 apply wp_bind. destruct t as [k d|k l r].
  - eapply wp_internal; [by apply HC|done|]. rewrite bool_decide_eq_false_2 by done.
    do 2 apply wp_ret. cbn [is_avl] in Ht. wp_steps. by eapply HQ.
  - destruct Ht as (pl & pr & Hp & Hl & Hr). simpl in Hh, Hf.
    eapply wp_internal; [by apply HC|unfold MAX_HEIGHT in *; simpl; lia|].
    rewrite bool_decide_eq_true_2 by done. wp_steps.
    apply (IH l); [done|lia| |lia]. intros k' d' l' E. apply (HQ k' d' (l' ++ elements r)).
    simpl. by rewrite E.
Qed.

(** The data that [avl_insert] passes to [update_fun]: the key's data if the
    key is there, otherwise that of some other key, or [NULL_PTR] if there is
    none. *)
Definition old_data (m : gmap Z Z) (x old : Z) : Prop :=
  match m !! x with
  | Some d => old = d
  | None => (m = ∅ ∧ old = NULL_PTR) ∨ ∃ y, m !! y = Some old
  end.

(** The results of [avl_insert]; [n] is the number of words allocated. *)
Inductive insert_result (root : Z) (m : gmap Z Z) (key : Z) (g : option (Z → Z → Z)) (data : Z)
    (r n : Z) (C' : cenv) : Prop :=
| insert_failed k :
    K k → c key k = CMP_ERROR → r = root → n = 0 → insert_result root m key g data r n C'
| insert_unchanged d :
    m !! rank key = Some d → updated g d data = d → r = root → n = 0 →
    insert_result root m key g data r n C'
| insert_done old :
    old_data m (rank key) old → m !! rank key ≠ Some (updated g old data) →
    avl_repr rank K C' r (<[rank key := updated g old data]> m) →
    insert_result root m key g data r n C'.

Lemma path_empty fs : bool_decide (frames_path fs = []) = bool_decide (fs = []).
Proof. apply bool_decide_ext. unfold frames_path. split; [apply fmap_nil_inv|by intros ->]. Qed.

Lemma path_root_top fs q : fs ≠ [] → path_root (frames_path fs) = top_of fs q.
Proof.
  intros Hne. unfold path_root, top_of, frames_path. rewrite fmap_last.
  destruct (last fs) as [f|] eqn:E; [done|]. by apply last_None in E.
Qed.

(** The new node for two keys. *)
Definition two_leaves (k d key data : Z) : tree :=
  if bool_decide (rank key < rank k) then Node key (Leaf key data) (Leaf k d)
  else Node k (Leaf k d) (Leaf key data).

Lemma two_leaves_ok k d key data : K k → K key → rank k ≠ rank key →
  bst rank K (two_leaves k d key data) ∧ grown 0 (two_leaves k d key data) ∧
  elements (two_leaves k d key data) =
    (if bool_decide (rank key < rank k) then [(key, data); (k, d)] else [(k, d); (key, data)]).
Proof.
  intros Kk Kkey Hne. unfold two_leaves. case_bool_decide; simpl.
  all: split_and!; try done; try (apply Forall_singleton; simpl; lia).
  all: split; [simpl; split_and!; done || lia|right; split; [done|by left]].
Qed.

Section insert.
Context (s0 : state) (root key data : Z) (m : gmap Z Z) (g : option (Z → Z → Z)).
Context (HC : holds s0 C) (Hw : wf s0) (Hkey : K key).
Context (Hsize : Z.of_nat (size m) + 1 < 2 ^ 32).
Context (Hroom : room s0 AVL_MAX_ALLOCATION_IN_INSERT).

Definition insert_post (r : Z) (s' : state) : Prop :=
  ∃ u cs, 0 ≤ u ≤ AVL_MAX_ALLOCATION_IN_INSERT ∧ grow s0 s' u cs ∧
    insert_result root m key g data r u (adds C cs).

(** Giving up. *)
Lemma wp_insert_restore s u cs :
  grow s0 s u cs → (∀ cs', insert_result root m key g data root 0 cs') →
  wp (restore_allocation_point (first_generation_allocation_ptr s0);; mret root) insert_post s.
Proof.
  intros HG Hres. apply wp_bind. eapply wp_restore; [done|exact HG|].
  intros s' HG'. apply wp_ret. exists 0, []. split; [vm_compute; split; discriminate|]. done.
Qed.

(** Any tree that carries the updated map. *)
Lemma insert_done_tree r n t cs old :
  old_data m (rank key) old → m !! rank key ≠ Some (updated g old data) →
  is_avl (adds C cs) r t → balanced t → bst rank K t →
  tree_map rank t = <[rank key := updated g old data]> m →
  insert_result root m key g data r n (adds C cs).
Proof.
  intros Ho Hne Ht Hb Hbst Em. eapply insert_done; [exact Ho|exact Hne|]. right. exists t.
  split_and!; try done.
  rewrite <- (tree_map_size rank K) by done. rewrite Em.
  rewrite map_size_insert. destruct (m !! rank key); simpl; lia.
Qed.

(** The position found, and what it says of the map. *)
Context (fs : list frame) (p k d : Z) (T : tree) (HT : m = tree_map rank T).
Context (HbT : balanced T) (HbstT : bst rank K T) (HhT : (height T ≤ MAX_HEIGHT)%nat).
Context (s : state) (Hd : descended rank C s0 key T fs p (Leaf k d) s).

Lemma found_leaf : is_avl C p (Leaf k d) ∧ K k ∧ plug fs (Leaf k d) = T ∧
  fits rank fs (key, 0) ∧ bst rank K (plug fs (Leaf k d)) ∧
  m !! rank key = (if bool_decide (rank k = rank key) then Some d else None) ∧
  Forall (λ f, Z.of_nat (fh f) < 2 ^ 20) fs ∧ (length fs ≤ MAX_HEIGHT)%nat.
Proof.
  destruct Hd as [HG Ht Hplug Hfr Hpb Hhs Hlen Hfit]. simpl in Hlen.
  assert (Hb : bst rank K (plug fs (Leaf k d))) by by rewrite Hplug.
  split_and!; try done.
  - apply (bst_plug_sub _ _ fs _ Hb).
  - rewrite HT, <- Hplug. by eapply tree_map_lookup.
  - eapply Forall_impl; [exact Hhs|]. unfold MAX_HEIGHT in *. simpl. intros f. lia.
  - lia.
Qed.

(** Replacing the leaf. *)
Lemma wp_insert_replace : rank k = rank key → updated g d data ≠ d →
  wp (p ← allocate 3 CELL_avl_leaf; wr p 1 key;; wr p 2 (updated g d data);;
      if bool_decide (frames_path fs = []) then mret p
      else link_path (frames_path fs) p;; mret (path_root (frames_path fs))) insert_post s.
Proof.
  intros E Hne. destruct found_leaf as (Hp & Kk & Hplug & Hfit & Hbst & Hlook & Hmax & Hlen).
  rewrite bool_decide_eq_true_2 in Hlook by done.
  destruct Hd as [HG Ht _ Hfr Hpb Hhs _ _]. rewrite path_empty.
  unfold AVL_MAX_ALLOCATION_IN_INSERT, MAX_HEIGHT in *.
  wp_steps. rewrite <- (app_nil_r (path_cells fs p)) in HG. apply (grow_shift _ _ _ [_]) in HG.
  assert (Hend : wp (if bool_decide (frames_path fs = []) then mret p0
      else link_path (frames_path fs) p0;; mret (top_of fs p)) insert_post s1).
  { eapply (wp_finish_path C _ _ _ _ _ _ (Leaf key (updated g d data)));
      [done|exact HG|solve_cell|exact Hfr|].
    intros q s' new HG' Hq. eexists _, new. split; [|split; [exact HG'|]].
    { unfold AVL_MAX_ALLOCATION_IN_INSERT. lia. }
    assert (HbstN : bst rank K (plug fs (Leaf key (updated g d data)))).
    { eapply bst_plug; [exact Hbst|done|]. intros e He. simpl in He.
      apply list_elem_of_singleton in He as ->. by right. }
    eapply (insert_done_tree _ _ _ _ d); [| |exact Hq| |exact HbstN|].
    - unfold old_data. by rewrite Hlook.
    - rewrite Hlook. congruence.
    - eapply balanced_plug; [exact Hpb|done|done].
    - rewrite (tree_map_update _ _ _ _ _ _ Hbst Hfit) by done. by rewrite HT, Hplug. }
  rewrite path_empty in Hend. destruct (decide (fs = [])) as [Hnil|Hnil].
  - rewrite bool_decide_eq_true_2 in * by done. exact Hend.
  - rewrite bool_decide_eq_false_2 in * by done. by rewrite (path_root_top _ p).
Qed.

(** What [update_fun] gets for an absent key is some other key's data. *)
Lemma old_data_absent : rank k ≠ rank key → old_data m (rank key) d.
Proof.
  intros Hne. destruct found_leaf as (_ & _ & Hplug & Hfit & Hbst & Hlook & _).
  rewrite bool_decide_eq_false_2 in Hlook by done. unfold old_data. rewrite Hlook. right.
  exists (rank k). rewrite HT, <- Hplug. by eapply tree_map_leaf.
Qed.

(** The node with the old leaf and the new one, chained to the path. *)
Lemma wp_insert_link s1 u q t cs (Q : Z → state → Prop) :
  grow s0 s1 u (cs ++ path_cells fs p) → is_avl (adds C cs) q t → grown 0 t →
  t = two_leaves k d key data → rank k ≠ rank key → room s0 (u + 8) →
  (∀ r s' u' new t', u ≤ u' ≤ u + 8 → grow s0 s' u' new → is_avl (adds C new) r t' →
    balanced t' → bst rank K t' → tree_map rank t' = <[rank key := data]> m → Q r s') →
  wp (if bool_decide (frames_path fs = []) then mret q
      else link_path (frames_path fs) q;;
           avl_insert_up (path_root (frames_path fs)) (frames_path fs)) Q s1.
Proof.
  intros HG Hq Hg Et Hne Hr HQ. destruct found_leaf as (Hp & Kk & Hplug & Hfit & Hbst & _ & Hmax & _).
  destruct Hd as [_ Ht _ Hfr Hpb _ _ _].
  destruct (two_leaves_ok k d key data Kk Hkey Hne) as (Hb2 & _ & He2). rewrite <- Et in Hb2, He2.
  rewrite <- (app_nil_r (path_cells fs p)) in HG. apply grow_shift in HG. rewrite app_nil_r in HG.
  assert (HbstN : bst rank K (plug fs t)).
  { eapply bst_plug; [exact Hbst|done|]. rewrite He2. intros e He.
    assert (e = (k, d) ∨ e = (key, data)) as [->| ->]
      by (revert He; case_bool_decide; rewrite !elem_of_cons, elem_of_nil; tauto).
    - left. by left.
    - by right. }
  destruct (ins_up_correct rank K fs t 0 Hpb Hg HbstN) as (Hel & Hbal & Hbst').
  assert (Hmap : tree_map rank (ins_up fs t) = <[rank key := data]> m).
  { unfold tree_map at 1. rewrite Hel. change (tree_map rank (plug fs t) = <[rank key := data]> m).
    rewrite (tree_map_add _ _ _ _ _ _ Hbst Hfit data t Hne He2). by rewrite HT, Hplug. }
  rewrite path_empty. destruct (decide (fs = [])) as [Hnil|Hnil].
  - rewrite bool_decide_eq_true_2 by done. apply wp_ret.
    rewrite Hnil in HG, Hbal, Hbst', Hmap. cbn [path_cells app ins_up] in *.
    eapply HQ; [|exact HG|exact Hq|done..]. lia.
  - rewrite bool_decide_eq_false_2 by done. rewrite (path_root_top _ q) by done.
    apply wp_bind. eapply wp_link_path; [exact HG|]. clear HG. intros s2 HG.
    eapply (wp_avl_insert_up C s0 HC); [exact HG|exact Hq|exact Hfr|exact Hpb|exact Hg|exact Hmax|exact Hr|].
    intros r s' u' new Hu HG' Hr'. eapply HQ; [exact Hu|exact HG'|exact Hr'|done..].
Qed.
End insert.

Lemma wp_avl_insert s0 root key data m f g :
  holds s0 C → wf s0 → K key → Z.of_nat (size m) + 1 < 2 ^ 32 →
  room s0 AVL_MAX_ALLOCATION_IN_INSERT → avl_repr rank K C root m → pure_update C f g →
  wp (avl_insert fuel root key item_cmp f data) (insert_post s0 root key data m g) s0.
Proof.
  intros HC Hw Hkey Hsize Hroom Hrepr Hg. unfold avl_insert.
  assert (Hf : ∀ a s, holds s C → wp (match f with Some f => f a data | None => mret data end)
    (λ r s', r = updated g a data ∧ s' = s) s).
  { intros a s HCs. destruct f as [f|]; [by eapply wp_update|]. by destruct g. }
  wp_step. wp_step. case_bool_decide as Hnull.
  { destruct Hrepr as [[-> ->]|(t & Ht & _)].
    2: { apply (is_avl_pos _ _ _ _ HC) in Ht. unfold NULL_PTR in *. lia. }
    apply wp_bind. eapply wp_mono; [by apply Hf|]. intros r ? [-> ->].
    pose proof (grow_refl s0 Hw) as HG. unfold AVL_MAX_ALLOCATION_IN_INSERT in Hroom. wp_steps.
    eexists _, _. split; [|split; [exact HG|]]; [vm_compute; split; discriminate|].
    eapply (insert_done_tree _ _ _ _ _ Hsize _ _ (Leaf key (updated g NULL_PTR data)));
      [by left| |solve_cell|done|done|done].
    by rewrite lookup_empty. }
  destruct (avl_repr_nonnull _ _ _ HC Hrepr Hnull) as (T & HT & Hb & Hbst & Em & Hh & _).
  apply wp_bind. eapply wp_avl_descend_root; [done..| | |].
  { unfold MAX_HEIGHT, AVL_MAX_ALLOCATION_IN_INSERT, room in *. lia. }
  { intros s' ((k & Kk & Hck) & u & cs & HG). eapply wp_insert_restore; [done..|].
    intros cs'. by eapply insert_failed. }
  intros fs p k d s Hd.
  destruct (found_leaf _ _ _ _ _ _ _ _ Em Hbst Hh _ Hd)
    as (Hp & Kk & Hplug & Hfit & Hbst' & Hlook & Hmax & Hlen).
  pose proof (dn_grow _ _ _ _ _ _ _ _ _ Hd) as HG. cbn [is_avl] in Hp.
  wp_steps. eapply wp_cmp; [done..|]. destruct (decide (c key k = CMP_ERROR)) as [Herr|Herr].
  { rewrite bool_decide_eq_true_2 by done. eapply wp_insert_restore; [done..|].
    intros cs'. by eapply insert_failed. }
  rewrite bool_decide_eq_false_2 by done.
  destruct (cmp_order _ _ _ _ _ Hcmp key k Hkey Kk) as [Hord|]; [|done].
  rewrite Hord.
  assert (HCs : holds s C) by (eapply holds_ext, HC; apply HG).
  apply wp_bind. eapply (wp_mono _ (λ r s', r = updated g d data ∧ s' = s)).
  { destruct f as [f|]; [|by destruct g]. wp_steps. by eapply wp_update. }
  intros r ? [-> ->].
  destruct (decide (rank key = rank k)) as [E|E].
  - rewrite bool_decide_eq_true_2 by by rewrite order_eq.
    rewrite bool_decide_eq_true_2 in Hlook by done. wp_steps. case_bool_decide as Hsame.
    + eapply wp_insert_restore; [done..|]. intros cs'. by eapply insert_unchanged.
    + by eapply wp_insert_replace.
  - rewrite bool_decide_eq_false_2 by by rewrite order_eq.
    rewrite bool_decide_eq_false_2 in Hlook by done.
    unfold AVL_MAX_ALLOCATION_IN_INSERT, MAX_HEIGHT in *. wp_steps.
    rewrite header_lor in HG by done.
    destruct (two_leaves_ok k d key (updated g d data) Kk Hkey ltac:(done)) as (_ & Hgr & _).
    assert (Hend : ∀ s2 cs, grow s0 s2 (4 * Z.of_nat (length fs) + 3 + 4) (cs ++ path_cells fs p) →
      is_avl (adds C cs) p1 (two_leaves k d key (updated g d data)) →
      wp (if bool_decide (frames_path fs = []) then mret p1
          else link_path (frames_path fs) p1;;
               avl_insert_up (path_root (frames_path fs)) (frames_path fs))
        (insert_post s0 root key data m g) s2).
    { intros s2 cs HG2 Hq. eapply (wp_insert_link s0 key (updated g d data) m); [done..|exact HG2|exact Hq|exact Hgr|done|done| |].
      { unfold room in *. lia. }
      intros r s' u' new t' Hu HG' Hr Hbal Hbst2 Hmap. exists u', new.
      split; [unfold AVL_MAX_ALLOCATION_IN_INSERT; lia|]. split; [exact HG'|].
      eapply (insert_done_tree _ _ _ _ _ Hsize); [|by rewrite Hlook|exact Hr|done|done|exact Hmap].
      eapply old_data_absent; done. }
    unfold two_leaves in Hend.
    replace (bool_decide (order _ _ = CMP_LESS)) with (bool_decide (rank key < rank k))
      by (apply bool_decide_ext; by rewrite order_less).
    case_bool_decide; wp_steps; (eapply (Hend _ [_; _]); [exact HG|]).
    + exists p0, p. split; [solve_cell|]. split; [solve_cell|by left].
    + exists p, p0. split; [solve_cell|]. split; [by left|solve_cell].
Qed.

(** ** Deletion *)

(** The results of [avl_delete].  When a key is removed and a rotation takes place at
    the root, the keys on the other side of the cut are missing too; otherwise no other
    key is. *)
Inductive delete_result (root : Z) (m : gmap Z Z) (key : Z) (g : option (Z → Z → Z)) (data : Z)
    (r n : Z) (C' : cenv) : Prop :=
| delete_failed k :
    K k → c key k = CMP_ERROR → r = root → n = 0 → delete_result root m key g data r n C'
| delete_absent :
    m !! rank key = None → r = root → n = 0 → delete_result root m key g data r n C'
| delete_unchanged h d :
    g = Some h → m !! rank key = Some d → h d data = d → r = root → n = 0 →
    delete_result root m key g data r n C'
| delete_updated h d :
    g = Some h → m !! rank key = Some d → h d data ≠ d →
    avl_repr rank K C' r (<[rank key := h d data]> m) →
    delete_result root m key g data r n C'
| delete_removed d T :
    g = None → m !! rank key = Some d → is_avl C root T → balanced T → bst rank K T → m = tree_map rank T →
    avl_repr rank K C' r (filter (λ e, lost rank (rank key) T e.1 = false) (delete (rank key) m)) →
    delete_result root m key g data r n C'.

Section delete.
Context (s0 : state) (root key data : Z) (m : gmap Z Z) (g : option (Z → Z → Z)).
Context (HC : holds s0 C) (Hw : wf s0) (Hkey : K key).
Context (Hsize : Z.of_nat (size m) < 2 ^ 32).
Context (Hroom : room s0 AVL_MAX_ALLOCATION_IN_DELETE).

Definition delete_post (r : Z) (s' : state) : Prop :=
  ∃ u cs, 0 ≤ u ≤ AVL_MAX_ALLOCATION_IN_DELETE ∧ grow s0 s' u cs ∧
    delete_result root m key g data r u (adds C cs).

Lemma wp_delete_restore s u cs :
  grow s0 s u cs → (∀ cs', delete_result root m key g data root 0 cs') →
  wp (restore_allocation_point (first_generation_allocation_ptr s0);; mret root) delete_post s.
Proof.
  intros HG Hres. apply wp_bind. eapply wp_restore; [done|exact HG|].
  intros s' HG'. apply wp_ret. exists 0, []. split; [vm_compute; split; discriminate|]. done.
Qed.

Lemma avl_repr_tree C' r t : is_avl C' r t → balanced t → bst rank K t →
  (size (tree_map rank t) ≤ size m)%nat → avl_repr rank K C' r (tree_map rank t).
Proof.
  intros Ht Hb Hbst Hs. right. exists t. split_and!; try done.
  rewrite <- (tree_map_size rank K) by done. lia.
Qed.

Context (fs : list frame) (p k d : Z) (T : tree) (HT : m = tree_map rank T).
Context (HrT : is_avl C root T).
Context (HbT : balanced T) (HbstT : bst rank K T) (HhT : (height T ≤ MAX_HEIGHT)%nat).
Context (s : state) (Hd : descended rank C s0 key T fs p (Leaf k d) s).
Context (Hrank : rank k = rank key).

(** Replacing the leaf. *)
Lemma wp_delete_replace h : g = Some h → h d data ≠ d →
  wp (new_p ← allocate 3 CELL_avl_leaf; k ← rd p 1; wr new_p 1 k;; wr new_p 2 (h d data);;
      if bool_decide (frames_path fs = []) then mret new_p
      else link_path (frames_path fs) new_p;; mret (path_root (frames_path fs))) delete_post s.
Proof.
  intros Eg Hne. destruct (found_leaf s0 key m fs p k d T HT HbstT HhT s Hd)
    as (Hp & Kk & Hplug & Hfit & Hbst & Hlook & Hmax & Hlen).
  rewrite bool_decide_eq_true_2 in Hlook by done. cbn [is_avl] in Hp.
  destruct Hd as [HG Ht _ Hfr Hpb Hhs _ _].
  unfold AVL_MAX_ALLOCATION_IN_DELETE, MAX_HEIGHT in *.
  wp_steps. rewrite <- (app_nil_r (path_cells fs p)) in HG. apply (grow_shift _ _ _ [_]) in HG.
  assert (HbstN : bst rank K (plug fs (Leaf k (h d data)))).
  { eapply bst_plug; [exact Hbst|done|]. intros e He. simpl in He.
    apply list_elem_of_singleton in He as ->. right.
    eapply Forall_impl; [exact Hfit|]. simpl. intros f. by rewrite Hrank. }
  assert (Hmap : tree_map rank (plug fs (Leaf k (h d data))) = <[rank key := h d data]> m).
  { transitivity (tree_map rank (plug fs (Leaf key (h d data)))).
    - unfold tree_map. rewrite !elements_plug. cbn [elements]. rewrite !fmap_app. simpl. by rewrite Hrank.
    - rewrite (tree_map_update _ _ _ _ _ _ Hbst Hfit) by done. by rewrite HT, Hplug. }
  assert (Hend : wp (if bool_decide (frames_path fs = []) then mret p0
      else link_path (frames_path fs) p0;; mret (top_of fs p)) delete_post s1).
  { eapply (wp_finish_path C _ _ _ _ _ _ (Leaf k (h d data)));
      [done|exact HG|solve_cell|exact Hfr|].
    intros q s' new HG' Hq. eexists _, new. split; [|split; [exact HG'|]].
    { unfold AVL_MAX_ALLOCATION_IN_DELETE. lia. }
    eapply delete_updated; [exact Eg|exact Hlook|done|]. rewrite <- Hmap.
    eapply avl_repr_tree; [exact Hq| |exact HbstN|].
    - by eapply balanced_plug.
    - rewrite Hmap, map_size_insert, Hlook. simpl. done. }
  rewrite path_empty in Hend. rewrite path_empty. destruct (decide (fs = [])) as [Hnil|Hnil].
  - rewrite bool_decide_eq_true_2 in * by done. exact Hend.
  - rewrite bool_decide_eq_false_2 in * by done. by rewrite (path_root_top _ p).
Qed.

(** What the tree without the leaf is like; [rest] is what [avl_delete_up]
    makes of it. *)
Lemma delete_rest r n cs f fs' rest : fs = f :: fs' → g = None →
  is_avl (adds C cs) r rest → rest = del_up fs' (ft f) → delete_result root m key g data r n (adds C cs).
Proof.
  intros Efs Eg Hr Erest. destruct (found_leaf s0 key m fs p k d T HT HbstT HhT s Hd)
    as (Hp & Kk & Hplug & Hfit & Hbst & Hlook & Hmax & Hlen).
  rewrite bool_decide_eq_true_2 in Hlook by done.
  pose proof (dn_balanced _ _ _ _ _ _ _ _ _ Hd) as Hpb. rewrite Efs in *.
  destruct Hpb as (H1 & H2 & Bf & Hpb). simpl in H1, H2, Hpb.
  assert (Hg : shrunk (S (height (ft f))) (ft f)) by (split; [done|by right]).
  assert (Hel : elements (plug fs' (ft f)) = [] ++ ctx_left (f :: fs') ++ ctx_right (f :: fs')).
  { rewrite elements_plug. cbn [ctx_left ctx_right app].
    destruct (fleft f); rewrite <- ?app_assoc; by rewrite ?app_nil_l. }
  assert (Hsub : bst rank K (plug fs' (ft f))).
  { pose proof (bst_plug_sub rank K fs' _ Hbst) as Hf.
    eapply bst_plug; [exact Hbst| |].
    - unfold fill in Hf. destruct (fleft f); apply Hf.
    - intros e He. left. rewrite elements_fill, !elem_of_app. destruct (fleft f); tauto. }
  assert (Hrem : tree_map rank (plug fs' (ft f)) = delete (rank key) m).
  { rewrite (tree_map_remove _ _ _ _ _ _ Hbst Hfit _ Hrank Hel). by rewrite HT, <- Hplug. }
  destruct (del_up_map rank K f fs' k d key _ Hfit Hpb Hg Hsub) as (Hbal & Hbst' & Hend).
  rewrite <- Erest, Hrem, Hplug in *. eapply (delete_removed _ _ _ _ _ _ _ _ d T); [done|exact Hlook|exact HrT|exact HbT|exact HbstT|exact HT|].
  rewrite <- Hend. eapply avl_repr_tree; [exact Hr|exact Hbal|exact Hbst'|]. rewrite Hend.
  etrans; [apply map_subseteq_size, map_filter_subseteq|]. apply map_subseteq_size, delete_subseteq.
Qed.

(** Taking the leaf out. *)
Lemma wp_delete_remove : g = None →
  wp (match frames_path fs with
      | [] => mret NULL_PTR
      | (p, son) :: path' =>
        let ix := other_son son in
        w ← rd p ix;
        if bool_decide (path' = []) then mret w
        else link_path path' w;; avl_delete_up (path_root path') path'
      end) delete_post s.
Proof.
  intros Eg. destruct (found_leaf s0 key m fs p k d T HT HbstT HhT s Hd)
    as (Hp & Kk & Hplug & Hfit & Hbst & Hlook & Hmax & Hlen).
  rewrite bool_decide_eq_true_2 in Hlook by done.
  pose proof (dn_grow _ _ _ _ _ _ _ _ _ Hd) as HG.
  pose proof (dn_frames _ _ _ _ _ _ _ _ _ Hd) as Hfr.
  pose proof (dn_balanced _ _ _ _ _ _ _ _ _ Hd) as Hpb.
  pose proof delete_rest as Hrest. unfold MAX_HEIGHT in *.
  destruct fs as [|f fs'] eqn:Efs.
  { apply wp_ret. eexists _, _. split; [|split; [exact HG|]].
    { unfold AVL_MAX_ALLOCATION_IN_DELETE. simpl. lia. }
    apply (delete_removed _ _ _ _ _ _ _ _ d T); [done|exact Hlook|exact HrT|exact HbT|exact HbstT|exact HT|]. left. split; [done|].
    rewrite HT, <- Hplug. unfold tree_map. simpl. rewrite Hrank, delete_insert_id by done. apply map_filter_empty. }
  cbn [frames_path fmap list_fmap]. fold (frames_path fs'). cbn [length] in *.
  destruct Hfr as (Ho & Hh & Hfr), Hpb as (H1 & H2 & Bf & Hpb). rewrite Hh in Hfr. simpl in Hfr, Hpb.
  apply wp_bind. eapply (wp_rd _ _ _ _ (fo f)).
  { exact (grow_blk_new _ _ _ _ 0 _ _ HG eq_refl). }
  { unfold fson. by destruct (fleft f). }
  { unfold fson. by destruct (fleft f). }
  apply Forall_cons in Hmax as [_ Hmax].
  rewrite path_empty. destruct (decide (fs' = [])) as [Hnil|Hnil].
  - rewrite bool_decide_eq_true_2 by done. apply wp_ret.
    eexists _, _. split; [|split; [exact HG|]].
    { unfold AVL_MAX_ALLOCATION_IN_DELETE. lia. }
    eapply (Hrest _ _ _ f fs' (ft f)); [done|done| |by rewrite Hnil].
    eapply is_avl_mono, Ho. apply adds_base.
  - rewrite bool_decide_eq_false_2 by done. rewrite (path_root_top _ (fo f)) by done.
    cbn [path_cells] in HG. apply (grow_app_r _ _ _ [_]) in HG.
    rewrite <- (app_nil_r (path_cells fs' _)) in HG.
    apply wp_bind. eapply wp_link_path; [exact HG|]. clear HG. intros s2 HG.
    eapply (wp_avl_delete_up C s0 HC); [exact HG| |exact Hfr|exact Hpb| |exact Hmax| |].
    + eapply is_avl_mono, Ho. apply adds_base.
    + split; [done|by right].
    + unfold room, AVL_MAX_ALLOCATION_IN_DELETE in *. lia.
    + intros r s' u' new Hu HG' Hr. exists u', new. split.
      { unfold AVL_MAX_ALLOCATION_IN_DELETE. lia. }
      split; [exact HG'|]. by eapply Hrest.
Qed.
End delete.

Lemma wp_avl_delete s0 root key data m f g :
  holds s0 C → wf s0 → K key → Z.of_nat (size m) < 2 ^ 32 →
  room s0 AVL_MAX_ALLOCATION_IN_DELETE → avl_repr rank K C root m → pure_update C f g →
  wp (avl_delete fuel root key item_cmp f data) (delete_post s0 root key data m g) s0.
Proof.
  intros HC Hw Hkey Hsize Hroom Hrepr Hg. unfold avl_delete.
  wp_step. wp_step. case_bool_decide as Hnull.
  { destruct Hrepr as [[-> ->]|(t & Ht & _)].
    2: { apply (is_avl_pos _ _ _ _ HC) in Ht. unfold NULL_PTR in *. lia. }
    apply wp_ret. exists 0, []. split; [vm_compute; split; discriminate|].
    split; [by apply grow_refl|]. by apply delete_absent. }
  destruct (avl_repr_nonnull _ _ _ HC Hrepr Hnull) as (T & HT & Hb & Hbst & Em & Hh & _).
  apply wp_bind. eapply wp_avl_descend_root; [done..| | |].
  { unfold MAX_HEIGHT, AVL_MAX_ALLOCATION_IN_DELETE, room in *. lia. }
  { intros s' ((k & Kk & Hck) & u & cs & HG). eapply wp_delete_restore; [done..|].
    intros cs'. by eapply delete_failed. }
  intros fs p k d s Hd.
  destruct (found_leaf _ _ _ _ _ _ _ _ Em Hbst Hh _ Hd)
    as (Hp & Kk & Hplug & Hfit & Hbst' & Hlook & Hmax & Hlen).
  pose proof (dn_grow _ _ _ _ _ _ _ _ _ Hd) as HG. cbn [is_avl] in Hp.
  wp_steps. eapply wp_cmp; [done..|].
  destruct (decide (c key k = CMP_EQUAL)) as [Heq|Heq].
  - rewrite (bool_decide_eq_true_2 (_ = CMP_EQUAL)) by done. simpl.
    destruct (cmp_order _ _ _ _ _ Hcmp key k Hkey Kk) as [Hord|]; [|congruence].
    rewrite Heq in Hord. symmetry in Hord. apply order_eq in Hord.
    rewrite bool_decide_eq_true_2 in Hlook by done.
    destruct f as [f|], g as [g|]; try done.
    + wp_steps. eapply wp_run; [apply Hg; eapply holds_ext, HC; apply HG|]. wp_steps.
      destruct (decide (d = g d data)) as [Hsame|Hsame].
      * rewrite bool_decide_eq_true_2 by done. eapply wp_delete_restore; [done..|].
        intros cs'. by eapply delete_unchanged.
      * rewrite bool_decide_eq_false_2 by done. by eapply wp_delete_replace.
    + by eapply wp_delete_remove.
  - rewrite (bool_decide_eq_false_2 (_ = CMP_EQUAL)) by done. simpl.
    eapply wp_delete_restore; [done..|]. intros cs'.
    destruct (cmp_order _ _ _ _ _ Hcmp key k Hkey Kk) as [Hord|]; [|by eapply delete_failed].
    apply delete_absent; [|done|done]. rewrite Hlook, bool_decide_eq_false_2; [done|].
    intros E. apply Heq. rewrite Hord. by apply order_eq.
Qed.
End operations.

Lemma avl_repr_mono rank K C C' r m : csub C C' → avl_repr rank K C r m → avl_repr rank K C' r m.
Proof.
  intros HC [[-> ->]|(t & Ht & H)]; [by left|right]. exists t. split; [|done].
  by eapply is_avl_mono.
Qed.

Lemma insert_result_mono rank K C1 C2 c root m key g data r n :
  csub C1 C2 → insert_result rank K c root m key g data r n C1 →
  insert_result rank K c root m key g data r n C2.
Proof.
  intros HC []; [by eapply insert_failed|by eapply insert_unchanged|].
  eapply insert_done; [done..|]. by eapply avl_repr_mono.
Qed.

Lemma delete_result_mono rank K C C1 C2 c root m key g data r n :
  csub C1 C2 → delete_result rank K C c root m key g data r n C1 →
  delete_result rank K C c root m key g data r n C2.
Proof.
  intros HC []; [by eapply delete_failed|by eapply delete_absent|by eapply delete_unchanged|..].
  - eapply delete_updated; [done..|]. by eapply avl_repr_mono.
  - eapply delete_removed; [done..|]. by eapply avl_repr_mono.
Qed.

(** * Properties *)

(** C13. [avl_insert], for any comparison function that compares ranks of keys
    or reports failure and any update function: it returns; either a comparison
    failed, or the key's data stays what it is, and in both cases the old root
    is returned and nothing is allocated; or the result is a balanced search
    tree, with right headers, for the map with the key's data replaced by the
    updated data.  What the update function is applied to is the key's old data,
    or, where the key is absent, [NULL_PTR] or some other key's data.  At most
    [AVL_MAX_ALLOCATION_IN_INSERT] words are allocated and all old trees are
    kept. *)
Theorem avl_insert_correct rank K item_cmp c fuel root key data m f g s :
  compares (blk s) K rank item_cmp c → (MAX_HEIGHT < fuel)%nat → wf s → K key →
  Z.of_nat (size m) + 1 < 2 ^ 32 → room s AVL_MAX_ALLOCATION_IN_INSERT →
  avl_repr rank K (blk s) root m → pure_update (blk s) f g →
  ∃ r s' n, avl_insert fuel root key item_cmp f data s = Ok r s' ∧ s ⊑ₛ s' ∧ wf s' ∧
    first_generation_allocation_ptr s' = first_generation_allocation_ptr s - 4 * n ∧
    0 ≤ n ≤ AVL_MAX_ALLOCATION_IN_INSERT ∧
    insert_result rank K c root m key g data r n (blk s') ∧
    (∀ r0 m0, avl_repr rank K (blk s) r0 m0 → avl_repr rank K (blk s') r0 m0).
Proof.
  intros Hcmp Hfuel Hw Hkey Hsize Hroom Hrepr Hg.
  pose proof (wp_avl_insert rank K (blk s) item_cmp c Hcmp fuel Hfuel s root key data m f g
    (holds_blk s) Hw Hkey Hsize Hroom Hrepr Hg) as H.
  apply wp_inv in H as (r & s' & E & n & cs & Hn & HG & Hres).
  exists r, s', n. split; [done|]. split; [apply HG|]. split; [apply HG|].
  split; [apply HG|]. split; [done|]. split.
  - eapply insert_result_mono, Hres. intros q ws. apply (grow_holds _ _ _ _ _ HG (holds_blk s)).
  - intros r0 m0. apply avl_repr_mono. intros q ws. apply blk_ext, HG.
Qed.

(** An example: the tree with the keys 1 to [n], data ten times as large. *)
Definition example_tree (n : nat) : M Z :=
  for_ n (λ i root, let k := Z.of_nat (S i) in avl_insert 46 root k word_cmp None (10 * k)) NULL_PTR.
Definition example_avl_state (n : nat) : state := exec (example_tree n) (init_state 4 1000 []).
Definition example_root (n : nat) : Z := value 0 (example_tree n) (init_state 4 1000 []).

Example example_two_leaves : avl_repr (λ x, x) (λ _, True) (blk (example_avl_state 2))
  (example_root 2) {[ 1 := 10; 2 := 20 ]}.
Proof.
  right. exists (Node 1 (Leaf 1 10) (Leaf 2 20)). split.
  - exists 4004, 3992. split_and!; apply blkb_sound; vm_compute; reflexivity.
  - split; [simpl; split_and!; done || lia|]. split; [|split; [|by vm_compute]].
    + simpl. split_and!; try done; apply Forall_singleton; simpl; lia.
    + apply (bool_decide_eq_true_1 (_ = _)). by vm_compute.
Qed.

Lemma avl_insert_correct_witness :
  ∃ r s' n, avl_insert 46 (example_root 2) 3 word_cmp None 30 (example_avl_state 2) = Ok r s' ∧
    example_avl_state 2 ⊑ₛ s' ∧ wf s' ∧
    first_generation_allocation_ptr s' =
      first_generation_allocation_ptr (example_avl_state 2) - 4 * n ∧
    0 ≤ n ≤ AVL_MAX_ALLOCATION_IN_INSERT ∧
    insert_result (λ x, x) (λ _, True) order (example_root 2) {[ 1 := 10; 2 := 20 ]} 3 None 30 r n
      (blk s') ∧
    (∀ r0 m0, avl_repr (λ x, x) (λ _, True) (blk (example_avl_state 2)) r0 m0 →
      avl_repr (λ x, x) (λ _, True) (blk s') r0 m0).
Proof.
  apply (avl_insert_correct (λ x, x) (λ _, True) word_cmp order 46).
  - apply word_cmp_compares.
  - vm_compute. lia.
  - apply wfb_sound. by vm_compute.
  - done.
  - by vm_compute.
  - vm_compute. discriminate.
  - exact example_two_leaves.
  - done.
Defined.

(** C14. [avl_find] yields the data of the key, or [NULL_PTR] for an absent key,
    and changes nothing. *)
Theorem avl_find_correct rank K item_cmp c fuel root key m s :
  compares (blk s) K rank item_cmp c → (∀ b, K b → c key b ≠ CMP_ERROR) →
  (MAX_HEIGHT < fuel)%nat → K key → avl_repr rank K (blk s) root m →
  avl_find fuel root key item_cmp s = Ok (default NULL_PTR (m !! rank key)) s.
Proof.
  intros Hcmp Hne Hfuel Hkey Hrepr.
  pose proof (wp_avl_find rank K (blk s) item_cmp c Hcmp fuel Hfuel s root m key
    (λ r s', r = default NULL_PTR (m !! rank key) ∧ s' = s) (holds_blk s) Hkey Hrepr Hne) as H.
  destruct (wp_inv _ _ _ (H (conj eq_refl eq_refl))) as (r & s' & E & -> & ->). done.
Qed.

Lemma avl_find_correct_witness :
  let m : gmap Z Z := {[ 1 := 10; 2 := 20 ]} in
  avl_find 46 (example_root 2) 2 word_cmp (example_avl_state 2) =
    Ok (default NULL_PTR (m !! 2)) (example_avl_state 2).
Proof.
  apply (avl_find_correct (λ x, x) (λ _, True) word_cmp order 46 (example_root 2) 2
    {[ 1 := 10; 2 := 20 ]}).
  - apply word_cmp_compares.
  - intros b _. unfold order. by repeat case_bool_decide.
  - vm_compute. lia.
  - done.
  - exact example_two_leaves.
Defined.

(** C15. [avl_delete]: it returns; the key is absent, a comparison failed or
    the update function keeps the data, and then the old root is returned and
    nothing is allocated; or the data is updated; or, without an update function,
    the key is removed from the tree, and no other one but, when the rotations have to
    go on up to the root ([root_rotates]), those on the other side of the node that the
    rotation puts above the old root ([lost]).  The result is a balanced search tree.
    At most [AVL_MAX_ALLOCATION_IN_DELETE] words are allocated and all old trees are
    kept. *)
Theorem avl_delete_correct rank K item_cmp c fuel root key data m f g s :
  compares (blk s) K rank item_cmp c → (MAX_HEIGHT < fuel)%nat → wf s → K key →
  Z.of_nat (size m) < 2 ^ 32 → room s AVL_MAX_ALLOCATION_IN_DELETE →
  avl_repr rank K (blk s) root m → pure_update (blk s) f g →
  ∃ r s' n, avl_delete fuel root key item_cmp f data s = Ok r s' ∧ s ⊑ₛ s' ∧ wf s' ∧
    first_generation_allocation_ptr s' = first_generation_allocation_ptr s - 4 * n ∧
    0 ≤ n ≤ AVL_MAX_ALLOCATION_IN_DELETE ∧
    delete_result rank K (blk s) c root m key g data r n (blk s') ∧
    (∀ r0 m0, avl_repr rank K (blk s) r0 m0 → avl_repr rank K (blk s') r0 m0).
Proof.
  intros Hcmp Hfuel Hw Hkey Hsize Hroom Hrepr Hg.
  pose proof (wp_avl_delete rank K (blk s) item_cmp c Hcmp fuel Hfuel s root key data m f g
    (holds_blk s) Hw Hkey Hsize Hroom Hrepr Hg) as H.
  apply wp_inv in H as (r & s' & E & n & cs & Hn & HG & Hres).
  exists r, s', n. split; [done|]. split; [apply HG|]. split; [apply HG|].
  split; [apply HG|]. split; [done|]. split.
  - eapply delete_result_mono, Hres. intros q ws. apply (grow_holds _ _ _ _ _ HG (holds_blk s)).
  - intros r0 m0. apply avl_repr_mono. intros q ws. apply blk_ext, HG.
Qed.

Lemma avl_delete_correct_witness :
  ∃ r s' n, avl_delete 46 (example_root 2) 1 word_cmp None 0 (example_avl_state 2) = Ok r s' ∧
    example_avl_state 2 ⊑ₛ s' ∧ wf s' ∧
    first_generation_allocation_ptr s' =
      first_generation_allocation_ptr (example_avl_state 2) - 4 * n ∧
    0 ≤ n ≤ AVL_MAX_ALLOCATION_IN_DELETE ∧
    delete_result (λ x, x) (λ _, True) (blk (example_avl_state 2)) order (example_root 2)
      {[ 1 := 10; 2 := 20 ]} 1 None 0 r n (blk s') ∧
    (∀ r0 m0, avl_repr (λ x, x) (λ _, True) (blk (example_avl_state 2)) r0 m0 →
      avl_repr (λ x, x) (λ _, True) (blk s') r0 m0).
Proof.
  apply (avl_delete_correct (λ x, x) (λ _, True) word_cmp order 46).
  - apply word_cmp_compares.
  - vm_compute. lia.
  - apply wfb_sound. by vm_compute.
  - done.
  - by vm_compute.
  - vm_compute. discriminate.
  - exact example_two_leaves.
  - done.
Defined.

(** C16. When the rotations of a deletion go on up to the root, another key than the one
    to be deleted is always lost: the tree that [avl_delete] returns lacks it. *)
Theorem avl_delete_loses_keys rank K item_cmp c fuel root key data m d T s :
  compares (blk s) K rank item_cmp c → (∀ a b, K a → K b → c a b ≠ CMP_ERROR) → (MAX_HEIGHT < fuel)%nat → wf s → K key →
  Z.of_nat (size m) < 2 ^ 32 → room s AVL_MAX_ALLOCATION_IN_DELETE →
  is_avl (blk s) root T → balanced T → bst rank K T → m = tree_map rank T →
  m !! rank key = Some d → root_rotates rank (rank key) T = true →
  ∃ r s' m' y dy, avl_delete fuel root key item_cmp None data s = Ok r s' ∧ avl_repr rank K (blk s') r m' ∧
    y ≠ rank key ∧ m !! y = Some dy ∧ m' !! y = None.
Proof.
  intros Hcmp Hne Hfuel Hw Hkey Hsize Hroom HT Hb Hbst Em Hd Hrot.
  assert (Hheight : ∀ T, balanced T → bst rank K T → m = tree_map rank T → Z.of_nat (height T) < 2 ^ 24).
  { intros T' Hb' Hbst' Em'. pose proof (height_bound T' Hb') as H. rewrite <- (tree_map_size rank K T' Hbst'), <- Em' in H.
    specialize (H Hsize). unfold MAX_HEIGHT in H. lia. }
  assert (Hrepr : avl_repr rank K (blk s) root m).
  { right. exists T. split_and!; try done. rewrite <- (tree_map_size rank K) by done. by rewrite <- Em. }
  pose proof (wp_avl_delete rank K (blk s) item_cmp c Hcmp fuel Hfuel s root key data m None None
    (holds_blk s) Hw Hkey Hsize Hroom Hrepr I) as H.
  apply wp_inv in H as (r & s' & E & n & cs & Hn & HG & Hres).
  apply (delete_result_mono _ _ _ _ (blk s')) in Hres; [|intros q ws; apply (grow_holds _ _ _ _ _ HG (holds_blk s))].
  destruct Hres as [k Kk Hk|Hnone| | |d' T' _ _ HT' Hb' Hbst' Em' Hr]; [by destruct (Hne key k)|congruence|done|done|].
  assert (T' = T) as ->.
  { eapply is_avl_agree; [exact HT'|exact HT|by apply Hheight|by apply Hheight]. }
  destruct (root_rotates_lost rank K _ T Hbst Hrot) as ([k e] & Hin & Hky & Hl). cbn [fst] in *.
  eexists r, s', _, (rank k), e. split; [exact E|]. split; [exact Hr|]. split; [exact Hky|]. split.
  - rewrite Em. apply elem_of_list_to_map_1.
    + pose proof (bst_NoDup rank K T Hbst) as Hnd. by rewrite <- list_fmap_compose.
    + apply list_elem_of_fmap. by exists (k, e).
  - apply map_lookup_filter_None. right. intros e' _. cbn [fst]. congruence.
Qed.

(** Of the tree with the keys 1 to 5 the key 1 is deleted. *)
Definition example_five : tree :=
  Node 2 (Node 1 (Leaf 1 10) (Leaf 2 20)) (Node 3 (Leaf 3 30) (Node 4 (Leaf 4 40) (Leaf 5 50))).

Lemma example_five_leaves : is_avl (blk (example_avl_state 5)) (example_root 5) example_five.
Proof.
  exists 3916, 3824. split; [apply blkb_sound; by vm_compute|]. split.
  - exists 4004, 3992. split_and!; apply blkb_sound; by vm_compute.
  - exists 3948, 3796. split; [apply blkb_sound; by vm_compute|]. split; [apply blkb_sound; by vm_compute|].
    exists 3888, 3812. split_and!; apply blkb_sound; by vm_compute.
Qed.

Example example_five_lost :
  let s := example_avl_state 5 in
  let root := example_root 5 in
  let m := avl_delete 46 root 1 word_cmp None 0 in
  let root' := value 0 m s in
  let s' := exec m s in
  (λ k, value 0 (avl_find 46 root k word_cmp) s) <$> [1; 2; 3; 4; 5] = [10; 20; 30; 40; 50] ∧
  (λ k, value 0 (avl_find 46 root' k word_cmp) s') <$> [1; 2; 3; 4; 5] = [0; 20; 30; 0; 0] ∧
  filter (λ y, lost (λ x, x) 1 example_five y = true) [1; 2; 3; 4; 5] = [4; 5].
Proof. by vm_compute. Qed.

Lemma avl_delete_loses_keys_witness :
  ∃ r s' m' y dy, avl_delete 46 (example_root 5) 1 word_cmp None 0 (example_avl_state 5) = Ok r s' ∧
    avl_repr (λ x, x) (λ _, True) (blk s') r m' ∧ y ≠ 1 ∧ tree_map (λ x, x) example_five !! y = Some dy ∧ m' !! y = None.
Proof.
  apply (avl_delete_loses_keys (λ x, x) (λ _, True) word_cmp order 46 (example_root 5) 1 0 _ 10 example_five).
  - apply word_cmp_compares.
  - intros a b _ _. unfold order. by repeat case_bool_decide.
  - vm_compute. lia.
  - apply wfb_sound. by vm_compute.
  - done.
  - by vm_compute.
  - vm_compute. discriminate.
  - exact example_five_leaves.
  - simpl. split_and!; done || lia.
  - simpl. split_and!; try done; repeat constructor; simpl; lia.
  - done.
  - by vm_compute.
  - by vm_compute.
Defined.

(** [avl_find_min] yields the data of a key of the least rank. *)
Theorem avl_find_min_correct rank K fuel root m s :
  (MAX_HEIGHT < fuel)%nat → avl_repr rank K (blk s) root m → m ≠ ∅ →
  ∃ x d, avl_find_min fuel root s = Ok d s ∧ m !! x = Some d ∧ ∀ y d', m !! y = Some d' → x ≤ y.
Proof.
  intros Hfuel Hrepr Hm. destruct Hrepr as [[_ ?]|(t & Ht & Hb & Hbst & -> & Hs)]; [done|].
  destruct (elements t) as [|[k d] l] eqn:E; [by destruct (elements_nonempty t)|].
  assert (H : wp (avl_find_min fuel root) (λ r s', r = d ∧ s' = s) s).
  { eapply wp_avl_find_min; [done|apply holds_blk|exact Ht|done| |].
    - apply height_bound; [done|by rewrite E].
    - intros k' d' l'. rewrite E. intros [= <- <- <-]. done. }
  apply wp_inv in H as (r & s' & Er & -> & ->). exists (rank k), d. split; [done|].
  unfold tree_map. rewrite E. split; [simpl; apply lookup_insert_eq|].
  intros y d' Hy%elem_of_list_to_map_2. apply list_elem_of_fmap in Hy as (e & [= -> ->] & He).
  assert (Hmin : ∀ t, bst rank K t → ∀ k d l, elements t = (k, d) :: l →
    ∀ e, e ∈ elements t → rank k ≤ rank e.1).
  { clear. induction t as [k d|k l IHl r IHr]; intros Hb k0 d0 l0 E e He; simpl in *.
    - simplify_eq. apply list_elem_of_singleton in He as ->. done.
    - destruct Hb as (_ & Hl & Hr & H1 & H2). rewrite Forall_forall in H1, H2.
      destruct (elements l) as [|[k1 d1] l1] eqn:El; [by destruct (elements_nonempty l)|].
      simplify_eq/=. specialize (IHl Hl _ _ _ eq_refl). rewrite app_comm_cons, elem_of_app in He.
      destruct He as [He|He]; [by apply IHl|].
      specialize (H1 (k0, d0) ltac:(by left)). specialize (H2 _ He). simpl in *. lia. }
  eapply Hmin; [done|exact E|]. by rewrite E.
Qed.

Lemma avl_find_min_correct_witness :
  ∃ x d, avl_find_min 46 (example_root 2) (example_avl_state 2) = Ok d (example_avl_state 2) ∧
    ({[ 1 := 10; 2 := 20 ]} : gmap Z Z) !! x = Some d ∧
    ∀ y d', ({[ 1 := 10; 2 := 20 ]} : gmap Z Z) !! y = Some d' → x ≤ y.
Proof.
  apply (avl_find_min_correct (λ x, x) (λ _, True) 46).
  - vm_compute. lia.
  - exact example_two_leaves.
  - done.
Defined.
