(* ===== verification/AvlBc.v ===== *)
(** AVL trees, the operations that byte code calls after it has compared the
    keys itself (avl.c, [avl_bc_delve_left] to [avl_make_assertions]): the path
    from the root is recorded in a history list, from which insertion and
    deletion rebuild it. *)

From S2P Require Import Prelude Machine Celltypes Shades Cow Compare Avl.

(** * Operations *)

Definition avl_bc_delve_left (history node : Z) : M Z :=
  new_history ← allocate 3 CELL_history;
  wr new_history 1 node;;
  w ← rd new_history 0; wr new_history 0 (Z.lor w 2);;
  wr new_history 2 history;;
  mret new_history.

Definition avl_bc_delve_right (history node : Z) : M Z :=
  new_history ← allocate 3 CELL_history;
  wr new_history 1 node;;
  w ← rd new_history 0; wr new_history 0 (Z.lor w 3);;
  wr new_history 2 history;;
  mret new_history.

Definition avl_bc_delve_equal (history node : Z) : M Z :=
  new_history ← allocate 3 CELL_history;
  wr new_history 1 node;;
  w ← rd new_history 0; wr new_history 0 (Z.lor w 0);;
  wr new_history 2 history;;
  mret new_history.

(** The node above [new_path]: a copy of the one at the head of [history] with
    [new_path] in its place, and the rest of the history. *)
Definition new_path_item (history new_path : Z) : M (Z * Z) :=
  p ← rd history 1;
  w ← rd history 0;
  let ix := Z.land w 0xF in
  new_path_item ← allocate 4 CELL_avl_internal;
  w ← rd p 1; wr new_path_item 1 w;;
  wr new_path_item ix new_path;;
  w ← rd p (other_son ix); wr new_path_item (other_son ix) w;;
  or_height new_path_item;;
  history ← rd history 2;
  mret (new_path_item, history).

(** The choice of a rotation in the loop of [avl_bc_insert], *)
Definition bc_insert_rotate (new_path : Z) : M Z :=
  balance ← BALANCE new_path;
  if bool_decide (balance < -1) then insert_rotate_right new_path
  else if bool_decide (balance > 1) then insert_rotate_left new_path
  else mret new_path.

(** and in that of [avl_bc_delete]. *)
Definition bc_delete_rotate (new_path : Z) : M Z :=
  balance ← BALANCE new_path;
  if bool_decide (balance < -1) then delete_rotate_right new_path
  else if bool_decide (balance > 1) then delete_rotate_left new_path
  else mret new_path.

Definition avl_bc_insert_step : Z * Z → M ((Z * Z) + Z) := λ '(new_path, history),
  if negb (bool_decide (history = NULL_PTR)) then
    '(new_path, history) ← new_path_item history new_path;
    new_path ← bc_insert_rotate new_path;
    mret (inl (new_path, history))
  else mret (inr new_path).

Definition avl_bc_insert (fuel : nat) (history key data : Z) : M Z :=
  new_path_item ← allocate 3 CELL_avl_leaf;
  wr new_path_item 1 key;;
  wr new_path_item 2 data;;
  if bool_decide (history = NULL_PTR) then mret new_path_item
  else
  p ← rd history 1;
  w ← rd history 0;
  let ix := Z.land w 0xF in
  new_path ← (if bool_decide (ix = 0) then mret new_path_item
    else
      new_path ← allocate 4 CELL_avl_internal;
      w ← rd new_path 0; wr new_path 0 (Z.lor w 1);;
      (if bool_decide (ix = 2) then
         wr new_path 1 key;;
         wr new_path 2 new_path_item;;
         wr new_path 3 p
       else
         w ← rd p 1; wr new_path 1 w;;
         wr new_path 2 p;;
         wr new_path 3 new_path_item);;
      mret new_path);
  history ← rd history 2;
  loop fuel avl_bc_insert_step (new_path, history).

Definition avl_bc_delete_step : Z * Z → M ((Z * Z) + Z) := λ '(new_path, history),
  new_path ← bc_delete_rotate new_path;
  if negb (bool_decide (history = NULL_PTR)) then
    r ← new_path_item history new_path; mret (inl r)
  else mret (inr new_path).

Definition avl_bc_delete (fuel : nat) (history : Z) : M Z :=
  if bool_decide (history = NULL_PTR) then mret NULL_PTR
  else
  p ← rd history 1;
  w ← rd history 0;
  let ix := other_son (Z.land w 0xF) in
  new_path ← rd p ix;
  history ← rd history 2;
  if bool_decide (history = NULL_PTR) then mret new_path
  else
    r ← new_path_item history new_path;
    loop fuel avl_bc_delete_step r.

(** One iteration of the descents below; [None] when the comparison failed. *)
Definition build_history_step (key : Z) (item_cmp : cmp_fun) :
    Z * Z → M ((Z * Z) + option (Z * Z)) := λ '(p, history),
  b ← IS_INTERNAL_NODE p;
  if b : bool then
    k ← rd p 1;
    cmp_result ← item_cmp key k;
    if bool_decide (cmp_result = CMP_ERROR) then mret (inr None)
    else if bool_decide (cmp_result = CMP_LESS) || bool_decide (cmp_result = CMP_EQUAL) then
      history ← avl_bc_delve_left history p;
      p ← rd p 2;
      mret (inl (p, history))
    else
      history ← avl_bc_delve_right history p;
      p ← rd p 3;
      mret (inl (p, history))
  else mret (inr (Some (p, history))).

(** The second component says whether [*result] is set to 0. *)
Definition build_history_for_insert (fuel : nat) (root key : Z) (item_cmp : cmp_fun) :
    M (Z * bool) :=
  if bool_decide (root = NULL_PTR) then mret (NULL_PTR, false)
  else
  r ← loop fuel (build_history_step key item_cmp) (root, NULL_PTR);
  match r with
  | None => mret (NULL_PTR, true)
  | Some (p, history) =>
    t ← CELL_TYPE p;
    massert (bool_decide (t = Some CELL_avl_leaf));;
    k ← rd p 1;
    cmp_result ← item_cmp key k;
    if bool_decide (cmp_result = CMP_ERROR) then mret (NULL_PTR, true)
    else if bool_decide (cmp_result = CMP_EQUAL) then
      history ← avl_bc_delve_equal history p; mret (history, false)
    else if bool_decide (cmp_result = CMP_LESS) then
      history ← avl_bc_delve_left history p; mret (history, false)
    else
      history ← avl_bc_delve_right history p; mret (history, false)
  end.

Definition build_history_for_delete (fuel : nat) (root key : Z) (item_cmp : cmp_fun) :
    M (Z * bool) :=
  if bool_decide (root = NULL_PTR) then mret (NULL_PTR, false)
  else
  r ← loop fuel (build_history_step key item_cmp) (root, NULL_PTR);
  match r with
  | None => mret (NULL_PTR, true)
  | Some (p, history) =>
    t ← CELL_TYPE p;
    massert (bool_decide (t = Some CELL_avl_leaf));;
    k ← rd p 1;
    cmp_result ← item_cmp key k;
    if negb (bool_decide (cmp_result = CMP_EQUAL)) then mret (NULL_PTR, true)
    else mret (history, false)
  end.

Fixpoint avl_rec_make_assertions (fuel : nat) (node : Z) : M unit :=
  match fuel with
  | O => fail OutOfFuel
  | S fuel =>
    massert (negb (bool_decide (node = NULL_PTR)));;
    b ← IS_INTERNAL_NODE node;
    if b : bool then
      l ← rd node 2; avl_rec_make_assertions fuel l;;
      r ← rd node 3; avl_rec_make_assertions fuel r;;
      h ← HEIGHT node; massert (bool_decide (h ≤ 50));;
      w ← rd node 0; massert (bool_decide (Z.land w LOW_MASK ≤ 50));;
      h ← HEIGHT node; w ← rd node 0; massert (bool_decide (h = Z.land w LOW_MASK));;
      balance ← BALANCE node;
      massert (bool_decide (-2 < balance) && bool_decide (balance < 2))
    else
      t ← CELL_TYPE node;
      massert (bool_decide (t = Some CELL_avl_leaf));;
      w ← rd node 0; massert (bool_decide (Z.land w LOW_MASK = 0))
  end.

Definition avl_make_assertions (fuel : nat) (root : Z) : M unit :=
  if bool_decide (root = NULL_PTR) then mret tt else avl_rec_make_assertions fuel root.

(** * Histories *)

Lemma header_nibble t low : 0 ≤ low < 16 → Z.land (header t low) 0xF = low.
Proof.
  intros H. rewrite header_add. change 0xF with (2 ^ 4 - 1). rewrite land_ones_mod by lia.
  change (2 ^ 24) with (2 ^ 20 * 2 ^ 4). rewrite Z.mul_assoc, Z.add_comm, Z_mod_plus_full.
  by apply Z.mod_small.
Qed.

Lemma header_lor_0 t : Z.lor (header t 0) 0 = header t 0.
Proof. apply Z.lor_0_r. Qed.

(** The history at [h] records the path [fs] of original nodes to [q]. *)
Fixpoint is_history (C : cenv) (h : Z) (fs : list frame) (q : Z) : Prop :=
  match fs with
  | [] => h = NULL_PTR
  | f :: fs' => ∃ h', C h [header CELL_history (fson f); fnode f; h'] ∧
      C (frame_cell f q).1 (frame_cell f q).2 ∧ is_avl C (fo f) (ft f) ∧
      is_history C h' fs' (fnode f)
  end.

Lemma is_history_mono C C' h fs q : csub C C' → is_history C h fs q → is_history C' h fs q.
Proof.
  intros HC. revert h q. induction fs as [|f fs IH]; intros h q; simpl; [done|].
  intros (h' & H1 & H2 & H3 & H4). exists h'. split; [by apply HC|]. split; [by apply HC|].
  split; [by eapply is_avl_mono|by apply IH].
Qed.

Definition ins_balance (t : tree) : tree :=
  if bool_decide (-1 ≤ bal t ≤ 1) then t else ins_fix t.

(** The trees that the loops build. *)
Definition ins_rebuild (fs : list frame) (t : tree) : tree := foldl (λ t f, ins_balance (fill f t)) t fs.

Section rebuild.
Context (C : cenv) (s0 : state) (HC : holds s0 C).

Definition item_frame (item : Z) (f : frame) (t : tree) : frame :=
  mkFrame item (fleft f) (fk f) (fo f) (ft f) (height (fill f t)).

Lemma wp_new_path_item s u cs done f fs q0 h q t (Q : Z * Z → state → Prop) :
  grow s0 s u cs → done ⊆ cs → is_history C h (f :: fs) q0 → is_avl (adds C done) q t →
  room s0 (u + 4) → Z.of_nat (height t) < 2 ^ 22 → Z.of_nat (height (ft f)) < 2 ^ 22 →
  (∀ item h' s', grow s0 s' (u + 4) (frame_cell (item_frame item f t) q :: cs) →
    is_history C h' fs (fnode f) → Q (item, h') s') →
  wp (new_path_item h q) Q s.
Proof.
  intros HG Hdone (h' & Hh & Hf & Ho & Hhist) Hq Hroom Bt Bf HQ.
  assert (Hot : is_avl (adds C done) (fo f) (ft f)) by avl_lift.
  unfold new_path_item, fson, frame_cell in *. destruct f as [node left k o ot fh0].
  cbn [fnode fleft fk fo ft fh fst snd] in *. destruct left; wp_steps.
  all: rewrite header_nibble by done; change (other_son 2) with 3; change (other_son 3) with 2.
  - wp_steps. eapply (wp_or_height C _ _ _ _ _ _ _ _ _ t ot);
      [exact HG|done|avl_lift|avl_lift|lia|lia|done|].
    clear HG. intros ? HG. wp_steps. eapply HQ; [exact HG|exact Hhist].
  - wp_steps. eapply (wp_or_height C _ _ _ _ _ _ _ _ _ ot t);
      [exact HG|done|avl_lift|avl_lift|lia|lia|done|].
    clear HG. intros ? HG. wp_steps. eapply HQ; [exact HG|exact Hhist].
Qed.

(** The node is as it was or rotated. *)
Section rotate.
Context (s : state) (u : Z) (cs done : list cell) (item q : Z) (f : frame) (t : tree) (n : nat).
Context (HG : grow s0 s u (frame_cell (item_frame item f t) q :: cs)) (Hdone : done ⊆ cs).
Context (Ho : is_avl (adds C done) (fo f) (ft f)) (Hq : is_avl (adds C done) q t).
Context (H1 : (n ≤ S (height (ft f)))%nat) (H2 : (height (ft f) ≤ S n)%nat) (H3 : balanced (ft f)).
Context (Bn : Z.of_nat n < 2 ^ 20).

Lemma item_tree : is_avl (adds C (frame_cell (item_frame item f t) q :: done)) item (fill f t).
Proof.
  apply (is_avl_fill _ (item_frame item f t) q t); [solve_cell|simpl; avl_lift|avl_lift|done].
Qed.

(** [BALANCE(new_path)] *)
Lemma wp_item_BALANCE (Q : Z → state → Prop) : Z.of_nat (height t) < 2 ^ 21 →
  Q (bal (fill f t)) s → wp (BALANCE item) Q s.
Proof.
  intros Bt HQ. unfold frame_cell in HG. unfold fill in *.
  assert (Hocs : is_avl (adds C cs) (fo f) (ft f)) by avl_lift.
  assert (Hqcs : is_avl (adds C cs) q t) by avl_lift.
  cbn [item_frame fnode fleft fk fo ft fh] in HG. destruct (fleft f).
  - eapply wp_new_BALANCE; [exact HG|exact HC|exact Hqcs|exact Hocs|lia|lia|exact HQ].
  - eapply wp_new_BALANCE; [exact HG|exact HC|exact Hocs|exact Hqcs|lia|lia|exact HQ].
Qed.

Lemma wp_bc_insert_rotate (Q : Z → state → Prop) :
  grown n t → (¬ -1 ≤ bal (fill f t) ≤ 1 → room s0 (u + 8)) →
  (∀ p' s' u' new, u ≤ u' → (-1 ≤ bal (fill f t) ≤ 1 → u' = u) → u' ≤ u + 8 →
    grow s0 s' u' (new ++ cs) →
    is_avl (adds C (new ++ done)) p' (ins_balance (fill f t)) → Q p' s') →
  wp (bc_insert_rotate item) Q s.
Proof.
  intros Hg Hroom HQ.
  assert (Hht : (n ≤ height t ≤ S n)%nat) by (destruct Hg as [_ [?|[? _]]]; lia).
  apply wp_bind, wp_item_BALANCE; [lia|]. unfold ins_balance in HQ.
  pose proof HG as HG'. unfold frame_cell in HG'. cbn [item_frame fnode fleft fk fo ft fh] in HG'.
  destruct (decide (-1 ≤ bal (fill f t) ≤ 1)) as [Hb|Hb].
  { rewrite (bool_decide_eq_false_2 (_ < -1)), (bool_decide_eq_false_2 (_ > 1)) by lia.
    apply wp_ret. eapply (HQ _ _ u [_]); [lia|done|lia|exact HG|].
    rewrite bool_decide_eq_true_2 by done. exact item_tree. }
  rewrite (bool_decide_eq_false_2 (-1 ≤ _ ≤ 1)) in HQ by done. specialize (Hroom Hb).
  rewrite fill_height in HG'.
  assert (HQ' : fixed C s0 u cs done (ins_fix (fill f t)) Q).
  { intros p' s' u' new [Hu1 Hu2] HG2 Hp'. eapply HQ; [exact Hu1|tauto|exact Hu2|exact HG2|exact Hp']. }
  unfold fill in Hb, HQ' |- *. destruct (fleft f).
  - assert (Hlow : bal (Node (fk f) t (ft f)) < -1) by (simpl in *; lia).
    rewrite bool_decide_eq_true_2 by done.
    eapply (wp_fix_left C s0 HC); [exact HG'|exact Hdone|lia|exact Hq|exact Ho|exact Hroom|lia
      |exact Hg|exact H1|exact H3|exact Hlow|exact HQ'].
  - assert (Hhigh : 1 < bal (Node (fk f) (ft f) t)) by (simpl in *; lia).
    rewrite bool_decide_eq_false_2, bool_decide_eq_true_2 by lia.
    eapply (wp_fix_right C s0 HC); [exact HG'|exact Hdone|lia|exact Ho|exact Hq|exact Hroom|lia
      |exact Hg|exact H1|exact H3|exact Hhigh|exact HQ'].
Qed.

Lemma wp_bc_delete_rotate (Q : Z → state → Prop) :
  shrunk n t → room s0 (u + 8) →
  (∀ p' s' u' new, u ≤ u' ≤ u + 8 → grow s0 s' u' (new ++ cs) →
    is_avl (adds C (new ++ done)) p' (del_balance (fill f t)) → Q p' s') →
  wp (bc_delete_rotate item) Q s.
Proof.
  intros Hg Hroom HQ.
  assert (Hht : (n ≤ S (height t) ∧ height t ≤ n)%nat) by (destruct Hg as [_ [?|?]]; lia).
  apply wp_bind, wp_item_BALANCE; [lia|]. unfold del_balance in HQ.
  pose proof HG as HG'. unfold frame_cell in HG'. cbn [item_frame fnode fleft fk fo ft fh] in HG'.
  destruct (decide (-1 ≤ bal (fill f t) ≤ 1)) as [Hb|Hb].
  { rewrite (bool_decide_eq_false_2 (_ < -1)), (bool_decide_eq_false_2 (_ > 1)) by lia.
    apply wp_ret. eapply (HQ _ _ u [_]); [lia|exact HG|].
    rewrite bool_decide_eq_true_2 by done. exact item_tree. }
  rewrite (bool_decide_eq_false_2 (-1 ≤ _ ≤ 1)) in HQ by done.
  destruct (unbalanced_fill n f t Hg H1 H2 H3 Hb) as (Eft & En & _).
  rewrite fill_height in HG'.
  assert (HQ' : del_fixed C s0 u cs done item (fill f t) Q).
  { intros p' s' u' new Hu HG2 Hp' _. eapply HQ; [exact Hu|exact HG2|exact Hp']. }
  unfold fill in Hb, HQ' |- *. destruct (fleft f).
  - rewrite bool_decide_eq_false_2, bool_decide_eq_true_2 by (simpl in *; lia).
    eapply (wp_del_right C s0 HC); [exact HG'|exact Hdone|lia|exact Hq|exact Ho|exact Hroom|lia
      |exact H3|exact Eft|exact HQ'].
  - rewrite bool_decide_eq_true_2 by (simpl in *; lia).
    eapply (wp_del_left C s0 HC); [exact HG'|exact Hdone|lia|exact Ho|exact Hq|exact Hroom|lia
      |exact H3|exact Eft|exact HQ'].
Qed.
End rotate.
End rebuild.

(** * What the loops build *)

Section steps.
Context (f : frame) (t : tree) (n : nat).
Context (H1 : (n ≤ S (height (ft f)))%nat) (H2 : (height (ft f) ≤ S n)%nat) (H3 : balanced (ft f)).

Lemma ins_balance_ok : grown n t →
  grown (S (n `max` height (ft f))) (ins_balance (fill f t)) ∧
  elements (ins_balance (fill f t)) = elements (fill f t) ∧
  (height t = n ∨ ¬ -1 ≤ bal (fill f t) ≤ 1 →
   height (ins_balance (fill f t)) = S (n `max` height (ft f))) ∧
  (height t = n → -1 ≤ bal (fill f t) ≤ 1).
Proof.
  intros Hg. assert (Hn : height t = n → -1 ≤ bal (fill f t) ≤ 1).
  { intros E. unfold fill. destruct (fleft f); simpl; lia. }
  unfold ins_balance. case_bool_decide as Hb.
  { split; [by apply grown_fill|]. split; [done|]. split; [|done].
    intros [E|?]; [|done]. rewrite fill_height. lia. }
  assert (Hfix : balanced (ins_fix (fill f t)) ∧ height (ins_fix (fill f t)) = S (n `max` height (ft f)) ∧
    elements (ins_fix (fill f t)) = elements (fill f t)).
  { assert (Hbt : balanced t) by apply Hg. unfold fill in *. destruct (fleft f).
    - assert (Hlow : bal (Node (fk f) t (ft f)) < -1).
      { destruct Hg as [_ [?|[? _]]]; simpl in *; lia. }
      destruct (ins_fix_height (fk f) t (ft f) n) as (? & Hh & ?); [done|done|by left|].
      destruct (heavy_left _ _ _ _ Hg H1 H3 Hlow) as (? & ? & _). split_and!; [done|lia|done].
    - assert (Hhigh : 1 < bal (Node (fk f) (ft f) t)).
      { destruct Hg as [_ [?|[? _]]]; simpl in *; lia. }
      destruct (ins_fix_height (fk f) (ft f) t n) as (? & Hh & ?); [done|done|by right|].
      destruct (heavy_right _ _ _ _ Hg H1 H3 Hhigh) as (? & ? & _). split_and!; [done|lia|done]. }
  destruct Hfix as (? & ? & ?). split_and!; [split; [done|by left]|done..].
Qed.
End steps.

Lemma bst_ins_balance rank K t : bst rank K t → bst rank K (ins_balance t).
Proof. intros H. unfold ins_balance. case_bool_decide; [done|by apply bst_ins_fix]. Qed.

Lemma ins_rebuild_correct rank K fs : ∀ t n, path_balanced fs n → grown n t → bst rank K (plug fs t) →
  elements (ins_rebuild fs t) = elements (plug fs t) ∧ balanced (ins_rebuild fs t) ∧
  bst rank K (ins_rebuild fs t).
Proof.
  induction fs as [|f fs IH]; intros t n Hpb Hg Hbst; [by destruct Hg|].
  destruct Hpb as (H1 & H2 & H3 & Hpb). cbn [ins_rebuild plug foldl] in *. fold (plug fs (fill f t)) in *.
  destruct (ins_balance_ok f t n H1 H2 H3 Hg) as (Hg' & He & _).
  destruct (IH (ins_balance (fill f t)) _ Hpb Hg') as (E & ? & ?).
  - eapply bst_plug; [exact Hbst|by eapply bst_ins_balance, bst_plug_sub|].
    intros e. rewrite He. by left.
  - unfold ins_rebuild in *. split; [|done]. by rewrite E, !elements_plug, He.
Qed.

(** * The loops *)

(** A history cell is at an address. *)
Lemma is_history_null s C h fs q : holds s C → is_history C h fs q →
  bool_decide (h = NULL_PTR) = bool_decide (fs = []).
Proof.
  intros HC Hh. destruct fs as [|f fs]; simpl in Hh; [by subst|].
  destruct Hh as (h' & Hb & _). apply HC, blk_pos in Hb.
  rewrite (bool_decide_eq_false_2 (_ = [])), bool_decide_eq_false_2; [done|unfold NULL_PTR; lia|done].
Qed.

Lemma app_incl (new l l' : list cell) : l ⊆ l' → new ++ l ⊆ new ++ l'.
Proof. intros H x. rewrite !elem_of_app. intros [?|?]; [by left|right; by apply H]. Qed.

Section loops.
Context (C : cenv) (s0 : state) (HC : holds s0 C).

Definition ins_cost (n : nat) (t : tree) : Z := if bool_decide (height t = n) then 0 else 8.

(** The statement for one step: a path item, balanced. *)
Lemma wp_avl_bc_insert_loop fs : ∀ fuel s u cs done q0 h q t n (Q : Z → state → Prop),
  grow s0 s u cs → done ⊆ cs → is_history C h fs q0 → is_avl (adds C done) q t →
  path_balanced fs n → grown n t → Z.of_nat n + 2 * Z.of_nat (length fs) < 2 ^ 20 →
  room s0 (u + 4 * Z.of_nat (length fs) + ins_cost n t) → (length fs < fuel)%nat →
  (∀ q' s' u' new, u ≤ u' ≤ u + 4 * Z.of_nat (length fs) + ins_cost n t →
    grow s0 s' u' new → is_avl (adds C new) q' (ins_rebuild fs t) → Q q' s') →
  wp (loop fuel avl_bc_insert_step (q, h)) Q s.
Proof.
  assert (Hcost : ∀ n t, 0 ≤ ins_cost n t ≤ 8) by (intros; unfold ins_cost; case_bool_decide; lia).
  induction fs as [|f fs IH]; intros fuel s u cs done q0 h q t n Q HG Hdone Hh Hq Hpb Hg Bn Hr Hfuel HQ;
    (destruct fuel as [|fuel]; [simpl in Hfuel; lia|]); cbn [loop]; apply wp_bind;
    unfold avl_bc_insert_step; rewrite (is_history_null _ _ _ _ _ HC Hh).
  { rewrite bool_decide_eq_true_2 by done. do 2 apply wp_ret.
    eapply HQ; [|exact HG|eapply is_avl_mono, Hq; by apply adds_mono]. simpl. pose proof (Hcost n t). lia. }
  rewrite bool_decide_eq_false_2 by done. cbn [negb length] in *.
  destruct Hpb as (H1 & H2 & H3 & Hpb). pose proof (Hcost n t).
  assert (Hht : (n ≤ height t ≤ S n)%nat) by (destruct Hg as [_ [?|[? _]]]; lia).
  apply wp_bind. eapply wp_new_path_item; [exact HC|exact HG|exact Hdone|exact Hh|exact Hq| |lia|lia|].
  { unfold room in *. lia. }
  intros item h' s1 HG1 Hh'. apply wp_bind.
  destruct Hh as (h2 & _ & _ & Ho & _).
  destruct (ins_balance_ok f t n H1 H2 H3 Hg) as (Hg' & He & Hc1 & Hc2).
  assert (Hc : ∀ x, (-1 ≤ bal (fill f t) ≤ 1 → x = 0) → x ≤ 8 →
    x + ins_cost (S (n `max` height (ft f))) (ins_balance (fill f t)) ≤ ins_cost n t).
  { intros x Hx Hx8. unfold ins_cost at 2. case_bool_decide as E.
    - unfold ins_cost. rewrite bool_decide_eq_true_2 by auto. specialize (Hx (Hc2 E)). lia.
    - destruct (decide (-1 ≤ bal (fill f t) ≤ 1)) as [Hb|Hb].
      + specialize (Hx Hb). pose proof (Hcost (S (n `max` height (ft f))) (ins_balance (fill f t))). lia.
      + unfold ins_cost. rewrite bool_decide_eq_true_2 by auto. lia. }
  eapply (wp_bc_insert_rotate C s0 HC); [exact HG1|exact Hdone|avl_lift|exact Hq|exact H1|exact H2|exact H3|lia|exact Hg| |].
  { intros Hb. assert (E : height t ≠ n) by (intros E; by apply Hb, Hc2).
    unfold ins_cost in Hr. rewrite bool_decide_eq_false_2 in Hr by done. unfold room in *. lia. }
  intros p' s' u' new Hu1 Hu2 Hu3 HG' Hp'. apply wp_ret.
  pose proof (Hc (u' - (u + 4)) ltac:(intros Hb; rewrite Hu2 by done; lia) ltac:(lia)) as Hcu.
  eapply (IH fuel s' u' (new ++ cs) (new ++ done)); [exact HG'|by apply app_incl|exact Hh'|exact Hp'|exact Hpb|exact Hg'|lia| |lia|].
  { unfold room in *. lia. }
  intros q' s2 u2 new2 Hu HG2 Hq'. eapply HQ; [|exact HG2|exact Hq']. lia.
Qed.

Lemma wp_avl_bc_delete_loop fs : ∀ fuel s u cs done item f q0 q h t n (Q : Z → state → Prop),
  grow s0 s u (frame_cell (item_frame item f t) q :: cs) → done ⊆ cs →
  is_avl (adds C done) (fo f) (ft f) → is_history C h fs q0 → is_avl (adds C done) q t →
  path_balanced (f :: fs) n → shrunk n t → Z.of_nat n + 2 * Z.of_nat (length fs) < 2 ^ 20 →
  room s0 (u + 8 + 12 * Z.of_nat (length fs)) → (length fs < fuel)%nat →
  (∀ q' s' u' new, u ≤ u' ≤ u + 8 + 12 * Z.of_nat (length fs) →
    grow s0 s' u' new → is_avl (adds C new) q' (del_rebuild (f :: fs) t) → Q q' s') →
  wp (loop fuel avl_bc_delete_step (item, h)) Q s.
Proof.
  induction fs as [|f' fs IH];
    intros fuel s u cs done item f q0 q h t n Q HG Hdone Ho Hh Hq Hpb Hg Bn Hr Hfuel HQ;
    (destruct fuel as [|fuel]; [simpl in Hfuel; lia|]); cbn [loop]; apply wp_bind; unfold avl_bc_delete_step;
    destruct Hpb as (H1 & H2 & H3 & Hpb); destruct (del_balance_ok f t n H1 H2 H3 Hg) as (Hg' & He);
    apply wp_bind; (eapply (wp_bc_delete_rotate C s0 HC);
      [exact HG|exact Hdone|exact Ho|exact Hq|exact H1|exact H2|exact H3|lia|exact Hg|unfold room in *; lia|]);
    intros p' s' u' new Hu HG' Hp'; rewrite (is_history_null _ _ _ _ _ HC Hh).
  { rewrite bool_decide_eq_true_2 by done. do 2 apply wp_ret.
    eapply HQ; [|exact HG'|eapply is_avl_mono, Hp'; apply adds_mono; [done|]]; [simpl; lia|].
    by apply app_incl. }
  rewrite bool_decide_eq_false_2 by done. cbn [negb length] in *. pose proof Hpb as (H1' & H2' & _).
  assert (Hht : (height (del_balance (fill f t)) ≤ S (n `max` height (ft f)))%nat)
    by (destruct Hg' as [_ [?|?]]; lia).
  assert (Hincl : new ++ done ⊆ new ++ cs) by (by apply app_incl).
  apply wp_bind. eapply wp_new_path_item; [exact HC|exact HG'|exact Hincl|exact Hh|exact Hp'| |lia|lia|].
  { unfold room in *. lia. }
  intros item' h' s2 HG2 Hh'. destruct Hh as (h2 & _ & _ & Ho' & _). apply wp_ret.
  eapply (IH fuel s2 (u' + 4)); [exact HG2|exact Hincl|eapply is_avl_mono, Ho'; apply adds_base|exact Hh'|exact Hp'
    |exact Hpb|exact Hg'|lia|unfold room in *; lia|lia|].
  intros q' s3 u3 new3 Hu3 HG3 Hq'. eapply HQ; [|exact HG3|exact Hq']. lia.
Qed.
End loops.

(** * The operations *)

Section operations.
Context (rank : Z → Z) (K : Z → Prop) (C : cenv) (item_cmp : cmp_fun) (c : Z → Z → cmp_result).
Context (Hcmp : compares C K rank item_cmp c).
Context (fuel : nat) (Hfuel : (MAX_HEIGHT < fuel)%nat).
Context (key : Z) (Hkey : K key).
Context (T : tree) (HT : bst rank K T) (Hbal : balanced T) (Hmax : (height T ≤ MAX_HEIGHT)%nat).

(** The position of [t], at [p], in [T], with its history. *)
Record traced (C' : cenv) (fs : list frame) (p h : Z) (t : tree) : Prop := {
  tr_history : is_history C' h fs p;
  tr_tree : is_avl C' p t;
  tr_plug : plug fs t = T;
  tr_balanced : path_balanced fs (height t);
  tr_length : (length fs + height t ≤ height T)%nat;
  tr_fits : fits rank fs (key, 0)
}.

Lemma traced_mono C1 C2 fs p h t : csub C1 C2 → traced C1 fs p h t → traced C2 fs p h t.
Proof. intros HC []. split; [by eapply is_history_mono|by eapply is_avl_mono|done..]. Qed.

(** The cell at the head of the history for an insertion. *)
Definition turn (k : Z) : Z :=
  match order (rank key) (rank k) with CMP_EQUAL => 0 | CMP_LESS => 2 | _ => 3 end.

Lemma turn_cases k :
  (turn k = 0 ∧ rank k = rank key) ∨ (turn k = 2 ∧ rank key < rank k) ∨ (turn k = 3 ∧ rank k < rank key).
Proof. unfold turn, order. repeat case_bool_decide; lia. Qed.

Definition insert_history (C' : cenv) (h : Z) : Prop :=
  ∃ fs p k d h', C' h [header CELL_history (turn k); p; h'] ∧ traced C' fs p h' (Leaf k d).
Definition delete_history (C' : cenv) (h : Z) : Prop :=
  ∃ fs p k d, rank k = rank key ∧ traced C' fs p h (Leaf k d).

(** What a position says of the map. *)
Lemma traced_leaf C' fs p h k d : traced C' fs p h (Leaf k d) →
  K k ∧ bst rank K (plug fs (Leaf k d)) ∧ (length fs ≤ MAX_HEIGHT)%nat.
Proof.
  intros [_ _ Hp _ Hl _]. simpl in Hl. rewrite Hp. split; [|split; [done|lia]].
  rewrite <- Hp in HT. apply (bst_plug_sub _ _ fs _ HT).
Qed.

Lemma wp_avl_bc_insert s0 h data (Q : Z → state → Prop) :
  holds s0 C → wf s0 → room s0 AVL_MAX_ALLOCATION_IN_INSERT → insert_history C h →
  (∀ r s' u cs t, 0 ≤ u ≤ AVL_MAX_ALLOCATION_IN_INSERT → grow s0 s' u cs → is_avl (adds C cs) r t →
    balanced t → bst rank K t → tree_map rank t = <[rank key := data]> (tree_map rank T) → Q r s') →
  wp (avl_bc_insert fuel h key data) Q s0.
Proof.
  intros HC Hw Hroom (fs & p & k & d & h' & Hh & Htr) HQ.
  destruct (traced_leaf _ _ _ _ _ _ Htr) as (Kk & Hbst & Hlen). destruct Htr as [Hhist Hp Hplug Hpb _ Hfit].
  pose proof (grow_refl s0 Hw) as HG. unfold AVL_MAX_ALLOCATION_IN_INSERT, MAX_HEIGHT in *.
  assert (Hhpos : 0 < h) by apply (blk_pos _ _ _ (HC _ _ Hh)). cbn [is_avl] in Hp.
  assert (Hturn : 0 ≤ turn k < 16) by (destruct (turn_cases k) as [[-> _]|[[-> _]|[-> _]]]; lia).
  change (height (Leaf k d)) with 0%nat in Hpb. unfold avl_bc_insert. wp_steps.
  rewrite bool_decide_eq_false_2 by (unfold NULL_PTR; lia). wp_steps. rewrite header_nibble by done.
  (* the common end *)
  assert (Hend : ∀ s cs q t, grow s0 s (3 + 4) cs ∨ grow s0 s 3 cs → is_avl (adds C cs) q t → grown 0 t →
    bst rank K (plug fs t) → tree_map rank (plug fs t) = <[rank key := data]> (tree_map rank T) →
    wp (loop fuel avl_bc_insert_step (q, h')) Q s).
  { intros sx cs q t HG' Hq Hg Hb Hm.
    assert (∃ u, grow s0 sx u cs ∧ 0 ≤ u ≤ 7) as (u & HG2 & Hu).
    { destruct HG'; [exists 7|exists 3]; (split; [done|lia]). }
    assert (Hc : ins_cost 0 t ≤ 8) by (unfold ins_cost; case_bool_decide; lia).
    destruct (ins_rebuild_correct rank K fs t 0 Hpb Hg Hb) as (He & Hb' & Hs').
    eapply (wp_avl_bc_insert_loop C s0 HC); [exact HG2|reflexivity|exact Hhist|exact Hq|exact Hpb|exact Hg|
      simpl; lia|unfold room in *; lia|lia|].
    intros q' s' u' new Hu' HG3 Hq'. eapply HQ; [|exact HG3|exact Hq'|done|done|].
    - lia.
    - rewrite <- Hm. unfold tree_map. by rewrite He. }
  destruct (decide (rank k = rank key)) as [E|E].
  - assert (Et : turn k = 0) by (destruct (turn_cases k) as [[? _]|[[_ ?]|[_ ?]]]; [done|lia..]).
    rewrite Et in Hh |- *. rewrite bool_decide_eq_true_2 by done. wp_steps.
    eapply Hend; [right; exact HG|instantiate (1 := Leaf key data); solve_cell|by split; [|left]| |].
    + eapply bst_plug; [exact Hbst|done|]. intros e He. simpl in He.
      apply list_elem_of_singleton in He as ->. by right.
    + rewrite <- Hplug. by rewrite (tree_map_update _ _ _ _ _ _ Hbst Hfit).
  - destruct (two_leaves_ok rank K fuel Hfuel k d key data Kk Hkey E) as (Hb2 & Hg & He2).
    assert (HbstN : bst rank K (plug fs (two_leaves rank k d key data))).
    { eapply bst_plug; [exact Hbst|exact Hb2|]. rewrite He2. intros e He.
      assert (e = (k, d) ∨ e = (key, data)) as [->| ->]
      by (revert He; case_bool_decide; rewrite !elem_of_cons, elem_of_nil; tauto).
      - left. by left.
      - by right. }
    assert (Hm : tree_map rank (plug fs (two_leaves rank k d key data)) = <[rank key := data]> (tree_map rank T)).
    { rewrite (tree_map_add _ _ _ _ _ _ Hbst Hfit data _ E He2). by rewrite Hplug. }
    unfold two_leaves in Hg, HbstN, Hm.
    destruct (turn_cases k) as [[_ ?]|[[Et Hlt]|[Et Hlt]]]; [done|..];
      rewrite Et in Hh |- *; rewrite (bool_decide_eq_false_2 (_ = 0)) by done; wp_steps;
      rewrite header_lor in HG by done;
      [rewrite bool_decide_eq_true_2 by done|rewrite bool_decide_eq_false_2 by done]; wp_steps;
      (eapply Hend; [left; exact HG| |exact Hg|exact HbstN|exact Hm]).
    + rewrite bool_decide_eq_true_2 by done. exists p0, p. split; [solve_cell|]. split; [solve_cell|by left].
    + rewrite bool_decide_eq_false_2 by lia. exists p, p0. split; [solve_cell|]. split; [by left|solve_cell].
Qed.

Lemma wp_avl_bc_delete s0 h (Q : Z → state → Prop) :
  holds s0 C → wf s0 → room s0 AVL_MAX_ALLOCATION_IN_DELETE → delete_history C h →
  (∀ s' u cs, 0 ≤ u ≤ AVL_MAX_ALLOCATION_IN_DELETE → grow s0 s' u cs →
    delete (rank key) (tree_map rank T) = ∅ → Q NULL_PTR s') →
  (∀ r s' u cs t, 0 ≤ u ≤ AVL_MAX_ALLOCATION_IN_DELETE → grow s0 s' u cs → is_avl (adds C cs) r t →
    balanced t → bst rank K t → tree_map rank t = delete (rank key) (tree_map rank T) → Q r s') →
  wp (avl_bc_delete fuel h) Q s0.
Proof.
  intros HC Hw Hroom (fs & p & k & d & E & Htr) HQ0 HQ.
  destruct (traced_leaf _ _ _ _ _ _ Htr) as (Kk & Hbst & Hlen). destruct Htr as [Hhist Hp Hplug Hpb _ Hfit].
  pose proof (grow_refl s0 Hw) as HG. unfold AVL_MAX_ALLOCATION_IN_DELETE, MAX_HEIGHT in *.
  unfold avl_bc_delete. rewrite (is_history_null _ _ _ _ _ HC Hhist).
  destruct fs as [|f fs].
  { rewrite bool_decide_eq_true_2 by done. apply wp_ret. eapply HQ0; [|exact HG|]; [lia|].
    rewrite <- Hplug. unfold tree_map. simpl. rewrite E. by apply delete_insert_id. }
  rewrite bool_decide_eq_false_2 by done. destruct Hhist as (h' & Hh & Hf & Ho & Hhist).
  destruct Hpb as (H1 & H2 & H3 & Hpb). simpl in H1, H2, Hpb, Hlen.
  (* without the leaf *)
  assert (Hg : shrunk (S (height (ft f))) (ft f)) by (split; [done|by right]).
  assert (Hel : elements (plug fs (ft f)) = [] ++ ctx_left (f :: fs) ++ ctx_right (f :: fs)).
  { rewrite elements_plug. cbn [ctx_left ctx_right app].
    destruct (fleft f); rewrite <- ?app_assoc; by rewrite ?app_nil_l. }
  assert (Hsub : bst rank K (plug fs (ft f))).
  { pose proof (bst_plug_sub rank K fs _ Hbst) as Hf'.
    eapply bst_plug; [exact Hbst| |].
    - unfold fill in Hf'. destruct (fleft f); apply Hf'.
    - intros e He. left. rewrite elements_fill, !elem_of_app. destruct (fleft f); tauto. }
  assert (Hrem : tree_map rank (plug fs (ft f)) = delete (rank key) (tree_map rank T)).
  { rewrite (tree_map_remove _ _ _ _ _ _ Hbst Hfit _ E Hel). by rewrite <- Hplug. }
  unfold fson, frame_cell in *. cbn [fst snd] in Hf. wp_steps.
  rewrite header_nibble by (destruct (fleft f); lia).
  eapply (wp_rd _ _ _ _ (fo f)); [by apply HC|by destruct (fleft f)|by destruct (fleft f)|].
  wp_steps. rewrite (is_history_null _ _ _ _ _ HC Hhist). destruct fs as [|f2 fs].
  { rewrite bool_decide_eq_true_2 by done. apply wp_ret.
    eapply (HQ _ _ _ _ (ft f)); [|exact HG|eapply is_avl_mono, Ho; apply adds_base|done|exact Hsub|exact Hrem]. lia. }
  rewrite bool_decide_eq_false_2 by done. apply wp_bind.
  destruct (del_rebuild_correct rank K (f2 :: fs) (ft f) _ Hpb Hg Hsub) as (He & Hb' & Hs').
  pose proof (is_avl_mono _ (adds C []) _ _ (adds_base C []) Ho) as Ho1. cbn [length] in *.
  pose proof Hpb as (H1' & H2' & _).
  eapply wp_new_path_item; [exact HC|exact HG|reflexivity|exact Hhist|exact Ho1|unfold room in *; lia|lia|lia|].
  intros item h2 s1 HG1 Hh2. destruct Hhist as (h3 & _ & _ & Ho2 & _).
  eapply (wp_avl_bc_delete_loop C s0 HC fs fuel s1 _ [] []);
    [exact HG1|reflexivity|eapply is_avl_mono, Ho2; apply adds_base|exact Hh2|exact Ho1|exact Hpb|exact Hg|lia
    |unfold room in *; lia|lia|].
  intros q' s' u' new Hu HG2 Hq'. eapply HQ; [|exact HG2|exact Hq'|done|done|].
  - lia.
  - rewrite <- Hrem. unfold tree_map. by rewrite He.
Qed.

(** ** Building histories *)

Section build.
Context (s0 : state) (HC : holds s0 C) (Hroom : room s0 (3 * (Z.of_nat MAX_HEIGHT + 1))).

Definition key_failed : Prop := ∃ k, K k ∧ c key k = CMP_ERROR.

Lemma wp_build_history_descend n : ∀ t fs p h s cs (Q : option (Z * Z) → state → Prop),
  grow s0 s (3 * Z.of_nat (length fs)) cs → traced (adds C cs) fs p h t → (height t < n)%nat →
  (∀ s' u cs', 0 ≤ u ≤ 3 * Z.of_nat MAX_HEIGHT → grow s0 s' u cs' → key_failed → Q None s') →
  (∀ fs' p' h' k d s' cs', grow s0 s' (3 * Z.of_nat (length fs')) cs' →
    traced (adds C cs') fs' p' h' (Leaf k d) → Q (Some (p', h')) s') →
  wp (loop n (build_history_step key item_cmp) (p, h)) Q s.
Proof.
  induction n as [|n IH]; intros t fs p h s cs Q HG Htr Hn Herr HQ; [lia|].
  pose proof (grow_holds _ _ _ _ _ HG HC) as HCs.
  cbn [loop]. apply wp_bind. unfold build_history_step. apply wp_bind.
  pose proof Htr as [Hhist Ht Hplug Hpb Hlen Hfit]. destruct t as [k d|k l r].
  { eapply wp_internal; [by apply HCs|done|]. rewrite bool_decide_eq_false_2 by done.
    do 2 apply wp_ret. by eapply HQ. }
  destruct Ht as (pl & pr & Hp & Hl & Hr). cbn [height] in Hlen, Hn. unfold MAX_HEIGHT in *.
  eapply wp_internal; [by apply HCs|simpl; lia|]. rewrite bool_decide_eq_true_2 by done.
  assert (Kk : K k) by (eapply (bst_node _ _ fs); by rewrite Hplug).
  assert (Hbt : balanced (Node k l r)) by (apply (balanced_plug_sub fs); by rewrite Hplug).
  destruct Hbt as (Bl & Br & H1 & H2).
  apply wp_bind. eapply wp_rd; [by apply HCs|done|done|].
  apply wp_bind. eapply (wp_cmp rank K C item_cmp c Hcmp s0 HC key Hkey); [exact HG|exact Kk|].
  case_bool_decide as Hck.
  { do 2 apply wp_ret. eapply Herr; [|exact HG|by exists k]. lia. }
  destruct (cmp_order _ _ _ _ _ Hcmp key k Hkey Kk) as [Hord|]; [|done]. rewrite Hord.
  destruct (decide (rank key ≤ rank k)) as [Hkk|Hkk].
  - replace (bool_decide (order _ _ = CMP_LESS) || _) with true by (symmetry; by apply order_left).
    unfold avl_bc_delve_left. wp_steps. rewrite header_lor in HG by done. wp_steps.
    replace (3 * Z.of_nat (length fs) + 3) with (3 * Z.of_nat (S (length fs))) in HG by lia.
    eapply (IH l (mkFrame p true k pr r (S (height l `max` height r)) :: fs));
      [exact HG| |lia|exact Herr|exact HQ]. split; cbn [height length] in *; [| |done| |lia|by constructor].
    + exists h. split; [solve_cell|]. split; [eapply adds_mono, Hp; [done|solve_incl]|]. split; [eapply is_avl_mono, Hr|eapply is_history_mono, Hhist];
        (apply adds_mono; [done|solve_incl]).
    + eapply is_avl_mono, Hl. apply adds_mono; [done|solve_incl].
    + by split_and!.
  - replace (bool_decide (order _ _ = CMP_LESS) || _) with false
      by (symmetry; apply not_true_iff_false; rewrite order_left; lia).
    unfold avl_bc_delve_right. wp_steps. rewrite header_lor in HG by done. wp_steps.
    replace (3 * Z.of_nat (length fs) + 3) with (3 * Z.of_nat (S (length fs))) in HG by lia.
    eapply (IH r (mkFrame p false k pl l (S (height l `max` height r)) :: fs));
      [exact HG| |lia|exact Herr|exact HQ].
    split; cbn [height length] in *; [| |done| |lia|constructor; [simpl; lia|done]].
    + exists h. split; [solve_cell|]. split; [eapply adds_mono, Hp; [done|solve_incl]|]. split; [eapply is_avl_mono, Hl|eapply is_history_mono, Hhist];
        (apply adds_mono; [done|solve_incl]).
    + eapply is_avl_mono, Hr. apply adds_mono; [done|solve_incl].
    + split_and!; [done..|]. by rewrite Nat.max_comm.
Qed.

(** The words that building a history takes. *)
Definition HISTORY_WORDS : Z := 3 * (Z.of_nat MAX_HEIGHT + 1).

Lemma wp_build_history_for_insert root (Q : Z * bool → state → Prop) :
  wf s0 → is_avl C root T →
  (∀ s' u cs, 0 ≤ u ≤ HISTORY_WORDS → grow s0 s' u cs → key_failed → Q (NULL_PTR, true) s') →
  (∀ h s' u cs, 0 ≤ u ≤ HISTORY_WORDS → grow s0 s' u cs → insert_history (adds C cs) h →
    Q (h, false) s') →
  wp (build_history_for_insert fuel root key item_cmp) Q s0.
Proof.
  intros Hw Hroot Herr HQ. unfold build_history_for_insert.
  rewrite bool_decide_eq_false_2 by (apply (is_avl_pos _ _ _ _ HC) in Hroot; unfold NULL_PTR; lia).
  apply wp_bind. eapply (wp_build_history_descend fuel T [] root NULL_PTR s0 []);
    [by apply grow_refl| |lia| |].
  { split; simpl; [done|eapply is_avl_mono, Hroot; apply adds_base|done..|by constructor]. }
  { intros s' u cs' Hu HG Hf. apply wp_ret. eapply Herr; [|exact HG|done].
    unfold HISTORY_WORDS. lia. }
  intros fs p h k d s cs HG Htr.
  destruct (traced_leaf _ _ _ _ _ _ Htr) as (Kk & _ & Hlen). pose proof (tr_tree _ _ _ _ _ Htr) as Hp.
  cbn [is_avl] in Hp. unfold HISTORY_WORDS, MAX_HEIGHT in *. wp_steps.
  eapply (wp_cmp rank K C item_cmp c Hcmp s0 HC key Hkey); [exact HG|exact Kk|].
  destruct (decide (c key k = CMP_ERROR)) as [Ec|Ec].
  { rewrite bool_decide_eq_true_2 by done. apply wp_ret. eapply Herr; [|exact HG|by exists k]. lia. }
  rewrite bool_decide_eq_false_2 by done.
  destruct (cmp_order _ _ _ _ _ Hcmp key k Hkey Kk) as [Hord|]; [|done].
  unfold avl_bc_delve_equal, avl_bc_delve_left, avl_bc_delve_right.
  assert (Hend : ∀ p0 s', grow s0 s' (3 * Z.of_nat (length fs) + 3)
      ((p0, [header CELL_history (turn k); p; h]) :: cs) → Q (p0, false) s').
  { intros p0 s' HG'. eapply HQ; [|exact HG'|]; [lia|]. exists fs, p, k, d, h. split; [solve_cell|].
    eapply traced_mono, Htr. apply adds_mono; [done|solve_incl]. }
  unfold turn in Hend. rewrite <- Hord in Hend. destruct (c key k) eqn:Eck; try done.
  - rewrite bool_decide_eq_true_2 by done. wp_steps. rewrite header_lor_0 in HG. wp_steps. by apply Hend.
  - rewrite bool_decide_eq_false_2, bool_decide_eq_true_2 by done. wp_steps.
    rewrite header_lor in HG by done. wp_steps. by apply Hend.
  - rewrite !bool_decide_eq_false_2 by done. wp_steps.
    rewrite header_lor in HG by done. wp_steps. by apply Hend.
  - unfold order in Hord. repeat case_bool_decide; done.
  - unfold order in Hord. repeat case_bool_decide; done.
Qed.

Lemma wp_build_history_for_delete root (Q : Z * bool → state → Prop) :
  wf s0 → is_avl C root T →
  (∀ s' u cs, 0 ≤ u ≤ HISTORY_WORDS → grow s0 s' u cs →
    key_failed ∨ tree_map rank T !! rank key = None → Q (NULL_PTR, true) s') →
  (∀ h s' u cs, 0 ≤ u ≤ HISTORY_WORDS → grow s0 s' u cs → delete_history (adds C cs) h →
    is_Some (tree_map rank T !! rank key) → Q (h, false) s') →
  wp (build_history_for_delete fuel root key item_cmp) Q s0.
Proof.
  intros Hw Hroot Herr HQ. unfold build_history_for_delete.
  rewrite bool_decide_eq_false_2 by (apply (is_avl_pos _ _ _ _ HC) in Hroot; unfold NULL_PTR; lia).
  apply wp_bind. eapply (wp_build_history_descend fuel T [] root NULL_PTR s0 []);
    [by apply grow_refl| |lia| |].
  { split; simpl; [done|eapply is_avl_mono, Hroot; apply adds_base|done..|by constructor]. }
  { intros s' u cs' Hu HG Hf. apply wp_ret. eapply Herr; [|exact HG|by left].
    unfold HISTORY_WORDS. lia. }
  intros fs p h k d s cs HG Htr.
  destruct (traced_leaf _ _ _ _ _ _ Htr) as (Kk & Hbst & Hlen). pose proof Htr as [_ Hp Hplug _ _ Hfit].
  pose proof (tree_map_lookup rank K fs k d key Hbst Hfit) as Hlook. rewrite Hplug in Hlook.
  cbn [is_avl] in Hp. unfold HISTORY_WORDS, MAX_HEIGHT in *. wp_steps.
  eapply (wp_cmp rank K C item_cmp c Hcmp s0 HC key Hkey); [exact HG|exact Kk|].
  destruct (cmp_order _ _ _ _ _ Hcmp key k Hkey Kk) as [Hord|Ec].
  - destruct (decide (rank key = rank k)) as [E|E].
    + rewrite bool_decide_eq_true_2 by (by rewrite Hord, order_eq). apply wp_ret.
      rewrite bool_decide_eq_true_2 in Hlook by done.
      eapply HQ; [|exact HG| |by rewrite Hlook]; [lia|]. by exists fs, p, k, d.
    + rewrite bool_decide_eq_false_2 by (by rewrite Hord, order_eq). apply wp_ret.
      rewrite bool_decide_eq_false_2 in Hlook by done. eapply Herr; [|exact HG|by right]. lia.
  - rewrite bool_decide_eq_false_2 by congruence. apply wp_ret.
    eapply Herr; [|exact HG|left; by exists k]. lia.
Qed.
End build.
End operations.

(** ** The self-test *)

Lemma wp_avl_rec_make_assertions C s t : holds s C → balanced t → (height t ≤ MAX_HEIGHT)%nat →
  ∀ fuel p (Q : unit → state → Prop), (height t < fuel)%nat → is_avl C p t → Q tt s →
  wp (avl_rec_make_assertions fuel p) Q s.
Proof.
  intros HC. induction t as [k d|k l IHl r IHr]; intros Hb Hh fuel p Q Hf Hp HQ;
    (destruct fuel as [|fuel]; [lia|]); cbn [avl_rec_make_assertions];
    pose proof (is_avl_pos _ _ _ _ HC Hp) as Hpos; apply wp_bind, wp_assert;
    try (by apply bool_neq_null); apply wp_bind.
  - eapply wp_internal; [by apply HC|done|]. rewrite bool_decide_eq_false_2 by done.
    simpl in Hp. by wp_steps.
  - destruct Hp as (pl & pr & Hp & Hl & Hr), Hb as (Bl & Br & H1 & H2). unfold MAX_HEIGHT in *.
    cbn [height] in Hh, Hf.
    eapply wp_internal; [by apply HC|simpl; lia|]. rewrite bool_decide_eq_true_2 by done.
    wp_steps. apply IHl; [done|lia|lia|done|]. wp_steps. apply IHr; [done|lia|lia|done|].
    assert (HH : ∀ Q' : Z → state → Prop, Q' (Z.of_nat (height (Node k l r))) s → wp (HEIGHT p) Q' s).
    { intros Q' HQ'. eapply wp_HEIGHT; [exact HC|by apply HC|exact Hl|exact Hr|lia|lia|exact HQ']. }
    apply wp_bind, HH, wp_bind, wp_assert; [apply bool_decide_eq_true; simpl; lia|].
    wp_steps; rewrite ?header_low by (simpl; lia); [apply bool_decide_eq_true; simpl; lia|].
    apply HH. wp_steps; rewrite ?header_low by (simpl; lia); [by apply bool_decide_eq_true|].
    eapply wp_BALANCE; [exact HC|by apply HC|exact Hl|exact Hr|lia|lia|].
    apply wp_assert; [|done]. apply andb_true_iff. split; apply bool_decide_eq_true; lia.
Qed.

(** * Properties *)

(** A grown state extends what holds to the whole of it. *)
Lemma grow_csub s s' u cs : grow s s' u cs → csub (adds (blk s) cs) (blk s').
Proof. intros HG q ws. apply (grow_holds _ _ _ _ _ HG (holds_blk s)). Qed.

Lemma room_grow s s' u cs n m : grow s s' u cs → u ≤ n → room s (n + m) → room s' m.
Proof. intros HG Hu Hr. eapply grow_room; [exact HG|]. unfold room in *. lia. Qed.

Section properties.
Context (rank : Z → Z) (K : Z → Prop) (item_cmp : cmp_fun) (c : Z → Z → cmp_result).
Context (fuel : nat) (Hfuel : (MAX_HEIGHT < fuel)%nat) (s : state) (Hw : wf s).
Context (Hcmp : compares (blk s) K rank item_cmp c).
Context (key : Z) (Hkey : K key) (root : Z) (m : gmap Z Z).
Context (Hrepr : avl_repr rank K (blk s) root m).

(** The comparison with some key fails. *)
Let cmp_fails : Prop := ∃ k, K k ∧ c key k = CMP_ERROR.

(** C26. Building a history and inserting with it: [build_history_for_insert]
    followed by [avl_bc_insert] makes a balanced search tree for the map with the
    key's data replaced, unless a comparison failed, which [*result = 0] tells.
    No old cell is changed. *)
Theorem avl_bc_insert_correct :
  Z.of_nat (size m) + 1 < 2 ^ 32 → room s (HISTORY_WORDS + AVL_MAX_ALLOCATION_IN_INSERT) →
  ∃ h b s1, build_history_for_insert fuel root key item_cmp s = Ok (h, b) s1 ∧
    s ⊑ₛ s1 ∧ wf s1 ∧ (b = true → cmp_fails) ∧
    (b = false → ∀ data, ∃ r s2, avl_bc_insert fuel h key data s1 = Ok r s2 ∧
      s ⊑ₛ s2 ∧ wf s2 ∧ avl_repr rank K (blk s2) r (<[rank key := data]> m)).
Proof.
  intros Hsize Hroom. destruct (decide (root = NULL_PTR)) as [Hnull|Hnull].
  { exists NULL_PTR, false, s. rewrite Hnull. split; [done|]. split; [done|]. split; [done|].
    split; [done|]. intros _ data.
    destruct Hrepr as [[_ ->]|(t & Ht & _)].
    2: { apply (is_avl_pos _ _ _ _ (holds_blk s)) in Ht. rewrite Hnull in Ht. by unfold NULL_PTR in Ht. }
    assert (H : wp (avl_bc_insert fuel NULL_PTR key data)
      (λ r s2, ∃ u cs, grow s s2 u cs ∧ (r, [header CELL_avl_leaf 0; key; data]) ∈ cs) s).
    { pose proof (grow_refl s Hw) as HG. unfold HISTORY_WORDS, MAX_HEIGHT, AVL_MAX_ALLOCATION_IN_INSERT in Hroom.
      unfold avl_bc_insert. wp_steps. eexists _, _. split; [exact HG|by left]. }
    apply wp_inv in H as (r & s2 & E & u & cs & HG & Hr). exists r, s2. split; [done|].
    split; [apply HG|]. split; [apply HG|]. right. exists (Leaf key data).
    split; [by apply (grow_csub _ _ _ _ HG); right|]. split_and!; done. }
  destruct (avl_repr_nonnull _ _ _ _ _ _ (holds_blk s) Hrepr Hnull) as (T & HT & Hb & Hbst & Em & Hh & Hs).
  assert (H : wp (build_history_for_insert fuel root key item_cmp) (λ hb s1, ∃ u cs,
    u ≤ HISTORY_WORDS ∧ grow s s1 u cs ∧ (hb.2 = true → cmp_fails) ∧
    (hb.2 = false → insert_history rank key T (adds (blk s) cs) hb.1)) s).
  { eapply (wp_build_history_for_insert rank K (blk s) item_cmp c Hcmp fuel Hfuel key Hkey T Hbst Hb Hh
      s (holds_blk s)); [|done|exact HT|..].
    - unfold HISTORY_WORDS, AVL_MAX_ALLOCATION_IN_INSERT, room in *. lia.
    - intros s' u cs [? ?] HG Hf. by exists u, cs.
    - intros h s' u cs [? ?] HG Hf. by exists u, cs. }
  apply wp_inv in H as ([h b] & s1 & E & u & cs & Hu & HG & Hf & Hok). simpl in Hf, Hok.
  exists h, b, s1. split; [done|]. split; [apply HG|]. split; [apply HG|]. split; [done|].
  intros Hfalse data. specialize (Hok Hfalse).
  assert (H : wp (avl_bc_insert fuel h key data)
    (λ r s2, s1 ⊑ₛ s2 ∧ wf s2 ∧ avl_repr rank K (blk s2) r (<[rank key := data]> m)) s1).
  { eapply (wp_avl_bc_insert rank K (adds (blk s) cs) fuel Hfuel key Hkey T Hbst Hh);
      [apply (grow_csub _ _ _ _ HG)|apply HG|by eapply room_grow|exact Hok|].
    intros r s' u' cs' t Hu' HG' Hr Hb' Hs' Hm. split; [apply HG'|]. split; [apply HG'|].
    right. exists t. split.
    { eapply is_avl_mono, Hr. intros q ws [Hq|Hq].
      - eapply blk_ext; [apply HG'|]. by apply (grow_csub _ _ _ _ HG).
      - apply (grow_csub _ _ _ _ HG'). by right. }
    split_and!; [done|done|by rewrite Hm, Em|].
    rewrite <- (tree_map_size rank K) by done. rewrite Hm, <- Em, map_size_insert.
    destruct (m !! rank key); simpl; lia. }
  apply wp_inv in H as (r & s2 & E2 & He & Hw2 & Hr). exists r, s2. split; [done|].
  split; [etrans; [apply HG|done]|done].
Qed.

(** C27. Building a history and deleting with it: [avl_bc_delete] removes the
    key and nothing else, with every rotation at its place.  No old cell is
    changed. *)
Theorem avl_bc_delete_correct :
  root ≠ NULL_PTR → room s (HISTORY_WORDS + AVL_MAX_ALLOCATION_IN_DELETE) →
  ∃ h b s1, build_history_for_delete fuel root key item_cmp s = Ok (h, b) s1 ∧
    s ⊑ₛ s1 ∧ wf s1 ∧ (b = true → cmp_fails ∨ m !! rank key = None) ∧
    (b = false → is_Some (m !! rank key) ∧
      ∃ r s2, avl_bc_delete fuel h s1 = Ok r s2 ∧
        s ⊑ₛ s2 ∧ wf s2 ∧ avl_repr rank K (blk s2) r (delete (rank key) m)).
Proof.
  intros Hnull Hroom.
  destruct (avl_repr_nonnull _ _ _ _ _ _ (holds_blk s) Hrepr Hnull) as (T & HT & Hb & Hbst & Em & Hh & Hs).
  assert (H : wp (build_history_for_delete fuel root key item_cmp) (λ hb s1, ∃ u cs,
    u ≤ HISTORY_WORDS ∧ grow s s1 u cs ∧ (hb.2 = true → cmp_fails ∨ m !! rank key = None) ∧
    (hb.2 = false → is_Some (m !! rank key) ∧ delete_history rank key T (adds (blk s) cs) hb.1)) s).
  { rewrite Em. eapply (wp_build_history_for_delete rank K (blk s) item_cmp c Hcmp fuel Hfuel key Hkey
      T Hbst Hb Hh s (holds_blk s)); [|done|exact HT|..].
    - unfold HISTORY_WORDS, AVL_MAX_ALLOCATION_IN_DELETE, room in *. lia.
    - intros s' u cs [? ?] HG Hf. by exists u, cs.
    - intros h s' u cs [? ?] HG Hf Hi. by exists u, cs. }
  apply wp_inv in H as ([h b] & s1 & E & u & cs & Hu & HG & Hf & Hok). simpl in Hf, Hok.
  exists h, b, s1. split; [done|]. split; [apply HG|]. split; [apply HG|]. split; [done|].
  intros Hfalse. destruct (Hok Hfalse) as [Hsome Hdel]. split; [done|].
  assert (H : wp (avl_bc_delete fuel h)
    (λ r s2, s1 ⊑ₛ s2 ∧ wf s2 ∧ avl_repr rank K (blk s2) r (delete (rank key) m)) s1).
  { eapply (wp_avl_bc_delete rank K (adds (blk s) cs) fuel Hfuel key T Hbst Hh);
      [apply (grow_csub _ _ _ _ HG)|apply HG|by eapply room_grow|exact Hdel| |].
    - intros s' u' cs' _ HG' He. split; [apply HG'|]. split; [apply HG'|]. left. by rewrite Em.
    - intros r s' u' cs' t Hu' HG' Hr Hb' Hs' Hm. split; [apply HG'|]. split; [apply HG'|].
      right. exists t. split.
      { eapply is_avl_mono, Hr. intros q ws [Hq|Hq].
        - eapply blk_ext; [apply HG'|]. by apply (grow_csub _ _ _ _ HG).
        - apply (grow_csub _ _ _ _ HG'). by right. }
      split_and!; [done|done|by rewrite Hm, Em|].
      rewrite <- (tree_map_size rank K) by done. rewrite Hm, map_size_delete.
      rewrite (tree_map_size rank K) by done. destruct (tree_map rank T !! rank key); simpl; lia. }
  apply wp_inv in H as (r & s2 & E2 & He & Hw2 & Hr). exists r, s2. split; [done|].
  split; [etrans; [apply HG|done]|done].
Qed.

(** Every tree that represents a map passes the module's own self-test
    [avl_make_assertions]: heights of at most 50, right headers, balances. *)
Theorem avl_make_assertions_pass : avl_make_assertions fuel root s = Ok tt s.
Proof.
  unfold avl_make_assertions. case_bool_decide as Hnull; [done|].
  destruct (avl_repr_nonnull _ _ _ _ _ _ (holds_blk s) Hrepr Hnull) as (T & HT & Hb & Hbst & Em & Hh & Hs).
  assert (H : wp (avl_rec_make_assertions fuel root) (λ _ s', s' = s) s).
  { eapply wp_avl_rec_make_assertions; [apply holds_blk|done|done|lia|exact HT|done]. }
  by apply wp_inv in H as ([] & s' & E & ->).
Qed.
End properties.

Lemma avl_bc_insert_correct_witness :
  let s := example_avl_state 2 in
  ∃ h b s1, build_history_for_insert 46 (example_root 2) 3 word_cmp s = Ok (h, b) s1 ∧
    s ⊑ₛ s1 ∧ wf s1 ∧ (b = true → ∃ k, True ∧ order 3 k = CMP_ERROR) ∧
    (b = false → ∀ data, ∃ r s2, avl_bc_insert 46 h 3 data s1 = Ok r s2 ∧
      s ⊑ₛ s2 ∧ wf s2 ∧
      avl_repr (λ x, x) (λ _, True) (blk s2) r (<[3 := data]> {[ 1 := 10; 2 := 20 ]})).
Proof.
  apply (avl_bc_insert_correct (λ x, x) (λ _, True) word_cmp order 46).
  - vm_compute. lia.
  - apply wfb_sound. by vm_compute.
  - apply word_cmp_compares.
  - done.
  - exact example_two_leaves.
  - by vm_compute.
  - vm_compute. discriminate.
Defined.

Lemma avl_bc_delete_correct_witness :
  let s := example_avl_state 2 in
  let m : gmap Z Z := {[ 1 := 10; 2 := 20 ]} in
  ∃ h b s1, build_history_for_delete 46 (example_root 2) 1 word_cmp s = Ok (h, b) s1 ∧
    s ⊑ₛ s1 ∧ wf s1 ∧ (b = true → (∃ k, True ∧ order 1 k = CMP_ERROR) ∨ m !! 1 = None) ∧
    (b = false → is_Some (m !! 1) ∧
      ∃ r s2, avl_bc_delete 46 h s1 = Ok r s2 ∧
        s ⊑ₛ s2 ∧ wf s2 ∧ avl_repr (λ x, x) (λ _, True) (blk s2) r (delete 1 m)).
Proof.
  apply (avl_bc_delete_correct (λ x, x) (λ _, True) word_cmp order 46).
  - vm_compute. lia.
  - apply wfb_sound. by vm_compute.
  - apply word_cmp_compares.
  - done.
  - exact example_two_leaves.
  - vm_compute. discriminate.
  - vm_compute. discriminate.
Defined.

Lemma avl_make_assertions_pass_witness :
  avl_make_assertions 46 (example_root 2) (example_avl_state 2) = Ok tt (example_avl_state 2).
Proof.
  apply (avl_make_assertions_pass (λ x, x) (λ _, True) 46 ltac:(vm_compute; lia)
    (example_avl_state 2) (example_root 2) {[ 1 := 10; 2 := 20 ]}).
  exact example_two_leaves.
Defined.
