(* ===== verification/Cells.v ===== *)
(** Cells (cells-def.h, cells.h and cells.c): for every cell type the number of
    words and the declarations of its fields, as data where the declaration
    block is a sequence of declarations and as a program where it reads other
    words; and the operations of cells.c, each of which is the C preprocessor's
    expansion of cells-def.h with its own meaning of the declarations. *)

From stdpp Require Import strings.
From S2P Require Import Prelude Machine Celltypes Shades Cow Root.

(** * Declarations *)

Inductive decl := DECLARE_WORD | DECLARE_PTR | DECLARE_NONNULL_PTR | DECLARE_TAGGED.

#[export] Instance decl_eq_dec : EqDecision decl.
Proof. solve_decision. Defined.

(** [word_type_t] of cells.h, as the words in which byte code stores it. *)
Definition WORD : Z := 0.
Definition PTR : Z := 1.
Definition NONNULL_PTR : Z := 2.
Definition TAGGED : Z := 3.
Definition VOID : Z := 4.

Definition TAGGED_IS_PTR (x : Z) : bool := bool_decide (Z.land x 0x3 = 0).
Definition TAGGED_IS_WORD (x : Z) : bool := bool_decide (Z.land x 0x3 = 1).
Definition TAGGED_IS_OID (x : Z) : bool := bool_decide (Z.land x 0x3 = 2).

(** dh.h *)
Definition INTERNAL_NODE_SIZE : Z := 4.
(** root-def.h *)
Definition MAX_GENERATION_SIZE : Z := (512 / 4 - NUMBER_OF_ROOT_IXS) / 2.

(** [for (i = 0; i < n; i++) DECLARE_x(p\[a + i\])] *)
Definition fields_from (d : decl) (a n : Z) : list (decl * Z) :=
  (λ i : nat, (d, a + Z.of_nat i)) <$> seq 0 (Z.to_nat n).

(** A cell's size, given its first word [p0], and its declarations.  [None] is a
    type that is not of the group. *)
Definition cell_def : Type := option (Z * list (decl * Z)).

Definition cells_basic (t : cell_type) (p0 : Z) : cell_def :=
  match t with
  | CELL_list => Some (3, [(DECLARE_TAGGED, 1); (DECLARE_TAGGED, 2)])
  | CELL_object => Some (2, [(DECLARE_PTR, 1)])
  | CELL_oid_freelist => Some (3, [(DECLARE_WORD, 1); (DECLARE_PTR, 2)])
  | CELL_oid_object => Some (4, [(DECLARE_PTR, 1); (DECLARE_PTR, 2); (DECLARE_WORD, 3)])
  | CELL_word_vector =>
      let j := Z.land p0 0xFFFFFF in
      Some (j + 1, fields_from DECLARE_WORD 1 j)
  | CELL_internal =>
      Some (INTERNAL_NODE_SIZE + 1, fields_from DECLARE_PTR 1 INTERNAL_NODE_SIZE)
  | CELL_leaf =>
      let j := 2 * Z.land p0 0xFFFFFF in
      Some (j + 1, i ← seq 0 (Z.to_nat (Z.land p0 0xFFFFFF));
        [(DECLARE_WORD, 1 + 2 * Z.of_nat i); (DECLARE_PTR, 1 + 2 * Z.of_nat i + 1)])
  | _ => None
  end.

Definition cells_queue (t : cell_type) : cell_def :=
  match t with
  | CELL_queue =>
      Some (5, [(DECLARE_NONNULL_PTR, 1); (DECLARE_PTR, 2); (DECLARE_WORD, 3); (DECLARE_WORD, 4)])
  | CELL_queue_rev =>
      Some (11, [(DECLARE_NONNULL_PTR, 1); (DECLARE_PTR, 2); (DECLARE_WORD, 3); (DECLARE_WORD, 4);
                 (DECLARE_PTR, 5); (DECLARE_PTR, 6); (DECLARE_PTR, 7); (DECLARE_PTR, 8);
                 (DECLARE_WORD, 9); (DECLARE_WORD, 10)])
  | CELL_lq_entry_point => Some (3, [(DECLARE_PTR, 1); (DECLARE_PTR, 2)])
  | CELL_lq_item00 => Some (2, [(DECLARE_PTR, 1)])
  | CELL_lq_item01 => Some (3, [(DECLARE_PTR, 1); (DECLARE_NONNULL_PTR, 2)])
  | CELL_lq_item10 => Some (3, [(DECLARE_PTR, 1); (DECLARE_NONNULL_PTR, 2)])
  | CELL_lq_item11 =>
      Some (4, [(DECLARE_PTR, 1); (DECLARE_NONNULL_PTR, 2); (DECLARE_NONNULL_PTR, 3)])
  | CELL_priq_item => Some (4, [(DECLARE_PTR, 1); (DECLARE_PTR, 2); (DECLARE_PTR, 3)])
  | _ => None
  end.

Definition cells_tree (t : cell_type) (p0 : Z) : cell_def :=
  match t with
  | CELL_ist234 =>
      let cell_size := w32 (3 * Z.land p0 0xFFFFFF - 1) in
      Some (cell_size, fields_from DECLARE_TAGGED 1 (s32 cell_size - 1))
  | CELL_avl_internal =>
      Some (4, [(DECLARE_NONNULL_PTR, 1); (DECLARE_NONNULL_PTR, 2); (DECLARE_NONNULL_PTR, 3)])
  | CELL_avl_leaf => Some (3, [(DECLARE_NONNULL_PTR, 1); (DECLARE_PTR, 2)])
  | CELL_history => Some (3, [(DECLARE_NONNULL_PTR, 1); (DECLARE_PTR, 2)])
  | CELL_quad_trie =>
      Some (5, [(DECLARE_PTR, 1); (DECLARE_PTR, 2); (DECLARE_PTR, 3); (DECLARE_PTR, 4)])
  | CELL_tuple =>
      let n := Z.land p0 0xFFF in
      let m := Z.land (shr32 p0 12) 0xFFF in
      Some (n + m + 1, fields_from DECLARE_TAGGED 1 n ++ fields_from DECLARE_WORD (n + 1) m)
  | _ => None
  end.

Definition cells_shtring (t : cell_type) (p0 : Z) : cell_def :=
  match t with
  | CELL_shtring =>
      Some (5, [(DECLARE_WORD, 1); (DECLARE_WORD, 2); (DECLARE_WORD, 3); (DECLARE_PTR, 4)])
  | CELL_shtring_chunk =>
      let j := (Z.land p0 0xFFFFFF + 4 - 1) / 4 in
      Some (j + 1, fields_from DECLARE_WORD 1 j)
  | CELL_shtring_node =>
      let j := Z.land p0 0xFF in
      Some (j + 3, (DECLARE_WORD, 1) :: (DECLARE_WORD, 2) :: fields_from DECLARE_NONNULL_PTR 3 j)
  | CELL_shtring_intern_root =>
      Some (4, [(DECLARE_NONNULL_PTR, 1); (DECLARE_NONNULL_PTR, 2); (DECLARE_WORD, 3)])
  | CELL_shtring_intern_node =>
      Some (4, [(DECLARE_PTR, 1); (DECLARE_NONNULL_PTR, 2); (DECLARE_WORD, 3)])
  | CELL_shtring_cursor =>
      Some (5, [(DECLARE_NONNULL_PTR, 1); (DECLARE_WORD, 2); (DECLARE_WORD, 3); (DECLARE_PTR, 4)])
  | _ => None
  end.

Definition cells_trie (t : cell_type) : cell_def :=
  match t with
  | CELL_trie1234 => Some (5, fields_from DECLARE_TAGGED 1 4)
  | CELL_trie123 | CELL_trie124 | CELL_trie134 | CELL_trie234 =>
      Some (4, fields_from DECLARE_TAGGED 1 3)
  | CELL_trie12 | CELL_trie13 | CELL_trie14 | CELL_trie23 | CELL_trie24 | CELL_trie34 =>
      Some (3, fields_from DECLARE_TAGGED 1 2)
  | CELL_trie1 | CELL_trie2 | CELL_trie3 | CELL_trie4 => Some (2, fields_from DECLARE_TAGGED 1 1)
  | _ => None
  end.

(** The types whose blocks are plain sequences of declarations. *)
Definition simple_cell (t : cell_type) (p0 : Z) : cell_def :=
  match cells_basic t p0 with
  | Some d => Some d
  | None =>
  match cells_queue t with
  | Some d => Some d
  | None =>
  match cells_tree t p0 with
  | Some d => Some d
  | None =>
  match cells_shtring t p0 with
  | Some d => Some d
  | None => cells_trie t
  end end end end.

(** The second argument of [CELL]. *)
Definition number_of_words (t : cell_type) (p p0 : Z) : M Z :=
  match simple_cell t p0 with
  | Some (n, _) => mret n
  | None =>
    match t with
    | CELL_bcode => p2 ← rd p 2; p3 ← rd p 3; mret (w32 (w32 (p2 + p3) + 7))
    | CELL_cont => mret (Z.land (shr32 p0 12) 0xFFF)
    | CELL_context => mret 5
    | CELL_generation_pinfo => mret (4 + 2 * Z.land p0 0xFFF)
    | _ => mret 2
    end
  end.

(** * Instructions

    The name, the size and the declarations of the immediate operands of every
    instruction, the first three arguments of [INSN], in the order in which the
    files include one another; the operands' indices are relative to [pc]. *)

Definition insn_obj : list (string * Z * list (decl * Z)) :=
  [("get_obj_field", 2, [(DECLARE_WORD, 1)]);
   ("rebind_obj_field", 2, [(DECLARE_WORD, 1)]);
   ("t_isa", 1, []);
   ("t_branch_if_not_isa", 2, [(DECLARE_WORD, 1)]);
   ("get_obj_method", 3, [(DECLARE_WORD, 1); (DECLARE_WORD, 2)]);
   ("insert_obj_field", 2, [(DECLARE_WORD, 1)]);
   ("declare_obj_isa", 2, [(DECLARE_WORD, 1)]);
   ("insert_obj_method", 3, [(DECLARE_WORD, 1); (DECLARE_WORD, 2)]);
   ("make_new_proto", 2, [(DECLARE_WORD, 1)]);
   ("inherit_new_proto", 3, [(DECLARE_WORD, 1); (DECLARE_WORD, 2)]);
   ("multiple_inherit", 2, [(DECLARE_WORD, 1)])].

Definition insn_calls : list (string * Z * list (decl * Z)) :=
  [("bind", 2, [(DECLARE_WORD, 1)]);
   ("call", 3, [(DECLARE_WORD, 1); (DECLARE_WORD, 2)]);
   ("tail_call", 2, [(DECLARE_WORD, 1)]);
   ("return", 1, []);
   ("call_global", 4, [(DECLARE_WORD, 1); (DECLARE_WORD, 2); (DECLARE_WORD, 3)]);
   ("call_global01", 4, [(DECLARE_WORD, 1); (DECLARE_WORD, 2); (DECLARE_WORD, 3)]);
   ("call_global2", 4, [(DECLARE_WORD, 1); (DECLARE_WORD, 2); (DECLARE_WORD, 3)]);
   ("call_global3", 4, [(DECLARE_WORD, 1); (DECLARE_WORD, 2); (DECLARE_WORD, 3)]);
   ("call_global4", 4, [(DECLARE_WORD, 1); (DECLARE_WORD, 2); (DECLARE_WORD, 3)]);
   ("call_global_with_to_as_cont_ptr", 4, [(DECLARE_NONNULL_PTR, 1); (DECLARE_WORD, 2); (DECLARE_WORD, 3)]);
   ("call_global_with_to_as_cont_ptr01", 4, [(DECLARE_NONNULL_PTR, 1); (DECLARE_WORD, 2); (DECLARE_WORD, 3)]);
   ("call_global_with_to_as_cont_ptr2", 4, [(DECLARE_NONNULL_PTR, 1); (DECLARE_WORD, 2); (DECLARE_WORD, 3)]);
   ("call_global_with_to_as_cont_ptr3", 4, [(DECLARE_NONNULL_PTR, 1); (DECLARE_WORD, 2); (DECLARE_WORD, 3)]);
   ("call_global_with_to_as_cont_ptr4", 4, [(DECLARE_NONNULL_PTR, 1); (DECLARE_WORD, 2); (DECLARE_WORD, 3)]);
   ("call_global_with_next_bcode_as_ptr", 4, [(DECLARE_WORD, 1); (DECLARE_WORD, 2); (DECLARE_NONNULL_PTR, 3)]);
   ("call_global_with_next_bcode_as_ptr01", 4, [(DECLARE_WORD, 1); (DECLARE_WORD, 2); (DECLARE_NONNULL_PTR, 3)]);
   ("call_global_with_next_bcode_as_ptr2", 4, [(DECLARE_WORD, 1); (DECLARE_WORD, 2); (DECLARE_NONNULL_PTR, 3)]);
   ("call_global_with_next_bcode_as_ptr3", 4, [(DECLARE_WORD, 1); (DECLARE_WORD, 2); (DECLARE_NONNULL_PTR, 3)]);
   ("call_global_with_next_bcode_as_ptr4", 4, [(DECLARE_WORD, 1); (DECLARE_WORD, 2); (DECLARE_NONNULL_PTR, 3)]);
   ("call_global_with_to_as_cont_ptr_and_next_bcode_as_ptr", 4, [(DECLARE_NONNULL_PTR, 1); (DECLARE_WORD, 2); (DECLARE_NONNULL_PTR, 3)]);
   ("call_global_with_to_as_cont_ptr_and_next_bcode_as_ptr01", 4, [(DECLARE_NONNULL_PTR, 1); (DECLARE_WORD, 2); (DECLARE_NONNULL_PTR, 3)]);
   ("call_global_with_to_as_cont_ptr_and_next_bcode_as_ptr2", 4, [(DECLARE_NONNULL_PTR, 1); (DECLARE_WORD, 2); (DECLARE_NONNULL_PTR, 3)]);
   ("call_global_with_to_as_cont_ptr_and_next_bcode_as_ptr3", 4, [(DECLARE_NONNULL_PTR, 1); (DECLARE_WORD, 2); (DECLARE_NONNULL_PTR, 3)]);
   ("call_global_with_to_as_cont_ptr_and_next_bcode_as_ptr4", 4, [(DECLARE_NONNULL_PTR, 1); (DECLARE_WORD, 2); (DECLARE_NONNULL_PTR, 3)]);
   ("tail_call_global", 3, [(DECLARE_WORD, 1); (DECLARE_WORD, 2)]);
   ("tail_call_global01", 3, [(DECLARE_WORD, 1); (DECLARE_WORD, 2)]);
   ("tail_call_global2", 3, [(DECLARE_WORD, 1); (DECLARE_WORD, 2)]);
   ("tail_call_global3", 3, [(DECLARE_WORD, 1); (DECLARE_WORD, 2)]);
   ("tail_call_global4", 3, [(DECLARE_WORD, 1); (DECLARE_WORD, 2)]);
   ("tail_call_global_with_to_as_cont_ptr", 3, [(DECLARE_NONNULL_PTR, 1); (DECLARE_WORD, 2)]);
   ("tail_call_global_with_to_as_cont_ptr01", 3, [(DECLARE_NONNULL_PTR, 1); (DECLARE_WORD, 2)]);
   ("tail_call_global_with_to_as_cont_ptr2", 3, [(DECLARE_NONNULL_PTR, 1); (DECLARE_WORD, 2)]);
   ("tail_call_global_with_to_as_cont_ptr3", 3, [(DECLARE_NONNULL_PTR, 1); (DECLARE_WORD, 2)]);
   ("tail_call_global_with_to_as_cont_ptr4", 3, [(DECLARE_NONNULL_PTR, 1); (DECLARE_WORD, 2)])].

Definition insn_string : list (string * Z * list (decl * Z)) :=
  [("string_append", 1, []);
   ("int_to_string", 1, []);
   ("string_cmp", 1, []);
   ("string_quote", 1, [])].

Definition insn_def : list (string * Z * list (decl * Z)) :=
  [("push", 1, []);
   ("drop", 1, []);
   ("drop_n", 2, [(DECLARE_WORD, 1)]);
   ("pick", 2, [(DECLARE_WORD, 1)]);
   ("t_load_imm", 2, [(DECLARE_TAGGED, 1)]);
   ("get_global", 2, [(DECLARE_WORD, 1)]);
   ("set_global", 2, [(DECLARE_WORD, 1)]);
   ("t_add", 1, []);
   ("t_add_imm", 2, [(DECLARE_WORD, 1)]);
   ("t_sub", 1, []);
   ("t_sub_imm", 2, [(DECLARE_WORD, 1)]);
   ("t_neg", 1, []);
   ("t_mul", 1, []);
   ("t_mul_imm", 2, [(DECLARE_WORD, 1)]);
   ("t_div", 1, []);
   ("t_mod", 1, []);
   ("t_cmpeq", 1, []);
   ("t_cmpne", 1, []);
   ("t_cmplt", 1, []);
   ("t_cmple", 1, []);
   ("t_cmpgt", 1, []);
   ("t_cmpge", 1, []);
   ("t_not", 1, []);
   ("t_print", 1, []);
   ("r_cons", 1, []);
   ("car", 1, []);
   ("cdr", 1, []);
   ("load_null", 1, []);
   ("load_imm_string", 2, [(DECLARE_NONNULL_PTR, 1)]);
   ("tuple_ref", 2, [(DECLARE_WORD, 1)]);
   ("tuple_make", 2, [(DECLARE_WORD, 1)]);
   ("branch", 2, [(DECLARE_WORD, 1)]);
   ("beq", 2, [(DECLARE_WORD, 1)]);
   ("bne", 2, [(DECLARE_WORD, 1)]);
   ("blt", 2, [(DECLARE_WORD, 1)]);
   ("ble", 2, [(DECLARE_WORD, 1)]);
   ("bgt", 2, [(DECLARE_WORD, 1)]);
   ("bge", 2, [(DECLARE_WORD, 1)]);
   ("t_branch_if_false", 2, [(DECLARE_WORD, 1)]);
   ("t_branch_if_true", 2, [(DECLARE_WORD, 1)]);
   ("t_branch_if_not_cons", 2, [(DECLARE_WORD, 1)]);
   ("t_branch_if_not_null", 2, [(DECLARE_WORD, 1)]);
   ("t_branch_if_not_ntuple", 3, [(DECLARE_WORD, 1); (DECLARE_WORD, 2)]);
   ("t_cond_eq_pick_pick", 3, [(DECLARE_WORD, 1); (DECLARE_WORD, 2)]);
   ("t_cond_le_pick_pick", 3, [(DECLARE_WORD, 1); (DECLARE_WORD, 2)]);
   ("t_cond_lt_pick_pick", 3, [(DECLARE_WORD, 1); (DECLARE_WORD, 2)]);
   ("t_cond_eq_imm_pick", 3, [(DECLARE_TAGGED, 1); (DECLARE_WORD, 2)]);
   ("t_cond_le_imm_pick", 3, [(DECLARE_TAGGED, 1); (DECLARE_WORD, 2)]);
   ("t_cond_lt_imm_pick", 3, [(DECLARE_TAGGED, 1); (DECLARE_WORD, 2)]);
   ("t_cond_eq_pick_imm", 3, [(DECLARE_WORD, 1); (DECLARE_TAGGED, 2)]);
   ("t_cond_le_pick_imm", 3, [(DECLARE_WORD, 1); (DECLARE_TAGGED, 2)]);
   ("t_cond_lt_pick_imm", 3, [(DECLARE_WORD, 1); (DECLARE_TAGGED, 2)]);
   ("t_cond_eq_imm_imm", 3, [(DECLARE_TAGGED, 1); (DECLARE_TAGGED, 2)]);
   ("t_cond_le_imm_imm", 3, [(DECLARE_TAGGED, 1); (DECLARE_TAGGED, 2)]);
   ("t_cond_lt_imm_imm", 3, [(DECLARE_TAGGED, 1); (DECLARE_TAGGED, 2)]);
   ("exit", 1, []);
   ("generic_equal", 1, []);
   ("list_append", 1, []);
   ("pop", 1, []);
   ("dup", 1, []);
   ("swap", 1, []);
   ("exch", 1, []);
   ("get_root_ptr", 2, [(DECLARE_WORD, 1)]);
   ("set_root_ptr", 2, [(DECLARE_WORD, 1)]);
   ("load_imm", 2, [(DECLARE_WORD, 1)]);
   ("add", 1, []);
   ("add_imm", 2, [(DECLARE_WORD, 1)]);
   ("sub", 1, []);
   ("sub_imm", 2, [(DECLARE_WORD, 1)]);
   ("mul", 1, []);
   ("mul_imm", 2, [(DECLARE_WORD, 1)]);
   ("div", 1, []);
   ("mod", 1, []);
   ("sqrt", 1, []);
   ("lshift_imm", 2, [(DECLARE_WORD, 1)]);
   ("t_lshift_imm", 2, [(DECLARE_WORD, 1)]);
   ("rshift_imm", 2, [(DECLARE_WORD, 1)]);
   ("t_rshift_imm", 2, [(DECLARE_WORD, 1)]);
   ("cond_eq_pick_pick", 3, [(DECLARE_WORD, 1); (DECLARE_WORD, 2)]);
   ("cond_le_pick_pick", 3, [(DECLARE_WORD, 1); (DECLARE_WORD, 2)]);
   ("cond_lt_pick_pick", 3, [(DECLARE_WORD, 1); (DECLARE_WORD, 2)]);
   ("cond_eq_imm_pick", 3, [(DECLARE_WORD, 1); (DECLARE_WORD, 2)]);
   ("cond_le_imm_pick", 3, [(DECLARE_WORD, 1); (DECLARE_WORD, 2)]);
   ("cond_lt_imm_pick", 3, [(DECLARE_WORD, 1); (DECLARE_WORD, 2)]);
   ("cond_eq_pick_imm", 3, [(DECLARE_WORD, 1); (DECLARE_WORD, 2)]);
   ("cond_le_pick_imm", 3, [(DECLARE_WORD, 1); (DECLARE_WORD, 2)]);
   ("cond_lt_pick_imm", 3, [(DECLARE_WORD, 1); (DECLARE_WORD, 2)]);
   ("cond_eq_imm_imm", 3, [(DECLARE_WORD, 1); (DECLARE_WORD, 2)]);
   ("cond_le_imm_imm", 3, [(DECLARE_WORD, 1); (DECLARE_WORD, 2)]);
   ("cond_lt_imm_imm", 3, [(DECLARE_WORD, 1); (DECLARE_WORD, 2)]);
   ("init_random", 1, []);
   ("random_number", 1, []);
   ("print_int", 1, []);
   ("print_list", 1, []);
   ("print_cell", 1, []);
   ("pick_print_cell", 2, [(DECLARE_WORD, 1)]);
   ("print_cont", 1, []);
   ("print_table", 1, []);
   ("make_word_vector", 2, [(DECLARE_WORD, 1)]);
   ("copy_word_vector", 2, [(DECLARE_WORD, 1)]);
   ("trie_insert", 1, []);
   ("trie_find", 1, []);
   ("get_field_value", 1, []);
   ("set_field_value", 1, []);
   ("cons", 1, []);
   ("caar", 1, []);
   ("cdar", 1, []);
   ("cadr", 1, []);
   ("cddr", 1, []);
   ("goto_bcode", 2, [(DECLARE_WORD, 1)]);
   ("goto_self", 1, []);
   ("die", 1, []);
   ("spawn", 4, [(DECLARE_WORD, 1); (DECLARE_WORD, 2); (DECLARE_WORD, 3)]);
   ("net_listen", 2, [(DECLARE_WORD, 1)]);
   ("net_accept", 2, [(DECLARE_WORD, 1)]);
   ("net_read_char", 2, [(DECLARE_WORD, 1)]);
   ("net_write_char", 2, [(DECLARE_WORD, 1)]);
   ("net_read_shtring", 2, [(DECLARE_WORD, 1)]);
   ("net_write_shtring", 2, [(DECLARE_WORD, 1)]);
   ("net_close", 1, [(DECLARE_WORD, 1)])].

Definition insns : list (string * Z * list (decl * Z)) :=
  insn_obj ++ insn_calls ++ insn_string ++ insn_def.

(** [insn_t]: [INSN_PUSH_AND_x] precedes [INSN_x], for every instruction [x]. *)
Definition insn_of (op : Z) : option (string * Z * list (decl * Z)) :=
  if bool_decide (0 ≤ op) then insns !! Z.to_nat (op / 2) else None.

(** * Declaration blocks

    A block is run with a meaning of the declarations: [DECLARE d i a] is the
    expansion of the declaration [d] of the word [p\[i\]], with the local
    variables [a] of the function that contains the block; it may return from
    that function, with a result in [R]. *)

Section block.
Context {A R : Type} (DECLARE : decl → Z → A → M (A + R)).

Definition and_then (m : M (A + R)) (k : A → M (A + R)) : M (A + R) :=
  r ← m; match r with inl a => k a | inr x => mret (inr x) end.

Fixpoint declare_all (l : list (decl * Z)) (a : A) : M (A + R) :=
  match l with
  | [] => mret (inl a)
  | (d, i) :: l' => and_then (DECLARE d i a) (declare_all l')
  end.

(** One iteration of the loop over the byte codes; [pc] is its index in [p]. *)
Definition bcode_insn (p j : Z) : Z * A → M ((Z * A) + (A + R)) := λ '(pc, a),
  r ← DECLARE DECLARE_WORD pc a;
  match r with
  | inr x => mret (inr (inr x))
  | inl a =>
    op ← rd p pc;
    match insn_of op with
    | None => fail AssertFailed
    | Some (_, insn_size, imm) =>
      r ← declare_all ((λ '(d, k), (d, pc + k)) <$> imm) a;
      match r with
      | inr x => mret (inr (inr x))
      | inl a =>
        let pc := pc + insn_size in
        if bool_decide (pc < j) then mret (inl (pc, a)) else mret (inr (inl a))
      end
    end
  end.

(** [for (i = 0; i < p\[2\]; i++) DECLARE_WORD(p\[j + i\]);] *)
Definition bcode_stack (p j : Z) : Z * A → M ((Z * A) + (A + R)) := λ '(i, a),
  p2 ← rd p 2;
  if bool_decide (i < p2) then
    r ← DECLARE DECLARE_WORD (j + i) a;
    match r with
    | inr x => mret (inr (inr x))
    | inl a => mret (inl (i + 1, a))
    end
  else mret (inr (inl a)).

Definition bcode_block (fuel : nat) (p : Z) (a : A) : M (A + R) :=
  p3 ← rd p 3;
  let j := w32 (p3 + 7) in
  and_then (declare_all (fields_from DECLARE_WORD 1 6) a) (λ a,
  and_then (loop fuel (bcode_insn p j) (7, a)) (λ a,
  loop fuel (bcode_stack p j) (0, a))).

(** The declaration of a word whose type is known from a descriptor. *)
Definition declare_type (ty i : Z) (a : A) : M (A + R) :=
  if bool_decide (ty = WORD) then DECLARE DECLARE_WORD i a
  else if bool_decide (ty = PTR) then DECLARE DECLARE_PTR i a
  else if bool_decide (ty = NONNULL_PTR) then DECLARE DECLARE_NONNULL_PTR i a
  else if bool_decide (ty = TAGGED) then DECLARE DECLARE_TAGGED i a
  else if bool_decide (ty = VOID) then mret (inl a)
  else fail AssertFailed.

(** [for (i = 0; i < n; i++) switch (types\[i\]) ...] *)
Fixpoint declare_stack (types : Z) (i n : nat) (a : A) : M (A + R) :=
  match n with
  | O => mret (inl a)
  | S n' =>
    ty ← rd types (Z.of_nat i);
    and_then (declare_type ty (3 + Z.of_nat i) a) (declare_stack types (S i) n')
  end.

Definition cont_block (p p0 : Z) (a : A) : M (A + R) :=
  and_then (DECLARE DECLARE_NONNULL_PTR 1 a) (λ a,
  and_then (DECLARE DECLARE_PTR 2 a) (λ a,
  bcode ← rd p 1;
  t ← CELL_TYPE bcode;
  bcode ← (if bool_decide (t = Some CELL_forward_pointer) then rd bcode 1 else mret bcode);
  stack_depth ← (if bool_decide (Z.land p0 0xFFF = 0xFFF) then rd bcode 2
    else
      let stack_depth := Z.land p0 0xFFF in
      d ← rd bcode 2;
      massert (bool_decide (stack_depth ≤ d));;
      mret stack_depth);
  b3 ← rd bcode 3;
  let bcode := bcode + 4 * w32 (7 + b3) in
  declare_stack bcode 0 (Z.to_nat stack_depth) a)).

Definition context_block (p0 : Z) (a : A) : M (A + R) :=
  and_then (DECLARE DECLARE_NONNULL_PTR 1 a) (λ a,
  and_then (declare_type (Z.land p0 0xFFFFFF) 2 a) (λ a,
  and_then (DECLARE DECLARE_WORD 3 a) (λ a,
  DECLARE DECLARE_WORD 4 a))).

Definition generation_pinfo_block (p0 : Z) (a : A) : M (A + R) :=
  and_then (declare_all ((DECLARE_PTR, 1) :: (DECLARE_WORD, 2) :: (DECLARE_WORD, 3) ::
    fields_from DECLARE_WORD 4 (2 * Z.land p0 0xFFF)) a) (λ a,
  massert (bool_decide (Z.land p0 0xFFF < MAX_GENERATION_SIZE));;
  mret (inl a)).

(** The third argument of [CELL]. *)
Definition field_declaration_block (fuel : nat) (t : cell_type) (p p0 : Z) (a : A) : M (A + R) :=
  match simple_cell t p0 with
  | Some (_, fields) => declare_all fields a
  | None =>
    match t with
    | CELL_bcode => bcode_block fuel p a
    | CELL_cont => cont_block p p0 a
    | CELL_context => context_block p0 a
    | CELL_generation_pinfo => generation_pinfo_block p0 a
    | _ => fail AssertFailed
    end
  end.
End block.

(** * cells.c *)

(** The assertions on an argument [p]; that [p != NULL] follows from
    [p > NULL_PTR]. *)
Definition check_ptr (p : Z) : M unit :=
  massert (bool_decide (NULL_PTR < p));;
  e ← gets first_generation_start;
  massert (bool_decide (p < e));;
  massert (bool_decide (Z.land p 0x3 = 0)).

(** [switch (CELL_TYPE(p))]: the default case fails. *)
Definition switch_type (p : Z) : M cell_type :=
  t ← CELL_TYPE p;
  match t with Some t => mret t | None => fail AssertFailed end.

Definition cell_get_number_of_words (p : Z) : M Z :=
  p0 ← rd p 0;
  check_ptr p;;
  t ← switch_type p;
  number_of_words t p p0.

(** [memcpy(new_p, p, n * sizeof(word_t))] *)
Definition copy_words (new_p p : Z) (n : nat) : M unit :=
  for_ n (λ i _, w ← rd p (Z.of_nat i); wr new_p (Z.of_nat i) w) tt.

Definition cell_copy (p : Z) : M Z :=
  p0 ← rd p 0;
  check_ptr p;;
  t ← switch_type p;
  n ← number_of_words t p p0;
  b ← can_allocate n;
  massert b;;
  t ← switch_type p;
  new_p ← allocate n t;
  copy_words new_p p (Z.to_nat n);;
  mret new_p.

Fixpoint cell_is_equal (fuel : nat) (p q : Z) : M Z :=
  match fuel with
  | O => fail OutOfFuel
  | S fuel =>
    if bool_decide (p = q) then mret 1
    else if bool_decide (p = NULL_PTR) || bool_decide (q = NULL_PTR) then mret 0
    else
    p0 ← rd p 0;
    q0 ← rd q 0;
    if bool_decide (p0 ≠ q0) then mret 0
    else
    tp ← CELL_TYPE p;
    tq ← CELL_TYPE q;
    massert (bool_decide (tp = tq));;
    t ← switch_type p;
    r ← field_declaration_block (λ d i _,
      x ← rd p i;
      y ← rd q i;
      match d with
      | DECLARE_WORD => mret (if bool_decide (x ≠ y) then inr 0 else inl tt)
      | DECLARE_PTR | DECLARE_NONNULL_PTR =>
        e ← cell_is_equal fuel x y;
        mret (if bool_decide (e = 0) then inr 0 else inl tt)
      | DECLARE_TAGGED =>
        if bool_decide (Z.land x 0x3 ≠ Z.land y 0x3) then mret (inr 0)
        else if TAGGED_IS_PTR x then
          e ← cell_is_equal fuel x y;
          mret (if bool_decide (e = 0) then inr 0 else inl tt)
        else mret (if bool_decide (x ≠ y) then inr 0 else inl tt)
      end) fuel t p p0 tt;
    match r with inl _ => mret 0 | inr v => mret v end
  end.

(** [PTR_TO_WORD(NULL)], where [mem_base] is the address of the image. *)
Definition NULL_as_word (mem_base : Z) : Z := w32 (- mem_base).

(** cookies.h *)
Definition PAGE_DEADBEEF : Z := 0x4A9EBEEF.

(** [assert(is_in_first_generation(p) || x != FIRST_GENERATION_DEADBEEF)] *)
Definition check_deadbeef (p x : Z) : M unit :=
  b ← is_in_first_generation p;
  massert (b || negb (bool_decide (x = FIRST_GENERATION_DEADBEEF))).

Definition cell_check (fuel : nat) (mem_base p : Z) : M Z :=
  check_ptr p;;
  p0 ← rd p 0;
  t ← switch_type p;
  n ← number_of_words t p p0;
  (if bool_decide (t = CELL_bonk) then mret (inl tt)
   else
   field_declaration_block (R := Empty_set) (λ d i _,
     massert (bool_decide (0 ≤ i));;
     massert (bool_decide (i < s32 n));;
     match d with
     | DECLARE_WORD => mret (inl tt)
     | DECLARE_PTR =>
       x ← rd p i;
       massert (negb (bool_decide (x = NULL_as_word mem_base)));;
       massert (bool_decide (Z.land x 0x3 = 0));;
       check_deadbeef p x;;
       massert (negb (bool_decide (x = PAGE_DEADBEEF)));;
       mret (inl tt)
     | DECLARE_NONNULL_PTR =>
       x ← rd p i;
       massert (negb (bool_decide (x = NULL_WORD)));;
       massert (negb (bool_decide (x = NULL_as_word mem_base)));;
       massert (bool_decide (Z.land x 0x3 = 0));;
       check_deadbeef p x;;
       massert (negb (bool_decide (x = PAGE_DEADBEEF)));;
       mret (inl tt)
     | DECLARE_TAGGED =>
       x ← rd p i;
       massert (TAGGED_IS_PTR x || TAGGED_IS_WORD x);;
       (if TAGGED_IS_PTR x then
          massert (negb (bool_decide (x = NULL_as_word mem_base)));;
          massert (bool_decide (Z.land x 0x3 = 0));;
          check_deadbeef p x;;
          massert (negb (bool_decide (x = PAGE_DEADBEEF)))
        else mret tt);;
       mret (inl tt)
     end) fuel t p p0 tt);;
  mret 1.

Fixpoint cell_check_rec (fuel : nat) (mem_base p : Z) : M Z :=
  match fuel with
  | O => fail OutOfFuel
  | S fuel =>
    massert (negb (bool_decide (p = NULL_PTR)));;
    p0 ← rd p 0;
    t ← switch_type p;
    n ← number_of_words t p p0;
    (if bool_decide (t = CELL_cont) then mret (inl 0)
     else
     field_declaration_block (R := Empty_set) (λ d i decl_cnt,
       massert (bool_decide (0 ≤ i));;
       massert (bool_decide (i < s32 n));;
       match d with
       | DECLARE_WORD => mret (inl (decl_cnt + 1))
       | DECLARE_PTR =>
         x ← rd p i;
         massert (negb (bool_decide (x = NULL_as_word mem_base)));;
         massert (negb (bool_decide (x = FIRST_GENERATION_DEADBEEF)));;
         massert (negb (bool_decide (x = PAGE_DEADBEEF)));;
         massert (bool_decide (Z.land x 0x3 = 0));;
         (if bool_decide (x = NULL_WORD) then mret 0 else cell_check_rec fuel mem_base x);;
         mret (inl (decl_cnt + 1))
       | DECLARE_NONNULL_PTR =>
         x ← rd p i;
         massert (negb (bool_decide (x = NULL_as_word mem_base)));;
         massert (negb (bool_decide (x = FIRST_GENERATION_DEADBEEF)));;
         massert (negb (bool_decide (x = PAGE_DEADBEEF)));;
         massert (bool_decide (Z.land x 0x3 = 0));;
         massert (negb (bool_decide (x = NULL_WORD)));;
         cell_check_rec fuel mem_base x;;
         mret (inl (decl_cnt + 1))
       | DECLARE_TAGGED =>
         x ← rd p i;
         massert (TAGGED_IS_PTR x || TAGGED_IS_WORD x);;
         (if TAGGED_IS_PTR x then
            massert (negb (bool_decide (x = NULL_as_word mem_base)));;
            check_deadbeef p x;;
            massert (negb (bool_decide (x = PAGE_DEADBEEF)));;
            (if bool_decide (x = NULL_WORD) then mret 0 else cell_check_rec fuel mem_base x)
          else mret 0);;
         mret (inl (decl_cnt + 1))
       end) fuel t p p0 0);;
    mret 1
  end.

Definition init_cells : M unit :=
  massert (bool_decide (NUMBER_OF_CELLS ≤ Z.shiftl 1 CELL_TYPE_BITS)).

(** * Layout *)

Definition indices (n : Z) : list Z := (λ i : nat, 1 + Z.of_nat i) <$> seq 0 (Z.to_nat n).

Lemma fields_from_indices d a n : (fields_from d a n).*2 = (λ i : nat, a + Z.of_nat i) <$> seq 0 (Z.to_nat n).
Proof. unfold fields_from. rewrite <- list_fmap_compose. done. Qed.

Lemma indices_app n m : 0 ≤ n → 0 ≤ m →
  indices (n + m) = indices n ++ ((λ i : nat, n + 1 + Z.of_nat i) <$> seq 0 (Z.to_nat m)).
Proof.
  intros Hn Hm. unfold indices. rewrite Z2Nat.inj_add, seq_app, fmap_app by done. f_equal.
  apply list_eq. intros i. rewrite !list_lookup_fmap.
  destruct (decide (i < Z.to_nat m)%nat).
  - rewrite !lookup_seq_lt by done. simpl. f_equal. lia.
  - rewrite !lookup_seq_ge by lia. done.
Qed.

Lemma leaf_indices n :
  (i ← seq 0 n; [(DECLARE_WORD, 1 + 2 * Z.of_nat i); (DECLARE_PTR, 1 + 2 * Z.of_nat i + 1)]).*2 =
    indices (2 * Z.of_nat n).
Proof.
  induction n as [|n IH]; [done|].
  rewrite seq_S, bind_app, fmap_app, IH. cbn [mbind list_bind fmap list_fmap app fst snd Nat.add].
  replace (2 * Z.of_nat (S n)) with (2 * Z.of_nat n + 2) by lia. rewrite indices_app by lia.
  f_equal. change (Z.to_nat 2) with 2%nat. cbn [seq fmap list_fmap].
  f_equal; [lia|]. f_equal. lia.
Qed.

Lemma land_mask_bound x k : 0 ≤ k → 0 ≤ Z.land x (2 ^ k - 1) < 2 ^ k.
Proof. intros Hk. rewrite land_ones_mod by done. apply Z.mod_pos_bound. lia. Qed.

(** What the sizes and the declarations of the simple types have in common. *)
Lemma simple_cell_indices t p0 n fs : simple_cell t p0 = Some (n, fs) →
  (t = CELL_ist234 → Z.land p0 0xFFFFFF ≠ 0) →
  1 ≤ n < 2 ^ 26 ∧ fs.*2 = indices (n - 1).
Proof.
  pose proof (land_mask_bound p0 24 ltac:(lia)) as H24. change (2 ^ 24 - 1) with 0xFFFFFF in H24.
  pose proof (land_mask_bound p0 12 ltac:(lia)) as H12. change (2 ^ 12 - 1) with 0xFFF in H12.
  pose proof (land_mask_bound (shr32 p0 12) 12 ltac:(lia)) as H12'. change (2 ^ 12 - 1) with 0xFFF in H12'.
  pose proof (land_mask_bound p0 8 ltac:(lia)) as H8. change (2 ^ 8 - 1) with 0xFF in H8.
  intros E Hist. destruct t; try discriminate E; unfold simple_cell in E; simpl in E; simplify_eq;
    try (split; [unfold INTERNAL_NODE_SIZE; lia|reflexivity]).
  - split; [lia|]. rewrite Z.add_simpl_r. apply fields_from_indices.
  - split; [lia|]. rewrite Z.add_simpl_r.
    rewrite <- (Z2Nat.id (Z.land p0 16777215)) at 2 by lia. apply leaf_indices.
  - specialize (Hist eq_refl).
    assert (Es : w32 (3 * Z.land p0 16777215 - 1) = 3 * Z.land p0 16777215 - 1).
    { apply w32_small. unfold is_word. rewrite word_modulus_val. lia. }
    rewrite Es. split; [lia|].
    assert (Es' : s32 (3 * Z.land p0 16777215 - 1) = 3 * Z.land p0 16777215 - 1).
    { unfold s32. rewrite Es. case_bool_decide; lia. }
    rewrite Es'. apply fields_from_indices.
  - split; [lia|]. rewrite Z.add_simpl_r, indices_app by lia. rewrite fmap_app, !fields_from_indices. done.
  - split; [zdiv|]. rewrite Z.add_simpl_r. apply fields_from_indices.
  - split; [lia|]. replace (Z.land p0 255 + 3 - 1) with (2 + Z.land p0 255) by lia.
    rewrite indices_app by lia. cbn [fmap list_fmap]. rewrite fields_from_indices. done.
Qed.

(** * Running a block that changes nothing *)

Section pure_block.
Context {A R : Type} (DECLARE : decl → Z → A → M (A + R)) (I : A → Prop) (J : R → Prop) (s : state).

Definition declared (r : A + R) : Prop := match r with inl a => I a | inr x => J x end.

Lemma wp_declare_all l : ∀ a (Q : A + R → state → Prop),
  (∀ d i a, (d, i) ∈ l → I a → wp (DECLARE d i a) (λ r s', declared r ∧ s' = s) s) →
  I a → (∀ r, declared r → Q r s) → wp (declare_all DECLARE l a) Q s.
Proof.
  induction l as [|[d i] l IH]; intros a Q HD Ha HQ; simpl.
  - by apply wp_ret, (HQ (inl a)).
  - apply wp_bind. eapply wp_mono; [apply (HD d i a); [by left|done]|].
    intros r s' [Hr ->]. destruct r as [a'|x].
    + apply IH; [|done|done]. intros d' i' a'' Hin. apply HD. by right.
    + by apply wp_ret, (HQ (inr x)).
Qed.

Lemma wp_simple_block fuel t p p0 n fs a (Q : A + R → state → Prop) :
  simple_cell t p0 = Some (n, fs) →
  (∀ d i a, (d, i) ∈ fs → I a → wp (DECLARE d i a) (λ r s', declared r ∧ s' = s) s) →
  I a → (∀ r, declared r → Q r s) → wp (field_declaration_block DECLARE fuel t p p0 a) Q s.
Proof. intros E. unfold field_declaration_block. rewrite E. apply wp_declare_all. Qed.
End pure_block.

(** * Well-typed cells *)

Definition is_pointer (d : decl) (x : Z) : bool :=
  match d with
  | DECLARE_WORD => false
  | DECLARE_PTR | DECLARE_NONNULL_PTR => true
  | DECLARE_TAGGED => TAGGED_IS_PTR x
  end.

(** What a declaration says of the word itself. *)
Definition declares (d : decl) (x : Z) : Prop :=
  match d with
  | DECLARE_NONNULL_PTR => x ≠ NULL_WORD
  | DECLARE_TAGGED => TAGGED_IS_PTR x || TAGGED_IS_WORD x = true
  | _ => True
  end.

(** [typed C h p]: at [p] is a cell of a simple type, with as many words as its
    size, that are what their declarations say; pointers lead to such cells, and
    no path is longer than [h]. *)
Record typed_cell (C : cenv) (sub : Z → Prop) (p : Z) (t : cell_type) (ws : list Z)
    (fs : list (decl * Z)) : Prop := {
  tc_cell : C p ws;
  tc_type : ∃ low, 0 ≤ low < 2 ^ 24 ∧ ws !! 0%nat = Some (header t low) ∧
              (t = CELL_ist234 → low ≠ 0) ∧ simple_cell t (header t low) = Some (Z.of_nat (length ws), fs);
  tc_decl d i x : (d, i) ∈ fs → ws !! Z.to_nat i = Some x → declares d x;
  tc_sub d i x : (d, i) ∈ fs → ws !! Z.to_nat i = Some x → is_pointer d x = true →
    x ≠ NULL_WORD → sub x
}.

Fixpoint typed (C : cenv) (h : nat) (p : Z) : Prop :=
  match h with
  | O => False
  | S h => ∃ t ws fs, typed_cell C (typed C h) p t ws fs
  end.

Lemma typed_S C h p : typed C h p → typed C (S h) p.
Proof.
  revert p. induction h as [|h IH]; intros p; [done|].
  intros (t & ws & fs & [H1 H2 H3 H4]). exists t, ws, fs. split; [done..|].
  intros d i x Hi Hx Hp Hn. by apply IH, (H4 d i).
Qed.

Section typed.
Context (C : cenv) (s : state) (HC : holds s C).

(** The word behind every declaration is there. *)
Lemma typed_field sub p t ws fs d i : typed_cell C sub p t ws fs → (d, i) ∈ fs →
  0 < i < Z.of_nat (length ws) ∧ ∃ x, ws !! Z.to_nat i = Some x.
Proof.
  intros [_ (low & Hlow & _ & Hist & Es) _ _] Hi.
  destruct (simple_cell_indices _ _ _ _ Es) as [Hn Hfs].
  { intros Et. rewrite header_low by done. auto. }
  assert (Hin : i ∈ fs.*2) by (apply list_elem_of_fmap; by exists (d, i)).
  rewrite Hfs in Hin. apply list_elem_of_fmap in Hin as (j & -> & Hj). apply elem_of_seq in Hj.
  split; [lia|]. apply lookup_lt_is_Some. lia.
Qed.

Lemma rd_word p ws i x : C p ws → 0 ≤ i → ws !! Z.to_nat i = Some x → rd p i s = Ok x s.
Proof.
  intros Hp Hi Hx. assert (H : wp (rd p i) (λ r s', r = x ∧ s' = s) s).
  { eapply wp_rd; [by apply HC|done|done|done]. }
  by apply wp_inv in H as (r & s' & E & -> & ->).
Qed.

Lemma wp_typed_field sub p t ws fs d i (Q : Z → state → Prop) :
  typed_cell C sub p t ws fs → (d, i) ∈ fs →
  (∀ x, ws !! Z.to_nat i = Some x → declares d x →
    (is_pointer d x = true → x ≠ NULL_WORD → sub x) → Q x s) →
  wp (rd p i) Q s.
Proof.
  intros Hp Hi HQ. destruct (typed_field _ _ _ _ _ _ _ Hp Hi) as (Hr & x & Hx).
  eapply wp_run; [eapply rd_word; [apply Hp|lia|exact Hx]|]. apply HQ; [done| |].
  - by eapply (tc_decl _ _ _ _ _ _ Hp).
  - by eapply (tc_sub _ _ _ _ _ _ Hp).
Qed.

Lemma wp_typed_header sub p t ws fs (Q : Z → state → Prop) :
  typed_cell C sub p t ws fs →
  (∀ low, ws !! 0%nat = Some (header t low) →
    simple_cell t (header t low) = Some (Z.of_nat (length ws), fs) → Q (header t low) s) →
  wp (rd p 0) Q s.
Proof.
  intros [Hc (low & Hlow & Hw & _ & Es) _ _] HQ. eapply wp_rd; [by apply HC|done|exact Hw|]. by apply HQ.
Qed.

Lemma wp_switch_type sub p t ws fs (Q : cell_type → state → Prop) :
  typed_cell C sub p t ws fs → Q t s → wp (switch_type p) Q s.
Proof.
  intros [Hc (low & Hlow & Hw & _) _ _] HQ. apply wp_bind.
  eapply wp_CELL_TYPE; [by apply HC|exact Hw|]. rewrite header_type by done. by apply wp_ret.
Qed.

Lemma wp_typed_CELL_TYPE sub p t ws fs (Q : option cell_type → state → Prop) :
  typed_cell C sub p t ws fs → Q (Some t) s → wp (CELL_TYPE p) Q s.
Proof.
  intros [Hc (low & Hlow & Hw & _) _ _] HQ.
  eapply wp_CELL_TYPE; [by apply HC|exact Hw|]. by rewrite header_type.
Qed.

Lemma typed_nonnull h p : typed C h p → p ≠ NULL_PTR.
Proof.
  destruct h as [|h]; [done|]. intros (t & ws & fs & Hp). unfold NULL_PTR.
  pose proof (blk_pos _ _ _ (HC _ _ (tc_cell _ _ _ _ _ _ Hp))). lia.
Qed.

(** ** [cell_is_equal] *)

Definition value_ok (h : nat) (x : Z) : Prop := x = NULL_PTR ∨ typed C h x.

Lemma header_inj t t' low low' : 0 ≤ low < 2 ^ 24 → 0 ≤ low' < 2 ^ 24 →
  header t low = header t' low' → t = t' ∧ low = low'.
Proof.
  intros H H' E. pose proof (f_equal (λ w, cell_type_of (shr32 w (32 - CELL_TYPE_BITS))) E) as Et.
  simpl in Et. rewrite !header_type in Et by done. simplify_eq. split; [done|].
  apply (f_equal (λ w, Z.land w LOW_MASK)) in E. by rewrite !header_low in E.
Qed.

Lemma wp_cell_is_equal fuel : ∀ h h' p q (Q : Z → state → Prop),
  value_ok h p → value_ok h' q → (h < fuel)%nat →
  Q (if bool_decide (p = q) then 1 else 0) s → wp (cell_is_equal fuel p q) Q s.
Proof.
  induction fuel as [|fuel IH]; intros h h' p q Q Hp Hq Hf HQ; [lia|]. cbn [cell_is_equal].
  destruct (decide (p = q)) as [E|E].
  { rewrite !bool_decide_eq_true_2 in * by done. by apply wp_ret. }
  rewrite !(bool_decide_eq_false_2 (p = q)) in * by done.
  destruct Hp as [->|Hp]; [by apply wp_ret|]. destruct Hq as [->|Hq].
  { rewrite orb_true_r. by apply wp_ret. }
  rewrite !bool_decide_eq_false_2 by by eapply typed_nonnull. simpl.
  destruct h as [|h]; [done|]. destruct h' as [|h']; [done|].
  destruct Hp as (t & ws & fs & Hp), Hq as (t' & ws' & fs' & Hq).
  apply wp_bind. eapply wp_typed_header; [exact Hp|]. intros low Hw Es.
  apply wp_bind. eapply wp_typed_header; [exact Hq|]. intros low' Hw' Es'.
  case_bool_decide as Eh; [by apply wp_ret|].
  assert (t = t' ∧ fs = fs') as [<- <-].
  { destruct (tc_type _ _ _ _ _ _ Hp) as (l & Hl & Hwl & _), (tc_type _ _ _ _ _ _ Hq) as (l' & Hl' & Hwl' & _).
    rewrite Hwl in Hw. rewrite Hwl' in Hw'. injection Hw as E1. injection Hw' as E2.
    destruct (header_inj t t' l l' Hl Hl' ltac:(congruence)) as [<- _].
    split; [done|]. rewrite <- Eh in Es'. rewrite Es in Es'. congruence. }
  apply wp_bind. eapply wp_typed_CELL_TYPE; [exact Hp|].
  apply wp_bind. eapply wp_typed_CELL_TYPE; [exact Hq|].
  rewrite bool_decide_eq_true_2 by done. apply wp_bind, wp_ret.
  apply wp_bind. eapply wp_switch_type; [exact Hp|]. apply wp_bind.
  eapply (wp_simple_block _ (λ _, True) (λ v, v = 0)); [exact Es| |done|].
  2: { intros [[]|v] Hv; apply wp_ret; [done|]. by rewrite Hv. }
  intros d i [] Hi _.
  apply wp_bind. eapply wp_typed_field; [exact Hp|exact Hi|]. intros x Hx Dx Sx.
  apply wp_bind. eapply wp_typed_field; [exact Hq|exact Hi|]. intros y Hy Dy Sy.
  assert (Hrec : is_pointer d x = true → is_pointer d y = true →
    wp (e ← cell_is_equal fuel x y; mret (if bool_decide (e = 0) then inr 0 else inl tt))
      (λ r s', declared (λ _, True) (λ v, v = 0) r ∧ s' = s) s).
  { intros Px Py. apply wp_bind. eapply (IH h h'); [| |lia|].
    - destruct (decide (x = NULL_WORD)) as [->|]; [by left|right; by apply Sx].
    - destruct (decide (y = NULL_WORD)) as [->|]; [by left|right; by apply Sy].
    - apply wp_ret. split; [|done]. by repeat case_bool_decide. }
  destruct d; simpl in *.
  - apply wp_ret. split; [|done]. by case_bool_decide.
  - by apply Hrec.
  - by apply Hrec.
  - case_bool_decide as Em; [by apply wp_ret|].
    destruct (TAGGED_IS_PTR x) eqn:Px; [|apply wp_ret; split; [by case_bool_decide|done]].
    apply Hrec; [done|]. unfold TAGGED_IS_PTR in *. by rewrite <- Em.
Qed.
End typed.

(** ** Sizes and copies *)

Section operations.
Context (C : cenv) (s : state) (HC : holds s C).

Lemma wp_check_ptr p w ws (Q : unit → state → Prop) : C p (w :: ws) → Q tt s → wp (check_ptr p) Q s.
Proof.
  intros Hp HQ. pose proof (HC _ _ Hp) as [Hpos Hal Htop _ _]. simpl in Htop.
  apply wp_bind, wp_assert; [by apply bool_decide_eq_true|].
  apply wp_bind, wp_gets, wp_bind, wp_assert; [apply bool_decide_eq_true; lia|].
  apply wp_assert; [|done]. apply bool_decide_eq_true.
  change 0x3 with (2 ^ 2 - 1). by rewrite land_ones_mod.
Qed.

Lemma wp_number_of_words t p p0 n fs (Q : Z → state → Prop) :
  simple_cell t p0 = Some (n, fs) → Q n s → wp (number_of_words t p p0) Q s.
Proof. intros E HQ. unfold number_of_words. rewrite E. by apply wp_ret. Qed.

Lemma typed_words sub p t ws fs : typed_cell C sub p t ws fs → ∃ w ws', ws = w :: ws'.
Proof. intros [_ (low & _ & Hw & _) _ _]. destruct ws as [|w ws']; [done|eauto]. Qed.

Lemma wp_cell_get_number_of_words sub p t ws fs (Q : Z → state → Prop) :
  typed_cell C sub p t ws fs → Q (Z.of_nat (length ws)) s → wp (cell_get_number_of_words p) Q s.
Proof.
  intros Hp HQ. destruct (typed_words _ _ _ _ _ Hp) as (w & ws' & ->).
  apply wp_bind. eapply wp_typed_header; [exact HC|exact Hp|]. intros low Hw Es.
  apply wp_bind. eapply wp_check_ptr; [apply Hp|].
  apply wp_bind. eapply wp_switch_type; [exact HC|exact Hp|]. by eapply wp_number_of_words.
Qed.

(** ** [cell_check] *)

Context (Hw : wf s) (mem_base : Z).
(** The image is not so large that the cookies could be addresses, and it ends
    before the address space does. *)
Context (Hsmall : first_generation_start s ≤ FIRST_GENERATION_DEADBEEF).
Context (Hbase : first_generation_start s ≤ NULL_as_word mem_base).

Lemma pointer_ok h x : value_ok C h x →
  x ≠ NULL_as_word mem_base ∧ Z.land x 0x3 = 0 ∧ x ≠ FIRST_GENERATION_DEADBEEF ∧ x ≠ PAGE_DEADBEEF.
Proof.
  intros Hx. pose proof (wf_ap _ Hw). pose proof (wf_end _ Hw). destruct Hx as [->|Hx].
  { unfold NULL_PTR. split_and!; [lia|done..]. }
  destruct h as [|h]; [done|]. destruct Hx as (t & ws & fs & Hx).
  destruct (typed_words _ _ _ _ _ Hx) as (w & ws' & ->).
  destruct (HC _ _ (tc_cell _ _ _ _ _ _ Hx)) as [Hpos Hal Htop _ _]. simpl in Htop.
  split_and!; [lia| |lia|].
  - change 0x3 with (2 ^ 2 - 1). by rewrite land_ones_mod.
  - intros ->. by vm_compute in Hal.
Qed.

Lemma wp_check_deadbeef p w ws x (Q : unit → state → Prop) :
  C p (w :: ws) → x ≠ FIRST_GENERATION_DEADBEEF → Q tt s → wp (check_deadbeef p x) Q s.
Proof.
  intros Hp Hx HQ. apply wp_bind. destruct (HC _ _ Hp) as [_ _ _ Hl _]. simpl in Hl.
  eapply wp_is_in_first_generation; [done|unfold live; lia|].
  apply wp_assert; [|done]. rewrite (bool_decide_eq_false_2 (x = _)) by done. apply orb_true_r.
Qed.

Lemma size_s32 t p0 n fs : simple_cell t p0 = Some (n, fs) →
  (t = CELL_ist234 → Z.land p0 0xFFFFFF ≠ 0) → s32 n = n.
Proof.
  intros E Hist. destruct (simple_cell_indices _ _ _ _ E Hist) as [Hn _].
  unfold s32. rewrite w32_small; [|unfold is_word; rewrite word_modulus_val; lia].
  rewrite bool_decide_eq_true_2; lia.
Qed.

Lemma typed_s32 sub p t ws fs : typed_cell C sub p t ws fs →
  s32 (Z.of_nat (length ws)) = Z.of_nat (length ws).
Proof.
  intros [_ (low & Hlow & Hw0 & Hist & Es) _ _]. eapply size_s32; [exact Es|].
  intros E. rewrite header_low by done. auto.
Qed.

(** Walking through assertions. *)
Ltac wp_asserts :=
  repeat (apply wp_bind, wp_assert;
          [solve [apply negb_true_iff, bool_decide_eq_false; done | apply bool_decide_eq_true; done]|]).

Lemma is_pointer_ok h d x : (is_pointer d x = true → x ≠ NULL_WORD → typed C h x) →
  is_pointer d x = true → value_ok C h x.
Proof.
  intros Hs Hp. destruct (decide (x = NULL_WORD)) as [->|]; [by left|right; by apply Hs].
Qed.

Lemma wp_cell_check fuel h p (Q : Z → state → Prop) :
  typed C h p → Q 1 s → wp (cell_check fuel mem_base p) Q s.
Proof.
  intros Hp HQ. destruct h as [|h]; [done|]. destruct Hp as (t & ws & fs & Hp).
  destruct (typed_words _ _ _ _ _ Hp) as (w & ws' & Ews). pose proof (tc_cell _ _ _ _ _ _ Hp) as Hcell.
  unfold cell_check. apply wp_bind. rewrite Ews in Hcell. eapply wp_check_ptr; [exact Hcell|].
  apply wp_bind. eapply wp_typed_header; [exact HC|exact Hp|]. intros low Hw0 Es.
  apply wp_bind. eapply wp_switch_type; [exact HC|exact Hp|].
  apply wp_bind. eapply wp_number_of_words; [exact Es|].
  rewrite bool_decide_eq_false_2 by (by intros ->).
  apply wp_bind. eapply (wp_simple_block _ (λ _, True) (λ _, False)); [exact Es| |done|].
  2: { intros [a|[]] _. by apply wp_ret. }
  intros d i a Hi _. destruct (typed_field _ _ _ _ _ _ _ _ Hp Hi) as [Hr _].
  apply wp_bind, wp_assert; [apply bool_decide_eq_true; lia|].
  rewrite (typed_s32 _ _ _ _ _ Hp).
  apply wp_bind, wp_assert; [apply bool_decide_eq_true; lia|].
  destruct d; [by apply wp_ret|..].
  all: apply wp_bind; eapply wp_typed_field; [exact HC|exact Hp|exact Hi|]; intros x Hx Dx Sx;
    pose proof (is_pointer_ok _ _ _ Sx) as Hv; simpl in Dx, Hv.
  - destruct (pointer_ok _ _ (Hv eq_refl)) as (? & ? & ? & ?). wp_asserts.
    apply wp_bind. eapply wp_check_deadbeef; [exact Hcell|done|]. wp_asserts. by apply wp_ret.
  - destruct (pointer_ok _ _ (Hv eq_refl)) as (? & ? & ? & ?). wp_asserts.
    apply wp_bind. eapply wp_check_deadbeef; [exact Hcell|done|]. wp_asserts. by apply wp_ret.
  - apply wp_bind, wp_assert; [done|]. apply wp_bind. destruct (TAGGED_IS_PTR x); [|by do 2 apply wp_ret].
    destruct (pointer_ok _ _ (Hv eq_refl)) as (? & ? & ? & ?). wp_asserts.
    apply wp_bind. eapply wp_check_deadbeef; [exact Hcell|done|].
    apply wp_assert; [by apply negb_true_iff, bool_decide_eq_false|]. by apply wp_ret.
Qed.

Lemma wp_cell_check_rec fuel : ∀ h p (Q : Z → state → Prop),
  typed C h p → (h ≤ fuel)%nat → Q 1 s → wp (cell_check_rec fuel mem_base p) Q s.
Proof.
  induction fuel as [|fuel IH]; intros h p Q Hp Hf HQ; [by destruct h; [|lia]|].
  destruct h as [|h]; [done|]. cbn [cell_check_rec].
  pose proof (typed_nonnull _ _ HC _ _ Hp) as Hnn. destruct Hp as (t & ws & fs & Hp).
  destruct (typed_words _ _ _ _ _ Hp) as (w & ws' & Ews). pose proof (tc_cell _ _ _ _ _ _ Hp) as Hcell.
  rewrite Ews in Hcell. wp_asserts.
  apply wp_bind. eapply wp_typed_header; [exact HC|exact Hp|]. intros low Hw0 Es.
  apply wp_bind. eapply wp_switch_type; [exact HC|exact Hp|].
  apply wp_bind. eapply wp_number_of_words; [exact Es|].
  rewrite bool_decide_eq_false_2 by (by intros ->).
  apply wp_bind. eapply (wp_simple_block _ (λ _, True) (λ _, False)); [exact Es| |done|].
  2: { intros [a|[]] _. by apply wp_ret. }
  intros d i a Hi _. destruct (typed_field _ _ _ _ _ _ _ _ Hp Hi) as [Hr _].
  apply wp_bind, wp_assert; [apply bool_decide_eq_true; lia|].
  rewrite (typed_s32 _ _ _ _ _ Hp).
  apply wp_bind, wp_assert; [apply bool_decide_eq_true; lia|].
  assert (Hrec : ∀ x (Q' : Z → state → Prop), value_ok C h x → (∀ r, Q' r s) →
    wp (if bool_decide (x = NULL_WORD) then mret 0 else cell_check_rec fuel mem_base x) Q' s).
  { intros x Q' Hv HQ'. case_bool_decide as E; [by apply wp_ret|].
    destruct Hv as [->|Hv]; [done|]. eapply IH; [exact Hv|lia|done]. }
  destruct d; [by apply wp_ret|..].
  all: apply wp_bind; eapply wp_typed_field; [exact HC|exact Hp|exact Hi|]; intros x Hx Dx Sx;
    pose proof (is_pointer_ok _ _ _ Sx) as Hv; simpl in Dx, Hv.
  - destruct (pointer_ok _ _ (Hv eq_refl)) as (? & ? & ? & ?). wp_asserts.
    apply wp_bind, Hrec; [by apply Hv|]. intros r. by apply wp_ret.
  - destruct (pointer_ok _ _ (Hv eq_refl)) as (? & ? & ? & ?). wp_asserts.
    apply wp_bind. destruct (Hv eq_refl) as [->|Hv']; [done|].
    eapply IH; [exact Hv'|lia|]. by apply wp_ret.
  - apply wp_bind, wp_assert; [done|]. apply wp_bind. destruct (TAGGED_IS_PTR x); [|by do 2 apply wp_ret].
    destruct (pointer_ok _ _ (Hv eq_refl)) as (? & ? & ? & ?). wp_asserts.
    apply wp_bind. eapply wp_check_deadbeef; [exact Hcell|done|]. wp_asserts.
    apply Hrec; [by apply Hv|]. intros r. by apply wp_ret.
Qed.
End operations.

(** ** [cell_copy] *)

Lemma wp_copy_words C s0 s u cs q p ws ws0 (Q : unit → state → Prop) :
  holds s0 C → C p ws → grow s0 s u ((q, ws0) :: cs) → length ws0 = length ws →
  (∀ s', grow s0 s' u ((q, ws) :: cs) → Q tt s') →
  wp (copy_words q p (length ws)) Q s.
Proof.
  intros HC Hp HG Hl HQ.
  apply (wp_for (λ i _ s, grow s0 s u ((q, take i ws ++ drop i ws0) :: cs))).
  - exact HG.
  - intros i [] s1 Hi HG1. destruct (lookup_lt_is_Some_2 ws i Hi) as [x Hx].
    apply wp_bind. eapply (wp_rd _ _ ws); [by eapply grow_blk_old|lia|by rewrite Nat2Z.id|].
    eapply (wp_wr _ _ _ _ 0%nat); [exact HG1|done| |].
    + rewrite length_app, length_take, length_drop. lia.
    + intros s' HG'. rewrite Nat2Z.id in HG'. cbn [insert list_insert] in HG'.
      replace (<[i:=x]> (take i ws ++ drop i ws0)) with (take (S i) ws ++ drop (S i) ws0) in HG'; [done|].
      rewrite (take_S_r _ _ x) by done.
      destruct (lookup_lt_is_Some_2 ws0 i ltac:(lia)) as [y Hy].
      rewrite (drop_S ws0 y i) by done. rewrite insert_app_r_alt by (rewrite length_take; lia).
      rewrite length_take. replace (i - i `min` length ws)%nat with 0%nat by lia.
      simpl. by rewrite <- app_assoc.
  - intros [] s1 HG1. apply HQ. rewrite firstn_all, drop_ge, app_nil_r in HG1 by lia. done.
Qed.

Lemma wp_cell_copy C s sub p t ws fs (Q : Z → state → Prop) :
  holds s C → wf s → typed_cell C sub p t ws fs →
  2 ≤ Z.of_nat (length ws) ≤ NUMBER_OF_WORDS_PER_PAGE - 2 → room s (Z.of_nat (length ws)) →
  (∀ q s', grow s s' (Z.of_nat (length ws)) [(q, ws)] → Q q s') →
  wp (cell_copy p) Q s.
Proof.
  intros HC Hw Hp Hn Hr HQ. pose proof (tc_cell _ _ _ _ _ _ Hp) as Hcell.
  destruct (typed_words _ _ _ _ _ _ Hp) as (w & ws' & Ews).
  unfold cell_copy. apply wp_bind. eapply wp_typed_header; [exact HC|exact Hp|]. intros low Hw0 Es.
  apply wp_bind. rewrite Ews in Hcell. eapply wp_check_ptr; [exact HC|exact Hcell|]. rewrite <- Ews in Hcell.
  apply wp_bind. eapply wp_switch_type; [exact HC|exact Hp|].
  apply wp_bind. eapply wp_number_of_words; [exact Es|].
  pose proof (grow_refl s Hw) as HG.
  apply wp_bind. eapply wp_can_allocate; [exact HG|lia|]. clear HG. intros s1 HG.
  rewrite Z.add_0_l. apply wp_bind, wp_assert; [by apply bool_decide_eq_true|].
  apply wp_bind. eapply wp_switch_type; [eapply holds_ext, HC; apply HG|exact Hp|].
  apply wp_bind. eapply wp_allocate; [exact HG|by rewrite Z.add_0_l|done|]. clear HG.
  intros q s2 Hq HG. rewrite Z.add_0_l in HG. apply wp_bind. rewrite Nat2Z.id.
  eapply wp_copy_words; [exact HC|exact Hcell|exact HG| |].
  { simpl. rewrite length_replicate, Nat2Z.id. lia. }
  intros s' HG'. apply wp_ret. by apply HQ.
Qed.

(** * Properties *)

(** Every instruction but [net_close] declares each of its operand words
    exactly once and nothing else; [net_close], of size 1, declares a word of the
    next instruction. *)
Theorem insn_operands :
  Forall (λ '(name, insn_size, imm), name ≠ "net_close"%string →
    imm.*2 = indices (insn_size - 1)) insns ∧
  insn_of 337 = Some ("net_close"%string, 1, [(DECLARE_WORD, 1)]) ∧ length insns = 169%nat.
Proof.
  split; [|by vm_compute].
  assert (H : forallb (λ '(name, insn_size, imm), bool_decide (name = "net_close"%string) ||
    bool_decide (imm.*2 = indices (insn_size - 1))) insns = true) by by vm_compute.
  rewrite forallb_forall in H. apply Forall_forall. intros [[name sz] imm] Hin Hne.
  specialize (H _ (proj1 (list_elem_of_In _ _) Hin)). simpl in H. apply orb_true_iff in H as [H|H].
  - by apply bool_decide_eq_true in H.
  - by apply bool_decide_eq_true in H.
Qed.

(** C24. On well-typed cells [cell_get_number_of_words] yields the size, and
    [cell_copy] makes one new cell with the same words, all of them, right below
    the allocation pointer, and leaves the rest as it is. *)
Theorem cell_copy_correct h p t ws fs s :
  wf s → typed_cell (blk s) (typed (blk s) h) p t ws fs →
  2 ≤ Z.of_nat (length ws) ≤ NUMBER_OF_WORDS_PER_PAGE - 2 → room s (Z.of_nat (length ws)) →
  cell_get_number_of_words p s = Ok (Z.of_nat (length ws)) s ∧
  ∃ q s', cell_copy p s = Ok q s' ∧ s ⊑ₛ s' ∧ wf s' ∧ blk s' q ws ∧
    q = first_generation_allocation_ptr s - 4 * Z.of_nat (length ws) ∧
    first_generation_allocation_ptr s' = q ∧ typed (blk s') (S h) q.
Proof.
  intros Hw Hp Hn Hr. split.
  { assert (H : wp (cell_get_number_of_words p) (λ r s', r = Z.of_nat (length ws) ∧ s' = s) s)
      by by eapply wp_cell_get_number_of_words; [apply holds_blk|..].
    by apply wp_inv in H as (r & s' & E & -> & ->). }
  assert (H : wp (cell_copy p) (λ q s', grow s s' (Z.of_nat (length ws)) [(q, ws)]) s).
  { eapply wp_cell_copy; [apply holds_blk|done|exact Hp|done|done|done]. }
  apply wp_inv in H as (q & s' & E & HG). exists q, s'. split; [done|].
  pose proof (grow_cells _ _ _ _ HG) as Hc. apply Forall_cons in Hc as [(Hb & Hlo & Hhi) _].
  pose proof (grow_used _ _ _ _ HG) as Hu. cbn [fst snd] in *.
  split; [apply HG|]. split; [apply HG|]. split; [done|]. split; [lia|]. split; [lia|].
  exists t, ws, fs. destruct Hp as [H1 H2 H3 H4]. split; [done|done|done|].
  assert (Hmono : ∀ h x, typed (blk s) h x → typed (blk s') h x).
  { clear -HG. induction h as [|h IH]; intros x; [done|]. intros (t1 & ws1 & fs1 & [H1 H2 H3 H4]).
    exists t1, ws1, fs1. split; [|done|done|].
    - eapply blk_ext; [apply HG|done].
    - intros d i y Hi Hy Hd Hn. by apply IH, (H4 d i). }
  intros d i x Hi Hx Hd Hne. by apply Hmono, (H4 d i).
Qed.

(** An example: a list of two tagged words. *)
Definition example_list : M Z :=
  p ← allocate 3 CELL_list; wr p 1 5;; wr p 2 NULL_WORD;;
  q ← allocate 3 CELL_list; wr q 1 9;; wr q 2 p;; mret q.
Definition example_list_state : state := exec example_list (init_state 4 100 []).

Lemma example_list_typed : typed (blk example_list_state) 1 404 ∧
  typed_cell (blk example_list_state) (typed (blk example_list_state) 1) 392 CELL_list
    [header CELL_list 0; 9; 404] [(DECLARE_TAGGED, 1); (DECLARE_TAGGED, 2)].
Proof.
  assert (H : typed (blk example_list_state) 1 404).
  { exists CELL_list, [header CELL_list 0; 5; 0], [(DECLARE_TAGGED, 1); (DECLARE_TAGGED, 2)]. split.
    - apply blkb_sound. by vm_compute.
    - by exists 0.
    - intros d i x [[= -> ->]|[[= -> ->]|[]%not_elem_of_nil]%elem_of_cons]%elem_of_cons [= <-]; by vm_compute.
    - intros d i x [[= -> ->]|[[= -> ->]|[]%not_elem_of_nil]%elem_of_cons]%elem_of_cons [= <-]; done. }
  split; [done|]. split.
  - apply blkb_sound. by vm_compute.
  - by exists 0.
  - intros d i x [[= -> ->]|[[= -> ->]|[]%not_elem_of_nil]%elem_of_cons]%elem_of_cons [= <-]; by vm_compute.
  - intros d i x [[= -> ->]|[[= -> ->]|[]%not_elem_of_nil]%elem_of_cons]%elem_of_cons [= <-]; done.
Qed.

Lemma example_list_wf : wf example_list_state.
Proof. apply wfb_sound. by vm_compute. Qed.

Lemma cell_copy_correct_witness :
  let s := example_list_state in let ws := [header CELL_list 0; 9; 404] in
  cell_get_number_of_words 392 s = Ok (Z.of_nat (length ws)) s ∧
  ∃ q s', cell_copy 392 s = Ok q s' ∧ s ⊑ₛ s' ∧ wf s' ∧ blk s' q ws ∧
    q = first_generation_allocation_ptr s - 4 * Z.of_nat (length ws) ∧
    first_generation_allocation_ptr s' = q ∧ typed (blk s') 2 q.
Proof.
  apply (cell_copy_correct 1 392 CELL_list [header CELL_list 0; 9; 404]
    [(DECLARE_TAGGED, 1); (DECLARE_TAGGED, 2)] example_list_state).
  - exact example_list_wf.
  - apply example_list_typed.
  - by vm_compute.
  - by vm_compute.
Defined.

(** C23. [cell_is_equal] terminates on all well-typed cells, and tells whether
    the two pointers are the same: copies of a cell are never reported EQUAL. *)
Theorem cell_is_equal_identity h h' p q fuel s :
  value_ok (blk s) h p → value_ok (blk s) h' q → (h < fuel)%nat →
  cell_is_equal fuel p q s = Ok (if bool_decide (p = q) then 1 else 0) s.
Proof.
  intros Hp Hq Hf.
  assert (H : wp (cell_is_equal fuel p q) (λ r s', r = (if bool_decide (p = q) then 1 else 0) ∧ s' = s) s)
    by by eapply wp_cell_is_equal; [apply holds_blk|..].
  by apply wp_inv in H as (r & s' & E & -> & ->).
Qed.

Definition copied_list_state : state := exec (cell_copy 404) example_list_state.

Lemma cell_is_equal_identity_witness :
  cell_is_equal 2 404 404 example_list_state = Ok 1 example_list_state.
Proof.
  apply (cell_is_equal_identity 1 1 404 404 2 example_list_state);
    [right; apply example_list_typed|right; apply example_list_typed|lia].
Defined.

(** Two cells with the same words. *)
Example cell_is_equal_copy : cell_is_equal 2 404 380 copied_list_state = Ok 0 copied_list_state ∧
  (λ i, mem copied_list_state !! i) <$> [380; 384; 388] =
    (λ i, mem copied_list_state !! i) <$> [404; 408; 412].
Proof. by vm_compute. Qed.

(** C25. Both consistency checks accept every well-typed cell, in an image that
    is not so large that a cookie could be an address. *)
Theorem cell_checks_pass h p fuel mem_base s :
  wf s → typed (blk s) h p → (h ≤ fuel)%nat →
  first_generation_start s ≤ FIRST_GENERATION_DEADBEEF →
  first_generation_start s ≤ NULL_as_word mem_base →
  cell_check fuel mem_base p s = Ok 1 s ∧ cell_check_rec fuel mem_base p s = Ok 1 s.
Proof.
  intros Hw Hp Hf Hsmall Hbase. split.
  - assert (H : wp (cell_check fuel mem_base p) (λ r s', r = 1 ∧ s' = s) s)
      by by eapply wp_cell_check; [apply holds_blk|..].
    by apply wp_inv in H as (r & s' & E & -> & ->).
  - assert (H : wp (cell_check_rec fuel mem_base p) (λ r s', r = 1 ∧ s' = s) s)
      by by eapply wp_cell_check_rec; [apply holds_blk|..].
    by apply wp_inv in H as (r & s' & E & -> & ->).
Qed.

Lemma cell_checks_pass_witness :
  cell_check 2 0x10000 404 example_list_state = Ok 1 example_list_state ∧
  cell_check_rec 2 0x10000 404 example_list_state = Ok 1 example_list_state.
Proof.
  apply (cell_checks_pass 1 404 2 0x10000 example_list_state).
  - exact example_list_wf.
  - apply example_list_typed.
  - lia.
  - by vm_compute.
  - by vm_compute.
Defined.
