(* ===== verification/Pages.v ===== *)
(** Pages and generations (shades.c, "Page management" and "Generation
    management"): the pool of free pages, the generations' records and their
    doubly linked list.

    Messages to stderr before [exit] and the allocation of C arrays are left out;
    an array that [realloc] extends has 0 where C leaves it uninitialised. *)

From S2P Require Import Prelude Generations Machine Celltypes Shades Bitops Cells.

(** * Access to the variables *)

Definition gcs {A} (f : gc_state → A) : M A := gets (λ s, f (gc s)).
Definition set_gcs (f : gc_state → gc_state) : M unit := modify (λ s, set_gc (f (gc s)) s).

Definition get_page (pn : Z) : M page_info_t := t ← gcs page_info; of_option (zlookup t pn).
Definition put_page (pn : Z) (f : page_info_t → page_info_t) : M unit :=
  t ← gcs page_info; x ← of_option (zlookup t pn); set_gcs (set_page_info (zinsert pn (f x) t)).
Definition get_gen (gn : Z) : M generation_info_t := t ← gcs generation_info; of_option (zlookup t gn).
Definition put_gen (gn : Z) (f : generation_info_t → generation_info_t) : M unit :=
  t ← gcs generation_info; x ← of_option (zlookup t gn); set_gcs (set_generation_info (zinsert gn (f x) t)).

Definition with_generation g x := PageInfo g (pg_is_allocated x) (pg_next_free_page x).
Definition with_allocated b x := PageInfo (pg_generation x) b (pg_next_free_page x).
Definition with_next_free n x := PageInfo (pg_generation x) (pg_is_allocated x) n.

Definition with_status v x := GenerationInfo v (gi_rem_set x) (gi_npages x) (gi_page x) (gi_disk_page x)
  (gi_younger x) (gi_older x) (gi_from x) (gi_next_from x) (gi_next_collected_twice x).
Definition with_rem_set v x := GenerationInfo (gi_status x) v (gi_npages x) (gi_page x) (gi_disk_page x)
  (gi_younger x) (gi_older x) (gi_from x) (gi_next_from x) (gi_next_collected_twice x).
Definition with_pages n p d x := GenerationInfo (gi_status x) (gi_rem_set x) n p d
  (gi_younger x) (gi_older x) (gi_from x) (gi_next_from x) (gi_next_collected_twice x).
Definition with_younger v x := GenerationInfo (gi_status x) (gi_rem_set x) (gi_npages x) (gi_page x) (gi_disk_page x)
  v (gi_older x) (gi_from x) (gi_next_from x) (gi_next_collected_twice x).
Definition with_older v x := GenerationInfo (gi_status x) (gi_rem_set x) (gi_npages x) (gi_page x) (gi_disk_page x)
  (gi_younger x) v (gi_from x) (gi_next_from x) (gi_next_collected_twice x).
Definition with_collected_twice v x := GenerationInfo (gi_status x) (gi_rem_set x) (gi_npages x) (gi_page x)
  (gi_disk_page x) (gi_younger x) (gi_older x) (gi_from x) (gi_next_from x) v.

(** * Pages *)

(** cookies.h *)
Definition PAGE_MAGIC_COOKIE : Z := 0x4A6E3A61.

Definition PAGE_NUMBER_TO_PAGE_PTR (pn : Z) : Z := PAGE_SIZE * pn.
Definition PTR_TO_PAGE_NUMBER (p : Z) : Z := shr32 p (DO_ILOG2 PAGE_SIZE - 1).

(** [PTR_TO_GENERATION_INFO], as the generation's number. *)
Definition PTR_TO_GENERATION (p : Z) : M Z :=
  x ← get_page (PTR_TO_PAGE_NUMBER p); mret (pg_generation x).

Definition PAGE_SET_NUMBER_OF_WORDS_IN_USE (pn n : Z) : M unit :=
  massert (bool_decide (n ≤ NUMBER_OF_WORDS_PER_PAGE));;
  wr (PAGE_NUMBER_TO_PAGE_PTR pn) 1 n.
Definition PAGE_GET_NUMBER_OF_WORDS_IN_USE (pn : Z) : M Z := rd (PAGE_NUMBER_TO_PAGE_PTR pn) 1.

Definition free_page (pn : Z) : M unit :=
  w ← rd (PAGE_NUMBER_TO_PAGE_PTR pn) 0;
  massert (bool_decide (w = PAGE_MAGIC_COOKIE));;
  x ← get_page pn;
  massert (pg_is_allocated x);;
  for_ (Z.to_nat NUMBER_OF_WORDS_PER_PAGE - 1) (λ i _,
    wr (PAGE_NUMBER_TO_PAGE_PTR pn) (1 + Z.of_nat i) PAGE_DEADBEEF) tt;;
  put_page pn (with_allocated false);;
  put_page pn (with_generation INVALID_GENERATION_NUMBER);;
  r ← gcs is_recovering;
  (if negb r then
     l ← gcs list_of_free_pages;
     put_page pn (with_next_free l);;
     set_gcs (set_list_of_free_pages pn)
   else mret tt);;
  n ← gcs number_of_free_pages;
  set_gcs (set_number_of_free_pages (n + 1)).

Definition allocate_page : M Z :=
  pn ← gcs list_of_free_pages;
  if bool_decide (pn = INVALID_PAGE_NUMBER) then fail Exited
  else
    x ← get_page pn;
    set_gcs (set_list_of_free_pages (pg_next_free_page x));;
    x ← get_page pn;
    massert (negb (pg_is_allocated x));;
    w ← rd (PAGE_NUMBER_TO_PAGE_PTR pn) 0;
    massert (bool_decide (w = PAGE_MAGIC_COOKIE));;
    for_ (Z.to_nat NUMBER_OF_WORDS_PER_PAGE - 1) (λ i _,
      w ← rd (PAGE_NUMBER_TO_PAGE_PTR pn) (1 + Z.of_nat i);
      massert (bool_decide (w = PAGE_DEADBEEF))) tt;;
    r ← gcs is_recovering;
    massert (negb r);;
    put_page pn (with_allocated true);;
    n ← gcs number_of_free_pages;
    set_gcs (set_number_of_free_pages (n - 1));;
    mret pn.

Definition rvy_allocate_page (pn : Z) : M unit :=
  w ← rd (PAGE_NUMBER_TO_PAGE_PTR pn) 0;
  massert (bool_decide (w = PAGE_MAGIC_COOKIE));;
  x ← get_page pn;
  (if negb (pg_is_allocated x) then
     n ← gcs number_of_free_pages; set_gcs (set_number_of_free_pages (n - 1))
   else mret tt);;
  put_page pn (with_allocated true).

Definition construct_page_freelist : M unit :=
  number_of_pages ← gcs (λ g, length (page_info g));
  for_ number_of_pages (λ i _,
    let pn := Z.of_nat i in
    x ← get_page pn;
    if negb (pg_is_allocated x) then
      put_page pn (with_generation INVALID_GENERATION_NUMBER);;
      l ← gcs list_of_free_pages;
      put_page pn (with_next_free l);;
      set_gcs (set_list_of_free_pages pn)
    else mret tt) tt.

(** * Generations *)

(** A record whose contents C leaves uninitialised but for the status. *)
Definition nonexistent_generation : generation_info_t := GenerationInfo NONEXISTENT [] 0 [] [] 0 0 0 0 0.

(** As pages refer to generations by number here, the redirection of their
    pointers is nothing. *)
Definition generation_info_grow (new_number_of_generations : Z) : M unit :=
  t ← gcs generation_info;
  if bool_decide (new_number_of_generations ≤ Z.of_nat (length t)) then mret tt
  else
    let new := Z.to_nat (new_number_of_generations - Z.of_nat (length t)) in
    n ← gcs number_of_nonexistent_generations;
    set_gcs (set_number_of_nonexistent_generations (n + Z.of_nat new));;
    set_gcs (set_generation_info (t ++ replicate new nonexistent_generation)).

Definition insert_generation_after (younger_gn : Z) : M unit :=
  to ← gcs to_gn;
  put_gen to (with_younger younger_gn);;
  if bool_decide (younger_gn = INVALID_GENERATION_NUMBER) then
    y ← gcs youngest_gn;
    put_gen to (with_older y);;
    y ← gcs youngest_gn;
    (if bool_decide (y ≠ INVALID_GENERATION_NUMBER) then put_gen y (with_younger to) else mret tt);;
    set_gcs (set_youngest_gn to)
  else
    x ← get_gen younger_gn;
    let older_gn := gi_older x in
    put_gen to (with_older older_gn);;
    (if bool_decide (older_gn ≠ INVALID_GENERATION_NUMBER) then put_gen older_gn (with_younger to) else mret tt);;
    put_gen younger_gn (with_older to).

(** The fields that [allocate_generation] assigns to a new generation. *)
Definition new_generation : generation_info_t :=
  GenerationInfo NORMAL [] 0 [] [] INVALID_GENERATION_NUMBER INVALID_GENERATION_NUMBER INVALID_GENERATION_NUMBER
    INVALID_GENERATION_NUMBER INVALID_GENERATION_NUMBER.

Definition find_nonexistent_generation (fuel : nat) : M unit :=
  loop fuel (λ _ : unit,
    gn ← gcs next_gn;
    x ← get_gen gn;
    if bool_decide (gi_status x ≠ NONEXISTENT) then
      n ← gcs (λ g, Z.of_nat (length (generation_info g)));
      set_gcs (set_next_gn ((gn + 1) mod n));;
      mret (inl tt)
    else mret (inr tt)) tt.

Definition allocate_generation (fuel : nat) : M unit :=
  nn ← gcs number_of_nonexistent_generations;
  n ← gcs (λ g, Z.of_nat (length (generation_info g)));
  (if bool_decide (nn * 8 < n) then generation_info_grow (2 * n) else mret tt);;
  find_nonexistent_generation fuel;;
  gn ← gcs next_gn;
  set_gcs (set_to_gn gn);;
  nn ← gcs number_of_nonexistent_generations;
  set_gcs (set_number_of_nonexistent_generations (nn - 1));;
  put_gen gn (λ _, new_generation).

Definition mark_generation_collected_twice (gn : Z) : M unit :=
  put_gen gn (with_status COLLECTED_TWICE);;
  g ← gcs generations_collected_twice;
  put_gen gn (with_collected_twice g);;
  set_gcs (set_generations_collected_twice gn).

Definition mark_generation_collected_once (fuel : nat) (gn : Z) : M unit :=
  put_gen gn (with_status COLLECTED_ONCE);;
  x ← get_gen gn;
  for_ (Z.to_nat (gi_npages x)) (λ i _,
    pn ← of_option (zlookup (gi_page x) (Z.of_nat i)); free_page pn) tt;;
  (if bool_decide (gi_older x ≠ INVALID_GENERATION_NUMBER)
   then put_gen (gi_older x) (with_younger (gi_younger x)) else mret tt);;
  x ← get_gen gn;
  (if bool_decide (gi_younger x ≠ INVALID_GENERATION_NUMBER)
   then put_gen (gi_younger x) (with_older (gi_older x))
   else
     y ← gcs youngest_gn;
     massert (bool_decide (gn = y));;
     set_gcs (set_youngest_gn (gi_older x)));;
  x ← get_gen gn;
  loop fuel (λ gn,
    if bool_decide (gn ≠ INVALID_GENERATION_NUMBER) then
      mark_generation_collected_twice gn;;
      x ← get_gen gn;
      mret (inl (gi_next_from x))
    else mret (inr tt)) (gi_from x).

(** * The rules for the variables *)

Section rules.
Context (s : state).

Lemma wp_gcs {A} (f : gc_state → A) (Q : A → state → Prop) : Q (f (gc s)) s → wp (gcs f) Q s.
Proof. done. Qed.

Lemma wp_set_gcs f (Q : unit → state → Prop) : Q tt (set_gc (f (gc s)) s) → wp (set_gcs f) Q s.
Proof. done. Qed.

Lemma wp_get_page pn x (Q : page_info_t → state → Prop) :
  zlookup (page_info (gc s)) pn = Some x → Q x s → wp (get_page pn) Q s.
Proof. intros Hx HQ. apply wp_bind, wp_gcs. by eapply wp_of_option. Qed.

Lemma wp_put_page pn f x (Q : unit → state → Prop) :
  zlookup (page_info (gc s)) pn = Some x →
  Q tt (set_gc (set_page_info (zinsert pn (f x) (page_info (gc s))) (gc s)) s) → wp (put_page pn f) Q s.
Proof. intros Hx HQ. apply wp_bind, wp_gcs. apply wp_bind. by eapply wp_of_option. Qed.

Lemma wp_get_gen gn x (Q : generation_info_t → state → Prop) :
  zlookup (generation_info (gc s)) gn = Some x → Q x s → wp (get_gen gn) Q s.
Proof. intros Hx HQ. apply wp_bind, wp_gcs. by eapply wp_of_option. Qed.

Lemma wp_put_gen gn f x (Q : unit → state → Prop) :
  zlookup (generation_info (gc s)) gn = Some x →
  Q tt (set_gc (set_generation_info (zinsert gn (f x) (generation_info (gc s))) (gc s)) s) → wp (put_gen gn f) Q s.
Proof. intros Hx HQ. apply wp_bind, wp_gcs. apply wp_bind. by eapply wp_of_option. Qed.
End rules.

(** * The pool of free pages *)

Definition in_page (pn a : Z) : Prop := PAGE_SIZE * pn ≤ a < PAGE_SIZE * (pn + 1).

Lemma in_page_inj pn pn' a : in_page pn a → in_page pn' a → pn = pn'.
Proof. unfold in_page. change PAGE_SIZE with 65536. lia. Qed.

Lemma PTR_TO_PAGE_NUMBER_div p : PTR_TO_PAGE_NUMBER p = p / PAGE_SIZE.
Proof.
  unfold PTR_TO_PAGE_NUMBER. replace (DO_ILOG2 PAGE_SIZE - 1) with 16 by (by vm_compute).
  unfold shr32. by rewrite Z.shiftr_div_pow2 by lia.
Qed.

Lemma in_page_iff pn a : in_page pn a ↔ PTR_TO_PAGE_NUMBER a = pn.
Proof.
  rewrite PTR_TO_PAGE_NUMBER_div. unfold in_page. change PAGE_SIZE with 65536. split; intros; zdiv.
Qed.

(** A page as [free_page] leaves it. *)
Definition virgin_page (m : gmap Z Z) (pn : Z) : Prop :=
  m !! (PAGE_SIZE * pn) = Some PAGE_MAGIC_COOKIE ∧
  ∀ i, 1 ≤ i < NUMBER_OF_WORDS_PER_PAGE → m !! (PAGE_SIZE * pn + 4 * i) = Some PAGE_DEADBEEF.

Lemma virgin_page_same m m' pn : (∀ a, in_page pn a → m' !! a = m !! a) → virgin_page m pn → virgin_page m' pn.
Proof.
  intros Hm [H1 H2]. assert (Hin : ∀ i, 0 ≤ i < NUMBER_OF_WORDS_PER_PAGE → in_page pn (PAGE_SIZE * pn + 4 * i)).
  { unfold in_page. change NUMBER_OF_WORDS_PER_PAGE with 16384. change PAGE_SIZE with 65536. lia. }
  split.
  - rewrite Hm; [done|]. rewrite <- (Z.add_0_r (PAGE_SIZE * pn)). apply (Hin 0). by vm_compute.
  - intros i Hi. rewrite Hm; [by apply H2|]. apply Hin. lia.
Qed.

(** The linked list of free pages. *)
Fixpoint free_chain (t : list page_info_t) (h : Z) (free : list Z) : Prop :=
  match free with
  | [] => h = INVALID_PAGE_NUMBER
  | pn :: free => h = pn ∧ pn ≠ INVALID_PAGE_NUMBER ∧
    ∃ x, zlookup t pn = Some x ∧ pg_is_allocated x = false ∧ free_chain t (pg_next_free_page x) free
  end.

Lemma free_chain_same t t' h free : (∀ pn, pn ∈ free → zlookup t' pn = zlookup t pn) →
  free_chain t h free → free_chain t' h free.
Proof.
  revert h. induction free as [|pn free IH]; intros h Ht; [done|]. intros (-> & Hn & x & Hx & Ha & H).
  split; [done|]. split; [done|]. exists x. rewrite Ht by by left. split; [done|]. split; [done|].
  apply IH; [|done]. intros pn' Hin. apply Ht. by right.
Qed.

Lemma free_chain_page t h free pn : free_chain t h free → pn ∈ free →
  ∃ x, zlookup t pn = Some x ∧ pg_is_allocated x = false.
Proof.
  revert h. induction free as [|pn' free IH]; intros h; [by intros _ ?%not_elem_of_nil|].
  intros (_ & _ & x & Hx & Ha & H) [->|Hin]%elem_of_cons; [eauto|by eapply IH].
Qed.

Lemma free_chain_valid t h free pn : free_chain t h free → pn ∈ free → pn ≠ INVALID_PAGE_NUMBER.
Proof.
  revert h. induction free as [|pn' free IH]; intros h; [by intros _ ?%not_elem_of_nil|].
  intros (_ & Hne & x & _ & _ & Hch) [->|Hin]%elem_of_cons; [done|by eapply IH].
Qed.

Record pool (s : state) (free : list Z) : Prop := {
  pool_chain : free_chain (page_info (gc s)) (list_of_free_pages (gc s)) free;
  pool_nodup : NoDup free;
  pool_virgin pn : pn ∈ free → virgin_page (mem s) pn;
  pool_number : number_of_free_pages (gc s) = Z.of_nat (length free)
}.

Lemma pool_page s free pn : pool s free → pn ∈ free →
  0 ≤ pn < Z.of_nat (length (page_info (gc s))) ∧ ∃ x, zlookup (page_info (gc s)) pn = Some x ∧ pg_is_allocated x = false.
Proof.
  intros Hp Hin. destruct (free_chain_page _ _ _ _ (pool_chain _ _ Hp) Hin) as (x & Hx & Ha).
  split; [|eauto]. by apply zlookup_Some in Hx as [? _].
Qed.

(** What [allocate_page] leaves. *)
Definition page_allocated (pn : Z) (x : page_info_t) (g : gc_state) : gc_state :=
  set_number_of_free_pages (number_of_free_pages g - 1)
    (set_page_info (zinsert pn (with_allocated true x) (page_info g))
      (set_list_of_free_pages (pg_next_free_page x) g)).

Lemma wp_page_words s a n v (Q : unit → state → Prop) :
  (∀ i, (i < n)%nat → mem s !! (a + 4 * (1 + Z.of_nat i)) = Some v) → Q tt s →
  wp (for_ n (λ i _, w ← rd a (1 + Z.of_nat i); massert (bool_decide (w = v))) tt) Q s.
Proof.
  intros Hm HQ. apply wp_for with (I := λ _ _ s', s' = s); [done| |by intros [] ? ->].
  intros i [] s' Hi ->. apply wp_bind. eapply wp_load; [by apply Hm|]. apply wp_assert; [by apply bool_decide_eq_true|done].
Qed.

Lemma wp_allocate_page s pn free (Q : Z → state → Prop) :
  pool s (pn :: free) → is_recovering (gc s) = false →
  (∀ x, zlookup (page_info (gc s)) pn = Some x →
    pool (set_gc (page_allocated pn x (gc s)) s) free → Q pn (set_gc (page_allocated pn x (gc s)) s)) →
  wp allocate_page Q s.
Proof.
  intros Hp Hrec HQ. destruct (pool_chain _ _ Hp) as (Hl & Hinv & x & Hx & Ha & Hc).
  destruct (pool_virgin _ _ Hp pn ltac:(by left)) as [H0 Hw].
  apply wp_bind, wp_gcs. rewrite Hl, bool_decide_eq_false_2 by done.
  apply wp_bind. eapply wp_get_page; [exact Hx|]. apply wp_bind, wp_set_gcs.
  apply wp_bind. eapply wp_get_page; [exact Hx|]. rewrite Ha. apply wp_bind, wp_assert; [done|].
  apply wp_bind. eapply wp_load.
  { unfold PAGE_NUMBER_TO_PAGE_PTR. rewrite Z.mul_0_r, Z.add_0_r. exact H0. }
  apply wp_bind, wp_assert; [by apply bool_decide_eq_true|]. apply wp_bind, wp_page_words.
  { intros i Hi. apply Hw. change NUMBER_OF_WORDS_PER_PAGE with 16384 in *. lia. }
  apply wp_bind, wp_gcs. cbn [gc set_gc is_recovering set_list_of_free_pages]. rewrite Hrec. apply wp_bind, wp_assert; [done|].
  apply wp_bind. eapply wp_put_page; [exact Hx|]. apply wp_bind, wp_gcs. apply wp_bind, wp_set_gcs. apply wp_ret.
  apply (HQ x Hx). pose proof (pool_nodup _ _ Hp) as [Hni Hnd]%NoDup_cons.
  apply zlookup_Some in Hx as [Hr _]. split; simpl.
  - eapply free_chain_same, Hc. intros pn' Hin. apply zlookup_insert_ne; [lia|]. by intros ->.
  - done.
  - intros pn' Hin. apply (pool_virgin _ _ Hp). by right.
  - rewrite (pool_number _ _ Hp). simpl. lia.
Qed.
