(* ===== verification/Genlist.v ===== *)
(** The table of generations (shades.c, [allocate_generation]): its free entries. *)

From S2P Require Import Prelude Generations Machine Celltypes Shades Root Bitops Cells Pages.

(** * A new generation *)

Definition nonexistent (x : generation_info_t) : Prop := gi_status x = NONEXISTENT.
#[export] Instance nonexistent_dec x : Decision (nonexistent x).
Proof. unfold nonexistent. apply _. Defined.

(** The table of generations has free entries where the counter says so. *)
Record gens_ok (g : gc_state) : Prop := {
  go_length : 0 < Z.of_nat (length (generation_info g));
  go_next : 0 ≤ next_gn g < Z.of_nat (length (generation_info g));
  go_count : number_of_nonexistent_generations g = Z.of_nat (length (filter nonexistent (generation_info g)))
}.

Lemma filter_some {A} (P : A → Prop) `{∀ x, Decision (P x)} (l : list A) :
  filter P l ≠ [] → ∃ i x, l !! i = Some x ∧ P x.
Proof.
  induction l as [|y l IH]; [done|]. rewrite filter_cons. case_decide as Hy; [by exists 0%nat, y|].
  intros (i & x & Hi & Hx)%IH. by exists (S i), x.
Qed.

(** [generation_info_grow] by [k] entries. *)
Definition grown (k : nat) (g : gc_state) : gc_state :=
  set_generation_info (generation_info g ++ replicate k nonexistent_generation)
    (set_number_of_nonexistent_generations (number_of_nonexistent_generations g + Z.of_nat k) g).

Lemma grown_ok k g : gens_ok g → gens_ok (grown k g).
Proof.
  intros []. split; simpl; rewrite ?length_app; [lia..|]. rewrite filter_app, length_app, go_count0.
  rewrite Nat2Z.inj_add. f_equal. f_equal. induction k as [|k IH]; [done|].
  rewrite replicate_S, filter_cons_True by done. simpl. by rewrite <- IH.
Qed.

Lemma grown_0 g : grown 0 g = g.
Proof. unfold grown. rewrite app_nil_r, Z.add_0_r. by destruct g. Qed.

Lemma wp_find_nonexistent_generation fuel s (Q : unit → state → Prop) :
  gens_ok (gc s) → filter nonexistent (generation_info (gc s)) ≠ [] →
  (length (generation_info (gc s)) < fuel)%nat →
  (∀ gn x, zlookup (generation_info (gc s)) gn = Some x → nonexistent x → Q tt (set_gc (set_next_gn gn (gc s)) s)) →
  wp (find_nonexistent_generation fuel) Q s.
Proof.
  intros Hok (j & y & Hj & Hy)%filter_some Hfuel HQ. pose proof (lookup_lt_Some _ _ _ Hj) as Hjl.
  set (n := Z.of_nat (length (generation_info (gc s)))) in *.
  assert (Hs : s = set_gc (set_next_gn (next_gn (gc s)) (gc s)) s) by by destruct s as [? ? ? ? ? ? ? ? []].
  unfold find_nonexistent_generation.
  eapply wp_loop with (n := Z.to_nat ((Z.of_nat j - next_gn (gc s)) mod n)) (I := λ k _ s', ∃ gn, 0 ≤ gn < n ∧
    Z.of_nat k = (Z.of_nat j - gn) mod n ∧ s' = set_gc (set_next_gn gn (gc s)) s).
  - pose proof (Z.mod_pos_bound (Z.of_nat j - next_gn (gc s)) n). lia.
  - exists (next_gn (gc s)). pose proof (Z.mod_pos_bound (Z.of_nat j - next_gn (gc s)) n).
    split; [apply Hok|]. split; [lia|exact Hs].
  - intros k [] s' (gn & Hgn & Hk & ->). apply wp_bind, wp_gcs. simpl.
    destruct (zlookup_lt (generation_info (gc s)) gn Hgn) as [x Hx].
    apply wp_bind. eapply wp_get_gen; [exact Hx|]. case_bool_decide as Hst.
    + apply wp_bind, wp_gcs, wp_bind, wp_set_gcs, wp_ret. simpl. fold n.
      assert (Hne : gn ≠ Z.of_nat j).
      { intros ->. apply zlookup_Some in Hx as [_ Hx]. rewrite Nat2Z.id, Hj in Hx. injection Hx as <-. done. }
      pose proof (Z.mod_pos_bound (gn + 1) n ltac:(lia)). pose proof (Z.mod_pos_bound (Z.of_nat j - (gn + 1) mod n) n ltac:(lia)) as Hb.
      assert (Hdec : (Z.of_nat j - (gn + 1) mod n) mod n = (Z.of_nat j - gn) mod n - 1).
      { rewrite Zminus_mod_idemp_r. replace (Z.of_nat j - (gn + 1)) with (Z.of_nat j - gn - 1) by lia.
        destruct (Z.le_gt_cases gn (Z.of_nat j)).
        - rewrite !Z.mod_small by lia. done.
        - rewrite <- (Z_mod_plus_full (Z.of_nat j - gn - 1) 1), <- (Z_mod_plus_full (Z.of_nat j - gn) 1).
          rewrite !Z.mod_small by lia. lia. }
      exists (k - 1)%nat. pose proof (Z.mod_pos_bound (Z.of_nat j - gn) n ltac:(lia)). split; [lia|].
      exists ((gn + 1) mod n). split; [lia|]. split; [lia|done].
    + apply wp_ret. apply (HQ gn x Hx). unfold nonexistent. destruct (gi_status x); done || (exfalso; by apply Hst).
Qed.

Definition with_new_generation (k : nat) (gn : Z) (g : gc_state) : gc_state :=
  set_generation_info (zinsert gn new_generation (generation_info (grown k g)))
    (set_number_of_nonexistent_generations (number_of_nonexistent_generations (grown k g) - 1)
      (set_to_gn gn (set_next_gn gn (grown k g)))).

(** The table grew by [k] entries: not at all, or it was nearly full and doubled. *)
Definition doubled (k : nat) (g : gc_state) : Prop :=
  k = 0%nat ∨ number_of_nonexistent_generations g * 8 < Z.of_nat (length (generation_info g)) ∧ k = length (generation_info g).

Lemma wp_allocate_generation fuel s (Q : unit → state → Prop) :
  gens_ok (gc s) → (2 * length (generation_info (gc s)) < fuel)%nat →
  (∀ k gn x, doubled k (gc s) → zlookup (generation_info (grown k (gc s))) gn = Some x → nonexistent x →
    Q tt (set_gc (with_new_generation k gn (gc s)) s)) →
  wp (allocate_generation fuel) Q s.
Proof.
  intros Hok Hfuel HQ. unfold allocate_generation. apply wp_bind, wp_gcs, wp_bind, wp_gcs, wp_bind.
  assert (Hgo : ∀ k, doubled k (gc s) → filter nonexistent (generation_info (grown k (gc s))) ≠ [] →
    wp (find_nonexistent_generation fuel;; gn ← gcs next_gn; set_gcs (set_to_gn gn);;
      nn ← gcs number_of_nonexistent_generations; set_gcs (set_number_of_nonexistent_generations (nn - 1));;
      put_gen gn (λ _, new_generation)) Q (set_gc (grown k (gc s)) s)).
  { intros k Hd Hne. assert (Hk : (k ≤ length (generation_info (gc s)))%nat) by (destruct Hd; lia). apply wp_bind. eapply wp_find_nonexistent_generation; [by apply grown_ok|done| |].
    { simpl. rewrite length_app, length_replicate. lia. }
    intros gn x Hx Hnx. apply wp_bind, wp_gcs, wp_bind, wp_set_gcs, wp_bind, wp_gcs, wp_bind, wp_set_gcs.
    eapply wp_put_gen; [exact Hx|]. by eapply HQ. }
  pose proof (go_count _ Hok) as Hcount. pose proof (go_length _ Hok) as Hlen. case_bool_decide as Hfew.
  - unfold generation_info_grow. apply wp_bind, wp_gcs. rewrite bool_decide_eq_false_2 by lia.
    apply wp_bind, wp_gcs, wp_bind, wp_set_gcs, wp_set_gcs.
    set (k := Z.to_nat _). apply (Hgo k); [right; split; [done|subst k; lia]|]. simpl. rewrite filter_app. intros [_ H]%app_eq_nil.
    apply (f_equal length) in H. subst k. destruct (Z.to_nat (2 * _ - _)) as [|k] eqn:Ek; [lia|]. by rewrite replicate_S, filter_cons_True in H.
  - apply wp_ret. specialize (Hgo 0%nat ltac:(by left)). rewrite grown_0 in Hgo.
    assert (Es : set_gc (gc s) s = s) by by destruct s. rewrite Es in Hgo. apply Hgo.
    intros E. rewrite E in Hcount. simpl in Hcount. lia.
Qed.
