(* ===== verification/Smartptr.v ===== *)
(** Smart pointers (smartptr.h, smartptr.c): the ring of pointers from C into the
    database, which the collector redirects.

    A [smart_ptr_t] is known by its address; [first_smart_ptr] is at 0. *)

From S2P Require Import Prelude Generations Machine Celltypes Shades Pages.

Definition with_sp_ptr v x := SmartPtr v (sp_next x) (sp_prev x).
Definition with_sp_next v x := SmartPtr (sp_ptr x) v (sp_prev x).
Definition with_sp_prev v x := SmartPtr (sp_ptr x) (sp_next x) v.

Definition get_smart (sp : Z) : M smart_ptr_t := t ← gcs smart_ptrs; of_option (t !! sp).
Definition put_smart (sp : Z) (f : smart_ptr_t → smart_ptr_t) : M unit :=
  t ← gcs smart_ptrs; x ← of_option (t !! sp); set_gcs (set_smart_ptrs (<[sp := f x]> t)).

(** The address of [first_smart_ptr]. *)
Definition first_smart_ptr : Z := 0.
#[global] Arguments first_smart_ptr : simpl never.

Definition smart_ptr_init (ptr value : Z) : M unit :=
  put_smart ptr (with_sp_ptr value);;
  first ← get_smart first_smart_ptr;
  put_smart ptr (with_sp_next (sp_next first));;
  x ← get_smart ptr;
  put_smart (sp_next x) (with_sp_prev ptr);;
  put_smart ptr (with_sp_prev first_smart_ptr);;
  put_smart first_smart_ptr (with_sp_next ptr).

Definition smart_ptr_uninit (ptr : Z) : M unit :=
  x ← get_smart ptr;
  let next := sp_next x in
  let prev := sp_prev x in
  put_smart next (with_sp_prev prev);;
  put_smart prev (with_sp_next next).

Definition smart_ptr_assign (ptr value : Z) : M unit := put_smart ptr (with_sp_ptr value).

Definition smart_ptr_ref (ptr : Z) : M Z := x ← get_smart ptr; mret (sp_ptr x).

(** * The rules, by fields *)

Definition set_ring (t : gmap Z smart_ptr_t) (s : state) : state := set_gc (set_smart_ptrs t (gc s)) s.

Definition next_of (m : gmap Z smart_ptr_t) (a : Z) : option Z := sp_next <$> m !! a.
Definition prev_of (m : gmap Z smart_ptr_t) (a : Z) : option Z := sp_prev <$> m !! a.
Definition ptr_of (m : gmap Z smart_ptr_t) (a : Z) : option Z := sp_ptr <$> m !! a.

(** [f] with the value [v] at [k]. *)
Definition at_set (k v : Z) (f : Z → option Z) : Z → option Z := λ a, if bool_decide (a = k) then Some v else f a.

Lemma at_set_eq k v f : at_set k v f k = Some v.
Proof. unfold at_set. by rewrite bool_decide_eq_true_2. Qed.

Lemma at_set_ne k v f a : a ≠ k → at_set k v f a = f a.
Proof. intros H. unfold at_set. by rewrite bool_decide_eq_false_2. Qed.

Section fields.
Context (s : state) (k v : Z) (Q : unit → state → Prop).
Let m := smart_ptrs (gc s).

Lemma wp_get_smart sp x (Q' : smart_ptr_t → state → Prop) : m !! sp = Some x → Q' x s → wp (get_smart sp) Q' s.
Proof. intros Hx HQ. apply wp_bind, wp_gcs. by eapply wp_of_option. Qed.

Lemma wp_put_smart f x : m !! k = Some x → Q tt (set_ring (<[k := f x]> m) s) → wp (put_smart k f) Q s.
Proof. intros Hx HQ. apply wp_bind, wp_gcs. apply wp_bind. by eapply wp_of_option. Qed.

Lemma field_insert {A} (g : smart_ptr_t → A) x c :
  g <$> <[k := x]> m !! c = if bool_decide (c = k) then Some (g x) else g <$> m !! c.
Proof. case_bool_decide as E; [by rewrite E, lookup_insert_eq|by rewrite lookup_insert_ne]. Qed.

Lemma field_same {A} (g : smart_ptr_t → A) x y c : m !! k = Some x → g y = g x → g <$> <[k := y]> m !! c = g <$> m !! c.
Proof. intros Hx E. rewrite field_insert. case_bool_decide as Ec; [by rewrite Ec, Hx, E|done]. Qed.

Lemma wp_put_next : is_Some (m !! k) →
  (∀ m', (∀ c, next_of m' c = at_set k v (next_of m) c) → (∀ c, prev_of m' c = prev_of m c) →
    (∀ c, ptr_of m' c = ptr_of m c) → Q tt (set_ring m' s)) → wp (put_smart k (with_sp_next v)) Q s.
Proof.
  intros [x Hx] HQ. eapply wp_put_smart; [exact Hx|]. apply HQ; intros c.
  - apply field_insert.
  - by eapply field_same.
  - by eapply field_same.
Qed.

Lemma wp_put_prev : is_Some (m !! k) →
  (∀ m', (∀ c, next_of m' c = next_of m c) → (∀ c, prev_of m' c = at_set k v (prev_of m) c) →
    (∀ c, ptr_of m' c = ptr_of m c) → Q tt (set_ring m' s)) → wp (put_smart k (with_sp_prev v)) Q s.
Proof.
  intros [x Hx] HQ. eapply wp_put_smart; [exact Hx|]. apply HQ; intros c.
  - by eapply field_same.
  - apply field_insert.
  - by eapply field_same.
Qed.

Lemma wp_put_ptr : is_Some (m !! k) →
  (∀ m', (∀ c, next_of m' c = next_of m c) → (∀ c, prev_of m' c = prev_of m c) →
    (∀ c, ptr_of m' c = at_set k v (ptr_of m) c) → Q tt (set_ring m' s)) → wp (put_smart k (with_sp_ptr v)) Q s.
Proof.
  intros [x Hx] HQ. eapply wp_put_smart; [exact Hx|]. apply HQ; intros c.
  - by eapply field_same.
  - by eapply field_same.
  - apply field_insert.
Qed.
End fields.

Lemma next_some m a b : next_of m a = Some b → ∃ x, m !! a = Some x ∧ sp_next x = b.
Proof. unfold next_of. destruct (m !! a) as [x|]; [|done]. intros [= <-]. eauto. Qed.

Lemma same_some {A} (m m' : gmap Z smart_ptr_t) (g : smart_ptr_t → A) a :
  g <$> m' !! a = g <$> m !! a → is_Some (m !! a) → is_Some (m' !! a).
Proof. intros E [x Hx]. rewrite Hx in E. destruct (m' !! a); [eauto|done]. Qed.

(** * The ring *)

Section segments.
Implicit Types (m : gmap Z smart_ptr_t) (a b p : Z) (l : list Z).

(** [b] follows [a]. *)
Definition linked m a b : Prop := next_of m a = Some b ∧ prev_of m b = Some a.

(** From [a] the links lead through [l] to [b]. *)
Fixpoint segment m a l b : Prop :=
  match l with
  | [] => linked m a b
  | x :: l => linked m a x ∧ segment m x l b
  end.

Lemma segment_app m a l1 x l2 b : segment m a (l1 ++ x :: l2) b ↔ segment m a l1 x ∧ segment m x l2 b.
Proof. revert a. induction l1 as [|y l1 IH]; intros a; simpl; [done|]. by rewrite IH, (assoc (∧)). Qed.

(** A segment depends on the links inside it only. *)
Lemma segment_frame m m' a l b :
  (∀ x, x ∈ a :: l → next_of m' x = next_of m x) →
  (∀ x, x ∈ l ++ [b] → prev_of m' x = prev_of m x) → segment m a l b → segment m' a l b.
Proof.
  revert a. induction l as [|y l IH]; intros a Hn Hp; simpl; unfold linked.
  - rewrite (Hn a) by by left. by rewrite (Hp b) by by left.
  - rewrite (Hn a) by by left. rewrite (Hp y) by by left. intros [H1 H2]. split; [done|]. apply IH; [| |done].
    + intros x Hx. apply Hn. by right.
    + intros x Hx. apply Hp. by right.
Qed.

Lemma segment_next m a l b : segment m a l b → ∃ x, next_of m a = Some x ∧ head (l ++ [b]) = Some x.
Proof. destruct l as [|x l]; simpl; unfold linked; [intros [? _]|intros [[? _] _]]; eauto. Qed.

(** The last link of a segment. *)
Lemma segment_prev m a l b : segment m a l b → ∃ x, prev_of m b = Some x ∧ last (a :: l) = Some x.
Proof.
  revert a. induction l as [|y l IH]; intros a; simpl.
  - intros [_ H]. by exists a.
  - intros [_ (x & Hx & E)%IH]. by exists x.
Qed.

(** The last link is redirected. *)
Lemma segment_redirect m m' a l p b x : segment m a l p → NoDup (a :: l) → last (a :: l) = Some x →
  next_of m' x = Some b → prev_of m' b = Some x →
  (∀ c, c ∈ a :: l → c ≠ x → next_of m' c = next_of m c) →
  (∀ c, c ∈ l → prev_of m' c = prev_of m c) → segment m' a l b.
Proof.
  revert a. induction l as [|y l IH]; intros a; simpl.
  - intros _ _ [= ->] ? ? _ _. done.
  - intros [[Hn Hy] Hseg] [Hni Hnd]%NoDup_cons Hlast H1 H2 Hnext Hprev. split.
    + split; [|by rewrite Hprev by by left]. rewrite Hnext; [done|by left|]. intros ->.
      apply Hni. by apply last_Some_elem_of.
    + apply IH; [done|done|done|done|done| |].
      * intros c Hc. apply Hnext. by right.
      * intros c Hc. apply Hprev. by right.
Qed.
End segments.

(** The ring consists of the smart pointers [l] with their values, the youngest
    first. *)
Record ring (m : gmap Z smart_ptr_t) (l : list (Z * Z)) : Prop := {
  ring_links : segment m first_smart_ptr l.*1 first_smart_ptr;
  ring_nodup : NoDup (first_smart_ptr :: l.*1);
  ring_values sp v : (sp, v) ∈ l → ptr_of m sp = Some v
}.

Lemma ring_init m m' l p v b : ring m l → p ≠ first_smart_ptr → p ∉ l.*1 →
  next_of m first_smart_ptr = Some b →
  (∀ c, next_of m' c = at_set first_smart_ptr p (at_set p b (next_of m)) c) →
  (∀ c, prev_of m' c = at_set p first_smart_ptr (at_set b p (prev_of m)) c) →
  (∀ c, ptr_of m' c = at_set p v (ptr_of m) c) → ring m' ((p, v) :: l).
Proof.
  intros [Hl Hnd Hv] Hp Hpl Hb Hn' Hp' Hv'. apply NoDup_cons in Hnd as [H0 Hnd].
  destruct (segment_next _ _ _ _ Hl) as (b' & Hb' & Hhead). rewrite Hb in Hb'. injection Hb' as <-.
  assert (Hbp : b ≠ p).
  { intros ->. destruct l as [|[c w] l]; simpl in *; injection Hhead as E; [done|]. apply Hpl. rewrite E. by left. }
  split; simpl.
  - split; [split; [by rewrite Hn', at_set_eq|by rewrite Hp', at_set_eq]|].
    assert (Hpb : linked m' p b).
    { split; [by rewrite Hn', at_set_ne, at_set_eq|by rewrite Hp', at_set_ne, at_set_eq]. }
    destruct l as [|[c w] l]; simpl in *; injection Hhead as <-; [done|]. split; [done|].
    destruct Hl as [_ Hl]. apply NoDup_cons in Hnd as [Hc Hnd]. eapply segment_frame, Hl; intros z Hz.
    + rewrite Hn', !at_set_ne; [done|by intros ->..].
    + rewrite Hp', !at_set_ne; [done|..]; intros ->; apply elem_of_app in Hz as [Hz|Hz%list_elem_of_singleton];
        first [done|apply Hpl; by right|apply H0; rewrite <- Hz; by left].
  - apply NoDup_cons. split; [by intros [|]%elem_of_cons|]. by apply NoDup_cons.
  - intros sp w [[= -> ->]|Hin]%elem_of_cons; rewrite Hv'; [by rewrite at_set_eq|].
    rewrite at_set_ne; [by apply Hv|]. intros ->. apply Hpl, list_elem_of_fmap. by exists (p, w).
Qed.

Lemma ring_uninit m m' l1 p v l2 a b : ring m (l1 ++ (p, v) :: l2) →
  prev_of m p = Some a → next_of m p = Some b →
  (∀ c, next_of m' c = at_set a b (next_of m) c) → (∀ c, prev_of m' c = at_set b a (prev_of m) c) →
  (∀ c, ptr_of m' c = ptr_of m c) → ring m' (l1 ++ l2).
Proof.
  intros [Hl Hnd Hv] Ha Hb Hn' Hp' Hv'. rewrite fmap_app, fmap_cons in Hl, Hnd. cbn [fst] in Hl, Hnd.
  apply segment_app in Hl as [Hl1 Hl2].
  destruct (segment_prev _ _ _ _ Hl1) as (a' & Ha' & Hlast). rewrite Ha in Ha'. injection Ha' as <-.
  destruct (segment_next _ _ _ _ Hl2) as (b' & Hb' & Hhead). rewrite Hb in Hb'. injection Hb' as <-.
  rewrite app_comm_cons in Hnd.
  apply NoDup_app in Hnd as (Hnd1 & Hd & Hnd2). apply NoDup_cons in Hnd2 as [Hp2 Hnd2].
  assert (Hseg : segment m' first_smart_ptr l1.*1 b).
  { eapply segment_redirect; [exact Hl1|exact Hnd1|exact Hlast|by rewrite Hn', at_set_eq|by rewrite Hp', at_set_eq| |].
    - intros c _ Hc. by rewrite Hn', at_set_ne.
    - intros c Hc. rewrite Hp', at_set_ne; [done|]. intros ->. destruct l2 as [|[d w] l2]; simpl in Hhead; injection Hhead as <-.
      + apply NoDup_cons in Hnd1 as [H0 _]. done.
      + apply (Hd d); [by right|right; by left]. }
  split.
  - rewrite fmap_app. destruct l2 as [|[d w] l2]; simpl in *; injection Hhead as <-; [by rewrite app_nil_r|].
    apply segment_app. split; [done|]. destruct Hl2 as [_ Hl2]. apply NoDup_cons in Hnd2 as [Hd2 Hnd2].
    apply last_Some_elem_of in Hlast. eapply segment_frame, Hl2; intros c Hc.
    + rewrite Hn', at_set_ne; [done|]. intros ->. apply (Hd a); [done|by right].
    + rewrite Hp', at_set_ne; [done|]. intros ->. apply elem_of_app in Hc as [Hc|Hc%list_elem_of_singleton]; [done|].
      apply (Hd d); [rewrite Hc; by left|right; by left].
  - rewrite fmap_app, app_comm_cons. apply NoDup_app. split; [done|]. split; [|done].
    intros c H1 H2. apply (Hd c H1). by right.
  - intros sp w Hin. rewrite Hv'. apply Hv. rewrite elem_of_app, elem_of_cons. apply elem_of_app in Hin. tauto.
Qed.

(** * The operations *)

(** What the operations do to the list of initialised smart pointers; [None] is
    what smartptr.h calls fatal. *)
Inductive sp_op :=
| Init (p v : Z)
| Uninit (p : Z)
| Assign (p v : Z)
| Ref (p : Z).

Definition sp_address (o : sp_op) : Z := match o with Init p _ | Uninit p | Assign p _ | Ref p => p end.

Definition run_op (o : sp_op) : M (list Z) :=
  match o with
  | Init p v => smart_ptr_init p v;; mret []
  | Uninit p => smart_ptr_uninit p;; mret []
  | Assign p v => smart_ptr_assign p v;; mret []
  | Ref p => x ← smart_ptr_ref p; mret [x]
  end.

Fixpoint assign_value (p v : Z) (l : list (Z * Z)) : list (Z * Z) :=
  match l with
  | [] => []
  | (q, w) :: l => (if bool_decide (q = p) then (q, v) else (q, w)) :: assign_value p v l
  end.

Fixpoint value_of (p : Z) (l : list (Z * Z)) : option Z :=
  match l with
  | [] => None
  | (q, w) :: l => if bool_decide (q = p) then Some w else value_of p l
  end.

Definition spec_op (o : sp_op) (l : list (Z * Z)) : option (list (Z * Z) * list Z) :=
  match o with
  | Init p v => if bool_decide (p = first_smart_ptr ∨ p ∈ l.*1) then None else Some ((p, v) :: l, [])
  | Uninit p => _ ← value_of p l; Some (filter (λ e, e.1 ≠ p) l, [])
  | Assign p v => _ ← value_of p l; Some (assign_value p v l, [])
  | Ref p => x ← value_of p l; Some (l, [x])
  end.

Fixpoint run_ops (os : list sp_op) : M (list Z) :=
  match os with
  | [] => mret []
  | o :: os => r ← run_op o; rs ← run_ops os; mret (r ++ rs)
  end.

Fixpoint spec_ops (os : list sp_op) (l : list (Z * Z)) : option (list (Z * Z) * list Z) :=
  match os with
  | [] => Some (l, [])
  | o :: os => '(l, r) ← spec_op o l; '(l, rs) ← spec_ops os l; Some (l, r ++ rs)
  end.

Lemma value_of_Some p v l : value_of p l = Some v → (p, v) ∈ l.
Proof.
  induction l as [|[q w] l IH]; simpl; [done|]. case_bool_decide as E; [|by right; apply IH].
  intros [= ->]. rewrite E. by left.
Qed.

Lemma assign_keys p v l : (assign_value p v l).*1 = l.*1.
Proof. induction l as [|[q w] l IH]; simpl; [done|]. case_bool_decide; simpl; f_equal; exact IH. Qed.

Lemma assign_In p v l q w : (q, w) ∈ assign_value p v l → (q = p ∧ w = v) ∨ q ≠ p ∧ (q, w) ∈ l.
Proof.
  induction l as [|[a b] l IH]; simpl; [by intros ?%not_elem_of_nil|]. intros [E|Hin]%elem_of_cons.
  - case_bool_decide; injection E as -> ->; [by left|right; split; [done|by left]].
  - destruct (IH Hin) as [?|[? ?]]; [by left|right; split; [done|by right]].
Qed.

(** The ring holds [l]; [dom] are the addresses of all smart pointers. *)
Record smart (dom : gset Z) (s : state) (l : list (Z * Z)) : Prop := {
  sm_ring : ring (smart_ptrs (gc s)) l;
  sm_dom p : p ∈ dom → is_Some (smart_ptrs (gc s) !! p)
}.

Lemma ring_next m l : ring m l → ∃ b, next_of m first_smart_ptr = Some b ∧ is_Some (m !! b).
Proof.
  intros [Hl _ _]. destruct (segment_next _ _ _ _ Hl) as (b & Hb & Hh). exists b. split; [done|].
  assert (Hp : ∃ a, prev_of m b = Some a) by (destruct l as [|[c w] l]; simpl in *; injection Hh as <-; eexists; apply Hl).
  destruct Hp as [a Ha]. unfold prev_of in Ha. destruct (m !! b); [eauto|done].
Qed.

Lemma ring_inner m l p v : ring m l → (p, v) ∈ l → ∃ l1 l2 a b, l = l1 ++ (p, v) :: l2 ∧
  prev_of m p = Some a ∧ next_of m p = Some b ∧ is_Some (m !! a) ∧ is_Some (m !! b).
Proof.
  intros Hr Hin. apply list_elem_of_split in Hin as (l1 & l2 & ->). pose proof (ring_links _ _ Hr) as Hl.
  rewrite fmap_app, fmap_cons in Hl. apply segment_app in Hl as [H1 H2]. cbn [fst] in *.
  assert (Ha : ∃ a, prev_of m p = Some a ∧ is_Some (m !! a)).
  { destruct l1 as [|[a w] l1 _] using rev_ind; simpl in H1.
    - exists first_smart_ptr. destruct H1 as [Hn Hp]. split; [done|]. unfold next_of in Hn. destruct (m !! _); [eauto|done].
    - rewrite fmap_app in H1. apply segment_app in H1 as [_ [Hn Hp]]. exists a. split; [done|].
      unfold next_of in Hn. destruct (m !! _); [eauto|done]. }
  assert (Hb : ∃ b, next_of m p = Some b ∧ is_Some (m !! b)).
  { destruct l2 as [|[b w] l2]; simpl in H2.
    - exists first_smart_ptr. destruct H2 as [Hn Hp]. split; [done|]. unfold prev_of in Hp. destruct (m !! _); [eauto|done].
    - destruct H2 as [[Hn Hp] _]. exists b. split; [done|]. unfold prev_of in Hp. destruct (m !! _); [eauto|done]. }
  destruct Ha as (a & Ha & ?), Hb as (b & Hb & ?). by exists l1, l2, a, b.
Qed.

Lemma fields_some (m m' : gmap Z smart_ptr_t) : (∀ c, ptr_of m' c = ptr_of m c) → ∀ c, is_Some (m !! c) → is_Some (m' !! c).
Proof. intros H c. apply (same_some m m' sp_ptr), H. Qed.

Lemma next_some_of (m m' : gmap Z smart_ptr_t) : (∀ c, next_of m' c = next_of m c) → ∀ c, is_Some (m !! c) → is_Some (m' !! c).
Proof. intros H c. apply (same_some m m' sp_next), H. Qed.

Lemma wp_smart_ptr_init dom s l p v (Q : unit → state → Prop) :
  smart dom s l → p ∈ dom → p ≠ first_smart_ptr → p ∉ l.*1 →
  (∀ m', smart dom (set_ring m' s) ((p, v) :: l) → Q tt (set_ring m' s)) → wp (smart_ptr_init p v) Q s.
Proof.
  intros [Hr Hdom] Hpd Hp Hpl HQ. destruct (ring_next _ _ Hr) as (b & Hb & Hbs).
  pose proof (Hdom _ Hpd) as Hps. destruct (next_some _ _ _ Hb) as (x0 & Hx0 & Eb).
  apply wp_bind, wp_put_ptr; [done|]. intros m1 N1 P1 V1. pose proof (next_some_of _ _ N1) as S1.
  apply wp_bind. rewrite <- N1 in Hb. destruct (next_some _ _ _ Hb) as (x1 & Hx1 & Eb1).
  eapply wp_get_smart; [exact Hx1|]. rewrite Eb1.
  apply wp_bind, wp_put_next; [by apply S1|]. intros m2 N2 P2 V2. pose proof (fields_some _ _ V2) as S2.
  apply wp_bind. assert (Hbp : next_of m2 p = Some b) by (rewrite N2; apply at_set_eq).
  destruct (next_some _ _ _ Hbp) as (x2 & Hx2 & Eb2). eapply wp_get_smart; [exact Hx2|]. rewrite Eb2.
  apply wp_bind, wp_put_prev; [by apply S2, S1|]. intros m3 N3 P3 V3. pose proof (fields_some _ _ V3) as S3.
  apply wp_bind, wp_put_prev; [by apply S3, S2, S1|]. intros m4 N4 P4 V4. pose proof (fields_some _ _ V4) as S4.
  apply wp_put_next; [by apply S4, S3, S2; eauto|]. intros m5 N5 P5 V5. pose proof (fields_some _ _ V5) as S5.
  cbn [set_ring smart_ptrs set_smart_ptrs gc set_gc] in *. apply (HQ m5). split.
  - cbn [set_ring smart_ptrs set_smart_ptrs gc set_gc]. eapply ring_init; [exact Hr|done|done|by rewrite N1 in Hb| | |].
    + intros c. rewrite N5. unfold at_set. rewrite N4, N3, N2. unfold at_set. by rewrite N1.
    + intros c. rewrite P5, P4. unfold at_set. rewrite P3. unfold at_set. by rewrite P2, P1.
    + intros c. by rewrite V5, V4, V3, V2, V1.
  - intros q Hq. simpl. by apply S5, S4, S3, S2, S1, Hdom.
Qed.

Lemma filter_keys (l : list (Z * Z)) p : p ∉ l.*1 → filter (λ e, e.1 ≠ p) l = l.
Proof.
  induction l as [|[q w] l IH]; intros Hp; [done|]. rewrite filter_cons_True; [by rewrite IH by (intros H; apply Hp; by right)|].
  simpl. intros ->. apply Hp. by left.
Qed.

Lemma filter_out (l1 : list (Z * Z)) p v l2 : NoDup (l1 ++ (p, v) :: l2).*1 → filter (λ e, e.1 ≠ p) (l1 ++ (p, v) :: l2) = l1 ++ l2.
Proof.
  rewrite fmap_app, fmap_cons. intros (_ & Hd & [H2 _]%NoDup_cons)%NoDup_app.
  rewrite filter_app, filter_cons_False by (intros H; by apply H). rewrite !filter_keys; [done|done|].
  intros H. apply (Hd p H). by left.
Qed.

Lemma wp_smart_ptr_uninit dom s l p v (Q : unit → state → Prop) :
  smart dom s l → (p, v) ∈ l →
  (∀ m', smart dom (set_ring m' s) (filter (λ e, e.1 ≠ p) l) → Q tt (set_ring m' s)) → wp (smart_ptr_uninit p) Q s.
Proof.
  intros [Hr Hdom] Hin HQ. destruct (ring_inner _ _ _ _ Hr Hin) as (l1 & l2 & a & b & -> & Ha & Hb & Has & Hbs).
  destruct (next_some _ _ _ Hb) as (x & Hx & Eb). assert (Ea : sp_prev x = a).
  { unfold prev_of in Ha. rewrite Hx in Ha. by injection Ha. }
  apply wp_bind. eapply wp_get_smart; [exact Hx|]. rewrite Eb, Ea.
  apply wp_bind, wp_put_prev; [done|]. intros m1 N1 P1 V1. pose proof (fields_some _ _ V1) as S1.
  apply wp_put_next; [by apply S1|]. intros m2 N2 P2 V2. pose proof (fields_some _ _ V2) as S2.
  cbn [set_ring smart_ptrs set_smart_ptrs gc set_gc] in *. apply (HQ m2). split.
  - rewrite filter_out; [|by pose proof (ring_nodup _ _ Hr) as [_ ?]%NoDup_cons].
    cbn [set_ring smart_ptrs set_smart_ptrs gc set_gc]. eapply ring_uninit; [exact Hr|exact Ha|exact Hb| | |].
    + intros c. rewrite N2. unfold at_set. by rewrite N1.
    + intros c. by rewrite P2, P1.
    + intros c. by rewrite V2, V1.
  - intros q Hq. simpl. by apply S2, S1, Hdom.
Qed.

Lemma wp_smart_ptr_assign dom s l p v v0 (Q : unit → state → Prop) :
  smart dom s l → (p, v0) ∈ l →
  (∀ m', smart dom (set_ring m' s) (assign_value p v l) → Q tt (set_ring m' s)) → wp (smart_ptr_assign p v) Q s.
Proof.
  intros [Hr Hdom] Hin HQ. pose proof (ring_values _ _ Hr _ _ Hin) as Hv. unfold ptr_of in Hv.
  apply wp_put_ptr; [destruct (_ !! p); [eauto|done]|]. intros m1 N1 P1 V1. pose proof (next_some_of _ _ N1) as S1.
  apply (HQ m1). split.
  - destruct Hr as [Hl Hnd Hvs]. split; simpl; rewrite ?assign_keys; [|done|].
    + eapply segment_frame, Hl; intros c _; [apply N1|apply P1].
    + intros q w [[-> ->]|[Hq Hqw]]%assign_In; rewrite V1; [apply at_set_eq|]. rewrite at_set_ne by done. by apply Hvs.
  - intros q Hq. simpl. by apply S1, Hdom.
Qed.

Lemma wp_smart_ptr_ref dom s l p v (Q : Z → state → Prop) :
  smart dom s l → (p, v) ∈ l → Q v s → wp (smart_ptr_ref p) Q s.
Proof.
  intros [Hr _] Hin HQ. pose proof (ring_values _ _ Hr _ _ Hin) as Hv. unfold ptr_of in Hv.
  destruct (smart_ptrs (gc s) !! p) as [x|] eqn:Hx; [|done]. injection Hv as <-.
  apply wp_bind. eapply wp_get_smart; [exact Hx|]. by apply wp_ret.
Qed.

Lemma wp_run_sp_op dom s l o l' r (Q : list Z → state → Prop) :
  smart dom s l → sp_address o ∈ dom → spec_op o l = Some (l', r) →
  (∀ m', smart dom (set_ring m' s) l' → Q r (set_ring m' s)) → wp (run_op o) Q s.
Proof.
  intros Hs Hd Ho HQ. destruct o as [p v|p|p v|p]; simpl in *.
  - case_bool_decide as Hp; [done|]. injection Ho as <- <-.
    apply wp_bind. eapply wp_smart_ptr_init; [exact Hs|done|tauto..|]. intros m' Hs'. by apply wp_ret, HQ.
  - destruct (value_of p l) as [v|] eqn:Hv; [|done]. injection Ho as <- <-. apply value_of_Some in Hv.
    apply wp_bind. eapply wp_smart_ptr_uninit; [exact Hs|done|]. intros m' Hs'. by apply wp_ret, HQ.
  - destruct (value_of p l) as [w|] eqn:Hv; [|done]. injection Ho as <- <-. apply value_of_Some in Hv.
    apply wp_bind. eapply wp_smart_ptr_assign; [exact Hs|done|]. intros m' Hs'. by apply wp_ret, HQ.
  - destruct (value_of p l) as [w|] eqn:Hv; [|done]. injection Ho as <- <-. apply value_of_Some in Hv.
    apply wp_bind. eapply wp_smart_ptr_ref; [exact Hs|done|]. apply wp_ret.
    assert (E : s = set_ring (smart_ptrs (gc s)) s) by (by destruct s as [? ? ? ? ? ? ? ? []]).
    rewrite E. apply HQ. by rewrite <- E.
Qed.

Lemma set_ring_twice m m' s : set_ring m' (set_ring m s) = set_ring m' s.
Proof. done. Qed.

Lemma wp_run_ops os : ∀ dom s l l' rs (Q : list Z → state → Prop),
  smart dom s l → Forall (λ o, sp_address o ∈ dom) os → spec_ops os l = Some (l', rs) →
  (∀ m', smart dom (set_ring m' s) l' → Q rs (set_ring m' s)) → wp (run_ops os) Q s.
Proof.
  induction os as [|o os IH]; intros dom s l l' rs Q Hs Hd Ho HQ; simpl in *.
  - injection Ho as <- <-. apply wp_ret.
    assert (E : s = set_ring (smart_ptrs (gc s)) s) by (by destruct s as [? ? ? ? ? ? ? ? []]).
    rewrite E. apply HQ. by rewrite <- E.
  - apply Forall_cons in Hd as [Hd Hds]. destruct (spec_op o l) as [[l1 r]|] eqn:E1; [|done]. simpl in Ho.
    destruct (spec_ops os l1) as [[l2 rs']|] eqn:E2; [|done]. simpl in Ho. injection Ho as -> <-.
    apply wp_bind. eapply wp_run_sp_op; [exact Hs|exact Hd|exact E1|]. intros m1 Hs1. apply wp_bind.
    eapply IH; [exact Hs1|exact Hds|exact E2|]. intros m2 Hs2. apply wp_ret, HQ. by rewrite set_ring_twice in Hs2.
Qed.

(** * Property *)

(** C6. A program that initialises, assigns, reads and uninitialises smart
    pointers as smartptr.h allows returns, reads the values it assigned last, and
    leaves in the ring exactly the pointers that are initialised, with their
    values, the last initialised first; nothing but the ring changes. *)
Theorem smart_ptr_client_refines dom s l os l' rs :
  smart dom s l → Forall (λ o, sp_address o ∈ dom) os → spec_ops os l = Some (l', rs) →
  ∃ m', run_ops os s = Ok rs (set_ring m' s) ∧ smart dom (set_ring m' s) l'.
Proof.
  intros Hs Hd Ho.
  assert (H : wp (run_ops os) (λ r s', r = rs ∧ ∃ m', s' = set_ring m' s ∧ smart dom (set_ring m' s) l') s).
  { eapply wp_run_ops; [exact Hs|exact Hd|exact Ho|]. eauto. }
  apply wp_inv in H as (r & s' & E & -> & m' & -> & Hs'). by exists m'.
Qed.

(** Three smart pointers, none of them initialised. *)
Definition three_smart_ptrs : gmap Z smart_ptr_t :=
  <[100 := SmartPtr 7 7 7]> (<[200 := SmartPtr 7 7 7]> (<[300 := SmartPtr 7 7 7]> {[first_smart_ptr := SmartPtr 0 0 0]})).

Lemma smart_ptr_client_refines_witness :
  let s := set_ring three_smart_ptrs (init_state 4 100 []) in
  let os := [Init 100 404; Init 200 408; Init 300 412; Assign 200 416; Uninit 100; Ref 200; Uninit 300; Ref 200] in
  ∃ m', run_ops os s = Ok [416; 416] (set_ring m' s) ∧ smart {[100; 200; 300]} (set_ring m' s) [(200, 416)].
Proof.
  apply (smart_ptr_client_refines {[100; 200; 300]} _ []).
  - split; [split|]; simpl.
    + by split.
    + apply NoDup_singleton.
    + by intros sp v ?%not_elem_of_nil.
    + intros p Hp. rewrite !elem_of_union, !elem_of_singleton in Hp. destruct Hp as [[-> | ->]| ->]; vm_compute; eauto.
  - eapply bool_decide_unpack. by vm_compute.
  - by vm_compute.
Defined.
