(* ===== verification/Io.v ===== *)
(** Pages on disk (io.c), for files that are written synchronously and the root
    block behind the last page of the first file ([ASYNC_IO] and
    [OPTIMIZED_ROOT_LOCATION] undefined).

    A file has a size and words at offsets; what was never written below its size
    reads as 0.  [open], [lseek] and [write] succeed; [read] fails behind the end of the
    file, and on every file that [io_create_file] has opened, which is for writing only.
    Closing files, their permissions and the reading of the parameters in [io_init] are
    left out, and so are messages. *)

From S2P Require Import Prelude Generations Machine Celltypes Shades Root Bitops Cells Pages.

(** * Disk page numbers *)

Definition WRITE_BOUNDARY : Z := DISK_BLOCK_SIZE.
Definition PAGE_INDEX_BITS : Z := 27.
Definition FILE_INDEX_MASK : Z := shl32 0xFFFFFFFF PAGE_INDEX_BITS.
Definition PAGE_INDEX_MASK : Z := Z.lxor FILE_INDEX_MASK 0xFFFFFFFF.
Definition GET_PAGE_NUMBER (x : Z) : Z := Z.land x PAGE_INDEX_MASK.
Definition GET_FILE_NUMBER (x : Z) : Z := shr32 x PAGE_INDEX_BITS.
Definition MAKE_DISK_PAGE_NUMBER (file_number page_number : Z) : Z :=
  Z.lor (shl32 file_number PAGE_INDEX_BITS) page_number.

Definition FIXED_ROOT_DISK : Z := 0.

(** * Files *)

Definition ios {A} (f : io_state → A) : M A := gcs (λ g, f (io g)).
Definition set_ios (f : io_state → io_state) : M unit := set_gcs (λ g, set_io (f (io g)) g).

Definition with_file t x := IoState t (file_cursor x) (number_of_free_disk_pages x).
Definition with_file_cursor c x := IoState (file x) c (number_of_free_disk_pages x).
Definition with_free_disk_pages n x := IoState (file x) (file_cursor x) n.

Definition get_file (i : Z) : M file_t := t ← ios file; of_option (zlookup t i).
Definition put_file (i : Z) (f : file_t → file_t) : M unit :=
  t ← ios file; x ← of_option (zlookup t i); set_ios (with_file (zinsert i (f x) t)).

Definition with_free_pages n x :=
  File (fl_number_of_pages x) n (fl_status x) (fl_cursor x) (fl_readable x) (fl_size x) (fl_data x).
Definition with_page_status i st x :=
  File (fl_number_of_pages x) (fl_number_of_free_pages x) (zinsert i st (fl_status x)) (fl_cursor x) (fl_readable x)
    (fl_size x) (fl_data x).
Definition with_all_status st x :=
  File (fl_number_of_pages x) (fl_number_of_free_pages x) (replicate (Z.to_nat (fl_number_of_pages x)) st)
    (fl_cursor x) (fl_readable x) (fl_size x) (fl_data x).
Definition with_cursor c x :=
  File (fl_number_of_pages x) (fl_number_of_free_pages x) (fl_status x) c (fl_readable x) (fl_size x) (fl_data x).
Definition with_readable b x :=
  File (fl_number_of_pages x) (fl_number_of_free_pages x) (fl_status x) (fl_cursor x) b (fl_size x) (fl_data x).
Definition with_data n d x :=
  File (fl_number_of_pages x) (fl_number_of_free_pages x) (fl_status x) (fl_cursor x) (fl_readable x) n d.

Definition page_status (i : Z) (f : file_t) : M disk_page_status_t := of_option (zlookup (fl_status f) i).

(** [lseek] to [off] and [write] of the words [ws]. *)
Fixpoint write_words (off : Z) (ws : list Z) (d : gmap Z Z) : gmap Z Z :=
  match ws with
  | [] => d
  | w :: ws => write_words (off + 4) ws (<[off := w]> d)
  end.
Definition file_write (off : Z) (ws : list Z) (f : file_t) : file_t :=
  match ws with
  | [] => f
  | _ => with_data (Z.max (fl_size f) (off + 4 * Z.of_nat (length ws))) (write_words off ws (fl_data f)) f
  end.

(** [lseek] to [off] and [read] of [n] words: it fails when the file was opened for
    writing only and where the file ends before. *)
Definition file_read (off : Z) (n : nat) (f : file_t) : M (list Z) :=
  if fl_readable f && bool_decide (off + 4 * Z.of_nat n ≤ fl_size f)
  then mret ((λ i : nat, default 0 (fl_data f !! (off + 4 * Z.of_nat i))) <$> seq 0 n)
  else fail Exited.

(** The [n] words of the image from [p] on, and writing them. *)
Fixpoint read_words (p : Z) (n : nat) : M (list Z) :=
  match n with
  | O => mret []
  | S n => w ← load p; ws ← read_words (p + 4) n; mret (w :: ws)
  end.
Fixpoint store_words (p : Z) (ws : list Z) : M unit :=
  match ws with
  | [] => mret tt
  | w :: ws => store p w;; store_words (p + 4) ws
  end.

Section io.
Context `{Params}.

(** The offset of a page in its file. *)
Definition page_offset (page_number : Z) : Z := disk_skip_nbytes + page_number * PAGE_SIZE.

(** * Creating and opening *)

Definition io_create_file : M unit :=
  t ← ios file;
  for_ (length t) (λ j _,
    let j := Z.of_nat j in
    put_file j (with_readable false);;
    put_file j (with_all_status FREE);;
    put_file j (with_cursor 0);;
    f ← get_file j;
    put_file j (with_free_pages (fl_number_of_pages f));;
    n ← ios number_of_free_disk_pages;
    set_ios (with_free_disk_pages (n + fl_number_of_pages f))) tt;;
  set_ios (with_file_cursor 0).

Definition io_open_file : M unit :=
  t ← ios file;
  for_ (length t) (λ j _,
    let j := Z.of_nat j in
    put_file j (with_all_status UNKNOWN);;
    put_file j (with_free_pages 0);;
    put_file j (with_readable true);;
    put_file j (with_cursor 0)) tt;;
  set_ios (with_file_cursor 0).

(** * Writing and reading pages *)

(** The inner loop: look for a free page of the file at the cursor. *)
Fixpoint search_pages (pages_left : nat) : M bool :=
  match pages_left with
  | O => mret false
  | S pages_left =>
    fc ← ios file_cursor;
    f ← get_file fc;
    st ← page_status (fl_cursor f) f;
    if bool_decide (st = FREE) then mret true
    else
      put_file fc (with_cursor ((fl_cursor f + 1) mod fl_number_of_pages f));;
      search_pages pages_left
  end.

(** The outer loop; [true] is [goto found_disk_page]. *)
Fixpoint search_files (files_left : nat) : M bool :=
  match files_left with
  | O => mret false
  | S files_left =>
    fc ← ios file_cursor;
    f ← get_file fc;
    found ← (if bool_decide (1 < fl_number_of_free_pages f)
             then search_pages (Z.to_nat (fl_number_of_pages f)) else mret false);
    if found : bool then mret true
    else
      fc ← ios file_cursor;
      n ← ios (λ x, Z.of_nat (length (file x)));
      set_ios (with_file_cursor ((fc + 1) mod n));;
      search_files files_left
  end.

(** [number_of_bytes] rounded up to whole disk blocks. *)
Definition round_up (number_of_bytes : Z) : Z :=
  let excess_bytes := number_of_bytes mod WRITE_BOUNDARY in
  if bool_decide (excess_bytes ≠ 0) then number_of_bytes + (WRITE_BOUNDARY - excess_bytes) else number_of_bytes.

Definition io_write_page (ptr number_of_bytes : Z) : M Z :=
  let number_of_bytes := round_up number_of_bytes in
  p0 ← rd ptr 0;
  massert (bool_decide (p0 = PAGE_MAGIC_COOKIE));;
  massert (bool_decide (number_of_bytes ≤ PAGE_SIZE));;
  n ← ios number_of_free_disk_pages;
  if bool_decide (n = 0) then fail Exited
  else
    files_left ← ios (λ x, length (file x));
    found ← search_files files_left;
    massert found;;
    fc ← ios file_cursor;
    f ← get_file fc;
    put_file fc (with_page_status (fl_cursor f) ALLOCATED);;
    put_file fc (with_free_pages (fl_number_of_free_pages f - 1));;
    n ← ios number_of_free_disk_pages;
    set_ios (with_free_disk_pages (n - 1));;
    ws ← read_words ptr (Z.to_nat (number_of_bytes / 4));
    put_file fc (file_write (page_offset (fl_cursor f)) ws);;
    let dpn := MAKE_DISK_PAGE_NUMBER fc (fl_cursor f) in
    n ← ios (λ x, Z.of_nat (length (file x)));
    set_ios (with_file_cursor ((fc + 1) mod n));;
    put_file fc (with_cursor ((fl_cursor f + 1) mod fl_number_of_pages f));;
    mret dpn.

(** There is nothing to wait for when files are written synchronously. *)
Definition io_allow_page_changes : M unit := mret tt.

(** Reading swaps the bytes of what a machine of the other byte order wrote. *)
Definition io_read_page (ptr number_of_bytes disk_page_number : Z) : M unit :=
  let file_number := GET_FILE_NUMBER disk_page_number in
  let page_number := GET_PAGE_NUMBER disk_page_number in
  massert (bool_decide (number_of_bytes ≤ PAGE_SIZE));;
  f ← get_file file_number;
  st ← page_status page_number f;
  massert (bool_decide (st = ALLOCATED));;
  ws ← file_read (page_offset page_number) (Z.to_nat (number_of_bytes / 4)) f;
  store_words ptr ws;;
  p0 ← rd ptr 0;
  (if bool_decide (p0 = swap_bytes PAGE_MAGIC_COOKIE) then
     for_ (Z.to_nat (number_of_bytes / 4)) (λ i _, w ← rd ptr (Z.of_nat i); wr ptr (Z.of_nat i) (swap_bytes w)) tt
   else mret tt);;
  p0 ← rd ptr 0;
  if bool_decide (p0 ≠ PAGE_MAGIC_COOKIE) then fail Exited else mret tt.

(** * The root block *)

(** The [DISK_BLOCK_SIZE] bytes at [root]. *)
Definition root_words : M (list Z) :=
  r ← gets root;
  if bool_decide (Z.of_nat (length r) < NUMBER_OF_ROOT_BLOCK_ITEMS) then fail BadAddress
  else mret (take (Z.to_nat NUMBER_OF_ROOT_BLOCK_ITEMS) r).

Definition io_write_root : M unit :=
  w ← get_root ROOT_IX_magic_cookie;
  massert (bool_decide (w = ROOT_MAGIC_COOKIE));;
  f ← get_file FIXED_ROOT_DISK;
  ws ← root_words;
  put_file FIXED_ROOT_DISK (file_write (page_offset (fl_number_of_pages f)) ws);;
  increment_root_time_stamp.

Definition io_read_root : M unit :=
  f ← get_file 0;
  ws ← file_read (page_offset (fl_number_of_pages f)) (Z.to_nat NUMBER_OF_ROOT_BLOCK_ITEMS) f;
  modify (set_root ws);;
  w ← get_root ROOT_IX_magic_cookie;
  (if bool_decide (w = swap_bytes ROOT_MAGIC_COOKIE) then modify (λ s, set_root (swap_bytes <$> root s) s) else mret tt);;
  w ← get_root ROOT_IX_magic_cookie;
  if bool_decide (w ≠ ROOT_MAGIC_COOKIE) then fail Exited else increment_root_time_stamp.

(** * Allocation of disk pages *)

Definition io_declare_disk_page_allocated (disk_page_number : Z) : M unit :=
  f ← get_file (GET_FILE_NUMBER disk_page_number);
  st ← page_status (GET_PAGE_NUMBER disk_page_number) f;
  massert (bool_decide (st ≠ FREE));;
  put_file (GET_FILE_NUMBER disk_page_number) (with_page_status (GET_PAGE_NUMBER disk_page_number) ALLOCATED).

Definition free_disk_page_of (fn pn : Z) : M unit :=
  put_file fn (with_page_status pn FREE);;
  f ← get_file fn;
  put_file fn (with_free_pages (fl_number_of_free_pages f + 1));;
  n ← ios number_of_free_disk_pages;
  set_ios (with_free_disk_pages (n + 1)).

Definition io_free_disk_page (disk_page_number : Z) : M unit :=
  f ← get_file (GET_FILE_NUMBER disk_page_number);
  st ← page_status (GET_PAGE_NUMBER disk_page_number) f;
  if bool_decide (st ≠ FREE) then free_disk_page_of (GET_FILE_NUMBER disk_page_number) (GET_PAGE_NUMBER disk_page_number)
  else mret tt.

Definition io_number_of_free_disk_pages : M Z := ios number_of_free_disk_pages.

Definition io_declare_unallocated_pages_free : M unit :=
  t ← ios file;
  for_ (length t) (λ i _,
    f ← get_file (Z.of_nat i);
    for_ (Z.to_nat (fl_number_of_pages f)) (λ j _,
      f ← get_file (Z.of_nat i);
      st ← page_status (Z.of_nat j) f;
      if bool_decide (st = UNKNOWN) then free_disk_page_of (Z.of_nat i) (Z.of_nat j) else mret tt) tt) tt.
End io.

(** * The rules for the variables *)

Definition put_io (x : io_state) (s : state) : state := set_gc (set_io x (gc s)) s.

Section rules.
Context (s : state).

Lemma wp_ios {A} (f : io_state → A) (Q : A → state → Prop) : Q (f (io (gc s))) s → wp (ios f) Q s.
Proof. done. Qed.

Lemma wp_set_ios f (Q : unit → state → Prop) : Q tt (put_io (f (io (gc s))) s) → wp (set_ios f) Q s.
Proof. done. Qed.

Lemma wp_get_file i f (Q : file_t → state → Prop) :
  zlookup (file (io (gc s))) i = Some f → Q f s → wp (get_file i) Q s.
Proof. intros Hf HQ. apply wp_bind, wp_ios. by eapply wp_of_option. Qed.

Lemma wp_put_file i f g (Q : unit → state → Prop) : zlookup (file (io (gc s))) i = Some f →
  Q tt (put_io (with_file (zinsert i (g f) (file (io (gc s)))) (io (gc s))) s) → wp (put_file i g) Q s.
Proof. intros Hf HQ. apply wp_bind, wp_ios, wp_bind. by eapply wp_of_option. Qed.

Lemma wp_page_status i f st (Q : disk_page_status_t → state → Prop) :
  zlookup (fl_status f) i = Some st → Q st s → wp (page_status i f) Q s.
Proof. apply wp_of_option. Qed.

Lemma put_io_same : put_io (io (gc s)) s = s.
Proof. by destruct s as [? ? ? ? ? ? ? ? []]. Qed.
End rules.

(** [ws] are the words of the image from [p] on. *)
Definition words_at (m : gmap Z Z) (p : Z) (ws : list Z) : Prop :=
  ∀ i w, ws !! i = Some w → m !! (p + 4 * Z.of_nat i) = Some w.

Lemma words_at_cons m p w ws : words_at m p (w :: ws) ↔ m !! p = Some w ∧ words_at m (p + 4) ws.
Proof.
  unfold words_at. split.
  - intros H. split; [rewrite <- (Z.add_0_r p); by apply (H 0%nat)|]. intros i x Hi. specialize (H (S i) x Hi).
    by replace (p + 4 + 4 * Z.of_nat i) with (p + 4 * Z.of_nat (S i)) by lia.
  - intros [Hp H] [|i] x Hi; [injection Hi as ->; by rewrite Z.mul_0_r, Z.add_0_r|]. specialize (H i x Hi).
    by replace (p + 4 * Z.of_nat (S i)) with (p + 4 + 4 * Z.of_nat i) by lia.
Qed.

Lemma wp_read_words ws p s (Q : list Z → state → Prop) : words_at (mem s) p ws → Q ws s → wp (read_words p (length ws)) Q s.
Proof.
  revert p Q. induction ws as [|w ws IH]; intros p Q; [intros _; apply wp_ret|].
  intros [Hp H]%words_at_cons HQ. simpl. apply wp_bind. eapply wp_load; [exact Hp|]. apply wp_bind, IH; [done|]. by apply wp_ret.
Qed.

(** Memory and files hold the words that were written. *)
Lemma lookup_write_words_out ws off d a : (∀ i : nat, (i < length ws)%nat → a ≠ off + 4 * Z.of_nat i) →
  write_words off ws d !! a = d !! a.
Proof.
  revert off d. induction ws as [|w ws IH]; intros off d Ha; [done|]. simpl. rewrite IH.
  - apply lookup_insert_ne. specialize (Ha 0%nat ltac:(simpl; lia)). lia.
  - intros i Hi. specialize (Ha (S i) ltac:(simpl; lia)). lia.
Qed.

Lemma lookup_write_words ws off d i w : ws !! i = Some w → write_words off ws d !! (off + 4 * Z.of_nat i) = Some w.
Proof.
  revert off d i. induction ws as [|v ws IH]; intros off d i Hi; [done|]. simpl. destruct i as [|i].
  - injection Hi as ->. rewrite lookup_write_words_out by (intros j Hj; lia). rewrite Z.mul_0_r, Z.add_0_r. apply lookup_insert_eq.
  - specialize (IH (off + 4) (<[off := v]> d) i Hi).
    by replace (off + 4 * Z.of_nat (S i)) with (off + 4 + 4 * Z.of_nat i) by lia.
Qed.

Lemma wp_store_words ws p s (Q : unit → state → Prop) : (∀ i : nat, (i < length ws)%nat → is_Some (mem s !! (p + 4 * Z.of_nat i))) →
  Q tt (set_mem (write_words p ws (mem s)) s) → wp (store_words p ws) Q s.
Proof.
  revert p s. induction ws as [|w ws IH]; intros p s Hm HQ; [by destruct s|]. simpl. apply wp_bind, wp_store.
  - rewrite <- (Z.add_0_r p). apply (Hm 0%nat). simpl. lia.
  - apply IH; [|done]. intros i Hi. simpl.
    replace (p + 4 + 4 * Z.of_nat i) with (p + 4 * Z.of_nat (S i)) by lia. destruct (decide (p = p + 4 * Z.of_nat (S i))) as [E|]; [lia|].
    rewrite lookup_insert_ne by done. apply Hm. simpl. lia.
Qed.

(** * Disk page numbers *)

Lemma GET_PAGE_NUMBER_mod d : GET_PAGE_NUMBER d = d mod 2 ^ 27.
Proof. unfold GET_PAGE_NUMBER. replace PAGE_INDEX_MASK with (2 ^ 27 - 1) by by vm_compute. by apply land_ones_mod. Qed.

Lemma GET_FILE_NUMBER_div d : GET_FILE_NUMBER d = d / 2 ^ 27.
Proof. unfold GET_FILE_NUMBER, shr32. by apply Z.shiftr_div_pow2. Qed.

Lemma GET_MAKE fn pn : 0 ≤ fn < 32 → 0 ≤ pn < 2 ^ 27 →
  GET_FILE_NUMBER (MAKE_DISK_PAGE_NUMBER fn pn) = fn ∧ GET_PAGE_NUMBER (MAKE_DISK_PAGE_NUMBER fn pn) = pn.
Proof.
  intros Hf Hp. assert (E : MAKE_DISK_PAGE_NUMBER fn pn = fn * 2 ^ 27 + pn).
  { unfold MAKE_DISK_PAGE_NUMBER, shl32. change PAGE_INDEX_BITS with 27. rewrite Z.shiftl_mul_pow2 by done.
    rewrite w32_small by (unfold is_word; rewrite word_modulus_val; lia). apply (lor_add_disjoint _ _ 27); [done|done|].
    apply Z_mod_mult. }
  rewrite GET_PAGE_NUMBER_mod, GET_FILE_NUMBER_div, E. split; zdiv.
Qed.

Lemma disk_page_eq d : d = GET_FILE_NUMBER d * 2 ^ 27 + GET_PAGE_NUMBER d.
Proof. rewrite GET_PAGE_NUMBER_mod, GET_FILE_NUMBER_div. zdiv. Qed.

(** * The disk as a store of pages *)

Definition status_count (c : disk_page_status_t) (l : list disk_page_status_t) : Z := Z.of_nat (length (filter (λ st, st = c) l)).
Definition free_count (l : list disk_page_status_t) : Z := status_count FREE l.
Definition total_free (t : list file_t) : Z := foldr (λ f n, fl_number_of_free_pages f + n) 0 t.

Record file_ok (f : file_t) : Prop := {
  fo_pages : 0 < fl_number_of_pages f ≤ 2 ^ 27;
  fo_status : Z.of_nat (length (fl_status f)) = fl_number_of_pages f;
  fo_cursor : 0 ≤ fl_cursor f < fl_number_of_pages f;
  fo_free : fl_number_of_free_pages f = free_count (fl_status f)
}.

(** The variables are consistent. *)
Record io_ok (x : io_state) : Prop := {
  io_files : 0 < Z.of_nat (length (file x)) ≤ 32;
  io_cursor : 0 ≤ file_cursor x < Z.of_nat (length (file x));
  io_file i f : zlookup (file x) i = Some f → file_ok f;
  io_total : number_of_free_disk_pages x = total_free (file x)
}.

Definition status_at (x : io_state) (d : Z) : option disk_page_status_t :=
  f ← zlookup (file x) (GET_FILE_NUMBER d); zlookup (fl_status f) (GET_PAGE_NUMBER d).

Section disk.
Context `{Params}.

(** The file holds the words [ws] from the offset [off] on. *)
Record holds (f : file_t) (off : Z) (ws : list Z) : Prop := {
  ho_data i w : ws !! i = Some w → fl_data f !! (off + 4 * Z.of_nat i) = Some w;
  ho_size i : (i < length ws)%nat → off + 4 * Z.of_nat i + 4 ≤ fl_size f
}.

(** The disk stores the pages [A], by their disk page numbers, and the root block
    [r] (empty when none was written). *)
Record disk (x : io_state) (A : gmap Z (list Z)) (r : list Z) : Prop := {
  dk_ok : io_ok x;
  dk_status d : is_Some (A !! d) ↔ status_at x d = Some ALLOCATED;
  dk_page d ws : A !! d = Some ws → 4 * Z.of_nat (length ws) ≤ PAGE_SIZE ∧
    ∃ f, zlookup (file x) (GET_FILE_NUMBER d) = Some f ∧ holds f (page_offset (GET_PAGE_NUMBER d)) ws;
  dk_root : r = [] ∨ length r = Z.to_nat NUMBER_OF_ROOT_BLOCK_ITEMS ∧
    ∃ f, zlookup (file x) FIXED_ROOT_DISK = Some f ∧ holds f (page_offset (fl_number_of_pages f)) r
}.
End disk.

(** How the files were opened: all for reading too, or all for writing only. *)
Definition opened_as (b : bool) (x : io_state) : Prop := Forall (λ f, fl_readable f = b) (file x).

Lemma opened_as_file b x i f : opened_as b x → zlookup (file x) i = Some f → fl_readable f = b.
Proof. intros Hb [_ Hf]%zlookup_Some. by apply (Forall_lookup_1 _ _ _ _ Hb Hf). Qed.

(** * The search for a free page *)

(** Only the cursors were moved. *)
Record moved (x x' : io_state) : Prop := {
  mv_length : length (file x') = length (file x);
  mv_total : number_of_free_disk_pages x' = number_of_free_disk_pages x;
  mv_cursor : 0 ≤ file_cursor x' < Z.of_nat (length (file x));
  mv_file i f : zlookup (file x) i = Some f →
    ∃ c, 0 ≤ c < fl_number_of_pages f ∧ zlookup (file x') i = Some (with_cursor c f)
}.

Lemma with_cursor_same f : with_cursor (fl_cursor f) f = f.
Proof. by destruct f. Qed.

Lemma moved_refl x : io_ok x → moved x x.
Proof.
  intros Hx. split; [done|done|apply Hx|]. intros i f Hf. exists (fl_cursor f). rewrite with_cursor_same.
  split; [|done]. apply (io_file _ Hx _ _ Hf).
Qed.

Lemma moved_trans x y z : moved x y → moved y z → moved x z.
Proof.
  intros [L1 T1 C1 F1] [L2 T2 C2 F2]. split; [congruence|congruence|by rewrite <- L1|].
  intros i f (c & Hc & Hf)%F1. destruct (F2 _ _ Hf) as (c' & Hc' & Hf'). by exists c'.
Qed.

Lemma moved_file x x' i f' : moved x x' → zlookup (file x') i = Some f' →
  ∃ f c, zlookup (file x) i = Some f ∧ f' = with_cursor c f ∧ 0 ≤ c < fl_number_of_pages f.
Proof.
  intros Hm Hf'. apply zlookup_Some in Hf' as Hr. destruct Hr as [Hr _]. rewrite (mv_length _ _ Hm) in Hr.
  destruct (zlookup_lt _ _ Hr) as [f Hf]. destruct (mv_file _ _ Hm _ _ Hf) as (c & Hc & E).
  exists f, c. split; [done|]. split; [congruence|done].
Qed.

Lemma moved_ok x x' : io_ok x → moved x x' → io_ok x'.
Proof.
  intros Hx Hm. split; rewrite ?(mv_length _ _ Hm); [apply Hx|apply Hm| |].
  - intros i f' Hf'. destruct (moved_file _ _ _ _ Hm Hf') as (f & c & Hf & -> & Hc).
    destruct (io_file _ Hx _ _ Hf). by split.
  - rewrite (mv_total _ _ Hm), (io_total _ Hx). destruct Hm as [Hl _ _ Hf]. clear Hx.
    revert Hl Hf. generalize (file x) as t, (file x') as t'. induction t as [|f t IH]; intros [|f' t'] Hl Hf; try done.
    simpl in Hl. simpl. f_equal.
    + destruct (Hf 0 f) as (c & _ & Hf'); [by apply zlookup_Some; simpl; split; [lia|]|]. apply zlookup_Some in Hf' as [_ [= ->]]. done.
    + apply IH; [lia|]. intros i g [Hr Hg]%zlookup_Some. destruct (Hf (i + 1) g) as (c & Hc & Hg').
      { apply zlookup_Some. replace (Z.to_nat (i + 1)) with (S (Z.to_nat i)) by lia. split; [simpl; lia|done]. }
      exists c. split; [done|]. apply zlookup_Some in Hg' as [Hr' Hg'].
      replace (Z.to_nat (i + 1)) with (S (Z.to_nat i)) in Hg' by lia. apply zlookup_Some. split; [simpl in Hr'; lia|done].
Qed.

Lemma free_count_pos l : 0 < free_count l → ∃ i, zlookup l i = Some FREE.
Proof.
  unfold free_count, status_count. intros Hl. induction l as [|st l IH]; [done|]. rewrite filter_cons in Hl. case_decide as Hst.
  - exists 0. apply zlookup_Some. simpl. split; [lia|by rewrite Hst].
  - destruct (IH Hl) as (i & Hi). apply zlookup_Some in Hi as [Hr Hi]. exists (i + 1). apply zlookup_Some.
    replace (Z.to_nat (i + 1)) with (S (Z.to_nat i)) by lia. split; [simpl; lia|done].
Qed.

(** A cyclic walk from [c] visits every [j]. *)
Lemma cyclic_visit c j n : 0 ≤ c < n → 0 ≤ j < n → ∃ i : nat, Z.of_nat i < n ∧ (c + Z.of_nat i) mod n = j.
Proof.
  intros Hc Hj. pose proof (Z.mod_pos_bound (j - c) n ltac:(lia)) as Hb. exists (Z.to_nat ((j - c) mod n)).
  rewrite Z2Nat.id by lia. split; [lia|]. rewrite Zplus_mod_idemp_r. replace (c + (j - c)) with j by lia. by apply Z.mod_small.
Qed.

Lemma cyclic_step c i n : 0 < n → ((c + 1) mod n + Z.of_nat i) mod n = (c + Z.of_nat (S i)) mod n.
Proof. intros Hn. rewrite Zplus_mod_idemp_l. f_equal. lia. Qed.

Lemma move_cursor x fc f c : io_ok x → zlookup (file x) fc = Some f → 0 ≤ c < fl_number_of_pages f →
  moved x (with_file (zinsert fc (with_cursor c f) (file x)) x).
Proof.
  intros Hx Hf Hc. apply zlookup_Some in Hf as Hr. destruct Hr as [Hr _].
  split; simpl; rewrite ?length_zinsert; [done|done|apply Hx|]. intros i g Hg. destruct (decide (fc = i)) as [<-|Hne].
  - rewrite Hg in Hf. injection Hf as ->. exists c. split; [done|]. by apply zlookup_insert.
  - destruct (mv_file _ _ (moved_refl _ Hx) _ _ Hg) as (d & Hd & E). exists d. split; [done|]. by rewrite zlookup_insert_ne by (done || lia).
Qed.

(** What [search_pages] and [search_files] find. *)
Definition at_free_page (x : io_state) : Prop :=
  ∃ f, zlookup (file x) (file_cursor x) = Some f ∧ zlookup (fl_status f) (fl_cursor f) = Some FREE.

Lemma wp_search_pages k x f s (Q : bool → state → Prop) : io_ok x → zlookup (file x) (file_cursor x) = Some f →
  (∀ b x', moved x x' → file_cursor x' = file_cursor x → (if b : bool then at_free_page x' else
    ∀ i : nat, (i < k)%nat → zlookup (fl_status f) ((fl_cursor f + Z.of_nat i) mod fl_number_of_pages f) ≠ Some FREE) →
    Q b (put_io x' s)) →
  wp (search_pages k) Q (put_io x s).
Proof.
  revert x f. induction k as [|k IH]; intros x f Hx Hf HQ; simpl.
  { apply wp_ret, HQ; [by apply moved_refl|done|]. intros i Hi. lia. }
  destruct (io_file _ Hx _ _ Hf) as [Hn Hl Hc Hfr]. apply wp_bind, wp_ios. apply wp_bind. eapply wp_get_file; [exact Hf|].
  destruct (zlookup_lt (fl_status f) (fl_cursor f)) as [st Hst]; [lia|]. apply wp_bind. eapply wp_page_status; [exact Hst|].
  case_bool_decide as Hfree.
  - apply wp_ret, HQ; [by apply moved_refl|done|]. exists f. by rewrite Hst, Hfree.
  - apply wp_bind. eapply wp_put_file; [exact Hf|].
    set (c := (fl_cursor f + 1) mod _). assert (Hcr : 0 ≤ c < fl_number_of_pages f) by (apply Z.mod_pos_bound; lia).
    pose proof (move_cursor _ _ _ _ Hx Hf Hcr) as Hm. cbn [put_io io gc set_gc set_io].
    change (put_io ?y (put_io x s)) with (put_io y s).
    eapply IH; [by eapply moved_ok|apply zlookup_insert; by apply zlookup_Some in Hf as [? _]|].
    intros b x' Hm' Hfc' Hb. apply HQ; [by eapply moved_trans|done|]. destruct b; [done|].
    intros [|i] Hi.
    + rewrite Z.add_0_r, Z.mod_small by done. rewrite Hst. by intros [= ->].
    + specialize (Hb i ltac:(lia)). cbn [fl_cursor with_cursor fl_status fl_number_of_pages] in Hb. subst c. by rewrite cyclic_step in Hb by lia.
Qed.

Lemma next_file x : io_ok x → moved x (with_file_cursor ((file_cursor x + 1) mod Z.of_nat (length (file x))) x).
Proof.
  intros Hx. split; simpl; [done|done| |].
  - apply Z.mod_pos_bound. apply Hx.
  - apply (moved_refl _ Hx).
Qed.

Lemma wp_search_files k x s (Q : bool → state → Prop) : io_ok x →
  (∀ b x', moved x x' → (if b : bool then at_free_page x' ∧ ∃ f, f ∈ file x ∧ 1 < fl_number_of_free_pages f else
    ∀ (i : nat) f, (i < k)%nat → zlookup (file x) ((file_cursor x + Z.of_nat i) mod Z.of_nat (length (file x))) = Some f →
      fl_number_of_free_pages f ≤ 1) → Q b (put_io x' s)) →
  wp (search_files k) Q (put_io x s).
Proof.
  revert x. induction k as [|k IH]; intros x Hx HQ; simpl.
  { apply wp_ret, HQ; [by apply moved_refl|]. intros i f Hi. lia. }
  destruct (zlookup_lt (file x) (file_cursor x)) as [f Hf]; [apply Hx|]. pose proof (io_file _ Hx _ _ Hf) as Hfo.
  apply wp_bind, wp_ios, wp_bind. eapply wp_get_file; [exact Hf|]. apply wp_bind.
  assert (Hnext : ∀ x1, moved x x1 → file_cursor x1 = file_cursor x → fl_number_of_free_pages f ≤ 1 →
    wp (fc ← ios file_cursor; n ← ios (λ x, Z.of_nat (length (file x))); set_ios (with_file_cursor ((fc + 1) mod n));; search_files k) Q (put_io x1 s)).
  { intros x1 Hm1 Hc1 Hfew. apply wp_bind, wp_ios, wp_bind, wp_ios, wp_bind, wp_set_ios. cbn [put_io io gc set_gc set_io].
    change (put_io ?y (put_io x1 s)) with (put_io y s). pose proof (moved_ok _ _ Hx Hm1) as Hx1. pose proof (next_file _ Hx1) as Hm2.
    pose proof (io_files _ Hx). apply IH; [by eapply moved_ok|]. intros b x' Hm Hb. apply HQ.
    { eapply moved_trans; [exact Hm1|]. by eapply moved_trans. }
    destruct b.
    { destruct Hb as [Hb (g & [i Hi]%list_elem_of_lookup & Hg)]. split; [done|].
      assert (Hz : zlookup (file x1) (Z.of_nat i) = Some g).
      { apply zlookup_Some. rewrite Nat2Z.id. split; [apply lookup_lt_Some in Hi; simpl in Hi; lia|done]. }
      destruct (moved_file _ _ _ _ Hm1 Hz) as (g0 & c & [_ Hg0]%zlookup_Some & -> & _).
      exists g0. split; [by eapply list_elem_of_lookup_2|done]. }
    intros [|i] g Hi Hg.
    - rewrite Z.add_0_r, Z.mod_small in Hg by apply Hx. by simplify_eq.
    - destruct (mv_file _ _ Hm1 _ _ Hg) as (c & _ & Hg'). apply (Hb i (with_cursor c g)); [lia|]. simpl.
      rewrite Hc1, (mv_length _ _ Hm1). by rewrite cyclic_step by lia. }
  case_bool_decide as Hmany.
  - eapply wp_search_pages; [exact Hx|exact Hf|]. intros b x1 Hm1 Hc1 Hb. destruct b.
    + apply wp_ret, HQ; [done|]. split; [exact Hb|]. exists f. split; [|done]. apply zlookup_Some in Hf as [_ Hf]. by eapply list_elem_of_lookup_2.
    + exfalso. destruct (free_count_pos (fl_status f)) as [j Hj]; [rewrite <- (fo_free _ Hfo); lia|].
      apply zlookup_Some in Hj as Hr. destruct Hr as [Hr _]. rewrite (fo_status _ Hfo) in Hr.
      destruct (cyclic_visit (fl_cursor f) j (fl_number_of_pages f)) as (i & Hi & E); [apply Hfo|done|].
      apply (Hb i); [lia|]. by rewrite E.
  - apply wp_ret. apply Hnext; [by apply moved_refl|done|lia].
Qed.

(** * Writing a page *)

Lemma total_free_insert t i f f' : zlookup t i = Some f →
  total_free (zinsert i f' t) = total_free t - fl_number_of_free_pages f + fl_number_of_free_pages f'.
Proof.
  intros [_ Hi]%zlookup_Some. unfold zinsert. revert Hi. generalize (Z.to_nat i) as j.
  induction t as [|g t IH]; intros [|j] Hj; [done|done|..]; simpl in *; [injection Hj as ->; lia|].
  rewrite (IH _ Hj). lia.
Qed.

Lemma total_free_few t : (∀ f, f ∈ t → fl_number_of_free_pages f ≤ 1) → total_free t ≤ Z.of_nat (length t).
Proof.
  induction t as [|f t IH]; intros Hf; [done|]. cbn [total_free foldr length]. fold (total_free t).
  assert (total_free t ≤ Z.of_nat (length t)) by (apply IH; intros g Hg; apply Hf; by right).
  specialize (Hf f ltac:(by left)). lia.
Qed.

Lemma status_count_insert c l i st st' : zlookup l i = Some st →
  status_count c (zinsert i st' l) + (if bool_decide (st = c) then 1 else 0) =
  status_count c l + (if bool_decide (st' = c) then 1 else 0).
Proof.
  intros [_ Hi]%zlookup_Some. unfold zinsert, status_count. revert Hi. generalize (Z.to_nat i) as j.
  induction l as [|g l IH]; intros [|j] Hj; [done|done|..]; simpl in Hj.
  - injection Hj as ->. change (<[0%nat:=st']> (st :: l)) with (st' :: l). rewrite !filter_cons.
    repeat case_decide; repeat case_bool_decide; simpl; try done; lia.
  - change (<[S j:=st']> (g :: l)) with (g :: <[j:=st']> l). specialize (IH _ Hj). rewrite !filter_cons.
    destruct (decide (g = c)); [|done]. rewrite !length_cons, !Nat2Z.inj_succ. lia.
Qed.

Lemma free_count_insert l i st st' : zlookup l i = Some st →
  free_count (zinsert i st' l) + (if bool_decide (st = FREE) then 1 else 0) =
  free_count l + (if bool_decide (st' = FREE) then 1 else 0).
Proof. apply status_count_insert. Qed.

Section write.
Context `{Params}.

Lemma holds_write f off ws off' ws' : holds f off ws →
  (∀ i j : nat, (i < length ws)%nat → (j < length ws')%nat → off + 4 * Z.of_nat i ≠ off' + 4 * Z.of_nat j) →
  holds (file_write off' ws' f) off ws.
Proof.
  intros [Hd Hs] Hne. destruct ws' as [|v ws']; [by split|]. split; cbn [file_write with_data fl_data fl_size].
  - intros i w Hi. rewrite (lookup_write_words_out (v :: ws') off'); [by apply Hd|].
    intros j Hj. apply Hne; [by eapply lookup_lt_Some|done].
  - intros i Hi. specialize (Hs i Hi). lia.
Qed.

Lemma holds_written f off ws : holds (file_write off ws f) off ws.
Proof.
  destruct ws as [|v ws]; [split; [by intros i w|simpl; intros; lia]|]. split; cbn [file_write with_data fl_data fl_size].
  - intros i w Hi. by apply (lookup_write_words (v :: ws)).
  - intros i Hi. lia.
Qed.

Lemma holds_same f f' off ws : fl_data f' = fl_data f → fl_size f' = fl_size f → holds f off ws → holds f' off ws.
Proof. intros Ed Es [Hd Hs]. split; intros; rewrite ?Ed, ?Es; auto. Qed.

Lemma file_write_fields off ws f : fl_number_of_pages (file_write off ws f) = fl_number_of_pages f ∧
  fl_number_of_free_pages (file_write off ws f) = fl_number_of_free_pages f ∧
  fl_status (file_write off ws f) = fl_status f ∧ fl_cursor (file_write off ws f) = fl_cursor f.
Proof. by destruct ws. Qed.

(** Different pages do not overlap. *)
Lemma page_offset_ne pn pn' i j : pn ≠ pn' → 0 ≤ i < PAGE_SIZE → 0 ≤ j < PAGE_SIZE →
  page_offset pn + i ≠ page_offset pn' + j.
Proof. unfold page_offset. change PAGE_SIZE with 65536. lia. Qed.

Lemma status_at_Some x d st : status_at x d = Some st ↔
  ∃ f, zlookup (file x) (GET_FILE_NUMBER d) = Some f ∧ zlookup (fl_status f) (GET_PAGE_NUMBER d) = Some st.
Proof.
  unfold status_at. destruct (zlookup (file x) _) as [f|]; simpl; [|by split; [|intros (f & ? & _)]].
  split; [by exists f|]. by intros (f' & [= ->] & ?).
Qed.

Lemma moved_status x x' d : moved x x' → status_at x' d = status_at x d.
Proof.
  intros Hm. unfold status_at. destruct (zlookup (file x) (GET_FILE_NUMBER d)) as [f|] eqn:Hf.
  - destruct (mv_file _ _ Hm _ _ Hf) as (c & _ & ->). done.
  - destruct (zlookup (file x') _) as [f'|] eqn:Hf'; [|done].
    destruct (moved_file _ _ _ _ Hm Hf') as (f & c & Hf2 & _). congruence.
Qed.

Lemma moved_disk x x' A r : disk x A r → moved x x' → disk x' A r.
Proof.
  intros [Hok Hst Hpg Hr] Hm. split; [by eapply moved_ok| | |].
  - intros d. by rewrite (moved_status _ _ d Hm).
  - intros d ws Hd. destruct (Hpg d ws Hd) as (Hl & f & Hf & Hh). split; [done|].
    destruct (mv_file _ _ Hm _ _ Hf) as (c & _ & Hf'). eexists. split; [done|]. by eapply holds_same, Hh.
  - destruct Hr as [|(Hl & f & Hf & Hh)]; [by left|right]. split; [done|].
    destruct (mv_file _ _ Hm _ _ Hf) as (c & _ & Hf'). eexists. split; [done|]. by eapply holds_same, Hh.
Qed.

(** The file after its page [c] was written. *)
Definition page_filed (c : Z) (ws : list Z) (f : file_t) : file_t :=
  file_write (page_offset c) ws (with_free_pages (fl_number_of_free_pages f - 1) (with_page_status c ALLOCATED f)).

Lemma disk_write x A r f ws : disk x A r → zlookup (file x) (file_cursor x) = Some f →
  zlookup (fl_status f) (fl_cursor f) = Some FREE → 4 * Z.of_nat (length ws) ≤ PAGE_SIZE →
  let d := MAKE_DISK_PAGE_NUMBER (file_cursor x) (fl_cursor f) in
  A !! d = None ∧ disk (IoState (zinsert (file_cursor x) (page_filed (fl_cursor f) ws f) (file x)) (file_cursor x)
    (number_of_free_disk_pages x - 1)) (<[d := ws]> A) r.
Proof.
  intros [Hok Hst Hpg Hr] Hf Hfree Hl d. pose proof (io_file _ Hok _ _ Hf) as Hfo.
  pose proof (io_cursor _ Hok) as Hfc. pose proof (io_files _ Hok) as Hn.
  destruct (GET_MAKE (file_cursor x) (fl_cursor f)) as [Ef Ep]; [lia|pose proof (fo_cursor _ Hfo); pose proof (fo_pages _ Hfo); lia|].
  fold d in Ef, Ep. destruct (file_write_fields (page_offset (fl_cursor f)) ws
    (with_free_pages (fl_number_of_free_pages f - 1) (with_page_status (fl_cursor f) ALLOCATED f))) as (E1 & E2 & E3 & E4).
  fold (page_filed (fl_cursor f) ws f) in E1, E2, E3, E4. simpl in E1, E2, E3, E4.
  assert (Hd : A !! d = None).
  { apply eq_None_not_Some. rewrite Hst, status_at_Some, Ef, Ep. intros (f' & Hf' & E). congruence. }
  split; [done|]. split; [split|..]; simpl.
  - by rewrite length_zinsert.
  - by rewrite length_zinsert.
  - intros i f' [[<- <-]|[_ Hf']]%zlookup_insert_Some; [| |done]; [|by eapply io_file].
    split; rewrite ?E1, ?E2, ?E3, ?E4, ?length_zinsert; [apply Hfo..|].
    pose proof (free_count_insert _ _ _ ALLOCATED Hfree) as E. rewrite bool_decide_eq_true_2, bool_decide_eq_false_2 in E by done.
    rewrite (fo_free _ Hfo). lia.
  - rewrite (total_free_insert _ _ _ _ Hf), E2, (io_total _ Hok). lia.
  - intros d'. rewrite lookup_insert_is_Some, Hst, !status_at_Some. simpl. split.
    + intros [<-|[Hne (f' & Hf' & Hs)]].
      * rewrite Ef, Ep. eexists. split; [by apply zlookup_insert|]. rewrite E3. apply zlookup_insert. rewrite (fo_status _ Hfo). apply Hfo.
      * destruct (decide (file_cursor x = GET_FILE_NUMBER d')) as [E|Hne'].
        -- eexists. rewrite <- E. split; [by apply zlookup_insert|]. rewrite E3. rewrite <- E, Hf in Hf'. injection Hf' as <-.
           rewrite zlookup_insert_ne; [done|apply Hfo|]. intros E'. apply Hne. rewrite (disk_page_eq d), (disk_page_eq d'), Ef, Ep. lia.
        -- eexists. rewrite zlookup_insert_ne by (done || lia). done.
    + intros (f' & [[Ec <-]|[Hne Hf']]%zlookup_insert_Some & Hs); [| |done].
      * rewrite E3 in Hs. apply zlookup_insert_Some in Hs as [[Ec' _]|[Hne Hs]]; [| |rewrite (fo_status _ Hfo); apply Hfo].
        -- left. rewrite (disk_page_eq d), (disk_page_eq d'), Ef, Ep. lia.
        -- right. split; [intros <-; by apply Hne; rewrite Ep|]. exists f. by rewrite <- Ec.
      * right. split; [intros <-; by apply Hne|]. by exists f'.
  - intros d' ws' [[<- <-]|[Hne Hd']]%lookup_insert_Some.
    + split; [done|]. rewrite Ef, Ep. eexists. split; [by apply zlookup_insert|]. apply holds_written.
    + destruct (Hpg _ _ Hd') as (Hl' & f' & Hf' & Hh). split; [done|].
      destruct (decide (file_cursor x = GET_FILE_NUMBER d')) as [E|Hne'].
      * rewrite <- E in *. rewrite Hf in Hf'. injection Hf' as <-. eexists. split; [by apply zlookup_insert|].
        apply holds_write; [by eapply holds_same, Hh|]. intros i j Hi Hj. apply page_offset_ne; [|change PAGE_SIZE with 65536 in *; lia..].
        intros E'. apply Hne. rewrite (disk_page_eq d), (disk_page_eq d'), Ef, Ep. lia.
      * eexists. rewrite zlookup_insert_ne by (done || lia). done.
  - destruct Hr as [|(Hl' & f' & Hf' & Hh)]; [by left|right]. split; [done|].
    destruct (decide (file_cursor x = FIXED_ROOT_DISK)) as [E|Hne'].
    + rewrite <- E in *. rewrite Hf in Hf'. injection Hf' as <-. eexists. split; [by apply zlookup_insert|]. rewrite E1.
      apply holds_write; [by eapply holds_same, Hh|]. intros i j Hi Hj. rewrite Hl' in Hi.
      change (Z.to_nat NUMBER_OF_ROOT_BLOCK_ITEMS) with 128%nat in Hi. pose proof (fo_cursor _ Hfo).
      apply page_offset_ne; [lia|change PAGE_SIZE with 65536 in *; lia..].
    + eexists. rewrite zlookup_insert_ne by (done || lia). done.
Qed.
End write.

Section pages.
Context `{Params}.

Lemma round_up_bounds n : 0 ≤ n → n ≤ round_up n < n + DISK_BLOCK_SIZE ∧ round_up n mod DISK_BLOCK_SIZE = 0.
Proof.
  intros Hn. unfold round_up. change WRITE_BOUNDARY with 512. change DISK_BLOCK_SIZE with 512.
  case_bool_decide; zdiv.
Qed.

Lemma wp_io_write_page ptr n ws x A r s (Q : Z → state → Prop) : disk x A r →
  words_at (mem s) ptr ws → length ws = Z.to_nat (round_up n / 4) → mem s !! ptr = Some PAGE_MAGIC_COOKIE →
  round_up n ≤ PAGE_SIZE → Z.of_nat (length (file x)) < number_of_free_disk_pages x →
  (∀ d x', A !! d = None → disk x' (<[d := ws]> A) r → length (file x') = length (file x) →
    number_of_free_disk_pages x' = number_of_free_disk_pages x - 1 → Q d (put_io x' s)) →
  wp (io_write_page ptr n) Q (put_io x s).
Proof.
  intros Hx Hws Hl Hmagic Hn Hroom HQ. pose proof (dk_ok _ _ _ Hx) as Hok.
  apply wp_bind. eapply wp_load; [by rewrite Z.mul_0_r, Z.add_0_r|].
  apply wp_bind, wp_assert; [by apply bool_decide_eq_true|].
  apply wp_bind, wp_assert; [by apply bool_decide_eq_true|]. apply wp_bind, wp_ios.
  cbn [put_io io gc set_gc set_io]. rewrite bool_decide_eq_false_2 by lia. apply wp_bind, wp_ios, wp_bind, wp_search_files; [done|].
  cbn [put_io io gc set_gc set_io]. intros b x1 Hm Hb. destruct b.
  2: { exfalso. assert (Hfew : total_free (file x) ≤ Z.of_nat (length (file x))).
       { apply total_free_few. intros f [i Hi]%list_elem_of_lookup. pose proof (lookup_lt_Some _ _ _ Hi) as Hil.
         destruct (cyclic_visit (file_cursor x) (Z.of_nat i) (Z.of_nat (length (file x)))) as (j & Hj & E); [apply Hok|lia|].
         apply (Hb j); [lia|]. rewrite E. apply zlookup_Some. rewrite Nat2Z.id. split; [lia|done]. }
       rewrite (io_total _ Hok) in Hroom. lia. }
  apply wp_bind, wp_assert; [done|]. destruct Hb as [(f & Hf & Hfree) _]. pose proof (moved_disk _ _ _ _ Hx Hm) as Hx1.
  pose proof (moved_ok _ _ Hok Hm) as Hok1. apply zlookup_Some in Hf as Hr. destruct Hr as [Hr _].
  apply wp_bind, wp_ios, wp_bind. eapply wp_get_file; [exact Hf|].
  apply wp_bind. eapply wp_put_file; [exact Hf|]. apply wp_bind. eapply wp_put_file; [by apply zlookup_insert|].
  apply wp_bind, wp_ios, wp_bind, wp_set_ios. apply wp_bind. rewrite <- Hl. apply wp_read_words; [done|].
  cbn [put_io io gc set_gc set_io with_file with_free_disk_pages file number_of_free_disk_pages].
  rewrite zinsert_zinsert. apply wp_bind. eapply wp_put_file; [by apply zlookup_insert|].
  apply wp_bind, wp_ios, wp_bind, wp_set_ios.
  cbn [put_io io gc set_gc set_io with_file with_file_cursor with_free_disk_pages file number_of_free_disk_pages].
  rewrite zinsert_zinsert. apply wp_bind. eapply wp_put_file; [by apply zlookup_insert|]. apply wp_ret.
  cbn [put_io io gc set_gc set_io with_file with_file_cursor with_free_disk_pages file number_of_free_disk_pages fl_number_of_free_pages with_page_status].
  change (put_io ?y (set_gc ?g ?s')) with (put_io y s). rewrite zinsert_zinsert.
  destruct (disk_write _ _ _ _ ws Hx1 Hf Hfree) as [Hd Hx2].
  { rewrite Hl. change PAGE_SIZE with 65536 in *. destruct (Z.le_gt_cases 0 (round_up n)); [zdiv|].
    rewrite Z2Nat.nonpos; [lia|zdiv]. }
  apply HQ; [exact Hd| |simpl; by rewrite length_zinsert, (mv_length _ _ Hm)|simpl; by rewrite (mv_total _ _ Hm)].
  eapply moved_disk; [exact Hx2|]. pose proof (dk_ok _ _ _ Hx2) as Hok2. destruct (file_write_fields (page_offset (fl_cursor f)) ws
    (with_free_pages (fl_number_of_free_pages f - 1) (with_page_status (fl_cursor f) ALLOCATED f))) as (E1 & _).
  pose proof (next_file _ Hok2) as Hm2. pose proof (moved_ok _ _ Hok2 Hm2) as Hok3.
  assert (Hf3 : zlookup (zinsert (file_cursor x1) (page_filed (fl_cursor f) ws f) (file x1)) (file_cursor x1) =
    Some (page_filed (fl_cursor f) ws f)) by by apply zlookup_insert.
  pose proof (move_cursor _ _ _ ((fl_cursor f + 1) mod fl_number_of_pages f) Hok3 Hf3) as Hm3.
  cbn [file with_file_cursor] in Hm3. rewrite zinsert_zinsert in Hm3. refine (moved_trans _ _ _ Hm2 (Hm3 _)).
  unfold page_filed. rewrite E1. simpl. pose proof (fo_pages _ (io_file _ Hok1 _ _ Hf)). apply Z.mod_pos_bound. lia.
Qed.

(** * Reading a page *)

(** A page can be read as far as it was written, and as a whole in the first file,
    behind which the root block is written. *)
Definition readable (d : Z) (ws r : list Z) (n : Z) : Prop :=
  n / 4 ≤ Z.of_nat (length ws) ∨ GET_FILE_NUMBER d = FIXED_ROOT_DISK ∧ r ≠ [].

(** What reading [n] bytes of a page that holds [ws] may give. *)
Definition read_from (ws : list Z) (n : Z) (vs : list Z) : Prop :=
  length vs = Z.to_nat (n / 4) ∧ ∀ i w, ws !! i = Some w → (i < length vs)%nat → vs !! i = Some w.

Lemma holds_read f off ws n s (Q : list Z → state → Prop) : holds f off ws → fl_readable f = true →
  off + 4 * Z.of_nat n ≤ fl_size f → (∀ vs, length vs = n → (∀ i w, ws !! i = Some w → (i < n)%nat → vs !! i = Some w) → Q vs s) →
  wp (file_read off n f) Q s.
Proof.
  intros Hh Hb Hs HQ. unfold file_read. rewrite Hb, bool_decide_eq_true_2 by done. apply wp_ret, HQ.
  - by rewrite length_fmap, length_seq.
  - intros i w Hi Hl. rewrite list_lookup_fmap, lookup_seq_lt by lia. simpl. by rewrite (ho_data _ _ _ Hh _ _ Hi).
Qed.

Lemma page_readable x A r d ws n f : disk x A r → A !! d = Some ws → zlookup (file x) (GET_FILE_NUMBER d) = Some f →
  holds f (page_offset (GET_PAGE_NUMBER d)) ws → readable d ws r n → 4 ≤ n ≤ PAGE_SIZE →
  page_offset (GET_PAGE_NUMBER d) + 4 * (n / 4) ≤ fl_size f.
Proof.
  intros Hx Hd Hf Hh Hr Hn. destruct (decide (n / 4 ≤ Z.of_nat (length ws))) as [Hl|Hl].
  - pose proof (ho_size _ _ _ Hh (Z.to_nat (n / 4 - 1))) as Hs. assert (1 ≤ n / 4) by zdiv. specialize (Hs ltac:(lia)). lia.
  - destruct Hr as [Hr|[Hz Hr]]; [done|]. destruct (dk_root _ _ _ Hx) as [|(Hlen & f' & Hf' & Hh')]; [done|].
    rewrite Hz, Hf' in Hf. injection Hf as ->.
    pose proof (ho_size _ _ _ Hh' 0%nat ltac:(rewrite Hlen; change (Z.to_nat NUMBER_OF_ROOT_BLOCK_ITEMS) with 128%nat; lia)) as Hs.
    assert (Hpn : status_at x d = Some ALLOCATED) by (apply (dk_status _ _ _ Hx); eauto).
    apply status_at_Some in Hpn as (f2 & Hf2 & Hst). rewrite Hz, Hf' in Hf2. injection Hf2 as ->.
    pose proof (io_file _ (dk_ok _ _ _ Hx) _ _ Hf') as Hfo. apply zlookup_Some in Hst as [Hb _]. rewrite (fo_status _ Hfo) in Hb.
    unfold page_offset in *. change PAGE_SIZE with 65536 in *. zdiv.
Qed.

Lemma wp_io_read_page ptr n d ws A r s (Q : unit → state → Prop) : disk (io (gc s)) A r → opened_as true (io (gc s)) → A !! d = Some ws →
  head ws = Some PAGE_MAGIC_COOKIE → readable d ws r n → 4 ≤ n ≤ PAGE_SIZE →
  (∀ i, 0 ≤ i < n / 4 → is_Some (mem s !! (ptr + 4 * i))) →
  (∀ vs, read_from ws n vs → Q tt (set_mem (write_words ptr vs (mem s)) s)) →
  wp (io_read_page ptr n d) Q s.
Proof.
  intros Hx Hop Hd Hmagic Hr Hn Hm HQ. unfold io_read_page. apply wp_bind, wp_assert; [apply bool_decide_eq_true; lia|].
  destruct (dk_page _ _ _ Hx _ _ Hd) as (Hl & f & Hf & Hh).
  assert (Hst : status_at (io (gc s)) d = Some ALLOCATED) by (apply (dk_status _ _ _ Hx); eauto).
  apply status_at_Some in Hst as (f2 & Hf2 & Hst). rewrite Hf in Hf2. injection Hf2 as <-.
  apply wp_bind. eapply wp_get_file; [exact Hf|]. apply wp_bind. eapply wp_page_status; [exact Hst|].
  apply wp_bind, wp_assert; [done|]. apply wp_bind. pose proof (page_readable _ _ _ _ _ _ _ Hx Hd Hf Hh Hr Hn) as Hsz.
  assert (1 ≤ n / 4) by zdiv. eapply holds_read; [exact Hh|by eapply opened_as_file|lia|]. intros vs Hvl Hv.
  apply wp_bind, wp_store_words; [intros i Hi; apply Hm; lia|]. set (s1 := set_mem _ s).
  assert (Hfirst : mem s1 !! (ptr + 4 * 0) = Some PAGE_MAGIC_COOKIE).
  { simpl. apply (lookup_write_words vs ptr _ 0). apply Hv; [|lia]. by destruct ws. }
  apply wp_bind. eapply wp_load; [exact Hfirst|]. rewrite bool_decide_eq_false_2 by by vm_compute.
  apply wp_bind, wp_ret, wp_bind. eapply wp_load; [exact Hfirst|]. rewrite bool_decide_eq_false_2 by (intros []; done).
  apply wp_ret, HQ. split; [done|]. intros i w Hi Hi'. apply Hv; [done|lia].
Qed.

(** The files that were created are not for reading. *)
Lemma file_read_exits off n f s : fl_readable f = false → file_read off n f s = Err Exited.
Proof. intros Hb. unfold file_read. by rewrite Hb. Qed.

Lemma io_read_page_exits ptr n d x A r s : disk x A r → io (gc s) = x → opened_as false x → is_Some (A !! d) → n ≤ PAGE_SIZE →
  io_read_page ptr n d s = Err Exited.
Proof.
  intros Hx <- Hop (f & Hf & Hst)%(dk_status _ _ _ Hx)%status_at_Some Hn.
  unfold io_read_page, massert, get_file, ios, gcs, gets, page_status, mbind, M_bind, mret, M_ret.
  rewrite bool_decide_eq_true_2, Hf by done. cbn [of_option mret M_ret]. unfold mret, M_ret. rewrite Hst. cbn [of_option].
  unfold mret, M_ret. rewrite bool_decide_eq_true_2 by done. rewrite file_read_exits; [done|by eapply opened_as_file].
Qed.

Lemma io_read_root_exits x s : io_ok x → io (gc s) = x → opened_as false x → io_read_root s = Err Exited.
Proof.
  intros Hx <- Hop. destruct (zlookup_lt (file (io (gc s))) 0) as [f Hf]; [pose proof (io_files _ Hx); lia|].
  unfold io_read_root, get_file, ios, gcs, gets, mbind, M_bind, mret, M_ret. rewrite Hf. cbn [of_option]. unfold mret, M_ret.
  rewrite file_read_exits; [done|by eapply opened_as_file].
Qed.

(** * Freeing a page *)

Lemma wp_io_free_disk_page d x A r s (Q : unit → state → Prop) : disk x A r → is_Some (A !! d) →
  (∀ x', disk x' (delete d A) r → length (file x') = length (file x) →
    number_of_free_disk_pages x' = number_of_free_disk_pages x + 1 → Q tt (put_io x' s)) →
  wp (io_free_disk_page d) Q (put_io x s).
Proof.
  intros Hx Hd HQ. pose proof (dk_ok _ _ _ Hx) as Hok. assert (Hst : status_at x d = Some ALLOCATED) by by apply (dk_status _ _ _ Hx).
  apply status_at_Some in Hst as (f & Hf & Hst). apply wp_bind. eapply wp_get_file; [exact Hf|].
  apply wp_bind. eapply wp_page_status; [exact Hst|]. rewrite bool_decide_eq_true_2 by done.
  apply zlookup_Some in Hf as Hr. destruct Hr as [Hr _]. pose proof (io_file _ Hok _ _ Hf) as Hfo.
  apply wp_bind. eapply wp_put_file; [exact Hf|]. apply wp_bind. eapply wp_get_file; [by apply zlookup_insert|].
  apply wp_bind. eapply wp_put_file; [by apply zlookup_insert|]. apply wp_bind, wp_ios, wp_set_ios.
  cbn [put_io io gc set_gc set_io with_file with_free_disk_pages file number_of_free_disk_pages fl_number_of_free_pages with_page_status].
  change (put_io ?y (set_gc ?g ?s')) with (put_io y s). rewrite zinsert_zinsert. apply zlookup_Some in Hst as Hb. destruct Hb as [Hb _].
  set (f' := with_free_pages _ _). assert (Hsame : ∀ i g, zlookup (file x) i = Some g → ∃ g',
    zlookup (zinsert (GET_FILE_NUMBER d) f' (file x)) i = Some g' ∧ fl_data g' = fl_data g ∧ fl_size g' = fl_size g ∧
    fl_number_of_pages g' = fl_number_of_pages g).
  { intros i g Hg. destruct (decide (GET_FILE_NUMBER d = i)) as [<-|Hne].
    - rewrite Hf in Hg. injection Hg as <-. exists f'. split; [by apply zlookup_insert|done].
    - exists g. rewrite zlookup_insert_ne by (done || lia). done. }
  apply HQ; [|simpl; by rewrite length_zinsert|done]. split; [split|..]; simpl.
  - rewrite length_zinsert. apply Hok.
  - rewrite length_zinsert. apply Hok.
  - intros i g [[<- <-]|[_ Hg]]%zlookup_insert_Some; [|by eapply io_file|done].
    split; simpl; rewrite ?length_zinsert; [apply Hfo..|].
    pose proof (free_count_insert _ _ _ FREE Hst) as E. rewrite bool_decide_eq_false_2, bool_decide_eq_true_2 in E by done.
    rewrite (fo_free _ Hfo). lia.
  - rewrite (total_free_insert _ _ _ _ Hf), (io_total _ Hok). simpl. lia.
  - intros d'. rewrite lookup_delete_is_Some, (dk_status _ _ _ Hx), !status_at_Some. simpl. split.
    + intros (Hne & g & Hg & Hs). destruct (decide (GET_FILE_NUMBER d = GET_FILE_NUMBER d')) as [E|Hne'].
      * rewrite <- E in *. rewrite Hf in Hg. injection Hg as <-. exists f'. split; [by apply zlookup_insert|]. simpl.
        rewrite zlookup_insert_ne; [done|lia|]. intros E'. apply Hne. rewrite (disk_page_eq d), (disk_page_eq d'). lia.
      * exists g. rewrite zlookup_insert_ne by (done || lia). done.
    + intros (g & [[E <-]|[Hne Hg]]%zlookup_insert_Some & Hs); [| |done].
      * simpl in Hs. apply zlookup_insert_Some in Hs as [[_ ?]|[Hne Hs]]; [done| |done].
        split; [by intros ->|]. exists f. by rewrite <- E.
      * split; [by intros ->|]. by exists g.
  - intros d' ws' [_ Hd']%lookup_delete_Some. destruct (dk_page _ _ _ Hx _ _ Hd') as (Hl & g & Hg & Hh).
    split; [done|]. destruct (Hsame _ _ Hg) as (g' & Hg' & Ed & Es & _). exists g'. split; [done|]. by eapply holds_same, Hh.
  - destruct (dk_root _ _ _ Hx) as [|(Hl & g & Hg & Hh)]; [by left|right]. split; [done|].
    destruct (Hsame _ _ Hg) as (g' & Hg' & Ed & Es & En). exists g'. split; [done|]. rewrite En. by eapply holds_same, Hh.
Qed.

(** * The root block *)

Lemma disk_root x A r f ws : disk x A r → zlookup (file x) FIXED_ROOT_DISK = Some f →
  length ws = Z.to_nat NUMBER_OF_ROOT_BLOCK_ITEMS →
  disk (with_file (zinsert FIXED_ROOT_DISK (file_write (page_offset (fl_number_of_pages f)) ws f) (file x)) x) A ws.
Proof.
  intros Hx Hf Hl. pose proof (dk_ok _ _ _ Hx) as Hok. apply zlookup_Some in Hf as Hr. destruct Hr as [Hr _].
  pose proof (io_file _ Hok _ _ Hf) as Hfo. destruct (file_write_fields (page_offset (fl_number_of_pages f)) ws f) as (E1 & E2 & E3 & E4).
  set (f' := file_write _ _ f) in *.
  assert (Hst : ∀ d, status_at (with_file (zinsert FIXED_ROOT_DISK f' (file x)) x) d = status_at x d).
  { intros d. unfold status_at. cbn [file with_file]. destruct (decide (FIXED_ROOT_DISK = GET_FILE_NUMBER d)) as [<-|Hne].
    - rewrite zlookup_insert by done. rewrite Hf. cbn [mbind option_bind]. by rewrite E3.
    - by rewrite zlookup_insert_ne by done. }
  split; [split|..]; cbn [file with_file file_cursor number_of_free_disk_pages].
  - rewrite length_zinsert. apply Hok.
  - rewrite length_zinsert. apply Hok.
  - intros i g [[<- <-]|[_ Hg]]%zlookup_insert_Some; [|by eapply io_file|done].
    split; rewrite ?E1, ?E2, ?E3, ?E4; apply Hfo.
  - rewrite (total_free_insert _ _ _ _ Hf), E2, (io_total _ Hok). lia.
  - intros d. rewrite Hst. apply (dk_status _ _ _ Hx).
  - intros d vs Hd. destruct (dk_page _ _ _ Hx _ _ Hd) as (Hvl & g & Hg & Hh). split; [done|].
    destruct (decide (FIXED_ROOT_DISK = GET_FILE_NUMBER d)) as [E|Hne].
    + rewrite <- E in *. rewrite Hf in Hg. injection Hg as <-. eexists. split; [by apply zlookup_insert|].
      apply holds_write; [done|]. intros i j Hi Hj. rewrite Hl in Hj. change (Z.to_nat NUMBER_OF_ROOT_BLOCK_ITEMS) with 128%nat in Hj.
      assert (Hd' : status_at x d = Some ALLOCATED) by (apply (dk_status _ _ _ Hx); eauto).
      apply status_at_Some in Hd' as (g & Hg & Hs). rewrite <- E, Hf in Hg. injection Hg as <-.
      apply zlookup_Some in Hs as [Hb _]. rewrite (fo_status _ Hfo) in Hb.
      apply page_offset_ne; [lia|change PAGE_SIZE with 65536 in *; lia..].
    + eexists. rewrite zlookup_insert_ne by done. done.
  - right. split; [done|]. eexists. split; [by apply zlookup_insert|]. rewrite E1. apply holds_written.
Qed.

(** The words of the root block that writing it needs. *)
Definition root_valid (r : list Z) : Prop :=
  length r = Z.to_nat NUMBER_OF_ROOT_BLOCK_ITEMS ∧ r !! root_ix_num ROOT_IX_magic_cookie = Some ROOT_MAGIC_COOKIE ∧
  (∃ hi lo, r !! root_ix_num ROOT_IX_time_stamp_hi = Some hi ∧ r !! root_ix_num ROOT_IX_time_stamp_lo = Some lo ∧
    is_word hi ∧ is_word lo).

(** [r'] is [r] with the next time stamp. *)
Definition next_stamp (r r' : list Z) : Prop :=
  ∃ hi lo hi' lo', r !! root_ix_num ROOT_IX_time_stamp_hi = Some hi ∧ r !! root_ix_num ROOT_IX_time_stamp_lo = Some lo ∧
    is_word hi' ∧ is_word lo' ∧ stamp hi' lo' = (stamp hi lo + 1) mod 2 ^ 64 ∧
    r' = <[root_ix_num ROOT_IX_time_stamp_lo := lo']> (<[root_ix_num ROOT_IX_time_stamp_hi := hi']> r).

Lemma wp_io_write_root x A r s (Q : unit → state → Prop) : disk x A r → root_valid (root s) →
  (∀ x' r', disk x' A (root s) → length (file x') = length (file x) →
    number_of_free_disk_pages x' = number_of_free_disk_pages x → next_stamp (root s) r' →
    Q tt (put_io x' (set_root r' s))) →
  wp io_write_root Q (put_io x s).
Proof.
  intros Hx (Hl & Hmagic & hi & lo & Hhi & Hlo & Whi & Wlo) HQ. pose proof (io_files _ (dk_ok _ _ _ Hx)) as Hn.
  destruct (zlookup_lt (file x) FIXED_ROOT_DISK) as [f Hf]; [change FIXED_ROOT_DISK with 0; lia|].
  apply wp_bind. eapply wp_get_root; [exact Hmagic|]. apply wp_bind, wp_assert; [done|].
  apply wp_bind. eapply wp_get_file; [exact Hf|]. apply wp_bind, wp_bind, wp_gets.
  change (root (put_io x s)) with (root s). rewrite bool_decide_eq_false_2 by (rewrite Hl; change NUMBER_OF_ROOT_BLOCK_ITEMS with 128; lia).
  apply wp_ret. rewrite take_ge by lia. apply wp_bind. eapply wp_put_file; [exact Hf|].
  eapply wp_increment_root_time_stamp; [exact Hhi|exact Hlo|done|done|]. intros hi' lo' W1 W2 E.
  apply (HQ _ _ (disk_root _ _ _ _ _ Hx Hf Hl)); [apply length_zinsert|done|]. by exists hi, lo, hi', lo'.
Qed.

Lemma wp_io_read_root A r s (Q : unit → state → Prop) : disk (io (gc s)) A r → opened_as true (io (gc s)) → root_valid r →
  (∀ r', next_stamp r r' → Q tt (set_root r' s)) → wp io_read_root Q s.
Proof.
  intros Hx Hop (Hl & Hmagic & hi & lo & Hhi & Hlo & Whi & Wlo) HQ.
  destruct (dk_root _ _ _ Hx) as [->|(_ & f & Hf & Hh)]; [discriminate Hl|]. apply wp_bind. eapply wp_get_file; [exact Hf|].
  apply wp_bind. pose proof (ho_size _ _ _ Hh 127) as Hs. rewrite Hl in Hs. change (Z.to_nat NUMBER_OF_ROOT_BLOCK_ITEMS) with 128%nat in *.
  specialize (Hs ltac:(lia)). eapply holds_read; [exact Hh|by eapply opened_as_file|lia|]. intros vs Hvl Hvs.
  assert (vs = r) as ->.
  { apply list_eq_same_length with (n := 128%nat); [done|done|]. intros i v w Hi Hv Hw. specialize (Hvs i w Hw Hi). congruence. }
  apply wp_bind, wp_modify. apply wp_bind. eapply wp_get_root; [exact Hmagic|]. rewrite bool_decide_eq_false_2 by by vm_compute.
  apply wp_bind, wp_ret, wp_bind. eapply wp_get_root; [exact Hmagic|]. rewrite bool_decide_eq_false_2 by (intros []; done).
  eapply wp_increment_root_time_stamp; [exact Hhi|exact Hlo|done|done|]. intros hi' lo' W1 W2 E. apply HQ. by exists hi, lo, hi', lo'.
Qed.

(** * Creating the files *)

(** What [io_init] leaves: files of some pages. *)
Definition files_valid (t : list file_t) : Prop :=
  0 < Z.of_nat (length t) ≤ 32 ∧ ∀ i f, zlookup t i = Some f → 0 < fl_number_of_pages f ≤ 2 ^ 27.

Definition created (f : file_t) : file_t :=
  with_free_pages (fl_number_of_pages f) (with_cursor 0 (with_all_status FREE (with_readable false f))).

Lemma created_ok f : 0 < fl_number_of_pages f ≤ 2 ^ 27 → file_ok (created f).
Proof.
  intros Hn. split; simpl; [done|rewrite length_replicate; lia|lia|].
  assert (E : ∀ n, free_count (replicate n FREE) = Z.of_nat n).
  { unfold free_count, status_count. induction n as [|n IH]; [done|]. rewrite replicate_S, filter_cons_True by done. rewrite length_cons. lia. }
  rewrite E. lia.
Qed.

(** The first [k] files are created. *)
Definition created_upto (k : nat) (t : list file_t) : list file_t :=
  imap (λ i f, if bool_decide (i < k)%nat then created f else f) t.

Lemma created_upto_lookup k t i : created_upto k t !! i = (λ f, if bool_decide (i < k)%nat then created f else f) <$> t !! i.
Proof. apply list_lookup_imap. Qed.

Lemma created_upto_S k t f : t !! k = Some f → zinsert (Z.of_nat k) (created f) (created_upto k t) = created_upto (S k) t.
Proof.
  intros Hk. pose proof (lookup_lt_Some _ _ _ Hk) as Hl. apply list_eq. intros i. unfold zinsert. rewrite Nat2Z.id, created_upto_lookup.
  destruct (decide (k = i)) as [<-|Hne].
  - rewrite list_lookup_insert_eq by (unfold created_upto; by rewrite length_imap). rewrite Hk. simpl. by rewrite bool_decide_eq_true_2 by lia.
  - rewrite list_lookup_insert_ne, created_upto_lookup by done. destruct (t !! i); [|done]. simpl.
    by rewrite (bool_decide_ext (i < k)%nat (i < S k)%nat) by lia.
Qed.

Lemma total_free_app t t' : total_free (t ++ t') = total_free t + total_free t'.
Proof. induction t as [|f t IH]; [done|]. cbn [app total_free foldr]. fold (total_free (t ++ t')) (total_free t). lia. Qed.

Lemma created_upto_0 t : created_upto 0 t = t.
Proof. apply list_eq. intros i. rewrite created_upto_lookup. by destruct (t !! i). Qed.

Lemma created_upto_all t : created_upto (length t) t = created <$> t.
Proof.
  apply list_eq. intros i. rewrite created_upto_lookup, list_lookup_fmap. destruct (t !! i) as [f|] eqn:Hi; [|done]. simpl.
  apply lookup_lt_Some in Hi. by rewrite bool_decide_eq_true_2.
Qed.

Lemma created_disk t n : files_valid t → n = total_free (created <$> t) → disk (IoState (created <$> t) 0 n) ∅ [].
Proof.
  intros [Hl Hn] ->. assert (Hget : ∀ i f, zlookup (created <$> t) i = Some f → ∃ g, f = created g ∧ 0 < fl_number_of_pages g ≤ 2 ^ 27).
  { intros i f [Hr Hf]%zlookup_Some. rewrite list_lookup_fmap in Hf. apply fmap_Some in Hf as (g & Hg & ->).
    exists g. split; [done|]. rewrite length_fmap in Hr. apply (Hn i). by apply zlookup_Some. }
  split; [split|..]; cbn [file file_cursor number_of_free_disk_pages]; rewrite ?length_fmap; [done|lia| |done|..].
  - intros i f (g & -> & Hg)%Hget. by apply created_ok.
  - intros d. rewrite lookup_empty, status_at_Some. split; [by intros [? ?]|]. intros (f & Hf & Hst). cbn [file] in Hf.
    destruct (Hget _ _ Hf) as (g & -> & _). apply zlookup_Some in Hst as [_ Hst]. simpl in Hst. by apply lookup_replicate in Hst as [? _].
  - intros d ws Hd. by rewrite lookup_empty in Hd.
  - by left.
Qed.

Lemma created_opened t c n : opened_as false (IoState (created <$> t) c n).
Proof. apply Forall_fmap, Forall_true. by intros f. Qed.

Lemma wp_io_create_file x s (Q : unit → state → Prop) : files_valid (file x) → number_of_free_disk_pages x = 0 →
  (let x' := IoState (created <$> file x) 0 (total_free (created <$> file x)) in disk x' ∅ [] → Q tt (put_io x' s)) →
  wp io_create_file Q (put_io x s).
Proof.
  intros Hv H0 HQ. apply wp_bind, wp_ios. cbn [put_io io gc set_gc set_io]. set (t := file x) in *. apply wp_bind.
  apply wp_for with (I := λ k _ s', s' = put_io (IoState (created_upto k t) (file_cursor x) (total_free (created <$> take k t))) s).
  - rewrite created_upto_0. simpl. unfold t. rewrite <- H0. by destruct x.
  - intros k [] s' Hk ->. destruct (lookup_lt_is_Some_2 _ _ Hk) as [f Hf].
    assert (Hr : 0 ≤ Z.of_nat k < Z.of_nat (length (created_upto k t))) by (unfold created_upto; rewrite length_imap; lia).
    assert (Hfz : zlookup (created_upto k t) (Z.of_nat k) = Some f).
    { apply zlookup_Some. rewrite Nat2Z.id, created_upto_lookup, Hf. simpl. rewrite bool_decide_eq_false_2 by lia. done. }
    apply wp_bind. eapply wp_put_file; [exact Hfz|]. apply wp_bind. eapply wp_put_file; [by apply zlookup_insert|].
    cbn [put_io io gc set_gc set_io with_file file]. rewrite zinsert_zinsert.
    apply wp_bind. eapply wp_put_file; [by apply zlookup_insert|].
    cbn [put_io io gc set_gc set_io with_file file]. rewrite zinsert_zinsert.
    apply wp_bind. eapply wp_get_file; [by apply zlookup_insert|].
    apply wp_bind. eapply wp_put_file; [by apply zlookup_insert|]. apply wp_bind, wp_ios, wp_set_ios.
    cbn [put_io io gc set_gc set_io with_file with_free_disk_pages file file_cursor number_of_free_disk_pages fl_number_of_pages with_cursor with_all_status with_readable].
    rewrite !zinsert_zinsert. fold (created f). rewrite (created_upto_S _ _ _ Hf).
    rewrite (take_S_r _ _ _ Hf), fmap_app, total_free_app. simpl. by rewrite Z.add_0_r.
  - intros [] s' ->. rewrite created_upto_all, firstn_all. apply wp_set_ios.
    apply HQ. by apply created_disk.
Qed.
End pages.
