(* ===== verification/Reopen.v ===== *)
(** Opening the files of a database again (io.c): what they hold can be read, and which
    disk pages are allocated is known from what is declared. *)

From S2P Require Import Prelude Generations Machine Celltypes Shades Root Bitops Cells Pages Smartptr Io.

(** * Sums over the files *)

Definition total_of (g : file_t → Z) (t : list file_t) : Z := foldr (λ f n, g f + n) 0 t.
Definition unknown_pages (f : file_t) : Z := status_count UNKNOWN (fl_status f).

Lemma total_of_insert g t i f f' : zlookup t i = Some f → total_of g (zinsert i f' t) = total_of g t - g f + g f'.
Proof.
  intros [_ Hi]%zlookup_Some. unfold zinsert. revert Hi. generalize (Z.to_nat i) as j.
  induction t as [|h t IH]; intros [|j] Hj; [done|done|..]; simpl in *; [injection Hj as ->; lia|].
  rewrite (IH _ Hj). lia.
Qed.

Lemma total_of_fmap g h t : total_of g (h <$> t) = total_of (g ∘ h) t.
Proof. induction t as [|f t IH]; [done|]. rewrite fmap_cons. simpl. by rewrite IH. Qed.

Lemma total_of_ext g h t : (∀ f, f ∈ t → g f = h f) → total_of g t = total_of h t.
Proof.
  induction t as [|f t IH]; intros Hg; [done|]. simpl. rewrite (Hg f), IH; [done| |by left]. intros f' Hf. apply Hg. by right.
Qed.

Lemma total_of_0 t : total_of (λ _, 0) t = 0.
Proof. induction t as [|f t IH]; [done|]. exact IH. Qed.

Lemma status_count_all c n : status_count c (replicate n c) = Z.of_nat n.
Proof. unfold status_count. induction n as [|n IH]; [done|]. rewrite replicate_S, filter_cons_True by done. rewrite length_cons. lia. Qed.

Lemma status_count_none c l : c ∉ l → status_count c l = 0.
Proof.
  unfold status_count. induction l as [|st l IH]; [done|]. intros [Hne Hl]%not_elem_of_cons. rewrite filter_cons_False by congruence. by apply IH.
Qed.

(** * How the files were opened

    The operations on open files leave them open for reading or for writing only, and
    of the size they have. *)

Definition mode_of (f : file_t) : bool * Z := (fl_readable f, fl_number_of_pages f).
Definition modes (x : io_state) : list (bool * Z) := mode_of <$> file x.

Definition keeps_mode {A} (m : M A) : Prop := ∀ s a s', m s = Ok a s' → modes (io (gc s')) = modes (io (gc s)).

Lemma modes_same x x' : modes x' = modes x → length (file x') = length (file x) ∧ total_of fl_number_of_pages (file x') =
  total_of fl_number_of_pages (file x) ∧ ∀ b, opened_as b x → opened_as b x'.
Proof.
  unfold modes, opened_as. generalize (file x) as t. generalize (file x') as t'. induction t' as [|f' t' IH]; intros [|f t]; try done.
  rewrite !fmap_cons. intros [= E1 E2 E3]. destruct (IH t E3) as (L & T & O). simpl. split_and!; [by rewrite L|by rewrite E2, T|].
  intros b [Hf Ht]%Forall_cons. apply Forall_cons. split; [congruence|by apply O].
Qed.

Lemma keeps_ret {A} (a : A) : keeps_mode (mret a).
Proof. by intros s a' s' [= _ <-]. Qed.

Lemma keeps_fail {A} e : keeps_mode (fail e : M A).
Proof. by intros s a s' [=]. Qed.

Lemma keeps_bind {A B} (m : M A) (k : A → M B) : keeps_mode m → (∀ a, keeps_mode (k a)) → keeps_mode (m ≫= k).
Proof.
  intros Hm Hk s a s'. unfold mbind, M_bind. destruct (m s) as [a1 s1|e] eqn:E; [|done]. intros Ek. etrans; [exact (Hk _ _ _ _ Ek)|].
  exact (Hm _ _ _ E).
Qed.

Lemma keeps_same {A} (m : M A) : (∀ s a s', m s = Ok a s' → io (gc s') = io (gc s)) → keeps_mode m.
Proof. by intros Hm s a s' ->%Hm. Qed.

Lemma keeps_gets {A} (f : state → A) : keeps_mode (gets f).
Proof. apply keeps_same. by intros s a s' [= _ <-]. Qed.

Lemma keeps_ios {A} (f : io_state → A) : keeps_mode (ios f).
Proof. apply keeps_gets. Qed.

Lemma keeps_of_option {A} (o : option A) : keeps_mode (of_option o).
Proof. destruct o; [apply keeps_ret|apply keeps_fail]. Qed.

Lemma keeps_massert b : keeps_mode (massert b).
Proof. destruct b; [apply keeps_ret|apply keeps_fail]. Qed.

Lemma keeps_load a : keeps_mode (load a).
Proof. apply keeps_same. intros s w s'. unfold load. by destruct (mem s !! a); intros [= _ <-]. Qed.

Lemma keeps_store a v : keeps_mode (store a v).
Proof. apply keeps_same. intros s w s'. unfold store. by destruct (mem s !! a); intros [= _ <-]. Qed.

Lemma keeps_set_root (f : state → list Z) : keeps_mode (modify (λ s, set_root (f s) s)).
Proof. apply keeps_same. by intros s [] s' [= <-]. Qed.

Lemma keeps_set_ios f : (∀ x, file (f x) = file x) → keeps_mode (set_ios f).
Proof. intros Hf s [] s' [= <-]. unfold modes. cbn [gc set_gc io set_io]. by rewrite Hf. Qed.

Lemma keeps_put_file i g : (∀ f, mode_of (g f) = mode_of f) → keeps_mode (put_file i g).
Proof.
  intros Hg s [] s'. unfold put_file, ios, gcs, gets, mbind, M_bind. destruct (zlookup _ i) as [f|] eqn:E; [|done].
  intros [= <-]. unfold modes. cbn [gc set_gc io set_io file with_file]. unfold zinsert. apply zlookup_Some in E as [_ E].
  rewrite list_fmap_insert, Hg. apply list_insert_id. by rewrite list_lookup_fmap, E.
Qed.

Lemma keeps_for {A} n (body : nat → A → M A) a : (∀ k a, keeps_mode (body k a)) → keeps_mode (for_ n body a).
Proof.
  intros Hbody. unfold for_. generalize 0%nat as k. revert a. induction n as [|n IH]; intros a k; [apply keeps_ret|].
  apply keeps_bind; [apply Hbody|]. intros a'. apply IH.
Qed.

Create HintDb mode.
#[export] Hint Resolve keeps_ret keeps_fail keeps_gets keeps_ios keeps_of_option keeps_massert keeps_load keeps_store keeps_set_root : mode.
#[export] Hint Extern 1 (keeps_mode (_ ≫= _)) => apply keeps_bind; [|intros ?] : mode.
#[export] Hint Extern 1 (keeps_mode (if ?b then _ else _)) => destruct b : mode.
#[export] Hint Extern 1 (keeps_mode (set_ios _)) => apply keeps_set_ios; reflexivity : mode.
#[export] Hint Extern 1 (keeps_mode (put_file _ _)) => apply keeps_put_file; reflexivity : mode.
#[export] Hint Extern 1 (keeps_mode (for_ _ _ _)) => apply keeps_for; intros ? ? : mode.
#[local] Ltac mode := auto 40 with mode.

Lemma keeps_get_file i : keeps_mode (get_file i).
Proof. unfold get_file. mode. Qed.
#[export] Hint Resolve keeps_get_file : mode.

Lemma keeps_page_status i f : keeps_mode (page_status i f).
Proof. apply keeps_of_option. Qed.
#[export] Hint Resolve keeps_page_status : mode.

Lemma keeps_search_pages n : keeps_mode (search_pages n).
Proof. induction n; cbn [search_pages]; mode. Qed.
#[export] Hint Resolve keeps_search_pages : mode.

Lemma keeps_search_files n : keeps_mode (search_files n).
Proof. induction n; cbn [search_files]; mode. Qed.
#[export] Hint Resolve keeps_search_files : mode.

Lemma keeps_read_words p n : keeps_mode (read_words p n).
Proof. revert p. induction n; intros p; cbn [read_words]; mode. Qed.
#[export] Hint Resolve keeps_read_words : mode.

Lemma keeps_store_words p ws : keeps_mode (store_words p ws).
Proof. revert p. induction ws; intros p; cbn [store_words]; mode. Qed.
#[export] Hint Resolve keeps_store_words : mode.

Lemma keeps_get_root x : keeps_mode (get_root x).
Proof. unfold get_root. mode. Qed.
#[export] Hint Resolve keeps_get_root : mode.

Lemma keeps_update_root i v : keeps_mode (update_root i v).
Proof. unfold update_root. mode. Qed.
#[export] Hint Resolve keeps_update_root : mode.

Lemma keeps_time_stamp : keeps_mode increment_root_time_stamp.
Proof. unfold increment_root_time_stamp, set_root_item. mode. Qed.
#[export] Hint Resolve keeps_time_stamp : mode.

Lemma mode_file_write off ws f : mode_of (file_write off ws f) = mode_of f.
Proof. by destruct ws. Qed.

Section keeps.
Context `{Params}.

Lemma keeps_file_read off n f : keeps_mode (file_read off n f).
Proof. unfold file_read. mode. Qed.
#[local] Hint Resolve keeps_file_read : mode.

Lemma keeps_put_write i off ws : keeps_mode (put_file i (file_write off ws)).
Proof. apply keeps_put_file. apply mode_file_write. Qed.
#[local] Hint Resolve keeps_put_write | 0 : mode.

Lemma keeps_io_write_page p n : keeps_mode (io_write_page p n).
Proof. unfold io_write_page, rd. mode. Qed.

Lemma keeps_io_read_page p n d : keeps_mode (io_read_page p n d).
Proof. unfold io_read_page, rd, wr. mode. Qed.

Lemma keeps_free_disk_page_of i j : keeps_mode (free_disk_page_of i j).
Proof. unfold free_disk_page_of. mode. Qed.
#[local] Hint Resolve keeps_free_disk_page_of : mode.

Lemma keeps_io_free_disk_page d : keeps_mode (io_free_disk_page d).
Proof. unfold io_free_disk_page. mode. Qed.

Lemma keeps_io_write_root : keeps_mode io_write_root.
Proof. unfold io_write_root, root_words. mode. Qed.

Lemma keeps_io_read_root : keeps_mode io_read_root.
Proof. unfold io_read_root. mode. Qed.

Lemma keeps_io_declare_disk_page_allocated d : keeps_mode (io_declare_disk_page_allocated d).
Proof. unfold io_declare_disk_page_allocated. mode. Qed.

Lemma keeps_io_declare_unallocated_pages_free : keeps_mode io_declare_unallocated_pages_free.
Proof. unfold io_declare_unallocated_pages_free. mode. Qed.
End keeps.

(** * Opening

    The pages of [A] whose numbers are in [S]. *)
Definition among (S : list Z) (A : gmap Z (list Z)) : gmap Z (list Z) := filter (λ c, c.1 ∈ S) A.

Lemma among_Some S A d ws : among S A !! d = Some ws ↔ A !! d = Some ws ∧ d ∈ S.
Proof. unfold among. rewrite map_lookup_filter_Some. done. Qed.

Lemma among_is_Some S A d : is_Some (among S A !! d) ↔ is_Some (A !! d) ∧ d ∈ S.
Proof.
  split; [intros [ws [H1 H2]%among_Some]; eauto|]. intros [[ws H1] H2]. exists ws. by apply among_Some.
Qed.

Section reopen.
Context `{Params}.

(** What the files hold, whatever the variables say about their pages. *)
Record files_hold (x : io_state) (A : gmap Z (list Z)) (r : list Z) : Prop := {
  fh_files : files_valid (file x);
  fh_page d ws : A !! d = Some ws → 4 * Z.of_nat (length ws) ≤ PAGE_SIZE ∧
    ∃ f, zlookup (file x) (GET_FILE_NUMBER d) = Some f ∧ GET_PAGE_NUMBER d < fl_number_of_pages f ∧
      holds f (page_offset (GET_PAGE_NUMBER d)) ws;
  fh_root : r = [] ∨ length r = Z.to_nat NUMBER_OF_ROOT_BLOCK_ITEMS ∧
    ∃ f, zlookup (file x) FIXED_ROOT_DISK = Some f ∧ holds f (page_offset (fl_number_of_pages f)) r
}.

(** After [io_open_file]: the pages [S] are known to be allocated. *)
Record opened (x : io_state) (A : gmap Z (list Z)) (r : list Z) (S : list Z) : Prop := {
  op_hold : files_hold x A r;
  op_disk : disk x (among S A) r;
  op_mode : opened_as true x;
  op_status d st : status_at x d = Some st → st = UNKNOWN ∨ st = ALLOCATED;
  op_known d : d ∈ S → is_Some (A !! d);
  op_free : number_of_free_disk_pages x = 0;
  op_count : total_of unknown_pages (file x) = total_of fl_number_of_pages (file x) - Z.of_nat (length S)
}.

Lemma files_hold_same x x' A r : length (file x') = length (file x) →
  (∀ i f, zlookup (file x) i = Some f → ∃ f', zlookup (file x') i = Some f' ∧ fl_number_of_pages f' = fl_number_of_pages f ∧
    fl_data f' = fl_data f ∧ fl_size f' = fl_size f) → files_hold x A r → files_hold x' A r.
Proof.
  intros Hl Hf [[F1 F2] Hp Hr]. split.
  - split; [by rewrite Hl|]. intros i f' Hf'. apply zlookup_Some in Hf' as Hb. destruct Hb as [Hb _]. rewrite Hl in Hb.
    destruct (zlookup_lt _ _ Hb) as [g Hg]. destruct (Hf i g Hg) as (f2 & Hf2 & E & _). assert (f2 = f') as -> by congruence. rewrite E. by apply (F2 i).
  - intros d ws Hd. destruct (Hp d ws Hd) as (Hlw & g & Hg & Hn & Hhg). split; [done|]. destruct (Hf _ g Hg) as (g' & Hg' & E1 & E2 & E3).
    exists g'. split; [done|]. rewrite E1. split; [done|]. by eapply holds_same, Hhg.
  - destruct Hr as [->|(Hr & f & Hf0 & Hh)]; [by left|right]. split; [done|].
    destruct (Hf _ f Hf0) as (f' & Hf' & E1 & E2 & E3). exists f'. split; [done|]. rewrite E1. by eapply holds_same, Hh.
Qed.

(** What a process has written the next one finds in the files. *)
Lemma disk_files_hold x A r : disk x A r → files_hold x A r.
Proof.
  intros Hx. pose proof (dk_ok _ _ _ Hx) as Hok. split.
  - split; [apply Hok|]. intros i f Hf. apply (io_file _ Hok _ _ Hf).
  - intros d ws Hd. destruct (dk_page _ _ _ Hx d ws Hd) as (Hl & f & Hf & Hh). split; [done|]. exists f. split; [done|]. split; [|done].
    assert (Hst : status_at x d = Some ALLOCATED) by (apply (dk_status _ _ _ Hx); eauto). apply status_at_Some in Hst as (g & Hg & Hs).
    assert (g = f) as -> by congruence. apply zlookup_Some in Hs as [Hb _]. pose proof (fo_status _ (io_file _ Hok _ _ Hf)). lia.
  - exact (dk_root _ _ _ Hx).
Qed.

(** ** Opening *)

Definition opened_file (f : file_t) : file_t := with_cursor 0 (with_readable true (with_free_pages 0 (with_all_status UNKNOWN f))).
Definition opened_upto (k : nat) (t : list file_t) : list file_t :=
  imap (λ i f, if bool_decide (i < k)%nat then opened_file f else f) t.

Lemma opened_upto_lookup k t i : opened_upto k t !! i = (λ f, if bool_decide (i < k)%nat then opened_file f else f) <$> t !! i.
Proof. apply list_lookup_imap. Qed.

Lemma opened_upto_S k t f : t !! k = Some f → zinsert (Z.of_nat k) (opened_file f) (opened_upto k t) = opened_upto (S k) t.
Proof.
  intros Hk. pose proof (lookup_lt_Some _ _ _ Hk) as Hl. apply list_eq. intros i. unfold zinsert. rewrite Nat2Z.id, opened_upto_lookup.
  destruct (decide (k = i)) as [<-|Hne].
  - rewrite list_lookup_insert_eq by (unfold opened_upto; by rewrite length_imap). rewrite Hk. simpl. by rewrite bool_decide_eq_true_2 by lia.
  - rewrite list_lookup_insert_ne, opened_upto_lookup by done. destruct (t !! i); [|done]. simpl.
    by rewrite (bool_decide_ext (i < k)%nat (i < S k)%nat) by lia.
Qed.

Lemma opened_upto_0 t : opened_upto 0 t = t.
Proof. apply list_eq. intros i. rewrite opened_upto_lookup. by destruct (t !! i). Qed.

Lemma opened_upto_all t : opened_upto (length t) t = opened_file <$> t.
Proof.
  apply list_eq. intros i. rewrite opened_upto_lookup, list_lookup_fmap. destruct (t !! i) as [f|] eqn:Hi; [|done]. simpl.
  apply lookup_lt_Some in Hi. by rewrite bool_decide_eq_true_2.
Qed.

Lemma zlookup_fmap {A B} (f : A → B) (l : list A) i : zlookup (f <$> l) i = f <$> zlookup l i.
Proof. unfold zlookup. rewrite length_fmap. case_bool_decide; [|done]. apply list_lookup_fmap. Qed.

Lemma opened_status t d c n st : status_at (IoState (opened_file <$> t) c n) d = Some st → st = UNKNOWN.
Proof.
  intros (f & Hf & Hs)%status_at_Some. cbn [file] in Hf. rewrite zlookup_fmap in Hf. apply fmap_Some in Hf as (g & _ & ->).
  apply zlookup_Some in Hs as [_ Hs]. simpl in Hs. by apply lookup_replicate in Hs as [? _].
Qed.

Lemma opened_total t : total_free (opened_file <$> t) = 0.
Proof. induction t as [|f t IH]; [done|]. rewrite fmap_cons. cbn [total_free foldr]. fold (total_free (opened_file <$> t)). by rewrite IH. Qed.

Lemma opened_files x A r : files_hold x A r → opened (IoState (opened_file <$> file x) 0 0) A r [].
Proof.
  intros Hh. pose proof (fh_files _ _ _ Hh) as [Hl Hn]. assert (Hh' : files_hold (IoState (opened_file <$> file x) 0 0) A r).
  { eapply files_hold_same, Hh; [apply length_fmap|]. intros i f Hf. exists (opened_file f). cbn [file]. rewrite zlookup_fmap, Hf. done. }
  split; [done| | |intros d st Hs; apply opened_status in Hs as ->; by left|by intros d ?%not_elem_of_nil|done|].
  2:{ apply Forall_fmap, Forall_true. by intros f. }
  2:{ cbn [file length]. rewrite !total_of_fmap, Z.sub_0_r. apply total_of_ext. intros f [i Hf]%list_elem_of_lookup. simpl.
      unfold unknown_pages. simpl. rewrite status_count_all. destruct (Hn (Z.of_nat i) f); [|lia]. apply zlookup_Some. rewrite Nat2Z.id.
      apply lookup_lt_Some in Hf as Hlt. split; [lia|done]. }
  split; [split|..]; cbn [file file_cursor number_of_free_disk_pages]; rewrite ?length_fmap; [done|lia| | | | |].
  - intros i f. rewrite zlookup_fmap. intros (g & Hg & ->)%fmap_Some. specialize (Hn i g Hg).
    split; simpl; [done|rewrite length_replicate; lia|lia|].
    unfold free_count, status_count. induction (Z.to_nat (fl_number_of_pages g)) as [|m IH]; [done|]. by rewrite replicate_S, filter_cons_False by done.
  - by rewrite opened_total.
  - intros d. rewrite among_is_Some. split; [by intros [_ ?%not_elem_of_nil]|]. intros Hs. by apply opened_status in Hs.
  - intros d ws [_ ?%not_elem_of_nil]%among_Some. done.
  - apply (fh_root _ _ _ Hh').
Qed.

Lemma wp_io_open_file x A r s (Q : unit → state → Prop) : files_hold x A r → number_of_free_disk_pages x = 0 →
  (∀ x', opened x' A r [] → length (file x') = length (file x) →
    total_of fl_number_of_pages (file x') = total_of fl_number_of_pages (file x) → Q tt (put_io x' s)) → wp io_open_file Q (put_io x s).
Proof.
  intros Hh H0 HQ. set (t := file x) in *. apply wp_bind, wp_ios. cbn [put_io io gc set_gc set_io]. apply wp_bind.
  apply wp_for with (I := λ k _ s', s' = put_io (IoState (opened_upto k t) (file_cursor x) 0) s).
  - rewrite opened_upto_0. unfold t. rewrite <- H0. by destruct x.
  - intros k [] s' Hk ->. change (file x) with t in Hk. destruct (lookup_lt_is_Some_2 _ _ Hk) as [f Hf].
    assert (Hr : 0 ≤ Z.of_nat k < Z.of_nat (length (opened_upto k t))) by (unfold opened_upto; rewrite length_imap; lia).
    assert (Hfz : zlookup (opened_upto k t) (Z.of_nat k) = Some f).
    { apply zlookup_Some. rewrite Nat2Z.id, opened_upto_lookup, Hf. simpl. rewrite bool_decide_eq_false_2 by lia. done. }
    apply wp_bind. eapply wp_put_file; [exact Hfz|]. apply wp_bind. eapply wp_put_file; [by apply zlookup_insert|].
    cbn [put_io io gc set_gc set_io with_file file]. rewrite zinsert_zinsert.
    apply wp_bind. eapply wp_put_file; [by apply zlookup_insert|].
    cbn [put_io io gc set_gc set_io with_file file]. rewrite zinsert_zinsert.
    eapply wp_put_file; [by apply zlookup_insert|]. cbn [put_io io gc set_gc set_io with_file file]. rewrite zinsert_zinsert.
    fold (opened_file f). by rewrite (opened_upto_S _ _ _ Hf).
  - intros [] s' ->. rewrite opened_upto_all. apply wp_set_ios.
    apply (HQ (IoState (opened_file <$> t) 0 0)); [by apply opened_files|apply length_fmap|]. cbn [file]. by rewrite total_of_fmap.
Qed.

(** ** Known pages *)

(** The statuses of the pages change, but not those of [FREE] and their numbers. *)
Lemma status_insert x i f p st d : zlookup (file x) i = Some f → 0 ≤ p < Z.of_nat (length (fl_status f)) →
  status_at (with_file (zinsert i (with_page_status p st f) (file x)) x) d =
  if decide (i = GET_FILE_NUMBER d ∧ p = GET_PAGE_NUMBER d) then Some st else status_at x d.
Proof.
  intros Hf Hp. apply zlookup_Some in Hf as Hb. destruct Hb as [Hb _]. unfold status_at. cbn [file with_file].
  destruct (decide (i = GET_FILE_NUMBER d)) as [<-|Hne].
  - rewrite zlookup_insert, Hf by done. cbn [mbind option_bind fl_status with_page_status]. destruct (decide (p = GET_PAGE_NUMBER d)) as [<-|Hne].
    + rewrite decide_True by done. by apply zlookup_insert.
    + rewrite decide_False by tauto. by apply zlookup_insert_ne; [lia|].
  - rewrite decide_False by tauto. by rewrite zlookup_insert_ne by (done || lia).
Qed.

Lemma same_file_after x i f p st : zlookup (file x) i = Some f → ∀ j g, zlookup (file x) j = Some g → ∃ g',
  zlookup (zinsert i (with_page_status p st f) (file x)) j = Some g' ∧ fl_number_of_pages g' = fl_number_of_pages g ∧
  fl_data g' = fl_data g ∧ fl_size g' = fl_size g.
Proof.
  intros Hf j g Hg. apply zlookup_Some in Hf as Hb. destruct Hb as [Hb _]. destruct (decide (i = j)) as [<-|Hne].
  - exists (with_page_status p st f). rewrite zlookup_insert by done. split; [done|]. by replace g with f by congruence.
  - exists g. rewrite zlookup_insert_ne by (done || lia). done.
Qed.

Lemma opened_known x A r S d f : opened x A r S → is_Some (A !! d) → d ∉ S → zlookup (file x) (GET_FILE_NUMBER d) = Some f →
  opened (with_file (zinsert (GET_FILE_NUMBER d) (with_page_status (GET_PAGE_NUMBER d) ALLOCATED f) (file x)) x) A r (d :: S).
Proof.
  intros [Hh Hd Hmo Hst Hk Hfr Hc] [ws Hws] HdS Hf. set (x' := with_file _ x). pose proof (dk_ok _ _ _ Hd) as Hok. pose proof (io_file _ Hok _ _ Hf) as Hfo.
  destruct (fh_page _ _ _ Hh d ws Hws) as (_ & f2 & Hf2 & Hpn & _). assert (f2 = f) as -> by congruence.
  assert (Hp0 : 0 ≤ GET_PAGE_NUMBER d) by (rewrite GET_PAGE_NUMBER_mod; apply Z.mod_pos_bound; lia).
  assert (Hpr : 0 ≤ GET_PAGE_NUMBER d < Z.of_nat (length (fl_status f))) by (rewrite (fo_status _ Hfo); lia).
  pose proof (same_file_after x _ f (GET_PAGE_NUMBER d) ALLOCATED Hf) as Hsame.
  assert (Hh' : files_hold x' A r) by (eapply files_hold_same, Hh; [apply length_zinsert|exact Hsame]).
  assert (Hs : ∀ e, status_at x' e = if decide (e = d) then Some ALLOCATED else status_at x e).
  { intros e. unfold x'. rewrite status_insert by done. apply decide_ext. split; [|by intros ->]. intros [E1 E2].
    by rewrite (disk_page_eq e), (disk_page_eq d), E1, E2. }
  destruct (zlookup_lt (fl_status f) (GET_PAGE_NUMBER d) Hpr) as [st0 Hst0].
  assert (Hat : status_at x d = Some st0) by (apply status_at_Some; by exists f).
  assert (st0 = UNKNOWN) as ->.
  { destruct (Hst d st0 Hat) as [->| ->]; [done|]. apply (dk_status _ _ _ Hd), among_is_Some in Hat. tauto. }
  split; [done| | |intros e st; rewrite Hs; case_decide; [intros [= <-]; by right|apply Hst]|intros e [->|He]%elem_of_cons; [by eexists|by apply Hk]|done|].
  2:{ apply Forall_insert; [exact Hmo|]. by eapply (opened_as_file _ _ _ f), Hf. }
  2:{ cbn [x' file with_file length]. rewrite !(total_of_insert _ _ _ _ _ Hf), Hc. unfold unknown_pages at 1 2. cbn [fl_status fl_number_of_pages with_page_status].
      pose proof (status_count_insert UNKNOWN _ _ _ ALLOCATED Hst0) as E. rewrite bool_decide_eq_true_2, bool_decide_eq_false_2 in E by done. lia. }
  split; [split|..]; cbn [x' file with_file file_cursor number_of_free_disk_pages]; rewrite ?length_zinsert; [apply Hok|apply Hok| | | | |].
  - intros i g [[<- <-]|[_ Hg]]%zlookup_insert_Some; [|by eapply io_file|by apply zlookup_Some in Hf as [? _]].
    split; simpl; rewrite ?length_zinsert; [apply Hfo..|]. pose proof (free_count_insert _ _ _ ALLOCATED Hst0) as E.
    rewrite !bool_decide_eq_false_2 in E by done. rewrite (fo_free _ Hfo). lia.
  - rewrite (total_free_insert _ _ _ _ Hf), (io_total _ Hok). simpl. lia.
  - intros e. rewrite Hs, among_is_Some, elem_of_cons. destruct (decide (e = d)) as [->|Hne].
    + split; [done|]. intros _. split; [by eexists|by left].
    + rewrite <- (dk_status _ _ _ Hd), among_is_Some. tauto.
  - intros e vs [He _]%among_Some. destruct (fh_page _ _ _ Hh' e vs He) as (Hl & g & Hg & _ & Hhg). split; [done|]. by exists g.
  - apply (fh_root _ _ _ Hh').
Qed.

Lemma wp_io_declare_disk_page_allocated d A r S s (Q : unit → state → Prop) : opened (io (gc s)) A r S → is_Some (A !! d) → d ∉ S →
  (∀ x', opened x' A r (d :: S) → length (file x') = length (file (io (gc s))) →
    total_of fl_number_of_pages (file x') = total_of fl_number_of_pages (file (io (gc s))) → Q tt (put_io x' s)) → wp (io_declare_disk_page_allocated d) Q s.
Proof.
  intros Ho Hd HdS HQ. pose proof Hd as [ws Hws]. destruct (fh_page _ _ _ (op_hold _ _ _ _ Ho) d ws Hws) as (_ & f & Hf & Hpn & _).
  pose proof (io_file _ (dk_ok _ _ _ (op_disk _ _ _ _ Ho)) _ _ Hf) as Hfo.
  apply wp_bind. eapply wp_get_file; [exact Hf|]. destruct (zlookup_lt (fl_status f) (GET_PAGE_NUMBER d)) as [st Hst].
  { rewrite (fo_status _ Hfo). rewrite GET_PAGE_NUMBER_mod in *. pose proof (Z.mod_pos_bound d (2 ^ 27)). lia. }
  apply wp_bind. eapply wp_page_status; [exact Hst|]. apply wp_bind, wp_assert.
  { apply bool_decide_eq_true_2. intros ->. destruct (op_status _ _ _ _ Ho d FREE); [|done..]. apply status_at_Some. by exists f. }
  eapply wp_put_file; [exact Hf|]. apply HQ; [by apply opened_known|apply length_zinsert|].
  cbn [file with_file]. rewrite (total_of_insert _ _ _ _ _ Hf). simpl. lia.
Qed.

(** ** The other pages are free *)

(** A page that nobody uses is declared free. *)
Definition page_declared (j : Z) (f : file_t) : file_t := with_free_pages (fl_number_of_free_pages f + 1) (with_page_status j FREE f).
Definition declared_free (i j : Z) (f : file_t) (x : io_state) : io_state :=
  IoState (zinsert i (page_declared j f) (file x)) (file_cursor x) (number_of_free_disk_pages x + 1).

Lemma wp_free_disk_page_of x s i j f (Q : unit → state → Prop) : zlookup (file x) i = Some f →
  Q tt (put_io (declared_free i j f x) s) → wp (free_disk_page_of i j) Q (put_io x s).
Proof.
  intros Hf HQ. apply zlookup_Some in Hf as Hb. destruct Hb as [Hb _].
  apply wp_bind. eapply wp_put_file; [exact Hf|]. apply wp_bind. eapply wp_get_file; [by apply zlookup_insert|].
  apply wp_bind. eapply wp_put_file; [by apply zlookup_insert|]. apply wp_bind, wp_ios, wp_set_ios.
  cbn [put_io io gc set_gc set_io with_file with_free_disk_pages file number_of_free_disk_pages]. rewrite zinsert_zinsert. exact HQ.
Qed.

Lemma declared_free_disk x A r i j f : disk x A r → zlookup (file x) i = Some f → zlookup (fl_status f) j = Some UNKNOWN →
  disk (declared_free i j f x) A r.
Proof.
  intros Hd Hf Hj. pose proof (dk_ok _ _ _ Hd) as Hok. pose proof (io_file _ Hok _ _ Hf) as Hfo. apply zlookup_Some in Hf as Hb. destruct Hb as [Hb _].
  apply zlookup_Some in Hj as Hjb. destruct Hjb as [Hjb _].
  assert (Hsame : ∀ k g, zlookup (file x) k = Some g → ∃ g', zlookup (file (declared_free i j f x)) k = Some g' ∧ fl_data g' = fl_data g ∧
    fl_size g' = fl_size g ∧ fl_number_of_pages g' = fl_number_of_pages g).
  { intros k g Hg. cbn [declared_free file]. destruct (decide (i = k)) as [<-|Hne].
    - eexists. split; [by apply zlookup_insert|]. replace g with f by congruence. done.
    - exists g. rewrite zlookup_insert_ne by (done || lia). done. }
  split; [split|..]; cbn [declared_free file file_cursor number_of_free_disk_pages]; rewrite ?length_zinsert; [apply Hok|apply Hok| | | | |].
  - intros k g [[<- <-]|[_ Hg]]%zlookup_insert_Some; [|by eapply io_file|done].
    split; simpl; rewrite ?length_zinsert; [apply Hfo..|]. pose proof (free_count_insert _ _ _ FREE Hj) as E.
    rewrite bool_decide_eq_false_2, bool_decide_eq_true_2 in E by done. rewrite (fo_free _ Hfo). lia.
  - rewrite (total_free_insert _ _ _ _ Hf), (io_total _ Hok). simpl. lia.
  - intros d. rewrite (dk_status _ _ _ Hd), !status_at_Some. cbn [declared_free file]. split.
    + intros (g & Hg & Hs). destruct (decide (i = GET_FILE_NUMBER d)) as [->|Hne].
      * exists (page_declared j f). rewrite zlookup_insert by done. split; [done|]. cbn [page_declared fl_status with_free_pages with_page_status].
        rewrite Hf in Hg. injection Hg as <-. rewrite zlookup_insert_ne; [done|lia|]. intros ->. congruence.
      * exists g. rewrite zlookup_insert_ne by (done || lia). done.
    + intros (g & [[E <-]|[Hne Hg]]%zlookup_insert_Some & Hs); [| |done].
      * cbn [page_declared fl_status with_free_pages with_page_status] in Hs. apply zlookup_insert_Some in Hs as [[_ ?]|[Hne Hs]]; [done| |done].
        exists f. by rewrite <- E.
      * by exists g.
  - intros d ws Hw. destruct (dk_page _ _ _ Hd d ws Hw) as (Hl & g & Hg & Hh). split; [done|]. destruct (Hsame _ _ Hg) as (g' & Hg' & E1 & E2 & _).
    exists g'. split; [done|]. by eapply holds_same, Hh.
  - destruct (dk_root _ _ _ Hd) as [|(Hl & g & Hg & Hh)]; [by left|right]. split; [done|]. destruct (Hsame _ _ Hg) as (g' & Hg' & E1 & E2 & E3).
    exists g'. split; [done|]. rewrite E3. by eapply holds_same, Hh.
Qed.

(** No page of the first [i] files and of the first [j] pages of the file [i] is unknown. *)
Record known_upto (x : io_state) (A : gmap Z (list Z)) (r : list Z) (n : nat) (c : Z) (i : nat) (j : Z) : Prop := {
  ku_disk : disk x A r;
  ku_count : number_of_free_disk_pages x + total_of unknown_pages (file x) = c;
  ku_length : length (file x) = n;
  ku_files k f : zlookup (file x) k = Some f → 0 ≤ k < Z.of_nat i → UNKNOWN ∉ fl_status f;
  ku_pages f : zlookup (file x) (Z.of_nat i) = Some f → ∀ k, 0 ≤ k < j → zlookup (fl_status f) k ≠ Some UNKNOWN
}.

Lemma known_page x A r n c i j f : known_upto x A r n c i (Z.of_nat j) → zlookup (file x) (Z.of_nat i) = Some f →
  zlookup (fl_status f) (Z.of_nat j) = Some UNKNOWN → known_upto (declared_free (Z.of_nat i) (Z.of_nat j) f x) A r n c i (Z.of_nat (S j)).
Proof.
  intros [Hd Hc Hn Hfs Hps] Hf Hj. apply zlookup_Some in Hf as Hb. destruct Hb as [Hb _]. apply zlookup_Some in Hj as Hjb. destruct Hjb as [Hjb _]. split.
  - by apply declared_free_disk.
  - cbn [declared_free file number_of_free_disk_pages]. rewrite (total_of_insert _ _ _ _ _ Hf). unfold unknown_pages at 2 3.
    cbn [page_declared fl_status with_free_pages with_page_status]. pose proof (status_count_insert UNKNOWN _ _ _ FREE Hj) as E.
    rewrite bool_decide_eq_true_2, bool_decide_eq_false_2 in E by done. lia.
  - cbn [declared_free file]. by rewrite length_zinsert.
  - intros k g Hg Hk. cbn [declared_free file] in Hg. rewrite zlookup_insert_ne in Hg by lia. by eapply Hfs.
  - intros g Hg k Hk. cbn [declared_free file] in Hg. rewrite zlookup_insert in Hg by done. injection Hg as <-.
    cbn [page_declared fl_status with_free_pages with_page_status]. destruct (decide (Z.of_nat j = k)) as [<-|Hne].
    + rewrite zlookup_insert by done. done.
    + rewrite zlookup_insert_ne by (done || lia). apply (Hps f Hf). lia.
Qed.

Lemma wp_io_declare_unallocated_pages_free x A r s (Q : unit → state → Prop) : disk x A r →
  (∀ x', disk x' A r → length (file x') = length (file x) →
    number_of_free_disk_pages x' = number_of_free_disk_pages x + total_of unknown_pages (file x) → Q tt (put_io x' s)) →
  wp io_declare_unallocated_pages_free Q (put_io x s).
Proof.
  intros Hd HQ. apply wp_bind, wp_ios. cbn [put_io io gc set_gc set_io]. set (n := length (file x)). set (c := _ + _) in HQ.
  apply wp_for with (I := λ i _ s', ∃ x', s' = put_io x' s ∧ known_upto x' A r n c i 0).
  - exists x. split; [done|]. split; [done|done|done|intros; lia|intros; lia].
  - intros i [] s' Hi (x1 & -> & Hk1). destruct (zlookup_lt (file x1) (Z.of_nat i)) as [f Hf]; [rewrite (ku_length _ _ _ _ _ _ _ Hk1); lia|].
    apply wp_bind. eapply wp_get_file; [exact Hf|]. pose proof (io_file _ (dk_ok _ _ _ (ku_disk _ _ _ _ _ _ _ Hk1)) _ _ Hf) as Hfo.
    apply wp_for with (I := λ j _ s', ∃ x', s' = put_io x' s ∧ known_upto x' A r n c i (Z.of_nat j) ∧
      ∃ g, zlookup (file x') (Z.of_nat i) = Some g ∧ fl_number_of_pages g = fl_number_of_pages f).
    + exists x1. split; [done|]. split; [done|]. by exists f.
    + intros j [] s' Hj (x2 & -> & Hk2 & g & Hg & Eg). pose proof (io_file _ (dk_ok _ _ _ (ku_disk _ _ _ _ _ _ _ Hk2)) _ _ Hg) as Hgo.
      pose proof (fo_pages _ Hgo). apply wp_bind. eapply wp_get_file; [exact Hg|].
      destruct (zlookup_lt (fl_status g) (Z.of_nat j)) as [st Hst]; [rewrite (fo_status _ Hgo); lia|].
      apply wp_bind. eapply wp_page_status; [exact Hst|]. destruct (decide (st = UNKNOWN)) as [->|Hne].
      * rewrite bool_decide_eq_true_2 by done. eapply wp_free_disk_page_of; [exact Hg|]. eexists. split; [done|]. split; [by apply known_page|].
        exists (page_declared (Z.of_nat j) g). cbn [declared_free file]. split; [|done]. apply zlookup_insert. by apply zlookup_Some in Hg as [? _].
      * rewrite bool_decide_eq_false_2 by done. apply wp_ret. exists x2. split; [done|]. split; [|by exists g]. destruct Hk2 as [K1 K0 K2 K3 K4].
        split; [done..|]. intros h Hh k Hk. replace h with g in * by congruence. destruct (decide (k = Z.of_nat j)) as [->|]; [congruence|].
        apply (K4 g Hg). lia.
    + intros [] s' (x2 & -> & [K1 K0 K2 K3 K4] & g & Hg & Eg). exists x2. split; [done|]. split; [done|done|done| |intros; lia].
      intros k h Hh Hk. destruct (decide (k = Z.of_nat i)) as [->|]; [|apply (K3 k h Hh); lia]. replace h with g in * by congruence.
      pose proof (io_file _ (dk_ok _ _ _ K1) _ _ Hg) as Hgo. pose proof (fo_pages _ Hgo). intros [m Hm]%list_elem_of_lookup.
      pose proof (lookup_lt_Some _ _ _ Hm) as Hml. apply (K4 g Hg (Z.of_nat m)); [pose proof (fo_status _ Hgo); lia|].
      apply zlookup_Some. rewrite Nat2Z.id. split; [lia|done].
  - intros [] s' (x' & -> & [K1 K0 K2 K3 K4]). apply HQ; [done|done|]. rewrite <- K0.
    assert (E : total_of unknown_pages (file x') = 0); [|lia]. etrans; [|exact (total_of_0 (file x'))]. apply total_of_ext.
    intros f [m Hf]%list_elem_of_lookup. apply status_count_none. apply lookup_lt_Some in Hf as Hlt. apply (K3 (Z.of_nat m)); [|lia].
    apply zlookup_Some. rewrite Nat2Z.id. split; [lia|done].
Qed.
End reopen.
