(* ===== verification/Disk.v ===== *)
(** Clients of io.c: the disk is a store of pages and a root block. *)

From S2P Require Import Prelude Generations Machine Celltypes Shades Root Bitops Cells Pages Smartptr Io Reopen.

(** A program that uses the disk. *)
Inductive io_client :=
| Done
| Create (next : io_client)
| Open (next : io_client)
| Declare_allocated (disk_page_number : Z) (next : io_client)
| Declare_unallocated_free (next : io_client)
| Write_page (ptr number_of_bytes : Z) (next : Z → io_client)
| Free_page (disk_page_number : Z) (next : io_client)
| Read_page (ptr number_of_bytes disk_page_number : Z) (next : io_client)
| Write_root (next : io_client)
| Read_root (next : io_client).

Section client.
Context `{Params}.

Fixpoint run_client (c : io_client) : M unit :=
  match c with
  | Done => mret tt
  | Create next => io_create_file;; run_client next
  | Open next => io_open_file;; run_client next
  | Declare_allocated d next => io_declare_disk_page_allocated d;; run_client next
  | Declare_unallocated_free next => io_declare_unallocated_pages_free;; run_client next
  | Write_page p n next => d ← io_write_page p n; run_client (next d)
  | Free_page d next => io_free_disk_page d;; run_client next
  | Read_page p n d next => io_read_page p n d;; run_client next
  | Write_root next => io_write_root;; run_client next
  | Read_root next => io_read_root;; run_client next
  end.

(** The files are not open yet; they are open and the pages [known] were declared
    allocated; or all their pages are allocated or free, and the files are open for
    reading too or for writing only. *)
Inductive phase :=
| Closed
| Recovering (known : list Z)
| Running (for_reading : bool).

(** What the program sees: the image, the root block in memory, the pages on disk and
    the root block on disk, and the number of free pages. *)
Record view := View {
  vw_phase : phase;
  vw_mem : gmap Z Z;
  vw_root : list Z;
  vw_pages : gmap Z (list Z);
  vw_disk_root : list Z;
  vw_free : Z
}.

(** The pages that are allocated. *)
Definition vw_allocated (v : view) : gmap Z (list Z) :=
  match vw_phase v with
  | Closed => ∅
  | Recovering known => among known (vw_pages v)
  | Running _ => vw_pages v
  end.

(** Files that were created are not for reading. *)
Definition for_reading (p : phase) : Prop :=
  match p with Closed => False | Recovering _ => True | Running b => b = true end.
#[export] Instance for_reading_dec p : Decision (for_reading p).
Proof. destruct p; apply _. Defined.

(** The specification, for [files] files of [total] pages together: the program may run
    from the view [v], and whatever unused numbers its pages get, it ends in a view that
    satisfies [Q], or by [exit] where [Q None] holds. *)
Fixpoint io_spec (files total : Z) (Q : option view → Prop) (c : io_client) (v : view) : Prop :=
  match c with
  | Done => Q (Some v)
  | Create next => vw_phase v = Closed ∧ io_spec files total Q next (View (Running false) (vw_mem v) (vw_root v) ∅ [] total)
  | Open next => vw_phase v = Closed ∧
      io_spec files total Q next (View (Recovering []) (vw_mem v) (vw_root v) (vw_pages v) (vw_disk_root v) 0)
  | Declare_allocated d next => ∃ known, vw_phase v = Recovering known ∧ is_Some (vw_pages v !! d) ∧ d ∉ known ∧
      io_spec files total Q next (View (Recovering (d :: known)) (vw_mem v) (vw_root v) (vw_pages v) (vw_disk_root v) (vw_free v))
  | Declare_unallocated_free next => ∃ known, vw_phase v = Recovering known ∧
      io_spec files total Q next (View (Running true) (vw_mem v) (vw_root v) (among known (vw_pages v)) (vw_disk_root v)
        (total - Z.of_nat (length known)))
  | Write_page p n next => ∃ b ws, vw_phase v = Running b ∧ words_at (vw_mem v) p ws ∧ length ws = Z.to_nat (round_up n / 4) ∧
      vw_mem v !! p = Some PAGE_MAGIC_COOKIE ∧ round_up n ≤ PAGE_SIZE ∧ files < vw_free v ∧
      ∀ d, vw_pages v !! d = None → io_spec files total Q (next d)
        (View (Running b) (vw_mem v) (vw_root v) (<[d := ws]> (vw_pages v)) (vw_disk_root v) (vw_free v - 1))
  | Free_page d next => ∃ b, vw_phase v = Running b ∧ is_Some (vw_pages v !! d) ∧
      io_spec files total Q next (View (Running b) (vw_mem v) (vw_root v) (delete d (vw_pages v)) (vw_disk_root v) (vw_free v + 1))
  | Read_page p n d next => ∃ ws, vw_allocated v !! d = Some ws ∧ n ≤ PAGE_SIZE ∧
      if decide (for_reading (vw_phase v)) then
        head ws = Some PAGE_MAGIC_COOKIE ∧ readable d ws (vw_disk_root v) n ∧ 4 ≤ n ∧
        (∀ i, 0 ≤ i < n / 4 → is_Some (vw_mem v !! (p + 4 * i))) ∧
        ∀ vs, read_from ws n vs → io_spec files total Q next
          (View (vw_phase v) (write_words p vs (vw_mem v)) (vw_root v) (vw_pages v) (vw_disk_root v) (vw_free v))
      else Q None
  | Write_root next => ∃ b, vw_phase v = Running b ∧ root_valid (vw_root v) ∧
      ∀ r, next_stamp (vw_root v) r →
        io_spec files total Q next (View (Running b) (vw_mem v) r (vw_pages v) (vw_root v) (vw_free v))
  | Read_root next => vw_phase v ≠ Closed ∧
      if decide (for_reading (vw_phase v)) then
        root_valid (vw_disk_root v) ∧
        ∀ r, next_stamp (vw_disk_root v) r →
          io_spec files total Q next (View (vw_phase v) (vw_mem v) r (vw_pages v) (vw_disk_root v) (vw_free v))
      else Q None
  end.

(** The program sees the state [s] as the view [v]. *)
Definition stores (p : phase) (x : io_state) (A : gmap Z (list Z)) (r : list Z) : Prop :=
  match p with
  | Closed => files_hold x A r ∧ number_of_free_disk_pages x = 0
  | Recovering known => opened x A r known
  | Running b => disk x A r ∧ opened_as b x
  end.

Record seen (files total : Z) (v : view) (s : state) : Prop := {
  sn_mem : mem s = vw_mem v;
  sn_root : root s = vw_root v;
  sn_free : number_of_free_disk_pages (io (gc s)) = vw_free v;
  sn_files : Z.of_nat (length (file (io (gc s)))) = files;
  sn_total : total_of fl_number_of_pages (file (io (gc s))) = total;
  sn_stores : stores (vw_phase v) (io (gc s)) (vw_pages v) (vw_disk_root v)
}.

(** Only the image, the root block and the disk change. *)
Definition same_but_disk (s s' : state) : Prop := ∃ m r x, s' = put_io x (set_root r (set_mem m s)).

Lemma same_but_disk_refl s : same_but_disk s s.
Proof. exists (mem s), (root s), (io (gc s)). by destruct s as [? ? ? ? ? ? ? ? []]. Qed.

Lemma same_but_disk_trans s1 s2 s3 : same_but_disk s1 s2 → same_but_disk s2 s3 → same_but_disk s1 s3.
Proof. intros (m & r & x & ->) (m' & r' & x' & ->). by exists m', r', x'. Qed.

(** What a run of a program from [s] has to give. *)
Definition outcome (files total : Z) (Q : option view → Prop) (s : state) (res : result unit) : Prop :=
  match res with
  | Ok _ s' => ∃ v', seen files total v' s' ∧ Q (Some v') ∧ same_but_disk s s'
  | Err e => e = Exited ∧ Q None
  end.

Lemma outcome_trans n t Q s1 s2 res : same_but_disk s1 s2 → outcome n t Q s2 res → outcome n t Q s1 res.
Proof.
  intros Hs. destruct res as [[] s'|e]; [|done]. intros (v' & H1 & H2 & H3). exists v'. split; [done|]. split; [done|].
  by eapply same_but_disk_trans.
Qed.

(** An operation that returns, and the rest of the program. *)
Lemma outcome_bind {A} n t Q s (m : M A) (k : A → M unit) P : wp m P s →
  (∀ a s', m s = Ok a s' → P a s' → same_but_disk s s' ∧ outcome n t Q s' (k a s')) → outcome n t Q s ((m ≫= k) s).
Proof.
  intros (a & s' & E & HP)%wp_inv HQ. destruct (HQ a s' E HP) as [H1 H2]. unfold mbind, M_bind. rewrite E. by eapply outcome_trans.
Qed.

Lemma outcome_exits {A} n t Q s (m : M A) (k : A → M unit) : m s = Err Exited → Q None → outcome n t Q s ((m ≫= k) s).
Proof. intros E HQ. unfold mbind, M_bind. by rewrite E. Qed.

Lemma wp_own_io {A} (m : M A) P s : wp m P (put_io (io (gc s)) s) → wp m P s.
Proof. by rewrite put_io_same. Qed.

Lemma same_but_disk_io x s : same_but_disk s (put_io x s).
Proof. exists (mem s), (root s), x. by destruct s. Qed.

Lemma same_but_disk_mem m s : same_but_disk s (set_mem m s).
Proof. exists m, (root s), (io (gc s)). by destruct s as [? ? ? ? ? ? ? ? []]. Qed.

Lemma same_but_disk_root r x s : same_but_disk s (put_io x (set_root r s)).
Proof. exists (mem s), r, x. by destruct s. Qed.

Lemma same_but_disk_set_root r s : same_but_disk s (set_root r s).
Proof. exists (mem s), r, (io (gc s)). by destruct s as [? ? ? ? ? ? ? ? []]. Qed.

Section operations.
Context (n t : Z).
#[local] Abbreviation seen := (seen n t).

Lemma seen_after v s v' s' : seen v s → modes (io (gc s')) = modes (io (gc s)) → mem s' = vw_mem v' → root s' = vw_root v' →
  number_of_free_disk_pages (io (gc s')) = vw_free v' → stores (vw_phase v') (io (gc s')) (vw_pages v') (vw_disk_root v') → seen v' s'.
Proof.
  intros [S1 S2 S3 S4 S5 S6] (L & T & _)%modes_same Hm Hr Hf Hs. split; [done..| | |done]; [by rewrite L|by rewrite T].
Qed.

(** A running program's files stay open as they are. *)
Lemma running_after b x x' A A' r r' : stores (Running b) x A r → modes x' = modes x → disk x' A' r' → stores (Running b) x' A' r'.
Proof. intros [_ Hb] (_ & _ & Ho)%modes_same Hx. split; [done|by apply Ho]. Qed.

Section rules.
Context (Q : option view → Prop) (v : view) (s : state) (Hv : seen v s).
(** The rest of the program does what its specification says. *)
#[local] Abbreviation goes_on next := (∀ v' s', seen v' s' → io_spec n t Q next v' → outcome n t Q s' (run_client next s')).

Lemma run_create next : goes_on next →
  io_spec n t Q (Create next) v → outcome n t Q s (run_client (Create next) s).
Proof.
  intros IH [Hp Hc]. pose proof Hv as [S1 S2 S3 S4 S5 S6]. rewrite Hp in S6. destruct S6 as [Hh H0].
  eapply (outcome_bind _ _ _ _ _ _ (λ _ s', let x' := IoState (created <$> file (io (gc s))) 0 (total_free (created <$> file (io (gc s)))) in
    disk x' ∅ [] ∧ s' = put_io x' s)).
  { apply wp_own_io. apply wp_io_create_file; [apply Hh|exact H0|]. by intros x' Hx. }
  intros [] s' _ [Hx ->]. split; [apply same_but_disk_io|]. eapply IH, Hc. split; cbn [put_io mem root gc set_gc io set_io file number_of_free_disk_pages].
  - exact S1.
  - exact S2.
  - rewrite <- S5. exact (total_of_fmap fl_number_of_free_pages created (file (io (gc s)))).
  - by rewrite length_fmap.
  - rewrite <- S5. exact (total_of_fmap fl_number_of_pages created (file (io (gc s)))).
  - split; [exact Hx|apply created_opened].
Qed.

Lemma run_open next : goes_on next →
  io_spec n t Q (Open next) v → outcome n t Q s (run_client (Open next) s).
Proof.
  intros IH [Hp Hc]. pose proof Hv as [S1 S2 S3 S4 S5 S6]. rewrite Hp in S6. destruct S6 as [Hh H0].
  eapply (outcome_bind _ _ _ _ _ _ (λ _ s', ∃ x', s' = put_io x' s ∧ opened x' (vw_pages v) (vw_disk_root v) [] ∧
    length (file x') = length (file (io (gc s))) ∧ total_of fl_number_of_pages (file x') = total_of fl_number_of_pages (file (io (gc s))))).
  { apply wp_own_io. eapply wp_io_open_file; [exact Hh|exact H0|]. eauto. }
  intros [] s' _ (x' & -> & Ho & L & T). split; [apply same_but_disk_io|]. eapply IH, Hc. split; cbn [put_io mem root gc set_gc io set_io].
  - exact S1.
  - exact S2.
  - exact (op_free _ _ _ _ Ho).
  - by rewrite L.
  - by rewrite T.
  - exact Ho.
Qed.

Lemma run_declare_allocated d next : goes_on next →
  io_spec n t Q (Declare_allocated d next) v → outcome n t Q s (run_client (Declare_allocated d next) s).
Proof.
  intros IH (S & Hp & Hd & HS & Hc). pose proof Hv as [S1 S2 S3 S4 S5 S6]. rewrite Hp in S6.
  eapply (outcome_bind _ _ _ _ _ _ (λ _ s', ∃ x', s' = put_io x' s ∧ opened x' (vw_pages v) (vw_disk_root v) (d :: S))).
  { eapply wp_io_declare_disk_page_allocated; [exact S6|exact Hd|exact HS|]. eauto. }
  intros [] s' E (x' & -> & Ho). split; [apply same_but_disk_io|]. eapply IH, Hc. eapply seen_after; [exact Hv| |exact S1|exact S2| |exact Ho].
  - exact (keeps_io_declare_disk_page_allocated d _ _ _ E).
  - cbn [put_io gc set_gc io set_io vw_free]. rewrite <- S3, (op_free _ _ _ _ Ho). by rewrite (op_free _ _ _ _ S6).
Qed.

Lemma run_declare_free next : goes_on next →
  io_spec n t Q (Declare_unallocated_free next) v → outcome n t Q s (run_client (Declare_unallocated_free next) s).
Proof.
  intros IH (S & Hp & Hc). pose proof Hv as [S1 S2 S3 S4 S5 S6]. rewrite Hp in S6.
  eapply (outcome_bind _ _ _ _ _ _ (λ _ s', ∃ x', s' = put_io x' s ∧ disk x' (among S (vw_pages v)) (vw_disk_root v) ∧
    number_of_free_disk_pages x' = t - Z.of_nat (length S))).
  { apply wp_own_io. eapply wp_io_declare_unallocated_pages_free; [exact (op_disk _ _ _ _ S6)|]. intros x' Hx _ Hf. exists x'.
    split; [done|]. split; [done|]. rewrite Hf, (op_free _ _ _ _ S6), (op_count _ _ _ _ S6), S5. lia. }
  intros [] s' E (x' & -> & Hx & Hf). split; [apply same_but_disk_io|]. pose proof (keeps_io_declare_unallocated_pages_free _ _ _ E) as Hm.
  eapply IH, Hc. eapply seen_after; [exact Hv|exact Hm|exact S1|exact S2|exact Hf|].
  split; [exact Hx|]. apply (modes_same _ _ Hm). exact (op_mode _ _ _ _ S6).
Qed.

Lemma run_write_page p k next : (∀ d, goes_on (next d)) →
  io_spec n t Q (Write_page p k next) v → outcome n t Q s (run_client (Write_page p k next) s).
Proof.
  intros IH (b & ws & Hp & Hws & Hl & Hm & Hk & Hroom & Hc). pose proof Hv as [S1 S2 S3 S4 S5 S6]. rewrite Hp in S6. rewrite <- S1 in Hws, Hm.
  eapply (outcome_bind _ _ _ _ _ _ (λ d s', vw_pages v !! d = None ∧ ∃ x', s' = put_io x' s ∧ disk x' (<[d := ws]> (vw_pages v)) (vw_disk_root v) ∧
    number_of_free_disk_pages x' = vw_free v - 1)).
  { apply wp_own_io. eapply wp_io_write_page; [apply S6|exact Hws|exact Hl|exact Hm|exact Hk|by rewrite S3, S4|].
    intros d x' Hd Hx _ Hf. split; [done|]. exists x'. split; [done|]. split; [done|]. by rewrite Hf, S3. }
  intros d s' E (Hd & x' & -> & Hx & Hf). split; [apply same_but_disk_io|]. pose proof (keeps_io_write_page p k _ _ _ E) as Hmo.
  eapply IH, (Hc d Hd). eapply seen_after; [exact Hv|exact Hmo|exact S1|exact S2|exact Hf|]. by eapply running_after.
Qed.

Lemma run_free_page d next : goes_on next →
  io_spec n t Q (Free_page d next) v → outcome n t Q s (run_client (Free_page d next) s).
Proof.
  intros IH (b & Hp & Hd & Hc). pose proof Hv as [S1 S2 S3 S4 S5 S6]. rewrite Hp in S6.
  eapply (outcome_bind _ _ _ _ _ _ (λ _ s', ∃ x', s' = put_io x' s ∧ disk x' (delete d (vw_pages v)) (vw_disk_root v) ∧
    number_of_free_disk_pages x' = vw_free v + 1)).
  { apply wp_own_io. eapply wp_io_free_disk_page; [apply S6|exact Hd|]. intros x' Hx _ Hf. exists x'.
    split; [done|]. split; [done|]. by rewrite Hf, S3. }
  intros [] s' E (x' & -> & Hx & Hf). split; [apply same_but_disk_io|]. pose proof (keeps_io_free_disk_page d _ _ _ E) as Hmo.
  eapply IH, Hc. eapply seen_after; [exact Hv|exact Hmo|exact S1|exact S2|exact Hf|]. by eapply running_after.
Qed.

(** The disk while the files can be read, and how they are open. *)
Lemma seen_reads : for_reading (vw_phase v) →
  disk (io (gc s)) (vw_allocated v) (vw_disk_root v) ∧ opened_as true (io (gc s)).
Proof.
  pose proof (sn_stores _ _ _ _ Hv) as S6. unfold vw_allocated. destruct (vw_phase v) as [|S|b]; [done| |].
  - intros _. split; [apply (op_disk _ _ _ _ S6)|apply (op_mode _ _ _ _ S6)].
  - intros Hb. simpl in Hb. subst b. exact S6.
Qed.

(** No page is allocated before the files are open, and those that are not for reading
    hold the pages of the program. *)
Lemma seen_exits : vw_phase v ≠ Closed → ¬ for_reading (vw_phase v) →
  disk (io (gc s)) (vw_allocated v) (vw_disk_root v) ∧ opened_as false (io (gc s)).
Proof.
  pose proof (sn_stores _ _ _ _ Hv) as S6. unfold vw_allocated. destruct (vw_phase v) as [|S|[]]; [done| |done|done].
  intros _ []. exact I.
Qed.

Lemma run_read_page p k d next : goes_on next →
  io_spec n t Q (Read_page p k d next) v → outcome n t Q s (run_client (Read_page p k d next) s).
Proof.
  intros IH (ws & Hd & Hk & Hc). pose proof Hv as [S1 S2 S3 S4 S5 S6]. destruct (decide (for_reading (vw_phase v))) as [Hr|Hr].
  - destruct Hc as (Hm & Hrd & Hk4 & Hmap & Hc). destruct (seen_reads Hr) as [Hx Ho]. rewrite <- S1 in Hmap.
    eapply (outcome_bind _ _ _ _ _ _ (λ _ s', ∃ vs, s' = set_mem (write_words p vs (mem s)) s ∧ read_from ws k vs)).
    { eapply wp_io_read_page; [exact Hx|exact Ho|exact Hd|exact Hm|exact Hrd|done|exact Hmap|]. eauto. }
    intros [] s' _ (vs & -> & Hvs). split; [apply same_but_disk_mem|]. rewrite S1. eapply IH, (Hc vs Hvs). by split.
  - apply outcome_exits; [|exact Hc]. destruct (seen_exits) as [Hx Ho]; [|exact Hr|].
    { intros E. unfold vw_allocated in Hd. by rewrite E, lookup_empty in Hd. }
    eapply io_read_page_exits; [exact Hx|done|exact Ho|by eexists|exact Hk].
Qed.

Lemma run_write_root next : goes_on next → io_spec n t Q (Write_root next) v → outcome n t Q s (run_client (Write_root next) s).
Proof.
  intros IH (b & Hp & Hr & Hc). pose proof Hv as [S1 S2 S3 S4 S5 S6]. rewrite Hp in S6. rewrite <- S2 in Hr, Hc.
  eapply (outcome_bind _ _ _ _ _ _ (λ _ s', ∃ x' r, s' = put_io x' (set_root r s) ∧ disk x' (vw_pages v) (root s) ∧
    number_of_free_disk_pages x' = vw_free v ∧ next_stamp (root s) r)).
  { apply wp_own_io. eapply wp_io_write_root; [apply S6|exact Hr|]. intros x' r Hx _ Hf Hst. exists x', r. by rewrite <- S3. }
  intros [] s' E (x' & r & -> & Hx & Hf & Hst). split; [apply same_but_disk_root|]. pose proof (keeps_io_write_root _ _ _ E) as Hmo.
  eapply IH, (Hc r Hst). eapply seen_after; [exact Hv|exact Hmo|exact S1|done|exact Hf|]. by eapply running_after.
Qed.

Lemma run_read_root next : goes_on next → io_spec n t Q (Read_root next) v → outcome n t Q s (run_client (Read_root next) s).
Proof.
  intros IH (Hp & Hc). pose proof Hv as [S1 S2 S3 S4 S5 S6]. destruct (decide (for_reading (vw_phase v))) as [Hr|Hr].
  - destruct Hc as (Hval & Hc). assert (Hx : disk (io (gc s)) (vw_allocated v) (vw_disk_root v) ∧ opened_as true (io (gc s))).
    { by apply seen_reads. }
    eapply (outcome_bind _ _ _ _ _ _ (λ _ s', ∃ r, s' = set_root r s ∧ next_stamp (vw_disk_root v) r)).
    { eapply wp_io_read_root; [apply Hx|apply Hx|exact Hval|]. eauto. }
    intros [] s' _ (r & -> & Hst). split; [apply same_but_disk_set_root|]. eapply IH, (Hc r Hst). by split.
  - apply outcome_exits; [|exact Hc]. destruct (seen_exits Hp Hr) as [Hx Ho].
    eapply io_read_root_exits; [apply Hx|done|exact Ho].
Qed.
End rules.

Lemma run_client_outcome Q c : ∀ v s, seen v s → io_spec n t Q c v → outcome n t Q s (run_client c s).
Proof.
  induction c as [|next IH|next IH|d next IH|next IH|p k next IH|d next IH|p k d next IH|next IH|next IH]; intros v s Hv Hc.
  - exists v. split; [done|]. split; [done|apply same_but_disk_refl].
  - by eapply run_create.
  - by eapply run_open.
  - by eapply run_declare_allocated.
  - by eapply run_declare_free.
  - by eapply run_write_page.
  - by eapply run_free_page.
  - by eapply run_read_page.
  - by eapply run_write_root.
  - by eapply run_read_root.
Qed.
End operations.

(** * The next process

    What [io_init] leaves in a process that finds the files of [x]. *)
Definition found (f : file_t) : file_t := File (fl_number_of_pages f) (fl_number_of_pages f) [] 0 false (fl_size f) (fl_data f).
Definition next_process (x : io_state) : io_state := IoState (found <$> file x) 0 0.

Lemma next_process_seen n t v s s' : seen n t v s → vw_phase v ≠ Closed → (∀ known, vw_phase v ≠ Recovering known) →
  seen n t (View Closed (mem s') (root s') (vw_pages v) (vw_disk_root v) 0) (put_io (next_process (io (gc s))) s').
Proof.
  intros [S1 S2 S3 S4 S5 S6] Hc Hr. destruct (vw_phase v) as [|S|b]; [done|by destruct (Hr S)|]. destruct S6 as [Hx _].
  split; cbn [put_io gc set_gc io set_io next_process file number_of_free_disk_pages]; [done|done|done|by rewrite length_fmap| |].
  - rewrite total_of_fmap. exact S5.
  - split; [|done]. apply (files_hold_same (io (gc s))); [apply length_fmap| |by apply disk_files_hold]. intros i f Hf. exists (found f).
    cbn [next_process file]. by rewrite zlookup_fmap, Hf.
Qed.
End client.

(** * Properties *)

Section properties.
Context `{Params}.

(** C7. io.c refines a store of pages and a root block.  A program that creates the
    files, or opens them, declares pages that they hold to be allocated and the rest
    free, then writes pages while there are more free pages than files, frees pages that
    are allocated and writes a root block with its cookie, and that reads allocated
    pages and the root block, returns, whatever page numbers it is given, except that
    reading ends in [exit] in the process that has created the files, which are open for
    writing only; every number is one that was unused; reading gives back what was
    written, by this process or the one before; nothing but the image, the root block
    and the disk changes. *)
Theorem io_client_correct files total Q c v s : seen files total v s → io_spec files total Q c v →
  match run_client c s with
  | Ok _ s' => ∃ v', seen files total v' s' ∧ Q (Some v') ∧ same_but_disk s s'
  | Err e => e = Exited ∧ Q None
  end.
Proof. apply run_client_outcome. Qed.

(** C39. When no file has more than one free page, [io_write_page] fails its
    assertion "This can't happen", although it has just checked that there are free
    pages. *)
Theorem io_write_page_fails ptr n A r s :
  disk (io (gc s)) A r → mem s !! ptr = Some PAGE_MAGIC_COOKIE → round_up n ≤ PAGE_SIZE →
  0 < number_of_free_disk_pages (io (gc s)) → (∀ f, f ∈ file (io (gc s)) → fl_number_of_free_pages f ≤ 1) →
  io_write_page ptr n s = Err AssertFailed.
Proof.
  intros Hx Hm Hn Hfree Hfew.
  assert (Hs : wp (search_files (length (file (io (gc s))))) (λ b _, b = false) s).
  { rewrite <- (put_io_same s) at 2. apply wp_search_files; [apply Hx|]. intros [] x' _ Hb; [|done].
    destruct Hb as [_ (f & Hf & Hmany)]. specialize (Hfew f Hf). lia. }
  apply wp_inv in Hs as (b & s' & E & ->). unfold io_write_page, rd, load, ios, gcs, gets, massert, mbind, M_bind, mret, M_ret.
  rewrite Z.mul_0_r, Z.add_0_r, Hm, bool_decide_eq_true_2, bool_decide_eq_true_2, bool_decide_eq_false_2 by (done || lia).
  by rewrite E.
Qed.
End properties.

(** * Examples *)

#[local] Existing Instance default_params.

(** Two blocks of memory, the first of which begins like a page, and a file of four
    pages. *)
Definition example_block : list Z := PAGE_MAGIC_COOKIE :: replicate 127 9.
Definition example_memory : gmap Z Z := write_words 0 example_block (write_words 1024 (replicate 128 0) ∅).
Definition example_files : list file_t := [File 4 0 [] 0 false 0 ∅].
Definition example_root : list Z := <[root_ix_num ROOT_IX_magic_cookie := ROOT_MAGIC_COOKIE]> (replicate 128 0).
Definition example_disk_state : state :=
  put_io (IoState example_files 0 0) (set_root example_root (set_mem example_memory (init_state 4 100 []))).

(** A process writes a page and the root block to new files, the next one reads them; but
    a process cannot read from the files that it has created. *)
Definition first_process : io_client := Create (Write_page 0 500 (λ _, Write_root Done)).
Definition second_process (d : Z) : io_client :=
  Open (Read_root (Declare_allocated d (Read_page 1024 512 d (Declare_unallocated_free (Free_page d Done))))).
Definition reads_created : io_client := Create (Write_page 0 500 (λ d, Read_page 1024 512 d Done)).

Lemma example_words : words_at example_memory 0 example_block.
Proof. intros i w Hi. by apply (lookup_write_words example_block 0). Qed.

Lemma example_mapped i : 0 ≤ i < 512 / 4 → is_Some (example_memory !! (1024 + 4 * i)).
Proof.
  change (512 / 4) with 128. intros Hi. exists 0. unfold example_memory. rewrite lookup_write_words_out.
  - replace i with (Z.of_nat (Z.to_nat i)) by lia. apply lookup_write_words. apply lookup_replicate. split; [done|lia].
  - intros j Hj. change (length example_block) with 128%nat in Hj. lia.
Qed.

Lemma example_root_valid : root_valid example_root.
Proof. split; [done|]. split; [done|]. by exists 0, 0. Qed.

Definition example_view : view := View Closed example_memory example_root ∅ [] 0.

Lemma example_seen : seen 1 4 example_view example_disk_state.
Proof.
  split; [done..|]. split; [|done]. split.
  - split; [done|]. intros i f [Hr Hf]%zlookup_Some. assert (i = 0) as -> by (simpl in Hr; lia). injection Hf as <-. done.
  - intros d ws Hd. cbn [vw_pages example_view] in Hd. by rewrite lookup_empty in Hd.
  - by left.
Qed.

Definition stored_block (o : option view) : Prop :=
  ∃ v d, o = Some v ∧ vw_phase v = Running false ∧ vw_pages v = {[d := example_block]} ∧ vw_disk_root v = example_root.

Lemma first_process_spec : io_spec 1 4 stored_block first_process example_view.
Proof.
  split; [done|]. exists false, example_block. split; [done|]. split; [apply example_words|]. split; [done|]. split; [done|]. split; [done|].
  split; [done|]. intros d _. exists false. split; [done|]. split; [apply example_root_valid|]. intros r _. by eexists _, d.
Qed.

Definition read_block (o : option view) : Prop := ∃ v, o = Some v ∧ words_at (vw_mem v) 1024 example_block ∧ vw_free v = 4.

Lemma second_process_spec d m : m = example_memory →
  io_spec 1 4 read_block (second_process d) (View Closed m example_root {[d := example_block]} example_root 0).
Proof.
  intros ->. split; [done|]. split; [done|]. split; [apply example_root_valid|]. intros r _. exists []. split; [done|].
  split; [eexists; apply lookup_singleton_eq|]. split; [by apply not_elem_of_nil|]. exists example_block.
  split; [apply among_Some; split; [apply lookup_singleton_eq|by left]|]. split; [done|]. split; [done|]. split; [by left|]. split; [done|].
  split; [apply example_mapped|]. intros vs [Hl Hvs]. exists [d]. split; [done|]. exists true. split; [done|]. split.
  { apply among_is_Some. split; [eexists; apply lookup_singleton_eq|by left]. }
  eexists. split; [done|]. split; [|done]. intros i w Hi. cbn [vw_mem]. apply lookup_write_words. apply Hvs; [done|]. rewrite Hl.
  apply lookup_lt_Some in Hi. change (length example_block) with 128%nat in Hi. change (Z.to_nat (512 / 4)) with 128%nat. lia.
Qed.

Lemma reads_created_spec : io_spec 1 4 (λ o, o = None) reads_created example_view.
Proof.
  split; [done|]. exists false, example_block. split; [done|]. split; [apply example_words|]. split; [done|]. split; [done|]. split; [done|].
  split; [done|]. intros d _. exists example_block. split; [apply lookup_insert_eq|]. by split.
Qed.

Lemma io_client_correct_witness :
  (∃ s1 d s2, run_client first_process example_disk_state = Ok tt s1 ∧
    run_client (second_process d) (put_io (next_process (io (gc s1))) example_disk_state) = Ok tt s2 ∧
    words_at (mem s2) 1024 example_block) ∧
  run_client reads_created example_disk_state = Err Exited.
Proof.
  split.
  - pose proof (io_client_correct 1 4 stored_block first_process _ _ example_seen first_process_spec) as H1.
    destruct (run_client first_process example_disk_state) as [[] s1|e] eqn:E1; [|by destruct H1 as (_ & ? & ? & [=] & _)].
    destruct H1 as (v1 & Hv1 & (? & d & [= <-] & Hp & HA & Hr) & _).
    assert (Hv2 : seen 1 4 (View Closed example_memory example_root {[d := example_block]} example_root 0)
      (put_io (next_process (io (gc s1))) example_disk_state)).
    { pose proof (next_process_seen 1 4 v1 s1 example_disk_state Hv1 ltac:(by rewrite Hp) ltac:(by rewrite Hp)) as Hn.
      rewrite HA, Hr in Hn. exact Hn. }
    pose proof (io_client_correct 1 4 read_block (second_process d) _ _ Hv2 (second_process_spec d _ eq_refl)) as H2.
    destruct (run_client (second_process d) _) as [[] s2|e] eqn:E2; [|by destruct H2 as (_ & ? & [=] & _)].
    destruct H2 as (v2 & Hs2 & (? & [= <-] & Hw & _) & _). exists s1, d, s2. split; [done|]. split; [exact E2|].
    rewrite (sn_mem _ _ _ _ Hs2). exact Hw.
  - pose proof (io_client_correct 1 4 (λ o, o = None) reads_created _ _ example_seen reads_created_spec) as H3.
    destruct (run_client reads_created example_disk_state) as [[] s3|e]; [|by destruct H3 as [-> _]].
    by destruct H3 as (v & _ & [=] & _).
Defined.

(** A file with a single free page. *)
Definition full_files : list file_t := [File 2 1 [ALLOCATED; FREE] 0 false 0 ∅].

Lemma io_write_page_fails_witness :
  io_write_page 0 512 (put_io (IoState full_files 0 1) example_disk_state) = Err AssertFailed.
Proof.
  apply (io_write_page_fails 0 512 {[0 := []]} []); [|by vm_compute|by vm_compute|done|by intros f ->%list_elem_of_singleton].
  split; [split|..].
  - done.
  - done.
  - intros i f [Hr Hf]%zlookup_Some. assert (i = 0) as -> by (simpl in Hr; lia). injection Hf as <-. by split.
  - done.
  - intros d. split.
    + intros [ws [<- _]%lookup_singleton_Some]. done.
    + intros (f & [Hr Hf]%zlookup_Some & [Hp Hs]%zlookup_Some)%status_at_Some.
      cbn [file put_io io gc set_gc set_io] in Hr, Hf. change (Z.of_nat (length full_files)) with 1 in Hr.
      assert (E : GET_FILE_NUMBER d = 0) by lia. rewrite E in Hf. injection Hf as <-.
      change (Z.of_nat (length _)) with 2 in Hp.
      assert (E' : GET_PAGE_NUMBER d = 0 ∨ GET_PAGE_NUMBER d = 1) by lia. destruct E' as [E'|E']; rewrite E' in Hs; [|done].
      rewrite (disk_page_eq d), E, E'. by rewrite lookup_singleton_eq.
  - intros d ws [<- <-]%lookup_singleton_Some. split; [done|]. eexists. split; [done|]. split; [done|]. simpl. lia.
  - by left.
Defined.

(** The last page of the second file is not written to its end, so that it cannot
    be read as a whole even when the files are open for reading. *)
Definition short_files : list file_t := [File 2 2 [FREE; FREE] 0 true 0 ∅; File 2 2 [FREE; FREE] 0 true 0 ∅].

Example io_read_page_short :
  (_ ← io_write_page 0 512; d ← io_write_page 0 512; io_read_page 0 PAGE_SIZE d)
    (put_io (IoState short_files 0 4) example_disk_state) = Err Exited ∧
  match (_ ← io_write_page 0 512; d ← io_write_page 0 512; io_read_page 0 512 d;; mret d)
    (put_io (IoState short_files 0 4) example_disk_state) with Ok d _ => d | Err _ => 0 end = MAKE_DISK_PAGE_NUMBER 1 0.
Proof. split; by vm_compute. Qed.
