(* ===== verification/Layout.v ===== *)
(** What the declaration blocks of cells-def.h say of a cell as a whole: which of its
    words they declare, and how often. *)

From stdpp Require Import strings.
From S2P Require Import Prelude Generations Machine Celltypes Shades Root Bitops Cells Pages Io.

(** * Running a block to see what it declares *)

Definition record (d : decl) (i : Z) (l : list (decl * Z)) : M (list (decl * Z) + Empty_set) := mret (inl (l ++ [(d, i)])).

Definition cell_fields (fuel : nat) (t : cell_type) (p p0 : Z) : M (list (decl * Z)) :=
  r ← field_declaration_block record fuel t p p0 [];
  match r with inl l => mret l | inr x => match (x : Empty_set) with end end.

(** The numbers [a], [a + 1], ..., of which there are [n]. *)
Definition from (a : Z) (n : nat) : list Z := (λ i : nat, a + Z.of_nat i) <$> seq 0 n.

Lemma from_S a n : from a (S n) = a :: from (a + 1) n.
Proof.
  unfold from. cbn [seq fmap list_fmap]. rewrite Z.add_0_r. f_equal. rewrite <- fmap_S_seq, <- list_fmap_compose.
  apply list_fmap_ext. intros i x _. simpl. lia.
Qed.

Lemma from_app a n m : from a (n + m) = from a n ++ from (a + Z.of_nat n) m.
Proof.
  revert a. induction n as [|n IH]; intros a; [by rewrite Z.add_0_r|]. cbn [Nat.add]. rewrite !from_S, IH. cbn [app].
  do 3 f_equal. lia.
Qed.

Lemma indices_from n : 0 ≤ n → indices n = from 1 (Z.to_nat n).
Proof. done. Qed.

Lemma from_in a n i : i ∈ from a n → a ≤ i < a + Z.of_nat n.
Proof. intros (j & -> & Hj)%list_elem_of_fmap. apply elem_of_seq in Hj. lia. Qed.

Lemma from_NoDup a n : NoDup (from a n).
Proof. apply NoDup_fmap_2; [|apply NoDup_seq]. intros i j. lia. Qed.

Section run.
Context (s : state).
#[local] Abbreviation R := (list (decl * Z) + Empty_set)%type.

Lemma wp_record_all l : ∀ a (Q : R → state → Prop), Q (inl (a ++ l)) s → wp (declare_all record l a) Q s.
Proof.
  induction l as [|[d i] l IH]; intros a Q HQ; [rewrite app_nil_r in HQ; by apply wp_ret|].
  apply wp_bind, wp_ret, IH. by rewrite <- app_assoc.
Qed.

Lemma wp_word m p ws i w (Q : Z → state → Prop) : mem s = m → words_at m p ws → 0 ≤ i → ws !! Z.to_nat i = Some w → Q w s → wp (rd p i) Q s.
Proof. intros <- Hws Hi Hw HQ. unfold rd. eapply wp_load; [|exact HQ]. rewrite <- (Z2Nat.id i) at 1 by done. by apply Hws. Qed.

(** ** Byte code *)

(** A sequence of instructions with their operands, [net_close] not among them. *)
Definition instruction (op : Z) (args : list Z) : Prop := ∃ name n imm, insn_of op = Some (name, n, imm) ∧
  name ≠ "net_close"%string ∧ n = 1 + Z.of_nat (length args).

Inductive instructions : list Z → Prop :=
| instructions_last op args : instruction op args → instructions (op :: args)
| instructions_next op args rest : instruction op args → instructions rest → instructions (op :: args ++ rest).

(** The operands are declared each once. *)
Lemma operands op name n imm : insn_of op = Some (name, n, imm) → name ≠ "net_close"%string → imm.*2 = indices (n - 1).
Proof.
  intros E Hne. destruct insn_operands as [H _]. rewrite Forall_forall in H. apply (H (name, n, imm)); [|done].
  unfold insn_of in E. case_bool_decide; [|done]. by eapply list_elem_of_lookup_2.
Qed.

Lemma wp_instruction p j pc op args a (Q : (Z * list (decl * Z)) + R → state → Prop) : instruction op args →
  mem s !! (p + 4 * pc) = Some op →
  (∀ fs, fs.*2 = from pc (S (length args)) → let pc' := pc + 1 + Z.of_nat (length args) in
    Q (if bool_decide (pc' < j) then inl (pc', a ++ fs) else inr (inl (a ++ fs))) s) →
  wp (bcode_insn record p j (pc, a)) Q s.
Proof.
  intros (name & n & imm & E & Hne & ->) Hop HQ. pose proof (operands _ _ _ _ E Hne) as Him.
  apply wp_bind, wp_ret, wp_bind. eapply wp_load; [exact Hop|]. rewrite E. apply wp_bind, wp_record_all.
  specialize (HQ ([(DECLARE_WORD, pc)] ++ ((λ '(d, k), (d, pc + k)) <$> imm))).
  replace (pc + (1 + Z.of_nat (length args))) with (pc + 1 + Z.of_nat (length args)) by lia. rewrite <- app_assoc.
  assert (Hfs : ([(DECLARE_WORD, pc)] ++ ((λ '(d, k), (d, pc + k)) <$> imm)).*2 = from pc (S (length args))).
  { rewrite from_S, fmap_app. cbn [fmap list_fmap app snd]. f_equal.
    transitivity ((Z.add pc) <$> imm.*2).
    - rewrite <- !list_fmap_compose. apply list_fmap_ext. by intros i [d k] _.
    - rewrite Him. unfold indices, from. replace (Z.to_nat (1 + Z.of_nat (length args) - 1)) with (length args) by lia.
      rewrite <- list_fmap_compose. apply list_fmap_ext. intros i x _. simpl. lia. }
  specialize (HQ Hfs). cbn zeta in HQ |- *. destruct (bool_decide _); by apply wp_ret.
Qed.

Lemma wp_code p j code : instructions code → ∀ fuel pc a (Q : R → state → Prop), words_at (mem s) (p + 4 * pc) code →
  j = pc + Z.of_nat (length code) → (length code ≤ fuel)%nat →
  (∀ fs, fs.*2 = from pc (length code) → Q (inl (a ++ fs)) s) → wp (loop fuel (bcode_insn record p j) (pc, a)) Q s.
Proof.
  induction 1 as [op args Hop|op args rest Hop Hrest IH]; intros [|fuel] pc a Q Hws Ej Hf HQ; [simpl in Hf; lia| |simpl in Hf; lia|].
  - apply words_at_cons in Hws as [Hw _]. apply wp_loop_S. eapply wp_instruction; [exact Hop|exact Hw|]. intros fs Hfs.
    cbn zeta. rewrite bool_decide_eq_false_2 by (simpl in Ej; lia). by apply HQ.
  - pose proof Hws as [Hw _]%words_at_cons. apply wp_loop_S. eapply wp_instruction; [exact Hop|exact Hw|]. intros fs Hfs.
    cbn [length] in Ej, Hf. rewrite length_app in Ej, Hf. assert (0 < length rest)%nat by by destruct Hrest; simpl; lia.
    cbn zeta. rewrite bool_decide_eq_true_2 by lia. apply IH; [|lia|lia|].
    + intros i w Hi. specialize (Hws (S (length args + i)) w). simpl in Hws. rewrite lookup_app_r in Hws by lia.
      replace (length args + i - length args)%nat with i in Hws by lia.
      specialize (Hws Hi). etrans; [|exact Hws]. f_equal. lia.
    + intros fs' Hfs'. rewrite <- app_assoc. apply HQ. rewrite fmap_app, Hfs, Hfs'. cbn [length]. rewrite length_app.
      replace (S (length args + length rest)) with (S (length args) + length rest)%nat by lia. rewrite from_app.
      do 2 f_equal. lia.
Qed.

Lemma wp_stack p j d : mem s !! (p + 4 * 2) = Some d → ∀ fuel i a (Q : R → state → Prop), 0 ≤ i ≤ d → (Z.to_nat (d - i) < fuel)%nat →
  (∀ fs, fs.*2 = from (j + i) (Z.to_nat (d - i)) → Q (inl (a ++ fs)) s) → wp (loop fuel (bcode_stack record p j) (i, a)) Q s.
Proof.
  intros Hd. induction fuel as [|fuel IH]; intros i a Q Hi Hf HQ; [lia|]. apply wp_loop_S, wp_bind. eapply wp_load; [exact Hd|].
  destruct (decide (i < d)) as [Hlt|Hge].
  - rewrite bool_decide_eq_true_2 by done. apply wp_bind, wp_ret, wp_ret, IH; [lia|lia|]. intros fs Hfs. rewrite <- app_assoc. apply HQ.
    replace (Z.to_nat (d - i)) with (S (Z.to_nat (d - (i + 1)))) by lia. rewrite from_S. cbn [app fmap list_fmap snd].
    f_equal. rewrite Hfs. f_equal. lia.
  - rewrite bool_decide_eq_false_2 by done. apply wp_ret. rewrite <- (app_nil_r a). apply HQ.
    by replace (Z.to_nat (d - i)) with 0%nat by lia.
Qed.

(** ** Words of which a descriptor tells the types *)

Definition described_type (ty : Z) : Prop := ty = WORD ∨ ty = PTR ∨ ty = NONNULL_PTR ∨ ty = TAGGED ∨ ty = VOID.

Lemma wp_declare_type ty i a (Q : R → state → Prop) : described_type ty →
  (∀ fs, fs.*2 = (if bool_decide (ty = VOID) then [] else [i]) → Q (inl (a ++ fs)) s) → wp (declare_type record ty i a) Q s.
Proof.
  intros Hty HQ. destruct Hty as [-> | [-> | [-> | [-> | -> ]]]]; try (apply wp_ret, HQ; done).
  apply wp_ret. rewrite <- (app_nil_r a). by apply HQ.
Qed.

(** The slots from [i] on whose types in [tys] are not [VOID]. *)
Fixpoint slots (i : Z) (tys : list Z) : list Z :=
  match tys with
  | [] => []
  | ty :: tys => (if bool_decide (ty = VOID) then [] else [i]) ++ slots (i + 1) tys
  end.

Lemma slots_in i tys x : x ∈ slots i tys → i ≤ x < i + Z.of_nat (length tys).
Proof.
  revert i. induction tys as [|ty tys IH]; intros i; [by intros ?%not_elem_of_nil|]. cbn [slots length].
  intros [Hx|Hx%IH]%elem_of_app; [|lia]. case_bool_decide; [by apply not_elem_of_nil in Hx|]. apply list_elem_of_singleton in Hx. lia.
Qed.

Lemma slots_NoDup i tys : NoDup (slots i tys).
Proof.
  revert i. induction tys as [|ty tys IH]; intros i; [apply NoDup_nil_2|]. cbn [slots]. apply NoDup_app. split; [|split; [|apply IH]].
  - case_bool_decide; [apply NoDup_nil_2|apply NoDup_singleton].
  - intros x Hx Hx'%slots_in. case_bool_decide; [by apply not_elem_of_nil in Hx|]. apply list_elem_of_singleton in Hx. lia.
Qed.

Lemma wp_declare_stack q tys : Forall described_type tys → ∀ i a (Q : R → state → Prop), words_at (mem s) (q + 4 * Z.of_nat i) tys →
  (∀ fs, fs.*2 = slots (3 + Z.of_nat i) tys → Q (inl (a ++ fs)) s) → wp (declare_stack record q i (length tys) a) Q s.
Proof.
  induction 1 as [|ty tys Hty _ IH]; intros i a Q Hws HQ; cbn [length declare_stack].
  - apply wp_ret. rewrite <- (app_nil_r a). by apply HQ.
  - apply words_at_cons in Hws as [Hw Hws]. apply wp_bind. eapply wp_load; [exact Hw|]. apply wp_bind, wp_declare_type; [done|].
    intros fs Hfs. apply IH; [by replace (q + 4 * Z.of_nat (S i)) with (q + 4 * Z.of_nat i + 4) by lia|].
    intros fs' Hfs'. rewrite <- app_assoc. apply HQ. rewrite fmap_app, Hfs, Hfs'. cbn [slots]. do 2 f_equal. lia.
Qed.
End run.

(** * The cells whose blocks can be run

    [bcode_words ws code tys]: the words of a byte code with the instructions
    [code], whose stack slots have the types [tys]. *)
Inductive bcode_words : list Z → list Z → list Z → Prop :=
| bcode_words_intro w0 accu reusable max_allocation cont_words code tys : instructions code →
    Z.of_nat (7 + (length code + length tys)) < 2 ^ 26 →
    bcode_words ([w0; accu; Z.of_nat (length tys); Z.of_nat (length code); reusable; max_allocation; cont_words] ++ code ++ tys)
      code tys.

(** [code_at m b code tys]: at [b] is such a byte code, or a forward pointer to it. *)
Inductive code_at (m : gmap Z Z) : Z → list Z → list Z → Prop :=
| code_here b ws low code tys : words_at m b ws → ws !! 0%nat = Some (header CELL_bcode low) → 0 ≤ low < 2 ^ 24 →
    bcode_words ws code tys → code_at m b code tys
| code_forwarded b q ws low code tys : words_at m b [header CELL_forward_pointer low; q] → 0 ≤ low < 2 ^ 24 →
    words_at m q ws → bcode_words ws code tys → code_at m b code tys.

(** [described m t low ws ixs]: the words [ws] are a cell of type [t], and [ixs]
    are the indices of the words that it declares. *)
Inductive described (m : gmap Z Z) : cell_type → Z → list Z → list Z → Prop :=
| described_simple t low ws fs : (t = CELL_ist234 → low ≠ 0) →
    simple_cell t (header t low) = Some (Z.of_nat (length ws), fs) →
    described m t low ws (indices (Z.of_nat (length ws) - 1))
| described_bcode low ws code tys : bcode_words ws code tys →
    described m CELL_bcode low ws (indices (Z.of_nat (length ws) - 1))
| described_cont low w0 b next ws code tys depth : code_at m b code tys → Forall described_type tys →
    depth = (if bool_decide (Z.land low 0xFFF = 0xFFF) then length tys else Z.to_nat (Z.land low 0xFFF)) →
    (depth ≤ length tys)%nat → (depth ≤ length ws)%nat → Z.land (Z.shiftr low 12) 0xFFF = 3 + Z.of_nat (length ws) →
    described m CELL_cont low (w0 :: b :: next :: ws) ([1; 2] ++ slots 3 (take depth tys))
| described_context low ws : length ws = 5%nat → described_type low →
    described m CELL_context low ws ([1] ++ slots 2 [low] ++ [3; 4])
| described_generation_pinfo low ws : Z.of_nat (length ws) = 4 + 2 * Z.land low 0xFFF →
    Z.land low 0xFFF < MAX_GENERATION_SIZE →
    described m CELL_generation_pinfo low ws (indices (Z.of_nat (length ws) - 1)).

Lemma header_mask_low t low k : 0 ≤ k ≤ 24 → Z.land (header t low) (Z.ones k) = Z.land low (Z.ones k).
Proof.
  intros Hk. rewrite header_add, !Z.land_ones by lia.
  replace (cell_tag t * 2 ^ 24) with (cell_tag t * 2 ^ (24 - k) * 2 ^ k).
  - by rewrite Z.add_comm, Z.mod_add by lia.
  - rewrite <- Z.mul_assoc, <- Z.pow_add_r by lia. do 2 f_equal. lia.
Qed.

Lemma header_shift_low t low : 0 ≤ low < 2 ^ 24 → Z.land (shr32 (header t low) 12) 0xFFF = Z.land (Z.shiftr low 12) 0xFFF.
Proof.
  intros Hlow. change 0xFFF with (Z.ones 12). unfold shr32. rewrite header_add, !Z.land_ones, !Z.shiftr_div_pow2 by lia.
  change (2 ^ 24) with (2 ^ 12 * 2 ^ 12). rewrite Z.mul_assoc, Z.add_comm, Z.div_add, Z.mod_add by lia. done.
Qed.

Lemma words_at_part m p ws l1 l l2 : words_at m p ws → ws = l1 ++ l ++ l2 → words_at m (p + 4 * Z.of_nat (length l1)) l.
Proof.
  intros Hws E k x Hk. rewrite <- Z.add_assoc, <- Z.mul_add_distr_l, <- Nat2Z.inj_add. apply Hws.
  rewrite E, lookup_app_r, Nat.add_sub_swap, Nat.sub_diag by lia. by apply lookup_app_l_Some.
Qed.

Section blocks.
Context (s : state).
#[local] Abbreviation R := (list (decl * Z) + Empty_set)%type.

Lemma wp_bcode_block p ws code tys fuel (Q : R → state → Prop) : words_at (mem s) p ws → bcode_words ws code tys →
  (length ws < fuel)%nat →
  (∀ fs, fs.*2 = indices (Z.of_nat (length ws) - 1) → Q (inl fs) s) → wp (bcode_block record fuel p []) Q s.
Proof.
  intros Hws Hb Hf HQ. destruct Hb as [w0 accu reu mx cw code tys Hcode Hlt].
  set (ws := [w0; accu; Z.of_nat (length tys); Z.of_nat (length code); reu; mx; cw] ++ code ++ tys) in *.
  assert (Hlen : length ws = (7 + (length code + length tys))%nat) by (unfold ws; by rewrite !length_app).
  unfold bcode_block. apply wp_bind. eapply (wp_word s _ p ws 3); [done|exact Hws|done|done|].
  assert (Ej : w32 (Z.of_nat (length code) + 7) = 7 + Z.of_nat (length code)).
  { rewrite Z.add_comm. apply w32_small. unfold is_word. rewrite word_modulus_val. lia. }
  rewrite Ej. apply wp_bind, wp_record_all. rewrite app_nil_l.
  apply wp_bind. eapply wp_code; [exact Hcode|eapply (words_at_part _ p ws [_; _; _; _; _; _; _]); [exact Hws|reflexivity]|done|lia|].
  intros fs Hfs. eapply (wp_stack _ _ _ (Z.of_nat (length tys))); [|lia|lia|].
  { by apply (Hws 2%nat). }
  intros fs' Hfs'. rewrite <- app_assoc. apply HQ. rewrite !fmap_app, fields_from_indices, Hfs, Hfs', Hlen.
  rewrite indices_from by lia.
  replace (Z.to_nat (Z.of_nat (7 + (length code + length tys)) - 1)) with (6 + (length code + length tys))%nat by lia.
  rewrite !from_app. do 2 f_equal. f_equal; lia.
Qed.

Lemma wp_type_of m p ws t low (Q : option cell_type → state → Prop) : mem s = m → words_at m p ws →
  ws !! 0%nat = Some (header t low) → 0 ≤ low < 2 ^ 24 → Q (Some t) s → wp (CELL_TYPE p) Q s.
Proof.
  intros Em Hws Hw Hlow HQ. apply wp_bind. eapply (wp_word s); [exact Em|exact Hws|done|exact Hw|].
  apply wp_ret. by rewrite header_type.
Qed.

Lemma wp_find_code {A} b code tys (k : Z → M A) (Q : A → state → Prop) : code_at (mem s) b code tys →
  (∀ q ws, words_at (mem s) q ws → bcode_words ws code tys → wp (k q) Q s) →
  wp (t ← CELL_TYPE b; q ← (if bool_decide (t = Some CELL_forward_pointer) then rd b 1 else mret b); k q) Q s.
Proof.
  intros Hb HQ. apply wp_bind. destruct Hb as [b ws low code tys Hws Hw Hlow Hb|b q ws low code tys Hf Hlow Hws Hb].
  - eapply wp_type_of; [done|exact Hws|exact Hw|done|]. apply wp_bind, wp_ret. by eapply HQ.
  - eapply wp_type_of; [done|exact Hf|done|done|]. apply wp_bind.
    eapply (wp_word s _ b _ 1); [done|exact Hf|done|done|]. by eapply HQ.
Qed.

Lemma wp_cont_block p p0 w0 b next ws code tys depth (Q : R → state → Prop) : words_at (mem s) p (w0 :: b :: next :: ws) →
  code_at (mem s) b code tys → Forall described_type tys →
  depth = (if bool_decide (Z.land p0 0xFFF = 0xFFF) then length tys else Z.to_nat (Z.land p0 0xFFF)) →
  (depth ≤ length tys)%nat → 0 ≤ Z.land p0 0xFFF →
  (∀ fs, fs.*2 = [1; 2] ++ slots 3 (take depth tys) → Q (inl fs) s) → wp (cont_block record p p0 []) Q s.
Proof.
  intros Hws Hb Htys Ed Hd H0 HQ. do 2 apply wp_bind, wp_ret. apply wp_bind.
  eapply (wp_word s _ p _ 1); [done|exact Hws|done|done|].
  eapply wp_find_code; [exact Hb|]. intros q cws Hq Hc. destruct Hc as [cw0 accu reu mx cw code tys Hcode Hlt].
  apply wp_bind.
  assert (Hdepth : ∀ Q' : Z → state → Prop, Q' (Z.of_nat depth) s →
    wp (if bool_decide (Z.land p0 0xFFF = 0xFFF) then rd q 2
        else d ← rd q 2; massert (bool_decide (Z.land p0 0xFFF ≤ d));; mret (Z.land p0 0xFFF)) Q' s).
  { intros Q' HQ'. case_bool_decide as E.
    - eapply (wp_word s _ q _ 2); [done|exact Hq|done|done|]. by rewrite <- Ed.
    - apply wp_bind. eapply (wp_word s _ q _ 2); [done|exact Hq|done|done|].
      apply wp_bind, wp_assert; [apply bool_decide_eq_true; lia|]. apply wp_ret.
      by replace (Z.land p0 0xFFF) with (Z.of_nat depth) by lia. }
  apply Hdepth. apply wp_bind. eapply (wp_word s _ q _ 3); [done|exact Hq|done|done|].
  rewrite w32_small by (unfold is_word; rewrite word_modulus_val; lia). rewrite Nat2Z.id.
  pose proof (length_take_le tys depth Hd) as Elen. cbn zeta. set (q' := q + _).
  rewrite <- Elen. eapply wp_declare_stack; unfold q'.
  - by apply Forall_take.
  - replace (q + 4 * (7 + Z.of_nat (length code)) + 4 * Z.of_nat 0) with
      (q + 4 * Z.of_nat (length ([cw0; accu; Z.of_nat (length tys); Z.of_nat (length code); reu; mx; cw] ++ code)))
      by (rewrite length_app; simpl; lia).
    eapply (words_at_part _ _ _ _ _ (drop depth tys)); [exact Hq|]. by rewrite take_drop, <- app_assoc.
  - intros fs Hfs. apply HQ. cbn [app fmap list_fmap snd]. by rewrite Hfs.
Qed.

Lemma wp_context_block p0 (Q : R → state → Prop) : described_type (Z.land p0 0xFFFFFF) →
  (∀ fs, fs.*2 = [1] ++ slots 2 [Z.land p0 0xFFFFFF] ++ [3; 4] → Q (inl fs) s) → wp (context_block record p0 []) Q s.
Proof.
  intros Hty HQ. apply wp_bind, wp_ret, wp_bind, wp_declare_type; [done|]. intros fs Hfs.
  do 2 apply wp_bind, wp_ret || apply wp_ret. apply HQ. rewrite !fmap_app, Hfs. cbn [slots]. by rewrite app_nil_r, <- !app_assoc.
Qed.

Lemma wp_generation_pinfo_block p0 (Q : R → state → Prop) : 0 ≤ Z.land p0 0xFFF < MAX_GENERATION_SIZE →
  (∀ fs, fs.*2 = indices (3 + 2 * Z.land p0 0xFFF) → Q (inl fs) s) → wp (generation_pinfo_block record p0 []) Q s.
Proof.
  intros Hn HQ. apply wp_bind, wp_record_all, wp_bind, wp_assert; [apply bool_decide_eq_true; lia|]. apply wp_ret, HQ.
  rewrite indices_app by lia. cbn [app fmap list_fmap snd]. by rewrite fields_from_indices.
Qed.

(** Every described cell has the size of its words, and runs its block. *)
Lemma wp_described m p t low ws ixs fuel (Q : R → state → Prop) : mem s = m → words_at m p ws →
  ws !! 0%nat = Some (header t low) → 0 ≤ low < 2 ^ 24 → described m t low ws ixs → (length ws < fuel)%nat →
  (∀ fs, fs.*2 = ixs → Q (inl fs) s) → wp (field_declaration_block record fuel t p (header t low) []) Q s.
Proof.
  intros <- Hws Hw Hlow H Hf HQ.
  assert (Hmask : ∀ t, Z.land (header t low) 0xFFF = Z.land low 0xFFF) by (intros ?; apply (header_mask_low _ _ 12); lia).
  assert (0 ≤ Z.land low 0xFFF) by (apply Z.land_nonneg; lia).
  destruct H as [t low ws fs Hist E|low ws code tys Hb|low w0 b next ws code tys depth Hb Htys Ed Hd Hl En|low ws Hl Hty|low ws Hl Hn].
  - unfold field_declaration_block. rewrite E. apply wp_record_all. apply HQ.
    eapply simple_cell_indices; [exact E|]. intros Et. rewrite (header_low _ _ Hlow). auto.
  - by eapply wp_bcode_block.
  - eapply wp_cont_block; [exact Hws|exact Hb|done|by rewrite Hmask|done|by rewrite Hmask|done].
  - assert (E : Z.land (header CELL_context low) 0xFFFFFF = low) by by apply header_low.
    apply wp_context_block; rewrite E; done.
  - apply wp_generation_pinfo_block; rewrite Hmask; [lia|]. intros fs Hfs. apply HQ. rewrite Hfs, Hl. f_equal. lia.
Qed.

Lemma wp_described_words m p t low ws ixs (Q : Z → state → Prop) : mem s = m → words_at m p ws →
  ws !! 0%nat = Some (header t low) → 0 ≤ low < 2 ^ 24 → described m t low ws ixs →
  Q (Z.of_nat (length ws)) s → wp (number_of_words t p (header t low)) Q s.
Proof.
  intros <- Hws Hw Hlow H HQ.
  destruct H as [t low ws fs Hist E|low ws code tys Hb|low w0 b next ws code tys depth Hb Htys Ed Hd Hl En|low ws Hl Hty|low ws Hl Hn].
  - unfold number_of_words. rewrite E. by apply wp_ret.
  - destruct Hb as [cw0 accu reu mx cw code tys Hcode Hlt]. rewrite !length_app in HQ. cbn [length] in HQ.
    apply wp_bind. eapply (wp_word s _ p _ 2); [done|exact Hws|done|done|].
    apply wp_bind. eapply (wp_word s _ p _ 3); [done|exact Hws|done|done|]. apply wp_ret.
    rewrite (w32_small (Z.of_nat (length tys) + _)), w32_small by (unfold is_word; rewrite word_modulus_val; lia).
    by replace (_ + 7) with (Z.of_nat (7 + (length code + length tys))) by lia.
  - apply wp_ret. rewrite header_shift_low, En by done. by replace (3 + Z.of_nat (length ws)) with (Z.of_nat (length (w0 :: b :: next :: ws))) by (simpl; lia).
  - apply wp_ret. by rewrite Hl in HQ.
  - apply wp_ret. rewrite (header_mask_low _ _ 12) by lia. change (Z.ones 12) with 0xFFF. by rewrite <- Hl.
Qed.
End blocks.

(** The declared indices are those of words of the cell, each once. *)
Lemma described_range m t low ws ixs : ws !! 0%nat = Some (header t low) → 0 ≤ low < 2 ^ 24 → described m t low ws ixs →
  NoDup ixs ∧ Forall (λ i, 0 < i < Z.of_nat (length ws)) ixs.
Proof.
  assert (Hall : ∀ n, 1 ≤ n → NoDup (indices (n - 1)) ∧ Forall (λ i, 0 < i < n) (indices (n - 1))).
  { intros n Hn. rewrite indices_from by lia. split; [apply from_NoDup|]. apply Forall_forall. intros i Hi%from_in. lia. }
  intros Hw%lookup_lt_Some Hlow H.
  destruct H as [t low ws fs Hist E|low ws code tys Hb|low w0 b next ws code tys depth Hb Htys Ed Hd Hl En|low ws Hl Hty|low ws Hl Hn];
    try (apply Hall; lia).
  - assert (Hs : ∀ i, i ∈ slots 3 (take depth tys) → 3 ≤ i < 3 + Z.of_nat depth).
    { intros i Hi%slots_in. by rewrite length_take_le in Hi. }
    assert (Hin : ∀ i, i ∈ [1; 2] ++ slots 3 (take depth tys) → 0 < i < Z.of_nat (length (w0 :: b :: next :: ws))).
    { cbn [length]. intros i [Hi|Hi%Hs]%elem_of_app; [|lia].
      apply elem_of_cons in Hi as [->|[->|[]%not_elem_of_nil]%elem_of_cons]; lia. }
    split; [|by apply Forall_forall]. apply NoDup_app. split; [by apply (bool_decide_unpack _)|]. split; [|apply slots_NoDup].
    intros i Hi Hi'%Hs. apply elem_of_cons in Hi as [->|[->|[]%not_elem_of_nil]%elem_of_cons]; lia.
  - rewrite Hl. destruct (decide (low = VOID)) as [->|Hne].
    + split; [by apply (bool_decide_unpack _)|]. repeat constructor.
    + cbn [slots]. rewrite bool_decide_eq_false_2 by done. split; [by apply (bool_decide_unpack _)|]. repeat constructor.
Qed.

(** * The property *)

(** C22. The size and the declarations of every cell that [described] describes, as
    [CELL] computes them: that is, of every type but [CELL_bonk] and
    [CELL_forward_pointer], whose blocks abort, and of byte code without the
    instruction [net_close], which declares a word of the next one, and of an
    [ist234] with an item at least.  The size is the
    number of the cell's words, no word behind the cell's end is declared and none
    twice; and every word but the first is declared, in order, except the slots that
    have the type [VOID] in a continuation or in a context, and the words of a
    continuation above its stack. *)
Theorem cell_layout t p low ws ixs fuel s :
  words_at (mem s) p ws → ws !! 0%nat = Some (header t low) → 0 ≤ low < 2 ^ 24 →
  described (mem s) t low ws ixs → (length ws < fuel)%nat →
  number_of_words t p (header t low) s = Ok (Z.of_nat (length ws)) s ∧
  (∃ fs, cell_fields fuel t p (header t low) s = Ok fs s ∧ fs.*2 = ixs) ∧
  NoDup ixs ∧ Forall (λ i, 0 < i < Z.of_nat (length ws)) ixs ∧
  (t ≠ CELL_cont → t ≠ CELL_context → ixs = indices (Z.of_nat (length ws) - 1)).
Proof.
  intros Hws Hw Hlow H Hf. destruct (described_range _ _ _ _ _ Hw Hlow H) as [Hnd Hr]. split; [|split; [|split; [done|split; [done|]]]].
  - assert (Hn : wp (number_of_words t p (header t low)) (λ n s', n = Z.of_nat (length ws) ∧ s' = s) s)
      by by eapply wp_described_words.
    by apply wp_inv in Hn as (n & s' & E & -> & ->).
  - assert (Hd : wp (cell_fields fuel t p (header t low)) (λ fs s', fs.*2 = ixs ∧ s' = s) s).
    { apply wp_bind. eapply wp_described; [done|exact Hws|exact Hw|done|exact H|done|]. intros fs Hfs. by apply wp_ret. }
    apply wp_inv in Hd as (fs & s' & E & Hfs & ->). by exists fs.
  - by destruct H.
Qed.

(** An example: the instructions [get_obj_field] and [return], for a stack of a word, a
    slot without contents and a tagged word; a forward pointer to this byte code; and a
    continuation that is being executed. *)
Definition example_code : list Z := [1; 5; 28].
Definition example_bcode : list Z := [header CELL_bcode 0; VOID; 3; 3; 0; 0; 6] ++ example_code ++ [WORD; VOID; TAGGED].
Definition example_cont : list Z := [header CELL_cont 0x6FFF; 200; NULL_WORD; 7; 8; 9].
Definition example_cells : state :=
  set_mem (list_to_map (zip [100; 104; 108; 112; 116; 120; 124; 128; 132; 136; 140; 144; 148] example_bcode ++
    [(200, header CELL_forward_pointer 0); (204, 100)] ++
    zip [300; 304; 308; 312; 316; 320] example_cont)) (init_state 4 100 []).

Lemma example_bcode_words : bcode_words example_bcode example_code [WORD; VOID; TAGGED].
Proof.
  apply (bcode_words_intro _ _ _ _ _ example_code [WORD; VOID; TAGGED]); [|done].
  apply (instructions_next 1 [5] [28]); [by eexists _, _, _|]. apply (instructions_last 28 []). by eexists _, _, _.
Qed.

Lemma words_at_check m p ws : forallb (λ '(i, w), bool_decide (m !! (p + 4 * Z.of_nat i) = Some w)) (zip (seq 0 (length ws)) ws) = true →
  words_at m p ws.
Proof.
  intros H i w Hi. rewrite forallb_forall in H. specialize (H (i, w)). simpl in H. eapply bool_decide_eq_true_1, H.
  apply list_elem_of_In, (list_elem_of_lookup_2 _ i), lookup_zip_Some. split; [|done]. apply lookup_seq. split; [done|].
  by apply lookup_lt_Some in Hi.
Qed.

Lemma cell_layout_witness :
  (number_of_words CELL_bcode 100 (header CELL_bcode 0) example_cells = Ok 13 example_cells ∧
   (∃ fs, cell_fields 20 CELL_bcode 100 (header CELL_bcode 0) example_cells = Ok fs example_cells ∧ fs.*2 = indices 12) ∧
   NoDup (indices 12) ∧ Forall (λ i, 0 < i < 13) (indices 12) ∧
   (CELL_bcode ≠ CELL_cont → CELL_bcode ≠ CELL_context → indices 12 = indices (13 - 1))) ∧
  number_of_words CELL_cont 300 (header CELL_cont 0x6FFF) example_cells = Ok 6 example_cells ∧
  (∃ fs, cell_fields 20 CELL_cont 300 (header CELL_cont 0x6FFF) example_cells = Ok fs example_cells ∧ fs.*2 = [1; 2; 3; 5]) ∧
  NoDup [1; 2; 3; 5] ∧ Forall (λ i, 0 < i < 6) [1; 2; 3; 5] ∧
  (CELL_cont ≠ CELL_cont → CELL_cont ≠ CELL_context → [1; 2; 3; 5] = indices 5).
Proof.
  split.
  - apply (cell_layout CELL_bcode 100 0 example_bcode (indices 12) 20 example_cells); [|done|done| |simpl; lia].
    + apply words_at_check. by vm_compute.
    + eapply (described_bcode _ _ example_bcode), example_bcode_words.
  - apply (cell_layout CELL_cont 300 0x6FFF example_cont [1; 2; 3; 5] 20 example_cells); [|done|done| |simpl; lia].
    + apply words_at_check. by vm_compute.
    + apply (described_cont _ 0x6FFF (header CELL_cont 0x6FFF) 200 NULL_WORD [7; 8; 9] example_code [WORD; VOID; TAGGED] 3);
        [|by repeat constructor|done|done|simpl; lia|done].
      apply (code_forwarded _ 200 100 example_bcode 0); [|done| |apply example_bcode_words]; apply words_at_check; by vm_compute.
Defined.
