(* ===== verification/Copy.v ===== *)
(** The copying collector (shades.c, "Routines for the stop & copy collector"):
    definitions.

    The statistics of written pages and bytes are left out.  The
    registers [reg_to_ptr] and [reg_to_end] of [drain_copy_stack] are the local
    variables of its loop.  C's [NULL] is 0 here; [start_gc] uses it only for
    pointers that are compared with each other. *)

From S2P Require Import Prelude Generations Machine Celltypes Shades Root Bitops Cells Pages Smartptr Io.

(** * Remembered sets *)

Definition REM_SET_SIZE : Z := 40.

(** [PREPEND_TO_REM_SET(gni->rem_set, ref, gni->rem_set_allocation_ptr)] *)
Definition prepend (ref : Z) (rem_set : list (list Z)) : list (list Z) :=
  match rem_set with
  | node :: nodes =>
    if bool_decide (Z.of_nat (length node) < REM_SET_SIZE) then (ref :: node) :: nodes
    else [ref] :: node :: nodes
  | [] => [[ref]]
  end.
Definition PREPEND_TO_REM_SET (gn ref : Z) : M unit := put_gen gn (λ x, with_rem_set (prepend ref (gi_rem_set x)) x).

(** * Variables that hold pointers

    A pointer to a pointer is the address of a word of the image, or refers to a
    word of the root block or to a smart pointer. *)

Inductive location :=
| Image (a : Z)
| RootWord (i : Z)
| SmartWord (sp : Z).

#[export] Instance location_eq_dec : EqDecision location.
Proof. solve_decision. Defined.

Definition read_root (i : Z) : M Z := r ← gets root; of_option (zlookup r i).
Definition write_root (i v : Z) : M unit :=
  r ← gets root; _ ← of_option (zlookup r i); modify (set_root (zinsert i v r)).

Definition read_location (pp : location) : M Z :=
  match pp with
  | Image a => load a
  | RootWord i => read_root i
  | SmartWord sp => x ← get_smart sp; mret (sp_ptr x)
  end.
Definition write_location (pp : location) (v : Z) : M unit :=
  match pp with
  | Image a => store a v
  | RootWord i => write_root i v
  | SmartWord sp => put_smart sp (with_sp_ptr v)
  end.

(** * To-pages *)

Definition start_gc : M unit :=
  set_gcs (set_to_end 0);; set_gcs (set_to_ptr 0);; set_gcs (set_to_pn INVALID_PAGE_NUMBER).

(** [PAGE_SET_NUMBER_OF_WORDS_IN_USE(to_pn, to_ptr - PAGE_NUMBER_TO_PAGE_PTR(to_pn))] *)
Definition wrap_up_page (pn : Z) : M unit :=
  tp ← gcs to_ptr;
  PAGE_SET_NUMBER_OF_WORDS_IN_USE pn ((tp - PAGE_NUMBER_TO_PAGE_PTR pn) / 4).

Definition new_to_page : M unit :=
  pn ← gcs to_pn;
  (if bool_decide (pn ≠ INVALID_PAGE_NUMBER) then wrap_up_page pn else mret tt);;
  pn ← allocate_page;
  set_gcs (set_to_pn pn);;
  gn ← gcs to_gn;
  put_gen gn (λ x, with_pages (gi_npages x + 1) (gi_page x ++ [pn]) (gi_disk_page x ++ [0]) x);;
  put_page pn (with_generation gn);;
  set_gcs (set_to_ptr (PAGE_NUMBER_TO_PAGE_PTR pn + 4 * 2));;
  set_gcs (set_to_end (PAGE_NUMBER_TO_PAGE_PTR pn + 4 * NUMBER_OF_WORDS_PER_PAGE)).

Definition finish_gc `{Params} : M unit :=
  pn ← gcs to_pn;
  if bool_decide (pn = INVALID_PAGE_NUMBER) then mret tt
  else
    wrap_up_page pn;;
    gn ← gcs to_gn;
    x ← get_gen gn;
    for_ (Z.to_nat (gi_npages x)) (λ i _,
      x ← get_gen gn;
      pn ← of_option (zlookup (gi_page x) (Z.of_nat i));
      n ← PAGE_GET_NUMBER_OF_WORDS_IN_USE pn;
      d ← io_write_page (PAGE_NUMBER_TO_PAGE_PTR pn) (n * 4);
      put_gen gn (λ x, with_pages (gi_npages x) (gi_page x) (zinsert (Z.of_nat i) d (gi_disk_page x)) x)) tt.

(** * Copying *)

Definition CLEAR_COPY_STACK : M unit := set_gcs (set_copy_stack []).
Definition PUSH_TO_COPY_STACK (pp : Z) : M unit :=
  st ← gcs copy_stack; set_gcs (set_copy_stack (pp :: st)).

(** The meaning of the declarations: copy the word, put pointers on the stack. *)
Definition copy_field (p new_p : Z) (d : decl) (i : Z) (_ : unit) : M (unit + Empty_set) :=
  match d with
  | DECLARE_WORD => x ← rd p i; wr new_p i x;; mret (inl tt)
  | DECLARE_PTR =>
    x ← rd p i;
    massert (negb (bool_decide (x = FIRST_GENERATION_DEADBEEF)));;
    new_x ← rd p i;
    wr new_p i new_x;;
    (if bool_decide (new_x ≠ NULL_WORD) then PUSH_TO_COPY_STACK (new_p + 4 * i) else mret tt);;
    mret (inl tt)
  | DECLARE_NONNULL_PTR =>
    x ← rd p i;
    massert (negb (bool_decide (x = FIRST_GENERATION_DEADBEEF)));;
    new_x ← rd p i;
    wr new_p i new_x;;
    massert (bool_decide (new_x ≠ NULL_WORD));;
    PUSH_TO_COPY_STACK (new_p + 4 * i);;
    mret (inl tt)
  | DECLARE_TAGGED =>
    new_x ← rd p i;
    wr new_p i new_x;;
    (if TAGGED_IS_PTR new_x && bool_decide (new_x ≠ NULL_WORD)
     then PUSH_TO_COPY_STACK (new_p + 4 * i) else mret tt);;
    mret (inl tt)
  end.

(** What [copy_cell] and [drain_copy_stack] have in common: the cell at [p] of
    type [t] is copied to [new_p], and a forward pointer takes its place. *)
Definition copy_to (fuel : nat) (t : cell_type) (p p0 new_p : Z) (pp : location) : M unit :=
  wr new_p 0 p0;;
  field_declaration_block (copy_field p new_p) fuel t p p0 tt;;
  wr p 0 (shl32 (cell_tag CELL_forward_pointer) (32 - CELL_TYPE_BITS));;
  wr p 1 new_p;;
  write_location pp new_p;;
  st ← gcs copy_stack;
  fg_start ← gets first_generation_start;
  fg_end ← gets first_generation_end;
  massert (bool_decide (Z.of_nat (length st) < (fg_start - fg_end) / 4)).

Definition copy_cell (fuel : nat) (pp : location) : M unit :=
  massert (negb (bool_decide (pp = Image NULL_PTR)));;
  p ← read_location pp;
  massert (negb (bool_decide (p = NULL_WORD)));;
  p0 ← rd p 0;
  t ← switch_type p;
  if bool_decide (t = CELL_forward_pointer) then p1 ← rd p 1; write_location pp p1
  else
    n ← number_of_words t p p0;
    new_p ← gcs to_ptr;
    set_gcs (set_to_ptr (new_p + 4 * n));;
    tp ← gcs to_ptr;
    te ← gcs to_end;
    new_p ← (if bool_decide (te < tp) then
        set_gcs (set_to_ptr new_p);;
        new_to_page;;
        new_p ← gcs to_ptr;
        set_gcs (set_to_ptr (new_p + 4 * n));;
        mret new_p
      else mret new_p);
    copy_to fuel t p p0 new_p pp.

(** Whether the cell is not to be copied: it is in a generation that is not being
    collected, which may have to remember the pointer. *)
Definition keep_pointer (pp p : Z) : M bool :=
  b ← is_in_first_generation p;
  if negb b then
    gn ← PTR_TO_GENERATION p;
    gni ← get_gen gn;
    if bool_decide (gi_status gni = NORMAL) then mret true
    else if bool_decide (gi_status gni = TO_BE_COLLECTED) then PREPEND_TO_REM_SET gn pp;; mret true
    else massert (bool_decide (gi_status gni = BEING_COLLECTED));; mret false
  else mret false.

Definition drain_step (fuel : nat) : Z * Z → M ((Z * Z) + Z) := λ '(reg_to_ptr, reg_to_end),
  st ← gcs copy_stack;
  match st with
  | [] => mret (inr reg_to_ptr)
  | pp :: st =>
    set_gcs (set_copy_stack st);;
    p ← load pp;
    massert (negb (bool_decide (p = NULL_WORD)));;
    keep ← keep_pointer pp p;
    if keep : bool then mret (inl (reg_to_ptr, reg_to_end))
    else
      p0 ← rd p 0;
      t ← switch_type p;
      if bool_decide (t = CELL_forward_pointer) then
        p1 ← rd p 1; store pp p1;; mret (inl (reg_to_ptr, reg_to_end))
      else
        n ← number_of_words t p p0;
        let new_p := reg_to_ptr in
        '(new_p, reg_to_ptr, reg_to_end) ← (if bool_decide (reg_to_end < new_p + 4 * n) then
            set_gcs (set_to_ptr new_p);;
            new_to_page;;
            new_p ← gcs to_ptr;
            reg_to_end ← gcs to_end;
            tp ← gcs to_ptr;
            mret (new_p, tp + 4 * n, reg_to_end)
          else mret (new_p, new_p + 4 * n, reg_to_end));
        copy_to fuel t p p0 new_p (Image pp);;
        mret (inl (reg_to_ptr, reg_to_end))
  end.

Definition drain_copy_stack (fuel : nat) : M unit :=
  tp ← gcs to_ptr;
  te ← gcs to_end;
  reg_to_ptr ← loop fuel (drain_step fuel) (tp, te);
  set_gcs (set_to_ptr reg_to_ptr).

(** * The first generation's collection *)

(** [suspended_accu] holds a pointer. *)
Definition accu_is_ptr : M bool :=
  ty ← get_root ROOT_IX_suspended_accu_type;
  if bool_decide (ty = PTR) then mret true
  else if bool_decide (ty = NONNULL_PTR) then mret true
  else if bool_decide (ty = TAGGED) then x ← get_root ROOT_IX_suspended_accu; mret (TAGGED_IS_PTR x)
  else mret false.

(** [if (x != NULL_WORD && is_from(x)) copy_cell(pp)] for the value [x] at [pp]; the
    condition [is_from] differs between the collections. *)
Definition copy_if (is_from : Z → M bool) (fuel : nat) (pp : location) : M unit :=
  x ← read_location pp;
  if bool_decide (x ≠ NULL_WORD) then
    b ← is_from x;
    if b : bool then copy_cell fuel pp else mret tt
  else mret tt.
Definition copy_if_young (fuel : nat) : location → M unit := copy_if is_in_first_generation fuel.

(** The loop over the ring of smart pointers. *)
Definition scan_smart_ptrs (fuel : nat) (scan : location → M unit) : M unit :=
  first ← get_smart first_smart_ptr;
  loop fuel (λ sp,
    if bool_decide (sp ≠ first_smart_ptr) then
      x ← get_smart sp;
      next ← get_smart (sp_next x);
      massert (bool_decide (sp_prev next = sp));;
      scan (SmartWord sp);;
      x ← get_smart sp;
      mret (inl (sp_next x))
    else mret (inr tt)) (sp_next first).

(** The loop over the root block. *)
Definition scan_root (scan : location → M unit) : M unit :=
  for_ (Z.to_nat NUMBER_OF_ROOT_IXS) (λ i _,
    b ← root_ix_is_ptr (Z.of_nat i);
    if b : bool then scan (RootWord (Z.of_nat i)) else mret tt) tt.

Definition collect_first_generation `{Params} (fuel : nat) : M Z :=
  start_gc;;
  allocate_generation fuel;;
  insert_generation_after INVALID_GENERATION_NUMBER;;
  CLEAR_COPY_STACK;;
  b ← accu_is_ptr;
  (if b : bool then copy_if_young fuel (RootWord (Z.of_nat (root_ix_num ROOT_IX_suspended_accu))) else mret tt);;
  scan_root (copy_if_young fuel);;
  scan_smart_ptrs fuel (copy_if_young fuel);;
  st ← gcs copy_stack;
  let number_of_referring_ptrs := Z.of_nat (length st) in
  drain_copy_stack fuel;;
  finish_gc;;
  mret number_of_referring_ptrs.
