(* ===== verification/Forward.v ===== *)
(** The specification of the copying collector: the cells that it collects, what
    it may find in them, where their copies are, and what a state looks like
    while cells are being copied. *)

From S2P Require Import Prelude Generations Machine Celltypes Shades Root Bitops Cells Pages Smartptr Io Copy.

(** * The pointers in a cell *)

(** The types whose size and declarations follow from the first word. *)
Definition gc_def (t : cell_type) (p0 : Z) : cell_def :=
  match simple_cell t p0 with
  | Some d => Some d
  | None =>
    let n := Z.land p0 0xFFF in
    if bool_decide (t = CELL_generation_pinfo ∧ n < MAX_GENERATION_SIZE)
    then Some (4 + 2 * n, (DECLARE_PTR, 1) :: (DECLARE_WORD, 2) :: (DECLARE_WORD, 3) ::
                          fields_from DECLARE_WORD 4 (2 * n))
    else None
  end.

(** The type and the declarations of a cell of these words. *)
Definition gc_shape (ws : list Z) : option (cell_type * list (decl * Z)) :=
  w ← head ws;
  t ← cell_type_of (shr32 w (32 - CELL_TYPE_BITS));
  '(n, fs) ← gc_def t w;
  if bool_decide (n = Z.of_nat (length ws)) then Some (t, fs) else None.

(** The word [x] that is declared by [d] is a pointer to a cell. *)
Definition ref (d : decl) (x : Z) : bool := is_pointer d x && negb (bool_decide (x = NULL_WORD)).

(** The [i]th of the words [ws] of a cell is a pointer to a cell. *)
Definition ref_at (ws : list Z) (i : nat) : bool :=
  match gc_shape ws, i with
  | Some (_, fs), S j =>
    match fs !! j, ws !! i with
    | Some (d, _), Some x => ref d x
    | _, _ => false
    end
  | _, _ => false
  end.

(** [x], or where the cell at [x] was copied to. *)
Definition forward (φ : gmap Z Z) (x : Z) : Z := default x (φ !! x).

(** The words of the copy of a cell. *)
Definition forward_at (φ : gmap Z Z) (ws : list Z) (i : nat) (x : Z) : Z :=
  if ref_at ws i then forward φ x else x.
Definition forward_words (φ : gmap Z Z) (ws : list Z) : list Z := imap (forward_at φ ws) ws.

Lemma gc_def_indices t p0 n fs : gc_def t p0 = Some (n, fs) → n ≤ NUMBER_OF_WORDS_PER_PAGE - 2 →
  1 ≤ n ∧ fs.*2 = indices (n - 1).
Proof.
  unfold gc_def. change NUMBER_OF_WORDS_PER_PAGE with 16384. destruct (simple_cell t p0) as [[n' fs']|] eqn:E.
  - intros [= -> ->] Hn. destruct (simple_cell_indices t p0 n fs E) as [? ?]; [|by split; [lia|]].
    intros -> E0. revert E. unfold simple_cell. simpl. rewrite E0. intros [= <- <-]. by vm_compute in Hn.
  - case_bool_decide as H; [|done]. intros [= <- <-] Hn. pose proof (land_mask_bound p0 12 ltac:(lia)) as Hb.
    change (2 ^ 12 - 1) with 0xFFF in Hb. split; [lia|].
    replace (4 + 2 * Z.land p0 0xFFF - 1) with (3 + 2 * Z.land p0 0xFFF) by lia. rewrite indices_app by lia.
    cbn [fmap list_fmap snd]. rewrite fields_from_indices. done.
Qed.

Lemma gc_shape_Some ws t fs : gc_shape ws = Some (t, fs) →
  ∃ w, ws !! 0%nat = Some w ∧ cell_type_of (shr32 w (32 - CELL_TYPE_BITS)) = Some t ∧
    gc_def t w = Some (Z.of_nat (length ws), fs).
Proof.
  unfold gc_shape. destruct ws as [|w ws]; [done|]. cbn [head mbind option_bind].
  destruct (cell_type_of _) as [t'|] eqn:Et; [|done]. cbn [mbind option_bind].
  destruct (gc_def t' w) as [[n fs']|] eqn:Ed; [|done]. cbn [mbind option_bind].
  case_bool_decide as Hn; [|done]. intros [= -> ->]. exists w. by rewrite Ed, Hn.
Qed.

(** The declarations are those of the words from 1 on, in order. *)
Lemma gc_shape_fields ws t fs : gc_shape ws = Some (t, fs) →
  Z.of_nat (length ws) ≤ NUMBER_OF_WORDS_PER_PAGE - 2 →
  (1 + length fs)%nat = length ws ∧ ∀ j d i, fs !! j = Some (d, i) → i = 1 + Z.of_nat j.
Proof.
  intros (w & _ & _ & Ed)%gc_shape_Some Hl. destruct (gc_def_indices _ _ _ _ Ed Hl) as [Hn Hi].
  split.
  - apply (f_equal length) in Hi. unfold indices in Hi. rewrite !length_fmap, length_seq in Hi. lia.
  - intros j d i Hj. apply (f_equal (.!! j)) in Hi. unfold indices in Hi.
    rewrite !list_lookup_fmap, Hj in Hi. simpl in Hi. symmetry in Hi.
    apply fmap_Some in Hi as (k & Hk & ->). apply lookup_seq in Hk as [-> _]. done.
Qed.

Lemma gc_shape_not_forward ws t fs : gc_shape ws = Some (t, fs) → t ≠ CELL_forward_pointer.
Proof. intros (w & _ & _ & Ed)%gc_shape_Some ->. by unfold gc_def in Ed. Qed.

Lemma ref_at_decl ws t fs j d i x : gc_shape ws = Some (t, fs) → fs !! j = Some (d, i) → ws !! S j = Some x →
  ref_at ws (S j) = ref d x.
Proof. intros E Hj Hx. unfold ref_at. by rewrite E, Hj, Hx. Qed.

Lemma ref_at_lookup ws i : ref_at ws i = true → (0 < i)%nat ∧ ∃ x, ws !! i = Some x ∧ x ≠ NULL_WORD.
Proof.
  unfold ref_at. destruct (gc_shape ws) as [[t fs]|]; [|done]. destruct i as [|j]; [done|].
  destruct (fs !! j) as [[d k]|]; [|done]. destruct (ws !! S j) as [x|]; [|done]. unfold ref.
  rewrite andb_true_iff, negb_true_iff, bool_decide_eq_false. intros [_ H]. split; [lia|eauto].
Qed.

Lemma lookup_forward_words φ ws i : forward_words φ ws !! i = forward_at φ ws i <$> ws !! i.
Proof. apply list_lookup_imap. Qed.

Lemma length_forward_words φ ws : length (forward_words φ ws) = length ws.
Proof. apply length_imap. Qed.

Lemma forward_None φ x : φ !! x = None → forward φ x = x.
Proof. unfold forward. by intros ->. Qed.

Lemma forward_Some φ x q : φ !! x = Some q → forward φ x = q.
Proof. unfold forward. by intros ->. Qed.

Lemma forward_insert_ne φ p q x : x ≠ p → forward (<[p := q]> φ) x = forward φ x.
Proof. intros H. unfold forward. by rewrite lookup_insert_ne. Qed.

(** * Sizes *)

(** The number of words in cells. *)
Definition total_words (F : gmap Z (list Z)) : Z := map_fold (λ _ ws n, Z.of_nat (length ws) + n) 0 F.

Lemma total_words_delete F p ws : F !! p = Some ws →
  total_words F = Z.of_nat (length ws) + total_words (delete p F).
Proof.
  intros Hp. unfold total_words. rewrite (map_fold_delete_L _ _ p ws F); [done| |done].
  intros ? ? ? ? ? ? ? ?. lia.
Qed.

Lemma total_words_nonneg F : 0 ≤ total_words F.
Proof. unfold total_words. apply (map_fold_weak_ind (λ n _, 0 ≤ n)); intros; lia. Qed.

(** The words [ws] were written at [q]. *)
Definition wrote (q : Z) (ws : list Z) (m m' : gmap Z Z) : Prop :=
  (∀ i x, ws !! i = Some x → m' !! (q + 4 * Z.of_nat i) = Some x) ∧
  (∀ a, ¬ (q ≤ a < q + 4 * Z.of_nat (length ws)) → m' !! a = m !! a) ∧
  (∀ a, is_Some (m !! a) → is_Some (m' !! a)).

Lemma wrote_nil q m : wrote q [] m m.
Proof. split; [done|]. split; [done|]. done. Qed.

Lemma wrote_snoc q ws x m m' : wrote q ws m m' →
  wrote q (ws ++ [x]) m (<[q + 4 * Z.of_nat (length ws) := x]> m').
Proof.
  intros (H1 & H2 & H3). split; [|split].
  - intros i y Hi. apply lookup_app_Some in Hi as [Hi|[Hl Hi]].
    + pose proof (lookup_lt_Some _ _ _ Hi). rewrite lookup_insert_ne by lia. by apply H1.
    + apply list_lookup_singleton_Some in Hi as [Hi ->].
      replace i with (length ws) by lia. apply lookup_insert_eq.
  - intros a Ha. rewrite length_app in Ha. simpl in Ha. rewrite lookup_insert_ne by lia. apply H2. lia.
  - intros a Ha. destruct (decide (q + 4 * Z.of_nat (length ws) = a)) as [<-|].
    + rewrite lookup_insert_eq. eauto.
    + rewrite lookup_insert_ne by done. by apply H3.
Qed.

(** The stack's new entries for the first [k] words of a copy at [q]. *)
Definition pushes (q : Z) (ws : list Z) (k : nat) : list Z :=
  reverse ((λ i : nat, q + 4 * Z.of_nat i) <$> filter (λ i, ref_at ws i = true) (seq 0 k)).

Lemma pushes_S q ws k : pushes q ws (S k) =
  (if ref_at ws k then [q + 4 * Z.of_nat k] else []) ++ pushes q ws k.
Proof.
  unfold pushes. rewrite seq_S, filter_app, fmap_app, reverse_app. f_equal. simpl.
  unfold filter at 1. simpl. destruct (ref_at ws k) eqn:E; case_decide; done.
Qed.

Lemma pushes_In q ws k a : a ∈ pushes q ws k ↔ ∃ i, (i < k)%nat ∧ ref_at ws i = true ∧ a = q + 4 * Z.of_nat i.
Proof.
  unfold pushes. rewrite elem_of_reverse, list_elem_of_fmap. split.
  - intros (i & -> & [Hr Hi%elem_of_seq]%list_elem_of_filter). exists i. split; [lia|done].
  - intros (i & Hi & Hr & ->). exists i. split; [done|]. apply list_elem_of_filter. split; [done|].
    apply elem_of_seq. lia.
Qed.

Lemma pushes_NoDup q ws k : NoDup (pushes q ws k).
Proof.
  unfold pushes. rewrite reverse_Permutation. apply NoDup_fmap_2; [intros i j; lia|]. apply NoDup_filter, NoDup_seq.
Qed.

Lemma length_pushes q ws k : (length (pushes q ws (S k)) ≤ k)%nat.
Proof.
  unfold pushes. rewrite length_reverse, length_fmap. simpl.
  replace (filter _ (0%nat :: seq 1 k)) with (filter (λ i, ref_at ws i = true) (seq 1 k)).
  - etrans; [apply length_filter|]. by rewrite length_seq.
  - rewrite filter_cons. case_decide as H; [|done]. apply ref_at_lookup in H as [H _]. lia.
Qed.

(** * What is collected *)

Definition FORWARDED : Z := shl32 (cell_tag CELL_forward_pointer) (32 - CELL_TYPE_BITS).

Definition generation_of (s : state) (x g : Z) : Prop :=
  ∃ pg, zlookup (page_info (gc s)) (PTR_TO_PAGE_NUMBER x) = Some pg ∧
    pg_is_allocated pg = true ∧ pg_generation pg = g.
Definition status_of (s : state) (g : Z) (st : gc_status) : Prop :=
  ∃ gi, zlookup (generation_info (gc s)) g = Some gi ∧ gi_status gi = st.

(** [x] points into a generation [g] of status [st] that is not being collected. *)
Definition kept (s : state) (x g : Z) (st : gc_status) : Prop :=
  x < first_generation_end s ∧ generation_of s x g ∧ status_of s g st ∧ (st = NORMAL ∨ st = TO_BE_COLLECTED).

Section cells.
Context (s : state) (F : gmap Z (list Z)).

(** What a pointer may point to: one of the cells [F] or a generation that is
    not being collected. *)
Definition target (x : Z) : Prop := is_Some (F !! x) ∨ ∃ g st, kept s x g st.

(** One of the cells [F] that are to be copied: it is in the first generation or
    on a page of a generation that is being collected. *)
Record from_cell (p : Z) (ws : list Z) : Prop := {
  fc_pos : 0 < p;
  fc_aligned : p mod 4 = 0;
  fc_length : 2 ≤ Z.of_nat (length ws) ≤ NUMBER_OF_WORDS_PER_PAGE - 2;
  fc_top : p + 4 * Z.of_nat (length ws) ≤ first_generation_start s;
  fc_words i x : ws !! i = Some x → mem s !! (p + 4 * Z.of_nat i) = Some x;
  fc_shape : ∃ t fs, gc_shape ws = Some (t, fs) ∧
    ∀ j i x, fs !! j = Some (DECLARE_NONNULL_PTR, i) → ws !! S j = Some x → x ≠ NULL_WORD;
  fc_place : first_generation_allocation_ptr s ≤ p ∨
    ∃ g, generation_of s p g ∧ status_of s g BEING_COLLECTED ∧
      in_page (PTR_TO_PAGE_NUMBER p) (p + 4 * Z.of_nat (length ws) - 1) ∧
      p + 4 * Z.of_nat (length ws) ≤ first_generation_end s;
  fc_refs i x : ref_at ws i = true → ws !! i = Some x → target x
}.

(** Reachability among the cells [F]. *)
Inductive reaches (roots : Z → Prop) : Z → Prop :=
| reaches_root p : roots p → is_Some (F !! p) → reaches roots p
| reaches_field p ws i x : reaches roots p → F !! p = Some ws → ref_at ws i = true → ws !! i = Some x →
    is_Some (F !! x) → reaches roots x.

Lemma reaches_from roots p : reaches roots p → is_Some (F !! p).
Proof. by destruct 1. Qed.

Lemma reaches_impl (roots roots' : Z → Prop) p :
  (∀ x, is_Some (F !! x) → roots x → roots' x) → reaches roots p → reaches roots' p.
Proof. intros Hr. induction 1; [apply reaches_root; auto|eapply reaches_field; eauto]. Qed.

Lemma reaches_mono (roots roots' : Z → Prop) p :
  (∀ x, roots x → roots' x) → reaches roots p → reaches roots' p.
Proof. intros Hr. apply reaches_impl. auto. Qed.
End cells.

(** What the collector requires: [free] are the free pages, [gn] is the new
    generation. *)
Record collectable (s : state) (F : gmap Z (list Z)) (gn : Z) (free : list Z) : Prop := {
  cl_bounds : PAGE_SIZE * Z.of_nat (length (page_info (gc s))) ≤ first_generation_end s ∧
    first_generation_end s ≤ first_generation_allocation_ptr s ∧ 0 ≤ first_generation_end s ∧
    first_generation_start s ≤ FIRST_GENERATION_DEADBEEF;
  cl_recovering : is_recovering (gc s) = false;
  cl_pool : pool s free;
  cl_to_gn : to_gn (gc s) = gn;
  cl_gen : ∃ x, zlookup (generation_info (gc s)) gn = Some x ∧ gi_status x = NORMAL ∧
    gi_npages x = 0 ∧ gi_page x = [] ∧ gi_disk_page x = [];
  cl_from p ws : F !! p = Some ws → from_cell s F p ws;
  cl_sep p1 ws1 p2 ws2 : F !! p1 = Some ws1 → F !! p2 = Some ws2 → p1 ≠ p2 → disj (p1, ws1) (p2, ws2);
  cl_words : total_words F ≤ (first_generation_start s - first_generation_end s) / 4;
  cl_pages : 2 * total_words F ≤ Z.of_nat (length free) * (NUMBER_OF_WORDS_PER_PAGE - 2)
}.

Section collectable.
Context {s F gn free} (Hc : collectable s F gn free).

Lemma target_bound x : target s F x → x < FIRST_GENERATION_DEADBEEF.
Proof.
  destruct (cl_bounds _ _ _ _ Hc) as (Hp & He & Hs).
  intros [[ws Hx]|(g & st & Hk)].
  - pose proof (cl_from _ _ _ _ Hc _ _ Hx) as Hf. pose proof (fc_top _ _ _ _ Hf). pose proof (fc_length _ _ _ _ Hf). lia.
  - destruct Hk as [H _]. revert H. destruct (Z.le_gt_cases (first_generation_end s) (first_generation_start s)); [lia|].
    pose proof (cl_words _ _ _ _ Hc). pose proof (total_words_nonneg F). intros Hx.
    assert ((first_generation_start s - first_generation_end s) / 4 < 0) by (apply Z.div_lt_upper_bound; lia). lia.
Qed.

(** The cells to be collected are on no free page. *)
Lemma from_not_free p ws pn a : F !! p = Some ws → pn ∈ free → p ≤ a < p + 4 * Z.of_nat (length ws) → ¬ in_page pn a.
Proof.
  intros Hp Hin Ha Hpa. pose proof (cl_from _ _ _ _ Hc _ _ Hp) as Hf.
  destruct (pool_page _ _ _ (cl_pool _ _ _ _ Hc) Hin) as (Hr & x & Hx & Hal).
  destruct (cl_bounds _ _ _ _ Hc) as (Hb & He & Hs & _). destruct (fc_place _ _ _ _ Hf) as [Hy|(g & Hg & _ & Hend & _)].
  - unfold in_page in Hpa. change PAGE_SIZE with 65536 in *. lia.
  - assert (Hpp : in_page (PTR_TO_PAGE_NUMBER p) p) by by apply in_page_iff.
    assert (E : pn = PTR_TO_PAGE_NUMBER p).
    { apply (in_page_inj _ _ a); [done|]. unfold in_page in *. lia. }
    destruct Hg as (pg & Hpg & Hal' & _). rewrite <- E in Hpg. congruence.
Qed.

(** A cell to be collected is in no generation that is kept. *)
Lemma from_not_kept p ws g st : F !! p = Some ws → ¬ kept s p g st.
Proof.
  intros Hp (Hlt & (pg & Hpg & _ & <-) & (gi & Hgi & Hgs) & Hst).
  destruct (cl_bounds _ _ _ _ Hc) as (_ & He & _).
  destruct (fc_place _ _ _ _ (cl_from _ _ _ _ Hc _ _ Hp)) as [Hy|(g' & (pg' & Hpg' & _ & <-) & (gi' & Hgi' & Hgs') & _)]; [lia|].
  rewrite Hpg in Hpg'. simplify_eq. rewrite Hgs' in Hst. by destruct Hst.
Qed.
End collectable.

(** * During a collection *)

Section invariant.
Context (s0 : state) (F : gmap Z (list Z)) (gn : Z) (free0 : list Z) (roots : Z → Prop).

(** The to-pages: [full] are those wrapped up with their numbers of words in use,
    [cur] is the current one, [free] are the pages that are still free; [tp] and
    [te] are the values of [to_ptr] and [to_end]. *)
Record to_space := ToSpace {
  ts_full : list (Z * Z);
  ts_cur : option Z;
  ts_free : list Z;
  ts_tp : Z;
  ts_te : Z
}.
Definition ts_pages (T : to_space) : list Z := (ts_full T).*1 ++ option_list (ts_cur T).

(** [n] words at [q] have been allocated in the to-pages. *)
Definition in_to_space (T : to_space) (q n : Z) : Prop :=
  q mod 4 = 0 ∧
  ((∃ pn u, (pn, u) ∈ ts_full T ∧ PAGE_SIZE * pn + 8 ≤ q ∧ q + 4 * n ≤ PAGE_SIZE * pn + 4 * u) ∨
   (∃ pn, ts_cur T = Some pn ∧ PAGE_SIZE * pn + 8 ≤ q ∧ q + 4 * n ≤ ts_tp T)).

(** The cells: [φ] maps those that were copied to their copies, [R] are the others,
    [pend] are the addresses of copied words whose pointers are still the old ones. *)
Record cells_inv (φ : gmap Z Z) (R : gmap Z (list Z)) (pend : list Z) (T : to_space) (s : state) : Prop := {
  ci_rest p : R !! p = (match φ !! p with Some _ => None | None => F !! p end);
  ci_from p ws i x : R !! p = Some ws → ws !! i = Some x → mem s !! (p + 4 * Z.of_nat i) = Some x;
  ci_copied p q : φ !! p = Some q → ∃ ws, F !! p = Some ws ∧ mem s !! p = Some FORWARDED ∧
    mem s !! (p + 4) = Some q ∧ in_to_space T q (Z.of_nat (length ws)) ∧ reaches F roots p;
  ci_words p q ws i x : φ !! p = Some q → F !! p = Some ws → ws !! i = Some x →
    mem s !! (q + 4 * Z.of_nat i) =
      Some (if bool_decide (q + 4 * Z.of_nat i ∈ pend) then x else forward_at φ ws i x);
  ci_done p q ws i x : φ !! p = Some q → F !! p = Some ws → ws !! i = Some x → ref_at ws i = true →
    q + 4 * Z.of_nat i ∉ pend → is_Some (F !! x) → is_Some (φ !! x);
  ci_pend_nodup : NoDup pend;
  ci_pend a : a ∈ pend → ∃ p q ws i, φ !! p = Some q ∧ F !! p = Some ws ∧ ref_at ws i = true ∧
    a = q + 4 * Z.of_nat i;
  ci_sep p1 q1 ws1 p2 q2 ws2 : φ !! p1 = Some q1 → F !! p1 = Some ws1 → φ !! p2 = Some q2 → F !! p2 = Some ws2 →
    p1 ≠ p2 → disj (q1, ws1) (q2, ws2);
  ci_count : Z.of_nat (length pend) + Z.of_nat (size φ) + total_words R ≤ total_words F
}.

(** The pages; [slack] is the size of the cell that a page is being found for. *)
Record pages_inv (slack : Z) (R : gmap Z (list Z)) (T : to_space) (s : state) : Prop := {
  pi_split : free0 = ts_pages T ++ ts_free T;
  pi_pool : pool s (ts_free T);
  pi_cur : match ts_cur T with
    | Some pn => to_pn (gc s) = pn ∧ PAGE_SIZE * pn + 8 ≤ ts_tp T ≤ ts_te T ∧ ts_te T = PAGE_SIZE * (pn + 1) ∧
        ts_tp T mod 4 = 0 ∧
        Z.of_nat (length (ts_full T)) * (NUMBER_OF_WORDS_PER_PAGE - 2) + ((ts_tp T - PAGE_SIZE * pn) / 4 - 2) ≤
          2 * (total_words F - total_words R) + slack
    | None => to_pn (gc s) = INVALID_PAGE_NUMBER ∧ ts_tp T = 0 ∧ ts_te T = 0 ∧ ts_full T = []
    end;
  pi_full pn u : (pn, u) ∈ ts_full T → mem s !! (PAGE_SIZE * pn + 4) = Some u ∧ 2 ≤ u ≤ NUMBER_OF_WORDS_PER_PAGE;
  pi_mapped pn i : pn ∈ ts_pages T → 0 ≤ i < NUMBER_OF_WORDS_PER_PAGE → is_Some (mem s !! (PAGE_SIZE * pn + 4 * i));
  pi_magic pn : pn ∈ ts_pages T → mem s !! (PAGE_SIZE * pn) = Some PAGE_MAGIC_COOKIE;
  pi_page pn : pn ∈ ts_pages T → ∃ x, zlookup (page_info (gc s)) pn = Some x ∧
    pg_is_allocated x = true ∧ pg_generation x = gn;
  pi_other pn : pn ∉ ts_pages T → zlookup (page_info (gc s)) pn = zlookup (page_info (gc s0)) pn;
  pi_gen : ∃ x, zlookup (generation_info (gc s0)) gn = Some x ∧
    zlookup (generation_info (gc s)) gn =
      Some (with_pages (Z.of_nat (length (ts_pages T))) (ts_pages T) (replicate (length (ts_pages T)) 0) x);
  pi_used : total_words F - total_words R ≤ match ts_cur T with
    | Some pn => Z.of_nat (length (ts_full T)) * (NUMBER_OF_WORDS_PER_PAGE - 2) + ((ts_tp T - PAGE_SIZE * pn) / 4 - 2)
    | None => 0
    end
}.

(** The remembered sets. *)
Definition remembered (φ : gmap Z Z) (pend : list Z) (g a : Z) : Prop :=
  ∃ p q ws i x, φ !! p = Some q ∧ F !! p = Some ws ∧ ref_at ws i = true ∧ ws !! i = Some x ∧
    a = q + 4 * Z.of_nat i ∧ (a ∉ pend) ∧ kept s0 x g TO_BE_COLLECTED.

Definition rem_inv (φ : gmap Z Z) (pend : list Z) (s : state) : Prop :=
  ∀ g x, zlookup (generation_info (gc s0)) g = Some x → g ≠ gn →
    ∃ r added, zlookup (generation_info (gc s)) g = Some (with_rem_set r x) ∧
      concat r = added ++ concat (gi_rem_set x) ∧ NoDup added ∧ ∀ a, a ∈ added ↔ remembered φ pend g a.

(** What stays the same. *)
Record frame_inv (T : to_space) (s : state) : Prop := {
  fi_start : first_generation_start s = first_generation_start s0;
  fi_end : first_generation_end s = first_generation_end s0;
  fi_ap : first_generation_allocation_ptr s = first_generation_allocation_ptr s0;
  fi_mem a : (∀ pn, pn ∈ ts_pages T → ¬ in_page pn a) →
    (∀ p ws, F !! p = Some ws → ¬ (p ≤ a < p + 4 * Z.of_nat (length ws))) → mem s !! a = mem s0 !! a;
  fi_mapped a : is_Some (mem s0 !! a) → is_Some (mem s !! a);
  fi_recovering : is_recovering (gc s) = is_recovering (gc s0);
  fi_nonexistent : number_of_nonexistent_generations (gc s) = number_of_nonexistent_generations (gc s0);
  fi_next_gn : next_gn (gc s) = next_gn (gc s0);
  fi_youngest_gn : youngest_gn (gc s) = youngest_gn (gc s0);
  fi_to_gn : to_gn (gc s) = to_gn (gc s0);
  fi_collected_twice : generations_collected_twice (gc s) = generations_collected_twice (gc s0);
  fi_generations : length (generation_info (gc s)) = length (generation_info (gc s0));
  fi_npages : length (page_info (gc s)) = length (page_info (gc s0));
  fi_io : io (gc s) = io (gc s0)
}.

Record gc_inv (slack : Z) (φ : gmap Z Z) (R : gmap Z (list Z)) (pend : list Z) (T : to_space) (s : state) : Prop := {
  inv_cells : cells_inv φ R pend T s;
  inv_pages : pages_inv slack R T s;
  inv_rem : rem_inv φ pend s;
  inv_frame : frame_inv T s
}.
End invariant.
