(* ===== verification/Copying.v ===== *)
(** The copying collector's steps: a to-page is taken, a cell is copied, a
    pointer is redirected or remembered. *)

From S2P Require Import Prelude Generations Machine Celltypes Shades Root Bitops Cells Pages Smartptr Io Copy Forward.

(** The variables that copying leaves alone. *)
Record others (s s' : state) : Prop := {
  ot_root : root s' = root s;
  ot_ix_is_ptr : ix_is_ptr s' = ix_is_ptr s;
  ot_old_value : old_value s' = old_value s;
  ot_can : first_generation_can_allocate_ptr s' = first_generation_can_allocate_ptr s;
  ot_smart_ptrs : smart_ptrs (gc s') = smart_ptrs (gc s);
  ot_prev_to_gn : prev_to_gn (gc s') = prev_to_gn (gc s);
  ot_major : major_gc_was_started (gc s') = major_gc_was_started (gc s);
  ot_collecting : is_collecting (gc s') = is_collecting (gc s)
}.

#[export] Instance others_preorder : PreOrder others.
Proof.
  split.
  - intros s. by split.
  - intros s1 s2 s3 [] []. split; congruence.
Qed.

Section copying.
Context (s0 : state) (F : gmap Z (list Z)) (gn : Z) (free0 : list Z) (roots : Z → Prop).
Context (Hc : collectable s0 F gn free0).

#[local] Abbreviation gc_inv := (gc_inv s0 F gn free0 roots).
#[local] Abbreviation pages_inv := (pages_inv s0 F gn free0).
#[local] Abbreviation cells_inv := (cells_inv F roots).
#[local] Abbreviation N := NUMBER_OF_WORDS_PER_PAGE.

(** * Places *)

Lemma cur_in_pages T pn : ts_cur T = Some pn → pn ∈ ts_pages T.
Proof. intros E. unfold ts_pages. rewrite E. apply elem_of_app. right. by left. Qed.

Lemma full_in_pages T pn u : (pn, u) ∈ ts_full T → pn ∈ ts_pages T.
Proof. intros H. apply elem_of_app. left. apply list_elem_of_fmap. by exists (pn, u). Qed.

Lemma pages_free sl R T s pn : pages_inv sl R T s → pn ∈ ts_pages T → pn ∈ free0.
Proof. intros Hp Hin. rewrite (pi_split _ _ _ _ _ _ _ _ Hp). apply elem_of_app. by left. Qed.

Lemma pages_nonneg pn : pn ∈ free0 → 0 ≤ pn.
Proof. intros Hin. destruct (pool_page _ _ _ (cl_pool _ _ _ _ Hc) Hin). lia. Qed.

(** An address in the to-space is on one page, past the page's first two words. *)
Lemma in_to_space_page sl R T s q n a : pages_inv sl R T s → in_to_space T q n → q ≤ a < q + 4 * n →
  ∃ pn, pn ∈ ts_pages T ∧ in_page pn a ∧ PAGE_SIZE * pn + 8 ≤ a.
Proof.
  intros Hp [_ [(pn & u & Hin & Hlo & Hhi)|(pn & Hcur & Hlo & Hhi)]] Ha; exists pn.
  - destruct (pi_full _ _ _ _ _ _ _ _ Hp _ _ Hin) as [_ Hu]. split; [by eapply full_in_pages|].
    unfold in_page. change N with 16384 in *. change PAGE_SIZE with 65536 in *. lia.
  - split; [by apply cur_in_pages|]. pose proof (pi_cur _ _ _ _ _ _ _ _ Hp) as H. rewrite Hcur in H.
    unfold in_page. change PAGE_SIZE with 65536 in *. lia.
Qed.

(** The words of the to-space can be written. *)
Lemma in_to_space_mapped sl R T s q n i : pages_inv sl R T s → in_to_space T q n → 0 ≤ i < n →
  is_Some (mem s !! (q + 4 * i)).
Proof.
  intros Hp Hq Hi. destruct (in_to_space_page _ _ _ _ _ _ (q + 4 * i) Hp Hq ltac:(lia)) as (pn & Hin & Hpg & Hlo).
  unfold in_page in Hpg. pose proof (pi_mapped _ _ _ _ _ _ _ _ Hp pn ((q + 4 * i - PAGE_SIZE * pn) / 4) Hin) as Hm.
  destruct Hq as [Hq _]. change N with 16384 in *. change PAGE_SIZE with 65536 in *.
  replace (65536 * pn + 4 * ((q + 4 * i - 65536 * pn) / 4)) with (q + 4 * i) in Hm by zdiv. apply Hm. zdiv.
Qed.

(** No cell that is collected is in the to-space. *)
Lemma from_not_to sl R T s p ws q n a : pages_inv sl R T s → F !! p = Some ws →
  p ≤ a < p + 4 * Z.of_nat (length ws) → in_to_space T q n → ¬ (q ≤ a < q + 4 * n).
Proof.
  intros Hp Hw Ha Hq Hqa. destruct (in_to_space_page _ _ _ _ _ _ _ Hp Hq Hqa) as (pn & Hin & Hpg & _).
  eapply (from_not_free Hc); [exact Hw|by eapply pages_free|exact Ha|exact Hpg].
Qed.

Lemma pushes_field q ws a k : a ∈ pushes q ws k → (k ≤ length ws)%nat → q ≤ a < q + 4 * Z.of_nat (length ws).
Proof. intros (i & Hi & _ & ->)%pushes_In Hk. lia. Qed.

(** * The invariant of the cells *)

Lemma cells_inv_frame φ R pend T T' s s' :
  cells_inv φ R pend T s →
  (∀ q n, in_to_space T q n → in_to_space T' q n) →
  (∀ p ws a, F !! p = Some ws → p ≤ a < p + 4 * Z.of_nat (length ws) → mem s' !! a = mem s !! a) →
  (∀ q n a, in_to_space T q n → q ≤ a < q + 4 * n → mem s' !! a = mem s !! a) →
  cells_inv φ R pend T' s'.
Proof.
  intros Hi HT Hf Ht. split; try apply Hi.
  - intros p ws i x Hp Hx. pose proof (lookup_lt_Some _ _ _ Hx).
    pose proof (ci_rest _ _ _ _ _ _ _ Hi p) as Hr. rewrite Hp in Hr. destruct (φ !! p) eqn:E; [done|].
    rewrite (Hf p ws); [by eapply ci_from|done|lia].
  - intros p q Hp. destruct (ci_copied _ _ _ _ _ _ _ Hi _ _ Hp) as (ws & Hw & H1 & H2 & H3 & H4).
    pose proof (fc_length _ _ _ _ (cl_from _ _ _ _ Hc _ _ Hw)).
    exists ws. rewrite !(Hf p ws) by (done || lia). split_and!; auto.
  - intros p q ws i x Hp Hw Hx. pose proof (lookup_lt_Some _ _ _ Hx).
    destruct (ci_copied _ _ _ _ _ _ _ Hi _ _ Hp) as (ws' & Hw' & _ & _ & Hq & _). simplify_eq.
    rewrite (Ht q (Z.of_nat (length ws))); [|done|lia]. by eapply ci_words.
Qed.

(** * A new to-page *)

Definition wrapped (T : to_space) : list (Z * Z) :=
  ts_full T ++ match ts_cur T with Some pn => [(pn, (ts_tp T - PAGE_SIZE * pn) / 4)] | None => [] end.

(** The to-space after [new_to_page] took the page [pn]. *)
Definition next_page (T : to_space) (pn : Z) (free : list Z) : to_space :=
  ToSpace (wrapped T) (Some pn) free (PAGE_SIZE * pn + 8) (PAGE_SIZE * (pn + 1)).

Lemma next_page_pages T pn free : ts_pages (next_page T pn free) = ts_pages T ++ [pn].
Proof.
  unfold ts_pages, next_page, wrapped. simpl. rewrite fmap_app, <- !app_assoc. f_equal. by destruct (ts_cur T).
Qed.

Lemma next_page_in T pn free q n : (∀ pn, ts_cur T = Some pn → ts_tp T mod 4 = 0) →
  in_to_space T q n → in_to_space (next_page T pn free) q n.
Proof.
  intros Hm [Hq H]. split; [done|]. left. destruct H as [(pn' & u & Hin & H)|(pn' & Hcur & Hlo & Hhi)].
  - exists pn', u. split; [|done]. apply elem_of_app. by left.
  - exists pn', ((ts_tp T - PAGE_SIZE * pn') / 4). split; [|split; [done|]].
    + apply elem_of_app. right. rewrite Hcur. by left.
    + specialize (Hm _ Hcur). change PAGE_SIZE with 65536 in *. zdiv.
Qed.

(** There is another free page. *)
Lemma another_page R T s n : pages_inv 0 R T s → 2 ≤ n → ts_te T < ts_tp T + 4 * n → n ≤ total_words R →
  total_words R ≤ total_words F → ts_free T ≠ [].
Proof.
  intros Hp Hn Hfull HnR HRF Hfree. pose proof (cl_pages _ _ _ _ Hc) as Hpg.
  rewrite (pi_split _ _ _ _ _ _ _ _ Hp), Hfree in Hpg. pose proof (pi_cur _ _ _ _ _ _ _ _ Hp) as Hcur.
  unfold ts_pages in Hpg. rewrite !length_app, length_fmap in Hpg. destruct (ts_cur T) as [pn|]; simpl in Hpg.
  - destruct Hcur as (_ & Hlo & Hte & Hm & Hb). change N with 16384 in *. change PAGE_SIZE with 65536 in *. zdiv.
  - destruct Hcur as (_ & _ & _ & Hf). rewrite Hf in Hpg. simpl in Hpg. lia.
Qed.
(** The memory after the current page is wrapped up. *)
Definition wrapped_mem (T : to_space) (m : gmap Z Z) : gmap Z Z :=
  match ts_cur T with
  | Some pn => <[PAGE_SIZE * pn + 4 := (ts_tp T - PAGE_SIZE * pn) / 4]> m
  | None => m
  end.

Lemma wrapped_mem_ne sl R T s a : pages_inv sl R T s →
  (∀ pn, pn ∈ ts_pages T → in_page pn a → PAGE_SIZE * pn + 8 ≤ a) → wrapped_mem T (mem s) !! a = mem s !! a.
Proof.
  intros Hp Ha. unfold wrapped_mem. destruct (ts_cur T) as [pn|] eqn:E; [|done].
  apply lookup_insert_ne. intros <-. specialize (Ha pn (cur_in_pages _ _ E)). unfold in_page in Ha.
  change PAGE_SIZE with 65536 in *. lia.
Qed.

Lemma wrapped_mem_some T m a : is_Some (m !! a) → is_Some (wrapped_mem T m !! a).
Proof.
  unfold wrapped_mem. destruct (ts_cur T) as [pn|]; [|done]. intros H.
  destruct (decide (PAGE_SIZE * pn + 4 = a)) as [<-|]; [rewrite lookup_insert_eq; eauto|by rewrite lookup_insert_ne].
Qed.

Lemma wrapped_mem_first T m pn : wrapped_mem T m !! (PAGE_SIZE * pn) = m !! (PAGE_SIZE * pn).
Proof.
  unfold wrapped_mem. destruct (ts_cur T) as [pc|]; [|done]. apply lookup_insert_ne. change PAGE_SIZE with 65536. lia.
Qed.

Lemma wp_wrap sl R T s pn (Q : unit → state → Prop) :
  pages_inv sl R T s → to_ptr (gc s) = ts_tp T → ts_cur T = Some pn →
  Q tt (set_mem (wrapped_mem T (mem s)) s) → wp (wrap_up_page pn) Q s.
Proof.
  intros Hp Etp Ecur HQ. pose proof (pi_cur _ _ _ _ _ _ _ _ Hp) as H. rewrite Ecur in H.
  destruct H as (_ & Hlo & Hte & _). apply wp_bind, wp_gcs. rewrite Etp. unfold PAGE_SET_NUMBER_OF_WORDS_IN_USE, PAGE_NUMBER_TO_PAGE_PTR.
  apply wp_bind, wp_assert.
  { apply bool_decide_eq_true. change N with 16384. change PAGE_SIZE with 65536 in *. zdiv. }
  apply wp_store; [by apply (pi_mapped _ _ _ _ _ _ _ _ Hp pn 1); [apply cur_in_pages|]|].
  unfold wrapped_mem in HQ. by rewrite Ecur in HQ.
Qed.

Lemma pool_frame s s' free : pool s free →
  (∀ pn a, pn ∈ free → in_page pn a → mem s' !! a = mem s !! a) →
  (∀ pn, pn ∈ free → zlookup (page_info (gc s')) pn = zlookup (page_info (gc s)) pn) →
  list_of_free_pages (gc s') = list_of_free_pages (gc s) →
  number_of_free_pages (gc s') = number_of_free_pages (gc s) → pool s' free.
Proof.
  intros Hp Hm Hi El En. split.
  - rewrite El. eapply free_chain_same, Hp. done.
  - apply Hp.
  - intros pn Hin. eapply virgin_page_same, Hp; [|done]. intros a. by apply Hm.
  - rewrite En. apply Hp.
Qed.

Lemma free_disjoint sl R T s pn : pages_inv sl R T s → pn ∈ ts_pages T → pn ∈ ts_free T → False.
Proof.
  intros Hp H1 H2. pose proof (pool_nodup _ _ (cl_pool _ _ _ _ Hc)) as Hnd.
  rewrite (pi_split _ _ _ _ _ _ _ _ Hp) in Hnd. apply NoDup_app in Hnd as (_ & Hd & _). by apply (Hd pn).
Qed.

(** The variables after [new_to_page], where [x] and [y] are the previous
    entries for the page and for the generation. *)
Definition paged (pn : Z) (x : page_info_t) (y : generation_info_t) (g : gc_state) : gc_state :=
  set_to_end (PAGE_SIZE * pn + 4 * N) (set_to_ptr (PAGE_SIZE * pn + 4 * 2)
    (set_page_info (zinsert pn (with_generation gn (with_allocated true x)) (zinsert pn (with_allocated true x) (page_info g)))
      (set_generation_info (zinsert gn (with_pages (gi_npages y + 1) (gi_page y ++ [pn]) (gi_disk_page y ++ [0]) y) (generation_info g))
        (set_to_pn pn (page_allocated pn x g))))).

Lemma wp_new_to_page_run sl R T s pn free (Q : unit → state → Prop) :
  pages_inv sl R T s → is_recovering (gc s) = false → to_gn (gc s) = gn →
  to_ptr (gc s) = ts_tp T → ts_free T = pn :: free →
  (∀ x y, zlookup (page_info (gc s)) pn = Some x → zlookup (generation_info (gc s)) gn = Some y →
    pool (set_gc (paged pn x y (gc s)) (set_mem (wrapped_mem T (mem s)) s)) free →
    Q tt (set_gc (paged pn x y (gc s)) (set_mem (wrapped_mem T (mem s)) s))) →
  wp new_to_page Q s.
Proof.
  intros Hp Hrec Hgn Etp Hfree HQ. unfold new_to_page. apply wp_bind, wp_gcs, wp_bind.
  assert (Hwrap : ∀ Q' : unit → state → Prop, Q' tt (set_mem (wrapped_mem T (mem s)) s) →
    wp (if bool_decide (to_pn (gc s) ≠ INVALID_PAGE_NUMBER) then wrap_up_page (to_pn (gc s)) else mret tt) Q' s).
  { intros Q' HQ'. pose proof (pi_cur _ _ _ _ _ _ _ _ Hp) as Hcur. destruct (ts_cur T) as [pc|] eqn:Ecur.
    - destruct Hcur as (Epn & _). rewrite Epn, bool_decide_eq_true_2; [by eapply wp_wrap|].
      eapply free_chain_valid; [apply (pool_chain _ _ (cl_pool _ _ _ _ Hc))|].
      exact (pages_free _ _ _ _ _ Hp (cur_in_pages _ _ Ecur)).
    - destruct Hcur as (Epn & _). rewrite Epn, bool_decide_eq_false_2 by (intros H; by apply H). apply wp_ret.
      unfold wrapped_mem in HQ'. rewrite Ecur in HQ'. by destruct s. }
  apply Hwrap. clear Hwrap. set (s1 := set_mem (wrapped_mem T (mem s)) s) in *.
  assert (Hpool : pool s1 (pn :: free)).
  { rewrite <- Hfree. eapply pool_frame; [apply (pi_pool _ _ _ _ _ _ _ _ Hp)| |done..].
    intros pn' a Hin Ha. eapply wrapped_mem_ne; [exact Hp|]. intros pn2 H2 Ha2.
    rewrite (in_page_inj _ _ _ Ha Ha2) in Hin. destruct (free_disjoint _ _ _ _ _ Hp H2 Hin). }
  apply wp_bind. eapply wp_allocate_page; [exact Hpool|done|]. intros x Hx Hpool'.
  destruct (pi_gen _ _ _ _ _ _ _ _ Hp) as (y0 & _ & Hy).
  apply wp_bind, wp_set_gcs, wp_bind, wp_gcs. cbn [gc set_gc to_gn set_to_pn page_allocated set_number_of_free_pages set_page_info set_list_of_free_pages s1 set_mem].
  rewrite Hgn. apply wp_bind. eapply wp_put_gen; [exact Hy|]. apply wp_bind. eapply wp_put_page.
  { apply zlookup_insert. by apply zlookup_Some in Hx as [? _]. }
  apply wp_bind, wp_set_gcs. apply wp_set_gcs. apply (HQ x _ Hx Hy).
  eapply pool_frame; [exact Hpool'|done| |done|done]. intros pn' Hin. simpl.
  pose proof (pool_nodup _ _ Hpool) as [Hni _]%NoDup_cons. apply zlookup_Some in Hx as [Hr _].
  apply zlookup_insert_ne; [lia|]. by intros ->.
Qed.
Section next_page.
Context (φ : gmap Z Z) (R : gmap Z (list Z)) (pend : list Z) (T : to_space) (s : state).
Context (Hi : gc_inv 0 φ R pend T s).
Context (pn : Z) (free : list Z) (Hfree : ts_free T = pn :: free).
Context (x : page_info_t) (y : generation_info_t).
Context (Hx : zlookup (page_info (gc s)) pn = Some x) (Hy : zlookup (generation_info (gc s)) gn = Some y).
Let s' := set_gc (paged pn x y (gc s)) (set_mem (wrapped_mem T (mem s)) s).
Context (Hpool : pool s' free).

Lemma next_page_cells : cells_inv φ R pend (next_page T pn free) s'.
Proof.
  destruct Hi as [Hcl Hp _ _]. eapply cells_inv_frame; [exact Hcl| | |].
  - intros q n. apply next_page_in. intros pc Ecur. pose proof (pi_cur _ _ _ _ _ _ _ _ Hp) as H.
    rewrite Ecur in H. apply H.
  - intros p ws a Hw Ha. simpl. eapply wrapped_mem_ne; [exact Hp|]. intros pc Hin Hpc.
    destruct (from_not_free Hc _ _ _ _ Hw (pages_free _ _ _ _ _ Hp Hin) Ha Hpc).
  - intros q n a Hq Ha. simpl. eapply wrapped_mem_ne; [exact Hp|]. intros pc Hin Hpc.
    destruct (in_to_space_page _ _ _ _ _ _ _ Hp Hq Ha) as (pc' & _ & Hpc' & Hlo).
    by rewrite (in_page_inj _ _ _ Hpc Hpc').
Qed.

Lemma next_page_pages_inv n : 2 ≤ n → ts_te T < ts_tp T + 4 * n →
  pages_inv n R (next_page T pn free) s'.
Proof.
  intros Hn Hfull. destruct Hi as [Hcl Hp _ _].
  assert (Hpn : 0 ≤ pn < Z.of_nat (length (page_info (gc s)))) by by apply zlookup_Some in Hx as [? _].
  assert (Hnew : pn ∉ ts_pages T).
  { intros Hin. apply (free_disjoint _ _ _ _ pn Hp Hin). rewrite Hfree. by left. }
  destruct (pi_gen _ _ _ _ _ _ _ _ Hp) as (y0 & Hy0 & Ey).
  assert (Hgn : 0 ≤ gn < Z.of_nat (length (generation_info (gc s)))) by by apply zlookup_Some in Hy as [? _].
  split.
  - rewrite next_page_pages, <- app_assoc. simpl. rewrite <- Hfree. apply Hp.
  - exact Hpool.
  - simpl. split; [done|]. pose proof (pi_cur _ _ _ _ _ _ _ _ Hp) as Hcur.
    unfold wrapped. rewrite length_app. destruct (ts_cur T) as [pc|]; simpl.
    + destruct Hcur as (_ & Hlo & Hte & Hm & Hb). change N with 16384 in *. change PAGE_SIZE with 65536 in *.
      split; [lia|]. split; [done|]. split; [zdiv|]. zdiv.
    + destruct Hcur as (_ & _ & _ & ->). pose proof (ci_count _ _ _ _ _ _ _ Hcl). change N with 16384 in *.
      change PAGE_SIZE with 65536 in *. simpl. split; [lia|]. split; [done|]. split; zdiv.
  - intros pc u Hin. simpl in Hin. unfold wrapped in Hin. apply elem_of_app in Hin as [Hin|Hin].
    + destruct (pi_full _ _ _ _ _ _ _ _ Hp _ _ Hin) as [Hu Hr]. split; [|done].
      simpl. unfold wrapped_mem. destruct (ts_cur T) as [pc'|] eqn:Ecur; [|done].
      rewrite lookup_insert_ne; [done|]. intros E. assert (pc' = pc) as ->.
      { change PAGE_SIZE with 65536 in *. lia. }
      pose proof (pool_nodup _ _ (cl_pool _ _ _ _ Hc)) as Hnd.
      rewrite (pi_split _ _ _ _ _ _ _ _ Hp) in Hnd. unfold ts_pages in Hnd. rewrite Ecur in Hnd.
      apply NoDup_app in Hnd as [Hnd _]. apply NoDup_app in Hnd as (_ & Hd & _). apply (Hd pc); [|by left].
      apply list_elem_of_fmap. by exists (pc, u).
    + simpl. unfold wrapped_mem. pose proof (pi_cur _ _ _ _ _ _ _ _ Hp) as Hcur.
      destruct (ts_cur T) as [pc'|] eqn:Ecur; [|by apply not_elem_of_nil in Hin].
      apply list_elem_of_singleton in Hin as [= -> ->]. rewrite lookup_insert_eq. split; [done|].
      change N with 16384 in *. change PAGE_SIZE with 65536 in *. zdiv.
  - intros pc i Hin Hr. rewrite next_page_pages in Hin. simpl. apply wrapped_mem_some.
    apply elem_of_app in Hin as [Hin| ->%list_elem_of_singleton]; [by apply (pi_mapped _ _ _ _ _ _ _ _ Hp)|].
    assert (Hv : virgin_page (mem s) pn).
    { apply (pool_virgin _ _ (pi_pool _ _ _ _ _ _ _ _ Hp)). rewrite Hfree. by left. }
    destruct Hv as [H0 H1]. destruct (decide (i = 0)) as [->|]; [|rewrite H1 by lia; eauto].
    rewrite Z.mul_0_r, Z.add_0_r, H0. eauto.
  - intros pc Hin. rewrite next_page_pages in Hin. cbn [s' set_gc set_mem mem].
    assert (Hpc0 : in_page pc (PAGE_SIZE * pc)) by (unfold in_page; change PAGE_SIZE with 65536; lia).
    apply elem_of_app in Hin as [Hin| ->%list_elem_of_singleton].
    + rewrite wrapped_mem_first. by apply (pi_magic _ _ _ _ _ _ _ _ Hp).
    + rewrite wrapped_mem_first. apply (pool_virgin _ _ (pi_pool _ _ _ _ _ _ _ _ Hp)). rewrite Hfree. by left.
  - intros pc Hin. rewrite next_page_pages in Hin. simpl. destruct (decide (pc = pn)) as [->|Hne].
    + eexists. rewrite zlookup_insert by by rewrite length_zinsert. done.
    + rewrite !zlookup_insert_ne by (lia || done). apply elem_of_app in Hin as [Hin| ->%list_elem_of_singleton]; [|done].
      by apply (pi_page _ _ _ _ _ _ _ _ Hp).
  - intros pc Hin. rewrite next_page_pages, elem_of_app, list_elem_of_singleton in Hin. simpl.
    rewrite !zlookup_insert_ne by (lia || tauto). apply (pi_other _ _ _ _ _ _ _ _ Hp). tauto.
  - exists y0. split; [done|]. simpl. rewrite zlookup_insert by done. rewrite next_page_pages.
    rewrite Ey in Hy. injection Hy as <-. unfold with_pages. simpl. rewrite length_app. simpl.
    rewrite Nat.add_1_r. do 2 f_equal; [lia|]. symmetry. apply replicate_cons_app.
  - pose proof (pi_used _ _ _ _ _ _ _ _ Hp) as Hused. pose proof (pi_cur _ _ _ _ _ _ _ _ Hp) as Hcur. simpl.
    unfold wrapped. rewrite length_app. change N with 16384 in *. change PAGE_SIZE with 65536 in *.
    destruct (ts_cur T) as [pc|]; simpl; zdiv.
Qed.

Lemma next_page_inv n : 2 ≤ n → ts_te T < ts_tp T + 4 * n → gc_inv n φ R pend (next_page T pn free) s'.
Proof.
  intros Hn Hfull. split; [apply next_page_cells|by apply next_page_pages_inv| |]; destruct Hi as [_ Hp Hr Hf].
  - intros g z Hz Hg. simpl. apply zlookup_Some in Hy as [Hgn _]. rewrite zlookup_insert_ne by (lia || done). by apply Hr.
  - destruct Hf as [? ? ? Hm Hd]. split; simpl; rewrite ?length_zinsert; try done.
    + intros a Ha Hfrom. rewrite <- (Hm a); [|intros pc Hin; apply Ha; rewrite next_page_pages; apply elem_of_app; by left|done].
      eapply wrapped_mem_ne; [exact Hp|]. intros pc Hin Hpc. destruct (Ha pc); [|done].
      rewrite next_page_pages. apply elem_of_app. by left.
    + intros a Ha. apply wrapped_mem_some. by apply Hd.
Qed.
End next_page.

(** [new_to_page], when the current page has no place for [n] words and a cell of
    that size is still to be copied. *)
Lemma wp_new_to_page φ R pend T s n (Q : unit → state → Prop) :
  gc_inv 0 φ R pend T s → to_ptr (gc s) = ts_tp T → 2 ≤ n → n ≤ total_words R → ts_te T < ts_tp T + 4 * n →
  (∀ T' s', gc_inv n φ R pend T' s' → (∃ pn, ts_cur T' = Some pn) → ts_tp T' + 4 * (N - 2) = ts_te T' →
    to_ptr (gc s') = ts_tp T' → to_end (gc s') = ts_te T' → copy_stack (gc s') = copy_stack (gc s) →
    others s s' → Q tt s') →
  wp new_to_page Q s.
Proof.
  intros Hi Etp Hn HnR Hfull HQ.
  assert (HRF : total_words R ≤ total_words F) by (pose proof (ci_count _ _ _ _ _ _ _ (inv_cells _ _ _ _ _ _ _ _ _ _ _ Hi)); lia).
  pose proof (another_page _ _ _ _ (inv_pages _ _ _ _ _ _ _ _ _ _ _ Hi) Hn Hfull HnR HRF) as Hne.
  destruct (ts_free T) as [|pn free] eqn:Hfree; [done|]. clear Hne.
  pose proof (inv_frame _ _ _ _ _ _ _ _ _ _ _ Hi) as Hfr.
  eapply wp_new_to_page_run; [apply Hi| | |done|done|].
  - rewrite (fi_recovering _ _ _ _ Hfr). apply Hc.
  - rewrite (fi_to_gn _ _ _ _ Hfr). apply Hc.
  - intros x y Hx Hy Hpool. apply (HQ (next_page T pn free)); [by apply next_page_inv| | | | |done|by split]; simpl.
    + eauto.
    + change N with 16384. change PAGE_SIZE with 65536. lia.
    + done.
    + change N with 16384. change PAGE_SIZE with 65536. lia.
Qed.
(** * Copying the words of a cell *)

(** The variables after some pointers were put on the stack. *)
Definition stacked (st : list Z) (m : gmap Z Z) (s : state) : state := set_gc (set_copy_stack st (gc s)) (set_mem m s).

Section fields.
Context (s : state) (p q : Z) (ws : list Z) (t : cell_type) (fs : list (decl * Z)).
Context (Hshape : gc_shape ws = Some (t, fs)).
Context (Hidx : ∀ j d i, fs !! j = Some (d, i) → i = 1 + Z.of_nat j) (Hlen : (1 + length fs)%nat = length ws).
Context (Hfrom : ∀ i x, ws !! i = Some x → mem s !! (p + 4 * Z.of_nat i) = Some x).
Context (Hmapped : ∀ i, 0 ≤ i < Z.of_nat (length ws) → is_Some (mem s !! (q + 4 * i))).
Context (Hdisj : ∀ a, p ≤ a < p + 4 * Z.of_nat (length ws) → ¬ (q ≤ a < q + 4 * Z.of_nat (length ws))).
Context (Hnon : ∀ j i x, fs !! j = Some (DECLARE_NONNULL_PTR, i) → ws !! S j = Some x → x ≠ NULL_WORD).
Context (Hdead : ∀ i x, ref_at ws i = true → ws !! i = Some x → x < FIRST_GENERATION_DEADBEEF).

Lemma wp_copy_field k d x m st (Q : unit + Empty_set → state → Prop) :
  fs !! k = Some (d, 1 + Z.of_nat k) → ws !! S k = Some x → wrote q (take (S k) ws) (mem s) m →
  (∀ m', wrote q (take (S (S k)) ws) (mem s) m' →
    Q (inl tt) (stacked ((if ref_at ws (S k) then [q + 4 * Z.of_nat (S k)] else []) ++ st) m' s)) →
  wp (copy_field p q d (1 + Z.of_nat k) tt) Q (stacked st m s).
Proof.
  intros Hk Hx Hw HQ. pose proof (lookup_lt_Some _ _ _ Hx) as Hl. pose proof Hw as (_ & Hsame & Hsome).
  rewrite length_take, Nat.min_l in Hsame by lia.
  assert (Hrd : ∀ s1 (Q' : Z → state → Prop), mem s1 = m → Q' x s1 → wp (rd p (1 + Z.of_nat k)) Q' s1).
  { intros s1 Q' Em HQ'. unfold rd. eapply wp_load; [|exact HQ']. rewrite Em.
    replace (1 + Z.of_nat k) with (Z.of_nat (S k)) by lia.
    rewrite Hsame; [by apply Hfrom|]. specialize (Hdisj (p + 4 * Z.of_nat (S k))). lia. }
  specialize (HQ (<[q + 4 * Z.of_nat (S k) := x]> m)).
  assert (Hwr : ∀ s1 (Q' : unit → state → Prop), mem s1 = m → Q' tt (set_mem (<[q + 4 * Z.of_nat (S k) := x]> m) s1) →
    wp (wr q (1 + Z.of_nat k) x) Q' s1).
  { intros s1 Q' Em HQ'. unfold wr. replace (1 + Z.of_nat k) with (Z.of_nat (S k)) by lia.
    apply wp_store; rewrite Em; [|done]. apply Hsome, Hmapped. lia. }
  assert (Hq : wrote q (take (S (S k)) ws) (mem s) (<[q + 4 * Z.of_nat (S k) := x]> m)).
  { rewrite (take_S_r _ _ _ Hx). replace (Z.of_nat (S k)) with (Z.of_nat (length (take (S k) ws))).
    - by apply wrote_snoc.
    - rewrite length_take. lia. }
  specialize (HQ Hq). pose proof (ref_at_decl _ _ _ _ _ _ _ Hshape Hk Hx) as Href. rewrite Href in HQ.
  assert (Hnd : is_pointer d x = true → negb (bool_decide (x = FIRST_GENERATION_DEADBEEF)) = true).
  { intros Hd. apply negb_true_iff, bool_decide_eq_false. intros ->. specialize (Hdead (S k) _ ltac:(rewrite Href; unfold ref; by rewrite Hd) Hx). lia. }
  replace (q + 4 * Z.of_nat (S k)) with (q + 4 * (1 + Z.of_nat k)) in * by lia.
  unfold ref in HQ. destruct d; simpl in HQ; simpl copy_field; simpl in Hnd.
  - apply wp_bind, Hrd; [done|]. apply wp_bind, Hwr; [done|]. by apply wp_ret.
  - apply wp_bind, Hrd; [done|]. apply wp_bind, wp_assert; [by apply Hnd|].
    apply wp_bind, Hrd; [done|]. apply wp_bind, Hwr; [done|]. rewrite bool_decide_not. apply wp_bind.
    destruct (bool_decide (x = NULL_WORD)); simpl in *; by repeat apply wp_ret.
  - pose proof (Hnon _ _ _ Hk Hx) as Hx0. rewrite bool_decide_eq_false_2 in HQ by done.
    apply wp_bind, Hrd; [done|]. apply wp_bind, wp_assert; [by apply Hnd|].
    apply wp_bind, Hrd; [done|]. apply wp_bind, Hwr; [done|]. apply wp_bind, wp_assert; [by apply bool_decide_eq_true|].
    by apply wp_bind, wp_bind, wp_gcs, wp_set_gcs, wp_ret.
  - apply wp_bind, Hrd; [done|]. apply wp_bind, Hwr; [done|]. rewrite bool_decide_not. apply wp_bind.
    destruct (TAGGED_IS_PTR x && negb (bool_decide (x = NULL_WORD))); simpl in *; by repeat apply wp_ret.
Qed.

Lemma wp_copy_fields st l k m (Q : unit + Empty_set → state → Prop) :
  drop k fs = l → (k ≤ length fs)%nat → wrote q (take (S k) ws) (mem s) m →
  (∀ m', wrote q ws (mem s) m' → Q (inl tt) (stacked (pushes q ws (length ws) ++ st) m' s)) →
  wp (declare_all (copy_field p q) l tt) Q (stacked (pushes q ws (S k) ++ st) m s).
Proof.
  revert k m. induction l as [|[d i] l IH]; intros k m Hl Hle Hw HQ; simpl.
  - apply (f_equal length) in Hl. rewrite length_drop in Hl. simpl in Hl. apply wp_ret.
    replace (S k) with (length ws) in * by lia. apply HQ. by rewrite firstn_all in Hw.
  - assert (Hk : fs !! k = Some (d, i)) by (rewrite <- (Nat.add_0_r k), <- lookup_drop, Hl; done).
    pose proof (Hidx _ _ _ Hk) as ->. pose proof (lookup_lt_Some _ _ _ Hk).
    destruct (lookup_lt_is_Some_2 ws (S k)) as [x Hx]; [lia|].
    apply wp_bind. eapply wp_copy_field; [done..|]. intros m' Hw'. rewrite app_assoc, <- pushes_S.
    apply IH; [|lia|done|done]. rewrite <- Nat.add_1_r, <- drop_drop, Hl. done.
Qed.

(** The block of a cell of the shape of [ws]. *)
Lemma wp_copy_block st fuel p0 m (Q : unit + Empty_set → state → Prop) :
  ws !! 0%nat = Some p0 → wrote q [p0] (mem s) m →
  (∀ m', wrote q ws (mem s) m' → Q (inl tt) (stacked (pushes q ws (length ws) ++ st) m' s)) →
  wp (field_declaration_block (copy_field p q) fuel t p p0 tt) Q (stacked st m s).
Proof.
  intros H0 Hw HQ. destruct (gc_shape_Some _ _ _ Hshape) as (w & Hw0 & _ & Hd). simplify_eq.
  assert (Hall : ∀ Q' : unit + Empty_set → state → Prop,
    (∀ m', wrote q ws (mem s) m' → Q' (inl tt) (stacked (pushes q ws (length ws) ++ st) m' s)) →
    wp (declare_all (copy_field p q) fs tt) Q' (stacked st m s)).
  { intros Q' HQ'. assert (E1 : pushes q ws 1 = []) by (rewrite pushes_S; unfold ref_at; by rewrite Hshape).
    rewrite <- (app_nil_l st), <- E1. apply (wp_copy_fields st fs 0); [done|lia| |done].
    rewrite (take_S_r _ _ _ H0). done. }
  unfold field_declaration_block. unfold gc_def in Hd. destruct (simple_cell t p0) as [[n fs']|]; simplify_eq; [by apply Hall|].
  case_bool_decide as Ht; [|done]. destruct Ht as [-> Hmax]. injection Hd as _ Efs. unfold generation_pinfo_block, and_then.
  rewrite Efs. apply wp_bind, Hall. intros m' Hw'. apply wp_bind, wp_assert; [by apply bool_decide_eq_true|].
  apply wp_ret. by apply HQ.
Qed.
End fields.
(** * A cell is copied *)

(** The to-space after [n] more words were taken from the current page. *)
Definition bump (T : to_space) (n : Z) : to_space :=
  ToSpace (ts_full T) (ts_cur T) (ts_free T) (ts_tp T + 4 * n) (ts_te T).

Lemma full_not_cur sl R T s pn pc u : pages_inv sl R T s → (pn, u) ∈ ts_full T → ts_cur T = Some pc → pn ≠ pc.
Proof.
  intros Hp Hin Ecur ->. pose proof (pool_nodup _ _ (cl_pool _ _ _ _ Hc)) as Hnd.
  rewrite (pi_split _ _ _ _ _ _ _ _ Hp) in Hnd. unfold ts_pages in Hnd. rewrite Ecur in Hnd.
  apply NoDup_app in Hnd as [Hnd _]. apply NoDup_app in Hnd as (_ & Hd & _). apply (Hd pc); [|by left].
  apply list_elem_of_fmap. by exists (pc, u).
Qed.

(** What was allocated before is elsewhere. *)
Lemma bump_disjoint sl R T s q n a : pages_inv sl R T s → in_to_space T q n → q ≤ a < q + 4 * n →
  ∀ n', ts_tp T + 4 * n' ≤ ts_te T → ¬ (ts_tp T ≤ a < ts_tp T + 4 * n').
Proof.
  intros Hp [_ Hq] Ha n' Hn' Ha'. pose proof (pi_cur _ _ _ _ _ _ _ _ Hp) as Hcur.
  destruct (ts_cur T) as [pc|] eqn:Ecur; [|lia]. destruct Hcur as (_ & Hlo & Hte & _).
  destruct Hq as [(pn & u & Hin & Hlo' & Hhi)|(pn & E & Hlo' & Hhi)].
  - pose proof (full_not_cur _ _ _ _ _ _ _ Hp Hin Ecur) as Hne.
    destruct (pi_full _ _ _ _ _ _ _ _ Hp _ _ Hin) as [_ Hu]. apply Hne, (in_page_inj _ _ a); unfold in_page;
      change N with 16384 in *; change PAGE_SIZE with 65536 in *; lia.
  - lia.
Qed.

Lemma in_to_space_bump T q n n' : 0 ≤ n' → in_to_space T q n → in_to_space (bump T n') q n.
Proof.
  intros Hn [Hm [H|(pn & E & H)]]; (split; [done|]); [by left|]. right. exists pn. simpl. split; [done|]. lia.
Qed.

Section copied.
Context (φ : gmap Z Z) (R : gmap Z (list Z)) (pend : list Z) (T : to_space) (s : state).
Context (p : Z) (ws : list Z) (Hp : R !! p = Some ws) (Hreach : reaches F roots p).
Let n := Z.of_nat (length ws).
Let q := ts_tp T.
Context (Hi : gc_inv n φ R pend T s) (Hcur : ∃ pc, ts_cur T = Some pc) (Hroom : ts_tp T + 4 * n ≤ ts_te T).
Context (m' : gmap Z Z) (Hwrote : wrote q ws (mem s) m').
Context (s' : state) (Hmem : mem s' = <[p + 4 := q]> (<[p := FORWARDED]> m')).
Context (Hsame : ∃ st, gc s' = set_copy_stack st (gc s)).
Context (Hfg : first_generation_start s' = first_generation_start s ∧ first_generation_end s' = first_generation_end s ∧
  first_generation_allocation_ptr s' = first_generation_allocation_ptr s).

Lemma copied_from : F !! p = Some ws ∧ φ !! p = None.
Proof.
  pose proof (ci_rest _ _ _ _ _ _ _ (inv_cells _ _ _ _ _ _ _ _ _ _ _ Hi) p) as H. rewrite Hp in H. by destruct (φ !! p).
Qed.

Lemma copied_length : 2 ≤ n ≤ N - 2.
Proof. destruct copied_from as [Hw _]. apply (cl_from _ _ _ _ Hc _ _ Hw). Qed.

(** The copy's place is on the current page. *)
Lemma copied_page a : q ≤ a < q + 4 * n → ∃ pc, pc ∈ ts_pages T ∧ in_page pc a ∧ PAGE_SIZE * pc + 8 ≤ a.
Proof.
  intros Ha. destruct Hcur as [pc Ecur]. exists pc. split; [by apply cur_in_pages|].
  pose proof (pi_cur _ _ _ _ _ _ _ _ (inv_pages _ _ _ _ _ _ _ _ _ _ _ Hi)) as H. rewrite Ecur in H.
  subst q n. unfold in_page. change PAGE_SIZE with 65536 in *. lia.
Qed.

Lemma copied_not_from p' ws' a : F !! p' = Some ws' → p' ≤ a < p' + 4 * Z.of_nat (length ws') →
  ¬ (q ≤ a < q + 4 * n).
Proof.
  intros Hw Ha Hqa. destruct (copied_page a Hqa) as (pc & Hin & Hpg & _).
  eapply (from_not_free Hc); [exact Hw| |exact Ha|exact Hpg]. eapply pages_free; [apply Hi|done].
Qed.

(** Nothing changes but the two cells. *)
Lemma copied_mem a : ¬ (q ≤ a < q + 4 * n) → ¬ (p ≤ a < p + 4 * n) → mem s' !! a = mem s !! a.
Proof.
  intros Hq Hpa. pose proof copied_length. destruct Hwrote as (_ & Hw & _). rewrite Hmem, !lookup_insert_ne by lia. by apply Hw.
Qed.

Lemma copied_mem_from p' ws' a : F !! p' = Some ws' → p' ≠ p → p' ≤ a < p' + 4 * Z.of_nat (length ws') →
  mem s' !! a = mem s !! a.
Proof.
  intros Hw Hne Ha. destruct copied_from as [Hpw _]. apply copied_mem; [by apply (copied_not_from p' ws')|].
  pose proof (cl_sep _ _ _ _ Hc _ _ _ _ Hw Hpw Hne) as Hd. unfold disj in Hd. simpl in Hd. subst n. lia.
Qed.

Lemma copied_mem_to p' q' ws' a : φ !! p' = Some q' → F !! p' = Some ws' → q' ≤ a < q' + 4 * Z.of_nat (length ws') →
  mem s' !! a = mem s !! a ∧ ¬ (q ≤ a < q + 4 * n).
Proof.
  intros Hp' Hw Ha. destruct copied_from as [Hpw _].
  destruct (ci_copied _ _ _ _ _ _ _ (inv_cells _ _ _ _ _ _ _ _ _ _ _ Hi) _ _ Hp') as (ws1 & Hw1 & _ & _ & Hin & _). simplify_eq.
  assert (Hnq : ¬ (q ≤ a < q + 4 * n)).
  { eapply bump_disjoint; [apply Hi|exact Hin|lia|exact Hroom]. }
  split; [|done]. apply copied_mem; [done|]. intros Hpa.
  eapply from_not_to; [apply Hi|exact Hpw|exact Hpa|exact Hin|lia].
Qed.

Lemma copied_mem_new i x : ws !! i = Some x → mem s' !! (q + 4 * Z.of_nat i) = Some x.
Proof.
  intros Hx. pose proof (lookup_lt_Some _ _ _ Hx). pose proof copied_length. destruct copied_from as [Hpw _].
  pose proof (copied_not_from p ws p Hpw). pose proof (copied_not_from p ws (p + 4) Hpw).
  destruct Hwrote as (Hw & _). rewrite Hmem, !lookup_insert_ne; [by apply Hw|subst n; lia..].
Qed.

Lemma copied_in : in_to_space (bump T n) q n.
Proof.
  destruct Hcur as [pc Ecur].
  pose proof (pi_cur _ _ _ _ _ _ _ _ (inv_pages _ _ _ _ _ _ _ _ _ _ _ Hi)) as H. rewrite Ecur in H.
  split; [apply H|]. right. exists pc. simpl. subst q. split; [done|]. lia.
Qed.

(** An address that is still pending is in an older copy. *)
Lemma pend_not_new a : a ∈ pend → ¬ (q ≤ a < q + 4 * n).
Proof.
  intros Ha. destruct (ci_pend _ _ _ _ _ _ _ (inv_cells _ _ _ _ _ _ _ _ _ _ _ Hi) _ Ha) as (p' & q' & ws' & i & Hp' & Hw & Hr & ->).
  destruct (ref_at_lookup _ _ Hr) as (_ & x & Hx & _). pose proof (lookup_lt_Some _ _ _ Hx).
  eapply copied_mem_to; [done..|]. lia.
Qed.

Lemma pushes_new a : a ∈ pushes q ws (length ws) → q ≤ a < q + 4 * n.
Proof. intros H. by eapply pushes_field. Qed.

Lemma copied_cells : cells_inv (<[p := q]> φ) (delete p R) (pushes q ws (length ws) ++ pend) (bump T n) s'.
Proof.
  pose proof (inv_cells _ _ _ _ _ _ _ _ _ _ _ Hi) as Hcl. destruct copied_from as [Hpw Hpφ]. pose proof copied_length as Hn.
  split.
  - intros p'. pose proof (ci_rest _ _ _ _ _ _ _ Hcl p') as H. destruct (decide (p' = p)) as [->|].
    + by rewrite lookup_delete_eq, lookup_insert_eq.
    + by rewrite lookup_delete_ne, lookup_insert_ne.
  - intros p' ws' i x [Hne Hw]%lookup_delete_Some Hx. pose proof (lookup_lt_Some _ _ _ Hx).
    pose proof (ci_rest _ _ _ _ _ _ _ Hcl p') as H'. rewrite Hw in H'. destruct (φ !! p'); [done|].
    rewrite (copied_mem_from p' ws'); [by eapply ci_from|done|done|lia].
  - intros p' q' [[<- <-]|[Hne Hp']]%lookup_insert_Some.
    + exists ws. split; [done|]. rewrite Hmem. rewrite lookup_insert_eq, lookup_insert_ne, lookup_insert_eq by lia.
      split; [done|]. split; [done|]. split; [apply copied_in|done].
    + destruct (ci_copied _ _ _ _ _ _ _ Hcl _ _ Hp') as (ws' & Hw & H1 & H2 & H3 & H4). exists ws'.
      pose proof (fc_length _ _ _ _ (cl_from _ _ _ _ Hc _ _ Hw)).
      rewrite !(copied_mem_from p' ws') by (done || lia). split_and!; [done..| |done].
      apply in_to_space_bump; [lia|done].
  - intros p' q' ws' i x [[<- <-]|[Hne Hp']]%lookup_insert_Some Hw Hx; pose proof (lookup_lt_Some _ _ _ Hx).
    + simplify_eq. rewrite (copied_mem_new _ _ Hx). case_bool_decide as Hin; [done|]. unfold forward_at.
      destruct (ref_at ws i) eqn:Hr; [|done]. destruct Hin. apply elem_of_app. left. apply pushes_In. by exists i.
    + destruct (copied_mem_to p' q' ws' (q' + 4 * Z.of_nat i) Hp' Hw ltac:(lia)) as [-> Hnew].
      rewrite (ci_words _ _ _ _ _ _ _ Hcl _ _ _ _ _ Hp' Hw Hx). f_equal.
      assert (Hiff : q' + 4 * Z.of_nat i ∈ pend ↔ q' + 4 * Z.of_nat i ∈ pushes q ws (length ws) ++ pend).
      { rewrite elem_of_app. split; [by right|]. intros [Hin|]; [|done]. by apply pushes_new in Hin. }
      rewrite <- (bool_decide_ext _ _ Hiff). case_bool_decide as Hin; [done|]. unfold forward_at.
      destruct (ref_at ws' i) eqn:Hr; [|done]. symmetry. apply forward_insert_ne. intros ->.
      destruct (ci_done _ _ _ _ _ _ _ Hcl _ _ _ _ _ Hp' Hw Hx Hr Hin); [eauto|]. congruence.
  - intros p' q' ws' i x [[<- <-]|[Hne Hp']]%lookup_insert_Some Hw Hx Hr Hin Hfx.
    + simplify_eq. destruct Hin. apply elem_of_app. left. apply pushes_In. exists i. apply lookup_lt_Some in Hx. done.
    + rewrite elem_of_app in Hin. destruct (decide (x = p)) as [->|]; [rewrite lookup_insert_eq; eauto|].
      rewrite lookup_insert_ne by done. eapply ci_done; [exact Hcl|exact Hp'|exact Hw|exact Hx|exact Hr|tauto|done].
  - apply NoDup_app. split; [apply pushes_NoDup|]. split; [|apply Hcl]. intros a H1 H2.
    by apply (pend_not_new a H2), pushes_new.
  - intros a [Ha|Ha]%elem_of_app.
    + apply pushes_In in Ha as (i & _ & Hr & ->). exists p, q, ws, i. by rewrite lookup_insert_eq.
    + destruct (ci_pend _ _ _ _ _ _ _ Hcl _ Ha) as (p' & q' & ws' & i & Hp' & H). exists p', q', ws', i.
      rewrite lookup_insert_ne; [done|]. intros <-. congruence.
  - assert (Hnew : ∀ p' q' ws', φ !! p' = Some q' → F !! p' = Some ws' → disj (q, ws) (q', ws')).
    { intros p' q' ws' Hp' Hw. unfold disj. simpl. fold n.
      pose proof (fc_length _ _ _ _ (cl_from _ _ _ _ Hc _ _ Hw)).
      pose proof (λ a H, proj2 (copied_mem_to p' q' ws' a Hp' Hw H)) as Hd.
      destruct (Z.le_gt_cases (q + 4 * n) q'); [by left|]. destruct (Z.le_gt_cases (q' + 4 * Z.of_nat (length ws')) q); [by right|].
      exfalso. destruct (Z.le_gt_cases q q'); [apply (Hd q'); lia|apply (Hd q); lia]. }
    intros p1 q1 ws1 p2 q2 ws2 [[<- <-]|[Hne1 Hp1]]%lookup_insert_Some Hw1 [[<- <-]|[Hne2 Hp2]]%lookup_insert_Some Hw2 Hne.
    + done.
    + simplify_eq. by eapply Hnew.
    + simplify_eq. apply disj_sym. by eapply Hnew.
    + by eapply (ci_sep _ _ _ _ _ _ _ Hcl).
  - pose proof (ci_count _ _ _ _ _ _ _ Hcl). rewrite length_app, map_size_insert_None by done.
    pose proof (total_words_delete _ _ _ Hp). pose proof (length_pushes q ws (length ws - 1)) as Hl.
    replace (S (length ws - 1)) with (length ws) in Hl by (subst n; lia). subst n. lia.
Qed.

Lemma copied_mem_page pc a : pc ∈ free0 → in_page pc a → ¬ (q ≤ a < q + 4 * n) → mem s' !! a = mem s !! a.
Proof.
  intros Hin Hpg Hq. apply copied_mem; [done|]. intros Ha. destruct copied_from as [Hpw _].
  by eapply (from_not_free Hc).
Qed.

Lemma copied_mapped a : is_Some (mem s !! a) → is_Some (mem s' !! a).
Proof.
  intros Ha. rewrite Hmem. destruct Hwrote as (_ & _ & Hw).
  destruct (decide (p + 4 = a)) as [<-|]; [rewrite lookup_insert_eq; eauto|rewrite lookup_insert_ne by done].
  destruct (decide (p = a)) as [<-|]; [rewrite lookup_insert_eq; eauto|rewrite lookup_insert_ne by done]. by apply Hw.
Qed.

Lemma copied_pages_inv : pages_inv 0 (delete p R) (bump T n) s'.
Proof.
  pose proof (inv_pages _ _ _ _ _ _ _ _ _ _ _ Hi) as Hpg. pose proof copied_length as Hn.
  destruct Hsame as [st Egc]. split.
  - apply Hpg.
  - eapply pool_frame; [apply Hpg| |by rewrite Egc..]. intros pc a Hin Ha.
    apply (copied_mem_page pc); [|done|].
    { rewrite (pi_split _ _ _ _ _ _ _ _ Hpg). apply elem_of_app. by right. }
    intros Hq. destruct (copied_page a Hq) as (pc' & Hin' & Ha' & _). rewrite (in_page_inj _ _ _ Ha Ha') in Hin.
    by eapply free_disjoint.
  - pose proof (pi_cur _ _ _ _ _ _ _ _ Hpg) as H. destruct Hcur as [pc Ecur]. simpl. rewrite Ecur in *.
    destruct H as (E & Hlo & Hte & Hm & Hb). rewrite Egc. simpl.
    pose proof (total_words_delete _ _ _ Hp). fold n in H. change N with 16384 in *. change PAGE_SIZE with 65536 in *.
    split; [done|]. split; [lia|]. split; [done|]. split; [zdiv|]. zdiv.
  - intros pc u Hin. destruct (pi_full _ _ _ _ _ _ _ _ Hpg _ _ Hin) as [Hm Hu]. split; [|done].
    assert (Hpc : in_page pc (PAGE_SIZE * pc + 4)) by (unfold in_page; change PAGE_SIZE with 65536; lia).
    rewrite (copied_mem_page pc); [done|eapply pages_free; [exact Hpg|by eapply full_in_pages]|done|].
    intros Hq. destruct (copied_page _ Hq) as (pc' & _ & Ha' & Hlo). rewrite (in_page_inj _ _ _ Hpc Ha') in Hlo. lia.
  - intros pc i Hin Hr. by apply copied_mapped, (pi_mapped _ _ _ _ _ _ _ _ Hpg).
  - intros pc Hin. assert (Hpc : in_page pc (PAGE_SIZE * pc)) by (unfold in_page; change PAGE_SIZE with 65536; lia).
    rewrite (copied_mem_page pc); [by apply (pi_magic _ _ _ _ _ _ _ _ Hpg)|by eapply pages_free|done|].
    intros Hq. destruct (copied_page _ Hq) as (pc' & _ & Ha' & Hlo). rewrite (in_page_inj _ _ _ Hpc Ha') in Hlo. lia.
  - intros pc Hin. rewrite Egc. by apply (pi_page _ _ _ _ _ _ _ _ Hpg).
  - intros pc Hin. rewrite Egc. by apply (pi_other _ _ _ _ _ _ _ _ Hpg).
  - rewrite Egc. apply Hpg.
  - pose proof (pi_used _ _ _ _ _ _ _ _ Hpg) as Hused. pose proof (pi_cur _ _ _ _ _ _ _ _ Hpg) as H.
    destruct Hcur as [pc Ecur]. simpl. rewrite Ecur in *. destruct H as (E & Hlo & Hte & Hm & Hb).
    pose proof (total_words_delete _ _ _ Hp). fold n in H. change N with 16384 in *. change PAGE_SIZE with 65536 in *. zdiv.
Qed.

Lemma copied_remembered g a : remembered s0 F (<[p := q]> φ) (pushes q ws (length ws) ++ pend) g a ↔
  remembered s0 F φ pend g a.
Proof.
  destruct copied_from as [Hpw Hpφ]. split; intros (p' & q' & ws' & i & x & Hp' & Hw & Hr & Hx & -> & Hin & Hk).
  - pose proof (lookup_lt_Some _ _ _ Hx). rewrite elem_of_app in Hin.
    apply lookup_insert_Some in Hp' as [[<- <-]|[Hne Hp']]; [|exists p', q', ws', i, x; tauto].
    simplify_eq. destruct Hin. left. apply pushes_In. by exists i.
  - exists p', q', ws', i, x. rewrite lookup_insert_ne by congruence. split_and!; [done..| |done].
    intros [Hpu|]%elem_of_app; [|done]. apply pushes_new in Hpu. pose proof (lookup_lt_Some _ _ _ Hx).
    by destruct (copied_mem_to p' q' ws' (q' + 4 * Z.of_nat i) Hp' Hw ltac:(lia)).
Qed.

Lemma copied_inv :
  gc_inv 0 (<[p := q]> φ) (delete p R) (pushes q ws (length ws) ++ pend) (bump T n) s'.
Proof.
  destruct Hi as [_ _ Hr Hf]. destruct Hsame as [st Egc]. destruct Hfg as (E1 & E2 & E3).
  split; [apply copied_cells|apply copied_pages_inv| |].
  - intros g x Hx Hg. rewrite Egc. destruct (Hr g x Hx Hg) as (r & added & H1 & H2 & H3 & H4). exists r, added. split_and!; try done.
    intros a. by rewrite H4, copied_remembered.
  - destruct Hf as [? ? ? Hm Hd]. split; rewrite ?Egc; try congruence; try done.
    + intros a Ha Hfrom. rewrite <- (Hm a Ha Hfrom). destruct copied_from as [Hpw _]. apply copied_mem; [|by eapply Hfrom].
      intros Hq. destruct (copied_page a Hq) as (pc & Hin & Hpc & _). by apply (Ha pc).
    + intros a Ha. by apply copied_mapped, Hd.
Qed.
End copied.
End copying.
