(* ===== verification/Drain.v ===== *)
(** The copying collector's loop: pointers in copied cells are redirected or
    remembered until none is left. *)

From S2P Require Import Prelude Generations Machine Celltypes Shades Root Bitops Cells Pages Smartptr Io Copy Forward Copying.

(** The elements of a remembered set. *)
Lemma concat_prepend ref r : concat (prepend ref r) = ref :: concat r.
Proof. unfold prepend. destruct r as [|node nodes]; [done|]. by case_bool_decide. Qed.

Section drain.
Context (s0 : state) (F : gmap Z (list Z)) (gn : Z) (free0 : list Z) (roots : Z → Prop).
Context (Hc : collectable s0 F gn free0).

#[local] Abbreviation gc_inv := (gc_inv s0 F gn free0 roots).
#[local] Abbreviation pages_inv := (pages_inv s0 F gn free0).
#[local] Abbreviation cells_inv := (cells_inv F roots).
#[local] Abbreviation N := NUMBER_OF_WORDS_PER_PAGE.

(** * A cell is copied *)

(** The variables that the invariant depends on. *)
Lemma gc_inv_slack sl sl' φ R pend T s : sl ≤ sl' → gc_inv sl φ R pend T s → gc_inv sl' φ R pend T s.
Proof.
  intros Hle [H1 [Hs Hp Hcur ? ? ? ? ?] H3 H4]. split; [done| |done|done]. split; try done.
  destruct (ts_cur T); [|done]. destruct Hcur as (? & ? & ? & ? & ?). split_and!; try done; lia.
Qed.

Lemma gc_inv_to_ptr sl φ R pend T s v : gc_inv sl φ R pend T s → gc_inv sl φ R pend T (set_gc (set_to_ptr v (gc s)) s).
Proof.
  intros [[] [? [] ? ? ? ? ? ?] H3 []]. split; [by split|by split|exact H3|by split].
Qed.

Lemma gc_inv_copy_stack sl φ R pend T s v :
  gc_inv sl φ R pend T s → gc_inv sl φ R pend T (set_gc (set_copy_stack v (gc s)) s).
Proof.
  intros [[] [? [] ? ? ? ? ? ?] H3 []]. split; [by split|by split|exact H3|by split].
Qed.

Lemma wp_copy_to fuel φ R pend T s p ws t fs p0 pp (Q : unit → state → Prop) :
  let n := Z.of_nat (length ws) in
  gc_inv n φ R pend T s → R !! p = Some ws → reaches F roots p → (∃ pc, ts_cur T = Some pc) →
  ts_tp T + 4 * n ≤ ts_te T → gc_shape ws = Some (t, fs) → ws !! 0%nat = Some p0 →
  (length (copy_stack (gc s)) ≤ length pend)%nat →
  (∀ s1, gc_inv 0 (<[p := ts_tp T]> φ) (delete p R) (pushes (ts_tp T) ws (length ws) ++ pend) (bump T n) s1 →
    copy_stack (gc s1) = pushes (ts_tp T) ws (length ws) ++ copy_stack (gc s) →
    to_ptr (gc s1) = to_ptr (gc s) → to_end (gc s1) = to_end (gc s) → others s s1 →
    wp (write_location pp (ts_tp T)) (λ _ s2, copy_stack (gc s2) = copy_stack (gc s1) ∧
      first_generation_start s2 = first_generation_start s1 ∧ first_generation_end s2 = first_generation_end s1 ∧
      Q tt s2) s1) →
  wp (copy_to fuel t p p0 (ts_tp T) pp) Q s.
Proof.
  intros n Hi Hp Hreach Hcur Hroom Hshape H0 Hst HQ. set (q := ts_tp T) in *.
  destruct (copied_from _ _ _ _ _ _ _ _ _ _ _ _ Hp Hi) as [Hpw Hpφ].
  pose proof (cl_from _ _ _ _ Hc _ _ Hpw) as Hf. pose proof (fc_length _ _ _ _ Hf) as Hn.
  destruct (gc_shape_fields _ _ _ Hshape (proj2 Hn)) as [Hlen Hidx].
  assert (Hfrom : ∀ i x, ws !! i = Some x → mem s !! (p + 4 * Z.of_nat i) = Some x).
  { intros i x. by apply (ci_from _ _ _ _ _ _ _ (inv_cells _ _ _ _ _ _ _ _ _ _ _ Hi)). }
  assert (Hpl : ∀ a, q ≤ a < q + 4 * n → ∃ pc, pc ∈ ts_pages T ∧ in_page pc a ∧ PAGE_SIZE * pc + 8 ≤ a).
  { intros a Ha. eapply copied_page; [exact Hi|exact Hcur|exact Hroom|exact Ha]. }
  assert (Hmap : ∀ i, 0 ≤ i < n → is_Some (mem s !! (q + 4 * i))).
  { intros i Hin. destruct Hcur as [pc Ecur]. pose proof (inv_pages _ _ _ _ _ _ _ _ _ _ _ Hi) as Hpg.
    pose proof (pi_cur _ _ _ _ _ _ _ _ Hpg) as H. rewrite Ecur in H. destruct H as (_ & Hlo & Hte & Hm & _).
    pose proof (pi_mapped _ _ _ _ _ _ _ _ Hpg pc ((q + 4 * i - PAGE_SIZE * pc) / 4) (cur_in_pages _ _ Ecur)) as Hm'.
    change N with 16384 in *. change PAGE_SIZE with 65536 in *. subst q.
    replace (65536 * pc + 4 * ((ts_tp T + 4 * i - 65536 * pc) / 4)) with (ts_tp T + 4 * i) in Hm' by zdiv. apply Hm'. zdiv. }
  assert (Hdisj : ∀ a, p ≤ a < p + 4 * n → ¬ (q ≤ a < q + 4 * n)).
  { intros a Ha Hq. destruct (Hpl a Hq) as (pc & Hin & Hpc & _).
    eapply (from_not_free Hc); [exact Hpw| |exact Ha|exact Hpc]. eapply pages_free; [apply Hi|done]. }
  destruct (fc_shape _ _ _ _ Hf) as (t' & fs' & Hshape' & Hnon). rewrite Hshape in Hshape'. injection Hshape' as <- <-.
  unfold copy_to. apply wp_bind, wp_store; [by apply Hmap; lia|]. rewrite Z.mul_0_r, Z.add_0_r. apply wp_bind.
  assert (Es : set_mem (<[q := p0]> (mem s)) s = stacked (copy_stack (gc s)) (<[q := p0]> (mem s)) s) by by destruct s as [? ? ? ? ? ? ? ? []].
  rewrite Es. eapply wp_copy_block; [exact Hshape|exact Hidx|exact Hlen|exact Hfrom|exact Hmap|exact Hdisj|exact Hnon| |exact H0| |].
  { intros i x Hr Hx. eapply (target_bound Hc), (fc_refs _ _ _ _ Hf); done. }
  { pose proof (wrote_snoc q [] p0 (mem s) (mem s) (wrote_nil _ _)) as Hw. by rewrite Z.mul_0_r, Z.add_0_r in Hw. }
  intros m' Hw. assert (Hpm : ∀ i, 0 ≤ i < n → is_Some (m' !! (p + 4 * i))).
  { intros i Hin. apply Hw. destruct (lookup_lt_is_Some_2 ws (Z.to_nat i)) as [x Hx]; [lia|].
    apply Hfrom in Hx. rewrite Z2Nat.id in Hx by lia. eauto. }
  apply wp_bind, wp_store; [by apply Hpm; lia|]. rewrite Z.mul_0_r, Z.add_0_r. cbn [stacked set_gc set_mem mem].
  apply wp_bind, wp_store.
  { change (p + 4 * 1) with (p + 4). cbn [mem set_mem]. rewrite lookup_insert_ne by lia. apply (Hpm 1). lia. }
  set (s1 := set_mem _ _).
  assert (Hi1 : gc_inv 0 (<[p := q]> φ) (delete p R) (pushes q ws (length ws) ++ pend) (bump T n) s1).
  { eapply copied_inv; [done|exact Hp|exact Hreach|exact Hi|exact Hcur|exact Hroom|exact Hw|done|by eexists|done]. }
  apply wp_bind. eapply wp_mono; [apply HQ; [exact Hi1|done..|by split]|]. intros [] s2 (Est & Esta & Eend & HQ2).
  apply wp_bind, wp_gcs. do 2 apply wp_bind, wp_gets. apply wp_assert; [|done]. apply bool_decide_eq_true.
  rewrite Est, Esta, Eend. pose proof (ci_count _ _ _ _ _ _ _ (inv_cells _ _ _ _ _ _ _ _ _ _ _ Hi1)) as Hcount.
  rewrite map_size_insert_None, length_app in Hcount by done. pose proof (total_words_nonneg (delete p R)).
  pose proof (cl_words _ _ _ _ Hc). pose proof (inv_frame _ _ _ _ _ _ _ _ _ _ _ Hi1) as Hfr.
  rewrite (fi_start _ _ _ _ Hfr), (fi_end _ _ _ _ Hfr). cbn [s1 copy_stack gc set_mem set_copy_stack stacked set_gc]. rewrite length_app. lia.
Qed.
(** * A pointer is redirected *)

(** The word at an address in a copy is determined. *)
Lemma same_field φ R pend T s p1 q1 ws1 i1 p2 q2 ws2 i2 : cells_inv φ R pend T s →
  φ !! p1 = Some q1 → F !! p1 = Some ws1 → (i1 < length ws1)%nat →
  φ !! p2 = Some q2 → F !! p2 = Some ws2 → (i2 < length ws2)%nat →
  q1 + 4 * Z.of_nat i1 = q2 + 4 * Z.of_nat i2 → p1 = p2 ∧ i1 = i2.
Proof.
  intros Hcl H1 Hw1 Hi1 H2 Hw2 Hi2 E. destruct (decide (p1 = p2)) as [->|Hne].
  - simplify_eq. split; [done|]. lia.
  - pose proof (ci_sep _ _ _ _ _ _ _ Hcl _ _ _ _ _ _ H1 Hw1 H2 Hw2 Hne) as Hd. unfold disj in Hd. simpl in Hd. lia.
Qed.

Section resolve.
Context (φ : gmap Z Z) (R : gmap Z (list Z)) (pend : list Z) (T : to_space) (s : state).
Context (a p q x : Z) (ws : list Z) (i : nat).
Context (Hp : φ !! p = Some q) (Hw : F !! p = Some ws) (Hr : ref_at ws i = true) (Hx : ws !! i = Some x).
Context (Ea : a = q + 4 * Z.of_nat i).
Context (Hi : gc_inv 0 φ R (a :: pend) T s).

Lemma resolve_in : in_to_space T q (Z.of_nat (length ws)) ∧ (i < length ws)%nat.
Proof.
  destruct (ci_copied _ _ _ _ _ _ _ (inv_cells _ _ _ _ _ _ _ _ _ _ _ Hi) _ _ Hp) as (ws' & Hw' & _ & _ & H & _).
  simplify_eq. split; [done|]. by apply lookup_lt_Some in Hx.
Qed.

Lemma resolve_page : ∃ pc, pc ∈ ts_pages T ∧ in_page pc a ∧ PAGE_SIZE * pc + 8 ≤ a.
Proof.
  destruct resolve_in as [Hin Hl]. eapply in_to_space_page; [apply Hi|exact Hin|lia].
Qed.

(** The value of the pending pointer is the old one. *)
Lemma resolve_value : mem s !! a = Some x.
Proof.
  pose proof (ci_words _ _ _ _ _ _ _ (inv_cells _ _ _ _ _ _ _ _ _ _ _ Hi) _ _ _ _ _ Hp Hw Hx) as H.
  rewrite <- Ea in H. by rewrite bool_decide_eq_true_2 in H by by left.
Qed.

Lemma resolve_not_from p' ws' : F !! p' = Some ws' → ¬ (p' ≤ a < p' + 4 * Z.of_nat (length ws')).
Proof.
  intros Hw' Ha. destruct resolve_in as [Hin Hl]. eapply from_not_to; [done|apply Hi|exact Hw'|exact Ha|exact Hin|lia].
Qed.

(** What is remembered of the other pointers. *)
Lemma resolve_remembered g b : remembered s0 F φ pend g b ↔
  remembered s0 F φ (a :: pend) g b ∨ b = a ∧ kept s0 x g TO_BE_COLLECTED.
Proof.
  pose proof (inv_cells _ _ _ _ _ _ _ _ _ _ _ Hi) as Hcl. destruct resolve_in as [_ Hl]. split.
  - intros (p' & q' & ws' & j & y & Hp' & Hw' & Hr' & Hy & -> & Hin & Hk). pose proof (lookup_lt_Some _ _ _ Hy).
    destruct (decide (q' + 4 * Z.of_nat j = a)) as [E|Hne].
    + right. split; [done|]. destruct (same_field _ _ _ _ _ p q ws i p' q' ws' j Hcl) as [-> ->]; [done..|by rewrite <- Ea|]. by simplify_eq.
    + left. exists p', q', ws', j, y. split_and!; try done. by intros [|]%elem_of_cons.
  - intros [(p' & q' & ws' & j & y & Hp' & Hw' & Hr' & Hy & -> & Hin & Hk)|[-> Hk]].
    + exists p', q', ws', j, y. split_and!; try done. intros H. apply Hin. by right.
    + exists p, q, ws, i, x. split_and!; try done.
      by pose proof (ci_pend_nodup _ _ _ _ _ _ _ Hcl) as [Hni _]%NoDup_cons.
Qed.

Context (Hfwd : is_Some (F !! x) → is_Some (φ !! x)).
Context (s' : state) (Hmem : mem s' = <[a := forward φ x]> (mem s)).

Lemma resolve_cells : cells_inv φ R pend T s'.
Proof.
  pose proof (inv_cells _ _ _ _ _ _ _ _ _ _ _ Hi) as Hcl. destruct resolve_in as [_ Hl].
  pose proof (ci_pend_nodup _ _ _ _ _ _ _ Hcl) as [Hni Hnd]%NoDup_cons. split.
  - apply Hcl.
  - intros p' ws' j y Hp' Hy. pose proof (lookup_lt_Some _ _ _ Hy).
    pose proof (ci_rest _ _ _ _ _ _ _ Hcl p') as H'. rewrite Hp' in H'. destruct (φ !! p'); [done|].
    rewrite Hmem, lookup_insert_ne; [by eapply ci_from|]. intros E. apply (resolve_not_from p' ws'); [done|lia].
  - intros p' q' Hp'. destruct (ci_copied _ _ _ _ _ _ _ Hcl _ _ Hp') as (ws' & Hw' & H1 & H2 & H3).
    pose proof (fc_length _ _ _ _ (cl_from _ _ _ _ Hc _ _ Hw')). pose proof (resolve_not_from _ _ Hw').
    exists ws'. rewrite Hmem, !lookup_insert_ne by lia. done.
  - intros p' q' ws' j y Hp' Hw' Hy. pose proof (lookup_lt_Some _ _ _ Hy) as Hj.
    rewrite Hmem. destruct (decide (a = q' + 4 * Z.of_nat j)) as [E|Hne].
    + destruct (same_field _ _ _ _ _ p q ws i p' q' ws' j Hcl) as [-> ->]; [done..|by rewrite <- Ea|]. simplify_eq.
      rewrite lookup_insert_eq, bool_decide_eq_false_2 by done. unfold forward_at. by rewrite Hr.
    + rewrite lookup_insert_ne by done. rewrite (ci_words _ _ _ _ _ _ _ Hcl _ _ _ _ _ Hp' Hw' Hy).
      assert (Hiff : q' + 4 * Z.of_nat j ∈ a :: pend ↔ q' + 4 * Z.of_nat j ∈ pend).
      { rewrite elem_of_cons. split; [|by right]. by intros [E|]; [destruct Hne|]. }
      by rewrite (bool_decide_ext _ _ Hiff).
  - intros p' q' ws' j y Hp' Hw' Hy Hr' Hin Hfy. destruct (decide (a = q' + 4 * Z.of_nat j)) as [E|Hne].
    + pose proof (lookup_lt_Some _ _ _ Hy).
      destruct (same_field _ _ _ _ _ p q ws i p' q' ws' j Hcl) as [-> ->]; [done..|by rewrite <- Ea|]. simplify_eq. by apply Hfwd.
    + eapply ci_done; [exact Hcl|exact Hp'|exact Hw'|exact Hy|exact Hr'| |done].
      rewrite elem_of_cons. intros [E|]; [by destruct Hne|done].
  - done.
  - intros b Hb. apply Hcl. by right.
  - apply Hcl.
  - pose proof (ci_count _ _ _ _ _ _ _ Hcl) as H. simpl in H. lia.
Qed.

Lemma resolve_mem_page pc b : in_page pc b → (pc ∈ ts_pages T → b < PAGE_SIZE * pc + 8) → mem s' !! b = mem s !! b.
Proof.
  intros Hb Hlt. rewrite Hmem, lookup_insert_ne; [done|]. intros <-.
  destruct resolve_page as (pc' & Hin & Ha & Hlo). rewrite (in_page_inj _ _ _ Ha Hb) in *. specialize (Hlt Hin). lia.
Qed.

Context (Hfg : first_generation_start s' = first_generation_start s ∧ first_generation_end s' = first_generation_end s ∧
  first_generation_allocation_ptr s' = first_generation_allocation_ptr s).
Context (r : list generation_info_t) (Hgc : gc s' = set_generation_info r (gc s)).
Context (Hgen : zlookup r gn = zlookup (generation_info (gc s)) gn) (Hlenr : length r = length (generation_info (gc s))).

Lemma resolve_pages_inv : pages_inv 0 R T s'.
Proof.
  pose proof (inv_pages _ _ _ _ _ _ _ _ _ _ _ Hi) as Hpg. split.
  - apply Hpg.
  - eapply pool_frame; [apply Hpg| |by rewrite Hgc..]. intros pc b Hin Hb.
    apply (resolve_mem_page pc); [done|]. intros Hin'. exfalso. by eapply free_disjoint.
  - rewrite Hgc. apply Hpg.
  - intros pc u Hin. destruct (pi_full _ _ _ _ _ _ _ _ Hpg _ _ Hin) as [Hm Hu]. split; [|done].
    rewrite (resolve_mem_page pc); [done| |intros; lia]. unfold in_page. change PAGE_SIZE with 65536. lia.
  - intros pc j Hin Hj. rewrite Hmem. pose proof (pi_mapped _ _ _ _ _ _ _ _ Hpg _ _ Hin Hj).
    destruct (decide (a = PAGE_SIZE * pc + 4 * j)) as [<-|]; [rewrite lookup_insert_eq; eauto|by rewrite lookup_insert_ne].
  - intros pc Hin. rewrite (resolve_mem_page pc); [by apply (pi_magic _ _ _ _ _ _ _ _ Hpg)| |intros; lia].
    unfold in_page. change PAGE_SIZE with 65536. lia.
  - intros pc Hin. rewrite Hgc. by apply (pi_page _ _ _ _ _ _ _ _ Hpg).
  - intros pc Hin. rewrite Hgc. by apply (pi_other _ _ _ _ _ _ _ _ Hpg).
  - rewrite Hgc. simpl. rewrite Hgen. apply Hpg.
  - apply Hpg.
Qed.

Lemma resolve_frame_inv : frame_inv s0 F T s'.
Proof.
  destruct (inv_frame _ _ _ _ _ _ _ _ _ _ _ Hi) as [? ? ? Hm Hd]. destruct Hfg as (E1 & E2 & E3).
  split; rewrite ?Hgc; try congruence; try done; [| |simpl; congruence].
  - intros b Hb Hfrom. rewrite <- (Hm b Hb Hfrom), Hmem, lookup_insert_ne; [done|]. intros <-.
    destruct resolve_page as (pc & Hin & Hpc & _). by apply (Hb pc).
  - intros b Hb. rewrite Hmem. apply lookup_insert_is_Some'. right. by apply Hd.
Qed.

Lemma resolve_inv :
  (∀ g z, zlookup (generation_info (gc s0)) g = Some z → g ≠ gn → ∃ r' added, zlookup r g = Some (with_rem_set r' z) ∧
    concat r' = added ++ concat (gi_rem_set z) ∧ NoDup added ∧ ∀ b, b ∈ added ↔ remembered s0 F φ pend g b) →
  gc_inv 0 φ R pend T s'.
Proof.
  intros Hrem. split; [apply resolve_cells|apply resolve_pages_inv| |apply resolve_frame_inv].
  intros g z Hz Hg. rewrite Hgc. by apply Hrem.
Qed.
End resolve.
Lemma gc_inv_perm sl φ R pend pend' T s : pend ≡ₚ pend' → gc_inv sl φ R pend T s → gc_inv sl φ R pend' T s.
Proof.
  intros HP [[Hrest Hfrom Hcopied Hwords Hdone Hnd Hpend Hsep Hcount] H2 Hr H4].
  assert (Hiff : ∀ a, a ∈ pend ↔ a ∈ pend') by (intros a; by rewrite HP).
  split; [split; try done|done| |done].
  - intros p q ws i x H1 Hw Hx. rewrite <- (bool_decide_ext _ _ (Hiff _)). by apply Hwords with p.
  - intros p q ws i x. rewrite <- Hiff. apply Hdone.
  - by rewrite <- HP.
  - intros a. rewrite <- Hiff. apply Hpend.
  - by rewrite <- HP.
  - intros g x Hx Hg. destruct (Hr g x Hx Hg) as (r & ad & H5 & H5' & H5'' & H6). exists r, ad. split_and!; [done..|]. intros a. rewrite H6.
    unfold remembered. by setoid_rewrite Hiff.
Qed.

(** * The generation of a pointer *)

Section keep.
Context (sl : Z) (φ : gmap Z Z) (R : gmap Z (list Z)) (pend : list Z) (T : to_space) (s : state).
Context (Hi : gc_inv sl φ R pend T s).

Lemma status_same g st : status_of s0 g st → status_of s g st.
Proof.
  intros (x & Hx & <-). destruct (decide (g = gn)) as [->|Hne].
  - destruct (pi_gen _ _ _ _ _ _ _ _ (inv_pages _ _ _ _ _ _ _ _ _ _ _ Hi)) as (y & Hy & E). simplify_eq. eexists. by rewrite E.
  - destruct (inv_rem _ _ _ _ _ _ _ _ _ _ _ Hi g x Hx Hne) as (r & ad & E & _). eexists. by rewrite E.
Qed.

Lemma generation_same x g : generation_of s0 x g → generation_of s x g.
Proof.
  intros (pg & Hpg & Hal & <-). exists pg. pose proof (inv_pages _ _ _ _ _ _ _ _ _ _ _ Hi) as Hpi.
  rewrite (pi_other _ _ _ _ _ _ _ _ Hpi); [done|]. intros Hin.
  destruct (pool_page _ _ _ (cl_pool _ _ _ _ Hc) ltac:(by eapply pages_free)) as (_ & y & Hy & Hal'). congruence.
Qed.

Lemma wp_young x (Q : bool → state → Prop) :
  x < first_generation_end s0 ∨ first_generation_allocation_ptr s0 ≤ x →
  Q (bool_decide (first_generation_allocation_ptr s0 ≤ x)) s → wp (is_in_first_generation x) Q s.
Proof.
  intros Hx HQ. pose proof (inv_frame _ _ _ _ _ _ _ _ _ _ _ Hi) as Hf. unfold is_in_first_generation.
  do 2 apply wp_bind, wp_gets. rewrite (fi_end _ _ _ _ Hf), (fi_ap _ _ _ _ Hf). apply wp_bind, wp_assert.
  { destruct Hx; [rewrite (bool_decide_eq_false_2 (_ ≤ x))|rewrite (bool_decide_eq_false_2 (x < _)), andb_false_r]; done || lia. }
  by apply wp_ret.
Qed.

Lemma wp_generation x g (Q : Z → state → Prop) : generation_of s0 x g → Q g s → wp (PTR_TO_GENERATION x) Q s.
Proof.
  intros (pg & Hpg & _ & <-)%generation_same HQ. apply wp_bind. eapply wp_get_page; [exact Hpg|]. by apply wp_ret.
Qed.

Lemma wp_keep_from pp x ws (Q : bool → state → Prop) : F !! x = Some ws → Q false s → wp (keep_pointer pp x) Q s.
Proof.
  intros Hx HQ. pose proof (cl_from _ _ _ _ Hc _ _ Hx) as Hf. pose proof (fc_length _ _ _ _ Hf) as Hn.
  destruct (cl_bounds _ _ _ _ Hc) as (_ & He & _). unfold keep_pointer. apply wp_bind, wp_young.
  { destruct (fc_place _ _ _ _ Hf) as [Hy|(g & _ & _ & _ & H)]; [by right|left; lia]. }
  case_bool_decide as Hy; simpl; [by apply wp_ret|].
  destruct (fc_place _ _ _ _ Hf) as [Hy'|(g & Hg & Hst & _)]; [lia|].
  apply wp_bind. eapply (wp_generation _ g); [done|].
  apply status_same in Hst as (gi & Hgi & Hst). apply wp_bind. eapply wp_get_gen; [exact Hgi|]. rewrite Hst.
  rewrite !bool_decide_eq_false_2 by done. apply wp_bind, wp_assert; [done|]. by apply wp_ret.
Qed.

Lemma wp_keep_kept pp x g st (Q : bool → state → Prop) : kept s0 x g st →
  (∀ z, zlookup (generation_info (gc s)) g = Some z → gi_status z = st →
    (st = NORMAL → Q true s) ∧
    (st = TO_BE_COLLECTED → Q true (set_gc (set_generation_info
      (zinsert g (with_rem_set (prepend pp (gi_rem_set z)) z) (generation_info (gc s))) (gc s)) s))) →
  wp (keep_pointer pp x) Q s.
Proof.
  intros (Hlt & Hg & Hst & Hor) HQ. destruct (cl_bounds _ _ _ _ Hc) as (_ & He & _). unfold keep_pointer.
  apply wp_bind, wp_young; [by left|]. rewrite bool_decide_eq_false_2 by lia. simpl.
  apply wp_bind. eapply (wp_generation _ g); [done|].
  apply status_same in Hst as (gi & Hgi & Hst). apply wp_bind. eapply wp_get_gen; [exact Hgi|]. rewrite Hst.
  destruct (HQ gi Hgi Hst) as [HN HT]. destruct Hor as [-> | ->].
  - rewrite bool_decide_eq_true_2 by done. by apply wp_ret, HN.
  - rewrite bool_decide_eq_false_2, bool_decide_eq_true_2 by done. apply wp_bind. eapply wp_put_gen; [exact Hgi|].
    by apply wp_ret, HT.
Qed.
End keep.

(** * The loop *)

(** A pending pointer, and what it may point to. *)
Lemma pending sl φ R a pend T s : gc_inv sl φ R (a :: pend) T s → ∃ p q ws i x,
  φ !! p = Some q ∧ F !! p = Some ws ∧ ref_at ws i = true ∧ ws !! i = Some x ∧ a = q + 4 * Z.of_nat i ∧
  reaches F roots p ∧ target s0 F x ∧ x ≠ NULL_WORD.
Proof.
  intros Hi. pose proof (inv_cells _ _ _ _ _ _ _ _ _ _ _ Hi) as Hcl.
  destruct (ci_pend _ _ _ _ _ _ _ Hcl a ltac:(by left)) as (p & q & ws & i & Hp & Hw & Hr & ->).
  destruct (ref_at_lookup _ _ Hr) as (_ & x & Hx & Hx0).
  destruct (ci_copied _ _ _ _ _ _ _ Hcl _ _ Hp) as (ws' & Hw' & _ & _ & _ & Hreach). simplify_eq.
  exists p, q, ws, i, x. split_and!; try done. by eapply fc_refs; [eapply cl_from|..].
Qed.

(** The store of a forwarded pointer. *)
Lemma wp_store_forward φ R a pend T s p q ws i x y (Q : unit → state → Prop) :
  gc_inv 0 φ R (a :: pend) T s → φ !! p = Some q → F !! p = Some ws → ref_at ws i = true → ws !! i = Some x →
  a = q + 4 * Z.of_nat i → φ !! x = Some y →
  (gc_inv 0 φ R pend T (set_mem (<[a := y]> (mem s)) s) → Q tt (set_mem (<[a := y]> (mem s)) s)) →
  wp (store a y) Q s.
Proof.
  intros Hi Hp Hw Hr Hx Ea Hy HQ.
  apply wp_store; [eexists; by eapply (resolve_value φ R pend T s a p q x ws i)|]. apply HQ.
  eapply (resolve_inv φ R pend T s a p q x ws i) with (r := generation_info (gc s)); try done.
  - simpl. by rewrite (forward_Some _ _ _ Hy).
  - simpl. by destruct (gc s).
  - intros g z Hz Hg. destruct (inv_rem _ _ _ _ _ _ _ _ _ _ _ Hi g z Hz Hg) as (r & ad & E & Ead & Hnd & H). exists r, ad. split_and!; [done..|].
    intros b. rewrite H, (resolve_remembered φ R pend T s a p q x ws i Hp Hw Hr Hx Ea Hi). split; [tauto|].
    intros [|[_ Hk]]; [done|]. destruct (ci_copied _ _ _ _ _ _ _ (inv_cells _ _ _ _ _ _ _ _ _ _ _ Hi) _ _ Hy) as (wx & Hwx & _).
    destruct (from_not_kept Hc _ _ _ _ Hwx Hk).
Qed.
Lemma wp_rd0 s p w (Q : Z → state → Prop) : mem s !! p = Some w → Q w s → wp (rd p 0) Q s.
Proof. intros Hw HQ. unfold rd. eapply wp_load; [|done]. by rewrite Z.mul_0_r, Z.add_0_r. Qed.

Lemma wp_switch s p w t (Q : cell_type → state → Prop) :
  mem s !! p = Some w → cell_type_of (shr32 w (32 - CELL_TYPE_BITS)) = Some t → Q t s → wp (switch_type p) Q s.
Proof.
  intros Hw Ht HQ. apply wp_bind, wp_bind. eapply wp_rd0; [exact Hw|]. apply wp_ret. rewrite Ht. by apply wp_ret.
Qed.

(** The size of a cell of the shape of [ws]. *)
Lemma wp_size ws t fs w s p (Q : Z → state → Prop) :
  gc_shape ws = Some (t, fs) → ws !! 0%nat = Some w → Q (Z.of_nat (length ws)) s → wp (number_of_words t p w) Q s.
Proof.
  intros (w' & Hw' & _ & Hd)%gc_shape_Some Hw HQ. simplify_eq. unfold number_of_words. unfold gc_def in Hd.
  destruct (simple_cell t w') as [[n fs']|]; [injection Hd as -> ->; by apply wp_ret|].
  case_bool_decide as Ht; [|done]. destruct Ht as [-> _]. injection Hd as -> _. by apply wp_ret.
Qed.

(** A cell that was not copied yet. *)
Lemma rest_cell sl φ R pend T s p ws : gc_inv sl φ R pend T s → F !! p = Some ws → φ !! p = None →
  R !! p = Some ws ∧ 2 ≤ Z.of_nat (length ws) ≤ N - 2 ∧ Z.of_nat (length ws) ≤ total_words R ∧
  ∃ t fs w, gc_shape ws = Some (t, fs) ∧ ws !! 0%nat = Some w ∧ mem s !! p = Some w ∧
    cell_type_of (shr32 w (32 - CELL_TYPE_BITS)) = Some t ∧ t ≠ CELL_forward_pointer.
Proof.
  intros Hi Hw Hφ. pose proof (inv_cells _ _ _ _ _ _ _ _ _ _ _ Hi) as Hcl.
  assert (Hp : R !! p = Some ws) by by rewrite (ci_rest _ _ _ _ _ _ _ Hcl), Hφ.
  pose proof (cl_from _ _ _ _ Hc _ _ Hw) as Hf. destruct (fc_shape _ _ _ _ Hf) as (t & fs & Hs & _).
  destruct (gc_shape_Some _ _ _ Hs) as (w & Hw0 & Ht & _).
  split; [done|]. split; [apply Hf|]. split.
  - rewrite (total_words_delete _ _ _ Hp). pose proof (total_words_nonneg (delete p R)). lia.
  - exists t, fs, w. split_and!; try done; [|by eapply gc_shape_not_forward].
    rewrite <- (ci_from _ _ _ _ _ _ _ Hcl p ws 0 w Hp Hw0). f_equal. lia.
Qed.

(** There is a current page when a cell has place. *)
Lemma room_cur sl R T s n : pages_inv sl R T s → 2 ≤ n → ts_tp T + 4 * n ≤ ts_te T → ∃ pc, ts_cur T = Some pc.
Proof.
  intros Hp Hn Hroom. pose proof (pi_cur _ _ _ _ _ _ _ _ Hp) as H. destruct (ts_cur T) as [pc|]; [eauto|]. lia.
Qed.

(** What the loop maintains: [φ1] and [s1] are those it starts with, [k] bounds
    the number of its iterations. *)
Definition draining (φ1 : gmap Z Z) (s1 : state) (k : nat) (regs : Z * Z) (s : state) : Prop :=
  ∃ φ R T, gc_inv 0 φ R (copy_stack (gc s)) T s ∧ regs = (ts_tp T, ts_te T) ∧ φ1 ⊆ φ ∧ others s1 s ∧
    Z.of_nat k = Z.of_nat (length (copy_stack (gc s))) + total_words R.

Lemma drain_forwarded φ1 s1 k φ R T s a st p q ws i x y :
  gc_inv 0 φ R (a :: st) T s → copy_stack (gc s) = st → φ1 ⊆ φ → others s1 s →
  Z.of_nat k = Z.of_nat (S (length st)) + total_words R →
  φ !! p = Some q → F !! p = Some ws → ref_at ws i = true → ws !! i = Some x →
  a = q + 4 * Z.of_nat i → φ !! x = Some y →
  wp (store a y;; mret (inl (ts_tp T, ts_te T)) : M ((Z * Z) + Z)) (λ r s', match r with
    | inl regs' => ∃ k', (k' < k)%nat ∧ draining φ1 s1 k' regs' s'
    | inr b => False
    end) s.
Proof.
  intros Hi Est H1 Hot Hk Hp Hw Hr Hx Ea Hy. apply wp_bind. eapply wp_store_forward; [exact Hi|exact Hp|exact Hw|exact Hr|exact Hx|exact Ea|exact Hy|]. intros Hi'.
  apply wp_ret. exists (k - 1)%nat. pose proof (total_words_nonneg R). split; [lia|].
  exists φ, R, T. simpl. rewrite Est. split; [done|]. split; [done|]. split; [done|]. split; [|lia]. by etrans.
Qed.

(** The part of the loop that copies the cell at [x]. *)
Lemma drain_copied fuel φ1 s1 k φ R T s a st p q ws i x wx t fs w :
  let n := Z.of_nat (length wx) in
  gc_inv n φ R (a :: st) T s → copy_stack (gc s) = st → φ1 ⊆ φ → others s1 s →
  Z.of_nat k = Z.of_nat (S (length st)) + total_words R →
  φ !! p = Some q → F !! p = Some ws → ref_at ws i = true → ws !! i = Some x →
  a = q + 4 * Z.of_nat i → reaches F roots p → F !! x = Some wx → φ !! x = None →
  gc_shape wx = Some (t, fs) → wx !! 0%nat = Some w → ts_tp T + 4 * n ≤ ts_te T →
  wp (copy_to fuel t x w (ts_tp T) (Image a);; mret (inl (ts_tp T + 4 * n, ts_te T)) : M ((Z * Z) + Z)) (λ r s', match r with
    | inl regs' => ∃ k', (k' < k)%nat ∧ draining φ1 s1 k' regs' s'
    | inr b => False
    end) s.
Proof.
  intros n Hi Est H1 Hot Hk Hp Hw Hr Hx Ea Hreach Hwx Hφ Hshape Hw0 Hroom.
  destruct (rest_cell _ _ _ _ _ _ _ _ Hi Hwx Hφ) as (HR & Hn & Hle & _).
  apply wp_bind. eapply wp_copy_to; [exact Hi|exact HR| |by eapply room_cur; [apply Hi|apply Hn|exact Hroom]|exact Hroom|exact Hshape|exact Hw0| |].
  { eapply reaches_field; [exact Hreach|done..|by eexists]. }
  { rewrite Est. simpl. lia. }
  fold n. intros s2 Hi2 Est2 Etp2 Ete2 Hot2. set (φ2 := <[x := ts_tp T]> φ) in *.
  assert (Hi3 : gc_inv 0 φ2 (delete x R) (a :: pushes (ts_tp T) wx (length wx) ++ st) (bump T n) s2).
  { eapply gc_inv_perm, Hi2. symmetry. apply Permutation_middle. }
  assert (Hp2 : φ2 !! p = Some q) by (subst φ2; rewrite lookup_insert_ne; congruence).
  simpl. eapply wp_store_forward; [exact Hi3|exact Hp2|exact Hw|exact Hr|exact Hx|exact Ea|apply lookup_insert_eq|].
  intros Hi4. split; [done|]. split; [done|]. split; [done|]. apply wp_ret.
  pose proof (total_words_delete _ _ _ HR) as Etot. pose proof (total_words_nonneg (delete x R)).
  pose proof (length_pushes (ts_tp T) wx (length wx - 1)) as Hlp.
  replace (S (length wx - 1)) with (length wx) in Hlp by lia.
  exists (Z.to_nat (Z.of_nat (length (pushes (ts_tp T) wx (length wx) ++ st)) + total_words (delete x R))).
  rewrite length_app. split; [lia|]. exists φ2, (delete x R), (bump T n). simpl. rewrite Est2, Est.
  split; [done|]. split; [done|]. split; [|split].
  - etrans; [exact H1|]. by apply insert_subseteq.
  - etrans; [exact Hot|]. etrans; [exact Hot2|]. by split.
  - rewrite length_app. lia.
Qed.
(** A pointer into a generation that is not collected stays as it is. *)
Lemma keep_inv φ R a pend T s p q ws i x g st z s' :
  gc_inv 0 φ R (a :: pend) T s → φ !! p = Some q → F !! p = Some ws → ref_at ws i = true → ws !! i = Some x →
  a = q + 4 * Z.of_nat i → kept s0 x g st → zlookup (generation_info (gc s)) g = Some z → gi_status z = st →
  mem s' = mem s → first_generation_start s' = first_generation_start s →
  first_generation_end s' = first_generation_end s → first_generation_allocation_ptr s' = first_generation_allocation_ptr s →
  gc s' = (if bool_decide (st = NORMAL) then gc s else set_generation_info
    (zinsert g (with_rem_set (prepend a (gi_rem_set z)) z) (generation_info (gc s))) (gc s)) →
  gc_inv 0 φ R pend T s'.
Proof.
  intros Hi Hp Hw Hr Hx Ea Hk Hz Est Em E1 E2 E3 Egc. pose proof (inv_cells _ _ _ _ _ _ _ _ _ _ _ Hi) as Hcl.
  assert (HFx : F !! x = None).
  { destruct (F !! x) as [wx|] eqn:E; [|done]. destruct (from_not_kept Hc _ _ _ _ E Hk). }
  assert (Hφx : φ !! x = None).
  { destruct (φ !! x) as [y|] eqn:E; [|done]. destruct (ci_copied _ _ _ _ _ _ _ Hcl _ _ E) as (wx & Hwx & _). congruence. }
  assert (Hmem : mem s' = <[a := forward φ x]> (mem s)).
  { rewrite (forward_None _ _ Hφx), Em. symmetry. apply insert_id. by eapply (resolve_value φ R pend T s a p q x ws i). }
  assert (Hrem : ∀ g' b, remembered s0 F φ pend g' b ↔ remembered s0 F φ (a :: pend) g' b ∨ b = a ∧ kept s0 x g' TO_BE_COLLECTED)
    by exact (resolve_remembered φ R pend T s a p q x ws i Hp Hw Hr Hx Ea Hi).
  assert (Hkg : ∀ g' st', kept s0 x g' st' → g' = g ∧ st' = st).
  { intros g' st' (_ & (pg & Hpg & _ & <-) & (gi & Hgi & <-) & _).
    destruct Hk as (_ & (pg' & Hpg' & _ & <-) & (gi' & Hgi' & <-) & _). by simplify_eq. }
  apply zlookup_Some in Hz as Hz'. destruct Hz' as [Hrg _].
  assert (Hgn : st = TO_BE_COLLECTED → g ≠ gn).
  { intros -> ->. destruct Hk as (_ & _ & (gi & Hgi & Hs) & _).
    destruct (cl_gen _ _ _ _ Hc) as (y & Hy & Hy' & _). congruence. }
  destruct Hk as (Hlt & Hgen & Hstat & [-> | ->]).
  - rewrite bool_decide_eq_true_2 in Egc by done.
    eapply (resolve_inv φ R pend T s a p q x ws i) with (r := generation_info (gc s)); try done.
    + by rewrite HFx; intros [? ?].
    + rewrite Egc. by destruct (gc s).
    + intros g' y Hy Hg'. destruct (inv_rem _ _ _ _ _ _ _ _ _ _ _ Hi g' y Hy Hg') as (r & ad & E & Ead & Hnd & H). exists r, ad. split_and!; [done..|].
      intros b. rewrite H, Hrem. split; [tauto|]. intros [|[_ Hk']]; [done|]. by apply Hkg in Hk' as [_ ?].
  - rewrite bool_decide_eq_false_2 in Egc by done. specialize (Hgn eq_refl).
    eapply (resolve_inv φ R pend T s a p q x ws i) with (r := zinsert g _ (generation_info (gc s))); try done.
    + by rewrite HFx; intros [? ?].
    + by apply zlookup_insert_ne; [lia|].
    + apply length_zinsert.
    + intros g' y Hy Hg'. destruct (inv_rem _ _ _ _ _ _ _ _ _ _ _ Hi g' y Hy Hg') as (r & ad & E & Ead & Hnd & H).
      destruct (decide (g' = g)) as [->|Hne].
      * rewrite Hz in E. injection E as ->. exists (prepend a r), (a :: ad). rewrite zlookup_insert by done. split; [done|].
        split; [simpl; by rewrite concat_prepend, Ead|]. split; [constructor; [|done]|].
        { intros (? & ? & ? & ? & ? & _ & _ & _ & _ & _ & Hna & _)%H. apply Hna. by left. }
        intros b. rewrite elem_of_cons, H, Hrem. split; [|tauto].
        intros [->|]; [|tauto]. right. split; [done|]. split; [done|]. split; [done|]. by split; [|right].
      * exists r, ad. rewrite zlookup_insert_ne by (done || lia). split_and!; [done..|]. intros b. rewrite H, Hrem. split; [tauto|].
        intros [|[_ Hk']]; [done|]. by apply Hkg in Hk' as [? _].
Qed.

Lemma wp_drain_step fuel φ1 s1 k regs s a st : draining φ1 s1 k regs s → copy_stack (gc s) = a :: st →
  wp (drain_step fuel regs) (λ r s', match r with
    | inl regs' => ∃ k', (k' < k)%nat ∧ draining φ1 s1 k' regs' s'
    | inr b => False
    end) s.
Proof.
  intros (φ & R & T & Hi & -> & H1 & Hot & Hk) Est. rewrite Est in Hi, Hk. unfold drain_step.
  apply wp_bind, wp_gcs. rewrite Est. apply wp_bind, wp_set_gcs. set (s2 := set_gc _ s).
  assert (Hi2 : gc_inv 0 φ R (a :: st) T s2) by by apply gc_inv_copy_stack.
  assert (Hot2 : others s1 s2) by (etrans; [exact Hot|by split]).
  destruct (pending _ _ _ _ _ _ _ Hi2) as (p & q & ws & i & x & Hp & Hw & Hr & Hx & Ea & Hreach & Htg & Hx0).
  apply wp_bind. eapply wp_load; [by eapply (resolve_value φ R st T s2 a p q x ws i)|].
  apply wp_bind, wp_assert; [by apply negb_true_iff, bool_decide_eq_false|]. apply wp_bind.
  destruct Htg as [[wx Hwx]|(g & gst & Hkept)].
  - eapply wp_keep_from; [exact Hi2|exact Hwx|]. destruct (φ !! x) as [y|] eqn:Hy.
    + destruct (ci_copied _ _ _ _ _ _ _ (inv_cells _ _ _ _ _ _ _ _ _ _ _ Hi2) _ _ Hy) as (_ & _ & Hfw & Hto & _).
      apply wp_bind. eapply wp_rd0; [exact Hfw|]. apply wp_bind. eapply (wp_switch _ _ _ CELL_forward_pointer); [exact Hfw|done|].
      rewrite bool_decide_eq_true_2 by done. apply wp_bind. unfold rd. eapply wp_load; [exact Hto|].
      eapply drain_forwarded; [exact Hi2|done|exact H1|exact Hot2|exact Hk|exact Hp|exact Hw|exact Hr|exact Hx|exact Ea|exact Hy].
    + destruct (rest_cell _ _ _ _ _ _ _ _ Hi2 Hwx Hy) as (HR & Hn & Hle & t & fs & w & Hshape & Hw0 & Hm & Ht & Hnf).
      apply wp_bind. eapply wp_rd0; [exact Hm|]. apply wp_bind. eapply wp_switch; [exact Hm|exact Ht|].
      rewrite bool_decide_eq_false_2 by done. apply wp_bind. eapply wp_size; [exact Hshape|exact Hw0|].
      apply wp_bind. case_bool_decide as Hfull.
      * apply wp_bind, wp_set_gcs, wp_bind. eapply (wp_new_to_page _ _ _ _ _ Hc); [by apply gc_inv_to_ptr|done|apply Hn|exact Hle|exact Hfull|].
        intros T' s3 Hi3 _ Hte Etp Ete Est3 Hot3. apply wp_bind, wp_gcs, wp_bind, wp_gcs, wp_bind, wp_gcs, wp_ret.
        rewrite Etp, Ete. eapply drain_copied; [exact Hi3|done|done|etrans; [exact Hot2|]|exact Hk|done..|].
        { etrans; [|exact Hot3]. by split. }
        lia.
      * apply wp_ret. eapply drain_copied; [eapply gc_inv_slack, Hi2; lia|done..|lia].
  - eapply wp_keep_kept; [exact Hi2|exact Hkept|]. intros z Hz Hzs.
    assert (Hfin : ∀ s3, gc_inv 0 φ R st T s3 → copy_stack (gc s3) = st → others s2 s3 →
      wp (mret (inl (ts_tp T, ts_te T)) : M ((Z * Z) + Z)) (λ r s', match r with
        | inl regs' => ∃ k', (k' < k)%nat ∧ draining φ1 s1 k' regs' s'
        | inr b => False
        end) s3).
    { intros s3 Hi3 Est3 Hot3. apply wp_ret. exists (k - 1)%nat. simpl in Hk. pose proof (total_words_nonneg R). split; [lia|].
      exists φ, R, T. rewrite Est3. split; [done|]. split; [done|]. split; [done|]. split; [by etrans|lia]. }
    split; intros ->; (apply Hfin; [|done|by split]); eapply keep_inv; try done.
Qed.

(** [drain_copy_stack], from any state in which cells were copied. *)
Lemma wp_drain_copy_stack fuel φ R T s (Q : unit → state → Prop) :
  gc_inv 0 φ R (copy_stack (gc s)) T s → to_ptr (gc s) = ts_tp T → to_end (gc s) = ts_te T →
  total_words F < Z.of_nat fuel →
  (∀ φ' R' T' s', gc_inv 0 φ' R' [] T' s' → φ ⊆ φ' → to_ptr (gc s') = ts_tp T' → others s s' → Q tt s') →
  wp (drain_copy_stack fuel) Q s.
Proof.
  intros Hi Etp Ete Hfuel HQ. unfold drain_copy_stack. apply wp_bind, wp_gcs, wp_bind, wp_gcs, wp_bind.
  pose proof (ci_count _ _ _ _ _ _ _ (inv_cells _ _ _ _ _ _ _ _ _ _ _ Hi)) as Hcount. pose proof (total_words_nonneg R).
  eapply wp_loop with (I := λ k regs s', draining φ s k regs s')
    (n := Z.to_nat (Z.of_nat (length (copy_stack (gc s))) + total_words R)); [lia| |].
  - exists φ, R, T. rewrite Etp, Ete. split; [done|]. split; [done|]. split; [done|]. split; [done|lia].
  - intros k regs s' Hd. destruct (copy_stack (gc s')) as [|a st] eqn:Est.
    + destruct Hd as (φ' & R' & T' & Hi' & -> & Hφ & Hot & _). rewrite Est in Hi'. unfold drain_step.
      apply wp_bind, wp_gcs. rewrite Est. apply wp_ret. apply wp_set_gcs.
      eapply (HQ φ' R' T'); [by apply gc_inv_to_ptr|done|done|]. etrans; [exact Hot|by split].
    + eapply wp_mono; [by eapply wp_drain_step|]. intros [regs'|b] s2 H2; [exact H2|done].
Qed.
End drain.
