(* ===== verification/Roots.v ===== *)
(** The roots of a collection of the first generation: the root block and the
    smart pointers, whose cells are copied one by one. *)

From S2P Require Import Prelude Generations Machine Celltypes Shades Root Bitops Cells Pages Smartptr Io Copy Forward Copying Drain.

(** * Variables outside the image *)

Definition is_root_loc (pp : location) : Prop := match pp with Image _ => False | _ => True end.

Definition loc_get (pp : location) (s : state) : option Z :=
  match pp with
  | Image a => mem s !! a
  | RootWord i => zlookup (root s) i
  | SmartWord sp => ptr_of (smart_ptrs (gc s)) sp
  end.

Definition loc_set (pp : location) (v : Z) (s : state) : state :=
  match pp with
  | Image a => set_mem (<[a := v]> (mem s)) s
  | RootWord i => set_root (zinsert i v (root s)) s
  | SmartWord sp => set_ring (alter (with_sp_ptr v) sp (smart_ptrs (gc s))) s
  end.

Lemma wp_read_location s pp v (Q : Z → state → Prop) : loc_get pp s = Some v → Q v s → wp (read_location pp) Q s.
Proof.
  intros Hv HQ. destruct pp as [a|i|sp]; simpl in *.
  - by eapply wp_load.
  - apply wp_bind, wp_gets. by eapply wp_of_option.
  - unfold ptr_of in Hv. destruct (_ !! sp) as [x|] eqn:Hx; [|done]. injection Hv as <-.
    apply wp_bind. eapply wp_get_smart; [exact Hx|]. by apply wp_ret.
Qed.

Lemma wp_write_location s pp v (Q : unit → state → Prop) :
  is_Some (loc_get pp s) → Q tt (loc_set pp v s) → wp (write_location pp v) Q s.
Proof.
  intros [w Hw] HQ. destruct pp as [a|i|sp]; simpl in *.
  - apply wp_store; [eauto|done].
  - apply wp_bind, wp_gets, wp_bind. eapply wp_of_option; [exact Hw|]. by apply wp_modify.
  - unfold ptr_of in Hw. destruct (_ !! sp) as [x|] eqn:Hx; [|done].
    eapply wp_put_smart; [exact Hx|]. unfold set_ring in *.
    replace (<[sp := with_sp_ptr v x]> (smart_ptrs (gc s))) with (alter (with_sp_ptr v) sp (smart_ptrs (gc s))); [done|].
    apply map_eq. intros c. destruct (decide (c = sp)) as [->|].
    + by rewrite lookup_alter_eq, Hx, lookup_insert_eq.
    + by rewrite lookup_alter_ne, lookup_insert_ne.
Qed.

Lemma loc_get_set s pp v : is_Some (loc_get pp s) → loc_get pp (loc_set pp v s) = Some v.
Proof.
  intros [w Hw]. destruct pp as [a|i|sp]; simpl in *.
  - apply lookup_insert_eq.
  - apply zlookup_insert. by apply zlookup_Some in Hw as [? _].
  - unfold ptr_of in *. rewrite lookup_alter_eq. by destruct (_ !! sp).
Qed.

Lemma loc_get_set_ne s pp pp' v : is_Some (loc_get pp s) → pp ≠ pp' →
  loc_get pp' (loc_set pp v s) = loc_get pp' s.
Proof.
  intros [w Hw] Hne. destruct pp as [a|i|sp], pp' as [a'|i'|sp']; simpl in *; try done.
  - apply lookup_insert_ne. congruence.
  - apply zlookup_insert_ne; [|congruence]. apply zlookup_Some in Hw as [? _]. lia.
  - unfold ptr_of. rewrite lookup_alter_ne; [done|congruence].
Qed.

Lemma loc_set_links s pp v c : let m := smart_ptrs (gc (loc_set pp v s)) in
  next_of m c = next_of (smart_ptrs (gc s)) c ∧ prev_of m c = prev_of (smart_ptrs (gc s)) c.
Proof.
  destruct pp as [a|i|sp]; [done|done|]. simpl. unfold next_of, prev_of.
  destruct (decide (c = sp)) as [->|]; [|by rewrite lookup_alter_ne].
  rewrite lookup_alter_eq. by destruct (_ !! sp).
Qed.

(** * The base state *)

Section roots.
Context (s0 : state) (F : gmap Z (list Z)) (gn : Z) (free0 : list Z) (roots : Z → Prop).
Context (Hc : collectable s0 F gn free0).

(** A variable that is neither in a cell to be copied nor on a free page. *)
Definition outside (pp : location) : Prop :=
  match pp with
  | Image a => a ≠ NULL_PTR ∧ (∀ pn, pn ∈ free0 → ¬ in_page pn a) ∧
      ∀ p ws, F !! p = Some ws → ¬ (p ≤ a < p + 4 * Z.of_nat (length ws))
  | _ => True
  end.

(** The invariants speak of the state [s0] in which copying starts; pointers in the
    image that are scanned change in it, too. *)
Definition same_inside (m : gmap Z Z) : Prop := ∀ a, ¬ outside (Image a) → m !! a = mem s0 !! a.
Definition base (m : gmap Z Z) : state := set_mem m s0.

#[local] Abbreviation gc_inv m := (gc_inv (base m) F gn free0 roots).
#[local] Abbreviation N := NUMBER_OF_WORDS_PER_PAGE.

Lemma not_outside_free pn a : pn ∈ free0 → in_page pn a → ¬ outside (Image a).
Proof. intros Hin Ha (_ & H & _). by apply (H pn). Qed.

Lemma not_outside_from p ws i : F !! p = Some ws → (i < length ws)%nat → ¬ outside (Image (p + 4 * Z.of_nat i)).
Proof. intros Hw Hi (_ & _ & H). apply (H p ws Hw). lia. Qed.

Lemma base_collectable m : same_inside m → collectable (base m) F gn free0.
Proof.
  intros Hm. destruct Hc as [H1 H2 H3 H4 H5 H6 H7 H8 H9]. split; try done.
  - eapply pool_frame; [exact H3|..|done|done]; [|done]. intros pn a Hin Ha. by apply Hm, (not_outside_free pn).
  - intros p ws Hw. destruct (H6 p ws Hw) as [G1 G2 G3 G4 G5 G6 G7 G8]. split; try done.
    intros i x Hi. cbn [base set_mem mem]. rewrite Hm; [by apply G5|]. eapply not_outside_from; [done|by eapply lookup_lt_Some].
Qed.

Definition patch (pp : location) (v : Z) (m : gmap Z Z) : gmap Z Z :=
  match pp with Image a => <[a := v]> m | _ => m end.

Lemma same_inside_patch pp v m : outside pp → same_inside m → same_inside (patch pp v m).
Proof.
  intros Hpp Hm a Ha. destruct pp as [b|i|sp]; [|by apply Hm..]. simpl. rewrite lookup_insert_ne; [by apply Hm|]. by intros <-.
Qed.

Lemma not_in_patch pp v m D : (∀ a, Image a ∉ D → m !! a = mem s0 !! a) →
  ∀ a, Image a ∉ pp :: D → patch pp v m !! a = mem s0 !! a.
Proof.
  intros Hm a [Hne Hin]%not_elem_of_cons. destruct pp as [b|i|sp]; [|by apply Hm..]. simpl.
  rewrite lookup_insert_ne; [by apply Hm|]. by intros ->.
Qed.

Lemma gc_inv_loc_set m sl φ R pend T s pp v :
  outside pp → gc_inv m sl φ R pend T s → gc_inv (patch pp v m) sl φ R pend T (loc_set pp v s).
Proof.
  destruct pp as [a|i|sp]; [|intros _ [[] [? [] ? ? ? ? ? ?] H3 []]; (split; [by split|by split|exact H3|by split])..].
  intros Hout Hi. pose proof Hi as [Hcl Hpg Hr Hf].
  assert (Hfrom : ∀ p ws i, F !! p = Some ws → (i < length ws)%nat → a ≠ p + 4 * Z.of_nat i).
  { intros p ws i Hw Hl ->. by apply (not_outside_from p ws i). }
  assert (Hpage : ∀ pn b, pn ∈ free0 → in_page pn b → a ≠ b).
  { intros pn b Hin Hb ->. by apply (not_outside_free pn b). }
  assert (Hfirst : ∀ pn i, pn ∈ free0 → 0 ≤ i < N → a ≠ PAGE_SIZE * pn + 4 * i).
  { intros pn i Hin Hn. apply (Hpage pn); [done|]. unfold in_page. change N with 16384 in Hn. change PAGE_SIZE with 65536. lia. }
  assert (Hto : ∀ q n i, in_to_space T q n → 0 ≤ i < n → a ≠ q + 4 * i).
  { intros q n i Hq Hn. destruct (in_to_space_page _ _ _ _ _ _ _ _ _ _ (q + 4 * i) Hpg Hq ltac:(lia)) as (pn & Hin & Hb & _).
    apply (Hpage pn); [by eapply pages_free|done]. }
  split; [split|split|..]; cbn [loc_set patch base set_mem mem gc first_generation_start first_generation_end first_generation_allocation_ptr].
  - apply Hcl.
  - intros p ws i x Hw Hx. rewrite lookup_insert_ne; [by eapply ci_from|]. apply (Hfrom p ws); [|by eapply lookup_lt_Some].
    pose proof (ci_rest _ _ _ _ _ _ _ Hcl p) as E. rewrite Hw in E. by destruct (φ !! p).
  - intros p q Hp. destruct (ci_copied _ _ _ _ _ _ _ Hcl _ _ Hp) as (ws & Hw & H1 & H2 & H3 & H4).
    assert (2 ≤ Z.of_nat (length ws)) by (destruct Hc as [_ _ _ _ _ Hfr _ _ _]; apply (fc_length _ _ _ _ (Hfr _ _ Hw))).
    exists ws. rewrite !lookup_insert_ne; [done|..].
    + specialize (Hfrom p ws 1%nat Hw). lia.
    + specialize (Hfrom p ws 0%nat Hw). lia.
  - intros p q ws i x Hp Hw Hx. rewrite lookup_insert_ne; [by eapply ci_words|].
    destruct (ci_copied _ _ _ _ _ _ _ Hcl _ _ Hp) as (ws' & Hw' & _ & _ & H3 & _). rewrite Hw in Hw'. injection Hw' as <-.
    apply lookup_lt_Some in Hx. eapply Hto; [exact H3|lia].
  - apply Hcl.
  - apply Hcl.
  - apply Hcl.
  - apply Hcl.
  - apply Hcl.
  - apply Hpg.
  - eapply pool_frame; [apply Hpg|..|done|done]; [|done]. intros pn b Hin Hb. apply lookup_insert_ne, (Hpage pn); [|done].
    rewrite (pi_split _ _ _ _ _ _ _ _ Hpg). apply elem_of_app. by right.
  - apply Hpg.
  - intros pn u Hin. destruct (pi_full _ _ _ _ _ _ _ _ Hpg _ _ Hin) as [Hu Hb]. split; [|done].
    rewrite lookup_insert_ne; [done|]. apply (Hfirst pn 1); [|done]. eapply pages_free; [exact Hpg|by eapply full_in_pages].
  - intros pn i Hin Hn. rewrite lookup_insert_ne; [by apply (pi_mapped _ _ _ _ _ _ _ _ Hpg)|]. apply Hfirst; [by eapply pages_free|done].
  - intros pn Hin. rewrite lookup_insert_ne; [by apply (pi_magic _ _ _ _ _ _ _ _ Hpg)|].
    rewrite <- (Z.add_0_r (PAGE_SIZE * pn)). apply (Hfirst pn 0); [by eapply pages_free|done].
  - apply Hpg.
  - apply Hpg.
  - apply Hpg.
  - apply Hpg.
  - exact Hr.
  - destruct Hf as [? ? ? Hm Hd]. split; try done; intros b; cbn [loc_set patch base set_mem mem];
      (destruct (decide (a = b)) as [<-|]; [by rewrite !lookup_insert_eq|]; rewrite !lookup_insert_ne by done).
    + by apply Hm.
    + by apply Hd.
Qed.

(** * One pointer *)

Lemma loc_same m sl φ R pend T s sl' φ' R' pend' T' s' pp : outside pp →
  gc_inv m sl φ R pend T s → gc_inv m sl' φ' R' pend' T' s' → others s s' → loc_get pp s' = loc_get pp s.
Proof.
  intros Hpp Hi Hi' Hot. destruct pp as [a|i|sp]; simpl; [|by rewrite (ot_root _ _ Hot)|by rewrite (ot_smart_ptrs _ _ Hot)].
  destruct Hpp as (_ & Hfree & Hfrom).
  rewrite (fi_mem _ _ _ _ (inv_frame _ _ _ _ _ _ _ _ _ _ _ Hi) a), (fi_mem _ _ _ _ (inv_frame _ _ _ _ _ _ _ _ _ _ _ Hi') a); try done.
  - intros pn Hin. apply Hfree. by eapply pages_free; [apply Hi'|].
  - intros pn Hin. apply Hfree. by eapply pages_free; [apply Hi|].
Qed.

Lemma wp_copy_cell fuel m φ R T s pp x wx (Q : unit → state → Prop) : same_inside m →
  gc_inv m 0 φ R (copy_stack (gc s)) T s → to_ptr (gc s) = ts_tp T → to_end (gc s) = ts_te T →
  outside pp → loc_get pp s = Some x → F !! x = Some wx → roots x →
  (∀ φ' R' T' s1 y, gc_inv m 0 φ' R' (copy_stack (gc s1)) T' s1 → to_ptr (gc s1) = ts_tp T' → to_end (gc s1) = ts_te T' →
    φ ⊆ φ' → φ' !! x = Some y → others s s1 → Q tt (loc_set pp y s1)) →
  wp (copy_cell fuel pp) Q s.
Proof.
  intros Hm Hi Etp Ete Hpp Hx Hwx Hroot HQ. pose proof (base_collectable _ Hm) as Hcm. unfold copy_cell.
  apply wp_bind, wp_assert.
  { apply negb_true_iff, bool_decide_eq_false. destruct pp; [|done..]. intros [= ->]. by destruct Hpp. } apply wp_bind. eapply wp_read_location; [exact Hx|].
  apply wp_bind, wp_assert.
  { apply negb_true_iff, bool_decide_eq_false. pose proof (fc_pos _ _ _ _ (cl_from _ _ _ _ Hc _ _ Hwx)). unfold NULL_WORD. lia. }
  destruct (φ !! x) as [y|] eqn:Hy.
  - destruct (ci_copied _ _ _ _ _ _ _ (inv_cells _ _ _ _ _ _ _ _ _ _ _ Hi) _ _ Hy) as (_ & _ & Hfw & Hto & _).
    apply wp_bind. eapply wp_rd0; [exact Hfw|]. apply wp_bind. eapply (wp_switch _ _ _ CELL_forward_pointer); [exact Hfw|done|].
    rewrite bool_decide_eq_true_2 by done. apply wp_bind. unfold rd. eapply wp_load; [exact Hto|].
    apply wp_write_location; [by eexists|]. by eapply HQ.
  - destruct (rest_cell _ _ _ _ _ Hcm _ _ _ _ _ _ _ _ Hi Hwx Hy) as (HR & Hn & Hle & t & fs & w & Hshape & Hw0 & Hmw & Ht & Hnf).
    apply wp_bind. eapply wp_rd0; [exact Hmw|]. apply wp_bind. eapply wp_switch; [exact Hmw|exact Ht|].
    rewrite bool_decide_eq_false_2 by done. apply wp_bind. eapply wp_size; [exact Hshape|exact Hw0|].
    set (n := Z.of_nat (length wx)) in *.
    apply wp_bind, wp_gcs, wp_bind, wp_set_gcs, wp_bind, wp_gcs, wp_bind, wp_gcs, wp_bind.
    cbn [to_ptr to_end set_to_ptr gc set_gc]. rewrite Etp, Ete. set (s1 := set_gc _ s).
    assert (Hi1 : gc_inv m 0 φ R (copy_stack (gc s1)) T s1) by by apply gc_inv_to_ptr.
    assert (Hreach : reaches F roots x) by (apply reaches_root; [done|by eexists]).
    assert (Hcopy : ∀ T2 s2, gc_inv m n φ R (copy_stack (gc s2)) T2 s2 → to_ptr (gc s2) = ts_tp T2 + 4 * n →
      to_end (gc s2) = ts_te T2 → ts_tp T2 + 4 * n ≤ ts_te T2 → others s s2 →
      wp (copy_to fuel t x w (ts_tp T2) pp) Q s2).
    { intros T2 s2 Hi2 Etp2 Ete2 Hroom Hot2.
      eapply wp_copy_to; [exact Hcm|exact Hi2|exact HR|exact Hreach|by eapply room_cur; [apply Hi2|apply Hn|exact Hroom]|exact Hroom|exact Hshape|exact Hw0|done|].
      fold n. intros s3 Hi3 Est3 Etp3 Ete3 Hot3.
      assert (Hx3 : is_Some (loc_get pp s3)).
      { exists x. rewrite <- Hx. eapply loc_same; [exact Hpp|exact Hi|exact Hi3|by etrans]. }
      apply wp_write_location; [done|]. split; [by destruct pp|]. split; [by destruct pp|]. split; [by destruct pp|].
      rewrite <- Est3 in Hi3. eapply HQ; [exact Hi3|by rewrite Etp3, Etp2|by rewrite Ete3, Ete2|by apply insert_subseteq|apply lookup_insert_eq|by etrans]. }
    case_bool_decide as Hfull.
    + apply wp_bind, wp_set_gcs, wp_bind.
      eapply (wp_new_to_page _ _ _ _ _ Hcm _ _ _ _ _ n); [by apply gc_inv_to_ptr|done|apply Hn|exact Hle|exact Hfull|].
      intros T' s3 Hi3 _ Hte' Etp' Ete' Est3 Hot3. apply wp_bind, wp_gcs, wp_bind, wp_set_gcs, wp_ret. rewrite Etp'.
      apply Hcopy; [apply gc_inv_to_ptr; cbn [copy_stack gc set_gc set_to_ptr]; by rewrite Est3|done|done|lia|]. etrans; [|etrans; [exact Hot3|by split]]. by split.
    + apply wp_ret. apply Hcopy; [eapply gc_inv_slack, Hi1; lia|done|done|lia|by split].
Qed.
(** A copy is below the first generation. *)
Lemma copy_old m sl φ R pend T s p q : gc_inv m sl φ R pend T s → φ !! p = Some q → q < first_generation_end s0.
Proof.
  intros Hi Hp. destruct (ci_copied _ _ _ _ _ _ _ (inv_cells _ _ _ _ _ _ _ _ _ _ _ Hi) _ _ Hp) as (ws & Hw & _ & _ & Hin & _).
  pose proof (fc_length _ _ _ _ (cl_from _ _ _ _ Hc _ _ Hw)).
  destruct (in_to_space_page _ _ _ _ _ _ _ _ _ _ q (inv_pages _ _ _ _ _ _ _ _ _ _ _ Hi) Hin ltac:(lia)) as (pn & Hpn & Hpg & _).
  assert (Hfree : pn ∈ free0) by (eapply pages_free; [apply Hi|done]).
  destruct (pool_page _ _ _ (cl_pool _ _ _ _ Hc) Hfree) as [Hr _].
  destruct (cl_bounds _ _ _ _ Hc) as (Hb & _). unfold in_page in Hpg. change PAGE_SIZE with 65536 in *. lia.
Qed.

(** * All pointers *)

(** The variables that nothing changes during the scan. *)
Definition same_vars (s s' : state) : Prop :=
  ix_is_ptr s' = ix_is_ptr s ∧ old_value s' = old_value s ∧
  first_generation_can_allocate_ptr s' = first_generation_can_allocate_ptr s ∧
  length (root s') = length (root s) ∧
  prev_to_gn (gc s') = prev_to_gn (gc s) ∧ major_gc_was_started (gc s') = major_gc_was_started (gc s) ∧
  is_collecting (gc s') = is_collecting (gc s) ∧
  ∀ c, next_of (smart_ptrs (gc s')) c = next_of (smart_ptrs (gc s)) c ∧
       prev_of (smart_ptrs (gc s')) c = prev_of (smart_ptrs (gc s)) c.

Lemma same_vars_others s1 s s' : same_vars s1 s → others s s' → same_vars s1 s'.
Proof.
  intros (?&?&?&?&?&?&?&?) [O1 O2 O3 O4 O5 O6 O7 O8]. unfold same_vars. rewrite O1, O2, O3, O4, O5, O6, O7, O8. by split_and!.
Qed.

Lemma same_vars_loc s1 s pp v : same_vars s1 s → same_vars s1 (loc_set pp v s).
Proof.
  intros (?&?&?&?&?&?&?&Hl). unfold same_vars. split_and!; try by destruct pp.
  - destruct pp; [done| |done]. simpl. by rewrite length_zinsert.
  - intros c. destruct (loc_set_links s pp v c) as [-> ->]. apply Hl.
Qed.

(** The pointers at [D] were scanned. *)
Definition scanned (D : list location) (φ : gmap Z Z) (s : state) : Prop :=
  same_vars s0 s ∧ ∀ pp x, outside pp → loc_get pp s0 = Some x →
    loc_get pp s = Some (if bool_decide (pp ∈ D) then forward φ x else x) ∧
    (pp ∈ D → is_Some (F !! x) → is_Some (φ !! x)).

Definition scanning (D : list location) (s : state) : Prop :=
  ∃ m φ R T, same_inside m ∧ (∀ a, Image a ∉ D → m !! a = mem s0 !! a) ∧ gc_inv m 0 φ R (copy_stack (gc s)) T s ∧ to_ptr (gc s) = ts_tp T ∧ to_end (gc s) = ts_te T ∧ scanned D φ s.

Lemma forward_mono m sl φ φ' R pend T s x : gc_inv m sl φ' R pend T s → φ ⊆ φ' →
  (is_Some (F !! x) → is_Some (φ !! x)) → forward φ' x = forward φ x.
Proof.
  intros Hi Hsub Hx. destruct (φ !! x) as [y|] eqn:E.
  - rewrite (forward_Some _ _ _ E). apply forward_Some. by eapply lookup_weaken.
  - rewrite (forward_None _ _ E). apply forward_None. destruct (φ' !! x) as [y|] eqn:E'; [|done].
    destruct (ci_copied _ _ _ _ _ _ _ (inv_cells _ _ _ _ _ _ _ _ _ _ _ Hi) _ _ E') as (ws & Hw & _).
    destruct Hx as [? ?]; [eauto|congruence].
Qed.

Lemma scanned_add D m φ R T φ' R' T' s s1 pp x y : scanned D φ s → gc_inv m 0 φ R (copy_stack (gc s)) T s →
  gc_inv m 0 φ' R' (copy_stack (gc s1)) T' s1 → φ ⊆ φ' → φ' !! x = Some y → others s s1 → outside pp → loc_get pp s0 = Some x → scanned (pp :: D) φ' (loc_set pp y s1).
Proof.
  intros [Hv Hl] Hi0 Hi Hsub Hy Hot Hpp Hx. split; [by eapply same_vars_loc, same_vars_others|].
  assert (Hsome : is_Some (loc_get pp s1)).
  { destruct (Hl pp x Hpp Hx) as [E _]. eexists. rewrite <- E. by eapply loc_same. }
  intros pp' x' Hpp' Hx'. destruct (decide (pp' = pp)) as [->|Hne].
  - rewrite Hx in Hx'. injection Hx' as <-. rewrite loc_get_set by done.
    rewrite bool_decide_eq_true_2 by by left. rewrite (forward_Some _ _ _ Hy). split; [done|]. eauto.
  - rewrite loc_get_set_ne by done. destruct (Hl pp' x' Hpp' Hx') as [E Hd].
    assert (E1 : loc_get pp' s1 = loc_get pp' s) by by eapply loc_same.
    assert (Hiff : pp' ∈ pp :: D ↔ pp' ∈ D) by (rewrite elem_of_cons; split; [intros [?|]; [by destruct Hne|done]|by right]).
    rewrite E1, E, (bool_decide_ext _ _ Hiff). split.
    + case_bool_decide as Hin; [|done]. f_equal. symmetry. eapply forward_mono; [exact Hi|exact Hsub|by apply Hd].
    + intros Hin Hfx. apply Hiff in Hin. destruct (Hd Hin Hfx) as [z Hz]. exists z. by eapply lookup_weaken.
Qed.

(** ** The pointers that are copied

    [seen] is what scanned variables may hold besides [NULL]; [is_from] recognizes the
    pointers to cells that are to be copied among them and the pointers to copies. *)
Definition judges (seen : Z → Prop) (is_from : Z → M bool) : Prop :=
  ∀ m φ R T s x (Q : bool → state → Prop), same_inside m → gc_inv m 0 φ R (copy_stack (gc s)) T s →
    seen x ∨ (∃ p, φ !! p = Some x) → Q (bool_decide (is_Some (F !! x))) s → wp (is_from x) Q s.

(** What the loops over the root set need to know of the work at each pointer. *)
Definition scans (seen : Z → Prop) (scan : location → M unit) : Prop :=
  ∀ D s pp x (Q : unit → state → Prop), scanning D s → outside pp → loc_get pp s0 = Some x → x = NULL_WORD ∨ seen x →
    (is_Some (F !! x) → roots x) → (∀ s', scanning (pp :: D) s' → Q tt s') → wp (scan pp) Q s.

Lemma copy_not_from m sl φ R pend T s p q : gc_inv m sl φ R pend T s → φ !! p = Some q → F !! q = None.
Proof.
  intros Hi Hp. apply eq_None_not_Some. intros [wq Hq].
  destruct (ci_copied _ _ _ _ _ _ _ (inv_cells _ _ _ _ _ _ _ _ _ _ _ Hi) _ _ Hp) as (ws & Hw & _ & _ & Hin & _).
  pose proof (fc_length _ _ _ _ (cl_from _ _ _ _ Hc _ _ Hw)). pose proof (fc_length _ _ _ _ (cl_from _ _ _ _ Hc _ _ Hq)).
  destruct (in_to_space_page _ _ _ _ _ _ _ _ _ _ q (inv_pages _ _ _ _ _ _ _ _ _ _ _ Hi) Hin ltac:(lia)) as (pn & Hpn & Hpg & _).
  assert (Hfree : pn ∈ free0) by (eapply pages_free; [apply Hi|done]).
  apply (from_not_free Hc _ _ _ q Hq Hfree); [lia|done].
Qed.

(** The state after a pointer was scanned. *)
Lemma scanned_skip D φ s pp x v : scanned D φ s → outside pp → loc_get pp s0 = Some x → loc_get pp s = Some v →
  v = forward φ x → (is_Some (F !! x) → is_Some (φ !! x)) → scanned (pp :: D) φ s.
Proof.
  intros [Hv Hl] Hpp Hx Hcur Ev Hfx. split; [done|]. intros pp' x' Hpp' Hx'. destruct (decide (pp' = pp)) as [->|Hne].
  - rewrite Hx in Hx'. injection Hx' as <-. rewrite bool_decide_eq_true_2 by by left. by rewrite Hcur, Ev.
  - assert (Hiff : pp' ∈ pp :: D ↔ pp' ∈ D) by (rewrite elem_of_cons; split; [intros [?|]; [by destruct Hne|done]|by right]).
    rewrite (bool_decide_ext _ _ Hiff). destruct (Hl pp' x' Hpp' Hx') as [E Hd]. split; [done|]. by rewrite Hiff.
Qed.

(** [copy_cell] at a pointer that was not redirected. *)
Lemma wp_copy_scan fuel D s pp x (Q : unit → state → Prop) : scanning D s → outside pp → loc_get pp s0 = Some x →
  loc_get pp s = Some x → is_Some (F !! x) → roots x → (∀ s', scanning (pp :: D) s' → Q tt s') → wp (copy_cell fuel pp) Q s.
Proof.
  intros (m & φ & R & T & Hm & Hpat & Hi & Etp & Ete & Hsc) Hpp Hx Hcur [wx HF] Hroot HQ.
  eapply wp_copy_cell; [exact Hm|exact Hi|exact Etp|exact Ete|exact Hpp|exact Hcur|exact HF|exact Hroot|].
  intros φ' R' T' s1 z Hi1 Etp1 Ete1 Hsub Hz Hot1. apply HQ. exists (patch pp z m), φ', R', T'.
  assert (Est : copy_stack (gc (loc_set pp z s1)) = copy_stack (gc s1)) by by destruct pp.
  rewrite Est. split; [by apply same_inside_patch|]. split; [by apply not_in_patch|]. split; [by apply gc_inv_loc_set|]. split; [by destruct pp|].
  split; [by destruct pp|]. eapply scanned_add; [exact Hsc|exact Hi|exact Hi1|done..].
Qed.

Lemma copy_if_scans seen is_from fuel : judges seen is_from → scans seen (copy_if is_from fuel).
Proof.
  intros Hj D s pp x Q Hs Hpp Hx Hseen Hroot HQ. pose proof Hs as (m & φ & R & T & Hm & Hpat & Hi & Etp & Ete & Hsc).
  pose proof Hsc as [Hv Hl]. destruct (Hl pp x Hpp Hx) as [Hcur Hdone]. set (v := if bool_decide (pp ∈ D) then _ else _) in *.
  assert (HnF : F !! x = None → φ !! x = None).
  { intros HF. destruct (φ !! x) as [y|] eqn:E; [|done].
    destruct (ci_copied _ _ _ _ _ _ _ (inv_cells _ _ _ _ _ _ _ _ _ _ _ Hi) _ _ E) as (ws & Hw & _). congruence. }
  assert (Hnull : F !! NULL_WORD = None).
  { apply eq_None_not_Some. intros [ws Hw]. pose proof (fc_pos _ _ _ _ (cl_from _ _ _ _ Hc _ _ Hw)) as H. by unfold NULL_WORD in H. }
  assert (Hskip : v = forward φ x → (is_Some (F !! x) → is_Some (φ !! x)) → Q tt s).
  { intros Ev Hfx. apply HQ. exists m, φ, R, T. split_and!; try done; [|by eapply scanned_skip].
    intros a Ha. apply Hpat. intros Hin. apply Ha. by right. }
  (* the pointer now: redirected, or as it was *)
  assert (Hcase : (v = forward φ x ∧ (is_Some (F !! x) → is_Some (φ !! x)) ∧ (v = x ∨ ∃ p, φ !! p = Some v) ∧ F !! v = None) ∨
    v = x ∧ is_Some (F !! x)).
  { destruct (F !! x) as [wx|] eqn:HF.
    - subst v. destruct (bool_decide (pp ∈ D)) eqn:HD; [left|by right].
      apply bool_decide_eq_true in HD. destruct (Hdone HD ltac:(eauto)) as [y Hy]. rewrite (forward_Some _ _ _ Hy).
      split; [done|]. split; [by eexists|]. split; [by right; exists x|by eapply copy_not_from].
    - left. assert (Ev : v = x) by (subst v; rewrite (forward_None _ _ (HnF eq_refl)); by case_bool_decide).
      rewrite Ev. split; [by rewrite (forward_None _ _ (HnF eq_refl))|]. split; [by intros [? ?]|]. split; [by left|done]. }
  unfold copy_if. apply wp_bind. eapply wp_read_location; [exact Hcur|]. destruct (decide (v = NULL_WORD)) as [Hv0|Hv0].
  - rewrite bool_decide_eq_false_2 by (intros H; by apply H). apply wp_ret.
    destruct Hcase as [(Ev & Hfx & _)|[Ev [wx HF]]]; [by apply Hskip|]. rewrite <- Ev, Hv0 in HF. congruence.
  - rewrite bool_decide_eq_true_2 by done. apply wp_bind. eapply Hj; [exact Hm|exact Hi| |].
    { destruct Hcase as [(_ & _ & [->|Hq] & _)|[-> _]]; [|by right|]; left; destruct Hseen as [->|]; done || by destruct Hv0. }
    destruct Hcase as [(Ev & Hfx & _ & HF)|[-> HF]].
    + rewrite HF, bool_decide_eq_false_2 by (intros []; done). apply wp_ret. by apply Hskip.
    + rewrite bool_decide_eq_true_2 by done. eapply wp_copy_scan; [exact Hs|exact Hpp|exact Hx|exact Hcur|exact HF|by apply Hroot|exact HQ].
Qed.
End roots.

(** * The root set *)

Definition accu : Z := Z.of_nat (root_ix_num ROOT_IX_suspended_accu).

Definition accu_holds_ptr (s : state) : bool :=
  match root s !! root_ix_num ROOT_IX_suspended_accu_type, root s !! root_ix_num ROOT_IX_suspended_accu with
  | Some ty, Some x => bool_decide (ty = PTR) || bool_decide (ty = NONNULL_PTR) ||
      bool_decide (ty = TAGGED) && TAGGED_IS_PTR x
  | _, _ => false
  end.

(** The pointers from outside, where [sps] are the smart pointers in the ring. *)
Definition root_loc (s : state) (sps : list Z) (pp : location) : Prop :=
  match pp with
  | Image _ => False
  | RootWord i => 0 ≤ i < NUMBER_OF_ROOT_IXS ∧ ix_is_ptr s !! Z.to_nat i = Some true ∨ i = accu ∧ accu_holds_ptr s = true
  | SmartWord sp => sp ∈ sps
  end.

Definition root_value (s : state) (sps : list Z) (x : Z) : Prop :=
  ∃ pp, root_loc s sps pp ∧ loc_get pp s = Some x.

(** The root block is complete, the smart pointers form a ring, and the pointers are
    [NULL] or satisfy [seen]. *)
Record roots_ok (s : state) (seen : Z → Prop) (l : list (Z * Z)) : Prop := {
  ro_root : NUMBER_OF_ROOT_IXS ≤ Z.of_nat (length (root s));
  ro_ix : NUMBER_OF_ROOT_IXS ≤ Z.of_nat (length (ix_is_ptr s));
  ro_ring : ring (smart_ptrs (gc s)) l;
  ro_target pp x : root_loc s l.*1 pp → loc_get pp s = Some x → x = NULL_WORD ∨ seen x
}.

Lemma root_loc_outside F free s sps pp : root_loc s sps pp → outside F free pp.
Proof. by destruct pp. Qed.

Lemma root_loc_some s seen l pp : roots_ok s seen l → root_loc s l.*1 pp → ∃ x, loc_get pp s = Some x.
Proof.
  intros Hok Hpp. destruct pp as [a|i|sp]; simpl in *; [done|..].
  - apply zlookup_lt. pose proof (ro_root _ _ _ Hok). change NUMBER_OF_ROOT_IXS with 45 in *.
    destruct Hpp as [[Hi _]|[-> _]]; [lia|]. change accu with 8. lia.
  - apply list_elem_of_fmap in Hpp as ([sp' v] & -> & Hin). exists v. by apply (ring_values _ _ (ro_ring _ _ _ Hok)).
Qed.

Lemma wp_accu_is_ptr s (Q : bool → state → Prop) : NUMBER_OF_ROOT_IXS ≤ Z.of_nat (length (root s)) →
  Q (accu_holds_ptr s) s → wp accu_is_ptr Q s.
Proof.
  intros Hlen HQ. change NUMBER_OF_ROOT_IXS with 45 in Hlen.
  destruct (lookup_lt_is_Some_2 (root s) (root_ix_num ROOT_IX_suspended_accu_type)) as [ty Hty].
  { change (root_ix_num _) with 7%nat. lia. }
  destruct (lookup_lt_is_Some_2 (root s) (root_ix_num ROOT_IX_suspended_accu)) as [x Hx].
  { change (root_ix_num _) with 8%nat. lia. }
  unfold accu_holds_ptr in HQ. rewrite Hty, Hx in HQ. apply wp_bind. eapply wp_get_root; [exact Hty|].
  destruct (bool_decide (ty = PTR)); [by apply wp_ret|]. destruct (bool_decide (ty = NONNULL_PTR)); [by apply wp_ret|].
  destruct (bool_decide (ty = TAGGED)); [|by apply wp_ret].
  apply wp_bind. eapply wp_get_root; [exact Hx|]. by apply wp_ret.
Qed.

Section scan.
Context (s0 : state) (F : gmap Z (list Z)) (gn : Z) (free0 : list Z) (l : list (Z * Z)).
Context (seen : Z → Prop) (scan : location → M unit) (rl : location → Prop).

(** The values of the variables in [rl]. *)
Definition value_of (s : state) (x : Z) : Prop := ∃ pp, rl pp ∧ loc_get pp s = Some x.

Context (Hscan : scans s0 F gn free0 (value_of s0) seen scan).
Context (Hok : roots_ok s0 seen l) (Hrl : ∀ pp, root_loc s0 l.*1 pp → rl pp).

#[local] Abbreviation scanning := (scanning s0 F gn free0 (value_of s0)).

(** The scanned pointers [D] are some of those to be scanned, those of [P] among
    them. *)
Definition progress (P : location → Prop) (D : list location) : Prop :=
  (∀ pp, pp ∈ D → rl pp) ∧ ∀ pp, P pp → pp ∈ D.

Lemma progress_cons P P' D pp : progress P D → rl pp → (∀ pp', P' pp' → P pp' ∨ pp' = pp) → progress P' (pp :: D).
Proof.
  intros [Hr HP] Hpp HP'. split.
  - intros pp' [->|]%elem_of_cons; auto.
  - intros pp' [?| ->]%HP'; [right; auto|by left].
Qed.

Lemma progress_mono (P P' : location → Prop) D : (∀ pp, P' pp → P pp) → progress P D → progress P' D.
Proof. intros HP [H1 H2]. split; auto. Qed.

Lemma wp_scan_one D s pp (P P' : location → Prop) (Q : unit → state → Prop) :
  scanning D s → progress P D → root_loc s0 l.*1 pp → (∀ pp', P' pp' → P pp' ∨ pp' = pp) →
  (∀ D' s', scanning D' s' → progress P' D' → Q tt s') → wp (scan pp) Q s.
Proof.
  intros Hs HD Hpp HP' HQ. destruct (root_loc_some _ _ _ _ Hok Hpp) as [x Hx].
  eapply Hscan; [exact Hs|by eapply root_loc_outside|exact Hx|by eapply (ro_target _ _ _ Hok)| |].
  - intros _. exists pp. auto.
  - intros s' Hs'. apply (HQ (pp :: D)); [done|]. eapply progress_cons; [exact HD|auto|done].
Qed.

Definition root_word_below (k : Z) (pp : location) : Prop :=
  pp = RootWord accu ∧ accu_holds_ptr s0 = true ∨
  ∃ i, pp = RootWord i ∧ 0 ≤ i < k ∧ ix_is_ptr s0 !! Z.to_nat i = Some true.

Lemma wp_scan_root P0 D s (Q : unit → state → Prop) :
  scanning D s → progress (λ pp, P0 pp ∨ root_word_below 0 pp) D →
  (∀ D' s', scanning D' s' → progress (λ pp, P0 pp ∨ root_word_below NUMBER_OF_ROOT_IXS pp) D' → Q tt s') →
  wp (scan_root scan) Q s.
Proof.
  intros Hs HD HQ. unfold scan_root.
  apply wp_for with (I := λ k _ s', ∃ D', scanning D' s' ∧ progress (λ pp, P0 pp ∨ root_word_below (Z.of_nat k) pp) D').
  - by exists D.
  - intros k [] s1 Hk (D1 & Hs1 & HD1). pose proof (ro_ix _ _ _ Hok) as Hix. change NUMBER_OF_ROOT_IXS with 45 in *.
    destruct (lookup_lt_is_Some_2 (ix_is_ptr s0) k) as [b Hb]; [lia|].
    assert (Eix : ix_is_ptr s1 = ix_is_ptr s0) by (destruct Hs1 as (? & ? & ? & ? & _ & _ & _ & _ & _ & [H _] & _); exact H).
    apply wp_bind. unfold root_ix_is_ptr. apply wp_bind, wp_assert; [apply bool_decide_eq_true; lia|].
    apply wp_bind, wp_assert; [apply bool_decide_eq_true; change NUMBER_OF_ROOT_IXS with 45; lia|].
    apply wp_bind, wp_gets. rewrite Eix, Nat2Z.id. eapply wp_of_option; [exact Hb|]. destruct b.
    + eapply (wp_scan_one _ _ _ _ (λ pp, P0 pp ∨ root_word_below (Z.of_nat (S k)) pp)); [exact Hs1|exact HD1| | |by eauto].
      * left. rewrite Nat2Z.id. change NUMBER_OF_ROOT_IXS with 45. split; [lia|done].
      * intros pp [?|[?|(i & -> & Hi & Hixi)]]; [left; by left|left; right; by left|]. destruct (decide (i = Z.of_nat k)) as [->|]; [by right|].
        left. right. right. exists i. split; [done|]. split; [lia|done].
    + apply wp_ret. exists D1. split; [done|]. destruct HD1 as [H1 H2]. split; [done|]. intros pp [?|[?|(i & -> & Hi & Hixi)]]; apply H2; [by left|right; by left|].
      right. right. exists i. split; [done|]. split; [|done]. destruct (decide (i = Z.of_nat k)) as [->|]; [|lia].
      rewrite Nat2Z.id in Hixi. congruence.
  - intros [] s1 (D1 & Hs1 & HD1). eapply HQ; [exact Hs1|]. change NUMBER_OF_ROOT_IXS with 45. exact HD1.
Qed.

Lemma scan_links D s c : scanning D s →
  next_of (smart_ptrs (gc s)) c = next_of (smart_ptrs (gc s0)) c ∧ prev_of (smart_ptrs (gc s)) c = prev_of (smart_ptrs (gc s0)) c.
Proof. intros (? & ? & ? & ? & _ & _ & _ & _ & _ & (_ & _ & _ & _ & _ & _ & _ & H) & _). apply H. Qed.

Lemma wp_scan_smart_ptrs fuel P D s (Q : unit → state → Prop) :
  scanning D s → progress P D → (length l < fuel)%nat →
  (∀ D' s', scanning D' s' → progress (λ pp, P pp ∨ ∃ sp, pp = SmartWord sp ∧ sp ∈ l.*1) D' → Q tt s') →
  wp (scan_smart_ptrs fuel scan) Q s.
Proof.
  intros Hs HD Hfuel HQ. pose proof (ring_links _ _ (ro_ring _ _ _ Hok)) as Hring.
  destruct (segment_next _ _ _ _ Hring) as (b & Hb & Hhead).
  rewrite <- (proj1 (scan_links _ _ _ Hs)) in Hb. destruct (next_some _ _ _ Hb) as (x & Hx & Ex).
  unfold scan_smart_ptrs. apply wp_bind. eapply wp_get_smart; [exact Hx|]. rewrite Ex.
  eapply wp_loop with (n := length l.*1) (I := λ k sp s', ∃ l1 l2 D', l.*1 = l1 ++ l2 ∧ k = length l2 ∧
    head (l2 ++ [first_smart_ptr]) = Some sp ∧ scanning D' s' ∧
    progress (λ pp, P pp ∨ ∃ sp, pp = SmartWord sp ∧ sp ∈ l1) D').
  { by rewrite length_fmap. }
  { exists [], l.*1, D. split; [done|]. split; [done|]. split; [done|]. split; [done|]. destruct HD as [H1 H2].
    split; [done|]. intros pp [?|(sp & _ & ?%not_elem_of_nil)]; [auto|done]. }
  intros k sp s1 (l1 & l2 & D1 & El & -> & Hsp & Hs1 & HD1). pose proof (ring_nodup _ _ (ro_ring _ _ _ Hok)) as Hnd.
  destruct l2 as [|sp' l2]; simpl in Hsp; injection Hsp as <-.
  - rewrite bool_decide_eq_false_2 by (intros H; by apply H). apply wp_ret. rewrite app_nil_r in El. eapply HQ; [exact Hs1|]. by rewrite El.
  - rewrite El in Hring, Hnd. apply NoDup_cons in Hnd as [H0 _]. apply segment_app in Hring as [_ Hseg].
    rewrite bool_decide_eq_true_2 by (intros ->; apply H0, elem_of_app; right; by left).
    destruct (segment_next _ _ _ _ Hseg) as (c & Hc' & Hhead').
    assert (Hpc : prev_of (smart_ptrs (gc s0)) c = Some sp').
    { destruct l2 as [|d l2]; simpl in Hhead', Hseg; injection Hhead' as <-; apply Hseg. }
    assert (Hcs : ∀ D' s', scanning D' s' → ∃ y, smart_ptrs (gc s') !! sp' = Some y ∧ sp_next y = c ∧
      ∃ z, smart_ptrs (gc s') !! c = Some z ∧ sp_prev z = sp').
    { intros D' s' Hs'. destruct (scan_links _ _ sp' Hs') as [E1 _]. destruct (scan_links _ _ c Hs') as [_ E2].
      rewrite Hc' in E1. rewrite Hpc in E2. destruct (next_some _ _ _ E1) as (y & Hy & Ey). exists y. split; [done|]. split; [done|].
      unfold prev_of in E2. destruct (smart_ptrs (gc s') !! c) as [z|]; [|done]. exists z. split; [done|]. by injection E2. }
    destruct (Hcs _ _ Hs1) as (y & Hy & Ey & z & Hz & Ez).
    apply wp_bind. eapply wp_get_smart; [exact Hy|]. rewrite Ey. apply wp_bind. eapply wp_get_smart; [exact Hz|].
    apply wp_bind, wp_assert; [by apply bool_decide_eq_true|]. apply wp_bind.
    eapply (wp_scan_one _ _ _ _ (λ pp, P pp ∨ ∃ sp, pp = SmartWord sp ∧ sp ∈ l1 ++ [sp'])); [exact Hs1|exact HD1| | |].
    + simpl. rewrite El. apply elem_of_app. right. by left.
    + intros pp [?|(sp & -> & [?| ->%list_elem_of_singleton]%elem_of_app)]; [left; by left|left; right; by exists sp|by right].
    + intros D2 s2 Hs2 HD2. destruct (Hcs _ _ Hs2) as (y2 & Hy2 & Ey2 & _).
      apply wp_bind. eapply wp_get_smart; [exact Hy2|]. apply wp_ret. exists (length l2). rewrite Ey2. split; [simpl; lia|].
      exists (l1 ++ [sp']), l2, D2. split; [by rewrite <- app_assoc|]. split_and!; done.
Qed.
End scan.
