(* ===== verification/Copied.v ===== *)
(** The end of a collection: the copies are written to disk, and what a whole
    collection has done since copying started. *)

From S2P Require Import Prelude Generations Machine Celltypes Shades Root Bitops Cells Pages Smartptr Io Copy Forward Copying Drain Roots.

(** * Pages on disk *)

Lemma round_up_page n : 0 ≤ n ≤ PAGE_SIZE → round_up n ≤ PAGE_SIZE.
Proof.
  unfold round_up. change WRITE_BOUNDARY with 512. change PAGE_SIZE with 65536. intros Hn. case_bool_decide; zdiv.
Qed.

Lemma mapped_words (m : gmap Z Z) p n : (∀ i, 0 ≤ i < Z.of_nat n → is_Some (m !! (p + 4 * i))) →
  ∃ ws, words_at m p ws ∧ length ws = n.
Proof.
  intros Hm. exists ((λ i : nat, default 0 (m !! (p + 4 * Z.of_nat i))) <$> seq 0 n).
  rewrite length_fmap, length_seq. split; [|done]. intros i w Hi. rewrite list_lookup_fmap in Hi.
  apply fmap_Some in Hi as (j & [-> Hj]%lookup_seq & ->). destruct (Hm (Z.of_nat i) ltac:(lia)) as [v Hv].
  simpl. by rewrite Hv.
Qed.

(** The first [k] of the [pages] of memory [m] were written to the disk pages [ds]:
    the disk had the pages [A] and has the pages [A']. *)
Record stored (k : nat) (m : gmap Z Z) (A A' : gmap Z (list Z)) (pages ds : list Z) : Prop := {
  st_length : length ds = length pages;
  st_old d ws : A !! d = Some ws → A' !! d = Some ws;
  st_new i d : (i < k)%nat → ds !! i = Some d → A !! d = None;
  st_distinct i j d : (i < k)%nat → (j < k)%nat → ds !! i = Some d → ds !! j = Some d → i = j;
  st_all d : is_Some (A' !! d) → is_Some (A !! d) ∨ ∃ i, (i < k)%nat ∧ ds !! i = Some d;
  st_page i pn d : (i < k)%nat → pages !! i = Some pn → ds !! i = Some d → ∃ ws u, A' !! d = Some ws ∧
    words_at m (PAGE_SIZE * pn) ws ∧ m !! (PAGE_SIZE * pn + 4) = Some u ∧ length ws = Z.to_nat (round_up (u * 4) / 4)
}.

Lemma stored_0 m A pages ds : length ds = length pages → stored 0 m A A pages ds.
Proof. intros Hl. split; try done; try (intros; lia). by left. Qed.

Lemma stored_S k m A A' pages ds d pn ws u : stored k m A A' pages ds → A' !! d = None → pages !! k = Some pn →
  words_at m (PAGE_SIZE * pn) ws → m !! (PAGE_SIZE * pn + 4) = Some u → length ws = Z.to_nat (round_up (u * 4) / 4) →
  stored (S k) m A (<[d := ws]> A') pages (<[k := d]> ds).
Proof.
  intros [Hl Hold Hnew Hdist Hall Hpg] Hd Hpn Hws Hu Hlen. pose proof (lookup_lt_Some _ _ _ Hpn) as Hk.
  assert (Hin : ∀ i e, (i < k)%nat → ds !! i = Some e → is_Some (A' !! e)).
  { intros i e Hi He. destruct (lookup_lt_is_Some_2 pages i) as [pi Hpi]; [lia|].
    destruct (Hpg i pi e Hi Hpi He) as (w & ? & ? & _). eauto. }
  assert (Hget : ∀ i e, (i < S k)%nat → <[k := d]> ds !! i = Some e → i = k ∧ e = d ∨ (i < k)%nat ∧ ds !! i = Some e).
  { intros i e Hi He. destruct (decide (i = k)) as [->|]; [|rewrite list_lookup_insert_ne in He by done; right; split; [lia|done]].
    rewrite list_lookup_insert_eq in He by lia. left. split; [done|congruence]. }
  split.
  - by rewrite length_insert.
  - intros e w He. destruct (decide (d = e)) as [<-|]; [|rewrite lookup_insert_ne by done; by apply Hold].
    apply Hold in He. congruence.
  - intros i e Hi [[-> ->]|[Hi' He]]%Hget; [|by eapply Hnew|done]. destruct (A !! d) as [w|] eqn:E; [|done]. apply Hold in E. congruence.
  - intros i j e Hi Hj He1 He2. apply Hget in He1; [|done]. apply Hget in He2; [|done].
    destruct He1 as [[-> ->]|[Hi1 He1]], He2 as [[-> E2]|[Hj1 He2]]; [done|..].
    + destruct (Hin _ _ Hj1 He2). congruence.
    + subst e. destruct (Hin _ _ Hi1 He1). congruence.
    + by eapply Hdist.
  - intros e [w [[<- _]|[_ He]]%lookup_insert_Some].
    + right. exists k. split; [lia|]. apply list_lookup_insert_eq. lia.
    + destruct (Hall e ltac:(eauto)) as [|(i & Hi & Hei)]; [by left|right]. exists i. split; [lia|].
      rewrite list_lookup_insert_ne by lia. done.
  - intros i pi e Hi Hpi [[-> ->]|[Hi' He]]%Hget; [|..|done].
    + rewrite Hpn in Hpi. injection Hpi as <-. exists ws, u. by rewrite lookup_insert_eq.
    + destruct (Hpg i pi e Hi' Hpi He) as (w & v & H1 & H2). exists w, v. split; [|done].
      rewrite lookup_insert_ne; [done|]. intros <-. destruct (Hin _ _ Hi' He). congruence.
Qed.

(** * The end *)

Lemma put_io_gc x g s : put_io x (set_gc g s) = set_gc (set_io x g) s.
Proof. done. Qed.

Section finish.
Context `{Params}.
Context (s0 : state) (F : gmap Z (list Z)) (gn : Z) (free0 : list Z) (roots : Z → Prop).
Context (Hc : collectable s0 F gn free0).

#[local] Abbreviation pages_inv := (pages_inv s0 F gn free0).
#[local] Abbreviation N := NUMBER_OF_WORDS_PER_PAGE.

(** The to-pages' words in use are as long as the cells in them reach. *)
Lemma wrapped_words sl R T s pn : pages_inv sl R T s → pn ∈ ts_pages T →
  ∃ u, wrapped_mem T (mem s) !! (PAGE_SIZE * pn + 4) = Some u ∧ 2 ≤ u ≤ N ∧
    ∀ q n, in_to_space T q n → in_page pn q → 0 < n → PAGE_SIZE * pn + 8 ≤ q ∧ q + 4 * n ≤ PAGE_SIZE * pn + 4 * u.
Proof.
  intros Hp Hin. pose proof (pi_cur _ _ _ _ _ _ _ _ Hp) as Hcur.
  assert (Hsame : ∀ pn' u q n, (pn', u) ∈ ts_full T → PAGE_SIZE * pn' + 8 ≤ q → q + 4 * n ≤ PAGE_SIZE * pn' + 4 * u → 0 < n →
    in_page pn q → pn = pn').
  { intros pn' u q n Hf Hlo Hhi Hn Hq. destruct (pi_full _ _ _ _ _ _ _ _ Hp _ _ Hf) as [_ Hu].
    apply (in_page_inj _ _ q); [done|]. unfold in_page. change N with 16384 in *. change PAGE_SIZE with 65536 in *. lia. }
  apply elem_of_app in Hin as [Hin|Hin].
  - apply list_elem_of_fmap in Hin as ([pn' u] & -> & Hf). simpl in *.
    destruct (pi_full _ _ _ _ _ _ _ _ Hp _ _ Hf) as [Hm Hu]. exists u.
    assert (Hw : wrapped_mem T (mem s) !! (PAGE_SIZE * pn' + 4) = Some u).
    { unfold wrapped_mem. destruct (ts_cur T) as [pc|] eqn:Ecur; [|done]. rewrite lookup_insert_ne; [done|].
      pose proof (full_not_cur _ _ _ _ Hc _ _ _ _ _ _ _ Hp Hf Ecur). change PAGE_SIZE with 65536. lia. }
    split; [done|]. split; [done|]. intros q n [_ [(pn2 & u2 & Hf2 & Hlo & Hhi)|(pn2 & Ecur & Hlo & Hhi)]] Hq Hn.
    + pose proof (Hsame _ _ _ _ Hf2 Hlo Hhi Hn Hq) as ->. destruct (pi_full _ _ _ _ _ _ _ _ Hp _ _ Hf2) as [Hm2 _].
      rewrite Hm in Hm2. injection Hm2 as ->. done.
    + rewrite Ecur in Hcur. destruct (full_not_cur _ _ _ _ Hc _ _ _ _ _ _ _ Hp Hf Ecur).
      apply (in_page_inj _ _ q); [done|]. unfold in_page. change PAGE_SIZE with 65536 in *. lia.
  - unfold wrapped_mem. destruct (ts_cur T) as [pc|] eqn:Ecur; [|by apply not_elem_of_nil in Hin].
    apply list_elem_of_singleton in Hin as ->. destruct Hcur as (_ & Hlo0 & Hte & Hm & _).
    exists ((ts_tp T - PAGE_SIZE * pc) / 4). rewrite lookup_insert_eq. split; [done|].
    split; [change N with 16384; change PAGE_SIZE with 65536 in *; zdiv|].
    intros q n [_ [(pn2 & u2 & Hf2 & Hlo & Hhi)|(pn2 & E & Hlo & Hhi)]] Hq Hn.
    + destruct (full_not_cur _ _ _ _ Hc _ _ _ _ _ _ _ Hp Hf2 Ecur). symmetry. by eapply Hsame.
    + injection (eq_trans (eq_sym E) Ecur) as ->. split; [done|]. change PAGE_SIZE with 65536 in *. zdiv.
Qed.

(** There are not more to-pages than the cells need. *)
Lemma few_pages R T s : pages_inv 0 R T s → total_words R ≤ total_words F → 0 ≤ total_words R →
  Z.of_nat (length (ts_pages T)) ≤ 2 * total_words F / (N - 2) + 1.
Proof.
  intros Hp HR H0. pose proof (pi_cur _ _ _ _ _ _ _ _ Hp) as Hcur. unfold ts_pages. rewrite length_app, length_fmap.
  change (N - 2) with 16382. change N with 16384 in Hcur. change PAGE_SIZE with 65536 in Hcur.
  destruct (ts_cur T); simpl; [|destruct Hcur as (_ & _ & _ & ->); simpl]; zdiv.
Qed.

(** The variables after [finish_gc]: [y] was the generation's entry, [ds] are the
    disk pages, [x] is the state of the disk. *)
Definition filed (y : generation_info_t) (ds : list Z) (x : io_state) (g : gc_state) : gc_state :=
  set_io x (set_generation_info (zinsert gn (with_pages (gi_npages y) (gi_page y) ds y) (generation_info g)) g).

Lemma filed_id y g : zlookup (generation_info g) gn = Some y → filed y (gi_disk_page y) (io g) g = g.
Proof. intros Hy. unfold filed. rewrite zinsert_id by by destruct y. by destruct g. Qed.

(** A page of the new generation is written. *)
Lemma wp_finish_page sl R T s1 A r y ds x A' k (Q : unit → state → Prop) :
  pages_inv sl R T s1 → zlookup (generation_info (gc s1)) gn = Some y → gi_page y = ts_pages T →
  let s2 := set_mem (wrapped_mem T (mem s1)) s1 in
  stored k (mem s2) A A' (ts_pages T) ds → disk x A' r → (k < length (ts_pages T))%nat →
  Z.of_nat (length (file x)) < number_of_free_disk_pages x →
  (∀ d x' A'', stored (S k) (mem s2) A A'' (ts_pages T) (zinsert (Z.of_nat k) d ds) → disk x' A'' r →
    length (file x') = length (file x) → number_of_free_disk_pages x' = number_of_free_disk_pages x - 1 →
    Q tt (set_gc (filed y (zinsert (Z.of_nat k) d ds) x' (gc s1)) s2)) →
  wp (x ← get_gen gn;
      pn ← of_option (zlookup (gi_page x) (Z.of_nat k));
      n ← PAGE_GET_NUMBER_OF_WORDS_IN_USE pn;
      d ← io_write_page (PAGE_NUMBER_TO_PAGE_PTR pn) (n * 4);
      put_gen gn (λ x, with_pages (gi_npages x) (gi_page x) (zinsert (Z.of_nat k) d (gi_disk_page x)) x)) Q
    (set_gc (filed y ds x (gc s1)) s2).
Proof.
  intros Hp Hy Ey s2 Hst Hx Hk Hroom HQ. apply zlookup_Some in Hy as Hr. destruct Hr as [Hr _].
  apply wp_bind. eapply wp_get_gen; [by apply zlookup_insert|]. cbn [gi_page with_pages]. rewrite Ey.
  destruct (lookup_lt_is_Some_2 (ts_pages T) k Hk) as [pn Hpn].
  apply wp_bind. eapply wp_of_option; [apply zlookup_Some; rewrite Nat2Z.id; split; [lia|exact Hpn]|].
  assert (Hin : pn ∈ ts_pages T) by by eapply list_elem_of_lookup_2.
  destruct (wrapped_words _ _ _ _ pn Hp Hin) as (u & Hu & Hub & _).
  assert (Hu4 : 0 ≤ u * 4 ≤ PAGE_SIZE) by (change N with 16384 in Hub; change PAGE_SIZE with 65536; lia).
  pose proof (round_up_page _ Hu4) as Hru. destruct (round_up_bounds (u * 4) ltac:(lia)) as [Hrb _].
  destruct (mapped_words (mem s2) (PAGE_SIZE * pn) (Z.to_nat (round_up (u * 4) / 4))) as (ws & Hws & Hl).
  { intros i Hi. cbn [s2 set_mem mem]. apply wrapped_mem_some, (pi_mapped _ _ _ _ _ _ _ _ Hp); [done|].
    change N with 16384. change PAGE_SIZE with 65536 in *. split; [lia|]. zdiv. }
  apply wp_bind. eapply wp_load; [exact Hu|]. unfold PAGE_NUMBER_TO_PAGE_PTR. apply wp_bind.
  change (set_gc (filed y ds x (gc s1)) s2) with (put_io x (set_gc (filed y ds x (gc s1)) s2)).
  eapply wp_io_write_page; [exact Hx|exact Hws|exact Hl| |exact Hru|exact Hroom|].
  { cbn [s2 set_gc set_mem mem]. rewrite wrapped_mem_first. by apply (pi_magic _ _ _ _ _ _ _ _ Hp). }
  intros d x' Hd Hx' Hlf Hnf. eapply wp_put_gen; [by apply zlookup_insert|].
  assert (Hst' : stored (S k) (mem s2) A (<[d := ws]> A') (ts_pages T) (zinsert (Z.of_nat k) d ds)).
  { unfold zinsert. rewrite Nat2Z.id. by eapply stored_S. }
  specialize (HQ d x' _ Hst' Hx' Hlf Hnf). revert HQ. unfold filed, put_io.
  cbn [gc set_gc generation_info set_generation_info set_io io]. rewrite zinsert_zinsert. by destruct y.
Qed.

Lemma wp_finish_gc R T s A r (Q : unit → state → Prop) :
  pages_inv 0 R T s → to_gn (gc s) = gn → to_ptr (gc s) = ts_tp T → disk (io (gc s)) A r →
  Z.of_nat (length (file (io (gc s)))) + Z.of_nat (length (ts_pages T)) ≤ number_of_free_disk_pages (io (gc s)) →
  (∀ y ds x A', zlookup (generation_info (gc s)) gn = Some y → gi_page y = ts_pages T →
    stored (length (ts_pages T)) (wrapped_mem T (mem s)) A A' (ts_pages T) ds → disk x A' r →
    length (file x) = length (file (io (gc s))) →
    number_of_free_disk_pages x = number_of_free_disk_pages (io (gc s)) - Z.of_nat (length (ts_pages T)) →
    Q tt (set_gc (filed y ds x (gc s)) (set_mem (wrapped_mem T (mem s)) s))) →
  wp finish_gc Q s.
Proof.
  intros Hp Hgn Etp Hx Hroom HQ. pose proof (pi_cur _ _ _ _ _ _ _ _ Hp) as Hcur. destruct (pi_gen _ _ _ _ _ _ _ _ Hp) as (x0 & _ & Hy).
  set (y := with_pages _ _ _ x0) in *. unfold finish_gc. apply wp_bind, wp_gcs.
  assert (Hl : length (gi_disk_page y) = length (ts_pages T)) by apply length_replicate.
  destruct (ts_cur T) as [pc|] eqn:Ecur.
  - destruct Hcur as (Epn & _). rewrite Epn.
    assert (Hinv : pc ≠ INVALID_PAGE_NUMBER).
    { eapply free_chain_valid; [apply (pool_chain _ _ (cl_pool _ _ _ _ Hc))|].
      exact (pages_free _ _ _ _ _ _ _ _ _ Hp (cur_in_pages _ _ Ecur)). }
    rewrite bool_decide_eq_false_2 by done. apply wp_bind. eapply wp_wrap; [exact roots|exact Hp|exact Etp|exact Ecur|].
    set (s1 := set_mem _ s). apply wp_bind, wp_gcs. change (to_gn (gc s1)) with (to_gn (gc s)). rewrite Hgn.
    apply wp_bind. eapply wp_get_gen; [exact Hy|]. cbn [gi_npages y with_pages]. rewrite Nat2Z.id.
    apply wp_for with (I := λ k _ s', ∃ ds x A', s' = set_gc (filed y ds x (gc s)) s1 ∧
      stored k (mem s1) A A' (ts_pages T) ds ∧ disk x A' r ∧ length (file x) = length (file (io (gc s))) ∧
      number_of_free_disk_pages x = number_of_free_disk_pages (io (gc s)) - Z.of_nat k).
    + exists (gi_disk_page y), (io (gc s)), A. split; [by rewrite filed_id by done|]. split; [by apply stored_0|].
      split; [done|]. split; [done|]. lia.
    + intros k [] s' Hk (ds & x & A' & -> & Hst & Hx' & Hlf & Hnf).
      eapply wp_finish_page; [exact Hp|exact Hy|done|exact Hst|exact Hx'|exact Hk|lia|].
      intros d x' A'' Hst' Hx'' Hlf' Hnf'. exists (zinsert (Z.of_nat k) d ds), x', A''. split; [done|]. split; [exact Hst'|].
      split; [done|]. split; [congruence|lia].
    + intros [] s' (ds & x & A' & -> & Hst & Hx' & Hlf & Hnf). by eapply (HQ y ds x A').
  - destruct Hcur as (Epn & _ & _ & Hf). rewrite Epn, bool_decide_eq_true_2 by done. apply wp_ret.
    assert (Hnil : ts_pages T = []) by (unfold ts_pages; by rewrite Hf, Ecur).
    assert (Es : set_gc (filed y (gi_disk_page y) (io (gc s)) (gc s)) (set_mem (wrapped_mem T (mem s)) s) = s).
    { rewrite filed_id by done. unfold wrapped_mem. rewrite Ecur. by destruct s. }
    rewrite <- Es. eapply (HQ y (gi_disk_page y) (io (gc s)) A Hy); [done| |done|done|rewrite Hnil; simpl; lia].
    rewrite Hnil in *. by apply stored_0.
Qed.
End finish.

(** * The whole collection *)

(** The variables that a collection does not touch. *)
Record kept_vars (s s' : state) : Prop := {
  kv_first : first_generation_start s' = first_generation_start s ∧ first_generation_end s' = first_generation_end s ∧
    first_generation_allocation_ptr s' = first_generation_allocation_ptr s;
  kv_same : same_vars s s';
  kv_gc : is_recovering (gc s') = is_recovering (gc s) ∧
    number_of_nonexistent_generations (gc s') = number_of_nonexistent_generations (gc s) ∧
    next_gn (gc s') = next_gn (gc s) ∧ youngest_gn (gc s') = youngest_gn (gc s) ∧ to_gn (gc s') = to_gn (gc s) ∧
    generations_collected_twice (gc s') = generations_collected_twice (gc s);
  kv_lengths : length (generation_info (gc s')) = length (generation_info (gc s)) ∧
    length (page_info (gc s')) = length (page_info (gc s)) ∧ length (file (io (gc s'))) = length (file (io (gc s)))
}.

Section copied.
Context `{Params}.

(** [s'] is [s] after the cells among [F] that are reachable from the variables
    [rl] were copied to the [pages] of the generation [gn], which were written to
    disk; [forward φ] leads from the old cells to their copies. *)
Record copied (s s' : state) (F : gmap Z (list Z)) (gn : Z) (rl : location → Prop) (φ : gmap Z Z)
    (pages free' : list Z) (A A' : gmap Z (list Z)) (r : list Z) : Prop := {
  cp_reach p : is_Some (φ !! p) ↔ reaches F (value_of rl s) p;
  cp_copy p q ws i x : φ !! p = Some q → F !! p = Some ws → forward_words φ ws !! i = Some x →
    mem s' !! (q + 4 * Z.of_nat i) = Some x;
  cp_place p q ws : φ !! p = Some q → F !! p = Some ws → ∃ pn u, pn ∈ pages ∧
    mem s' !! (PAGE_SIZE * pn + 4) = Some u ∧ 2 ≤ u ≤ NUMBER_OF_WORDS_PER_PAGE ∧ q mod 4 = 0 ∧
    PAGE_SIZE * pn + 8 ≤ q ∧ q + 4 * Z.of_nat (length ws) ≤ PAGE_SIZE * pn + 4 * u;
  cp_words R : (∀ p, R !! p = match φ !! p with Some _ => None | None => F !! p end) →
    total_words F - total_words R ≤ Z.of_nat (length pages) * (NUMBER_OF_WORDS_PER_PAGE - 2);
  cp_few : Z.of_nat (length pages) ≤ 2 * total_words F / (NUMBER_OF_WORDS_PER_PAGE - 2) + 1;
  cp_sep p1 q1 ws1 p2 q2 ws2 : φ !! p1 = Some q1 → F !! p1 = Some ws1 → φ !! p2 = Some q2 → F !! p2 = Some ws2 →
    p1 ≠ p2 → disj (q1, ws1) (q2, ws2);
  cp_loc pp x : rl pp → loc_get pp s = Some x → loc_get pp s' = Some (forward φ x);
  cp_other pp x : is_root_loc pp → ¬ rl pp → loc_get pp s = Some x → loc_get pp s' = Some x;
  cp_mem a : ¬ rl (Image a) → (∀ pn, pn ∈ pages → ¬ in_page pn a) →
    (∀ p ws, F !! p = Some ws → ¬ (p ≤ a < p + 4 * Z.of_nat (length ws))) → mem s' !! a = mem s !! a;
  cp_mapped a : is_Some (mem s !! a) → is_Some (mem s' !! a);
  cp_magic pn : pn ∈ pages → mem s' !! (PAGE_SIZE * pn) = Some PAGE_MAGIC_COOKIE;
  cp_ring l : ring (smart_ptrs (gc s)) l → (∀ sp, sp ∈ l.*1 → rl (SmartWord sp)) →
    ∃ l', ring (smart_ptrs (gc s')) l' ∧ l'.*1 = l.*1;
  cp_rem g x : zlookup (generation_info (gc s)) g = Some x → g ≠ gn → ∃ r added,
    zlookup (generation_info (gc s')) g = Some (with_rem_set r x) ∧ concat r = added ++ concat (gi_rem_set x) ∧
    NoDup added ∧ ∀ a, a ∈ added ↔ ∃ p q ws i y, φ !! p = Some q ∧ F !! p = Some ws ∧ ref_at ws i = true ∧
      ws !! i = Some y ∧ a = q + 4 * Z.of_nat i ∧ kept s y g TO_BE_COLLECTED;
  cp_gen : ∃ x ds, zlookup (generation_info (gc s)) gn = Some x ∧
    zlookup (generation_info (gc s')) gn = Some (with_pages (Z.of_nat (length pages)) pages ds x) ∧
    stored (length pages) (mem s') A A' pages ds;
  cp_disk : disk (io (gc s')) A' r;
  cp_free : number_of_free_disk_pages (io (gc s')) = number_of_free_disk_pages (io (gc s)) - Z.of_nat (length pages);
  cp_pool : pool s' free';
  cp_pages pn : pn ∈ pages → ∃ x, zlookup (page_info (gc s')) pn = Some x ∧ pg_is_allocated x = true ∧ pg_generation x = gn;
  cp_others pn : pn ∉ pages → zlookup (page_info (gc s')) pn = zlookup (page_info (gc s)) pn;
  cp_vars : kept_vars s s'
}.

Section result.
Context (s1 : state) (F : gmap Z (list Z)) (gn : Z) (free : list Z) (rl : location → Prop).
#[local] Abbreviation roots := (value_of rl s1).
Context (Hc : collectable s1 F gn free) (Hout : ∀ pp, rl pp → outside F free pp).
Context (D : list location) (HD : progress rl rl D).
Context (m : gmap Z Z) (Hm : same_inside s1 F free m) (Hpat : ∀ a, Image a ∉ D → m !! a = mem s1 !! a).
Context (φ2 : gmap Z Z) (R2 : gmap Z (list Z)) (pend2 : list Z) (T2 : to_space) (s2 : state).
Context (Hi2 : gc_inv (base s1 m) F gn free roots 0 φ2 R2 pend2 T2 s2) (Hsc : scanned s1 F free D φ2 s2).
Context (φ : gmap Z Z) (R : gmap Z (list Z)) (T : to_space) (s3 : state).
Context (Hi : gc_inv (base s1 m) F gn free roots 0 φ R [] T s3) (Hsub : φ2 ⊆ φ) (Hot : others s2 s3).
Context (y : generation_info_t) (ds : list Z) (x' : io_state) (A A' : gmap Z (list Z)) (r : list Z).
Context (Hy : zlookup (generation_info (gc s3)) gn = Some y) (Hpgs : gi_page y = ts_pages T).
Context (Hst : stored (length (ts_pages T)) (wrapped_mem T (mem s3)) A A' (ts_pages T) ds) (Hdisk : disk x' A' r).
Context (Hlf : length (file x') = length (file (io (gc s3)))).
Context (Hnf : number_of_free_disk_pages x' = number_of_free_disk_pages (io (gc s3)) - Z.of_nat (length (ts_pages T))).
Let s4 := set_gc (filed gn y ds x' (gc s3)) (set_mem (wrapped_mem T (mem s3)) s3).

Lemma result_collectable : collectable (base s1 m) F gn free.
Proof. by apply base_collectable. Qed.

(** Only the to-pages are different from the state after draining. *)
Lemma result_wrapped a : (∀ pn, pn ∈ ts_pages T → ¬ in_page pn a) → mem s4 !! a = mem s3 !! a.
Proof. intros Ha. eapply wrapped_mem_ne; [apply Hi|]. intros pn Hin Hpn. by destruct (Ha pn Hin). Qed.

(** Values of the pointers from outside. *)
Lemma result_loc pp x : outside F free pp → loc_get pp s1 = Some x →
  loc_get pp s4 = Some (if bool_decide (pp ∈ D) then forward φ x else x) ∧
  (pp ∈ D → is_Some (F !! x) → is_Some (φ !! x)).
Proof.
  intros Hpp Hx. destruct Hsc as [_ Hl]. destruct (Hl pp x Hpp Hx) as [E Hd].
  assert (E3 : loc_get pp s3 = loc_get pp s2) by (eapply loc_same; [exact Hpp|exact Hi2|exact Hi|done]).
  assert (E4 : loc_get pp s4 = loc_get pp s3).
  { destruct pp as [a|i|sp]; [|done..]. destruct Hpp as (_ & Hfree & _). apply result_wrapped. intros pn Hin. apply Hfree.
    by eapply pages_free; [apply Hi|]. }
  rewrite E4, E3, E. split.
  - case_bool_decide as Hin; [|done]. f_equal. symmetry. eapply forward_mono; [exact Hi|exact Hsub|by apply Hd].
  - intros Hin Hfx. destruct (Hd Hin Hfx) as [z Hz]. exists z. by eapply lookup_weaken.
Qed.

Lemma result_reach p : is_Some (φ !! p) ↔ reaches F roots p.
Proof.
  pose proof (inv_cells _ _ _ _ _ _ _ _ _ _ _ Hi) as Hcl. split.
  - intros [q Hq]. by destruct (ci_copied _ _ _ _ _ _ _ Hcl _ _ Hq) as (_ & _ & _ & _ & _ & Hr).
  - induction 1 as [p (pp & Hpp & Hx) HF|p ws i x Hr [q Hq] Hw Href Hx HF].
    + apply (result_loc pp p); [by apply Hout|done| |done]. by apply HD.
    + eapply (ci_done _ _ _ _ _ _ _ Hcl); [exact Hq|exact Hw|exact Hx|exact Href|by apply not_elem_of_nil|done].
Qed.

(** The memory of the copies is not touched any more. *)
Lemma result_mem q n a : in_to_space T q n → q ≤ a < q + 4 * n → mem s4 !! a = mem s3 !! a.
Proof.
  intros Hq Ha. eapply wrapped_mem_ne; [apply Hi|]. intros pn Hin Hpn.
  destruct (in_to_space_page _ _ _ _ _ _ _ _ _ _ _ (inv_pages _ _ _ _ _ _ _ _ _ _ _ Hi) Hq Ha) as (pn' & _ & Hpn' & Hlo).
  by rewrite (in_page_inj _ _ _ Hpn Hpn').
Qed.

Lemma result_copy p q ws i x : φ !! p = Some q → F !! p = Some ws → forward_words φ ws !! i = Some x →
  mem s4 !! (q + 4 * Z.of_nat i) = Some x.
Proof.
  intros Hq Hw Hx. rewrite lookup_forward_words in Hx. apply fmap_Some in Hx as (x0 & Hx0 & ->).
  pose proof (inv_cells _ _ _ _ _ _ _ _ _ _ _ Hi) as Hcl. pose proof (lookup_lt_Some _ _ _ Hx0).
  destruct (ci_copied _ _ _ _ _ _ _ Hcl _ _ Hq) as (ws' & Hw' & _ & _ & Hin & _). simplify_eq.
  rewrite (result_mem _ _ _ Hin) by lia. rewrite (ci_words _ _ _ _ _ _ _ Hcl _ _ _ _ _ Hq Hw Hx0).
  by rewrite bool_decide_eq_false_2 by by apply not_elem_of_nil.
Qed.

Lemma result_place p q ws : φ !! p = Some q → F !! p = Some ws → ∃ pn u, pn ∈ ts_pages T ∧
  mem s4 !! (PAGE_SIZE * pn + 4) = Some u ∧ 2 ≤ u ≤ NUMBER_OF_WORDS_PER_PAGE ∧ q mod 4 = 0 ∧
  PAGE_SIZE * pn + 8 ≤ q ∧ q + 4 * Z.of_nat (length ws) ≤ PAGE_SIZE * pn + 4 * u.
Proof.
  intros Hq Hw. pose proof (inv_cells _ _ _ _ _ _ _ _ _ _ _ Hi) as Hcl. pose proof (inv_pages _ _ _ _ _ _ _ _ _ _ _ Hi) as Hpg.
  destruct (ci_copied _ _ _ _ _ _ _ Hcl _ _ Hq) as (ws' & Hw' & _ & _ & Hin & _). rewrite Hw in Hw'. injection Hw' as <-.
  pose proof (fc_length _ _ _ _ (cl_from _ _ _ _ Hc _ _ Hw)) as Hn.
  destruct (in_to_space_page _ _ _ _ _ _ _ _ _ _ q Hpg Hin ltac:(lia)) as (pn & Hpn & Hpq & _).
  destruct (wrapped_words _ _ _ _ roots result_collectable _ _ _ _ pn Hpg Hpn) as (u & Hu & Hub & Hcov).
  exists pn, u. split; [done|]. split; [done|]. split; [done|]. split; [apply Hin|]. by apply (Hcov q _ Hin Hpq); lia.
Qed.

Lemma result_ring l : ring (smart_ptrs (gc s1)) l → (∀ sp, sp ∈ l.*1 → rl (SmartWord sp)) →
  ∃ l', ring (smart_ptrs (gc s4)) l' ∧ l'.*1 = l.*1.
Proof.
  intros [Hl Hnd Hv] Hrl. exists ((λ e, (e.1, forward φ e.2)) <$> l). rewrite <- list_fmap_compose. split; [|done].
  destruct Hsc as [(_ & _ & _ & _ & _ & _ & _ & Hlinks) _].
  assert (Es : smart_ptrs (gc s4) = smart_ptrs (gc s2)) by apply (ot_smart_ptrs _ _ Hot).
  split; rewrite <- ?list_fmap_compose.
  - eapply segment_frame, Hl; intros c _; rewrite Es; [by rewrite (proj1 (Hlinks c))|by rewrite (proj2 (Hlinks c))].
  - exact Hnd.
  - intros sp v Hin. apply list_elem_of_fmap in Hin as ([sp' v'] & [= -> ->] & Hin).
    assert (Hpp : rl (SmartWord sp')) by (apply Hrl, list_elem_of_fmap; by exists (sp', v')).
    destruct (result_loc (SmartWord sp') v') as [E _]; [done|by apply Hv|]. etrans; [exact E|].
    by rewrite bool_decide_eq_true_2 by by apply HD.
Qed.

Lemma result_rem g x : zlookup (generation_info (gc s1)) g = Some x → g ≠ gn → ∃ r added,
  zlookup (generation_info (gc s4)) g = Some (with_rem_set r x) ∧ concat r = added ++ concat (gi_rem_set x) ∧
  NoDup added ∧ ∀ a, a ∈ added ↔ ∃ p q ws i z, φ !! p = Some q ∧ F !! p = Some ws ∧ ref_at ws i = true ∧
    ws !! i = Some z ∧ a = q + 4 * Z.of_nat i ∧ kept s1 z g TO_BE_COLLECTED.
Proof.
  intros Hx Hg. destruct (inv_rem _ _ _ _ _ _ _ _ _ _ _ Hi g x Hx Hg) as (rs & ad & Hr & Ead & Hnd & Hmem).
  exists rs, ad. split; [|split; [done|split; [done|]]].
  - simpl. apply zlookup_Some in Hy as [? _]. rewrite zlookup_insert_ne; [done|lia|done].
  - intros a. rewrite Hmem. split.
    + intros (p & q & ws & i & z & H1 & H2 & H3 & H4 & H5 & _ & H6). by exists p, q, ws, i, z.
    + intros (p & q & ws & i & z & H1 & H2 & H3 & H4 & H5 & H6). exists p, q, ws, i, z. split_and!; try done.
      by apply not_elem_of_nil.
Qed.

Lemma result_copied : copied s1 s4 F gn rl φ (ts_pages T) (ts_free T) A A' r.
Proof.
  pose proof (inv_pages _ _ _ _ _ _ _ _ _ _ _ Hi) as Hpg. pose proof (inv_frame _ _ _ _ _ _ _ _ _ _ _ Hi) as Hf.
  apply zlookup_Some in Hy as Hr. destruct Hr as [Hr _]. split.
  - apply result_reach.
  - apply result_copy.
  - apply result_place.
  - intros R' HR'. assert (R' = R) as ->.
    { apply map_eq. intros p. by rewrite HR', (ci_rest _ _ _ _ _ _ _ (inv_cells _ _ _ _ _ _ _ _ _ _ _ Hi)). }
    pose proof (pi_used _ _ _ _ _ _ _ _ Hpg) as Hu. pose proof (pi_cur _ _ _ _ _ _ _ _ Hpg) as Hcur. unfold ts_pages.
    rewrite length_app, length_fmap. change NUMBER_OF_WORDS_PER_PAGE with 16384 in *. change PAGE_SIZE with 65536 in *.
    destruct (ts_cur T) as [pc|]; simpl; zdiv.
  - pose proof (ci_count _ _ _ _ _ _ _ (inv_cells _ _ _ _ _ _ _ _ _ _ _ Hi)). pose proof (total_words_nonneg R).
    eapply (few_pages _ _ _ _ roots); [exact Hpg|lia|lia].
  - intros p1 q1 ws1 p2 q2 ws2. apply (ci_sep _ _ _ _ _ _ _ (inv_cells _ _ _ _ _ _ _ _ _ _ _ Hi)).
  - intros pp x Hpp Hx. destruct (result_loc pp x (Hout _ Hpp) Hx) as [E _]. rewrite E.
    by rewrite bool_decide_eq_true_2 by by apply HD.
  - intros pp x Hroot Hpp Hx. destruct (result_loc pp x) as [E _]; [by destruct pp|done|]. rewrite E.
    rewrite bool_decide_eq_false_2; [done|]. intros Hin. by apply Hpp, HD.
  - intros a Hrl Ha Hfr. rewrite result_wrapped by done. rewrite (fi_mem _ _ _ _ Hf) by done. apply Hpat.
    intros Hin. by apply Hrl, HD.
  - intros a Ha. destruct (decide (Image a ∈ D)) as [Hin|Hin].
    + apply HD in Hin. destruct Ha as [x Hx]. destruct (result_loc (Image a) x (Hout _ Hin) Hx) as [E _]. by eexists.
    + apply wrapped_mem_some, (fi_mapped _ _ _ _ Hf). cbn [base set_mem mem]. by rewrite Hpat.
  - intros pn Hin. cbn [s4 set_gc set_mem mem]. rewrite wrapped_mem_first. by apply (pi_magic _ _ _ _ _ _ _ _ Hpg).
  - apply result_ring.
  - apply result_rem.
  - destruct (pi_gen _ _ _ _ _ _ _ _ Hpg) as (x & Hx & Ey). rewrite Hy in Ey. injection Ey as ->.
    exists x, ds. split; [exact Hx|]. split; [|exact Hst]. cbn [s4 gc set_gc filed set_io set_generation_info generation_info].
    by rewrite zlookup_insert by done.
  - exact Hdisk.
  - cbn [s4 gc set_gc filed set_io set_generation_info io]. rewrite Hnf, (fi_io _ _ _ _ Hf). done.
  - eapply pool_frame; [apply Hpg| |done..]. intros pn a Hin Ha. apply result_wrapped.
    intros pn' Hin' Ha'. rewrite (in_page_inj _ _ _ Ha Ha') in Hin. destruct (free_disjoint _ _ _ _ result_collectable _ _ _ _ _ Hpg Hin' Hin).
  - apply (pi_page _ _ _ _ _ _ _ _ Hpg).
  - apply (pi_other _ _ _ _ _ _ _ _ Hpg).
  - split.
    + split; [apply (fi_start _ _ _ _ Hf)|]. split; [apply (fi_end _ _ _ _ Hf)|apply (fi_ap _ _ _ _ Hf)].
    + eapply same_vars_others with s2; [apply Hsc|]. destruct Hot. by split.
    + split_and!; apply Hf.
    + split; [|split; [apply Hf|]].
      * cbn [s4 gc set_gc filed set_io set_generation_info generation_info]. rewrite length_zinsert. apply Hf.
      * cbn [s4 gc set_gc filed set_io set_generation_info io]. rewrite Hlf, (fi_io _ _ _ _ Hf). done.
Qed.
End result.
End copied.

(** * The start *)

(** Copying starts in a state that satisfies the invariant. *)
Lemma start_scanning s1 F gn free roots : collectable s1 F gn free → to_pn (gc s1) = INVALID_PAGE_NUMBER →
  to_ptr (gc s1) = 0 → to_end (gc s1) = 0 → copy_stack (gc s1) = [] → scanning s1 F gn free roots [] s1.
Proof.
  intros Hc Hpn Htp Hte Hst. exists (mem s1), ∅, F, (ToSpace [] None free 0 0). rewrite Hst.
  assert (Es : base s1 (mem s1) = s1) by by destruct s1. rewrite Es.
  split; [done|]. split; [done|]. split; [|split; [done|split; [done|]]].
  - split.
    + split; try done.
      * intros p ws i x Hw Hx. by apply (fc_words _ _ _ _ (cl_from _ _ _ _ Hc _ _ Hw)).
      * apply NoDup_nil_2.
      * intros a ?%not_elem_of_nil. done.
    + split; simpl; try done.
      * apply Hc.
      * intros pn u ?%not_elem_of_nil. done.
      * intros pn i ?%not_elem_of_nil. done.
      * intros pn ?%not_elem_of_nil. done.
      * intros pn ?%not_elem_of_nil. done.
      * destruct (cl_gen _ _ _ _ Hc) as (x & Hx & _ & E1 & E2 & E3). exists x. split; [done|]. rewrite Hx. destruct x; simpl in *. by subst.
      * lia.
    + intros g x Hx _. exists (gi_rem_set x), []. split; [rewrite Hx; by destruct x|]. split; [done|]. split; [apply NoDup_nil_2|].
      intros a. split; [by intros ?%not_elem_of_nil|]. intros (p & q & ? & ? & ? & Hpq & _). by rewrite lookup_empty in Hpq.
    + by split.
  - split; [by split_and!|]. intros pp x _ Hx. split; [|by intros ?%not_elem_of_nil].
    rewrite bool_decide_eq_false_2 by (by apply not_elem_of_nil). done.
Qed.

(** * From the root set to the disk *)

(** There is place on disk for the copies. *)
Definition disk_room `{Params} (s : state) (F : gmap Z (list Z)) (A : gmap Z (list Z)) (r : list Z) : Prop :=
  disk (io (gc s)) A r ∧
  Z.of_nat (length (file (io (gc s)))) + 2 * total_words F / (NUMBER_OF_WORDS_PER_PAGE - 2) + 1 ≤
    number_of_free_disk_pages (io (gc s)).

Section rest.
Context `{Params}.
Context (s1 : state) (F : gmap Z (list Z)) (gn : Z) (free : list Z) (l : list (Z * Z)).
Context (seen : Z → Prop) (scan : location → M unit) (rl P0 : location → Prop).
Context (Hc : collectable s1 F gn free) (Hscan : scans s1 F gn free (value_of rl s1) seen scan).
Context (Hok : roots_ok s1 seen l) (Hout : ∀ pp, rl pp → outside F free pp).
Context (Hrl : ∀ pp, rl pp ↔ root_loc s1 l.*1 pp ∨ P0 pp).

#[local] Abbreviation scanning := (scanning s1 F gn free (value_of rl s1)).

Lemma root_rl pp : root_loc s1 l.*1 pp → rl pp.
Proof. intros Hpp. apply Hrl. by left. Qed.

(** The type and the value of the suspended accumulator are still the old ones. *)
Lemma scanning_accu D s : scanning D s → (∀ i, RootWord i ∉ D) → accu_holds_ptr s = accu_holds_ptr s1.
Proof.
  intros (m & φ & R & T & _ & _ & _ & _ & _ & _ & Hl) HD. pose proof (ro_root _ _ _ Hok) as Hlen. change NUMBER_OF_ROOT_IXS with 45 in Hlen.
  assert (E : ∀ i : nat, (i < 45)%nat → root s !! i = root s1 !! i).
  { intros i Hi. destruct (lookup_lt_is_Some_2 (root s1) i) as [x Hx]; [lia|].
    destruct (Hl (RootWord (Z.of_nat i)) x) as [Ei _]; [done|apply zlookup_Some; rewrite Nat2Z.id; split; [lia|done]|].
    rewrite bool_decide_eq_false_2 in Ei by done. apply zlookup_Some in Ei as [_ Ei]. rewrite Nat2Z.id in Ei. congruence. }
  unfold accu_holds_ptr. rewrite !E; [done|..]; change (root_ix_num _) with 7%nat || change (root_ix_num _) with 8%nat; lia.
Qed.

Lemma wp_scan_roots {B} fuel (k : M B) D s (Q : B → state → Prop) :
  scanning D s → progress rl P0 D → (∀ i, RootWord i ∉ D) → (length l < fuel)%nat →
  (∀ D' s', scanning D' s' → progress rl rl D' → wp k Q s') →
  wp (b ← accu_is_ptr; (if b : bool then scan (RootWord accu) else mret tt);;
      scan_root scan;; scan_smart_ptrs fuel scan;; k) Q s.
Proof.
  intros Hs HD HnD Hfuel HQ. pose proof (scanning_accu _ _ Hs HnD) as Eaccu.
  assert (Hlen : NUMBER_OF_ROOT_IXS ≤ Z.of_nat (length (root s))).
  { destruct Hs as (m & φ & R & T & _ & _ & _ & _ & _ & (_ & _ & _ & E & _) & _). rewrite E. apply Hok. }
  apply wp_bind, wp_accu_is_ptr; [done|]. rewrite Eaccu. apply wp_bind.
  assert (Haccu : ∀ Q' : unit → state → Prop,
    (∀ D' s', scanning D' s' → progress rl (λ pp, P0 pp ∨ root_word_below s1 0 pp) D' → Q' tt s') →
    wp (if accu_holds_ptr s1 then scan (RootWord accu) else mret tt) Q' s).
  { intros Q' HQ'. destruct (accu_holds_ptr s1) eqn:Ea.
    - eapply (wp_scan_one _ _ _ _ _ _ _ _ Hscan Hok root_rl); [exact Hs|exact HD|by right| |exact HQ'].
      intros pp [?|[[-> _]|(i & _ & Hr & _)]]; [by left|by right|lia].
    - apply wp_ret, (HQ' D); [exact Hs|]. eapply progress_mono, HD. intros pp [?|[[_ Ha]|(i & _ & Hr & _)]]; [done|congruence|lia]. }
  apply Haccu. clear Haccu. intros D1 s2 Hs2 HD1.
  apply wp_bind. eapply (wp_scan_root _ _ _ _ _ _ _ _ Hscan Hok root_rl P0); [exact Hs2|exact HD1|]. clear D1 s2 Hs2 HD1. intros D1 s2 Hs2 HD1.
  apply wp_bind. eapply (wp_scan_smart_ptrs _ _ _ _ _ _ _ _ Hscan Hok root_rl); [exact Hs2|exact HD1|exact Hfuel|].
  clear D1 s2 Hs2 HD1. intros D1 s2 Hs2 HD1. apply (HQ D1); [done|]. eapply progress_mono, HD1.
  intros pp [Hpp|?]%Hrl; [|by left; left]. destruct pp as [a|i|sp]; [done|left; right|by right; exists sp].
  destruct Hpp as [[Hi Hix]|[-> Ha]]; [right; by exists i|by left].
Qed.

Lemma wp_copy_rest {B} fuel (k : Z → M B) D s A r (Q : B → state → Prop) :
  scanning D s → progress rl P0 D → (∀ i, RootWord i ∉ D) → (length l < fuel)%nat →
  total_words F < Z.of_nat fuel → disk_room s1 F A r →
  (∀ n s4 φ pages free' A', free = pages ++ free' → copied s1 s4 F gn rl φ pages free' A A' r → wp (k n) Q s4) →
  wp (b ← accu_is_ptr; (if b : bool then scan (RootWord accu) else mret tt);;
      scan_root scan;; scan_smart_ptrs fuel scan;;
      st ← gcs copy_stack; drain_copy_stack fuel;; finish_gc;; k (Z.of_nat (length st))) Q s.
Proof.
  intros Hs HD HnD Hf1 Hf2 [Hdisk Hroom] HQ. eapply wp_scan_roots; [exact Hs|exact HD|exact HnD|exact Hf1|].
  intros D' s2 (m & φ2 & R2 & T2 & Hm & Hpat & Hi2 & Etp2 & Ete2 & Hsc2) HD'. pose proof (base_collectable _ _ _ _ Hc _ Hm) as Hcm.
  apply wp_bind, wp_gcs, wp_bind.
  eapply (wp_drain_copy_stack _ _ _ _ _ Hcm); [exact Hi2|exact Etp2|exact Ete2|exact Hf2|].
  intros φ3 R3 T3 s3 Hi3 Hsub Etp3 Hot3. apply wp_bind. pose proof (inv_frame _ _ _ _ _ _ _ _ _ _ _ Hi3) as Hfr.
  pose proof (ci_count _ _ _ _ _ _ _ (inv_cells _ _ _ _ _ _ _ _ _ _ _ Hi3)) as Hcount. pose proof (total_words_nonneg R3).
  pose proof (few_pages _ _ _ _ (value_of rl s1) _ _ _ (inv_pages _ _ _ _ _ _ _ _ _ _ _ Hi3) ltac:(lia) ltac:(lia)) as Hfew.
  eapply (wp_finish_gc _ _ _ _ (value_of rl s1) Hcm); [apply Hi3| |exact Etp3|rewrite (fi_io _ _ _ _ Hfr); exact Hdisk| |].
  { rewrite (fi_to_gn _ _ _ _ Hfr). apply Hc. }
  { rewrite (fi_io _ _ _ _ Hfr). cbn [base set_mem gc]. lia. }
  intros y ds x A' Hy Hpg Hst Hx Hlf Hnf. eapply (HQ _ _ φ3 (ts_pages T3) (ts_free T3)).
  - apply (pi_split _ _ _ _ _ _ _ _ (inv_pages _ _ _ _ _ _ _ _ _ _ _ Hi3)).
  - eapply result_copied; [exact Hc|exact Hout|exact HD'|exact Hm|exact Hpat|exact Hi2|exact Hsc2|exact Hi3|exact Hsub|exact Hot3|exact Hy|exact Hpg|exact Hst|exact Hx|exact Hlf|exact Hnf].
Qed.
End rest.
