(* ===== verification/Chain.v ===== *)
(** The doubly linked list of generations (shades.c, [insert_generation_after] and
    the unlinking in [mark_generation_collected_once]). *)

From S2P Require Import Prelude Generations Machine Celltypes Shades Bitops Cells Pages.

(** * Lists of linked generations *)

(** The first generation of [L], or what follows it; the last one, or what comes
    before. *)
Definition hd_gn (e : Z) (L : list Z) : Z := match L with [] => e | g :: _ => g end.
Fixpoint last_gn (y : Z) (L : list Z) : Z := match L with [] => y | g :: L => last_gn g L end.

(** The generations [L] are linked from the youngest one on; [y] is the generation
    before the first and [e] that after the last. *)
Fixpoint chain (t : list generation_info_t) (y : Z) (L : list Z) (e : Z) : Prop :=
  match L with
  | [] => True
  | g :: L => (∃ x, zlookup t g = Some x ∧ gi_younger x = y ∧ gi_older x = hd_gn e L) ∧ chain t g L e
  end.

Lemma hd_gn_app e L1 L2 : hd_gn e (L1 ++ L2) = hd_gn (hd_gn e L2) L1.
Proof. by destruct L1. Qed.

Lemma last_gn_app y L1 L2 : last_gn y (L1 ++ L2) = last_gn (last_gn y L1) L2.
Proof. revert y. induction L1 as [|g L1 IH]; intros y; [done|]. apply IH. Qed.

Lemma last_gn_in y L : last_gn y L = y ∧ L = [] ∨ last_gn y L ∈ L.
Proof.
  revert y. induction L as [|g L IH]; intros y; [by left|]. right. simpl.
  destruct (IH g) as [[-> ->]|H]; [by left|by right].
Qed.

Lemma hd_gn_in e L : hd_gn e L = e ∧ L = [] ∨ hd_gn e L ∈ L.
Proof. destruct L as [|g L]; [by left|right; by left]. Qed.

Lemma chain_app t y L1 L2 e : chain t y (L1 ++ L2) e ↔ chain t y L1 (hd_gn e L2) ∧ chain t (last_gn y L1) L2 e.
Proof.
  revert y. induction L1 as [|g L1 IH]; intros y; simpl; [tauto|]. rewrite IH, hd_gn_app. tauto.
Qed.

Lemma chain_lookup t y L e g : chain t y L e → g ∈ L → ∃ x, zlookup t g = Some x.
Proof.
  revert y. induction L as [|g' L IH]; intros y; [by intros _ ?%not_elem_of_nil|].
  intros [(x & Hx & _) Hc] [->|Hin]%elem_of_cons; [eauto|by eapply IH].
Qed.

(** A conditional of the goal. *)
#[local] Ltac split_if E := match goal with |- context [bool_decide ?P] =>
  destruct (decide P) as [E|E]; [rewrite (bool_decide_eq_true_2 P E)|rewrite (bool_decide_eq_false_2 P E)] end.

(** The links of the inner generations stay, those of the ends may change. *)
Lemma chain_upd t t' y y' L e e' : NoDup L → chain t y L e →
  (∀ g x, g ∈ L → zlookup t g = Some x → ∃ x', zlookup t' g = Some x' ∧
    gi_younger x' = (if bool_decide (hd_gn y L = g) then y' else gi_younger x) ∧
    gi_older x' = (if bool_decide (last_gn e L = g) then e' else gi_older x)) →
  chain t' y' L e'.
Proof.
  revert y y'. induction L as [|g L IH]; intros y y' Hnd Hc Ht; [done|].
  apply NoDup_cons in Hnd as [Hni Hnd]. destruct Hc as [(x & Hx & Hy & Ho) Hc]. split.
  - destruct (Ht g x ltac:(by left) Hx) as (x' & Hx' & Ey & Eo). exists x'. split; [done|]. simpl in Ey, Eo.
    rewrite bool_decide_eq_true_2 in Ey by done. split; [done|]. rewrite Eo. destruct L as [|g' L]; simpl in *.
    + by rewrite bool_decide_eq_true_2 by done.
    + rewrite bool_decide_eq_false_2; [done|]. intros E. apply Hni. rewrite <- E.
      destruct (last_gn_in g' L) as [[-> _]|H]; [by left|by right].
  - apply (IH g); [done|done|]. intros g' z Hg' Hz. destruct (Ht g' z ltac:(by right) Hz) as (x' & Hx' & Ey & Eo).
    exists x'. split; [done|]. simpl in Ey, Eo. rewrite bool_decide_eq_false_2 in Ey by (intros ->; done).
    destruct L as [|h L]; [by apply not_elem_of_nil in Hg'|]. simpl in *. split; [|by rewrite Eo].
    rewrite Ey. split_if E; [|done]. subst h. destruct Hc as [(z' & Hz' & Ez & _) _]. congruence.
Qed.

Lemma chain_same t t' y L e : NoDup L → chain t y L e →
  (∀ g x, g ∈ L → zlookup t g = Some x → ∃ x', zlookup t' g = Some x' ∧ gi_younger x' = gi_younger x ∧ gi_older x' = gi_older x) →
  chain t' y L e.
Proof.
  revert y. induction L as [|g L IH]; intros y Hnd Hc Ht; [done|].
  apply NoDup_cons in Hnd as [_ Hnd]. destruct Hc as [(x & Hx & Hy & Ho) Hc]. split.
  - destruct (Ht g x ltac:(by left) Hx) as (x' & Hx' & Ey & Eo). exists x'. split; [done|]. split; congruence.
  - apply IH; [done|done|]. intros g' z Hg'. apply Ht. by right.
Qed.

(** The oldest generation of the list. *)
Lemma chain_last t y h L e z : chain t y (h :: L) e → zlookup t (last_gn h L) = Some z → gi_older z = e.
Proof.
  revert y h. induction L as [|k L IH]; intros y h [(w & Hw & _ & Ew) Hc] Hz; simpl in *; [congruence|]. by eapply IH.
Qed.

(** A generation's neighbours. *)
Lemma chain_at t y Y g O e : chain t y (Y ++ g :: O) e →
  ∃ x, zlookup t g = Some x ∧ gi_younger x = last_gn y Y ∧ gi_older x = hd_gn e O.
Proof. intros [_ [(x & Hx & H) _]]%chain_app. eauto. Qed.

(** * Records that differ in their links *)

Definition relinked (x x' : generation_info_t) : Prop := x' = with_older (gi_older x') (with_younger (gi_younger x') x).

#[export] Instance relinked_preorder : PreOrder relinked.
Proof.
  split; [by intros []|]. intros x y z Hxy Hyz. unfold relinked in *. rewrite Hyz, Hxy. by destruct x.
Qed.

Lemma relinked_fields x x' : relinked x x' → gi_status x' = gi_status x ∧ gi_rem_set x' = gi_rem_set x ∧
  gi_npages x' = gi_npages x ∧ gi_page x' = gi_page x ∧ gi_disk_page x' = gi_disk_page x ∧
  gi_from x' = gi_from x ∧ gi_next_from x' = gi_next_from x ∧ gi_next_collected_twice x' = gi_next_collected_twice x.
Proof. intros ->. done. Qed.

Lemma relinked_younger y x : relinked x (with_younger y x).
Proof. by destruct x. Qed.

Lemma relinked_older y x : relinked x (with_older y x).
Proof. by destruct x. Qed.

(** The tables agree but for the links of the generations in [L]. *)
Record links_only (L : list Z) (t t' : list generation_info_t) : Prop := {
  lo_length : length t' = length t;
  lo_entry g x : zlookup t g = Some x → ∃ x', zlookup t' g = Some x' ∧ relinked x x';
  lo_other g : g ∉ L → zlookup t' g = zlookup t g
}.

Lemma links_only_refl L t : links_only L t t.
Proof. split; [done| |done]. intros g x Hx. by exists x. Qed.

Lemma links_only_trans L t1 t2 t3 : links_only L t1 t2 → links_only L t2 t3 → links_only L t1 t3.
Proof.
  intros [L1 E1 O1] [L2 E2 O2]. split; [congruence| |].
  - intros g x Hx. destruct (E1 g x Hx) as (y & Hy & H1). destruct (E2 g y Hy) as (z & Hz & H2). exists z. split; [done|by etrans].
  - intros g Hg. by rewrite O2, O1.
Qed.

Lemma links_only_insert L t g x x' : g ∈ L → zlookup t g = Some x → relinked x x' → links_only L t (zinsert g x' t).
Proof.
  intros Hin Hx Hr. apply zlookup_Some in Hx as Hb. destruct Hb as [Hb _]. split; [apply length_zinsert| |].
  - intros h y Hy. destruct (decide (g = h)) as [<-|Hne].
    + exists x'. rewrite zlookup_insert by done. split; [done|]. congruence.
    + exists y. rewrite zlookup_insert_ne by (done || lia). done.
  - intros h Hh. apply zlookup_insert_ne; [lia|]. by intros ->.
Qed.

(** * Insertion *)

#[local] Abbreviation INV := INVALID_GENERATION_NUMBER.

Section insertion.
Context (t : list generation_info_t) (Y O : list Z) (gn : Z) (x : generation_info_t).
Context (Hnd : NoDup (Y ++ O)) (Hgn : gn ∉ Y ++ O) (Hinv : INV ∉ Y ++ O) (Hgi : gn ≠ INV).
Context (Hc : chain t INV (Y ++ O) INV) (Hx : zlookup t gn = Some x).

(** The table after the insertion. *)
Definition insert_links (t' : list generation_info_t) : Prop :=
  (∀ g z, g ∈ Y ++ O → zlookup t g = Some z → ∃ z', zlookup t' g = Some z' ∧
    gi_younger z' = (if bool_decide (hd_gn INV O = g) then gn else gi_younger z) ∧
    gi_older z' = (if bool_decide (last_gn INV Y = g) then gn else gi_older z)) ∧
  ∃ x', zlookup t' gn = Some x' ∧ gi_younger x' = last_gn INV Y ∧ gi_older x' = hd_gn INV O.

Lemma insert_chain t' : insert_links t' → chain t' INV (Y ++ gn :: O) INV.
Proof.
  intros [Ht (x' & Hx' & Ey & Eo)]. apply NoDup_app in Hnd as (HndY & Hdisj & HndO). apply chain_app in Hc as [HcY HcO].
  rewrite not_elem_of_app in Hinv, Hgn. apply chain_app. split; [|split].
  - eapply (chain_upd t _ INV); [done|exact HcY|]. intros g z Hg Hz.
    destruct (Ht g z) as (z' & Hz' & E1 & E2); [apply elem_of_app; by left|done|]. exists z'. split; [done|].
    assert (E : bool_decide (hd_gn INV O = g) = false).
    { apply bool_decide_eq_false. intros <-. destruct (hd_gn_in INV O) as [[E _]|H]; [rewrite E in Hg; tauto|by apply (Hdisj (hd_gn INV O))]. }
    rewrite E in E1. split.
    + rewrite E1. split_if Eh; [|done]. destruct Y as [|h Y']; [by apply not_elem_of_nil in Hg|].
      simpl in Eh. subst h. destruct HcY as [(w & Hw & Ew & _) _]. congruence.
    + rewrite E2. simpl. destruct Y as [|h Y']; [by apply not_elem_of_nil in Hg|]. done.
  - exists x'. split; [done|]. split; [done|]. by rewrite Eo.
  - eapply (chain_upd t _ (last_gn INV Y)); [done|exact HcO|]. intros g z Hg Hz.
    destruct (Ht g z) as (z' & Hz' & E1 & E2); [apply elem_of_app; by right|done|]. exists z'. split; [done|].
    assert (E : bool_decide (last_gn INV Y = g) = false).
    { apply bool_decide_eq_false. intros <-. destruct (last_gn_in INV Y) as [[E _]|H]; [rewrite E in Hg; tauto|by apply (Hdisj (last_gn INV Y))]. }
    rewrite E in E2. split.
    + rewrite E1. destruct O as [|h O']; [by apply not_elem_of_nil in Hg|]. done.
    + rewrite E2. split_if El; [|done]. destruct O as [|h O']; [by apply not_elem_of_nil in Hg|]. simpl in El.
      rewrite <- El in Hz. by eapply chain_last.
Qed.
End insertion.

Lemma wp_insert_generation_after s Y O gn (Q : unit → state → Prop) :
  NoDup (Y ++ O) → gn ∉ Y ++ O → INV ∉ Y ++ O → gn ≠ INV → chain (generation_info (gc s)) INV (Y ++ O) INV →
  youngest_gn (gc s) = hd_gn INV (Y ++ O) → to_gn (gc s) = gn → is_Some (zlookup (generation_info (gc s)) gn) →
  (∀ t', chain t' INV (Y ++ gn :: O) INV → links_only (Y ++ gn :: O) (generation_info (gc s)) t' →
    Q tt (set_gc (set_youngest_gn (hd_gn INV (Y ++ gn :: O)) (set_generation_info t' (gc s))) s)) →
  wp (insert_generation_after (last_gn INV Y)) Q s.
Proof.
  intros Hnd Hgn Hinv Hgi Hc Hyg Hto [x Hx] HQ. set (t := generation_info (gc s)) in *.
  apply zlookup_Some in Hx as Hr. destruct Hr as [Hr _]. pose proof Hnd as (HndY & Hdisj & HndO)%NoDup_app.
  pose proof Hgn as [HgY HgO]%not_elem_of_app. pose proof Hinv as [HiY HiO]%not_elem_of_app.
  assert (HinY : gn ∈ Y ++ gn :: O) by (apply elem_of_app; right; by left).
  apply wp_bind, wp_gcs. rewrite Hto. apply wp_bind. eapply wp_put_gen; [exact Hx|]. fold t.
  destruct (decide (Y = [])) as [->|HYne].
  - change (last_gn INV []) with INV. rewrite bool_decide_eq_true_2 by done. simpl in Hyg.
    apply wp_bind, wp_gcs, wp_bind. eapply wp_put_gen; [by apply zlookup_insert|].
    apply wp_bind, wp_gcs. cbn [gc set_gc youngest_gn generation_info set_generation_info]. rewrite Hyg.
    rewrite zinsert_zinsert. set (x1 := with_older _ _). apply wp_bind. destruct O as [|h O'].
    + cbn [hd_gn]. rewrite bool_decide_eq_false_2 by (intros H; by apply H). apply wp_ret, wp_set_gcs.
      apply (HQ (zinsert gn x1 t)).
      * split; [|done]. exists x1. rewrite zlookup_insert by done. done.
      * eapply links_only_insert; [done|exact Hx|]. etrans; [apply relinked_younger|apply relinked_older].
    + cbn [hd_gn]. destruct Hc as [(z & Hz & Ez & Eo) Hc]. assert (Hgh : gn ≠ h) by (intros ->; apply HgO; by left).
      rewrite bool_decide_eq_true_2 by (intros ->; apply HiO; by left).
      eapply wp_put_gen; [cbn [gc set_gc generation_info set_generation_info]; rewrite zlookup_insert_ne by (done || lia); exact Hz|].
      apply wp_set_gcs. cbn [gc set_gc generation_info set_generation_info].
      apply (HQ (zinsert h (with_younger gn z) (zinsert gn x1 t))).
      * eapply (insert_chain t [] (h :: O')); [done|exact Hgn|done|by split; [eauto|]|]. apply zlookup_Some in Hz as Hzr. destruct Hzr as [Hzr _]. split.
        -- intros g w Hg Hw. simpl. destruct (decide (h = g)) as [<-|Hne].
           ++ exists (with_younger gn z). rewrite zlookup_insert by by rewrite length_zinsert. split; [done|].
              rewrite bool_decide_eq_true_2 by done. rewrite bool_decide_eq_false_2 by (intros E; apply HiO; rewrite E; by left).
              rewrite Hz in Hw. by injection Hw as <-.
           ++ exists w. assert (gn ≠ g) by (intros ->; done).
              rewrite !zlookup_insert_ne by (done || lia). split; [done|]. rewrite !bool_decide_eq_false_2; [done|intros E; apply Hinv; by rewrite E|done].
        -- exists x1. rewrite zlookup_insert_ne by (done || (apply zlookup_Some in Hz as [? _]; lia)).
           rewrite zlookup_insert by done. done.
      * eapply links_only_trans.
        -- eapply links_only_insert; [done|exact Hx|]. etrans; [apply relinked_younger|apply relinked_older].
        -- eapply links_only_insert; [simpl; right; by left| |apply relinked_younger]. rewrite zlookup_insert_ne by (done || lia). exact Hz.
  - destruct (exists_last HYne) as (Y' & h & ->). rewrite last_gn_app. simpl (last_gn _ [h]).
    assert (Hhinv : h ≠ INV) by (intros ->; apply HiY, elem_of_app; right; by left).
    assert (Hgh : gn ≠ h) by (intros ->; apply HgY, elem_of_app; right; by left).
    rewrite bool_decide_eq_false_2 by done. rewrite <- app_assoc in Hc. destruct (chain_at _ _ _ _ _ _ Hc) as (z & Hz & Ezy & Ezo).
    apply zlookup_Some in Hz as Hzr. destruct Hzr as [Hzr _].
    apply wp_bind. eapply wp_get_gen; [cbn [gc set_gc generation_info set_generation_info]; rewrite zlookup_insert_ne by (done || lia); exact Hz|].
    rewrite Ezo. simpl (hd_gn INV ([] ++ O)). apply wp_bind. eapply wp_put_gen; [by apply zlookup_insert|].
    cbn [gc set_gc generation_info set_generation_info]. rewrite zinsert_zinsert. set (x1 := with_older _ _).
    assert (Hx1 : relinked x x1) by (etrans; [apply relinked_younger|apply relinked_older]).
    assert (Hyo : hd_gn INV ((Y' ++ [h]) ++ gn :: O) = youngest_gn (gc s)) by (rewrite Hyg; by destruct Y').
    assert (Hfin : ∀ t2, links_only ((Y' ++ [h]) ++ gn :: O) t t2 → zlookup t2 h = Some z → zlookup t2 gn = Some x1 →
      (∀ g w, g ∈ (Y' ++ [h]) ++ O → zlookup t g = Some w → ∃ w', zlookup t2 g = Some w' ∧
        gi_younger w' = (if bool_decide (hd_gn INV O = g) then gn else gi_younger w) ∧ gi_older w' = gi_older w) →
      wp (put_gen h (with_older gn)) Q (set_gc (set_generation_info t2 (gc s)) s)).
    { intros t2 Hlo Hh2 Hg2 Hent. eapply wp_put_gen; [exact Hh2|]. cbn [gc set_gc generation_info set_generation_info].
      specialize (HQ (zinsert h (with_older gn z) t2)). rewrite Hyo in HQ.
      assert (Es : set_youngest_gn (youngest_gn (gc s)) (set_generation_info (zinsert h (with_older gn z) t2) (gc s)) =
        set_generation_info (zinsert h (with_older gn z) t2) (set_generation_info t2 (gc s))) by by destruct (gc s).
      rewrite Es in HQ. apply zlookup_Some in Hh2 as Hr2. destruct Hr2 as [Hr2 _]. apply HQ.
      - eapply (insert_chain t (Y' ++ [h]) O); [exact Hnd|exact Hgn|exact Hinv|by rewrite <- app_assoc|]. split.
        + intros g w Hg Hw. destruct (Hent g w Hg Hw) as (w' & Hw' & E1 & E2). rewrite last_gn_app. simpl (last_gn _ [h]).
          destruct (decide (h = g)) as [<-|Hne].
          * exists (with_older gn z). rewrite zlookup_insert by done. split; [done|]. rewrite (bool_decide_eq_true_2 (h = h)) by done.
            rewrite Hh2 in Hw'. injection Hw' as <-. split; [exact E1|done].
          * exists w'. rewrite zlookup_insert_ne by (done || lia). rewrite (bool_decide_eq_false_2 (h = g)) by done. done.
        + exists x1. rewrite zlookup_insert_ne by (done || lia). split; [done|]. rewrite last_gn_app. done.
      - eapply links_only_trans; [exact Hlo|]. eapply links_only_insert; [|exact Hh2|apply relinked_older].
        apply elem_of_app. left. apply elem_of_app. right. by left. }
    assert (Hlo1 : links_only ((Y' ++ [h]) ++ gn :: O) t (zinsert gn x1 t)) by by eapply links_only_insert.
    apply wp_bind. destruct O as [|k O'].
    + cbn [hd_gn]. rewrite bool_decide_eq_false_2 by (intros H; by apply H). apply wp_ret. apply Hfin; [done| |by apply zlookup_insert|].
      * rewrite zlookup_insert_ne by (done || lia). exact Hz.
      * intros g w Hg Hw. exists w. assert (gn ≠ g) by (intros ->; done). rewrite zlookup_insert_ne by (done || lia). split; [done|].
        rewrite bool_decide_eq_false_2; [done|]. cbn [hd_gn]. intros E. apply Hinv. by rewrite E.
    + cbn [hd_gn]. apply chain_app in Hc as [_ [_ Hck]]. destruct Hck as [(zk & Hzk & _) _]. apply zlookup_Some in Hzk as Hkr. destruct Hkr as [Hkr _].
      assert (Hgk : gn ≠ k) by (intros ->; apply HgO; by left).
      rewrite bool_decide_eq_true_2 by (intros ->; apply HiO; by left).
      assert (Hzk1 : zlookup (zinsert gn x1 t) k = Some zk) by by rewrite zlookup_insert_ne by (done || lia).
      eapply wp_put_gen; [exact Hzk1|]. cbn [gc set_gc generation_info set_generation_info].
      assert (Hhk : k ≠ h) by (intros ->; apply (Hdisj h); [apply elem_of_app; right; by left|by left]).
      apply Hfin.
      * eapply links_only_trans; [exact Hlo1|]. eapply links_only_insert; [|exact Hzk1|apply relinked_younger].
        apply elem_of_app. right. right. by left.
      * rewrite zlookup_insert_ne by (done || lia). rewrite zlookup_insert_ne by (done || lia). exact Hz.
      * rewrite zlookup_insert_ne by (done || lia). by apply zlookup_insert.
      * intros g w Hg Hw. assert (gn ≠ g) by (intros ->; done). simpl. destruct (decide (k = g)) as [<-|Hne].
        -- exists (with_younger gn zk). rewrite zlookup_insert by by rewrite length_zinsert. split; [done|].
           rewrite bool_decide_eq_true_2 by done. rewrite Hzk in Hw. by injection Hw as <-.
        -- exists w. rewrite zlookup_insert_ne by (done || lia). rewrite zlookup_insert_ne by (done || lia). split; [done|].
           by rewrite bool_decide_eq_false_2 by done.
Qed.

(** * Removal *)

Section removal.
Context (t : list generation_info_t) (Y O : list Z) (gn : Z).
Context (Hnd : NoDup (Y ++ gn :: O)) (Hinv : INV ∉ Y ++ gn :: O) (Hc : chain t INV (Y ++ gn :: O) INV).

Lemma removal_in g : g ∈ Y ++ O → g ∈ Y ++ gn :: O ∧ g ≠ gn.
Proof.
  apply NoDup_app in Hnd as (_ & Hdisj & [Hni _]%NoDup_cons). intros [Hg|Hg]%elem_of_app; rewrite elem_of_app.
  - split; [by left|]. intros ->. apply (Hdisj gn); [done|by left].
  - split; [by right; right|]. by intros ->.
Qed.

Lemma removal_nodup : NoDup (Y ++ O).
Proof. pose proof Hnd as Hn. rewrite <- Permutation_middle, NoDup_cons in Hn. apply Hn. Qed.

(** The table after the removal. *)
Lemma remove_chain t' :
  (∀ g z, g ∈ Y ++ O → zlookup t g = Some z → ∃ z', zlookup t' g = Some z' ∧
    gi_younger z' = (if bool_decide (hd_gn INV O = g) then last_gn INV Y else gi_younger z) ∧
    gi_older z' = (if bool_decide (last_gn INV Y = g) then hd_gn INV O else gi_older z)) →
  chain t' INV (Y ++ O) INV.
Proof.
  intros Ht. pose proof Hnd as (HndY & Hdisj & [HniO HndO]%NoDup_cons)%NoDup_app. apply chain_app in Hc as [HcY HcO].
  destruct HcO as [_ HcO]. rewrite not_elem_of_app in Hinv. destruct Hinv as [HiY HiO]. apply chain_app. split.
  - eapply (chain_upd t _ INV); [done|exact HcY|]. intros g z Hg Hz.
    destruct (Ht g z) as (z' & Hz' & E1 & E2); [apply elem_of_app; by left|done|]. exists z'. split; [done|].
    rewrite bool_decide_eq_false_2 in E1.
    2:{ intros E. destruct (hd_gn_in INV O) as [[E' _]|H]; [apply HiY; congruence|]. apply (Hdisj g); [done|]. rewrite <- E. by right. }
    split.
    + rewrite E1. split_if Eh; [|done]. destruct Y as [|h Y']; [by apply not_elem_of_nil in Hg|].
      simpl in Eh. subst h. destruct HcY as [(w & Hw & Ew & _) _]. congruence.
    + rewrite E2. destruct Y as [|h Y']; [by apply not_elem_of_nil in Hg|]. done.
  - eapply (chain_upd t _ gn); [done|exact HcO|]. intros g z Hg Hz.
    destruct (Ht g z) as (z' & Hz' & E1 & E2); [apply elem_of_app; by right|done|]. exists z'. split; [done|].
    rewrite bool_decide_eq_false_2 in E2.
    2:{ intros E. destruct (last_gn_in INV Y) as [[E' _]|H]; [apply HiO; right; congruence|]. apply (Hdisj g); [by rewrite <- E|by right]. }
    split.
    + rewrite E1. destruct O as [|h O']; [by apply not_elem_of_nil in Hg|]. done.
    + rewrite E2. split_if El; [|done]. destruct O as [|h O']; [by apply not_elem_of_nil in Hg|]. simpl in El.
      rewrite <- El in Hz. by eapply chain_last.
Qed.
End removal.

Lemma wp_unlink {A} s Y O gn x (k : M A) (Q : A → state → Prop) :
  let t := generation_info (gc s) in
  NoDup (Y ++ gn :: O) → INV ∉ Y ++ gn :: O → chain t INV (Y ++ gn :: O) INV →
  youngest_gn (gc s) = hd_gn INV (Y ++ gn :: O) → zlookup t gn = Some x →
  (∀ t', chain t' INV (Y ++ O) INV → links_only (Y ++ O) t t' →
    wp k Q (set_gc (set_youngest_gn (hd_gn INV (Y ++ O)) (set_generation_info t' (gc s))) s)) →
  wp ((if bool_decide (gi_older x ≠ INVALID_GENERATION_NUMBER)
       then put_gen (gi_older x) (with_younger (gi_younger x)) else mret tt);;
      x ← get_gen gn;
      (if bool_decide (gi_younger x ≠ INVALID_GENERATION_NUMBER)
       then put_gen (gi_younger x) (with_older (gi_older x))
       else
         y ← gcs youngest_gn;
         massert (bool_decide (gn = y));;
         set_gcs (set_youngest_gn (gi_older x)));; k) Q s.
Proof.
  intros t Hnd Hinv Hc Hyg Hx HQ. destruct (chain_at _ _ _ _ _ _ Hc) as (x' & Hx' & Ey & Eo).
  rewrite Hx in Hx'. injection Hx' as <-. pose proof Hnd as (HndY & Hdisj & [HniO HndO]%NoDup_cons)%NoDup_app.
  pose proof Hinv as [HiY [Hig HiO]%not_elem_of_cons]%not_elem_of_app.
  assert (Hneg : ∀ g, g ∈ Y ++ O → gn ≠ g) by (intros g Hg ->; by destruct (removal_in _ _ _ Hnd _ Hg)).
  (* the older generation *)
  assert (Hmid : ∀ t1, links_only (Y ++ O) t t1 → (∀ g z, g ∈ Y ++ O → zlookup t g = Some z → ∃ z', zlookup t1 g = Some z' ∧
      gi_younger z' = (if bool_decide (hd_gn INV O = g) then last_gn INV Y else gi_younger z) ∧ gi_older z' = gi_older z) →
    wp (x ← get_gen gn;
      (if bool_decide (gi_younger x ≠ INVALID_GENERATION_NUMBER)
       then put_gen (gi_younger x) (with_older (gi_older x))
       else
         y ← gcs youngest_gn;
         massert (bool_decide (gn = y));;
         set_gcs (set_youngest_gn (gi_older x)));; k) Q (set_gc (set_generation_info t1 (gc s)) s)).
  { intros t1 Hlo Ht1. apply wp_bind. eapply wp_get_gen.
    { cbn [gc set_gc generation_info set_generation_info]. rewrite (lo_other _ _ _ Hlo); [exact Hx|]. intros Hg. by apply (Hneg gn). }
    rewrite Ey, Eo. apply wp_bind. destruct (decide (Y = [])) as [->|HYne].
    - rewrite bool_decide_eq_false_2 by (intros H; by apply H). apply wp_bind, wp_gcs.
      apply wp_bind, wp_assert; [by apply bool_decide_eq_true|]. apply wp_set_gcs. apply HQ; [|done].
      apply (remove_chain t [] O gn Hnd Hinv Hc). intros g z Hg Hz. destruct (Ht1 g z Hg Hz) as (z' & Hz' & E1 & E2).
      exists z'. split; [done|]. split; [done|]. rewrite E2. split_if E; [|done]. destruct HiO. simpl in E. by rewrite E.
    - destruct (exists_last HYne) as (Y' & h & ->). rewrite last_gn_app. cbn [last_gn].
      assert (Hh : h ∈ (Y' ++ [h]) ++ O) by (apply elem_of_app; left; apply elem_of_app; right; by left).
      rewrite bool_decide_eq_true_2 by (intros ->; apply HiY, elem_of_app; right; by left).
      rewrite <- app_assoc in Hc. destruct (chain_at _ _ _ _ _ _ Hc) as (w & Hw & _). destruct (Ht1 h w Hh Hw) as (w' & Hw' & E1 & E2).
      eapply wp_put_gen; [exact Hw'|]. cbn [gc set_gc generation_info set_generation_info].
      assert (Ey' : hd_gn INV ((Y' ++ [h]) ++ O) = youngest_gn (gc s)) by (rewrite Hyg; by destruct Y').
      specialize (HQ (zinsert h (with_older (hd_gn INV O) w') t1)). rewrite Ey' in HQ.
      assert (Es : ∀ u, set_youngest_gn (youngest_gn (gc s)) (set_generation_info u (gc s)) =
        set_generation_info u (set_generation_info t1 (gc s))) by by intros u; destruct (gc s).
      rewrite Es in HQ. apply zlookup_Some in Hw' as Hr. destruct Hr as [Hr _]. apply HQ.
      + eapply (remove_chain t _ _ gn Hnd Hinv); [by rewrite <- app_assoc|]. intros g z Hg Hz. destruct (Ht1 g z Hg Hz) as (z' & Hz' & F1 & F2).
        rewrite last_gn_app in *. cbn [last_gn] in *. destruct (decide (h = g)) as [<-|Hne].
        * exists (with_older (hd_gn INV O) w'). rewrite zlookup_insert by done. split; [done|]. rewrite (bool_decide_eq_true_2 (h = h)) by done.
          rewrite Hw' in Hz'. injection Hz' as <-. done.
        * exists z'. rewrite zlookup_insert_ne by (done || lia). rewrite (bool_decide_eq_false_2 (h = g)) by done. done.
      + eapply links_only_trans; [exact Hlo|]. eapply links_only_insert; [exact Hh|exact Hw'|apply relinked_older]. }
  apply wp_bind. rewrite Eo, Ey. destruct O as [|h O'].
  - cbn [hd_gn]. rewrite bool_decide_eq_false_2 by (intros H; by apply H). apply wp_ret.
    assert (Es : set_gc (set_generation_info t (gc s)) s = s) by (subst t; destruct s as [? ? ? ? ? ? ? ? []]; done).
    rewrite <- Es. apply Hmid; [apply links_only_refl|]. intros g z Hg Hz. exists z. split; [done|]. split; [|done].
    cbn [hd_gn]. split_if E; [|done]. destruct HiY. rewrite app_nil_r in Hg. by rewrite E.
  - cbn [hd_gn]. rewrite bool_decide_eq_true_2 by (intros E; apply HiO; rewrite E; by left).
    apply chain_app in Hc as [_ [_ [(w & Hw & Ew & _) _]]]. eapply wp_put_gen; [exact Hw|]. fold t.
    apply zlookup_Some in Hw as Hr. destruct Hr as [Hr _]. apply Hmid.
    + eapply links_only_insert; [apply elem_of_app; right; by left|exact Hw|apply relinked_younger].
    + intros g z Hg Hz. cbn [hd_gn]. destruct (decide (h = g)) as [<-|Hne].
      * exists (with_younger (last_gn INV Y) w). rewrite zlookup_insert by done. rewrite bool_decide_eq_true_2 by done.
        rewrite Hw in Hz. injection Hz as <-. done.
      * exists z. rewrite zlookup_insert_ne by (done || lia). by rewrite bool_decide_eq_false_2 by done.
Qed.
