(* ===== verification/Retire.v ===== *)
(** Collected generations (shades.c, [free_page] and
    [mark_generation_collected_once]): their pages return to the pool, they leave
    the linked list, and the generations they were copied from are collected twice. *)

From S2P Require Import Prelude Generations Machine Celltypes Shades Root Bitops Cells Pages Smartptr Io Copy Forward Copying Chain.

#[local] Abbreviation N := NUMBER_OF_WORDS_PER_PAGE.

(** * Freed pages *)

(** A page that is used: it has its cookie and all its words, and is allocated. *)
Record used_page (s : state) (pn : Z) : Prop := {
  up_cookie : mem s !! (PAGE_SIZE * pn) = Some PAGE_MAGIC_COOKIE;
  up_mapped i : 0 ≤ i < N → is_Some (mem s !! (PAGE_SIZE * pn + 4 * i));
  up_entry : ∃ x, zlookup (page_info (gc s)) pn = Some x ∧ pg_is_allocated x = true
}.

(** The variables after [free_page]. *)
Definition page_freed (pn : Z) (g : gc_state) : gc_state :=
  set_number_of_free_pages (number_of_free_pages g + 1)
    (set_list_of_free_pages pn
      (set_page_info (zinsert pn (PageInfo INVALID_GENERATION_NUMBER false (list_of_free_pages g)) (page_info g)) g)).

(** Memory [m'] is [m] but for the pages [pns], which are empty. *)
Definition emptied (pns : list Z) (m m' : gmap Z Z) : Prop :=
  (∀ a, (∀ pn, pn ∈ pns → ¬ in_page pn a) → m' !! a = m !! a) ∧ ∀ pn, pn ∈ pns → virgin_page m' pn.

Lemma emptied_nil m : emptied [] m m.
Proof. split; [done|]. by intros pn ?%not_elem_of_nil. Qed.

Lemma emptied_app pns pns' m m' m'' : (∀ pn, pn ∈ pns → pn ∉ pns') → emptied pns m m' → emptied pns' m' m'' → emptied (pns ++ pns') m m''.
Proof.
  intros Hd [H1 V1] [H2 V2]. split.
  - intros a Ha. rewrite H2, H1; [done|..]; intros pn Hpn; apply Ha, elem_of_app; tauto.
  - intros pn [Hpn|Hpn]%elem_of_app; [|by apply V2]. eapply virgin_page_same; [|by apply V1].
    intros a Ha. apply H2. intros pn' Hpn' Ha'. rewrite <- (in_page_inj _ _ _ Ha Ha') in Hpn'. by apply (Hd pn).
Qed.

Lemma wp_empty_page s pn (Q : unit → state → Prop) :
  mem s !! (PAGE_SIZE * pn) = Some PAGE_MAGIC_COOKIE → (∀ i, 0 ≤ i < N → is_Some (mem s !! (PAGE_SIZE * pn + 4 * i))) →
  (∀ m', emptied [pn] (mem s) m' → Q tt (set_mem m' s)) →
  wp (for_ (Z.to_nat NUMBER_OF_WORDS_PER_PAGE - 1) (λ i _,
    wr (PAGE_NUMBER_TO_PAGE_PTR pn) (1 + Z.of_nat i) PAGE_DEADBEEF) tt) Q s.
Proof.
  intros H0 Hm HQ. unfold PAGE_NUMBER_TO_PAGE_PTR. assert (EN : ∀ i, (i < Z.to_nat N - 1)%nat ↔ Z.of_nat i < 16383) by (intros i; change N with 16384; lia).
  apply wp_for with (I := λ k _ s', ∃ m', s' = set_mem m' s ∧
    (∀ a, (∀ i, (i < k)%nat → a ≠ PAGE_SIZE * pn + 4 * (1 + Z.of_nat i)) → m' !! a = mem s !! a) ∧
    ∀ i, (i < k)%nat → m' !! (PAGE_SIZE * pn + 4 * (1 + Z.of_nat i)) = Some PAGE_DEADBEEF).
  - exists (mem s). split; [by destruct s|]. split; [done|]. intros i Hi. lia.
  - intros k [] s' Hk (m' & -> & H1 & H2). apply EN in Hk. apply wp_store.
    { cbn [mem set_mem]. rewrite H1 by (intros; lia). apply Hm. change N with 16384. lia. }
    eexists. split; [done|]. cbn [mem set_mem]. split.
    + intros a Ha. rewrite lookup_insert_ne; [apply H1; intros i Hi; apply Ha; lia|]. symmetry. apply Ha. lia.
    + intros i Hi. destruct (decide (i = k)) as [->|]; [apply lookup_insert_eq|]. rewrite lookup_insert_ne by lia. apply H2. lia.
  - intros [] s' (m' & -> & H1 & H2). apply HQ. split.
    + intros a Ha. apply H1. intros i Hi%EN ->. apply (Ha pn); [by left|]. unfold in_page. change PAGE_SIZE with 65536. lia.
    + intros pn' ->%list_elem_of_singleton. split; [rewrite H1; [done|intros; lia]|].
      intros i Hi. change N with 16384 in Hi. replace i with (1 + Z.of_nat (Z.to_nat (i - 1))) by lia. apply H2, EN. lia.
Qed.

Lemma wp_free_page s pn (Q : unit → state → Prop) : used_page s pn → is_recovering (gc s) = false →
  (∀ m', emptied [pn] (mem s) m' → Q tt (set_gc (page_freed pn (gc s)) (set_mem m' s))) → wp (free_page pn) Q s.
Proof.
  intros [H0 Hm (x & Hx & Ha)] Hrec HQ. apply zlookup_Some in Hx as Hr. destruct Hr as [Hr _].
  apply wp_bind. eapply wp_load.
  { unfold PAGE_NUMBER_TO_PAGE_PTR. rewrite Z.mul_0_r, Z.add_0_r. exact H0. }
  apply wp_bind, wp_assert; [by apply bool_decide_eq_true|]. apply wp_bind. eapply wp_get_page; [exact Hx|].
  apply wp_bind, wp_assert; [done|]. apply wp_bind, wp_empty_page; [done|done|]. intros m' Hm'.
  apply wp_bind. eapply wp_put_page; [exact Hx|]. apply wp_bind. eapply wp_put_page; [by apply zlookup_insert|].
  apply wp_bind, wp_gcs. cbn [gc set_gc set_mem is_recovering set_page_info page_info]. rewrite Hrec. cbn [negb].
  rewrite zinsert_zinsert. apply wp_bind, wp_bind, wp_gcs, wp_bind. eapply wp_put_page; [by apply zlookup_insert|].
  apply wp_set_gcs, wp_bind, wp_gcs, wp_set_gcs. cbn [gc set_gc set_mem page_info set_page_info]. rewrite zinsert_zinsert.
  exact (HQ m' Hm').
Qed.

(** ** The pages of a generation *)

Fixpoint pages_freed (pns : list Z) (g : gc_state) : gc_state :=
  match pns with [] => g | pn :: pns => pages_freed pns (page_freed pn g) end.

Lemma pages_freed_app pns pns' g : pages_freed (pns ++ pns') g = pages_freed pns' (pages_freed pns g).
Proof. revert g. induction pns as [|pn pns IH]; intros g; [done|]. apply IH. Qed.

Lemma pages_freed_recovering pns g : is_recovering (pages_freed pns g) = is_recovering g.
Proof. revert g. induction pns as [|pn pns IH]; intros g; [done|]. simpl. by rewrite IH. Qed.

Lemma pages_freed_other pns pn g : Forall (λ pn, 0 ≤ pn) pns → pn ∉ pns → zlookup (page_info (pages_freed pns g)) pn = zlookup (page_info g) pn.
Proof.
  revert g. induction pns as [|pn' pns IH]; intros g Hp Hni; [done|]. apply Forall_cons in Hp as [Hp Hps].
  apply not_elem_of_cons in Hni as [Hne Hni]. simpl. rewrite IH by done. by apply zlookup_insert_ne.
Qed.

(** The rest of the variables. *)
Lemma pages_freed_eq pns g : pages_freed pns g =
  set_number_of_free_pages (number_of_free_pages g + Z.of_nat (length pns))
    (set_list_of_free_pages (list_of_free_pages (pages_freed pns g)) (set_page_info (page_info (pages_freed pns g)) g)).
Proof.
  revert g. induction pns as [|pn pns IH]; intros g; cbn [pages_freed length]; [rewrite Z.add_0_r; by destruct g|].
  rewrite IH at 1. replace (number_of_free_pages (page_freed pn g) + Z.of_nat (length pns))
    with (number_of_free_pages g + Z.of_nat (S (length pns))); [done|]. unfold page_freed. simpl. lia.
Qed.

Lemma pages_freed_gens t pns g : pages_freed pns (set_generation_info t g) = set_generation_info t (pages_freed pns g).
Proof. revert g. induction pns as [|pn pns IH]; intros g; [done|]. exact (IH (page_freed pn g)). Qed.

Lemma pages_freed_length pns g : length (page_info (pages_freed pns g)) = length (page_info g).
Proof. revert g. induction pns as [|pn pns IH]; intros g; [done|]. simpl. rewrite IH. apply length_zinsert. Qed.

Lemma pages_freed_entry pns pn g x : zlookup (page_info g) pn = Some x → pn ∈ pns → Forall (λ pn, 0 ≤ pn) pns →
  ∃ y, zlookup (page_info (pages_freed pns g)) pn = Some y ∧ pg_is_allocated y = false.
Proof.
  revert g x. induction pns as [|pn' pns IH]; intros g x Hx; [by intros ?%not_elem_of_nil|]. intros Hin [Hp Hps]%Forall_cons. simpl.
  apply zlookup_Some in Hx as Hr. destruct Hr as [Hr _]. destruct (decide (pn ∈ pns)) as [Hin'|Hni].
  - destruct (decide (pn' = pn)) as [->|].
    + eapply IH; [by apply zlookup_insert|done|done].
    + eapply IH; [|done|done]. unfold page_freed. simpl. rewrite zlookup_insert_ne by done. exact Hx.
  - apply elem_of_cons in Hin as [->|]; [|done]. rewrite pages_freed_other by done. simpl. rewrite zlookup_insert by done. by eexists.
Qed.

Lemma pages_freed_pool pns m0 m' s free : pool s free → emptied pns (mem s) m' →
  NoDup pns → (∀ pn, pn ∈ pns → (pn ∉ free) ∧ 0 ≤ pn < Z.of_nat (length (page_info (gc s))) ∧ pn ≠ INVALID_PAGE_NUMBER) →
  pool (set_gc (pages_freed pns (gc s)) (set_mem m' m0)) (reverse pns ++ free).
Proof.
  intros [Hch Hnd Hv Hn] [Hm' Hv'] Hndp Hp.
  assert (Hchain : ∀ pns g free, free_chain (page_info g) (list_of_free_pages g) free → NoDup pns →
    (∀ pn, pn ∈ pns → (pn ∉ free) ∧ 0 ≤ pn < Z.of_nat (length (page_info g)) ∧ pn ≠ INVALID_PAGE_NUMBER) →
    free_chain (page_info (pages_freed pns g)) (list_of_free_pages (pages_freed pns g)) (reverse pns ++ free)).
  { clear. intros pns. induction pns as [|pn pns IH]; intros g free Hch Hnd Hp; [done|].
    apply NoDup_cons in Hnd as [Hni Hnd]. destruct (Hp pn ltac:(by left)) as (Hnf & Hr & Hinv).
    rewrite reverse_cons, <- app_assoc. simpl. apply IH; [|done|].
    - simpl. split; [done|]. split; [done|]. eexists. rewrite zlookup_insert by done. split; [done|]. split; [done|].
      eapply free_chain_same, Hch. intros pn' Hin. apply zlookup_insert_ne; [lia|]. by intros ->.
    - intros pn' Hin. destruct (Hp pn' ltac:(by right)) as (? & ? & ?). unfold page_freed. simpl. rewrite length_zinsert. split_and!; [|lia|lia|done].
      apply not_elem_of_cons. split; [by intros ->|done]. }
  split; cbn [gc set_gc set_mem mem].
  - by apply Hchain.
  - apply NoDup_app. rewrite reverse_Permutation.
    split; [done|]. split; [|done]. intros pn Hin. rewrite elem_of_reverse in Hin. by destruct (Hp pn Hin).
  - intros pn [Hin|Hin]%elem_of_app; [rewrite elem_of_reverse in Hin; by apply Hv'|]. eapply virgin_page_same; [|by apply Hv].
    intros a Ha. apply Hm'. intros pn' Hin' Ha'. rewrite (in_page_inj _ _ _ Ha Ha') in Hin. by destruct (Hp pn' Hin').
  - rewrite pages_freed_eq. cbn [number_of_free_pages set_number_of_free_pages]. rewrite Hn, length_app, length_reverse. lia.
Qed.

Lemma emptied_used pns s m' g pn : emptied pns (mem s) m' → pn ∉ pns → Forall (λ pn, 0 ≤ pn) pns → g = gc s →
  used_page s pn → used_page (set_gc (pages_freed pns g) (set_mem m' s)) pn.
Proof.
  intros [Hm _] Hni Hpos -> [H0 Hi He].
  assert (Hsame : ∀ a, in_page pn a → m' !! a = mem s !! a).
  { intros a Ha. apply Hm. intros pn' Hin Ha'. by rewrite (in_page_inj _ _ _ Ha Ha') in Hni. }
  assert (Hin : ∀ i, 0 ≤ i < N → in_page pn (PAGE_SIZE * pn + 4 * i)).
  { unfold in_page. change N with 16384. change PAGE_SIZE with 65536. lia. }
  split; cbn [mem gc set_gc set_mem].
  - rewrite Hsame; [done|]. rewrite <- (Z.add_0_r (PAGE_SIZE * pn)). by apply (Hin 0).
  - intros i Hr. rewrite Hsame by by apply Hin. by apply Hi.
  - by rewrite pages_freed_other.
Qed.

Lemma wp_free_pages s pns n l (Q : unit → state → Prop) : n = Z.of_nat (length l) → l = pns → NoDup pns →
  (∀ pn, pn ∈ pns → used_page s pn) → is_recovering (gc s) = false →
  (∀ m', emptied pns (mem s) m' → Q tt (set_gc (pages_freed pns (gc s)) (set_mem m' s))) →
  wp (for_ (Z.to_nat n) (λ i _, pn ← of_option (zlookup l (Z.of_nat i)); free_page pn) tt) Q s.
Proof.
  intros -> -> Hnd Hu Hrec HQ. rewrite Nat2Z.id.
  assert (Hpos : Forall (λ pn, 0 ≤ pn) pns).
  { apply Forall_forall. intros pn Hin. destruct (up_entry _ _ (Hu pn Hin)) as (x & [? _]%zlookup_Some & _). lia. }
  apply wp_for with (I := λ k _ s', ∃ m', emptied (take k pns) (mem s) m' ∧
    s' = set_gc (pages_freed (take k pns) (gc s)) (set_mem m' s)).
  - exists (mem s). split; [apply emptied_nil|]. by destruct s.
  - intros k [] s' Hk (m' & Hm' & ->). destruct (lookup_lt_is_Some_2 pns k Hk) as [pn Hpn].
    assert (Hni : pn ∉ take k pns).
    { intros (j & Hj)%list_elem_of_lookup. apply lookup_take_Some in Hj as [Hj Hlt].
      pose proof (NoDup_lookup _ _ _ _ Hnd Hj Hpn). lia. }
    apply wp_bind. eapply wp_of_option; [apply zlookup_Some; rewrite Nat2Z.id; split; [lia|exact Hpn]|].
    apply wp_free_page.
    + apply emptied_used; [done|done|by apply Forall_take|done|]. apply Hu. by eapply list_elem_of_lookup_2.
    + cbn [gc set_gc]. by rewrite pages_freed_recovering.
    + intros m'' Hm''. exists m''. rewrite (take_S_r _ _ _ Hpn), pages_freed_app. split; [|done].
      eapply emptied_app; [|exact Hm'|exact Hm'']. by intros pn' Hin' ->%list_elem_of_singleton.
  - intros [] s' (m' & Hm' & ->). rewrite firstn_all in *. by apply HQ.
Qed.

(** * Lists of generations through a field *)

Fixpoint follows (next : generation_info_t → Z) (t : list generation_info_t) (h : Z) (l : list Z) : Prop :=
  match l with
  | [] => h = INVALID_GENERATION_NUMBER
  | g :: l => h = g ∧ g ≠ INVALID_GENERATION_NUMBER ∧ ∃ x, zlookup t g = Some x ∧ follows next t (next x) l
  end.

Lemma follows_same next t t' h l : (∀ g x, g ∈ l → zlookup t g = Some x → ∃ x', zlookup t' g = Some x' ∧ next x' = next x) →
  follows next t h l → follows next t' h l.
Proof.
  revert h. induction l as [|g l IH]; intros h Ht; [done|]. intros (-> & Hne & x & Hx & Hl). split; [done|]. split; [done|].
  destruct (Ht g x ltac:(by left) Hx) as (x' & Hx' & E). exists x'. split; [done|]. rewrite E. apply IH; [|done].
  intros g' y Hin. apply Ht. by right.
Qed.

Lemma follows_lookup next t h l g : follows next t h l → g ∈ l → ∃ x, zlookup t g = Some x.
Proof.
  revert h. induction l as [|g' l IH]; intros h; [by intros _ ?%not_elem_of_nil|].
  intros (_ & _ & x & Hx & Hl) [->|Hin]%elem_of_cons; [eauto|by eapply IH].
Qed.

(** ** Generations that are collected twice *)

(** The table after the generations [l] were put on the list of those that are
    collected twice. *)
Record collected_twice (l : list Z) (t t' : list generation_info_t) : Prop := {
  ct_length : length t' = length t;
  ct_in g x : g ∈ l → zlookup t g = Some x → ∃ v,
    zlookup t' g = Some (with_collected_twice v (with_status COLLECTED_TWICE x));
  ct_other g : g ∉ l → zlookup t' g = zlookup t g
}.

Lemma wp_mark_collected_twice fuel s h l tw (Q : unit → state → Prop) :
  let t := generation_info (gc s) in
  follows gi_next_from t h l → follows gi_next_collected_twice t (generations_collected_twice (gc s)) tw →
  NoDup (l ++ tw) → (length l < fuel)%nat →
  (∀ t' h', collected_twice l t t' → follows gi_next_collected_twice t' h' (reverse l ++ tw) →
    Q tt (set_gc (set_generations_collected_twice h' (set_generation_info t' (gc s))) s)) →
  wp (loop fuel (λ gn,
    if bool_decide (gn ≠ INVALID_GENERATION_NUMBER) then
      mark_generation_collected_twice gn;;
      x ← get_gen gn;
      mret (inl (gi_next_from x))
    else mret (inr tt)) h) Q s.
Proof.
  intros t Hl Htw Hnd Hfuel HQ.
  eapply wp_loop with (n := length l) (I := λ k gn s', ∃ l1 l2 t' h', l = l1 ++ l2 ∧ k = length l2 ∧
    s' = set_gc (set_generations_collected_twice h' (set_generation_info t' (gc s))) s ∧
    collected_twice l1 t t' ∧ follows gi_next_collected_twice t' h' (reverse l1 ++ tw) ∧ follows gi_next_from t' gn l2); [done| |].
  { exists [], l, t, (generations_collected_twice (gc s)). split_and!; try done; [by destruct s as [? ? ? ? ? ? ? ? []]|].
    split; [done| |done]. by intros g x ?%not_elem_of_nil. }
  intros k gn s' (l1 & l2 & t' & h' & -> & -> & -> & Ht' & Hf & Hn). destruct l2 as [|g l2].
  - rewrite Hn, bool_decide_eq_false_2 by (intros H; by apply H). apply wp_ret. rewrite app_nil_r in *. by apply HQ.
  - destruct Hn as (-> & Hinv & x & Hx & Hn). rewrite bool_decide_eq_true_2 by done. apply zlookup_Some in Hx as Hr. destruct Hr as [Hr _].
    rewrite <- app_assoc in Hnd. apply NoDup_app in Hnd as (Hnd1 & Hd & [Hg Hnd2]%NoDup_cons). apply NoDup_app in Hnd2 as (Hnd2 & Hd2 & Hnd3).
    assert (Hg1 : g ∉ l1) by (intros Hin; apply (Hd g Hin); by left). rewrite elem_of_app in Hg.
    apply wp_bind. unfold mark_generation_collected_twice. apply wp_bind. eapply wp_put_gen; [exact Hx|]. apply wp_bind, wp_gcs.
    apply wp_bind. eapply wp_put_gen; [by apply zlookup_insert|]. apply wp_set_gcs.
    cbn [gc set_gc generation_info set_generation_info set_generations_collected_twice generations_collected_twice].
    rewrite zinsert_zinsert. set (x' := with_collected_twice _ _). apply wp_bind. eapply wp_get_gen; [by apply zlookup_insert|].
    apply wp_ret. exists (length l2). split; [simpl; lia|].
    assert (Hsame : ∀ g', g' ≠ g → zlookup (zinsert g x' t') g' = zlookup t' g') by (intros g' Hne; apply zlookup_insert_ne; [lia|done]).
    exists (l1 ++ [g]), l2, (zinsert g x' t'), g. split; [by rewrite <- app_assoc|]. split; [done|]. split; [done|]. split; [|split].
    + destruct Ht' as [T1 T2 T3]. split.
      * by rewrite length_zinsert.
      * intros g' y [Hin| ->%list_elem_of_singleton]%elem_of_app Hy.
        -- rewrite Hsame by (intros ->; done). by apply T2.
        -- exists h'. rewrite zlookup_insert by done. rewrite T3 in Hx by done. rewrite Hy in Hx. by injection Hx as ->.
      * intros g' [Hni Hne]%not_elem_of_app. rewrite Hsame by (intros ->; apply Hne; by left). by apply T3.
    + rewrite reverse_app. simpl. split; [done|]. split; [done|]. exists x'. rewrite zlookup_insert by done. split; [done|].
      eapply follows_same, Hf. intros g' y Hin Hy. exists y. rewrite Hsame; [done|]. intros ->.
      apply elem_of_app in Hin as [Hin|Hin]; [by rewrite elem_of_reverse in Hin|tauto].
    + eapply follows_same, Hn. intros g' y Hin Hy. exists y. rewrite Hsame; [done|]. intros ->. tauto.
Qed.

(** * The whole operation *)

(** What [mark_generation_collected_once] does to the table: [L] are the other
    generations in the linked list, [fl] those that [gn] was copied from. *)
Record retired (L : list Z) (gn : Z) (fl : list Z) (t t' : list generation_info_t) : Prop := {
  rt_length : length t' = length t;
  rt_linked g x : g ∈ L → zlookup t g = Some x → ∃ x', zlookup t' g = Some x' ∧ relinked x x';
  rt_gen x : zlookup t gn = Some x → zlookup t' gn = Some (with_status COLLECTED_ONCE x);
  rt_from g x : g ∈ fl → zlookup t g = Some x → ∃ v,
    zlookup t' g = Some (with_collected_twice v (with_status COLLECTED_TWICE x));
  rt_other g : g ∉ L → g ≠ gn → g ∉ fl → zlookup t' g = zlookup t g
}.

Lemma wp_mark_generation_collected_once fuel s Y O gn x fl tw (Q : unit → state → Prop) :
  let t := generation_info (gc s) in
  NoDup (Y ++ gn :: O) → INVALID_GENERATION_NUMBER ∉ Y ++ gn :: O →
  chain t INVALID_GENERATION_NUMBER (Y ++ gn :: O) INVALID_GENERATION_NUMBER →
  youngest_gn (gc s) = hd_gn INVALID_GENERATION_NUMBER (Y ++ gn :: O) → zlookup t gn = Some x →
  gi_npages x = Z.of_nat (length (gi_page x)) → NoDup (gi_page x) → (∀ pn, pn ∈ gi_page x → used_page s pn) →
  is_recovering (gc s) = false → follows gi_next_from t (gi_from x) fl →
  follows gi_next_collected_twice t (generations_collected_twice (gc s)) tw →
  NoDup (fl ++ tw) → (∀ g, g ∈ Y ++ gn :: O → g ∉ fl ++ tw) → (length fl < fuel)%nat →
  (∀ t' h' m', chain t' INVALID_GENERATION_NUMBER (Y ++ O) INVALID_GENERATION_NUMBER → retired (Y ++ O) gn fl t t' →
    follows gi_next_collected_twice t' h' (reverse fl ++ tw) → emptied (gi_page x) (mem s) m' →
    Q tt (set_gc (set_generations_collected_twice h' (set_youngest_gn (hd_gn INVALID_GENERATION_NUMBER (Y ++ O))
      (set_generation_info t' (pages_freed (gi_page x) (gc s))))) (set_mem m' s))) →
  wp (mark_generation_collected_once fuel gn) Q s.
Proof.
  intros t Hnd Hinv Hc Hyg Hx Hn Hndp Hu Hrec Hfl Htw Hndf Hd Hfuel HQ. apply zlookup_Some in Hx as Hr. destruct Hr as [Hr _].
  unfold mark_generation_collected_once. apply wp_bind. eapply wp_put_gen; [exact Hx|]. fold t.
  set (x1 := with_status COLLECTED_ONCE x). set (t1 := zinsert gn x1 t).
  assert (Hx1 : zlookup t1 gn = Some x1) by by apply zlookup_insert.
  apply wp_bind. eapply wp_get_gen; [exact Hx1|]. apply wp_bind.
  eapply wp_free_pages; [exact Hn|done|done| |done|].
  { intros pn Hin. destruct (Hu pn Hin). by split. }
  cbn [gi_page x1 with_status gc set_gc mem]. intros m' Hm'. set (g2 := pages_freed _ _).
  assert (Eg : generation_info g2 = t1) by (subst g2; rewrite pages_freed_eq; done).
  assert (Ey : youngest_gn g2 = youngest_gn (gc s)) by (subst g2; rewrite pages_freed_eq; done).
  assert (Et : generations_collected_twice g2 = generations_collected_twice (gc s)) by (subst g2; rewrite pages_freed_eq; done).
  assert (Hsame : ∀ g, g ≠ gn → zlookup t1 g = zlookup t g) by (intros g Hg; apply zlookup_insert_ne; [lia|done]).
  eapply (wp_unlink (set_gc g2 _) Y O gn x1); cbn [gc set_gc]; rewrite ?Eg; [done|done| |by rewrite Ey|done|].
  { eapply chain_same; [done|exact Hc|]. intros g z Hg Hz. destruct (decide (g = gn)) as [->|Hne].
    - exists x1. split; [done|]. rewrite Hx in Hz. by injection Hz as <-.
    - exists z. by rewrite Hsame. }
  intros t2 Hc2 Hlo2. pose proof (removal_in Y O gn Hnd) as Hrem.
  assert (HgnL : gn ∉ Y ++ O) by (intros Hin; by destruct (Hrem gn Hin)).
  assert (Hgni : gn ∈ Y ++ gn :: O) by (apply elem_of_app; right; by left).
  apply wp_bind. eapply wp_get_gen; [cbn; rewrite (lo_other _ _ _ Hlo2) by done; exact Hx1|]. cbn [gi_from x1 with_status].
  assert (Hkeep : ∀ g z, g ∈ fl ++ tw → zlookup t g = Some z → zlookup t2 g = Some z).
  { intros g z Hg Hz. rewrite (lo_other _ _ _ Hlo2); [rewrite Hsame; [done|]|].
    - intros ->. by apply (Hd gn).
    - intros Hin. by apply (Hd g); [apply Hrem|]. }
  eapply (wp_mark_collected_twice _ _ _ fl tw); cbn [gc set_gc generation_info set_generation_info set_youngest_gn generations_collected_twice]; rewrite ?Et.
  - eapply follows_same, Hfl. intros g z Hg Hz. exists z. split; [|done]. apply Hkeep; [|done]. apply elem_of_app. by left.
  - eapply follows_same, Htw. intros g z Hg Hz. exists z. split; [|done]. apply Hkeep; [|done]. apply elem_of_app. by right.
  - done.
  - done.
  - intros t3 h' [T1 T2 T3] Hf3.
    assert (Hnfl : ∀ g, g ∈ Y ++ gn :: O → g ∉ fl) by (intros g Hg Hin; apply (Hd g Hg), elem_of_app; by left).
    change (gc (set_gc (set_generation_info t1 (gc s)) s)) with (set_generation_info t1 (gc s)) in g2.
    subst g2. rewrite pages_freed_gens. apply (HQ t3 h' m'); [|split|done|exact Hm'].
    + eapply chain_same; [by eapply removal_nodup|exact Hc2|].
      intros g z Hg Hz. exists z. rewrite T3; [done|]. apply Hnfl. by apply Hrem.
    + rewrite T1, (lo_length _ _ _ Hlo2). apply length_zinsert.
    + intros g z Hg Hz. destruct (Hrem g Hg) as [HL Hne]. rewrite <- Hsame in Hz by done.
      destruct (lo_entry _ _ _ Hlo2 g z Hz) as (z' & Hz' & Hrl). exists z'. rewrite T3 by by apply Hnfl. done.
    + intros z Hz. rewrite Hx in Hz. injection Hz as <-. rewrite T3 by by apply Hnfl. by rewrite (lo_other _ _ _ Hlo2).
    + intros g z Hg Hz. apply T2; [done|]. apply Hkeep; [|done]. apply elem_of_app. by left.
    + intros g HgL Hne Hgf. rewrite T3 by done. rewrite (lo_other _ _ _ Hlo2) by done. by apply Hsame.
Qed.
