(* ===== verification/Commit.v ===== *)
(** Commit groups and the collection of mature generations (shades.c, from
    [log_to_generation_pinfo_list] on): definitions.

    The statistics of [shrinkage] are left out: what [mark_major_gc_generations]
    derives from them, and the schedule of [major_gc] in floating point, are
    arguments.  Messages and profiling are left out. *)

From S2P Require Import Prelude Generations Machine Celltypes Shades Root Bitops Cells Pages Smartptr Io Copy.

Definition with_from v x := GenerationInfo (gi_status x) (gi_rem_set x) (gi_npages x) (gi_page x) (gi_disk_page x)
  (gi_younger x) (gi_older x) v (gi_next_from x) (gi_next_collected_twice x).
Definition with_next_from v x := GenerationInfo (gi_status x) (gi_rem_set x) (gi_npages x) (gi_page x) (gi_disk_page x)
  (gi_younger x) (gi_older x) (gi_from x) v (gi_next_collected_twice x).

(** * Generations *)

Section generations.
Context `{Params}.

Definition mark_twice_collected_generations_nonexistent (fuel : nat) : M unit :=
  gn ← gcs generations_collected_twice;
  loop fuel (λ gn,
    if bool_decide (gn ≠ INVALID_GENERATION_NUMBER) then
      put_gen gn (with_status NONEXISTENT);;
      n ← gcs number_of_nonexistent_generations;
      set_gcs (set_number_of_nonexistent_generations (n + 1));;
      x ← get_gen gn;
      for_ (Z.to_nat (gi_npages x)) (λ i _,
        d ← of_option (zlookup (gi_disk_page x) (Z.of_nat i)); io_free_disk_page d) tt;;
      x ← get_gen gn;
      mret (inl (gi_next_collected_twice x))
    else mret (inr tt)) gn;;
  set_gcs (set_generations_collected_twice INVALID_GENERATION_NUMBER).

(** The assertions on the doubly linked list of generations; the test of a
    status against two different values at once never fails. *)
Definition check_generations (fuel : nat) : M Z :=
  gn ← gcs youngest_gn;
  x ← get_gen gn;
  massert (bool_decide (gi_younger x = INVALID_GENERATION_NUMBER));;
  loop fuel (λ gn,
    x ← get_gen gn;
    let older_gn := gi_older x in
    (if bool_decide (older_gn ≠ INVALID_GENERATION_NUMBER) then
       y ← get_gen older_gn; massert (bool_decide (gi_younger y = gn))
     else mret tt);;
    (if bool_decide (gi_status x = TO_BE_COLLECTED)
     then massert (bool_decide (gi_status x ≠ BEING_COLLECTED)) else mret tt);;
    mret (if bool_decide (older_gn ≠ INVALID_GENERATION_NUMBER) then inl older_gn else inr 1)) gn.
End generations.

(** * The persistent description of generations *)

Definition log_page (p : Z) (i : nat) : M unit :=
  to ← gcs to_gn;
  x ← get_gen to;
  pn ← of_option (zlookup (gi_page x) (Z.of_nat i));
  wr p (4 + 2 * Z.of_nat i) pn;;
  d ← of_option (zlookup (gi_disk_page x) (Z.of_nat i));
  wr p (4 + 2 * Z.of_nat i + 1) d.

Definition log_to_generation_pinfo_list (number_of_from_generations number_of_referring_ptrs : Z) : M unit :=
  to ← gcs to_gn;
  x ← get_gen to;
  let npages := gi_npages x in
  massert (bool_decide (npages ≤ MAX_GENERATION_SIZE));;
  b ← can_allocate (4 + 2 * npages);
  massert b;;
  p ← allocate (4 + 2 * npages) CELL_generation_pinfo;
  w ← rd p 0;
  wr p 0 (Z.lor w (Z.lor npages (shl32 number_of_from_generations 12)));;
  l ← get_root ROOT_IX_generation_pinfo_list;
  wr p 1 l;;
  wr p 2 to;;
  wr p 3 number_of_referring_ptrs;;
  for_ (Z.to_nat npages) (λ i _, log_page p i) tt;;
  set_root_item ROOT_IX_generation_pinfo_list p.

Definition cache_page (gn : Z) (i : nat) : M unit :=
  x ← get_gen gn;
  pn ← of_option (zlookup (gi_page x) (Z.of_nat i));
  update_root (root_ix_num ROOT_IX_youngest_generation_page_number0 + 2 * i) pn;;
  d ← of_option (zlookup (gi_disk_page x) (Z.of_nat i));
  update_root (root_ix_num ROOT_IX_youngest_generation_disk_page_number0 + 2 * i) d.

Definition cache_generation_pinfo_to_root (number_of_referring_ptrs : Z) : M unit :=
  gn ← gcs youngest_gn;
  x ← get_gen gn;
  let npages := gi_npages x in
  massert (bool_decide (npages ≤ MAX_GENERATION_SIZE));;
  set_root_item ROOT_IX_youngest_generation_number_of_pages npages;;
  set_root_item ROOT_IX_youngest_generation_number gn;;
  set_root_item ROOT_IX_youngest_generation_number_of_referring_ptrs number_of_referring_ptrs;;
  for_ (Z.to_nat npages) (λ i _, cache_page gn i) tt.

(** * The mature generations' collection *)

Section major.
Context `{Params}.

(** [shrinks_little gn]: the shrinkage of [gn] is less than the average plus the
    margin; [gc_is_late effort free_mem]: the third condition of the schedule. *)
Context (shrinks_little : Z → bool) (gc_is_late : Z → Z → bool).

Definition mark_major_gc_generations (fuel : nat) : M unit :=
  gn ← gcs youngest_gn;
  loop fuel (λ '(gn, number_of_marked_pages),
    if bool_decide (gn ≠ INVALID_GENERATION_NUMBER) then
      if allow_additional_generationality && bool_decide (number_of_pages_to_mark < number_of_marked_pages)
           && shrinks_little gn
      then mret (inr tt)
      else
        x ← get_gen gn;
        massert (bool_decide (gi_status x = NORMAL));;
        put_gen gn (with_status TO_BE_COLLECTED);;
        mret (inl (gi_older x, number_of_marked_pages + gi_npages x))
    else mret (inr tt)) (gn, 0);;
  set_gcs (set_major_gc_was_started true).

(** The first generation to collect. *)
Definition first_from_generation (fuel : nat) : M Z :=
  prev ← gcs prev_to_gn;
  if bool_decide (prev = INVALID_GENERATION_NUMBER) then
    y ← gcs youngest_gn;
    loop fuel (λ gn, x ← get_gen gn;
      mret (if bool_decide (gi_status x ≠ TO_BE_COLLECTED) then inl (gi_older x) else inr gn)) y
  else x ← get_gen prev; mret (gi_older x).

(** The generations to collect, put on the from-list of [to_gn]: the numbers of
    their pages and of the generations. *)
Definition choose_step : Z * Z * Z → M (Z * Z * Z + Z * Z) := λ '(gn, number_of_from_pages, number_of_from_gns),
  x ← get_gen gn;
  massert (bool_decide (gi_status x = TO_BE_COLLECTED));;
  put_gen gn (with_status BEING_COLLECTED);;
  to ← gcs to_gn;
  t ← get_gen to;
  put_gen gn (with_next_from (gi_from t));;
  put_gen to (with_from gn);;
  x ← get_gen gn;
  let number_of_from_pages := number_of_from_pages + gi_npages x in
  let number_of_from_gns := number_of_from_gns + 1 in
  let gn := gi_older x in
  if bool_decide (gn ≠ INVALID_GENERATION_NUMBER) then
    x ← get_gen gn;
    mret (if bool_decide (gi_status x = TO_BE_COLLECTED) && bool_decide (number_of_from_gns < 0xFFF)
             && bool_decide ((gi_npages x + number_of_from_pages) * PAGE_SIZE < mature_generation_limit)
          then inl (gn, number_of_from_pages, number_of_from_gns)
          else inr (number_of_from_pages, number_of_from_gns))
  else mret (inr (number_of_from_pages, number_of_from_gns)).
Definition choose_from_generations (fuel : nat) (first_from_gn : Z) : M (Z * Z) :=
  loop fuel choose_step (first_from_gn, 0, 0).

Fixpoint for_each {A} (l : list A) (f : A → M unit) : M unit :=
  match l with
  | [] => mret tt
  | a :: l => f a;; for_each l f
  end.

(** The pointers into [gn] that its remembered set knows; the set's nodes do not
    change meanwhile. *)
Definition scan_rem_set (fuel : nat) (gn : Z) : M unit :=
  x ← get_gen gn;
  match gi_rem_set x with
  | [] => mret tt
  | rem_set =>
    for_each (concat rem_set) (λ a,
      p ← load a;
      g ← PTR_TO_GENERATION p;
      massert (bool_decide (g = gn));;
      copy_cell fuel (Image a));;
    put_gen gn (with_rem_set [])
  end.

(** [p] points into a generation that is being collected. *)
Definition is_being_collected (p : Z) : M bool :=
  b ← is_in_first_generation p;
  if b : bool then mret false
  else
    gn ← PTR_TO_GENERATION p;
    x ← get_gen gn;
    mret (bool_decide (gi_status x = BEING_COLLECTED)).

(** [for (i = 0, gn = first_from_gn; i < number_of_from_gns; i++, gn = ...)]; the body
    yields the next [gn]. *)
Definition for_from_generations (number_of_from_gns first_from_gn : Z) (f : Z → M Z) : M unit :=
  _ ← for_ (Z.to_nat number_of_from_gns) (λ _ gn, f gn) first_from_gn;
  mret tt.

(** The collection is finished when the generation that is older than [to_gn] does
    not await it. *)
Definition peek_ahead : M Z :=
  to ← gcs to_gn;
  x ← get_gen to;
  let gn := gi_older x in
  finished ← (if bool_decide (gn = INVALID_GENERATION_NUMBER) then mret true
    else y ← get_gen gn; mret (bool_decide (gi_status y ≠ TO_BE_COLLECTED)));
  if finished : bool then set_gcs (set_prev_to_gn INVALID_GENERATION_NUMBER);; mret 0
  else set_gcs (set_prev_to_gn to);; x ← get_gen to; mret (gi_npages x + 1).

Definition major_gc_step (fuel : nat) : M Z :=
  first_from_gn ← first_from_generation fuel;
  allocate_generation fuel;;
  x ← get_gen first_from_gn;
  insert_generation_after (gi_younger x);;
  start_gc;;
  '(number_of_from_pages, number_of_from_gns) ← choose_from_generations fuel first_from_gn;
  CLEAR_COPY_STACK;;
  for_from_generations number_of_from_gns first_from_gn (λ gn,
    scan_rem_set fuel gn;; x ← get_gen gn; mret (gi_older x));;
  b ← accu_is_ptr;
  (if b : bool then copy_if is_being_collected fuel (RootWord (Z.of_nat (root_ix_num ROOT_IX_suspended_accu))) else mret tt);;
  scan_root (copy_if is_being_collected fuel);;
  scan_smart_ptrs fuel (copy_if is_being_collected fuel);;
  st ← gcs copy_stack;
  let number_of_referring_ptrs := Z.of_nat (length st) in
  drain_copy_stack fuel;;
  finish_gc;;
  log_to_generation_pinfo_list number_of_from_gns number_of_referring_ptrs;;
  for_from_generations number_of_from_gns first_from_gn (λ gn,
    x ← get_gen gn; mark_generation_collected_once fuel gn;; mret (gi_older x));;
  peek_ahead.

Definition major_gc_round (fuel : nat) : Z * bool → M (Z * bool + unit) := λ '(effort, already_major_gc_stepped),
  c ← gcs is_collecting;
  if negb c then
    mark_major_gc_generations fuel;;
    set_gcs (set_is_collecting true);;
    mret (inr tt)
  else
    (if already_major_gc_stepped : bool then io_allow_page_changes else mret tt);;
    effort_step ← major_gc_step fuel;
    (if bool_decide (effort_step = 0) then set_gcs (set_is_collecting false) else mret tt);;
    let effort := effort + PAGE_SIZE * effort_step in
    n ← gcs number_of_free_pages;
    let free_mem := n * PAGE_SIZE in
    mret (if bool_decide (effort < max_gc_effort) && bool_decide (free_mem < start_gc_limit) && gc_is_late effort free_mem
          then inl (effort, true) else inr tt).

Definition major_gc (fuel : nat) (is_idle : bool) : M unit :=
  c ← gcs is_collecting;
  n ← gcs number_of_free_pages;
  if negb is_idle && negb c && bool_decide (start_gc_limit < n * PAGE_SIZE) then mret tt
  else loop fuel (major_gc_round fuel) (0, false).

(** * Group commit *)

Definition start_pinfo_list (fuel : nat) : M unit :=
  set_gcs (set_major_gc_was_started false);;
  mark_twice_collected_generations_nonexistent fuel;;
  l ← get_root ROOT_IX_prev_generation_pinfo_list;
  set_root_item ROOT_IX_prev_prev_generation_pinfo_list l;;
  l ← get_root ROOT_IX_generation_pinfo_list;
  set_root_item ROOT_IX_prev_generation_pinfo_list l;;
  set_root_item ROOT_IX_generation_pinfo_list NULL_PTR.

Definition flush_batch (fuel : nat) : M unit :=
  ap ← gets first_generation_allocation_ptr;
  st ← gets first_generation_start;
  if bool_decide (ap = st) then mret tt
  else
    set_root_item ROOT_IX_oid_freelist NULL_WORD;;
    number_of_referring_ptrs ← collect_first_generation fuel;
    cache_generation_pinfo_to_root number_of_referring_ptrs;;
    io_write_root;;
    clear_first_generation;;
    m ← gcs major_gc_was_started;
    (if m : bool then start_pinfo_list fuel else mret tt);;
    log_to_generation_pinfo_list 0 number_of_referring_ptrs;;
    major_gc fuel false.

Definition create_db (fuel : nat) : M unit :=
  io_create_file;;
  n ← gcs (λ g, length (page_info g));
  for_ n (λ pn _, put_page (Z.of_nat pn) (with_allocated true);; free_page (Z.of_nat pn)) tt;;
  flush_batch fuel.
End major.
