(* ===== verification/Mature.v ===== *)
(** The database between two collections: what the memory management of shades.c
    keeps true of the generations, their pages, cells and remembered sets, and of
    the generations that were collected. *)

From S2P Require Import Prelude Generations Machine Celltypes Shades Root Bitops Cells Pages Genlist Smartptr Io Copy Forward Copying Drain Roots Chain Retire.

#[local] Abbreviation N := NUMBER_OF_WORDS_PER_PAGE.
#[local] Abbreviation INV := INVALID_GENERATION_NUMBER.

#[global] Arguments PTR_TO_PAGE_NUMBER : simpl never.

(** * The order of generations *)

(** [g1] and [g2] are in the list [L], where [g2] is not before [g1]. *)
Fixpoint older (L : list Z) (g1 g2 : Z) : Prop :=
  match L with
  | [] => False
  | g :: L => g = g1 ∧ g2 ∈ g :: L ∨ older L g1 g2
  end.

Lemma older_in L g1 g2 : older L g1 g2 → g1 ∈ L ∧ g2 ∈ L.
Proof.
  induction L as [|g L IH]; [done|]. intros [[<- H]|H]; [split; [by left|done]|].
  destruct (IH H). split; by right.
Qed.

Lemma older_refl L g : g ∈ L → older L g g.
Proof. induction L as [|g' L IH]; [by intros ?%not_elem_of_nil|]. intros [->|H]%elem_of_cons; [left; split; [done|by left]|right; by apply IH]. Qed.

Lemma older_app L1 L2 g1 g2 : older (L1 ++ L2) g1 g2 ↔ older L1 g1 g2 ∨ g1 ∈ L1 ∧ g2 ∈ L2 ∨ older L2 g1 g2.
Proof.
  induction L1 as [|g L1 IH]; simpl.
  - split; [by right; right|]. intros [[]|[[?%not_elem_of_nil _]|H]]; done.
  - rewrite IH. rewrite !elem_of_cons, elem_of_app. split.
    + intros [[<- [->|[H|H]]]|[H|[[H1 H2]|H]]]; auto 6.
    + intros [[[<- [->|H]]|H]|[[[->|H1] H2]|H]]; auto 8.
Qed.

(** Generations in the middle do not matter to the others. *)
Lemma older_skip Y B B' O g g' : (g ∉ B) → (g' ∉ B) → older (Y ++ B ++ O) g g' → older (Y ++ B' ++ O) g g'.
Proof.
  intros H1 H2. rewrite !older_app, !elem_of_app.
  intros [H|[[HY [H|H]]|[[H _]%older_in|[[H _]|H]]]]; tauto.
Qed.

(** * Where cells are *)

Definition gen_of (s : state) (x : Z) : option Z :=
  match zlookup (page_info (gc s)) (PTR_TO_PAGE_NUMBER x) with
  | Some pg => if pg_is_allocated pg then Some (pg_generation pg) else None
  | None => None
  end.

Lemma gen_of_iff s x g : gen_of s x = Some g ↔ generation_of s x g.
Proof.
  unfold gen_of, generation_of. destruct (zlookup _ _) as [pg|]; [|split; [done|by intros (? & ? & _)]].
  destruct (pg_is_allocated pg) eqn:E.
  - split; [intros [= <-]; by exists pg|]. intros (? & [= <-] & _ & <-). done.
  - split; [done|]. intros (? & [= <-] & ? & _). congruence.
Qed.

Lemma gen_of_page s x y : PTR_TO_PAGE_NUMBER x = PTR_TO_PAGE_NUMBER y → gen_of s x = gen_of s y.
Proof. intros E. unfold gen_of. by rewrite E. Qed.

(** The cells among [H] of the generations [L]. *)
Definition in_gens (s : state) (L : list Z) (x : Z) : Prop := match gen_of s x with Some g => g ∈ L | None => False end.
#[export] Instance in_gens_dec s L x : Decision (in_gens s L x).
Proof. unfold in_gens. destruct (gen_of s x); apply _. Defined.

Definition cells_of (s : state) (H : gmap Z (list Z)) (L : list Z) : gmap Z (list Z) :=
  filter (λ c, in_gens s L c.1) H.

Lemma cells_of_Some s H L p ws : cells_of s H L !! p = Some ws ↔ H !! p = Some ws ∧ ∃ g, gen_of s p = Some g ∧ g ∈ L.
Proof.
  unfold cells_of. rewrite map_lookup_filter_Some. unfold in_gens. cbn [fst]. destruct (gen_of s p) as [g|].
  - split; intros [H1 H2]; (split; [done|]); [by exists g|]. by destruct H2 as (g' & [= <-] & H2).
  - split; intros [H1 H2]; [done|]. by destruct H2 as (g' & ? & _).
Qed.

(** * Cells *)

Definition well_shaped (ws : list Z) : Prop := ∃ t fs, gc_shape ws = Some (t, fs) ∧
  ∀ j i x, fs !! j = Some (DECLARE_NONNULL_PTR, i) → ws !! S j = Some x → x ≠ NULL_WORD.

Definition words_of_first (s : state) : Z := (first_generation_start s - first_generation_end s) / 4.

(** The cells [H] of the generations [L]: pointers lead to the same or an older
    generation. *)
Record old_cell (s : state) (L : list Z) (H : gmap Z (list Z)) (p : Z) (ws : list Z) : Prop := {
  oc_aligned : p mod 4 = 0;
  oc_length : 2 ≤ Z.of_nat (length ws) ≤ N - 2;
  oc_words i x : ws !! i = Some x → mem s !! (p + 4 * Z.of_nat i) = Some x;
  oc_shape : well_shaped ws;
  oc_place : PAGE_SIZE * PTR_TO_PAGE_NUMBER p + 8 ≤ p ∧
    p + 4 * Z.of_nat (length ws) ≤ PAGE_SIZE * (PTR_TO_PAGE_NUMBER p + 1);
  oc_gen : ∃ g, gen_of s p = Some g ∧ g ∈ L;
  oc_refs i x : ref_at ws i = true → ws !! i = Some x → is_Some (H !! x) ∧
    ∃ g g', gen_of s p = Some g ∧ gen_of s x = Some g' ∧ older L g g'
}.

(** The cells [Yg] of the first generation; their pointers into generations lead to
    those in [L]. *)
Record young_cell (s : state) (L : list Z) (H Yg : gmap Z (list Z)) (p : Z) (ws : list Z) : Prop := {
  yc_aligned : p mod 4 = 0;
  yc_length : 2 ≤ Z.of_nat (length ws) ≤ N - 2;
  yc_words i x : ws !! i = Some x → mem s !! (p + 4 * Z.of_nat i) = Some x;
  yc_shape : well_shaped ws;
  yc_place : first_generation_allocation_ptr s ≤ p ∧ p + 4 * Z.of_nat (length ws) ≤ first_generation_start s;
  yc_refs i x : ref_at ws i = true → ws !! i = Some x → is_Some (Yg !! x) ∨ is_Some (H !! x) ∧ in_gens s L x
}.

(** * The generations *)

(** [Y] are the generations that were created since the last major collection
    started, [C] those that are being collected (none but during a step), [B] those
    that await collection and [O] older ones. *)
Record table_ok (g : gc_state) (Y C B O : list Z) : Prop := {
  tb_gens : gens_ok g;
  tb_nodup : NoDup (Y ++ C ++ B ++ O);
  tb_valid : INV ∉ Y ++ C ++ B ++ O;
  tb_chain : chain (generation_info g) INV (Y ++ C ++ B ++ O) INV;
  tb_youngest : youngest_gn g = hd_gn INV (Y ++ C ++ B ++ O);
  tb_normal gn x : gn ∈ Y ++ O → zlookup (generation_info g) gn = Some x → gi_status x = NORMAL ∧ concat (gi_rem_set x) = [];
  tb_being gn x : gn ∈ C → zlookup (generation_info g) gn = Some x → gi_status x = BEING_COLLECTED;
  tb_await gn x : gn ∈ B → zlookup (generation_info g) gn = Some x → gi_status x = TO_BE_COLLECTED
}.

(** Where the next step continues. *)
Definition prev_ok (g : gc_state) (Y B : list Z) : Prop :=
  prev_to_gn g = INV ∨ prev_to_gn g = last_gn INV Y ∧ Y ≠ [] ∧ B ≠ [].

(** The pages of the generations [L], and the pool. *)
Record paging (s : state) (L free : list Z) : Prop := {
  pk_pool : pool s free;
  pk_entry g x : g ∈ L → zlookup (generation_info (gc s)) g = Some x →
    gi_npages x = Z.of_nat (length (gi_page x)) ∧ length (gi_disk_page x) = length (gi_page x) ∧ NoDup (gi_page x);
  pk_page g x pn : g ∈ L → zlookup (generation_info (gc s)) g = Some x → pn ∈ gi_page x →
    used_page s pn ∧ ∃ pg, zlookup (page_info (gc s)) pn = Some pg ∧ pg_is_allocated pg = true ∧ pg_generation pg = g;
  pk_owned pn pg : zlookup (page_info (gc s)) pn = Some pg → pg_is_allocated pg = true →
    pg_generation pg ∈ L ∧ ∀ x, zlookup (generation_info (gc s)) (pg_generation pg) = Some x → pn ∈ gi_page x;
  pk_free pn pg : zlookup (page_info (gc s)) pn = Some pg → pg_is_allocated pg = false → pn ∈ free
}.

(** The cells of the generations, and what their collection may need. *)
Record cells_ok (s : state) (L : list Z) (H : gmap Z (list Z)) : Prop := {
  ck_cell p ws : H !! p = Some ws → old_cell s L H p ws;
  ck_sep p1 ws1 p2 ws2 : H !! p1 = Some ws1 → H !! p2 = Some ws2 → p1 ≠ p2 → disj (p1, ws1) (p2, ws2);
  ck_words g x : g ∈ L → zlookup (generation_info (gc s)) g = Some x →
    total_words (cells_of s H [g]) ≤ words_of_first s ∧ total_words (cells_of s H [g]) ≤ gi_npages x * (N - 2)
}.

Record young_ok (s : state) (L : list Z) (H Yg : gmap Z (list Z)) : Prop := {
  yk_cell p ws : Yg !! p = Some ws → young_cell s L H Yg p ws;
  yk_sep p1 ws1 p2 ws2 : Yg !! p1 = Some ws1 → Yg !! p2 = Some ws2 → p1 ≠ p2 → disj (p1, ws1) (p2, ws2);
  yk_words : 4 * total_words Yg ≤ first_generation_start s - first_generation_allocation_ptr s
}.

(** The remembered set of a generation that awaits collection has the addresses of
    the pointers into it from the generations [Y], each once. *)
Definition referrer (s : state) (Y : list Z) (H : gmap Z (list Z)) (g a : Z) : Prop :=
  ∃ p ws i y, H !! p = Some ws ∧ ref_at ws i = true ∧ ws !! i = Some y ∧ a = p + 4 * Z.of_nat i ∧
    in_gens s Y p ∧ gen_of s y = Some g.
Definition rems_ok (s : state) (Y B : list Z) (H : gmap Z (list Z)) : Prop :=
  ∀ g x, g ∈ B → zlookup (generation_info (gc s)) g = Some x →
    NoDup (concat (gi_rem_set x)) ∧ ∀ a, a ∈ concat (gi_rem_set x) ↔ referrer s Y H g a.

(** The generations that those in the list, [Y ++ C ++ B ++ O], were copied from,
    [fr] for each, and those, [tw], that were copied from twice.  Generations that are
    being collected are already on the from-list of the new generation. *)
Record retired_ok (g : gc_state) (Y C B O : list Z) (fr : Z → list Z) (tw : list Z) : Prop := {
  rd_from gn x : gn ∈ Y ++ C ++ B ++ O → zlookup (generation_info g) gn = Some x →
    follows gi_next_from (generation_info g) (gi_from x) (fr gn);
  rd_twice : follows gi_next_collected_twice (generation_info g) (generations_collected_twice g) tw;
  rd_nodup : NoDup ((Y ++ B ++ O) ++ concat (fr <$> Y ++ C ++ B ++ O) ++ tw);
  rd_being gn : gn ∈ C → gn ∈ concat (fr <$> Y);
  rd_once gn x : gn ∈ concat (fr <$> Y ++ C ++ B ++ O) → gn ∉ C → zlookup (generation_info g) gn = Some x →
    gi_status x = COLLECTED_ONCE;
  rd_status gn x : gn ∈ tw → zlookup (generation_info g) gn = Some x → gi_status x = COLLECTED_TWICE
}.

(** Every generation has its own pages on disk, [A]. *)
Definition disk_pages (t : list generation_info_t) (g : Z) : list Z :=
  match zlookup t g with Some x => gi_disk_page x | None => [] end.
Record filing (g : gc_state) (L : list Z) (A : gmap Z (list Z)) : Prop := {
  fl_nodup : NoDup (concat (disk_pages (generation_info g) <$> L));
  fl_stored d : d ∈ concat (disk_pages (generation_info g) <$> L) → is_Some (A !! d);
  fl_count gn x : gn ∈ L → zlookup (generation_info g) gn = Some x → gi_npages x = Z.of_nat (length (gi_disk_page x))
}.

(** * The database *)

(** What the memory management has to know of the database: the generations, their
    cells and those of the first generation, the smart pointers, the free pages, the
    collected generations, the pages on disk. *)
Record layout := Layout {
  ly_new : list Z;
  ly_being : list Z;
  ly_await : list Z;
  ly_old : list Z;
  ly_cells : gmap Z (list Z);
  ly_first : gmap Z (list Z);
  ly_smart : list (Z * Z);
  ly_free : list Z;
  ly_from : Z → list Z;
  ly_twice : list Z;
  ly_disk : gmap Z (list Z)
}.

Definition ly_gens (D : layout) : list Z := ly_new D ++ ly_being D ++ ly_await D ++ ly_old D.
(** The generations that have cells, and those that have pages on disk. *)
Definition ly_live (D : layout) : list Z := ly_new D ++ ly_await D ++ ly_old D.
Definition ly_filed (D : layout) : list Z := ly_live D ++ concat (ly_from D <$> ly_gens D) ++ ly_twice D.
(** A pointer to a cell. *)
Definition cell_in (D : layout) (x : Z) : Prop := is_Some (ly_cells D !! x) ∨ is_Some (ly_first D !! x).

Record bounds_ok `{Params} (s : state) : Prop := {
  bd_wf : wf s;
  bd_pages : PAGE_SIZE * Z.of_nat (length (page_info (gc s))) ≤ first_generation_end s;
  bd_top : first_generation_start s ≤ FIRST_GENERATION_DEADBEEF;
  bd_recovering : is_recovering (gc s) = false;
  bd_limit : mature_generation_limit ≤ first_generation_start s - first_generation_end s;
  bd_size : 2 * words_of_first s / (N - 2) + 1 < MAX_GENERATION_SIZE
}.

(** The first generation's cells refer to the generations [L]. *)
Record db `{Params} (s : state) (D : layout) (L : list Z) (r : list Z) : Prop := {
  db_bounds : bounds_ok s;
  db_table : table_ok (gc s) (ly_new D) (ly_being D) (ly_await D) (ly_old D);
  db_paging : paging s (ly_gens D) (ly_free D);
  db_cells : cells_ok s (ly_live D) (ly_cells D);
  db_young : young_ok s L (ly_cells D) (ly_first D);
  db_rems : rems_ok s (ly_new D) (ly_await D) (ly_cells D);
  db_retired : retired_ok (gc s) (ly_new D) (ly_being D) (ly_await D) (ly_old D) (ly_from D) (ly_twice D);
  db_filing : filing (gc s) (ly_filed D) (ly_disk D);
  db_disk : disk (io (gc s)) (ly_disk D) r;
  db_roots : roots_ok s (cell_in D) (ly_smart D)
}.

(** There is room for [k] more collections of [w] words in all: free pages, disk
    pages, entries of the table, words of the first generation. *)
Record room_for (s : state) (free : list Z) (k w : Z) : Prop := {
  rm_pages : 2 * w + k * (N - 2) ≤ Z.of_nat (length free) * (N - 2);
  rm_disk : 2 * w + (Z.of_nat (length (file (io (gc s)))) + k) * (N - 2) ≤ number_of_free_disk_pages (io (gc s)) * (N - 2);
  rm_first : 4 * (4 * w + 6 * k * (N - 2)) ≤ (first_generation_allocation_ptr s - first_generation_end s) * (N - 2);
  rm_gens : Z.of_nat (length (generation_info (gc s))) ≤ INV ∧
    16 * (Z.of_nat (length (generation_info (gc s))) - number_of_nonexistent_generations (gc s) + k) ≤ 7 * INV
}.

(** The same without the words of the first generation. *)
Record space_for (s : state) (free : list Z) (k w : Z) : Prop := {
  sm_pages : 2 * w + k * (N - 2) ≤ Z.of_nat (length free) * (N - 2);
  sm_disk : 2 * w + (Z.of_nat (length (file (io (gc s)))) + k) * (N - 2) ≤ number_of_free_disk_pages (io (gc s)) * (N - 2);
  sm_gens : Z.of_nat (length (generation_info (gc s))) ≤ INV ∧
    16 * (Z.of_nat (length (generation_info (gc s))) - number_of_nonexistent_generations (gc s) + k) ≤ 7 * INV
}.

Lemma room_space s free k w : room_for s free k w ↔ space_for s free k w ∧
  4 * (4 * w + 6 * k * (N - 2)) ≤ (first_generation_allocation_ptr s - first_generation_end s) * (N - 2).
Proof. split; [intros [R1 R2 R3 R4]; by split|intros [[R1 R2 R4] R3]; by split]. Qed.

(** * Sizes *)

Lemma total_words_insert F p ws : F !! p = None → total_words (<[p := ws]> F) = Z.of_nat (length ws) + total_words F.
Proof.
  intros Hp. rewrite (total_words_delete _ p ws) by apply lookup_insert_eq. by rewrite delete_insert_id.
Qed.

Lemma total_words_subseteq F G : F ⊆ G → total_words F ≤ total_words G.
Proof.
  revert F. induction G as [|p ws G Hp IH] using map_ind; intros F HF.
  - assert (F = ∅) as ->; [|done]. apply map_empty. intros p. apply eq_None_not_Some. intros [ws Hp].
    by pose proof (lookup_weaken _ _ _ _ Hp HF).
  - rewrite total_words_insert by done. destruct (F !! p) as [ws'|] eqn:E.
    + pose proof (lookup_weaken _ _ _ _ E HF) as E'. rewrite lookup_insert_eq in E'. injection E' as ->.
      rewrite (total_words_delete F p ws' E). specialize (IH (delete p F)).
      assert (delete p F ⊆ G) by (apply (delete_mono _ _ p) in HF; by rewrite delete_insert_id in HF). apply IH in H. lia.
    + assert (F ⊆ G).
      { apply map_subseteq_spec. intros q x Hq. pose proof (lookup_weaken _ _ _ _ Hq HF) as H.
        apply lookup_insert_Some in H as [[-> _]|[_ H]]; [congruence|done]. }
      apply IH in H. lia.
Qed.

Lemma total_words_split (P Q : Z → Prop) `{∀ x, Decision (P x), ∀ x, Decision (Q x)} F :
  (∀ p, P p → Q p → False) →
  total_words (filter (λ c, P c.1 ∨ Q c.1) F) = total_words (filter (λ c, P c.1) F) + total_words (filter (λ c, Q c.1) F).
Proof.
  intros Hd. induction F as [|p ws F Hp IH] using map_ind; [done|].
  assert (Hn : ∀ (R : Z → Prop) `{∀ x, Decision (R x)}, filter (λ c : Z * list Z, R c.1) F !! p = None).
  { intros R HR. apply map_lookup_filter_None. by left. }
  assert (Hi : ∀ (R : Z → Prop) `{∀ x, Decision (R x)}, total_words (filter (λ c, R c.1) (<[p := ws]> F)) =
    (if decide (R p) then Z.of_nat (length ws) else 0) + total_words (filter (λ c, R c.1) F)).
  { intros R HR. case_decide as HRp.
    - rewrite map_filter_insert_True by done. apply total_words_insert, (Hn R).
    - rewrite map_filter_insert_False by done. rewrite delete_id by done. done. }
  pose proof (Hi (λ x, P x ∨ Q x) _) as Hor. cbv beta in Hor. rewrite (Hi P), (Hi Q), Hor, IH. specialize (Hd p).
  destruct (decide (P p)), (decide (Q p)), (decide (P p ∨ Q p)); tauto || lia.
Qed.

Lemma cells_of_app s H L1 L2 : (∀ g, g ∈ L1 → g ∉ L2) →
  total_words (cells_of s H (L1 ++ L2)) = total_words (cells_of s H L1) + total_words (cells_of s H L2).
Proof.
  intros Hd. unfold cells_of. rewrite <- (total_words_split (in_gens s L1) (in_gens s L2)).
  - f_equal. apply map_filter_ext. intros p ws _. unfold in_gens. cbn [fst]. destruct (gen_of s p); [|tauto]. apply elem_of_app.
  - intros p. unfold in_gens. destruct (gen_of s p); [|tauto]. apply Hd.
Qed.

Lemma cells_of_subseteq s H L1 L2 : (∀ g, g ∈ L1 → g ∈ L2) → cells_of s H L1 ⊆ cells_of s H L2.
Proof.
  intros Hs. apply map_subseteq_spec. intros p ws. rewrite !cells_of_Some. intros (Hp & g & Hg & Hin). split; [done|]. eauto.
Qed.

Lemma in_gens_iff s L x : in_gens s L x ↔ ∃ g, gen_of s x = Some g ∧ g ∈ L.
Proof.
  unfold in_gens. destruct (gen_of s x) as [g|].
  - split; [by exists g|]. by intros (g' & [= <-] & Hin).
  - split; [done|]. by intros (g & ? & _).
Qed.

(** * States in which the database is the same *)

Lemma wf_same s s' : wf s → first_generation_start s' = first_generation_start s →
  first_generation_end s' = first_generation_end s → first_generation_allocation_ptr s' = first_generation_allocation_ptr s →
  (∀ a, first_generation_end s ≤ a → mem s' !! a = mem s !! a) → wf s'.
Proof.
  intros [] E1 E2 E3 Hm. split; rewrite ?E1, ?E2, ?E3; try done.
  - intros a Ha Ha4. rewrite Hm by lia. by apply wf_virgin.
  - intros a Ha Ha4. rewrite Hm by lia. by apply wf_mapped.
Qed.

(** Variables that the structure of the database does not depend on but its values
    do. *)
Record steady (s s' : state) : Prop := {
  sd_first : first_generation_start s' = first_generation_start s ∧ first_generation_end s' = first_generation_end s;
  sd_ix : ix_is_ptr s' = ix_is_ptr s;
  sd_old_value : old_value s' = old_value s;
  sd_links c : next_of (smart_ptrs (gc s')) c = next_of (smart_ptrs (gc s)) c ∧
    prev_of (smart_ptrs (gc s')) c = prev_of (smart_ptrs (gc s)) c;
  sd_flags : is_recovering (gc s') = is_recovering (gc s) ∧ major_gc_was_started (gc s') = major_gc_was_started (gc s) ∧
    is_collecting (gc s') = is_collecting (gc s);
  sd_pages : length (page_info (gc s')) = length (page_info (gc s));
  sd_files : length (file (io (gc s'))) = length (file (io (gc s)))
}.

#[export] Instance steady_preorder : PreOrder steady.
Proof.
  split.
  - intros s. by split.
  - intros s1 s2 s3 [[] ? ? L1 (?&?&?) ? ?] [[] ? ? L2 (?&?&?) ? ?].
    split; [split; congruence|congruence|congruence| |split_and!; congruence|congruence|congruence].
    intros c. destruct (L1 c), (L2 c). split; congruence.
Qed.

(** What a collection leaves as it is for the program: which words of the root block
    are pointers, whether the suspended accumulator is one; the words that are not
    pointers; the flags. *)
Record same_roots (s s' : state) : Prop := {
  se_first : first_generation_start s' = first_generation_start s ∧ first_generation_end s' = first_generation_end s;
  se_ix : ix_is_ptr s' = ix_is_ptr s ∧ length (root s') = length (root s);
  se_accu : accu_holds_ptr s' = accu_holds_ptr s
}.
Definition same_words (s s' : state) : Prop := ∀ i : nat, ix_is_ptr s !! i ≠ Some true → i ≠ root_ix_num ROOT_IX_suspended_accu →
  i ≠ root_ix_num ROOT_IX_generation_pinfo_list → root s' !! i = root s !! i.
Definition same_frame (s s' : state) : Prop := same_roots s s' ∧ same_words s s'.
Definition flags (g : gc_state) : bool * bool * bool := (is_recovering g, major_gc_was_started g, is_collecting g).
Definition undisturbed (s s' : state) : Prop := same_frame s s' ∧ flags (gc s') = flags (gc s).

#[export] Instance same_roots_preorder : PreOrder same_roots.
Proof.
  split.
  - intros s. by split.
  - intros s1 s2 s3 [[] [] ?] [[] [] ?]. split; [split; congruence..|congruence].
Qed.

#[export] Instance same_frame_preorder : PreOrder same_frame.
Proof.
  split.
  - intros s. by split.
  - intros s1 s2 s3 [H1 W1] [H2 W2]. split; [by transitivity s2|]. intros i Hi Ha Hp. rewrite <- (W1 i Hi Ha Hp). apply W2; [|done..].
    by destruct (se_ix _ _ H1) as [-> _].
Qed.

#[export] Instance undisturbed_preorder : PreOrder undisturbed.
Proof.
  split.
  - intros s. by split.
  - intros s1 s2 s3 [] []. split; [by transitivity s2|congruence].
Qed.

Lemma same_root_loc s s' l pp : same_roots s s' → root_loc s' l pp ↔ root_loc s l pp.
Proof. intros [_ [E _] Ea]. destruct pp as [a|i|sp]; [done| |done]. simpl. by rewrite E, Ea. Qed.

Lemma steady_undisturbed s s' : steady s s' → root s' = root s → undisturbed s s'.
Proof.
  intros [H1 H2 _ _ (F1 & F2 & F3) _ _] Er. split; [split; [split; [done|by rewrite Er|]|]|].
  - unfold accu_holds_ptr. by rewrite Er.
  - intros i _ _ _. by rewrite Er.
  - unfold flags. by rewrite F1, F2, F3.
Qed.

Lemma accu_same s s' : (∀ i : nat, i = root_ix_num ROOT_IX_suspended_accu_type ∨ i = root_ix_num ROOT_IX_suspended_accu → root s' !! i = root s !! i) →
  accu_holds_ptr s' = accu_holds_ptr s.
Proof. intros H. unfold accu_holds_ptr. by rewrite !H by auto. Qed.

Lemma length_but_one {A} (l l' : list A) k y : (∀ i, i ≠ k → l' !! i = l !! i) → (k < length l)%nat → l' !! k = Some y → length l' = length l.
Proof.
  intros H Hk Hy. apply lookup_lt_Some in Hy. assert (Hi : ∀ i, is_Some (l' !! i) ↔ is_Some (l !! i)).
  { intros i. destruct (decide (i = k)) as [->|Hne]; [by rewrite !lookup_lt_is_Some|by rewrite H]. }
  assert (Hle : ∀ n m : nat, (∀ i : nat, (i < n)%nat ↔ (i < m)%nat) → n = m).
  { intros n m Hnm. destruct (Nat.lt_trichotomy n m) as [E|[E|E]]; [apply Hnm in E; lia|done|apply Hnm in E; lia]. }
  apply Hle. intros i. by rewrite <- !lookup_lt_is_Some.
Qed.

Section same.
Context (s s' : state) (H : gmap Z (list Z)).
Context (Hgen : ∀ x, is_Some (H !! x) → gen_of s' x = gen_of s x).

Lemma cells_of_same L : cells_of s' H L = cells_of s H L.
Proof.
  apply map_eq. intros p. destruct (cells_of s H L !! p) as [ws|] eqn:E.
  - apply cells_of_Some in E as [Hp Hg]. apply cells_of_Some. split; [done|]. by rewrite Hgen by by eexists.
  - apply eq_None_not_Some. intros [ws [Hp Hg]%cells_of_Some]. rewrite Hgen in Hg by by eexists.
    assert (E' : cells_of s H L !! p = Some ws) by by apply cells_of_Some. congruence.
Qed.

Lemma in_gens_same L x : is_Some (H !! x) → in_gens s' L x ↔ in_gens s L x.
Proof. intros Hx. rewrite !in_gens_iff. by rewrite Hgen. Qed.

Lemma old_cell_same L p ws : old_cell s L H p ws → H !! p = Some ws →
  (∀ i x, ws !! i = Some x → mem s' !! (p + 4 * Z.of_nat i) = mem s !! (p + 4 * Z.of_nat i)) → old_cell s' L H p ws.
Proof.
  intros [C1 C2 C3 C4 C5 C6 C7] Hp Hm. split; try done.
  - intros i x Hx. rewrite (Hm i x Hx). by apply C3.
  - by rewrite Hgen by by eexists.
  - intros i x Hr Hx. destruct (C7 i x Hr Hx) as (Hx' & g & g' & Hg & Hg' & Ho). split; [done|].
    exists g, g'. by rewrite !Hgen by (done || by eexists).
Qed.

Lemma cells_ok_same L : cells_ok s L H →
  (∀ p ws i x, H !! p = Some ws → ws !! i = Some x → mem s' !! (p + 4 * Z.of_nat i) = mem s !! (p + 4 * Z.of_nat i)) →
  words_of_first s' = words_of_first s →
  (∀ g x', g ∈ L → zlookup (generation_info (gc s')) g = Some x' →
    ∃ x, zlookup (generation_info (gc s)) g = Some x ∧ gi_npages x' = gi_npages x) → cells_ok s' L H.
Proof.
  intros [K1 K2 K3] Hm Hw Ht. split.
  - intros p ws Hp. apply old_cell_same; [by apply K1|done|]. intros i x. by apply Hm.
  - exact K2.
  - intros g x' Hg Hx'. destruct (Ht g x' Hg Hx') as (x & Hx & ->). rewrite cells_of_same, Hw. by apply K3.
Qed.

Lemma young_ok_same L Yg : young_ok s L H Yg →
  first_generation_allocation_ptr s' ≤ first_generation_allocation_ptr s →
  first_generation_start s' = first_generation_start s → first_generation_end s' = first_generation_end s →
  (∀ a, first_generation_allocation_ptr s ≤ a → mem s' !! a = mem s !! a) → young_ok s' L H Yg.
Proof.
  intros [K1 K2 K3] Ha E1 E2 Hm. split.
  - intros p ws Hp. destruct (K1 p ws Hp) as [C1 C2 C3 C4 C5 C6]. split; try done.
    + intros i x Hx. rewrite Hm by lia. by apply C3.
    + rewrite E1. lia.
    + intros i x Hr Hx. destruct (C6 i x Hr Hx) as [|[Hx' Hin]]; [by left|right]. split; [done|]. by apply in_gens_same.
  - exact K2.
  - lia.
Qed.

Lemma referrer_same L Hc Y g a : cells_ok s L H → Hc = H → referrer s' Y Hc g a ↔ referrer s Y H g a.
Proof.
  intros Hk ->. unfold referrer. split; intros (p & ws & i & y & Hp & Hr & Hx & Ha & Hin & Hg); exists p, ws, i, y;
    destruct (oc_refs _ _ _ _ _ (ck_cell _ _ _ Hk p ws Hp) i y Hr Hx) as [Hy _].
  - rewrite in_gens_same in Hin by by eexists. rewrite Hgen in Hg by done. split_and!; assumption.
  - rewrite <- in_gens_same in Hin by by eexists. rewrite <- Hgen in Hg by done. split_and!; assumption.
Qed.

Lemma rems_ok_same L Y B : cells_ok s L H → rems_ok s Y B H →
  (∀ g x', g ∈ B → zlookup (generation_info (gc s')) g = Some x' →
    ∃ x, zlookup (generation_info (gc s)) g = Some x ∧ gi_rem_set x' = gi_rem_set x) → rems_ok s' Y B H.
Proof.
  intros Hk Hr Ht g x' Hg Hx'. destruct (Ht g x' Hg Hx') as (x & Hx & ->). destruct (Hr g x Hg Hx) as [Hnd Hin].
  split; [done|]. intros a. rewrite Hin. symmetry. by eapply referrer_same.
Qed.
End same.

Lemma roots_ok_same s s' seen l : roots_ok s seen l → root s' = root s → ix_is_ptr s' = ix_is_ptr s →
  smart_ptrs (gc s') = smart_ptrs (gc s) → roots_ok s' seen l.
Proof.
  intros [R1 R2 R3 R4] E1 E2 E3. split; rewrite ?E1, ?E2, ?E3; [done..|]. intros pp x Hpp Hx. apply (R4 pp x).
  - destruct pp as [a|i|sp]; [done| |done]. simpl in *. unfold accu_holds_ptr in *. by rewrite E1, E2 in Hpp.
  - destruct pp as [a|i|sp]; [done| |]; simpl in *; by rewrite ?E1, ?E3 in Hx.
Qed.
