(* ===== verification/Choose.v ===== *)
(** The start of a step of the mature collection (shades.c, [major_gc_step]): the
    generations to collect and the new generation. *)

From S2P Require Import Prelude Generations Machine Celltypes Shades Root Bitops Cells Pages Genlist Smartptr Io Copy Forward Copying Drain Roots Chain Retire Commit Mature.

#[local] Abbreviation INV := INVALID_GENERATION_NUMBER.

(** * The number of entries that are free *)

Lemma filter_same {A} (P : A → Prop) `{∀ x, Decision (P x)} (l l' : list A) : Forall2 (λ x y, P x ↔ P y) l l' →
  length (filter P l) = length (filter P l').
Proof.
  induction 1 as [|x y l l' Hxy _ IH]; [done|]. rewrite !filter_cons. case_decide as Hx.
  - rewrite decide_True by tauto. simpl. by rewrite IH.
  - by rewrite decide_False by tauto.
Qed.

Lemma gens_ok_same g g' : gens_ok g → length (generation_info g') = length (generation_info g) →
  next_gn g' = next_gn g → number_of_nonexistent_generations g' = number_of_nonexistent_generations g →
  (∀ i x, zlookup (generation_info g) i = Some x → ∃ y, zlookup (generation_info g') i = Some y ∧ (nonexistent y ↔ nonexistent x)) →
  gens_ok g'.
Proof.
  intros [H1 H2 H3] El En Ec Ht. split; rewrite ?El, ?En, ?Ec; [done..|]. rewrite H3. f_equal. apply filter_same.
  apply Forall2_same_length_lookup_2; [done|]. intros i x y Hx Hy.
  destruct (Ht (Z.of_nat i) x) as (z & [_ Hz]%zlookup_Some & Hiff).
  { apply zlookup_Some. rewrite Nat2Z.id. split; [|done]. apply lookup_lt_Some in Hx. lia. }
  rewrite Nat2Z.id, Hy in Hz. by injection Hz as ->.
Qed.

Lemma filter_insert {A} (P : A → Prop) `{∀ x, Decision (P x)} (l : list A) i x y : l !! i = Some x → P x → ¬ P y →
  length (filter P l) = S (length (filter P (<[i := y]> l))).
Proof.
  intros Hi Hx Hy. rewrite <- (take_drop_middle _ _ _ Hi) at 1. rewrite (insert_take_drop l i y) by by eapply lookup_lt_Some.
  rewrite !filter_app, !filter_cons, decide_True, decide_False by done. rewrite !length_app. simpl. lia.
Qed.

Lemma with_new_generation_ok k gn g x : gens_ok g → zlookup (generation_info (grown k g)) gn = Some x → nonexistent x →
  gens_ok (with_new_generation k gn g).
Proof.
  intros Hok Hx Hn. pose proof (grown_ok k g Hok) as [H1 H2 H3]. apply zlookup_Some in Hx as [Hr Hx].
  split; cbn [generation_info with_new_generation set_generation_info next_gn set_number_of_nonexistent_generations set_to_gn set_next_gn
    number_of_nonexistent_generations]; rewrite ?length_zinsert; [done..|].
  rewrite H3. unfold zinsert. rewrite (filter_insert _ _ _ _ new_generation Hx Hn) by done. lia.
Qed.

(** * The variables when scanning starts *)

Definition step_gc (k : nat) (gn y : Z) (t : list generation_info_t) (g : gc_state) : gc_state :=
  set_copy_stack [] (set_to_pn INVALID_PAGE_NUMBER (set_to_ptr 0 (set_to_end 0
    (set_youngest_gn y (set_generation_info t (with_new_generation k gn g)))))).

(** [B1] are the generations to be collected, [gn] the new one, [t] the table. *)
Record chosen (g : gc_state) (Y B1 B2 O : list Z) (k : nat) (gn : Z) (t : list generation_info_t) : Prop := {
  ch_fresh : (gn ∉ Y ++ B1 ++ B2 ++ O) ∧ gn ≠ INV ∧ ∀ x, zlookup (generation_info g) gn = Some x → nonexistent x;
  ch_length : length t = (length (generation_info g) + k)%nat;
  ch_doubled : doubled k g;
  ch_new : ∃ x, zlookup t gn = Some x ∧ gi_status x = NORMAL ∧ gi_rem_set x = [] ∧ gi_npages x = 0 ∧ gi_page x = [] ∧
    gi_disk_page x = [] ∧ follows gi_next_from t (gi_from x) (reverse B1);
  ch_chain : chain t INV (Y ++ gn :: B1 ++ B2 ++ O) INV;
  ch_from i x : i ∈ B1 → zlookup (generation_info g) i = Some x →
    ∃ v x', zlookup t i = Some (with_next_from v (with_status BEING_COLLECTED x')) ∧ relinked x x';
  ch_linked i x : i ∈ Y ++ B2 ++ O → zlookup (generation_info g) i = Some x → ∃ x', zlookup t i = Some x' ∧ relinked x x';
  ch_other i x : zlookup (generation_info g) i = Some x → ¬ nonexistent x → i ∉ Y ++ B1 ++ B2 ++ O → zlookup t i = Some x;
  ch_gens y : gens_ok (step_gc k gn y t g)
}.

(** * The first generation to collect *)

Section first.
Context (s : state) (Y B O : list Z) (Htab : table_ok (gc s) Y [] B O).
Let t := generation_info (gc s).

Lemma table_entry g : g ∈ Y ++ B ++ O → ∃ x, zlookup t g = Some x.
Proof. apply chain_lookup with (y := INV) (e := INV). apply Htab. Qed.

Lemma table_at Y' g O' : Y ++ B ++ O = Y' ++ g :: O' →
  ∃ x, zlookup t g = Some x ∧ gi_younger x = last_gn INV Y' ∧ gi_older x = hd_gn INV O'.
Proof. intros E. eapply chain_at. rewrite <- E. apply Htab. Qed.

Lemma wp_first_from_generation fuel b B' (Q : Z → state → Prop) : prev_ok (gc s) Y B → B = b :: B' → (length Y < fuel)%nat → Q b s →
  wp (first_from_generation fuel) Q s.
Proof.
  intros Hprev EB Hfuel HQ. unfold first_from_generation. apply wp_bind, wp_gcs.
  destruct Hprev as [->|(-> & HY & _)].
  - rewrite bool_decide_eq_true_2 by done. apply wp_bind, wp_gcs. rewrite (tb_youngest _ _ _ _ _ Htab).
    eapply wp_loop with (n := length Y) (I := λ k g s', s' = s ∧ ∃ Y1 Y2, Y = Y1 ++ Y2 ∧ k = length Y2 ∧ g = hd_gn INV (Y2 ++ B ++ O)); [done| |].
    { split; [done|]. by exists [], Y. }
    intros k g s' (-> & Y1 & Y2 & EY & -> & ->). destruct Y2 as [|g Y2].
    + rewrite app_nil_r in EY. rewrite EB. simpl. destruct (table_at Y1 b (B' ++ O)) as (x & Hx & _); [by rewrite EY, EB|].
      apply wp_bind. eapply wp_get_gen; [exact Hx|]. apply wp_ret.
      rewrite (tb_await _ _ _ _ _ Htab b x) by (done || (rewrite EB; by left)). rewrite bool_decide_eq_false_2 by (intros H; by apply H). done.
    + simpl. destruct (table_at Y1 g (Y2 ++ B ++ O)) as (x & Hx & _ & Eo); [by rewrite EY, <- app_assoc|].
      apply wp_bind. eapply wp_get_gen; [exact Hx|]. apply wp_ret.
      assert (HgY : g ∈ Y) by (rewrite EY; apply elem_of_app; right; by left).
      destruct (tb_normal _ _ _ _ _ Htab g x) as [Est _]; [apply elem_of_app; by left|done|]. rewrite Est.
      rewrite bool_decide_eq_true_2 by done. exists (length Y2). split; [simpl; lia|]. split; [done|].
      exists (Y1 ++ [g]), Y2. split; [by rewrite EY, <- app_assoc|]. done.
  - destruct (exists_last HY) as (Y' & h & EY). rewrite EY, last_gn_app. cbn [last_gn].
    assert (Hin : h ∈ Y ++ B ++ O) by (rewrite EY; apply elem_of_app; left; apply elem_of_app; right; by left).
    rewrite bool_decide_eq_false_2 by (intros E; apply (tb_valid _ _ _ _ _ Htab); by rewrite <- E).
    destruct (table_at Y' h (B ++ O)) as (x & Hx & _ & Eo); [by rewrite EY, <- app_assoc|].
    apply wp_bind. eapply wp_get_gen; [exact Hx|]. apply wp_ret. rewrite Eo, EB. done.
Qed.
End first.

(** * The generations to collect *)

Section choice.
Context `{Params} (gn : Z).

(** The table after the generations [C] were put on the from-list of [gn]. *)
Record picked (C : list Z) (t t' : list generation_info_t) : Prop := {
  pc_length : length t' = length t;
  pc_in i x : i ∈ C → zlookup t i = Some x → ∃ v, zlookup t' i = Some (with_next_from v (with_status BEING_COLLECTED x));
  pc_new x : zlookup t gn = Some x → ∃ h, zlookup t' gn = Some (with_from h x) ∧ follows gi_next_from t' h (reverse C);
  pc_other i : i ∉ C → i ≠ gn → zlookup t' i = zlookup t i
}.

(** The limits on what is collected at once. *)
Definition pages_of (t : list generation_info_t) (C : list Z) : Z :=
  foldr (λ g n, match zlookup t g with Some x => gi_npages x | None => 0 end + n) 0 C.
Definition within_limits (t : list generation_info_t) (C : list Z) : Prop :=
  Z.of_nat (length C) ≤ 0xFFF ∧ (length C = 1%nat ∨ pages_of t C * PAGE_SIZE < mature_generation_limit).

Lemma pages_of_app t C C' : pages_of t (C ++ C') = pages_of t C + pages_of t C'.
Proof. induction C as [|g C IH]; [done|]. simpl. rewrite IH. lia. Qed.

Lemma picked_nil t x : zlookup t gn = Some x → gi_from x = INV → picked [] t t.
Proof.
  intros Hx Ef. split; [done| | |done].
  - by intros i y ?%not_elem_of_nil.
  - intros y Hy. rewrite Hx in Hy. injection Hy as <-. exists INV. rewrite Hx. split; [|done]. destruct x; simpl in *. by subst.
Qed.

Lemma picked_snoc C t t' g x z : picked C t t' → NoDup (C ++ [g]) → gn ∉ C ++ [g] → g ≠ INV →
  zlookup t g = Some x → zlookup t gn = Some z → ∃ h z', zlookup t' g = Some x ∧ zlookup t' gn = Some z' ∧ gi_from z' = h ∧
  picked (C ++ [g]) t (zinsert gn (with_from g z') (zinsert g (with_next_from h (with_status BEING_COLLECTED x)) t')).
Proof.
  intros [P1 P2 P3 P4] Hnd Hgn Hinv Hx Hz. apply NoDup_app in Hnd as (_ & Hd & _). apply not_elem_of_app in Hgn as [HgC Hne].
  assert (Hg : g ∉ C) by (intros Hin; apply (Hd g Hin); by left). assert (Hgg : gn ≠ g) by (intros ->; apply Hne; by left).
  destruct (P3 z Hz) as (h & Hz' & Hf). apply zlookup_Some in Hz' as Hzr. destruct Hzr as [Hzr _].
  assert (Hx' : zlookup t' g = Some x) by by rewrite P4.
  apply zlookup_Some in Hx' as Hr. destruct Hr as [Hr _].
  exists h, (with_from h z). split; [done|]. split; [done|]. split; [done|]. set (x' := with_next_from h _).
  assert (Hsame : ∀ i, i ≠ g → i ≠ gn → zlookup (zinsert gn (with_from g (with_from h z)) (zinsert g x' t')) i = zlookup t' i).
  { intros i H1 H2. rewrite zlookup_insert_ne by (done || lia). apply zlookup_insert_ne; [lia|done]. }
  assert (Hat : zlookup (zinsert gn (with_from g (with_from h z)) (zinsert g x' t')) g = Some x').
  { rewrite zlookup_insert_ne by (done || lia). by apply zlookup_insert. }
  split.
  - by rewrite !length_zinsert.
  - intros i y [Hi| ->%list_elem_of_singleton]%elem_of_app Hy.
    + rewrite Hsame by (intros ->; done). by apply P2.
    + exists h. rewrite Hat. rewrite Hx in Hy. by injection Hy as ->.
  - intros y Hy. rewrite Hz in Hy. injection Hy as <-. exists g. rewrite zlookup_insert by by rewrite length_zinsert. split; [done|].
    rewrite reverse_app. simpl. split; [done|]. split; [done|]. exists x'. split; [exact Hat|].
    eapply follows_same, Hf. intros i y Hi Hy. exists y. rewrite elem_of_reverse in Hi. rewrite Hsame by (intros ->; done). done.
  - intros i [Hi1 Hi2]%not_elem_of_app Hi. rewrite Hsame by (done || (intros ->; apply Hi2; by left)). by apply P4.
Qed.

Lemma wp_choose_from_generations fuel s Y B O b (Q : Z * Z → state → Prop) :
  let t := generation_info (gc s) in
  (∃ B', B = b :: B') → NoDup (B ++ O) → gn ∉ B ++ O → INV ∉ B ++ O → chain t Y (B ++ O) INV →
  (∀ i x, i ∈ B → zlookup t i = Some x → gi_status x = TO_BE_COLLECTED) →
  to_gn (gc s) = gn → (∃ z, zlookup t gn = Some z ∧ gi_from z = INV) → (length B < fuel)%nat →
  (∀ i x, i ∈ O → zlookup t i = Some x → gi_status x ≠ TO_BE_COLLECTED) →
  (∀ np B1 B2 t', B = B1 ++ B2 → B1 ≠ [] → within_limits t B1 → picked B1 t t' →
    Q (np, Z.of_nat (length B1)) (set_gc (set_generation_info t' (gc s)) s)) →
  wp (choose_from_generations fuel b) Q s.
Proof.
  intros t [B' EB] Hnd Hgn Hinv Hc Hst Hto (z & Hz & Ez) Hfuel HstO HQ. unfold choose_from_generations.
  eapply wp_loop with (n := length B) (I := λ k '(g, np, ng) s', ∃ C C' t', B = C ++ g :: C' ∧ k = length (g :: C') ∧
    s' = set_gc (set_generation_info t' (gc s)) s ∧ picked C t t' ∧ np = pages_of t C ∧ ng = Z.of_nat (length C) ∧
    within_limits t (C ++ [g])); [done| |].
  { exists [], B', t. split; [done|]. split; [by rewrite EB|]. split; [subst t; by destruct s as [? ? ? ? ? ? ? ? []]|].
    split; [by eapply picked_nil|]. split; [done|]. split; [done|]. split; [done|by left]. }
  intros k [[g np] ng] s' (C & C' & t' & EC & -> & -> & Hp & -> & -> & Hlim).
  rewrite EC in Hc, Hgn, Hnd, Hinv. rewrite <- app_assoc in Hc, Hgn, Hnd, Hinv. cbn [app] in *.
  destruct (chain_at _ _ _ _ _ _ Hc) as (x & Hx & _ & Eo).
  assert (HgB : g ∈ B) by (rewrite EC; apply elem_of_app; right; by left).
  assert (Hsub : C ++ g :: C' ++ O = (C ++ [g]) ++ C' ++ O) by by rewrite <- app_assoc.
  rewrite Hsub in Hnd, Hgn, Hinv. apply NoDup_app in Hnd as (Hnd & Hd & Hnd'). apply not_elem_of_app in Hgn as [Hgn Hgn'].
  apply not_elem_of_app in Hinv as [Hinv Hinv'].
  assert (Hgi : g ≠ INV) by (intros ->; apply Hinv, elem_of_app; right; by left).
  destruct (picked_snoc C t t' g x z Hp Hnd Hgn Hgi Hx Hz) as (h & z' & Hx' & Hz' & Eh & Hp').
  apply zlookup_Some in Hx' as Hr. destruct Hr as [Hr _].
  assert (Hgg : g ≠ gn) by (intros ->; apply Hgn, elem_of_app; right; by left).
  unfold choose_step. apply wp_bind. eapply wp_get_gen; [exact Hx'|]. rewrite (Hst g x HgB Hx).
  apply wp_bind, wp_assert; [done|]. apply wp_bind. eapply wp_put_gen; [exact Hx'|]. apply wp_bind, wp_gcs.
  cbn [gc set_gc generation_info set_generation_info to_gn]. rewrite Hto. apply wp_bind.
  eapply wp_get_gen; [cbn [gc set_gc generation_info set_generation_info]; rewrite zlookup_insert_ne by (done || lia); exact Hz'|]. rewrite Eh.
  apply wp_bind. eapply wp_put_gen; [by apply zlookup_insert|]. cbn [gc set_gc generation_info set_generation_info].
  rewrite zinsert_zinsert. apply wp_bind. eapply wp_put_gen.
  { cbn [gc set_gc generation_info set_generation_info]. rewrite zlookup_insert_ne by (done || lia). exact Hz'. }
  cbn [gc set_gc generation_info set_generation_info]. set (t2 := zinsert gn _ _) in *.
  assert (Hfin : ∀ C2 t3, B = (C ++ [g]) ++ C2 → picked (C ++ [g]) t t3 →
    Q (pages_of t C + gi_npages x, Z.of_nat (length C) + 1) (set_gc (set_generation_info t3 (gc s)) s)).
  { intros C2 t3 EB2 Hp3. replace (Z.of_nat (length C) + 1) with (Z.of_nat (length (C ++ [g]))) by (rewrite length_app; simpl; lia).
    eapply HQ; [exact EB2|by destruct C|exact Hlim|exact Hp3]. }
  assert (EB2 : B = (C ++ [g]) ++ C') by by rewrite EC, <- app_assoc.
  destruct (pc_in _ _ _ Hp' g x) as (v & Hx2); [apply elem_of_app; right; by left|done|].
  apply wp_bind. eapply wp_get_gen; [exact Hx2|]. cbn [gi_npages gi_older with_next_from with_status]. rewrite Eo.
  destruct C' as [|g' C'].
  - destruct O as [|o O']; cbn [app hd_gn].
    + rewrite bool_decide_eq_false_2 by (intros H'; by apply H'). apply wp_ret. by eapply Hfin.
    + rewrite bool_decide_eq_true_2 by (intros E; apply Hinv'; rewrite E; by left).
      assert (Ho : o ∈ o :: O') by by left. destruct (chain_lookup _ _ _ _ o Hc) as (xo & Hxo); [apply elem_of_app; right; right; by left|].
      apply wp_bind. eapply wp_get_gen.
      { cbn [gc set_gc generation_info set_generation_info]. rewrite (pc_other _ _ _ Hp'); [exact Hxo| |by intros ->; apply Hgn'; left].
        intros Hin. by apply (Hd o Hin); left. }
      rewrite (bool_decide_eq_false_2 (gi_status xo = _)) by by eapply HstO. apply wp_ret. by eapply Hfin.
  - cbn [app hd_gn]. rewrite bool_decide_eq_true_2 by (intros E; apply Hinv'; rewrite E; by left).
    destruct (chain_lookup _ _ _ _ g' Hc) as (x' & Hx3); [apply elem_of_app; right; right; by left|].
    apply wp_bind. eapply wp_get_gen.
    { cbn [gc set_gc generation_info set_generation_info]. rewrite (pc_other _ _ _ Hp'); [exact Hx3| |by intros ->; apply Hgn'; left].
      intros Hin. by apply (Hd g' Hin); left. }
    destruct (_ && _ && _) eqn:Econd; apply wp_ret; [|by eapply Hfin].
    apply andb_true_iff in Econd as [Econd E3%bool_decide_eq_true]. apply andb_true_iff in Econd as [_ E2%bool_decide_eq_true].
    exists (length (g' :: C')). split; [simpl; lia|]. exists (C ++ [g]), C', t2. split; [by rewrite EC, <- app_assoc|].
    split; [done|]. split; [done|]. split; [exact Hp'|]. split; [rewrite pages_of_app; simpl; rewrite Hx; lia|].
    split; [rewrite length_app; simpl; lia|]. split; [rewrite !length_app; simpl; lia|]. right. rewrite !pages_of_app. simpl. rewrite Hx, Hx3. lia.
Qed.
End choice.

(** * The start of the step *)

Section start.
Context `{Params} (s : state) (Y B O : list Z) (Htab : table_ok (gc s) Y [] B O).
#[local] Abbreviation t := (generation_info (gc s)).

(** An entry of the new table before the new generation is inserted. *)
Lemma new_table_old k gn i x : zlookup t i = Some x → i ≠ gn → (∃ y, zlookup (generation_info (grown k (gc s))) gn = Some y) →
  zlookup (generation_info (with_new_generation k gn (gc s))) i = Some x.
Proof.
  intros Hx Hne [y Hy]. cbn [with_new_generation generation_info set_generation_info grown].
  apply zlookup_Some in Hy as [Hr _]. rewrite zlookup_insert_ne by (done || lia).
  apply zlookup_Some in Hx as [Hx0 Hx]. apply zlookup_Some. rewrite length_app. split; [lia|]. by apply lookup_app_l_Some.
Qed.

Lemma pages_of_same t' C : (∀ g, g ∈ C → ∃ x y, zlookup t g = Some x ∧ zlookup t' g = Some y ∧ gi_npages y = gi_npages x) →
  pages_of t' C = pages_of t C.
Proof.
  induction C as [|g C IH]; intros Ht; [done|]. simpl. destruct (Ht g ltac:(by left)) as (x & y & -> & -> & ->).
  rewrite IH; [done|]. intros g' Hg'. apply Ht. by right.
Qed.

(** [t1] is the table after the new generation was inserted, [t2] that after the
    generations were chosen. *)
Lemma start_chosen k gn y t1 t2 B1 B2 : B = B1 ++ B2 → doubled k (gc s) →
  zlookup (generation_info (grown k (gc s))) gn = Some y → nonexistent y → gn ≠ INV →
  chain t1 INV (Y ++ gn :: B ++ O) INV →
  links_only (Y ++ gn :: B ++ O) (generation_info (with_new_generation k gn (gc s))) t1 →
  picked gn B1 t1 t2 → gn ∉ Y ++ B ++ O → chosen (gc s) Y B1 B2 O k gn t2.
Proof.
  intros EB Hd Hy Hn Hgi Hc [L1 L2 L3] [P1 P2 P3 P4] HgL. apply zlookup_Some in Hy as Hr. destruct Hr as [Hr _].
  set (g0 := with_new_generation k gn (gc s)) in *.
  assert (Hx0 : zlookup (generation_info g0) gn = Some new_generation) by by apply zlookup_insert.
  assert (Hl0 : length (generation_info g0) = (length t + k)%nat).
  { subst g0. cbn [with_new_generation generation_info set_generation_info grown]. by rewrite length_zinsert, length_app, length_replicate. }
  assert (Hold : ∀ i x, zlookup t i = Some x → i ≠ gn → zlookup (generation_info g0) i = Some x).
  { intros i x Hx Hne. apply new_table_old; [done|done|by eexists]. }
  assert (Hne : ∀ i, i ∈ Y ++ B ++ O → i ≠ gn) by (intros i Hi ->; done).
  destruct (L2 gn _ Hx0) as (x1 & Hx1 & E1). destruct (P3 _ Hx1) as (h & Hx2 & Hf).
  pose proof (relinked_fields _ _ E1) as (R1 & R2 & R3 & R4 & R5 & _).
  assert (Hfrom : ∀ i x, i ∈ B1 → zlookup t i = Some x →
    ∃ v x', zlookup t2 i = Some (with_next_from v (with_status BEING_COLLECTED x')) ∧ relinked x x').
  { intros i x Hi Hx. assert (HiL : i ∈ Y ++ B ++ O) by (rewrite EB, !elem_of_app; auto).
    destruct (L2 i x) as (x' & Hx' & Hrl); [apply Hold; [done|by apply Hne]|]. destruct (P2 i x' Hi Hx') as (v & Hv). by exists v, x'. }
  assert (Hnb : ∀ i, i ∈ Y ++ B2 ++ O → i ∉ B1).
  { pose proof (tb_nodup _ _ _ _ _ Htab : NoDup (Y ++ B ++ O)) as HndL. rewrite EB in HndL. rewrite <- app_assoc in HndL.
    apply NoDup_app in HndL as (_ & Hd1 & HndL). apply NoDup_app in HndL as (_ & Hd2 & _).
    intros i [Hi|Hi]%elem_of_app Hi1; [apply (Hd1 i Hi), elem_of_app; by left|by apply (Hd2 i Hi1)]. }
  assert (Hlinked : ∀ i x, i ∈ Y ++ B2 ++ O → zlookup t i = Some x → ∃ x', zlookup t2 i = Some x' ∧ relinked x x').
  { intros i x Hi Hx. assert (HiL : i ∈ Y ++ B ++ O) by (rewrite EB, !elem_of_app; rewrite !elem_of_app in Hi; tauto).
    destruct (L2 i x) as (x' & Hx' & Hrl); [apply Hold; [done|by apply Hne]|]. exists x'. rewrite P4; [done|by apply Hnb|by apply Hne]. }
  assert (Hother : ∀ i, i ∉ Y ++ B ++ O → i ≠ gn → zlookup t2 i = zlookup (generation_info g0) i).
  { intros i Hi Hig. rewrite P4; [|rewrite EB, !elem_of_app in Hi; tauto|done]. apply L3. rewrite EB, !elem_of_app in *.
    rewrite elem_of_cons, !elem_of_app. tauto. }
  assert (EL : Y ++ B1 ++ B2 ++ O = Y ++ B ++ O) by by rewrite EB, <- app_assoc.
  split; rewrite ?EL.
  - split; [done|]. split; [done|]. intros x [Hxr Hx]%zlookup_Some. apply zlookup_Some in Hy as [_ Hy].
    cbn [generation_info grown set_generation_info] in Hy. rewrite lookup_app_l in Hy by lia. by simplify_eq.
  - by rewrite P1, L1, Hl0.
  - done.
  - exists (with_from h x1). split; [done|]. cbn [gi_status gi_rem_set gi_npages gi_page gi_disk_page gi_from with_from].
    rewrite R1, R2, R3, R4, R5. done.
  - eapply chain_same; [| |].
    2: { rewrite (app_assoc B1 B2 O), <- EB. exact Hc. }
    + rewrite (app_assoc B1 B2 O), <- EB, <- Permutation_middle. by apply NoDup_cons; split; [|apply Htab].
    + intros g x Hg Hx. destruct (decide (g ∈ B1)) as [Hg1|Hg1].
      * destruct (P2 g x Hg1 Hx) as (v & Hv). by eexists.
      * destruct (decide (g = gn)) as [->|Hgn]; [|exists x; by rewrite P4].
        destruct (P3 x Hx) as (h' & Hh' & _). by eexists.
  - exact Hfrom.
  - exact Hlinked.
  - intros i x Hx Hnx Hi. assert (Hig : i ≠ gn).
    { intros ->. apply zlookup_Some in Hx as [Hxr Hx]. apply zlookup_Some in Hy as [_ Hy].
      cbn [generation_info grown set_generation_info] in Hy. rewrite lookup_app_l in Hy by lia. by simplify_eq. }
    rewrite Hother by done. by apply Hold.
  - intros y'. eapply gens_ok_same; [eapply with_new_generation_ok; [apply Htab|exact Hy|exact Hn]|..]; [|done|done|].
    + cbn [generation_info step_gc set_copy_stack set_to_pn set_to_ptr set_to_end set_youngest_gn set_generation_info]. by rewrite P1, L1.
    + fold g0. cbn [generation_info step_gc set_copy_stack set_to_pn set_to_ptr set_to_end set_youngest_gn set_generation_info].
      intros i x Hx. destruct (L2 i x Hx) as (x' & Hx' & Hrl). destruct (relinked_fields _ _ Hrl) as (Est & _).
      assert (Hnn : nonexistent x' ↔ nonexistent x) by by (unfold nonexistent; rewrite Est).
      destruct (decide (i ∈ B1)) as [Hi|Hi].
      * destruct (P2 i x' Hi Hx') as (v & Hv). eexists. split; [exact Hv|].
        assert (HiL : i ∈ Y ++ B ++ O) by (rewrite EB, !elem_of_app; auto).
        destruct (table_entry s Y B O Htab i HiL) as (z & Hz). rewrite (Hold i z Hz (Hne i HiL)) in Hx. injection Hx as <-.
        assert (Ez : gi_status z = TO_BE_COLLECTED) by (eapply (tb_await _ _ _ _ _ Htab); [rewrite EB; apply elem_of_app; by left|done]).
        unfold nonexistent. rewrite Ez. done.
      * destruct (decide (i = gn)) as [->|Hig]; [|exists x'; by rewrite P4].
        destruct (P3 x' Hx') as (h' & Hh' & _). by eexists.
Qed.

Lemma wp_start_step {A} fuel (m : Z → Z → M A) (Q : A → state → Prop) : prev_ok (gc s) Y B → B ≠ [] →
  (2 * length t < fuel)%nat → (length Y < fuel)%nat → (length B < fuel)%nat → Z.of_nat (length t) ≤ INV →
  16 * (Z.of_nat (length t) - number_of_nonexistent_generations (gc s) + 1) ≤ 7 * INV →
  (∀ k gn t' B1 B2, B = B1 ++ B2 → B1 ≠ [] → within_limits t B1 → chosen (gc s) Y B1 B2 O k gn t' →
    wp (m (hd_gn INV B1) (Z.of_nat (length B1))) Q
      (set_gc (step_gc k gn (hd_gn INV (Y ++ gn :: B ++ O)) t' (gc s)) s)) →
  wp (first_from_gn ← first_from_generation fuel;
      allocate_generation fuel;;
      x ← get_gen first_from_gn;
      insert_generation_after (gi_younger x);;
      start_gc;;
      '(number_of_from_pages, number_of_from_gns) ← choose_from_generations fuel first_from_gn;
      CLEAR_COPY_STACK;; m first_from_gn number_of_from_gns) Q s.
Proof.
  intros Hprev HB Hf1 Hf2 Hf3 Hg1 Hg2 HQ. assert (∃ b B', B = b :: B') as (b & B' & EB) by (destruct B; [done|eauto]).
  apply wp_bind. eapply wp_first_from_generation; [exact Htab|exact Hprev|exact EB|exact Hf2|].
  apply wp_bind. apply wp_allocate_generation; [apply Htab|exact Hf1|]. intros k gn y Hd Hy Hn.
  set (g0 := with_new_generation k gn (gc s)).
  assert (Hne : ∀ i, i ∈ Y ++ B ++ O → i ≠ gn).
  { intros i Hi ->. destruct (table_entry s Y B O Htab gn Hi) as (z & Hz).
    apply zlookup_Some in Hz as Hzr. destruct Hzr as [Hzr Hz']. apply zlookup_Some in Hy as [_ Hy].
    cbn [generation_info grown set_generation_info] in Hy. rewrite lookup_app_l in Hy by lia. rewrite Hz' in Hy. injection Hy as <-.
    unfold nonexistent in Hn. rewrite !elem_of_app in Hi. destruct Hi as [Hi|[Hi|Hi]].
    - destruct (tb_normal _ _ _ _ _ Htab gn z) as [E _]; [apply elem_of_app; by left|done|congruence].
    - pose proof (tb_await _ _ _ _ _ Htab gn z Hi Hz). congruence.
    - destruct (tb_normal _ _ _ _ _ Htab gn z) as [E _]; [apply elem_of_app; by right|done|congruence]. }
  assert (Hgi : gn ≠ INV).
  { intros ->. apply zlookup_Some in Hy as [Hr _]. cbn [generation_info grown set_generation_info] in Hr.
    rewrite length_app, length_replicate in Hr. destruct Hd as [->|[Hd ->]]; lia. }
  assert (Hold : ∀ i x, zlookup t i = Some x → i ≠ gn → zlookup (generation_info g0) i = Some x).
  { intros i x Hx Hxne. apply new_table_old; [done|done|by eexists]. }
  assert (Hchain : chain (generation_info g0) INV (Y ++ B ++ O) INV).
  { eapply chain_same; [apply Htab|apply Htab|]. intros g x Hg Hx. exists x. split; [|done]. apply Hold; [done|by apply Hne]. }
  destruct (table_at s Y B O Htab Y b (B' ++ O)) as (x & Hx & Exy & _); [by rewrite EB|].
  apply wp_bind. eapply wp_get_gen.
  { cbn [gc set_gc]. apply Hold; [exact Hx|]. apply Hne. rewrite EB, !elem_of_app, elem_of_cons. auto. }
  rewrite Exy. apply wp_bind.
  assert (Hgn0 : zlookup (generation_info g0) gn = Some new_generation).
  { apply zlookup_insert. by apply zlookup_Some in Hy as [? _]. }
  assert (HgL : gn ∉ Y ++ B ++ O) by (intros Hi; by apply (Hne gn Hi)).
  eapply (wp_insert_generation_after _ Y (B ++ O) gn); cbn [gc set_gc].
  - apply Htab.
  - exact HgL.
  - apply Htab.
  - exact Hgi.
  - exact Hchain.
  - exact (tb_youngest _ _ _ _ _ Htab).
  - done.
  - by eexists.
  - intros t1 Hc1 Hlo. apply wp_bind. unfold start_gc. apply wp_bind, wp_set_gcs, wp_bind, wp_set_gcs, wp_set_gcs.
    apply wp_bind. pose proof (tb_nodup _ _ _ _ _ Htab : NoDup (Y ++ B ++ O)) as Hnd. apply NoDup_app in Hnd as (_ & Hd1 & Hnd).
    pose proof (tb_valid _ _ _ _ _ Htab : INV ∉ Y ++ B ++ O) as Hval. apply not_elem_of_app in Hval as [_ Hval].
    assert (Hent : ∀ i z, i ∈ Y ++ B ++ O → zlookup t1 i = Some z → ∃ z0, zlookup t i = Some z0 ∧ relinked z0 z).
    { intros i z Hi Hz. destruct (table_entry s Y B O Htab i Hi) as (z0 & Hz0).
      destruct (lo_entry _ _ _ Hlo i z0) as (z1 & Hz1 & Hrl); [apply Hold; [done|by apply Hne]|]. rewrite Hz in Hz1. injection Hz1 as <-. by exists z0. }
    eapply (wp_choose_from_generations gn _ _ gn B O b); cbn [gc set_gc generation_info set_to_pn set_to_ptr set_to_end set_youngest_gn set_generation_info to_gn].
    + by exists B'.
    + exact Hnd.
    + intros Hi. apply HgL, elem_of_app. by right.
    + exact Hval.
    + apply chain_app in Hc1 as [_ [_ Hc1]]. exact Hc1.
    + intros i z Hi Hz. destruct (Hent i z) as (z0 & Hz0 & Hrl); [rewrite !elem_of_app; auto|done|].
      destruct (relinked_fields _ _ Hrl) as (-> & _). by eapply (tb_await _ _ _ _ _ Htab).
    + done.
    + destruct (lo_entry _ _ _ Hlo gn _ Hgn0) as (z & Hz & Hrl). exists z. split; [done|].
      destruct (relinked_fields _ _ Hrl) as (_ & _ & _ & _ & _ & -> & _). done.
    + exact Hf3.
    + intros i z Hi Hz. destruct (Hent i z) as (z0 & Hz0 & Hrl); [rewrite !elem_of_app; auto|done|].
      destruct (relinked_fields _ _ Hrl) as (-> & _). destruct (tb_normal _ _ _ _ _ Htab i z0) as [-> _]; [apply elem_of_app; by right|done|done].
    + intros np B1 B2 t2 EB12 HB1 Hlim Hp. apply wp_bind, wp_set_gcs.
      assert (Eb : b = hd_gn INV B1) by (destruct B1 as [|b1 B1]; [done|]; rewrite EB12 in EB; by injection EB).
      rewrite Eb. eapply (HQ k gn t2 B1 B2 EB12 HB1).
      * destruct Hlim as [Hl1 Hl2]. split; [done|]. destruct Hl2 as [|Hl2]; [by left|right].
        rewrite (pages_of_same t1 B1) in Hl2; [done|]. intros g Hg.
        assert (HgB : g ∈ Y ++ B ++ O) by (rewrite EB12, !elem_of_app; auto).
        destruct (table_entry s Y B O Htab g HgB) as (z0 & Hz0).
        destruct (lo_entry _ _ _ Hlo g z0) as (z1 & Hz1 & Hrl); [apply Hold; [done|by apply Hne]|].
        destruct (relinked_fields _ _ Hrl) as (_ & _ & En & _). by exists z0, z1.
      * by eapply start_chosen.
Qed.
End start.
