(* ===== verification/Remember.v ===== *)
(** A step of the mature collection: the cells it collects, and its roots, to which
    the remembered sets belong. *)

From S2P Require Import Prelude Generations Machine Celltypes Shades Root Bitops Cells Pages Genlist Smartptr Io Copy Forward Copying Drain Roots Copied Chain Retire Commit Mature Choose.

#[local] Abbreviation N := NUMBER_OF_WORDS_PER_PAGE.
#[local] Abbreviation INV := INVALID_GENERATION_NUMBER.

(** * Facts about the database *)

Section facts.
Context `{HP : Params} (s : state) (D : layout) (L : list Z) (r : list Z) (Hdb : db s D L r).
#[local] Abbreviation CS := (ly_cells D).
#[local] Abbreviation t := (generation_info (gc s)).

Lemma gen_entry g : g ∈ ly_gens D → ∃ x, zlookup t g = Some x.
Proof. apply chain_lookup with (y := INV) (e := INV). apply (db_table _ _ _ _ Hdb). Qed.

Lemma gen_of_gens x g : gen_of s x = Some g → g ∈ ly_gens D.
Proof.
  rewrite gen_of_iff. intros (pg & Hpg & Ha & <-). by apply (pk_owned _ _ _ (db_paging _ _ _ _ Hdb) _ _ Hpg Ha).
Qed.

Lemma live_gens g : g ∈ ly_live D → g ∈ ly_gens D.
Proof. unfold ly_live, ly_gens. rewrite !elem_of_app. tauto. Qed.

Lemma live_cases g : g ∈ ly_live D ↔ g ∈ ly_new D ++ ly_old D ∨ g ∈ ly_await D.
Proof. unfold ly_live. rewrite !elem_of_app. tauto. Qed.

Lemma gen_status g x : g ∈ ly_live D → zlookup t g = Some x →
  gi_status x = if bool_decide (g ∈ ly_await D) then TO_BE_COLLECTED else NORMAL.
Proof.
  intros Hg Hx. destruct (decide (g ∈ ly_await D)) as [Ha|Ha].
  - rewrite bool_decide_eq_true_2 by done. by eapply (tb_await _ _ _ _ _ (db_table _ _ _ _ Hdb)).
  - rewrite bool_decide_eq_false_2 by done. apply live_cases in Hg as [Hg|]; [|done].
    by apply (tb_normal _ _ _ _ _ (db_table _ _ _ _ Hdb) _ _ Hg Hx).
Qed.

Lemma gen_exists g x : g ∈ ly_gens D → zlookup t g = Some x → ¬ nonexistent x.
Proof.
  intros Hg Hx. unfold nonexistent. destruct (decide (g ∈ ly_being D)) as [Hb|Hb].
  - by rewrite (tb_being _ _ _ _ _ (db_table _ _ _ _ Hdb) _ _ Hb Hx).
  - rewrite (gen_status g x); [by case_bool_decide| |done]. unfold ly_gens, ly_live in *. rewrite !elem_of_app in *. tauto.
Qed.

(** Generations that were collected. *)
Lemma retired_entry g : g ∈ concat (ly_from D <$> ly_gens D) ++ ly_twice D → (g ∉ ly_being D) →
  ∃ x, zlookup t g = Some x ∧ gi_status x = if bool_decide (g ∈ ly_twice D) then COLLECTED_TWICE else COLLECTED_ONCE.
Proof.
  pose proof (db_retired _ _ _ _ Hdb) as [R1 R2 R3 R4 R5 R6]. intros Hg Hb. destruct (decide (g ∈ ly_twice D)) as [Ht|Ht].
  - rewrite bool_decide_eq_true_2 by done. destruct (follows_lookup _ _ _ _ _ R2 Ht) as [x Hx]. exists x. split; [done|]. by apply (R6 g).
  - rewrite bool_decide_eq_false_2 by done. apply elem_of_app in Hg as [Hg|]; [|done].
    assert (Hc : g ∈ concat (ly_from D <$> ly_gens D)) by done.
    apply list_elem_of_In, in_concat in Hg as (l & Hl & Hin). apply list_elem_of_In, list_elem_of_fmap in Hl as (g' & -> & Hg').
    destruct (gen_entry g' Hg') as [x' Hx']. apply list_elem_of_In in Hin.
    destruct (follows_lookup _ _ _ _ _ (R1 g' x' Hg' Hx') Hin) as [x Hx]. exists x. split; [done|]. by apply (R5 g).
Qed.

Lemma filed_entry g : ly_being D = [] → g ∈ ly_filed D → ∃ x, zlookup t g = Some x ∧ ¬ nonexistent x.
Proof.
  intros EC [Hg|Hg]%elem_of_app.
  - apply live_gens in Hg. destruct (gen_entry g Hg) as [x Hx]. exists x. split; [done|]. by eapply gen_exists.
  - destruct (retired_entry g Hg) as (x & Hx & E); [rewrite EC; apply not_elem_of_nil|]. exists x. split; [done|].
    unfold nonexistent. rewrite E. by case_bool_decide.
Qed.

Lemma retired_not_gen g : g ∈ concat (ly_from D <$> ly_gens D) ++ ly_twice D → (g ∉ ly_being D) → g ∉ ly_gens D.
Proof.
  intros Hg Hb Hin. destruct (retired_entry g Hg Hb) as (x & Hx & E).
  assert (Hl : g ∈ ly_live D) by (unfold ly_gens, ly_live in *; rewrite !elem_of_app in *; tauto).
  rewrite (gen_status g x Hl Hx) in E. by do 2 case_bool_decide.
Qed.

(** A page that a pointer leads to is below the first generation. *)
Lemma gen_of_low x g : gen_of s x = Some g → 0 ≤ PTR_TO_PAGE_NUMBER x ∧
  PAGE_SIZE * (PTR_TO_PAGE_NUMBER x + 1) ≤ first_generation_end s ∧ x < first_generation_end s.
Proof.
  rewrite gen_of_iff. intros (pg & [Hr _]%zlookup_Some & _). pose proof (bd_pages _ (db_bounds _ _ _ _ Hdb)) as Hp.
  assert (Hin : in_page (PTR_TO_PAGE_NUMBER x) x) by by apply in_page_iff. unfold in_page in Hin.
  change PAGE_SIZE with 65536 in *. lia.
Qed.

Lemma cell_gen p ws : CS !! p = Some ws → ∃ g, gen_of s p = Some g ∧ g ∈ ly_live D.
Proof. intros Hp. apply (oc_gen _ _ _ _ _ (ck_cell _ _ _ (db_cells _ _ _ _ Hdb) _ _ Hp)). Qed.

Lemma cell_bounds p ws : CS !! p = Some ws → 0 < p ∧ p + 4 * Z.of_nat (length ws) ≤ first_generation_end s.
Proof.
  intros Hp. destruct (cell_gen p ws Hp) as (g & Hg & _). destruct (gen_of_low _ _ Hg) as (H0 & H1 & _).
  pose proof (oc_place _ _ _ _ _ (ck_cell _ _ _ (db_cells _ _ _ _ Hdb) _ _ Hp)). change PAGE_SIZE with 65536 in *. lia.
Qed.

(** An address in a cell is on the cell's page. *)
Lemma cell_page p ws a : CS !! p = Some ws → p ≤ a < p + 4 * Z.of_nat (length ws) → PTR_TO_PAGE_NUMBER a = PTR_TO_PAGE_NUMBER p.
Proof.
  intros Hp Ha. apply in_page_iff. pose proof (oc_place _ _ _ _ _ (ck_cell _ _ _ (db_cells _ _ _ _ Hdb) _ _ Hp)). unfold in_page. lia.
Qed.

Lemma cell_not_free p ws a pn : CS !! p = Some ws → p ≤ a < p + 4 * Z.of_nat (length ws) → pn ∈ ly_free D → ¬ in_page pn a.
Proof.
  intros Hp Ha Hin Hpa. apply in_page_iff in Hpa. rewrite (cell_page _ _ _ Hp Ha) in Hpa.
  destruct (cell_gen p ws Hp) as (g & Hg & _). apply gen_of_iff in Hg as (pg & Hpg & Hal & _).
  destruct (pool_page _ _ _ (pk_pool _ _ _ (db_paging _ _ _ _ Hdb)) Hin) as (_ & pg' & Hpg' & Hal'). rewrite Hpa in Hpg. congruence.
Qed.

(** The words of several generations. *)
Lemma words_of_gens C : NoDup C → (∀ g, g ∈ C → g ∈ ly_live D) → total_words (cells_of s CS C) ≤ pages_of t C * (N - 2).
Proof.
  induction C as [|g C IH]; intros Hnd Hin.
  - assert (cells_of s CS [] = ∅) as ->; [|done]. apply map_empty. intros p. apply eq_None_not_Some. intros [ws Hp].
    apply cells_of_Some in Hp as (_ & g & _ & ?%not_elem_of_nil). done.
  - apply NoDup_cons in Hnd as [Hni Hnd]. change (g :: C) with ([g] ++ C). rewrite cells_of_app.
    2: { by intros g' ->%list_elem_of_singleton. }
    specialize (IH Hnd ltac:(intros g' Hg'; apply Hin; by right)). simpl.
    destruct (gen_entry g (live_gens g (Hin g ltac:(by left)))) as (x & Hx). rewrite Hx.
    pose proof (proj2 (ck_words _ _ _ (db_cells _ _ _ _ Hdb) g x (Hin g ltac:(by left)) Hx)). lia.
Qed.

(** What is collected at once fits on the copy stack. *)
Lemma words_within_limits C : C ≠ [] → NoDup C → (∀ g, g ∈ C → g ∈ ly_live D) → within_limits t C →
  total_words (cells_of s CS C) ≤ words_of_first s.
Proof.
  intros HC Hnd Hin [_ [Hl|Hl]].
  - destruct C as [|g [|]]; [done| |done]. destruct (gen_entry g (live_gens g (Hin g ltac:(by left)))) as (x & Hx).
    by eapply (ck_words _ _ _ (db_cells _ _ _ _ Hdb)); [apply Hin; left|].
  - pose proof (words_of_gens C Hnd Hin). pose proof (bd_limit _ (db_bounds _ _ _ _ Hdb)) as Hlim. unfold words_of_first.
    change PAGE_SIZE with 65536 in *. change N with 16384 in *. pose proof (total_words_nonneg (cells_of s CS C)). zdiv.
Qed.
End facts.

(** * What a step collects *)

Section step.
Context `{HP : Params} (s : state) (D : layout) (L : list Z) (r : list Z) (Hdb : db s D L r).
#[local] Abbreviation CS := (ly_cells D).
#[local] Abbreviation Y := (ly_new D).
#[local] Abbreviation O := (ly_old D).
#[local] Abbreviation t := (generation_info (gc s)).
Context (EC : ly_being D = []) (B1 B2 : list Z) (EB : ly_await D = B1 ++ B2) (HB1 : B1 ≠ []) (Hlim : within_limits t B1).
Context (k : nat) (gn y : Z) (t1 : list generation_info_t) (Hch : chosen (gc s) Y B1 B2 O k gn t1).

(** The state when scanning starts, and the cells to be collected. *)
Definition step_state : state := set_gc (step_gc k gn y t1 (gc s)) s.
#[local] Abbreviation s1 := step_state.
Definition step_cells : gmap Z (list Z) := cells_of s CS B1.
#[local] Abbreviation F := step_cells.

Lemma step_gens : ly_gens D = Y ++ B1 ++ B2 ++ O.
Proof. unfold ly_gens. by rewrite EB, EC, <- app_assoc. Qed.

Lemma step_live : ly_live D = ly_gens D.
Proof. unfold ly_live, ly_gens. by rewrite EC. Qed.

Lemma step_nodup : NoDup (Y ++ B1 ++ B2 ++ O).
Proof. rewrite <- step_gens. apply (db_table _ _ _ _ Hdb). Qed.

Lemma step_from_gen g : g ∈ B1 → g ∈ ly_gens D.
Proof. intros Hg. rewrite step_gens, !elem_of_app. auto. Qed.

Lemma step_split g : g ∈ ly_gens D → g ∈ B1 ∨ (g ∉ B1) ∧ g ∈ Y ++ B2 ++ O.
Proof. intros Hg. destruct (decide (g ∈ B1)); [by left|right]. split; [done|]. rewrite step_gens, !elem_of_app in Hg. rewrite !elem_of_app. tauto. Qed.

Lemma step_disjoint g : g ∈ B1 → g ∉ Y ++ B2 ++ O.
Proof.
  pose proof step_nodup as (_ & Hd1 & (_ & Hd2 & _)%NoDup_app)%NoDup_app. intros Hg [HY|HO]%elem_of_app.
  - apply (Hd1 g HY), elem_of_app. by left.
  - by apply (Hd2 g Hg).
Qed.

Lemma step_gen_of x : gen_of s1 x = gen_of s x.
Proof. done. Qed.

(** The statuses. *)
Lemma step_being g : g ∈ B1 → status_of s1 g BEING_COLLECTED.
Proof.
  intros Hg. destruct (gen_entry _ _ _ _ Hdb g (step_from_gen g Hg)) as (x & Hx).
  destruct (ch_from _ _ _ _ _ _ _ _ Hch g x Hg Hx) as (v & x' & Hx' & _). eexists. split; [exact Hx'|done].
Qed.

Lemma step_status g : g ∈ Y ++ B2 ++ O → status_of s1 g (if bool_decide (g ∈ B2) then TO_BE_COLLECTED else NORMAL).
Proof.
  intros Hg. assert (HgL : g ∈ ly_gens D) by (rewrite step_gens, !elem_of_app; rewrite !elem_of_app in Hg; tauto).
  destruct (gen_entry _ _ _ _ Hdb g HgL) as (x & Hx).
  destruct (ch_linked _ _ _ _ _ _ _ _ Hch g x Hg Hx) as (x' & Hx' & (Est & _)%relinked_fields).
  exists x'. split; [exact Hx'|]. assert (HgV : g ∈ ly_live D) by by rewrite step_live. rewrite Est, (gen_status _ _ _ _ Hdb g x HgV Hx), EB.
  assert (Hiff : g ∈ B1 ++ B2 ↔ g ∈ B2).
  { rewrite elem_of_app. split; [|by right]. intros [Hin|]; [|done]. by destruct (step_disjoint g Hin). }
  by rewrite (bool_decide_ext _ _ Hiff).
Qed.

Lemma step_kept x g : gen_of s x = Some g → g ∈ Y ++ B2 ++ O → kept s1 x g (if bool_decide (g ∈ B2) then TO_BE_COLLECTED else NORMAL).
Proof.
  intros Hx Hg. split; [apply (gen_of_low _ _ _ _ Hdb _ _ Hx)|]. split; [by apply gen_of_iff|]. split; [by apply step_status|].
  case_bool_decide; auto.
Qed.

Lemma step_kept_inv x g : kept s1 x g TO_BE_COLLECTED → gen_of s x = Some g ∧ g ∈ B2.
Proof.
  intros (_ & Hg%gen_of_iff & (gi & Hgi & Est) & _). rewrite step_gen_of in Hg. split; [done|].
  destruct (step_split g (gen_of_gens _ _ _ _ Hdb x g Hg)) as [Hin|[_ Hin]].
  - destruct (step_being g Hin) as (gi' & Hgi' & Est'). congruence.
  - destruct (step_status g Hin) as (gi' & Hgi' & Est'). case_bool_decide; congruence.
Qed.

Lemma step_from_Some p ws : F !! p = Some ws ↔ CS !! p = Some ws ∧ ∃ g, gen_of s p = Some g ∧ g ∈ B1.
Proof. apply cells_of_Some. Qed.

(** Pointers to the cells of the generations. *)
Lemma step_target x : is_Some (CS !! x) → target s1 F x.
Proof.
  intros [ws Hx]. destruct (cell_gen _ _ _ _ Hdb x ws Hx) as (g & Hg & Hin%live_gens). destruct (step_split g Hin) as [Hb|[_ Hb]].
  - left. exists ws. apply step_from_Some. eauto.
  - right. eexists g, _. by apply step_kept.
Qed.

Lemma step_from_cell p ws : F !! p = Some ws → from_cell s1 F p ws.
Proof.
  intros [Hp (g & Hg & Hin)]%step_from_Some. pose proof (ck_cell _ _ _ (db_cells _ _ _ _ Hdb) _ _ Hp) as [C1 C2 C3 C4 C5 C6 C7].
  destruct (cell_bounds _ _ _ _ Hdb p ws Hp) as [H0 Hend]. pose proof (wf_ap _ (bd_wf _ (db_bounds _ _ _ _ Hdb))) as Hap.
  split; try done.
  - cbn [step_state set_gc first_generation_start]. lia.
  - right. exists g. split; [by apply gen_of_iff|]. split; [by apply step_being|]. split; [|done].
    unfold in_page. lia.
  - intros i x Hr Hx. apply step_target, (C7 i x Hr Hx).
Qed.

Lemma step_collectable : 2 * total_words F ≤ Z.of_nat (length (ly_free D)) * (N - 2) → collectable s1 F gn (ly_free D).
Proof.
  intros Hroom. pose proof (db_bounds _ _ _ _ Hdb) as [Hwf Hpages Htop Hrec _ _]. split.
  - cbn [step_state set_gc gc page_info first_generation_end first_generation_start first_generation_allocation_ptr].
    pose proof (wf_ap _ Hwf). pose proof (wf_end _ Hwf). split_and!; [exact Hpages|lia|lia|done].
  - exact Hrec.
  - eapply pool_frame; [apply (pk_pool _ _ _ (db_paging _ _ _ _ Hdb))|done..].
  - done.
  - destruct (ch_new _ _ _ _ _ _ _ _ Hch) as (x & Hx & E1 & E2 & E3 & E4 & E5 & _). by exists x.
  - apply step_from_cell.
  - intros p1 ws1 p2 ws2 [H1 _]%step_from_Some [H2 _]%step_from_Some. by apply (ck_sep _ _ _ (db_cells _ _ _ _ Hdb)).
  - eapply (words_within_limits _ _ _ _ Hdb); [done| |intros g Hg; rewrite step_live; by apply step_from_gen|done].
    by pose proof step_nodup as (_ & _ & (Hnd & _)%NoDup_app)%NoDup_app.
  - exact Hroom.
Qed.

(** ** The roots *)

(** What the pointers outside may refer to. *)
Definition step_seen (x : Z) : Prop := target s1 F x ∨ first_generation_allocation_ptr s ≤ x.

Lemma step_cell_seen x : cell_in D x → step_seen x.
Proof.
  intros [Hx|[ws Hx]]; [left; by apply step_target|right]. apply (yc_place _ _ _ _ _ _ (yk_cell _ _ _ _ (db_young _ _ _ _ Hdb) _ _ Hx)).
Qed.

Lemma step_roots_ok : roots_ok s1 step_seen (ly_smart D).
Proof.
  destruct (db_roots _ _ _ _ Hdb) as [R1 R2 R3 R4]. split; try done. intros pp x Hpp Hx.
  assert (Hpp' : root_loc s (ly_smart D).*1 pp) by by destruct pp.
  destruct (R4 pp x Hpp') as [|Hc]; [by destruct pp|by left|right]. by apply step_cell_seen.
Qed.

(** The addresses in the remembered sets. *)
Definition rem_addrs (C : list Z) : list Z :=
  concat ((λ g, match zlookup t g with Some x => concat (gi_rem_set x) | None => [] end) <$> C).

Lemma rem_addrs_app C C' : rem_addrs (C ++ C') = rem_addrs C ++ rem_addrs C'.
Proof. unfold rem_addrs. by rewrite fmap_app, concat_app. Qed.

Lemma rem_addrs_in C a : (∀ g, g ∈ C → g ∈ ly_await D) →
  a ∈ rem_addrs C ↔ ∃ g, g ∈ C ∧ referrer s Y CS g a.
Proof.
  intros HC. unfold rem_addrs. rewrite list_elem_of_In, in_concat. split.
  - intros (l & Hl & Ha). apply list_elem_of_In, list_elem_of_fmap in Hl as (g & -> & Hg). exists g. split; [done|].
    destruct (zlookup t g) as [x|] eqn:Hx; [|done]. apply (db_rems _ _ _ _ Hdb g x (HC g Hg) Hx). by apply list_elem_of_In.
  - intros (g & Hg & Hr). destruct (gen_entry _ _ _ _ Hdb g) as (x & Hx); [apply live_gens, live_cases; right; by apply HC|].
    exists (concat (gi_rem_set x)). split; [|apply list_elem_of_In; by apply (db_rems _ _ _ _ Hdb g x (HC g Hg) Hx)].
    apply list_elem_of_In, list_elem_of_fmap. exists g. by rewrite Hx.
Qed.

(** A word of a cell belongs to one cell. *)
Lemma same_word p1 ws1 i1 p2 ws2 i2 x1 x2 : CS !! p1 = Some ws1 → CS !! p2 = Some ws2 → ws1 !! i1 = Some x1 → ws2 !! i2 = Some x2 →
  p1 + 4 * Z.of_nat i1 = p2 + 4 * Z.of_nat i2 → p1 = p2 ∧ ws1 = ws2 ∧ i1 = i2 ∧ x1 = x2.
Proof.
  intros H1 H2 Hx1 Hx2 E. pose proof (lookup_lt_Some _ _ _ Hx1). pose proof (lookup_lt_Some _ _ _ Hx2).
  destruct (decide (p1 = p2)) as [<-|Hne].
  - rewrite H1 in H2. injection H2 as <-. assert (i1 = i2) as <- by lia. rewrite Hx1 in Hx2. by injection Hx2 as <-.
  - pose proof (ck_sep _ _ _ (db_cells _ _ _ _ Hdb) _ _ _ _ H1 H2 Hne) as Hd. unfold disj in Hd. simpl in Hd. lia.
Qed.

Lemma referrer_gen g1 g2 a : referrer s Y CS g1 a → referrer s Y CS g2 a → g1 = g2.
Proof.
  intros (p1 & ws1 & i1 & y1 & H1 & _ & Hy1 & E1 & _ & G1) (p2 & ws2 & i2 & y2 & H2 & _ & Hy2 & E2 & _ & G2).
  destruct (same_word _ _ _ _ _ _ _ _ H1 H2 Hy1 Hy2 ltac:(congruence)) as (_ & _ & _ & ->). congruence.
Qed.

Lemma rem_addrs_nodup C : NoDup C → (∀ g, g ∈ C → g ∈ ly_await D) → NoDup (rem_addrs C).
Proof.
  induction C as [|g C IH]; intros Hnd HC; [apply NoDup_nil_2|]. apply NoDup_cons in Hnd as [Hni Hnd].
  assert (HC' : ∀ g', g' ∈ C → g' ∈ ly_await D) by (intros g' Hg'; apply HC; by right).
  change (g :: C) with ([g] ++ C). rewrite rem_addrs_app. apply NoDup_app. split; [|split; [|by apply IH]].
  - unfold rem_addrs. cbn [fmap list_fmap concat]. rewrite app_nil_r. destruct (zlookup t g) as [x|] eqn:Hx; [|apply NoDup_nil_2].
    apply (db_rems _ _ _ _ Hdb g x); [apply HC; by left|done].
  - intros a Ha Ha'. apply rem_addrs_in in Ha as (g1 & Hg1 & R1); [|by intros g1 ->%list_elem_of_singleton; apply HC; left].
    apply rem_addrs_in in Ha' as (g2 & Hg2 & R2); [|done]. apply list_elem_of_singleton in Hg1 as ->.
    by rewrite (referrer_gen _ _ _ R1 R2) in Hni.
Qed.

(** All the variables that are scanned. *)
Definition step_loc (pp : location) : Prop :=
  root_loc s1 (ly_smart D).*1 pp ∨ ∃ a, pp = Image a ∧ a ∈ rem_addrs B1.

Lemma step_await g : g ∈ B1 → g ∈ ly_await D.
Proof. intros Hg. rewrite EB. apply elem_of_app. by left. Qed.

(** An address in the remembered sets: the pointer is in a younger generation and
    leads to a cell that is collected. *)
Lemma rem_addr a : a ∈ rem_addrs B1 → ∃ p ws i x, CS !! p = Some ws ∧ F !! p = None ∧ ref_at ws i = true ∧ ws !! i = Some x ∧
  a = p + 4 * Z.of_nat i ∧ mem s !! a = Some x ∧ is_Some (F !! x).
Proof.
  intros (g & Hg & (p & ws & i & x & Hp & Hr & Hx & -> & Hin & Hgx))%rem_addrs_in; [|exact step_await].
  pose proof (ck_cell _ _ _ (db_cells _ _ _ _ Hdb) _ _ Hp) as Hc. exists p, ws, i, x. split; [done|]. split.
  - apply eq_None_not_Some. intros [ws' (_ & g' & Hg' & Hin')%step_from_Some]. rewrite in_gens_iff in Hin. destruct Hin as (g2 & Hg2 & Hin2).
    rewrite Hg' in Hg2. injection Hg2 as ->. apply (step_disjoint g2 Hin'), elem_of_app. by left.
  - split; [done|]. split; [done|]. split; [done|]. split; [by apply (oc_words _ _ _ _ _ Hc)|].
    destruct (oc_refs _ _ _ _ _ Hc i x Hr Hx) as [[wx Hwx] _]. exists wx. apply step_from_Some. split; [exact Hwx|exists g; split; [exact Hgx|exact Hg]].
Qed.

Lemma step_loc_outside pp : step_loc pp → outside F (ly_free D) pp.
Proof.
  intros [Hpp|(a & -> & (p & ws & i & x & Hp & Hnf & _ & Hx & -> & _)%rem_addr)]; [by eapply root_loc_outside|].
  pose proof (lookup_lt_Some _ _ _ Hx). destruct (cell_bounds _ _ _ _ Hdb p ws Hp) as [H0 _]. split; [unfold NULL_PTR; lia|]. split.
  - intros pn Hin. eapply (cell_not_free _ _ _ _ Hdb); [exact Hp|lia|done].
  - intros p' ws' HF Ha. pose proof HF as [Hp' _]%step_from_Some. assert (Hne : p' ≠ p) by (intros ->; congruence).
    pose proof (ck_sep _ _ _ (db_cells _ _ _ _ Hdb) _ _ _ _ Hp' Hp Hne) as Hd. unfold disj in Hd. simpl in Hd. lia.
Qed.
End step.

(** * Remembered sets that were scanned *)

(** The remembered set of [g] is emptied. *)
Definition forget (g : Z) (s : state) : state :=
  match zlookup (generation_info (gc s)) g with
  | Some x => set_gc (set_generation_info (zinsert g (with_rem_set [] x) (generation_info (gc s))) (gc s)) s
  | None => s
  end.
Definition forgets (C : list Z) (s : state) : state := foldl (λ s g, forget g s) s C.

Lemma forgets_snoc C g s : forgets (C ++ [g]) s = forget g (forgets C s).
Proof. unfold forgets. by rewrite foldl_app. Qed.

Lemma forget_eq g s : ∃ t', forget g s = set_gc (set_generation_info t' (gc s)) s ∧ length t' = length (generation_info (gc s)) ∧
  (∀ i x, zlookup (generation_info (gc s)) i = Some x → zlookup t' i = Some (if bool_decide (i = g) then with_rem_set [] x else x)).
Proof.
  unfold forget. destruct (zlookup _ g) as [x|] eqn:Hx.
  - eexists. split; [done|]. split; [apply length_zinsert|]. intros i z Hz. apply zlookup_Some in Hx as Hr. destruct Hr as [Hr _].
    destruct (decide (i = g)) as [->|Hne].
    + rewrite zlookup_insert by done. rewrite bool_decide_eq_true_2 by done. rewrite Hx in Hz. by injection Hz as ->.
    + rewrite zlookup_insert_ne by (done || lia). by rewrite bool_decide_eq_false_2.
  - exists (generation_info (gc s)). split; [by destruct s as [? ? ? ? ? ? ? ? []]|]. split; [done|].
    intros i z Hz. rewrite bool_decide_eq_false_2; [done|]. intros ->. congruence.
Qed.

(** States that differ in remembered sets. *)
Record but_rems (s s' : state) : Prop := {
  br_table : ∃ t', s' = set_gc (set_generation_info t' (gc s)) s ∧ length t' = length (generation_info (gc s)) ∧
    ∀ i x, zlookup (generation_info (gc s)) i = Some x → ∃ r, zlookup t' i = Some (with_rem_set r x)
}.

Lemma with_rem_set_same x : with_rem_set (gi_rem_set x) x = x.
Proof. by destruct x. Qed.

Lemma but_rems_forget g s : but_rems s (forget g s).
Proof.
  split. destruct (forget_eq g s) as (t' & E & El & Ht). exists t'. split; [done|]. split; [done|].
  intros i x Hx. rewrite (Ht i x Hx). case_bool_decide; [by eexists|]. exists (gi_rem_set x). by rewrite with_rem_set_same.
Qed.

Lemma but_rems_trans s1 s2 s3 : but_rems s1 s2 → but_rems s2 s3 → but_rems s1 s3.
Proof.
  intros [(t2 & -> & L2 & H2)] [(t3 & -> & L3 & H3)]. split. exists t3. split; [done|].
  cbn [gc set_gc generation_info set_generation_info] in *. split; [congruence|].
  intros i x (r2 & Hx2)%H2. destruct (H3 i _ Hx2) as (r3 & Hx3). exists r3. by rewrite Hx3.
Qed.

Lemma but_rems_forgets C s : but_rems s (forgets C s).
Proof.
  induction C as [|g C IH] using rev_ind.
  - split. exists (generation_info (gc s)). split; [by destruct s as [? ? ? ? ? ? ? ? []]|]. split; [done|].
    intros i x Hx. exists (gi_rem_set x). by rewrite with_rem_set_same.
  - rewrite forgets_snoc. eapply but_rems_trans; [exact IH|apply but_rems_forget].
Qed.

Lemma forgets_entry C s g x : zlookup (generation_info (gc s)) g = Some x →
  zlookup (generation_info (gc (forgets C s))) g = Some (if bool_decide (g ∈ C) then with_rem_set [] x else x).
Proof.
  intros Hx. induction C as [|g' C IH] using rev_ind.
  - rewrite bool_decide_eq_false_2 by apply not_elem_of_nil. exact Hx.
  - rewrite forgets_snoc. destruct (forget_eq g' (forgets C s)) as (t' & -> & _ & Ht). cbn [gc set_gc generation_info set_generation_info].
    rewrite (Ht g _ IH). destruct (decide (g = g')) as [->|Hne].
    + rewrite (bool_decide_eq_true_2 (g' = g')) by done. rewrite (bool_decide_eq_true_2 (g' ∈ C ++ [g'])) by (apply elem_of_app; right; by left).
      by case_bool_decide.
    + rewrite (bool_decide_eq_false_2 (g = g')) by done. assert (Hiff : g ∈ C ++ [g'] ↔ g ∈ C).
      { rewrite elem_of_app, list_elem_of_singleton. tauto. }
      by rewrite (bool_decide_ext _ _ Hiff).
Qed.

Section but_rems.
Context (s s' : state) (Hb : but_rems s s').

Lemma br_status g st : status_of s' g st ↔ status_of s g st.
Proof.
  destruct Hb as [(t' & -> & Hl & Ht)]. split.
  - intros (x' & Hx' & <-). cbn [gc set_gc generation_info set_generation_info] in Hx'. apply zlookup_Some in Hx' as Hr. destruct Hr as [Hr _].
    rewrite Hl in Hr. destruct (zlookup_lt _ _ Hr) as [x Hx]. destruct (Ht g x Hx) as (r & E). rewrite Hx' in E. injection E as ->. by exists x.
  - intros (x & Hx & <-). destruct (Ht g x Hx) as (r & E). by exists (with_rem_set r x).
Qed.

Lemma br_generation x g : generation_of s' x g ↔ generation_of s x g.
Proof. by destruct Hb as [(t' & -> & _)]. Qed.

Lemma br_kept x g st : kept s' x g st ↔ kept s x g st.
Proof. unfold kept. rewrite br_generation, br_status. by destruct Hb as [(t' & -> & _)]. Qed.

Lemma br_target F x : target s' F x ↔ target s F x.
Proof. unfold target. by setoid_rewrite br_kept. Qed.

Lemma br_from_cell F p ws : from_cell s F p ws → from_cell s' F p ws.
Proof.
  intros [C1 C2 C3 C4 C5 C6 C7 C8]. split; try done.
  - by destruct Hb as [(t' & -> & _)].
  - by destruct Hb as [(t' & -> & _)].
  - destruct C7 as [C7|(g & Hg & Hst & Hin)].
    + left. by destruct Hb as [(t' & -> & _)].
    + right. exists g. rewrite br_generation, br_status. split; [done|]. split; [done|]. by destruct Hb as [(t' & -> & _)].
  - intros i x Hr Hx. apply br_target. by eapply C8.
Qed.

Lemma br_collectable F gn free : collectable s F gn free → collectable s' F gn free.
Proof.
  intros [C1 C2 C3 C4 C5 C6 C7 C8 C9]. destruct Hb as [(t' & Es & Hl & Ht)]. split; try (rewrite Es; done).
  - rewrite Es. eapply pool_frame; [exact C3|done..].
  - destruct C5 as (x & Hx & E1 & E2). destruct (Ht gn x Hx) as (r & E). exists (with_rem_set r x). rewrite Es. done.
  - intros p ws Hp. apply br_from_cell. by apply C6.
  - exact C7.
  - exact C9.
Qed.

Lemma br_gens_ok : gens_ok (gc s) → gens_ok (gc s').
Proof.
  intros Hg. destruct Hb as [(t' & -> & Hl & Ht)]. eapply gens_ok_same; [exact Hg|exact Hl|done|done|].
  intros i x Hx. destruct (Ht i x Hx) as (r & E). by exists (with_rem_set r x).
Qed.

Lemma br_youngest : youngest_gn (gc s') = youngest_gn (gc s).
Proof. by destruct Hb as [(t' & -> & _)]. Qed.

Lemma br_twice : generations_collected_twice (gc s') = generations_collected_twice (gc s).
Proof. by destruct Hb as [(t' & -> & _)]. Qed.

Lemma br_root_loc sps pp : root_loc s' sps pp ↔ root_loc s sps pp.
Proof. destruct Hb as [(t' & -> & _)]. by destruct pp. Qed.

Lemma br_loc_get pp : loc_get pp s' = loc_get pp s.
Proof. destruct Hb as [(t' & -> & _)]. by destruct pp. Qed.

Lemma br_roots_ok seen l : roots_ok s seen l → roots_ok s' seen l.
Proof.
  intros [R1 R2 R3 R4]. split.
  - by destruct Hb as [(t' & -> & _)].
  - by destruct Hb as [(t' & -> & _)].
  - by destruct Hb as [(t' & -> & _)].
  - intros pp x Hpp Hx. rewrite br_loc_get in Hx. rewrite br_root_loc in Hpp. by eapply R4.
Qed.

Lemma br_io : io (gc s') = io (gc s).
Proof. by destruct Hb as [(t' & -> & _)]. Qed.
End but_rems.

Lemma forgets_gc C s : ∃ t', forgets C s = set_gc (set_generation_info t' (gc s)) s.
Proof. destruct (but_rems_forgets C s) as [(t' & -> & _)]. by exists t'. Qed.

Lemma scanning_forget s0 F gn free roots D s g x : scanning s0 F gn free roots D s →
  zlookup (generation_info (gc s0)) g = Some x → gi_status x = BEING_COLLECTED → g ≠ gn →
  scanning (forget g s0) F gn free roots D (forget g s).
Proof.
  intros (m & φ & R & T & Hm & Hpat & Hi & Etp & Ete & Hsc) Hx Hst Hg.
  pose proof (but_rems_forget g s0) as Hb0. pose proof (but_rems_forget g s) as Hb.
  destruct (forget_eq g s0) as (t0 & E0 & L0 & T0). destruct (forget_eq g s) as (t1 & E1 & L1 & T1).
  assert (Hbase : but_rems (base s0 m) (base (forget g s0) m)).
  { destruct Hb0 as [(t' & -> & Hl & Ht)]. split. by exists t'. }
  exists m, φ, R, T. rewrite E1. split; [intros a Ha; rewrite E0; by apply Hm|]. split; [by rewrite E0|].
  destruct Hi as [Hcl Hpg Hr Hf]. split; [split|split; [done|split; [done|]]].
  - destruct Hcl. by split.
  - destruct Hpg as [P1 P2 P3 P4 P5 P6 P7 P8 P9 P10]. split; try done; [|by rewrite E0|].
    + eapply pool_frame; [exact P2|done..].
    + destruct P9 as (y & Hy & Ey). exists y. rewrite E0. cbn [base set_mem gc set_gc generation_info set_generation_info] in *.
      rewrite (T0 gn y Hy), (T1 gn _ Ey). by rewrite !bool_decide_eq_false_2.
  - intros i z Hz Hne. assert (Hz0 : ∃ z0, zlookup (generation_info (gc s0)) i = Some z0).
    { apply zlookup_Some in Hz as [Hr' _]. apply zlookup_lt. rewrite E0 in Hr'. cbn in Hr'. lia. }
    destruct Hz0 as [z0 Hz0]. rewrite E0 in Hz. cbn [base set_mem gc set_gc generation_info set_generation_info] in Hz.
    rewrite (T0 i z0 Hz0) in Hz. injection Hz as <-. destruct (Hr i z0 Hz0 Hne) as (rs & ad & Er & Ead & Hnd & Hmem).
    cbn [set_gc gc generation_info set_generation_info]. rewrite (T1 i _ Er).
    assert (Hiff : ∀ a, remembered (base (forget g s0) m) F φ (copy_stack (gc s)) i a ↔ remembered (base s0 m) F φ (copy_stack (gc s)) i a).
    { intros a. unfold remembered. by setoid_rewrite (br_kept _ _ Hbase). }
    destruct (decide (i = g)) as [->|Hig].
    + rewrite !bool_decide_eq_true_2 by done. exists [], []. split; [by destruct z0|]. split; [done|]. split; [apply NoDup_nil_2|].
      intros a. rewrite Hiff. split; [by intros ?%not_elem_of_nil|]. intros (? & ? & ? & ? & ? & _ & _ & _ & _ & _ & _ & (_ & _ & (z & Hz & E) & _)).
      cbn [base set_mem gc] in Hz. congruence.
    + rewrite !bool_decide_eq_false_2 by done. exists rs, ad. split; [done|]. split; [done|]. split; [done|]. intros a. by rewrite Hiff.
  - destruct Hf as [F1 F2 F3 F4 F5 F6 F7 F8 F9 F10 F11 F12 F13].
    split; rewrite ?E0; try done. cbn [base set_mem gc set_gc generation_info set_generation_info] in *. lia.
  - destruct Hsc as [Hv Hl]. rewrite E0. split; [exact Hv|]. intros pp z Hpp Hz. exact (Hl pp z Hpp Hz).
Qed.

(** * Scanning *)

Section scan.
Context `{HP : Params} (s : state) (D : layout) (L : list Z) (r : list Z) (Hdb : db s D L r).
#[local] Abbreviation CS := (ly_cells D).
#[local] Abbreviation Y := (ly_new D).
#[local] Abbreviation O := (ly_old D).
#[local] Abbreviation t := (generation_info (gc s)).
Context (EC : ly_being D = []) (B1 B2 : list Z) (EB : ly_await D = B1 ++ B2).
Context (k : nat) (gn y : Z) (t1 : list generation_info_t) (Hch : chosen (gc s) Y B1 B2 O k gn t1).
#[local] Abbreviation s1 := (step_state s k gn y t1).
#[local] Abbreviation F := (step_cells s D B1).
#[local] Abbreviation free := (ly_free D).
#[local] Abbreviation rl := (step_loc s D B1 k gn y t1).
Context (Hc : collectable s1 F gn free).

Lemma step_from_low p ws : F !! p = Some ws → p < first_generation_end s.
Proof.
  intros [Hp _]%step_from_Some. destruct (cell_bounds _ _ _ _ Hdb p ws Hp) as [_ He].
  pose proof (oc_length _ _ _ _ _ (ck_cell _ _ _ (db_cells _ _ _ _ Hdb) _ _ Hp)). lia.
Qed.

(** The recognition of cells that are collected. *)
Lemma wp_is_being_collected s' m roots sl φ R pend T s2 x (Q : bool → state → Prop) :
  but_rems s1 s' → same_inside s' F free m → gc_inv (base s' m) F gn free roots sl φ R pend T s2 →
  step_seen s D B1 k gn y t1 x ∨ (∃ p, φ !! p = Some x) → Q (bool_decide (is_Some (F !! x))) s2 → wp (is_being_collected x) Q s2.
Proof.
  intros Hb Hm Hi Hx HQ. pose proof (br_collectable _ _ Hb _ _ _ Hc) as Hc'. pose proof (base_collectable _ _ _ _ Hc' _ Hm) as Hcm.
  assert (Ee : first_generation_end s' = first_generation_end s ∧ first_generation_allocation_ptr s' = first_generation_allocation_ptr s).
  { by destruct Hb as [(t' & -> & _)]. }
  destruct Ee as [Ee Ea]. pose proof (wf_ap _ (bd_wf _ (db_bounds _ _ _ _ Hdb))) as Hap.
  assert (Hold : ∀ g st, x < first_generation_end s → generation_of s2 x g → status_of s2 g st →
    (st = BEING_COLLECTED ↔ is_Some (F !! x)) → wp (is_being_collected x) Q s2).
  { intros g st Hlo (pg & Hpg & _ & <-) (gi & Hgi & <-) Hiff. unfold is_being_collected. apply wp_bind.
    eapply wp_young; [exact Hi|left; cbn [base set_mem first_generation_end]; lia|]. cbn [base set_mem first_generation_allocation_ptr].
    rewrite bool_decide_eq_false_2 by lia. apply wp_bind, wp_bind. eapply wp_get_page; [exact Hpg|]. apply wp_ret.
    apply wp_bind. eapply wp_get_gen; [exact Hgi|]. apply wp_ret. by rewrite (bool_decide_ext _ _ Hiff). }
  assert (Htr : ∀ g st, generation_of s1 x g → status_of s1 g st → generation_of s2 x g ∧ status_of s2 g st).
  { intros g st Hg Hst. split.
    - eapply generation_same; [exact Hcm|exact Hi|]. by apply (br_generation _ _ Hb).
    - eapply status_same; [exact Hi|]. by apply (br_status _ _ Hb). }
  destruct Hx as [[Ht|Hyoung]|[p Hp]].
  - destruct Ht as [[ws HF]|(g & st & Hlo & Hg & Hst & Hk)].
    + pose proof HF as [Hcell (g & Hg & Hin)]%step_from_Some. destruct (Htr g BEING_COLLECTED) as [G1 G2].
      { by apply gen_of_iff. }
      { by eapply step_being. }
      eapply Hold; [by eapply step_from_low|exact G1|exact G2|]. split; [by eexists|done].
    + destruct (Htr g st Hg Hst) as [G1 G2]. eapply Hold; [exact Hlo|exact G1|exact G2|].
      split; [intros ->; by destruct Hk|]. intros [ws HF]. exfalso. by eapply (from_not_kept Hc _ _ g st HF).
  - unfold is_being_collected. apply wp_bind. eapply wp_young; [exact Hi|right; cbn [base set_mem first_generation_allocation_ptr]; lia|].
    cbn [base set_mem first_generation_allocation_ptr]. rewrite bool_decide_eq_true_2 by lia. apply wp_ret.
    rewrite bool_decide_eq_false_2 in HQ; [done|]. intros [ws HF]. pose proof (step_from_low _ _ HF). lia.
  - pose proof (inv_pages _ _ _ _ _ _ _ _ _ _ _ Hi) as Hpg.
    destruct (ci_copied _ _ _ _ _ _ _ (inv_cells _ _ _ _ _ _ _ _ _ _ _ Hi) _ _ Hp) as (ws & Hw & _ & _ & Hin & _).
    pose proof (fc_length _ _ _ _ (cl_from _ _ _ _ Hc _ _ Hw)).
    destruct (in_to_space_page _ _ _ _ _ _ _ _ _ _ x Hpg Hin ltac:(lia)) as (pn & Hpn & Hpx & _).
    destruct (pi_page _ _ _ _ _ _ _ _ Hpg pn Hpn) as (pg & Hpi & Hal & Epg).
    destruct (pi_gen _ _ _ _ _ _ _ _ Hpg) as (z & Hz & Ez). destruct (cl_gen _ _ _ _ Hcm) as (z' & Hz' & Est & _).
    rewrite Hz in Hz'. injection Hz' as <-.
    pose proof (copy_old s' F gn free roots Hc' _ _ _ _ _ _ _ _ _ Hi Hp) as Hlo.
    eapply (Hold gn NORMAL); [lia| | |].
    + exists pg. apply in_page_iff in Hpx. by rewrite Hpx.
    + eexists. split; [exact Ez|exact Est].
    + split; [done|]. rewrite (copy_not_from s' F gn free roots Hc' _ _ _ _ _ _ _ _ _ Hi Hp). by intros [].
Qed.

Lemma step_judges s' roots : but_rems s1 s' → judges s' F gn free roots (step_seen s D B1 k gn y t1) is_being_collected.
Proof. intros Hb m φ R T s2 x Q Hm Hi Hx HQ. by eapply wp_is_being_collected. Qed.

(** ** The remembered sets *)

#[local] Abbreviation roots := (value_of rl (forgets B1 s1)).
#[local] Abbreviation scanning C := (scanning (forgets C s1) F gn free roots).
#[local] Abbreviation addrs := (rem_addrs s).

Lemma step_loc_rem a : a ∈ addrs B1 → rl (Image a).
Proof. intros Ha. right. by exists a. Qed.

(** One pointer. *)
Lemma wp_scan_rem_addr {A} fuel C l s2 a g (K : M A) (Q : A → state → Prop) :
  scanning C l s2 → a ∈ addrs B1 → Image a ∉ l → (∀ x, mem s !! a = Some x → gen_of s x = Some g) →
  (∀ s3, scanning C (Image a :: l) s3 → wp K Q s3) →
  wp ((p ← load a; g' ← PTR_TO_GENERATION p; massert (bool_decide (g' = g));; copy_cell fuel (Image a));; K) Q s2.
Proof.
  intros Hs Ha Hni Hgen HQ. pose proof (but_rems_forgets C s1) as Hb. pose proof (br_collectable _ _ Hb _ _ _ Hc) as Hc'.
  destruct (rem_addr _ _ _ _ Hdb EC _ _ EB a Ha) as (p & ws & i & x & _ & _ & _ & _ & _ & Hmem & HF).
  pose proof (step_loc_outside _ _ _ _ Hdb EC _ _ EB k gn y t1 _ (step_loc_rem a Ha)) as Hout.
  destruct (forgets_gc C s1) as (t' & Eb).
  assert (Hx : loc_get (Image a) (forgets C s1) = Some x) by (rewrite Eb; exact Hmem).
  pose proof Hs as (m & φ & R & T & Hm & Hpat & Hi & Etp & Ete & [Hv Hl]).
  destruct (Hl (Image a) x Hout Hx) as [Hcur _]. rewrite bool_decide_eq_false_2 in Hcur by done.
  apply wp_bind, wp_bind. eapply wp_load; [exact Hcur|]. apply wp_bind.
  pose proof (base_collectable _ _ _ _ Hc' _ Hm) as Hcm.
  eapply wp_generation; [exact Hcm|exact Hi| |].
  { apply (br_generation _ _ Hb), gen_of_iff. by apply Hgen. }
  apply wp_bind, wp_assert; [by apply bool_decide_eq_true|].
  eapply wp_copy_scan; [exact Hc'|exact Hs|exact Hout|exact Hx|exact Hcur|exact HF| |exact HQ].
  exists (Image a). split; [by apply step_loc_rem|]. destruct (forgets_gc B1 s1) as (t'' & ->). exact Hmem.
Qed.

(** The pointers of one generation. *)
Lemma wp_scan_rem_addrs fuel C g al l s2 (K : M unit) (Q : unit → state → Prop) :
  scanning C l s2 → (∀ a, a ∈ al → a ∈ addrs B1 ∧ Image a ∉ l ∧ ∀ x, mem s !! a = Some x → gen_of s x = Some g) →
  NoDup al → (∀ s3, scanning C ((Image <$> reverse al) ++ l) s3 → wp K Q s3) →
  wp (for_each al (λ a, p ← load a; g' ← PTR_TO_GENERATION p; massert (bool_decide (g' = g));; copy_cell fuel (Image a));; K) Q s2.
Proof.
  revert l s2. induction al as [|a al IH]; intros l s2 Hs Hal Hnd HQ.
  - apply wp_bind, wp_ret. by apply HQ.
  - apply NoDup_cons in Hnd as [Hni Hnd]. destruct (Hal a ltac:(by left)) as (Ha & Hal0 & Hg).
    apply wp_bind. cbn [for_each]. eapply wp_scan_rem_addr; [exact Hs|exact Ha|exact Hal0|exact Hg|]. intros s3 Hs3. apply wp_bind_inv.
    eapply IH; [exact Hs3| |exact Hnd|].
    + intros b Hb. destruct (Hal b ltac:(by right)) as (H1 & H2 & H3). split; [done|]. split; [|done].
      apply not_elem_of_cons. split; [by intros [= ->]|done].
    + intros s4 Hs4. apply HQ. rewrite reverse_cons, fmap_app, <- app_assoc. exact Hs4.
Qed.

Lemma forget_same g s2 x : zlookup (generation_info (gc s2)) g = Some x → gi_rem_set x = [] → forget g s2 = s2.
Proof.
  intros Hx Er. unfold forget. rewrite Hx. assert (E : with_rem_set [] x = x) by (rewrite <- Er; apply with_rem_set_same).
  rewrite E, zinsert_id by done. by destruct s2 as [? ? ? ? ? ? ? ? []].
Qed.

Lemma wp_scan_rem_set fuel C1 g C2 l s2 (Q : unit → state → Prop) : B1 = C1 ++ g :: C2 → scanning C1 l s2 →
  (∀ a, Image a ∈ l ↔ a ∈ addrs C1) →
  (∀ s3, scanning (C1 ++ [g]) ((Image <$> reverse (addrs [g])) ++ l) s3 → Q tt s3) →
  wp (scan_rem_set fuel g) Q s2.
Proof.
  intros E1 Hs Hl HQ. assert (Hg : g ∈ B1) by (rewrite E1; apply elem_of_app; right; by left).
  pose proof (step_from_gen _ EC _ _ EB g Hg) as HgL. destruct (gen_entry _ _ _ _ Hdb g HgL) as (x & Hx).
  destruct (ch_from _ _ _ _ _ _ _ _ Hch g x Hg Hx) as (v & x' & Hx' & Hrl).
  destruct (relinked_fields _ _ Hrl) as (_ & Erem & _). set (x1 := with_next_from v _) in *.
  assert (Hgn : g ≠ gn).
  { intros ->. apply (proj1 (ch_fresh _ _ _ _ _ _ _ _ Hch)). by rewrite <- (step_gens _ EC _ _ EB). }
  pose proof (step_nodup _ _ _ _ Hdb EC _ _ EB) as Hnd. assert (HndB : NoDup B1) by by apply NoDup_app in Hnd as (_ & _ & (Hnd & _)%NoDup_app).
  assert (HgC : g ∉ C1) by (rewrite E1 in HndB; apply NoDup_app in HndB as (_ & Hd & _); intros Hin; apply (Hd g Hin); by left).
  assert (Hentry : zlookup (generation_info (gc (forgets C1 s1))) g = Some x1).
  { rewrite (forgets_entry C1 s1 g x1 Hx'). by rewrite bool_decide_eq_false_2. }
  (* the entry now *)
  assert (Hcur : ∀ l s', scanning C1 l s' → ∃ rs, zlookup (generation_info (gc s')) g = Some (with_rem_set rs x1) ∧ concat rs = addrs [g]).
  { intros l' s' (m & φ & R & T & _ & _ & Hi & _). destruct (inv_rem _ _ _ _ _ _ _ _ _ _ _ Hi g x1 Hentry Hgn) as (rs & ad & Er & Ead & _ & Hmem).
    exists rs. split; [exact Er|]. rewrite Ead. assert (ad = []) as ->.
    { destruct ad as [|a ad]; [done|]. destruct (proj1 (Hmem a) ltac:(by left)) as (? & ? & ? & ? & ? & _ & _ & _ & _ & _ & _ & (_ & _ & (z & Hz & E) & _)).
      cbn [base set_mem gc] in Hz. rewrite Hentry in Hz. injection Hz as <-. done. }
    unfold rem_addrs. cbn [fmap list_fmap concat]. rewrite Hx, app_nil_r. simpl. by rewrite Erem. }
  destruct (Hcur l s2 Hs) as (rs & Hrs & Econ). unfold scan_rem_set. apply wp_bind. eapply wp_get_gen; [exact Hrs|]. cbn [gi_rem_set with_rem_set].
  assert (Hforget : ∀ l s', scanning C1 l s' → scanning (C1 ++ [g]) l (forget g s')).
  { intros l' s' Hs'. rewrite forgets_snoc. eapply scanning_forget; [exact Hs'|exact Hentry|done|done]. }
  assert (Hin : ∀ a, a ∈ addrs [g] → a ∈ addrs B1 ∧ a ∉ addrs C1).
  { intros a Ha. pose proof (rem_addrs_nodup _ _ _ _ Hdb B1 HndB (step_await _ _ _ EB)) as Hnda. change (g :: C2) with ([g] ++ C2) in E1.
    rewrite E1, !rem_addrs_app in *. split; [rewrite !elem_of_app; auto|]. intros Ha'. apply NoDup_app in Hnda as (_ & Hd & _).
    apply (Hd a Ha'), elem_of_app. by left. }
  destruct rs as [|node rs].
  - apply wp_ret. simpl in Econ. specialize (Hforget l s2 Hs). rewrite (forget_same g s2 _ Hrs) in Hforget by done.
    rewrite <- Econ in HQ. by apply HQ.
  - rewrite Econ. eapply wp_scan_rem_addrs; [exact Hs| | |].
    + intros a Ha. destruct (Hin a Ha) as [H1 H2]. split; [done|]. split; [by rewrite Hl|]. intros z Hz.
      apply (rem_addrs_in _ _ _ _ Hdb) in Ha as (g' & ->%list_elem_of_singleton & (p & ws & i & w & Hp & Hr & Hw & -> & _ & Hgw)).
      2: { intros g' ->%list_elem_of_singleton. by apply (step_await _ _ _ EB). }
      rewrite (oc_words _ _ _ _ _ (ck_cell _ _ _ (db_cells _ _ _ _ Hdb) _ _ Hp) _ _ Hw) in Hz. by injection Hz as <-.
    + apply (rem_addrs_nodup _ _ _ _ Hdb); [apply NoDup_singleton|]. intros g' ->%list_elem_of_singleton. by apply (step_await _ _ _ EB).
    + intros s3 Hs3. destruct (Hcur _ s3 Hs3) as (rs' & Hrs' & _). eapply wp_put_gen; [exact Hrs'|].
      specialize (Hforget _ s3 Hs3). unfold forget in Hforget. rewrite Hrs' in Hforget. by apply HQ.
Qed.

(** All of them. *)
Lemma wp_scan_rem_sets fuel (Q : unit → state → Prop) s2 : scanning [] [] s2 →
  (∀ l s3, scanning B1 l s3 → (∀ pp, pp ∈ l ↔ ∃ a, pp = Image a ∧ a ∈ addrs B1) → Q tt s3) →
  wp (for_from_generations (Z.of_nat (length B1)) (hd_gn INV B1) (λ gn,
    scan_rem_set fuel gn;; x ← get_gen gn; mret (gi_older x))) Q s2.
Proof.
  intros Hs HQ. unfold for_from_generations. rewrite Nat2Z.id. apply wp_bind.
  assert (Hin0 : ∀ a, Image a ∈ [] ↔ a ∈ addrs []) by (intros a; split; by intros ?%not_elem_of_nil).
  apply wp_for with (I := λ i g s', ∃ C1 C2 l, B1 = C1 ++ C2 ∧ i = length C1 ∧ (C2 ≠ [] → g = hd_gn INV C2) ∧ scanning C1 l s' ∧
    (∀ pp, pp ∈ l ↔ ∃ a, pp = Image a ∧ a ∈ addrs C1)).
  - exists [], B1, []. split; [done|]. split; [done|]. split; [done|]. split; [done|].
    intros pp. split; [by intros ?%not_elem_of_nil|]. by intros (a & _ & ?%not_elem_of_nil).
  - intros i g s' Hi (C1 & C2 & l & E1 & -> & Eg & Hs' & Hl). destruct C2 as [|g' C2]; [rewrite E1, app_nil_r in Hi; lia|].
    rewrite (Eg ltac:(done)). cbn [hd_gn]. apply wp_bind.
    eapply wp_scan_rem_set; [exact E1|exact Hs'| |].
    { intros a. rewrite Hl. split; [by intros (b & [= <-] & Hb)|]. intros Ha. by exists a. }
    intros s3 Hs3. assert (Hg : g' ∈ B1) by (rewrite E1; apply elem_of_app; right; by left).
    assert (Hold : ∃ x, zlookup (generation_info (gc s3)) g' = Some x ∧ (C2 ≠ [] → gi_older x = hd_gn INV C2)).
    { pose proof (ch_chain _ _ _ _ _ _ _ _ Hch) as Hchain. rewrite E1 in Hchain.
      replace (Y ++ gn :: (C1 ++ g' :: C2) ++ B2 ++ O) with ((Y ++ gn :: C1) ++ g' :: (C2 ++ B2 ++ O)) in Hchain.
      2: { rewrite <- !app_assoc. simpl. by rewrite <- ?app_assoc. }
      destruct (chain_at _ _ _ _ _ _ Hchain) as (x & Hx & _ & Eo).
      destruct Hs3 as (m & φ & R & T & _ & _ & Hi3 & _).
      assert (Hx3 : zlookup (generation_info (gc (base (forgets (C1 ++ [g']) s1) m))) g' = Some (with_rem_set [] x)).
      { cbn [base set_mem gc]. rewrite (forgets_entry _ s1 g' x Hx). rewrite bool_decide_eq_true_2; [done|]. apply elem_of_app. right. by left. }
      assert (Hgn : g' ≠ gn).
      { intros ->. apply (proj1 (ch_fresh _ _ _ _ _ _ _ _ Hch)). rewrite <- (step_gens _ EC _ _ EB). by apply (step_from_gen _ EC _ _ EB). }
      destruct (inv_rem _ _ _ _ _ _ _ _ _ _ _ Hi3 g' _ Hx3 Hgn) as (rs & ad & Er & _). eexists. split; [exact Er|].
      intros HC. simpl. rewrite Eo. by destruct C2. }
    destruct Hold as (x & Hx & Eo). apply wp_bind. eapply wp_get_gen; [exact Hx|]. apply wp_ret.
    exists (C1 ++ [g']), C2, ((Image <$> reverse (addrs [g'])) ++ l). split; [by rewrite E1, <- app_assoc|].
    split; [rewrite length_app; simpl; lia|]. split; [done|]. split; [exact Hs3|].
    intros pp. rewrite elem_of_app, list_elem_of_fmap, Hl, rem_addrs_app. split.
    + intros [(a & -> & Ha)|(a & -> & Ha)]; exists a; (split; [done|]); apply elem_of_app; [right; by rewrite elem_of_reverse in Ha|by left].
    + intros (a & -> & [Ha|Ha]%elem_of_app); [right; by exists a|left]. exists a. by rewrite elem_of_reverse.
  - intros g s' (C1 & C2 & l & E1 & El & _ & Hs' & Hl). apply wp_ret. assert (C2 = []) as ->.
    { apply (f_equal length) in E1. rewrite length_app in E1. destruct C2; [done|]. simpl in E1. lia. }
    rewrite app_nil_r in E1. subst C1. by eapply HQ.
Qed.
End scan.
