(* ===== verification/Relocate.v ===== *)
(** Relocated cells: the words of copies, the map of the copies, and the cells of the
    database after cells were copied to a new generation. *)

From S2P Require Import Prelude Generations Machine Celltypes Shades Root Bitops Cells Pages Genlist Smartptr Io Copy Forward Copying Drain Roots Copied Chain Retire Commit Mature Choose Remember.

#[local] Abbreviation N := NUMBER_OF_WORDS_PER_PAGE.
#[local] Abbreviation INV := INVALID_GENERATION_NUMBER.

(** * Forwarded words *)

(** Cells and their copies are aligned, and not at [NULL]. *)
Definition aligned_map (φ : gmap Z Z) : Prop := ∀ p q, φ !! p = Some q → p mod 4 = 0 ∧ q mod 4 = 0 ∧ 0 < p ∧ 0 < q.

Lemma aligned_tag x : TAGGED_IS_PTR x = bool_decide (x mod 4 = 0).
Proof. unfold TAGGED_IS_PTR. change 0x3 with (2 ^ 2 - 1). rewrite land_ones_mod by lia. done. Qed.

Section forward.
Context (φ : gmap Z Z) (Hφ : aligned_map φ).

Lemma forward_aligned x : bool_decide (forward φ x mod 4 = 0) = bool_decide (x mod 4 = 0).
Proof.
  unfold forward. destruct (φ !! x) as [q|] eqn:E; [|done]. destruct (Hφ _ _ E) as (H1 & H2 & _).
  simpl. by rewrite !bool_decide_eq_true_2.
Qed.

Lemma forward_null x : forward φ x = NULL_WORD ↔ x = NULL_WORD.
Proof.
  unfold forward. destruct (φ !! x) as [q|] eqn:E; [|done]. destruct (Hφ _ _ E) as (_ & _ & H1 & H2).
  simpl. change NULL_WORD with 0. lia.
Qed.

Lemma forward_ref d x : ref d (forward φ x) = ref d x.
Proof.
  unfold ref. f_equal; [|f_equal; apply bool_decide_ext, forward_null].
  destruct d; [done..|]. simpl. by rewrite !aligned_tag, forward_aligned.
Qed.

Lemma forward_words_shape ws : gc_shape (forward_words φ ws) = gc_shape ws.
Proof.
  assert (E : head (forward_words φ ws) = head ws).
  { destruct ws as [|w ws]; [done|]. unfold forward_words. simpl. unfold forward_at. destruct (ref_at _ 0) eqn:Er; [|done].
    apply ref_at_lookup in Er as [? _]. lia. }
  unfold gc_shape. by rewrite E, length_forward_words.
Qed.

Lemma forward_words_ref ws i : ref_at (forward_words φ ws) i = ref_at ws i.
Proof.
  unfold ref_at at 1. rewrite forward_words_shape. unfold ref_at at 1.
  destruct (gc_shape ws) as [[t fs]|] eqn:Es; [|done]. destruct i as [|j]; [done|].
  destruct (fs !! j) as [[d k]|] eqn:Ej; [|done]. rewrite lookup_forward_words. unfold forward_at.
  destruct (ws !! S j) as [x|] eqn:Ex; [|done]. simpl. destruct (ref_at ws (S j)); [apply forward_ref|done].
Qed.

Lemma forward_words_shaped ws : well_shaped ws → well_shaped (forward_words φ ws).
Proof.
  intros (t & fs & Es & Hnn). exists t, fs. rewrite forward_words_shape. split; [done|].
  intros j i x Hj Hx. rewrite lookup_forward_words in Hx. apply fmap_Some in Hx as (x0 & Hx0 & ->).
  specialize (Hnn j i x0 Hj Hx0). unfold forward_at. destruct (ref_at ws (S j)); [|done]. by rewrite forward_null.
Qed.

(** The reference at a position, before and after. *)
Lemma forward_words_at ws i y : ref_at (forward_words φ ws) i = true → forward_words φ ws !! i = Some y →
  ∃ x, ref_at ws i = true ∧ ws !! i = Some x ∧ y = forward φ x.
Proof.
  rewrite forward_words_ref. intros Hr Hy. rewrite lookup_forward_words in Hy. apply fmap_Some in Hy as (x & Hx & ->).
  exists x. unfold forward_at. by rewrite Hr.
Qed.

Lemma forward_words_at' ws i x : ref_at ws i = true → ws !! i = Some x →
  ref_at (forward_words φ ws) i = true ∧ forward_words φ ws !! i = Some (forward φ x).
Proof. intros Hr Hx. rewrite forward_words_ref, lookup_forward_words, Hx. split; [done|]. simpl. unfold forward_at. by rewrite Hr. Qed.
End forward.

(** * The copies *)

Definition copies (φ : gmap Z Z) (F : gmap Z (list Z)) : gmap Z (list Z) :=
  list_to_map ((λ c, (c.2, forward_words φ (default [] (F !! c.1)))) <$> map_to_list φ).

Definition sum (l : list Z) : Z := foldr Z.add 0 l.

#[export] Instance sum_perm : Proper ((≡ₚ) ==> (=)) sum.
Proof. intros l l' H. induction H; simpl; lia. Qed.

Lemma total_words_list (l : list (Z * list Z)) : NoDup l.*1 → total_words (list_to_map l) = sum ((λ c : Z * list Z, Z.of_nat (length c.2)) <$> l).
Proof.
  induction l as [|[p ws] l IH]; intros Hnd; [done|]. apply NoDup_cons in Hnd as [Hp Hnd]. simpl.
  rewrite total_words_insert; [by rewrite IH|]. by apply not_elem_of_list_to_map_1.
Qed.

Lemma total_words_sum (F : gmap Z (list Z)) : total_words F = sum ((λ c : Z * list Z, Z.of_nat (length c.2)) <$> map_to_list F).
Proof. rewrite <- total_words_list by apply NoDup_fst_map_to_list. by rewrite list_to_map_to_list. Qed.

Lemma total_words_fmap (f : list Z → list Z) F : (∀ ws, length (f ws) = length ws) → total_words (f <$> F) = total_words F.
Proof.
  intros Hf. rewrite !total_words_sum, map_to_list_fmap, <- list_fmap_compose. f_equal. apply list_fmap_ext. intros _ [p ws] _.
  simpl. by rewrite Hf.
Qed.

Section copies.
Context (φ : gmap Z Z) (F : gmap Z (list Z)).
Context (Hdom : ∀ p q, φ !! p = Some q → is_Some (F !! p)).
Context (Hinj : ∀ p1 p2 q, φ !! p1 = Some q → φ !! p2 = Some q → p1 = p2).

Lemma copies_nodup : NoDup ((λ c, (c.2, forward_words φ (default [] (F !! c.1)))) <$> map_to_list φ).*1.
Proof.
  rewrite <- list_fmap_compose. apply NoDup_fmap_2_strong; [|apply NoDup_map_to_list].
  intros [p1 q1] [p2 q2] H1%elem_of_map_to_list H2%elem_of_map_to_list E. simpl in E. subst q2. by rewrite (Hinj _ _ _ H1 H2).
Qed.

Lemma copies_Some q ws' : copies φ F !! q = Some ws' ↔ ∃ p ws, φ !! p = Some q ∧ F !! p = Some ws ∧ ws' = forward_words φ ws.
Proof.
  unfold copies. rewrite <- elem_of_list_to_map by apply copies_nodup. rewrite list_elem_of_fmap. split.
  - intros ([p q'] & [= -> ->] & Hp%elem_of_map_to_list). destruct (Hdom _ _ Hp) as [ws Hw]. exists p, ws. simpl. by rewrite Hw.
  - intros (p & ws & Hp & Hw & ->). exists (p, q). simpl. rewrite Hw. split; [done|]. by apply elem_of_map_to_list.
Qed.

Lemma copies_words : total_words (copies φ F) = total_words (filter (λ c, is_Some (φ !! c.1)) F).
Proof.
  set (G := filter _ F). unfold copies. rewrite total_words_list by apply copies_nodup. rewrite total_words_sum.
  set (f := λ p, Z.of_nat (length (default [] (F !! p)))).
  transitivity (sum (f <$> (map_to_list φ).*1)).
  { rewrite <- !list_fmap_compose. f_equal. apply list_fmap_ext. intros _ [p q] _. simpl. by rewrite length_forward_words. }
  transitivity (sum (f <$> (map_to_list G).*1)).
  - apply sum_perm. f_equiv. apply NoDup_Permutation; [apply NoDup_fst_map_to_list..|]. intros p. rewrite !list_elem_of_fmap. split.
    + intros ([p' q] & -> & Hp%elem_of_map_to_list). destruct (Hdom _ _ Hp) as [ws Hw]. exists (p', ws). split; [done|].
      apply elem_of_map_to_list, map_lookup_filter_Some. split; [done|]. simpl in *. by exists q.
    + intros ([p' ws] & -> & [Hw [q Hq]]%elem_of_map_to_list%map_lookup_filter_Some). exists (p', q). split; [done|]. by apply elem_of_map_to_list.
  - rewrite <- list_fmap_compose. f_equal. apply list_fmap_ext. intros i [p ws] Hi. apply list_elem_of_lookup_2 in Hi.
    apply elem_of_map_to_list, map_lookup_filter_Some in Hi as [Hw _]. subst f. simpl. by rewrite Hw.
Qed.

Lemma copies_words_rest : total_words F = total_words (copies φ F) + total_words (filter (λ c, φ !! c.1 = None) F).
Proof.
  rewrite copies_words. pose proof (total_words_split (λ p, is_Some (φ !! p)) (λ p, φ !! p = None) F) as E. cbv beta in E.
  etrans; [|apply E].
  - f_equal. symmetry. apply map_filter_id. intros p ws _. simpl. destruct (φ !! p); eauto.
  - intros p [q Hq] Hn. congruence.
Qed.
End copies.

(** * The cells of the database after a collection *)

(** Copying starts in [s1], which differs from [s] in the table of generations; the
    generations [V] are not collected. *)
Record starting (s s1 : state) (V : list Z) : Prop := {
  sg_mem : mem s1 = mem s;
  sg_first : first_generation_start s1 = first_generation_start s ∧ first_generation_end s1 = first_generation_end s ∧
    first_generation_allocation_ptr s1 = first_generation_allocation_ptr s;
  sg_root : root s1 = root s ∧ ix_is_ptr s1 = ix_is_ptr s ∧ smart_ptrs (gc s1) = smart_ptrs (gc s);
  sg_pages : page_info (gc s1) = page_info (gc s);
  sg_entry g x : g ∈ V → zlookup (generation_info (gc s)) g = Some x →
    ∃ x1, zlookup (generation_info (gc s1)) g = Some x1 ∧ relinked x x1;
  sg_other g x : zlookup (generation_info (gc s)) g = Some x → ¬ nonexistent x →
    ∃ x1, zlookup (generation_info (gc s1)) g = Some x1 ∧ gi_npages x1 = gi_npages x ∧ gi_page x1 = gi_page x ∧
      gi_disk_page x1 = gi_disk_page x;
  sg_io : io (gc s1) = io (gc s)
}.

Section relocated.
Context `{HP : Params} (s : state) (D : layout) (L : list Z) (r : list Z) (Hdb : db s D L r).
Context (B2 : list Z).
#[local] Abbreviation V := (ly_new D ++ B2 ++ ly_old D).
#[local] Abbreviation K := (cells_of s (ly_cells D) V).
Context (s1 : state) (Hst : starting s s1 V) (F : gmap Z (list Z)) (gn : Z) (Hc : collectable s1 F gn (ly_free D)).
Context (HgnV : gn ∉ V) (HV : ∀ g, g ∈ V → g ∈ ly_live D).
Context (rl : location → Prop) (Hout : ∀ pp, rl pp → outside F (ly_free D) pp).
Context (s4 : state) (φ : gmap Z Z) (pages free' : list Z) (A' : gmap Z (list Z)).
Context (Hcp : copied s1 s4 F gn rl φ pages free' (ly_disk D) A' r) (Hfree : ly_free D = pages ++ free').
Context (HKF : ∀ p ws p' ws', K !! p = Some ws → F !! p' = Some ws' → disj (p, ws) (p', ws')).
Context (HK : ∀ p ws i x, K !! p = Some ws → ref_at ws i = true → ws !! i = Some x →
  is_Some (K !! x) ∨ is_Some (F !! x) ∧ rl (Image (p + 4 * Z.of_nat i))).
Context (HKrl : ∀ p ws i x, K !! p = Some ws → ws !! i = Some x → rl (Image (p + 4 * Z.of_nat i)) → ref_at ws i = true).
Context (Hdec : ∀ pp, rl pp ∨ ¬ rl pp).
Context (HF : ∀ p ws i x, F !! p = Some ws → ref_at ws i = true → ws !! i = Some x → is_Some (F !! x) ∨ is_Some (K !! x)).

Lemma copy_from p q : φ !! p = Some q → is_Some (F !! p).
Proof. intros Hq. eapply reaches_from. eapply (cp_reach _ _ _ _ _ _ _ _ _ _ _ Hcp). by exists q. Qed.

Lemma to_page pn : pn ∈ pages → pn ∈ ly_free D ∧ 0 ≤ pn.
Proof.
  intros Hin. assert (Hf : pn ∈ ly_free D) by (rewrite Hfree; apply elem_of_app; by left). split; [done|].
  destruct (pool_page _ _ _ (pk_pool _ _ _ (db_paging _ _ _ _ Hdb)) Hf) as (Hr & _). lia.
Qed.

Lemma copy_at p q ws : φ !! p = Some q → F !! p = Some ws → PTR_TO_PAGE_NUMBER q ∈ pages ∧
  PAGE_SIZE * PTR_TO_PAGE_NUMBER q + 8 ≤ q ∧ q + 4 * Z.of_nat (length ws) ≤ PAGE_SIZE * (PTR_TO_PAGE_NUMBER q + 1) ∧
  q mod 4 = 0 ∧ 2 ≤ Z.of_nat (length ws) ≤ N - 2.
Proof.
  intros Hq Hw. destruct (cp_place _ _ _ _ _ _ _ _ _ _ _ Hcp _ _ _ Hq Hw) as (pn & u & Hpn & _ & Hu & Hal & Hlo & Hhi).
  pose proof (fc_length _ _ _ _ (cl_from _ _ _ _ Hc _ _ Hw)) as Hlen. change N with 16384 in *. change PAGE_SIZE with 65536 in *.
  assert (E : PTR_TO_PAGE_NUMBER q = pn). { apply in_page_iff. unfold in_page. change PAGE_SIZE with 65536. lia. }
  rewrite E. split_and!; [done|lia..|done|lia|lia].
Qed.

Lemma copy_aligned : aligned_map φ.
Proof.
  intros p q Hq. destruct (copy_from p q Hq) as [ws Hw]. pose proof (cl_from _ _ _ _ Hc _ _ Hw) as Hf.
  destruct (copy_at p q ws Hq Hw) as (Hpn & Hlo & _ & Hal & _). destruct (to_page _ Hpn) as [_ H0].
  split_and!; [apply Hf|done|apply Hf|]. change PAGE_SIZE with 65536 in *. lia.
Qed.

Lemma copy_inj p1 p2 q : φ !! p1 = Some q → φ !! p2 = Some q → p1 = p2.
Proof.
  intros H1 H2. destruct (copy_from _ _ H1) as [ws1 W1]. destruct (copy_from _ _ H2) as [ws2 W2].
  destruct (decide (p1 = p2)) as [|Hne]; [done|].
  pose proof (cp_sep _ _ _ _ _ _ _ _ _ _ _ Hcp _ _ _ _ _ _ H1 W1 H2 W2 Hne) as Hd. unfold disj in Hd. simpl in Hd.
  destruct (copy_at _ _ _ H1 W1) as (_ & _ & _ & _ & ?). destruct (copy_at _ _ _ H2 W2) as (_ & _ & _ & _ & ?). lia.
Qed.

(** Generations of addresses. *)
Lemma page_kept x g : gen_of s x = Some g → PTR_TO_PAGE_NUMBER x ∉ pages.
Proof.
  rewrite gen_of_iff. intros (pg & Hpg & Hal & _) Hin. destruct (to_page _ Hin) as [Hf _].
  destruct (pool_page _ _ _ (pk_pool _ _ _ (db_paging _ _ _ _ Hdb)) Hf) as (_ & pg' & Hpg' & Hal'). congruence.
Qed.

Lemma gen_of_kept x : PTR_TO_PAGE_NUMBER x ∉ pages → gen_of s4 x = gen_of s x.
Proof. intros Hx. unfold gen_of. by rewrite (cp_others _ _ _ _ _ _ _ _ _ _ _ Hcp _ Hx), (sg_pages _ _ _ Hst). Qed.

Lemma gen_of_still x g : gen_of s x = Some g → gen_of s4 x = Some g.
Proof. intros Hx. rewrite gen_of_kept; [exact Hx|]. by eapply page_kept. Qed.

Lemma gen_of_to_page x : PTR_TO_PAGE_NUMBER x ∈ pages → gen_of s4 x = Some gn.
Proof. intros Hx. apply gen_of_iff. destruct (cp_pages _ _ _ _ _ _ _ _ _ _ _ Hcp _ Hx) as (pg & H1 & H2 & H3). by exists pg. Qed.

Lemma gen_of_copy p q : φ !! p = Some q → gen_of s4 q = Some gn.
Proof. intros Hq. destruct (copy_from _ _ Hq) as [ws Hw]. apply gen_of_to_page. by apply (copy_at p q ws). Qed.

Lemma kept_cell p ws : K !! p = Some ws → ly_cells D !! p = Some ws ∧ old_cell s (ly_live D) (ly_cells D) p ws ∧
  ∃ g, gen_of s p = Some g ∧ g ∈ V.
Proof. intros [Hp Hg]%cells_of_Some. split; [done|]. split; [|done]. by apply (ck_cell _ _ _ (db_cells _ _ _ _ Hdb)). Qed.

Lemma kept_or_copied p : is_Some (K !! p) → F !! p = None.
Proof.
  intros [ws Hp]. apply eq_None_not_Some. intros [ws' Hp']. pose proof (HKF _ _ _ _ Hp Hp') as Hd. unfold disj in Hd. simpl in Hd.
  pose proof (fc_length _ _ _ _ (cl_from _ _ _ _ Hc _ _ Hp')). destruct (kept_cell _ _ Hp) as (_ & Ho & _).
  pose proof (oc_length _ _ _ _ _ Ho). lia.
Qed.

Lemma forward_kept x : is_Some (K !! x) → forward φ x = x.
Proof. intros Hx. apply forward_None. apply eq_None_not_Some. intros [q [ws Hq]%copy_from]. rewrite kept_or_copied in Hq by done. congruence. Qed.

(** What is referred to from copies and from outside is copied. *)
Lemma copy_closed p q ws i x : φ !! p = Some q → F !! p = Some ws → ref_at ws i = true → ws !! i = Some x → is_Some (F !! x) →
  is_Some (φ !! x).
Proof.
  intros Hq Hw Hr Hx HFx. apply (cp_reach _ _ _ _ _ _ _ _ _ _ _ Hcp). eapply reaches_field; [|exact Hw|exact Hr|exact Hx|exact HFx].
  apply (cp_reach _ _ _ _ _ _ _ _ _ _ _ Hcp). by exists q.
Qed.

Lemma loc_copied pp x : rl pp → loc_get pp s1 = Some x → is_Some (F !! x) → is_Some (φ !! x).
Proof. intros Hpp Hx HFx. apply (cp_reach _ _ _ _ _ _ _ _ _ _ _ Hcp). apply reaches_root; [|done]. by exists pp. Qed.

(** ** The new cells *)

Definition moved : gmap Z (list Z) := (forward_words φ <$> K) ∪ copies φ F.

Lemma copies_iff q ws' : copies φ F !! q = Some ws' ↔ ∃ p ws, φ !! p = Some q ∧ F !! p = Some ws ∧ ws' = forward_words φ ws.
Proof. apply copies_Some; [exact copy_from|exact copy_inj]. Qed.

Lemma moved_disjoint : (forward_words φ <$> K) ##ₘ copies φ F.
Proof.
  apply map_disjoint_spec. intros p ws1 ws2 H1 (p0 & ws & Hq & Hw & _)%copies_iff. rewrite lookup_fmap in H1.
  apply fmap_Some in H1 as (ws0 & (_ & _ & g & Hg & _)%kept_cell & _). apply (page_kept p g Hg). by apply (copy_at p0 p ws).
Qed.

Lemma moved_Some p ws' : moved !! p = Some ws' ↔ (∃ ws, K !! p = Some ws ∧ ws' = forward_words φ ws) ∨
  ∃ p0 ws, φ !! p0 = Some p ∧ F !! p0 = Some ws ∧ ws' = forward_words φ ws.
Proof.
  unfold moved. rewrite lookup_union_Some by exact moved_disjoint. rewrite copies_iff, lookup_fmap, fmap_Some. done.
Qed.

Lemma moved_kept p ws : K !! p = Some ws → moved !! p = Some (forward_words φ ws).
Proof. intros Hp. apply moved_Some. left. by exists ws. Qed.

Lemma moved_copy p q ws : φ !! p = Some q → F !! p = Some ws → moved !! q = Some (forward_words φ ws).
Proof. intros Hq Hw. apply moved_Some. right. by exists p, ws. Qed.

(** Where pointers lead after the collection. *)
Lemma moved_target x : is_Some (K !! x) ∨ is_Some (φ !! x) → is_Some (moved !! forward φ x).
Proof.
  intros [Hx|[q Hq]].
  - rewrite forward_kept by done. destruct Hx as [ws Hx]. eexists. by apply moved_kept.
  - rewrite (forward_Some _ _ _ Hq). destruct (copy_from _ _ Hq) as [ws Hw]. eexists. by eapply moved_copy.
Qed.

Lemma kept_ref p ws i x : K !! p = Some ws → ref_at ws i = true → ws !! i = Some x →
  is_Some (K !! x) ∨ is_Some (F !! x) ∧ is_Some (φ !! x).
Proof.
  intros Hp Hr Hx. destruct (HK _ _ _ _ Hp Hr Hx) as [|[HFx Hrl]]; [by left|right]. split; [done|].
  eapply loc_copied; [exact Hrl| |done]. simpl. rewrite (sg_mem _ _ _ Hst). destruct (kept_cell _ _ Hp) as (_ & Ho & _). by apply Ho.
Qed.

Lemma copy_ref p q ws i x : φ !! p = Some q → F !! p = Some ws → ref_at ws i = true → ws !! i = Some x →
  is_Some (K !! x) ∨ is_Some (F !! x) ∧ is_Some (φ !! x).
Proof.
  intros Hq Hw Hr Hx. destruct (HF _ _ _ _ Hw Hr Hx) as [HFx|]; [right|by left]. split; [done|]. by eapply copy_closed.
Qed.

(** ** The image *)

(** The words of the cells that are kept. *)
Lemma kept_outside p ws i : K !! p = Some ws → (i < length ws)%nat → outside F (ly_free D) (Image (p + 4 * Z.of_nat i)).
Proof.
  intros Hp Hi. pose proof Hp as (Hp' & Ho & g & Hg & _)%kept_cell. pose proof (oc_place _ _ _ _ _ Ho) as Hpl.
  apply gen_of_iff in Hg as (pg & Hpg & Hal & _). apply zlookup_Some in Hpg as Hr. destruct Hr as [Hr _].
  change PAGE_SIZE with 65536 in Hpl. split; [change NULL_PTR with 0; lia|]. split.
  - intros pn Hin Hpa. destruct (pool_page _ _ _ (pk_pool _ _ _ (db_paging _ _ _ _ Hdb)) Hin) as (_ & pg' & Hpg' & Hal').
    assert (E : pn = PTR_TO_PAGE_NUMBER p); [|rewrite <- E in Hpg; congruence].
    eapply in_page_inj; [exact Hpa|]. unfold in_page. change PAGE_SIZE with 65536. lia.
  - intros p' ws' Hw Ha. pose proof (HKF _ _ _ _ Hp Hw) as Hd. unfold disj in Hd. simpl in Hd. lia.
Qed.

Lemma kept_word p ws i x : K !! p = Some ws → forward_words φ ws !! i = Some x → mem s4 !! (p + 4 * Z.of_nat i) = Some x.
Proof.
  intros Hp Hx. rewrite lookup_forward_words in Hx. apply fmap_Some in Hx as (x0 & Hx0 & ->).
  pose proof (lookup_lt_Some _ _ _ Hx0) as Hi. destruct (kept_outside p ws i Hp Hi) as (_ & Hpn & Hcl).
  pose proof (kept_cell _ _ Hp) as (_ & Ho & _). pose proof (oc_words _ _ _ _ _ Ho i x0 Hx0) as Hm.
  destruct (Hdec (Image (p + 4 * Z.of_nat i))) as [Hr|Hr].
  - unfold forward_at. rewrite (HKrl _ _ _ _ Hp Hx0 Hr). apply (cp_loc _ _ _ _ _ _ _ _ _ _ _ Hcp (Image _) x0 Hr).
    simpl. by rewrite (sg_mem _ _ _ Hst).
  - rewrite (cp_mem _ _ _ _ _ _ _ _ _ _ _ Hcp); [|exact Hr| |exact Hcl].
    + rewrite (sg_mem _ _ _ Hst), Hm. f_equal. symmetry. unfold forward_at. destruct (ref_at ws i) eqn:Er; [|done].
      apply forward_kept. by destruct (HK _ _ _ _ Hp Er Hx0) as [|[_ ?]].
    + intros pn Hin. apply Hpn. by apply to_page.
Qed.

Lemma moved_word p ws i x : moved !! p = Some ws → ws !! i = Some x → mem s4 !! (p + 4 * Z.of_nat i) = Some x.
Proof.
  intros [(ws0 & Hp & ->)|(p0 & ws0 & Hq & Hw & ->)]%moved_Some Hx; [by eapply kept_word|].
  by eapply (cp_copy _ _ _ _ _ _ _ _ _ _ _ Hcp).
Qed.

Lemma moved_place p ws : moved !! p = Some ws → p mod 4 = 0 ∧ 2 ≤ Z.of_nat (length ws) ≤ N - 2 ∧
  PAGE_SIZE * PTR_TO_PAGE_NUMBER p + 8 ≤ p ∧ p + 4 * Z.of_nat (length ws) ≤ PAGE_SIZE * (PTR_TO_PAGE_NUMBER p + 1).
Proof.
  intros [(ws0 & Hp & ->)|(p0 & ws0 & Hq & Hw & ->)]%moved_Some; rewrite length_forward_words.
  - destruct (kept_cell _ _ Hp) as (_ & [] & _). done.
  - by destruct (copy_at _ _ _ Hq Hw) as (_ & ? & ? & ? & ?).
Qed.

Lemma moved_shape p ws : moved !! p = Some ws → well_shaped ws.
Proof.
  intros [(ws0 & Hp & ->)|(p0 & ws0 & Hq & Hw & ->)]%moved_Some; apply forward_words_shaped; try exact copy_aligned.
  - destruct (kept_cell _ _ Hp) as (_ & Ho & _). apply Ho.
  - apply (fc_shape _ _ _ _ (cl_from _ _ _ _ Hc _ _ Hw)).
Qed.

(** The cells are apart. *)
Lemma moved_sep p1 ws1 p2 ws2 : moved !! p1 = Some ws1 → moved !! p2 = Some ws2 → p1 ≠ p2 → disj (p1, ws1) (p2, ws2).
Proof.
  assert (Hkc : ∀ p ws p0 q ws0, K !! p = Some ws → φ !! p0 = Some q → F !! p0 = Some ws0 → disj (p, forward_words φ ws) (q, forward_words φ ws0)).
  { intros p ws p0 q ws0 Hp Hq Hw. pose proof Hp as (_ & Ho & g & Hg & _)%kept_cell. pose proof (oc_place _ _ _ _ _ Ho).
    destruct (copy_at _ _ _ Hq Hw) as (Hin & H1 & H2 & _). pose proof (page_kept p g Hg) as Hnin.
    assert (PTR_TO_PAGE_NUMBER p ≠ PTR_TO_PAGE_NUMBER q) by congruence. unfold disj. simpl. rewrite !length_forward_words.
    change PAGE_SIZE with 65536 in *. lia. }
  intros [(w1 & P1 & ->)|(q1 & w1 & Q1 & W1 & ->)]%moved_Some [(w2 & P2 & ->)|(q2 & w2 & Q2 & W2 & ->)]%moved_Some Hne.
  - apply kept_cell in P1 as (P1 & _). apply kept_cell in P2 as (P2 & _).
    pose proof (ck_sep _ _ _ (db_cells _ _ _ _ Hdb) _ _ _ _ P1 P2 Hne) as Hd. unfold disj in *. simpl in *. by rewrite !length_forward_words.
  - by eapply Hkc.
  - apply disj_sym. by eapply Hkc.
  - assert (Hne' : q1 ≠ q2) by (intros ->; congruence).
    pose proof (cp_sep _ _ _ _ _ _ _ _ _ _ _ Hcp _ _ _ _ _ _ Q1 W1 Q2 W2 Hne') as Hd. unfold disj in *. simpl in *. by rewrite !length_forward_words.
Qed.

(** Their generations. *)
Lemma moved_gen_kept p ws : K !! p = Some ws → ∃ g, g ∈ V ∧ gen_of s p = Some g ∧ gen_of s4 p = Some g.
Proof. intros (_ & _ & g & Hg & Hin)%kept_cell. exists g. split; [done|]. split; [exact Hg|]. exact (gen_of_still _ _ Hg). Qed.

Lemma moved_gen p ws : moved !! p = Some ws → ∃ g, gen_of s4 p = Some g ∧ g ∈ gn :: V.
Proof.
  intros [(ws0 & Hp & ->)|(p0 & ws0 & Hq & Hw & ->)]%moved_Some.
  - destruct (moved_gen_kept p ws0 Hp) as (g & Hin & _ & Hg). exists g. split; [exact Hg|by right].
  - exists gn. split; [exact (gen_of_copy _ _ Hq)|by left].
Qed.

(** ** The new list of generations *)

Context (NL : list Z) (HNL : ∀ g, g ∈ NL ↔ g ∈ gn :: V).
Context (HO1 : ∀ g g', g ∈ V → g' ∈ V → older (ly_live D) g g' → older NL g g').
Context (HO2 : ∀ p ws i x g', F !! p = Some ws → ref_at ws i = true → ws !! i = Some x → is_Some (K !! x) →
  gen_of s x = Some g' → older NL gn g').
Context (HO3 : ∀ p ws i x g, K !! p = Some ws → ref_at ws i = true → ws !! i = Some x → is_Some (F !! x) →
  gen_of s p = Some g → older NL g gn).

Lemma moved_refs p ws i y : moved !! p = Some ws → ref_at ws i = true → ws !! i = Some y → is_Some (moved !! y) ∧
  ∃ g g', gen_of s4 p = Some g ∧ gen_of s4 y = Some g' ∧ older NL g g'.
Proof.
  intros [(ws0 & Hp & ->)|(p0 & ws0 & Hq & Hw & ->)]%moved_Some Hr Hy;
    apply forward_words_at in Hy as (x & Hr0 & Hx & ->); try exact copy_aligned; try exact Hr.
  - destruct (moved_gen_kept p ws0 Hp) as (g & HgV & Hg & Hg4).
    destruct (kept_ref _ _ _ _ Hp Hr0 Hx) as [HKx|[HFx Hφx]].
    + split; [apply moved_target; by left|]. rewrite forward_kept by exact HKx. destruct HKx as [wx HKx].
      destruct (moved_gen_kept x wx HKx) as (g' & HgV' & Hg' & Hg4'). exists g, g'. split; [exact Hg4|]. split; [exact Hg4'|].
      apply HO1; [exact HgV|exact HgV'|]. destruct (kept_cell _ _ Hp) as (_ & Ho & _).
      destruct (oc_refs _ _ _ _ _ Ho i x Hr0 Hx) as (_ & h & h' & E & E' & Hold). rewrite Hg in E. rewrite Hg' in E'. congruence.
    + split; [apply moved_target; by right|]. destruct Hφx as [q Hq]. rewrite (forward_Some _ _ _ Hq). exists g, gn.
      split; [exact Hg4|]. split; [exact (gen_of_copy _ _ Hq)|]. by eapply HO3.
  - destruct (copy_ref _ _ _ _ _ Hq Hw Hr0 Hx) as [HKx|[HFx Hφx]].
    + split; [apply moved_target; by left|]. rewrite forward_kept by exact HKx. pose proof HKx as [wx HKx'].
      destruct (moved_gen_kept x wx HKx') as (g' & HgV' & Hg' & Hg4'). exists gn, g'. split; [exact (gen_of_copy _ _ Hq)|].
      split; [exact Hg4'|]. by eapply HO2.
    + split; [apply moved_target; by right|]. destruct Hφx as [q' Hq']. rewrite (forward_Some _ _ _ Hq'). exists gn, gn.
      split; [exact (gen_of_copy _ _ Hq)|]. split; [exact (gen_of_copy _ _ Hq')|]. apply older_refl, HNL. by left.
Qed.

Lemma moved_old p ws : moved !! p = Some ws → old_cell s4 NL moved p ws.
Proof.
  intros Hp. destruct (moved_place p ws Hp) as (H1 & H2 & H3). split; [exact H1|exact H2| | |exact H3| |].
  - intros i x. by apply moved_word.
  - by eapply moved_shape.
  - destruct (moved_gen p ws Hp) as (g & Hg & Hin). exists g. split; [exact Hg|]. by apply HNL.
  - intros i x. by apply moved_refs.
Qed.

(** ** The sizes of generations *)

Lemma moved_new : cells_of s4 moved [gn] = copies φ F.
Proof.
  apply map_eq. intros p. destruct (copies φ F !! p) as [ws|] eqn:E.
  - apply copies_iff in E as (p0 & ws0 & Hq & Hw & ->). apply cells_of_Some. split; [by eapply moved_copy|].
    exists gn. split; [exact (gen_of_copy _ _ Hq)|by left].
  - apply eq_None_not_Some. intros [ws (Hp & g & Hg & ->%list_elem_of_singleton)%cells_of_Some].
    apply moved_Some in Hp as [(ws0 & Hp & ->)|Hp]; [|apply copies_iff in Hp; congruence].
    destruct (moved_gen_kept p ws0 Hp) as (g' & HgV & _ & Hg'). rewrite Hg in Hg'. injection Hg' as <-. done.
Qed.

Lemma moved_others C : (∀ g, g ∈ C → g ∈ V) → cells_of s4 moved C = forward_words φ <$> cells_of s (ly_cells D) C.
Proof.
  intros HCV. apply map_eq. intros p. rewrite lookup_fmap. destruct (cells_of s (ly_cells D) C !! p) as [ws|] eqn:E; simpl.
  - apply cells_of_Some in E as (Hp & g & Hg & HgC). apply cells_of_Some. split.
    + apply moved_kept, cells_of_Some. split; [done|]. exists g. split; [exact Hg|by apply HCV].
    + exists g. split; [exact (gen_of_still _ _ Hg)|exact HgC].
  - apply eq_None_not_Some. intros [ws (Hp & g & Hg & HgC)%cells_of_Some].
    apply moved_Some in Hp as [(ws0 & Hp & ->)|(p0 & ws0 & Hq & Hw & ->)].
    + destruct (moved_gen_kept p ws0 Hp) as (g' & _ & Hg0 & Hg'). rewrite Hg in Hg'. injection Hg' as <-.
      assert (E' : cells_of s (ly_cells D) C !! p = Some ws0); [|congruence].
      apply cells_of_Some. split; [by apply kept_cell in Hp as (Hp & _)|]. exists g. split; [exact Hg0|exact HgC].
    + pose proof (gen_of_copy _ _ Hq) as Hg'. rewrite Hg in Hg'. injection Hg' as ->. by apply HgnV, HCV.
Qed.

Lemma moved_other g : g ∈ V → cells_of s4 moved [g] = forward_words φ <$> cells_of s (ly_cells D) [g].
Proof. intros Hg. apply moved_others. by intros g' ->%list_elem_of_singleton. Qed.

(** Collection does not change the sizes of the others. *)
Lemma moved_others_words C : (∀ g, g ∈ C → g ∈ V) → total_words (cells_of s4 moved C) = total_words (cells_of s (ly_cells D) C).
Proof. intros HC. rewrite moved_others by done. apply total_words_fmap. intros ws. apply length_forward_words. Qed.

Lemma moved_first : first_generation_start s4 = first_generation_start s ∧ first_generation_end s4 = first_generation_end s ∧
  first_generation_allocation_ptr s4 = first_generation_allocation_ptr s.
Proof.
  destruct (kv_first _ _ (cp_vars _ _ _ _ _ _ _ _ _ _ _ Hcp)) as (-> & -> & ->). apply (sg_first _ _ _ Hst).
Qed.

Lemma moved_words_of_first : words_of_first s4 = words_of_first s.
Proof. unfold words_of_first. by destruct moved_first as (-> & -> & _). Qed.

Lemma moved_words_new : total_words (copies φ F) ≤ total_words F ∧ total_words (copies φ F) ≤ Z.of_nat (length pages) * (N - 2).
Proof.
  pose proof (copies_words_rest φ F copy_from copy_inj) as E.
  pose proof (cp_words _ _ _ _ _ _ _ _ _ _ _ Hcp (filter (λ c, φ !! c.1 = None) F)) as Hle.
  pose proof (total_words_nonneg (filter (λ c, φ !! c.1 = None) F)). split; [lia|].
  assert (total_words F - total_words (filter (λ c, φ !! c.1 = None) F) ≤ Z.of_nat (length pages) * (N - 2)); [|lia].
  apply Hle. intros p. rewrite map_lookup_filter. destruct (F !! p) as [ws|] eqn:EF; simpl.
  - destruct (φ !! p) as [q|]; [by rewrite option_guard_False|by rewrite option_guard_True].
  - by destruct (φ !! p).
Qed.

(** The entries of the table. *)
Lemma moved_entry g x : g ∈ V → zlookup (generation_info (gc s)) g = Some x →
  ∃ rs x1, zlookup (generation_info (gc s1)) g = Some x1 ∧ relinked x x1 ∧ zlookup (generation_info (gc s4)) g = Some (with_rem_set rs x1) ∧
  ∃ added, concat rs = added ++ concat (gi_rem_set x) ∧ NoDup added ∧
    ∀ a, a ∈ added ↔ ∃ p q ws i y, φ !! p = Some q ∧ F !! p = Some ws ∧ ref_at ws i = true ∧
      ws !! i = Some y ∧ a = q + 4 * Z.of_nat i ∧ kept s1 y g TO_BE_COLLECTED.
Proof.
  intros HgV Hx. destruct (sg_entry _ _ _ Hst g x HgV Hx) as (x1 & Hx1 & Hrl).
  destruct (cp_rem _ _ _ _ _ _ _ _ _ _ _ Hcp g x1 Hx1) as (rs & added & Hx4 & E & Hnd & Hin); [by intros ->|].
  exists rs, x1. split; [exact Hx1|]. split; [exact Hrl|]. split; [exact Hx4|]. exists added. split; [|done].
  by destruct (relinked_fields _ _ Hrl) as (_ & <- & _).
Qed.

Lemma live_entry g : g ∈ V → ∃ x, zlookup (generation_info (gc s)) g = Some x.
Proof.
  intros Hg%HV. eapply chain_lookup with (y := INV) (e := INV) (L := ly_gens D); [apply (db_table _ _ _ _ Hdb)|].
  unfold ly_live, ly_gens in *. rewrite !elem_of_app in *. tauto.
Qed.

Lemma moved_cells : cells_ok s4 NL moved.
Proof.
  split; [exact moved_old|exact moved_sep|]. intros g x Hg Hx. rewrite moved_words_of_first. apply HNL, elem_of_cons in Hg as [->|Hg].
  - rewrite moved_new. destruct moved_words_new as [H1 H2]. destruct (cp_gen _ _ _ _ _ _ _ _ _ _ _ Hcp) as (x1 & ds & _ & Hx1 & _).
    rewrite Hx in Hx1. injection Hx1 as ->. split; [|exact H2]. pose proof (cl_words _ _ _ _ Hc) as Hcw.
    destruct (sg_first _ _ _ Hst) as (E1 & E2 & _). rewrite E1, E2 in Hcw. unfold words_of_first. lia.
  - rewrite moved_other by done. rewrite total_words_fmap by (intros; apply length_forward_words).
    destruct (live_entry g Hg) as (x0 & Hx0). destruct (moved_entry g x0 Hg Hx0) as (rs & x1 & _ & Hrl & Hx4 & _).
    rewrite Hx in Hx4. injection Hx4 as ->. destruct (relinked_fields _ _ Hrl) as (_ & _ & En & _). cbn [gi_npages with_rem_set]. rewrite En.
    apply (ck_words _ _ _ (db_cells _ _ _ _ Hdb) g x0); [by apply HV|done].
Qed.

(** ** The remembered sets *)

Context (Y' : list Z) (HY' : ∀ g, g ∈ Y' ↔ g = gn ∨ g ∈ ly_new D) (HB2 : ∀ g, g ∈ B2 → g ∈ ly_await D).
Context (Hkept : ∀ x g, kept s1 x g TO_BE_COLLECTED ↔ gen_of s x = Some g ∧ g ∈ B2).

Lemma await_kept g : g ∈ B2 → g ∈ V ∧ g ≠ gn.
Proof. intros Hg. assert (HgV : g ∈ V) by (rewrite !elem_of_app; auto). split; [done|]. by intros ->. Qed.

(** The pointers into [g] from cells that are kept and from copies. *)
Lemma referrer_kept g a : g ∈ B2 → referrer s (ly_new D) (ly_cells D) g a →
  ∃ p ws i, K !! p = Some ws ∧ (i < length ws)%nat ∧ a = p + 4 * Z.of_nat i ∧ referrer s4 Y' moved g a.
Proof.
  intros Hg (p & ws & i & x & Hp & Hr & Hx & -> & Hin & Hgx).
  rewrite in_gens_iff in Hin. destruct Hin as (g0 & Hg0 & Hin). destruct (await_kept g Hg) as [HgV _].
  assert (HKp : K !! p = Some ws).
  { apply cells_of_Some. split; [done|]. exists g0. split; [exact Hg0|]. apply elem_of_app. by left. }
  assert (HKx : is_Some (K !! x)).
  { destruct (kept_cell _ _ HKp) as (_ & Ho & _). destruct (oc_refs _ _ _ _ _ Ho i x Hr Hx) as [[wx Hwx] _]. exists wx.
    apply cells_of_Some. split; [done|]. exists g. split; [exact Hgx|exact HgV]. }
  exists p, ws, i. split; [done|]. split; [by eapply lookup_lt_Some|]. split; [done|].
  destruct (forward_words_at' φ copy_aligned ws i x Hr Hx) as [Hr' Hx']. rewrite forward_kept in Hx' by done.
  exists p, (forward_words φ ws), i, x. split; [by apply moved_kept|]. split; [done|]. split; [done|]. split; [done|].
  split; [|exact (gen_of_still _ _ Hgx)]. apply in_gens_iff. exists g0. split; [exact (gen_of_still _ _ Hg0)|]. apply HY'. by right.
Qed.

Lemma referrer_moved g a : g ∈ B2 → referrer s4 Y' moved g a ↔
  referrer s (ly_new D) (ly_cells D) g a ∨ ∃ p q ws i x, φ !! p = Some q ∧ F !! p = Some ws ∧ ref_at ws i = true ∧
    ws !! i = Some x ∧ a = q + 4 * Z.of_nat i ∧ kept s1 x g TO_BE_COLLECTED.
Proof.
  intros Hg. destruct (await_kept g Hg) as [HgV Hne]. split.
  - intros (p & ws' & i & y & [(ws & Hp & ->)|(p0 & ws & Hq & Hw & ->)]%moved_Some & Hr' & Hy & -> & Hin & Hgy);
      destruct (forward_words_at φ copy_aligned ws i y Hr' Hy) as (x & Hr & Hx & ->).
    + left. destruct (kept_ref _ _ _ _ Hp Hr Hx) as [HKx|[_ [q Hq]]].
      2: { rewrite (forward_Some _ _ _ Hq), (gen_of_copy _ _ Hq) in Hgy. injection Hgy as <-. by destruct Hne. }
      rewrite forward_kept in Hgy by done. destruct HKx as [wx HKx]. destruct (moved_gen_kept x wx HKx) as (g1 & _ & Hg1 & Hg1').
      rewrite Hgy in Hg1'. injection Hg1' as <-. destruct (moved_gen_kept p ws Hp) as (g2 & HgV2 & Hg2 & Hg2').
      rewrite in_gens_iff in Hin. destruct Hin as (g3 & Hg3 & Hin). rewrite Hg2' in Hg3. injection Hg3 as <-.
      exists p, ws, i, x. split; [by apply kept_cell in Hp as (Hp & _)|]. split; [done|]. split; [done|]. split; [done|].
      split; [|exact Hg1]. apply in_gens_iff. exists g2. split; [exact Hg2|]. apply HY' in Hin as [->|]; done.
    + right. exists p0, p, ws, i, x. split_and!; [done..|]. apply Hkept.
      destruct (copy_ref _ _ _ _ _ Hq Hw Hr Hx) as [HKx|[_ [q Hq']]].
      2: { rewrite (forward_Some _ _ _ Hq'), (gen_of_copy _ _ Hq') in Hgy. injection Hgy as <-. by destruct Hne. }
      rewrite forward_kept in Hgy by done. destruct HKx as [wx HKx]. destruct (moved_gen_kept x wx HKx) as (g1 & _ & Hg1 & Hg1').
      rewrite Hgy in Hg1'. injection Hg1' as <-. split; [exact Hg1|exact Hg].
  - intros [Hold|(p & q & ws & i & x & Hq & Hw & Hr & Hx & -> & Hkx)].
    { by destruct (referrer_kept g a Hg Hold) as (_ & _ & _ & _ & _ & _ & ?). }
    assert (HKx : is_Some (K !! x)).
    { destruct (HF _ _ _ _ Hw Hr Hx) as [[wx HFx]|]; [|done]. by destruct (from_not_kept Hc _ _ _ _ HFx Hkx). }
    apply Hkept in Hkx as [Hgx _]. destruct (forward_words_at' φ copy_aligned ws i x Hr Hx) as [Hr' Hx'].
    rewrite forward_kept in Hx' by done. exists q, (forward_words φ ws), i, x. split; [by eapply moved_copy|].
    split; [done|]. split; [done|]. split; [done|]. split; [|exact (gen_of_still _ _ Hgx)].
    apply in_gens_iff. exists gn. split; [exact (gen_of_copy _ _ Hq)|]. apply HY'. by left.
Qed.

Lemma moved_rems : rems_ok s4 Y' B2 moved.
Proof.
  intros g x4 Hg Hx4. destruct (await_kept g Hg) as [HgV _]. destruct (live_entry g HgV) as (x & Hx).
  destruct (moved_entry g x HgV Hx) as (rs & x1 & _ & _ & E & added & Ers & Hnd & Hadd). rewrite Hx4 in E. injection E as ->.
  cbn [gi_rem_set with_rem_set]. rewrite Ers. destruct (db_rems _ _ _ _ Hdb g x (HB2 g Hg) Hx) as [Hnd0 Hold]. split.
  - apply NoDup_app. split; [exact Hnd|]. split; [|exact Hnd0].
    intros a (p & q & ws & i & y & Hq & Hw & _ & Hy & -> & _)%Hadd (p2 & ws2 & i2 & Hp2 & Hi2 & E & _)%Hold%referrer_kept; [|exact Hg].
    apply lookup_lt_Some in Hy. destruct (copy_at _ _ _ Hq Hw) as (Hpn & Hlo & Hhi & _).
    destruct (kept_outside p2 ws2 i2 Hp2 Hi2) as (_ & Hfree2 & _). apply (Hfree2 (PTR_TO_PAGE_NUMBER q)); [by apply to_page|].
    rewrite <- E. unfold in_page. change PAGE_SIZE with 65536 in *. lia.
  - intros a. by rewrite elem_of_app, referrer_moved, Hadd, Hold, (or_comm (referrer _ _ _ _ _)).
Qed.

(** ** The roots *)

Context (Hrl : ∀ pp, root_loc s1 (ly_smart D).*1 pp → rl pp).
Context (first' : gmap Z (list Z)).
Context (Hcases : ∀ x, cell_in D x → is_Some (K !! x) ∨ is_Some (F !! x) ∨ F !! x = None ∧ is_Some (first' !! x)).

(** A root word after the collection. *)
Lemma moved_root_word i x : zlookup (root s) i = Some x →
  zlookup (root s4) i = Some x ∨ ∃ q, φ !! x = Some q ∧ zlookup (root s4) i = Some q.
Proof.
  destruct (sg_root _ _ _ Hst) as (Er & _ & _). rewrite <- Er. intros Hx. destruct (Hdec (RootWord i)) as [Hr|Hr].
  - pose proof (cp_loc _ _ _ _ _ _ _ _ _ _ _ Hcp (RootWord i) x Hr Hx) as E. simpl in E. unfold forward in E.
    destruct (φ !! x) as [q|] eqn:Eq; [right; by exists q|by left].
  - left. exact (cp_other _ _ _ _ _ _ _ _ _ _ _ Hcp (RootWord i) x I Hr Hx).
Qed.

Lemma moved_accu : accu_holds_ptr s4 = accu_holds_ptr s.
Proof.
  unfold accu_holds_ptr. pose proof (ro_root _ _ _ (db_roots _ _ _ _ Hdb)) as Hl. change NUMBER_OF_ROOT_IXS with 45 in Hl.
  set (i7 := root_ix_num ROOT_IX_suspended_accu_type). set (i8 := root_ix_num ROOT_IX_suspended_accu).
  destruct (lookup_lt_is_Some_2 (root s) i7) as [ty Hty]; [change i7 with 7%nat; lia|].
  destruct (lookup_lt_is_Some_2 (root s) i8) as [x Hx]; [change i8 with 8%nat; lia|]. rewrite Hty, Hx.
  assert (Hw : ∀ (i : nat) z, root s !! i = Some z → root s4 !! i = Some z ∨ ∃ q, φ !! z = Some q ∧ root s4 !! i = Some q).
  { intros i z Hz. destruct (moved_root_word (Z.of_nat i) z) as [H|(q & Hq & H)].
    - apply zlookup_Some. rewrite Nat2Z.id. split; [apply lookup_lt_Some in Hz; lia|done].
    - left. apply zlookup_Some in H as [_ H]. by rewrite Nat2Z.id in H.
    - right. exists q. apply zlookup_Some in H as [_ H]. by rewrite Nat2Z.id in H. }
  assert (Htag : ∀ y, root s4 !! i8 = Some y → TAGGED_IS_PTR y = TAGGED_IS_PTR x).
  { intros y Hy. destruct (Hw i8 x Hx) as [E|(q & Hq & E)]; rewrite E in Hy; injection Hy as <-; [done|].
    rewrite !aligned_tag. destruct (copy_aligned _ _ Hq) as (H1 & H2 & _). by rewrite !bool_decide_eq_true_2. }
  assert (Hy : ∃ y, root s4 !! i8 = Some y) by (destruct (Hw i8 x Hx) as [E|(q & _ & E)]; eauto).
  destruct Hy as [y Hy]. rewrite Hy, (Htag y Hy). destruct (Hw i7 ty Hty) as [-> |(q & Hq & ->)]; [done|].
  assert (Hz : ∀ z, z mod 4 = 0 → (z ≠ PTR) ∧ (z ≠ NONNULL_PTR) ∧ z ≠ TAGGED).
  { intros z Hz. split_and!; intros ->; by vm_compute in Hz. }
  destruct (copy_aligned _ _ Hq) as (H1 & H2 & _). destruct (Hz _ H1) as (N1 & N2 & N3). destruct (Hz _ H2) as (N4 & N5 & N6).
  by rewrite !bool_decide_eq_false_2.
Qed.

Lemma moved_words : (∀ i : nat, ix_is_ptr s !! i ≠ Some true → i ≠ root_ix_num ROOT_IX_suspended_accu → ¬ rl (RootWord (Z.of_nat i))) → same_words s s4.
Proof.
  intros Hn i Hi Ha _. destruct (sg_root _ _ _ Hst) as (Er & _ & _). destruct (kv_same _ _ (cp_vars _ _ _ _ _ _ _ _ _ _ _ Hcp)) as (_ & _ & _ & El & _).
  destruct (root s !! i) as [x|] eqn:Ex.
  - pose proof (cp_other _ _ _ _ _ _ _ _ _ _ _ Hcp (RootWord (Z.of_nat i)) x I (Hn i Hi Ha)) as H. simpl in H.
    rewrite !zlookup_Some in H. rewrite Nat2Z.id, Er in H. apply H. split; [apply lookup_lt_Some in Ex; lia|done].
  - apply lookup_ge_None. apply lookup_ge_None in Ex. by rewrite El, Er.
Qed.

Lemma moved_undisturbed : flags (gc s1) = flags (gc s) →
  (∀ i : nat, ix_is_ptr s !! i ≠ Some true → i ≠ root_ix_num ROOT_IX_suspended_accu → ¬ rl (RootWord (Z.of_nat i))) → undisturbed s s4.
Proof.
  intros Hfl Hn. destruct (cp_vars _ _ _ _ _ _ _ _ _ _ _ Hcp) as [(K1 & K2 & _) (V1 & _ & _ & V2 & _ & V3 & V4 & _) (V5 & _) _].
  destruct (sg_first _ _ _ Hst) as (S1 & S2 & _). destruct (sg_root _ _ _ Hst) as (S3 & S4 & _). split; [split; [split|]|].
  - split; congruence.
  - split; congruence.
  - exact moved_accu.
  - by apply moved_words.
  - rewrite <- Hfl. unfold flags. by rewrite V3, V4, V5.
Qed.

Lemma moved_roots : ∃ l', l'.*1 = (ly_smart D).*1 ∧
  roots_ok s4 (λ x, is_Some (moved !! x) ∨ is_Some (first' !! x)) l'.
Proof.
  destruct (db_roots _ _ _ _ Hdb) as [R1 R2 R3 R4]. destruct (sg_root _ _ _ Hst) as (Er & Eix & Esp).
  destruct (cp_ring _ _ _ _ _ _ _ _ _ _ _ Hcp (ly_smart D)) as (l' & Hring & El).
  { by rewrite Esp. }
  { intros sp Hsp. by apply Hrl. }
  destruct (kv_same _ _ (cp_vars _ _ _ _ _ _ _ _ _ _ _ Hcp)) as (Eix4 & _ & _ & El4 & _).
  exists l'. split; [done|]. split; [by rewrite El4, Er|by rewrite Eix4, Eix|done|].
  intros pp x' Hpp Hx'. assert (Hpp1 : root_loc s1 (ly_smart D).*1 pp).
  { destruct pp as [a|i|sp]; [done| |by rewrite El in Hpp]. destruct Hpp as [[Hi Hix]|[-> Ha]].
    - left. by rewrite <- Eix4.
    - right. split; [done|]. rewrite moved_accu in Ha. unfold accu_holds_ptr in *. by rewrite Er. }
  assert (Hpp0 : root_loc s (ly_smart D).*1 pp).
  { destruct pp as [a|i|sp]; [done| |done]. destruct Hpp1 as [[Hi Hix]|[-> Ha]]; [left; by rewrite <- Eix|right].
    split; [done|]. unfold accu_holds_ptr in *. by rewrite <- Er. }
  assert (Eloc : loc_get pp s1 = loc_get pp s) by (destruct pp as [a|i|sp]; [done|simpl; by rewrite Er|simpl; by rewrite Esp]).
  destruct (root_loc_some _ _ _ _ (db_roots _ _ _ _ Hdb) Hpp0) as [x Hx]. pose proof Hx as Hx1. rewrite <- Eloc in Hx1.
  rewrite (cp_loc _ _ _ _ _ _ _ _ _ _ _ Hcp pp x (Hrl _ Hpp1) Hx1) in Hx'. injection Hx' as <-.
  destruct (R4 pp x Hpp0 Hx) as [->|Hcell]; [left|right].
  - by apply forward_null; [exact copy_aligned|].
  - destruct (Hcases x Hcell) as [HKx|[HFx|[HFx Hf']]].
    + left. apply moved_target. by left.
    + left. apply moved_target. right. eapply loc_copied; [exact (Hrl _ Hpp1)|exact Hx1|exact HFx].
    + right. rewrite forward_None; [done|]. apply eq_None_not_Some. intros [q [w Hw]%copy_from]. congruence.
Qed.

(** ** Pages *)

Context (HrlK : ∀ a, rl (Image a) → ∃ p ws i, K !! p = Some ws ∧ (i < length ws)%nat ∧ a = p + 4 * Z.of_nat i).
Context (HFpage : ∀ p ws pn, F !! p = Some ws → 0 ≤ pn < Z.of_nat (length (page_info (gc s))) →
  ¬ (p ≤ PAGE_SIZE * pn < p + 4 * Z.of_nat (length ws))).
Context (Hfresh : ∀ x, zlookup (generation_info (gc s)) gn = Some x → nonexistent x).

Lemma moved_mem a : (∀ pn, pn ∈ pages → ¬ in_page pn a) → (∀ p ws, F !! p = Some ws → ¬ (p ≤ a < p + 4 * Z.of_nat (length ws))) →
  (∀ p ws, K !! p = Some ws → ¬ (p ≤ a < p + 4 * Z.of_nat (length ws))) → mem s4 !! a = mem s !! a.
Proof.
  intros H1 H2 H3. rewrite (cp_mem _ _ _ _ _ _ _ _ _ _ _ Hcp) by (done || intros (p & ws & i & Hp & Hi & ->)%HrlK; apply (H3 p ws Hp); lia).
  by rewrite (sg_mem _ _ _ Hst).
Qed.

Lemma used_page_kept pn : used_page s pn → pn ∉ pages → used_page s4 pn.
Proof.
  intros [U1 U2 (pg & Hpg & Hal)] Hn. apply zlookup_Some in Hpg as Hr. destruct Hr as [Hr _]. split.
  - rewrite moved_mem; [exact U1|..].
    + intros pn' Hin Ha. assert (E : pn' = pn); [|by rewrite E in Hin]. eapply in_page_inj; [exact Ha|]. unfold in_page.
      change PAGE_SIZE with 65536. lia.
    + intros p ws Hw. by apply HFpage.
    + intros p ws Hp Ha. destruct (kept_cell _ _ Hp) as (_ & Ho & _). pose proof (oc_place _ _ _ _ _ Ho). change PAGE_SIZE with 65536 in *. lia.
  - intros i Hi. apply (cp_mapped _ _ _ _ _ _ _ _ _ _ _ Hcp). rewrite (sg_mem _ _ _ Hst). by apply U2.
  - exists pg. rewrite (cp_others _ _ _ _ _ _ _ _ _ _ _ Hcp _ Hn), (sg_pages _ _ _ Hst). done.
Qed.

Lemma to_page_used pn : pn ∈ pages → used_page s4 pn.
Proof.
  intros Hin. destruct (to_page pn Hin) as [Hf _]. split.
  - by apply (cp_magic _ _ _ _ _ _ _ _ _ _ _ Hcp).
  - intros i Hi. apply (cp_mapped _ _ _ _ _ _ _ _ _ _ _ Hcp).
    destruct (pool_virgin _ _ (cl_pool _ _ _ _ Hc) _ Hf) as [H0 H1]. destruct (decide (i = 0)) as [->|].
    + rewrite Z.mul_0_r, Z.add_0_r, H0. eauto.
    + rewrite H1 by lia. eauto.
  - destruct (cp_pages _ _ _ _ _ _ _ _ _ _ _ Hcp _ Hin) as (pg & H1 & H2 & _). by exists pg.
Qed.

(** Entries of generations that exist; statuses and lists do not change. *)
Definition same_lists (x x' : generation_info_t) : Prop := gi_status x' = gi_status x ∧ gi_younger x' = gi_younger x ∧
  gi_older x' = gi_older x ∧ gi_from x' = gi_from x ∧ gi_next_from x' = gi_next_from x ∧
  gi_next_collected_twice x' = gi_next_collected_twice x.

Lemma moved_lists g x1 : zlookup (generation_info (gc s1)) g = Some x1 →
  ∃ x4, zlookup (generation_info (gc s4)) g = Some x4 ∧ same_lists x1 x4 ∧
    (g ≠ gn → ∃ rs, x4 = with_rem_set rs x1) ∧ (gi_status x1 = NORMAL → concat (gi_rem_set x4) = concat (gi_rem_set x1)).
Proof.
  intros Hx1. destruct (decide (g = gn)) as [->|Hne].
  - destruct (cp_gen _ _ _ _ _ _ _ _ _ _ _ Hcp) as (x & ds & Hx & Hx4 & _). rewrite Hx1 in Hx. injection Hx as <-.
    eexists. split; [exact Hx4|]. split; [by split_and!|]. split; [done|]. done.
  - destruct (cp_rem _ _ _ _ _ _ _ _ _ _ _ Hcp g x1 Hx1 Hne) as (rs & added & Hx4 & E & _ & Hadd).
    eexists. split; [exact Hx4|]. split; [by split_and!|]. split; [by exists rs|]. intros Hn. cbn [gi_rem_set with_rem_set]. rewrite E.
    destruct added as [|a added]; [done|]. destruct (proj1 (Hadd a) ltac:(by left)) as (p & q & ws & i & y & _ & _ & _ & _ & _ & (_ & _ & (z & Hz & Es) & _)).
    rewrite Hx1 in Hz. injection Hz as <-. congruence.
Qed.

Lemma moved_lists_inv g x4 : zlookup (generation_info (gc s4)) g = Some x4 → ∃ x1, zlookup (generation_info (gc s1)) g = Some x1 ∧
  same_lists x1 x4 ∧ (g ≠ gn → ∃ rs, x4 = with_rem_set rs x1) ∧ (gi_status x1 = NORMAL → concat (gi_rem_set x4) = concat (gi_rem_set x1)).
Proof.
  intros Hx4. assert (Hr : 0 ≤ g < Z.of_nat (length (generation_info (gc s1)))).
  { apply zlookup_Some in Hx4 as [Hr _]. destruct (kv_lengths _ _ (cp_vars _ _ _ _ _ _ _ _ _ _ _ Hcp)) as (E & _). by rewrite E in Hr. }
  destruct (zlookup_lt _ _ Hr) as [x1 Hx1]. exists x1. split; [done|]. destruct (moved_lists g x1 Hx1) as (x & Hx & H).
  rewrite Hx4 in Hx. by injection Hx as <-.
Qed.

(** An entry of the table before. *)
Lemma moved_same g x : zlookup (generation_info (gc s)) g = Some x → ¬ nonexistent x → ∃ x4, zlookup (generation_info (gc s4)) g = Some x4 ∧
  gi_npages x4 = gi_npages x ∧ gi_page x4 = gi_page x ∧ gi_disk_page x4 = gi_disk_page x.
Proof.
  intros Hx Hn. destruct (sg_other _ _ _ Hst g x Hx Hn) as (x1 & Hx1 & E1 & E2 & E3).
  destruct (moved_lists g x1 Hx1) as (x4 & Hx4 & _ & Hrs & _). exists x4. split; [done|].
  destruct Hrs as [rs ->]; [|done]. intros ->. by apply Hn, Hfresh.
Qed.

Context (C' : list Z) (fr' : Z → list Z).
#[local] Abbreviation GL := (Y' ++ C' ++ B2 ++ ly_old D).
Context (HGL : ∀ g, g ∈ GL ↔ g = gn ∨ g ∈ ly_gens D).

Lemma moved_paging : paging s4 GL free'.
Proof.
  pose proof (db_paging _ _ _ _ Hdb) as [Pp Pe Pg Po Pf]. destruct (cp_gen _ _ _ _ _ _ _ _ _ _ _ Hcp) as (x0 & ds & Hx0 & Hgx & Hds).
  assert (Hold : ∀ g x4, g ≠ gn → g ∈ GL → zlookup (generation_info (gc s4)) g = Some x4 → ∃ x, g ∈ ly_gens D ∧
    zlookup (generation_info (gc s)) g = Some x ∧ gi_npages x4 = gi_npages x ∧ gi_page x4 = gi_page x ∧ gi_disk_page x4 = gi_disk_page x).
  { intros g x4 Hne [->|Hg]%HGL Hx4; [done|]. destruct (gen_entry _ _ _ _ Hdb g Hg) as (x & Hx). exists x. split; [done|]. split; [done|].
    destruct (moved_same g x Hx) as (x' & Hx' & E); [by eapply gen_exists|]. rewrite Hx4 in Hx'. by injection Hx' as <-. }
  assert (Hnew : ∀ x4, zlookup (generation_info (gc s4)) gn = Some x4 → gi_npages x4 = Z.of_nat (length pages) ∧ gi_page x4 = pages ∧ gi_disk_page x4 = ds).
  { intros x4 Hx4. rewrite Hgx in Hx4. by injection Hx4 as <-. }
  pose proof (pool_nodup _ _ Pp) as Hndf. rewrite Hfree in Hndf. apply NoDup_app in Hndf as (Hndp & _ & _). split.
  - apply Hcp.
  - intros g x4 Hg Hx4. destruct (decide (g = gn)) as [->|Hne].
    + destruct (Hnew x4 Hx4) as (-> & -> & ->). split; [done|]. split; [|exact Hndp]. apply (st_length _ _ _ _ _ _ Hds).
    + destruct (Hold g x4 Hne Hg Hx4) as (x & Hg' & Hx & -> & -> & ->). by eapply Pe.
  - intros g x4 pn Hg Hx4 Hpn. destruct (decide (g = gn)) as [->|Hne].
    + destruct (Hnew x4 Hx4) as (_ & E & _). rewrite E in Hpn. split; [by apply to_page_used|]. by apply (cp_pages _ _ _ _ _ _ _ _ _ _ _ Hcp).
    + destruct (Hold g x4 Hne Hg Hx4) as (x & Hg' & Hx & _ & E & _). rewrite E in Hpn.
      destruct (Pg g x pn Hg' Hx Hpn) as (Hu & pg & Hpg & Hal & Egn).
      assert (Hn : pn ∉ pages).
      { intros Hin. destruct (to_page _ Hin) as [Hf _]. destruct (pool_page _ _ _ Pp Hf) as (_ & pg' & Hpg' & Hal'). congruence. }
      split; [by apply used_page_kept|]. exists pg. by rewrite (cp_others _ _ _ _ _ _ _ _ _ _ _ Hcp _ Hn), (sg_pages _ _ _ Hst).
  - intros pn pg Hpg Hal. destruct (decide (pn ∈ pages)) as [Hin|Hn].
    + destruct (cp_pages _ _ _ _ _ _ _ _ _ _ _ Hcp _ Hin) as (pg' & Hpg' & _ & Egn). rewrite Hpg in Hpg'. injection Hpg' as <-. rewrite Egn.
      split; [apply HGL; by left|]. intros x4 Hx4. by destruct (Hnew x4 Hx4) as (_ & -> & _).
    + rewrite (cp_others _ _ _ _ _ _ _ _ _ _ _ Hcp _ Hn), (sg_pages _ _ _ Hst) in Hpg. destruct (Po pn pg Hpg Hal) as [Hg Hin].
      split; [apply HGL; by right|]. intros x4 Hx4. destruct (gen_entry _ _ _ _ Hdb _ Hg) as (x & Hx).
      destruct (moved_same _ x Hx) as (x' & Hx' & _ & E & _); [by eapply gen_exists|]. rewrite Hx4 in Hx'. injection Hx' as <-. rewrite E. by apply Hin.
  - intros pn pg Hpg Hal. destruct (decide (pn ∈ pages)) as [Hin|Hn].
    + destruct (cp_pages _ _ _ _ _ _ _ _ _ _ _ Hcp _ Hin) as (pg' & Hpg' & Hal' & _). congruence.
    + rewrite (cp_others _ _ _ _ _ _ _ _ _ _ _ Hcp _ Hn), (sg_pages _ _ _ Hst) in Hpg. pose proof (Pf pn pg Hpg Hal) as Hf.
      rewrite Hfree in Hf. by apply elem_of_app in Hf as [|].
Qed.

(** ** The table *)

Context (Htab1 : table_ok (gc s1) Y' C' B2 (ly_old D)) (tw : list Z).
Context (Hret1 : retired_ok (gc s1) Y' C' B2 (ly_old D) fr' tw).

Lemma moved_table : table_ok (gc s4) Y' C' B2 (ly_old D).
Proof.
  destruct Htab1 as [T1 T2 T3 T4 T5 T6 T7 T8]. pose proof (cp_vars _ _ _ _ _ _ _ _ _ _ _ Hcp) as [_ _ (_ & Kn & Kx & Ky & _) (Kl & _)]. split.
  - eapply gens_ok_same; [exact T1|exact Kl|exact Kx|exact Kn|]. intros i x Hx. destruct (moved_lists i x Hx) as (x4 & Hx4 & (E & _) & _).
    exists x4. split; [done|]. unfold nonexistent. by rewrite E.
  - exact T2.
  - exact T3.
  - eapply chain_same; [exact T2|exact T4|]. intros g x Hg Hx. destruct (moved_lists g x Hx) as (x4 & Hx4 & (_ & E1 & E2 & _) & _). by exists x4.
  - by rewrite Ky.
  - intros g x4 Hg Hx4. destruct (moved_lists_inv g x4 Hx4) as (x1 & Hx1 & (E & _) & _ & Er). destruct (T6 g x1 Hg Hx1) as [H1 H2].
    by rewrite E, Er by done.
  - intros g x4 Hg Hx4. destruct (moved_lists_inv g x4 Hx4) as (x1 & Hx1 & (-> & _) & _). by apply (T7 g).
  - intros g x4 Hg Hx4. destruct (moved_lists_inv g x4 Hx4) as (x1 & Hx1 & (-> & _) & _). by apply (T8 g).
Qed.

Lemma moved_retired : retired_ok (gc s4) Y' C' B2 (ly_old D) fr' tw.
Proof.
  destruct Hret1 as [R1 R2 R3 R4 R5 R6]. pose proof (cp_vars _ _ _ _ _ _ _ _ _ _ _ Hcp) as [_ _ (_ & _ & _ & _ & _ & Kt) _]. split.
  - intros g x4 Hg Hx4. destruct (moved_lists_inv g x4 Hx4) as (x1 & Hx1 & (_ & _ & _ & -> & _) & _).
    eapply follows_same; [|by apply R1]. intros i z _ Hz. destruct (moved_lists i z Hz) as (z4 & Hz4 & (_ & _ & _ & _ & E & _) & _). by exists z4.
  - rewrite Kt. eapply follows_same; [|exact R2]. intros i z _ Hz. destruct (moved_lists i z Hz) as (z4 & Hz4 & (_ & _ & _ & _ & _ & E) & _). by exists z4.
  - exact R3.
  - exact R4.
  - intros g x4 Hg HgC Hx4. destruct (moved_lists_inv g x4 Hx4) as (x1 & Hx1 & (-> & _) & _). by apply (R5 g).
  - intros g x4 Hg Hx4. destruct (moved_lists_inv g x4 Hx4) as (x1 & Hx1 & (-> & _) & _). by apply (R6 g).
Qed.

(** ** The disk *)

Context (Hfiled : ∀ g, g ∈ ly_filed D → ∃ x, zlookup (generation_info (gc s)) g = Some x ∧ ¬ nonexistent x).
Context (FL : list Z) (HFL : FL ≡ₚ gn :: ly_filed D).

Lemma moved_disk_pages g : g ∈ ly_filed D → disk_pages (generation_info (gc s4)) g = disk_pages (generation_info (gc s)) g.
Proof.
  intros Hg. destruct (Hfiled g Hg) as (x & Hx & Hn). destruct (moved_same g x Hx Hn) as (x4 & Hx4 & _ & _ & E).
  unfold disk_pages. by rewrite Hx, Hx4, E.
Qed.

Lemma moved_filing : filing (gc s4) FL A'.
Proof.
  pose proof (db_filing _ _ _ _ Hdb) as [F1 F2 F3]. destruct (cp_gen _ _ _ _ _ _ _ _ _ _ _ Hcp) as (x0 & ds & Hx0 & Hgx & Hds).
  assert (Enew : disk_pages (generation_info (gc s4)) gn = ds) by (unfold disk_pages; by rewrite Hgx).
  assert (Eold : disk_pages (generation_info (gc s4)) <$> ly_filed D = disk_pages (generation_info (gc s)) <$> ly_filed D).
  { apply list_fmap_ext. intros i g Hg. apply moved_disk_pages. by eapply list_elem_of_lookup_2. }
  assert (Ep : concat (disk_pages (generation_info (gc s4)) <$> FL) ≡ₚ ds ++ concat (disk_pages (generation_info (gc s)) <$> ly_filed D)).
  { rewrite <- Eold, <- Enew. rewrite HFL. done. }
  pose proof (st_length _ _ _ _ _ _ Hds) as Hl. split.
  - rewrite Ep. apply NoDup_app. split; [|split; [|exact F1]].
    + apply NoDup_alt. intros i j d Hi Hj. eapply (st_distinct _ _ _ _ _ _ Hds); [| |exact Hi|exact Hj]; rewrite <- Hl; by eapply lookup_lt_Some.
    + intros d [i Hi]%list_elem_of_lookup [w Hw]%F2. rewrite (st_new _ _ _ _ _ _ Hds i d) in Hw; [done| |done].
      rewrite <- Hl. by eapply lookup_lt_Some.
  - intros d. rewrite Ep. intros [[i Hi]%list_elem_of_lookup|[w Hw]%F2]%elem_of_app.
    + pose proof (lookup_lt_Some _ _ _ Hi) as Hlt. rewrite Hl in Hlt. destruct (lookup_lt_is_Some_2 pages i Hlt) as [pn Hpn].
      destruct (st_page _ _ _ _ _ _ Hds i pn d Hlt Hpn Hi) as (ws & _ & Hws & _). by exists ws.
    + exists w. by apply (st_old _ _ _ _ _ _ Hds).
  - intros g x4 Hg Hx4. rewrite HFL in Hg. apply elem_of_cons in Hg as [->|Hg].
    + rewrite Hgx in Hx4. injection Hx4 as <-. cbn [gi_npages gi_disk_page with_pages]. by rewrite Hl.
    + destruct (Hfiled g Hg) as (x & Hx & Hn). destruct (moved_same g x Hx Hn) as (x' & Hx' & E1 & _ & E2).
      rewrite Hx4 in Hx'. injection Hx' as <-. rewrite E1, E2. by apply (F3 g).
Qed.

(** ** The bounds *)

Lemma moved_wf : wf s4.
Proof.
  pose proof (db_bounds _ _ _ _ Hdb) as [[W1 W2 W3 W4 W5 W6 W7 W8] Wp _ _ _ _]. destruct moved_first as (E1 & E2 & E3).
  split; rewrite ?E1, ?E2, ?E3; try done.
  - intros a Ha Ha4. rewrite moved_mem; [by apply W7|..].
    + intros pn Hin Hpa. destruct (to_page pn Hin) as [Hf _]. destruct (pool_page _ _ _ (pk_pool _ _ _ (db_paging _ _ _ _ Hdb)) Hf) as [Hr _].
      unfold in_page in Hpa. change PAGE_SIZE with 65536 in *. lia.
    + intros p ws Hw. pose proof (cl_from _ _ _ _ Hc _ _ Hw) as Hf. destruct (sg_first _ _ _ Hst) as (S1 & S2 & S3).
      destruct (fc_place _ _ _ _ Hf) as [Hlo|(g & _ & _ & _ & Hhi)]; [rewrite S3 in Hlo; lia|rewrite S2 in Hhi; lia].
    + intros p ws (_ & Ho & g & Hg & _)%kept_cell. destruct (gen_of_low _ _ _ _ Hdb _ _ Hg) as (_ & Hlow & _).
      pose proof (oc_place _ _ _ _ _ Ho). lia.
  - intros a Ha Ha4. apply (cp_mapped _ _ _ _ _ _ _ _ _ _ _ Hcp). rewrite (sg_mem _ _ _ Hst). by apply W8.
Qed.

Lemma moved_bounds : bounds_ok s4.
Proof.
  pose proof (db_bounds _ _ _ _ Hdb) as [W1 W2 W3 W4 W5 W6]. destruct moved_first as (E1 & E2 & E3).
  destruct (cp_vars _ _ _ _ _ _ _ _ _ _ _ Hcp) as [_ _ (Kr & _) (_ & Kp & _)].
  split; rewrite ?E1, ?E2, ?moved_words_of_first; try done; [exact moved_wf| |].
  - rewrite Kp. by rewrite (sg_pages _ _ _ Hst).
  - rewrite Kr. apply Hc.
Qed.

(** The cells of the first generation, when cells of other generations were copied. *)
Lemma moved_young : (∀ g, g ∈ L → g ∈ ly_live D → g ∈ V) →
  (∀ p ws, F !! p = Some ws → p + 4 * Z.of_nat (length ws) ≤ first_generation_end s) → young_ok s4 L moved (ly_first D).
Proof.
  intros HL HFlow. destruct (db_young _ _ _ _ Hdb) as [Y1 Y2 Y3]. destruct moved_first as (E1 & E2 & E3).
  pose proof (wf_ap _ (bd_wf _ (db_bounds _ _ _ _ Hdb))) as Hap.
  split; [|exact Y2|by rewrite E1, E3]. intros p ws Hp. destruct (Y1 p ws Hp) as [C1 C2 C3 C4 C5 C6]. split; try done.
  - intros i x Hx. rewrite moved_mem; [by apply C3|..].
    + intros pn Hin Hpa. destruct (to_page pn Hin) as [Hf _]. destruct (pool_page _ _ _ (pk_pool _ _ _ (db_paging _ _ _ _ Hdb)) Hf) as [Hr _].
      pose proof (bd_pages _ (db_bounds _ _ _ _ Hdb)). unfold in_page in Hpa. change PAGE_SIZE with 65536 in *. lia.
    + intros p' ws' Hw. specialize (HFlow p' ws' Hw). lia.
    + intros p' ws' (_ & Ho & g & Hg & _)%kept_cell. destruct (gen_of_low _ _ _ _ Hdb _ _ Hg) as (_ & Hlow & _).
      pose proof (oc_place _ _ _ _ _ Ho). lia.
  - by rewrite E1, E3.
  - intros i x Hr Hx. destruct (C6 i x Hr Hx) as [|[[wx Hwx] Hin]]; [by left|right].
    rewrite in_gens_iff in Hin. destruct Hin as (g & Hg & HgL).
    assert (HKx : is_Some (K !! x)).
    { exists wx. apply cells_of_Some. split; [done|]. exists g. split; [exact Hg|]. apply HL; [done|].
      destruct (cell_gen _ _ _ _ Hdb x wx Hwx) as (g' & Hg' & Hlv). congruence. }
    split.
    + rewrite <- (forward_kept x HKx). apply moved_target. by left.
    + rewrite in_gens_iff. exists g. split; [exact (gen_of_still _ _ Hg)|exact HgL].
Qed.

(** The room that is left, when the table had [kd] more entries and one more generation. *)
Lemma moved_few_pages : Z.of_nat (length pages) * (N - 2) ≤ 2 * total_words F + (N - 2) ∧ Z.of_nat (length pages) < MAX_GENERATION_SIZE.
Proof.
  pose proof (cp_few _ _ _ _ _ _ _ _ _ _ _ Hcp) as Hf. pose proof (bd_size _ (db_bounds _ _ _ _ Hdb)) as Hs.
  pose proof (cl_words _ _ _ _ Hc) as Hw. destruct (sg_first _ _ _ Hst) as (E1 & E2 & _). rewrite E1, E2 in Hw. fold (words_of_first s) in Hw.
  pose proof (total_words_nonneg F). change (N - 2) with 16382 in *. change N with 16384 in *. change MAX_GENERATION_SIZE with 41 in *. split; zdiv.
Qed.

Lemma moved_room kd k w : doubled kd (gc s) → length (generation_info (gc s1)) = (length (generation_info (gc s)) + kd)%nat →
  number_of_nonexistent_generations (gc s1) = number_of_nonexistent_generations (gc s) + Z.of_nat kd - 1 →
  space_for s (ly_free D) k w → 1 ≤ k → space_for s4 free' (k - 1) (w - total_words F).
Proof.
  intros Hd E1 E2 [R1 R2 [R4 R5]] Hk. destruct moved_few_pages as [Hf _].
  destruct (cp_vars _ _ _ _ _ _ _ _ _ _ _ Hcp) as [_ _ (_ & Kn & _) (Kl & _ & Kf)].
  assert (Elen : length (ly_free D) = (length pages + length free')%nat) by (rewrite Hfree; apply length_app). rewrite Elen in R1.
  split; rewrite ?(cp_free _ _ _ _ _ _ _ _ _ _ _ Hcp), ?Kf, ?Kl, ?Kn, ?(sg_io _ _ _ Hst), ?E1, ?E2;
    change (N - 2) with 16382 in *; unfold doubled in Hd; [lia|lia|split; lia].
Qed.

(** ** All together *)

Definition new_layout (l' : list (Z * Z)) : layout := Layout Y' C' B2 (ly_old D) moved first' l' free' fr' tw A'.

Context (HNLeq : NL = Y' ++ B2 ++ ly_old D) (HFLeq : FL = ly_filed (new_layout [])).
Context (L' : list Z) (Hyoung : young_ok s4 L' moved first').

Lemma moved_db : ∃ l', l'.*1 = (ly_smart D).*1 ∧ db s4 (new_layout l') L' r.
Proof.
  destruct moved_roots as (l' & El & Hroots). exists l'. split; [done|]. split.
  - exact moved_bounds.
  - exact moved_table.
  - exact moved_paging.
  - unfold ly_live. cbn [new_layout ly_new ly_await ly_old ly_cells]. rewrite <- HNLeq. exact moved_cells.
  - exact Hyoung.
  - exact moved_rems.
  - exact moved_retired.
  - assert (E : FL = ly_filed (new_layout l')) by exact HFLeq. rewrite <- E. exact moved_filing.
  - apply Hcp.
  - exact Hroots.
Qed.
End relocated.
