(* ===== verification/Step.v ===== *)
(** A step of the mature collection (shades.c, [major_gc_step]): the cells that it
    copies, and the database after it. *)

From S2P Require Import Prelude Generations Machine Celltypes Shades Root Bitops Cells Pages Genlist Smartptr Io Copy Forward Copying Drain Roots Copied Chain Retire Commit Mature Choose Remember Relocate.

#[local] Abbreviation N := NUMBER_OF_WORDS_PER_PAGE.
#[local] Abbreviation INV := INVALID_GENERATION_NUMBER.

Section copy.
Context `{HP : Params} (s : state) (D : layout) (L : list Z) (r : list Z) (Hdb : db s D L r).
#[local] Abbreviation CS := (ly_cells D).
#[local] Abbreviation Y := (ly_new D).
#[local] Abbreviation O := (ly_old D).
#[local] Abbreviation t := (generation_info (gc s)).
Context (EC : ly_being D = []) (B1 B2 : list Z) (EB : ly_await D = B1 ++ B2) (HB1 : B1 ≠ []) (Hlim : within_limits t B1).
Context (k : nat) (gn y : Z) (t1 : list generation_info_t) (Hch : chosen (gc s) Y B1 B2 O k gn t1).
#[local] Abbreviation s1 := (step_state s k gn y t1).
#[local] Abbreviation F := (step_cells s D B1).
#[local] Abbreviation free := (ly_free D).
#[local] Abbreviation rl := (step_loc s D B1 k gn y t1).

(** The cells that the step copies are among those that await collection. *)
Lemma step_words_le : total_words F ≤ total_words (cells_of s CS (ly_await D)).
Proof. apply total_words_subseteq, cells_of_subseteq. intros g Hg. rewrite EB. apply elem_of_app. by left. Qed.

Lemma wp_step_copy {B} fuel n w (K : Z → M B) (Q : B → state → Prop) : room_for s free n w → 1 ≤ n →
  total_words F ≤ w → total_words F < Z.of_nat fuel → (length (ly_smart D) < fuel)%nat →
  (∀ n s4 φ pages free' A', free = pages ++ free' →
    copied (forgets B1 s1) s4 F gn rl φ pages free' (ly_disk D) A' r → wp (K n) Q s4) →
  wp (for_from_generations (Z.of_nat (length B1)) (hd_gn INV B1) (λ gn,
        scan_rem_set fuel gn;; x ← get_gen gn; mret (gi_older x));;
      b ← accu_is_ptr;
      (if b : bool then copy_if is_being_collected fuel (RootWord accu) else mret tt);;
      scan_root (copy_if is_being_collected fuel);;
      scan_smart_ptrs fuel (copy_if is_being_collected fuel);;
      st ← gcs copy_stack;
      drain_copy_stack fuel;; finish_gc;; K (Z.of_nat (length st))) Q s1.
Proof.
  intros [Rm Rd _ _] Hn Hw Hf1 Hf2 HQ. change N with 16384 in *.
  assert (Hc : collectable s1 F gn free).
  { eapply step_collectable; [exact Hdb|exact EC|exact EB|exact HB1|exact Hlim|exact Hch|]. change N with 16384. lia. }
  pose proof (but_rems_forgets B1 s1) as Hb. pose proof (br_collectable _ _ Hb _ _ _ Hc) as Hc'.
  pose proof (br_roots_ok _ _ Hb _ _ (step_roots_ok _ _ _ _ Hdb EC _ _ EB _ _ y _ Hch)) as Hok.
  apply wp_bind. eapply wp_scan_rem_sets; [exact Hdb|exact EC|exact EB|exact Hch|exact Hc| |].
  { apply (start_scanning s1); [exact Hc|done..]. }
  intros l s2 Hs2 Hl.
  eapply (wp_copy_rest (forgets B1 s1) F gn free (ly_smart D) (step_seen s D B1 k gn y t1) _ rl (λ pp, ∃ a, pp = Image a ∧ a ∈ rem_addrs s B1) Hc').
  - apply copy_if_scans; [exact Hc'|]. eapply step_judges; [exact Hdb|exact EC|exact EB|exact Hch|exact Hc|exact Hb].
  - exact Hok.
  - intros pp Hpp. eapply step_loc_outside; [exact Hdb|exact EC|exact EB|exact Hpp].
  - intros pp. unfold step_loc. by rewrite (br_root_loc _ _ Hb).
  - exact Hs2.
  - split; [intros pp Hpp; right; by apply Hl|]. intros pp Hpp. by apply Hl.
  - intros i Hi. apply Hl in Hi as (a & ? & _). done.
  - exact Hf2.
  - exact Hf1.
  - split; rewrite (br_io _ _ Hb); [apply (db_disk _ _ _ _ Hdb)|]. change (io (gc s1)) with (io (gc s)). change (N - 2) with 16382.
    pose proof (Z.mul_div_le (2 * total_words F) 16382 ltac:(lia)). lia.
  - exact HQ.
Qed.

(** ** The cells that are kept *)

#[local] Abbreviation V := (Y ++ B2 ++ O).
#[local] Abbreviation K := (cells_of s CS V).
#[local] Abbreviation s1' := (forgets B1 s1).

Lemma step_new_fresh : (gn ∉ ly_gens D) ∧ gn ≠ INV ∧ ∀ x, zlookup t gn = Some x → nonexistent x.
Proof. destruct (ch_fresh _ _ _ _ _ _ _ _ Hch) as (H1 & H2 & H3). by rewrite (step_gens D EC B1 B2 EB). Qed.

Lemma step_kept_gens g : g ∈ V → g ∈ ly_gens D ∧ (g ∉ B1).
Proof.
  intros Hg. split.
  - rewrite (step_gens D EC B1 B2 EB), !elem_of_app in *. tauto.
  - intros Hin. by apply (step_disjoint s D L r Hdb EC B1 B2 EB g).
Qed.

Lemma step_cell x ws : CS !! x = Some ws → K !! x = Some ws ∧ F !! x = None ∨ F !! x = Some ws.
Proof.
  intros Hx. destruct (cell_gen _ _ _ _ Hdb x ws Hx) as (g & Hg & Hin).
  destruct (step_split D EC B1 B2 EB g (live_gens _ _ Hin)) as [Hb|[Hb Hv]].
  - right. apply step_from_Some. split; [done|]. by exists g.
  - left. split; [apply cells_of_Some; split; [done|]; by exists g|].
    apply eq_None_not_Some. intros [w (_ & g' & Hg' & Hin')%step_from_Some]. rewrite Hg in Hg'. injection Hg' as <-. done.
Qed.

Lemma step_cell' x : is_Some (CS !! x) → is_Some (K !! x) ∨ is_Some (F !! x).
Proof. intros [ws Hx]. destruct (step_cell x ws Hx) as [[H _]|H]; eauto. Qed.

Lemma step_kept_not_from p ws : K !! p = Some ws → CS !! p = Some ws ∧ F !! p = None.
Proof.
  intros [Hp (g & Hg & Hin)]%cells_of_Some. split; [done|]. apply eq_None_not_Some.
  intros [w (_ & g' & Hg' & Hin')%step_from_Some]. rewrite Hg in Hg'. injection Hg' as <-. by apply step_kept_gens in Hin as [_ ?].
Qed.

Lemma step_apart p ws p' ws' : K !! p = Some ws → F !! p' = Some ws' → disj (p, ws) (p', ws').
Proof.
  intros [Hp Hn]%step_kept_not_from HF. pose proof HF as [Hp' _]%step_from_Some.
  apply (ck_sep _ _ _ (db_cells _ _ _ _ Hdb)); [done|done|]. intros ->. congruence.
Qed.

Lemma step_live_order : ly_live D = Y ++ B1 ++ B2 ++ O.
Proof. by rewrite (step_live D EC), (step_gens D EC B1 B2 EB). Qed.

(** Pointers between the cells. *)
Lemma step_ref p ws i x : CS !! p = Some ws → ref_at ws i = true → ws !! i = Some x → is_Some (CS !! x) ∧
  ∃ g g', gen_of s p = Some g ∧ gen_of s x = Some g' ∧ older (Y ++ B1 ++ B2 ++ O) g g'.
Proof.
  intros Hp Hr Hx. rewrite <- step_live_order. exact (oc_refs _ _ _ _ _ (ck_cell _ _ _ (db_cells _ _ _ _ Hdb) _ _ Hp) i x Hr Hx).
Qed.

(** Pointers to what is collected come from younger generations. *)
Lemma older_into g g' : g ∈ V → g' ∈ B1 → older (Y ++ B1 ++ B2 ++ O) g g' → g ∈ Y.
Proof.
  intros Hg Hg' Ho. apply step_kept_gens in Hg as [_ Hn]. pose proof (step_disjoint _ _ _ _ Hdb EC _ _ EB g' Hg') as Hd.
  rewrite !elem_of_app in Hd. rewrite !older_app in Ho.
  destruct Ho as [[_ H]%older_in|[[? _]|[[H _]%older_in|[[H _]|[[_ H]%older_in|[[_ H]|[_ H]%older_in]]]]]]; tauto.
Qed.

Lemma older_from g g' : g ∈ B1 → g' ∈ V → older (Y ++ B1 ++ B2 ++ O) g g' → older ((Y ++ [gn]) ++ B2 ++ O) gn g'.
Proof.
  intros Hg Hg' Ho. apply step_kept_gens in Hg' as [_ Hn]. pose proof (step_disjoint _ _ _ _ Hdb EC _ _ EB g Hg) as Hd.
  rewrite !elem_of_app in Hd. rewrite <- app_assoc. apply older_app. right. right. cbn [app older]. left. split; [done|].
  rewrite !older_app in Ho. rewrite elem_of_cons, elem_of_app. rewrite !elem_of_app in Ho.
  destruct Ho as [[H _]%older_in|[[? _]|[[_ H]%older_in|[[_ H]|[[H _]%older_in|[[H _]|[H _]%older_in]]]]]]; tauto.
Qed.

Lemma step_kept_ref p ws i x : K !! p = Some ws → ref_at ws i = true → ws !! i = Some x →
  is_Some (K !! x) ∨ is_Some (F !! x) ∧ rl (Image (p + 4 * Z.of_nat i)).
Proof.
  intros HKp Hr Hx. pose proof HKp as [Hp (g0 & Hg0 & Hin0)]%cells_of_Some.
  destruct (step_ref p ws i x Hp Hr Hx) as ([wx Hwx] & g & g' & Hg & Hg' & Ho). rewrite Hg0 in Hg. injection Hg as <-.
  destruct (step_cell x wx Hwx) as [[HK _]|HF]; [left; by eexists|right]. split; [by eexists|].
  apply step_from_Some in HF as (_ & g2 & Hg2 & Hin2). rewrite Hg' in Hg2. injection Hg2 as <-.
  right. eexists. split; [reflexivity|]. apply (rem_addrs_in _ _ _ _ Hdb); [by intros h Hh; apply (step_await D B1 B2 EB)|]. exists g'. split; [done|].
  exists p, ws, i, x. split; [done|]. split; [done|]. split; [done|]. split; [done|]. split; [|exact Hg'].
  apply in_gens_iff. exists g0. split; [exact Hg0|]. by eapply older_into.
Qed.

Lemma step_from_ref p ws i x : F !! p = Some ws → ref_at ws i = true → ws !! i = Some x → is_Some (F !! x) ∨ is_Some (K !! x).
Proof.
  intros [Hp _]%step_from_Some Hr Hx. destruct (step_ref p ws i x Hp Hr Hx) as (Hwx & _). apply step_cell' in Hwx. tauto.
Qed.

(** The addresses of the remembered sets. *)
Lemma step_loc_word a : rl (Image a) → ∃ p ws i, K !! p = Some ws ∧ ref_at ws i = true ∧ (i < length ws)%nat ∧ a = p + 4 * Z.of_nat i.
Proof.
  intros [[]|(b & [= <-] & (p & ws & i & x & Hp & HF & Hr & Hx & -> & _)%(rem_addr _ _ _ _ Hdb EC _ _ EB))].
  exists p, ws, i. split; [by destruct (step_cell p ws Hp) as [[? _]|]; [|congruence]|]. split; [done|]. split; [by eapply lookup_lt_Some|done].
Qed.

Lemma step_loc_ref p ws i x : K !! p = Some ws → ws !! i = Some x → rl (Image (p + 4 * Z.of_nat i)) → ref_at ws i = true.
Proof.
  intros [Hp _]%step_kept_not_from Hx (p' & ws' & j & [Hp' _]%step_kept_not_from & Hr & [z Hz]%lookup_lt_is_Some_2 & E)%step_loc_word.
  by destruct (same_word _ _ _ _ Hdb _ _ _ _ _ _ _ _ Hp Hp' Hx Hz E) as (_ & -> & -> & _).
Qed.

Lemma step_loc_dec pp : rl pp ∨ ¬ rl pp.
Proof.
  assert (Hd : ∀ P : Prop, Decision P → P ∨ ¬ P) by (intros P [|]; auto).
  unfold step_loc. destruct pp as [a|i|sp].
  - destruct (Hd (a ∈ rem_addrs s B1) _) as [H|H]; [left; right; by exists a|right]. intros [[]|(b & [= <-] & Hb)]. done.
  - destruct (Hd (root_loc s1 (ly_smart D).*1 (RootWord i))) as [H|H]; [unfold root_loc; apply _|by left; left|right]. by intros [?|(b & ? & _)].
  - destruct (Hd (root_loc s1 (ly_smart D).*1 (SmartWord sp))) as [H|H]; [unfold root_loc; apply _|by left; left|right]. by intros [?|(b & ? & _)].
Qed.

(** ** The table when copying starts *)

Lemma step_start_entry g x1 : zlookup t1 g = Some x1 →
  zlookup (generation_info (gc s1')) g = Some (if bool_decide (g ∈ B1) then with_rem_set [] x1 else x1).
Proof. intros Hx. by apply forgets_entry. Qed.

Lemma step_start_vars : ∃ t', s1' = set_gc (set_generation_info t' (gc s1)) s1 ∧ length t' = length t1.
Proof. destruct (but_rems_forgets B1 s1) as [(t' & E & El & _)]. by exists t'. Qed.

Lemma step_start_entry_inv g x : zlookup (generation_info (gc s1')) g = Some x →
  ∃ x1, zlookup t1 g = Some x1 ∧ x = if bool_decide (g ∈ B1) then with_rem_set [] x1 else x1.
Proof.
  intros Hx. destruct step_start_vars as (t' & E & El). assert (Hr : 0 ≤ g < Z.of_nat (length t1)).
  { rewrite E in Hx. cbn [gc set_gc generation_info set_generation_info] in Hx. apply zlookup_Some in Hx as [Hr _]. by rewrite El in Hr. }
  destruct (zlookup_lt _ _ Hr) as [x1 Hx1]. exists x1. split; [done|]. apply step_start_entry in Hx1. congruence.
Qed.

(** The entries of generations: those that stay and those that are collected. *)
Lemma step_stays g x : g ∈ V → zlookup t g = Some x → ∃ x1, zlookup (generation_info (gc s1')) g = Some x1 ∧ relinked x x1.
Proof.
  intros Hg Hx. destruct (ch_linked _ _ _ _ _ _ _ _ Hch g x Hg Hx) as (x1 & Hx1 & Hrl). exists x1. split; [|done].
  rewrite (step_start_entry g x1 Hx1). rewrite bool_decide_eq_false_2; [done|]. by apply step_kept_gens.
Qed.

Lemma step_collects g x : g ∈ B1 → zlookup t g = Some x → ∃ v x', zlookup (generation_info (gc s1')) g =
  Some (with_rem_set [] (with_next_from v (with_status BEING_COLLECTED x'))) ∧ relinked x x'.
Proof.
  intros Hg Hx. destruct (ch_from _ _ _ _ _ _ _ _ Hch g x Hg Hx) as (v & x' & Hx1 & Hrl). exists v, x'. split; [|done].
  rewrite (step_start_entry g _ Hx1). by rewrite bool_decide_eq_true_2.
Qed.

Lemma step_remains g x : g ∉ ly_gens D → zlookup t g = Some x → ¬ nonexistent x → zlookup (generation_info (gc s1')) g = Some x.
Proof.
  intros Hg Hx Hn. rewrite (step_gens D EC B1 B2 EB) in Hg. rewrite (step_start_entry g x).
  - rewrite bool_decide_eq_false_2; [done|]. intros Hin. apply Hg. rewrite !elem_of_app. auto.
  - by apply (ch_other _ _ _ _ _ _ _ _ Hch).
Qed.

Lemma step_new_entry : ∃ x, zlookup (generation_info (gc s1')) gn = Some x ∧ gi_status x = NORMAL ∧ gi_rem_set x = [] ∧
  ∃ h, gi_from x = h ∧ follows gi_next_from (generation_info (gc s1')) h (reverse B1).
Proof.
  destruct (ch_new _ _ _ _ _ _ _ _ Hch) as (x & Hx & E1 & E2 & _ & _ & _ & Hf). exists x. split.
  - rewrite (step_start_entry gn x Hx). rewrite bool_decide_eq_false_2; [done|]. intros Hin.
    destruct step_new_fresh as (Hn & _). apply Hn. rewrite (step_gens D EC B1 B2 EB), !elem_of_app. auto.
  - split; [done|]. split; [done|]. eexists. split; [reflexivity|]. eapply follows_same, Hf. intros g z Hg Hz.
    rewrite elem_of_reverse in Hg. eexists. rewrite (step_start_entry g z Hz). rewrite bool_decide_eq_true_2 by done. done.
Qed.

Lemma step_starting : starting s s1' V.
Proof.
  destruct step_start_vars as (t' & E & El). split.
  - by rewrite E.
  - by rewrite E.
  - by rewrite E.
  - by rewrite E.
  - apply step_stays.
  - intros g x Hx Hn. destruct (decide (g ∈ ly_gens D)) as [Hg|Hg].
    + destruct (step_split D EC B1 B2 EB g Hg) as [Hb|[_ Hv]].
      * destruct (step_collects g x Hb Hx) as (v & x' & Hx1 & Hrl). eexists. split; [exact Hx1|].
        by destruct (relinked_fields _ _ Hrl) as (_ & _ & E1 & E2 & E3 & _).
      * destruct (step_stays g x Hv Hx) as (x1 & Hx1 & Hrl). exists x1. split; [done|].
        by destruct (relinked_fields _ _ Hrl) as (_ & _ & E1 & E2 & E3 & _).
    + exists x. split; [by apply step_remains|done].
  - by rewrite E.
Qed.

Lemma step_table : y = hd_gn INV (Y ++ gn :: ly_await D ++ O) → table_ok (gc s1') (Y ++ [gn]) B1 B2 O.
Proof.
  intros Hy. pose proof (db_table _ _ _ _ Hdb) as [T1 T2 T3 T4 T5 T6 T7 T8]. destruct step_new_fresh as (Hn & Hinv & _).
  rewrite EC, EB in *. cbn [app] in *. rewrite (step_gens D EC B1 B2 EB) in Hn.
  assert (Hl : (Y ++ [gn]) ++ B1 ++ B2 ++ O = Y ++ gn :: B1 ++ B2 ++ O) by by rewrite <- app_assoc.
  assert (Hnd : NoDup (Y ++ gn :: B1 ++ B2 ++ O)).
  { rewrite <- Permutation_middle. apply NoDup_cons. split; [done|]. by rewrite <- app_assoc in T2. }
  split.
  - apply (br_gens_ok _ _ (but_rems_forgets B1 s1)), (ch_gens _ _ _ _ _ _ _ _ Hch y).
  - by rewrite Hl.
  - rewrite Hl, elem_of_app, elem_of_cons. rewrite <- app_assoc, elem_of_app in T3. intros [|[|]]; [tauto|congruence|tauto].
  - rewrite Hl. eapply chain_same; [exact Hnd|apply (ch_chain _ _ _ _ _ _ _ _ Hch)|]. intros g x _ Hx. eexists.
    split; [by apply step_start_entry|]. by case_bool_decide.
  - rewrite Hl, (br_youngest _ _ (but_rems_forgets B1 s1)).
    cbn [gc set_gc youngest_gn set_generation_info step_state step_gc set_copy_stack set_to_pn set_to_ptr set_to_end set_youngest_gn].
    by rewrite Hy, <- app_assoc.
  - intros g x Hg Hx. rewrite !elem_of_app, list_elem_of_singleton in Hg. destruct (decide (g = gn)) as [->|Hne].
    + destruct step_new_entry as (z & Hz & E1 & E2 & _). rewrite Hx in Hz. injection Hz as <-. by rewrite E2.
    + assert (Hv : g ∈ V) by (rewrite !elem_of_app; tauto). destruct (gen_entry _ _ _ _ Hdb g) as (z & Hz); [by apply step_kept_gens|].
      destruct (step_stays g z Hv Hz) as (x1 & Hx1 & Hrl). rewrite Hx in Hx1. injection Hx1 as <-.
      destruct (relinked_fields _ _ Hrl) as (-> & -> & _). apply (T6 g); [rewrite elem_of_app; tauto|done].
  - intros g x Hg Hx. destruct (gen_entry _ _ _ _ Hdb g) as (z & Hz); [by apply (step_from_gen D EC B1 B2 EB)|].
    destruct (step_collects g z Hg Hz) as (v & x' & Hx1 & _). rewrite Hx in Hx1. by injection Hx1 as ->.
  - intros g x Hg Hx. assert (Hv : g ∈ V) by (rewrite !elem_of_app; tauto). destruct (gen_entry _ _ _ _ Hdb g) as (z & Hz); [by apply step_kept_gens|].
    destruct (step_stays g z Hv Hz) as (x1 & Hx1 & Hrl). rewrite Hx in Hx1. injection Hx1 as <-.
    destruct (relinked_fields _ _ Hrl) as (-> & _). apply (T8 g); [apply elem_of_app; by right|done].
Qed.

(** The new generation was copied from [B1]. *)
Definition step_from (g : Z) : list Z := if decide (g = gn) then reverse B1 else ly_from D g.

Lemma step_from_old g : g ≠ gn → step_from g = ly_from D g.
Proof. intros Hg. unfold step_from. by rewrite decide_False. Qed.

Lemma step_from_lists : concat (step_from <$> (Y ++ [gn]) ++ B1 ++ B2 ++ O) ≡ₚ B1 ++ concat (ly_from D <$> ly_gens D).
Proof.
  destruct step_new_fresh as (Hn & _). rewrite (step_gens D EC B1 B2 EB) in *. assert (E : ∀ l : list Z, (gn ∉ l) → step_from <$> l = ly_from D <$> l).
  { intros l Hl. apply list_fmap_ext. intros i g Hg. apply step_from_old. intros ->. by eapply Hl, list_elem_of_lookup_2. }
  rewrite !not_elem_of_app in Hn. rewrite !fmap_app, (E Y), (E B1), (E B2), (E O) by tauto. cbn [fmap list_fmap].
  replace (step_from gn) with (reverse B1) by (unfold step_from; by rewrite decide_True).
  rewrite !concat_app. cbn [concat]. rewrite app_nil_r, reverse_Permutation, (Permutation_app_comm (concat _) B1), <- !app_assoc. done.
Qed.

(** Generations that were collected keep their entries. *)
Lemma step_retired_entry g x : g ∈ concat (ly_from D <$> ly_gens D) ++ ly_twice D → zlookup t g = Some x →
  zlookup (generation_info (gc s1')) g = Some x.
Proof.
  intros Hg Hx. assert (Hb : g ∉ ly_being D) by (rewrite EC; apply not_elem_of_nil). apply step_remains; [|done|].
  - by apply (retired_not_gen _ _ _ _ Hdb).
  - destruct (retired_entry _ _ _ _ Hdb g Hg Hb) as (x' & Hx' & E). rewrite Hx in Hx'. injection Hx' as <-.
    unfold nonexistent. rewrite E. by case_bool_decide.
Qed.

Lemma step_from_in g i : g ∈ ly_gens D → i ∈ ly_from D g → i ∈ concat (ly_from D <$> ly_gens D).
Proof.
  intros Hg Hi. apply list_elem_of_In, in_concat. exists (ly_from D g). split; apply list_elem_of_In; [|done]. by apply list_elem_of_fmap_2.
Qed.

Lemma step_retired : retired_ok (gc s1') (Y ++ [gn]) B1 B2 O step_from (ly_twice D).
Proof.
  pose proof (db_retired _ _ _ _ Hdb) as Hret. pose proof Hret as [R1 R2 R3 R4 R5 R6]. destruct step_new_fresh as (Hn & _ & Hfresh).
  assert (Hb : ∀ g, g ∉ ly_being D) by (intros g; rewrite EC; apply not_elem_of_nil).
  assert (Hkeep : ∀ g h, g ∈ ly_gens D → follows gi_next_from t h (ly_from D g) → follows gi_next_from (generation_info (gc s1')) h (ly_from D g)).
  { intros g h Hg. apply follows_same. intros i x Hi Hx. exists x. split; [|done]. apply step_retired_entry; [|done].
    apply elem_of_app. left. by eapply step_from_in. }
  assert (Hgf : gn ∉ concat (ly_from D <$> ly_gens D) ++ ly_twice D).
  { intros Hin. destruct (retired_entry _ _ _ _ Hdb gn Hin (Hb gn)) as (x & Hx & E). apply Hfresh in Hx. unfold nonexistent in Hx.
    rewrite E in Hx. by case_bool_decide. }
  split.
  - intros g x Hg Hx. destruct (decide (g = gn)) as [->|Hne].
    + destruct step_new_entry as (z & Hz & _ & _ & h & Eh & Hf). rewrite Hx in Hz. injection Hz as <-.
      unfold step_from. rewrite decide_True, Eh by done. exact Hf.
    + assert (HgL : g ∈ ly_gens D).
      { rewrite (step_gens D EC B1 B2 EB). rewrite !elem_of_app, list_elem_of_singleton in Hg. rewrite !elem_of_app. tauto. }
      rewrite step_from_old by done. destruct (gen_entry _ _ _ _ Hdb g HgL) as (z & Hz).
      assert (E : gi_from x = gi_from z).
      { destruct (step_split D EC B1 B2 EB g HgL) as [Hg1|[_ Hv]].
        - destruct (step_collects g z Hg1 Hz) as (v & x' & Hx1 & Hrl). rewrite Hx in Hx1. injection Hx1 as ->. by destruct (relinked_fields _ _ Hrl) as (_ & _ & _ & _ & _ & E & _).
        - destruct (step_stays g z Hv Hz) as (x1 & Hx1 & Hrl). rewrite Hx in Hx1. injection Hx1 as <-. by destruct (relinked_fields _ _ Hrl) as (_ & _ & _ & _ & _ & E & _). }
      rewrite E. apply Hkeep; [done|]. by apply R1.
  - rewrite (br_twice _ _ (but_rems_forgets B1 s1)). eapply follows_same; [|exact R2]. intros i x Hi Hx. exists x. split; [|done].
    apply step_retired_entry; [|done]. apply elem_of_app. by right.
  - rewrite step_from_lists. fold (ly_gens D) in R3. rewrite EB in R3.
    assert (Hp : ((Y ++ [gn]) ++ B2 ++ O) ++ (B1 ++ concat (ly_from D <$> ly_gens D)) ++ ly_twice D ≡ₚ
      gn :: (Y ++ (B1 ++ B2) ++ O) ++ concat (ly_from D <$> ly_gens D) ++ ly_twice D).
    { rewrite <- !app_assoc. cbn [app]. rewrite <- Permutation_middle. f_equiv. f_equiv. rewrite !app_assoc.
      rewrite (Permutation_app_comm (B2 ++ O) B1), <- !app_assoc. done. }
    rewrite Hp. apply NoDup_cons. split; [|exact R3]. rewrite elem_of_app. intros [Hin|Hin]; [|done]. apply Hn.
    rewrite (step_gens D EC B1 B2 EB). by rewrite <- !app_assoc in Hin.
  - intros g Hg. rewrite fmap_app, concat_app. apply elem_of_app. right. cbn [fmap list_fmap concat]. rewrite app_nil_r.
    unfold step_from. rewrite decide_True by done. by rewrite elem_of_reverse.
  - intros g x Hg Hg1 Hx. rewrite step_from_lists, elem_of_app in Hg. destruct Hg as [|Hg]; [done|].
    assert (Hg' : g ∈ concat (ly_from D <$> ly_gens D) ++ ly_twice D) by (apply elem_of_app; by left).
    destruct (retired_entry _ _ _ _ Hdb g Hg' (Hb g)) as (z & Hz & _). pose proof (step_retired_entry g z Hg' Hz) as E.
    rewrite Hx in E. injection E as ->. by apply (R5 g).
  - intros g x Hg Hx. assert (Hg' : g ∈ concat (ly_from D <$> ly_gens D) ++ ly_twice D) by (apply elem_of_app; by right).
    destruct (retired_entry _ _ _ _ Hdb g Hg' (Hb g)) as (z & Hz & _). pose proof (step_retired_entry g z Hg' Hz) as E.
    rewrite Hx in E. injection E as ->. by apply (R6 g).
Qed.

Lemma step_filed : gn :: (Y ++ B2 ++ O) ++ (B1 ++ concat (ly_from D <$> ly_gens D)) ++ ly_twice D ≡ₚ gn :: ly_filed D.
Proof.
  unfold ly_filed, ly_live. rewrite EB. f_equiv. rewrite <- !app_assoc. f_equiv. rewrite !app_assoc.
  rewrite (Permutation_app_comm (B2 ++ O) B1), <- !app_assoc. done.
Qed.

(** ** The database after the step *)

(** The layout after the copying of a step: the copies are the generation [gn]. *)
Definition stepped (φ : gmap Z Z) (l' : list (Z * Z)) (free' : list Z) (A' : gmap Z (list Z)) : layout :=
  Layout (Y ++ [gn]) B1 B2 O (moved s D B2 F φ) (ly_first D) l' free' step_from (ly_twice D) A'.

Context (Hy : y = hd_gn INV (Y ++ gn :: ly_await D ++ O)) (HL : ∀ g, g ∈ L → g ∉ ly_await D).

(** The order of the generations. *)
Lemma step_order_kept g g' : g ∈ V → g' ∈ V → older (ly_live D) g g' → older ((Y ++ [gn]) ++ B2 ++ O) g g'.
Proof.
  intros Hg Hg'. rewrite step_live_order, <- app_assoc. apply older_skip; by apply step_kept_gens.
Qed.

Lemma step_order_from p ws i x g' : F !! p = Some ws → ref_at ws i = true → ws !! i = Some x → is_Some (K !! x) →
  gen_of s x = Some g' → older ((Y ++ [gn]) ++ B2 ++ O) gn g'.
Proof.
  intros (Hp & g & Hg & Hin)%step_from_Some Hr Hx [wx (_ & g2 & Hg2 & Hin2)%cells_of_Some] Hg'.
  destruct (step_ref p ws i x Hp Hr Hx) as (_ & h & h' & Eh & Eh' & Ho). rewrite Hg in Eh. injection Eh as <-.
  rewrite Hg' in Eh'. injection Eh' as <-. rewrite Hg' in Hg2. injection Hg2 as <-. by eapply older_from.
Qed.

Lemma step_order_into p ws i x g : K !! p = Some ws → ref_at ws i = true → ws !! i = Some x → is_Some (F !! x) →
  gen_of s p = Some g → older ((Y ++ [gn]) ++ B2 ++ O) g gn.
Proof.
  intros (Hp & g2 & Hg2 & Hin2)%cells_of_Some Hr Hx [wx (_ & g' & Hg' & Hin)%step_from_Some] Hg.
  destruct (step_ref p ws i x Hp Hr Hx) as (_ & h & h' & Eh & Eh' & Ho). rewrite Hg in Eh. injection Eh as <-.
  rewrite Hg' in Eh'. injection Eh' as <-. rewrite Hg in Hg2. injection Hg2 as <-.
  assert (HgY : g ∈ Y) by by eapply older_into. rewrite <- app_assoc. apply older_app. right. left. split; [done|]. by left.
Qed.

(** Statuses decide which pointers are remembered. *)
Lemma step_remembers x g : kept s1' x g TO_BE_COLLECTED ↔ gen_of s x = Some g ∧ g ∈ B2.
Proof.
  rewrite (br_kept _ _ (but_rems_forgets B1 s1)). split; [apply (step_kept_inv _ _ _ _ Hdb EC _ _ EB _ _ _ _ Hch)|].
  intros [Hg Hin]. pose proof (step_kept _ _ _ _ Hdb EC _ _ EB _ _ y _ Hch x g Hg) as Hk. rewrite bool_decide_eq_true_2 in Hk by done.
  apply Hk. rewrite !elem_of_app. auto.
Qed.

Lemma step_page_start p ws pn : F !! p = Some ws → ¬ (p ≤ PAGE_SIZE * pn < p + 4 * Z.of_nat (length ws)).
Proof.
  intros [Hp _]%step_from_Some. pose proof (oc_place _ _ _ _ _ (ck_cell _ _ _ (db_cells _ _ _ _ Hdb) _ _ Hp)) as Hpl.
  change PAGE_SIZE with 65536 in *. lia.
Qed.

Lemma step_loc_kept a : rl (Image a) → ∃ p ws i, K !! p = Some ws ∧ (i < length ws)%nat ∧ a = p + 4 * Z.of_nat i.
Proof. intros (p & ws & i & Hp & _ & Hi & E)%step_loc_word. by exists p, ws, i. Qed.

Lemma step_young_kept g : g ∈ L → g ∈ ly_live D → g ∈ V.
Proof.
  intros HgL%HL Hg%live_gens. destruct (step_split D EC B1 B2 EB g Hg) as [Hin|[_ ?]]; [|done].
  by apply (step_await D B1 B2 EB) in Hin.
Qed.

Lemma step_db s4 φ pages free' A' : free = pages ++ free' → collectable s1 F gn free →
  copied s1' s4 F gn rl φ pages free' (ly_disk D) A' r →
  ∃ l', l'.*1 = (ly_smart D).*1 ∧ db s4 (stepped φ l' free' A') L r.
Proof.
  intros Hfree Hc Hcp. pose proof (but_rems_forgets B1 s1) as Hb. destruct step_new_fresh as (Hn & _ & Hfresh).
  assert (HV : ∀ g, g ∈ V → g ∈ ly_live D) by (intros g Hg; rewrite (step_live D EC); by apply step_kept_gens).
  assert (Hc' : collectable s1' F gn free) by by apply (br_collectable _ _ Hb).
  assert (HgnV : gn ∉ V) by (intros Hg; by apply Hn, step_kept_gens).
  assert (HFL : ly_filed (stepped φ [] free' A') ≡ₚ gn :: ly_filed D).
  { rewrite <- step_filed. unfold ly_filed, ly_live, ly_gens. cbn [stepped ly_new ly_being ly_await ly_old ly_from ly_twice].
    rewrite step_from_lists, <- !app_assoc. cbn [app]. by rewrite <- Permutation_middle. }
  eapply (moved_db s D L r Hdb B2 s1' step_starting F gn Hc' HgnV HV rl s4 φ pages free' A' Hcp Hfree step_apart step_kept_ref step_loc_ref
    step_loc_dec step_from_ref ((Y ++ [gn]) ++ B2 ++ O)).
  - intros g. rewrite !elem_of_cons, !elem_of_app, list_elem_of_singleton. tauto.
  - exact step_order_kept.
  - exact step_order_from.
  - exact step_order_into.
  - intros g. rewrite elem_of_app, list_elem_of_singleton. tauto.
  - intros g Hg. rewrite EB. apply elem_of_app. by right.
  - exact step_remembers.
  - intros pp Hpp. left. by apply (br_root_loc _ _ Hb).
  - intros x [Hx%step_cell'|Hx]; [tauto|]. destruct (F !! x) as [w|] eqn:E; [right; left; by eexists|]. by right; right.
  - exact step_loc_kept.
  - intros p ws pn Hw _. by eapply step_page_start.
  - exact Hfresh.
  - intros g. rewrite (step_gens D EC B1 B2 EB), !elem_of_app, list_elem_of_singleton. tauto.
  - by apply step_table.
  - exact step_retired.
  - intros g. by eapply filed_entry.
  - exact HFL.
  - reflexivity.
  - reflexivity.
  - eapply (moved_young s D L r Hdb B2 s1' step_starting F gn Hc'); [exact Hcp|exact Hfree|exact step_apart|exact step_loc_kept|exact step_young_kept|].
    intros p ws [Hp _]%step_from_Some. apply (cell_bounds _ _ _ _ Hdb p ws Hp).
Qed.
End copy.
