(* ===== verification/Release.v ===== *)
(** The end of a step of the mature collection: the collected generations are
    released one by one (shades.c, [mark_generation_collected_once]). *)

From S2P Require Import Prelude Generations Machine Celltypes Shades Root Bitops Cells Pages Genlist Smartptr Io Copy Forward Copying Drain Roots Copied Chain Retire Commit Mature Choose Remember.

#[local] Abbreviation N := NUMBER_OF_WORDS_PER_PAGE.
#[local] Abbreviation INV := INVALID_GENERATION_NUMBER.

(** The database after [g] was released; its pages are [ps]. *)
Definition released (g : Z) (ps C : list Z) (D : layout) : layout :=
  Layout (ly_new D) C (ly_await D) (ly_old D) (ly_cells D) (ly_first D) (ly_smart D) (reverse ps ++ ly_free D)
    (ly_from D) (reverse (ly_from D g) ++ ly_twice D) (ly_disk D).

(** The variables that stay the same. *)
Record release_frame (s s' : state) : Prop := {
  rf_steady : steady s s';
  rf_root : root s' = root s;
  rf_smart : smart_ptrs (gc s') = smart_ptrs (gc s);
  rf_ap : first_generation_allocation_ptr s' = first_generation_allocation_ptr s;
  rf_gc : io (gc s') = io (gc s) ∧ to_gn (gc s') = to_gn (gc s) ∧ prev_to_gn (gc s') = prev_to_gn (gc s) ∧
    number_of_nonexistent_generations (gc s') = number_of_nonexistent_generations (gc s) ∧
    length (generation_info (gc s')) = length (generation_info (gc s))
}.

#[export] Instance release_frame_trans : Transitive release_frame.
Proof.
  intros s1 s2 s3 [S1 R1 M1 A1 (?&?&?&?&?)] [S2 R2 M2 A2 (?&?&?&?&?)]. split; [by etrans|congruence..|]. split_and!; congruence.
Qed.

(** Where the cells are, and what the generations have. *)
Record release_kept (s s' : state) (D : layout) : Prop := {
  rk_gen a : is_Some (ly_cells D !! a) → gen_of s' a = gen_of s a;
  rk_entry g x : g ∈ ly_live D → zlookup (generation_info (gc s)) g = Some x →
    ∃ x', zlookup (generation_info (gc s')) g = Some x' ∧ relinked x x'
}.

Section release.
Context `{HP : Params} (s : state) (D : layout) (L : list Z) (r : list Z) (Hdb : db s D L r).
#[local] Abbreviation t := (generation_info (gc s)).
#[local] Abbreviation Y := (ly_new D).
#[local] Abbreviation B := (ly_await D).
#[local] Abbreviation O := (ly_old D).
#[local] Abbreviation fr := (ly_from D).
#[local] Abbreviation tw := (ly_twice D).
Context (g : Z) (C : list Z) (EC : ly_being D = g :: C).
Context (x : generation_info_t) (Hx : zlookup t g = Some x).

Lemma release_gens : ly_gens D = Y ++ g :: C ++ B ++ O.
Proof. unfold ly_gens. by rewrite EC. Qed.

Lemma release_nodup : NoDup (Y ++ g :: C ++ B ++ O).
Proof. rewrite <- release_gens. apply (db_table _ _ _ _ Hdb). Qed.

Lemma release_in : g ∈ ly_gens D.
Proof. rewrite release_gens. apply elem_of_app. right. by left. Qed.

Lemma release_not_live g' : g' ∈ ly_live D → g' ≠ g.
Proof.
  unfold ly_live. intros Hg' ->. pose proof release_nodup as Hnd. rewrite <- Permutation_middle, NoDup_cons, !elem_of_app in Hnd.
  rewrite !elem_of_app in Hg'. tauto.
Qed.

Lemma release_rest g' : g' ∈ Y ++ C ++ B ++ O → g' ∈ ly_gens D ∧ g' ≠ g.
Proof. rewrite release_gens. exact (removal_in _ _ _ release_nodup g'). Qed.

Lemma release_perm (f : Z → list Z) : concat (f <$> Y ++ g :: C ++ B ++ O) ≡ₚ f g ++ concat (f <$> Y ++ C ++ B ++ O).
Proof.
  rewrite (fmap_app f Y (g :: _)), (fmap_app f Y (C ++ _)), !(concat_app (f <$> Y)). apply Permutation_app_swap_app.
Qed.

Lemma release_from_nodup : NoDup (ly_live D ++ fr g ++ concat (fr <$> Y ++ C ++ B ++ O) ++ tw).
Proof.
  pose proof (rd_nodup _ _ _ _ _ _ _ (db_retired _ _ _ _ Hdb)) as Hnd. rewrite EC in Hnd. cbn [app] in Hnd.
  rewrite release_perm in Hnd. by rewrite <- (app_assoc (fr g)) in Hnd.
Qed.

(** The generations on the lists of collected ones. *)
Lemma release_from_status g' : g' ∈ fr g ++ tw → g' ∉ ly_gens D.
Proof.
  intros Hg' Hin. pose proof release_from_nodup as (_ & Hd & Hnd)%NoDup_app.
  destruct (decide (g' ∈ ly_being D)) as [Hb|Hb].
  - pose proof (rd_being _ _ _ _ _ _ _ (db_retired _ _ _ _ Hdb) g' Hb) as HY.
    assert (HY' : g' ∈ concat (fr <$> Y ++ C ++ B ++ O)) by (rewrite fmap_app, concat_app, elem_of_app; by left).
    apply NoDup_app in Hnd as (_ & Hd1 & Hnd). apply elem_of_app in Hg' as [Hg'|Hg'].
    + apply (Hd1 g' Hg'), elem_of_app. by left.
    + apply NoDup_app in Hnd as (_ & Hd2 & _). by apply (Hd2 g' HY').
  - apply (Hd g').
    + unfold ly_gens, ly_live in *. rewrite !elem_of_app in *. tauto.
    + rewrite !elem_of_app in *. tauto.
Qed.

Lemma release_pages : gi_npages x = Z.of_nat (length (gi_page x)) ∧ NoDup (gi_page x) ∧
  ∀ pn, pn ∈ gi_page x → used_page s pn ∧ pn ∉ ly_free D ∧ 0 ≤ pn < Z.of_nat (length (page_info (gc s))) ∧ pn ≠ INVALID_PAGE_NUMBER.
Proof.
  pose proof (db_paging _ _ _ _ Hdb) as [Pp Pe Pg _ _]. destruct (Pe g x release_in Hx) as (En & _ & Hnd). split; [done|]. split; [done|].
  intros pn Hpn. destruct (Pg g x pn release_in Hx Hpn) as (Hu & pg & Hpg & Hal & _). split; [done|].
  assert (Hr : 0 ≤ pn < Z.of_nat (length (page_info (gc s)))) by by apply zlookup_Some in Hpg as [? _]. split; [|split; [done|]].
  - intros Hin. destruct (pool_page _ _ _ Pp Hin) as (_ & pg' & Hpg' & Hal'). congruence.
  - pose proof (db_bounds _ _ _ _ Hdb) as [Hwf Hb Ht _ _ _]. pose proof (wf_ap _ Hwf). unfold INVALID_PAGE_NUMBER, FIRST_GENERATION_DEADBEEF in *.
    change PAGE_SIZE with 65536 in *. lia.
Qed.

(** ** The state afterwards *)

Context (t' : list generation_info_t) (h' : Z) (m' : gmap Z Z).
Context (Hchain : chain t' INV (Y ++ C ++ B ++ O) INV) (Hret : retired (Y ++ C ++ B ++ O) g (fr g) t t').
Context (Htw : follows gi_next_collected_twice t' h' (reverse (fr g) ++ tw)) (Hm : emptied (gi_page x) (mem s) m').
#[local] Abbreviation ps := (gi_page x).
#[local] Abbreviation s' := (set_gc (set_generations_collected_twice h' (set_youngest_gn (hd_gn INV (Y ++ C ++ B ++ O))
  (set_generation_info t' (pages_freed ps (gc s))))) (set_mem m' s)).

Lemma release_mem a : (∀ pn, pn ∈ ps → ¬ in_page pn a) → mem s' !! a = mem s !! a.
Proof. intros Ha. by apply Hm. Qed.

Lemma release_young_mem a : first_generation_end s ≤ a → mem s' !! a = mem s !! a.
Proof.
  intros Ha. apply release_mem. intros pn Hpn Hin. destruct release_pages as (_ & _ & Hp). destruct (Hp pn Hpn) as (_ & _ & Hr & _).
  pose proof (bd_pages _ (db_bounds _ _ _ _ Hdb)). unfold in_page in Hin. change PAGE_SIZE with 65536 in *. lia.
Qed.

Lemma release_pos : Forall (λ pn, 0 ≤ pn) ps.
Proof. apply Forall_forall. intros pn Hpn. destruct release_pages as (_ & _ & Hp). destruct (Hp pn Hpn) as (_ & _ & ? & _). lia. Qed.

(** Addresses on the pages of other generations. *)
Lemma release_other a g' pn : gen_of s a = Some g' → g' ≠ g → pn ∈ ps → ¬ in_page pn a.
Proof.
  intros (pg & Hpg & Hal & <-)%gen_of_iff Hne Hpn Ha. apply in_page_iff in Ha.
  destruct (pk_page _ _ _ (db_paging _ _ _ _ Hdb) g x pn release_in Hx Hpn) as (_ & pg' & Hpg' & _ & E). rewrite Ha in Hpg. congruence.
Qed.

Lemma release_gen_of a : is_Some (ly_cells D !! a) → gen_of s' a = gen_of s a.
Proof.
  intros [ws Ha]. destruct (cell_gen _ _ _ _ Hdb a ws Ha) as (g' & Hg' & Hin%release_not_live).
  unfold gen_of. cbn [gc set_gc page_info set_generations_collected_twice set_youngest_gn set_generation_info].
  rewrite pages_freed_other; [done|apply release_pos|]. intros Hpn. apply (release_other a g' _ Hg' Hin Hpn). by apply in_page_iff.
Qed.

Lemma release_cell_mem p ws i w : ly_cells D !! p = Some ws → ws !! i = Some w → mem s' !! (p + 4 * Z.of_nat i) = mem s !! (p + 4 * Z.of_nat i).
Proof.
  intros Hp Hi. destruct (cell_gen _ _ _ _ Hdb p ws Hp) as (g' & Hg' & Hin%release_not_live).
  apply release_mem. intros pn Hpn. apply (release_other _ g'); [|done|done]. rewrite <- Hg'. apply gen_of_page.
  eapply (cell_page _ _ _ _ Hdb); [exact Hp|]. apply lookup_lt_Some in Hi. lia.
Qed.

(** The entries of the generations that stay. *)
Lemma release_entry g' x' : g' ∈ Y ++ C ++ B ++ O → zlookup t' g' = Some x' → ∃ z, zlookup t g' = Some z ∧ relinked z x'.
Proof.
  intros Hg' Hx'. destruct (gen_entry _ _ _ _ Hdb g' (proj1 (release_rest g' Hg'))) as (z & Hz). exists z. split; [done|].
  destruct (rt_linked _ _ _ _ _ Hret g' z Hg' Hz) as (z' & Hz' & Hrl). congruence.
Qed.

Lemma release_table : table_ok (gc s') Y C B O.
Proof.
  pose proof (db_table _ _ _ _ Hdb) as [T1 T2 T3 T4 T5 T6 T7 T8]. split.
  - assert (Eg : gc s' = set_generations_collected_twice h' (set_youngest_gn (hd_gn INV (Y ++ C ++ B ++ O)) (set_generation_info t' (pages_freed ps (gc s))))) by done.
    eapply (gens_ok_same (gc s)); rewrite ?Eg; [exact T1| | | |];
      cbn [generation_info next_gn number_of_nonexistent_generations set_generations_collected_twice set_youngest_gn set_generation_info].
    + apply (rt_length _ _ _ _ _ Hret).
    + by rewrite pages_freed_eq.
    + by rewrite pages_freed_eq.
    + intros i z Hz. destruct (decide (i ∈ Y ++ C ++ B ++ O)) as [Hi|Hi].
      { destruct (rt_linked _ _ _ _ _ Hret i z Hi Hz) as (z' & Hz' & (Est & _)%relinked_fields). exists z'. split; [done|].
        unfold nonexistent. by rewrite Est. }
      destruct (decide (i = g)) as [->|Hne].
      { rewrite Hx in Hz. injection Hz as <-. eexists. split; [by apply (rt_gen _ _ _ _ _ Hret)|].
        assert (Hst : gi_status x = BEING_COLLECTED) by (eapply T7; [rewrite EC; by left|done]). unfold nonexistent. by rewrite Hst. }
      destruct (decide (i ∈ fr g)) as [Hf|Hf].
      { destruct (rt_from _ _ _ _ _ Hret i z Hf Hz) as (v & Hv). eexists. split; [exact Hv|].
        assert (Hst : gi_status z = COLLECTED_ONCE).
        { eapply (rd_once _ _ _ _ _ _ _ (db_retired _ _ _ _ Hdb)); [|intros Hb; apply (release_from_status i); [apply elem_of_app; by left|]|exact Hz].
          - rewrite EC. cbn [app]. rewrite release_perm. apply elem_of_app. by left.
          - unfold ly_gens. rewrite !elem_of_app. auto. }
        unfold nonexistent. by rewrite Hst. }
      exists z. by rewrite (rt_other _ _ _ _ _ Hret).
  - eapply removal_nodup, release_nodup.
  - intros Hin. apply T3. by apply (release_rest INV Hin).
  - exact Hchain.
  - done.
  - intros i x' Hi Hx'. destruct (release_entry i x') as (z & Hz & Hrl); [rewrite !elem_of_app in *; tauto|done|].
    destruct (relinked_fields _ _ Hrl) as (-> & -> & _). by apply (T6 i).
  - intros i x' Hi Hx'. destruct (release_entry i x') as (z & Hz & Hrl); [rewrite !elem_of_app; auto|done|].
    destruct (relinked_fields _ _ Hrl) as (-> & _). apply (T7 i); [rewrite EC; by right|done].
  - intros i x' Hi Hx'. destruct (release_entry i x') as (z & Hz & Hrl); [rewrite !elem_of_app; auto|done|].
    destruct (relinked_fields _ _ Hrl) as (-> & _). by apply (T8 i).
Qed.

Lemma release_paging : paging s' (Y ++ C ++ B ++ O) (reverse ps ++ ly_free D).
Proof.
  pose proof (db_paging _ _ _ _ Hdb) as [Pp Pe Pg Po Pf]. destruct release_pages as (_ & Hnd & Hp). split.
  - assert (Hpool : pool (set_gc (pages_freed ps (gc s)) (set_mem m' s)) (reverse ps ++ ly_free D)).
    { apply pages_freed_pool; [done|done|done|]. intros pn Hpn. by destruct (Hp pn Hpn) as (_ & ? & ? & ?). }
    eapply pool_frame; [exact Hpool|done..].
  - intros g' x' Hg' Hx'. destruct (release_entry g' x' Hg' Hx') as (z & Hz & (_ & _ & -> & -> & -> & _)%relinked_fields).
    apply (Pe g'); [by apply release_rest|done].
  - intros g' x' pn Hg' Hx' Hpn. destruct (release_entry g' x' Hg' Hx') as (z & Hz & (_ & _ & _ & Epg & _)%relinked_fields). rewrite Epg in Hpn.
    destruct (release_rest g' Hg') as [HgL Hne]. destruct (Pg g' z pn HgL Hz Hpn) as (Hu & pg & Hpg & Hal & Egn).
    assert (Hni : pn ∉ ps).
    { intros Hin. destruct (Pg g x pn release_in Hx Hin) as (_ & pg' & Hpg' & _ & E'). congruence. }
    split.
    + destruct (emptied_used ps s m' (gc s) pn Hm Hni release_pos eq_refl Hu) as [U1 U2 U3]. by split.
    + exists pg. cbn [gc set_gc page_info set_generations_collected_twice set_youngest_gn set_generation_info].
      by rewrite pages_freed_other by (apply release_pos || done).
  - intros pn pg Hpg Hal. cbn [gc set_gc page_info set_generations_collected_twice set_youngest_gn set_generation_info generation_info] in *.
    assert (Hni : pn ∉ ps).
    { intros Hin. destruct (Pg g x pn release_in Hx Hin) as (_ & pg' & Hpg' & _).
      destruct (pages_freed_entry ps pn (gc s) pg' Hpg' Hin release_pos) as (pg2 & Hpg2 & Hal2). congruence. }
    rewrite pages_freed_other in Hpg by (apply release_pos || done). destruct (Po pn pg Hpg Hal) as [HgL Hown].
    assert (Hne : pg_generation pg ≠ g) by (intros E; rewrite E in Hown; by apply Hni, Hown).
    assert (Hin : pg_generation pg ∈ Y ++ C ++ B ++ O).
    { rewrite release_gens in HgL. rewrite !elem_of_app, elem_of_cons, !elem_of_app in HgL. rewrite !elem_of_app. tauto. }
    split; [done|]. intros x' Hx'. destruct (release_entry _ x' Hin Hx') as (z & Hz & (_ & _ & _ & -> & _)%relinked_fields). by apply Hown.
  - intros pn pg Hpg Hal. cbn [gc set_gc page_info set_generations_collected_twice set_youngest_gn set_generation_info] in Hpg.
    rewrite elem_of_app, elem_of_reverse. destruct (decide (pn ∈ ps)) as [|Hni]; [by left|right].
    rewrite pages_freed_other in Hpg by (apply release_pos || done). by eapply Pf.
Qed.

Lemma release_retired : retired_ok (gc s') Y C B O fr (reverse (fr g) ++ tw).
Proof.
  pose proof (db_retired _ _ _ _ Hdb) as [R1 R2 R3 R4 R5 R6]. pose proof release_from_nodup as Hnd.
  assert (Hlist : ∀ g' i, g' ∈ Y ++ C ++ B ++ O → i ∈ fr g' → (i ∉ Y ++ C ++ B ++ O) ∧ (i ∉ fr g) ∨ i ∈ ly_being D).
  { intros g' i Hg' Hi. destruct (decide (i ∈ ly_being D)) as [|Hb]; [by right|left].
    assert (Hin : i ∈ concat (fr <$> Y ++ C ++ B ++ O)).
    { apply list_elem_of_In, in_concat. exists (fr g'). split; apply list_elem_of_In; [|done]. by apply list_elem_of_fmap_2. }
    apply NoDup_app in Hnd as (_ & Hd & (_ & Hd1 & _)%NoDup_app). split.
    - intros HL. apply (Hd i); [|rewrite !elem_of_app; auto]. rewrite EC in Hb. unfold ly_live.
      rewrite !elem_of_app in *. rewrite elem_of_cons in Hb. tauto.
    - intros Hf. apply (Hd1 i Hf), elem_of_app. by left. }
  assert (Hnext : ∀ g' i z, g' ∈ Y ++ C ++ B ++ O → i ∈ fr g' → zlookup t i = Some z → ∃ z', zlookup t' i = Some z' ∧ gi_next_from z' = gi_next_from z).
  { intros g' i z Hg' Hi Hz. destruct (decide (i = g)) as [->|Hig].
    { eexists. split; [by apply (rt_gen _ _ _ _ _ Hret)|done]. }
    destruct (decide (i ∈ Y ++ C ++ B ++ O)) as [HL|HL].
    { destruct (rt_linked _ _ _ _ _ Hret i z HL Hz) as (z' & Hz' & Hrl). exists z'. split; [done|]. by rewrite Hrl. }
    destruct (decide (i ∈ fr g)) as [Hf|Hf].
    { destruct (rt_from _ _ _ _ _ Hret i z Hf Hz) as (v & Hv). eexists. by split. }
    exists z. by rewrite (rt_other _ _ _ _ _ Hret). }
  split.
  - intros g' x' Hg' Hx'. destruct (release_entry g' x' Hg' Hx') as (z & Hz & Hrl).
    destruct (relinked_fields _ _ Hrl) as (_ & _ & _ & _ & _ & -> & _). rewrite EC in R1. cbn [app] in R1.
    eapply follows_same; [|apply (R1 g' z); [|done]].
    + intros i w. by apply (Hnext g').
    + rewrite <- release_gens. by apply release_rest.
  - exact Htw.
  - eapply NoDup_Permutation_proper; [|exact Hnd]. apply Permutation_app; [done|].
    rewrite reverse_Permutation, !app_assoc. by rewrite (Permutation_app_comm (concat _)).
  - intros i Hi. apply R4. rewrite EC. by right.
  - intros i x' Hi HiC Hx'.
    cbn [gc set_gc generation_info set_generations_collected_twice set_youngest_gn set_generation_info] in Hx'.
    assert (Hi0 : ∃ g', g' ∈ Y ++ C ++ B ++ O ∧ i ∈ fr g').
    { apply list_elem_of_In, in_concat in Hi as (l & Hl & Hil). apply list_elem_of_In, list_elem_of_fmap in Hl as (g' & -> & Hg').
      exists g'. split; [done|]. by apply list_elem_of_In. }
    destruct Hi0 as (g' & Hg' & Hig'). destruct (decide (i = g)) as [->|Hig].
    { rewrite (rt_gen _ _ _ _ _ Hret x Hx) in Hx'. by injection Hx' as <-. }
    destruct (Hlist g' i Hg' Hig') as [[HL Hf]|Hb].
    2: { rewrite EC in Hb. by apply elem_of_cons in Hb as [|]. }
    rewrite (rt_other _ _ _ _ _ Hret) in Hx' by done. apply (R5 i x').
    + rewrite EC. cbn [app]. rewrite release_perm. apply elem_of_app. by right.
    + rewrite EC. intros [->|]%elem_of_cons; done.
    + done.
  - intros i x' Hi Hx'. rewrite elem_of_app, elem_of_reverse in Hi.
    cbn [gc set_gc generation_info set_generations_collected_twice set_youngest_gn set_generation_info] in Hx'.
    assert (Hr : 0 ≤ i < Z.of_nat (length t)) by (apply zlookup_Some in Hx' as [? _]; by rewrite <- (rt_length _ _ _ _ _ Hret)).
    destruct (zlookup_lt _ _ Hr) as [z Hz]. destruct Hi as [Hi|Hi].
    + destruct (rt_from _ _ _ _ _ Hret i z Hi Hz) as (v & Hv). rewrite Hv in Hx'. by injection Hx' as <-.
    + assert (Hout : i ∉ ly_gens D) by (apply release_from_status, elem_of_app; by right).
      rewrite (rt_other _ _ _ _ _ Hret) in Hx'.
      * by apply (R6 i).
      * intros HL. by apply Hout, release_rest.
      * intros ->. apply Hout, release_in.
      * intros Hf. apply NoDup_app in Hnd as (_ & _ & (_ & Hd & _)%NoDup_app). apply (Hd i Hf), elem_of_app. by right.
Qed.

Lemma release_filing : filing (gc s') (ly_filed (released g ps C D)) (ly_disk D).
Proof.
  pose proof (db_filing _ _ _ _ Hdb) as [F1 F2 F3].
  assert (Hperm : ly_filed (released g ps C D) ≡ₚ ly_filed D).
  { unfold ly_filed, ly_live, ly_gens, released. cbn [ly_new ly_being ly_await ly_old ly_from ly_twice]. rewrite EC. cbn [app].
    apply Permutation_app; [done|]. rewrite release_perm, reverse_Permutation, !app_assoc. by rewrite (Permutation_app_comm (concat _)). }
  assert (Hsame : ∀ i z, zlookup t i = Some z → ∃ z', zlookup t' i = Some z' ∧ gi_disk_page z' = gi_disk_page z ∧ gi_npages z' = gi_npages z).
  { intros i z Hz. destruct (decide (i ∈ Y ++ C ++ B ++ O)) as [HL|HL].
    { destruct (rt_linked _ _ _ _ _ Hret i z HL Hz) as (z' & Hz' & (_ & _ & En & _ & Ed & _)%relinked_fields). by exists z'. }
    destruct (decide (i = g)) as [->|Hig]; [eexists; split; [by apply (rt_gen _ _ _ _ _ Hret)|done]|].
    destruct (decide (i ∈ fr g)) as [Hf|Hf]; [destruct (rt_from _ _ _ _ _ Hret i z Hf Hz) as (v & Hv); by eexists|].
    exists z. by rewrite (rt_other _ _ _ _ _ Hret). }
  assert (Hdp : ∀ l : list Z, disk_pages t' <$> l = disk_pages t <$> l).
  { intros l. apply list_fmap_ext. intros _ i _. unfold disk_pages. destruct (zlookup t i) as [z|] eqn:Hz.
    - by destruct (Hsame i z Hz) as (z' & -> & -> & _).
    - destruct (zlookup t' i) as [z'|] eqn:Hz'; [|done]. exfalso. apply zlookup_Some in Hz' as [Hr _].
      rewrite (rt_length _ _ _ _ _ Hret) in Hr. apply zlookup_lt in Hr as [? ?]. congruence. }
  cbn [gc set_gc generation_info set_generations_collected_twice set_youngest_gn set_generation_info]. split;
    cbn [generation_info set_generations_collected_twice set_youngest_gn set_generation_info]; rewrite ?Hdp.
  - by rewrite Hperm.
  - intros d Hd. rewrite Hperm in Hd. by apply F2.
  - intros i x' Hi Hx'. rewrite Hperm in Hi. assert (Hr : 0 ≤ i < Z.of_nat (length t)).
    { apply zlookup_Some in Hx' as [? _]. by rewrite <- (rt_length _ _ _ _ _ Hret). }
    destruct (zlookup_lt _ _ Hr) as [z Hz]. destruct (Hsame i z Hz) as (z' & Hz' & Ed & En). rewrite Hx' in Hz'. injection Hz' as <-.
    rewrite Ed, En. by apply (F3 i).
Qed.

Lemma release_db : db s' (released g ps C D) L r.
Proof.
  pose proof (db_bounds _ _ _ _ Hdb) as [W1 W2 W3 W4 W5 W6]. pose proof (wf_ap _ W1) as Hap. split.
  - split; cbn [gc set_gc set_mem first_generation_start first_generation_end is_recovering page_info set_generations_collected_twice set_youngest_gn set_generation_info]; try done.
    + eapply wf_same; [exact W1|done..|]. intros a Ha. by apply release_young_mem.
    + by rewrite pages_freed_length.
    + by rewrite pages_freed_recovering.
  - exact release_table.
  - exact release_paging.
  - eapply cells_ok_same; [exact release_gen_of|apply (db_cells _ _ _ _ Hdb)|exact release_cell_mem|done|].
    intros i x' Hi Hx'. destruct (release_entry i x') as (z & Hz & (_ & _ & En & _)%relinked_fields); [|done|by exists z].
    unfold ly_live in Hi. cbn [released ly_new ly_await ly_old] in Hi. rewrite !elem_of_app in *. tauto.
  - eapply young_ok_same; [exact release_gen_of|apply (db_young _ _ _ _ Hdb)|done..|]. intros a Ha. apply release_young_mem. lia.
  - eapply rems_ok_same; [exact release_gen_of|apply (db_cells _ _ _ _ Hdb)|apply (db_rems _ _ _ _ Hdb)|].
    intros i x' Hi Hx'. destruct (release_entry i x') as (z & Hz & (_ & Er & _)%relinked_fields); [|done|by exists z].
    cbn [released ly_await] in Hi. rewrite !elem_of_app. auto.
  - exact release_retired.
  - exact release_filing.
  - assert (Eio : io (gc s') = io (gc s)) by (cbn; by rewrite pages_freed_eq). rewrite Eio. apply (db_disk _ _ _ _ Hdb).
  - assert (Esp : smart_ptrs (gc s') = smart_ptrs (gc s)) by (cbn; by rewrite pages_freed_eq).
    eapply roots_ok_same; [apply (db_roots _ _ _ _ Hdb)|done|done|exact Esp].
Qed.

Lemma release_frame_holds : release_frame s s'.
Proof.
  assert (Eg : ∀ {A} (f : gc_state → A), (∀ a b c e h, f (set_generations_collected_twice h (set_youngest_gn e (set_generation_info t'
    (set_number_of_free_pages a (set_list_of_free_pages b (set_page_info c (gc s))))))) = f (gc s)) → f (gc s') = f (gc s)).
  { intros A f Hf. cbn [gc set_gc]. rewrite pages_freed_eq. apply Hf. }
  split; [split|..]; try done.
  - intros c. split; f_equal; by apply (Eg _ smart_ptrs).
  - split_and!; [by apply (Eg _ is_recovering)|by apply (Eg _ major_gc_was_started)|by apply (Eg _ is_collecting)].
  - cbn. by rewrite pages_freed_length.
  - f_equal. f_equal. by apply (Eg _ io).
  - by apply (Eg _ smart_ptrs).
  - split_and!; [by apply (Eg _ io)|by apply (Eg _ to_gn)|by apply (Eg _ prev_to_gn)|by apply (Eg _ number_of_nonexistent_generations)|].
    cbn. apply (rt_length _ _ _ _ _ Hret).
Qed.
End release.

Lemma wp_release `{HP : Params} fuel s D L r g C x (Q : unit → state → Prop) : db s D L r → ly_being D = g :: C →
  zlookup (generation_info (gc s)) g = Some x → (length (ly_from D g) < fuel)%nat →
  (∀ s', db s' (released g (gi_page x) C D) L r → release_frame s s' →
    release_kept s s' D → Q tt s') →
  wp (mark_generation_collected_once fuel g) Q s.
Proof.
  intros Hdb EC Hx Hfuel HQ. pose proof (release_pages _ _ _ _ Hdb _ _ EC _ Hx) as (Hn & Hnd & Hp).
  pose proof (db_table _ _ _ _ Hdb) as [T1 T2 T3 T4 T5 T6 T7 T8]. rewrite EC in T2, T3, T4, T5. cbn [app] in *.
  pose proof (release_from_nodup _ _ _ _ Hdb _ _ EC) as HndF.
  eapply (wp_mark_generation_collected_once _ _ (ly_new D) (C ++ ly_await D ++ ly_old D) g x (ly_from D g) (ly_twice D));
    [exact T2|exact T3|exact T4|exact T5|exact Hx|exact Hn|exact Hnd|intros pn Hpn; apply (Hp pn Hpn)|apply (db_bounds _ _ _ _ Hdb)| |apply (db_retired _ _ _ _ Hdb)| | |exact Hfuel|].
  - apply (rd_from _ _ _ _ _ _ _ (db_retired _ _ _ _ Hdb)); [|exact Hx]. by eapply release_in.
  - rewrite (app_assoc (ly_from D g)), (Permutation_app_comm (ly_from D g) (concat _)), <- (app_assoc (concat _)) in HndF.
    by apply NoDup_app in HndF as (_ & _ & (_ & _ & HndF)%NoDup_app).
  - intros i Hi Hin. eapply (release_from_status _ _ _ _ Hdb _ _ EC _ Hin). rewrite (release_gens _ _ _ EC). exact Hi.
  - intros t' h' m' Hchain Hret Htw Hm. eapply HQ.
    + eapply release_db; [exact Hdb|exact EC|exact Hx|exact Hchain|exact Hret|exact Htw|exact Hm].
    + eapply release_frame_holds; [exact Hret].
    + split.
      * intros a Ha. eapply release_gen_of; [exact Hdb|exact EC|exact Hx|exact Ha].
      * intros i z Hi Hz. apply (rt_linked _ _ _ _ _ Hret i z); [|exact Hz]. unfold ly_live in Hi. rewrite !elem_of_app in *. tauto.
Qed.

(** ** All of them *)

(** The same database, where nothing is being collected. *)
Record same_but_being (D D' : layout) : Prop := {
  sb_lists : ly_new D' = ly_new D ∧ ly_await D' = ly_await D ∧ ly_old D' = ly_old D;
  sb_cells : ly_cells D' = ly_cells D ∧ ly_first D' = ly_first D ∧ ly_smart D' = ly_smart D;
  sb_from : ly_from D' = ly_from D ∧ ly_disk D' = ly_disk D;
  sb_free : (length (ly_free D) ≤ length (ly_free D'))%nat
}.

#[export] Instance release_frame_refl : Reflexive release_frame.
Proof. by intros s. Qed.

Lemma release_kept_trans s1 s2 s3 D D' : release_kept s1 s2 D → release_kept s2 s3 D' → ly_cells D' = ly_cells D →
  ly_live D' = ly_live D → release_kept s1 s3 D.
Proof.
  intros [G1 E1] [G2 E2] Ec El. rewrite Ec, El in *. split.
  - intros a Ha. by rewrite G2, G1.
  - intros g x Hg Hx. destruct (E1 g x Hg Hx) as (x2 & Hx2 & R1). destruct (E2 g x2 Hg Hx2) as (x3 & Hx3 & R2).
    exists x3. split; [done|]. by etrans.
Qed.

Lemma wp_release_all `{HP : Params} fuel s D L r (Q : unit → state → Prop) : db s D L r →
  (∀ g, g ∈ ly_being D → (length (ly_from D g) < fuel)%nat) →
  (∀ s' D', db s' D' L r → same_but_being D D' → ly_being D' = [] → release_frame s s' →
    release_kept s s' D → Q tt s') →
  wp (for_from_generations (Z.of_nat (length (ly_being D))) (hd_gn INV (ly_being D)) (λ gn,
    x ← get_gen gn; mark_generation_collected_once fuel gn;; mret (gi_older x))) Q s.
Proof.
  intros Hdb Hfuel HQ. set (C := ly_being D). unfold for_from_generations. rewrite Nat2Z.id. apply wp_bind.
  eapply wp_for with (I := λ i gi s', ∃ D', db s' D' L r ∧ same_but_being D D' ∧ ly_being D' = drop i C ∧ release_frame s s' ∧
    release_kept s s' D ∧ ((i < length C)%nat → gi = hd_gn INV (drop i C))).
  - exists D. split; [done|]. split; [by split|]. split; [done|]. split; [done|]. split; [|done].
    split; [done|]. intros g x _ Hx. exists x. by split.
  - intros i gi s' Hi (D' & Hdb' & [(S1 & S2 & S3) (S4 & S5 & S6) (S7 & S8) S9] & Eb & Hf & Hg & Hgi). rewrite (Hgi Hi). clear gi Hgi.
    destruct (drop i C) as [|g C'] eqn:Ed; [apply (f_equal length) in Ed; rewrite length_drop in Ed; simpl in Ed; lia|].
    cbn [hd_gn]. assert (HgC : g ∈ C) by (rewrite <- (take_drop i C), Ed; apply elem_of_app; right; by left).
    assert (Hx : ∃ x, zlookup (generation_info (gc s')) g = Some x ∧ gi_older x = hd_gn INV (C' ++ ly_await D' ++ ly_old D')).
    { pose proof (tb_chain _ _ _ _ _ (db_table _ _ _ _ Hdb')) as Hch. rewrite Eb in Hch. destruct (chain_at _ _ _ _ _ _ Hch) as (x & Hx & _ & Eo). by exists x. }
    destruct Hx as (x & Hx & Eo).
    apply wp_bind. eapply wp_get_gen; [exact Hx|]. apply wp_bind.
    eapply wp_release; [exact Hdb'|exact Eb|exact Hx|rewrite S7; by apply Hfuel|].
    intros s2 Hdb2 Hf2 Hg2. apply wp_ret. exists (released g (gi_page x) C' D'). split; [exact Hdb2|].
    split; [split; cbn [released ly_new ly_await ly_old ly_cells ly_first ly_smart ly_from ly_disk ly_free]; [done|done|done|rewrite length_app; lia]|].
    assert (Ed' : drop (S i) C = C') by (rewrite <- Nat.add_1_r, <- drop_drop, Ed; done).
    split; [by rewrite Ed'|]. split; [by etrans|]. split; [by eapply release_kept_trans; [exact Hg|exact Hg2|..]; [|unfold ly_live; congruence]|].
    intros Hi'. rewrite Ed', Eo. destruct C' as [|g' C']; [|done]. apply (f_equal length) in Ed'. rewrite length_drop in Ed'. simpl in Ed'. lia.
  - intros g s' (D' & Hdb' & HS & Eb & Hf & Hg & _). apply wp_ret. eapply HQ; [exact Hdb'|exact HS| |exact Hf|exact Hg].
    by rewrite Eb, drop_all.
Qed.
