(* ===== verification/Log.v ===== *)
(** The persistent description of a generation (shades.c,
    [log_to_generation_pinfo_list]): a new cell of the first generation, which the
    root block refers to. *)

From S2P Require Import Prelude Generations Machine Celltypes Shades Root Bitops Cells Pages Genlist Smartptr Io Copy Forward Copying Drain Roots Copied Chain Retire Commit Mature.

#[local] Abbreviation N := NUMBER_OF_WORDS_PER_PAGE.

(** * The words of the description *)

(** Page numbers and their disk pages' numbers in turn. *)
Definition page_pairs (ps ds : list Z) : list Z := concat (zip_with (λ p d, [p; d]) ps ds).

Lemma length_page_pairs ps ds : length ps = length ds → length (page_pairs ps ds) = (2 * length ps)%nat.
Proof.
  revert ds. induction ps as [|p ps IH]; intros [|d ds] Hl; try done. injection Hl as Hl.
  unfold page_pairs in *. simpl. rewrite IH by done. lia.
Qed.

Lemma page_pairs_snoc ps ds p d : length ps = length ds → page_pairs (ps ++ [p]) (ds ++ [d]) = (page_pairs ps ds ++ [p]) ++ [d].
Proof.
  revert ds. induction ps as [|p' ps IH]; intros [|d' ds] Hl; try done. injection Hl as Hl.
  unfold page_pairs in *. simpl. by rewrite IH.
Qed.

(** The first word: the size and the number of from-generations. *)
Definition pinfo_low (npages nfrom : Z) : Z := npages + nfrom * 2 ^ 12.
Definition pinfo_words (npages nfrom l gn nref : Z) (ps ds : list Z) : list Z :=
  [header CELL_generation_pinfo (pinfo_low npages nfrom); l; gn; nref] ++ page_pairs ps ds.

Section words.
Context (npages nfrom : Z) (Hn : 0 ≤ npages < MAX_GENERATION_SIZE) (Hf : 0 ≤ nfrom ≤ 0xFFF).

Lemma npages_low : 0 ≤ npages < 2 ^ 12.
Proof. change MAX_GENERATION_SIZE with 41 in Hn. lia. Qed.

Lemma pinfo_low_range : 0 ≤ pinfo_low npages nfrom < 2 ^ 24.
Proof. pose proof npages_low. unfold pinfo_low. lia. Qed.

Lemma pinfo_header : Z.lor (header CELL_generation_pinfo 0) (Z.lor npages (shl32 nfrom 12)) =
  header CELL_generation_pinfo (pinfo_low npages nfrom).
Proof.
  pose proof npages_low. assert (E : shl32 nfrom 12 = nfrom * 2 ^ 12).
  { unfold shl32. rewrite Z.shiftl_mul_pow2 by lia. apply w32_small. unfold is_word. rewrite word_modulus_val. lia. }
  rewrite E, Z.lor_comm, (Z.lor_comm npages).
  rewrite (lor_add_disjoint (nfrom * 2 ^ 12) npages 12) by (lia || by apply Z_mod_mult).
  rewrite Z.lor_comm, (Z.add_comm _ npages). fold (pinfo_low npages nfrom). by rewrite header_lor by apply pinfo_low_range.
Qed.

Lemma pinfo_size : Z.land (header CELL_generation_pinfo (pinfo_low npages nfrom)) 0xFFF = npages.
Proof.
  pose proof npages_low. rewrite header_add. change 0xFFF with (2 ^ 12 - 1). rewrite land_ones_mod by lia. unfold pinfo_low.
  replace (cell_tag CELL_generation_pinfo * 2 ^ 24 + (npages + nfrom * 2 ^ 12)) with (npages + (cell_tag CELL_generation_pinfo * 2 ^ 12 + nfrom) * 2 ^ 12) by lia.
  rewrite Z_mod_plus_full. by apply Z.mod_small.
Qed.

Context (l gn nref : Z) (ps ds : list Z) (Hps : npages = Z.of_nat (length ps)) (Hds : length ds = length ps).
#[local] Abbreviation ws := (pinfo_words npages nfrom l gn nref ps ds).

Lemma length_pinfo : Z.of_nat (length ws) = 4 + 2 * npages.
Proof. unfold pinfo_words. rewrite length_app, length_page_pairs by done. simpl. lia. Qed.

Lemma pinfo_shape : gc_shape ws = Some (CELL_generation_pinfo,
  (DECLARE_PTR, 1) :: (DECLARE_WORD, 2) :: (DECLARE_WORD, 3) :: fields_from DECLARE_WORD 4 (2 * npages)).
Proof.
  pose proof length_pinfo as Hl. unfold gc_shape. cbn [pinfo_words app head mbind option_bind].
  rewrite header_type by apply pinfo_low_range. cbn [mbind option_bind]. unfold gc_def.
  assert (Es : ∀ w, simple_cell CELL_generation_pinfo w = None) by done. rewrite Es, pinfo_size, bool_decide_eq_true_2 by (split; [done|lia]). cbn [mbind option_bind].
  rewrite bool_decide_eq_true_2; [done|]. by rewrite <- Hl.
Qed.

Lemma pinfo_shaped : well_shaped ws.
Proof.
  eexists _, _. split; [exact pinfo_shape|]. intros [|[|[|j]]] i x; [done..|].
  change (fields_from DECLARE_WORD 4 (2 * npages) !! j = Some (DECLARE_NONNULL_PTR, i) → ws !! S (S (S (S j))) = Some x → x ≠ NULL_WORD).
  unfold fields_from. rewrite list_lookup_fmap. by destruct (seq _ _ !! j).
Qed.

Lemma pinfo_ref i x : ref_at ws i = true → ws !! i = Some x → i = 1%nat ∧ x = l ∧ l ≠ NULL_WORD.
Proof.
  intros Hr Hx. pose proof (ref_at_lookup _ _ Hr) as (_ & y & Hy & Hne). rewrite Hx in Hy. injection Hy as <-.
  unfold ref_at in Hr. rewrite pinfo_shape in Hr. destruct i as [|[|[|[|j]]]]; [done| |done..|].
  - simpl in Hx. injection Hx as <-. done.
  - change (match fields_from DECLARE_WORD 4 (2 * npages) !! j, ws !! S (S (S (S j))) with
      | Some (d, _), Some x => ref d x | _, _ => false end = true) in Hr.
    unfold fields_from in Hr. rewrite list_lookup_fmap, Hx in Hr. by destruct (seq _ _ !! j).
Qed.
End words.

(** * New cells *)

(** The state after the cell at [p] was allocated and the image changed to [m]. *)
Definition with_cell (p c : Z) (m : gmap Z Z) (s : state) : state := set_mem m (set_fg_can c (set_fg_ptr p s)).

Lemma wp_allocate_cell s c n t (Q : Z → state → Prop) : wf s → 2 ≤ n ≤ N - 2 →
  4 * n ≤ first_generation_allocation_ptr s - first_generation_end s →
  (∀ m p, p = first_generation_allocation_ptr s - 4 * n → wrote p [header t 0] (mem s) m → Q p (with_cell p c m s)) →
  wp (allocate n t) Q (set_fg_can c s).
Proof.
  intros Hw Hn Hroom HQ. unfold allocate, raw_allocate. pose proof (wf_ap _ Hw). pose proof (wf_aligned _ Hw).
  set (p := first_generation_allocation_ptr s - 4 * n) in *. assert (Hp4 : p mod 4 = 0) by (subst p; zdiv).
  apply wp_bind. do 2 (apply wp_bind, wp_assert; [apply bool_decide_eq_true; lia|]).
  apply wp_bind, wp_gets. apply wp_bind, wp_modify, wp_bind. cbn [first_generation_allocation_ptr set_fg_can]. fold p.
  set (s' := set_fg_ptr p (set_fg_can c s)).
  apply wp_for with (I := λ _ _ s1, s1 = s'); [done| |].
  - intros i _ s1 Hi ->. apply wp_bind. eapply wp_load with FIRST_GENERATION_DEADBEEF.
    + apply (wf_virgin _ Hw); [subst p; lia|]. zdiv.
    + by apply wp_assert; [apply bool_decide_eq_true|].
  - intros _ s1 ->. apply wp_ret, wp_bind. apply wp_store.
    { apply (wf_mapped _ Hw); [subst p; lia|zdiv]. }
    apply wp_ret. cbn [mem s' set_fg_ptr set_fg_can]. apply HQ; [done|]. rewrite <- header_0.
    pose proof (wrote_snoc p [] (header t 0) _ _ (wrote_nil p (mem s))) as Hwr. exact Hwr.
Qed.

Lemma wrote_again p x y m0 m : wrote p [x] m0 m → wrote p [y] m0 (<[p + 4 * 0 := y]> m).
Proof.
  intros (H1 & H2 & H3). rewrite Z.add_0_r. split; [|split].
  - intros i z [-> ->]%list_lookup_singleton_Some. rewrite Z.add_0_r. apply lookup_insert_eq.
  - intros a Ha. simpl in Ha. rewrite lookup_insert_ne by lia. by apply H2.
  - intros a Ha%H3. destruct (decide (p = a)) as [<-|]; [rewrite lookup_insert_eq; eauto|by rewrite lookup_insert_ne].
Qed.

(** The next word of the cell is written. *)
Lemma wp_write_next s p c m ws i v (Q : unit → state → Prop) : wf s → p mod 4 = 0 →
  first_generation_end s ≤ p → p + 4 * i < first_generation_start s → i = Z.of_nat (length ws) → wrote p ws (mem s) m →
  (∀ m', wrote p (ws ++ [v]) (mem s) m' → Q tt (with_cell p c m' s)) →
  wp (wr p i v) Q (with_cell p c m s).
Proof.
  intros Hw Hp Hlo Hhi -> Hwr HQ. apply wp_store.
  { cbn [with_cell set_mem mem]. apply Hwr, (wf_mapped _ Hw); [lia|zdiv]. }
  apply HQ. by apply wrote_snoc.
Qed.

Lemma wp_can_allocate_cell s n (Q : bool → state → Prop) : 2 ≤ n →
  4 * n ≤ first_generation_allocation_ptr s - first_generation_end s →
  (∀ c, Q true (set_fg_can c s)) → wp (can_allocate n) Q s.
Proof.
  intros Hn Hroom HQ. apply wp_bind, wp_gets, wp_bind, wp_assert; [by apply bool_decide_eq_true|].
  apply wp_bind, wp_gets, wp_bind.
  destruct (bool_decide (_ < _)); [apply wp_modify|apply wp_ret]; apply wp_bind, wp_gets, wp_ret.
  - rewrite bool_decide_eq_true_2 by (cbn [first_generation_end set_fg_can]; lia). apply HQ.
  - rewrite bool_decide_eq_true_2 by lia. assert (E : set_fg_can (first_generation_can_allocate_ptr s) s = s) by by destruct s.
    rewrite <- E. apply HQ.
Qed.

(** * The operation *)

Lemma wp_log_page s p c m x k hd (Q : unit → state → Prop) : wf s → p mod 4 = 0 → first_generation_end s ≤ p →
  zlookup (generation_info (gc s)) (to_gn (gc s)) = Some x → length hd = 4%nat →
  (k < length (gi_page x))%nat → length (gi_disk_page x) = length (gi_page x) →
  p + 4 * (4 + 2 * Z.of_nat k + 1) < first_generation_start s →
  wrote p (hd ++ page_pairs (take k (gi_page x)) (take k (gi_disk_page x))) (mem s) m →
  (∀ m', wrote p (hd ++ page_pairs (take (S k) (gi_page x)) (take (S k) (gi_disk_page x))) (mem s) m' → Q tt (with_cell p c m' s)) →
  wp (log_page p k) Q (with_cell p c m s).
Proof.
  intros Hw Hp Hlo Hx Hhd Hk Hd Hhi Hm HQ. apply wp_bind, wp_gcs, wp_bind. eapply wp_get_gen; [exact Hx|].
  destruct (lookup_lt_is_Some_2 (gi_page x) k) as [pn Hpn]; [done|]. destruct (lookup_lt_is_Some_2 (gi_disk_page x) k) as [d Hdn]; [lia|].
  apply wp_bind. eapply wp_of_option; [apply zlookup_Some; rewrite Nat2Z.id; split; [lia|exact Hpn]|].
  assert (Hlk : length (page_pairs (take k (gi_page x)) (take k (gi_disk_page x))) = (2 * k)%nat).
  { rewrite length_page_pairs; rewrite !length_take; lia. }
  apply wp_bind. eapply wp_write_next; [exact Hw|exact Hp|exact Hlo|lia| |exact Hm|]; [rewrite length_app; lia|].
  clear m Hm. intros m Hm. apply wp_bind. eapply wp_of_option; [apply zlookup_Some; rewrite Nat2Z.id; split; [lia|exact Hdn]|].
  eapply wp_write_next; [exact Hw|exact Hp|exact Hlo|exact Hhi| |exact Hm|]; [rewrite !length_app; simpl; lia|].
  clear m Hm. intros m Hm. apply HQ. rewrite (take_S_r _ _ _ Hpn), (take_S_r _ _ _ Hdn), page_pairs_snoc, !app_assoc; [exact Hm|].
  rewrite !length_take. lia.
Qed.

Lemma wp_log_to_generation_pinfo_list s x nfrom nref l (Q : unit → state → Prop) : wf s →
  zlookup (generation_info (gc s)) (to_gn (gc s)) = Some x →
  gi_npages x = Z.of_nat (length (gi_page x)) → length (gi_disk_page x) = length (gi_page x) →
  gi_npages x < MAX_GENERATION_SIZE → 0 ≤ nfrom ≤ 0xFFF →
  root s !! root_ix_num ROOT_IX_generation_pinfo_list = Some l →
  4 * (4 + 2 * gi_npages x) ≤ first_generation_allocation_ptr s - first_generation_end s →
  (∀ c m p, p = first_generation_allocation_ptr s - 4 * (4 + 2 * gi_npages x) →
    wrote p (pinfo_words (gi_npages x) nfrom l (to_gn (gc s)) nref (gi_page x) (gi_disk_page x)) (mem s) m →
    Q tt (set_root (<[root_ix_num ROOT_IX_generation_pinfo_list := p]> (root s)) (with_cell p c m s))) →
  wp (log_to_generation_pinfo_list nfrom nref) Q s.
Proof.
  intros Hw Hx Hn Hd Hmax Hf Hl Hroom HQ. unfold log_to_generation_pinfo_list. set (n := gi_npages x) in *.
  set (p := first_generation_allocation_ptr s - 4 * (4 + 2 * n)) in *. pose proof (wf_ap _ Hw). pose proof (wf_aligned _ Hw).
  change MAX_GENERATION_SIZE with 41 in *. assert (Hp4 : p mod 4 = 0) by (subst p; zdiv).
  assert (Hlo : first_generation_end s ≤ p) by (subst p; lia).
  assert (Hhi : ∀ i, i < 4 + 2 * n → p + 4 * i < first_generation_start s) by (intros; subst p; lia).
  apply wp_bind, wp_gcs, wp_bind. eapply wp_get_gen; [exact Hx|]. fold n.
  apply wp_bind, wp_assert; [apply bool_decide_eq_true; change MAX_GENERATION_SIZE with 41; lia|].
  apply wp_bind, wp_can_allocate_cell; [lia|exact Hroom|]. intros c. apply wp_bind, wp_assert; [done|].
  apply wp_bind, wp_allocate_cell; [exact Hw|change N with 16384; lia|exact Hroom|]. fold p. intros m p' -> Hm. fold p in Hm |- *.
  apply wp_bind. eapply wp_load; [apply (proj1 Hm 0%nat); reflexivity|]. apply wp_bind, wp_store.
  { cbn [with_cell set_mem mem]. apply Hm, (wf_mapped _ Hw); [specialize (Hhi 0); lia|zdiv]. }
  rewrite pinfo_header by (change MAX_GENERATION_SIZE with 41; lia). set (w0 := header _ _).
  change (set_mem _ (with_cell p c m s)) with (with_cell p c (<[p + 4 * 0 := w0]> m) s).
  apply (wrote_again p _ w0) in Hm. set (m1 := <[_ := w0]> m) in *. clearbody m1.
  apply wp_bind. eapply wp_get_root; [exact Hl|].
  apply wp_bind. eapply (wp_write_next s p c m1 [w0]); [exact Hw|exact Hp4|exact Hlo|apply Hhi; lia|done|exact Hm|]. clear m1 m Hm. intros m Hm.
  apply wp_bind. eapply (wp_write_next s p c m [w0; l]); [exact Hw|exact Hp4|exact Hlo|apply Hhi; lia|done|exact Hm|]. clear m Hm. intros m Hm.
  apply wp_bind. eapply (wp_write_next s p c m [w0; l; to_gn (gc s)]); [exact Hw|exact Hp4|exact Hlo|apply Hhi; lia|done|exact Hm|].
  clear m Hm. intros m Hm. apply wp_bind. cbn [app] in Hm. set (hd := [w0; l; to_gn (gc s); nref]) in *.
  eapply (wp_for (λ k _ s', ∃ m, s' = with_cell p c m s ∧ wrote p (hd ++ page_pairs (take k (gi_page x)) (take k (gi_disk_page x))) (mem s) m)).
  - exists m. split; [done|]. exact Hm.
  - clear m Hm. intros k [] s' Hk (m & -> & Hm). apply (wp_log_page s p c m x k hd); try done; [lia|lia|].
    intros m' Hm'. by exists m'.
  - clear m Hm. intros [] s' (m & -> & Hm). rewrite !take_ge in Hm by lia. apply wp_set_root_item.
    { by eapply lookup_lt_Some. }
    by apply (HQ c m p).
Qed.

(** * The database with the new cell *)

Definition with_young (Yg : gmap Z (list Z)) (D : layout) : layout :=
  Layout (ly_new D) (ly_being D) (ly_await D) (ly_old D) (ly_cells D) Yg (ly_smart D) (ly_free D) (ly_from D) (ly_twice D) (ly_disk D).

(** The head of the list of descriptions: none, one in the first generation, or one
    in the generations [L]. *)
Definition pinfo_ok (s : state) (D : layout) (L : list Z) : Prop :=
  ∃ l, root s !! root_ix_num ROOT_IX_generation_pinfo_list = Some l ∧
    (l = NULL_WORD ∨ is_Some (ly_first D !! l) ∨ is_Some (ly_cells D !! l) ∧ in_gens s L l).

Section logged.
Context `{HP : Params} (s : state) (D : layout) (L : list Z) (r : list Z) (Hdb : db s D L r).
Context (c p : Z) (m : gmap Z Z) (ws : list Z).
Context (Hlen : 2 ≤ Z.of_nat (length ws) ≤ N - 2) (Hp : p = first_generation_allocation_ptr s - 4 * Z.of_nat (length ws)).
Context (Hroom : first_generation_end s ≤ p) (Hm : wrote p ws (mem s) m) (Hsh : well_shaped ws).
Context (Href : ∀ i x, ref_at ws i = true → ws !! i = Some x →
  is_Some (ly_first D !! x) ∨ is_Some (ly_cells D !! x) ∧ in_gens s L x).
#[local] Abbreviation s' := (set_root (<[root_ix_num ROOT_IX_generation_pinfo_list := p]> (root s)) (with_cell p c m s)).
#[local] Abbreviation Yg' := (<[p := ws]> (ly_first D)).

Lemma logged_mem a : a < first_generation_end s ∨ first_generation_allocation_ptr s ≤ a → mem s' !! a = mem s !! a.
Proof. intros Ha. destruct Hm as (_ & H & _). apply H. lia. Qed.

Lemma logged_wf : wf s'.
Proof.
  pose proof (bd_wf _ (db_bounds _ _ _ _ Hdb)) as [W1 W2 W3 W4 W5 W6 W7 W8].
  split; cbn [set_root with_cell set_mem set_fg_can set_fg_ptr first_generation_start first_generation_end first_generation_allocation_ptr mem]; try done.
  - lia.
  - rewrite Hp. zdiv.
  - intros a Ha Ha4. destruct Hm as (_ & H & _). rewrite H by lia. apply W7; [lia|done].
  - intros a Ha Ha4. destruct Hm as (_ & _ & H). apply H. by apply W8.
Qed.

Lemma logged_fresh : ly_first D !! p = None.
Proof.
  apply eq_None_not_Some. intros [w Hw]. pose proof (yc_place _ _ _ _ _ _ (yk_cell _ _ _ _ (db_young _ _ _ _ Hdb) _ _ Hw)). lia.
Qed.

Lemma logged_young : young_ok s' L (ly_cells D) Yg'.
Proof.
  assert (Hy : young_ok s' L (ly_cells D) (ly_first D)).
  { eapply young_ok_same; [| apply (db_young _ _ _ _ Hdb)|..].
    - intros x _. reflexivity.
    - cbn [set_root with_cell set_mem set_fg_can set_fg_ptr first_generation_allocation_ptr]. lia.
    - reflexivity.
    - reflexivity.
    - intros a Ha. apply logged_mem. by right. }
  pose proof (bd_wf _ (db_bounds _ _ _ _ Hdb)) as Hwf. pose proof (wf_ap _ Hwf). pose proof (wf_aligned _ Hwf).
  assert (Hin : ∀ x, is_Some (ly_first D !! x) → is_Some (Yg' !! x)).
  { intros x Hx. apply lookup_insert_is_Some'. by right. }
  assert (Hap : ∀ q w, ly_first D !! q = Some w → p + 4 * Z.of_nat (length ws) ≤ q).
  { intros q w Hq. pose proof (yc_place _ _ _ _ _ _ (yk_cell _ _ _ _ (db_young _ _ _ _ Hdb) _ _ Hq)). lia. }
  split.
  - intros q w [[<- <-]|[Hne Hq]]%lookup_insert_Some.
    + split; [rewrite Hp; zdiv|exact Hlen| |exact Hsh| |].
      * intros i x Hx. by apply (proj1 Hm).
      * cbn [set_root with_cell set_mem set_fg_can set_fg_ptr first_generation_allocation_ptr first_generation_start]. lia.
      * intros i x Hr Hx. destruct (Href i x Hr Hx) as [|]; [left; by apply Hin|by right].
    + destruct (yk_cell _ _ _ _ Hy q w Hq) as [C1 C2 C3 C4 C5 C6]. split; try done.
      intros i x Hr Hx. destruct (C6 i x Hr Hx) as [|]; [left; by apply Hin|by right].
  - intros p1 w1 p2 w2 [[<- <-]|[Hne1 H1]]%lookup_insert_Some [[<- <-]|[Hne2 H2]]%lookup_insert_Some Hne; [done|..].
    + left. by apply (Hap p2 w2).
    + right. by apply (Hap p1 w1).
    + by apply (yk_sep _ _ _ _ Hy).
  - rewrite total_words_insert by apply logged_fresh.
    pose proof (yk_words _ _ _ _ (db_young _ _ _ _ Hdb)).
    cbn [set_root with_cell set_mem set_fg_can set_fg_ptr first_generation_allocation_ptr first_generation_start]. lia.
Qed.

Lemma logged_cells : cells_ok s' (ly_live D) (ly_cells D).
Proof.
  eapply cells_ok_same; [|apply (db_cells _ _ _ _ Hdb)|..].
  - intros x _. reflexivity.
  - intros q w i x Hq Hx. apply logged_mem. left. pose proof (ck_cell _ _ _ (db_cells _ _ _ _ Hdb) _ _ Hq) as Ho.
    destruct (oc_gen _ _ _ _ _ Ho) as (g & Hg & _). pose proof (oc_place _ _ _ _ _ Ho) as Hpl. apply lookup_lt_Some in Hx.
    apply gen_of_iff in Hg as (pg & [Hr _]%zlookup_Some & _). pose proof (bd_pages _ (db_bounds _ _ _ _ Hdb)). change PAGE_SIZE with 65536 in *. lia.
  - reflexivity.
  - intros g x' _ Hx'. by exists x'.
Qed.

Lemma logged_paging : paging s' (ly_gens D) (ly_free D).
Proof.
  pose proof (db_paging _ _ _ _ Hdb) as [Pp Pe Pg Po Pf]. pose proof (bd_pages _ (db_bounds _ _ _ _ Hdb)) as Hb.
  assert (Hpm : ∀ pn a, 0 ≤ pn < Z.of_nat (length (page_info (gc s))) → in_page pn a → mem s' !! a = mem s !! a).
  { intros pn a Hr Ha. apply logged_mem. left. unfold in_page in Ha. change PAGE_SIZE with 65536 in *. lia. }
  split; [|exact Pe| |exact Po|exact Pf].
  - eapply pool_frame; [exact Pp| |done..]. intros pn a Hin Ha. apply (Hpm pn); [|done]. apply (pool_page _ _ _ Pp Hin).
  - intros g x pn Hg Hx Hpn. destruct (Pg g x pn Hg Hx Hpn) as ([U1 U2 U3] & Hpg). split; [|exact Hpg].
    assert (Hr : 0 ≤ pn < Z.of_nat (length (page_info (gc s)))) by (destruct U3 as (pg & [Hr _]%zlookup_Some & _); exact Hr).
    split; [|intros i Hi|exact U3].
    + rewrite (Hpm pn); [exact U1|exact Hr|]. unfold in_page. change PAGE_SIZE with 65536. lia.
    + rewrite (Hpm pn); [by apply U2|exact Hr|]. unfold in_page. change PAGE_SIZE with 65536. change N with 16384 in Hi. lia.
Qed.

Lemma logged_roots : roots_ok s' (cell_in (with_young Yg' D)) (ly_smart D).
Proof.
  destruct (db_roots _ _ _ _ Hdb) as [R1 R2 R3 R4]. split; [by cbn; rewrite length_insert|done|done|].
  assert (Hold : ∀ x, cell_in D x → cell_in (with_young Yg' D) x).
  { intros x [Hx|Hx]; [by left|right]. apply lookup_insert_is_Some'. by right. }
  assert (Hne : ∀ i : nat, i ≠ root_ix_num ROOT_IX_generation_pinfo_list → root s' !! i = root s !! i).
  { intros i Hi. by apply list_lookup_insert_ne. }
  assert (Hacc : accu_holds_ptr s' = accu_holds_ptr s).
  { unfold accu_holds_ptr. rewrite !Hne; [done|..]; by vm_compute. }
  intros pp x Hpp Hx. destruct pp as [a|i|sp]; [done| |].
  - destruct (decide (i = Z.of_nat (root_ix_num ROOT_IX_generation_pinfo_list))) as [->|Hi].
    + right. right. assert (x = p) as ->; [|apply lookup_insert_is_Some'; by left].
      apply zlookup_Some in Hx as [_ Hx]. rewrite Nat2Z.id in Hx. cbn [root set_root] in Hx.
      apply list_lookup_insert_Some in Hx as [(_ & -> & _)|[? _]]; done.
    + destruct (R4 (RootWord i) x) as [|Hc]; [| |by left|right; by apply Hold].
      * destruct Hpp as [?|[-> Ha]]; [by left|right]. by rewrite <- Hacc.
      * apply zlookup_Some in Hx as [Hr Hx]. apply zlookup_Some. rewrite Hne in Hx by lia.
        split; [|exact Hx]. apply lookup_lt_Some in Hx. lia.
  - destruct (R4 (SmartWord sp) x Hpp Hx) as [|Hc]; [by left|right; by apply Hold].
Qed.

Lemma logged_db : db s' (with_young Yg' D) L r.
Proof.
  split; cbn [with_young ly_new ly_being ly_await ly_old ly_cells ly_first ly_smart ly_free ly_from ly_twice ly_disk].
  - pose proof (db_bounds _ _ _ _ Hdb) as [W1 W2 W3 W4 W5 W6]. split; try done. exact logged_wf.
  - apply (db_table _ _ _ _ Hdb).
  - exact logged_paging.
  - exact logged_cells.
  - exact logged_young.
  - eapply rems_ok_same; [|apply (db_cells _ _ _ _ Hdb)|apply (db_rems _ _ _ _ Hdb)|].
    + intros x _. reflexivity.
    + intros g x' _ Hx'. by exists x'.
  - apply (db_retired _ _ _ _ Hdb).
  - apply (db_filing _ _ _ _ Hdb).
  - apply (db_disk _ _ _ _ Hdb).
  - exact logged_roots.
Qed.
End logged.

(** What the description leaves as it is. *)
Record log_frame (s s' : state) (w : Z) : Prop := {
  lf_gc : gc s' = gc s;
  lf_first : first_generation_start s' = first_generation_start s ∧ first_generation_end s' = first_generation_end s ∧
    first_generation_allocation_ptr s' = first_generation_allocation_ptr s - 4 * w;
  lf_ix : ix_is_ptr s' = ix_is_ptr s ∧ old_value s' = old_value s;
  lf_root i : i ≠ root_ix_num ROOT_IX_generation_pinfo_list → root s' !! i = root s !! i
}.

Lemma wp_log `{HP : Params} s D L r x nfrom nref (Q : unit → state → Prop) : db s D L r → pinfo_ok s D L →
  zlookup (generation_info (gc s)) (to_gn (gc s)) = Some x →
  gi_npages x = Z.of_nat (length (gi_page x)) → length (gi_disk_page x) = length (gi_page x) →
  gi_npages x < MAX_GENERATION_SIZE → 0 ≤ nfrom ≤ 0xFFF →
  4 * (4 + 2 * gi_npages x) ≤ first_generation_allocation_ptr s - first_generation_end s →
  (∀ s' p l ws, root s !! root_ix_num ROOT_IX_generation_pinfo_list = Some l →
    ws = pinfo_words (gi_npages x) nfrom l (to_gn (gc s)) nref (gi_page x) (gi_disk_page x) →
    db s' (with_young (<[p := ws]> (ly_first D)) D) L r → pinfo_ok s' (with_young (<[p := ws]> (ly_first D)) D) L →
    root s' !! root_ix_num ROOT_IX_generation_pinfo_list = Some p → ly_first D !! p = None →
    log_frame s s' (4 + 2 * gi_npages x) → Q tt s') →
  wp (log_to_generation_pinfo_list nfrom nref) Q s.
Proof.
  intros Hdb (l & Hl & Hlok) Hx Hn Hd Hmax Hf Hroom HQ. pose proof (bd_wf _ (db_bounds _ _ _ _ Hdb)) as Hwf.
  eapply wp_log_to_generation_pinfo_list; [exact Hwf|exact Hx|exact Hn|exact Hd|exact Hmax|exact Hf|exact Hl|exact Hroom|].
  intros c m p Hp Hm. set (ws := pinfo_words _ _ _ _ _ _ _) in *.
  assert (Hlen : Z.of_nat (length ws) = 4 + 2 * gi_npages x) by (by apply length_pinfo).
  assert (Hlr : root (set_root (<[root_ix_num ROOT_IX_generation_pinfo_list := p]> (root s)) (with_cell p c m s)) !!
    root_ix_num ROOT_IX_generation_pinfo_list = Some p).
  { apply list_lookup_insert_eq. by eapply lookup_lt_Some. }
  assert (Hp' : p = first_generation_allocation_ptr s - 4 * Z.of_nat (length ws)) by (by rewrite Hlen).
  change MAX_GENERATION_SIZE with 41 in *.
  eapply (HQ _ p l ws); [exact Hl|done| | |exact Hlr| |].
  - apply logged_db; [exact Hdb|change N with 16384; lia|exact Hp'|lia|exact Hm| |].
    + apply pinfo_shaped; [change MAX_GENERATION_SIZE with 41; lia|done|done|done].
    + intros i z Hr Hz. destruct (pinfo_ref (gi_npages x) nfrom ltac:(change MAX_GENERATION_SIZE with 41; lia) Hf l (to_gn (gc s)) nref _ _ Hn Hd i z Hr Hz) as (_ & -> & Hne).
      by destruct Hlok.
  - exists p. split; [exact Hlr|]. right. left. apply lookup_insert_is_Some'. by left.
  - eapply logged_fresh; [exact Hdb| |exact Hp']. rewrite Hlen. change N with 16384. lia.
  - split; [done| |done|].
    + cbn [set_root with_cell set_mem set_fg_can set_fg_ptr first_generation_start first_generation_end first_generation_allocation_ptr].
      by rewrite Hp.
    + intros i Hi. by apply list_lookup_insert_ne.
Qed.
