(* ===== verification/Sample.v ===== *)
(** A small database, at which the theorems on collections are applied: a generation
    with one page of three cells, one of which nothing refers to, two free pages, and
    a cell in the first generation. *)

From S2P Require Import Prelude Generations Machine Celltypes Shades Root Bitops Cells Pages Genlist Smartptr Io Copy Forward Copying Drain Roots Chain Retire Commit Mature Log.

#[local] Abbreviation N := NUMBER_OF_WORDS_PER_PAGE.
#[local] Abbreviation INV := INVALID_GENERATION_NUMBER.

#[local] Instance sample_params : Params := {|
  first_generation_size := 160; max_gc_effort := 20971520; start_gc_limit := 2097152;
  allow_additional_generationality := false; number_of_pages_to_mark := 71;
  mature_generation_limit := 112; disk_skip_nbytes := 1048576
|}.

(** * The image *)

(** The words [f] of an image of [n] words. *)
Definition image (n : nat) (f : Z → Z) : gmap Z Z := list_to_map ((λ i : nat, (4 * Z.of_nat i, f (Z.of_nat i))) <$> seq 0 n).

Lemma sample_image_lookup n f i : 0 ≤ i < Z.of_nat n → image n f !! (4 * i) = Some (f i).
Proof.
  intros Hi. unfold image. apply elem_of_list_to_map_1.
  - rewrite <- list_fmap_compose. apply NoDup_fmap_2; [|apply NoDup_seq]. intros a b. simpl. lia.
  - apply list_elem_of_fmap. exists (Z.to_nat i). split; [|apply elem_of_seq; lia]. by rewrite Z2Nat.id by lia.
Qed.

(** Three pages and the first generation, before cells are allocated. *)
Definition blank (i : Z) : Z :=
  if bool_decide (3 * N ≤ i) then FIRST_GENERATION_DEADBEEF
  else if bool_decide (i mod N = 0) then PAGE_MAGIC_COOKIE else PAGE_DEADBEEF.
Definition blank_image : gmap Z Z := image (Z.to_nat (3 * N + 40)) blank.

Definition cell_A : list Z := [header CELL_list 0; 5; 20].
Definition cell_B : list Z := [header CELL_list 0; 9; NULL_WORD].
Definition cell_C : list Z := [header CELL_list 0; 1; 8].
Definition cell_D : list Z := [header CELL_list 0; 7; NULL_WORD].

Definition sample_words : gmap Z Z := list_to_map (zip
  [4; 8; 12; 16; 20; 24; 28; 32; 36; 40; 196756; 196760; 196764] ([11] ++ cell_A ++ cell_B ++ cell_C ++ cell_D)).
Definition sample_mem : gmap Z Z := sample_words ∪ blank_image.

Lemma sample_mem_blank a : sample_words !! a = None → a mod 4 = 0 → 0 ≤ a < 4 * (3 * N + 40) → sample_mem !! a = Some (blank (a / 4)).
Proof.
  intros Hn Ha Hr. unfold sample_mem. rewrite lookup_union_r by done. unfold blank_image.
  replace a with (4 * (a / 4)) at 1 by zdiv. apply sample_image_lookup. change N with 16384 in *. zdiv.
Qed.

Lemma sample_mem_mapped a : a mod 4 = 0 → 0 ≤ a < 4 * (3 * N + 40) → is_Some (sample_mem !! a).
Proof.
  intros Ha Hr. destruct (sample_words !! a) as [w|] eqn:E; [|rewrite sample_mem_blank by done; eauto].
  exists w. unfold sample_mem. by apply lookup_union_Some_l.
Qed.

Lemma sample_words_None a : (a < 4 ∨ 40 < a) → (a < 196756 ∨ 196764 < a) → sample_words !! a = None.
Proof.
  intros H1 H2. unfold sample_words. apply not_elem_of_list_to_map_1. cbn [zip zip_with app cell_A cell_B cell_C cell_D fmap list_fmap fst].
  intros Hin. repeat (apply elem_of_cons in Hin as [->|Hin]; [lia|]). by apply not_elem_of_nil in Hin.
Qed.

(** * The variables *)

Section sample.
Context (st : gc_status).

Definition sample_disk : io_state :=
  IoState [page_filed 0 (replicate 128 0) (created (File 4 0 [] 0 false 0 ∅))] 0 3.

Definition sample_gc : gc_state :=
  GcState [PageInfo 0 true INVALID_PAGE_NUMBER; PageInfo INV false 2; PageInfo INV false INVALID_PAGE_NUMBER] 1 2 false
    [GenerationInfo st [] 1 [0] [0] INV INV INV INV INV; nonexistent_generation; nonexistent_generation; nonexistent_generation]
    3 0 0 INV INV INV 0 0 0 [] {[0 := SmartPtr 0 100 100; 100 := SmartPtr 20 0 0]} false (bool_decide (st = TO_BE_COLLECTED)) sample_disk.

Definition sample_state : state :=
  mkState sample_mem 196768 196608 196756 196756
    (<[root_ix_num ROOT_IX_test2 := 196756]> (<[root_ix_num ROOT_IX_test1 := 8]>
      (<[root_ix_num ROOT_IX_magic_cookie := ROOT_MAGIC_COOKIE]> (replicate 128 0))))
    ((λ x, match root_def x with ROOT_PTR => true | ROOT_WORD _ => false end) <$> root_ixs) NULL_WORD sample_gc.

Definition sample_cells : gmap Z (list Z) := {[8 := cell_A; 20 := cell_B; 32 := cell_C]}.
Definition sample_first : gmap Z (list Z) := {[196756 := cell_D]}.
Definition sample_layout (B O : list Z) : layout :=
  Layout [] [] B O sample_cells sample_first [(100, 20)] [1; 2] (λ _, []) [] {[0 := replicate 128 0]}.

Lemma sample_cells_inv p ws : sample_cells !! p = Some ws → p = 8 ∧ ws = cell_A ∨ p = 20 ∧ ws = cell_B ∨ p = 32 ∧ ws = cell_C.
Proof.
  unfold sample_cells. intros [[<- <-]|[_ [[<- <-]|[_ [<- <-]%lookup_singleton_Some]]%lookup_insert_Some]]%lookup_insert_Some; auto.
Qed.

Lemma sample_first_inv p ws : sample_first !! p = Some ws → p = 196756 ∧ ws = cell_D.
Proof. unfold sample_first. by intros [<- <-]%lookup_singleton_Some. Qed.

Lemma sample_word a w : sample_words !! a = Some w → mem sample_state !! a = Some w.
Proof. intros Ha. cbn [mem sample_state]. unfold sample_mem. by apply lookup_union_Some_l. Qed.

Lemma sample_cell_words p ws i x : sample_cells !! p = Some ws → ws !! i = Some x → mem sample_state !! (p + 4 * Z.of_nat i) = Some x.
Proof.
  intros [[-> ->]|[[-> ->]|[-> ->]]]%sample_cells_inv Hi; apply sample_word; destruct i as [|[|[|i]]]; try discriminate Hi; injection Hi as <-; by vm_compute.
Qed.

Lemma sample_first_words p ws i x : sample_first !! p = Some ws → ws !! i = Some x → mem sample_state !! (p + 4 * Z.of_nat i) = Some x.
Proof.
  intros [-> ->]%sample_first_inv Hi; apply sample_word; destruct i as [|[|[|i]]]; try discriminate Hi; injection Hi as <-; by vm_compute.
Qed.

(** The cells are all lists. *)
Lemma list_shaped a b c : a = header CELL_list 0 → well_shaped [a; b; c].
Proof. intros ->. exists CELL_list, [(DECLARE_TAGGED, 1); (DECLARE_TAGGED, 2)]. split; [by vm_compute|]. by intros [|[|j]] i x. Qed.

Lemma sample_refs p ws i x : sample_cells !! p = Some ws → ref_at ws i = true → ws !! i = Some x → x = 8 ∨ x = 20.
Proof.
  intros [[-> ->]|[[-> ->]|[-> ->]]]%sample_cells_inv Hr Hi; destruct i as [|[|[|i]]]; try discriminate Hi; injection Hi as <-; auto; by vm_compute in Hr.
Qed.

Lemma sample_first_refs p ws i x : sample_first !! p = Some ws → ref_at ws i = true → ws !! i = Some x → False.
Proof.
  intros [-> ->]%sample_first_inv Hr Hi; destruct i as [|[|[|i]]]; try discriminate Hi; injection Hi as <-; by vm_compute in Hr.
Qed.

Lemma sample_gen a : 0 ≤ a < 65536 → gen_of sample_state a = Some 0.
Proof.
  intros Ha. unfold gen_of. assert (E : PTR_TO_PAGE_NUMBER a = 0).
  { apply in_page_iff. unfold in_page. change PAGE_SIZE with 65536. lia. }
  by rewrite E.
Qed.

Lemma sample_gen_cell p ws : sample_cells !! p = Some ws → gen_of sample_state p = Some 0.
Proof. intros [[-> _]|[[-> _]|[-> _]]]%sample_cells_inv; apply sample_gen; lia. Qed.

Lemma sample_wf : wf sample_state.
Proof.
  split; cbn [first_generation_end first_generation_start first_generation_allocation_ptr mem sample_state].
  - lia.
  - rewrite word_modulus_val. lia.
  - lia.
  - reflexivity.
  - reflexivity.
  - reflexivity.
  - intros a Ha Ha4. rewrite sample_mem_blank.
    + unfold blank. rewrite bool_decide_eq_true_2; [done|]. change N with 16384. zdiv.
    + apply sample_words_None; lia.
    + done.
    + change N with 16384. lia.
  - intros a Ha Ha4. apply sample_mem_mapped; [done|]. change N with 16384. lia.
Qed.

Lemma sample_bounds : bounds_ok sample_state.
Proof.
  split.
  - apply sample_wf.
  - change (65536 * 3 ≤ 196608). lia.
  - cbn [first_generation_start sample_state]. by vm_compute.
  - reflexivity.
  - change (112 ≤ 196768 - 196608). lia.
  - change (2 * ((196768 - 196608) / 4) / 16382 + 1 < 41). reflexivity.
Qed.

Lemma sample_page_mapped pn i : 0 ≤ pn < 3 → 0 ≤ i < N → is_Some (mem sample_state !! (PAGE_SIZE * pn + 4 * i)).
Proof. intros Hp Hi. change PAGE_SIZE with 65536. change N with 16384 in *. apply sample_mem_mapped; [zdiv|]. change N with 16384. lia. Qed.

Lemma sample_page_blank pn i : 1 ≤ pn < 3 → 0 ≤ i < N →
  mem sample_state !! (PAGE_SIZE * pn + 4 * i) = Some (if bool_decide (i = 0) then PAGE_MAGIC_COOKIE else PAGE_DEADBEEF).
Proof.
  intros Hp Hi. cbn [mem sample_state]. change PAGE_SIZE with 65536. change N with 16384 in *. rewrite sample_mem_blank.
  - unfold blank. change N with 16384. replace ((65536 * pn + 4 * i) / 4) with (i + pn * 16384) by zdiv.
    rewrite bool_decide_eq_false_2 by lia. rewrite Z_mod_plus_full, Z.mod_small by lia. done.
  - apply sample_words_None; lia.
  - zdiv.
  - change N with 16384. lia.
Qed.

Lemma sample_pool : pool sample_state [1; 2].
Proof.
  split.
  - split; [done|]. split; [done|]. eexists. split; [reflexivity|]. split; [done|]. split; [done|]. split; [done|].
    eexists. split; [reflexivity|]. done.
  - by apply (bool_decide_unpack _).
  - intros pn Hpn. assert (Hp : 1 ≤ pn < 3) by (apply elem_of_cons in Hpn as [-> | ->%list_elem_of_singleton]; lia). split.
    + pose proof (sample_page_blank pn 0 Hp ltac:(change N with 16384; lia)) as H. by rewrite Z.mul_0_r, Z.add_0_r in H.
    + intros i Hi. rewrite sample_page_blank by (done || lia). by rewrite bool_decide_eq_false_2 by lia.
  - done.
Qed.

#[local] Abbreviation s := sample_state.
Context (B O : list Z) (EBO : B ++ O = [0]) (Hst : st = TO_BE_COLLECTED ∧ B = [0] ∨ st = NORMAL ∧ B = []).
#[local] Abbreviation D := (sample_layout B O).

Lemma sample_entry g x : zlookup (generation_info (gc s)) g = Some x → g ≠ 0 → x = nonexistent_generation.
Proof.
  intros [Hr Hx]%zlookup_Some Hg. assert (Hn : g = 1 ∨ g = 2 ∨ g = 3) by (simpl in Hr; lia).
  destruct Hn as [-> |[-> | ->]]; by injection Hx as <-.
Qed.

Lemma sample_entry_0 x : zlookup (generation_info (gc s)) 0 = Some x → x = GenerationInfo st [] 1 [0] [0] INV INV INV INV INV.
Proof. by intros [= <-]. Qed.

Lemma sample_gens_ok : gens_ok (gc s).
Proof.
  split; change (gc s) with sample_gc; cbn [sample_gc generation_info next_gn number_of_nonexistent_generations length]; [lia|lia|].
  by destruct Hst as [[E _]|[E _]]; rewrite E.
Qed.

Lemma sample_table : table_ok (gc s) [] [] B O.
Proof.
  split; cbn [app]; rewrite ?EBO.
  - apply sample_gens_ok.
  - apply NoDup_singleton.
  - intros E%list_elem_of_singleton. discriminate E.
  - split; [|done]. eexists. split; [reflexivity|done].
  - done.
  - intros g x Hg Hx. assert (Hg0 : g = 0) by (apply list_elem_of_singleton; rewrite <- EBO; apply elem_of_app; by right).
    subst g. apply sample_entry_0 in Hx as ->. destruct Hst as [[E EB]|[E EB]]; [|done].
    rewrite EB in EBO. injection EBO as ->. by apply not_elem_of_nil in Hg.
  - by intros g x ?%not_elem_of_nil.
  - intros g x Hg Hx. destruct Hst as [[E EB]|[E EB]]; rewrite EB in Hg; [|by apply not_elem_of_nil in Hg].
    apply list_elem_of_singleton in Hg as ->. by apply sample_entry_0 in Hx as ->.
Qed.

Lemma sample_page_entry pn pg : zlookup (page_info (gc s)) pn = Some pg →
  pn = 0 ∧ pg = PageInfo 0 true INVALID_PAGE_NUMBER ∨ (pn = 1 ∨ pn = 2) ∧ pg_is_allocated pg = false.
Proof.
  intros [Hr Hx]%zlookup_Some. assert (Hn : pn = 0 ∨ pn = 1 ∨ pn = 2) by (simpl in Hr; lia).
  destruct Hn as [-> |[-> | ->]]; injection Hx as <-; auto.
Qed.

Lemma sample_paging : paging s [0] [1; 2].
Proof.
  split.
  - apply sample_pool.
  - intros g x ->%list_elem_of_singleton ->%sample_entry_0. split; [done|]. split; [done|]. apply NoDup_singleton.
  - intros g x pn ->%list_elem_of_singleton ->%sample_entry_0 ->%list_elem_of_singleton. split.
    + split.
      * change (PAGE_SIZE * 0) with 0. cbn [mem s]. rewrite sample_mem_blank; [done|apply sample_words_None; lia|done|]. change N with 16384. lia.
      * intros i Hi. by apply sample_page_mapped.
      * eexists. split; [reflexivity|done].
    + eexists. split; [reflexivity|]. done.
  - intros pn pg [[-> ->]|[_ E]]%sample_page_entry Hal; [|congruence]. split; [by left|].
    intros x ->%sample_entry_0. by left.
  - intros pn pg [[-> ->]|[Hn E]]%sample_page_entry Hal; [done|]. rewrite !elem_of_cons. tauto.
Qed.

Lemma sample_cell p ws : sample_cells !! p = Some ws → old_cell s [0] sample_cells p ws.
Proof.
  intros Hp. assert (Hb : 8 ≤ p ∧ p mod 4 = 0 ∧ length ws = 3%nat ∧ p + 12 ≤ 44) by by apply sample_cells_inv in Hp as [[-> ->]|[[-> ->]|[-> ->]]].
  destruct Hb as (H1 & H2 & H3 & H4). assert (E : PTR_TO_PAGE_NUMBER p = 0) by (apply in_page_iff; unfold in_page; change PAGE_SIZE with 65536; lia).
  split; rewrite ?H3.
  - exact H2.
  - change N with 16384. lia.
  - intros i x. by apply sample_cell_words.
  - apply sample_cells_inv in Hp as [[_ ->]|[[_ ->]|[_ ->]]]; by apply list_shaped.
  - rewrite E. change PAGE_SIZE with 65536. lia.
  - exists 0. split; [by eapply sample_gen_cell|by left].
  - intros i x Hr Hx. destruct (sample_refs _ _ _ _ Hp Hr Hx) as [-> | ->]; (split; [eexists; by vm_compute|]; exists 0, 0;
      split; [by eapply sample_gen_cell|]; split; [apply sample_gen; lia|apply older_refl; by left]).
Qed.

Lemma sample_words_of (L : list Z) : 0 ∈ L → total_words (cells_of s sample_cells L) = 9.
Proof.
  intros HL. assert (E : cells_of s sample_cells L = sample_cells).
  { unfold cells_of. apply map_filter_id. intros p ws Hp. apply in_gens_iff. exists 0. split; [by eapply sample_gen_cell|done]. }
  rewrite E. by vm_compute.
Qed.

Lemma sample_cells_ok : cells_ok s [0] sample_cells.
Proof.
  split.
  - exact sample_cell.
  - intros p1 ws1 p2 ws2 [[-> ->]|[[-> ->]|[-> ->]]]%sample_cells_inv [[-> ->]|[[-> ->]|[-> ->]]]%sample_cells_inv; unfold disj; simpl; lia.
  - intros g x ->%list_elem_of_singleton ->%sample_entry_0. rewrite sample_words_of by by left. split; [|change (9 ≤ 1 * 16382); lia].
    change (9 ≤ (196768 - 196608) / 4). by apply (bool_decide_unpack _).
Qed.

Lemma sample_young : young_ok s [] sample_cells sample_first.
Proof.
  split.
  - intros p ws Hp. pose proof Hp as [-> ->]%sample_first_inv. split.
    + done.
    + change N with 16384. simpl. lia.
    + intros i x. by apply sample_first_words.
    + by apply list_shaped.
    + change (196756 ≤ 196756 ∧ 196756 + 4 * 3 ≤ 196768). lia.
    + intros i x Hr Hx. destruct (sample_first_refs _ _ _ _ Hp Hr Hx).
  - intros p1 ws1 p2 ws2 [-> ->]%sample_first_inv [-> ->]%sample_first_inv. done.
  - assert (E : total_words sample_first = 3) by by vm_compute. rewrite E. change (4 * 3 ≤ 196768 - 196756). lia.
Qed.

Lemma sample_rems : rems_ok s [] B sample_cells.
Proof.
  intros g x Hg Hx. assert (Hg0 : g = 0) by (apply list_elem_of_singleton; rewrite <- EBO; apply elem_of_app; by left).
  subst g. apply sample_entry_0 in Hx as ->. split; [apply NoDup_nil_2|]. intros a. split; [by intros ?%not_elem_of_nil|].
  intros (p & ws & i & y & _ & _ & _ & _ & Hin & _). apply in_gens_iff in Hin. destruct Hin as (g & _ & Hg'). by apply not_elem_of_nil in Hg'.
Qed.

Lemma sample_from : concat ((λ _ : Z, [] : list Z) <$> B ++ O) = [].
Proof. by rewrite EBO. Qed.

Lemma sample_retired : retired_ok (gc s) [] [] B O (λ _, []) [].
Proof.
  split; cbn [app]; rewrite ?sample_from.
  - intros g x Hg Hx. rewrite EBO in Hg. apply list_elem_of_singleton in Hg as ->. by apply sample_entry_0 in Hx as ->.
  - done.
  - cbn [app]. rewrite app_nil_r, EBO. apply NoDup_singleton.
  - by intros g ?%not_elem_of_nil.
  - by intros g x ?%not_elem_of_nil.
  - by intros g x ?%not_elem_of_nil.
Qed.

Lemma sample_filed : ly_filed D = [0].
Proof.
  assert (E : ly_filed D = (B ++ O) ++ concat ((λ _ : Z, [] : list Z) <$> B ++ O) ++ []) by done.
  by rewrite E, EBO.
Qed.

Lemma sample_filing : filing (gc s) (ly_filed D) (ly_disk D).
Proof.
  rewrite sample_filed. split.
  - apply NoDup_singleton.
  - intros d ->%list_elem_of_singleton. eexists. apply lookup_singleton_eq.
  - by intros g x ->%list_elem_of_singleton ->%sample_entry_0.
Qed.

Lemma sample_disk_ok : disk (io (gc s)) (ly_disk D) [].
Proof.
  set (f := File 4 0 [] 0 false 0 ∅).
  assert (H0 : disk (IoState (created <$> [f]) 0 4) ∅ []).
  { apply (created_disk [f]); [|done]. split; [done|]. intros i g [Hr Hf]%zlookup_Some. assert (i = 0) as -> by (simpl in Hr; lia). injection Hf as <-. done. }
  destruct (disk_write _ _ _ (created f) (replicate 128 0) H0) as [_ H1]; [done|done|done|].
  assert (Ed : MAKE_DISK_PAGE_NUMBER (file_cursor (IoState (created <$> [f]) 0 4)) (fl_cursor (created f)) = 0) by by vm_compute.
  rewrite Ed in H1. exact H1.
Qed.

Lemma sample_roots : roots_ok s (cell_in D) [(100, 20)].
Proof.
  split; [done|done| |].
  - split; [by split_and!|eapply bool_decide_unpack; by vm_compute|]. by intros sp v [= -> ->]%list_elem_of_singleton.
  - intros [a|i|sp] x Hpp Hx; [destruct Hpp|..]; cbn [loc_get root_loc root gc sample_state] in Hx, Hpp.
    + apply zlookup_Some in Hx as [_ Hx]. apply list_lookup_insert_Some in Hx as [(_ & <- & _)|[_ Hx]].
      { right. right. exists cell_D. by vm_compute. }
      apply list_lookup_insert_Some in Hx as [(_ & <- & _)|[_ Hx]].
      * right. left. exists cell_A. by vm_compute.
      * apply list_lookup_insert_Some in Hx as [(Ei & _)|[_ Hx]].
        -- exfalso. change (root_ix_num ROOT_IX_magic_cookie) with 0%nat in Ei. rewrite <- Ei in Hpp. destruct Hpp as [[_ Hpp]|[-> _]]; discriminate.
        -- left. by apply lookup_replicate in Hx as [-> _].
    + apply list_elem_of_singleton in Hpp as ->. injection Hx as <-. right. left. exists cell_B. by vm_compute.
Qed.

Lemma sample_db : db s D [] [].
Proof.
  assert (EG : ly_gens D = [0]) by exact EBO. assert (EL : ly_live D = [0]) by exact EBO. split.
  - apply sample_bounds.
  - exact sample_table.
  - rewrite EG. exact sample_paging.
  - rewrite EL. exact sample_cells_ok.
  - exact sample_young.
  - exact sample_rems.
  - exact sample_retired.
  - exact sample_filing.
  - exact sample_disk_ok.
  - exact sample_roots.
Qed.

Lemma sample_pinfo : pinfo_ok s D [].
Proof. exists NULL_WORD. split; [reflexivity|by left]. Qed.

Lemma sample_room : room_for s [1; 2] 1 9.
Proof.
  split; change (N - 2) with 16382.
  - simpl. lia.
  - change (2 * 9 + (1 + 1) * 16382 ≤ 3 * 16382). lia.
  - change (4 * (4 * 9 + 6 * 1 * 16382) ≤ (196756 - 196608) * 16382). lia.
  - split; [by apply (bool_decide_unpack _)|]. change (16 * (4 - 3 + 1) ≤ 7 * INV). by apply (bool_decide_unpack _).
Qed.
End sample.
