(* ===== verification/MajorStep.v ===== *)
(** A whole step of the mature collection (shades.c, [major_gc_step]): generations are
    chosen and copied, the new generation is described in the first generation, the
    collected ones are released. *)

From S2P Require Import Prelude Generations Machine Celltypes Shades Root Bitops Cells Pages Genlist Smartptr Io Copy Forward Copying Drain Roots Copied Chain Retire Commit Mature Choose Remember Relocate Step Release Log Sample.

#[local] Abbreviation N := NUMBER_OF_WORDS_PER_PAGE.
#[local] Abbreviation INV := INVALID_GENERATION_NUMBER.
#[local] Abbreviation pinfo_ix := (root_ix_num ROOT_IX_generation_pinfo_list).

(** * Lists of generations are not longer than the table *)

Lemma length_below (l : list Z) n : NoDup l → (∀ g, g ∈ l → 0 ≤ g < Z.of_nat n) → (length l ≤ n)%nat.
Proof.
  intros Hnd Hl. assert (Hs : l ⊆+ (Z.of_nat <$> seq 0 n)).
  { apply NoDup_submseteq; [done|]. intros g Hg%Hl. apply list_elem_of_fmap. exists (Z.to_nat g).
    split; [lia|]. apply elem_of_seq. lia. }
  apply submseteq_length in Hs. by rewrite length_fmap, length_seq in Hs.
Qed.

Section lengths.
Context `{HP : Params} (s : state) (D : layout) (L : list Z) (r : list Z) (Hdb : db s D L r).
#[local] Abbreviation t := (generation_info (gc s)).

Lemma length_gens : (length (ly_gens D) ≤ length t)%nat.
Proof.
  apply length_below; [apply (db_table _ _ _ _ Hdb)|]. intros g Hg. destruct (gen_entry _ _ _ _ Hdb g Hg) as [x Hx].
  by apply zlookup_Some in Hx as [? _].
Qed.

Lemma length_from g : g ∈ ly_gens D → (length (ly_from D g) ≤ length t)%nat.
Proof.
  intros Hg. assert (Hin : ∀ i, i ∈ ly_from D g → i ∈ concat (ly_from D <$> ly_gens D)).
  { intros i Hi. apply list_elem_of_In, in_concat. exists (ly_from D g). split; apply list_elem_of_In; [|done]. by apply list_elem_of_fmap_2. }
  pose proof (rd_nodup _ _ _ _ _ _ _ (db_retired _ _ _ _ Hdb)) as Hnd. apply NoDup_app in Hnd as (_ & _ & (Hnd & _)%NoDup_app).
  apply length_below.
  - fold (ly_gens D) in Hnd. destruct (list_elem_of_split _ _ Hg) as (l1 & l2 & E). rewrite E, fmap_app, concat_app in Hnd.
    apply NoDup_app in Hnd as (_ & _ & Hnd). cbn [fmap list_fmap concat] in Hnd. by apply NoDup_app in Hnd as (? & _).
  - intros i Hi. destruct (decide (i ∈ ly_being D)) as [Hb|Hb].
    + destruct (gen_entry _ _ _ _ Hdb i) as [x Hx]; [unfold ly_gens; rewrite !elem_of_app; auto|]. by apply zlookup_Some in Hx as [? _].
    + destruct (retired_entry _ _ _ _ Hdb i) as (x & Hx & _); [apply elem_of_app; left; by apply Hin|done|]. by apply zlookup_Some in Hx as [? _].
Qed.
End lengths.

(** * The words that await collection *)

Definition await_words (s : state) (D : layout) : Z := total_words (cells_of s (ly_cells D) (ly_await D)).

(** * Looking ahead *)

Lemma db_prev `{HP : Params} s D L r v : db s D L r → db (set_gc (set_prev_to_gn v (gc s)) s) D L r.
Proof.
  intros Hdb. set (s' := set_gc (set_prev_to_gn v (gc s)) s). destruct Hdb as [[W1 W2 W3 W4 W5 W6] [T1 T2 T3 T4 T5 T6 T7 T8] Hp Hk Hy Hr [R1 R2 R3 R4 R5 R6] [F1 F2 F3] Hd Ho].
  assert (Hg : ∀ x, is_Some (ly_cells D !! x) → gen_of s' x = gen_of s x) by (intros x _; reflexivity).
  split.
  - split; try done. by eapply wf_same.
  - split; try done. by eapply gens_ok_same; try done; intros i x Hx; exists x.
  - destruct Hp as [P1 P2 P3 P4 P5]. split; try done.
    + by eapply pool_frame.
    + intros g x pn Hg' Hx Hpn. destruct (P3 g x pn Hg' Hx Hpn) as ([U1 U2 U3] & H). split; [by split|exact H].
  - eapply cells_ok_same; [exact Hg|exact Hk|done..|]. intros g x _ Hx. by exists x.
  - eapply young_ok_same; [exact Hg|exact Hy|done..].
  - eapply rems_ok_same; [exact Hg|exact Hk|exact Hr|]. intros g x _ Hx. by exists x.
  - by split.
  - by split.
  - exact Hd.
  - by eapply roots_ok_same.
Qed.

Lemma wp_peek_ahead `{HP : Params} s D L r Y gn (Q : Z → state → Prop) : db s D L r → ly_new D = Y ++ [gn] → ly_being D = [] →
  to_gn (gc s) = gn → (∀ n v, prev_ok (set_prev_to_gn v (gc s)) (Y ++ [gn]) (ly_await D) → 0 ≤ n → (n = 0 ↔ ly_await D = []) →
    Q n (set_gc (set_prev_to_gn v (gc s)) s)) → wp peek_ahead Q s.
Proof.
  intros Hdb EY EC <- HQ. pose proof (db_table _ _ _ _ Hdb) as [_ Tnd Tv Tc _ Tn _ Ta]. rewrite EY, EC, <- app_assoc in Tc. cbn [app] in Tc.
  destruct (chain_at _ _ _ _ _ _ Tc) as (x & Hx & _ & Eo). unfold peek_ahead.
  apply wp_bind, wp_gcs, wp_bind. eapply wp_get_gen; [exact Hx|]. rewrite Eo. apply wp_bind.
  assert (Hsub : ∀ g, g ∈ ly_await D ++ ly_old D → g ≠ INV ∧ ∃ y, zlookup (generation_info (gc s)) g = Some y).
  { intros g Hg. split; [intros ->; apply Tv; rewrite EC, !elem_of_app; rewrite elem_of_app in Hg; tauto|].
    eapply chain_lookup; [exact Tc|]. apply elem_of_app. right. by right. }
  assert (Hfin : ∀ b : bool, b = bool_decide (ly_await D = []) → wp (if b then set_gcs (set_prev_to_gn INV);; mret 0
    else set_gcs (set_prev_to_gn (to_gn (gc s)));; x ← get_gen (to_gn (gc s)); mret (gi_npages x + 1)) Q s).
  { intros b ->. case_bool_decide as E.
    - apply wp_bind, wp_set_gcs, wp_ret, HQ; [by left|done|done].
    - apply wp_bind, wp_set_gcs, wp_bind. eapply wp_get_gen; [exact Hx|]. apply wp_ret.
      destruct (pk_entry _ _ _ (db_paging _ _ _ _ Hdb) (to_gn (gc s)) x) as (En & _); [unfold ly_gens; rewrite EY, !elem_of_app; left; right; by left|done|].
      apply HQ; [right|lia|split; [lia|done]]. rewrite last_gn_app. split; [done|]. split; [by destruct Y|done]. }
  destruct (ly_await D) as [|b B'] eqn:EB.
  - destruct (ly_old D) as [|o O'] eqn:EO; cbn [app hd_gn].
    + rewrite bool_decide_eq_true_2 by done. apply wp_ret. exact (Hfin true eq_refl).
    + destruct (Hsub o ltac:(by left)) as (Hne & y & Hy). rewrite bool_decide_eq_false_2 by done. apply wp_bind. eapply wp_get_gen; [exact Hy|].
      destruct (Tn o y) as [-> _]; [apply elem_of_app; right; by left|done|]. apply wp_ret. exact (Hfin true eq_refl).
  - cbn [app hd_gn]. destruct (Hsub b ltac:(by left)) as (Hne & y & Hy). rewrite bool_decide_eq_false_2 by done. apply wp_bind. eapply wp_get_gen; [exact Hy|].
    rewrite (Ta b y) by (done || by left). apply wp_ret. exact (Hfin false eq_refl).
Qed.

(** * What a step does *)

(** What refers to the cells of the generations [B1] from outside of them: the root
    words that hold pointers, the smart pointers, and the pointers in the cells of the
    other generations. *)
Definition referred (s : state) (D : layout) (B1 : list Z) (x : Z) : Prop :=
  root_value s (ly_smart D).*1 x ∨ ∃ p ws i, ly_cells D !! p = Some ws ∧ ¬ in_gens s B1 p ∧ ref_at ws i = true ∧ ws !! i = Some x.

(** The cells of the generations [B1] were copied to the generation [gn]: [φ] leads
    from cells to their copies, exactly the cells of [B1] that are reached from outside,
    and everything that refers to them was updated. *)
Record relocation (s s' : state) (D D' : layout) (B1 : list Z) (gn : Z) (φ : gmap Z Z) : Prop := {
  rn_kept p ws : ly_cells D !! p = Some ws → ¬ in_gens s B1 p →
    φ !! p = None ∧ ly_cells D' !! p = Some (forward_words φ ws) ∧ gen_of s' p = gen_of s p;
  rn_copied p q : φ !! p = Some q → ∃ ws, ly_cells D !! p = Some ws ∧ in_gens s B1 p ∧
    ly_cells D' !! q = Some (forward_words φ ws) ∧ gen_of s' q = Some gn;
  rn_reach p : is_Some (φ !! p) ↔ reaches (cells_of s (ly_cells D) B1) (referred s D B1) p;
  rn_only q ws' : ly_cells D' !! q = Some ws' → ∃ p ws, ly_cells D !! p = Some ws ∧ ws' = forward_words φ ws ∧
    (p = q ∧ ¬ in_gens s B1 p ∨ φ !! p = Some q);
  rn_inj p1 p2 q : φ !! p1 = Some q → φ !! p2 = Some q → p1 = p2;
  rn_closed p ws i x : ly_cells D !! p = Some ws → ¬ in_gens s B1 p ∨ is_Some (φ !! p) →
    ref_at ws i = true → ws !! i = Some x → in_gens s B1 x → is_Some (φ !! x);
  rn_rooted pp x : root_loc s (ly_smart D).*1 pp → loc_get pp s = Some x → is_Some (ly_cells D !! x) → in_gens s B1 x → is_Some (φ !! x);
  rn_roots pp x : root_loc s (ly_smart D).*1 pp → pp ≠ RootWord (Z.of_nat pinfo_ix) → loc_get pp s = Some x →
    loc_get pp s' = Some (forward φ x);
  rn_smart : (ly_smart D').*1 = (ly_smart D).*1
}.

Lemma relocation_same s s1 s2 D D1 D2 B1 gn φ : relocation s s1 D D1 B1 gn φ → ly_cells D2 = ly_cells D1 → ly_smart D2 = ly_smart D1 →
  (∀ a, is_Some (ly_cells D1 !! a) → gen_of s2 a = gen_of s1 a) →
  (∀ i, i ≠ pinfo_ix → root s2 !! i = root s1 !! i) → smart_ptrs (gc s2) = smart_ptrs (gc s1) → relocation s s2 D D2 B1 gn φ.
Proof.
  intros [R1 R2 R9 R3 R4 R7 R8 R5 R6] Ec Es Hg Hr Hsp. split; rewrite ?Ec, ?Es; [..|exact R6].
  - intros p ws Hp Hn. destruct (R1 p ws Hp Hn) as (H1 & H2 & H3). rewrite Hg by by eexists. by split_and!.
  - intros p q Hq. destruct (R2 p q Hq) as (ws & H1 & H2 & H3 & H4). exists ws. rewrite Hg by by eexists. by split_and!.
  - exact R9.
  - exact R3.
  - exact R4.
  - exact R7.
  - exact R8.
  - intros pp x Hpp Hne Hx. pose proof (R5 pp x Hpp Hne Hx) as H. destruct pp as [a|i|sp]; [done| |]; simpl in *.
    + apply zlookup_Some in H as [H0 H]. assert (Hi : Z.to_nat i ≠ pinfo_ix) by (intros E; apply Hne; f_equal; rewrite <- E; lia).
      rewrite <- (Hr _ Hi) in H. apply zlookup_Some. split; [|done]. apply lookup_lt_Some in H. lia.
    + by rewrite Hsp.
Qed.

(** ** After the copying *)

Section copied.
Context `{HP : Params} (s : state) (D : layout) (L : list Z) (r : list Z) (Hdb : db s D L r).
#[local] Abbreviation CS := (ly_cells D).
#[local] Abbreviation Y := (ly_new D).
#[local] Abbreviation O := (ly_old D).
#[local] Abbreviation t := (generation_info (gc s)).
Context (EC : ly_being D = []) (B1 B2 : list Z) (EB : ly_await D = B1 ++ B2) (HB1 : B1 ≠ []) (Hlim : within_limits t B1).
Context (kd : nat) (gn y : Z) (t1 : list generation_info_t) (Hch : chosen (gc s) Y B1 B2 O kd gn t1).
#[local] Abbreviation s1 := (step_state s kd gn y t1).
#[local] Abbreviation F := (step_cells s D B1).
#[local] Abbreviation V := (Y ++ B2 ++ O).
#[local] Abbreviation K := (cells_of s CS V).
Context (HL : ∀ g, g ∈ L → g ∉ ly_await D).
Context (s4 : state) (φ : gmap Z Z) (pages free' : list Z) (A' : gmap Z (list Z)) (l' : list (Z * Z)).
Context (Hfree : ly_free D = pages ++ free') (El : l'.*1 = (ly_smart D).*1).
Context (Hc1 : collectable s1 F gn (ly_free D)).
Context (Hcp : copied (forgets B1 s1) s4 F gn (step_loc s D B1 kd gn y t1) φ pages free' (ly_disk D) A' r).
#[local] Abbreviation D4 := (stepped s D B1 B2 gn φ l' free' A').

Lemma step_collectable' : collectable (forgets B1 s1) F gn (ly_free D).
Proof. apply (br_collectable _ _ (but_rems_forgets B1 s1) _ _ _ Hc1). Qed.
#[local] Abbreviation Hc := step_collectable'.
#[local] Abbreviation Hst := (step_starting s D L r Hdb EC B1 B2 EB kd gn y t1 Hch).

Lemma step_new_kept : gn ∉ V.
Proof.
  destruct (step_new_fresh s D EC B1 B2 EB kd gn t1 Hch) as (Hn & _). intros Hg. by apply Hn, (step_kept_gens s D L r Hdb EC B1 B2 EB).
Qed.

Lemma step_kept_iff p ws : K !! p = Some ws ↔ CS !! p = Some ws ∧ ¬ in_gens s B1 p.
Proof.
  rewrite cells_of_Some. split.
  - intros (Hp & g & Hg & Hin). split; [exact Hp|]. rewrite in_gens_iff. intros (g' & Hg' & Hin'). rewrite Hg in Hg'. injection Hg' as <-.
    apply (step_kept_gens s D L r Hdb EC B1 B2 EB) in Hin as [_ Hn]. by apply Hn.
  - intros [Hp Hn]. split; [exact Hp|]. destruct (cell_gen _ _ _ _ Hdb p ws Hp) as (g & Hg & Hin). exists g. split; [exact Hg|].
    destruct (step_split D EC B1 B2 EB g (live_gens _ _ Hin)) as [Hb|[_ Hv]]; [|done]. exfalso. apply Hn, in_gens_iff. by exists g.
Qed.

(** What the step takes as the origins of the copying is what refers to the collected
    cells from outside of them. *)
Lemma step_referred x : is_Some (F !! x) → value_of (step_loc s D B1 kd gn y t1) (forgets B1 s1) x ↔ referred s D B1 x.
Proof.
  intros HFx. destruct (sg_root _ _ _ Hst) as (E1 & E2 & E3).
  assert (Hget : ∀ pp, (∀ a, pp ≠ Image a) → loc_get pp (forgets B1 s1) = loc_get pp s).
  { intros [a|i|sp] Hpp; [by destruct (Hpp a)|by simpl; rewrite E1|by simpl; rewrite E3]. }
  assert (Hmem : mem (forgets B1 s1) = mem s) by by destruct (step_start_vars s B1 kd gn y t1) as (t' & -> & _).
  split.
  - intros (pp & [Hpp|(a & -> & Ha)] & Hx).
    + left. exists pp. split; [exact Hpp|]. rewrite <- Hget; [done|]. by destruct pp.
    + right. cbn [loc_get] in Hx. rewrite Hmem in Hx. apply (rem_addr s D L r Hdb EC B1 B2 EB) in Ha as (p & ws & i & x' & Hp & Hn & Hr & Hw & -> & Hm & _).
      rewrite Hm in Hx. injection Hx as ->. exists p, ws, i. split; [exact Hp|]. split; [|by split].
      intros (g & Hg & Hin)%in_gens_iff. assert (Hs : F !! p = Some ws) by (apply step_from_Some; split; [exact Hp|by exists g]). congruence.
  - intros [(pp & Hpp & Hx)|(p & ws & i & Hp & Hn & Hr & Hx)].
    + exists pp. split; [left; exact Hpp|]. rewrite Hget; [done|]. by destruct pp.
    + pose proof (proj2 (step_kept_iff p ws) (conj Hp Hn)) as HK.
      destruct (step_kept_ref s D L r Hdb EC B1 B2 EB kd gn y t1 p ws i x HK Hr Hx) as [[w Hw]|[_ Hrl]].
      * apply (step_kept_not_from s D L r Hdb EC B1 B2 EB) in Hw as [_ Hw]. destruct HFx. congruence.
      * eexists. split; [exact Hrl|]. cbn [loc_get]. rewrite Hmem. by apply (oc_words _ _ _ _ _ (ck_cell _ _ _ (db_cells _ _ _ _ Hdb) _ _ Hp)).
Qed.

Lemma step_relocation : relocation s s4 D D4 B1 gn φ.
Proof.
  assert (Hcopy : ∀ p q, φ !! p = Some q → is_Some (F !! p)) by (intros p q; eapply copy_from; exact Hcp).
  split.
  - intros p ws Hp Hn. assert (HK : K !! p = Some ws) by by apply step_kept_iff. split; [|split].
    + apply eq_None_not_Some. intros [q [w Hw]%Hcopy]. apply (step_kept_not_from s D L r Hdb EC B1 B2 EB) in HK as [_ E]. congruence.
    + eapply moved_kept; [exact Hdb|exact Hc|exact Hcp|exact Hfree|exact HK].
    + destruct (cell_gen _ _ _ _ Hdb p ws Hp) as (g & Hg & _). rewrite Hg.
      eapply gen_of_still; [exact Hdb|exact Hst|exact Hcp|exact Hfree|exact Hg].
  - intros p q Hq. destruct (Hcopy p q Hq) as [ws Hw]. exists ws. pose proof Hw as (Hp & g & Hg & Hin)%step_from_Some.
    split; [exact Hp|]. split; [apply in_gens_iff; by exists g|]. split.
    + eapply moved_copy; [exact Hdb|exact Hc|exact Hcp|exact Hfree|exact Hq|exact Hw].
    + eapply gen_of_copy; [exact Hc|exact Hcp|exact Hq].
  - intros p. rewrite (cp_reach _ _ _ _ _ _ _ _ _ _ _ Hcp). split; apply reaches_impl; intros x HFx; by apply step_referred.
  - intros q ws' Hq. eapply moved_Some in Hq; [|exact Hdb|exact Hc|exact Hcp|exact Hfree].
    destruct Hq as [(ws & [Hp Hn]%step_kept_iff & ->)|(p & ws & Hq & Hw & ->)].
    + exists q, ws. split; [exact Hp|]. split; [done|]. left. by split.
    + exists p, ws. split; [by apply step_from_Some in Hw as [? _]|]. split; [done|]. by right.
  - intros p1 p2 q. eapply copy_inj; [exact Hc|exact Hcp].
  - intros p ws i x Hp Hcase Hr Hx Hin. assert (HFx : is_Some (K !! x) → False).
    { intros [w HKx]. rewrite step_kept_iff in HKx. exact (proj2 HKx Hin). }
    destruct Hcase as [Hn|[q Hq]].
    + pose proof (proj2 (step_kept_iff p ws) (conj Hp Hn)) as HK.
      destruct (kept_ref s D L r Hdb B2 _ Hst F gn _ s4 φ pages free' A' Hcp (step_kept_ref s D L r Hdb EC B1 B2 EB kd gn y t1) p ws i x HK Hr Hx) as [H|[_ H]]; [destruct (HFx H)|exact H].
    + destruct (Hcopy p q Hq) as [w Hw]. pose proof Hw as [Hp' _]%step_from_Some. rewrite Hp in Hp'. injection Hp' as <-.
      destruct (copy_ref s D r B2 _ F gn _ s4 φ pages free' A' Hcp (step_from_ref s D L r Hdb EC B1 B2 EB) p q ws i x Hq Hw Hr Hx) as [H|[_ H]];
        [destruct (HFx H)|exact H].
  - intros pp x Hpp Hx. assert (Hx1 : loc_get pp (forgets B1 s1) = Some x).
    { destruct (sg_root _ _ _ Hst) as (E1 & E2 & E3). destruct pp as [a|i|sp]; [done| |]; simpl in *; [by rewrite E1|by rewrite E3]. }
    intros [w Hw] Hin. eapply loc_copied; [exact Hcp|left; exact Hpp|exact Hx1|].
    exists w. apply step_from_Some. split; [exact Hw|]. rewrite in_gens_iff in Hin. exact Hin.
  - intros pp x Hpp _ Hx. apply (cp_loc _ _ _ _ _ _ _ _ _ _ _ Hcp).
    + left. destruct (sg_root _ _ _ Hst) as (E1 & E2 & E3). destruct pp as [a|i|sp]; [done| |done].
      exact Hpp.
    + destruct (sg_root _ _ _ Hst) as (E1 & E2 & E3). destruct pp as [a|i|sp]; [done| |]; simpl in *; [by rewrite E1|by rewrite E3].
  - exact El.
Qed.

(** The size of what awaits collection, and the room. *)
Lemma step_await_words : await_words s4 D4 = await_words s D - total_words F.
Proof.
  unfold await_words. cbn [stepped ly_cells ly_await].
  rewrite (moved_others_words s D L r Hdb B2 _ Hst F gn Hc step_new_kept _ s4 φ pages free' A' Hcp Hfree B2) by (intros g Hg; rewrite !elem_of_app; auto).
  rewrite EB, cells_of_app; [unfold step_cells; lia|]. intros g Hg1 Hg2.
  destruct (step_kept_gens s D L r Hdb EC B1 B2 EB g) as [_ Hn]; [rewrite !elem_of_app; auto|]. done.
Qed.

Lemma step_few_pages : Z.of_nat (length pages) * (N - 2) ≤ 2 * total_words F + (N - 2) ∧ Z.of_nat (length pages) < MAX_GENERATION_SIZE.
Proof. exact (moved_few_pages s D L r Hdb B2 _ Hst F gn Hc _ s4 φ pages free' A' Hcp). Qed.

Lemma step_room k w : room_for s (ly_free D) k w → 1 ≤ k → space_for s4 free' (k - 1) (w - total_words F) ∧
  4 * (4 * w + 6 * k * (N - 2)) ≤ (first_generation_allocation_ptr s4 - first_generation_end s4) * (N - 2).
Proof.
  intros [Hsp Hf]%room_space Hk. destruct (moved_first s D r B2 _ Hst F gn _ s4 φ pages free' A' Hcp) as (_ & -> & ->).
  split; [|exact Hf]. destruct (step_start_vars s B1 kd gn y t1) as (t' & E & Et).
  apply (moved_room s D L r Hdb B2 _ Hst F gn Hc _ s4 φ pages free' A' Hcp Hfree kd);
    [apply (ch_doubled _ _ _ _ _ _ _ _ Hch)| |by rewrite E|exact Hsp|exact Hk].
  rewrite E. cbn [gc set_gc generation_info set_generation_info]. rewrite Et. apply (ch_length _ _ _ _ _ _ _ _ Hch).
Qed.

Lemma step_undisturbed : undisturbed s s4.
Proof.
  eapply (moved_undisturbed s D L r Hdb B2 _ Hst F gn Hc _ s4 φ pages free' A' Hcp Hfree (step_loc_dec s D B1 kd gn y t1)).
  - destruct (step_start_vars s B1 kd gn y t1) as (t' & -> & _). reflexivity.
  - intros i Hi Ha [Hr|(a & E & _)]; [|done].
    destruct Hr as [[_ H1]|[H1 _]]; [rewrite Nat2Z.id in H1; exact (Hi H1)|apply Ha; unfold accu in H1; lia].
Qed.

(** The list of descriptions is the same. *)
Lemma step_pinfo_root l : pinfo_ok s D L → root s !! pinfo_ix = Some l → root s4 !! pinfo_ix = Some l ∧ pinfo_ok s4 D4 L.
Proof.
  intros (l0 & Hl0 & Hcell) Hl. rewrite Hl in Hl0. injection Hl0 as <-.
  assert (Hn : φ !! l = None).
  { apply eq_None_not_Some. intros [q Hq]. assert (HF : is_Some (F !! l)) by (eapply copy_from; [exact Hcp|exact Hq]).
    destruct HF as [w (Hw & g & Hg & Hin)%step_from_Some]. destruct (cell_bounds _ _ _ _ Hdb l w Hw) as (B & B').
    destruct Hcell as [->|[[w' Hy]|[_ HgL]]].
    - change NULL_WORD with 0 in B. lia.
    - pose proof (yc_place _ _ _ _ _ _ (yk_cell _ _ _ _ (db_young _ _ _ _ Hdb) l w' Hy)). pose proof (wf_ap _ (bd_wf _ (db_bounds _ _ _ _ Hdb))).
      pose proof (oc_length _ _ _ _ _ (ck_cell _ _ _ (db_cells _ _ _ _ Hdb) l w Hw)). lia.
    - rewrite in_gens_iff in HgL. destruct HgL as (g' & Hg' & HgL). rewrite Hg in Hg'. injection Hg' as <-. apply (HL g HgL).
      rewrite EB. apply elem_of_app. by left. }
  assert (Hl4 : root s4 !! pinfo_ix = Some l).
  { destruct (moved_root_word s D r B2 _ Hst F gn _ s4 φ pages free' A' Hcp (step_loc_dec s D B1 kd gn y t1) (Z.of_nat pinfo_ix) l) as [E|(q & Hq & _)].
    - apply zlookup_Some. rewrite Nat2Z.id. split; [apply lookup_lt_Some in Hl; lia|done].
    - apply zlookup_Some in E as [_ E]. by rewrite Nat2Z.id in E.
    - congruence. }
  split; [exact Hl4|]. exists l. split; [exact Hl4|]. destruct Hcell as [->|[Hy|[[w Hw] HgL]]]; [by left|right; by left|right; right].
  assert (HK : K !! l = Some w).
  { apply step_kept_iff. split; [exact Hw|]. rewrite !in_gens_iff in *. destruct HgL as (g & Hg & HgL). intros (g' & Hg' & Hin).
    rewrite Hg in Hg'. injection Hg' as <-. apply (HL g HgL). rewrite EB. apply elem_of_app. by left. }
  split.
  - eexists. eapply moved_kept; [exact Hdb|exact Hc|exact Hcp|exact Hfree|exact HK].
  - rewrite in_gens_iff in *. destruct HgL as (g & Hg & HgL). exists g. split; [|exact HgL].
    eapply gen_of_still; [exact Hdb|exact Hst|exact Hcp|exact Hfree|exact Hg].
Qed.

(** The new generation's entry. *)
Lemma step_new_generation : to_gn (gc s4) = gn ∧ ∃ x, zlookup (generation_info (gc s4)) gn = Some x ∧
  gi_npages x = Z.of_nat (length pages) ∧ gi_page x = pages ∧ length (gi_disk_page x) = length pages.
Proof.
  destruct (cp_vars _ _ _ _ _ _ _ _ _ _ _ Hcp) as [_ _ (_ & _ & _ & _ & -> & _) _]. split; [apply (cl_to_gn _ _ _ _ Hc)|].
  destruct (cp_gen _ _ _ _ _ _ _ _ _ _ _ Hcp) as (x & ds & _ & Hx & Hds). eexists. split; [exact Hx|].
  split; [done|]. split; [done|]. apply (st_length _ _ _ _ _ _ Hds).
Qed.
End copied.

(** ** The whole step *)

Lemma log_undisturbed s s' w l p : log_frame s s' w → root s !! pinfo_ix = Some l → root s' !! pinfo_ix = Some p → undisturbed s s'.
Proof.
  intros [E1 (E2 & E3 & _) [E4 _] E5] Hl Hp. split; [split; [split; [done|..]|]|by rewrite E1].
  - split; [done|]. eapply length_but_one; [exact E5|by eapply lookup_lt_Some|exact Hp].
  - apply accu_same. intros i Hi. apply E5. by destruct Hi as [-> | ->].
  - intros i _ _ Hi. by apply E5.
Qed.

(** The database after a step that collected [B1], where [B2] remain, for a step that
    copied [w1] words; [n] is the step's result. *)
Record step_result `{Params} (s s' : state) (D D' : layout) (L r B1 B2 : list Z) (gn : Z) (φ : gmap Z Z) (n : Z) : Prop := {
  sr_await : ly_await D = B1 ++ B2 ∧ B1 ≠ [] ∧ within_limits (generation_info (gc s)) B1;
  sr_db : db s' D' L r;
  sr_lists : ly_new D' = ly_new D ++ [gn] ∧ ly_being D' = [] ∧ ly_await D' = B2 ∧ ly_old D' = ly_old D;
  sr_new : gn ∉ ly_gens D;
  sr_relocation : relocation s s' D D' B1 gn φ;
  sr_logged : ∃ p l x nref, root s !! pinfo_ix = Some l ∧ root s' !! pinfo_ix = Some p ∧ ly_first D !! p = None ∧
    zlookup (generation_info (gc s')) gn = Some x ∧
    ly_first D' = <[p := pinfo_words (gi_npages x) (Z.of_nat (length B1)) l gn nref (gi_page x) (gi_disk_page x)]> (ly_first D);
  sr_pinfo : pinfo_ok s' D' L;
  sr_prev : prev_ok (gc s') (ly_new D') B2;
  sr_words : await_words s' D' = await_words s D - total_words (cells_of s (ly_cells D) B1);
  sr_room k w : room_for s (ly_free D) k w → 1 ≤ k → room_for s' (ly_free D') (k - 1) (w - total_words (cells_of s (ly_cells D) B1));
  sr_finished : 0 ≤ n ∧ (n = 0 ↔ B2 = []);
  sr_same : undisturbed s s'
}.

(** ** Enough room and fuel for a step *)
Record step_ready `{Params} (fuel : nat) (s : state) (D : layout) (L r : list Z) : Prop := {
  sy_db : db s D L r;
  sy_being : ly_being D = [];
  sy_await : ly_await D ≠ [];
  sy_young g : g ∈ L → g ∉ ly_await D;
  sy_prev : prev_ok (gc s) (ly_new D) (ly_await D);
  sy_pinfo : pinfo_ok s D L;
  sy_room : ∃ k w, room_for s (ly_free D) k w ∧ 1 ≤ k ∧ await_words s D ≤ w;
  sy_table : (2 * length (generation_info (gc s)) < fuel)%nat;
  sy_words : await_words s D < Z.of_nat fuel;
  sy_smart : (length (ly_smart D) < fuel)%nat
}.

Lemma pinfo_same s s' D D' L : pinfo_ok s D L → root s' !! pinfo_ix = root s !! pinfo_ix → ly_first D' = ly_first D →
  ly_cells D' = ly_cells D → (∀ a, is_Some (ly_cells D !! a) → gen_of s' a = gen_of s a) → pinfo_ok s' D' L.
Proof.
  intros (l & Hl & Hcell) Er Ef Ec Hg. exists l. rewrite Er, Ef, Ec. split; [done|].
  destruct Hcell as [|[|[H1 H2]]]; [by left|right; by left|right; right]. split; [done|]. by apply (in_gens_same s s' (ly_cells D) Hg).
Qed.

Section step.
Context `{HP : Params} (fuel : nat) (s : state) (D : layout) (L r : list Z) (Hr : step_ready fuel s D L r).
#[local] Abbreviation Y := (ly_new D).
#[local] Abbreviation O := (ly_old D).
#[local] Abbreviation Hdb := (sy_db _ _ _ _ _ Hr).
#[local] Abbreviation EC := (sy_being _ _ _ _ _ Hr).

Lemma wp_step_end B1 B2 kd gn y t1 s4 φ pages free' A' l' nref (Q : Z → state → Prop) :
  ly_await D = B1 ++ B2 → B1 ≠ [] → within_limits (generation_info (gc s)) B1 →
  chosen (gc s) Y B1 B2 O kd gn t1 → ly_free D = pages ++ free' → l'.*1 = (ly_smart D).*1 →
  collectable (step_state s kd gn y t1) (step_cells s D B1) gn (ly_free D) →
  copied (forgets B1 (step_state s kd gn y t1)) s4 (step_cells s D B1) gn (step_loc s D B1 kd gn y t1) φ pages free' (ly_disk D) A' r →
  db s4 (stepped s D B1 B2 gn φ l' free' A') L r →
  (∀ n s' D', step_result s s' D D' L r B1 B2 gn φ n → Q n s') →
  wp (log_to_generation_pinfo_list (Z.of_nat (length B1)) nref;;
      for_from_generations (Z.of_nat (length B1)) (hd_gn INV B1) (λ gn,
        x ← get_gen gn; mark_generation_collected_once fuel gn;; mret (gi_older x));;
      peek_ahead) Q s4.
Proof.
  intros EB HB1 Hlim Hch Hfree El Hc Hcp Hdb4 HQ. set (D4 := stepped _ _ _ _ _ _ _ _ _) in *.
  pose proof (sy_young _ _ _ _ _ Hr) as HL. destruct (sy_pinfo _ _ _ _ _ Hr) as (l & Hl & _).
  destruct (step_pinfo_root s D L r Hdb EC B1 B2 EB kd gn y t1 Hch HL s4 φ pages free' A' l' Hfree Hc Hcp l (sy_pinfo _ _ _ _ _ Hr) Hl) as [Hl4 Hpi4].
  pose proof (step_relocation s D L r Hdb EC B1 B2 EB kd gn y t1 Hch s4 φ pages free' A' l' Hfree El Hc Hcp) as Hrel.
  pose proof (step_await_words s D L r Hdb EC B1 B2 EB kd gn y t1 Hch s4 φ pages free' A' l' Hfree Hc Hcp) as Haw.
  pose proof (step_room s D L r Hdb EC B1 B2 EB kd gn y t1 Hch s4 φ pages free' A' Hfree Hc Hcp) as Hroom.
  destruct (step_few_pages s D L r Hdb EC B1 B2 EB kd gn y t1 Hch s4 φ pages free' A' Hc Hcp) as [Hfew Hmax].
  destruct (step_new_generation s D r B1 kd gn y t1 s4 φ pages free' A' Hc Hcp) as (Hto & x & Hx & Hnp & Hpg & Hdp).
  destruct (sy_room _ _ _ _ _ Hr) as (k & w & Hrm & Hk & Hw). destruct (Hroom k w Hrm Hk) as [_ Hrf].
  assert (HW : total_words (step_cells s D B1) ≤ w).
  { pose proof (step_words_le s D B1 B2 EB) as Hle. unfold await_words in Hw. lia. }
  assert (Hlen : (length (generation_info (gc s4)) < fuel)%nat).
  { destruct (cp_vars _ _ _ _ _ _ _ _ _ _ _ Hcp) as [_ _ _ (Kl & _)]. rewrite Kl.
    destruct (step_start_vars s B1 kd gn y t1) as (t' & -> & Et). cbn [gc set_gc generation_info set_generation_info]. rewrite Et.
    rewrite (ch_length _ _ _ _ _ _ _ _ Hch). pose proof (ch_doubled _ _ _ _ _ _ _ _ Hch) as Hd. pose proof (sy_table _ _ _ _ _ Hr).
    unfold doubled in Hd. lia. }
  apply wp_bind. eapply (wp_log s4 D4 L r x (Z.of_nat (length B1)) nref); [exact Hdb4|exact Hpi4|by rewrite Hto|by rewrite Hpg|by rewrite Hpg|lia| | |].
  { destruct Hlim as [Hlim _]. lia. }
  { rewrite Hnp. change (N - 2) with 16382 in *. lia. }
  intros s5 p l5 ws Hl5 -> Hdb5 Hpi5 Hp5 Hnew Hlf. rewrite Hl4 in Hl5. injection Hl5 as <-. rewrite Hto in *.
  set (ws := pinfo_words _ _ _ _ _ _ _) in *. set (D5 := with_young _ _) in *.
  apply wp_bind. eapply (wp_release_all fuel s5 D5 L r); [exact Hdb5| |].
  { intros g Hg. pose proof (lf_gc _ _ _ Hlf) as E. pose proof (length_from s5 D5 L r Hdb5 g) as Hle. rewrite E in Hle.
    eapply Nat.le_lt_trans; [apply Hle; unfold ly_gens; rewrite !elem_of_app; auto|exact Hlen]. }
  intros s6 D6 Hdb6 [(S1 & S2 & S3) (S4 & S5 & S6) (S7 & S8) S9] Eb Hf Hg.
  destruct Hf as [F1 F2 F3 F4 (F5 & F6 & _ & F7 & F8)]. pose proof (steady_undisturbed s5 s6 F1 F2) as Hun.
  eapply (wp_peek_ahead s6 D6 L r Y gn); [exact Hdb6|exact S1|exact Eb|rewrite F6, (lf_gc _ _ _ Hlf); exact Hto|].
  intros n v Hprev Hn0 Hn. set (s7 := set_gc _ _). apply (HQ n s7 D6).
  assert (Hgen : ∀ a, is_Some (ly_cells D4 !! a) → gen_of s7 a = gen_of s4 a).
  { intros a Ha. transitivity (gen_of s5 a); [exact (rk_gen _ _ _ Hg a Ha)|]. unfold gen_of. by rewrite (lf_gc _ _ _ Hlf). }
  destruct (lf_first _ _ _ Hlf) as (L1 & L2 & L3). destruct F1 as [[G1 G2] _ _ _ _ _ G3].
  split.
  - done.
  - apply db_prev. exact Hdb6.
  - split_and!; [exact S1|exact Eb|exact S2|exact S3].
  - apply (step_new_fresh s D EC B1 B2 EB kd gn t1 Hch).
  - eapply relocation_same; [exact Hrel|exact S4|exact S6|exact Hgen| |].
    + intros i Hi. rewrite <- (lf_root _ _ _ Hlf i Hi). exact (f_equal (λ l, l !! i) F2).
    + transitivity (smart_ptrs (gc s5)); [exact F3|]. by rewrite (lf_gc _ _ _ Hlf).
  - pose proof (lf_gc _ _ _ Hlf) as E5. destruct (rk_entry _ _ _ Hg gn x) as (x6 & Hx6 & Hrx).
    { apply elem_of_app. left. apply elem_of_app. right. by left. }
    { by rewrite E5. }
    exists p, l, x6, nref. split; [exact Hl|]. split; [exact (eq_trans (f_equal (λ l, l !! pinfo_ix) F2) Hp5)|]. split; [exact Hnew|].
    split; [exact Hx6|]. destruct (relinked_fields _ _ Hrx) as (_ & _ & -> & -> & -> & _). exact S5.
  - eapply pinfo_same; [exact Hpi5|exact (f_equal (λ l, l !! pinfo_ix) F2)|exact S5|exact S4|exact (rk_gen _ _ _ Hg)].
  - rewrite S1. rewrite S2 in Hprev. exact Hprev.
  - unfold await_words at 1. rewrite S4, S2. rewrite (cells_of_same s4 s7 _ Hgen). exact Haw.
  - intros k' w' Hrm' Hk'. destruct (Hroom k' w' Hrm' Hk') as [[M1 M2 [M4 M5]] M3].
    pose proof (lf_gc _ _ _ Hlf) as E5. rewrite E5 in *. cbn [with_young stepped ly_free D5 D4] in S9.
    change (N - 2) with 16382 in *. split; cbn [s7 gc set_gc io set_prev_to_gn first_generation_allocation_ptr first_generation_end
      generation_info number_of_nonexistent_generations]; rewrite ?F4, ?F5, ?F7, ?F8, ?G2, ?L2, ?L3, ?Hnp; change (N - 2) with 16382; fold (step_cells s D B1).
    + lia.
    + lia.
    + lia.
    + split; lia.
  - split; [exact Hn0|]. rewrite S2 in Hn. exact Hn.
  - transitivity s4; [eapply step_undisturbed; [exact Hdb|exact EC|exact EB|exact Hch|exact Hfree|exact Hc|exact Hcp]|].
    transitivity s5; [eapply log_undisturbed; [exact Hlf|exact Hl4|exact Hp5]|]. transitivity s6; [exact Hun|]. by split.
Qed.

Lemma wp_major_gc_step (Q : Z → state → Prop) :
  (∀ n s' D' B1 B2 gn φ, step_result s s' D D' L r B1 B2 gn φ n → Q n s') → wp (major_gc_step fuel) Q s.
Proof.
  intros HQ. pose proof (db_table _ _ _ _ Hdb) as Htab. rewrite EC in Htab. pose proof (length_gens s D L r Hdb) as Hlen.
  unfold ly_gens in Hlen. rewrite !length_app in Hlen. pose proof (sy_table _ _ _ _ _ Hr) as Hfuel.
  destruct (sy_room _ _ _ _ _ Hr) as (k & w & Hrm & Hk & Hw). destruct (rm_gens _ _ _ _ Hrm) as [Hg1 Hg2].
  eapply (wp_start_step s Y (ly_await D) O Htab fuel _ Q); [apply Hr|apply Hr|exact Hfuel|lia|lia|exact Hg1|lia|].
  intros kd gn t1 B1 B2 EB HB1 Hlim Hch. set (y := hd_gn INV (Y ++ gn :: ly_await D ++ O)) in *. change (set_gc (step_gc kd gn y t1 (gc s)) s) with (step_state s kd gn y t1).
  pose proof (step_words_le s D B1 B2 EB) as Hle. fold (await_words s D) in Hle.
  assert (Hc : collectable (step_state s kd gn y t1) (step_cells s D B1) gn (ly_free D)).
  { eapply (step_collectable s D L r Hdb EC B1 B2 EB HB1 Hlim); [exact Hch|]. pose proof (rm_pages _ _ _ _ Hrm) as Hp.
    change (N - 2) with 16382 in *. lia. }
  eapply (wp_step_copy s D L r Hdb EC B1 B2 EB HB1 Hlim kd gn y t1 Hch fuel k w
    (λ nref, log_to_generation_pinfo_list (Z.of_nat (length B1)) nref;;
      for_from_generations (Z.of_nat (length B1)) (hd_gn INV B1) (λ gn,
        x ← get_gen gn; mark_generation_collected_once fuel gn;; mret (gi_older x));;
      peek_ahead) Q Hrm Hk); [lia|pose proof (sy_words _ _ _ _ _ Hr); lia|apply Hr|].
  intros nref s4 φ pages free' A' Hfree Hcp.
  destruct (step_db s D L r Hdb EC B1 B2 EB kd gn y t1 Hch eq_refl (sy_young _ _ _ _ _ Hr) s4 φ pages free' A' Hfree Hc Hcp) as (l' & El & Hdb4).
  eapply wp_step_end; [exact EB|exact HB1|exact Hlim|exact Hch|exact Hfree|exact El|exact Hc|exact Hcp|exact Hdb4|].
  intros n s' D' HR. by eapply HQ.
Qed.
End step.

(** * The theorem *)

(** C3. A step of the mature collection, [major_gc_step], with room and fuel for it,
    returns; the database is consistent afterwards, some of the generations that
    awaited collection were copied to a new generation and released; exactly the cells
    of them were copied that are reached from a root word, a smart pointer or a cell of
    another generation, through cells of them; everything that refers to a copied cell
    refers to the copy, the new generation is described by a new cell of the first generation, and the
    result tells whether the collection is finished. *)
Theorem major_gc_step_correct `{HP : Params} fuel s D L r : step_ready fuel s D L r →
  ∃ n s' D' B1 B2 gn φ, major_gc_step fuel s = Ok n s' ∧ step_result s s' D D' L r B1 B2 gn φ n.
Proof.
  intros Hr. assert (Hw : wp (major_gc_step fuel) (λ n s', ∃ D' B1 B2 gn φ, step_result s s' D D' L r B1 B2 gn φ n) s).
  { eapply wp_major_gc_step; [exact Hr|]. intros n s' D' B1 B2 gn φ HR. by exists D', B1, B2, gn, φ. }
  apply wp_inv in Hw as (n & s' & E & D' & B1 & B2 & gn & φ & HR). by exists n, s', D', B1, B2, gn, φ.
Qed.

#[local] Existing Instance sample_params.

Lemma major_gc_step_correct_witness : ∃ n s' D' B1 B2 gn φ, major_gc_step 100 (sample_state TO_BE_COLLECTED) = Ok n s' ∧
  step_result (sample_state TO_BE_COLLECTED) s' (sample_layout [0] []) D' [] [] B1 B2 gn φ n.
Proof.
  apply (major_gc_step_correct 100). assert (E : await_words (sample_state TO_BE_COLLECTED) (sample_layout [0] []) = 9).
  { apply (sample_words_of TO_BE_COLLECTED). by left. }
  split.
  - apply sample_db; [done|by left].
  - done.
  - done.
  - by intros g ?%not_elem_of_nil.
  - by left.
  - apply sample_pinfo.
  - exists 1, 9. rewrite E. split; [apply sample_room|done].
  - apply Nat.ltb_lt. reflexivity.
  - by rewrite E.
  - apply Nat.ltb_lt. reflexivity.
Defined.
