(* ===== verification/Collect.v ===== *)
(** The collection of the first generation (shades.c, [collect_first_generation]):
    its theorem. *)

From S2P Require Import Prelude Generations Machine Celltypes Shades Root Bitops Cells Pages Genlist Smartptr Io Copy Forward Copying Drain Roots Copied.

(** * The preparation *)

(** The variables when copying starts; [k] is the number of new entries of the
    table of generations. *)
Record prepared (k : nat) (gn : Z) (g g1 : gc_state) : Prop := {
  pr_old : ∃ x, zlookup (generation_info (grown k g)) gn = Some x ∧ nonexistent x;
  pr_new : zlookup (generation_info g1) gn = Some (with_older (youngest_gn g) new_generation);
  pr_length : length (generation_info g1) = (length (generation_info g) + k)%nat;
  pr_other i x : zlookup (generation_info (grown k g)) i = Some x → i ≠ gn →
    zlookup (generation_info g1) i =
      Some (if bool_decide (i = youngest_gn g ∧ i ≠ INVALID_GENERATION_NUMBER) then with_younger gn x else x);
  pr_page_info : page_info g1 = page_info g;
  pr_free : list_of_free_pages g1 = list_of_free_pages g;
  pr_number : number_of_free_pages g1 = number_of_free_pages g;
  pr_recovering : is_recovering g1 = is_recovering g;
  pr_nonexistent : number_of_nonexistent_generations g1 = number_of_nonexistent_generations g + Z.of_nat k - 1;
  pr_next_gn : next_gn g1 = gn;
  pr_youngest_gn : youngest_gn g1 = gn;
  pr_to_gn : to_gn g1 = gn;
  pr_to_pn : to_pn g1 = INVALID_PAGE_NUMBER;
  pr_to_ptr : to_ptr g1 = 0;
  pr_to_end : to_end g1 = 0;
  pr_copy_stack : copy_stack g1 = [];
  pr_smart_ptrs : smart_ptrs g1 = smart_ptrs g;
  pr_io : io g1 = io g;
  pr_rest : prev_to_gn g1 = prev_to_gn g ∧ generations_collected_twice g1 = generations_collected_twice g ∧
    major_gc_was_started g1 = major_gc_was_started g ∧ is_collecting g1 = is_collecting g;
  pr_doubled : doubled k g
}.

Lemma wp_prepare {A} fuel s (m : M A) (Q : A → state → Prop) :
  gens_ok (gc s) → (2 * length (generation_info (gc s)) < fuel)%nat →
  youngest_gn (gc s) = INVALID_GENERATION_NUMBER ∨
    (∃ y, zlookup (generation_info (gc s)) (youngest_gn (gc s)) = Some y ∧ ¬ nonexistent y) →
  (∀ k gn g1, prepared k gn (gc s) g1 → wp m Q (set_gc g1 s)) →
  wp (start_gc;; allocate_generation fuel;; insert_generation_after INVALID_GENERATION_NUMBER;; CLEAR_COPY_STACK;; m) Q s.
Proof.
  intros Hok Hfuel Hy HQ. apply wp_bind. unfold start_gc. apply wp_bind, wp_set_gcs, wp_bind, wp_set_gcs, wp_set_gcs, wp_bind.
  set (s1 := set_gc _ _). assert (Hok1 : gens_ok (gc s1)) by (destruct Hok; by split).
  apply wp_allocate_generation; [exact Hok1|exact Hfuel|]. intros k gn x Hd Hx Hnx.
  apply wp_bind. unfold insert_generation_after. apply wp_bind, wp_gcs.
  assert (Hgn : 0 ≤ gn < Z.of_nat (length (generation_info (grown k (gc s1))))) by by apply zlookup_Some in Hx as [? _].
  set (gens := generation_info (grown k (gc s1))) in *.
  apply wp_bind. eapply wp_put_gen; [by apply zlookup_insert|].
  rewrite bool_decide_eq_true_2 by done. apply wp_bind, wp_gcs, wp_bind.
  eapply wp_put_gen; [apply zlookup_insert; simpl; rewrite !length_zinsert; exact Hgn|].
  apply wp_bind, wp_gcs. simpl. change (generation_info (grown k (gc s1))) with gens.
  set (t0 := zinsert gn _ _).
  assert (Ht0 : zlookup t0 gn = Some (with_older (youngest_gn (gc s)) new_generation)).
  { apply zlookup_insert. by rewrite !length_zinsert. }
  assert (Hl0 : length t0 = (length (generation_info (gc s)) + k)%nat).
  { subst t0. rewrite !length_zinsert. subst gens. simpl. by rewrite length_app, length_replicate. }
  assert (Hne : ∀ i z, zlookup gens i = Some z → i ≠ gn → zlookup t0 i = Some z).
  { intros i z Hi Hine. subst t0. by rewrite !zlookup_insert_ne by (done || lia). }
  case_bool_decide as Hyg.
  - destruct Hy as [?|(y & Hy & Hyn)]; [done|].
    assert (Hyge : zlookup gens (youngest_gn (gc s)) = Some y).
    { apply zlookup_Some in Hy as [Hr Hy]. apply zlookup_Some. subst gens. simpl. rewrite length_app. split; [lia|].
      by apply lookup_app_l_Some. }
    assert (Hygn : youngest_gn (gc s) ≠ gn).
    { intros E. rewrite E, Hx in Hyge. injection Hyge as ->. done. }
    apply wp_bind. eapply wp_put_gen; [by apply Hne|]. apply wp_set_gcs, wp_bind, wp_set_gcs.
    apply (HQ k gn). split; try reflexivity; [eauto| | | |done|exact Hd].
    + simpl. rewrite zlookup_insert_ne; [exact Ht0| |done]. apply zlookup_Some in Hyge as [? _]. lia.
    + simpl. rewrite length_zinsert. exact Hl0.
    + intros i z Hi Hine. simpl. case_bool_decide as Eiy.
      * destruct Eiy as [Eiy _]. rewrite Eiy in *. unfold gens in Hyge. simpl in Hi, Hyge. rewrite Hyge in Hi. injection Hi as ->. apply zlookup_insert.
        apply zlookup_Some in Hyge as [Hr _]. rewrite Hl0. rewrite length_app, length_replicate in Hr. lia.
      * rewrite zlookup_insert_ne; [by apply Hne| |intros <-; by apply Eiy]. apply zlookup_Some in Hyge as [? _]. lia.
  - apply wp_bind, wp_ret. apply wp_set_gcs, wp_bind, wp_set_gcs.
    apply (HQ k gn). split; try reflexivity; [eauto|exact Ht0|exact Hl0| |done|exact Hd].
    intros i z Hi Hine. rewrite bool_decide_eq_false_2; [by apply Hne|]. rewrite Hyg. tauto.
Qed.

(** * What the collection requires and what it does *)

(** [F] are the cells of the first generation that may be reached, [l] the smart
    pointers and [free] the free pages. *)
Record young_ready (s : state) (F : gmap Z (list Z)) (l : list (Z * Z)) (free : list Z) : Prop := {
  yr_bounds : PAGE_SIZE * Z.of_nat (length (page_info (gc s))) ≤ first_generation_end s ∧
    first_generation_end s ≤ first_generation_allocation_ptr s ∧ 0 ≤ first_generation_end s ∧
    first_generation_start s ≤ FIRST_GENERATION_DEADBEEF;
  yr_recovering : is_recovering (gc s) = false;
  yr_pool : pool s free;
  yr_gens : gens_ok (gc s);
  yr_youngest : youngest_gn (gc s) = INVALID_GENERATION_NUMBER ∨
    (∃ y, zlookup (generation_info (gc s)) (youngest_gn (gc s)) = Some y ∧ ¬ nonexistent y);
  yr_from p ws : F !! p = Some ws → from_cell s F p ws ∧ first_generation_allocation_ptr s ≤ p;
  yr_sep p1 ws1 p2 ws2 : F !! p1 = Some ws1 → F !! p2 = Some ws2 → p1 ≠ p2 → disj (p1, ws1) (p2, ws2);
  yr_words : total_words F ≤ (first_generation_start s - first_generation_end s) / 4;
  yr_pages : 2 * total_words F ≤ Z.of_nat (length free) * (NUMBER_OF_WORDS_PER_PAGE - 2);
  yr_roots : roots_ok s (target s F) l
}.

(** [s'] is [s] after the cells reachable from the roots were copied, where
    [forward φ] leads from the old cells to their copies in [pages]. *)
Record collected (s s' : state) (F : gmap Z (list Z)) (l : list (Z * Z)) (φ : gmap Z Z) (pages : list Z) : Prop := {
  cd_reach p : is_Some (φ !! p) ↔ reaches F (value_of (root_loc s l.*1) s) p;
  cd_copy p q ws i x : φ !! p = Some q → F !! p = Some ws → forward_words φ ws !! i = Some x →
    mem s' !! (q + 4 * Z.of_nat i) = Some x;
  cd_place p q ws : φ !! p = Some q → F !! p = Some ws → ∃ pn u, pn ∈ pages ∧
    mem s' !! (PAGE_SIZE * pn + 4) = Some u ∧ 2 ≤ u ≤ NUMBER_OF_WORDS_PER_PAGE ∧ q mod 4 = 0 ∧
    PAGE_SIZE * pn + 8 ≤ q ∧ q + 4 * Z.of_nat (length ws) ≤ PAGE_SIZE * pn + 4 * u;
  cd_sep p1 q1 ws1 p2 q2 ws2 : φ !! p1 = Some q1 → F !! p1 = Some ws1 → φ !! p2 = Some q2 → F !! p2 = Some ws2 →
    p1 ≠ p2 → disj (q1, ws1) (q2, ws2);
  cd_root pp x : root_loc s l.*1 pp → loc_get pp s = Some x → loc_get pp s' = Some (forward φ x);
  cd_other pp x : is_root_loc pp → ¬ root_loc s l.*1 pp → loc_get pp s = Some x → loc_get pp s' = Some x;
  cd_ring : ∃ l', ring (smart_ptrs (gc s')) l' ∧ l'.*1 = l.*1;
  cd_mem a : a < first_generation_end s → (∀ pn, pn ∈ pages → ¬ in_page pn a) → mem s' !! a = mem s !! a;
  cd_remembered g x : zlookup (generation_info (gc s)) g = Some x → gi_status x = TO_BE_COLLECTED →
    ∃ x' added, zlookup (generation_info (gc s')) g = Some x' ∧ gi_status x' = TO_BE_COLLECTED ∧
    concat (gi_rem_set x') = added ++ concat (gi_rem_set x) ∧ NoDup added ∧
    ∀ a, a ∈ added ↔ ∃ p q ws i y, φ !! p = Some q ∧ F !! p = Some ws ∧ ref_at ws i = true ∧ ws !! i = Some y ∧
      a = q + 4 * Z.of_nat i ∧ kept s y g TO_BE_COLLECTED
}.

(** The new generation, its pages on disk, and the pages that are left. *)
Record new_youngest `{Params} (s s' : state) (pages free : list Z) (A A' : gmap Z (list Z)) (r : list Z) : Prop := {
  ny_entry : ∃ x, zlookup (generation_info (gc s')) (youngest_gn (gc s')) = Some x ∧ gi_status x = NORMAL ∧
    gi_npages x = Z.of_nat (length pages) ∧ gi_page x = pages ∧ gi_rem_set x = [] ∧
    gi_younger x = INVALID_GENERATION_NUMBER ∧ gi_older x = youngest_gn (gc s) ∧
    stored (length pages) (mem s') A A' pages (gi_disk_page x);
  ny_disk : disk (io (gc s')) A' r;
  ny_fresh x : zlookup (generation_info (gc s)) (youngest_gn (gc s')) = Some x → nonexistent x;
  ny_pool : pool s' free;
  ny_pages pn : pn ∈ pages → ∃ x, zlookup (page_info (gc s')) pn = Some x ∧ pg_is_allocated x = true ∧
    pg_generation x = youngest_gn (gc s');
  ny_others pn : pn ∉ pages → zlookup (page_info (gc s')) pn = zlookup (page_info (gc s)) pn;
  ny_first : first_generation_start s' = first_generation_start s ∧ first_generation_end s' = first_generation_end s ∧
    first_generation_allocation_ptr s' = first_generation_allocation_ptr s
}.

(** * The preparation changes nothing that is collected *)

Section transfer.
Context (s : state) (k : nat) (gn : Z) (g1 : gc_state) (Hp : prepared k gn (gc s) g1).
Let s1 := set_gc g1 s.

Lemma grown_lookup i x : zlookup (generation_info (gc s)) i = Some x → zlookup (generation_info (grown k (gc s))) i = Some x.
Proof.
  intros [Hr Hi]%zlookup_Some. apply zlookup_Some. simpl. rewrite length_app. split; [lia|]. by apply lookup_app_l_Some.
Qed.

Lemma grown_lookup_inv i x : zlookup (generation_info (grown k (gc s))) i = Some x → ¬ nonexistent x →
  zlookup (generation_info (gc s)) i = Some x.
Proof.
  intros [Hr Hi]%zlookup_Some Hn. simpl in Hi. apply lookup_app_Some in Hi as [Hi|[_ Hi]].
  - apply zlookup_Some. split; [|done]. apply lookup_lt_Some in Hi. lia.
  - apply lookup_replicate in Hi as [-> _]. destruct Hn. done.
Qed.

Lemma prepared_fresh x : zlookup (generation_info (gc s)) gn = Some x → nonexistent x.
Proof. intros Hx%grown_lookup. destruct (pr_old _ _ _ _ Hp) as (y & Hy & Hn). congruence. Qed.

(** The entries of the generations that exist. *)
Lemma prepared_entry g x : zlookup (generation_info (gc s)) g = Some x → ¬ nonexistent x → g ≠ gn ∧
  ∃ y, zlookup (generation_info g1) g = Some y ∧ gi_status y = gi_status x ∧ gi_rem_set y = gi_rem_set x.
Proof.
  intros Hx Hn. assert (Hg : g ≠ gn) by (intros ->; by apply Hn, prepared_fresh). split; [done|].
  rewrite (pr_other _ _ _ _ Hp g x (grown_lookup _ _ Hx) Hg). eexists. split; [done|]. by case_bool_decide.
Qed.

Lemma prepared_status g st : st ≠ NONEXISTENT → status_of s g st → status_of s1 g st.
Proof.
  intros Hst (x & Hx & <-). destruct (prepared_entry g x Hx Hst) as (_ & y & Hy & E & _). by exists y.
Qed.

Lemma prepared_status_inv g : status_of s1 g TO_BE_COLLECTED → status_of s g TO_BE_COLLECTED.
Proof.
  intros (y & Hy & E). simpl in Hy. destruct (decide (g = gn)) as [->|Hg].
  - rewrite (pr_new _ _ _ _ Hp) in Hy. by injection Hy as <-.
  - assert (Hr : 0 ≤ g < Z.of_nat (length (generation_info (grown k (gc s))))).
    { apply zlookup_Some in Hy as [Hr _]. rewrite (pr_length _ _ _ _ Hp) in Hr. simpl. rewrite length_app, length_replicate. lia. }
    destruct (zlookup_lt _ _ Hr) as [x Hx]. rewrite (pr_other _ _ _ _ Hp g x Hx Hg) in Hy. injection Hy as <-.
    assert (Es : gi_status x = TO_BE_COLLECTED) by by case_bool_decide.
    exists x. split; [|done]. apply grown_lookup_inv; [done|]. unfold nonexistent. by rewrite Es.
Qed.

Lemma prepared_generation x g : generation_of s1 x g ↔ generation_of s x g.
Proof. unfold generation_of. simpl. by rewrite (pr_page_info _ _ _ _ Hp). Qed.

Lemma prepared_kept x g st : kept s x g st → kept s1 x g st.
Proof.
  intros (H1 & H2 & H3 & H4). split; [done|]. split; [by apply prepared_generation|]. split; [|done].
  apply prepared_status; [|done]. by destruct H4 as [-> | ->].
Qed.

Lemma prepared_kept_iff x g : kept s1 x g TO_BE_COLLECTED ↔ kept s x g TO_BE_COLLECTED.
Proof.
  split; [|apply prepared_kept]. intros (H1 & H2 & H3 & H4). split; [done|]. split; [by apply prepared_generation|].
  split; [by apply prepared_status_inv|done].
Qed.

Lemma prepared_target F x : target s F x → target s1 F x.
Proof. intros [|(g & st & Hk)]; [by left|right]. exists g, st. by apply prepared_kept. Qed.

Lemma prepared_from F p ws : from_cell s F p ws → from_cell s1 F p ws.
Proof.
  intros [H1 H2 H3 H4 H5 H6 H7 H8]. split; try done.
  - destruct H7 as [|(g & Hg & Hst & H)]; [by left|right]. exists g. split; [by apply prepared_generation|].
    split; [by apply prepared_status|done].
  - intros i x Hr Hx. eapply prepared_target, H8; done.
Qed.

Lemma prepared_loc pp : is_root_loc pp → loc_get pp s1 = loc_get pp s.
Proof. destruct pp; [done|done|]. intros _. simpl. by rewrite (pr_smart_ptrs _ _ _ _ Hp). Qed.

Lemma prepared_roots F l : roots_ok s (target s F) l → roots_ok s1 (target s1 F) l.
Proof.
  intros [H1 H2 H3 H4]. split; try done.
  - simpl. by rewrite (pr_smart_ptrs _ _ _ _ Hp).
  - intros pp x Hpp Hx. assert (Hpp' : root_loc s l.*1 pp) by by destruct pp. rewrite prepared_loc in Hx by by destruct pp.
    destruct (H4 pp x Hpp' Hx) as [|Ht]; [by left|right; by apply prepared_target].
Qed.

Lemma prepared_collectable F l free : young_ready s F l free → collectable s1 F gn free.
Proof.
  intros Hy. split; simpl; rewrite ?(pr_page_info _ _ _ _ Hp), ?(pr_recovering _ _ _ _ Hp).
  - apply Hy.
  - apply Hy.
  - eapply pool_frame; [apply Hy|done|simpl; by rewrite (pr_page_info _ _ _ _ Hp)|simpl; by rewrite (pr_free _ _ _ _ Hp)|simpl; by rewrite (pr_number _ _ _ _ Hp)].
  - apply Hp.
  - eexists. split; [apply Hp|done].
  - intros p ws Hw. by apply prepared_from, (yr_from _ _ _ _ Hy).
  - apply Hy.
  - apply Hy.
  - apply Hy.
Qed.

(** The recognition of young cells. *)
Lemma young_judges F l free roots : young_ready s F l free → judges s1 F gn free roots (target s1 F) is_in_first_generation.
Proof.
  intros Hy m φ R T s' x Q Hm Hi Hx HQ. pose proof (prepared_collectable _ _ _ Hy) as Hc.
  pose proof (base_collectable _ _ _ _ Hc _ Hm) as Hcm. destruct (cl_bounds _ _ _ _ Hc) as (_ & He & _).
  assert (Hcase : first_generation_allocation_ptr s1 ≤ x ∧ is_Some (F !! x) ∨ x < first_generation_end s1 ∧ ¬ is_Some (F !! x)).
  { destruct (F !! x) as [ws|] eqn:E.
    - left. split; [|eauto]. apply (yr_from _ _ _ _ Hy _ _ E).
    - right. split; [|by intros []]. destruct Hx as [[[ws Hw]|(g & st & Hk)]|[p Hp']]; [congruence|apply Hk|].
      by eapply (copy_old s1 F gn free roots Hc), Hp'. }
  destruct Hcase as [[Hlo HF]|[Hlo HF]].
  - eapply wp_young; [exact Hi|by right|]. rewrite bool_decide_eq_true_2 by done. by rewrite bool_decide_eq_true_2 in HQ by done.
  - eapply wp_young; [exact Hi|by left|]. rewrite bool_decide_eq_false_2 in HQ by done.
    rewrite bool_decide_eq_false_2; [done|]. cbn [base set_mem first_generation_allocation_ptr]. lia.
Qed.
End transfer.

(** * The result *)

Section result.
Context `{Params}.
Context (s : state) (k : nat) (gn : Z) (g1 : gc_state) (Hp : prepared k gn (gc s) g1).
Context (F : gmap Z (list Z)) (l : list (Z * Z)) (free : list Z) (Hready : young_ready s F l free).
Let s1 := set_gc g1 s.
Context (s4 : state) (φ : gmap Z Z) (pages free' : list Z) (A A' : gmap Z (list Z)) (r : list Z).
Context (Hcp : copied s1 s4 F gn (root_loc s1 l.*1) φ pages free' A A' r).

Lemma young_root_loc pp : root_loc s1 l.*1 pp ↔ root_loc s l.*1 pp.
Proof. by destruct pp. Qed.

Lemma young_value_of x : value_of (root_loc s1 l.*1) s1 x ↔ value_of (root_loc s l.*1) s x.
Proof.
  unfold value_of. split; intros (pp & H' & Hx); exists pp; (split; [by destruct pp|]); revert Hx;
    by rewrite (prepared_loc _ _ _ _ Hp) by by destruct pp.
Qed.

Lemma result_remembered g x : zlookup (generation_info (gc s)) g = Some x → gi_status x = TO_BE_COLLECTED →
  ∃ x' added, zlookup (generation_info (gc s4)) g = Some x' ∧ gi_status x' = TO_BE_COLLECTED ∧
  concat (gi_rem_set x') = added ++ concat (gi_rem_set x) ∧ NoDup added ∧
  ∀ a, a ∈ added ↔ ∃ p q ws i y, φ !! p = Some q ∧ F !! p = Some ws ∧ ref_at ws i = true ∧ ws !! i = Some y ∧
    a = q + 4 * Z.of_nat i ∧ kept s y g TO_BE_COLLECTED.
Proof.
  intros Hx Hst. destruct (prepared_entry _ _ _ _ Hp g x Hx) as (Hg & x1 & Hx1 & Est & Erem).
  { unfold nonexistent. by rewrite Hst. }
  destruct (cp_rem _ _ _ _ _ _ _ _ _ _ _ Hcp g x1 Hx1 Hg) as (rs & ad & Hr & Ead & Hnd & Hmem).
  exists (with_rem_set rs x1), ad. split; [done|]. split; [by rewrite <- Hst, <- Est|]. split; [simpl; by rewrite Ead, Erem|].
  split; [done|]. intros a. rewrite Hmem.
  split; intros (p & q & ws & i & z & H1 & H2 & H3 & H4 & H5 & H6); exists p, q, ws, i, z; (split_and!; [done..|]);
    by apply (prepared_kept_iff _ _ _ _ Hp).
Qed.

Lemma result_collected : collected s s4 F l φ pages.
Proof.
  split.
  - intros p. rewrite (cp_reach _ _ _ _ _ _ _ _ _ _ _ Hcp). split; apply reaches_mono; intros x; apply young_value_of.
  - apply Hcp.
  - apply Hcp.
  - apply Hcp.
  - intros pp x Hpp Hx. eapply (cp_loc _ _ _ _ _ _ _ _ _ _ _ Hcp); [by apply young_root_loc|].
    by rewrite (prepared_loc _ _ _ _ Hp) by by destruct pp.
  - intros pp x Hroot Hpp Hx. eapply (cp_other _ _ _ _ _ _ _ _ _ _ _ Hcp); [done|by rewrite young_root_loc|].
    by rewrite (prepared_loc _ _ _ _ Hp) by done.
  - eapply (cp_ring _ _ _ _ _ _ _ _ _ _ _ Hcp); [|by intros sp].
    eapply ro_ring, prepared_roots; [exact Hp|apply Hready].
  - intros a Ha Hpg. apply (cp_mem _ _ _ _ _ _ _ _ _ _ _ Hcp); [by intros []|done|]. intros p ws Hw Hpa.
    destruct (yr_from _ _ _ _ Hready _ _ Hw) as [_ Hyoung]. destruct (yr_bounds _ _ _ _ Hready) as (_ & ? & _). lia.
  - apply result_remembered.
Qed.

Lemma result_youngest : new_youngest s s4 pages free' A A' r.
Proof.
  destruct (cp_vars _ _ _ _ _ _ _ _ _ _ _ Hcp) as [Hfirst _ (_ & _ & _ & Hy & _) _].
  assert (Egn : youngest_gn (gc s4) = gn) by (rewrite Hy; apply Hp).
  destruct (cp_gen _ _ _ _ _ _ _ _ _ _ _ Hcp) as (x & ds & Hx & Hx4 & Hst).
  rewrite (pr_new _ _ _ _ Hp : zlookup (generation_info (gc s1)) gn = _) in Hx. injection Hx as <-.
  split; rewrite ?Egn.
  - eexists. split; [exact Hx4|]. by split_and!.
  - apply Hcp.
  - apply (prepared_fresh _ _ _ _ Hp).
  - apply Hcp.
  - apply Hcp.
  - intros pn Hn. rewrite (cp_others _ _ _ _ _ _ _ _ _ _ _ Hcp pn Hn). simpl. by rewrite (pr_page_info _ _ _ _ Hp).
  - exact Hfirst.
Qed.
End result.

Lemma wp_collect_first_generation `{Params} fuel s F l free A r (Q : Z → state → Prop) :
  young_ready s F l free → disk_room s F A r →
  total_words F < Z.of_nat fuel → (2 * length (generation_info (gc s)) < fuel)%nat → (length l < fuel)%nat →
  (∀ n s' φ pages free' A', free = pages ++ free' → collected s s' F l φ pages →
    new_youngest s s' pages free' A A' r → Q n s') →
  wp (collect_first_generation fuel) Q s.
Proof.
  intros Hready Hdisk Hf1 Hf2 Hf3 HQ. unfold collect_first_generation.
  apply wp_prepare; [apply Hready|exact Hf2|apply Hready|]. intros k gn g1 Hp. set (s1 := set_gc g1 s).
  pose proof (prepared_collectable _ _ _ _ Hp _ _ _ Hready) as Hc. fold s1 in Hc.
  pose proof (prepared_roots _ _ _ _ Hp _ _ (yr_roots _ _ _ _ Hready)) as Hok. fold s1 in Hok.
  eapply (wp_copy_rest s1 F gn free l (target s1 F) _ (root_loc s1 l.*1) (λ _, False) Hc) with (D := []).
  - apply copy_if_scans; [done|]. by eapply young_judges.
  - exact Hok.
  - intros pp. apply root_loc_outside.
  - intros pp. split; [by left|by intros [|[]]].
  - eapply start_scanning; [exact Hc|apply Hp..].
  - split; [by intros ? ?%not_elem_of_nil|by intros ? []].
  - intros i. apply not_elem_of_nil.
  - exact Hf3.
  - exact Hf1.
  - destruct Hdisk as [Hd Hr]. split; simpl; by rewrite (pr_io _ _ _ _ Hp).
  - intros n s4 φ pages free' A' Hfree Hcp. apply wp_ret. eapply HQ; [exact Hfree|by eapply result_collected|by eapply result_youngest].
Qed.

(** * Property *)

(** C2. [collect_first_generation] is a correct copying collector.  From any
    state whose reachable cells are well-shaped and fit, with enough free pages in
    memory and on disk, it returns, and then: exactly the cells reachable from the
    root block and the smart pointers have copies; the copies are disjoint, lie
    inside the used words of pages that were free, and are equal to the cells up to
    redirection of their pointers to the copies; the pointers from outside are
    redirected in the same way and no other variable is; no other page changes; the
    pages belong to a new youngest generation and are stored on disk pages that were
    not in use; and the remembered sets of the generations that await collection
    have gained exactly the copied pointers into them, each once. *)
Theorem collect_first_generation_correct `{Params} fuel s F l free A r :
  young_ready s F l free → disk_room s F A r →
  total_words F < Z.of_nat fuel → (2 * length (generation_info (gc s)) < fuel)%nat → (length l < fuel)%nat →
  ∃ n s' φ pages free' A', collect_first_generation fuel s = Ok n s' ∧ free = pages ++ free' ∧
    collected s s' F l φ pages ∧ new_youngest s s' pages free' A A' r.
Proof.
  intros Hready Hdisk Hf1 Hf2 Hf3.
  assert (Hw : wp (collect_first_generation fuel) (λ n s', ∃ φ pages free' A', free = pages ++ free' ∧
    collected s s' F l φ pages ∧ new_youngest s s' pages free' A A' r) s).
  { eapply wp_collect_first_generation; [exact Hready|exact Hdisk|exact Hf1|exact Hf2|exact Hf3|]. eauto 10. }
  apply wp_inv in Hw as (n & s' & E & φ & pages & free' & A' & ? & ? & ?). by exists n, s', φ, pages, free', A'.
Qed.

(** A database of one free page with two list cells in the first generation: the
    second is reached from the first, which [test1] refers to, and from a smart
    pointer. *)
Definition free_page_image : gmap Z Z :=
  list_to_map ((λ i : nat, (4 * Z.of_nat i, if bool_decide (i = 0%nat) then PAGE_MAGIC_COOKIE else PAGE_DEADBEEF)) <$>
    seq 0 (Z.to_nat NUMBER_OF_WORDS_PER_PAGE)).

Definition young_list : list Z := [header CELL_list 0; 5; 65564].
Definition young_tail : list Z := [header CELL_list 0; 9; NULL_WORD].

Definition young_mem : gmap Z Z :=
  <[65552 := header CELL_list 0]> (<[65556 := 5]> (<[65560 := 65564]>
    (<[65564 := header CELL_list 0]> (<[65568 := 9]> (<[65572 := NULL_WORD]> free_page_image))))).

Definition young_gc : gc_state :=
  set_page_info [PageInfo INVALID_GENERATION_NUMBER false INVALID_PAGE_NUMBER]
    (set_list_of_free_pages 0 (set_number_of_free_pages 1
      (set_generation_info (replicate 4 nonexistent_generation) (set_number_of_nonexistent_generations 4
        (set_smart_ptrs {[0 := SmartPtr 0 100 100; 100 := SmartPtr 65564 0 0]}
          (set_io (IoState (created <$> [File 4 0 [] 0 false 0 ∅]) 0 4) initial_gc)))))).

Definition young_state : state :=
  mkState young_mem 65576 65536 65552 65552 (<[root_ix_num ROOT_IX_test1 := 65552]> (replicate 45 0))
    ((λ x, match root_def x with ROOT_PTR => true | ROOT_WORD _ => false end) <$> root_ixs) NULL_WORD young_gc.

Definition young_cells : gmap Z (list Z) := {[65552 := young_list; 65564 := young_tail]}.

Lemma free_page_lookup i : 0 ≤ i < NUMBER_OF_WORDS_PER_PAGE →
  free_page_image !! (4 * i) = Some (if bool_decide (i = 0) then PAGE_MAGIC_COOKIE else PAGE_DEADBEEF).
Proof.
  intros Hi. unfold free_page_image. apply elem_of_list_to_map_1.
  - rewrite <- list_fmap_compose. apply NoDup_fmap_2; [|apply NoDup_seq]. intros a b. simpl. lia.
  - apply list_elem_of_fmap. exists (Z.to_nat i). split; [|apply elem_of_seq; lia]. rewrite Z2Nat.id by lia.
    assert (Hiff : Z.to_nat i = 0%nat ↔ i = 0) by lia. by rewrite (bool_decide_ext _ _ Hiff).
Qed.

Lemma young_pool : pool young_state [0].
Proof.
  assert (Hm : ∀ i, 0 ≤ i < NUMBER_OF_WORDS_PER_PAGE → mem young_state !! (4 * i) =
    Some (if bool_decide (i = 0) then PAGE_MAGIC_COOKIE else PAGE_DEADBEEF)).
  { intros i Hi. rewrite <- free_page_lookup by done. change NUMBER_OF_WORDS_PER_PAGE with 16384 in Hi.
    cbn [mem young_state young_mem]. unfold young_mem. by rewrite !lookup_insert_ne by lia. }
  split.
  - split; [done|]. split; [done|]. by eexists.
  - apply NoDup_singleton.
  - intros pn ->%list_elem_of_singleton. change (PAGE_SIZE * 0) with 0. split.
    + exact (Hm 0 ltac:(done)).
    + intros i Hi. specialize (Hm i ltac:(lia)). rewrite bool_decide_eq_false_2 in Hm by lia. exact Hm.
  - done.
Qed.

Lemma young_cells_inv p ws : young_cells !! p = Some ws → p = 65552 ∧ ws = young_list ∨ p = 65564 ∧ ws = young_tail.
Proof.
  unfold young_cells. intros [[<- <-]|[_ H]]%lookup_insert_Some; [by left|right].
  apply lookup_singleton_Some in H as [<- <-]. done.
Qed.

Lemma young_words p ws i x : young_cells !! p = Some ws → ws !! i = Some x → young_mem !! (p + 4 * Z.of_nat i) = Some x.
Proof.
  intros [[-> ->]|[-> ->]]%young_cells_inv Hi; destruct i as [|[|[|i]]]; try discriminate Hi; injection Hi as <-;
    unfold young_mem; by rewrite ?lookup_insert_ne, lookup_insert_eq by lia.
Qed.

Lemma young_shape p ws : young_cells !! p = Some ws → ∃ t fs, gc_shape ws = Some (t, fs) ∧
  ∀ j i x, fs !! j = Some (DECLARE_NONNULL_PTR, i) → ws !! S j = Some x → x ≠ NULL_WORD.
Proof.
  intros [[-> ->]|[-> ->]]%young_cells_inv; exists CELL_list, [(DECLARE_TAGGED, 1); (DECLARE_TAGGED, 2)];
    (split; [by vm_compute|]); by intros [|[|j]] i x.
Qed.

Lemma young_refs p ws i x : young_cells !! p = Some ws → ref_at ws i = true → ws !! i = Some x → x = 65564.
Proof.
  intros [[-> ->]|[-> ->]]%young_cells_inv Hr Hi; destruct i as [|[|[|i]]]; try discriminate Hi; injection Hi as <-;
    by vm_compute in Hr.
Qed.

Lemma young_target : target young_state young_cells 65564.
Proof. left. exists young_tail. by vm_compute. Qed.

Lemma young_from p ws : young_cells !! p = Some ws → from_cell young_state young_cells p ws.
Proof.
  intros Hp. assert (Hb : 65552 ≤ p ∧ p mod 4 = 0 ∧ length ws = 3%nat ∧ p + 12 ≤ 65576).
  { by apply young_cells_inv in Hp as [[-> ->]|[-> ->]]. }
  destruct Hb as (H1 & H2 & H3 & H4). split; rewrite ?H3.
  - lia.
  - exact H2.
  - change NUMBER_OF_WORDS_PER_PAGE with 16384. lia.
  - exact H4.
  - intros i x. by apply young_words.
  - by eapply young_shape.
  - left. exact H1.
  - intros i x Hr Hi. rewrite (young_refs _ _ _ _ Hp Hr Hi). apply young_target.
Qed.

Lemma young_roots : roots_ok young_state (target young_state young_cells) [(100, 65564)].
Proof.
  split; [done|done| |].
  - split; [by split_and!|eapply bool_decide_unpack; by vm_compute|]. by intros sp v [= -> ->]%list_elem_of_singleton.
  - intros [a|i|sp] x Hpp Hx; [destruct Hpp|..]; cbn [loc_get root_loc root gc young_state] in Hx, Hpp.
    + apply zlookup_Some in Hx as [_ Hx]. apply list_lookup_insert_Some in Hx as [(_ & <- & _)|[_ Hx]].
      * right. left. exists young_list. by vm_compute.
      * left. by apply lookup_replicate in Hx as [-> _].
    + apply list_elem_of_singleton in Hpp as ->. injection Hx as <-. right. apply young_target.
Qed.

Lemma young_state_ready : young_ready young_state young_cells [(100, 65564)] [0].
Proof.
  split.
  - split_and!; unfold Z.le; done.
  - done.
  - apply young_pool.
  - by split.
  - by left.
  - intros p ws Hp. split; [by apply young_from|]. by apply young_cells_inv in Hp as [[-> _]|[-> _]].
  - intros p1 ws1 p2 ws2 [[-> ->]|[-> ->]]%young_cells_inv [[-> ->]|[-> ->]]%young_cells_inv; unfold disj; simpl; lia.
  - assert (E : total_words young_cells = 6) by by vm_compute. rewrite E. done.
  - assert (E : total_words young_cells = 6) by by vm_compute. rewrite E. done.
  - apply young_roots.
Qed.

#[local] Existing Instance default_params.

Lemma young_disk_room : disk_room young_state young_cells ∅ [].
Proof.
  split; [|by vm_compute]. apply (created_disk [File 4 0 [] 0 false 0 ∅]); [|done]. split; [done|].
  intros i f [Hr Hf]%zlookup_Some. assert (i = 0) as -> by (simpl in Hr; lia). injection Hf as <-. done.
Qed.

Lemma collect_first_generation_correct_witness :
  ∃ n s' φ pages free' A', collect_first_generation 100 young_state = Ok n s' ∧ [0] = pages ++ free' ∧
    collected young_state s' young_cells [(100, 65564)] φ pages ∧
    new_youngest young_state s' pages free' ∅ A' [].
Proof.
  apply (collect_first_generation_correct 100 young_state young_cells [(100, 65564)] [0]).
  - apply young_state_ready.
  - apply young_disk_room.
  - by vm_compute.
  - apply Nat.ltb_lt. reflexivity.
  - apply Nat.ltb_lt. reflexivity.
Defined.
