(* ===== verification/Gather.v ===== *)
(** The collection of the first generation in the database (shades.c,
    [collect_first_generation]): afterwards the first generation has no cells, and the
    copies of those that were referred to are a new youngest generation. *)

From S2P Require Import Prelude Generations Machine Celltypes Shades Root Bitops Cells Pages Genlist Smartptr Io Copy Forward Copying Drain Roots Copied Collect Chain Retire Commit Mature Choose Remember Relocate.

#[local] Abbreviation N := NUMBER_OF_WORDS_PER_PAGE.
#[local] Abbreviation INV := INVALID_GENERATION_NUMBER.

(** A generation before the head of the list. *)
Lemma chain_prepend t t' gn L e : chain t INV L e → NoDup L → INV ∉ L →
  (∀ g x, g ∈ L → zlookup t g = Some x →
    zlookup t' g = Some (if bool_decide (g = hd_gn e L ∧ g ≠ INV) then with_younger gn x else x)) → chain t' gn L e.
Proof.
  destruct L as [|h L]; [done|]. intros [(x & Hx & Hy & Ho) Hc] [Hnin Hnd]%NoDup_cons Hinv Ht. split.
  - exists (with_younger gn x). split; [|done]. rewrite (Ht h x) by (done || by left). rewrite bool_decide_eq_true_2; [done|].
    split; [done|]. intros ->. apply Hinv. by left.
  - eapply chain_same; [exact Hnd|exact Hc|]. intros g z Hg Hz. exists z. split; [|done]. rewrite (Ht g z) by (done || by right).
    rewrite bool_decide_eq_false_2; [done|]. cbn [hd_gn]. intros [-> _]. done.
Qed.

Section gather.
Context `{HP : Params} (s : state) (D : layout) (L : list Z) (r : list Z) (Hdb : db s D L r).
#[local] Abbreviation CS := (ly_cells D).
#[local] Abbreviation F := (ly_first D).
#[local] Abbreviation Y := (ly_new D).
#[local] Abbreviation B := (ly_await D).
#[local] Abbreviation O := (ly_old D).
#[local] Abbreviation V := (Y ++ B ++ O).
#[local] Abbreviation K := (cells_of s CS V).
#[local] Abbreviation t := (generation_info (gc s)).
Context (EC : ly_being D = []).

Lemma gather_gens : ly_gens D = V.
Proof. unfold ly_gens. by rewrite EC. Qed.

Lemma gather_kept : K = CS.
Proof.
  unfold cells_of. apply map_filter_id. intros p ws Hp. apply in_gens_iff.
  destruct (cell_gen _ _ _ _ Hdb p ws Hp) as (g & Hg & Hin). exists g. split; [exact Hg|exact Hin].
Qed.

(** ** Before *)

Lemma gather_status x g : gen_of s x = Some g → kept s x g (if bool_decide (g ∈ B) then TO_BE_COLLECTED else NORMAL).
Proof.
  intros Hx. split; [apply (gen_of_low _ _ _ _ Hdb _ _ Hx)|]. split; [by apply gen_of_iff|]. split; [|case_bool_decide; auto].
  pose proof (gen_of_gens _ _ _ _ Hdb x g Hx) as Hg. destruct (gen_entry _ _ _ _ Hdb g Hg) as (y & Hy). exists y. split; [exact Hy|].
  rewrite gather_gens in Hg. by apply (gen_status _ _ _ _ Hdb g y).
Qed.

Lemma gather_target x : cell_in D x → target s F x.
Proof.
  intros [[ws Hx]|Hx]; [right|by left]. destruct (cell_gen _ _ _ _ Hdb x ws Hx) as (g & Hg & _). eexists g, _. by apply gather_status.
Qed.

Lemma gather_from p ws : F !! p = Some ws → from_cell s F p ws ∧ first_generation_allocation_ptr s ≤ p.
Proof.
  intros Hp. destruct (yk_cell _ _ _ _ (db_young _ _ _ _ Hdb) p ws Hp) as [C1 C2 C3 C4 C5 C6]. split; [|apply C5].
  pose proof (bd_wf _ (db_bounds _ _ _ _ Hdb)) as Hwf. pose proof (wf_ap _ Hwf). pose proof (wf_end _ Hwf). split; try done.
  - lia.
  - apply C5.
  - left. apply C5.
  - intros i x Hr Hx. destruct (C6 i x Hr Hx) as [Ht|[Ht _]]; apply gather_target; [by right|by left].
Qed.

Lemma gather_words : total_words F ≤ (first_generation_start s - first_generation_end s) / 4.
Proof.
  pose proof (yk_words _ _ _ _ (db_young _ _ _ _ Hdb)). pose proof (wf_ap _ (bd_wf _ (db_bounds _ _ _ _ Hdb))). zdiv.
Qed.

Lemma gather_ready : 2 * total_words F ≤ Z.of_nat (length (ly_free D)) * (N - 2) → young_ready s F (ly_smart D) (ly_free D).
Proof.
  intros Hroom. pose proof (db_bounds _ _ _ _ Hdb) as [Hwf Hpages Htop Hrec _ _]. pose proof (db_table _ _ _ _ Hdb) as [T1 T2 T3 T4 T5 _ _ _]. split.
  - pose proof (wf_ap _ Hwf). pose proof (wf_end _ Hwf). split_and!; [exact Hpages|lia|lia|done].
  - exact Hrec.
  - apply (db_paging _ _ _ _ Hdb).
  - exact T1.
  - rewrite T5. fold (ly_gens D). destruct (ly_gens D) as [|h G] eqn:E; [by left|right]. cbn [hd_gn].
    assert (Hh : h ∈ ly_gens D) by (rewrite E; by left). destruct (gen_entry _ _ _ _ Hdb h Hh) as (x & Hx). exists x. split; [exact Hx|].
    by eapply gen_exists.
  - exact gather_from.
  - apply (db_young _ _ _ _ Hdb).
  - exact gather_words.
  - exact Hroom.
  - destruct (db_roots _ _ _ _ Hdb) as [R1 R2 R3 R4]. split; try done. intros pp x Hpp Hx.
    destruct (R4 pp x Hpp Hx) as [|Hc]; [by left|right]. by apply gather_target.
Qed.

(** ** The table *)

Context (k : nat) (gn : Z) (g1 : gc_state) (Hp : prepared k gn (gc s) g1).
#[local] Abbreviation s1 := (set_gc g1 s).

Lemma gather_entry g x : g ∈ V → zlookup t g = Some x → g ≠ gn ∧
  zlookup (generation_info g1) g = Some (if bool_decide (g = youngest_gn (gc s) ∧ g ≠ INV) then with_younger gn x else x).
Proof.
  intros Hg Hx. rewrite <- gather_gens in Hg. destruct (prepared_entry _ _ _ _ Hp g x Hx) as (Hne & _); [by eapply gen_exists|].
  split; [exact Hne|]. apply (pr_other _ _ _ _ Hp); [by apply grown_lookup|exact Hne].
Qed.

Lemma gather_new : gn ∉ ly_gens D.
Proof. intros Hg. destruct (gen_entry _ _ _ _ Hdb gn Hg) as (x & Hx). rewrite gather_gens in Hg. by destruct (gather_entry gn x Hg Hx). Qed.

Lemma gather_exists g x : zlookup t g = Some x → ¬ nonexistent x →
  zlookup (generation_info g1) g = Some (if bool_decide (g = youngest_gn (gc s) ∧ g ≠ INV) then with_younger gn x else x).
Proof.
  intros Hx Hn. destruct (prepared_entry _ _ _ _ Hp g x Hx Hn) as (Hne & _). apply (pr_other _ _ _ _ Hp); [by apply grown_lookup|exact Hne].
Qed.

Lemma gather_starting : starting s s1 V.
Proof.
  split; try done.
  - split_and!; [done|done|]. apply (pr_smart_ptrs _ _ _ _ Hp).
  - apply (pr_page_info _ _ _ _ Hp).
  - intros g x Hg Hx. destruct (gather_entry g x Hg Hx) as [_ Hx1]. eexists. split; [exact Hx1|]. case_bool_decide; [apply relinked_younger|done].
  - intros g x Hx Hn. eexists. split; [by apply gather_exists|]. by case_bool_decide.
  - apply (pr_io _ _ _ _ Hp).
Qed.

Lemma gather_gens_ok : gens_ok g1.
Proof.
  destruct (pr_old _ _ _ _ Hp) as (x & Hx & Hn).
  pose proof (with_new_generation_ok k gn (gc s) x (tb_gens _ _ _ _ _ (db_table _ _ _ _ Hdb)) Hx Hn) as Hok.
  apply zlookup_Some in Hx as Hr. destruct Hr as [Hr _]. eapply gens_ok_same; [exact Hok|..].
  - rewrite (pr_length _ _ _ _ Hp). cbn [with_new_generation generation_info set_generation_info grown]. by rewrite length_zinsert, length_app, length_replicate.
  - apply (pr_next_gn _ _ _ _ Hp).
  - apply (pr_nonexistent _ _ _ _ Hp).
  - intros i y Hy. cbn [with_new_generation generation_info set_generation_info grown] in Hy. destruct (decide (i = gn)) as [->|Hi].
    + rewrite zlookup_insert in Hy by exact Hr. injection Hy as <-. eexists. split; [apply (pr_new _ _ _ _ Hp)|done].
    + rewrite zlookup_insert_ne in Hy by (done || lia). eexists. split; [by apply (pr_other _ _ _ _ Hp)|]. by case_bool_decide.
Qed.

Context (Hg1 : Z.of_nat (length t) ≤ INV) (Hg2 : 16 * (Z.of_nat (length t) - number_of_nonexistent_generations (gc s) + 1) ≤ 7 * INV).

Lemma gather_table : table_ok g1 (gn :: Y) [] B O.
Proof.
  pose proof (db_table _ _ _ _ Hdb) as [T1 T2 T3 T4 T5 T6 T7 T8]. rewrite EC in T2, T3, T4, T5. cbn [app] in T2, T3, T4, T5.
  pose proof gather_new as Hnew. rewrite gather_gens in Hnew. split; cbn [app].
  - exact gather_gens_ok.
  - by apply NoDup_cons.
  - rewrite elem_of_cons. intros [E|]; [|done]. pose proof (pr_length _ _ _ _ Hp) as Hl. destruct (pr_old _ _ _ _ Hp) as (x & Hx & _).
    rewrite <- E in Hx. apply zlookup_Some in Hx as [Hr _].
    cbn [generation_info grown set_generation_info] in Hr. rewrite length_app, length_replicate in Hr.
    pose proof (pr_doubled _ _ _ _ Hp) as Hd. unfold doubled in Hd. lia.
  - split.
    + eexists. split; [apply (pr_new _ _ _ _ Hp)|]. split; [done|]. cbn [gi_older with_older]. exact T5.
    + eapply chain_prepend; [exact T4|exact T2|exact T3|]. intros g x Hg Hx. rewrite <- T5. by apply gather_entry.
  - apply (pr_youngest_gn _ _ _ _ Hp).
  - intros g x Hg Hx. destruct (decide (g = gn)) as [->|Hne].
    + rewrite (pr_new _ _ _ _ Hp) in Hx. by injection Hx as <-.
    + assert (HgYO : g ∈ Y ++ O) by (cbn [app] in Hg; by apply elem_of_cons in Hg as [|]).
      assert (HgV : g ∈ V) by (rewrite !elem_of_app in *; tauto). rewrite <- gather_gens in HgV. destruct (gen_entry _ _ _ _ Hdb g HgV) as (z & Hz).
      rewrite gather_gens in HgV. destruct (gather_entry g z HgV Hz) as [_ E]. rewrite Hx in E. injection E as ->.
      destruct (T6 g z HgYO Hz) as [<- <-]. by case_bool_decide.
  - by intros g x ?%not_elem_of_nil.
  - intros g x Hg Hx. assert (HgV : g ∈ V) by (rewrite !elem_of_app; tauto). rewrite <- gather_gens in HgV. destruct (gen_entry _ _ _ _ Hdb g HgV) as (z & Hz).
    rewrite gather_gens in HgV. destruct (gather_entry g z HgV Hz) as [_ E]. rewrite Hx in E. injection E as ->.
    rewrite <- (T8 g z Hg Hz). by case_bool_decide.
Qed.

(** The new generation was not copied from generations. *)
Definition gather_fr (g : Z) : list Z := if decide (g = gn) then [] else ly_from D g.

Lemma gather_fr_lists (l : list Z) : gn ∉ l → gather_fr <$> l = ly_from D <$> l.
Proof.
  intros Hl. apply list_fmap_ext. intros i g Hg. unfold gather_fr. rewrite decide_False; [done|]. intros ->. by eapply Hl, list_elem_of_lookup_2.
Qed.

Lemma gather_fr_all : concat (gather_fr <$> (gn :: Y) ++ [] ++ B ++ O) = concat (ly_from D <$> ly_gens D).
Proof.
  pose proof gather_new as Hnew. cbn [app fmap list_fmap concat]. unfold gather_fr at 1. rewrite decide_True by done. cbn [app].
  rewrite gather_gens in *. by rewrite gather_fr_lists.
Qed.

Lemma gather_retired_entry g x : g ∈ concat (ly_from D <$> ly_gens D) ++ ly_twice D → zlookup t g = Some x →
  ∃ y, zlookup (generation_info g1) g = Some y ∧ relinked x y.
Proof.
  intros Hg Hx. assert (Hb : g ∉ ly_being D) by (rewrite EC; apply not_elem_of_nil). eexists. split.
  - apply gather_exists; [exact Hx|]. destruct (retired_entry _ _ _ _ Hdb g Hg Hb) as (x' & Hx' & E). rewrite Hx in Hx'. injection Hx' as <-.
    unfold nonexistent. rewrite E. by case_bool_decide.
  - case_bool_decide; [apply relinked_younger|done].
Qed.

Lemma relinked_next x y : relinked x y → gi_from y = gi_from x ∧ gi_next_from y = gi_next_from x ∧ gi_next_collected_twice y = gi_next_collected_twice x.
Proof. by intros ->. Qed.

Lemma gather_retired : retired_ok g1 (gn :: Y) [] B O gather_fr (ly_twice D).
Proof.
  pose proof (db_retired _ _ _ _ Hdb) as [R1 R2 R3 R4 R5 R6]. pose proof gather_new as Hnew.
  assert (Hb : ∀ g, g ∉ ly_being D) by (intros g; rewrite EC; apply not_elem_of_nil).
  assert (Hgf : gn ∉ concat (ly_from D <$> ly_gens D) ++ ly_twice D).
  { intros Hin. destruct (retired_entry _ _ _ _ Hdb gn Hin (Hb gn)) as (x & Hx & E). apply (prepared_fresh _ _ _ _ Hp) in Hx.
    unfold nonexistent in Hx. rewrite E in Hx. by case_bool_decide. }
  assert (Hfr : ∀ g i, g ∈ ly_gens D → i ∈ ly_from D g → i ∈ concat (ly_from D <$> ly_gens D)).
  { intros g i Hg Hi. apply list_elem_of_In, in_concat. exists (ly_from D g). split; apply list_elem_of_In; [|done]. by apply list_elem_of_fmap_2. }
  split; rewrite ?gather_fr_all.
  - intros g x Hg Hx. cbn [app] in Hg. unfold gather_fr. destruct (decide (g = gn)) as [->|Hne].
    + rewrite (pr_new _ _ _ _ Hp) in Hx. by injection Hx as <-.
    + assert (HgV : g ∈ V) by (by apply elem_of_cons in Hg as [|]). pose proof HgV as HgL. rewrite <- gather_gens in HgL.
      destruct (gen_entry _ _ _ _ Hdb g HgL) as (z & Hz). destruct (gather_entry g z HgV Hz) as [_ E]. rewrite Hx in E. injection E as ->.
      assert (Ef : gi_from (if bool_decide (g = youngest_gn (gc s) ∧ g ≠ INV) then with_younger gn z else z) = gi_from z) by by case_bool_decide.
      rewrite Ef. eapply follows_same; [|by apply (R1 g z)]. intros i w Hi Hw.
      destruct (gather_retired_entry i w) as (y & Hy & (_ & E & _)%relinked_next); [apply elem_of_app; left; by eapply Hfr|done|]. by exists y.
  - destruct (pr_rest _ _ _ _ Hp) as (_ & -> & _). eapply follows_same; [|exact R2]. intros i w Hi Hw.
    destruct (gather_retired_entry i w) as (y & Hy & (_ & _ & E)%relinked_next); [apply elem_of_app; by right|done|]. by exists y.
  - fold (ly_gens D) in R3. apply NoDup_cons. split; [|exact R3]. fold V. rewrite elem_of_app. intros [Hin|Hin]; [|done].
    rewrite gather_gens in Hnew. done.
  - by intros g ?%not_elem_of_nil.
  - intros g x Hg _ Hx. assert (Hg' : g ∈ concat (ly_from D <$> ly_gens D) ++ ly_twice D) by (apply elem_of_app; by left).
    destruct (retired_entry _ _ _ _ Hdb g Hg' (Hb g)) as (z & Hz & _). destruct (gather_retired_entry g z Hg' Hz) as (y & Hy & (Es & _)%relinked_fields).
    rewrite Hx in Hy. injection Hy as <-. rewrite Es. by apply (R5 g).
  - intros g x Hg Hx. assert (Hg' : g ∈ concat (ly_from D <$> ly_gens D) ++ ly_twice D) by (apply elem_of_app; by right).
    destruct (retired_entry _ _ _ _ Hdb g Hg' (Hb g)) as (z & Hz & _). destruct (gather_retired_entry g z Hg' Hz) as (y & Hy & (Es & _)%relinked_fields).
    rewrite Hx in Hy. injection Hy as <-. rewrite Es. by apply (R6 g).
Qed.

(** ** Afterwards *)

Context (Hroom : 2 * total_words F ≤ Z.of_nat (length (ly_free D)) * (N - 2)).
#[local] Abbreviation rl := (root_loc s1 (ly_smart D).*1).

Lemma gather_collectable : collectable s1 F gn (ly_free D).
Proof. apply (prepared_collectable _ _ _ _ Hp _ (ly_smart D)). by apply gather_ready. Qed.

Lemma gather_live g : g ∈ V → g ∈ ly_live D.
Proof. done. Qed.

Lemma gather_apart p ws p' ws' : K !! p = Some ws → F !! p' = Some ws' → disj (p, ws) (p', ws').
Proof.
  rewrite gather_kept. intros [_ He]%(cell_bounds _ _ _ _ Hdb) [_ Hlo]%gather_from.
  pose proof (wf_ap _ (bd_wf _ (db_bounds _ _ _ _ Hdb))). unfold disj. simpl. lia.
Qed.

Lemma gather_kept_ref p ws i x : CS !! p = Some ws → ref_at ws i = true → ws !! i = Some x → is_Some (CS !! x) ∧
  ∃ g g', gen_of s p = Some g ∧ gen_of s x = Some g' ∧ older V g g'.
Proof. intros Hp' Hr Hx. exact (oc_refs _ _ _ _ _ (ck_cell _ _ _ (db_cells _ _ _ _ Hdb) _ _ Hp') i x Hr Hx). Qed.

Lemma gather_not_both x : is_Some (CS !! x) → F !! x = None.
Proof.
  intros [w Hw]. apply eq_None_not_Some. intros [w' [_ Hlo]%gather_from]. destruct (cell_bounds _ _ _ _ Hdb x w Hw) as [_ He].
  pose proof (wf_ap _ (bd_wf _ (db_bounds _ _ _ _ Hdb))).
  pose proof (oc_length _ _ _ _ _ (ck_cell _ _ _ (db_cells _ _ _ _ Hdb) _ _ Hw)). lia.
Qed.

Lemma gather_young_ref p ws i x : F !! p = Some ws → ref_at ws i = true → ws !! i = Some x → is_Some (F !! x) ∨ is_Some (CS !! x).
Proof.
  intros Hw Hr Hx. destruct (yc_refs _ _ _ _ _ _ (yk_cell _ _ _ _ (db_young _ _ _ _ Hdb) p ws Hw) i x Hr Hx) as [|[Ht _]]; [by left|by right].
Qed.

Lemma gather_remembers x g : kept s1 x g TO_BE_COLLECTED ↔ gen_of s x = Some g ∧ g ∈ B.
Proof.
  rewrite (prepared_kept_iff _ _ _ _ Hp). split.
  - intros (_ & Hg & (y & Hy & Est) & _). apply gen_of_iff in Hg. split; [exact Hg|]. pose proof (gen_of_gens _ _ _ _ Hdb x g Hg) as HgL.
    rewrite gather_gens in HgL. rewrite (gen_status _ _ _ _ Hdb g y HgL Hy) in Est. by case_bool_decide.
  - intros [Hg Hin]. pose proof (gather_status x g Hg) as Hk. by rewrite bool_decide_eq_true_2 in Hk.
Qed.

Lemma gather_loc_dec pp : rl pp ∨ ¬ rl pp.
Proof.
  assert (Hd : ∀ P : Prop, Decision P → P ∨ ¬ P) by (intros P [|]; auto). apply Hd. destruct pp; unfold root_loc; apply _.
Qed.

(** The layout: a new youngest generation, and no cells in the first one. *)
Definition gathered (φ : gmap Z Z) (l' : list (Z * Z)) (free' : list Z) (A' : gmap Z (list Z)) : layout :=
  Layout (gn :: Y) [] B O (moved s D B F φ) ∅ l' free' gather_fr (ly_twice D) A'.

Lemma gather_db s4 φ pages free' A' : ly_free D = pages ++ free' → copied s1 s4 F gn rl φ pages free' (ly_disk D) A' r →
  ∃ l', l'.*1 = (ly_smart D).*1 ∧ db s4 (gathered φ l' free' A') [] r.
Proof.
  intros Hfree Hcp. pose proof gather_new as Hnew. rewrite gather_gens in Hnew.
  assert (HFL : ly_filed (gathered φ [] free' A') ≡ₚ gn :: ly_filed D).
  { unfold ly_filed at 1. unfold ly_gens, ly_live. cbn [gathered ly_new ly_being ly_await ly_old ly_from ly_twice].
    rewrite gather_fr_all. done. }
  eapply (moved_db s D L r Hdb B s1 gather_starting F gn gather_collectable Hnew gather_live rl s4 φ pages free' A' Hcp Hfree gather_apart)
    with (NL := gn :: V) (Y' := gn :: Y) (first' := ∅) (C' := []) (fr' := gather_fr) (tw := ly_twice D) (FL := ly_filed (gathered φ [] free' A')).
  - intros p ws i x HKp Hr Hx. left. rewrite gather_kept in *. by apply (gather_kept_ref p ws i x).
  - by intros p ws i x _ _ [].
  - exact gather_loc_dec.
  - intros p ws i x. rewrite gather_kept. apply gather_young_ref.
  - done.
  - intros g g' _ _ Ho. right. exact Ho.
  - intros p ws i x g' _ _ _ _ Hg'. left. split; [done|]. right. rewrite <- gather_gens. by eapply gen_of_gens.
  - intros p ws i x g HKp Hr Hx [w Hw]. rewrite gather_kept in HKp. destruct (gather_kept_ref p ws i x HKp Hr Hx) as (Hc%gather_not_both & _). congruence.
  - intros g. apply elem_of_cons.
  - done.
  - exact gather_remembers.
  - done.
  - intros x [Hx|Hx]; [left; by rewrite gather_kept|by right; left].
  - by intros a [].
  - intros p ws pn [_ Hlo]%gather_from Hpn Ha. pose proof (bd_pages _ (db_bounds _ _ _ _ Hdb)). pose proof (wf_ap _ (bd_wf _ (db_bounds _ _ _ _ Hdb))).
    change PAGE_SIZE with 65536 in *. lia.
  - apply (prepared_fresh _ _ _ _ Hp).
  - intros g. rewrite gather_gens. cbn [app]. apply elem_of_cons.
  - exact gather_table.
  - exact gather_retired.
  - intros g. by eapply filed_entry.
  - exact HFL.
  - done.
  - done.
  - destruct (moved_first s D r B s1 gather_starting F gn rl s4 φ pages free' A' Hcp) as (E1 & E2 & E3).
    pose proof (wf_ap _ (bd_wf _ (db_bounds _ _ _ _ Hdb))). split.
    + by intros p ws ?%lookup_empty_Some.
    + by intros p1 ws1 p2 ws2 ?%lookup_empty_Some.
    + rewrite E1, E3. change (total_words ∅) with 0. lia.
Qed.
End gather.

(** * The operation *)

(** What the collection has done: the generations' cells are where they were, exactly
    the cells of the first generation that the roots lead to were copied to the
    generation [gn]. *)
Record gathering (s s' : state) (D D' : layout) (gn : Z) (φ : gmap Z Z) : Prop := {
  gt_lists : ly_new D' = gn :: ly_new D ∧ ly_being D' = [] ∧ ly_await D' = ly_await D ∧ ly_old D' = ly_old D;
  gt_smart : (ly_smart D').*1 = (ly_smart D).*1;
  gt_first : ly_first D' = ∅;
  gt_new : gn ∉ ly_gens D;
  gt_kept p ws : ly_cells D !! p = Some ws → ly_cells D' !! p = Some ws ∧ gen_of s' p = gen_of s p;
  gt_reach p : is_Some (φ !! p) ↔ reaches (ly_first D) (value_of (root_loc s (ly_smart D).*1) s) p;
  gt_copied p q : φ !! p = Some q → ∃ ws, ly_first D !! p = Some ws ∧ ly_cells D' !! q = Some (forward_words φ ws) ∧
    gen_of s' q = Some gn;
  gt_only q ws' : ly_cells D' !! q = Some ws' → ly_cells D !! q = Some ws' ∨
    ∃ p ws, φ !! p = Some q ∧ ly_first D !! p = Some ws ∧ ws' = forward_words φ ws;
  gt_inj p1 p2 q : φ !! p1 = Some q → φ !! p2 = Some q → p1 = p2;
  gt_roots pp x : root_loc s (ly_smart D).*1 pp → loc_get pp s = Some x → loc_get pp s' = Some (forward φ x);
  gt_other pp x : is_root_loc pp → ¬ root_loc s (ly_smart D).*1 pp → loc_get pp s = Some x → loc_get pp s' = Some x
}.

(** The variables afterwards. *)
Record gather_frame (s s' : state) (gn w : Z) : Prop := {
  gf_same : undisturbed s s';
  gf_to_gn : to_gn (gc s') = gn ∧ youngest_gn (gc s') = gn;
  gf_entry : ∃ x, zlookup (generation_info (gc s')) gn = Some x ∧ gi_npages x = Z.of_nat (length (gi_page x)) ∧
    length (gi_disk_page x) = length (gi_page x) ∧ gi_npages x < MAX_GENERATION_SIZE ∧
    gi_npages x * (N - 2) ≤ 2 * w + (N - 2);
  gf_prev : prev_to_gn (gc s') = prev_to_gn (gc s)
}.

Lemma gathering_holds `{HP : Params} s D L r (Hdb : db s D L r) (EC : ly_being D = []) k gn g1 (Hp : prepared k gn (gc s) g1)
    s4 φ pages free' A' l' :
  collectable (set_gc g1 s) (ly_first D) gn (ly_free D) → ly_free D = pages ++ free' → l'.*1 = (ly_smart D).*1 →
  copied (set_gc g1 s) s4 (ly_first D) gn (root_loc (set_gc g1 s) (ly_smart D).*1) φ pages free' (ly_disk D) A' r →
  gathering s s4 D (gathered s D gn φ l' free' A') gn φ.
Proof.
  intros Hc Hfree El Hcp. pose proof (gather_starting s D L r Hdb EC k gn g1 Hp) as Hst. pose proof (gather_kept s D L r Hdb) as EK.
  assert (Hn : ∀ x, is_Some (ly_cells D !! x) → φ !! x = None).
  { intros x Hx. apply eq_None_not_Some. intros [q Hq]. destruct (copy_from D r _ _ gn _ s4 φ pages free' A' Hcp x q Hq) as [w Hw].
    rewrite (gather_not_both s D L r Hdb EC x Hx) in Hw. done. }
  assert (Hsame : ∀ p ws, ly_cells D !! p = Some ws → forward_words φ ws = ws).
  { intros p ws Hp'. apply list_eq. intros i. rewrite lookup_forward_words. destruct (ws !! i) as [x|] eqn:Ex; [|done]. simpl. f_equal.
    unfold forward_at. destruct (ref_at ws i) eqn:Er; [|done].
    apply forward_None, Hn. by destruct (gather_kept_ref s D L r Hdb p ws i x Hp' Er Ex). }
  assert (Hloc : ∀ pp, is_root_loc pp → loc_get pp (set_gc g1 s) = loc_get pp s) by apply (prepared_loc _ _ _ _ Hp).
  split.
  - done.
  - exact El.
  - done.
  - by eapply gather_new.
  - intros p ws Hp'. split.
    + rewrite <- (Hsame p ws Hp'). eapply moved_kept; [exact Hdb|exact Hc|exact Hcp|exact Hfree|]. by rewrite EK.
    + destruct (cell_gen _ _ _ _ Hdb p ws Hp') as (g & Hg & _). rewrite Hg. eapply gen_of_still; [exact Hdb|exact Hst|exact Hcp|exact Hfree|exact Hg].
  - intros p. rewrite (cp_reach _ _ _ _ _ _ _ _ _ _ _ Hcp). split; apply reaches_mono; intros x (pp & Hpp & Hx); exists pp;
      (split; [by destruct pp|]); [rewrite <- Hloc|rewrite Hloc]; try done; by destruct pp.
  - intros p q Hq. destruct (copy_from D r _ _ gn _ s4 φ pages free' A' Hcp p q Hq) as [ws Hw]. exists ws. split; [exact Hw|]. split.
    + eapply moved_copy; [exact Hdb|exact Hc|exact Hcp|exact Hfree|exact Hq|exact Hw].
    + eapply gen_of_copy; [exact Hc|exact Hcp|exact Hq].
  - intros q ws' Hq. eapply moved_Some in Hq; [|exact Hdb|exact Hc|exact Hcp|exact Hfree].
    destruct Hq as [(ws & Hp' & ->)|(p & ws & Hq & Hw & ->)].
    + left. rewrite EK in Hp'. by rewrite (Hsame q ws Hp').
    + right. by exists p, ws.
  - intros p1 p2 q. eapply copy_inj; [exact Hc|exact Hcp].
  - intros pp x Hpp Hx. apply (cp_loc _ _ _ _ _ _ _ _ _ _ _ Hcp); [by destruct pp|]. rewrite Hloc; [exact Hx|by destruct pp].
  - intros pp x Hr Hpp Hx. apply (cp_other _ _ _ _ _ _ _ _ _ _ _ Hcp); [exact Hr|by destruct pp|]. by rewrite Hloc.
Qed.

Lemma wp_gather `{HP : Params} fuel s D L r k w (Q : Z → state → Prop) : db s D L r → ly_being D = [] →
  space_for s (ly_free D) k w → 1 ≤ k → total_words (ly_first D) ≤ w →
  (2 * length (generation_info (gc s)) < fuel)%nat → total_words (ly_first D) < Z.of_nat fuel → (length (ly_smart D) < fuel)%nat →
  (∀ n s' D' gn φ, db s' D' [] r → gathering s s' D D' gn φ → gather_frame s s' gn (total_words (ly_first D)) →
    space_for s' (ly_free D') (k - 1) (w - total_words (ly_first D)) → Q n s') →
  wp (collect_first_generation fuel) Q s.
Proof.
  intros Hdb EC Hrm Hk Hw Hf1 Hf2 Hf3 HQ. pose proof Hrm as [Rp Rd [Rg1 Rg2]].
  assert (Hroom : 2 * total_words (ly_first D) ≤ Z.of_nat (length (ly_free D)) * (N - 2)) by (change (N - 2) with 16382 in *; lia).
  pose proof (gather_ready s D L r Hdb EC Hroom) as Hready. unfold collect_first_generation.
  apply wp_prepare; [apply Hready|exact Hf1|apply Hready|]. intros kd gn g1 Hp. set (s1 := set_gc g1 s).
  pose proof (prepared_collectable _ _ _ _ Hp _ _ _ Hready) as Hc. fold s1 in Hc.
  eapply (wp_copy_rest s1 (ly_first D) gn (ly_free D) (ly_smart D) (target s1 (ly_first D)) _ (root_loc s1 (ly_smart D).*1) (λ _, False) Hc) with (D := []).
  - apply copy_if_scans; [done|]. by eapply young_judges.
  - exact (prepared_roots _ _ _ _ Hp _ _ (yr_roots _ _ _ _ Hready)).
  - intros pp. apply root_loc_outside.
  - intros pp. split; [by left|by intros [|[]]].
  - eapply start_scanning; [exact Hc|apply Hp..].
  - split; [by intros ? ?%not_elem_of_nil|by intros ? []].
  - intros i. apply not_elem_of_nil.
  - exact Hf3.
  - exact Hf2.
  - split; cbn [s1 gc set_gc]; rewrite (pr_io _ _ _ _ Hp); [apply (db_disk _ _ _ _ Hdb)|].
    change (N - 2) with 16382 in *. pose proof (Z.mul_div_le (2 * total_words (ly_first D)) 16382 ltac:(lia)). lia.
  - intros n s4 φ pages free' A' Hfree Hcp. apply wp_ret.
    destruct (gather_db s D L r Hdb EC kd gn g1 Hp Rg1 ltac:(lia) Hroom s4 φ pages free' A' Hfree Hcp) as (l' & El & Hdb4).
    pose proof (gather_starting s D L r Hdb EC kd gn g1 Hp) as Hst. pose proof (gather_collectable s D L r Hdb EC kd gn g1 Hp Hroom) as Hc2.
    eapply HQ; [exact Hdb4| | |].
    + eapply gathering_holds; [exact Hdb|exact EC|exact Hp|exact Hc2|exact Hfree|exact El|exact Hcp].
    + destruct (moved_first s D r (ly_await D) s1 Hst _ gn _ s4 φ pages free' A' Hcp) as (E1 & E2 & _).
      destruct (moved_few_pages s D L r Hdb (ly_await D) s1 Hst _ gn Hc2 _ s4 φ pages free' A' Hcp) as [Hfew1 Hfew].
      destruct (cp_vars _ _ _ _ _ _ _ _ _ _ _ Hcp) as [_ (_ & _ & _ & _ & Kp & _) (_ & _ & _ & Ky & Kt & _) _]. split.
      * eapply (moved_undisturbed s D L r Hdb (ly_await D) s1 Hst _ gn Hc2 _ s4 φ pages free' A' Hcp Hfree).
        -- intros pp. assert (Hd : ∀ P : Prop, Decision P → P ∨ ¬ P) by (intros P [|]; auto). apply Hd. destruct pp; unfold root_loc; apply _.
        -- destruct (pr_rest _ _ _ _ Hp) as (_ & _ & F1 & F2). unfold flags. cbn [s1 gc set_gc]. by rewrite F1, F2, (pr_recovering _ _ _ _ Hp).
        -- intros i Hi Ha [[_ H1]|[H1 _]]; [rewrite Nat2Z.id in H1; exact (Hi H1)|apply Ha; unfold accu in H1; lia].
      * rewrite Ky, Kt. split; apply Hp.
      * destruct (cp_gen _ _ _ _ _ _ _ _ _ _ _ Hcp) as (x & ds & _ & Hx & Hds). eexists. split; [exact Hx|].
        split; [done|]. split; [apply (st_length _ _ _ _ _ _ Hds)|]. split; [exact Hfew|exact Hfew1].
      * rewrite Kp. apply Hp.
    + eapply (moved_room s D L r Hdb (ly_await D) s1 Hst _ gn Hc2 _ s4 φ pages free' A' Hcp Hfree kd);
        [apply (pr_doubled _ _ _ _ Hp)|apply (pr_length _ _ _ _ Hp)|apply (pr_nonexistent _ _ _ _ Hp)|exact Hrm|exact Hk].
Qed.
