(* ===== verification/Flush.v ===== *)
(** The words of the root block and the first generation at the end of a commit group
    (shades.c, [flush_batch]). *)

From S2P Require Import Prelude Generations Machine Celltypes Shades Root Bitops Cells Pages Genlist Smartptr Io Copy Forward Copying Drain Roots Copied Chain Retire Commit Mature Remember.

#[local] Abbreviation N := NUMBER_OF_WORDS_PER_PAGE.
#[local] Abbreviation INV := INVALID_GENERATION_NUMBER.

(** * The root block *)

(** Words that are not pointers change, and pointers become [NULL]. *)
Lemma roots_ok_words s seen l r' : roots_ok s seen l → length r' = length (root s) →
  (∀ i x, r' !! i = Some x → root s !! i = Some x ∨
    (i ≠ root_ix_num ROOT_IX_suspended_accu_type) ∧ (i ≠ root_ix_num ROOT_IX_suspended_accu) ∧ (x = NULL_WORD ∨ ix_is_ptr s !! i ≠ Some true ∨ NUMBER_OF_ROOT_IXS ≤ Z.of_nat i)) →
  roots_ok (set_root r' s) seen l.
Proof.
  intros [R1 R2 R3 R4] Hl Hr. change NUMBER_OF_ROOT_IXS with 45 in *.
  assert (Hat : ∀ i : nat, i = root_ix_num ROOT_IX_suspended_accu_type ∨ i = root_ix_num ROOT_IX_suspended_accu → r' !! i = root s !! i).
  { intros i Hi. assert (Hlt : (i < length r')%nat) by (rewrite Hl; destruct Hi as [-> | ->]; [change (7 < length (root s))%nat|change (8 < length (root s))%nat]; lia).
    destruct (lookup_lt_is_Some_2 _ _ Hlt) as [x Hx]. destruct (Hr i x Hx) as [E|(H1 & H2 & _)]; [congruence|tauto]. }
  assert (Hacc : accu_holds_ptr (set_root r' s) = accu_holds_ptr s).
  { unfold accu_holds_ptr. cbn [root set_root]. by rewrite !Hat by auto. }
  split; [cbn [root set_root]; rewrite Hl; change NUMBER_OF_ROOT_IXS with 45; done|done|done|].
  intros pp x Hpp Hx. destruct pp as [a|i|sp]; [done| |by apply (R4 (SmartWord sp))].
  assert (Hpp' : root_loc s l.*1 (RootWord i)) by (destruct Hpp as [?|[-> Ha]]; [by left|right; by rewrite <- Hacc]).
  cbn [loc_get root set_root] in Hx. apply zlookup_Some in Hx as [Hi Hx]. destruct (Hr _ x Hx) as [E|(H1 & H2 & [->|[Hn|Hn]])].
  - apply (R4 (RootWord i) x Hpp'). simpl. apply zlookup_Some. split; [|done]. apply lookup_lt_Some in E. lia.
  - by left.
  - exfalso. destruct Hpp as [[_ Hp]|[-> _]]; [done|]. apply H2. done.
  - exfalso. destruct Hpp as [[Hi' _]|[E _]].
    + change NUMBER_OF_ROOT_IXS with 45 in *. lia.
    + change accu with 8 in E. change NUMBER_OF_ROOT_IXS with 45 in *. lia.
Qed.

Lemma db_set_root `{HP : Params} s D L r r' : db s D L r → roots_ok (set_root r' s) (cell_in D) (ly_smart D) → db (set_root r' s) D L r.
Proof.
  intros [[W1 W2 W3 W4 W5 W6] Ht [P1 P2 P3 P4 P5] Hc Hy Hr Hret Hf Hd _] Hroots. set (s' := set_root r' s).
  assert (Hg : ∀ x, is_Some (ly_cells D !! x) → gen_of s' x = gen_of s x) by (intros x _; reflexivity). split.
  - split; try done. by eapply wf_same.
  - exact Ht.
  - split; [by eapply pool_frame|exact P2| |exact P4|exact P5].
    intros g x pn H1 H2 H3. destruct (P3 g x pn H1 H2 H3) as ([U1 U2 U3] & H4). split; [by split|exact H4].
  - eapply cells_ok_same; [exact Hg|exact Hc|done..|]. intros g x _ Hx. by exists x.
  - by eapply young_ok_same; [exact Hg|exact Hy|..].
  - eapply rems_ok_same; [exact Hg|exact Hc|exact Hr|]. intros g x _ Hx. by exists x.
  - exact Hret.
  - exact Hf.
  - exact Hd.
  - exact Hroots.
Qed.

Lemma db_words `{HP : Params} s D L r r' : db s D L r → length r' = length (root s) →
  (∀ i x, r' !! i = Some x → root s !! i = Some x ∨
    (i ≠ root_ix_num ROOT_IX_suspended_accu_type) ∧ (i ≠ root_ix_num ROOT_IX_suspended_accu) ∧ (x = NULL_WORD ∨ ix_is_ptr s !! i ≠ Some true ∨ NUMBER_OF_ROOT_IXS ≤ Z.of_nat i)) →
  db (set_root r' s) D L r.
Proof. intros Hdb Hl Hr. apply db_set_root; [exact Hdb|]. eapply roots_ok_words; [apply (db_roots _ _ _ _ Hdb)|exact Hl|exact Hr]. Qed.

(** The words that hold pointers are those that root-def.h declares. *)
Definition declared_roots (s : state) : Prop :=
  length (root s) = Z.to_nat NUMBER_OF_ROOT_BLOCK_ITEMS ∧
  ∀ x, ix_is_ptr s !! root_ix_num x = Some (match root_def x with ROOT_PTR => true | ROOT_WORD _ => false end).

(** ** The description of the youngest generation *)

(** The cached description: its words follow those of the declared items, in turn. *)
Record cached (r r' : list Z) (npages gn nref : Z) (ps ds : list Z) : Prop := {
  ca_length : length r' = length r;
  ca_low i : (i < root_ix_num ROOT_IX_youngest_generation_number_of_pages)%nat → r' !! i = r !! i;
  ca_npages : r' !! root_ix_num ROOT_IX_youngest_generation_number_of_pages = Some npages;
  ca_gn : r' !! root_ix_num ROOT_IX_youngest_generation_number = Some gn;
  ca_nref : r' !! root_ix_num ROOT_IX_youngest_generation_number_of_referring_ptrs = Some nref;
  ca_page i p : ps !! i = Some p → r' !! (root_ix_num ROOT_IX_youngest_generation_page_number0 + 2 * i)%nat = Some p;
  ca_disk i d : ds !! i = Some d → r' !! (root_ix_num ROOT_IX_youngest_generation_disk_page_number0 + 2 * i)%nat = Some d
}.

Lemma wp_update_root i v s (Q : unit → state → Prop) : (i < length (root s))%nat → Q tt (set_root (<[i := v]> (root s)) s) → wp (update_root i v) Q s.
Proof.
  intros Hi HQ. apply wp_bind, wp_gets, wp_bind. destruct (lookup_lt_is_Some_2 _ _ Hi) as [w Hw].
  eapply wp_of_option; [exact Hw|]. by apply wp_modify.
Qed.

Lemma wp_cache_generation_pinfo_to_root s x nref (Q : unit → state → Prop) :
  length (root s) = Z.to_nat NUMBER_OF_ROOT_BLOCK_ITEMS → zlookup (generation_info (gc s)) (youngest_gn (gc s)) = Some x →
  gi_npages x = Z.of_nat (length (gi_page x)) → length (gi_disk_page x) = length (gi_page x) → gi_npages x ≤ MAX_GENERATION_SIZE →
  (∀ r', cached (root s) r' (gi_npages x) (youngest_gn (gc s)) nref (gi_page x) (gi_disk_page x) → Q tt (set_root r' s)) →
  wp (cache_generation_pinfo_to_root nref) Q s.
Proof.
  intros Hl Hx Hn Hd Hmax HQ. change (Z.to_nat NUMBER_OF_ROOT_BLOCK_ITEMS) with 128%nat in Hl. change MAX_GENERATION_SIZE with 41 in *.
  unfold cache_generation_pinfo_to_root. apply wp_bind, wp_gcs, wp_bind. eapply wp_get_gen; [exact Hx|].
  apply wp_bind, wp_assert; [by apply bool_decide_eq_true|].
  change (root_ix_num ROOT_IX_youngest_generation_number_of_pages) with 40%nat. 
  do 3 (apply wp_bind, wp_update_root; [cbn [root set_root]; rewrite ?length_insert, Hl; by apply Nat.ltb_lt|]).
  set (r0 := <[_ := nref]> _).
  eapply wp_for with (I := λ k _ s', ∃ r', s' = set_root r' s ∧
    cached (root s) r' (gi_npages x) (youngest_gn (gc s)) nref (take k (gi_page x)) (take k (gi_disk_page x))).
  - exists r0. split; [done|]. subst r0. cbn [root set_root]. split; rewrite ?length_insert; try done.
    + intros i Hi. change (i < 40)%nat in Hi. rewrite !list_lookup_insert_ne; [done|..];
        [change (root_ix_num ROOT_IX_youngest_generation_number_of_pages) with 40%nat|change (root_ix_num ROOT_IX_youngest_generation_number) with 41%nat|
         change (root_ix_num ROOT_IX_youngest_generation_number_of_referring_ptrs) with 42%nat]; lia.
    + rewrite !list_lookup_insert_ne by done. apply list_lookup_insert_eq. rewrite Hl. by apply Nat.ltb_lt.
    + rewrite !list_lookup_insert_ne by done. apply list_lookup_insert_eq. rewrite length_insert, Hl. by apply Nat.ltb_lt.
    + apply list_lookup_insert_eq. rewrite !length_insert, Hl. by apply Nat.ltb_lt.
  - intros k _ s' Hk (r' & -> & [C1 C2 C3 C4 C5 C6 C7]). rewrite Hn, Nat2Z.id in Hk. unfold cache_page.
    change (root_ix_num ROOT_IX_youngest_generation_page_number0) with 43%nat in *.
    change (root_ix_num ROOT_IX_youngest_generation_disk_page_number0) with 44%nat in *.
    destruct (lookup_lt_is_Some_2 (gi_page x) k Hk) as [p Hp]. destruct (lookup_lt_is_Some_2 (gi_disk_page x) k) as [d Hd']; [lia|].
    apply wp_bind. eapply wp_get_gen; [exact Hx|]. apply wp_bind. eapply wp_of_option.
    { apply zlookup_Some. rewrite Nat2Z.id. split; [lia|exact Hp]. }
    apply wp_bind, wp_update_root; [cbn [root set_root]; rewrite C1, Hl; lia|]. apply wp_bind. eapply wp_of_option.
    { apply zlookup_Some. rewrite Nat2Z.id. split; [lia|exact Hd']. }
    apply wp_update_root; [cbn [root set_root]; rewrite length_insert, C1, Hl; lia|]. cbn [root set_root].
    exists (<[(44 + 2 * k)%nat := d]> (<[(43 + 2 * k)%nat := p]> r')). split; [done|].
    rewrite (take_S_r _ _ _ Hp), (take_S_r _ _ _ Hd').
    change (root_ix_num ROOT_IX_youngest_generation_number_of_pages) with 40%nat in *.
    change (root_ix_num ROOT_IX_youngest_generation_number) with 41%nat in *.
    change (root_ix_num ROOT_IX_youngest_generation_number_of_referring_ptrs) with 42%nat in *.
    split; change (root_ix_num ROOT_IX_youngest_generation_number_of_pages) with 40%nat;
      change (root_ix_num ROOT_IX_youngest_generation_number) with 41%nat;
      change (root_ix_num ROOT_IX_youngest_generation_number_of_referring_ptrs) with 42%nat;
      change (root_ix_num ROOT_IX_youngest_generation_page_number0) with 43%nat;
      change (root_ix_num ROOT_IX_youngest_generation_disk_page_number0) with 44%nat.
    + by rewrite !length_insert.
    + intros i Hi. rewrite !list_lookup_insert_ne by lia. by apply C2.
    + by rewrite !list_lookup_insert_ne by lia.
    + by rewrite !list_lookup_insert_ne by lia.
    + by rewrite !list_lookup_insert_ne by lia.
    + intros i z [[_ Hi]|[-> <-]]%lookup_snoc_Some.
      * pose proof (lookup_lt_Some _ _ _ Hi) as Hlt. rewrite length_take in Hlt. rewrite !list_lookup_insert_ne by lia. by apply C6.
      * rewrite length_take, Nat.min_l by lia. rewrite list_lookup_insert_ne by lia. apply list_lookup_insert_eq. rewrite C1, Hl. lia.
    + intros i z [[_ Hi]|[-> <-]]%lookup_snoc_Some.
      * pose proof (lookup_lt_Some _ _ _ Hi) as Hlt. rewrite length_take in Hlt. rewrite !list_lookup_insert_ne by lia. by apply C7.
      * rewrite length_take, Nat.min_l by lia. apply list_lookup_insert_eq. rewrite length_insert, C1, Hl. lia.
  - intros [] s' (r' & -> & Hc). apply HQ.
    replace (Z.to_nat (gi_npages x)) with (length (gi_page x)) in Hc by lia. by rewrite !take_ge in Hc by lia.
Qed.

(** The description does not change the database: the words are not pointers. *)
Lemma cached_db `{HP : Params} s D L r r' np gn nref ps ds : db s D L r → declared_roots s → cached (root s) r' np gn nref ps ds →
  db (set_root r' s) D L r.
Proof.
  intros Hdb [Hl Hix] [C1 C2 _ _ _ _ _]. apply db_words; [exact Hdb|exact C1|]. intros i x Hx.
  change (root_ix_num ROOT_IX_youngest_generation_number_of_pages) with 40%nat in C2.
  destruct (decide (i < 40)%nat) as [Hi|Hi]; [left; by rewrite <- C2|right].
  change (root_ix_num ROOT_IX_suspended_accu_type) with 7%nat. change (root_ix_num ROOT_IX_suspended_accu) with 8%nat.
  change NUMBER_OF_ROOT_IXS with 45. split; [lia|]. split; [lia|]. right.
  destruct (decide (45 ≤ i)%nat) as [|Hi']; [right; lia|left].
  assert (Hcase : i = 40%nat ∨ i = 41%nat ∨ i = 42%nat ∨ i = 43%nat ∨ i = 44%nat) by lia.
  assert (Hn : ∀ x v, root_def x = ROOT_WORD v → ix_is_ptr s !! root_ix_num x ≠ Some true) by (intros y v E; by rewrite Hix, E).
  destruct Hcase as [-> |[-> |[-> |[-> | ->]]]].
  - exact (Hn ROOT_IX_youngest_generation_number_of_pages _ eq_refl).
  - exact (Hn ROOT_IX_youngest_generation_number _ eq_refl).
  - exact (Hn ROOT_IX_youngest_generation_number_of_referring_ptrs _ eq_refl).
  - exact (Hn ROOT_IX_youngest_generation_page_number0 _ eq_refl).
  - exact (Hn ROOT_IX_youngest_generation_disk_page_number0 _ eq_refl).
Qed.

(** * The first generation is made empty *)

Lemma db_cleared `{HP : Params} s s' D L r m : db s D L r → ly_first D = ∅ →
  s' = set_fg_can (first_generation_start s) (set_fg_ptr (first_generation_start s) (set_mem m s)) → wf s' →
  (∀ a, a < first_generation_end s → m !! a = mem s !! a) → db s' D L r.
Proof.
  intros Hdb EF -> Hwf Hm. set (s' := set_fg_can _ _) in *.
  pose proof Hdb as [[W1 W2 W3 W4 W5 W6] Ht [P1 P2 P3 P4 P5] Hc Hy Hr Hret Hf Hd Hro].
  assert (Hg : ∀ x, is_Some (ly_cells D !! x) → gen_of s' x = gen_of s x) by (intros x _; reflexivity).
  assert (Hpage : ∀ pn pg i, zlookup (page_info (gc s)) pn = Some pg → 0 ≤ i < N → mem s' !! (PAGE_SIZE * pn + 4 * i) = mem s !! (PAGE_SIZE * pn + 4 * i)).
  { intros pn pg i [Hpn _]%zlookup_Some Hi. apply Hm. change N with 16384 in *. change PAGE_SIZE with 65536 in *. lia. }
  split.
  - by split.
  - exact Ht.
  - split; [|exact P2| |exact P4|exact P5].
    + destruct P1 as [Q1 Q2 Q3 Q4]. split; [exact Q1|exact Q2| |exact Q4]. intros pn Hpn. destruct (pool_page _ _ _ (Build_pool _ _ Q1 Q2 Q3 Q4) Hpn) as (_ & pg & Hpg & _).
      eapply virgin_page_same; [|by apply Q3]. intros a Ha. apply Hm. apply zlookup_Some in Hpg as [Hr' _].
      unfold in_page in Ha. change PAGE_SIZE with 65536 in *. lia.
    + intros g x pn H1 H2 H3. destruct (P3 g x pn H1 H2 H3) as ([U1 U2 U3] & pg & Hpg & H4). split; [|by exists pg]. split.
      * pose proof (Hpage pn pg 0 Hpg ltac:(done)) as E. rewrite Z.mul_0_r, Z.add_0_r in E. by rewrite E.
      * intros i Hi. rewrite (Hpage pn pg i Hpg Hi). by apply U2.
      * exact U3.
  - eapply cells_ok_same; [exact Hg|exact Hc| |done|].
    + intros p ws i x Hp Hx. apply Hm. destruct (cell_bounds _ _ _ _ Hdb p ws Hp) as [_ He]. apply lookup_lt_Some in Hx. lia.
    + intros g x _ Hx. by exists x.
  - rewrite EF. split.
    + by intros p ws ?%lookup_empty_Some.
    + by intros p1 ws1 p2 ws2 ?%lookup_empty_Some.
    + change (total_words ∅) with 0. cbn [s' first_generation_start first_generation_allocation_ptr set_fg_can set_fg_ptr set_mem]. lia.
  - eapply rems_ok_same; [exact Hg|exact Hc|exact Hr|]. intros g x _ Hx. by exists x.
  - exact Hret.
  - exact Hf.
  - exact Hd.
  - by eapply roots_ok_same.
Qed.

Lemma wp_clear_db `{HP : Params} s D L r (Q : unit → state → Prop) : db s D L r → ly_first D = ∅ →
  (∀ m, let s' := set_fg_can (first_generation_start s) (set_fg_ptr (first_generation_start s) (set_mem m s)) in db s' D L r → Q tt s') →
  wp clear_first_generation Q s.
Proof.
  intros Hdb EF HQ. eapply wp_clear_first_generation_all; [apply (db_bounds _ _ _ _ Hdb)|]. intros m Hwf Hm. apply HQ.
  by eapply db_cleared.
Qed.
