(* ===== verification/Twice.v ===== *)
(** Generations that were collected twice cease to exist: their disk pages and their
    entries are free again (shades.c, [mark_twice_collected_generations_nonexistent]). *)

From S2P Require Import Prelude Generations Machine Celltypes Shades Root Bitops Cells Pages Genlist Smartptr Io Copy Forward Copying Drain Roots Copied Chain Retire Commit Mature Choose Remember.

#[local] Abbreviation N := NUMBER_OF_WORDS_PER_PAGE.
#[local] Abbreviation INV := INVALID_GENERATION_NUMBER.

(** The pages [ds] were freed: the disk had [A] and has [A']. *)
Definition pages_gone (ds : list Z) (A A' : gmap Z (list Z)) : Prop := ∀ d, A' !! d = if decide (d ∈ ds) then None else A !! d.

Lemma pages_gone_nil A : pages_gone [] A A.
Proof. intros d. rewrite decide_False; [done|]. apply not_elem_of_nil. Qed.

Lemma pages_gone_snoc ds d A A' : pages_gone ds A A' → pages_gone (ds ++ [d]) A (delete d A').
Proof.
  intros H e. destruct (decide (e = d)) as [->|Hne].
  - rewrite lookup_delete_eq, decide_True; [done|]. apply elem_of_app. right. by left.
  - rewrite lookup_delete_ne by done. rewrite H. assert (Hiff : e ∈ ds ++ [d] ↔ e ∈ ds) by (rewrite elem_of_app, list_elem_of_singleton; tauto).
    destruct (decide (e ∈ ds)); [by rewrite decide_True by tauto|by rewrite decide_False by tauto].
Qed.

Lemma pages_gone_app ds ds' A A' A'' : pages_gone ds A A' → pages_gone ds' A' A'' → pages_gone (ds ++ ds') A A''.
Proof.
  intros H1 H2 d. rewrite H2, H1. destruct (decide (d ∈ ds')) as [Hd'|Hd'].
  - rewrite decide_True; [done|]. apply elem_of_app. by right.
  - destruct (decide (d ∈ ds)) as [Hd|Hd].
    + rewrite decide_True; [done|]. apply elem_of_app. by left.
    + rewrite decide_False; [done|]. by intros [|]%elem_of_app.
Qed.

Lemma wp_free_disk_pages `{HP : Params} ds x A r s (Q : unit → state → Prop) : disk x A r → NoDup ds → (∀ d, d ∈ ds → is_Some (A !! d)) →
  (∀ x' A', disk x' A' r → pages_gone ds A A' → length (file x') = length (file x) →
    number_of_free_disk_pages x' = number_of_free_disk_pages x + Z.of_nat (length ds) → Q tt (put_io x' s)) →
  wp (for_ (length ds) (λ i _, d ← of_option (zlookup ds (Z.of_nat i)); io_free_disk_page d) tt) Q (put_io x s).
Proof.
  intros Hx Hnd Hds HQ.
  eapply wp_for with (I := λ k _ s', ∃ x' A', s' = put_io x' s ∧ disk x' A' r ∧ pages_gone (take k ds) A A' ∧
    length (file x') = length (file x) ∧ number_of_free_disk_pages x' = number_of_free_disk_pages x + Z.of_nat k).
  - exists x, A. split; [done|]. split; [done|]. split; [apply pages_gone_nil|]. split; [done|lia].
  - intros k _ s' Hk (x' & A' & -> & Hx' & Hg & Hl & Hn). destruct (lookup_lt_is_Some_2 ds k Hk) as [d Hd].
    apply wp_bind. eapply wp_of_option; [apply zlookup_Some; rewrite Nat2Z.id; split; [lia|exact Hd]|].
    eapply wp_io_free_disk_page; [exact Hx'| |].
    + rewrite Hg, decide_False; [apply Hds; by eapply list_elem_of_lookup_2|]. intros [i Hi]%list_elem_of_lookup.
      pose proof (lookup_lt_Some _ _ _ Hi) as Hlt. rewrite length_take in Hlt. rewrite lookup_take_lt in Hi by lia.
      pose proof (NoDup_lookup _ _ _ _ Hnd Hi Hd). lia.
    + intros x2 Hx2 Hl2 Hn2. exists x2, (delete d A'). split; [done|]. split; [exact Hx2|]. rewrite (take_S_r _ _ _ Hd).
      split; [by apply pages_gone_snoc|]. split; [congruence|lia].
  - intros [] s' (x' & A' & -> & Hx' & Hg & Hl & Hn). rewrite take_ge in Hg by lia. by eapply HQ.
Qed.

(** * The generations *)

(** The variables after the generations [C] were cleared. *)
Definition cleared (n : Z) (t' : list generation_info_t) (x : io_state) (s : state) : state :=
  put_io x (set_gc (set_number_of_nonexistent_generations n (set_generation_info t' (gc s))) s).

Record clearing (t t' : list generation_info_t) (C : list Z) : Prop := {
  cg_length : length t' = length t;
  cg_other i : i ∉ C → zlookup t' i = zlookup t i;
  cg_gone i y : i ∈ C → zlookup t i = Some y → zlookup t' i = Some (with_status NONEXISTENT y);
  cg_count : length (filter nonexistent t') = (length (filter nonexistent t) + length C)%nat
}.

Lemma filter_insert_more {A} (P : A → Prop) `{∀ x, Decision (P x)} (l : list A) i x y : l !! i = Some x → ¬ P x → P y →
  length (filter P (<[i := y]> l)) = S (length (filter P l)).
Proof.
  intros Hi Hx Hy. rewrite <- (take_drop_middle _ _ _ Hi) at 2. rewrite (insert_take_drop l i y) by by eapply lookup_lt_Some.
  rewrite !filter_app, !filter_cons, decide_True, decide_False by done. rewrite !length_app. simpl. lia.
Qed.

Lemma clearing_nil t : clearing t t [].
Proof. split; [done|done| |simpl; lia]. by intros i y ?%not_elem_of_nil. Qed.

Lemma clearing_snoc t t' C g y : clearing t t' C → g ∉ C → zlookup t g = Some y → ¬ nonexistent y → clearing t (zinsert g (with_status NONEXISTENT y) t') (C ++ [g]).
Proof.
  intros [C1 C2 C3 C4] Hg Hy Hn. apply zlookup_Some in Hy as Hr. destruct Hr as [Hr _]. split.
  - by rewrite length_zinsert.
  - intros i [Hi Hi']%not_elem_of_app. rewrite zlookup_insert_ne; [by apply C2|lia|]. intros ->. apply Hi'. by left.
  - intros i z [Hi| ->%list_elem_of_singleton]%elem_of_app Hz.
    + rewrite zlookup_insert_ne; [by apply C3|lia|]. by intros ->.
    + rewrite zlookup_insert by by rewrite C1. congruence.
  - rewrite <- (C2 g Hg) in Hy. apply zlookup_Some in Hy as [_ Hy]. unfold zinsert. rewrite (filter_insert_more _ _ _ _ _ Hy Hn) by done.
    rewrite C4, length_app. simpl. lia.
Qed.

Lemma wp_mark_twice `{HP : Params} fuel s tw A r (Q : unit → state → Prop) :
  follows gi_next_collected_twice (generation_info (gc s)) (generations_collected_twice (gc s)) tw → NoDup tw → (length tw < fuel)%nat →
  disk (io (gc s)) A r → NoDup (concat (disk_pages (generation_info (gc s)) <$> tw)) →
  (∀ d, d ∈ concat (disk_pages (generation_info (gc s)) <$> tw) → is_Some (A !! d)) →
  (∀ g y, g ∈ tw → zlookup (generation_info (gc s)) g = Some y → gi_npages y = Z.of_nat (length (gi_disk_page y)) ∧ ¬ nonexistent y) →
  (∀ t' x A' m, clearing (generation_info (gc s)) t' tw → disk x A' r →
    pages_gone (concat (disk_pages (generation_info (gc s)) <$> tw)) A A' → length (file x) = length (file (io (gc s))) →
    number_of_free_disk_pages (io (gc s)) ≤ number_of_free_disk_pages x →
    m = number_of_nonexistent_generations (gc s) + Z.of_nat (length tw) →
    let s' := cleared m t' x s in Q tt (set_gc (set_generations_collected_twice INV (gc s')) s')) →
  wp (mark_twice_collected_generations_nonexistent fuel) Q s.
Proof.
  intros Hf Hnd Hfuel Hd Hndd Hst Hn HQ. set (t := generation_info (gc s)) in *. unfold mark_twice_collected_generations_nonexistent.
  apply wp_bind, wp_gcs, wp_bind.
  eapply wp_loop with (n := length tw) (I := λ k g s', ∃ C C' t' x A' m, tw = C ++ C' ∧ k = length C' ∧ s' = cleared m t' x s ∧
    follows gi_next_collected_twice t g C' ∧ clearing t t' C ∧ disk x A' r ∧ pages_gone (concat (disk_pages t <$> C)) A A' ∧
    length (file x) = length (file (io (gc s))) ∧ number_of_free_disk_pages (io (gc s)) ≤ number_of_free_disk_pages x ∧
    m = number_of_nonexistent_generations (gc s) + Z.of_nat (length C)); [exact Hfuel| |].
  { exists [], tw, t, (io (gc s)), A, (number_of_nonexistent_generations (gc s)). split; [done|]. split; [done|].
    split; [unfold cleared, put_io, t; by destruct s as [? ? ? ? ? ? ? ? []]|]. split; [exact Hf|]. split; [apply clearing_nil|].
    split; [done|]. split; [apply pages_gone_nil|]. split; [done|]. split; [done|]. simpl. lia. }
  intros k g s' (C & C' & t' & x & A' & m & EC & -> & -> & Hfo & Hcl & Hx & Hg & Hl & Hfr & ->). destruct C' as [|g' C'].
  - simpl in Hfo. subst g. rewrite bool_decide_eq_false_2 by (intros E; by apply E). rewrite app_nil_r in EC. subst C. apply wp_ret, wp_set_gcs.
    by eapply HQ.
  - destruct Hfo as (-> & Hg' & y & Hy & Hfo). rewrite bool_decide_eq_true_2 by done. rewrite EC in Hnd.
    assert (HgC : g' ∉ C) by (apply NoDup_app in Hnd as (_ & Hdj & _); intros Hin; apply (Hdj g' Hin); by left).
    assert (Hgt : g' ∈ tw) by (rewrite EC; apply elem_of_app; right; by left).
    assert (Hy' : zlookup t' g' = Some y) by by rewrite (cg_other _ _ _ Hcl).
    apply zlookup_Some in Hy' as Hr. destruct Hr as [Hr _].
    apply wp_bind. eapply wp_put_gen; [exact Hy'|]. apply wp_bind, wp_gcs, wp_bind, wp_set_gcs.
    set (t2 := zinsert g' (with_status NONEXISTENT y) t').
    change (set_gc _ _) with (cleared (number_of_nonexistent_generations (gc s) + Z.of_nat (length C) + 1) t2 x s).
    assert (Hy2 : zlookup t2 g' = Some (with_status NONEXISTENT y)) by by apply zlookup_insert.
    apply wp_bind. eapply wp_get_gen; [exact Hy2|]. cbn [gi_npages gi_disk_page with_status]. destruct (Hn g' y Hgt Hy) as [Hnp Hnex]. rewrite Hnp, Nat2Z.id.
    assert (Edp : disk_pages t g' = gi_disk_page y) by (unfold disk_pages; by rewrite Hy).
    rewrite EC, fmap_app, concat_app in Hndd. cbn [fmap list_fmap concat] in Hndd. rewrite Edp in Hndd.
    apply NoDup_app in Hndd as (_ & Hdj & (Hndg & _)%NoDup_app).
    apply wp_bind. eapply wp_free_disk_pages; [exact Hx|exact Hndg| |].
    { intros d Hd'. rewrite Hg, decide_False.
      - apply Hst. rewrite EC, fmap_app, concat_app. apply elem_of_app. right. cbn [fmap list_fmap concat]. rewrite Edp. apply elem_of_app. by left.
      - intros Hin. apply (Hdj d Hin), elem_of_app. by left. }
    intros x2 A2 Hx2 Hg2 Hl2 Hn2. apply wp_bind. eapply wp_get_gen; [exact Hy2|]. apply wp_ret. cbn [gi_next_collected_twice with_status].
    exists (length C'). split; [simpl; lia|].
    exists (C ++ [g']), C', t2, x2, A2, (number_of_nonexistent_generations (gc s) + Z.of_nat (length C) + 1).
    split; [by rewrite EC, <- app_assoc|]. split; [done|]. split; [done|]. split; [exact Hfo|]. split; [by apply clearing_snoc|].
    split; [exact Hx2|]. split.
    + rewrite fmap_app, concat_app. cbn [fmap list_fmap concat]. rewrite Edp, app_nil_r. by eapply pages_gone_app.
    + split; [congruence|]. split; [lia|]. rewrite length_app. simpl. lia.
Qed.

Definition no_twice (A' : gmap Z (list Z)) (D : layout) : layout :=
  Layout (ly_new D) (ly_being D) (ly_await D) (ly_old D) (ly_cells D) (ly_first D) (ly_smart D) (ly_free D) (ly_from D) [] A'.

Section cleared.
Context `{HP : Params} (s : state) (D : layout) (L : list Z) (r : list Z) (Hdb : db s D L r) (EC : ly_being D = []).
#[local] Abbreviation t := (generation_info (gc s)).
#[local] Abbreviation tw := (ly_twice D).
Context (t' : list generation_info_t) (x : io_state) (A' : gmap Z (list Z)) (m : Z).
Context (Hcl : clearing t t' tw) (Hx : disk x A' r) (Hgone : pages_gone (concat (disk_pages t <$> tw)) (ly_disk D) A').
Context (Hm : m = number_of_nonexistent_generations (gc s) + Z.of_nat (length tw)).
#[local] Abbreviation s' := (set_gc (set_generations_collected_twice INV (gc (cleared m t' x s))) (cleared m t' x s)).

Lemma cleared_not_twice g : g ∈ ly_gens D ∨ g ∈ concat (ly_from D <$> ly_gens D) → g ∉ tw.
Proof.
  intros Hg Htw. assert (Hb : g ∉ ly_being D) by (rewrite EC; apply not_elem_of_nil). destruct Hg as [Hg|Hg].
  - eapply (retired_not_gen _ _ _ _ Hdb g); [apply elem_of_app; by right|exact Hb|exact Hg].
  - pose proof (rd_nodup _ _ _ _ _ _ _ (db_retired _ _ _ _ Hdb)) as Hnd. apply NoDup_app in Hnd as (_ & _ & (_ & Hd & _)%NoDup_app).
    by apply (Hd g).
Qed.

Lemma cleared_entry g : g ∈ ly_gens D ∨ g ∈ concat (ly_from D <$> ly_gens D) → zlookup t' g = zlookup t g.
Proof. intros Hg. apply (cg_other _ _ _ Hcl). by apply cleared_not_twice. Qed.

Lemma cleared_twice_entry g y : g ∈ tw → zlookup t g = Some y → ¬ nonexistent y.
Proof.
  intros Hg Hy. unfold nonexistent. by rewrite (rd_status _ _ _ _ _ _ _ (db_retired _ _ _ _ Hdb) g y Hg Hy).
Qed.

Lemma cleared_table : table_ok (gc s') (ly_new D) (ly_being D) (ly_await D) (ly_old D).
Proof.
  pose proof (db_table _ _ _ _ Hdb) as [T1 T2 T3 T4 T5 T6 T7 T8].
  assert (HE : ∀ g, g ∈ ly_gens D → zlookup t' g = zlookup t g) by (intros g Hg; apply cleared_entry; by left). split.
  - destruct T1 as [G1 G2 G3]. split; cbn; rewrite ?(cg_length _ _ _ Hcl); [done|done|]. rewrite (cg_count _ _ _ Hcl), Hm, G3. lia.
  - exact T2.
  - exact T3.
  - eapply chain_same; [exact T2|exact T4|]. intros g y Hg Hy. exists y. split; [|done]. cbn. by rewrite HE.
  - exact T5.
  - intros g y Hg Hy. apply (T6 g y Hg). cbn in Hy. rewrite HE in Hy; [exact Hy|]. unfold ly_gens. rewrite !elem_of_app in *. tauto.
  - intros g y Hg Hy. apply (T7 g y Hg). cbn in Hy. rewrite HE in Hy; [exact Hy|]. unfold ly_gens. rewrite !elem_of_app in *. tauto.
  - intros g y Hg Hy. apply (T8 g y Hg). cbn in Hy. rewrite HE in Hy; [exact Hy|]. unfold ly_gens. rewrite !elem_of_app in *. tauto.
Qed.

Lemma cleared_retired : retired_ok (gc s') (ly_new D) (ly_being D) (ly_await D) (ly_old D) (ly_from D) [].
Proof.
  pose proof (db_retired _ _ _ _ Hdb) as [R1 R2 R3 R4 R5 R6].
  assert (Hfr : ∀ g i, g ∈ ly_gens D → i ∈ ly_from D g → i ∈ concat (ly_from D <$> ly_gens D)).
  { intros g i Hg Hi. apply list_elem_of_In, in_concat. exists (ly_from D g). split; apply list_elem_of_In; [|done]. by apply list_elem_of_fmap_2. }
  split.
  - intros g y Hg Hy. cbn in Hy. rewrite cleared_entry in Hy by by left. eapply follows_same; [|by apply (R1 g y)].
    intros i z Hi Hz. exists z. split; [|done]. cbn. rewrite cleared_entry; [done|]. right. by eapply Hfr.
  - done.
  - rewrite app_nil_r. rewrite app_assoc in R3. by apply NoDup_app in R3 as (? & _).
  - exact R4.
  - intros g y Hg Hb Hy. cbn in Hy. rewrite cleared_entry in Hy by by right. by apply (R5 g).
  - by intros g y ?%not_elem_of_nil.
Qed.

Lemma cleared_filing : filing (gc s') (ly_filed (no_twice A' D)) A'.
Proof.
  pose proof (db_filing _ _ _ _ Hdb) as [F1 F2 F3].
  assert (EF : ly_filed D = ly_filed (no_twice A' D) ++ tw).
  { unfold ly_filed. cbn [no_twice ly_twice]. rewrite app_nil_r. by rewrite <- app_assoc. }
  assert (HE : ∀ g, g ∈ ly_filed (no_twice A' D) → zlookup t' g = zlookup t g).
  { intros g [Hg|Hg]%elem_of_app; apply cleared_entry; [left; by apply live_gens|right]. cbn [no_twice ly_twice] in Hg. by rewrite app_nil_r in Hg. }
  assert (Edp : disk_pages t' <$> ly_filed (no_twice A' D) = disk_pages t <$> ly_filed (no_twice A' D)).
  { apply list_fmap_ext. intros i g Hg. unfold disk_pages. rewrite HE; [done|]. by eapply list_elem_of_lookup_2. }
  rewrite EF, fmap_app, concat_app in F1. apply NoDup_app in F1 as (F1 & Fd & _). split.
  - change (generation_info (gc s')) with t'. rewrite Edp. exact F1.
  - change (generation_info (gc s')) with t'. rewrite Edp. intros d Hd. rewrite Hgone, decide_False by by apply Fd.
    apply F2. rewrite EF, fmap_app, concat_app. apply elem_of_app. by left.
  - intros g y Hg Hy. change (generation_info (gc s')) with t' in Hy. rewrite HE in Hy by done. apply (F3 g y); [|done].
    rewrite EF. apply elem_of_app. by left.
Qed.

Lemma cleared_db : db s' (no_twice A' D) L r.
Proof.
  pose proof Hdb as [[W1 W2 W3 W4 W5 W6] Ht [P1 P2 P3 P4 P5] Hc Hy Hr Hret Hf Hd Hro].
  assert (Hg : ∀ x, is_Some (ly_cells D !! x) → gen_of s' x = gen_of s x) by (intros z _; reflexivity).
  assert (HE : ∀ g, g ∈ ly_gens D → zlookup t' g = zlookup t g) by (intros g Hg'; apply cleared_entry; by left). split.
  - split; try done. by eapply wf_same.
  - exact cleared_table.
  - split; [by eapply pool_frame| | | |exact P5].
    + intros g y Hg' Hy'. cbn in Hy'. rewrite HE in Hy' by done. by apply (P2 g).
    + intros g y pn Hg' Hy' Hpn. cbn in Hy'. rewrite HE in Hy' by done. destruct (P3 g y pn Hg' Hy' Hpn) as ([U1 U2 U3] & H4).
      split; [by split|exact H4].
    + intros pn pg Hpg Hal. destruct (P4 pn pg Hpg Hal) as [Hg' Hin]. split; [exact Hg'|]. intros y Hy'. cbn in Hy'.
      rewrite HE in Hy' by done. by apply Hin.
  - eapply cells_ok_same; [exact Hg|exact Hc|done|done|]. intros g y Hg' Hy'. cbn in Hy'. rewrite HE in Hy' by by apply live_gens. by exists y.
  - by eapply young_ok_same; [exact Hg|exact Hy|..].
  - eapply rems_ok_same; [exact Hg|exact Hc|exact Hr|]. intros g y Hg' Hy'. cbn in Hy'.
    rewrite HE in Hy'; [by exists y|]. unfold ly_gens. rewrite !elem_of_app. auto.
  - exact cleared_retired.
  - exact cleared_filing.
  - exact Hx.
  - by eapply roots_ok_same.
Qed.
End cleared.

Lemma wp_mark_twice_db `{HP : Params} fuel s D L r (Q : unit → state → Prop) : db s D L r → ly_being D = [] → (length (ly_twice D) < fuel)%nat →
  (∀ t' x A' m, db (set_gc (set_generations_collected_twice INV (gc (cleared m t' x s))) (cleared m t' x s)) (no_twice A' D) L r →
    length t' = length (generation_info (gc s)) → length (file x) = length (file (io (gc s))) →
    number_of_free_disk_pages (io (gc s)) ≤ number_of_free_disk_pages x →
    number_of_nonexistent_generations (gc s) ≤ m → (∀ g, g ∈ ly_gens D → zlookup t' g = zlookup (generation_info (gc s)) g) →
    Q tt (set_gc (set_generations_collected_twice INV (gc (cleared m t' x s))) (cleared m t' x s))) →
  wp (mark_twice_collected_generations_nonexistent fuel) Q s.
Proof.
  intros Hdb EC Hfuel HQ. pose proof (db_filing _ _ _ _ Hdb) as [F1 F2 F3]. pose proof (db_retired _ _ _ _ Hdb) as [R1 R2 R3 R4 R5 R6].
  unfold ly_filed in F1, F2, F3. rewrite !fmap_app, !concat_app in F1.
  eapply (wp_mark_twice fuel s (ly_twice D)); [exact R2| |exact Hfuel|apply (db_disk _ _ _ _ Hdb)| | | |].
  - by apply NoDup_app in R3 as (_ & _ & (_ & _ & R3)%NoDup_app).
  - by apply NoDup_app in F1 as (_ & _ & (_ & _ & F1)%NoDup_app).
  - intros d Hd. apply F2. rewrite !fmap_app, !concat_app, !elem_of_app. auto.
  - intros g y Hg Hy. split; [apply (F3 g y); [rewrite !elem_of_app; auto|done]|by eapply cleared_twice_entry].
  - intros t' x A' m Hcl Hx Hgone Hl Hfr Hm. apply (HQ t' x A' m).
    + eapply cleared_db; [exact Hdb|exact EC|exact Hcl|exact Hx|exact Hgone|exact Hm].
    + apply (cg_length _ _ _ Hcl).
    + exact Hl.
    + exact Hfr.
    + lia.
    + intros g Hg. eapply cleared_entry; [exact Hdb|exact EC|exact Hcl|by left].
Qed.
