(* ===== verification/View.v ===== *)
(** What a program sees of the database through the root block and the smart
    pointers: the data of the cells at the ends of paths, and which paths lead to the
    same cell.  Collections change addresses but not what is seen. *)

From S2P Require Import Prelude Generations Machine Celltypes Shades Root Bitops Cells Pages Genlist Smartptr Io Copy Forward Copying Drain Roots Copied Chain Retire Commit Mature Choose Remember Relocate.

(** * Paths *)

(** The address at the end of the path [π], the positions of the pointers to follow. *)
Fixpoint walk (C : gmap Z (list Z)) (x : Z) (π : list nat) : option Z :=
  match π with
  | [] => Some x
  | i :: π => ws ← C !! x; if ref_at ws i then y ← ws !! i; walk C y π else None
  end.

(** The words of a cell without its pointers, and what is at the end of a path. *)
Definition data (ws : list Z) : list (option Z) := imap (λ i w, if ref_at ws i then None else Some w) ws.
Definition sight (C : gmap Z (list Z)) (x : Z) (π : list nat) : option (list (option Z)) :=
  y ← walk C x π; ws ← C !! y; Some (data ws).

Lemma data_forward φ ws : aligned_map φ → data (forward_words φ ws) = data ws.
Proof.
  intros Hφ. apply list_eq. intros i. unfold data. rewrite !list_lookup_imap, lookup_forward_words.
  destruct (ws !! i) as [x|]; [|done]. simpl. rewrite (forward_words_ref φ Hφ). unfold forward_at. by destruct (ref_at ws i).
Qed.

Section iso.
Context (C C' : gmap Z (list Z)) (φ : gmap Z Z) (Hφ : aligned_map φ) (R : Z → Prop).
Context (Hstep : ∀ p ws i x, R p → C !! p = Some ws → ref_at ws i = true → ws !! i = Some x → R x).
Context (Hcell : ∀ p, R p → C' !! forward φ p = forward_words φ <$> C !! p).
Context (Hinj : ∀ p q, R p → R q → forward φ p = forward φ q → p = q).

Lemma walk_stays x π y : R x → walk C x π = Some y → R y.
Proof.
  revert x. induction π as [|i π IH]; intros x HR; [by intros [= <-]|]. simpl. destruct (C !! x) as [ws|] eqn:Ex; [|done]. simpl.
  destruct (ref_at ws i) eqn:Er; [|done]. destruct (ws !! i) as [z|] eqn:Ez; [|done]. simpl. apply IH. by eapply Hstep.
Qed.

Lemma walk_forward x π : R x → walk C' (forward φ x) π = forward φ <$> walk C x π.
Proof.
  revert x. induction π as [|i π IH]; intros x HR; [done|]. simpl. rewrite (Hcell x HR). destruct (C !! x) as [ws|] eqn:Ex; [|done]. simpl.
  rewrite (forward_words_ref φ Hφ), lookup_forward_words. destruct (ref_at ws i) eqn:Er; [|done].
  destruct (ws !! i) as [z|] eqn:Ez; [|done]. simpl. unfold forward_at. rewrite Er. apply IH. by eapply Hstep.
Qed.

Lemma sight_forward x π : R x → sight C' (forward φ x) π = sight C x π.
Proof.
  intros HR. unfold sight. rewrite (walk_forward x π HR). destruct (walk C x π) as [y|] eqn:Ey; [|done]. simpl.
  pose proof (walk_stays x π y HR Ey) as HRy. rewrite (Hcell y HRy). destruct (C !! y) as [ws|]; [|done]. simpl. by rewrite data_forward.
Qed.

Lemma walk_same x π y ρ : R x → R y → walk C' (forward φ x) π = walk C' (forward φ y) ρ ↔ walk C x π = walk C y ρ.
Proof.
  intros HRx HRy. rewrite !walk_forward by done. destruct (walk C x π) as [p|] eqn:Ep, (walk C y ρ) as [q|] eqn:Eq; simpl; try done.
  pose proof (walk_stays _ _ _ HRx Ep). pose proof (walk_stays _ _ _ HRy Eq). split; [intros [= E]; f_equal; by apply Hinj|by intros [= ->]].
Qed.
End iso.

(** * Views *)

Definition all_cells (D : layout) : gmap Z (list Z) := ly_cells D ∪ ly_first D.

(** The locations [P] show the same in both databases. *)
Record same_view (P : location → Prop) (s : state) (D : layout) (s' : state) (D' : layout) : Prop := {
  sv_loc pp x : P pp → loc_get pp s = Some x → is_Some (loc_get pp s');
  sv_sight pp x x' π : P pp → loc_get pp s = Some x → loc_get pp s' = Some x' → sight (all_cells D') x' π = sight (all_cells D) x π;
  sv_same pp x x' π qq y y' ρ : P pp → P qq → loc_get pp s = Some x → loc_get pp s' = Some x' →
    loc_get qq s = Some y → loc_get qq s' = Some y' →
    walk (all_cells D') x' π = walk (all_cells D') y' ρ ↔ walk (all_cells D) x π = walk (all_cells D) y ρ
}.

Lemma same_view_refl P s D : same_view P s D s D.
Proof. split; [by eauto|congruence|]. intros. simplify_eq. done. Qed.

Lemma same_view_trans P s1 D1 s2 D2 s3 D3 : same_view P s1 D1 s2 D2 → same_view P s2 D2 s3 D3 → same_view P s1 D1 s3 D3.
Proof.
  intros [A1 A2 A3] [B1 B2 B3]. split.
  - intros pp x Hp Hx. destruct (A1 pp x Hp Hx) as [x2 Hx2]. by eapply B1.
  - intros pp x x3 π Hp Hx Hx3. destruct (A1 pp x Hp Hx) as [x2 Hx2]. rewrite (B2 pp x2 x3 π Hp Hx2 Hx3). by eapply A2.
  - intros pp x x3 π qq y y3 ρ Hp Hq Hx Hx3 Hy Hy3. destruct (A1 pp x Hp Hx) as [x2 Hx2]. destruct (A1 qq y Hq Hy) as [y2 Hy2].
    rewrite (B3 pp x2 x3 π qq y2 y3 ρ Hp Hq Hx2 Hx3 Hy2 Hy3). exact (A3 pp x x2 π qq y y2 ρ Hp Hq Hx Hx2 Hy Hy2).
Qed.

Lemma same_view_mono (P Q : location → Prop) s D s' D' : (∀ pp, Q pp → P pp) → same_view P s D s' D' → same_view Q s D s' D'.
Proof.
  intros HPQ [A1 A2 A3]. split.
  - intros pp x Hp. apply A1. by apply HPQ.
  - intros pp x x' π Hp. apply A2. by apply HPQ.
  - intros pp x x' π qq y y' ρ Hp Hq. apply A3; by apply HPQ.
Qed.

(** Cells that have the same addresses. *)
Lemma same_view_cells P s D s' D' : all_cells D' = all_cells D → (∀ pp x, P pp → loc_get pp s = Some x → loc_get pp s' = Some x) →
  same_view P s D s' D'.
Proof.
  intros Ec Hl. split; rewrite ?Ec.
  - intros pp x Hp Hx. exists x. by apply Hl.
  - intros pp x x' π Hp Hx Hx'. rewrite (Hl pp x Hp Hx) in Hx'. by injection Hx' as <-.
  - intros pp x x' π qq y y' ρ Hp Hq Hx Hx' Hy Hy'. rewrite (Hl pp x Hp Hx) in Hx'. rewrite (Hl qq y Hq Hy) in Hy'. by simplify_eq.
Qed.

Lemma same_view_iso P s D s' D' φ R : aligned_map φ →
  (∀ p ws i x, R p → all_cells D !! p = Some ws → ref_at ws i = true → ws !! i = Some x → R x) →
  (∀ p, R p → all_cells D' !! forward φ p = forward_words φ <$> all_cells D !! p) →
  (∀ p q, R p → R q → forward φ p = forward φ q → p = q) →
  (∀ pp x, P pp → loc_get pp s = Some x → R x ∧ loc_get pp s' = Some (forward φ x)) → same_view P s D s' D'.
Proof.
  intros Hφ H1 H2 H3 Hl. split.
  - intros pp x Hp Hx. destruct (Hl pp x Hp Hx) as [_ ->]. eauto.
  - intros pp x x' π Hp Hx Hx'. destruct (Hl pp x Hp Hx) as [HR E]. rewrite E in Hx'. injection Hx' as <-. by apply (sight_forward _ _ φ Hφ R).
  - intros pp x x' π qq y y' ρ Hp Hq Hx Hx' Hy Hy'. destruct (Hl pp x Hp Hx) as [HRx Ex]. destruct (Hl qq y Hq Hy) as [HRy Ey].
    rewrite Ex in Hx'. rewrite Ey in Hy'. injection Hx' as <-. injection Hy' as <-. by apply (walk_same _ _ φ Hφ R).
Qed.

(** * The database's cells *)

Section cells.
Context `{HP : Params} (s : state) (D : layout) (L : list Z) (r : list Z) (Hdb : db s D L r).

Lemma first_not_old x : is_Some (ly_first D !! x) → ly_cells D !! x = None.
Proof.
  intros [w Hw]. apply eq_None_not_Some. intros [w' Hw']. destruct (cell_bounds _ _ _ _ Hdb x w' Hw') as [_ He].
  pose proof (yc_place _ _ _ _ _ _ (yk_cell _ _ _ _ (db_young _ _ _ _ Hdb) x w Hw)).
  pose proof (wf_ap _ (bd_wf _ (db_bounds _ _ _ _ Hdb))). pose proof (oc_length _ _ _ _ _ (ck_cell _ _ _ (db_cells _ _ _ _ Hdb) _ _ Hw')). lia.
Qed.

Lemma all_cells_old x : is_Some (ly_cells D !! x) → all_cells D !! x = ly_cells D !! x.
Proof. intros [w Hw]. unfold all_cells. rewrite Hw. by apply lookup_union_Some_l. Qed.

Lemma all_cells_first x : is_Some (ly_first D !! x) → all_cells D !! x = ly_first D !! x.
Proof. intros Hx. unfold all_cells. by rewrite lookup_union_r by by apply first_not_old. Qed.

Lemma all_cells_cases x ws : all_cells D !! x = Some ws → ly_cells D !! x = Some ws ∨ ly_first D !! x = Some ws.
Proof. unfold all_cells. intros [|[_ ?]]%lookup_union_Some_raw; auto. Qed.

Lemma all_cells_in x : cell_in D x → is_Some (all_cells D !! x).
Proof. intros [Hx|Hx]; [by rewrite all_cells_old|by rewrite all_cells_first]. Qed.

Lemma old_place x ws : ly_cells D !! x = Some ws → x mod 4 = 0 ∧ 0 < x.
Proof. intros Hx. split; [apply (ck_cell _ _ _ (db_cells _ _ _ _ Hdb) _ _ Hx)|apply (cell_bounds _ _ _ _ Hdb x ws Hx)]. Qed.

Lemma no_null_cell : all_cells D !! NULL_WORD = None.
Proof.
  apply eq_None_not_Some. intros [ws [Hw|Hw]%all_cells_cases].
  - apply old_place in Hw. change NULL_WORD with 0 in Hw. lia.
  - pose proof (yc_place _ _ _ _ _ _ (yk_cell _ _ _ _ (db_young _ _ _ _ Hdb) _ ws Hw)) as [Hlo _].
    pose proof (wf_ap _ (bd_wf _ (db_bounds _ _ _ _ Hdb))). pose proof (wf_end _ (bd_wf _ (db_bounds _ _ _ _ Hdb))).
    change NULL_WORD with 0 in Hlo. lia.
Qed.

Lemma old_ref p ws i x : ly_cells D !! p = Some ws → ref_at ws i = true → ws !! i = Some x → is_Some (ly_cells D !! x).
Proof. intros Hp Hr Hx. by destruct (oc_refs _ _ _ _ _ (ck_cell _ _ _ (db_cells _ _ _ _ Hdb) _ _ Hp) i x Hr Hx). Qed.

Lemma first_ref p ws i x : ly_first D !! p = Some ws → ref_at ws i = true → ws !! i = Some x →
  is_Some (ly_first D !! x) ∨ is_Some (ly_cells D !! x) ∧ in_gens s L x.
Proof. intros Hp. apply (yc_refs _ _ _ _ _ _ (yk_cell _ _ _ _ (db_young _ _ _ _ Hdb) p ws Hp)). Qed.

Lemma root_target pp x : root_loc s (ly_smart D).*1 pp → loc_get pp s = Some x → x = NULL_WORD ∨ cell_in D x.
Proof. apply (ro_target _ _ _ (db_roots _ _ _ _ Hdb)). Qed.
End cells.
