(* ===== verification/Preserve.v ===== *)
(** Collections preserve what a program sees of the database. *)

From S2P Require Import Prelude Generations Machine Celltypes Shades Root Bitops Cells Pages Genlist Smartptr Io Copy Forward Copying Drain Roots Copied Collect Chain Retire Commit Mature Choose Remember Relocate Step Release Log MajorStep Gather View.

#[local] Abbreviation pinfo_ix := (root_ix_num ROOT_IX_generation_pinfo_list).

(** The data roots: the pointers of the root block and the smart pointers, without the
    memory management's own list. *)
Definition data_loc (s : state) (D : layout) (pp : location) : Prop :=
  root_loc s (ly_smart D).*1 pp ∧ pp ≠ RootWord (Z.of_nat pinfo_ix).

Lemma forward_words_same φ ws : (∀ i x, ref_at ws i = true → ws !! i = Some x → φ !! x = None) → forward_words φ ws = ws.
Proof.
  intros H. apply list_eq. intros i. rewrite lookup_forward_words. destruct (ws !! i) as [x|] eqn:Ex; [|done]. simpl. f_equal.
  unfold forward_at. destruct (ref_at ws i) eqn:Er; [|done]. apply forward_None. by eapply H.
Qed.

(** * A step of the mature collection *)

Section step.
Context `{HP : Params} (s s' : state) (D D' : layout) (L r : list Z) (B1 B2 : list Z) (gn : Z) (φ : gmap Z Z) (n : Z).
Context (Hdb : db s D L r) (HL : ∀ g, g ∈ L → g ∉ ly_await D) (HR : step_result s s' D D' L r B1 B2 gn φ n).
#[local] Abbreviation rel := (sr_relocation _ _ _ _ _ _ _ _ _ _ _ HR).
#[local] Abbreviation Hdb' := (sr_db _ _ _ _ _ _ _ _ _ _ _ HR).

Lemma step_aligned : aligned_map φ.
Proof.
  intros p q Hq. destruct (rn_copied _ _ _ _ _ _ _ rel p q Hq) as (ws & Hp & _ & Hq' & _).
  destruct (old_place _ _ _ _ Hdb p ws Hp). destruct (old_place _ _ _ _ Hdb' q _ Hq'). done.
Qed.

Lemma step_not_copied x : ly_cells D !! x = None ∨ ¬ in_gens s B1 x → φ !! x = None.
Proof.
  intros Hx. apply eq_None_not_Some. intros [q Hq]. destruct (rn_copied _ _ _ _ _ _ _ rel x q Hq) as (ws & Hp & Hin & _).
  destruct Hx as [Hx|Hx]; [congruence|by apply Hx].
Qed.

Lemma step_young_gens x : in_gens s L x → ¬ in_gens s B1 x.
Proof.
  rewrite !in_gens_iff. intros (g & Hg & HgL) (g' & Hg' & Hin). rewrite Hg in Hg'. injection Hg' as <-. apply (HL g HgL).
  destruct (sr_await _ _ _ _ _ _ _ _ _ _ _ HR) as (-> & _). apply elem_of_app. by left.
Qed.

(** What can be reached. *)
Definition step_live (x : Z) : Prop :=
  x = NULL_WORD ∨ cell_in D x ∧ (is_Some (ly_cells D !! x) → in_gens s B1 x → is_Some (φ !! x)).

Lemma step_live_ref p ws i x : step_live p → all_cells D !! p = Some ws → ref_at ws i = true → ws !! i = Some x → step_live x.
Proof.
  intros [->|[Hp Hlive]] Hw Hr Hx; [by rewrite (no_null_cell _ _ _ _ Hdb) in Hw|]. right. apply all_cells_cases in Hw as [Hw|Hw].
  - split; [left; eapply (old_ref _ _ _ _ Hdb); [exact Hw|exact Hr|exact Hx]|]. intros _ Hin.
    eapply (rn_closed _ _ _ _ _ _ _ rel p ws i x); [exact Hw| |exact Hr|exact Hx|exact Hin].
    destruct (decide (in_gens s B1 p)) as [Hb|Hb]; [right; apply Hlive; [by eexists|exact Hb]|by left].
  - destruct (first_ref _ _ _ _ Hdb p ws i x Hw Hr Hx) as [Hf|[Hc Hin]].
    + split; [by right|]. rewrite (first_not_old _ _ _ _ Hdb x Hf). by intros [].
    + split; [by left|]. intros _ Hb. by destruct (step_young_gens x Hin).
Qed.

Lemma step_first_same p ws : ly_first D !! p = Some ws → forward_words φ ws = ws.
Proof.
  intros Hp. apply forward_words_same. intros i x Hr Hx. apply step_not_copied.
  destruct (first_ref _ _ _ _ Hdb p ws i x Hp Hr Hx) as [Hf|[_ Hin]]; [left; by apply (first_not_old _ _ _ _ Hdb)|right; by apply step_young_gens].
Qed.

Lemma step_first_kept p ws : ly_first D !! p = Some ws → ly_first D' !! p = Some ws.
Proof.
  intros Hp. destruct (sr_logged _ _ _ _ _ _ _ _ _ _ _ HR) as (p0 & l & x & nref & _ & _ & Hn & _ & ->).
  rewrite lookup_insert_ne; [done|]. intros ->. congruence.
Qed.

Lemma step_live_cell p : step_live p → all_cells D' !! forward φ p = forward_words φ <$> all_cells D !! p.
Proof.
  intros [->|[Hp Hlive]].
  - rewrite (no_null_cell _ _ _ _ Hdb). rewrite (proj2 (forward_null φ step_aligned NULL_WORD)) by done. apply (no_null_cell _ _ _ _ Hdb').
  - destruct Hp as [Hp|Hp].
    + rewrite (all_cells_old D p Hp). destruct Hp as [ws Hp]. rewrite Hp. cbn [fmap option_fmap option_map].
      destruct (decide (in_gens s B1 p)) as [Hb|Hb].
      * destruct Hlive as [q Hq]; [by eexists|exact Hb|]. rewrite (forward_Some _ _ _ Hq).
        destruct (rn_copied _ _ _ _ _ _ _ rel p q Hq) as (ws' & Hp' & _ & Hq' & _). rewrite Hp in Hp'. injection Hp' as <-.
        rewrite all_cells_old; [exact Hq'|by eexists].
      * destruct (rn_kept _ _ _ _ _ _ _ rel p ws Hp Hb) as (Hn & Hp' & _). rewrite forward_None by exact Hn.
        rewrite all_cells_old; [exact Hp'|by eexists].
    + rewrite (all_cells_first _ _ _ _ Hdb p Hp). rewrite forward_None by (apply step_not_copied; left; by apply (first_not_old _ _ _ _ Hdb)).
      destruct Hp as [ws Hp]. rewrite Hp. cbn [fmap option_fmap option_map]. rewrite (step_first_same p ws Hp).
      pose proof (step_first_kept p ws Hp) as Hp'. rewrite (all_cells_first _ _ _ _ Hdb'); [exact Hp'|by eexists].
Qed.

(** Copies are at new addresses. *)
Lemma step_copy_new p q : φ !! p = Some q → step_live q → φ !! q = None → False.
Proof.
  intros Hq [->|[Hc Hlive]] Hn; destruct (rn_copied _ _ _ _ _ _ _ rel p _ Hq) as (ws & _ & _ & Hq' & Hg).
  - destruct (old_place _ _ _ _ Hdb' _ _ Hq') as [_ H0]. change NULL_WORD with 0 in H0. lia.
  - destruct Hc as [[w Hc]|[w Hc]].
    + destruct (decide (in_gens s B1 q)) as [Hb|Hb]; [destruct Hlive as [z Hz]; [by eexists|exact Hb|]; congruence|].
      destruct (rn_kept _ _ _ _ _ _ _ rel q w Hc Hb) as (_ & _ & E). rewrite Hg in E. symmetry in E.
      apply (sr_new _ _ _ _ _ _ _ _ _ _ _ HR). by eapply gen_of_gens.
    + pose proof (first_not_old _ _ _ _ Hdb' q ltac:(eexists; by apply step_first_kept)) as E. congruence.
Qed.

Lemma step_live_inj p q : step_live p → step_live q → forward φ p = forward φ q → p = q.
Proof.
  intros Hp Hq. unfold forward. destruct (φ !! p) as [p'|] eqn:Ep, (φ !! q) as [q'|] eqn:Eq; simpl.
  - intros <-. by eapply (rn_inj _ _ _ _ _ _ _ rel).
  - intros ->. by destruct (step_copy_new p q Ep Hq Eq).
  - intros ->. by destruct (step_copy_new q q' Eq Hp Ep).
  - done.
Qed.

Lemma step_view : same_view (data_loc s D) s D s' D'.
Proof.
  eapply (same_view_iso _ s D s' D' φ step_live step_aligned step_live_ref step_live_cell step_live_inj).
  intros pp x [Hpp Hne] Hx. split; [|by eapply (rn_roots _ _ _ _ _ _ _ rel)].
  destruct (root_target _ _ _ _ Hdb pp x Hpp Hx) as [->|Hc]; [by left|right]. split; [exact Hc|].
  intros Hold Hb. by eapply (rn_rooted _ _ _ _ _ _ _ rel pp x).
Qed.
End step.

(** * The collection of the first generation *)

Section gather.
Context `{HP : Params} (s s' : state) (D D' : layout) (L r r' : list Z) (gn : Z) (φ : gmap Z Z).
Context (Hdb : db s D L r) (Hdb' : db s' D' [] r') (HG : gathering s s' D D' gn φ).

Lemma gather_aligned : aligned_map φ.
Proof.
  intros p q Hq. destruct (gt_copied _ _ _ _ _ _ HG p q Hq) as (ws & Hp & Hq' & _).
  pose proof (yk_cell _ _ _ _ (db_young _ _ _ _ Hdb) p ws Hp) as Hy. pose proof (yc_place _ _ _ _ _ _ Hy) as [Hlo _].
  pose proof (wf_ap _ (bd_wf _ (db_bounds _ _ _ _ Hdb))). pose proof (wf_end _ (bd_wf _ (db_bounds _ _ _ _ Hdb))).
  destruct (old_place _ _ _ _ Hdb' q _ Hq') as [H1 H2]. split; [apply Hy|]. split; [done|]. lia.
Qed.

Lemma gather_not_copied x : ly_first D !! x = None → φ !! x = None.
Proof. intros Hx. apply eq_None_not_Some. intros [q Hq]. destruct (gt_copied _ _ _ _ _ _ HG x q Hq) as (ws & Hp & _). congruence. Qed.

Definition gather_reached (x : Z) : Prop := x = NULL_WORD ∨ is_Some (ly_cells D !! x) ∨ is_Some (φ !! x).

Lemma old_not_first x : is_Some (ly_cells D !! x) → ly_first D !! x = None.
Proof.
  intros [w Hw]. apply eq_None_not_Some. intros Hf. rewrite (first_not_old _ _ _ _ Hdb x Hf) in Hw. done.
Qed.

Lemma gather_reached_ref p ws i x : gather_reached p → all_cells D !! p = Some ws → ref_at ws i = true → ws !! i = Some x → gather_reached x.
Proof.
  intros [->|Hp] Hw Hr Hx; [by rewrite (no_null_cell _ _ _ _ Hdb) in Hw|]. right. apply all_cells_cases in Hw as [Hw|Hw].
  - left. by eapply (old_ref _ _ _ _ Hdb).
  - destruct Hp as [Hp|Hp]; [rewrite (first_not_old _ _ _ _ Hdb p ltac:(by eexists)) in Hp; by destruct Hp|].
    destruct (first_ref _ _ _ _ Hdb p ws i x Hw Hr Hx) as [Hf|[Hc _]]; [right|by left].
    apply (gt_reach _ _ _ _ _ _ HG). eapply reaches_field; [by apply (gt_reach _ _ _ _ _ _ HG)|exact Hw|exact Hr|exact Hx|exact Hf].
Qed.

Lemma gather_reached_cell p : gather_reached p → all_cells D' !! forward φ p = forward_words φ <$> all_cells D !! p.
Proof.
  intros [->|[Hp|[q Hq]]].
  - rewrite (no_null_cell _ _ _ _ Hdb). rewrite (proj2 (forward_null φ gather_aligned NULL_WORD)) by done. apply (no_null_cell _ _ _ _ Hdb').
  - rewrite (all_cells_old D p Hp), forward_None by by apply gather_not_copied, old_not_first. destruct Hp as [ws Hp].
    destruct (gt_kept _ _ _ _ _ _ HG p ws Hp) as [Hp' _]. rewrite Hp. cbn [fmap option_fmap option_map].
    rewrite all_cells_old by by eexists. rewrite Hp'. f_equal. symmetry. apply forward_words_same. intros i x Hr Hx.
    apply gather_not_copied, old_not_first. by eapply (old_ref _ _ _ _ Hdb).
  - destruct (gt_copied _ _ _ _ _ _ HG p q Hq) as (ws & Hp & Hq' & _). rewrite (forward_Some _ _ _ Hq).
    rewrite (all_cells_first _ _ _ _ Hdb) by by eexists. rewrite Hp. cbn [fmap option_fmap option_map]. rewrite all_cells_old; [exact Hq'|by eexists].
Qed.

Lemma gather_copy_new p q : φ !! p = Some q → gather_reached q → φ !! q = None → False.
Proof.
  intros Hq Hc Hn. destruct (gt_copied _ _ _ _ _ _ HG p _ Hq) as (ws & _ & Hq' & Hg). destruct Hc as [->|[[w Hc]|[z Hz]]]; [| |congruence].
  - destruct (old_place _ _ _ _ Hdb' _ _ Hq') as [_ H0]. change NULL_WORD with 0 in H0. lia.
  - destruct (gt_kept _ _ _ _ _ _ HG q w Hc) as [_ E]. rewrite Hg in E. symmetry in E.
    apply (gt_new _ _ _ _ _ _ HG). by eapply gen_of_gens.
Qed.

Lemma gather_reached_inj p q : gather_reached p → gather_reached q → forward φ p = forward φ q → p = q.
Proof.
  intros Hp Hq. unfold forward. destruct (φ !! p) as [p'|] eqn:Ep, (φ !! q) as [q'|] eqn:Eq; simpl.
  - intros <-. by eapply (gt_inj _ _ _ _ _ _ HG).
  - intros ->. by destruct (gather_copy_new p q Ep Hq Eq).
  - intros ->. by destruct (gather_copy_new q q' Eq Hp Ep).
  - done.
Qed.

Lemma gather_view : same_view (λ pp, root_loc s (ly_smart D).*1 pp) s D s' D'.
Proof.
  eapply (same_view_iso _ s D s' D' φ gather_reached gather_aligned gather_reached_ref gather_reached_cell gather_reached_inj).
  intros pp x Hpp Hx. split; [|by apply (gt_roots _ _ _ _ _ _ HG)].
  destruct (root_target _ _ _ _ Hdb pp x Hpp Hx) as [->|[Hc|Hf]]; [by left|right; by left|right; right].
  apply (gt_reach _ _ _ _ _ _ HG). apply reaches_root; [|exact Hf]. by exists pp.
Qed.
End gather.
