(* ===== verification/Mark.v ===== *)
(** The start of a collection of the mature generations (shades.c,
    [mark_major_gc_generations]): the youngest generations are marked. *)

From S2P Require Import Prelude Generations Machine Celltypes Shades Root Bitops Cells Pages Genlist Smartptr Io Copy Forward Copying Drain Roots Copied Chain Retire Commit Mature Choose Remember Relocate.

#[local] Abbreviation INV := INVALID_GENERATION_NUMBER.

(** The generations [B] were marked. *)
Record marking (t t' : list generation_info_t) (B : list Z) : Prop := {
  mk_length : length t' = length t;
  mk_in g x : g ∈ B → zlookup t g = Some x → zlookup t' g = Some (with_status TO_BE_COLLECTED x);
  mk_other g : g ∉ B → zlookup t' g = zlookup t g
}.

Lemma marking_nil t : marking t t [].
Proof. split; [done| |done]. by intros g x ?%not_elem_of_nil. Qed.

Lemma marking_snoc t t' B g x : marking t t' B → g ∉ B → zlookup t g = Some x →
  zlookup t' g = Some x ∧ marking t (zinsert g (with_status TO_BE_COLLECTED x) t') (B ++ [g]).
Proof.
  intros [M1 M2 M3] Hg Hx. assert (Hx' : zlookup t' g = Some x) by by rewrite M3. split; [done|].
  apply zlookup_Some in Hx' as Hr. destruct Hr as [Hr _]. split.
  - by rewrite length_zinsert.
  - intros i y [Hi| ->%list_elem_of_singleton]%elem_of_app Hy.
    + rewrite zlookup_insert_ne; [by apply M2|lia|]. by intros ->.
    + rewrite Hx in Hy. injection Hy as <-. by apply zlookup_insert.
  - intros i [Hi1 Hi2]%not_elem_of_app. rewrite zlookup_insert_ne; [by apply M3|lia|]. intros ->. apply Hi2. by left.
Qed.

Definition marked_gc (t : list generation_info_t) (g : gc_state) : gc_state := set_major_gc_was_started true (set_generation_info t g).

Definition with_await (B O : list Z) (D : layout) : layout :=
  Layout [] [] B O (ly_cells D) (ly_first D) (ly_smart D) (ly_free D) (ly_from D) (ly_twice D) (ly_disk D).

Section mark.
Context `{HP : Params} (s : state) (D : layout) (L : list Z) (r : list Z) (Hdb : db s D L r).
Context (EC : ly_being D = []) (EA : ly_await D = []).
#[local] Abbreviation t := (generation_info (gc s)).
#[local] Abbreviation V := (ly_new D ++ ly_old D).

Lemma mark_gens : ly_gens D = V.
Proof. unfold ly_gens. by rewrite EC, EA. Qed.

Lemma wp_mark_major_gc_generations shrinks_little fuel (Q : unit → state → Prop) : (length V < fuel)%nat → 0 ≤ number_of_pages_to_mark →
  (∀ B O t', V = B ++ O → (B = [] → V = []) → marking t t' B → Q tt (set_gc (marked_gc t' (gc s)) s)) →
  wp (mark_major_gc_generations shrinks_little fuel) Q s.
Proof.
  intros Hfuel Hpages HQ. pose proof (db_table _ _ _ _ Hdb) as [_ Tnd Tv Tc Ty Tn _ _]. rewrite EC, EA in Tnd, Tv, Tc, Ty. cbn [app] in *.
  unfold mark_major_gc_generations. apply wp_bind, wp_gcs, wp_bind.
  eapply wp_loop with (n := length V) (I := λ k '(g, n) s', ∃ B O t', V = B ++ O ∧ k = length O ∧ g = hd_gn INV O ∧ (B = [] → n = 0) ∧
    marking t t' B ∧ s' = set_gc (set_generation_info t' (gc s)) s); [done| |].
  { exists [], V, t. split; [done|]. split; [done|]. split; [exact Ty|]. split; [done|]. split; [apply marking_nil|by destruct s as [? ? ? ? ? ? ? ? []]]. }
  intros k [g n] s' (B & O & t' & EV & -> & -> & Hn & Hm & ->). destruct O as [|g O]; cbn [hd_gn].
  - rewrite bool_decide_eq_false_2 by (intros E; by apply E). apply wp_ret, wp_set_gcs. apply (HQ B []); [exact EV| |exact Hm]. by intros ->.
  - rewrite bool_decide_eq_true_2 by (intros ->; apply Tv; rewrite EV, !elem_of_app, elem_of_cons; auto).
    destruct (allow_additional_generationality && _ && _) eqn:Estop.
    + apply wp_ret, wp_set_gcs. apply (HQ B (g :: O)); [exact EV| |exact Hm]. intros EB. exfalso. rewrite (Hn EB) in Estop.
      rewrite bool_decide_eq_false_2 in Estop by lia. by rewrite andb_false_r in Estop.
    + rewrite EV in Tc, Tnd. destruct (chain_at _ _ _ _ _ _ Tc) as (x & Hx & _ & Eo).
      assert (HgB : g ∉ B) by (apply NoDup_app in Tnd as (_ & Hd & _); intros Hin; apply (Hd g Hin); by left).
      destruct (marking_snoc t t' B g x Hm HgB Hx) as [Hx' Hm'].
      destruct (Tn g x) as [Est _]; [rewrite EV; apply elem_of_app; right; by left|exact Hx|].
      apply zlookup_Some in Hx' as Hr. destruct Hr as [Hr _].
      apply wp_bind. eapply wp_get_gen; [exact Hx'|]. rewrite Est. apply wp_bind, wp_assert; [done|]. apply wp_bind.
      eapply wp_put_gen; [exact Hx'|]. apply wp_ret. exists (length O). split; [simpl; lia|].
      eexists (B ++ [g]), O, _. split; [by rewrite EV, <- app_assoc|]. split; [done|]. split; [exact Eo|]. split; [by destruct B|]. split; [exact Hm'|done].
Qed.

(** The database after the marks were set. *)
Section marked.
Context (B O : list Z) (t' : list generation_info_t) (EV : V = B ++ O) (Hm : marking t t' B).
#[local] Abbreviation s' := (set_gc (marked_gc t' (gc s)) s).
#[local] Abbreviation D' := (with_await B O D).

Lemma mark_lists : ly_gens D' = ly_gens D ∧ ly_live D' = ly_live D.
Proof. unfold ly_gens, ly_live. rewrite EC, EA. cbn [with_await ly_new ly_being ly_await ly_old app]. by rewrite EV. Qed.

Lemma mark_entry g x' : zlookup t' g = Some x' → ∃ x, zlookup t g = Some x ∧ (x' = x ∨ x' = with_status TO_BE_COLLECTED x ∧ g ∈ B).
Proof.
  intros Hx'. destruct (decide (g ∈ B)) as [Hg|Hg].
  - assert (Hr : 0 ≤ g < Z.of_nat (length t)) by (rewrite <- (mk_length _ _ _ Hm); by apply zlookup_Some in Hx' as [? _]).
    destruct (zlookup_lt _ _ Hr) as [x Hx]. exists x. split; [done|]. right. rewrite (mk_in _ _ _ Hm g x Hg Hx) in Hx'. injection Hx' as <-. done.
  - rewrite (mk_other _ _ _ Hm g Hg) in Hx'. exists x'. split; [done|by left].
Qed.

Lemma mark_entry_fwd g x : zlookup t g = Some x → ∃ x', zlookup t' g = Some x' ∧ (x' = x ∨ x' = with_status TO_BE_COLLECTED x ∧ g ∈ B).
Proof.
  intros Hx. destruct (decide (g ∈ B)) as [Hg|Hg].
  - eexists. split; [by eapply mk_in|]. by right.
  - exists x. rewrite (mk_other _ _ _ Hm g Hg). split; [done|by left].
Qed.

Lemma mark_in_gens g : g ∈ B → g ∈ ly_gens D.
Proof. intros Hg. rewrite mark_gens, EV. apply elem_of_app. by left. Qed.

Lemma mark_table : table_ok (gc s') [] [] B O.
Proof.
  pose proof (db_table _ _ _ _ Hdb) as [T1 T2 T3 T4 T5 T6 T7 T8]. rewrite EC, EA in *. cbn [app] in *. rewrite EV in *.
  assert (Hnd : ∀ g, g ∈ O → g ∉ B).
  { apply NoDup_app in T2 as (_ & Hd & _). intros g Hg Hin. by apply (Hd g Hin). }
  split; cbn [app]; try done.
  - eapply gens_ok_same; [exact T1|exact (mk_length _ _ _ Hm)|done|done|]. intros i x Hx. destruct (mark_entry_fwd i x Hx) as (x' & Hx' & Hcase).
    exists x'. split; [exact Hx'|]. destruct Hcase as [->|[-> Hi]]; [done|]. unfold nonexistent. cbn [gi_status with_status].
    destruct (T6 i x) as [-> _]; [apply elem_of_app; by left|exact Hx|done].
  - eapply chain_same; [exact T2|exact T4|]. intros g x _ Hx. destruct (mark_entry_fwd g x Hx) as (x' & Hx' & [->|[-> _]]); by eexists.
  - intros g x Hg Hx. apply (T6 g x); [apply elem_of_app; by right|]. rewrite <- (mk_other _ _ _ Hm g (Hnd g Hg)). exact Hx.
  - by intros g x ?%not_elem_of_nil.
  - intros g x Hg Hx. destruct (mark_entry g x Hx) as (x0 & Hx0 & _). cbn in Hx. rewrite (mk_in _ _ _ Hm g x0 Hg Hx0) in Hx. by injection Hx as <-.
Qed.

Lemma mark_retired : retired_ok (gc s') [] [] B O (ly_from D) (ly_twice D).
Proof.
  pose proof (db_retired _ _ _ _ Hdb) as [R1 R2 R3 R4 R5 R6]. rewrite EC, EA in *. cbn [app] in *. rewrite EV in *.
  assert (HB : ∀ g, g ∈ B → (g ∉ concat (ly_from D <$> B ++ O)) ∧ g ∉ ly_twice D).
  { intros g Hg. apply NoDup_app in R3 as (_ & Hd & _). rewrite <- not_elem_of_app. apply Hd, elem_of_app. by left. }
  split; cbn [app]; try done.
  - intros g x Hg Hx. destruct (mark_entry g x Hx) as (x0 & Hx0 & Hcase).
    assert (E : gi_from x = gi_from x0) by (by destruct Hcase as [->|[-> _]]). rewrite E.
    eapply follows_same; [|by apply (R1 g x0)]. intros i y _ Hy. destruct (mark_entry_fwd i y Hy) as (y' & Hy' & [->|[-> _]]); by eexists.
  - eapply follows_same; [|exact R2]. intros i y _ Hy. destruct (mark_entry_fwd i y Hy) as (y' & Hy' & [->|[-> _]]); by eexists.
  - intros g x Hg Hb Hx. destruct (mark_entry g x Hx) as (x0 & Hx0 & [->|[-> HgB]]); [by apply (R5 g)|]. by destruct (HB g HgB).
  - intros g x Hg Hx. destruct (mark_entry g x Hx) as (x0 & Hx0 & [->|[-> HgB]]); [by apply (R6 g)|]. by destruct (HB g HgB).
Qed.

Lemma mark_pages g : disk_pages t' g = disk_pages t g.
Proof.
  unfold disk_pages. destruct (zlookup t g) as [x|] eqn:Hx.
  - by destruct (mark_entry_fwd g x Hx) as (x' & -> & [->|[-> _]]).
  - destruct (zlookup t' g) as [x'|] eqn:Hx'; [|done]. destruct (mark_entry g x' Hx') as (x & E & _). congruence.
Qed.

Lemma marked_db : db s' D' L r.
Proof.
  pose proof Hdb as [[W1 W2 W3 W4 W5 W6] Ht [P1 P2 P3 P4 P5] Hc Hy Hr Hret [F1 F2 F3] Hd Hro]. destruct mark_lists as [EG EL].
  assert (Hg : ∀ x, is_Some (ly_cells D !! x) → gen_of s' x = gen_of s x) by (intros z _; reflexivity).
  assert (EF : ly_filed D' = ly_filed D) by (unfold ly_filed; by rewrite EG, EL). split.
  - split; try done. by eapply wf_same.
  - exact mark_table.
  - rewrite EG. split; [by eapply pool_frame| | | |exact P5].
    + intros g y Hg' Hy'. destruct (mark_entry g y Hy') as (y0 & Hy0 & [->|[-> _]]); by apply (P2 g y0).
    + intros g y pn Hg' Hy' Hpn. destruct (mark_entry g y Hy') as (y0 & Hy0 & Hcase).
      assert (Hpn0 : pn ∈ gi_page y0) by (by destruct Hcase as [->|[-> _]]). destruct (P3 g y0 pn Hg' Hy0 Hpn0) as ([U1 U2 U3] & H4).
      split; [by split|exact H4].
    + intros pn pg Hpg Hal. destruct (P4 pn pg Hpg Hal) as [Hg' Hin]. split; [exact Hg'|]. intros y Hy'.
      destruct (mark_entry _ y Hy') as (y0 & Hy0 & [->|[-> _]]); exact (Hin y0 Hy0).
  - rewrite EL. eapply cells_ok_same; [exact Hg|exact Hc|done|done|]. intros g y Hg' Hy'.
    destruct (mark_entry g y Hy') as (y0 & Hy0 & [->|[-> _]]); by exists y0.
  - by eapply young_ok_same; [exact Hg|exact Hy|..].
  - intros g y Hg' Hy'. destruct (mark_entry g y Hy') as (y0 & Hy0 & Hcase).
    assert (E : concat (gi_rem_set y) = []).
    { assert (E : gi_rem_set y = gi_rem_set y0) by (by destruct Hcase as [->|[-> _]]). rewrite E. apply (tb_normal _ _ _ _ _ Ht g y0); [|done].
      rewrite EV. apply elem_of_app. by left. }
    rewrite E. split; [by apply NoDup_nil|]. intros a. split; [by intros ?%not_elem_of_nil|]. intros (p & ws & i & z & _ & _ & _ & _ & Hin & _).
    rewrite in_gens_iff in Hin. destruct Hin as (g' & _ & Hin). by apply not_elem_of_nil in Hin.
  - exact mark_retired.
  - rewrite EF. split.
    + change (generation_info (gc s')) with t'. rewrite (list_fmap_ext (disk_pages t') (disk_pages t) (ly_filed D)); [exact F1|]. intros i g _. apply mark_pages.
    + change (generation_info (gc s')) with t'. rewrite (list_fmap_ext (disk_pages t') (disk_pages t) (ly_filed D)); [exact F2|]. intros i g _. apply mark_pages.
    + intros g y Hg' Hy'. destruct (mark_entry g y Hy') as (y0 & Hy0 & [->|[-> _]]); by apply (F3 g y0).
  - exact Hd.
  - by eapply roots_ok_same.
Qed.
End marked.
End mark.
