(* ===== verification/Major.v ===== *)
(** The collection of the mature generations (shades.c, [major_gc]): steps are taken
    until the schedule stops them or the collection is finished, and what a program
    sees of the database stays the same. *)

From S2P Require Import Prelude Generations Machine Celltypes Shades Root Bitops Cells Pages Genlist Smartptr Io Copy Forward Copying Drain Roots Copied Collect Chain Retire Commit Mature Choose Remember Relocate Step Release Log Sample MajorStep Gather View Preserve Mark.

#[local] Abbreviation N := NUMBER_OF_WORDS_PER_PAGE.
#[local] Abbreviation INV := INVALID_GENERATION_NUMBER.
#[local] Abbreviation pinfo_ix := (root_ix_num ROOT_IX_generation_pinfo_list).

(** * The same database with another list of generations that the first generation
      refers to *)

Lemma db_refers `{HP : Params} s D L L' r : db s D L r → (∀ g, g ∈ L → g ∈ L') → db s D L' r.
Proof.
  intros [H1 H2 H3 H4 [Y1 Y2 Y3] H6 H7 H8 H9 H10] HL. split; try done. split; [|exact Y2|exact Y3].
  intros p ws Hp. destruct (Y1 p ws Hp) as [C1 C2 C3 C4 C5 C6]. split; try done.
  intros i x Hr Hx. destruct (C6 i x Hr Hx) as [|[Hc Hin]]; [by left|right]. split; [done|].
  rewrite in_gens_iff in Hin. destruct Hin as (g & Hg & Hin). rewrite in_gens_iff. exists g. split; [exact Hg|by apply HL].
Qed.

(** A change of the variables of the collector that no part of the database depends on. *)
Lemma db_flags `{HP : Params} s D L r b b' : db s D L r →
  db (set_gc (set_is_collecting b (set_major_gc_was_started b' (gc s))) s) D L r.
Proof.
  intros Hdb. set (s' := set_gc _ s). destruct Hdb as [[W1 W2 W3 W4 W5 W6] [T1 T2 T3 T4 T5 T6 T7 T8] Hp Hk Hy Hr [R1 R2 R3 R4 R5 R6] [F1 F2 F3] Hd Ho].
  assert (Hg : ∀ x, is_Some (ly_cells D !! x) → gen_of s' x = gen_of s x) by (intros x _; reflexivity).
  split.
  - split; try done. by eapply wf_same.
  - split; try done. by eapply gens_ok_same; try done; intros i x Hx; exists x.
  - destruct Hp as [P1 P2 P3 P4 P5]. split; try done.
    + by eapply pool_frame.
    + intros g x pn Hg' Hx Hpn. destruct (P3 g x pn Hg' Hx Hpn) as ([U1 U2 U3] & H). split; [by split|exact H].
  - eapply cells_ok_same; [exact Hg|exact Hk|done..|]. intros g x _ Hx. by exists x.
  - by eapply young_ok_same; [exact Hg|exact Hy|..].
  - eapply rems_ok_same; [exact Hg|exact Hk|exact Hr|]. intros g x _ Hx. by exists x.
  - by split.
  - by split.
  - exact Hd.
  - by eapply roots_ok_same.
Qed.

Lemma data_loc_same s s' D D' pp : same_roots s s' → (ly_smart D').*1 = (ly_smart D).*1 → data_loc s' D' pp ↔ data_loc s D pp.
Proof. intros Hs El. unfold data_loc. rewrite El. by rewrite (same_root_loc s s'). Qed.

(** * The driver *)

(** Between two steps: the room that is left suffices for what awaits collection. *)
Record collecting `{Params} (s : state) (D : layout) (L r : list Z) (k w : Z) : Prop := {
  co_db : db s D L r;
  co_being : ly_being D = [];
  co_refers g : g ∈ L → g ∈ ly_new D;
  co_prev : prev_ok (gc s) (ly_new D) (ly_await D);
  co_pinfo : pinfo_ok s D L;
  co_flag : is_collecting (gc s) = true ↔ ly_await D ≠ [];
  co_room : room_for s (ly_free D) k w;
  co_steps : Z.of_nat (length (ly_await D)) ≤ k;
  co_words : await_words s D ≤ w
}.

(** The database after a number of steps, perhaps with a new collection started: what
    the program sees is the same. *)
Record major_result `{Params} (s s' : state) (D D' : layout) (L r : list Z) : Prop := {
  mj_db : db s' D' (ly_live D') r;
  mj_being : ly_being D' = [];
  mj_prev : prev_ok (gc s') (ly_new D') (ly_await D');
  mj_flag : is_collecting (gc s') = true ↔ ly_await D' ≠ [];
  mj_pinfo : major_gc_was_started (gc s') = true ∨ pinfo_ok s' D' (ly_new D');
  mj_roots : same_frame s s' ∧ (ly_smart D').*1 = (ly_smart D).*1;
  mj_view : same_view (data_loc s D) s D s' D'
}.

(** ** What a call has done *)

(** After a step that returned [n]: the collection is over when that is 0. *)
Definition after_step (n : Z) (s : state) : state :=
  if bool_decide (n = 0) then set_gc (set_is_collecting false (gc s)) s else s.

(** One step or more. *)
Inductive major_steps `{Params} (L r : list Z) (s : state) (D : layout) : state → layout → Prop :=
| major_steps_one s' D' B1 B2 gn φ n : step_result s s' D D' L r B1 B2 gn φ n → major_steps L r s D (after_step n s') D'
| major_steps_more s1 D1 s' D' B1 B2 gn φ n : major_steps L r s D s1 D1 → step_result s1 s' D1 D' L r B1 B2 gn φ n →
    major_steps L r s D (after_step n s') D'.

(** A collection is started in a state where nothing awaits collection: the youngest
    generations [B] are marked, and nothing else changes but the two flags. *)
Definition major_started (s s' : state) (D D' : layout) : Prop :=
  ly_await D = [] ∧ ∃ B O t', ly_gens D = B ++ O ∧ B ≠ [] ∧ marking (generation_info (gc s)) t' B ∧
    s' = set_gc (set_is_collecting true (marked_gc t' (gc s))) s ∧ D' = with_await B O D.

(** A call in the middle of a collection: steps, after which less awaits collection, and
    perhaps the start of the next collection. *)
Definition major_ran `{Params} (L r : list Z) (s : state) (D : layout) (s' : state) (D' : layout) : Prop :=
  ∃ s1 D1, major_steps L r s D s1 D1 ∧ (length (ly_await D1) < length (ly_await D))%nat ∧
    (s' = s1 ∧ D' = D1 ∨ is_collecting (gc s1) = false ∧ major_started s1 s' D1 D').

Section driver.
Context `{HP : Params} (shrinks_little : Z → bool) (gc_is_late : Z → Z → bool) (fuel : nat).
Context (Hpages : 0 ≤ number_of_pages_to_mark) (Hfuel : 2 * INV < Z.of_nat fuel).

Lemma pinfo_refers s D L L' : pinfo_ok s D L → (∀ g, g ∈ L → g ∈ L') → pinfo_ok s D L'.
Proof.
  intros (l & Hl & Hc) HL. exists l. split; [done|]. destruct Hc as [|[|[Hc Hin]]]; [by left|right; by left|right; right].
  split; [done|]. rewrite !in_gens_iff in *. destruct Hin as (g & Hg & Hin). eauto.
Qed.

Lemma new_not_await s D L r g : db s D L r → g ∈ ly_new D → g ∉ ly_await D.
Proof.
  intros Hdb Hg Ha. pose proof (tb_nodup _ _ _ _ _ (db_table _ _ _ _ Hdb)) as Hnd. apply NoDup_app in Hnd as (_ & Hd & _).
  apply (Hd g Hg). rewrite !elem_of_app. auto.
Qed.

Lemma new_live D g : g ∈ ly_new D → g ∈ ly_live D.
Proof. intros Hg. apply elem_of_app. by left. Qed.

(** Enough is done when nothing else happens. *)
Lemma collecting_result s D L r k w : collecting s D L r k w → major_result s s D D L r.
Proof.
  intros [H1 H2 H3 H4 H5 H6 _ _ _]. split; try done.
  - eapply db_refers; [exact H1|]. intros g Hg. by apply new_live, H3.
  - right. by eapply pinfo_refers.
  - apply same_view_refl.
Qed.

(** ** A step *)

Lemma set_flag_false s : gc s = gc s → set_gc (set_is_collecting false (gc s)) s = set_gc (set_is_collecting false (set_major_gc_was_started (major_gc_was_started (gc s)) (gc s))) s.
Proof. intros _. by destruct s as [? ? ? ? ? ? ? ? []]. Qed.

Lemma step_collecting s s' D D' L r k w B1 B2 gn φ n : collecting s D L r k w → ly_await D ≠ [] → step_result s s' D D' L r B1 B2 gn φ n →
  let b := bool_decide (n ≠ 0) in
  let s2 := set_gc (set_is_collecting b (set_major_gc_was_started (major_gc_was_started (gc s')) (gc s'))) s' in
  collecting s2 D' L r (k - 1) (w - total_words (cells_of s (ly_cells D) B1)) ∧ same_frame s s2 ∧ (ly_smart D').*1 = (ly_smart D).*1 ∧
  same_view (data_loc s D) s D s2 D' ∧ (length (ly_await D') < length (ly_await D))%nat ∧ ly_gens D' ≠ [].
Proof.
  intros [C1 C2 C3 C4 C5 C6 C7 C8 C9] HA HR b s2.
  destruct (sr_await _ _ _ _ _ _ _ _ _ _ _ HR) as (EB & HB1 & _). destruct (sr_lists _ _ _ _ _ _ _ _ _ _ _ HR) as (L1 & L2 & L3 & L4).
  destruct (sr_finished _ _ _ _ _ _ _ _ _ _ _ HR) as [_ Hfin].
  assert (Hlen : (length (ly_await D') < length (ly_await D))%nat).
  { rewrite L3, EB, length_app. destruct B1; [done|simpl; lia]. }
  assert (Hk : 1 ≤ k) by lia. split; [|split; [|split; [|split; [|split]]]].
  - split.
    + apply db_flags, HR.
    + done.
    + intros g Hg. rewrite L1. apply elem_of_app. left. by apply C3.
    + rewrite L3. exact (sr_prev _ _ _ _ _ _ _ _ _ _ _ HR).
    + exact (sr_pinfo _ _ _ _ _ _ _ _ _ _ _ HR).
    + rewrite L3. unfold s2, b. cbn [gc set_gc is_collecting set_is_collecting]. rewrite bool_decide_eq_true. by rewrite Hfin.
    + destruct (sr_room _ _ _ _ _ _ _ _ _ _ _ HR k w C7 Hk) as [R1 R2 R3 R4]. by split.
    + lia.
    + pose proof (sr_words _ _ _ _ _ _ _ _ _ _ _ HR) as Hw. unfold await_words in *. change (cells_of s2) with (cells_of s'). lia.
  - transitivity s'; [apply (sr_same _ _ _ _ _ _ _ _ _ _ _ HR)|by split].
  - exact (rn_smart _ _ _ _ _ _ _ (sr_relocation _ _ _ _ _ _ _ _ _ _ _ HR)).
  - eapply same_view_trans; [eapply step_view; [exact C1| |exact HR]|].
    + intros g Hg. eapply new_not_await; [exact C1|by apply C3].
    + apply same_view_cells; [done|]. by intros [a|i|sp] x.
  - exact Hlen.
  - unfold ly_gens. rewrite L1. by destruct (ly_new D).
Qed.

Lemma wp_step_again s D L r k w {A} (m : Z → M A) (Q : A → state → Prop) : collecting s D L r k w → ly_await D ≠ [] →
  w < Z.of_nat fuel → (length (ly_smart D) < fuel)%nat →
  (∀ n s' D' B1 B2 gn φ k' w', step_result s s' D D' L r B1 B2 gn φ n → let s2 := after_step n s' in
    collecting s2 D' L r k' w' → w' ≤ w → same_frame s s2 → (ly_smart D').*1 = (ly_smart D).*1 →
    same_view (data_loc s D) s D s2 D' → (length (ly_await D') < length (ly_await D))%nat → ly_gens D' ≠ [] → wp (m n) Q s2) →
  wp (effort_step ← major_gc_step fuel; (if bool_decide (effort_step = 0) then set_gcs (set_is_collecting false) else mret tt);; m effort_step) Q s.
Proof.
  intros Hco HA Hw Hsm HQ. pose proof Hco as [C1 C2 C3 C4 C5 C6 C7 C8 C9]. apply wp_bind. eapply wp_major_gc_step.
  - split; [exact C1|exact C2|exact HA| |exact C4|exact C5| | | |exact Hsm].
    + intros g Hg. eapply new_not_await; [exact C1|by apply C3].
    + exists k, w. split; [done|]. split; [|done]. destruct (ly_await D); [done|simpl in C8; lia].
    + destruct (rm_gens _ _ _ _ C7). lia.
    + lia.
  - intros n s' D' B1 B2 gn φ HR. destruct (step_collecting s s' D D' L r k w B1 B2 gn φ n Hco HA HR) as (H1 & H2 & H3 & H4 & H5 & H6).
    pose proof (total_words_nonneg (cells_of s (ly_cells D) B1)) as Hpos. pose proof (HQ n s' D' B1 B2 gn φ) as Hm. unfold after_step in Hm.
    apply wp_bind. destruct (decide (n = 0)) as [En|En].
    + rewrite (bool_decide_eq_true_2 (n = 0)) in Hm |- * by done. apply wp_set_gcs. rewrite set_flag_false in Hm |- * by done.
      rewrite (bool_decide_eq_false_2 (n ≠ 0)) in H1, H2, H4 by (intros H; by apply H).
      eapply Hm; [exact HR|exact H1|lia|exact H2|exact H3|exact H4|exact H5|exact H6].
    + rewrite (bool_decide_eq_false_2 (n = 0)) in Hm |- * by done. apply wp_ret. rewrite (bool_decide_eq_true_2 (n ≠ 0)) in H1, H2, H4 by done.
      assert (E : set_gc (set_is_collecting true (set_major_gc_was_started (major_gc_was_started (gc s')) (gc s'))) s' = s').
      { assert (Ec : is_collecting (gc s') = true).
        { pose proof (proj2 (sr_same _ _ _ _ _ _ _ _ _ _ _ HR)) as Ef. unfold flags in Ef. injection Ef as _ _ Ef. rewrite Ef. by apply C6. }
        destruct s' as [? ? ? ? ? ? ? ? []]. cbn in Ec. by subst. }
      rewrite E in H1, H2, H4. eapply Hm; [exact HR|exact H1|lia|exact H2|exact H3|exact H4|exact H5|exact H6].
Qed.

(** ** A new collection *)

Lemma wp_start_collection {A} (res : A) s D L r k w (Q : A → state → Prop) : collecting s D L r k w → ly_await D = [] → ly_new D ++ ly_old D ≠ [] →
  (∀ s' D', major_result s s' D D' L r → major_started s s' D D' → Q res s') → wp (mark_major_gc_generations shrinks_little fuel;; set_gcs (set_is_collecting true);; mret res) Q s.
Proof.
  intros [C1 C2 C3 C4 C5 C6 C7 C8 C9] HA HV HQ. apply wp_bind. pose proof (length_gens s D L r C1) as Hlen. destruct (rm_gens _ _ _ _ C7) as [Hinv _].
  assert (EV : ly_gens D = ly_new D ++ ly_old D) by by apply mark_gens. rewrite EV in Hlen.
  eapply (wp_mark_major_gc_generations s D L r C1 C2 HA); [lia|exact Hpages|]. intros B O t' EB HB Hm.
  pose proof (marked_db s D L r C1 C2 HA B O t' EB Hm) as Hdb'. apply wp_bind, wp_set_gcs, wp_ret. set (D' := with_await B O D) in *.
  set (s1 := set_gc (marked_gc _ _) s) in *. assert (E : set_gc (set_is_collecting true (gc s1)) s1 =
    set_gc (set_is_collecting true (set_major_gc_was_started (major_gc_was_started (gc s1)) (gc s1))) s1) by by subst s1; destruct s as [? ? ? ? ? ? ? ? []].
  eapply (HQ _ D'); [rewrite E|].
  2:{ split; [exact HA|]. exists B, O, t'. split; [by rewrite EV|]. split; [intros EB'; by apply HV, HB|done]. }
  split.
  - eapply db_refers; [apply db_flags, Hdb'|]. intros g Hg. destruct (mark_lists D C2 HA B O EB) as [_ E2]. subst D'. rewrite E2. by apply new_live, C3.
  - done.
  - cbn [D' with_await ly_new ly_await]. left. rewrite HA in C4. by destruct C4 as [C4|(_ & _ & C4)].
  - split; [intros _|done]. cbn [D' with_await ly_await]. intros ->. by apply HV, HB.
  - by left.
  - split; [by split|done].
  - apply same_view_cells; [done|]. by intros [a|i|sp] x.
Qed.

(** ** The loop *)

Lemma major_result_after s s2 s' D D2 D' L r : same_frame s s2 → (ly_smart D2).*1 = (ly_smart D).*1 → same_view (data_loc s D) s D s2 D2 →
  major_result s2 s' D2 D' L r → major_result s s' D D' L r.
Proof.
  intros H1 H2 H3 [M1 M2 M3 M4 M5 [M6 M7] M8]. split; try done.
  - split; [by transitivity s2|congruence].
  - eapply same_view_trans; [exact H3|]. eapply same_view_mono; [|exact M8]. intros pp Hpp. by rewrite (data_loc_same s s2 D D2) by apply H1 || done.
Qed.

Lemma smart_length {A B} (l l' : list (A * B)) : l'.*1 = l.*1 → length l' = length l.
Proof. intros E%(f_equal length). by rewrite !length_fmap in E. Qed.

Lemma wp_major_gc is_idle s D L r k w (Q : unit → state → Prop) : collecting s D L r k w → ly_gens D ≠ [] →
  w < Z.of_nat fuel → (length (ly_smart D) < fuel)%nat → (S (length (ly_await D)) < fuel)%nat →
  (∀ s' D', major_result s s' D D' L r →
    (is_collecting (gc s) = true → major_ran L r s D s' D') → Q tt s') →
  wp (major_gc shrinks_little gc_is_late fuel is_idle) Q s.
Proof.
  intros Hco HV Hw Hsm Hrounds HQ. unfold major_gc. apply wp_bind, wp_gcs, wp_bind, wp_gcs.
  destruct (negb is_idle && _ && _) eqn:Eskip.
  { apply wp_ret. eapply HQ; [by eapply collecting_result|]. intros E. rewrite E, andb_false_r in Eskip. discriminate. }
  clear Eskip.
  eapply wp_loop with (n := S (length (ly_await D))) (I := λ i '(effort, stepped) s1, ∃ D1 k1 w1, i = S (length (ly_await D1)) ∧
    collecting s1 D1 L r k1 w1 ∧ w1 ≤ w ∧ ly_gens D1 ≠ [] ∧ (length (ly_await D1) ≤ length (ly_await D))%nat ∧ same_frame s s1 ∧ (ly_smart D1).*1 = (ly_smart D).*1 ∧ same_view (data_loc s D) s D s1 D1 ∧
    (s1 = s ∧ D1 = D ∨ major_steps L r s D s1 D1 ∧ (length (ly_await D1) < length (ly_await D))%nat)).
  - exact Hrounds.
  - exists D, k, w. split; [done|]. split; [done|]. split; [done|]. split; [done|]. split; [done|]. split; [done|]. split; [done|].
    split; [apply same_view_refl|by left].
  - intros i [effort stepped] s1 (D1 & k1 & w1 & -> & Hco1 & Hw1 & HV1 & Hle & H1 & H2 & H3 & H4). unfold major_gc_round. apply wp_bind, wp_gcs.
    destruct (is_collecting (gc s1)) eqn:Ec; cbn [negb].
    + assert (HA : ly_await D1 ≠ []) by by apply (co_flag _ _ _ _ _ _ Hco1).
      apply wp_bind. assert (Hskip : ∀ Q' : unit → state → Prop, Q' tt s1 → wp (if stepped then io_allow_page_changes else mret tt) Q' s1) by by destruct stepped.
      apply Hskip. eapply wp_step_again; [exact Hco1|exact HA|lia|by rewrite (smart_length _ _ H2)|].
      intros n s' D2 B1 B2 gn φ k2 w2 HR s2 Hco2 Hw2 Hs2 E2 Hv2 Hl2 HV2. apply wp_bind, wp_gcs, wp_ret.
      assert (Hs : same_frame s s2) by by transitivity s1. assert (Esm : (ly_smart D2).*1 = (ly_smart D).*1) by congruence.
      assert (Hv : same_view (data_loc s D) s D s2 D2).
      { eapply same_view_trans; [exact H3|]. eapply same_view_mono; [|exact Hv2]. intros pp Hpp. by rewrite (data_loc_same s s1 D D1) by apply H1 || done. }
      assert (Hst : major_steps L r s D s2 D2).
      { destruct H4 as [[-> ->]|[H4 _]]; [eapply major_steps_one|eapply major_steps_more; [exact H4|]]; exact HR. }
      destruct (_ && _ && _).
      * exists (S (length (ly_await D2))). split; [lia|]. exists D2, k2, w2. split; [done|]. split; [done|]. split; [lia|].
        split; [done|]. split; [lia|]. split; [done|]. split; [done|]. split; [done|]. right. split; [done|lia].
      * apply (HQ s2 D2); [|intros _; exists s2, D2; split; [done|]; split; [lia|by left]]. eapply major_result_after; [exact Hs|exact Esm|exact Hv|]. by eapply collecting_result.
    + assert (HA : ly_await D1 = []).
      { destruct (decide (ly_await D1 = [])) as [|Hne]; [done|]. apply (co_flag _ _ _ _ _ _ Hco1) in Hne. congruence. }
      eapply wp_start_collection; [exact Hco1|exact HA| |].
      * unfold ly_gens in HV1. by rewrite (co_being _ _ _ _ _ _ Hco1), HA in HV1.
      * intros s' D' HR Hnew. apply (HQ s' D'); [by eapply major_result_after|]. intros Hc. destruct H4 as [[-> ->]|[H4 H5]]; [congruence|].
        exists s1, D1. split; [done|]. split; [done|]. by right.
Qed.
End driver.

Lemma await_fuel `{HP : Params} s D L r k w fuel : collecting s D L r k w → 2 * INV < Z.of_nat fuel → (S (length (ly_await D)) < fuel)%nat.
Proof.
  intros Hco Hfuel. pose proof (length_gens _ _ _ _ (co_db _ _ _ _ _ _ Hco)) as Hl. destruct (rm_gens _ _ _ _ (co_room _ _ _ _ _ _ Hco)) as [Hi _].
  unfold ly_gens in Hl. rewrite !length_app in Hl. assert (1 < INV) by done. lia.
Qed.

(** * The theorems *)

(** C4. The loop of [major_gc] ends, with room for the steps it may take: the database is
    consistent afterwards and shows the program the same. *)
Theorem major_gc_terminates `{HP : Params} shrinks_little gc_is_late fuel is_idle s D L r k w : collecting s D L r k w → ly_gens D ≠ [] →
  0 ≤ number_of_pages_to_mark → 2 * INV < Z.of_nat fuel → w < Z.of_nat fuel → (length (ly_smart D) < fuel)%nat →
  ∃ s' D', major_gc shrinks_little gc_is_late fuel is_idle s = Ok tt s' ∧ major_result s s' D D' L r.
Proof.
  intros Hco HV Hpages Hfuel Hw Hsm. pose proof (await_fuel s D L r k w fuel Hco Hfuel) as Hf.
  assert (Hwp : wp (major_gc shrinks_little gc_is_late fuel is_idle) (λ _ s', ∃ D', major_result s s' D D' L r) s).
  { eapply wp_major_gc; [exact Hpages|exact Hfuel|exact Hco|exact HV|exact Hw|exact Hsm|exact Hf|]. eauto. }
  apply wp_inv in Hwp as ([] & s' & E & D' & HR). by exists s', D'.
Qed.

(** C5. While a collection of the mature generations goes on, every call of [major_gc]
    comes closer to its end: it takes at least one step of the collection, in which
    generations that awaited collection are collected, so that fewer of them await it;
    the state it leaves is the one after these steps, or, when they finished the
    collection, the one where the next collection was started by marking the youngest
    generations. *)
Theorem major_gc_progress `{HP : Params} shrinks_little gc_is_late fuel is_idle s D L r k w : collecting s D L r k w →
  is_collecting (gc s) = true → 0 ≤ number_of_pages_to_mark → 2 * INV < Z.of_nat fuel → w < Z.of_nat fuel → (length (ly_smart D) < fuel)%nat →
  ∃ s' D', major_gc shrinks_little gc_is_late fuel is_idle s = Ok tt s' ∧ major_result s s' D D' L r ∧ major_ran L r s D s' D'.
Proof.
  intros Hco Hc Hpages Hfuel Hw Hsm. pose proof (await_fuel s D L r k w fuel Hco Hfuel) as Hf.
  assert (HV : ly_gens D ≠ []).
  { apply (co_flag _ _ _ _ _ _ Hco) in Hc. unfold ly_gens. intros [_ [_ [E _]%app_nil]%app_nil]%app_nil. done. }
  assert (Hwp : wp (major_gc shrinks_little gc_is_late fuel is_idle) (λ _ s', ∃ D', major_result s s' D D' L r ∧ major_ran L r s D s' D') s).
  { eapply wp_major_gc; [exact Hpages|exact Hfuel|exact Hco|exact HV|exact Hw|exact Hsm|exact Hf|]. eauto. }
  apply wp_inv in Hwp as ([] & s' & E & D' & HR). by exists s', D'.
Qed.

#[local] Existing Instance sample_params.

Lemma sample_collecting : collecting (sample_state TO_BE_COLLECTED) (sample_layout [0] []) [] [] 1 9.
Proof.
  split.
  - apply sample_db; [done|by left].
  - done.
  - by intros g ?%not_elem_of_nil.
  - by left.
  - apply sample_pinfo.
  - done.
  - apply sample_room.
  - done.
  - assert (E : await_words (sample_state TO_BE_COLLECTED) (sample_layout [0] []) = 9) by (apply (sample_words_of TO_BE_COLLECTED); by left).
    by rewrite E.
Qed.

Lemma major_gc_terminates_witness : ∃ s' D', major_gc (λ _, false) (λ _ _, false) (Z.to_nat 8589934592) false (sample_state TO_BE_COLLECTED) = Ok tt s' ∧
  major_result (sample_state TO_BE_COLLECTED) s' (sample_layout [0] []) D' [] [].
Proof.
  eapply (major_gc_terminates _ _ _ _ _ _ _ _ 1 9); [exact sample_collecting|done|by apply (bool_decide_unpack _)|..]; rewrite ?Z2Nat.id by lia.
  - by apply (bool_decide_unpack _).
  - lia.
  - apply Nat2Z.inj_lt. rewrite Z2Nat.id by lia. simpl. lia.
Defined.

Lemma major_gc_progress_witness : ∃ s' D', major_gc (λ _, false) (λ _ _, false) (Z.to_nat 8589934592) false (sample_state TO_BE_COLLECTED) = Ok tt s' ∧
  major_result (sample_state TO_BE_COLLECTED) s' (sample_layout [0] []) D' [] [] ∧
  major_ran [] [] (sample_state TO_BE_COLLECTED) (sample_layout [0] []) s' D'.
Proof.
  eapply (major_gc_progress _ _ _ _ _ _ _ _ 1 9); [exact sample_collecting|done|by apply (bool_decide_unpack _)|..]; rewrite ?Z2Nat.id by lia.
  - by apply (bool_decide_unpack _).
  - lia.
  - apply Nat2Z.inj_lt. rewrite Z2Nat.id by lia. simpl. lia.
Defined.
