(* ===== verification/Group.v ===== *)
(** Group commit (shades.c, [flush_batch]): the first generation is collected, the root
    block is written, and the collection of the mature generations goes on. *)

From S2P Require Import Prelude Generations Machine Celltypes Shades Root Bitops Cells Pages Genlist Smartptr Io Copy Forward Copying Drain Roots Copied Collect Chain Retire Commit Mature Choose Remember Relocate Step Release Log Sample MajorStep Gather Flush Twice View Preserve Mark Major.

#[local] Abbreviation N := NUMBER_OF_WORDS_PER_PAGE.
#[local] Abbreviation INV := INVALID_GENERATION_NUMBER.
#[local] Abbreviation pinfo_ix := (root_ix_num ROOT_IX_generation_pinfo_list).
#[local] Abbreviation freelist_ix := (root_ix_num ROOT_IX_oid_freelist).

(** * What the program and the collector agree on *)

(** The database between two group commits. *)
Record batch_ok `{Params} (s : state) (D : layout) (r : list Z) : Prop := {
  bt_db : db s D (ly_live D) r;
  bt_being : ly_being D = [];
  bt_prev : prev_ok (gc s) (ly_new D) (ly_await D);
  bt_flag : is_collecting (gc s) = true ↔ ly_await D ≠ [];
  bt_pinfo : major_gc_was_started (gc s) = true ∨ pinfo_ok s D (ly_new D);
  bt_declared : declared_roots s;
  bt_valid : root_valid (root s)
}.

(** There is room for the collection of the first generation, and for that of the mature
    generations: at most [k] steps and [w] words. *)
Record batch_room `{Params} (s : state) (D : layout) (k w : Z) : Prop := {
  br_space : space_for s (ly_free D) k w;
  br_first : 4 * (4 * w + 6 * k * (N - 2)) ≤ (first_generation_start s - first_generation_end s) * (N - 2);
  br_steps : Z.of_nat (length (ly_await D)) + 1 ≤ k;
  br_words : total_words (ly_first D) + await_words s D ≤ w
}.

(** The program's data roots: those of the root block but for the list of free object
    identities, which a group commit empties. *)
Definition program_loc (s : state) (D : layout) (pp : location) : Prop :=
  data_loc s D pp ∧ pp ≠ RootWord (Z.of_nat freelist_ix).

(** * Changes of the state that the database does not depend on *)

Lemma db_io `{HP : Params} s D L r r' x : db s D L r → disk x (ly_disk D) r' → length (file x) = length (file (io (gc s))) →
  db (put_io x s) D L r'.
Proof.
  intros Hdb Hx Hl. set (s' := put_io x s). destruct Hdb as [[W1 W2 W3 W4 W5 W6] [T1 T2 T3 T4 T5 T6 T7 T8] Hp Hk Hy Hr [R1 R2 R3 R4 R5 R6] [F1 F2 F3] Hd Ho].
  assert (Hg : ∀ x, is_Some (ly_cells D !! x) → gen_of s' x = gen_of s x) by (intros y _; reflexivity).
  split.
  - split; try done. by eapply wf_same.
  - split; try done. by eapply gens_ok_same; try done; intros i y Hy'; exists y.
  - destruct Hp as [P1 P2 P3 P4 P5]. split; try done.
    + by eapply pool_frame.
    + intros g y pn Hg' Hx' Hpn. destruct (P3 g y pn Hg' Hx' Hpn) as ([U1 U2 U3] & H). split; [by split|exact H].
  - eapply cells_ok_same; [exact Hg|exact Hk|done..|]. intros g y _ Hy'. by exists y.
  - by eapply young_ok_same; [exact Hg|exact Hy|..].
  - eapply rems_ok_same; [exact Hg|exact Hk|exact Hr|]. intros g y _ Hy'. by exists y.
  - by split.
  - by split.
  - exact Hx.
  - by eapply roots_ok_same.
Qed.

(** Words of the root block that [flush_batch] overwrites. *)
Lemma same_roots_set s r' : length r' = length (root s) →
  (∀ i : nat, i = root_ix_num ROOT_IX_suspended_accu_type ∨ i = root_ix_num ROOT_IX_suspended_accu → r' !! i = root s !! i) →
  same_roots s (set_root r' s).
Proof. intros Hl Hr. split; [done|done|]. by apply accu_same. Qed.

(** A pointer of the root block that has not changed shows the same. *)
Lemma program_view_set s D D' r' : all_cells D' = all_cells D → declared_roots s →
  (∀ i : nat, i ≠ pinfo_ix → i ≠ freelist_ix → (i = root_ix_num ROOT_IX_suspended_accu ∨ (i < 45)%nat ∧ ix_is_ptr s !! i = Some true) → r' !! i = root s !! i) →
  length r' = length (root s) → same_view (program_loc s D) s D (set_root r' s) D'.
Proof.
  intros Ec Hdec Hr Hl. apply same_view_cells; [exact Ec|]. intros [a|i|sp] x [[Hpp H1] H2] Hx; [done| |done].
  cbn [loc_get root set_root] in *. apply zlookup_Some in Hx as [Hi Hx]. apply zlookup_Some. rewrite Hl. split; [done|]. rewrite Hr; [done|..].
  - intros E. apply H1. f_equal. rewrite <- E. lia.
  - intros E. apply H2. f_equal. rewrite <- E. lia.
  - unfold root_loc in Hpp. change NUMBER_OF_ROOT_IXS with 45 in Hpp. destruct Hpp as [[Hi' Hp]|[-> _]]; [right; split; [lia|done]|by left].
Qed.

(** * After the collection of the first generation *)

Section gathered.
Context `{HP : Params} (s s' : state) (D D' : layout) (L r r' : list Z) (gn w : Z) (φ : gmap Z Z).
Context (Hdb : db s D L r) (Hdb' : db s' D' [] r') (HG : gathering s s' D D' gn φ) (HF : gather_frame s s' gn w).

Lemma gather_await_words : await_words s' D' = await_words s D.
Proof.
  unfold await_words. destruct (gt_lists _ _ _ _ _ _ HG) as (_ & _ & -> & _). f_equal. apply map_eq. intros p. apply option_eq. intros ws.
  rewrite !cells_of_Some. split.
  - intros (Hp & g & Hg & Ha). destruct (gt_only _ _ _ _ _ _ HG p ws Hp) as [Hp0|(p0 & ws0 & Hφ & _)].
    + destruct (gt_kept _ _ _ _ _ _ HG p ws Hp0) as [_ E]. split; [done|]. exists g. by rewrite <- E.
    + destruct (gt_copied _ _ _ _ _ _ HG p0 p Hφ) as (_ & _ & _ & E). exfalso. rewrite Hg in E. injection E as ->.
      apply (gt_new _ _ _ _ _ _ HG). unfold ly_gens. rewrite !elem_of_app. auto.
  - intros (Hp & g & Hg & Ha). destruct (gt_kept _ _ _ _ _ _ HG p ws Hp) as [Hp' E]. split; [done|]. exists g. by rewrite E.
Qed.

Lemma gather_pinfo : ix_is_ptr s !! pinfo_ix = Some true → pinfo_ok s D (ly_new D) → pinfo_ok s' D' (ly_new D').
Proof.
  intros Hix (l & Hl & Hcell). destruct (gt_lists _ _ _ _ _ _ HG) as (EN & _).
  assert (Hpp : root_loc s (ly_smart D).*1 (RootWord (Z.of_nat pinfo_ix))) by (left; rewrite Nat2Z.id; by split).
  assert (Hx : loc_get (RootWord (Z.of_nat pinfo_ix)) s = Some l).
  { simpl. apply zlookup_Some. rewrite Nat2Z.id. split; [apply lookup_lt_Some in Hl; lia|done]. }
  pose proof (gt_roots _ _ _ _ _ _ HG _ l Hpp Hx) as Hl'. simpl in Hl'. apply zlookup_Some in Hl' as [_ Hl']. rewrite Nat2Z.id in Hl'.
  exists (forward φ l). split; [exact Hl'|]. rewrite EN. destruct Hcell as [->|[Hf|[[ws Hc] Hin]]].
  - left. apply forward_null; [|done]. eapply gather_aligned; [exact Hdb|exact Hdb'|exact HG].
  - right. right. assert (Hφ : is_Some (φ !! l)).
    { apply (gt_reach _ _ _ _ _ _ HG). apply reaches_root; [|exact Hf]. by exists (RootWord (Z.of_nat pinfo_ix)). }
    destruct Hφ as [q Hq]. rewrite (forward_Some _ _ _ Hq). destruct (gt_copied _ _ _ _ _ _ HG l q Hq) as (ws & _ & Hq' & Hg).
    split; [by eexists|]. rewrite in_gens_iff. exists gn. split; [exact Hg|by left].
  - right. right. rewrite forward_None by (eapply gather_not_copied; [exact HG|]; eapply old_not_first; [exact Hdb|by eexists]).
    destruct (gt_kept _ _ _ _ _ _ HG l ws Hc) as [Hc' E]. split; [by eexists|]. rewrite in_gens_iff in *. destruct Hin as (g & Hg & Hin).
    exists g. rewrite E. split; [exact Hg|by right].
Qed.

Lemma gather_prev : prev_ok (gc s) (ly_new D) (ly_await D) → prev_ok (gc s') (ly_new D') (ly_await D').
Proof.
  destruct (gt_lists _ _ _ _ _ _ HG) as (-> & _ & -> & _). unfold prev_ok. rewrite (gf_prev _ _ _ _ HF).
  intros [|(H1 & H2 & H3)]; [by left|right]. split; [|done]. rewrite H1. by destruct (ly_new D).
Qed.
End gathered.

(** * The commit *)

(** The database [s] after the root block was written, where the commit group began at
    [s0]: the first generation is empty; [b]
    tells that the list of descriptions is to be started anew. *)
Record committed `{Params} (s0 s : state) (D0 D : layout) (r : list Z) (k w : Z) (b : bool) : Prop := {
  cm_db : db s D [] r;
  cm_being : ly_being D = [];
  cm_first : ly_first D = ∅;
  cm_prev : prev_ok (gc s) (ly_new D) (ly_await D);
  cm_flag : is_collecting (gc s) = true ↔ ly_await D ≠ [];
  cm_pinfo : b = true ∨ pinfo_ok s D (ly_new D);
  cm_roots : same_roots s0 s ∧ (ly_smart D).*1 = (ly_smart D0).*1;
  cm_declared : declared_roots s;
  cm_valid : root_valid (root s);
  cm_new : to_gn (gc s) ∈ ly_new D;
  cm_entry : ∃ x, zlookup (generation_info (gc s)) (to_gn (gc s)) = Some x ∧ gi_npages x = Z.of_nat (length (gi_page x)) ∧
    length (gi_disk_page x) = length (gi_page x) ∧ gi_npages x < MAX_GENERATION_SIZE ∧
    gi_npages x * (N - 2) ≤ 2 * total_words (ly_first D0) + (N - 2);
  cm_room : space_for s (ly_free D) k w;
  cm_steps : Z.of_nat (length (ly_await D)) ≤ k ∧ await_words s D ≤ w;
  cm_view : same_view (program_loc s0 D0) s0 D0 s D
}.

Lemma declared_same s s' : declared_roots s → same_roots s s' → declared_roots s'.
Proof. intros [H1 H2] [_ [E1 E2] _]. split; [by rewrite E2|by rewrite E1]. Qed.

Lemma declared_ptr s x : declared_roots s → root_def x = ROOT_PTR → ix_is_ptr s !! root_ix_num x = Some true.
Proof. intros [_ H] E. by rewrite H, E. Qed.
Lemma declared_word s x v : declared_roots s → root_def x = ROOT_WORD v → ix_is_ptr s !! root_ix_num x ≠ Some true.
Proof. intros [_ H] E. by rewrite H, E. Qed.

Lemma program_loc_same s s' D D' pp : same_roots s s' → (ly_smart D').*1 = (ly_smart D).*1 → program_loc s' D' pp ↔ program_loc s D pp.
Proof. intros Hs El. unfold program_loc. by rewrite (data_loc_same s s' D D'). Qed.

Lemma valid_same s r' : root_valid (root s) → length r' = length (root s) → (∀ i, (i < 3)%nat → r' !! i = root s !! i) → root_valid r'.
Proof.
  intros (H1 & H2 & hi & lo & H3 & H4 & H5) Hl Hr. split; [by rewrite Hl|].
  change (root_ix_num ROOT_IX_magic_cookie) with 0%nat in *. change (root_ix_num ROOT_IX_time_stamp_hi) with 1%nat in *.
  change (root_ix_num ROOT_IX_time_stamp_lo) with 2%nat in *. split; [by rewrite Hr by lia|]. exists hi, lo. by rewrite !Hr by lia.
Qed.

Lemma valid_words s s' : declared_roots s → root_valid (root s) → same_roots s s' → same_words s s' → root_valid (root s').
Proof.
  intros Hd Hv Hs Hw. eapply valid_same; [exact Hv|apply (proj2 (se_ix _ _ Hs))|]. intros i Hi. assert (Hcase : i = 0%nat ∨ i = 1%nat ∨ i = 2%nat) by lia.
  apply Hw; [|destruct Hcase as [-> |[-> | ->]]; done..]. destruct Hcase as [-> |[-> | ->]].
  - exact (declared_word s ROOT_IX_magic_cookie _ Hd eq_refl).
  - exact (declared_word s ROOT_IX_time_stamp_hi _ Hd eq_refl).
  - exact (declared_word s ROOT_IX_time_stamp_lo _ Hd eq_refl).
Qed.

(** The words that [cache_generation_pinfo_to_root] leaves. *)
Lemma cached_low r r' np gn nref ps ds i : cached r r' np gn nref ps ds → (i < 40)%nat → r' !! i = r !! i.
Proof. intros Hc Hi. by apply (ca_low _ _ _ _ _ _ _ Hc). Qed.

Lemma declared_low s i : declared_roots s → (i < 45)%nat → ix_is_ptr s !! i = Some true → (i < 40)%nat.
Proof.
  intros Hd Hi Hp. destruct (decide (i < 40)%nat) as [|Hn]; [done|exfalso].
  assert (Hcase : i = 40%nat ∨ i = 41%nat ∨ i = 42%nat ∨ i = 43%nat ∨ i = 44%nat) by lia.
  destruct Hcase as [-> |[-> |[-> |[-> | ->]]]].
  - exact (declared_word s ROOT_IX_youngest_generation_number_of_pages _ Hd eq_refl Hp).
  - exact (declared_word s ROOT_IX_youngest_generation_number _ Hd eq_refl Hp).
  - exact (declared_word s ROOT_IX_youngest_generation_number_of_referring_ptrs _ Hd eq_refl Hp).
  - exact (declared_word s ROOT_IX_youngest_generation_page_number0 _ Hd eq_refl Hp).
  - exact (declared_word s ROOT_IX_youngest_generation_disk_page_number0 _ Hd eq_refl Hp).
Qed.

Section commit.
Context `{HP : Params}.

(** The root block may change but for its pointers; the list of descriptions may become
    empty. *)
Lemma committed_root s0 s D0 D r k w b r' : committed s0 s D0 D r k w b → length r' = length (root s) → root_valid r' →
  (∀ i : nat, i = root_ix_num ROOT_IX_suspended_accu_type ∨ i = root_ix_num ROOT_IX_suspended_accu ∨
    (i < 45)%nat ∧ ix_is_ptr s !! i = Some true ∧ i ≠ pinfo_ix → r' !! i = root s !! i) →
  r' !! pinfo_ix = root s !! pinfo_ix ∨ r' !! pinfo_ix = Some NULL_WORD → committed s0 (set_root r' s) D0 D r k w b.
Proof.
  intros [C1 C2 C3 C4 C5 C6 [C7 C8] C9 C10 C11 C12 C13 C14 C15] Hl Hv Hr Hp.
  assert (Hsame : same_roots s (set_root r' s)) by (apply same_roots_set; [done|intros i [E|E]; apply Hr; auto]).
  split; try done.
  - apply db_words; [exact C1|exact Hl|]. intros i x Hx. change NUMBER_OF_ROOT_IXS with 45.
    destruct (decide (i = root_ix_num ROOT_IX_suspended_accu_type)) as [E7|N7]; [left; rewrite <- Hx; symmetry; by apply Hr; left|].
    destruct (decide (i = root_ix_num ROOT_IX_suspended_accu)) as [E8|N8]; [left; rewrite <- Hx; symmetry; by apply Hr; right; left|].
    destruct (decide (i < 45)%nat) as [Hi|Hi]; [|right; split_and!; [done|done|right; right; lia]].
    destruct (decide (ix_is_ptr s !! i = Some true)) as [Ht|Ht]; [|right; split_and!; [done|done|right; by left]].
    destruct (decide (i = pinfo_ix)) as [->|Hne].
    + destruct Hp as [E|E]; [left; congruence|right]. split_and!; [done|done|left; congruence].
    + left. rewrite <- Hx. symmetry. apply Hr. auto.
  - destruct C6 as [|(l & Hl' & Hc)]; [by left|right]. destruct Hp as [E|E]; [|exists NULL_WORD; split; [exact E|by left]].
    exists l. split; [cbn [root set_root]; congruence|exact Hc].
  - split; [by transitivity s|done].
  - by eapply declared_same.
  - destruct C13 as [S1 S2 S3]. by split.
  - eapply same_view_trans; [exact C15|]. eapply same_view_mono; [|eapply (program_view_set s D D r'); [done|exact C9| |exact Hl]].
    + intros pp. by apply program_loc_same.
    + intros i Hi1 _ [->|[Hi Ht]]; apply Hr; auto.
Qed.

(** Only variables outside the database change. *)
Lemma committed_io s0 s D0 D r k w b x r' : committed s0 s D0 D r k w b → disk x (ly_disk D) r' →
  length (file x) = length (file (io (gc s))) → number_of_free_disk_pages x = number_of_free_disk_pages (io (gc s)) →
  committed s0 (put_io x s) D0 D r' k w b.
Proof.
  intros [C1 C2 C3 C4 C5 C6 [C7 C8] C9 C10 C11 C12 [S1 S2 S3] C14 C15] Hx Hl Hn. split; try done.
  - by eapply db_io.
  - split; [by transitivity s|done].
  - split; cbn [put_io gc set_gc io set_io generation_info number_of_nonexistent_generations]; rewrite ?Hl, ?Hn; done.
  - eapply same_view_trans; [exact C15|]. apply same_view_cells; [done|]. by intros [a|i|sp] y.
Qed.

Lemma wp_drop_freelist s D r (Q : unit → state → Prop) : batch_ok s D r →
  (∀ s', batch_ok s' D r → same_roots s s' → same_view (program_loc s D) s D s' D →
    (∀ k w, batch_room s D k w → batch_room s' D k w) → gc s' = gc s → Q tt s') →
  wp (set_root_item ROOT_IX_oid_freelist NULL_WORD) Q s.
Proof.
  intros [B1 B2 B3 B4 B5 B6 B7] HQ. pose proof B6 as [Hlen _]. change (Z.to_nat NUMBER_OF_ROOT_BLOCK_ITEMS) with 128%nat in Hlen.
  change freelist_ix with 18%nat in *. apply wp_set_root_item; [rewrite Hlen; by apply Nat.ltb_lt|]. change freelist_ix with 18%nat.
  set (r' := <[18%nat := NULL_WORD]> (root s)).
  assert (Hr : ∀ i : nat, i ≠ 18%nat → r' !! i = root s !! i) by (intros i Hi; by apply list_lookup_insert_ne).
  assert (Hl : length r' = length (root s)) by apply length_insert.
  assert (Hsame : same_roots s (set_root r' s)) by (apply same_roots_set; [done|intros i [-> | ->]; by apply Hr]).
  apply HQ; [|exact Hsame| | |done].
  - split; try done.
    + apply db_words; [exact B1|exact Hl|]. intros i x Hx. destruct (decide (i = 18%nat)) as [->|Hi]; [right|left; by rewrite <- Hr].
      split_and!; [done|done|left]. subst r'. rewrite list_lookup_insert_eq in Hx by (rewrite Hlen; by apply Nat.ltb_lt). by injection Hx as <-.
    + destruct B5 as [|(l & Hl' & Hc)]; [by left|right]. exists l. split; [|exact Hc]. cbn [root set_root]. by rewrite Hr.
    + by eapply declared_same.
    + eapply valid_same; [exact B7|exact Hl|]. intros i Hi. apply Hr. lia.
  - apply program_view_set; [done|exact B6| |exact Hl]. intros i _ Hi _. by apply Hr.
  - intros k w [[S1 S2 S3] R2 R3 R4]. split; [|done..]. by split.
Qed.

Lemma wp_gather_batch fuel s D r k w (Q : Z → state → Prop) : batch_ok s D r → batch_room s D k w →
  (2 * length (generation_info (gc s)) < fuel)%nat → w < Z.of_nat fuel → (length (ly_smart D) < fuel)%nat →
  (∀ n s' D', committed s s' D D' r (k - 1) (w - total_words (ly_first D)) (major_gc_was_started (gc s)) →
    youngest_gn (gc s') = to_gn (gc s') → major_gc_was_started (gc s') = major_gc_was_started (gc s) → Q n s') →
  wp (collect_first_generation fuel) Q s.
Proof.
  intros Hok [R1 R2 R3 R4] Hf1 Hf2 Hf3 HQ. pose proof Hok as [B1 B2 B3 B4 B5 B6 B7].
  pose proof (total_words_nonneg (cells_of s (ly_cells D) (ly_await D))) as Hpos. fold (await_words s D) in Hpos.
  eapply (wp_gather fuel s D _ r k w); [exact B1|exact B2|exact R1|lia|lia|exact Hf1|lia|exact Hf3|].
  intros n s' D' gn φ Hdb' HG HF Hsp. pose proof (gf_same _ _ _ _ HF) as [[Hs Hw] Hfl]. unfold flags in Hfl. injection Hfl as _ Hst Hco.
  destruct (gt_lists _ _ _ _ _ _ HG) as (L1 & L2 & L3 & L4). destruct (gf_to_gn _ _ _ _ HF) as [Eto Ey].
  apply (HQ n s' D'); [|congruence|exact Hst]. split.
  - exact Hdb'.
  - exact L2.
  - exact (gt_first _ _ _ _ _ _ HG).
  - by eapply gather_prev.
  - by rewrite Hco, L3.
  - destruct B5 as [B5|B5]; [by left|right]. eapply gather_pinfo; [exact B1|exact Hdb'|exact HG| |exact B5].
    by eapply (declared_ptr s ROOT_IX_generation_pinfo_list).
  - split; [exact Hs|exact (gt_smart _ _ _ _ _ _ HG)].
  - by eapply declared_same.
  - by eapply valid_words.
  - rewrite L1, Eto. by left.
  - rewrite Eto. exact (gf_entry _ _ _ _ HF).
  - exact Hsp.
  - rewrite L3. split; [lia|]. rewrite (gather_await_words s s' D D' gn φ HG). lia.
  - eapply same_view_mono; [|eapply gather_view; [exact B1|exact Hdb'|exact HG]]. by intros pp [[Hpp _] _].
Qed.

Lemma wp_cache s0 s D0 D r k w b nref (Q : unit → state → Prop) : committed s0 s D0 D r k w b → youngest_gn (gc s) = to_gn (gc s) →
  (∀ r', committed s0 (set_root r' s) D0 D r k w b → Q tt (set_root r' s)) → wp (cache_generation_pinfo_to_root nref) Q s.
Proof.
  intros Hc Ey HQ. destruct (cm_entry _ _ _ _ _ _ _ _ Hc) as (x & Hx & En & Ed & Hmax & _). pose proof (cm_declared _ _ _ _ _ _ _ _ Hc) as Hdec.
  eapply wp_cache_generation_pinfo_to_root; [apply Hdec|by rewrite Ey|exact En|exact Ed|lia|]. intros r' Hr'. apply HQ.
  apply committed_root; [exact Hc|apply (ca_length _ _ _ _ _ _ _ Hr')| | |].
  - eapply valid_same; [apply Hc|apply (ca_length _ _ _ _ _ _ _ Hr')|]. intros i Hi. eapply cached_low; [exact Hr'|lia].
  - intros i Hi. eapply cached_low; [exact Hr'|]. destruct Hi as [-> |[-> |(Hi & Ht & _)]]; [by apply Nat.ltb_lt..|by eapply declared_low].
  - left. eapply cached_low; [exact Hr'|]. by apply Nat.ltb_lt.
Qed.

Lemma next_stamp_low r r' i : next_stamp r r' → i ≠ 1%nat → i ≠ 2%nat → r' !! i = r !! i.
Proof.
  intros (hi & lo & hi' & lo' & _ & _ & _ & _ & _ & ->) H1 H2. change (root_ix_num ROOT_IX_time_stamp_hi) with 1%nat.
  change (root_ix_num ROOT_IX_time_stamp_lo) with 2%nat. by rewrite !list_lookup_insert_ne.
Qed.

Lemma next_stamp_valid r r' : root_valid r → next_stamp r r' → root_valid r' ∧ length r' = length r.
Proof.
  intros (H1 & H2 & _) Hn. pose proof Hn as (hi & lo & hi' & lo' & Hhi & Hlo & W1 & W2 & _ & E).
  assert (El : length r' = length r) by (by rewrite E, !length_insert). split; [|done]. split; [by rewrite El|]. split; [by rewrite (next_stamp_low r)|].
  apply lookup_lt_Some in Hhi, Hlo. exists hi', lo'. rewrite E. split; [|split; [|done]].
  - rewrite list_lookup_insert_ne by done. by apply list_lookup_insert_eq.
  - apply list_lookup_insert_eq. by rewrite length_insert.
Qed.

Lemma committed_stamp s0 s D0 D r k w b r' : committed s0 s D0 D r k w b → next_stamp (root s) r' → committed s0 (set_root r' s) D0 D r k w b.
Proof.
  intros Hc Hn. pose proof (cm_declared _ _ _ _ _ _ _ _ Hc) as Hdec. destruct (next_stamp_valid _ _ (cm_valid _ _ _ _ _ _ _ _ Hc) Hn) as [Hv Hl].
  apply committed_root; [exact Hc|exact Hl|exact Hv| |].
  - intros i Hi. eapply next_stamp_low; [exact Hn|..]; intros ->; destruct Hi as [E|[E|(_ & Ht & _)]]; try discriminate E.
    + exact (declared_word s ROOT_IX_time_stamp_hi _ Hdec eq_refl Ht).
    + exact (declared_word s ROOT_IX_time_stamp_lo _ Hdec eq_refl Ht).
  - left. by eapply next_stamp_low.
Qed.

Lemma wp_write_root s0 s D0 D r k w b (Q : unit → state → Prop) : committed s0 s D0 D r k w b →
  (∀ s', committed s0 s' D0 D (root s) k w b → next_stamp (root s) (root s') →
    major_gc_was_started (gc s') = major_gc_was_started (gc s) → Q tt s') → wp io_write_root Q s.
Proof.
  intros Hc HQ. rewrite <- (put_io_same s). eapply wp_io_write_root; [apply (db_disk _ _ _ _ (cm_db _ _ _ _ _ _ _ _ Hc))|apply Hc|].
  intros x r' Hx Hl Hn Hst. apply HQ; [|exact Hst|done]. change (put_io x (set_root r' s)) with (set_root r' (put_io x s)).
  apply committed_stamp; [|exact Hst]. by eapply committed_io.
Qed.

Lemma wp_clear s0 s D0 D r k w b (Q : unit → state → Prop) : committed s0 s D0 D r k w b →
  (∀ s', committed s0 s' D0 D r k w b → first_generation_allocation_ptr s' = first_generation_start s' → root s' = root s → gc s' = gc s → Q tt s') →
  wp clear_first_generation Q s.
Proof.
  intros [C1 C2 C3 C4 C5 C6 [C7 C8] C9 C10 C11 C12 [S1 S2 S3] C14 C15] HQ. eapply wp_clear_db; [exact C1|exact C3|]. intros m s' Hdb'. apply HQ; [|done..].
  split; try done.
  - split; [by transitivity s|done].
  - eapply same_view_trans; [exact C15|]. apply same_view_cells; [done|].
    intros [a|i|sp] y Hpp; [by destruct Hpp as [[[] _] _]|done..].
Qed.

(** ** A new list of descriptions *)

Lemma length_twice s D L r : db s D L r → (length (ly_twice D) ≤ length (generation_info (gc s)))%nat.
Proof.
  intros Hdb. pose proof (db_retired _ _ _ _ Hdb) as [_ R2 R3 _ _ _]. apply length_below.
  - by apply NoDup_app in R3 as (_ & _ & (_ & _ & ?)%NoDup_app).
  - intros g Hg. destruct (follows_lookup _ _ _ _ _ R2 Hg) as [x Hx]. by apply zlookup_Some in Hx as [? _].
Qed.

Lemma wp_mark_twice_committed fuel s0 s D0 D r k w b (Q : unit → state → Prop) : committed s0 s D0 D r k w b →
  (length (generation_info (gc s)) < fuel)%nat →
  (∀ s' D', committed s0 s' D0 D' r k w b → ly_await D' = ly_await D → ly_new D' = ly_new D → root s' = root s → smart_ptrs (gc s') = smart_ptrs (gc s) →
    first_generation_allocation_ptr s' = first_generation_allocation_ptr s → first_generation_start s' = first_generation_start s →
    major_gc_was_started (gc s') = major_gc_was_started (gc s) → Q tt s') →
  wp (mark_twice_collected_generations_nonexistent fuel) Q s.
Proof.
  intros [C1 C2 C3 C4 C5 C6 [C7 C8] C9 C10 C11 C12 [S1 S2 S3] C14 C15] Hfuel HQ. pose proof (length_twice _ _ _ _ C1) as Hl.
  eapply (wp_mark_twice_db fuel s D [] r); [exact C1|exact C2|lia|]. intros t' x A' m Hdb' Hlt Hlf Hfr Hm Ht. set (s' := set_gc _ _) in *.
  apply (HQ s' (no_twice A' D)); [|done..]. split; try done.
  - split; [by transitivity s|done].
  - destruct C12 as (y & Hy & H). exists y. split; [|done]. change (to_gn (gc s')) with (to_gn (gc s)). change (generation_info (gc s')) with t'.
    rewrite Ht; [done|]. apply elem_of_app. by left.
  - split; cbn; [done|..].
    + change (N - 2) with 16382 in *. lia.
    + lia.
  - eapply same_view_trans; [exact C15|]. apply same_view_cells; [done|]. by intros [a|i|sp] z.
Qed.

Lemma committed_flag s0 s D0 D r k w b v : committed s0 s D0 D r k w b → committed s0 (set_gc (set_major_gc_was_started v (gc s)) s) D0 D r k w b.
Proof.
  intros [C1 C2 C3 C4 C5 C6 [C7 C8] C9 C10 C11 C12 [S1 S2 S3] C14 C15]. split; try done.
  - assert (E : set_gc (set_major_gc_was_started v (gc s)) s = set_gc (set_is_collecting (is_collecting (gc s)) (set_major_gc_was_started v (gc s))) s)
      by by destruct s as [? ? ? ? ? ? ? ? []]. rewrite E. by apply db_flags.
  - split; [by transitivity s|done].
  - eapply same_view_trans; [exact C15|]. apply same_view_cells; [done|]. by intros [a|i|sp] z.
Qed.

(** The list of descriptions is moved: the previous list's words are not pointers. *)
Lemma committed_shift s0 s D0 D r k w b l1 l2 : committed s0 s D0 D r k w b →
  committed s0 (set_root (<[pinfo_ix := NULL_WORD]> (<[root_ix_num ROOT_IX_prev_generation_pinfo_list := l1]>
    (<[root_ix_num ROOT_IX_prev_prev_generation_pinfo_list := l2]> (root s)))) s) D0 D r k w false.
Proof.
  intros Hc. pose proof (cm_declared _ _ _ _ _ _ _ _ Hc) as Hdec. destruct (cm_valid _ _ _ _ _ _ _ _ Hc) as [Hlen _].
  change (Z.to_nat NUMBER_OF_ROOT_BLOCK_ITEMS) with 128%nat in Hlen.
  pose proof (declared_word s ROOT_IX_prev_generation_pinfo_list _ Hdec eq_refl) as Hp1. pose proof (declared_word s ROOT_IX_prev_prev_generation_pinfo_list _ Hdec eq_refl) as Hp2.
  change pinfo_ix with 37%nat in *. change (root_ix_num ROOT_IX_prev_generation_pinfo_list) with 38%nat in *.
  change (root_ix_num ROOT_IX_prev_prev_generation_pinfo_list) with 39%nat in *. set (r' := <[37%nat := _]> _).
  assert (Hr : ∀ i : nat, i ≠ 37%nat → i ≠ 38%nat → i ≠ 39%nat → r' !! i = root s !! i).
  { intros i H1 H2 H3. subst r'. by rewrite !list_lookup_insert_ne. }
  assert (Hl : length r' = length (root s)) by (subst r'; by rewrite !length_insert).
  assert (H37 : r' !! 37%nat = Some NULL_WORD).
  { apply list_lookup_insert_eq. rewrite !length_insert, Hlen. by apply Nat.ltb_lt. }
  assert (Hc' : committed s0 (set_root r' s) D0 D r k w b).
  { apply committed_root; [exact Hc|exact Hl| |..].
    - eapply valid_same; [apply Hc|exact Hl|]. intros i Hi. apply Hr; lia.
    - intros i Hi. apply Hr; intros ->; destruct Hi as [E|[E|(_ & Ht & Hne)]]; try discriminate E; [by apply Hne|by apply Hp1|by apply Hp2].
    - by right. }
  destruct Hc' as [C1 C2 C3 C4 C5 _ C7 C9 C10 C11 C12 C13 C14 C15]. split; try done. right. exists NULL_WORD. split; [exact H37|by left].
Qed.

Lemma wp_start_pinfo_list fuel s0 s D0 D r k w b (Q : unit → state → Prop) : committed s0 s D0 D r k w b →
  (length (generation_info (gc s)) < fuel)%nat → first_generation_allocation_ptr s = first_generation_start s →
  (∀ s' D', committed s0 s' D0 D' r k w false → first_generation_allocation_ptr s' = first_generation_start s' → Q tt s') →
  wp (start_pinfo_list fuel) Q s.
Proof.
  intros Hc Hfuel Hap HQ. unfold start_pinfo_list. apply wp_bind, wp_set_gcs, wp_bind.
  eapply wp_mark_twice_committed; [by apply committed_flag|exact Hfuel|]. intros s2 D2 Hc2 _ _ Er _ Ea Es _.
  destruct (cm_valid _ _ _ _ _ _ _ _ Hc2) as [Hlen _]. change (Z.to_nat NUMBER_OF_ROOT_BLOCK_ITEMS) with 128%nat in Hlen.
  set (i1 := root_ix_num ROOT_IX_prev_generation_pinfo_list) in *. set (i2 := root_ix_num ROOT_IX_prev_prev_generation_pinfo_list) in *.
  destruct (lookup_lt_is_Some_2 (root s2) i1) as [l2 Hl2]; [rewrite Hlen; by apply Nat.ltb_lt|].
  destruct (lookup_lt_is_Some_2 (root s2) pinfo_ix) as [l1 Hl1]; [rewrite Hlen; by apply Nat.ltb_lt|].
  apply wp_bind. eapply wp_get_root; [exact Hl2|]. apply wp_bind, wp_set_root_item; [fold i2; rewrite Hlen; by apply Nat.ltb_lt|]. fold i2.
  apply wp_bind. eapply wp_get_root; [cbn [root set_root]; rewrite list_lookup_insert_ne by done; exact Hl1|].
  apply wp_bind, wp_set_root_item; [fold i1; cbn [root set_root]; rewrite length_insert, Hlen; by apply Nat.ltb_lt|]. fold i1.
  apply wp_set_root_item; [cbn [root set_root]; rewrite !length_insert, Hlen; by apply Nat.ltb_lt|].
  pose proof (committed_shift _ _ _ _ _ _ _ _ l1 l2 Hc2) as Hc3. apply (HQ _ D2); [exact Hc3|]. cbn [first_generation_allocation_ptr first_generation_start set_root]. rewrite Ea, Es. exact Hap.
Qed.

(** ** The description of the new generation *)

(** A cell that no data root leads to is invisible. *)
Lemma log_view s s' D D' L L' r r' w : db s D L r → db s' D' L' r' → ly_first D = ∅ → ly_cells D' = ly_cells D → log_frame s s' w →
  same_view (data_loc s D) s D s' D'.
Proof.
  intros Hdb Hdb' EF Ec [E1 _ _ E4]. assert (Hφ : aligned_map ∅) by (intros p q ?%lookup_empty_Some; done).
  assert (Hf : ∀ x, forward ∅ x = x) by (intros x; by apply forward_None).
  assert (Hfw : ∀ ws, forward_words ∅ ws = ws) by (intros ws; by apply forward_words_same).
  assert (Hold : ∀ p, all_cells D !! p = ly_cells D !! p) by (intros p; unfold all_cells; by rewrite EF, map_union_empty).
  eapply (same_view_iso _ s D s' D' ∅ (λ x, x = NULL_WORD ∨ is_Some (ly_cells D !! x))); [exact Hφ|..].
  - intros p ws i x _ Hw Hr Hx. right. rewrite Hold in Hw. by eapply (old_ref _ _ _ _ Hdb).
  - intros p [->|Hp]; rewrite Hf.
    + by rewrite (no_null_cell _ _ _ _ Hdb), (no_null_cell _ _ _ _ Hdb').
    + rewrite all_cells_old by by rewrite Ec. rewrite Hold, Ec. destruct Hp as [ws Hp]. rewrite Hp. cbn [fmap option_fmap option_map]. by rewrite Hfw.
  - intros p q _ _. by rewrite !Hf.
  - intros pp x [Hpp Hne] Hx. rewrite Hf. split.
    + destruct (root_target _ _ _ _ Hdb pp x Hpp Hx) as [|[Hc|[ws Hc]]]; [by left|by right|]. rewrite EF in Hc. by apply lookup_empty_Some in Hc.
    + destruct pp as [a|i|sp]; [done| |]; cbn [loc_get] in *; [|by rewrite E1]. apply zlookup_Some in Hx as [Hi Hx].
      assert (Hx' : root s' !! Z.to_nat i = Some x).
      { rewrite E4; [exact Hx|]. intros E. apply Hne. f_equal. rewrite <- E. lia. }
      apply zlookup_Some. split; [|done]. apply lookup_lt_Some in Hx'. lia.
Qed.

Lemma wp_log_batch s0 s D0 D r k w nref (Q : unit → state → Prop) : committed s0 s D0 D r k w false →
  first_generation_allocation_ptr s = first_generation_start s →
  4 * (4 * (w + total_words (ly_first D0)) + 6 * (k + 1) * (N - 2)) ≤ (first_generation_start s - first_generation_end s) * (N - 2) →
  0 ≤ k → 0 ≤ w →
  (∀ s' D', collecting s' D' (ly_new D) r k w → ly_gens D' ≠ [] → same_roots s0 s' → (ly_smart D').*1 = (ly_smart D0).*1 →
    same_view (program_loc s0 D0) s0 D0 s' D' → root_valid (root s') → length (generation_info (gc s')) = length (generation_info (gc s)) → Q tt s') →
  wp (log_to_generation_pinfo_list 0 nref) Q s.
Proof.
  intros [C1 C2 C3 C4 C5 C6 [C7 C8] C9 C10 C11 (x & Hx & En & Ed & Hmax & Hfew) C13 [C14 C15] C16] Hap Hroom Hk0 Hw0 HQ.
  pose proof (db_refers s D [] (ly_new D) r C1 ltac:(by intros g ?%not_elem_of_nil)) as Hdb. destruct C6 as [|Hpi]; [done|].
  pose proof (total_words_nonneg (ly_first D0)) as Hpos. change (N - 2) with 16382 in *. change MAX_GENERATION_SIZE with 41 in *.
  eapply (wp_log s D (ly_new D) r x 0 nref); [exact Hdb|exact Hpi|exact Hx|exact En|exact Ed|change MAX_GENERATION_SIZE with 41; lia|lia|lia|].
  intros s' p l ws Hl Hws Hdb' Hpi' Hp _ Hlf. set (D' := with_young _ D) in *. pose proof Hpi as (l0 & Hl0 & _).
  destruct (log_undisturbed s s' _ l0 p Hlf Hl0 Hp) as [[Hs Hw] Hfl]. pose proof (lf_gc _ _ _ Hlf) as Eg.
  apply (HQ s' D').
  - split; cbn [D' with_young ly_new ly_await ly_being ly_free]; rewrite ?Eg; try done.
    + destruct (lf_first _ _ _ Hlf) as (F1 & F2 & F3). destruct C13 as [S1 S2 S3]. change (N - 2) with 16382 in *.
      split; rewrite ?Eg, ?F2, ?F3; change (N - 2) with 16382; [exact S1|exact S2| |exact S3]. rewrite Hap. lia.
    + unfold await_words. cbn [D' with_young ly_cells ly_await]. assert (Hg : ∀ a, is_Some (ly_cells D !! a) → gen_of s' a = gen_of s a).
      { intros a _. unfold gen_of. by rewrite Eg. }
      rewrite (cells_of_same s s' _ Hg). exact C15.
  - intros E. unfold ly_gens in E. cbn [D' with_young ly_new] in E. apply app_nil in E as [E _]. rewrite E in C11. by apply not_elem_of_nil in C11.
  - by transitivity s.
  - exact C8.
  - eapply same_view_trans; [exact C16|]. eapply same_view_mono; [|eapply log_view; [exact Hdb|exact Hdb'|exact C3|done|exact Hlf]].
    intros pp [Hpp _]. by rewrite (data_loc_same s0 s D0 D).
  - eapply valid_same; [exact C10|apply (proj2 (se_ix _ _ Hs))|]. intros i Hi. apply (lf_root _ _ _ Hlf). change pinfo_ix with 37%nat. lia.
  - by rewrite Eg.
Qed.
End commit.

(** * Group commit *)

(** The database after a group commit: consistent, and the same for the program.  The
    root block on disk is the one of a database whose first generation was empty and
    that showed the program the same. *)
Record batch_result `{Params} (s s' : state) (D D' : layout) (r' : list Z) : Prop := {
  rs_ok : batch_ok s' D' r';
  rs_roots : same_roots s s' ∧ (ly_smart D').*1 = (ly_smart D).*1;
  rs_view : same_view (program_loc s D) s D s' D';
  rs_durable : ∃ s1 D1, db s1 D1 [] r' ∧ ly_first D1 = ∅ ∧ next_stamp r' (root s1) ∧ same_view (program_loc s D) s D s1 D1
}.

Section flush.
Context `{HP : Params} (shrinks_little : Z → bool) (gc_is_late : Z → Z → bool) (fuel : nat).
Context (Hpages : 0 ≤ number_of_pages_to_mark) (Hfuel : 2 * INV < Z.of_nat fuel).

Lemma wp_flush_batch s D r k w (Q : unit → state → Prop) : batch_ok s D r → batch_room s D k w → w < Z.of_nat fuel →
  (length (ly_smart D) < fuel)%nat → first_generation_allocation_ptr s ≠ first_generation_start s →
  (∀ s' D' r', batch_result s s' D D' r' → Q tt s') → wp (flush_batch shrinks_little gc_is_late fuel) Q s.
Proof.
  intros Hok Hroom Hw Hsm Hap HQ. unfold flush_batch. apply wp_bind, wp_gets, wp_bind, wp_gets. rewrite bool_decide_eq_false_2 by done.
  apply wp_bind. eapply wp_drop_freelist; [exact Hok|]. intros s1 Hok1 Hs1 Hv1 Hr1 Eg1. specialize (Hr1 k w Hroom). pose proof (bt_declared _ _ _ Hok) as Hdec. clear Hok.
  pose proof Hr1 as [[_ _ [Hgi _]] Hfst Hst Hwd]. pose proof (total_words_nonneg (ly_first D)) as Hpos.
  pose proof (total_words_nonneg (cells_of s1 (ly_cells D) (ly_await D))) as Hpos'. fold (await_words s1 D) in Hpos'.
  apply wp_bind. eapply wp_gather_batch; [exact Hok1|exact Hr1|lia|exact Hw|exact Hsm|]. intros nref s2 D2 Hc2 Ey Ef2.
  set (b := major_gc_was_started (gc s1)) in *.
  assert (Hc2' : committed s s2 D D2 r (k - 1) (w - total_words (ly_first D)) b).
  { destruct Hc2 as [C1 C2 C3 C4 C5 C6 [C7 C8] C9 C10 C11 C12 C13 C14 C15]. split; try done; [split; [by transitivity s1|done]|].
    eapply same_view_trans; [exact Hv1|]. eapply same_view_mono; [|exact C15]. intros pp. by apply program_loc_same. }
  clear Hc2. apply wp_bind. eapply wp_cache; [exact Hc2'|exact Ey|]. intros r3 Hc3. set (s3 := set_root r3 s2) in *.
  apply wp_bind. eapply wp_write_root; [exact Hc3|]. intros s4 Hc4 Hstamp Ef4. set (r' := root s3) in *.
  apply wp_bind. eapply wp_clear; [exact Hc4|]. intros s5 Hc5 Hap5 Er5 Eg5. apply wp_bind, wp_gcs.
  assert (Eb : major_gc_was_started (gc s5) = b) by (rewrite Eg5, Ef4; exact Ef2). rewrite Eb.
  assert (Hdur : ∃ s1 D1, db s1 D1 [] r' ∧ ly_first D1 = ∅ ∧ next_stamp r' (root s1) ∧ same_view (program_loc s D) s D s1 D1).
  { exists s4, D2. split; [apply Hc4|]. split; [apply Hc4|]. split; [exact Hstamp|apply Hc4]. }
  assert (Hend : ∀ s6 D6, committed s s6 D D6 r' (k - 1) (w - total_words (ly_first D)) false →
    first_generation_allocation_ptr s6 = first_generation_start s6 →
    wp (log_to_generation_pinfo_list 0 nref;; major_gc shrinks_little gc_is_late fuel false) Q s6).
  { intros s6 D6 Hc6 Hap6. destruct (cm_roots _ _ _ _ _ _ _ _ Hc6) as [Hs6 Esm6]. pose proof (cm_declared _ _ _ _ _ _ _ _ Hc6) as Hdec6.
    destruct (se_first _ _ Hs6) as [Est Een]. destruct (se_first _ _ Hs1) as [Est1 Een1].
    apply wp_bind. eapply wp_log_batch; [exact Hc6|exact Hap6| |lia|lia|].
    { change (N - 2) with 16382 in *. lia. }
    intros s7 D7 Hco HV Hs7 Esm7 Hv7 Hval7 Elen7. pose proof Hco as [K1 _ _ _ _ _ K7 _ _]. destruct (rm_gens _ _ _ _ K7) as [Hinv7 _].
    pose proof (length_gens _ _ _ _ K1) as Hlen7. unfold ly_gens in Hlen7. rewrite !length_app in Hlen7.
    eapply (wp_major_gc shrinks_little gc_is_late fuel Hpages Hfuel false s7 D7); [exact Hco|exact HV|lia|by rewrite (smart_length _ _ Esm7)| |].
    { assert (1 < INV) by done. lia. }
    intros s8 D8 [M1 M2 M3 M4 M5 [[M6 M6'] M7] M8] _. apply (HQ s8 D8 r'). split.
    - split; try done.
      + eapply declared_same; [|exact M6]. exact (declared_same s s7 Hdec Hs7).
      + eapply valid_words; [|exact Hval7|exact M6|exact M6']. exact (declared_same s s7 Hdec Hs7).
    - split; [by transitivity s7|congruence].
    - eapply same_view_trans; [exact Hv7|]. eapply same_view_mono; [|exact M8]. intros pp [Hpp _]. by rewrite (data_loc_same s s7 D D7).
    - exact Hdur. }
  destruct b.
  - apply wp_bind. eapply wp_start_pinfo_list; [exact Hc5| |exact Hap5|].
    { destruct (cm_room _ _ _ _ _ _ _ _ Hc5) as [_ _ [Hi _]]. lia. }
    intros s6 D6 Hc6 Hap6. by eapply Hend.
  - apply wp_bind, wp_ret. by eapply Hend.
Qed.
End flush.

(** ** A sample *)

Lemma sample_declared st : declared_roots (sample_state st).
Proof. unfold declared_roots. cbn [root ix_is_ptr sample_state]. split; [by vm_compute|]. intros x. destruct x; by vm_compute. Qed.

Lemma sample_root_valid st : root_valid (root (sample_state st)).
Proof. cbn [root sample_state]. split; [by vm_compute|]. split; [by vm_compute|]. exists 0, 0. by split_and!. Qed.

Lemma sample_no_words st B O : total_words (cells_of (sample_state st) (ly_cells (sample_layout B O)) []) = 0.
Proof.
  assert (E : cells_of (sample_state st) (ly_cells (sample_layout B O)) [] = ∅); [|by rewrite E].
  apply map_empty. intros p. apply eq_None_not_Some. intros [ws (_ & g & _ & Hg)%cells_of_Some]. by apply not_elem_of_nil in Hg.
Qed.

(** C1. [flush_batch], with room and fuel for it, returns; when nothing was allocated it
    does nothing, and otherwise the database is consistent afterwards and shows the
    program the same: along every path from a data root or a smart pointer are the same
    data, and two paths lead to the same cell after the commit exactly if they did
    before it.  The root block on disk belongs to a database that shows the same and
    whose first generation is empty. *)
Theorem flush_batch_correct `{HP : Params} shrinks_little gc_is_late fuel s D r k w : batch_ok s D r → batch_room s D k w →
  0 ≤ number_of_pages_to_mark → 2 * INV < Z.of_nat fuel → w < Z.of_nat fuel → (length (ly_smart D) < fuel)%nat →
  ∃ s', flush_batch shrinks_little gc_is_late fuel s = Ok tt s' ∧
    (first_generation_allocation_ptr s = first_generation_start s → s' = s) ∧
    (first_generation_allocation_ptr s ≠ first_generation_start s → ∃ D' r', batch_result s s' D D' r').
Proof.
  intros Hok Hroom Hpages Hfuel Hw Hsm. destruct (decide (first_generation_allocation_ptr s = first_generation_start s)) as [Hap|Hap].
  - assert (Hwp : wp (flush_batch shrinks_little gc_is_late fuel) (λ _ s', s' = s) s).
    { unfold flush_batch. apply wp_bind, wp_gets, wp_bind, wp_gets. rewrite bool_decide_eq_true_2 by done. by apply wp_ret. }
    apply wp_inv in Hwp as ([] & s' & E & ->). by exists s.
  - assert (Hwp : wp (flush_batch shrinks_little gc_is_late fuel) (λ _ s', ∃ D' r', batch_result s s' D D' r') s).
    { eapply wp_flush_batch; [exact Hpages|exact Hfuel|exact Hok|exact Hroom|exact Hw|exact Hsm|exact Hap|]. eauto. }
    apply wp_inv in Hwp as ([] & s' & E & HR). exists s'. by split_and!.
Qed.

#[local] Existing Instance sample_params.

Lemma flush_batch_correct_witness : first_generation_allocation_ptr (sample_state NORMAL) ≠ first_generation_start (sample_state NORMAL) ∧
  ∃ s', flush_batch (λ _, false) (λ _ _, false) (Z.to_nat 8589934592) (sample_state NORMAL) = Ok tt s' ∧
    (first_generation_allocation_ptr (sample_state NORMAL) = first_generation_start (sample_state NORMAL) → s' = sample_state NORMAL) ∧
    (first_generation_allocation_ptr (sample_state NORMAL) ≠ first_generation_start (sample_state NORMAL) →
      ∃ D' r', batch_result (sample_state NORMAL) s' (sample_layout [] [0]) D' r').
Proof.
  split; [done|]. apply (flush_batch_correct _ _ _ _ (sample_layout [] [0]) [] 1 9).
  - split.
    + eapply db_refers; [apply sample_db; [done|by right]|]. by intros g ?%not_elem_of_nil.
    + done.
    + by left.
    + split; [discriminate|done].
    + right. exact (sample_pinfo NORMAL [] [0]).
    + apply sample_declared.
    + apply sample_root_valid.
  - split.
    + exact (proj1 (proj1 (room_space _ _ _ _) (sample_room NORMAL))).
    + change (N - 2) with 16382. change (4 * (4 * 9 + 6 * 1 * 16382) ≤ (196768 - 196608) * 16382). lia.
    + simpl. lia.
    + assert (E : await_words (sample_state NORMAL) (sample_layout [] [0]) = 0) by apply sample_no_words. rewrite E.
      assert (E2 : total_words (ly_first (sample_layout [] [0])) = 3) by by vm_compute. rewrite E2. lia.
  - by apply (bool_decide_unpack _).
  - rewrite Z2Nat.id by lia. by apply (bool_decide_unpack _).
  - rewrite Z2Nat.id by lia. lia.
  - apply Nat2Z.inj_lt. rewrite Z2Nat.id by lia. simpl. lia.
Defined.
