(* ===== verification/Priq.v ===== *)
(** Priority queues (priq.h and priq.c): binomial heaps, merged like binary
    numbers are added, without changing the cells of the arguments. *)

From S2P Require Import Prelude Machine Celltypes Shades Cow Root Compare Cells.

(** * Operations *)

Definition PRIQ_MAX_ALLOCATION : Z := 4 + 3 * (4 * 32).

Definition PRIQ_IS_EMPTY (priq : Z) : bool := bool_decide (priq = NULL_PTR).

Definition HEIGHT (p : Z) : M Z := w ← rd p 0; mret (Z.land w LOW_MASK).
Definition ITEM (p : Z) : M Z := rd p 1.
Definition SON (p : Z) : M Z := rd p 2.
Definition NEXT (p : Z) : M Z := rd p 3.

Definition find_min_step (item_cmp : cmp_fun) : Z * Z → M ((Z * Z) + Z) :=
  λ '(p, minimum_tree),
  p ← NEXT p;
  if bool_decide (p = NULL_PTR) then mret (inr minimum_tree)
  else
    a ← ITEM minimum_tree; b ← ITEM p;
    cmp_result ← item_cmp a b;
    massert (negb (bool_decide (cmp_result = CMP_ERROR)));;
    if bool_decide (cmp_result = CMP_GREATER) then mret (inl (p, p))
    else mret (inl (p, minimum_tree)).

Definition find_min (fuel : nat) (priq : Z) (item_cmp : cmp_fun) : M Z :=
  if bool_decide (priq = NULL_PTR) then mret NULL_PTR
  else loop fuel (find_min_step item_cmp) (priq, priq).

(** [pq_1\[3\] != NULL_WORD && HEIGHT(pq_1) == HEIGHT(WORD_TO_PTR(pq_1\[3\]))] *)
Definition first_two_equal (pq_1 : Z) : M bool :=
  n ← rd pq_1 3;
  if bool_decide (n = NULL_WORD) then mret false
  else
    h ← HEIGHT pq_1; n ← rd pq_1 3; h' ← HEIGHT n;
    mret (bool_decide (h = h')).

(** Linking the first two trees of [pq_1], which occurs twice in [merge]; [None]
    when the comparison failed. *)
Definition link_first_two (item_cmp : cmp_fun) (pq_1 : Z) : M (option Z) :=
  a ← ITEM pq_1; n ← rd pq_1 3; b ← ITEM n;
  cmp_result ← item_cmp a b;
  if bool_decide (cmp_result = CMP_ERROR) then mret None
  else
  tmp ← allocate 4 CELL_priq_item;
  if bool_decide (cmp_result = CMP_GREATER) then
    let son := pq_1 in
    pq_1 ← rd pq_1 3;
    w ← rd pq_1 2; wr son 3 w;;
    h ← HEIGHT pq_1; w ← rd tmp 0; wr tmp 0 (Z.lor w (w32 (h + 1)));;
    w ← rd pq_1 1; wr tmp 1 w;;
    wr tmp 2 son;;
    w ← rd pq_1 3; wr tmp 3 w;;
    mret (Some tmp)
  else
    son ← rd pq_1 3;
    h ← HEIGHT son; w ← rd tmp 0; wr tmp 0 (Z.lor w h);;
    w ← rd son 1; wr tmp 1 w;;
    w ← rd son 2; wr tmp 2 w;;
    w ← rd pq_1 2; wr tmp 3 w;;
    h ← HEIGHT pq_1;
    let new_height := w32 (h + 1) in
    w ← rd pq_1 0; wr pq_1 0 (Z.land w CELL_TYPE_MASK);;
    w ← rd pq_1 0; wr pq_1 0 (Z.lor w new_height);;
    wr pq_1 2 tmp;;
    w ← rd son 3; wr pq_1 3 w;;
    mret (Some pq_1).

(** Linking the first trees of both queues: the new [pq_1] and [pq_2]. *)
Definition link_roots (item_cmp : cmp_fun) (pq_1 pq_2 : Z) : M (option (Z * Z)) :=
  a ← ITEM pq_1; b ← ITEM pq_2;
  cmp_result ← item_cmp a b;
  if bool_decide (cmp_result = CMP_ERROR) then mret None
  else
  root ← allocate 4 CELL_priq_item;
  son ← allocate 4 CELL_priq_item;
  let '(pq_1, pq_2) := if bool_decide (cmp_result = CMP_GREATER) then (pq_2, pq_1) else (pq_1, pq_2) in
  h ← HEIGHT pq_2; w ← rd son 0; wr son 0 (Z.lor w h);;
  w ← rd pq_2 1; wr son 1 w;;
  w ← rd pq_2 2; wr son 2 w;;
  w ← rd pq_1 2; wr son 3 w;;
  h ← HEIGHT pq_1; w ← rd root 0; wr root 0 (Z.lor w (w32 (h + 1)));;
  w ← rd pq_1 1; wr root 1 w;;
  wr root 2 son;;
  w ← rd pq_1 3; wr root 3 w;;
  pq_2 ← rd pq_2 3;
  mret (Some (root, pq_2)).

(** Copying the first tree of [pq] to the end of the new queue: the rest of
    [pq], the new queue [p] and its last tree. *)
Definition append_first (pq p last : Z) : M (Z * Z * Z) :=
  tmp ← cell_copy pq;
  p ← (if bool_decide (last = NULL_PTR) then mret tmp else wr last 3 tmp;; mret p);
  pq ← rd pq 3;
  mret (pq, p, tmp).

(** The end of both cases after the first loop: the rest [pq] of a queue is
    linked to the new one. *)
Definition append_rest (pq p last : Z) : M Z :=
  if bool_decide (last = NULL_PTR) then mret pq else wr last 3 pq;; mret p.

(** One iteration of the first loop of [merge], on [pq_1], [pq_2], [p] and
    [last]; [None] when [merge] returns [NULL_PTR]. *)
Definition merge_step (item_cmp : cmp_fun) :
    Z * Z * Z * Z → M ((Z * Z * Z * Z) + option (Z * Z * Z * Z)) := λ '(pq_1, pq_2, p, last),
  if bool_decide (pq_1 ≠ NULL_PTR) && bool_decide (pq_2 ≠ NULL_PTR) then
    eq ← first_two_equal pq_1;
    if eq : bool then
      r ← link_first_two item_cmp pq_1;
      match r with
      | None => mret (inr None)
      | Some pq_1 => mret (inl (pq_1, pq_2, p, last))
      end
    else
    h1 ← HEIGHT pq_1; h2 ← HEIGHT pq_2;
    if bool_decide (h1 < h2) then
      '(pq_1, p, last) ← append_first pq_1 p last;
      mret (inl (pq_1, pq_2, p, last))
    else if bool_decide (h1 > h2) then
      '(pq_2, p, last) ← append_first pq_2 p last;
      mret (inl (pq_1, pq_2, p, last))
    else
      r ← link_roots item_cmp pq_1 pq_2;
      match r with
      | None => mret (inr None)
      | Some (pq_1, pq_2) => mret (inl (pq_1, pq_2, p, last))
      end
  else mret (inr (Some (pq_1, pq_2, p, last))).

(** One iteration of its second loop. *)
Definition carry_step (item_cmp : cmp_fun) (pq_1 : Z) : M (Z + option Z) :=
  if bool_decide (pq_1 ≠ NULL_PTR) then
    eq ← first_two_equal pq_1;
    if eq : bool then
      r ← link_first_two item_cmp pq_1;
      match r with
      | None => mret (inr None)
      | Some pq_1 => mret (inl pq_1)
      end
    else mret (inr (Some pq_1))
  else mret (inr (Some pq_1)).

Definition merge (fuel : nat) (pq_1 pq_2 : Z) (item_cmp : cmp_fun) : M Z :=
  massert (bool_decide (pq_1 ≠ NULL_PTR) || bool_decide (pq_2 ≠ NULL_PTR));;
  if bool_decide (pq_1 = NULL_PTR) then mret pq_2
  else if bool_decide (pq_2 = NULL_PTR) then mret pq_1
  else
  r ← loop fuel (merge_step item_cmp) (pq_1, pq_2, NULL_PTR, NULL_PTR);
  match r with
  | None => mret NULL_PTR
  | Some (pq_1, pq_2, p, last) =>
    if bool_decide (pq_1 = NULL_PTR) then append_rest pq_2 p last
    else
      r ← loop fuel (carry_step item_cmp) pq_1;
      match r with
      | None => mret NULL_PTR
      | Some pq_1 => append_rest pq_1 p last
      end
  end.

Definition priq_find_min (fuel : nat) (priq : Z) (item_cmp : cmp_fun) : M Z :=
  p ← find_min fuel priq item_cmp;
  if bool_decide (p = NULL_PTR) then mret NULL_PTR else ITEM p.

Definition priq_insert (fuel : nat) (priq item : Z) (item_cmp : cmp_fun) : M Z :=
  ap ← get_allocation_point;
  new_priq_item ← allocate 4 CELL_priq_item;
  wr new_priq_item 1 item;;
  wr new_priq_item 2 NULL_WORD;;
  wr new_priq_item 3 NULL_WORD;;
  new_priq ← merge fuel priq new_priq_item item_cmp;
  if bool_decide (new_priq = NULL_PTR) then restore_allocation_point ap;; mret priq
  else mret new_priq.

(** One iteration of the loop that copies the trees before the minimum. *)
Definition skip_step (min_tree : Z) : Z * Z → M ((Z * Z) + (Z * Z)) := λ '(p, last),
  if bool_decide (p ≠ min_tree) then
    new_p ← allocate 4 CELL_priq_item;
    w ← rd p 0; wr new_p 0 w;;
    w ← rd p 1; wr new_p 1 w;;
    w ← rd p 2; wr new_p 2 w;;
    wr last 3 new_p;;
    p ← NEXT p;
    mret (inl (p, new_p))
  else mret (inr (p, last)).

(** One iteration of the loop that reverses the trees below the minimum. *)
Definition reverse_step : Z * Z → M ((Z * Z) + Z) := λ '(p, rest_of_min),
  if bool_decide (p ≠ NULL_PTR) then
    new_p ← allocate 4 CELL_priq_item;
    w ← rd p 0; wr new_p 0 w;;
    w ← rd p 1; wr new_p 1 w;;
    w ← rd p 2; wr new_p 2 w;;
    wr new_p 3 rest_of_min;;
    p ← NEXT p;
    mret (inl (p, new_p))
  else mret (inr rest_of_min).

(** The removal of [min_tree] from the list of trees [p]. *)
Definition except_min (fuel : nat) (p min_tree : Z) : M Z :=
  if bool_decide (p = min_tree) then NEXT p
  else
    new_p ← allocate 4 CELL_priq_item;
    w ← rd p 0; wr new_p 0 w;;
    w ← rd p 1; wr new_p 1 w;;
    w ← rd p 2; wr new_p 2 w;;
    let priq_except_min := new_p in
    p ← NEXT p;
    '(p, last) ← loop fuel (skip_step min_tree) (p, new_p);
    w ← NEXT p; wr last 3 w;;
    mret priq_except_min.

Definition priq_delete (fuel : nat) (priq : Z) (item_cmp : cmp_fun) : M Z :=
  let p := priq in
  if bool_decide (p = NULL_PTR) then mret NULL_PTR
  else
  min_tree ← find_min fuel p item_cmp;
  ap ← get_allocation_point;
  priq_except_min ← except_min fuel p min_tree;
  p ← SON min_tree;
  rest_of_min ← loop fuel reverse_step (p, NULL_PTR);
  if bool_decide (priq_except_min = NULL_PTR) && bool_decide (rest_of_min = NULL_PTR) then
    mret NULL_PTR
  else
  new_priq ← merge fuel rest_of_min priq_except_min item_cmp;
  if bool_decide (new_priq = NULL_PTR) then restore_allocation_point ap;; mret priq
  else mret new_priq.

Definition priq_merge (fuel : nat) (pq_1 pq_2 : Z) (item_cmp : cmp_fun) : M Z :=
  if bool_decide (pq_1 = NULL_PTR) && bool_decide (pq_2 = NULL_PTR) then mret NULL_PTR
  else
  ap ← get_allocation_point;
  new_priq ← merge fuel pq_1 pq_2 item_cmp;
  if bool_decide (new_priq = NULL_PTR) then restore_allocation_point ap;; mret NULL_PTR
  else mret new_priq.

(** One iteration of the loop of [priq_make_assertions]. *)
Definition assertion_step : Z * Z → M ((Z * Z) + unit) := λ '(p, previous),
  if bool_decide (p ≠ NULL_PTR) then
    (if bool_decide (previous ≠ NULL_PTR) then
       h ← HEIGHT previous; h' ← HEIGHT p; massert (bool_decide (h < h'))
     else mret tt);;
    let previous := p in
    p ← rd p 3;
    mret (inl (p, previous))
  else mret (inr tt).

Definition priq_make_assertions (fuel : nat) (priq : Z) : M unit :=
  if PRIQ_IS_EMPTY priq then mret tt else loop fuel assertion_step (priq, NULL_PTR).

(** * Binomial forests

    A list of trees: the first tree's height, its item, the list of the trees
    below its root, and the rest of the list. *)

Inductive forest :=
| FNil
| FCons (h : nat) (x : Z) (c next : forest).

Fixpoint items (f : forest) : list Z :=
  match f with FNil => [] | FCons _ x c n => x :: items c ++ items n end.

(** The number of trees of the list. *)
Fixpoint roots (f : forest) : nat :=
  match f with FNil => 0 | FCons _ _ _ n => S (roots n) end.

Fixpoint is_forest (C : cenv) (p : Z) (f : forest) : Prop :=
  match f with
  | FNil => p = NULL_PTR
  | FCons h x c n => ∃ pc pn,
      C p [header CELL_priq_item (Z.of_nat h); x; pc; pn] ∧ is_forest C pc c ∧ is_forest C pn n
  end.

Lemma is_forest_mono C C' p f : csub C C' → is_forest C p f → is_forest C' p f.
Proof.
  intros HC. revert p. induction f as [|h x c IHc n IHn]; intros p; simpl; [done|].
  intros (pc & pn & H & Hc & Hn). exists pc, pn. split; [by apply HC|]. split; auto.
Qed.

Lemma is_forest_null s C p f : holds s C → is_forest C p f →
  bool_decide (p = NULL_PTR) = match f with FNil => true | _ => false end.
Proof.
  intros HC Hf. destruct f as [|h x c n]; simpl in Hf; [by subst|].
  destruct Hf as (pc & pn & Hb & _). apply HC, blk_pos in Hb. apply bool_decide_eq_false.
  unfold NULL_PTR. lia.
Qed.

Section ordered.
Context (rank : Z → Z).

Definition above (x : Z) (l : list Z) : Prop := Forall (λ y, rank x ≤ rank y) l.

(** The trees below a root of height [h]: of the heights [h - 1] to 0. *)
Fixpoint kids (f : forest) (h : nat) : Prop :=
  match f with
  | FNil => h = 0%nat
  | FCons k x c n => h = S k ∧ kids c k ∧ above x (items c) ∧ kids n k
  end.

(** A queue: binomial trees of increasing heights, from [lo] on. *)
Fixpoint heap (lo : nat) (f : forest) : Prop :=
  match f with
  | FNil => True
  | FCons h x c n => (lo ≤ h)%nat ∧ kids c h ∧ above x (items c) ∧ heap (S h) n
  end.

Lemma heap_weaken lo lo' f : (lo' ≤ lo)%nat → heap lo f → heap lo' f.
Proof. destruct f; simpl; [done|]. intros ? (? & ?). split; [lia|done]. Qed.

Lemma kids_size f : ∀ h, kids f h → Z.of_nat (length (items f)) = 2 ^ Z.of_nat h - 1.
Proof.
  induction f as [|k x c IHc n IHn]; intros h; simpl; [by intros ->|].
  intros (-> & Hc & _ & Hn). apply IHc in Hc. apply IHn in Hn. rewrite length_app.
  replace (Z.of_nat (S k)) with (Z.of_nat k + 1) by lia. rewrite Z.pow_add_r by lia. lia.
Qed.

Lemma pow_bound h n : 2 ^ Z.of_nat h ≤ n → n < 2 ^ 32 → (h < 32)%nat.
Proof.
  intros H Hn. destruct (decide (h < 32)%nat); [done|].
  pose proof (Z.pow_le_mono_r 2 32 (Z.of_nat h)). lia.
Qed.

Lemma kids_bound f h : kids f h → Z.of_nat (length (items f)) < 2 ^ 32 - 1 → (h < 32)%nat.
Proof. intros H%kids_size Hl. apply (pow_bound _ (2 ^ Z.of_nat h)); lia. Qed.

(** Fewer than [2^32] items: at most 32 trees. *)
Lemma heap_bound lo f : heap lo f → Z.of_nat (length (items f)) < 2 ^ 32 →
  (roots f + lo ≤ 32)%nat ∨ f = FNil.
Proof.
  revert lo. induction f as [|h x c _ n IH]; intros lo; simpl; [by right|].
  intros (Hlo & Hc & _ & Hn) Hl. left. rewrite length_app in Hl. pose proof (kids_size _ _ Hc) as Hsz.
  assert (h < 32)%nat by (eapply (pow_bound _ (2 ^ Z.of_nat h)); lia).
  destruct (IH (S h) Hn) as [?| ->]; [lia|lia|simpl; lia].
Qed.

(** Linking two trees of the same height. *)
Definition linked (h : nat) (x : Z) (c : forest) (x1 : Z) (c1 : forest) (x' : Z) (c' : forest) : Prop :=
  kids c' (S h) ∧ above x' (items c') ∧ x' :: items c' ≡ₚ (x :: items c) ++ (x1 :: items c1).

Lemma linked_le h x c x1 c1 : kids c h → above x (items c) → kids c1 h → above x1 (items c1) →
  rank x ≤ rank x1 → linked h x c x1 c1 x (FCons h x1 c1 c).
Proof.
  intros Hc Ha Hc1 Ha1 Hr. split; [by split_and!|]. split.
  - simpl. constructor; [done|]. apply Forall_app. split; [|done].
    eapply Forall_impl; [exact Ha1|]. simpl. intros y Hy. lia.
  - simpl. constructor. rewrite (Permutation_app_comm (items c1)). by rewrite Permutation_middle.
Qed.

Lemma linked_sym h x c x1 c1 x' c' : linked h x1 c1 x c x' c' → linked h x c x1 c1 x' c'.
Proof.
  intros (H1 & H2 & H3). split; [done|]. split; [done|]. rewrite H3. apply Permutation_app_comm.
Qed.
End ordered.

(** * The new queue under construction

    Its trees, the last first; the last one's link is still to be set. *)

Record otree := mkO { oaddr : Z; oh : nat; ox : Z; opc : Z; oc : forest }.

Fixpoint out_cells (outs : list otree) (q : Z) : list cell :=
  match outs with
  | [] => []
  | o :: outs' => (oaddr o, [header CELL_priq_item (Z.of_nat (oh o)); ox o; opc o; q]) ::
      out_cells outs' (oaddr o)
  end.

(** The variables [p] and [last]. *)
Definition out_first (outs : list otree) : Z :=
  match last outs with Some o => oaddr o | None => NULL_PTR end.
Definition out_last (outs : list otree) : Z :=
  match outs with o :: _ => oaddr o | [] => NULL_PTR end.

Definition complete (outs : list otree) (f : forest) : forest :=
  foldl (λ f o, FCons (oh o) (ox o) (oc o) f) f outs.
Definition out_items (outs : list otree) : list Z := outs ≫= λ o, ox o :: items (oc o).

(** Every tree of it is one, and the heights stay below [lo]. *)
Fixpoint outs_ok (rank : Z → Z) (C : cenv) (lo : nat) (outs : list otree) : Prop :=
  match outs with
  | [] => True
  | o :: outs' => is_forest C (opc o) (oc o) ∧ kids rank (oc o) (oh o) ∧ above rank (ox o) (items (oc o)) ∧
      (oh o < lo)%nat ∧ outs_ok rank C (oh o) outs'
  end.

Lemma outs_ok_mono rank C C' lo lo' outs : csub C C' → (lo ≤ lo')%nat →
  outs_ok rank C lo outs → outs_ok rank C' lo' outs.
Proof.
  intros HC. revert lo lo'. induction outs as [|o outs IH]; intros lo lo' Hlo; simpl; [done|].
  intros (H1 & H2 & H3 & H4 & H5). split; [by eapply is_forest_mono|]. split; [done|]. split; [done|].
  split; [lia|]. by eapply IH.
Qed.

Lemma out_items_cons o outs : out_items (o :: outs) = (ox o :: items (oc o)) ++ out_items outs.
Proof. done. Qed.

Lemma out_first_cons o outs : outs ≠ [] → out_first (o :: outs) = out_first outs.
Proof. intros Hne. unfold out_first. rewrite last_cons. destruct (last outs) eqn:E; [done|]. by apply last_None in E. Qed.

Lemma complete_heap rank C lo f : ∀ outs, outs_ok rank C lo outs → heap rank lo f →
  heap rank 0 (complete outs f).
Proof.
  intros outs. revert lo f. induction outs as [|o outs IH]; intros lo f; simpl.
  - intros _. apply heap_weaken. lia.
  - intros (_ & Hk & Ha & Hlo & Ho) Hf. apply (IH (oh o)); [done|]. split_and!; [done..|].
    by eapply heap_weaken, Hf.
Qed.

Lemma complete_items outs f : items (complete outs f) ≡ₚ out_items outs ++ items f.
Proof.
  revert f. induction outs as [|o outs IH]; intros f; [done|]. cbn [complete foldl]. 
  change (foldl _ (FCons (oh o) (ox o) (oc o) f) outs) with (complete outs (FCons (oh o) (ox o) (oc o) f)).
  rewrite IH. cbn [items out_items mbind list_bind]. change (outs ≫= _) with (out_items outs).
  rewrite (Permutation_app_comm (ox o :: items (oc o)) (out_items outs)), <- app_assoc. done.
Qed.

Lemma is_forest_complete rank C lo outs q f :
  (∀ c, c ∈ out_cells outs q → C c.1 c.2) → outs_ok rank C lo outs → is_forest C q f →
  is_forest C (match outs with [] => q | _ => out_first outs end) (complete outs f).
Proof.
  revert lo q f. induction outs as [|o outs IH]; intros lo q f Hc Ho Hq; [done|].
  destruct Ho as (H1 & _ & _ & _ & Ho). cbn [complete foldl].
  assert (Hf : is_forest C (oaddr o) (FCons (oh o) (ox o) (oc o) f)).
  { exists (opc o), q. split; [|done]. apply (Hc (oaddr o, _)). by left. }
  specialize (IH (oh o) (oaddr o) _ (λ c H, Hc c (list_elem_of_further _ _ _ H)) Ho Hf).
  destruct outs as [|o' outs]; [exact IH|]. by rewrite out_first_cons.
Qed.

(** * Rules *)

Section rules.
Context (s : state).

Lemma wp_item_HEIGHT p h ws (Q : Z → state → Prop) :
  blk s p (header CELL_priq_item (Z.of_nat h) :: ws) → (h < 64)%nat → Q (Z.of_nat h) s → wp (HEIGHT p) Q s.
Proof.
  intros Hb Hh HQ. apply wp_bind. eapply wp_rd; [exact Hb|done|done|]. apply wp_ret.
  rewrite header_low by lia. done.
Qed.

Lemma wp_first_two_equal C p h x pc pn n (Q : bool → state → Prop) :
  holds s C → blk s p [header CELL_priq_item (Z.of_nat h); x; pc; pn] → is_forest C pn n →
  (h < 64)%nat → (match n with FCons h' _ _ _ => (h' < 64)%nat | FNil => True end) →
  Q (match n with FCons h' _ _ _ => bool_decide (h = h') | FNil => false end) s →
  wp (first_two_equal p) Q s.
Proof.
  intros HC Hb Hn Hh Hh' HQ. unfold first_two_equal.
  apply wp_bind. eapply wp_rd; [exact Hb|done|done|]. change NULL_WORD with NULL_PTR.
  rewrite (is_forest_null _ _ _ _ HC Hn). destruct n as [|h' x' c' n']; [by apply wp_ret|].
  destruct Hn as (pc' & pn' & Hb' & _).
  apply wp_bind. eapply wp_item_HEIGHT; [exact Hb|done|].
  apply wp_bind. eapply wp_rd; [exact Hb|done|done|].
  apply wp_bind. eapply wp_item_HEIGHT; [by apply HC|done|]. apply wp_ret.
  replace (bool_decide (Z.of_nat h = Z.of_nat h')) with (bool_decide (h = h')); [done|].
  apply bool_decide_ext. lia.
Qed.
End rules.

Lemma succ_height h : (h < 64)%nat → w32 (Z.of_nat h + 1) = Z.of_nat (S h).
Proof. intros H. rewrite w32_succ by (rewrite word_modulus_val; lia). done. Qed.

(** A forest of a smaller environment. *)
Ltac forest_lift :=
  match goal with
  | H : is_forest _ _ _ |- _ =>
    solve [ eapply is_forest_mono; [|exact H];
            first [ reflexivity | apply adds_base | apply adds_mono; [done|solve_incl] ] ]
  end.

Section heaps.
Context (rank : Z → Z) (K : Z → Prop) (C : cenv) (item_cmp : cmp_fun) (c : Z → Z → cmp_result).
Context (Hcmp : compares C K rank item_cmp c).
Context (s0 : state) (HC : holds s0 C).

(** Some comparison failed; what was allocated is garbage. *)
Definition cmp_failed (s : state) : Prop :=
  (∃ a b, K a ∧ K b ∧ c a b = CMP_ERROR) ∧ ∃ u cs, grow s0 s u cs.


(** The first two trees of a queue whose first cell is new. *)
Lemma wp_link_first_two s u cs done p h x pc cf pn x1 c1 n (Q : option Z → state → Prop) :
  grow s0 s u ((p, [header CELL_priq_item (Z.of_nat h); x; pc; pn]) :: cs) → done ⊆ cs →
  is_forest (adds C done) pc cf → is_forest (adds C done) pn (FCons h x1 c1 n) →
  kids rank cf h → above rank x (items cf) → kids rank c1 h → above rank x1 (items c1) →
  K x → K x1 → (h < 63)%nat → room s0 (u + 4) →
  (∀ s', cmp_failed s' → Q None s') →
  (∀ p' x' c' pc' pn' new s',
    grow s0 s' (u + 4) ((p', [header CELL_priq_item (Z.of_nat (S h)); x'; pc'; pn']) :: new ++ cs) →
    is_forest (adds C (new ++ done)) pc' c' → is_forest (adds C (new ++ done)) pn' n →
    linked rank h x cf x1 c1 x' c' → Q (Some p') s') →
  wp (link_first_two item_cmp p) Q s.
Proof.
  intros HG Hsub Hc Hp1 Hk Ha Hk1 Ha1 Kx Kx1 Hh Hroom Herr HQ.
  destruct Hp1 as (pc1 & pn1 & Hp1 & Hc1 & Hn).
  unfold link_first_two, ITEM. wp_steps. eapply wp_compare; [exact Hcmp|exact HG|exact HC|done|done|].
  destruct (decide (c x x1 = CMP_ERROR)) as [Ee|Ee].
  { rewrite bool_decide_eq_true_2 by done. apply wp_ret, Herr. split; [by exists x, x1|by eexists _, _]. }
  rewrite (bool_decide_eq_false_2 (_ = CMP_ERROR)) by done.
  destruct (cmp_order _ _ _ _ _ Hcmp x x1 Kx Kx1) as [Eo|]; [|done]. rewrite Eo.
  wp_steps. destruct (decide (rank x1 < rank x)) as [Hlt|Hge].
  - rewrite bool_decide_eq_true_2 by by apply order_greater. wp_steps. swap_cells. wp_steps. swap_cells.
    eapply wp_item_HEIGHT; [solve_blk|lia|]. rewrite succ_height by lia. wp_steps.
    rewrite header_lor in HG by lia. wp_steps.
    eapply (HQ p0 x1 (FCons h x cf c1) p pn1 [_]); [exact HG| |forest_lift|].
    + exists pc, pc1. split; [solve_cell|]. split; forest_lift.
    + apply linked_sym, linked_le; [done..|lia].
  - rewrite bool_decide_eq_false_2 by by rewrite order_greater. wp_steps.
    eapply wp_item_HEIGHT; [solve_blk|lia|]. wp_steps. rewrite header_lor in HG by lia.
    wp_steps. eapply wp_item_HEIGHT; [solve_blk|lia|]. rewrite succ_height by lia.
    wp_steps. swap_cells. wp_steps. rewrite header_mask in HG by lia. wp_steps.
    rewrite header_lor in HG by lia. wp_steps.
    eapply (HQ p x (FCons h x1 c1 cf) p0 pn1 [_]); [exact HG| |forest_lift|].
    + exists pc1, pc. split; [solve_cell|]. split; forest_lift.
    + apply linked_le; [done..|lia].
Qed.
End heaps.

Section merging.
Context (rank : Z → Z) (K : Z → Prop) (C : cenv) (item_cmp : cmp_fun) (c : Z → Z → cmp_result).
Context (Hcmp : compares C K rank item_cmp c).
Context (s0 : state) (HC : holds s0 C).

(** The trees of the heads of both queues are linked; which queue goes on as
    [pq_1] depends on the items. *)
Lemma wp_link_roots s u cs done h p1 x1 pc1 c1 pn1 n1 p2 x2 pc2 c2 pn2 n2
    (Q : option (Z * Z) → state → Prop) :
  grow s0 s u cs → done ⊆ cs →
  adds C cs p1 [header CELL_priq_item (Z.of_nat h); x1; pc1; pn1] →
  is_forest (adds C done) pc1 c1 → is_forest (adds C done) pn1 n1 →
  adds C cs p2 [header CELL_priq_item (Z.of_nat h); x2; pc2; pn2] →
  is_forest (adds C done) pc2 c2 → is_forest (adds C done) pn2 n2 →
  kids rank c1 h → above rank x1 (items c1) → kids rank c2 h → above rank x2 (items c2) →
  K x1 → K x2 → (h < 63)%nat → room s0 (u + 8) →
  (∀ s', cmp_failed K c s0 s' → Q None s') →
  (∀ r pq' x' c' pc' pn' n' m' new s',
    grow s0 s' (u + 8) ((r, [header CELL_priq_item (Z.of_nat (S h)); x'; pc'; pn']) :: new ++ cs) →
    is_forest (adds C (new ++ done)) pc' c' → is_forest (adds C (new ++ done)) pn' n' →
    is_forest (adds C (new ++ done)) pq' m' →
    linked rank h x1 c1 x2 c2 x' c' → (n' = n1 ∧ m' = n2 ∨ n' = n2 ∧ m' = n1) → Q (Some (r, pq')) s') →
  wp (link_roots item_cmp p1 p2) Q s.
Proof.
  intros HG Hsub Hp1 Hc1 Hn1 Hp2 Hc2 Hn2 Hk1 Ha1 Hk2 Ha2 Kx1 Kx2 Hh Hroom Herr HQ.
  unfold link_roots, ITEM. wp_steps. eapply wp_compare; [exact Hcmp|exact HG|exact HC|done|done|].
  destruct (decide (c x1 x2 = CMP_ERROR)) as [Ee|Ee].
  { rewrite bool_decide_eq_true_2 by done. apply wp_ret, Herr. split; [by exists x1, x2|by eexists _, _]. }
  rewrite (bool_decide_eq_false_2 (_ = CMP_ERROR)) by done.
  destruct (cmp_order _ _ _ _ _ Hcmp x1 x2 Kx1 Kx2) as [Eo|]; [|done]. rewrite Eo.
  wp_steps. destruct (decide (rank x2 < rank x1)) as [Hlt|Hge].
  - rewrite bool_decide_eq_true_2 by by apply order_greater.
    wp_steps; (eapply wp_item_HEIGHT; [solve_blk|lia|]); wp_steps. rewrite header_lor in HG by lia.
    wp_steps. swap_cells. eapply wp_item_HEIGHT; [solve_blk|lia|]. wp_steps. rewrite succ_height in HG by lia. rewrite header_lor in HG by lia. 
    wp_steps. replace (u + 4 + 4) with (u + 8) in HG by lia. eapply (HQ _ _ x2 (FCons h x1 c1 c2) _ pn2 n2 n1 [_]);
      [exact HG| |forest_lift|forest_lift| |by right].
    + exists pc1, pc2. split; [solve_cell|]. split; forest_lift.
    + apply linked_sym, linked_le; [done..|lia].
  - rewrite bool_decide_eq_false_2 by by rewrite order_greater.
    wp_steps; (eapply wp_item_HEIGHT; [solve_blk|lia|]); wp_steps. rewrite header_lor in HG by lia.
    wp_steps. swap_cells. eapply wp_item_HEIGHT; [solve_blk|lia|]. wp_steps. rewrite succ_height in HG by lia. rewrite header_lor in HG by lia. 
    wp_steps. replace (u + 4 + 4) with (u + 8) in HG by lia. eapply (HQ _ _ x1 (FCons h x2 c2 c1) _ pn1 n1 n2 [_]);
      [exact HG| |forest_lift|forest_lift| |by left].
    + exists pc2, pc1. split; [solve_cell|]. split; forest_lift.
    + apply linked_le; [done..|lia].
Qed.
End merging.

(** The queue [pq_1] inside [merge]: its first tree may be a new cell, of the
    same height as the second one. *)
Definition carried (rank : Z → Z) (C : cenv) (cr : list cell) (p : Z) (lo : nat) (f : forest) : Prop :=
  (cr = [] ∧ is_forest C p f ∧ heap rank lo f) ∨
  (∃ h x cf n pc pn, f = FCons h x cf n ∧ cr = [(p, [header CELL_priq_item (Z.of_nat h); x; pc; pn])] ∧
    is_forest C pc cf ∧ is_forest C pn n ∧ (lo ≤ h)%nat ∧ kids rank cf h ∧ above rank x (items cf) ∧
    heap rank h n).

Lemma carried_nil rank C cr p lo : carried rank C cr p lo FNil → p = NULL_PTR ∧ cr = [].
Proof. intros [(-> & H & _)|(? & ? & ? & ? & ? & ? & ? & _)]; done. Qed.

Lemma carried_cons rank C cr p lo h x cf n : carried rank C cr p lo (FCons h x cf n) →
  ∃ pc pn, adds C cr p [header CELL_priq_item (Z.of_nat h); x; pc; pn] ∧
    is_forest C pc cf ∧ is_forest C pn n ∧ (lo ≤ h)%nat ∧ kids rank cf h ∧ above rank x (items cf) ∧
    heap rank h n ∧
    (heap rank (S h) n ∨ cr = [(p, [header CELL_priq_item (Z.of_nat h); x; pc; pn])]).
Proof.
  intros [(-> & (pc & pn & Hb & Hc & Hn) & Hlo & Hk & Ha & Hh)|
          (? & ? & ? & ? & pc & pn & [= <- <- <- <-] & -> & Hc & Hn & Hlo & Hk & Ha & Hh)]; exists pc, pn.
  - split_and!; [by left|done..| |by left]. eapply heap_weaken; [|exact Hh]. lia.
  - split_and!; [right; by left|done..|by right].
Qed.

Lemma carried_old rank C p lo f : is_forest C p f → heap rank lo f → carried rank C [] p lo f.
Proof. by left. Qed.

Lemma carried_lo rank C cr p lo h x cf n :
  carried rank C cr p lo (FCons h x cf n) → heap rank lo (FCons h x cf n) → carried rank C cr p h (FCons h x cf n).
Proof.
  intros [(-> & Hf & _)|(? & ? & ? & ? & pc & pn & [= <- <- <- <-] & -> & Hc & Hn & _ & Hk & Ha & Hh)] Hs.
  - left. destruct Hs as (_ & Hs). by split_and!.
  - right. exists h, x, cf, n, pc, pn. by split_and!.
Qed.

Lemma items_bound rank h x c f l N : kids rank c h → x :: items c ++ f ≡ₚ l →
  Z.of_nat (length l) < 2 ^ Z.of_nat N → (h < N)%nat.
Proof.
  intros Hk%kids_size Hl HN. apply Permutation_length in Hl. simpl in Hl. rewrite length_app in Hl.
  destruct (decide (h < N)%nat) as [|Hge]; [done|].
  pose proof (Z.pow_le_mono_r 2 (Z.of_nat N) (Z.of_nat h)). lia.
Qed.

Section append.
Context (s0 : state) (C : cenv) (HC : holds s0 C).

Lemma priq_typed E p h x pc pn : E p [header CELL_priq_item (Z.of_nat h); x; pc; pn] → (h < 64)%nat →
  typed_cell E (λ _, True) p CELL_priq_item [header CELL_priq_item (Z.of_nat h); x; pc; pn]
    [(DECLARE_PTR, 1); (DECLARE_PTR, 2); (DECLARE_PTR, 3)].
Proof.
  intros Hp Hh. split; [done| | |done].
  - exists (Z.of_nat h). split; [lia|]. by split_and!.
  - intros d i y Hd _. apply list_elem_of_In in Hd. simpl in Hd. by destruct Hd as [[= <- <-]|[[= <- <-]|[[= <- <-]|[]]]].
Qed.

(** The tree at [p] becomes the last one of the new queue. *)
Lemma wp_append_first s u outs q rest p h x pc pn cf (Q : Z * Z * Z → state → Prop) :
  grow s0 s u (out_cells outs q ++ rest) →
  adds C rest p [header CELL_priq_item (Z.of_nat h); x; pc; pn] → (h < 64)%nat → room s0 (u + 4) →
  (∀ tmp s', let outs' := mkO tmp h x pc cf :: outs in
    grow s0 s' (u + 4) (out_cells outs' pn ++ rest) → Q (pn, out_first outs', out_last outs') s') →
  wp (append_first p (out_first outs) (out_last outs)) Q s.
Proof.
  intros HG Hp Hh Hroom HQ. unfold append_first. apply wp_bind.
  assert (Hb : blk s p [header CELL_priq_item (Z.of_nat h); x; pc; pn]).
  { eapply (grow_blk_adds _ _ _ _ rest); [exact HG|done|exact Hp|solve_incl]. }
  eapply (wp_cell_copy (blk s) s (λ _, True)); [apply holds_blk|apply HG|by apply priq_typed|by vm_compute| |].
  { by eapply grow_room. }
  intros tmp s' HG2. change (Z.of_nat (length _)) with 4 in HG2.
  pose proof (grow_trans _ _ _ _ _ _ _ HG HG2) as HG'. cbn [app] in HG'. clear HG. 
  assert (Hb' : blk s' p [header CELL_priq_item (Z.of_nat h); x; pc; pn]) by (eapply blk_ext, Hb; apply HG2).
  clear HG2 Hb. rename HG' into HG. apply wp_bind. destruct outs as [|o outs].
  - cbn [out_last out_first last]. rewrite bool_decide_eq_true_2 by done. apply wp_ret, wp_bind.
    eapply wp_rd; [exact Hb'|done|done|]. apply wp_ret. by apply HQ.
  - cbn [out_last out_cells app] in *. rewrite bool_decide_eq_false_2.
    2: { pose proof (grow_cells _ _ _ _ HG) as Hc. apply Forall_cons in Hc as [_ [[Hc _] _]%Forall_cons].
         apply blk_pos in Hc. unfold NULL_PTR. simpl in Hc. lia. }
    wp_steps. rewrite <- (out_first_cons (mkO tmp h x pc cf)) by done. by apply HQ.
Qed.

(** The end of [merge]. *)
Lemma wp_append_rest s u outs q rest p (Q : Z → state → Prop) :
  grow s0 s u (out_cells outs q ++ rest) →
  (∀ s', grow s0 s' u (out_cells outs p ++ rest) →
    Q (match outs with [] => p | _ => out_first outs end) s') →
  wp (append_rest p (out_first outs) (out_last outs)) Q s.
Proof.
  intros HG HQ. unfold append_rest. destruct outs as [|o outs]; cbn [out_last out_cells app] in *.
  - rewrite bool_decide_eq_true_2 by done. by apply wp_ret, HQ.
  - rewrite bool_decide_eq_false_2.
    2: { pose proof (grow_cells _ _ _ _ HG) as Hc. apply Forall_cons in Hc as [[Hc _] _].
         apply blk_pos in Hc. unfold NULL_PTR. simpl in Hc. lia. }
    wp_steps. by apply HQ.
Qed.
End append.

(** * Merging *)

Section merge.
Context (rank : Z → Z) (K : Z → Prop) (C : cenv) (item_cmp : cmp_fun) (c : Z → Z → cmp_result).
Context (Hcmp : compares C K rank item_cmp c).
Context (s0 : state) (HC : holds s0 C).
Context (l : list Z) (Kl : Forall K l) (N : nat) (HN : (N ≤ 32)%nat)
  (Hl : Z.of_nat (length l) < 2 ^ Z.of_nat N) (Hroom : room s0 (8 * Z.of_nat N)).

(** The state of the loops of [merge]: [m] more iterations suffice and each
    allocates at most 4 words more than the previous ones left over. *)
Definition merging (strict : bool) (m : nat) (st : Z * Z * Z * Z) (s : state) : Prop :=
  let '(p1, p2, p, last) := st in
  ∃ u cr outs q done lo1 lo2 f1 f2,
    grow s0 s u (out_cells outs q ++ cr ++ done) ∧ p = out_first outs ∧ last = out_last outs ∧
    carried rank (adds C done) cr p1 lo1 f1 ∧ (strict = true → heap rank lo1 f1) ∧
    is_forest (adds C done) p2 f2 ∧ heap rank lo2 f2 ∧
    outs_ok rank (adds C done) (lo1 `min` lo2) outs ∧
    out_items outs ++ items f1 ++ items f2 ≡ₚ l ∧
    (lo1 ≤ N)%nat ∧ (lo2 ≤ N)%nat ∧ m = (N - lo1 + (N - lo2))%nat ∧
    0 ≤ u ∧ u + 4 * Z.of_nat m ≤ 8 * Z.of_nat N.

Definition merging_next (m : nat) (st : Z * Z * Z * Z) (s : state) : Prop :=
  ∃ m', (m' < m)%nat ∧ merging false m' st s.

Lemma tree_bound h x cf pre suf : kids rank cf h → pre ++ (x :: items cf) ++ suf ≡ₚ l → (h < N)%nat ∧ K x.
Proof.
  intros Hk Hp. split.
  - eapply (items_bound _ h x cf (pre ++ suf)); [exact Hk| |exact Hl]. rewrite <- Hp.
    by rewrite (Permutation_app_swap_app pre).
  - rewrite <- Hp in Kl. apply Forall_app in Kl as [_ Kl']. by inversion_clear Kl'.
Qed.

Ltac perm_norm := cbn [items out_items mbind list_bind app]; repeat (rewrite <- app_assoc; cbn [app]); reflexivity.
Ltac perm_by H := rewrite <- H; perm_norm.

Lemma wp_merging_same m p1 p2 p last s (Q : bool → state → Prop) :
  merging false m (p1, p2, p, last) s → p1 ≠ NULL_PTR →
  (merging true m (p1, p2, p, last) s → Q false s) →
  (wp (link_first_two item_cmp p1) (λ r s', match r with
    | None => cmp_failed K c s0 s'
    | Some p1' => merging_next m (p1', p2, p, last) s' end) s → Q true s) →
  wp (first_two_equal p1) Q s.
Proof.
  intros (u & cr & outs & q & done & lo1 & lo2 & f1 & f2 & HG & Ep & El & Hc & _ & Hp2 & Hh2 & Ho & Hp
    & HL1 & HL2 & -> & Hu & HB) Hne Hfalse Htrue.
  destruct f1 as [|h x cf n]; [by apply carried_nil in Hc as [-> _]|].
  pose proof Hc as (pc & pn & Hb & Hcf & Hn & Hlo & Hk & Ha & Hh & Hcr)%carried_cons.
  destruct (tree_bound h x cf (out_items outs) (items n ++ items f2) Hk) as [HhN Kx]; [perm_by Hp|].
  assert (Hblk : blk s p1 [header CELL_priq_item (Z.of_nat h); x; pc; pn]).
  { eapply (grow_holds _ _ _ _ _ HG HC). eapply (adds_mono C C (cr ++ done)); [done|solve_incl|].
    by apply adds_assoc. }
  eapply (wp_first_two_equal s (adds C done)); [|exact Hblk|exact Hn|lia| |].
  { eapply holds_csub; [|eapply (grow_holds _ _ _ _ _ HG HC)]. apply adds_mono; [done|solve_incl]. }
  { destruct n as [|h' x1 c1 n]; [done|]. destruct Hh as (_ & Hk1 & _).
    destruct (tree_bound h' x1 c1 (out_items outs ++ x :: items cf) (items n ++ items f2) Hk1) as [? _];
      [perm_by Hp|lia]. }
  assert (Hstrict : heap rank (S h) n → merging true (N - lo1 + (N - lo2)) (p1, p2, p, last) s).
  { intros Hs. eexists u, cr, outs, q, done, lo1, lo2, _, f2. split_and!; [exact HG|done|done|exact Hc|
      by intros _|done..]. }
  destruct n as [|h' x1 c1 n]; [by apply Hfalse, Hstrict|]. destruct Hh as (Hhh & Hk1 & Ha1 & Hh).
  case_bool_decide as Eh; [|apply Hfalse, Hstrict; split_and!; [lia|done..]]. subst h'. apply Htrue.
  destruct Hcr as [[Hcr _]| ->]; [lia|].
  destruct (tree_bound h x1 c1 (out_items outs ++ x :: items cf) (items n ++ items f2) Hk1) as [_ Kx1];
    [perm_by Hp|].
  eapply (wp_link_first_two rank K C item_cmp c Hcmp s0 HC s u (out_cells outs q ++ done) done);
    [|solve_incl|exact Hcf|exact Hn|done..|lia| |done|].
  { eapply grow_perm, HG. cbn [app]. by rewrite Permutation_middle. }
  { solve_room. }
  intros p' x' c' pc' pn' new s' HG' Hc' Hn' (Hk' & Ha' & Hp').
  exists (N - S h + (N - lo2))%nat. split; [lia|].
  exists (u + 4), [(p', [header CELL_priq_item (Z.of_nat (S h)); x'; pc'; pn'])], outs, q, (new ++ done),
    (S h), lo2, (FCons (S h) x' c' n), f2.
  assert (HD : csub (adds C done) (adds C (new ++ done))) by (apply adds_mono; [done|solve_incl]).
  split_and!; [|done|done| |done|by eapply is_forest_mono|done| | |lia|done|done|lia|lia].
  - eapply grow_perm, HG'. rewrite !app_comm_cons. by rewrite (Permutation_app_swap_app _ (out_cells outs q)).
  - right. exists (S h), x', c', n, pc', pn'. split_and!; [done..|lia|done|done|done].
  - eapply outs_ok_mono; [exact HD| |exact Ho]. lia.
  - rewrite <- Hp. f_equiv.
    cbn [items app]. rewrite <- !app_assoc, !app_comm_cons, Hp'. perm_norm.
Qed.

Lemma wp_merging_diff m p1 p2 p last s
    (Q : (Z * Z * Z * Z) + option (Z * Z * Z * Z) → state → Prop) :
  merging true m (p1, p2, p, last) s → p1 ≠ NULL_PTR → p2 ≠ NULL_PTR →
  (∀ s', cmp_failed K c s0 s' → Q (inr None) s') →
  (∀ st s', merging_next m st s' → Q (inl st) s') →
  wp (h1 ← HEIGHT p1; h2 ← HEIGHT p2;
    if bool_decide (h1 < h2) then
      '(pq_1, p, last) ← append_first p1 p last; mret (inl (pq_1, p2, p, last))
    else if bool_decide (h1 > h2) then
      '(pq_2, p, last) ← append_first p2 p last; mret (inl (p1, pq_2, p, last))
    else
      r ← link_roots item_cmp p1 p2;
      match r with
      | None => mret (inr None)
      | Some (pq_1, pq_2) => mret (inl (pq_1, pq_2, p, last))
      end) Q s.
Proof.
  intros (u & cr & outs & q & done & lo1 & lo2 & f1 & f2 & HG & -> & -> & Hc & Hs & Hp2 & Hh2 & Ho & Hp
    & HL1 & HL2 & -> & Hu & HB) Hne1 Hne2 Herr HQ. specialize (Hs eq_refl).
  destruct f1 as [|h1 x1 c1 n1]; [by apply carried_nil in Hc as [-> _]|]. destruct f2 as [|h2 x2 c2 n2]; [done|].
  pose proof Hc as (pc1 & pn1 & Hb1 & Hc1 & Hn1 & _ & _ & _ & _ & _)%carried_cons.
  destruct Hs as (Hlo1 & Hk1 & Ha1 & Hh1), Hh2 as (Hlo2 & Hk2 & Ha2 & Hh2).
  destruct Hp2 as (pc2 & pn2 & Hb2 & Hc2 & Hn2).
  destruct (tree_bound h1 x1 c1 (out_items outs) (items n1 ++ items (FCons h2 x2 c2 n2)) Hk1) as [HN1 Kx1]; [perm_by Hp|].
  destruct (tree_bound h2 x2 c2 (out_items outs ++ items (FCons h1 x1 c1 n1)) (items n2) Hk2) as [HN2 Kx2]; [perm_by Hp|].
  assert (HB1 : adds C (cr ++ done) p1 [header CELL_priq_item (Z.of_nat h1); x1; pc1; pn1]) by by apply adds_assoc.
  assert (HB2 : adds C (cr ++ done) p2 [header CELL_priq_item (Z.of_nat h2); x2; pc2; pn2])
    by (eapply adds_mono, Hb2; [done|solve_incl]).
  apply wp_bind. eapply (wp_item_HEIGHT _ _ h1); [|lia|].
  { eapply (grow_blk_adds _ _ _ _ (cr ++ done)); [exact HG|done|done|solve_incl]. }
  apply wp_bind. eapply (wp_item_HEIGHT _ _ h2); [|lia|].
  { eapply (grow_blk_adds _ _ _ _ (cr ++ done)); [exact HG|done|done|solve_incl]. }
  case_bool_decide as E1; [|case_bool_decide as E2].
  - apply wp_bind. eapply (wp_append_first _ C HC) with (cf := c1); [exact HG|exact HB1|lia|solve_room|].
    intros tmp s' outs' HG'. apply wp_ret, HQ. exists (N - S h1 + (N - h2))%nat. split; [lia|].
    exists (u + 4), [], outs', pn1, done, (S h1), h2, n1, (FCons h2 x2 c2 n2).
    split_and!; [|done|done|by apply carried_old|done|by exists pc2, pn2|by split_and!| | |lia|lia|lia|lia|lia].
    + eapply (grow_app_r _ _ _ cr), grow_perm, HG'. apply Permutation_app_swap_app.
    + split_and!; [done..|cbn [oh]; lia|]. eapply outs_ok_mono, Ho; [done|cbn [oh]; lia].
    + etrans; [|exact Hp]. subst outs'. rewrite out_items_cons, <- app_assoc.
      rewrite (Permutation_app_swap_app _ (out_items outs)). cbn [ox oc]. perm_norm.
  - apply wp_bind. eapply (wp_append_first _ C HC) with (cf := c2); [exact HG|exact HB2|lia|solve_room|].
    intros tmp s' outs' HG'. apply wp_ret, HQ. exists (N - h1 + (N - S h2))%nat. split; [lia|].
    exists (u + 4), cr, outs', pn2, done, h1, (S h2), (FCons h1 x1 c1 n1), n2.
    split_and!; [exact HG'|done|done| |done|done|done| | |lia|lia|lia|lia|lia].
    + by eapply carried_lo.
    + split_and!; [done..|cbn [oh]; lia|]. eapply outs_ok_mono, Ho; [done|cbn [oh]; lia].
    + etrans; [|exact Hp]. subst outs'. rewrite out_items_cons, <- app_assoc.
      rewrite (Permutation_app_swap_app _ (out_items outs)), (Permutation_app_swap_app _ (items (FCons h1 x1 c1 n1))).
      cbn [ox oc]. perm_norm.
  - assert (h2 = h1) as -> by lia. apply wp_bind.
    eapply (wp_link_roots rank K C item_cmp c Hcmp s0 HC s u (out_cells outs q ++ cr ++ done) done);
      [exact HG|solve_incl| |exact Hc1|exact Hn1| |exact Hc2|exact Hn2|done..|lia|solve_room|by intros; apply wp_ret, Herr|].
    { eapply adds_mono, HB1; [done|solve_incl]. }
    { eapply adds_mono, HB2; [done|solve_incl]. }
    intros r pq' x' c' pc' pn' n' m' new s' HG' Hc' Hn' Hm' (Hk' & Ha' & Hp') Hnm.
    apply wp_ret, HQ. exists (N - S h1 + (N - S h1))%nat. split; [lia|].
    assert (HD : csub (adds C done) (adds C (new ++ done))) by (apply adds_mono; [done|solve_incl]).
    exists (u + 8), [(r, [header CELL_priq_item (Z.of_nat (S h1)); x'; pc'; pn'])], outs, q, (new ++ done),
      (S h1), (S h1), (FCons (S h1) x' c' n'), m'.
    assert (heap rank (S h1) n' ∧ heap rank (S h1) m') as [Hn'' Hm''] by (destruct Hnm as [[-> ->]|[-> ->]]; done).
    split_and!; [|done|done| |done|done|done| | |lia|lia|lia|lia|lia].
    + eapply (grow_app_r _ _ _ cr), grow_perm, HG'. rewrite !app_comm_cons.
      rewrite (Permutation_app_swap_app _ (out_cells outs q)), (Permutation_app_swap_app _ cr).
      by rewrite (Permutation_app_swap_app (out_cells outs q)).
    + right. exists (S h1), x', c', n', pc', pn'. by split_and!.
    + eapply outs_ok_mono; [exact HD| |exact Ho]. lia.
    + rewrite <- Hp. f_equiv. cbn [items app]. rewrite <- !app_assoc, !app_comm_cons, Hp'.
      rewrite <- app_assoc. f_equiv. rewrite (Permutation_app_swap_app (items n1)). f_equiv.
      destruct Hnm as [[-> ->]|[-> ->]]; [done|]. apply Permutation_app_comm.
Qed.

Lemma wp_merge_loop m fuel st s (Q : option (Z * Z * Z * Z) → state → Prop) :
  merging false m st s → (m < fuel)%nat →
  (∀ s', cmp_failed K c s0 s' → Q None s') →
  (∀ m p1 p2 p last s', merging false m (p1, p2, p, last) s' → (m ≤ 2 * N)%nat →
    p1 = NULL_PTR ∨ p2 = NULL_PTR → Q (Some (p1, p2, p, last)) s') →
  wp (loop fuel (merge_step item_cmp) st) Q s.
Proof.
  intros HM Hf Herr HQ. eapply wp_loop with (I := merging false); [exact Hf|exact HM|].
  clear m fuel st s HM Hf. intros m [[[p1 p2] p] last] s HM. unfold merge_step.
  assert (Hm : (m ≤ 2 * N)%nat).
  { destruct HM as (? & ? & ? & ? & ? & ? & ? & ? & ? & _ & _ & _ & _ & _ & _ & _ & _ & _ & ? & ? & ? & _). lia. }
  destruct (decide (p1 = NULL_PTR)) as [E1|E1].
  { rewrite bool_decide_eq_false_2 by (by intros []). apply wp_ret. eapply HQ; [exact HM|done|by left]. }
  destruct (decide (p2 = NULL_PTR)) as [E2|E2].
  { rewrite (bool_decide_eq_false_2 (p2 ≠ _)) by (by intros []). rewrite andb_false_r.
    apply wp_ret. eapply HQ; [exact HM|done|by right]. }
  rewrite !bool_decide_eq_true_2 by done. cbn [andb]. apply wp_bind.
  eapply wp_merging_same; [exact HM|done| |].
  - intros HM'. eapply wp_merging_diff; [exact HM'|done|done|exact Herr|].
    intros st s' (m' & ? & ?). by exists m'.
  - intros Hlink. apply wp_bind. eapply wp_mono; [exact Hlink|]. intros [p1'|] s' Hr; apply wp_ret.
    + destruct Hr as (m' & ? & ?). by exists m'.
    + by apply Herr.
Qed.

Lemma wp_carry_loop m fuel p1 p last s (Q : option Z → state → Prop) :
  merging false m (p1, NULL_PTR, p, last) s → (m < fuel)%nat →
  (∀ s', cmp_failed K c s0 s' → Q None s') →
  (∀ m p1 s', merging true m (p1, NULL_PTR, p, last) s' → Q (Some p1) s') →
  wp (loop fuel (carry_step item_cmp) p1) Q s.
Proof.
  intros HM Hf Herr HQ.
  eapply wp_loop with (I := λ m p1 s, merging false m (p1, NULL_PTR, p, last) s); [exact Hf|exact HM|].
  clear m fuel p1 s HM Hf. intros m p1 s HM. unfold carry_step.
  destruct (decide (p1 = NULL_PTR)) as [E1|E1].
  { rewrite bool_decide_eq_false_2 by (by intros []). apply wp_ret. apply (HQ m).
    destruct HM as (u & cr & outs & q & done & lo1 & lo2 & f1 & f2 & HG & Ep & El & Hc & _ & HR).
    exists u, cr, outs, q, done, lo1, lo2, f1, f2. refine (conj HG (conj Ep (conj El (conj Hc (conj _ HR))))).
    intros _. destruct f1 as [|h x cf n]; [done|].
    destruct (carried_cons _ _ _ _ _ _ _ _ _ Hc) as (pc & pn & Hb & _).
    assert (Hblk : blk s p1 [header CELL_priq_item (Z.of_nat h); x; pc; pn]).
    { eapply (grow_holds _ _ _ _ _ HG HC). eapply (adds_mono C C (cr ++ done)); [done|solve_incl|].
      by apply adds_assoc. }
    apply blk_pos in Hblk. unfold NULL_PTR in E1. lia. }
  rewrite bool_decide_eq_true_2 by done. apply wp_bind.
  eapply wp_merging_same; [exact HM|done| |].
  - intros HM'. apply wp_ret. by apply (HQ m).
  - intros Hlink. apply wp_bind. eapply wp_mono; [exact Hlink|]. intros [p1'|] s' Hr; apply wp_ret.
    + destruct Hr as (m' & ? & ?). by exists m'.
    + by apply Herr.
Qed.

(** What [merge] and the operations that call it make of the items [l]. *)
Definition priq_of (s : state) (r : Z) : Prop :=
  ∃ u cs f, 0 ≤ u ≤ 8 * Z.of_nat N ∧ grow s0 s u cs ∧ is_forest (adds C cs) r f ∧ heap rank 0 f ∧ items f ≡ₚ l.

Lemma merging_end b m p1 p2 p last s p' : merging b m (p1, p2, p, last) s →
  (p1 = NULL_PTR ∧ p' = p2 ∨ p2 = NULL_PTR ∧ p' = p1 ∧ b = true) →
  wp (append_rest p' p last) (λ r s', priq_of s' r) s.
Proof.
  intros (u & cr & outs & q & done & lo1 & lo2 & f1 & f2 & HG & -> & -> & Hc & Hs & Hp2 & Hh2 & Ho & Hp
    & HL1 & HL2 & -> & Hu & HB) Hend.
  assert (HD : csub (adds C done) (adds C (cr ++ done))) by (apply adds_mono; [done|solve_incl]).
  assert (Hres : ∃ f lo, is_forest (adds C (cr ++ done)) p' f ∧ heap rank lo f ∧
    outs_ok rank (adds C (cr ++ done)) lo outs ∧ items f ≡ₚ items f1 ++ items f2).
  { destruct Hend as [[Hn ->]|(Hn & -> & ->)].
    - exists f2, lo2. split; [by eapply is_forest_mono|]. split; [done|].
      split; [eapply outs_ok_mono, Ho; [done|lia]|]. 
      destruct f1 as [|h x cf n]; [done|]. subst p1.
      destruct (carried_cons _ _ _ _ _ _ _ _ _ Hc) as (pc & pn & Hb & _).
      apply adds_assoc in Hb. eapply (grow_blk_adds _ _ _ _ (cr ++ done)) in Hb; [|exact HG|done|solve_incl].
      by apply blk_pos in Hb.
    - exists f1, lo1. split; [|split; [auto|split; [eapply outs_ok_mono, Ho; [done|lia]|]]].
      + destruct f1 as [|h x cf n]; [by apply carried_nil in Hc as [-> _]|].
        destruct (carried_cons _ _ _ _ _ _ _ _ _ Hc) as (pc & pn & Hb & Hcf & Hn' & _).
        exists pc, pn. split; [by apply adds_assoc|]. split; by eapply is_forest_mono.
      + destruct f2; [by rewrite app_nil_r|]. subst p2. destruct Hp2 as (? & ? & Hb & _).
        eapply (grow_blk_adds _ _ _ _ done) in Hb; [|exact HG|done|solve_incl]. by apply blk_pos in Hb. }
  destruct Hres as (f & lo & Hf & Hh & Ho' & Hi).
  eapply wp_append_rest; [exact HG|]. intros s' HG'.
  exists u, (out_cells outs p' ++ cr ++ done), (complete outs f). split; [lia|]. split; [done|].
  assert (HD' : csub (adds C (cr ++ done)) (adds C (out_cells outs p' ++ cr ++ done))) by (apply adds_mono; [done|solve_incl]).
  split; [|split].
  - eapply is_forest_complete; [|eapply outs_ok_mono, Ho'; [done|reflexivity]|by eapply is_forest_mono].
    intros [a ws] Ha. right. apply elem_of_app. by left.
  - by eapply complete_heap.
  - by rewrite complete_items, Hi.
Qed.

Lemma wp_merge p1 p2 f1 f2 fuel (Q : Z → state → Prop) :
  wf s0 → is_forest C p1 f1 → heap rank 0 f1 → is_forest C p2 f2 → heap rank 0 f2 →
  items f1 ++ items f2 ≡ₚ l → l ≠ [] → (2 * N < fuel)%nat →
  (∀ s', cmp_failed K c s0 s' → Q NULL_PTR s') → (∀ r s', priq_of s' r → Q r s') →
  wp (merge fuel p1 p2 item_cmp) Q s0.
Proof.
  intros Hw Hf1 Hh1 Hf2 Hh2 Hp Hne Hfuel Herr HQ. unfold merge.
  rewrite (bool_decide_not (p1 = _)), (bool_decide_not (p2 = _)).
  rewrite (is_forest_null _ _ _ _ HC Hf1), (is_forest_null _ _ _ _ HC Hf2).
  assert (Hold : ∀ p f, is_forest C p f → heap rank 0 f → items f ≡ₚ l → priq_of s0 p).
  { intros p f Hf Hh Hi. exists 0, [], f. split; [lia|]. split; [by apply grow_refl|].
    split; [|done]. eapply is_forest_mono, Hf. apply adds_base. }
  destruct f1 as [|h1 x1 c1 n1].
  { destruct f2; [by apply Permutation_nil in Hp|]. cbn [orb negb]. apply wp_bind, wp_assert; [done|].
    apply wp_ret, HQ. by eapply Hold. }
  cbn [orb negb]. apply wp_bind, wp_assert; [done|]. destruct f2 as [|h2 x2 c2 n2].
  { apply wp_ret, HQ. eapply Hold; [done..|]. by rewrite app_nil_r in Hp. }
  apply wp_bind. eapply (wp_merge_loop (2 * N)); [|done|intros s' Hs'; by apply wp_ret, Herr|].
  { exists 0, [], [], 0, [], 0%nat, 0%nat, (FCons h1 x1 c1 n1), (FCons h2 x2 c2 n2).
    split_and!; [by apply grow_refl|done|done| |done| |done|done|done|lia|lia|lia|lia|lia].
    - apply carried_old; [|done]. eapply is_forest_mono, Hf1. apply adds_base.
    - eapply is_forest_mono, Hf2. apply adds_base. }
  intros m q1 q2 p last s' HM Hm Hend. destruct (decide (q1 = NULL_PTR)) as [->|Hq1].
  - rewrite bool_decide_eq_true_2 by done.
    eapply wp_mono; [|exact HQ]. eapply merging_end; [exact HM|]. by left.
  - destruct Hend as [->| ->]; [done|]. rewrite bool_decide_eq_false_2 by done. apply wp_bind.
    eapply wp_carry_loop; [exact HM|lia|intros s'' Hs''; by apply wp_ret, Herr|].
    intros m' q' s'' HM'. eapply wp_mono; [|exact HQ]. eapply merging_end; [exact HM'|]. by right.
Qed.
End merge.

(** * Priority queues of items *)

Definition is_priq (rank : Z → Z) (C : cenv) (p : Z) (l : list Z) : Prop :=
  ∃ f, is_forest C p f ∧ heap rank 0 f ∧ items f ≡ₚ l.

Lemma is_priq_mono rank C C' p l : csub C C' → is_priq rank C p l → is_priq rank C' p l.
Proof. intros HC (f & Hf & ?). exists f. split; [by eapply is_forest_mono|done]. Qed.

Lemma is_priq_null rank s C p l : holds s C → is_priq rank C p l → p = NULL_PTR ↔ l = [].
Proof.
  intros HC (f & Hf & _ & Hl). apply is_forest_null with (s := s) in Hf; [|done].
  rewrite <- (bool_decide_eq_true (p = NULL_PTR)), Hf. destruct f; simpl in Hl.
  - apply Permutation_nil in Hl. by rewrite Hl.
  - split; [done|]. intros ->. by apply Permutation_nil_r in Hl.
Qed.

Section operations.
Context (rank : Z → Z) (K : Z → Prop) (item_cmp : cmp_fun) (c : Z → Z → cmp_result).

(** The comparison function may fail for some items of the structure. *)
Definition may_fail : Prop := ∃ a b, K a ∧ K b ∧ c a b = CMP_ERROR.

(** What [priq_insert] and [priq_merge] promise: a queue of the items [l], or,
    if a comparison failed, [old], with nothing left allocated. *)
Definition priq_result (s : state) (l : list Z) (old r : Z) (s' : state) : Prop :=
  s ⊑ₛ s' ∧ wf s' ∧
  (is_priq rank (blk s') r l ∨
   may_fail ∧ r = old ∧ first_generation_allocation_ptr s' = first_generation_allocation_ptr s).

Lemma priq_of_result C s s1 u cs l N s' r old : grow s s1 u cs → holds s1 C →
  priq_of rank C s1 l N s' r → priq_result s l old r s'.
Proof.
  intros HG HC (u' & cs' & f & _ & HG' & Hf & Hh & Hi).
  pose proof (grow_trans _ _ _ _ _ _ _ HG HG') as HG2. split; [apply HG2|]. split; [apply HG2|].
  left. exists f. split; [|done]. eapply is_forest_mono, Hf. by eapply grow_holds.
Qed.

(** A failed operation gives back what it allocated. *)
Lemma wp_give_up s s1 u cs l old :
  wf s → grow s s1 u cs → may_fail →
  wp (restore_allocation_point (first_generation_allocation_ptr s);; mret old)
    (λ r s', priq_result s l old r s') s1.
Proof.
  intros Hw HG Hfail. apply wp_bind. eapply wp_restore; [exact Hw|exact HG|].
  intros s2 HG2. apply wp_ret. split; [apply HG2|]. split; [apply HG2|]. right.
  split; [done|]. split; [done|]. rewrite (grow_used _ _ _ _ HG2). lia.
Qed.

(** A successful merge does not return [NULL_PTR]. *)
Lemma priq_of_nonnull C s1 l N s' r : holds s1 C → l ≠ [] → priq_of rank C s1 l N s' r → r ≠ NULL_PTR.
Proof.
  intros HC Hl (u & cs & f' & _ & HG' & Hf' & Hh' & Hi') ->. apply Hl.
  eapply (is_priq_null rank); [eapply grow_holds; [exact HG'|exact HC]|by exists f'|done].
Qed.

Lemma wp_priq_insert s p x l fuel :
  wf s → compares (blk s) K rank item_cmp c → is_priq rank (blk s) p l → Forall K (x :: l) →
  Z.of_nat (length (x :: l)) < 2 ^ 32 → room s PRIQ_MAX_ALLOCATION → (64 < fuel)%nat →
  wp (priq_insert fuel p x item_cmp) (λ r s', priq_result s (x :: l) p r s') s.
Proof.
  intros Hw Hcmp (f & Hf & Hh & Hi) Kl Hl Hr Hfuel. pose proof (holds_blk s) as HC.
  pose proof (grow_refl s Hw) as HG. unfold PRIQ_MAX_ALLOCATION in Hr. unfold priq_insert. wp_steps.
  match type of HG with grow _ ?t _ [(?q, _)] => rename t into s0, q into p0 end.
  assert (Hsub : csub (adds (blk s) [(p0, [header CELL_priq_item 0; x; NULL_WORD; NULL_WORD])]) (blk s0)).
  { by eapply grow_holds. }
  eapply (wp_merge rank K (blk s0) item_cmp c) with (N := 32%nat) (f1 := f) (f2 := FCons 0 x FNil FNil) (l := x :: l).
  - eapply compares_mono, Hcmp. intros a ws. apply blk_ext, HG.
  - apply holds_blk.
  - done.
  - done.
  - done.
  - unfold room in *. pose proof (grow_used _ _ _ _ HG). pose proof (ext_end _ _ (grow_ext _ _ _ _ HG)). lia.
  - apply HG.
  - eapply is_forest_mono, Hf. intros a ws. apply blk_ext, HG.
  - done.
  - exists NULL_WORD, NULL_WORD. split; [|done]. apply Hsub. solve_cell.
  - split_and!; [lia|done|by constructor|done].
  - cbn [items app]. rewrite Permutation_app_comm. cbn [app]. by rewrite Hi.
  - done.
  - lia.
  - intros s1 [Hfail (u & cs & HG')]. rewrite bool_decide_eq_true_2 by done.
    eapply wp_give_up; [exact Hw|exact (grow_trans _ _ _ _ _ _ _ HG HG')|done].
  - intros r s1 Hr1. rewrite bool_decide_eq_false_2 by (eapply priq_of_nonnull, Hr1; [apply holds_blk|done]).
    apply wp_ret. eapply priq_of_result, Hr1; [exact HG|apply holds_blk].
Qed.

Lemma wp_priq_merge s p1 p2 l1 l2 fuel :
  wf s → compares (blk s) K rank item_cmp c → is_priq rank (blk s) p1 l1 → is_priq rank (blk s) p2 l2 →
  Forall K (l1 ++ l2) → Z.of_nat (length (l1 ++ l2)) < 2 ^ 32 → room s PRIQ_MAX_ALLOCATION → (64 < fuel)%nat →
  wp (priq_merge fuel p1 p2 item_cmp) (λ r s', priq_result s (l1 ++ l2) NULL_PTR r s') s.
Proof.
  intros Hw Hcmp H1 H2 Kl Hl Hr Hfuel. pose proof (holds_blk s) as HC.
  pose proof (grow_refl s Hw) as HG. unfold PRIQ_MAX_ALLOCATION in Hr. unfold priq_merge.
  destruct (decide (l1 ++ l2 = [])) as [E|E].
  { apply app_eq_nil in E as [-> ->].
    rewrite (proj2 (is_priq_null _ _ _ _ _ HC H1)), (proj2 (is_priq_null _ _ _ _ _ HC H2)) by done.
    rewrite bool_decide_eq_true_2 by done. apply wp_ret. split; [done|]. split; [done|]. left. by exists FNil. }
  replace (bool_decide (p1 = NULL_PTR) && bool_decide (p2 = NULL_PTR)) with false.
  2: { symmetry. apply not_true_iff_false. rewrite andb_true_iff, !bool_decide_eq_true.
       rewrite (is_priq_null _ _ _ _ _ HC H1), (is_priq_null _ _ _ _ _ HC H2). by intros [-> ->]. }
  destruct H1 as (f1 & Hf1 & Hh1 & Hi1), H2 as (f2 & Hf2 & Hh2 & Hi2). wp_steps.
  eapply (wp_merge rank K (blk s) item_cmp c Hcmp s HC (l1 ++ l2)) with (N := 32%nat); try done.
  - unfold room in *. lia.
  - by rewrite Hi1, Hi2.
  - intros s1 [Hfail (u & cs & HG')]. rewrite bool_decide_eq_true_2 by done. by eapply wp_give_up.
  - intros r s1 Hr1. rewrite bool_decide_eq_false_2 by (eapply priq_of_nonnull, Hr1; [apply holds_blk|done]).
    apply wp_ret. eapply priq_of_result, Hr1; [exact HG|apply holds_blk].
Qed.
End operations.

(** * The minimum

    [path C p pre m]: the list of trees from [p] reaches [m] after the trees
    [pre]. *)

Fixpoint path (C : cenv) (p : Z) (pre : list otree) (m : Z) : Prop :=
  match pre with
  | [] => p = m
  | o :: pre' => p = oaddr o ∧ is_forest C (opc o) (oc o) ∧ ∃ pn,
      C p [header CELL_priq_item (Z.of_nat (oh o)); ox o; opc o; pn] ∧ path C pn pre' m
  end.

(** The trees [pre], then the trees [f]. *)
Definition before (pre : list otree) (f : forest) : forest :=
  foldr (λ o f, FCons (oh o) (ox o) (oc o) f) f pre.

Lemma before_snoc pre o f : before (pre ++ [o]) f = before pre (FCons (oh o) (ox o) (oc o) f).
Proof. unfold before. by rewrite foldr_app. Qed.

Lemma before_items pre f : items (before pre f) ≡ₚ out_items pre ++ items f.
Proof.
  induction pre as [|o pre IH]; [done|]. rewrite out_items_cons. simpl. by rewrite IH, app_assoc.
Qed.

Lemma path_snoc C p pre o pn m : path C p pre (oaddr o) → is_forest C (opc o) (oc o) →
  C (oaddr o) [header CELL_priq_item (Z.of_nat (oh o)); ox o; opc o; pn] → pn = m →
  path C p (pre ++ [o]) m.
Proof.
  intros Hp Hc Ho <-. revert p Hp. induction pre as [|o' pre IH]; intros p; simpl.
  - intros ->. split; [done|]. split; [done|]. by exists pn.
  - intros (-> & Hc' & pn' & Hb & Hp). split; [done|]. split; [done|]. exists pn'. auto.
Qed.

Lemma heap_before rank lo pre h x cf n : heap rank lo (before pre (FCons h x cf n)) →
  (lo + length pre ≤ h)%nat ∧ Forall (λ o, (oh o < h)%nat) pre ∧ kids rank cf h ∧ above rank x (items cf) ∧
  heap rank (S h) n.
Proof.
  revert lo. induction pre as [|o pre IH]; intros lo; simpl.
  - intros (? & ? & ? & ?). split_and!; [lia|done..].
  - intros (? & _ & _ & (? & ? & ? & ? & ?)%IH). split_and!; [lia| |done..]. constructor; [lia|done].
Qed.

(** The trees before the minimum, it, and the trees after it. *)
Record minimum (C : cenv) (p : Z) (f : forest) (m : Z) (pre : list otree) (h : nat) (x : Z)
    (cf n : forest) : Prop := {
  min_path : path C p pre m;
  min_tree : is_forest C m (FCons h x cf n);
  min_forest : f = before pre (FCons h x cf n)
}.

Fixpoint root_items (f : forest) : list Z :=
  match f with FNil => [] | FCons _ x _ n => x :: root_items n end.

Lemma root_items_above rank lo y f : heap rank lo f → above rank y (root_items f) → above rank y (items f).
Proof.
  revert lo. induction f as [|h x cf _ n IH]; intros lo; [done|]. simpl.
  intros (_ & _ & Ha & Hh) [Hx Hn]%Forall_cons. constructor; [done|]. apply Forall_app. split; [|by eapply IH].
  eapply Forall_impl; [exact Ha|]. simpl. intros z. lia.
Qed.

Lemma root_items_in f x : x ∈ root_items f → x ∈ items f.
Proof. induction f as [|h y cf _ n IH]; simpl; [done|]. rewrite !elem_of_cons, elem_of_app. tauto. Qed.

Section find_min.
Context (rank : Z → Z) (K : Z → Prop) (item_cmp : cmp_fun) (c : Z → Z → cmp_result).
Context (C : cenv) (Hcmp : compares C K rank item_cmp c) (s : state) (HC : holds s C) (Hw : wf s).
Context (Hno : ¬ may_fail K c).

Lemma root_items_before pre f : root_items (before pre f) = (ox <$> pre) ++ root_items f.
Proof. induction pre as [|o pre IH]; [done|]. simpl. by rewrite IH. Qed.

Lemma above_le x y l : rank y ≤ rank x → above rank x l → above rank y l.
Proof. intros Hxy Hl. eapply Forall_impl; [exact Hl|]. simpl. lia. Qed.

Lemma wp_find_min_loop p f fuel g : ∀ q pre mt prem h x cf n (Q : Z → state → Prop),
  Forall K (root_items f) → (roots g ≤ fuel)%nat → g ≠ FNil →
  path C p pre q → is_forest C q g → f = before pre g →
  minimum C p f mt prem h x cf n → above rank x ((ox <$> pre) ++ take 1 (root_items g)) →
  (∀ mt prem h x cf n, minimum C p f mt prem h x cf n → above rank x (root_items f) → Q mt s) →
  wp (loop fuel (find_min_step item_cmp) (q, mt)) Q s.
Proof.
  revert fuel. induction g as [|hg y cg _ ng IH]; intros fuel q pre mt prem h x cf n Q HK Hfuel Hg Hq Hfq Ef Hm Ha HQ;
    [done|]. destruct fuel as [|fuel]; [simpl in Hfuel; lia|].
  destruct Hfq as (pc & pn & Hb & Hcg & Hng). cbn [loop]. apply wp_bind. unfold find_min_step, NEXT, ITEM.
  apply wp_bind. eapply wp_rd; [by apply HC|done|done|]. cbn.
  assert (Hq' : path C p (pre ++ [mkO q hg y pc cg]) pn) by by eapply (path_snoc _ _ _ (mkO q hg y pc cg)).
  assert (Ef' : f = before (pre ++ [mkO q hg y pc cg]) ng) by by rewrite before_snoc.
  rewrite (is_forest_null _ _ _ _ HC Hng). destruct ng as [|h' y' c' n'].
  { do 2 apply wp_ret. eapply HQ; [exact Hm|]. rewrite Ef, root_items_before. exact Ha. }
  pose proof (min_tree _ _ _ _ _ _ _ _ _ Hm) as (pcm & pnm & Hbm & _).
  apply wp_bind. eapply wp_rd; [by apply HC|done|done|]. cbn.
  pose proof Hng as (pc' & pn' & Hb' & _).
  apply wp_bind. eapply wp_rd; [by apply HC|done|done|]. cbn.
  assert (Kx : K x).
  { rewrite (min_forest _ _ _ _ _ _ _ _ _ Hm), root_items_before in HK. by apply Forall_app in HK as [_ [? _]%Forall_cons]. }
  assert (Ky : K y').
  { rewrite Ef', root_items_before in HK. by apply Forall_app in HK as [_ [? _]%Forall_cons]. }
  assert (Hc : c x y' ≠ CMP_ERROR) by (intros E; apply Hno; by exists x, y').
  destruct (cmp_order _ _ _ _ _ Hcmp x y' Kx Ky) as [Eo|]; [|done].
  apply wp_bind. eapply wp_run; [by apply (cmp_run _ _ _ _ _ Hcmp)|].
  apply wp_bind, wp_assert; [by apply negb_true_iff, bool_decide_eq_false|].
  assert (Hfuel' : (roots (FCons h' y' c' n') ≤ fuel)%nat) by (simpl in *; lia).
  assert (Hvis : ∀ z, rank z ≤ rank x → rank z ≤ rank y' →
    above rank z ((ox <$> pre ++ [mkO q hg y pc cg]) ++ take 1 (root_items (FCons h' y' c' n')))).
  { intros z Hzx Hzy. apply Forall_app. split; [|by repeat constructor].
    rewrite fmap_app. by eapply above_le, Ha. }
  rewrite Eo. destruct (decide (rank y' < rank x)) as [Hlt|Hge].
  - rewrite bool_decide_eq_true_2 by by apply order_greater. apply wp_ret.
    eapply (IH fuel pn _ pn _ h' y' c' n'); [done|done|done|exact Hq'|exact Hng|exact Ef'|by split|apply Hvis; lia|exact HQ].
  - rewrite bool_decide_eq_false_2 by by rewrite order_greater. apply wp_ret.
    eapply (IH fuel pn _ mt); [done|done|done|exact Hq'|exact Hng|exact Ef'|exact Hm|apply Hvis; lia|exact HQ].
Qed.

Lemma wp_find_min p f fuel (Q : Z → state → Prop) :
  is_forest C p f → f ≠ FNil → heap rank 0 f → Forall K (items f) → (roots f ≤ fuel)%nat →
  (∀ mt pre h x cf n, minimum C p f mt pre h x cf n → above rank x (items f) → Q mt s) →
  wp (find_min fuel p item_cmp) Q s.
Proof.
  intros Hf Hne Hh HK Hfuel HQ. unfold find_min. rewrite (is_forest_null _ _ _ _ HC Hf).
  destruct f as [|h x cf n]; [done|].
  eapply (wp_find_min_loop p (FCons h x cf n) fuel (FCons h x cf n) p [] p [] h x cf n);
    [|done..|by split|by repeat constructor|].
  - apply Forall_forall. intros y Hy%root_items_in. by eapply Forall_forall in Hy.
  - intros mt pre h' x' cf' n' Hm Ha. eapply HQ; [exact Hm|]. by eapply root_items_above.
Qed.
End find_min.

Section delete.
Context (rank : Z → Z) (C : cenv) (s0 : state) (HC : holds s0 C) (Hw : wf s0).

Lemma path_ne q o pre m h x cf n : path C q (o :: pre) m → is_forest C m (FCons h x cf n) →
  (oh o < h)%nat → (h < 64)%nat → q ≠ m.
Proof.
  intros (-> & _ & pn & Hb & _) (pc & pm & Hm & _) Hlt Hh E. rewrite E in Hb.
  apply HC in Hb, Hm. pose proof (blk_agree _ _ _ _ Hb Hm eq_refl) as [= Eh _ _ _].
  apply (f_equal (λ w, Z.land w LOW_MASK)) in Eh. rewrite !header_low in Eh by lia. lia.
Qed.

(** The trees before the minimum, copied up to some of them. *)
Definition copying (m : Z) (h : nat) (x : Z) (cf n : forest) (first : Z) (all : list otree)
    (k : nat) (st : Z * Z) (s : state) : Prop :=
  ∃ outs z pre lo, grow s0 s (4 * Z.of_nat (length outs)) (out_cells outs z) ∧
    path C st.1 pre m ∧ st.2 = out_last outs ∧ outs ≠ [] ∧ first = out_first outs ∧
    outs_ok rank C lo outs ∧ heap rank lo (before pre (FCons h x cf n)) ∧
    out_items outs ++ out_items pre ≡ₚ out_items all ∧ (length outs + length pre = length all)%nat ∧
    k = length pre.

Lemma wp_skip_step m h x cf n first all k st s :
  is_forest C m (FCons h x cf n) → (h < 64)%nat → room s0 (4 * Z.of_nat (length all)) →
  copying m h x cf n first all k st s →
  wp (skip_step m st) (λ r s', match r with
    | inl st' => ∃ k', (k' < k)%nat ∧ copying m h x cf n first all k' st' s'
    | inr st' => copying m h x cf n first all 0 st' s' ∧ st'.1 = m end) s.
Proof.
  intros Hm Hh Hroom (outs & z & pre & lo & HG & Hp & Hl & Hne & Hf & Ho & Hheap & Hi & Hlen & ->).
  destruct st as [q last]. cbn [fst snd] in *. subst last. unfold skip_step. destruct pre as [|o pre].
  { simpl in Hp. subst q. rewrite bool_decide_eq_false_2 by (by intros []). apply wp_ret. split; [|done].
    exists outs, z, [], lo. by split_and!. }
  pose proof (heap_before _ _ _ _ _ _ _ Hheap) as (_ & [Hlt _]%Forall_cons & _).
  rewrite bool_decide_eq_true_2 by by eapply path_ne.
  destruct Hp as (-> & Hoc & pn & Hb & Hp). destruct outs as [|o' outs]; [done|].
  cbn [out_cells out_last length] in *. unfold NEXT. wp_steps.
  exists (length pre). split; [simpl; lia|].
  exists (mkO p (oh o) (ox o) (opc o) (oc o) :: o' :: outs), FIRST_GENERATION_DEADBEEF, pre, (S (oh o)).
  destruct Hheap as (Hlo & Hk & Ha & Hheap).
  split_and!; [|exact Hp|done|done|by rewrite out_first_cons| |done| |simpl in *; lia|done].
  - replace (4 * Z.of_nat (length _)) with (4 * Z.of_nat (S (length outs)) + 4) by (simpl; lia). exact HG.
  - refine (conj Hoc (conj Hk (conj Ha (conj (Nat.lt_succ_diag_r _) _)))). cbn [oh].
    refine (outs_ok_mono _ C C lo (oh o) _ _ Hlo Ho). done.
  - rewrite <- Hi, (out_items_cons o pre), (out_items_cons (mkO _ _ _ _ _)), <- app_assoc. cbn [ox oc].
    apply Permutation_app_swap_app.
Qed.

Lemma wp_except_min p f m pre h x cf n fuel (Q : Z → state → Prop) :
  minimum C p f m pre h x cf n → heap rank 0 f → (h < 64)%nat → (h < fuel)%nat → room s0 (4 * Z.of_nat h) →
  (∀ e s u cs fe, 0 ≤ u ≤ 4 * Z.of_nat h → grow s0 s u cs → is_forest (adds C cs) e fe → heap rank 0 fe →
    items fe ≡ₚ out_items pre ++ items n → Q e s) →
  wp (except_min fuel p m) Q s0.
Proof.
  intros [Hp Hm ->] Hheap Hh Hfuel Hroom HQ. pose proof (grow_refl s0 Hw) as HG.
  pose proof (heap_before _ _ _ _ _ _ _ Hheap) as (Hlen & Hlt & Hk & Ha & Hn).
  pose proof Hm as (pcm & pnm & Hbm & Hcm & Hnm). unfold except_min, NEXT. destruct pre as [|o pre].
  { simpl in Hp. subst m. rewrite bool_decide_eq_true_2 by done. wp_steps.
    eapply (HQ _ _ 0 [] n); [lia|exact HG|eapply is_forest_mono, Hnm; apply adds_base| |done].
    eapply heap_weaken, Hn. lia. }
  apply Forall_cons in Hlt as [Hlt _].
  rewrite bool_decide_eq_false_2 by by eapply path_ne. destruct Hp as (-> & Hoc & pn & Hb & Hp).
  simpl in Hlen, Hroom. wp_steps.
  match type of HG with grow _ ?t _ [(?q, _)] => rename t into s, q into new_p end.
  assert (Hst : copying m h x cf n new_p (o :: pre) (length pre) (pn, new_p) s).
  { exists [mkO new_p (oh o) (ox o) (opc o) (oc o)], FIRST_GENERATION_DEADBEEF, pre, (S (oh o)).
    destruct Hheap as (_ & Hk' & Ha' & Hheap).
    split_and!; [exact HG|exact Hp|done..| |done| |done|done].
    2: { rewrite !out_items_cons. cbn [ox oc out_items mbind list_bind]. by rewrite app_nil_r. }
    by refine (conj Hoc (conj Hk' (conj Ha' (conj (Nat.lt_succ_diag_r _) I)))). }
  eapply (wp_loop (copying m h x cf n new_p (o :: pre)) _ _ (length pre)); [lia|exact Hst|].
  { intros k st s' Hst'. eapply wp_mono; [eapply wp_skip_step; [exact Hm|done| |exact Hst']|].
    - unfold room in *. simpl. lia.
    - intros [st'|st'] s'' Hr; [exact Hr|]. destruct st' as [q' last'].
      destruct Hr as [(outs & z & pre' & lo & HG' & Hp' & El & Hne & Ef & Ho & Hheap' & Hi & Hl & Hk0) Eq].
      destruct pre' as [|]; [|done]. simpl in Eq, El. subst q' last'. clear HG s Hst Hst'.
      rename HG' into HG. destruct outs as [|o' outs]; [done|]. cbn [out_cells out_last] in *.
      wp_steps. 
      assert (Hn' : heap rank lo n).
      { eapply heap_weaken, Hn. simpl in Hheap'. lia. }
      pose proof (is_forest_complete rank (adds C (out_cells (o' :: outs) pnm)) lo (o' :: outs) pnm n) as Hcomp.
      eapply (HQ _ _ _ _ (complete (o' :: outs) n)); [|exact HG| |by eapply complete_heap|].
      + simpl in *. rewrite Nat.add_0_r in Hl. lia.
      + rewrite Ef. apply Hcomp.
        * intros [a ws] Ha'. by right.
        * eapply outs_ok_mono, Ho; [apply adds_base|done].
        * eapply is_forest_mono, Hnm. apply adds_base.
      + rewrite complete_items. rewrite app_nil_r in Hi. by rewrite Hi. }
Qed.

(** The trees below the minimum, reversed. *)
Definition reversing (cf : forest) (u : Z) (cs : list cell) (k : nat) (st : Z * Z) (s : state) : Prop :=
  ∃ u' new g r, grow s0 s (u + u') (new ++ cs) ∧ is_forest C st.1 g ∧ kids rank g k ∧
    is_forest (adds C new) st.2 r ∧ heap rank k r ∧ items g ++ items r ≡ₚ items cf ∧
    0 ≤ u' ∧ u' + 4 * Z.of_nat k ≤ 4 * Z.of_nat (roots cf).

Lemma wp_reverse_step cf u cs k st s :
  0 ≤ u → room s0 (u + 4 * Z.of_nat (roots cf)) →
  reversing cf u cs k st s →
  wp (reverse_step st) (λ r s', match r with
    | inl st' => ∃ k', (k' < k)%nat ∧ reversing cf u cs k' st' s'
    | inr r => ∃ q, reversing cf u cs 0 (q, r) s' end) s.
Proof.
  intros Hu Hroom (u' & new & g & r & HG & Hg & Hk & Hr & Hh & Hi & Hu' & HB).
  destruct st as [q rest]. cbn [fst snd] in *. unfold reverse_step.
  rewrite bool_decide_not, (is_forest_null _ _ _ _ HC Hg). destruct g as [|h x c n]; cbn [negb].
  - simpl in Hk. subst k. apply wp_ret. exists q, u', new, FNil, r. by split_and!.
  - destruct Hg as (pc & pn & Hb & Hc & Hn), Hk as (-> & Hkc & Hac & Hkn). unfold NEXT. wp_steps.
    exists h. split; [lia|]. exists (u' + 4), ((p, [header CELL_priq_item (Z.of_nat h); x; pc; rest]) :: new), n, (FCons h x c r).
    assert (HD : csub (adds C new) (adds C ((p, [header CELL_priq_item (Z.of_nat h); x; pc; rest]) :: new)))
      by (apply adds_mono; [done|solve_incl]).
    split_and!; [|exact Hn|done| |by split_and!| |lia|lia].
    + by rewrite Z.add_assoc.
    + exists pc, rest. split; [solve_cell|]. split; [|by eapply is_forest_mono].
      eapply is_forest_mono, Hc. apply adds_base.
    + rewrite <- Hi. cbn [items app]. rewrite <- app_assoc. rewrite !app_comm_cons. 
      by rewrite (Permutation_app_swap_app (items n)).
Qed.
End delete.

Lemma kids_roots rank f h : kids rank f h → roots f = h.
Proof. revert h. induction f as [|k x c _ n IH]; intros h; simpl; [done|]. intros (-> & _ & _ & H). by rewrite (IH k). Qed.

Section delete_spec.
Context (rank : Z → Z) (K : Z → Prop) (item_cmp : cmp_fun) (c : Z → Z → cmp_result).
Context (Hno : ¬ may_fail K c).

(** [priq_delete] on a queue of fewer than [2^N] items. *)
Lemma wp_priq_delete s p f fuel N :
  wf s → compares (blk s) K rank item_cmp c → is_forest (blk s) p f → f ≠ FNil → heap rank 0 f →
  Forall K (items f) → (N ≤ 32)%nat → Z.of_nat (length (items f)) < 2 ^ Z.of_nat N →
  room s (16 * Z.of_nat N) → (64 < fuel)%nat →
  wp (priq_delete fuel p item_cmp) (λ r s', s ⊑ₛ s' ∧ wf s' ∧ ∃ m x l',
    find_min fuel p item_cmp s = Ok m s ∧ (∃ w pc pn, blk s m [w; x; pc; pn]) ∧
    items f ≡ₚ x :: l' ∧ above rank x (items f) ∧ is_priq rank (blk s') r l') s.
Proof.
  intros Hw Hcmp Hf Hne Hh Kl HN Hl Hr Hfuel. pose proof (holds_blk s) as HC.
  assert (Hroots : (roots f ≤ fuel)%nat).
  { destruct (heap_bound rank 0 f Hh) as [|]; [|lia|done].
    eapply Z.lt_le_trans; [exact Hl|]. apply Z.pow_le_mono_r; lia. }
  unfold priq_delete. rewrite (is_forest_null _ _ _ _ HC Hf). destruct f as [|h0 x0 c0 n0] eqn:Ef0; [done|].
  rewrite <- Ef0 in *. clear Ef0 h0 x0 c0 n0.
  assert (Hfm : wp (find_min fuel p item_cmp) (λ m s', s' = s ∧ ∃ pre h x cf n,
    minimum (blk s) p f m pre h x cf n ∧ above rank x (items f)) s).
  { eapply (wp_find_min rank K item_cmp c (blk s)); [done..|]. intros m pre h x cf n Hm Ha. split; [done|].
    by exists pre, h, x, cf, n. }
  apply wp_inv in Hfm as (m & s' & Em & -> & pre & h & x & cf & n & Hm & Ha).
  apply wp_bind. eapply wp_run; [exact Em|]. wp_steps.
  pose proof Hm as [Hp Hmt Ef]. rewrite Ef in Hh.
  pose proof (heap_before _ _ _ _ _ _ _ Hh) as (Hlen & _ & Hk & Hax & Hn). rewrite <- Ef in Hh.
  assert (HhN : (h < N)%nat).
  { eapply (items_bound rank h x cf (out_items pre ++ items n) (items f)); [done| |done].
    rewrite Ef, before_items. apply (Permutation_app_swap_app (x :: items cf)). }
  eapply (wp_except_min rank (blk s)); [done|done|exact Hm|done|lia|lia|solve_room|].
  intros e s1 u cs fe Hu HG He Hhe Hie. pose proof Hmt as (pcm & pnm & Hbm & Hcm & Hnm).
  assert (Hbm1 : blk s1 m [header CELL_priq_item (Z.of_nat h); x; pcm; pnm]) by (eapply blk_ext, Hbm; apply HG).
  unfold SON. apply wp_bind. eapply wp_rd; [exact Hbm1|done|done|]. cbn. apply wp_bind.
  assert (Hrv : reversing rank (blk s) s cf u cs h (pcm, NULL_PTR) s1).
  { exists 0, [], cf, FNil. rewrite Z.add_0_r. cbn [app fst snd items]. rewrite app_nil_r.
    split_and!; [exact HG|exact Hcm|done..|]. rewrite (kids_roots _ _ _ Hk). lia. }
  eapply (wp_loop (reversing rank (blk s) s cf u cs)); [|exact Hrv|]; [lia|].
  intros k st s2 Hst. eapply wp_mono; [eapply (wp_reverse_step rank (blk s) s HC cf u cs); [lia| |exact Hst]|].
  { rewrite (kids_roots _ _ _ Hk). unfold room in *. lia. }
  intros [st'|r] s3 Hst3; [exact Hst3|]. clear k st s2 Hst Hrv. rename s3 into s2, Hst3 into Hst.
  destruct Hst as (q & u' & new & g & fr & HG' & _ & Hg & Hfr & Hhr & Hir & Hu' & HB').
  destruct g; [|simpl in Hg; by destruct Hg]. cbn [fst snd items app] in *.
  assert (Hitems : items f ≡ₚ x :: (items fr ++ items fe)).
  { rewrite Ef, before_items, Hir, Hie. cbn [items]. rewrite <- Permutation_middle.
    by rewrite (Permutation_app_swap_app (out_items pre)). }
  assert (He' : is_forest (blk s2) e fe).
  { eapply (is_forest_mono (adds (blk s) (new ++ cs))); [by eapply grow_holds|].
    eapply is_forest_mono, He. apply adds_mono; [done|solve_incl]. }
  assert (Hr' : is_forest (blk s2) r fr).
  { eapply (is_forest_mono (adds (blk s) (new ++ cs))); [by eapply grow_holds|].
    eapply is_forest_mono, Hfr. apply adds_mono; [done|by apply list_subseteq_app_l]. }
  assert (Hfin : ∀ r s', s ⊑ₛ s' → wf s' → is_priq rank (blk s') r (items fr ++ items fe) →
    s ⊑ₛ s' ∧ wf s' ∧ ∃ m x l',
    find_min fuel p item_cmp s = Ok m s ∧ (∃ w pc pn, blk s m [w; x; pc; pn]) ∧
    items f ≡ₚ x :: l' ∧ above rank x (items f) ∧ is_priq rank (blk s') r l').
  { intros r' s' He2 Hw2 Hpr. split; [done|]. split; [done|]. exists m, x, (items fr ++ items fe).
    split; [done|]. split; [by eexists _, _, _|done]. }
  rewrite (is_forest_null _ _ _ _ (holds_blk s2) He'), (is_forest_null _ _ _ _ (holds_blk s2) Hr').
  destruct (decide (items fr ++ items fe = [])) as [E|E].
  { destruct fe; [|by apply app_eq_nil in E as [_ ?]]. destruct fr; [|done]. cbn [andb].
    apply wp_ret, Hfin; [apply HG'|apply HG'|]. by exists FNil. }
  replace (_ && _) with false by by destruct fe, fr.
  apply wp_bind. rewrite <- (kids_roots _ _ _ Hk) in HhN. 
  eapply (wp_merge rank K (blk s2) item_cmp c) with (N := N) (l := items fr ++ items fe) (f1 := fr) (f2 := fe).
  - eapply compares_mono, Hcmp. intros a ws. apply blk_ext, HG'.
  - apply holds_blk.
  - rewrite Hitems in Kl. by inversion_clear Kl.
  - done.
  - rewrite Hitems in Hl. simpl in Hl. lia.
  - unfold room in *. pose proof (grow_used _ _ _ _ HG'). pose proof (ext_end _ _ (grow_ext _ _ _ _ HG')).
    rewrite (kids_roots _ _ _ Hk) in HhN, HB'. lia.
  - apply HG'.
  - done.
  - done.
  - done.
  - done.
  - done.
  - done.
  - lia.
  - by intros s3 [Hf' _].
  - intros r3 s3 Hr3. rewrite bool_decide_eq_false_2 by (eapply priq_of_nonnull, Hr3; [apply holds_blk|done]).
    apply wp_ret. destruct (priq_of_result rank K c _ _ _ _ _ _ _ _ r3 NULL_PTR HG' (holds_blk s2) Hr3) as (He3 & Hw3 & [H3|[? _]]);
      [|done]. by apply Hfin.
Qed.

Lemma wp_priq_find_min s p l fuel (Q : Z → state → Prop) :
  wf s → compares (blk s) K rank item_cmp c → is_priq rank (blk s) p l → l ≠ [] → Forall K l →
  Z.of_nat (length l) < 2 ^ 32 → (32 ≤ fuel)%nat →
  (∀ x, x ∈ l → above rank x l → Q x s) → wp (priq_find_min fuel p item_cmp) Q s.
Proof.
  intros Hw Hcmp (f & Hf & Hh & Hi) Hne Kl Hl Hfuel HQ. pose proof (holds_blk s) as HC.
  assert (f ≠ FNil) by (intros ->; apply Hne; by apply Permutation_nil).
  rewrite <- Hi in Kl, Hl.
  unfold priq_find_min. apply wp_bind. eapply (wp_find_min rank K item_cmp c (blk s)); [done..| |].
  { destruct (heap_bound rank 0 f Hh) as [|]; [done|lia|done]. }
  intros m pre h x cf n [_ (pc & pn & Hb & _) Ef] Ha.
  rewrite bool_decide_eq_false_2 by (apply HC, blk_pos in Hb; unfold NULL_PTR; lia).
  unfold ITEM. eapply wp_rd; [exact Hb|done|done|]. apply HQ.
  - rewrite <- Hi, Ef, before_items. apply elem_of_app. right. by left.
  - unfold above. by rewrite <- Hi.
Qed.

Lemma wp_priq_make_assertions C s fuel p l (Q : unit → state → Prop) :
  holds s C → is_priq rank C p l → Z.of_nat (length l) < 2 ^ 32 → (33 ≤ fuel)%nat → Q tt s →
  wp (priq_make_assertions fuel p) Q s.
Proof.
  intros HC (f & Hf & Hh & Hi) Hl Hfuel HQ. rewrite <- Hi in Hl. unfold priq_make_assertions, PRIQ_IS_EMPTY.
  rewrite (is_forest_null _ _ _ _ HC Hf).
  assert (Hroots : (roots f < fuel)%nat).
  { destruct (heap_bound rank 0 f Hh Hl) as [?| ->]; simpl; lia. }
  destruct f as [|h0 x0 c0 n0] eqn:Ef; [by apply wp_ret|]. rewrite <- Ef in *. clear Ef h0 x0 c0 n0.
  eapply wp_loop with (n := roots f) (I := λ k '(p, previous) s', s' = s ∧ ∃ g lo, is_forest C p g ∧ heap rank lo g ∧
    k = roots g ∧ (Z.of_nat (length (items g)) < 2 ^ 32) ∧
    (previous = NULL_PTR ∨ ∃ h x pc pn, C previous [header CELL_priq_item (Z.of_nat h); x; pc; pn] ∧ (h < lo)%nat ∧ (h < 32)%nat));
    [done| |].
  { split; [done|]. exists f, 0%nat. split_and!; [done..|by left]. }
  intros k [q previous] s' (-> & g & lo & Hg & Hhg & -> & Hlg & Hprev). unfold assertion_step.
  rewrite bool_decide_not, (is_forest_null _ _ _ _ HC Hg). destruct g as [|h x cf n]; cbn [negb].
  { by apply wp_ret. }
  destruct Hg as (pc & pn & Hb & Hc & Hn), Hhg as (Hlo & Hk & Ha & Hhn).
  simpl in Hlg. rewrite length_app in Hlg.
  assert (h < 32)%nat by (eapply kids_bound; [exact Hk|lia]).
  apply wp_bind. destruct Hprev as [->|(h' & x' & pc' & pn' & Hb' & Hlt & ?)].
  - rewrite bool_decide_eq_false_2 by (by intros []). apply wp_ret. apply wp_bind. eapply wp_rd; [by apply HC|done|done|]. apply wp_ret. 
    exists (roots n). split; [simpl; lia|]. split; [done|]. exists n, (S h). split_and!; [done..|lia|].
    right. exists h, x, pc, pn. split; [done|]. lia.
  - rewrite bool_decide_eq_true_2 by (apply HC, blk_pos in Hb'; unfold NULL_PTR; lia).
    apply wp_bind. eapply wp_item_HEIGHT; [by apply HC|lia|]. apply wp_bind. eapply wp_item_HEIGHT; [by apply HC|lia|].
    apply wp_assert; [apply bool_decide_eq_true; lia|]. apply wp_bind. eapply wp_rd; [by apply HC|done|done|]. apply wp_ret. 
    exists (roots n). split; [simpl; lia|]. split; [done|]. exists n, (S h). split_and!; [done..|lia|].
    right. exists h, x, pc, pn. split; [done|]. lia.
Qed.
End delete_spec.

(** * Properties *)

(** C17. [priq_insert] adds the item: it returns a queue of the old items and
    the new one, on which the source's own assertions pass, or, if a comparison
    failed, the old queue with everything it had allocated given back.  It
    stays within [PRIQ_MAX_ALLOCATION] words, and no queue of the old state
    changes. *)
Theorem priq_insert_correct rank K item_cmp c fuel p x l s :
  wf s → compares (blk s) K rank item_cmp c → is_priq rank (blk s) p l → Forall K (x :: l) →
  Z.of_nat (length (x :: l)) < 2 ^ 32 → room s PRIQ_MAX_ALLOCATION → (64 < fuel)%nat →
  ∃ r s', priq_insert fuel p x item_cmp s = Ok r s' ∧ s ⊑ₛ s' ∧ wf s' ∧
    (∀ p0 l0, is_priq rank (blk s) p0 l0 → is_priq rank (blk s') p0 l0) ∧
    ((is_priq rank (blk s') r (x :: l) ∧ priq_make_assertions fuel r s' = Ok tt s') ∨
     may_fail K c ∧ r = p ∧ first_generation_allocation_ptr s' = first_generation_allocation_ptr s).
Proof.
  intros Hw Hcmp Hp Kl Hl Hr Hfuel.
  destruct (wp_inv _ _ _ (wp_priq_insert rank K item_cmp c s p x l fuel Hw Hcmp Hp Kl Hl Hr Hfuel))
    as (r & s' & E & He & Hw' & Hres).
  exists r, s'. split; [done|]. split; [done|]. split; [done|]. split.
  { intros p0 l0. apply is_priq_mono. intros a ws. by apply blk_ext. }
  destruct Hres as [Hq|Hq]; [left|by right]. split; [done|].
  destruct (wp_inv (priq_make_assertions fuel r) (λ _ s1, s1 = s') s') as ([] & s1 & E1 & ->); [|done].
  eapply wp_priq_make_assertions; [apply holds_blk|exact Hq|done|lia|done].
Qed.

(** Inserting a list of items, for the examples. *)
Definition insert_all (l : list Z) : M Z :=
  foldl (λ m x, p ← m; priq_insert 65 p x word_cmp) (mret NULL_PTR) l.

(** A queue of the items 5, 3 and 9. *)
Definition example_priq_state : state := exec (insert_all [5; 3; 9]) (init_state 4 600 []).
Definition example_priq : Z := value 0 (insert_all [5; 3; 9]) (init_state 4 600 []).

Lemma example_priq_ok : is_priq (λ x, x) (blk example_priq_state) example_priq [5; 3; 9].
Proof.
  exists (FCons 0 9 FNil (FCons 1 3 (FCons 0 5 FNil FNil) FNil)). split; [|split].
  - exists 0, 2368. split; [apply blkb_sound; by vm_compute|]. split; [done|].
    exists 2352, 0. split; [apply blkb_sound; by vm_compute|]. split; [|done].
    exists 0, 0. split; [apply blkb_sound; by vm_compute|done].
  - simpl. split_and!; (lia || done || by repeat constructor).
  - simpl. solve_Permutation.
Qed.

Lemma priq_insert_correct_witness :
  ∃ r s', priq_insert 65 example_priq 4 word_cmp example_priq_state = Ok r s' ∧
    example_priq_state ⊑ₛ s' ∧ wf s' ∧
    (∀ p0 l0, is_priq (λ x, x) (blk example_priq_state) p0 l0 → is_priq (λ x, x) (blk s') p0 l0) ∧
    ((is_priq (λ x, x) (blk s') r [4; 5; 3; 9] ∧ priq_make_assertions 65 r s' = Ok tt s') ∨
     may_fail (λ _, True) order ∧ r = example_priq ∧
       first_generation_allocation_ptr s' = first_generation_allocation_ptr example_priq_state).
Proof.
  apply (priq_insert_correct (λ x, x) (λ _, True) word_cmp order 65 example_priq 4 [5; 3; 9]).
  - apply wfb_sound. by vm_compute.
  - apply word_cmp_compares.
  - apply example_priq_ok.
  - by repeat constructor.
  - by vm_compute.
  - vm_compute. discriminate.
  - lia.
Defined.

(** C18. On a non-empty queue of fewer than [2^N] items that can all be compared,
    [priq_find_min] answers a smallest item, and [priq_delete] returns a queue
    of exactly the other items, within [16 N] words; no queue of the old state
    changes.  [PRIQ_MAX_ALLOCATION] is as much as [16 N] only up to [N = 24]. *)
Theorem priq_delete_correct rank K item_cmp c fuel p l N s :
  wf s → compares (blk s) K rank item_cmp c → ¬ may_fail K c → is_priq rank (blk s) p l → l ≠ [] →
  Forall K l → (N ≤ 32)%nat → Z.of_nat (length l) < 2 ^ Z.of_nat N → room s (16 * Z.of_nat N) →
  (64 < fuel)%nat →
  ∃ x l' r s', priq_find_min fuel p item_cmp s = Ok x s ∧
    l ≡ₚ x :: l' ∧ (∀ y, y ∈ l → rank x ≤ rank y) ∧
    priq_delete fuel p item_cmp s = Ok r s' ∧ s ⊑ₛ s' ∧ wf s' ∧ is_priq rank (blk s') r l' ∧
    (∀ p0 l0, is_priq rank (blk s) p0 l0 → is_priq rank (blk s') p0 l0).
Proof.
  intros Hw Hcmp Hno (f & Hf & Hh & Hi) Hne Kl HN Hl Hr Hfuel.
  assert (Hf0 : f ≠ FNil) by (intros ->; apply Hne; by apply Permutation_nil).
  rewrite <- Hi in Kl, Hl.
  destruct (wp_inv _ _ _ (wp_priq_delete rank K item_cmp c Hno s p f fuel N Hw Hcmp Hf Hf0 Hh Kl HN Hl Hr Hfuel))
    as (r & s' & E & He & Hw' & m & x & l' & Em & (w & pc & pn & Hb) & Hxl & Ha & Hq).
  exists x, l', r, s'. split_and!; [|by rewrite <- Hi| |done..|].
  - destruct (wp_inv (priq_find_min fuel p item_cmp) (λ y s1, y = x ∧ s1 = s) s) as (y & s1 & E1 & -> & ->);
      [|done]. unfold priq_find_min. apply wp_bind. eapply wp_run; [exact Em|].
    rewrite bool_decide_eq_false_2 by (apply blk_pos in Hb; unfold NULL_PTR; lia).
    by eapply wp_rd; [exact Hb|..].
  - intros y Hy. rewrite <- Hi in Hy. by eapply Forall_forall in Hy; [|exact Ha].
  - intros p0 l0. apply is_priq_mono. intros a ws. by apply blk_ext.
Qed.

Lemma priq_delete_correct_witness :
  ∃ x l' r s', priq_find_min 65 example_priq word_cmp example_priq_state = Ok x example_priq_state ∧
    [5; 3; 9] ≡ₚ x :: l' ∧ (∀ y, y ∈ [5; 3; 9] → x ≤ y) ∧
    priq_delete 65 example_priq word_cmp example_priq_state = Ok r s' ∧
    example_priq_state ⊑ₛ s' ∧ wf s' ∧ is_priq (λ x, x) (blk s') r l' ∧
    (∀ p0 l0, is_priq (λ x, x) (blk example_priq_state) p0 l0 → is_priq (λ x, x) (blk s') p0 l0).
Proof.
  apply (priq_delete_correct (λ x, x) (λ _, True) word_cmp order 65 example_priq [5; 3; 9] 2).
  - apply wfb_sound. by vm_compute.
  - apply word_cmp_compares.
  - intros (a & b & _ & _ & E). revert E. unfold order. by repeat case_bool_decide.
  - apply example_priq_ok.
  - done.
  - by repeat constructor.
  - lia.
  - by vm_compute.
  - vm_compute. discriminate.
  - lia.
Defined.

(** C19. [priq_merge] of two queues returns a queue of the items of both, or
    [NULL_PTR] with everything given back if a comparison failed; both queues
    are still there afterwards. *)
Theorem priq_merge_correct rank K item_cmp c fuel p1 p2 l1 l2 s :
  wf s → compares (blk s) K rank item_cmp c → is_priq rank (blk s) p1 l1 → is_priq rank (blk s) p2 l2 →
  Forall K (l1 ++ l2) → Z.of_nat (length (l1 ++ l2)) < 2 ^ 32 → room s PRIQ_MAX_ALLOCATION → (64 < fuel)%nat →
  ∃ r s', priq_merge fuel p1 p2 item_cmp s = Ok r s' ∧ s ⊑ₛ s' ∧ wf s' ∧
    is_priq rank (blk s') p1 l1 ∧ is_priq rank (blk s') p2 l2 ∧
    (is_priq rank (blk s') r (l1 ++ l2) ∨
     may_fail K c ∧ r = NULL_PTR ∧ first_generation_allocation_ptr s' = first_generation_allocation_ptr s).
Proof.
  intros Hw Hcmp H1 H2 Kl Hl Hr Hfuel.
  destruct (wp_inv _ _ _ (wp_priq_merge rank K item_cmp c s p1 p2 l1 l2 fuel Hw Hcmp H1 H2 Kl Hl Hr Hfuel))
    as (r & s' & E & He & Hw' & Hres).
  assert (Hext : csub (blk s) (blk s')) by (intros a ws; by apply blk_ext).
  exists r, s'. split_and!; [done..| | |done]; by eapply is_priq_mono.
Qed.

Lemma priq_merge_correct_witness :
  ∃ r s', priq_merge 65 example_priq example_priq word_cmp example_priq_state = Ok r s' ∧
    example_priq_state ⊑ₛ s' ∧ wf s' ∧
    is_priq (λ x, x) (blk s') example_priq [5; 3; 9] ∧ is_priq (λ x, x) (blk s') example_priq [5; 3; 9] ∧
    (is_priq (λ x, x) (blk s') r [5; 3; 9; 5; 3; 9] ∨
     may_fail (λ _, True) order ∧ r = NULL_PTR ∧
       first_generation_allocation_ptr s' = first_generation_allocation_ptr example_priq_state).
Proof.
  apply (priq_merge_correct (λ x, x) (λ _, True) word_cmp order 65 example_priq example_priq [5; 3; 9] [5; 3; 9]).
  - apply wfb_sound. by vm_compute.
  - apply word_cmp_compares.
  - apply example_priq_ok.
  - apply example_priq_ok.
  - by repeat constructor.
  - by vm_compute.
  - vm_compute. discriminate.
  - lia.
Defined.
