(* ===== verification/Digits.v ===== *)
(** The keys of tries as sequences of base-4 digits: a key of [2 n] bits is a
    list of [n] digits, the most significant one first.  The C code keeps the
    digits not yet compared left-justified in a word; [just] is that word. *)

From S2P Require Import Prelude Bitops.

Definition digit (d : Z) : Prop := 0 ≤ d < 4.

(** The number with the given digits. *)
Definition num (ds : list Z) : Z := foldl (λ a d, 4 * a + d) 0 ds.

(** The last [n] digits of [k]. *)
Fixpoint digits (n : nat) (k : Z) : list Z :=
  match n with
  | O => []
  | S n' => (k / 4 ^ Z.of_nat n') mod 4 :: digits n' k
  end.

(** Left-justified in a word. *)
Definition just (ds : list Z) : Z := num ds * 2 ^ (32 - 2 * Z.of_nat (length ds)).

(** A choice by a digit. *)
Definition pick {A} (j : nat) (x0 x1 x2 x3 : A) : A :=
  match j with O => x0 | 1%nat => x1 | 2%nat => x2 | _ => x3 end.

Lemma four_cases (P : nat → Prop) : P 0%nat → P 1%nat → P 2%nat → P 3%nat → ∀ j, (j < 4)%nat → P j.
Proof. intros ? ? ? ? j Hj. do 4 (destruct j as [|j]; [done|]). lia. Qed.

(** * Numbers and digits *)

Lemma pow4 n : 4 ^ Z.of_nat n = 2 ^ (2 * Z.of_nat n).
Proof. rewrite Z.pow_mul_r by lia. done. Qed.

Lemma pow4_pos n : 0 < 4 ^ Z.of_nat n.
Proof. apply Z.pow_pos_nonneg; lia. Qed.

Lemma pow4_S n : 4 ^ Z.of_nat (S n) = 4 * 4 ^ Z.of_nat n.
Proof. rewrite Nat2Z.inj_succ, Z.pow_succ_r by lia. done. Qed.

Lemma num_app a b : num (a ++ b) = num a * 4 ^ Z.of_nat (length b) + num b.
Proof.
  unfold num. rewrite foldl_app. generalize (foldl (λ a d, 4 * a + d) 0 a). clear a.
  induction b as [|d b IH] using rev_ind; intros x; simpl; [lia|].
  rewrite !foldl_app. simpl. rewrite IH, length_app. simpl.
  rewrite Nat.add_1_r, pow4_S. ring.
Qed.

Lemma num_cons d b : num (d :: b) = d * 4 ^ Z.of_nat (length b) + num b.
Proof. apply (num_app [d] b). Qed.

Lemma num_bound ds : Forall digit ds → 0 ≤ num ds < 4 ^ Z.of_nat (length ds).
Proof.
  induction 1 as [|d ds Hd _ IH]; [done|]. rewrite num_cons. cbn [length]. rewrite pow4_S.
  unfold digit in Hd. nia.
Qed.

Lemma num_inj a b : length a = length b → Forall digit a → Forall digit b → num a = num b → a = b.
Proof.
  revert b. induction a as [|x a IH]; intros [|y b]; try done. cbn [length]. intros [= Hl] Ha Hb E.
  apply Forall_cons in Ha as [Hx Ha], Hb as [Hy Hb]. rewrite !num_cons, Hl in E.
  pose proof (num_bound _ Ha) as B1. pose proof (num_bound _ Hb) as B2. rewrite Hl in B1.
  assert (x = y) as -> by nia. f_equal. apply IH; [done..|lia].
Qed.

Lemma length_digits n k : length (digits n k) = n.
Proof. induction n as [|n IH]; [done|]. simpl. by rewrite IH. Qed.

Lemma digits_digit n k : Forall digit (digits n k).
Proof. induction n as [|n IH]; [done|]. constructor; [|done]. apply Z.mod_pos_bound. lia. Qed.

Lemma num_digits n k : num (digits n k) = k mod 4 ^ Z.of_nat n.
Proof.
  induction n as [|n IH]; [by rewrite Z.mod_1_r|]. cbn [digits].
  rewrite num_cons, IH, length_digits, pow4_S.
  rewrite (Z.mul_comm 4), Z.rem_mul_r by (pose proof (pow4_pos n); lia). lia.
Qed.

Lemma digits_num ds : Forall digit ds → digits (length ds) (num ds) = ds.
Proof.
  intros Hd. apply num_inj; [apply length_digits|apply digits_digit|done|].
  rewrite num_digits. apply Z.mod_small. by apply num_bound.
Qed.

Lemma digits_mod n k : digits n (k mod 4 ^ Z.of_nat n) = digits n k.
Proof.
  apply num_inj; [by rewrite !length_digits|apply digits_digit..|].
  rewrite !num_digits. apply Zmod_mod.
Qed.

Lemma digits_inj n k k' : 0 ≤ k < 4 ^ Z.of_nat n → 0 ≤ k' < 4 ^ Z.of_nat n →
  digits n k = digits n k' → k = k'.
Proof.
  intros Hk Hk' E. apply (f_equal num) in E. by rewrite !num_digits, !Z.mod_small in E.
Qed.

(** Numbers are ordered like their digit sequences. *)
Lemma num_lt_app a b x y a' b' : length a' = length b' → Forall digit a' → Forall digit b' →
  num a = num b → x < y → num (a ++ x :: a') < num (b ++ y :: b').
Proof.
  intros Hl Ha Hb E Hxy. rewrite !num_app, !num_cons, E. cbn [length]. rewrite Hl.
  pose proof (num_bound _ Ha) as B1. pose proof (num_bound _ Hb) as B2. rewrite Hl in B1. nia.
Qed.

(** * Left-justified keys *)

Section just.
Context (a b : list Z) (Ha : Forall digit a) (Hb : Forall digit b) (Hl : (length (a ++ b) ≤ 16)%nat).

Let low : Z := num b * 2 ^ (32 - 2 * Z.of_nat (length (a ++ b))).

Lemma just_app : just (a ++ b) = num a * 2 ^ (32 - 2 * Z.of_nat (length a)) + low.
Proof.
  unfold just, low. rewrite num_app, Z.mul_add_distr_r, pow4. f_equal.
  pose proof Hl as Hl'. rewrite length_app in Hl' |- *. rewrite <- Z.mul_assoc, <- (Z.pow_add_r 2 (2 * _)) by lia. do 2 f_equal. lia.
Qed.

Lemma low_bound : 0 ≤ low < 2 ^ (32 - 2 * Z.of_nat (length a)).
Proof.
  unfold low. pose proof Hl as Hl'. rewrite length_app in Hl' |- *. pose proof (num_bound _ Hb) as B. rewrite pow4 in B.
  set (e := 32 - 2 * Z.of_nat (length a + length b)).
  replace (32 - 2 * Z.of_nat (length a)) with (2 * Z.of_nat (length b) + e) by (unfold e; lia).
  rewrite Z.pow_add_r by (unfold e; lia).
  pose proof (Z.pow_pos_nonneg 2 e ltac:(lia) ltac:(unfold e; lia)). nia.
Qed.

(** [key >> (32 - n)] *)
Lemma just_take : shr32 (just (a ++ b)) (32 - 2 * Z.of_nat (length a)) = num a.
Proof.
  pose proof low_bound as B. pose proof Hl as Hl'. rewrite length_app in Hl'. rewrite just_app. unfold shr32.
  rewrite Z.shiftr_div_pow2 by lia. rewrite Z.div_add_l, (Z.div_small low) by lia. lia.
Qed.

(** [key <<= n] *)
Lemma just_drop : shl32 (just (a ++ b)) (2 * Z.of_nat (length a)) = just b.
Proof.
  pose proof low_bound as B. rewrite just_app. unfold shl32.
  rewrite Z.shiftl_mul_pow2, Z.mul_add_distr_r, <- (Z.mul_assoc (num a)) by lia.
  pose proof Hl as Hl'. rewrite length_app in Hl'. rewrite <- Z.pow_add_r by lia.
  replace (32 - 2 * Z.of_nat (length a) + 2 * Z.of_nat (length a)) with 32 by lia.
  unfold w32. change word_modulus with (2 ^ 32). rewrite Z.add_comm, Z_mod_plus_full.
  assert (E : low * 2 ^ (2 * Z.of_nat (length a)) = just b).
  { unfold low, just. rewrite length_app, <- Z.mul_assoc, <- Z.pow_add_r by lia. do 2 f_equal. lia. }
  rewrite E. apply Z.mod_small. unfold just. pose proof (num_bound _ Hb) as B2. rewrite pow4 in B2.
  pose proof (Z.pow_pos_nonneg 2 (32 - 2 * Z.of_nat (length b)) ltac:(lia) ltac:(lia)).
  assert (E2 : 2 ^ 32 = 2 ^ (2 * Z.of_nat (length b)) * 2 ^ (32 - 2 * Z.of_nat (length b))).
  { rewrite <- Z.pow_add_r by lia. f_equal. lia. }
  rewrite E2. nia.
Qed.
End just.

Lemma just_nil : just [] = 0.
Proof. done. Qed.

Section key.
Context (n : nat) (key : Z) (Hn : (n ≤ 16)%nat).

(** [key <<= 32 - key_length] drops the insignificant bits. *)
Lemma just_digits : shl32 key (32 - 2 * Z.of_nat n) = just (digits n key).
Proof.
  unfold just, shl32. rewrite num_digits, length_digits, Z.shiftl_mul_pow2 by lia.
  unfold w32. change word_modulus with (2 ^ 32).
  assert (E : 2 ^ 32 = 4 ^ Z.of_nat n * 2 ^ (32 - 2 * Z.of_nat n)).
  { rewrite pow4, <- Z.pow_add_r by lia. f_equal. lia. }
  by rewrite E, Zmult_mod_distr_r.
Qed.

(** A key that has no others. *)
Lemma just_num : 0 ≤ key < 4 ^ Z.of_nat n → num (digits n key) = key.
Proof. intros H. rewrite num_digits. by apply Z.mod_small. Qed.
End key.

Section first_digit.
Context (d : Z) (b : list Z) (Hd : digit d) (Hb : Forall digit b) (Hl : (length (d :: b) ≤ 16)%nat).

Lemma just_digit : shr32 (just (d :: b)) 30 = d.
Proof. apply (just_take [d] b Hb Hl). Qed.

Lemma just_tail : shl32 (just (d :: b)) 2 = just b.
Proof. apply (just_drop [d] b Hb Hl). Qed.
End first_digit.

(** * The first difference of two keys *)

Lemma lxor_shift_small x y : digit x → digit y → ∀ p, 0 ≤ p →
  Z.lxor (4 * p + x) (4 * p + y) = Z.lxor x y.
Proof.
  unfold digit. intros Hx Hy p Hp.
  assert (H : ∀ z, 0 ≤ z < 4 → 4 * p + z = Z.lxor (Z.shiftl p 2) z).
  { intros z Hz. rewrite <- Z.add_nocarry_lxor; [rewrite Z.shiftl_mul_pow2; lia|].
    apply Z.bits_inj'. intros i Hi. rewrite Z.land_spec, Z.bits_0. destruct (decide (i < 2)).
    - by rewrite Z.shiftl_spec_low.
    - rewrite (Z.bits_above_log2 z), andb_false_r; [done|lia|].
      destruct (decide (z = 0)) as [->|]; [simpl; lia|].
      assert (Z.log2 z < 2) by (apply Z.log2_lt_pow2; lia). lia. }
  rewrite (H x), (H y) by done. rewrite (Z.lxor_comm _ x), Z.lxor_assoc, <- (Z.lxor_assoc (Z.shiftl p 2)).
  by rewrite Z.lxor_nilpotent, Z.lxor_0_l.
Qed.

(** [highest_bit(node_prefix ^ key_prefix) & ~0x1]: two bits for every digit
    behind the first one that differs. *)
Lemma highest_different c x y a b :
  Forall digit c → digit x → digit y → Forall digit a → Forall digit b → length a = length b →
  (length (c ++ x :: a) ≤ 16)%nat → x ≠ y →
  ∃ h, highest_bit (Z.lxor (num (c ++ x :: a)) (num (c ++ y :: b))) = Some h ∧
    Z.land h (Z.lnot 1) = 2 * Z.of_nat (length a).
Proof.
  intros Hc Hx Hy Ha Hb Hl Hlen Hxy. rewrite length_app in Hlen. cbn [length] in Hlen.
  set (m := length a) in *. set (P := num c).
  pose proof (num_bound _ Hc) as BP. pose proof (num_bound _ Ha) as Ba. pose proof (num_bound _ Hb) as Bb.
  rewrite <- Hl in Bb. fold m P in BP, Ba, Bb.
  assert (En : ∀ z l, length l = m → num (c ++ z :: l) = (4 * P + z) * 4 ^ Z.of_nat m + num l).
  { intros z l Hll. rewrite num_app, num_cons. cbn [length]. rewrite Hll, pow4_S. fold P. ring. }
  rewrite (En x a), (En y b) by done. set (u := (4 * P + x) * 4 ^ Z.of_nat m + num a).
  set (w := (4 * P + y) * 4 ^ Z.of_nat m + num b).
  assert (Hu : Z.shiftr u (2 * Z.of_nat m) = 4 * P + x).
  { unfold u. rewrite Z.shiftr_div_pow2, <- pow4, Z.div_add_l, Z.div_small by (pose proof (pow4_pos m); lia); lia. }
  assert (Hw : Z.shiftr w (2 * Z.of_nat m) = 4 * P + y).
  { unfold w. rewrite Z.shiftr_div_pow2, <- pow4, Z.div_add_l, Z.div_small by (pose proof (pow4_pos m); lia); lia. }
  pose proof (Z.shiftr_lxor u w (2 * Z.of_nat m)) as Hs.
  rewrite Hu, Hw, lxor_shift_small in Hs by (done || lia).
  set (v := Z.lxor u w) in *. set (z := Z.lxor x y) in *.
  unfold digit in Hx, Hy. pose proof (pow4_pos m) as Hpos.
  assert (Hz : 0 < z < 4).
  { assert (0 ≤ z) by (apply Z.lxor_nonneg; lia).
    assert (z ≠ 0) by (unfold z; by rewrite Z.lxor_eq_0_iff).
    split; [lia|]. apply Z.log2_lt_cancel. change (Z.log2 4) with 2.
    pose proof (Z.log2_lxor x y ltac:(lia) ltac:(lia)).
    assert (∀ t, 0 ≤ t < 4 → Z.log2 t < 2).
    { intros t Ht. destruct (decide (t = 0)) as [->|]; [simpl; lia|]. apply Z.log2_lt_pow2; lia. }
    pose proof (H2 x Hx). pose proof (H2 y Hy). fold z in H1. lia. }
  rewrite Z.shiftr_div_pow2, <- pow4 in Hs by lia.
  assert (Hv : z * 4 ^ Z.of_nat m ≤ v < (z + 1) * 4 ^ Z.of_nat m).
  { pose proof (Z.div_mod v (4 ^ Z.of_nat m) ltac:(lia)). pose proof (Z.mod_pos_bound v (4 ^ Z.of_nat m) ltac:(lia)). nia. }
  assert (Hv0 : 4 ^ Z.of_nat m ≤ v) by nia. assert (Hv1 : v < 4 * 4 ^ Z.of_nat m) by nia.
  assert (Hlog : 2 * Z.of_nat m ≤ Z.log2 v ≤ 2 * Z.of_nat m + 1).
  { split; [apply Z.log2_le_pow2; rewrite <- ?pow4; lia|].
    apply Z.lt_succ_r, Z.log2_lt_pow2; [lia|]. replace (Z.succ (2 * Z.of_nat m + 1)) with (2 * Z.of_nat (S m)) by lia.
    rewrite <- pow4, pow4_S. lia. }
  assert (Hvb : is_word v).
  { unfold is_word. split; [lia|]. apply Z.lt_le_trans with (4 ^ Z.of_nat (S m)); [rewrite pow4_S; lia|].
    rewrite word_modulus_val. change 4294967296 with (4 ^ 16). apply Z.pow_le_mono_r; lia. }
  exists (Z.log2 v). split; [apply highest_bit_log2; [done|lia]|].
  rewrite <- Z.ldiff_land. change 1 with (Z.ones 1). rewrite Z.ldiff_ones_r by lia.
  rewrite Z.shiftr_div_pow2, Z.shiftl_mul_pow2 by lia. zdiv.
Qed.
