(* ===== verification/Triev2.v ===== *)
(** Tries of fixed-length keys with compressed nodes: triev2.h and the
    searching functions of triev2.c, the representation of tries in memory and
    what the functions of the other files are specified with.

    A node has a prefix of up to ten base-4 digits and one to four sons; its
    cell type tells which of the four sons it has. *)

From S2P Require Import Prelude Machine Celltypes Shades Cow Bitops Compare Cells Digits.

(** * Tables *)

Definition NODE_PREFIX_MASK : Z := 0xFFFFF.
Definition FULL_PREFIX_MASK : Z := 0xFFFFFF.
Definition TRIEV2_MAX_ALLOCATION : Z := (16 + 1) * 5.

Definition offset : list (list Z) := [
  [1; 2; 3; 4]; [1; 2; 3; 0]; [1; 2; 0; 3]; [1; 2; 0; 0]; [1; 0; 2; 3]; [1; 0; 2; 0]; [1; 0; 0; 2];
  [1; 0; 0; 0]; [0; 1; 2; 3]; [0; 1; 2; 0]; [0; 1; 0; 2]; [0; 1; 0; 0]; [0; 0; 1; 2]; [0; 0; 1; 0];
  [0; 0; 0; 1]].

Definition greatest_non_null : list (list Z) := [
  [0; 1; 2; 3; 4]; [0; 1; 2; 3; 3]; [0; 1; 2; 2; 3]; [0; 1; 2; 2; 2]; [0; 1; 1; 2; 3]; [0; 1; 1; 2; 2];
  [0; 1; 1; 1; 2]; [0; 1; 1; 1; 1]; [0; 0; 1; 2; 3]; [0; 0; 1; 2; 2]; [0; 0; 1; 1; 2]; [0; 0; 1; 1; 1];
  [0; 0; 0; 1; 2]; [0; 0; 0; 1; 1]; [0; 0; 0; 0; 1]].

Definition deoffset : list (list Z) := [
  [0; 1; 2; 3]; [0; 1; 2; 0xFF]; [0; 1; 3; 0xFF]; [0; 1; 0xFF; 0xFF]; [0; 2; 3; 0xFF]; [0; 2; 0xFF; 0xFF];
  [0; 3; 0xFF; 0xFF]; [0; 0xFF; 0xFF; 0xFF]; [1; 2; 3; 0xFF]; [1; 2; 0xFF; 0xFF]; [1; 3; 0xFF; 0xFF];
  [1; 0xFF; 0xFF; 0xFF]; [2; 3; 0xFF; 0xFF]; [2; 0xFF; 0xFF; 0xFF]; [3; 0xFF; 0xFF; 0xFF]].

Definition cell_type_ : list cell_type := [
  CELL_trie1234; CELL_trie123; CELL_trie124; CELL_trie12; CELL_trie134; CELL_trie13; CELL_trie14; CELL_trie1;
  CELL_trie234; CELL_trie23; CELL_trie24; CELL_trie2; CELL_trie34; CELL_trie3; CELL_trie4].

Definition first_nonexistent_key : list Z := [0xFF; 3; 2; 2; 1; 1; 1; 1; 0; 0; 0; 0; 0; 0; 0].

Definition uni_cell_type : list cell_type := [CELL_trie1; CELL_trie2; CELL_trie3; CELL_trie4].

Definition bi_cell_type : list (list cell_type) := [
  [CELL_bonk; CELL_trie12; CELL_trie13; CELL_trie14]; [CELL_trie12; CELL_bonk; CELL_trie23; CELL_trie24];
  [CELL_trie13; CELL_trie23; CELL_bonk; CELL_trie34]; [CELL_trie14; CELL_trie24; CELL_trie34; CELL_bonk]].

Definition cell_type_without : list (list cell_type) := [
  [CELL_trie234; CELL_trie134; CELL_trie124; CELL_trie123]; [CELL_trie23; CELL_trie13; CELL_trie12; CELL_trie123];
  [CELL_trie24; CELL_trie14; CELL_trie124; CELL_trie12]; [CELL_trie2; CELL_trie1; CELL_trie12; CELL_trie12];
  [CELL_trie34; CELL_trie134; CELL_trie14; CELL_trie13]; [CELL_trie3; CELL_trie13; CELL_trie1; CELL_trie13];
  [CELL_trie4; CELL_trie14; CELL_trie14; CELL_trie1]; [CELL_bonk; CELL_trie1; CELL_trie1; CELL_trie1];
  [CELL_trie234; CELL_trie34; CELL_trie24; CELL_trie23]; [CELL_trie23; CELL_trie3; CELL_trie2; CELL_trie23];
  [CELL_trie24; CELL_trie4; CELL_trie24; CELL_trie2]; [CELL_trie2; CELL_bonk; CELL_trie2; CELL_trie2];
  [CELL_trie34; CELL_trie34; CELL_trie4; CELL_trie3]; [CELL_trie3; CELL_trie3; CELL_bonk; CELL_trie3];
  [CELL_trie4; CELL_trie4; CELL_trie4; CELL_bonk]].

Definition cell_size : list Z := [5; 4; 4; 3; 4; 3; 3; 2; 4; 3; 3; 2; 3; 2; 2].

(** Indexing of a C array. *)
Definition tab {A} (t : list A) (i : Z) : M A :=
  if bool_decide (0 ≤ i) then of_option (t !! Z.to_nat i) else fail BadAddress.
Definition tab2 {A} (t : list (list A)) (i j : Z) : M A := r ← tab t i; tab r j.

(** [CELL_TYPE(p) - CELL_trie1234]. *)
Definition type_index (t : cell_type) : Z := cell_tag t - cell_tag CELL_trie1234.
Definition node_type (p : Z) : M cell_type := t ← CELL_TYPE p; of_option t.
Definition node_index (p : Z) : M Z := t ← node_type p; mret (type_index t).

(** [(p\[0\] >> 19) & 0x1E] and [p\[0\] & NODE_PREFIX_MASK]. *)
Definition prefix_length_of (p : Z) : M Z := w ← rd p 0; mret (Z.land (shr32 w 19) 0x1E).
Definition node_prefix_of (p : Z) : M Z := w ← rd p 0; mret (Z.land w NODE_PREFIX_MASK).

(** * Searching *)

(** The comparison of the node's prefix with the key, common to the searching
    loops; [None] when they differ, otherwise the rest of the key. *)
Definition match_prefix (p key key_length : Z) : M (option (Z * Z)) :=
  prefix_length ← prefix_length_of p;
  if bool_decide (prefix_length ≠ 0) then
    node_prefix ← node_prefix_of p;
    let key_prefix := shr32 key (32 - prefix_length) in
    if bool_decide (node_prefix ≠ key_prefix) then mret None
    else mret (Some (shl32 key prefix_length, key_length - prefix_length))
  else mret (Some (key, key_length)).

(** [offset\[CELL_TYPE(p) - CELL_trie1234\]\[key >> 30\]]. *)
Definition branch (p key : Z) : M Z := c ← node_index p; tab2 offset c (shr32 key 30).

Definition triev2_find_step : Z * Z * Z → M ((Z * Z * Z) + Z) := λ '(p, key, key_length),
  r ← match_prefix p key key_length;
  match r with
  | None => mret (inr NULL_WORD)
  | Some (key, key_length) =>
    i ← branch p key;
    if bool_decide (i = 0) then mret (inr NULL_WORD)
    else
      data ← rd p i;
      let key := shl32 key 2 in
      let key_length := key_length - 2 in
      if bool_decide (key_length ≠ 0) then
        massert (TAGGED_IS_PTR data);;
        mret (inl (data, key, key_length))
      else mret (inr data)
  end.

Definition triev2_find (fuel : nat) (p key key_length : Z) : M Z :=
  if bool_decide (p = NULL_PTR) then mret NULL_WORD
  else
    massert (bool_decide (key_length > 0));;
    loop fuel triev2_find_step (p, shl32 key (32 - key_length), key_length).

Definition triev2_contains_step : Z * Z * Z → M ((Z * Z * Z) + Z) := λ '(p, key, key_length),
  r ← match_prefix p key key_length;
  match r with
  | None => mret (inr 0)
  | Some (key, key_length) =>
    i ← branch p key;
    if bool_decide (i = 0) then mret (inr 0)
    else
      data ← rd p i;
      let key := shl32 key 2 in
      let key_length := key_length - 2 in
      if bool_decide (key_length ≠ 0) then
        massert (TAGGED_IS_PTR data);;
        mret (inl (data, key, key_length))
      else mret (inr 1)
  end.

Definition triev2_contains (fuel : nat) (p key key_length : Z) : M Z :=
  if bool_decide (p = NULL_PTR) then mret 0
  else
    massert (bool_decide (key_length > 0));;
    loop fuel triev2_contains_step (p, shl32 key (32 - key_length), key_length).

Definition triev2_find_quick_step : Z * Z * Z → M ((Z * Z * Z) + Z) := λ '(p, key, key_length),
  prefix_length ← prefix_length_of p;
  (if bool_decide (prefix_length = 0) then mret tt
   else
     node_prefix ← node_prefix_of p;
     massert (bool_decide (node_prefix = shr32 key (32 - prefix_length))));;
  let key := shl32 key prefix_length in
  let key_length := key_length - prefix_length in
  i ← branch p key;
  data ← rd p i;
  if bool_decide (key_length = 2) then mret (inr data)
  else
    massert (TAGGED_IS_PTR data);;
    mret (inl (data, shl32 key 2, key_length - 2)).

Definition triev2_find_quick (fuel : nat) (p key key_length : Z) : M Z :=
  massert (bool_decide (p ≠ NULL_PTR));;
  massert (bool_decide (key_length > 0));;
  loop fuel triev2_find_quick_step (p, shl32 key (32 - key_length), key_length).

Definition triev2_find_max_step : Z * Z * Z → M ((Z * Z * Z) + Z) := λ '(p, max_key, key_length),
  prefix_length ← prefix_length_of p;
  '(max_key, key_length) ← (if bool_decide (prefix_length ≠ 0) then
      node_prefix ← node_prefix_of p;
      mret (Z.lor (shl32 max_key prefix_length) node_prefix, key_length - prefix_length)
    else mret (max_key, key_length));
  c ← node_index p;
  i ← tab2 greatest_non_null c 4;
  massert (bool_decide (i > 0));;
  b ← tab2 deoffset c (i - 1);
  let max_key := Z.lor (shl32 max_key 2) b in
  let key_length := key_length - 2 in
  p ← rd p i;
  if bool_decide (key_length ≠ 0) then mret (inl (p, max_key, key_length)) else mret (inr max_key).

Definition triev2_find_max (fuel : nat) (p key_length : Z) : M Z :=
  if bool_decide (p = NULL_PTR) then mret NULL_WORD
  else
    massert (bool_decide (key_length > 0));;
    loop fuel triev2_find_max_step (p, 0, key_length).

(** * The self-test *)

(** The recursive calls of [make_assertions] on a cell of type [t]: the index of
    the son and the digit it gets. *)
Definition assertion_sons (t : cell_type) : option (list (Z * Z)) :=
  match t with
  | CELL_trie1234 => Some [(1, 0); (2, 1); (3, 2); (4, 3)]
  | CELL_trie123 => Some [(1, 0); (2, 1); (3, 2)]
  | CELL_trie124 => Some [(1, 0); (2, 1); (3, 3)]
  | CELL_trie12 => Some [(1, 0); (2, 1)]
  | CELL_trie134 => Some [(1, 0); (2, 2); (3, 3)]
  | CELL_trie13 => Some [(1, 0); (2, 2)]
  | CELL_trie14 => Some [(1, 0); (2, 3)]
  | CELL_trie1 => Some [(1, 0)]
  | CELL_trie234 => Some [(1, 1); (2, 2); (3, 3)]
  | CELL_trie23 => Some [(1, 1); (2, 2)]
  | CELL_trie24 => Some [(1, 1); (2, 3)]
  | CELL_trie2 => Some [(1, 1)]
  | CELL_trie34 => Some [(1, 2); (2, 3)]
  | CELL_trie3 => Some [(1, 2)]
  | CELL_trie4 => Some [(1, 3)]
  | _ => None
  end.

(** The part that all cases start with; it yields the prefix. *)
Definition assert_prefix (p prefix : Z) : M (Z * Z) :=
  prefix_length ← prefix_length_of p;
  prefix ← (if bool_decide (prefix_length > 0) then
      node_prefix ← node_prefix_of p;
      mret (Z.lor (shl32 prefix prefix_length) node_prefix)
    else
      w ← rd p 0;
      massert (bool_decide (Z.land w FULL_PREFIX_MASK = 0));;
      mret prefix);
  mret (prefix_length, shl32 prefix 2).

Fixpoint make_assertions (fuel : nat) (p prefix key_length : Z) : M unit :=
  match fuel with
  | O => fail OutOfFuel
  | S fuel =>
    massert (bool_decide (Z.land key_length 0x1 = 0));;
    if bool_decide (key_length > 0) then
      t ← CELL_TYPE p;
      match t ≫= assertion_sons with
      | None => fail AssertFailed
      | Some l =>
        '(prefix_length, prefix) ← assert_prefix p prefix;
        foldr (λ '(i, d) rest,
          q ← rd p i;
          make_assertions fuel q (Z.lor prefix d) (key_length - (prefix_length + 2));;
          rest) (mret tt) l
      end
    else mret tt
  end.

(** [heaviness] is the parameter [first_generation_assertion_heaviness]. *)
Definition triev2_make_assertions (heaviness : Z) (fuel : nat) (root key_length : Z) : M Z :=
  if bool_decide (root = NULL_PTR) || bool_decide (heaviness < 10) then mret 1
  else
    make_assertions fuel root 0 key_length;;
    mret 1.

(** * Nodes in memory *)

Definition is_some_son (w : Z) : bool := negb (w =? NULL_WORD).

(** The sons that are there, of the four words [ws]. *)
Definition present (ws : list Z) : list Z := List.filter is_some_son ws.

(** The cell type that tells which sons these are. *)
Definition sons_type (ws : list Z) : cell_type :=
  match is_some_son <$> ws with
  | [true; true; true; true] => CELL_trie1234
  | [true; true; true; false] => CELL_trie123
  | [true; true; false; true] => CELL_trie124
  | [true; true; false; false] => CELL_trie12
  | [true; false; true; true] => CELL_trie134
  | [true; false; true; false] => CELL_trie13
  | [true; false; false; true] => CELL_trie14
  | [true; false; false; false] => CELL_trie1
  | [false; true; true; true] => CELL_trie234
  | [false; true; true; false] => CELL_trie23
  | [false; true; false; true] => CELL_trie24
  | [false; true; false; false] => CELL_trie2
  | [false; false; true; true] => CELL_trie34
  | [false; false; true; false] => CELL_trie3
  | [false; false; false; true] => CELL_trie4
  | _ => CELL_bonk
  end.

(** The index in the cell of the son [b], or 0. *)
Definition slot (ws : list Z) (b : nat) : Z :=
  if is_some_son (nth b ws NULL_WORD) then 1 + Z.of_nat (length (present (take b ws))) else 0.

(** The 24 bits of a prefix and its length. *)
Definition prefix_bits (pre : list Z) : Z := Z.of_nat (length pre) * 2 ^ 20 + num pre.

Definition node_words (pre ws : list Z) : list Z :=
  header (sons_type ws) (prefix_bits pre) :: present ws.

Lemma lookup_nth (l : list Z) i d : (i < length l)%nat → l !! i = Some (nth i l d).
Proof. intros H. destruct (nth_lookup_or_length l i d); [done|lia]. Qed.

Lemma present_take_S j w l : l !! j = Some w →
  present (take (S j) l) = present (take j l) ++ (if is_some_son w then [w] else []).
Proof. intros Hw. rewrite (take_S_r _ _ _ Hw). unfold present. rewrite List.filter_app. simpl. by destruct (is_some_son w). Qed.

Lemma present_take_le j l : (length (present (take j l)) ≤ length (present l))%nat.
Proof. rewrite <- (take_drop j l) at 2. unfold present. rewrite List.filter_app, length_app. lia. Qed.

Lemma digit_nat b : digit b → ∃ j, b = Z.of_nat j ∧ (j < 4)%nat.
Proof. intros Hb. exists (Z.to_nat b). unfold digit in Hb. lia. Qed.

Section sons.
Context (ws : list Z) (H4 : length ws = 4%nat) (Hne : present ws ≠ []).

Lemma four_words : ∃ w0 w1 w2 w3, ws = [w0; w1; w2; w3].
Proof. clear Hne. destruct ws as [|w0 [|w1 [|w2 [|w3 [|]]]]]; try done. by exists w0, w1, w2, w3. Qed.

Ltac sons_rewrite := repeat match goal with E : is_some_son _ = _ |- _ => rewrite E end.

Ltac sons_cases :=
  destruct four_words as (w0 & w1 & w2 & w3 & E); revert Hne; rewrite E; clear;
  unfold slot, present, sons_type;
  destruct (is_some_son w0) eqn:?, (is_some_son w1) eqn:?, (is_some_son w2) eqn:?, (is_some_son w3) eqn:?;
  cbn [List.filter fmap list_fmap]; sons_rewrite; intros Hne; try done.

Ltac sons_done :=
  cbn [List.filter fmap list_fmap list_insert insert take nth];
  change (is_some_son NULL_WORD) with false; sons_rewrite; try done.

Lemma type_index_range : 0 ≤ type_index (sons_type ws) < 15.
Proof. sons_cases. Qed.

Lemma offset_sons : ∃ r, offset !! Z.to_nat (type_index (sons_type ws)) = Some r ∧
  ∀ j, (j < 4)%nat → r !! j = Some (slot ws j).
Proof. sons_cases; (eexists; split; [reflexivity|apply four_cases; sons_done]). Qed.

Lemma greatest_sons : ∃ r, greatest_non_null !! Z.to_nat (type_index (sons_type ws)) = Some r ∧
  ∀ j, (j ≤ 4)%nat → r !! j = Some (Z.of_nat (length (present (take j ws)))).
Proof.
  sons_cases; (eexists; split; [reflexivity|]); unfold present; intros j Hj;
    (do 5 (destruct j as [|j]; [sons_done|]); lia).
Qed.

Lemma deoffset_sons : ∃ r, deoffset !! Z.to_nat (type_index (sons_type ws)) = Some r ∧
  ∀ j, (j < 4)%nat → slot ws j ≠ 0 → r !! Z.to_nat (slot ws j - 1) = Some (Z.of_nat j).
Proof. sons_cases; (eexists; split; [reflexivity|intros j Hj; do 4 (destruct j as [|j]; [sons_done|]); lia]). Qed.

Lemma size_sons : cell_size !! Z.to_nat (type_index (sons_type ws)) = Some (1 + Z.of_nat (length (present ws))).
Proof. sons_cases. Qed.

Lemma cell_type_sons : cell_type_ !! Z.to_nat (type_index (sons_type ws)) = Some (sons_type ws).
Proof. sons_cases. Qed.

Lemma without_sons : ∃ r, cell_type_without !! Z.to_nat (type_index (sons_type ws)) = Some r ∧
  ∀ j, (j < 4)%nat → r !! j = Some (sons_type (<[j := NULL_WORD]> ws)).
Proof. sons_cases; (eexists; split; [reflexivity|unfold sons_type; intros j Hj; do 4 (destruct j as [|j]; [sons_done|]); lia]). Qed.

(** The word of a son in the cell. *)
Lemma slot_lookup pre j : (j < 4)%nat → nth j ws NULL_WORD ≠ NULL_WORD →
  0 < slot ws j ∧ node_words pre ws !! Z.to_nat (slot ws j) = Some (nth j ws NULL_WORD).
Proof.
  unfold node_words. intros Hj Hn.
  assert (Hs : is_some_son (nth j ws NULL_WORD) = true) by (unfold is_some_son; lia).
  clear Hn. revert j Hj Hs. sons_cases; intros j Hj; do 4 (destruct j as [|j]; [sons_done|]); lia.
Qed.

Lemma slot_null j : slot ws j = 0 ↔ nth j ws NULL_WORD = NULL_WORD.
Proof. clear H4 Hne. unfold slot, is_some_son. destruct (Z.eqb_spec (nth j ws NULL_WORD) NULL_WORD); simpl; split; (done || lia). Qed.

Lemma slot_range j : 0 ≤ slot ws j ≤ Z.of_nat (length (present ws)).
Proof.
  clear H4 Hne. unfold slot. destruct (is_some_son _) eqn:Hj; [|lia]. unfold present.
  assert (Hlt : (j < length ws)%nat).
  { destruct (decide (j < length ws)%nat) as [|Hge]; [done|]. rewrite nth_overflow in Hj by lia. done. }
  assert (Hw : ws !! j = Some (nth j ws NULL_WORD)).
  { destruct (nth_lookup_or_length ws j NULL_WORD); [done|lia]. }
  pose proof (f_equal (λ l, length (List.filter is_some_son l)) (take_drop_middle _ _ _ Hw)) as E. simpl in E.
  rewrite List.filter_app, length_app in E. simpl in E. rewrite Hj in E. simpl in E. lia.
Qed.
End sons.

(** * Prefixes *)

Section prefix.
Context (t : cell_type) (pre : list Z) (Hpre : Forall digit pre) (Hlen : (length pre ≤ 10)%nat).

Lemma num_prefix_bound : 0 ≤ num pre < 2 ^ 20.
Proof.
  pose proof (num_bound _ Hpre) as B. split; [lia|]. eapply Z.lt_le_trans; [apply B|].
  rewrite pow4. apply Z.pow_le_mono_r; lia.
Qed.

Lemma prefix_bits_bound : 0 ≤ prefix_bits pre < 2 ^ 24.
Proof. pose proof num_prefix_bound. unfold prefix_bits. lia. Qed.

Lemma prefix_bits_zero : prefix_bits pre = 0 ↔ pre = [].
Proof.
  pose proof num_prefix_bound. unfold prefix_bits. split; [|by intros ->].
  intros E. apply length_zero_iff_nil. lia.
Qed.

(** [prefix_bits] without the tag, and a header with it. *)
Lemma low_length tag : 0 ≤ tag → Z.land (shr32 (tag * 2 ^ 24 + prefix_bits pre) 19) 0x1E = 2 * Z.of_nat (length pre).
Proof.
  intros Ht. pose proof num_prefix_bound as B. unfold prefix_bits, shr32.
  change 0x1E with (Z.shiftl (Z.ones 4) 1).
  rewrite Z.shiftr_div_pow2 by lia.
  replace (tag * 2 ^ 24 + (Z.of_nat (length pre) * 2 ^ 20 + num pre))
    with ((tag * 32 + 2 * Z.of_nat (length pre)) * 2 ^ 19 + num pre) by lia.
  rewrite Z.div_add_l by lia.
  assert (Hd : 0 ≤ num pre / 2 ^ 19 < 2) by (split; [apply Z.div_pos; lia|apply Z.div_lt_upper_bound; lia]).
  set (e := num pre / 2 ^ 19) in *. set (x := tag * 32 + _ + e).
  assert (Hx : x / 2 = tag * 16 + Z.of_nat (length pre)) by (unfold x; zdiv).
  apply Z.bits_inj'. intros i Hi. rewrite Z.land_spec, Z.shiftl_spec by lia.
  destruct (decide (i = 0)) as [->|].
  { rewrite Z.testbit_even_0, (Z.testbit_neg_r (Z.ones 4)), andb_false_r by lia. done. }
  assert (∃ k, i = Z.succ k ∧ 0 ≤ k) as (k & -> & Hk) by (exists (i - 1); lia).
  rewrite Z.testbit_even_succ by lia.
  replace (Z.testbit x (Z.succ k)) with (Z.testbit (x / 2 ^ 1) k) by (rewrite Z.div_pow2_bits by lia; done).
  change (2 ^ 1) with 2. rewrite Hx.
  replace (Z.succ k - 1) with k by lia. rewrite <- Z.land_spec, Z.land_ones by lia.
  f_equal. rewrite Z.add_comm. replace (tag * 16) with (tag * 2 ^ 4) by lia. rewrite Z_mod_plus_full.
  apply Z.mod_small. lia.
Qed.

Lemma header_prefix_length : Z.land (shr32 (header t (prefix_bits pre)) 19) 0x1E = 2 * Z.of_nat (length pre).
Proof. rewrite header_add. apply low_length. apply cell_tag_range. Qed.

Lemma header_node_prefix : Z.land (header t (prefix_bits pre)) NODE_PREFIX_MASK = num pre.
Proof.
  pose proof num_prefix_bound as B. rewrite header_add. unfold prefix_bits.
  change NODE_PREFIX_MASK with (2 ^ 20 - 1). rewrite land_ones_mod by lia.
  replace (cell_tag t * 2 ^ 24 + (Z.of_nat (length pre) * 2 ^ 20 + num pre))
    with (num pre + (cell_tag t * 16 + Z.of_nat (length pre)) * 2 ^ 20) by lia.
  rewrite Z_mod_plus_full. by apply Z.mod_small.
Qed.

Lemma header_full_prefix : Z.land (header t (prefix_bits pre)) FULL_PREFIX_MASK = prefix_bits pre.
Proof. apply header_low, prefix_bits_bound. Qed.

(** [p\[0\] |= (prefix_length << 19) | prefix], where the bits are clear. *)
Lemma prefix_lor : Z.lor (shl32 (2 * Z.of_nat (length pre)) 19) (num pre) = prefix_bits pre.
Proof.
  pose proof num_prefix_bound as B. unfold shl32. rewrite Z.shiftl_mul_pow2 by lia.
  rewrite w32_small by (unfold is_word; rewrite word_modulus_val; lia).
  unfold prefix_bits. replace (2 * Z.of_nat (length pre) * 2 ^ 19) with (Z.of_nat (length pre) * 2 ^ 20) by lia.
  apply lor_add_disjoint with 20; [lia|done|]. by apply Z_mod_mult.
Qed.

Lemma header_prefix_lor : Z.lor (header t 0) (prefix_bits pre) = header t (prefix_bits pre).
Proof. apply header_lor, prefix_bits_bound. Qed.
End prefix.

(** * Tries

    A leaf is the data word behind a key; [Empty] is an absent son. *)

Inductive trie :=
| Empty
| Leaf (d : Z)
| Node (pre : list Z) (s0 s1 s2 s3 : trie).

(** The rest of [ds] behind the prefix [pre]. *)
Definition strip (pre ds : list Z) : option (list Z) :=
  if decide (take (length pre) ds = pre) then Some (drop (length pre) ds) else None.

Fixpoint lookup (t : trie) (ds : list Z) : option Z :=
  match t with
  | Empty => None
  | Leaf d => match ds with [] => Some d | _ => None end
  | Node pre s0 s1 s2 s3 =>
    match strip pre ds with
    | Some (b :: rest) => pick (Z.to_nat b) (lookup s0 rest) (lookup s1 rest) (lookup s2 rest) (lookup s3 rest)
    | _ => None
    end
  end.

(** Well-formed tries of keys of [n] digits. *)
Fixpoint trie_ok (n : nat) (t : trie) : Prop :=
  match t with
  | Empty => True
  | Leaf d => n = 0%nat ∧ d ≠ NULL_WORD
  | Node pre s0 s1 s2 s3 =>
    Forall digit pre ∧ (length pre ≤ 10)%nat ∧ (S (length pre) ≤ n)%nat ∧
    ¬ (s0 = Empty ∧ s1 = Empty ∧ s2 = Empty ∧ s3 = Empty) ∧
    let m := (n - S (length pre))%nat in trie_ok m s0 ∧ trie_ok m s1 ∧ trie_ok m s2 ∧ trie_ok m s3
  end.

Fixpoint is_trie (C : cenv) (p : Z) (t : trie) : Prop :=
  match t with
  | Empty => p = NULL_WORD
  | Leaf d => p = d
  | Node pre s0 s1 s2 s3 => ∃ w0 w1 w2 w3,
    C p (node_words pre [w0; w1; w2; w3]) ∧
    is_trie C w0 s0 ∧ is_trie C w1 s1 ∧ is_trie C w2 s2 ∧ is_trie C w3 s3
  end.

(** The same by son. *)
Definition sons (t : trie) (j : nat) : trie :=
  match t with Node _ s0 s1 s2 s3 => pick j s0 s1 s2 s3 | _ => Empty end.

Lemma lookup_node pre s0 s1 s2 s3 b rest ds :
  strip pre ds = Some (b :: rest) →
  lookup (Node pre s0 s1 s2 s3) ds = lookup (pick (Z.to_nat b) s0 s1 s2 s3) rest.
Proof. intros E. simpl. rewrite E. destruct (Z.to_nat b) as [|[|[|]]]; done. Qed.

Lemma strip_app pre ds : strip pre (pre ++ ds) = Some ds.
Proof. unfold strip. rewrite take_app_length, decide_True by done. by rewrite drop_app_length. Qed.

Lemma strip_Some pre ds r : strip pre ds = Some r ↔ ds = pre ++ r.
Proof.
  split; [|intros ->; apply strip_app]. unfold strip. destruct (decide _) as [E|]; [|done]. intros [= <-].
  by rewrite <- E at 1; rewrite take_drop.
Qed.

Lemma is_trie_mono C C' p t : csub C C' → is_trie C p t → is_trie C' p t.
Proof.
  intros HC. revert p. induction t as [|d|pre s0 IH0 s1 IH1 s2 IH2 s3 IH3]; intros p; [done..|].
  intros (w0 & w1 & w2 & w3 & Hp & H0 & H1 & H2 & H3). exists w0, w1, w2, w3.
  split; [by apply HC|]. auto.
Qed.

Lemma trie_ok_0 t : trie_ok 0 t → t = Empty ∨ ∃ d, t = Leaf d ∧ d ≠ NULL_WORD.
Proof. destruct t; simpl; [by left|intros [_ ?]; right; eauto|intros (_ & _ & ? & _); lia]. Qed.

Lemma trie_ok_S n t : trie_ok (S n) t → t = Empty ∨ ∃ pre s0 s1 s2 s3, t = Node pre s0 s1 s2 s3.
Proof. destruct t; simpl; [by left|by intros [? _]|right; eauto 10]. Qed.

(** Only the empty trie is [NULL]. *)
Lemma is_trie_null C s n p t : holds s C → trie_ok n t → is_trie C p t → p = NULL_WORD ↔ t = Empty.
Proof.
  intros HC Hok Ht. destruct t as [|d|pre s0 s1 s2 s3]; simpl in *; [done| |].
  { destruct Hok as [_ Hd]. subst p. by split. }
  destruct Ht as (w0 & w1 & w2 & w3 & Hp & _). apply HC, blk_pos in Hp.
  unfold NULL_WORD. split; [lia|done].
Qed.

(** What a node's cell tells about its sons. *)
Record node_at (C : cenv) (p : Z) (pre ws : list Z) (n : nat) (t : trie) : Prop := {
  na_cell : C p (node_words pre ws);
  na_length : length ws = 4%nat;
  na_present : present ws ≠ [];
  na_prefix : Forall digit pre;
  na_prefix_length : (length pre ≤ 10)%nat;
  na_sons j : (j < 4)%nat → is_trie C (nth j ws NULL_WORD) (sons t j) ∧ trie_ok n (sons t j) ∧
    (nth j ws NULL_WORD = NULL_WORD ↔ sons t j = Empty);
  na_node : ∃ s0 s1 s2 s3, t = Node pre s0 s1 s2 s3
}.

Lemma is_trie_node C s p pre s0 s1 s2 s3 n :
  holds s C → trie_ok n (Node pre s0 s1 s2 s3) → is_trie C p (Node pre s0 s1 s2 s3) →
  (S (length pre) ≤ n)%nat ∧
  ∃ ws, node_at C p pre ws (n - S (length pre)) (Node pre s0 s1 s2 s3).
Proof.
  intros HC (Hpre & Hlen & Hn & Hne & O0 & O1 & O2 & O3) (w0 & w1 & w2 & w3 & Hp & H0 & H1 & H2 & H3).
  split; [done|]. exists [w0; w1; w2; w3].
  assert (Hnull : ∀ j, (j < 4)%nat → is_trie C (nth j [w0; w1; w2; w3] NULL_WORD) (sons (Node pre s0 s1 s2 s3) j) ∧
    trie_ok (n - S (length pre)) (sons (Node pre s0 s1 s2 s3) j) ∧
    (nth j [w0; w1; w2; w3] NULL_WORD = NULL_WORD ↔ sons (Node pre s0 s1 s2 s3) j = Empty)).
  { apply four_cases; simpl; split_and!; try done; by eapply is_trie_null. }
  split; [done..| |done|done|done|eauto]. intros E. apply Hne.
  assert (Hz : ∀ w, w ∈ [w0; w1; w2; w3] → w = NULL_WORD).
  { intros w Hw. destruct (Z.eqb_spec w NULL_WORD) as [|Hn']; [done|]. exfalso.
    assert (Hin : w ∈ present [w0; w1; w2; w3]).
    { apply list_elem_of_In, filter_In. split; [by apply list_elem_of_In|]. unfold is_some_son.
      by destruct (Z.eqb_spec w NULL_WORD). }
    rewrite E in Hin. by apply not_elem_of_nil in Hin. }
  split_and!; [apply (Hnull 0%nat)|apply (Hnull 1%nat)|apply (Hnull 2%nat)|apply (Hnull 3%nat)];
    try lia; apply Hz; apply list_elem_of_In; simpl; auto.
Qed.

(** * Rules *)

Lemma wp_tab {A} (t : list A) i x s (Q : A → state → Prop) :
  0 ≤ i → t !! Z.to_nat i = Some x → Q x s → wp (tab t i) Q s.
Proof. intros Hi Hx HQ. unfold tab. rewrite bool_decide_eq_true_2 by done. by eapply wp_of_option. Qed.

Lemma wp_tab2 {A} (t : list (list A)) i j r x s (Q : A → state → Prop) :
  0 ≤ i → 0 ≤ j → t !! Z.to_nat i = Some r → r !! Z.to_nat j = Some x → Q x s → wp (tab2 t i j) Q s.
Proof. intros Hi Hj Hr Hx HQ. apply wp_bind. eapply wp_tab; [done..|]. by eapply wp_tab. Qed.

Section node.
Context (C : cenv) (s : state) (p : Z) (pre ws : list Z) (n : nat) (t : trie).
Context (HC : holds s C) (Hp : node_at C p pre ws n t).

Lemma node_blk : blk s p (node_words pre ws).
Proof. apply HC, Hp. Qed.

Lemma node_tagged : TAGGED_IS_PTR p = true.
Proof.
  unfold TAGGED_IS_PTR. apply bool_decide_eq_true. change 0x3 with (2 ^ 2 - 1).
  rewrite land_ones_mod by lia. apply node_blk.
Qed.

Lemma node_pos : 0 < p.
Proof. apply node_blk. Qed.

Lemma wp_prefix_length_of (Q : Z → state → Prop) : Q (2 * Z.of_nat (length pre)) s → wp (prefix_length_of p) Q s.
Proof.
  intros HQ. apply wp_bind. eapply wp_rd; [exact node_blk|done|done|]. apply wp_ret.
  rewrite header_prefix_length; [done|apply Hp|apply Hp].
Qed.

Lemma wp_node_prefix_of (Q : Z → state → Prop) : Q (num pre) s → wp (node_prefix_of p) Q s.
Proof.
  intros HQ. apply wp_bind. eapply wp_rd; [exact node_blk|done|done|]. apply wp_ret.
  rewrite header_node_prefix; [done|apply Hp|apply Hp].
Qed.

Lemma wp_node_type (Q : cell_type → state → Prop) : Q (sons_type ws) s → wp (node_type p) Q s.
Proof.
  intros HQ. apply wp_bind. eapply wp_CELL_TYPE; [exact node_blk|done|].
  rewrite header_type by (apply prefix_bits_bound; apply Hp). by apply wp_ret.
Qed.

Lemma wp_node_index (Q : Z → state → Prop) : Q (type_index (sons_type ws)) s → wp (node_index p) Q s.
Proof. intros HQ. apply wp_bind, wp_node_type. by apply wp_ret. Qed.

Lemma index_nonneg : 0 ≤ type_index (sons_type ws).
Proof. apply type_index_range; apply Hp. Qed.

(** The prefix of a left-justified key. *)
Lemma prefix_eq ds : Forall digit ds → (length ds ≤ 16)%nat → (S (length pre) ≤ length ds)%nat →
  shr32 (just ds) (32 - 2 * Z.of_nat (length pre)) = num (take (length pre) ds) ∧
  (num pre = num (take (length pre) ds) ↔ take (length pre) ds = pre).
Proof.
  intros Hd Hl Hlp. assert (Ht : length (take (length pre) ds) = length pre) by (rewrite length_take; lia).
  split.
  - pose proof (just_take (take (length pre) ds) (drop (length pre) ds)) as E.
    rewrite take_drop, Ht in E. apply E; [by apply Forall_drop|done].
  - split; [|by intros ->]. intros E. symmetry. apply num_inj; [done|apply Hp|by apply Forall_take|done].
Qed.

Lemma wp_match_prefix ds (Q : option (Z * Z) → state → Prop) :
  Forall digit ds → (length ds ≤ 16)%nat → (S (length pre) ≤ length ds)%nat →
  Q ((λ r, (just r, 2 * Z.of_nat (length r))) <$> strip pre ds) s →
  wp (match_prefix p (just ds) (2 * Z.of_nat (length ds))) Q s.
Proof.
  intros Hd Hl Hlp HQ. destruct (prefix_eq ds Hd Hl Hlp) as [Ek Eq]. unfold match_prefix, strip in *.
  apply wp_bind, wp_prefix_length_of. destruct (decide (pre = [])) as [E|E].
  { revert HQ. rewrite E. rewrite decide_True by done. rewrite bool_decide_eq_false_2 by (intros H; by apply H). intros HQ. by apply wp_ret. }
  rewrite bool_decide_eq_true_2 by (destruct pre; simpl; [done|lia]).
  apply wp_bind, wp_node_prefix_of. rewrite Ek. destruct (decide (take (length pre) ds = pre)) as [Et|Et].
  - rewrite bool_decide_eq_false_2 by (rewrite Et; by intros []). apply wp_ret.
    cbn [fmap option_fmap option_map] in HQ. rewrite length_drop in HQ.
    replace (2 * Z.of_nat (length ds) - 2 * Z.of_nat (length pre))
      with (2 * Z.of_nat (length ds - length pre)) by lia.
    assert (Ej : shl32 (just ds) (2 * Z.of_nat (length pre)) = just (drop (length pre) ds)).
    { pose proof (just_drop (take (length pre) ds) (drop (length pre) ds)) as E2.
      rewrite take_drop, Et in E2. apply E2; [by apply Forall_drop|done]. }
    by rewrite Ej.
  - rewrite bool_decide_eq_true_2 by (rewrite Eq; done). by apply wp_ret.
Qed.

Lemma wp_branch b rest (Q : Z → state → Prop) :
  Forall digit (b :: rest) → (length (b :: rest) ≤ 16)%nat →
  Q (slot ws (Z.to_nat b)) s → wp (branch p (just (b :: rest))) Q s.
Proof.
  intros [Hb Hr]%Forall_cons Hl HQ. apply wp_bind, wp_node_index.
  rewrite just_digit by done. destruct (offset_sons ws) as (r & E1 & E2); [apply Hp..|].
  unfold digit in Hb. eapply wp_tab2; [apply index_nonneg|lia|exact E1|apply E2; lia|done].
Qed.

Lemma wp_rd_son j (Q : Z → state → Prop) :
  (j < 4)%nat → nth j ws NULL_WORD ≠ NULL_WORD → Q (nth j ws NULL_WORD) s → wp (rd p (slot ws j)) Q s.
Proof.
  intros Hj Hn HQ. destruct (slot_lookup ws (na_length _ _ _ _ _ _ Hp) (na_present _ _ _ _ _ _ Hp) pre j Hj Hn) as [H0 H1].
  eapply wp_rd; [exact node_blk|lia|exact H1|done].
Qed.
End node.

(** Below the last digit are leaves, elsewhere nodes. *)
Lemma son_leaf C p pre ws t j : node_at C p pre ws 0 t → (j < 4)%nat → nth j ws NULL_WORD ≠ NULL_WORD →
  sons t j = Leaf (nth j ws NULL_WORD).
Proof.
  intros Hp Hj Hn. destruct (na_sons _ _ _ _ _ _ Hp j Hj) as (Ht & Hok & Hnull).
  destruct (trie_ok_0 _ Hok) as [E|(d & E & _)]; [by rewrite Hnull in Hn|]. rewrite E in Ht |- *. simpl in Ht. by subst.
Qed.

Lemma son_node C s p pre ws n t j : holds s C → node_at C p pre ws (S n) t → (j < 4)%nat → nth j ws NULL_WORD ≠ NULL_WORD →
  ∃ pre' s0 s1 s2 s3 ws', sons t j = Node pre' s0 s1 s2 s3 ∧ (S (length pre') ≤ S n)%nat ∧
    node_at C (nth j ws NULL_WORD) pre' ws' (S n - S (length pre')) (sons t j).
Proof.
  intros HC Hp Hj Hn. destruct (na_sons _ _ _ _ _ _ Hp j Hj) as (Ht & Hok & Hnull).
  destruct (trie_ok_S _ _ Hok) as [E|(pre' & s0 & s1 & s2 & s3 & E)]; [by rewrite Hnull in Hn|].
  rewrite E in Ht, Hok |- *. destruct (is_trie_node _ _ _ _ _ _ _ _ _ HC Hok Ht) as (Hl & ws' & Hat).
  exists pre', s0, s1, s2, s3, ws'. done.
Qed.

(** * Searching for a key *)

Section search.
Context (C : cenv) (s : state) (HC : holds s C).

(** A node and the part of the key that is still to be compared. *)
Record search_at (p : Z) (t : trie) (ds : list Z) : Prop := {
  sa_trie : is_trie C p t;
  sa_ok : trie_ok (length ds) t;
  sa_node : ∃ pre s0 s1 s2 s3, t = Node pre s0 s1 s2 s3;
  sa_digits : Forall digit ds;
  sa_length : (length ds ≤ 16)%nat
}.

(** The common part of the searching loops. *)
Lemma wp_descend {A} p t ds (none : M A) (k : Z → Z → Z → M A) (Q : A → state → Prop) :
  search_at p t ds →
  (lookup t ds = None → wp none Q s) →
  (∀ pre b rest ws, ds = pre ++ b :: rest → node_at C p pre ws (length rest) t → (Z.to_nat b < 4)%nat →
    nth (Z.to_nat b) ws NULL_WORD ≠ NULL_WORD → lookup t ds = lookup (sons t (Z.to_nat b)) rest →
    wp (k (slot ws (Z.to_nat b)) (just (b :: rest)) (2 * Z.of_nat (length (b :: rest)))) Q s) →
  wp (r ← match_prefix p (just ds) (2 * Z.of_nat (length ds));
    match r with
    | None => none
    | Some (key, key_length) =>
      i ← branch p key;
      if bool_decide (i = 0) then none else k i key key_length
    end) Q s.
Proof.
  intros [Ht Hok (pre & s0 & s1 & s2 & s3 & ->) Hd Hl] Hnone Hsome.
  destruct (is_trie_node _ _ _ _ _ _ _ _ _ HC Hok Ht) as (Hlp & ws & Hat).
  apply wp_bind. eapply wp_match_prefix; [exact HC|exact Hat|done|done|done|].
  destruct (strip pre ds) as [r|] eqn:Es; cbn [fmap option_fmap option_map].
  2: { apply Hnone. simpl. by rewrite Es. }
  apply strip_Some in Es as Eds. subst ds. destruct r as [|b rest].
  { rewrite app_nil_r in Hlp. lia. }
  rewrite length_app in Hl, Hat. cbn [length] in Hl, Hat.
  replace (length pre + S (length rest) - S (length pre))%nat with (length rest) in Hat by lia.
  apply Forall_app in Hd as [_ Hd]. pose proof Hd as [Hb Hr]%Forall_cons. unfold digit in Hb.
  apply wp_bind. eapply wp_branch; [exact HC|exact Hat|done|simpl; lia|].
  case_bool_decide as Ez.
  - apply Hnone. rewrite (lookup_node _ _ _ _ _ b rest) by done.
    apply slot_null in Ez. apply (na_sons _ _ _ _ _ _ Hat) in Ez; [|lia]. simpl in Ez. by rewrite Ez.
  - apply (Hsome pre b rest ws); [done|done|lia|by rewrite <- slot_null|].
    by rewrite (lookup_node _ _ _ _ _ b rest) by apply strip_app.
Qed.

(** The next node of a descent. *)
Lemma search_next p pre ws b rest t : node_at C p pre ws (length rest) t → (Z.to_nat b < 4)%nat →
  nth (Z.to_nat b) ws NULL_WORD ≠ NULL_WORD → Forall digit rest → (length rest ≤ 16)%nat → rest ≠ [] →
  search_at (nth (Z.to_nat b) ws NULL_WORD) (sons t (Z.to_nat b)) rest ∧
  TAGGED_IS_PTR (nth (Z.to_nat b) ws NULL_WORD) = true.
Proof.
  intros Hat Hb Hn Hd Hl Hr. destruct rest as [|d rest]; [done|]. cbn [length] in *.
  destruct (son_node _ _ _ _ _ _ _ _ HC Hat Hb Hn) as (pre' & s0 & s1 & s2 & s3 & ws' & E & _ & Hat').
  destruct (na_sons _ _ _ _ _ _ Hat _ Hb) as (Ht & Hok & _). split; [|by eapply node_tagged].
  split; [done|done|rewrite E; eauto 10|done|done].
Qed.

Lemma search_leaf p pre ws b t : node_at C p pre ws 0 t → (Z.to_nat b < 4)%nat →
  nth (Z.to_nat b) ws NULL_WORD ≠ NULL_WORD →
  lookup (sons t (Z.to_nat b)) [] = Some (nth (Z.to_nat b) ws NULL_WORD).
Proof. intros Hat Hb Hn. by rewrite (son_leaf _ _ _ _ _ _ Hat Hb Hn). Qed.

Definition default_word (o : option Z) : Z := match o with Some d => d | None => NULL_WORD end.
Definition found (o : option Z) : Z := match o with Some _ => 1 | None => 0 end.

(** What the loops of [triev2_find] and [triev2_contains] run on. *)
Definition searching (o : option Z) (n : nat) (st : Z * Z * Z) (s' : state) : Prop :=
  s' = s ∧ ∃ t ds, search_at st.1.1 t ds ∧ st.1.2 = just ds ∧ st.2 = 2 * Z.of_nat (length ds) ∧
    lookup t ds = o ∧ n = length ds.

(** Behind the branch: another round, or the data. *)
Lemma wp_descend_son {A} (o : option Z) p pre ws b rest t (next : Z * Z * Z → A) (stop : Z → A)
    (Q : A → state → Prop) n :
  node_at C p pre ws (length rest) t → (Z.to_nat b < 4)%nat → nth (Z.to_nat b) ws NULL_WORD ≠ NULL_WORD →
  Forall digit (b :: rest) → (length (b :: rest) ≤ 16)%nat → lookup (sons t (Z.to_nat b)) rest = o →
  (length rest < n)%nat →
  (∀ st, (∃ n', (n' < n)%nat ∧ searching o n' st s) → Q (next st) s) →
  (∀ d, o = Some d → Q (stop d) s) →
  wp (data ← rd p (slot ws (Z.to_nat b));
    let key := shl32 (just (b :: rest)) 2 in
    let key_length := 2 * Z.of_nat (length (b :: rest)) - 2 in
    if bool_decide (key_length ≠ 0) then
      massert (TAGGED_IS_PTR data);; mret (next (data, key, key_length))
    else mret (stop data)) Q s.
Proof.
  intros Hat Hb Hn Hd Hl Ho Hlt Hnext Hstop. apply wp_bind. eapply wp_rd_son; [exact HC|exact Hat|done|done|].
  apply Forall_cons in Hd as [Hdb Hd]. rewrite just_tail by done. cbn zeta.
  replace (2 * Z.of_nat (length (b :: rest)) - 2) with (2 * Z.of_nat (length rest)) by (simpl; lia).
  destruct (decide (rest = [])) as [->|Hr].
  - rewrite bool_decide_eq_false_2 by (simpl; lia). apply wp_ret, Hstop. rewrite <- Ho. by eapply search_leaf.
  - rewrite bool_decide_eq_true_2 by (destruct rest; simpl; [done|lia]).
    destruct (search_next _ _ _ _ _ _ Hat Hb Hn Hd ltac:(simpl in Hl; lia) Hr) as [Hs Htag].
    apply wp_bind, wp_assert; [done|]. apply wp_ret, Hnext. exists (length rest). split; [done|].
    split; [done|]. eexists _, rest. by split_and!.
Qed.

Lemma wp_find_loop o n fuel st (Q : Z → state → Prop) :
  searching o n st s → (n < fuel)%nat → Q (default_word o) s → wp (loop fuel triev2_find_step st) Q s.
Proof.
  intros Hst Hf HQ. eapply wp_loop with (I := searching o); [exact Hf|exact Hst|].
  clear n fuel st Hst Hf. intros n [[p key] kl] s' (-> & t & ds & Hs & E1 & E2 & Ho & ->). cbn [fst snd] in *. subst key kl.
  unfold triev2_find_step. eapply wp_descend; [exact Hs| |].
  - intros E. apply wp_ret. by rewrite <- Ho, E in HQ.
  - intros pre b rest ws Eds Hat Hb Hn El. pose proof (sa_digits _ _ _ Hs) as Hd. pose proof (sa_length _ _ _ Hs) as Hl.
    rewrite Eds in Hd, Hl. apply Forall_app in Hd as [_ Hd]. rewrite length_app in Hl.
    eapply (wp_descend_son o _ _ _ _ _ _ inl inr _ (length ds)); [exact Hat|done|done|done|lia|by rewrite <- El| | |].
    + rewrite Eds, length_app. simpl. apply Nat.lt_lt_add_l. lia.
    + intros st Hst. exact Hst.
    + intros d ->. exact HQ.
Qed.

Lemma wp_contains_loop o n fuel st (Q : Z → state → Prop) :
  searching o n st s → (n < fuel)%nat → Q (found o) s → wp (loop fuel triev2_contains_step st) Q s.
Proof.
  intros Hst Hf HQ. eapply wp_loop with (I := searching o); [exact Hf|exact Hst|].
  clear n fuel st Hst Hf. intros n [[p key] kl] s' (-> & t & ds & Hs & E1 & E2 & Ho & ->). cbn [fst snd] in *. subst key kl.
  unfold triev2_contains_step. eapply wp_descend; [exact Hs| |].
  - intros E. apply wp_ret. by rewrite <- Ho, E in HQ.
  - intros pre b rest ws Eds Hat Hb Hn El. pose proof (sa_digits _ _ _ Hs) as Hd. pose proof (sa_length _ _ _ Hs) as Hl.
    rewrite Eds in Hd, Hl. apply Forall_app in Hd as [_ Hd]. rewrite length_app in Hl.
    eapply (wp_descend_son o _ _ _ _ _ _ inl (λ _, inr 1) _ (length ds)); [exact Hat|done|done|done|lia|by rewrite <- El| | |].
    + rewrite Eds, length_app. simpl. apply Nat.lt_lt_add_l. lia.
    + intros st Hst. exact Hst.
    + intros d ->. exact HQ.
Qed.
End search.

(** * Keys of a trie *)

Lemma lookup_son pre s0 s1 s2 s3 ds d : lookup (Node pre s0 s1 s2 s3) ds = Some d →
  ∃ b rest, ds = pre ++ b :: rest ∧ lookup (pick (Z.to_nat b) s0 s1 s2 s3) rest = Some d.
Proof.
  intros H. destruct (strip pre ds) as [[|b rest]|] eqn:E; simpl in H; rewrite E in H; try done.
  exists b, rest. split; [by apply strip_Some|].
  by destruct (Z.to_nat b) as [|[|[|]]].
Qed.

Lemma pick_ok n s0 s1 s2 s3 j : trie_ok n s0 → trie_ok n s1 → trie_ok n s2 → trie_ok n s3 →
  trie_ok n (pick j s0 s1 s2 s3).
Proof. intros. by destruct j as [|[|[|]]]. Qed.

Lemma lookup_length n t ds d : trie_ok n t → lookup t ds = Some d → length ds = n ∧ d ≠ NULL_WORD.
Proof.
  revert n ds. induction t as [|d'|pre s0 IH0 s1 IH1 s2 IH2 s3 IH3]; intros n ds; [done| |].
  - intros [-> Hd] H. destruct ds; [|done]. simpl in H. by simplify_eq.
  - intros (_ & _ & Hn & _ & O0 & O1 & O2 & O3) (b & rest & -> & H)%lookup_son.
    assert (Hr : length rest = (n - S (length pre))%nat ∧ d ≠ NULL_WORD).
    { destruct (Z.to_nat b) as [|[|[|]]]; simpl in H; eauto. }
    rewrite length_app. simpl. split; [lia|apply Hr].
Qed.

(** The greatest key. *)
Record is_max (n : nat) (t : trie) (m : list Z) : Prop := {
  max_digits : Forall digit m;
  max_there : is_Some (lookup t m);
  max_length : length m = n;
  max_le ds : Forall digit ds → is_Some (lookup t ds) → num ds ≤ num m
}.

Lemma num_le_suffix pre a b : Forall digit a → Forall digit b → length a = length b →
  num a ≤ num b → num (pre ++ a) ≤ num (pre ++ b).
Proof. intros Ha Hb Hl H. rewrite !num_app, Hl. lia. Qed.

Lemma is_max_leaf d : is_max 0 (Leaf d) [].
Proof. split; [done|by exists d|done|]. intros [|? ds] _ [? ?]; [done|done]. Qed.

Lemma is_max_node n pre s0 s1 s2 s3 j m :
  trie_ok n (Node pre s0 s1 s2 s3) → (j < 4)%nat →
  (∀ j', (j < j' < 4)%nat → pick j' s0 s1 s2 s3 = Empty) →
  is_max (n - S (length pre)) (pick j s0 s1 s2 s3) m →
  is_max n (Node pre s0 s1 s2 s3) (pre ++ Z.of_nat j :: m).
Proof.
  intros Hok Hj Hlast [Hd Ht Hl Hle]. pose proof Hok as (Hpre & _ & Hn & _ & O0 & O1 & O2 & O3).
  assert (Hdj : digit (Z.of_nat j)) by (unfold digit; lia).
  split.
  - apply Forall_app. split; [done|]. by constructor.
  - rewrite (lookup_node _ _ _ _ _ (Z.of_nat j) m) by apply strip_app. by rewrite Nat2Z.id.
  - rewrite length_app. simpl. lia.
  - intros ds Hds [d (b & rest & -> & H)%lookup_son].
    apply Forall_app in Hds as [_ [Hb Hr]%Forall_cons]. unfold digit in Hb.
    destruct (lookup_length (n - S (length pre)) _ _ _ (pick_ok _ _ _ _ _ (Z.to_nat b) O0 O1 O2 O3) H) as [Hlr _].
    destruct (decide (Z.to_nat b = j)) as [Eb|Hne].
    + rewrite <- Eb, Z2Nat.id by lia. apply num_le_suffix; [by constructor|constructor; [done|done]|simpl; lia|].
      rewrite !num_cons, Hlr, <- Hl. rewrite Eb in H. pose proof (Hle rest Hr ltac:(eauto)). lia.
    + assert (Z.to_nat b < j)%nat.
      { destruct (decide (Z.to_nat b < j)%nat); [done|]. rewrite Hlast in H by lia. done. }
      apply Z.lt_le_incl, num_lt_app; [lia|done..|lia].
Qed.

(** Appending digits to a key: [key <<= n; key |= prefix]. *)
Lemma num_shift a b : Forall digit a → Forall digit b → (length (a ++ b) ≤ 16)%nat →
  Z.lor (shl32 (num a) (2 * Z.of_nat (length b))) (num b) = num (a ++ b).
Proof.
  intros Ha Hb Hl. rewrite length_app in Hl. pose proof (num_bound _ Ha) as Ba. pose proof (num_bound _ Hb) as Bb.
  unfold shl32. rewrite Z.shiftl_mul_pow2, <- pow4 by lia.
  assert (E : 4 ^ Z.of_nat (length a + length b) = 4 ^ Z.of_nat (length a) * 4 ^ Z.of_nat (length b))
    by (rewrite Nat2Z.inj_add, Z.pow_add_r by lia; done).
  assert (Hw : 4 ^ Z.of_nat (length a + length b) ≤ 2 ^ 32).
  { change (2 ^ 32) with (4 ^ Z.of_nat 16). apply Z.pow_le_mono_r; lia. }
  rewrite w32_small by (unfold is_word; change word_modulus with (2 ^ 32); nia).
  rewrite num_app. rewrite pow4 in *. apply lor_add_disjoint with (2 * Z.of_nat (length b)); [lia|done|].
  by apply Z_mod_mult.
Qed.

Lemma num_snoc a b : Forall digit a → digit b → (length a < 16)%nat →
  Z.lor (shl32 (num a) 2) b = num (a ++ [b]).
Proof.
  intros Ha Hb Hl. rewrite <- (num_shift a [b]); [|done|by constructor|rewrite length_app; simpl; lia].
  done.
Qed.

(** The last son of a node. *)
Lemma last_son ws : length ws = 4%nat → present ws ≠ [] →
  ∃ j, (j < 4)%nat ∧ slot ws j = Z.of_nat (length (present ws)) ∧ nth j ws NULL_WORD ≠ NULL_WORD ∧
    ∀ j', (j < j' < 4)%nat → nth j' ws NULL_WORD = NULL_WORD.
Proof.
  intros H4 Hne.
  assert (Hs : ∀ w, w = NULL_WORD ↔ is_some_son w = false).
  { intros w. unfold is_some_son. destruct (Z.eqb_spec w NULL_WORD); simpl; naive_solver. }
  destruct (four_words ws H4) as (w0 & w1 & w2 & w3 & ->). revert Hne. clear H4.
  unfold slot, present.
  destruct (is_some_son w0) eqn:E0, (is_some_son w1) eqn:E1, (is_some_son w2) eqn:E2, (is_some_son w3) eqn:E3;
    cbn [List.filter]; rewrite ?E0, ?E1, ?E2, ?E3; intros Hne; try done.
  all: first [ exists 3%nat; cbn; rewrite ?E0, ?E1, ?E2, ?E3; split_and!; [lia|done|rewrite Hs; congruence|lia]
             | exists 2%nat; cbn; rewrite ?E0, ?E1, ?E2, ?E3; split_and!; [lia|done|rewrite Hs; congruence|]
             | exists 1%nat; cbn; rewrite ?E0, ?E1, ?E2, ?E3; split_and!; [lia|done|rewrite Hs; congruence|]
             | exists 0%nat; cbn; rewrite ?E0, ?E1, ?E2, ?E3; split_and!; [lia|done|rewrite Hs; congruence|] ].
  all: intros j' Hj'; destruct j' as [|[|[|[|]]]]; try lia; cbn; by apply Hs.
Qed.

Section max.
Context (C : cenv) (s : state) (HC : holds s C).

(** [i = greatest_non_null\[..\]\[4\]] and [deoffset\[..\]\[i - 1\]]. *)
Lemma wp_last_son {A} p pre ws n t (k : Z → Z → M A) (Q : A → state → Prop) :
  node_at C p pre ws n t →
  (∀ j, (j < 4)%nat → nth j ws NULL_WORD ≠ NULL_WORD → (∀ j', (j < j' < 4)%nat → sons t j' = Empty) →
    wp (k (slot ws j) (Z.of_nat j)) Q s) →
  wp (c ← node_index p;
      i ← tab2 greatest_non_null c 4;
      massert (bool_decide (i > 0));;
      b ← tab2 deoffset c (i - 1);
      k i b) Q s.
Proof.
  intros Hat HQ. pose proof (na_length _ _ _ _ _ _ Hat) as H4. pose proof (na_present _ _ _ _ _ _ Hat) as Hne.
  pose proof (index_nonneg _ _ _ _ _ _ Hat) as Hi.
  destruct (last_son ws H4 Hne) as (j & Hj & Es & Hn & Hl).
  destruct (greatest_sons ws H4 Hne) as (r & Er & Hr), (deoffset_sons ws H4 Hne) as (r' & Er' & Hr').
  assert (Hpos : 0 < slot ws j).
  { pose proof (slot_range ws j). rewrite <- slot_null in Hn. lia. }
  apply wp_bind. eapply wp_node_index; [exact HC|exact Hat|].
  apply wp_bind. eapply wp_tab2; [done|done|exact Er|apply Hr; lia|].
  rewrite take_ge by lia. rewrite <- Es. apply wp_bind, wp_assert; [apply bool_decide_eq_true; lia|].
  apply wp_bind. eapply wp_tab2; [done|lia|exact Er'|apply Hr'; [done|lia]|].
  apply HQ; [done|done|]. intros j' Hj'. apply (na_sons _ _ _ _ _ _ Hat); [lia|]. by apply Hl.
Qed.

Definition maximising (R : list Z → Prop) (n : nat) (st : Z * Z * Z) (s' : state) : Prop :=
  s' = s ∧ ∃ a t pre ws, node_at C st.1.1 pre ws (n - S (length pre)) t ∧ trie_ok n t ∧
    (∃ s0 s1 s2 s3, t = Node pre s0 s1 s2 s3) ∧
    Forall digit a ∧ (length a + n ≤ 16)%nat ∧ st.1.2 = num a ∧ st.2 = 2 * Z.of_nat n ∧
    (∀ m, is_max n t m → R (a ++ m)).

Lemma wp_find_max_loop R n fuel st (Q : Z → state → Prop) :
  maximising R n st s → (n < fuel)%nat → (∀ m, R m → Q (num m) s) → wp (loop fuel triev2_find_max_step st) Q s.
Proof.
  intros Hst Hf HQ. eapply wp_loop with (I := maximising R); [exact Hf|exact Hst|].
  clear n fuel st Hst Hf.
  intros n [[p acc] kl] s' (-> & a & t & pre & ws & Hat & Hok & (s0 & s1 & s2 & s3 & ->) & Ha & Hl & E1 & E2 & HR).
  cbn [fst snd] in *. subst acc kl. pose proof Hok as (Hpre & Hlp & Hn & _).
  unfold triev2_find_max_step. apply wp_bind. eapply wp_prefix_length_of; [exact HC|exact Hat|].
  apply wp_bind. eapply (wp_mono _ (λ r s', r = (num (a ++ pre), 2 * Z.of_nat (n - length pre)) ∧ s' = s)).
  { destruct (decide (pre = [])) as [->|Hne].
    - rewrite bool_decide_eq_false_2 by (intros H; by apply H). apply wp_ret.
      rewrite app_nil_r, Nat.sub_0_r. done.
    - rewrite bool_decide_eq_true_2 by (destruct pre; simpl; [done|lia]).
      apply wp_bind. eapply wp_node_prefix_of; [exact HC|exact Hat|]. apply wp_ret.
      rewrite num_shift by (done || rewrite ?length_app; lia). split; [f_equal; lia|done]. }
  intros r s' [-> ->].
  eapply wp_last_son; [exact Hat|]. intros j Hj Hnj Hlast. cbn zeta.
  assert (Hdj : digit (Z.of_nat j)) by (unfold digit; lia).
  rewrite num_snoc by (done || (rewrite length_app; lia) || (by apply Forall_app)).
  apply wp_bind. eapply wp_rd_son; [exact HC|exact Hat|done|done|].
  replace (2 * Z.of_nat (n - length pre) - 2) with (2 * Z.of_nat (n - S (length pre))) by lia.
  destruct (n - S (length pre))%nat as [|n'] eqn:En.
  - rewrite bool_decide_eq_false_2 by lia. apply wp_ret, HQ. rewrite <- app_assoc. apply HR.
    eapply is_max_node; [done|done|exact Hlast|]. rewrite En.
    pose proof (son_leaf _ _ _ _ _ _ Hat Hj Hnj) as E. simpl in E. rewrite E. apply is_max_leaf.
  - rewrite bool_decide_eq_true_2 by lia. apply wp_ret.
    destruct (son_node _ _ _ _ _ _ _ _ HC Hat Hj Hnj) as (pre' & s0' & s1' & s2' & s3' & ws' & E & Hlp' & Hat').
    exists (S n'). split; [lia|]. split; [done|].
    exists ((a ++ pre) ++ [Z.of_nat j]), (sons (Node pre s0 s1 s2 s3) j), pre', ws'.
    split_and!; [exact Hat'| |eauto| | |done|done|].
    + apply (na_sons _ _ _ _ _ _ Hat j Hj).
    + apply Forall_app. split; [by apply Forall_app|by constructor].
    + rewrite !length_app. simpl. lia.
    + intros m Hm. rewrite <- !app_assoc. apply HR. eapply is_max_node; [done|done|exact Hlast|]. rewrite En. exact Hm.
Qed.
End max.

(** * Tries as finite maps *)

Definition trie_map (n : nat) (t : trie) (m : gmap Z Z) : Prop :=
  ∀ k, m !! k = if decide (0 ≤ k < 4 ^ Z.of_nat n) then lookup t (digits n k) else None.

(** At [p] is a trie of keys of [2 n] bits that carries [m]. *)
Definition trie_repr (C : cenv) (p : Z) (n : nat) (m : gmap Z Z) : Prop :=
  ∃ t, trie_ok n t ∧ is_trie C p t ∧ trie_map n t m.

(** The significant bits of a key. *)
Definition key_of (n : nat) (key : Z) : Z := key mod 4 ^ Z.of_nat n.

Lemma key_of_range n key : 0 ≤ key_of n key < 4 ^ Z.of_nat n.
Proof. apply Z.mod_pos_bound, pow4_pos. Qed.

Lemma trie_map_lookup n t m key : trie_map n t m → m !! key_of n key = lookup t (digits n key).
Proof. intros Hm. rewrite Hm, decide_True by apply key_of_range. unfold key_of. by rewrite digits_mod. Qed.

Lemma trie_repr_mono C C' p n m : csub C C' → trie_repr C p n m → trie_repr C' p n m.
Proof. intros HC (t & ? & ? & ?). exists t. split; [done|]. split; [by eapply is_trie_mono|done]. Qed.

Lemma trie_map_empty n : trie_map n Empty ∅.
Proof. intros k. rewrite lookup_empty. by destruct (decide _). Qed.

Lemma trie_repr_null s C p n m : holds s C → trie_repr C p n m → p = NULL_PTR → m = ∅.
Proof.
  intros HC (t & Hok & Ht & Hm) Hp. apply (is_trie_null _ _ _ _ _ HC Hok Ht) in Hp. subst t.
  apply map_eq. intros k. by rewrite Hm, trie_map_empty.
Qed.

Lemma key_of_digits n key : digits n (key_of n key) = digits n key.
Proof. unfold key_of. apply digits_mod. Qed.

(** Entering a search: the root and the left-justified key. *)
Lemma search_start s C p n t key : holds s C → trie_ok n t → is_trie C p t → p ≠ NULL_PTR →
  (1 ≤ n ≤ 16)%nat → search_at C p t (digits n key).
Proof.
  intros HC Hok Ht Hp Hn. pose proof (is_trie_null _ _ _ _ _ HC Hok Ht) as Hnull.
  split; rewrite ?length_digits; [done|done| |apply digits_digit|lia].
  destruct n as [|n]; [lia|]. destruct (trie_ok_S _ _ Hok) as [E|(pre & s0 & s1 & s2 & s3 & E)]; [|eauto 10].
  by apply Hnull in E.
Qed.

Lemma searching_start s C p n t m key : holds s C → trie_ok n t → is_trie C p t → trie_map n t m → p ≠ NULL_PTR →
  (1 ≤ n ≤ 16)%nat →
  searching C s (m !! key_of n key) n (p, shl32 key (32 - 2 * Z.of_nat n), 2 * Z.of_nat n) s.
Proof.
  intros HC Hok Ht Hm Hp Hn. split; [done|]. exists t, (digits n key). cbn [fst snd].
  split_and!; [by eapply search_start|apply just_digits; lia|by rewrite length_digits| |by rewrite length_digits].
  symmetry. by apply trie_map_lookup.
Qed.

(** A searching function on a trie or [NULL]. *)
Lemma wp_searching {A} s C p n m key (none : M A) (k : Z * Z * Z → M A) (Q : A → state → Prop) :
  holds s C → trie_repr C p n m → (1 ≤ n ≤ 16)%nat →
  (m = ∅ → wp none Q s) →
  (∀ st, searching C s (m !! key_of n key) n st s → wp (k st) Q s) →
  wp (if bool_decide (p = NULL_PTR) then none
      else
        massert (bool_decide (2 * Z.of_nat n > 0));;
        k (p, shl32 key (32 - 2 * Z.of_nat n), 2 * Z.of_nat n)) Q s.
Proof.
  intros HC Hr Hn Hnone Hk. case_bool_decide as Hp.
  { apply Hnone. by eapply trie_repr_null. }
  destruct Hr as (t & Hok & Ht & Hm). apply wp_bind, wp_assert; [apply bool_decide_eq_true; lia|].
  apply Hk. by eapply searching_start.
Qed.

Section quick.
Context (C : cenv) (s : state) (HC : holds s C).

Lemma wp_find_quick_loop d n fuel st (Q : Z → state → Prop) :
  searching C s (Some d) n st s → (n < fuel)%nat → Q d s → wp (loop fuel triev2_find_quick_step st) Q s.
Proof.
  intros Hst Hf HQ. eapply wp_loop with (I := searching C s (Some d)); [exact Hf|exact Hst|].
  clear n fuel st Hst Hf. intros n [[p key] kl] s' (-> & t & ds & Hs & E1 & E2 & Ho & ->). cbn [fst snd] in *. subst key kl.
  destruct Hs as [Ht Hok (pre & s0 & s1 & s2 & s3 & ->) Hd Hl].
  destruct (lookup_son _ _ _ _ _ _ _ Ho) as (b & rest & -> & El).
  destruct (is_trie_node _ _ _ _ _ _ _ _ _ HC Hok Ht) as (Hlp & ws & Hat).
  rewrite length_app in Hl, Hat. cbn [length] in Hl, Hat.
  replace (length pre + S (length rest) - S (length pre))%nat with (length rest) in Hat by lia.
  pose proof Hd as [Hdp Hdr]%Forall_app. pose proof Hdr as [Hb Hr]%Forall_cons. unfold digit in Hb.
  assert (Hbn : (Z.to_nat b < 4)%nat) by lia.
  assert (Hn : nth (Z.to_nat b) ws NULL_WORD ≠ NULL_WORD).
  { intros E. apply (na_sons _ _ _ _ _ _ Hat) in E; [|lia]. simpl in E. by rewrite E in El. }
  unfold triev2_find_quick_step. apply wp_bind. eapply wp_prefix_length_of; [exact HC|exact Hat|].
  apply wp_bind. eapply (wp_mono _ (λ _ s', s' = s)).
  { case_bool_decide as E; [by apply wp_ret|]. apply wp_bind. eapply wp_node_prefix_of; [exact HC|exact Hat|].
    rewrite just_take; [|done|rewrite length_app; simpl; lia]. apply wp_assert; [by apply bool_decide_eq_true|done]. }
  intros ? s' ->. rewrite just_drop; [|done|rewrite length_app; simpl; lia].
  replace (2 * Z.of_nat (length (pre ++ b :: rest)) - 2 * Z.of_nat (length pre)) with (2 * Z.of_nat (length (b :: rest)))
    by (rewrite length_app; lia).
  apply wp_bind. eapply wp_branch; [exact HC|exact Hat|done|simpl; lia|].
  apply wp_bind. eapply wp_rd_son; [exact HC|exact Hat|lia|done|].
  destruct (decide (rest = [])) as [->|Hne].
  - rewrite bool_decide_eq_true_2 by (simpl; lia). apply wp_ret.
    pose proof (search_leaf _ _ _ _ _ _ Hat Hbn Hn) as E. simpl in E, El. by simplify_eq.
  - rewrite bool_decide_eq_false_2 by (destruct rest; simpl; [done|lia]).
    destruct (search_next _ _ HC _ _ _ _ _ _ Hat Hbn Hn Hr ltac:(simpl in Hl; lia) Hne) as [Hs Htag].
    apply wp_bind, wp_assert; [done|]. apply wp_ret. rewrite just_tail by (done || simpl; lia). exists (length rest).
    split; [rewrite length_app; simpl; lia|]. split; [done|]. eexists _, rest.
    split_and!; [exact Hs|done|cbn [length fst snd]; lia|done|done].
Qed.
End quick.

(** * The self-test accepts tries *)

(** The digits of the recursive calls are those of the sons that are there. *)
Lemma assertion_sons_present ws : length ws = 4%nat → present ws ≠ [] →
  ∃ l, assertion_sons (sons_type ws) = Some l ∧
    Forall (λ '(i, d), ∃ j, (j < 4)%nat ∧ i = slot ws j ∧ d = Z.of_nat j ∧ nth j ws NULL_WORD ≠ NULL_WORD) l.
Proof.
  intros H4 Hne.
  assert (Hs : ∀ w, is_some_son w = true → w ≠ NULL_WORD) by (unfold is_some_son; lia).
  destruct (four_words ws H4) as (w0 & w1 & w2 & w3 & ->). revert Hne. clear H4.
  unfold slot, present, sons_type.
  destruct (is_some_son w0) eqn:E0, (is_some_son w1) eqn:E1, (is_some_son w2) eqn:E2, (is_some_son w3) eqn:E3;
    cbn [List.filter fmap list_fmap]; rewrite ?E0, ?E1, ?E2, ?E3; intros Hne; try done.
  all: eexists; split; [reflexivity|].
  all: repeat constructor; first
    [ exists 0%nat; cbn; rewrite ?E0, ?E1, ?E2, ?E3; split_and!; [lia|done|done|by apply Hs]
    | exists 1%nat; cbn; rewrite ?E0, ?E1, ?E2, ?E3; split_and!; [lia|done|done|by apply Hs]
    | exists 2%nat; cbn; rewrite ?E0, ?E1, ?E2, ?E3; split_and!; [lia|done|done|by apply Hs]
    | exists 3%nat; cbn; rewrite ?E0, ?E1, ?E2, ?E3; split_and!; [lia|done|done|by apply Hs] ].
Qed.

Section assertions.
Context (C : cenv) (s : state) (HC : holds s C).

Lemma wp_assert_prefix p pre ws n t prefix (Q : Z * Z → state → Prop) :
  node_at C p pre ws n t → (∀ prefix', Q (2 * Z.of_nat (length pre), prefix') s) → wp (assert_prefix p prefix) Q s.
Proof.
  intros Hat HQ. unfold assert_prefix. apply wp_bind. eapply wp_prefix_length_of; [exact HC|exact Hat|].
  apply wp_bind. eapply (wp_mono _ (λ _ s', s' = s)); [|intros ? ? ->; apply wp_ret, HQ].
  case_bool_decide as E.
  - apply wp_bind. eapply wp_node_prefix_of; [exact HC|exact Hat|]. by apply wp_ret.
  - apply wp_bind. eapply wp_rd; [eapply node_blk; [exact HC|exact Hat]|done|done|].
    apply wp_bind, wp_assert; [|by apply wp_ret].
    rewrite header_full_prefix by (apply Hat). apply bool_decide_eq_true.
    apply prefix_bits_zero; [apply Hat|apply Hat|]. apply length_zero_iff_nil. lia.
Qed.

Lemma wp_make_assertions fuel n t p prefix (Q : unit → state → Prop) :
  (n < fuel)%nat → trie_ok n t → is_trie C p t → t ≠ Empty → Q tt s →
  wp (make_assertions fuel p prefix (2 * Z.of_nat n)) Q s.
Proof.
  revert n t p prefix Q. induction fuel as [|fuel IH]; intros n t p prefix Q Hf Hok Ht Hne HQ; [lia|].
  simpl. apply wp_bind, wp_assert.
  { apply bool_decide_eq_true. change 0x1 with (2 ^ 1 - 1). rewrite land_ones_mod by lia.
    change (2 ^ 1) with 2. rewrite Z.mul_comm. apply Z_mod_mult. }
  destruct n as [|n]; [by apply wp_ret|]. rewrite bool_decide_eq_true_2 by lia.
  destruct (trie_ok_S _ _ Hok) as [|(pre & s0 & s1 & s2 & s3 & ->)]; [done|].
  destruct (is_trie_node _ _ _ _ _ _ _ _ _ HC Hok Ht) as (Hlp & ws & Hat).
  apply wp_bind. eapply wp_CELL_TYPE; [eapply node_blk; [exact HC|exact Hat]|done|].
  rewrite header_type by (apply prefix_bits_bound; apply Hat).
  destruct (assertion_sons_present ws) as (l & El & Hl); [apply Hat..|]. cbn [mbind option_bind]. rewrite El.
  apply wp_bind. eapply wp_assert_prefix; [exact Hat|]. intros prefix'.
  replace (2 * Z.of_nat (S n) - (2 * Z.of_nat (length pre) + 2)) with (2 * Z.of_nat (S n - S (length pre))) by lia.
  clear El. induction Hl as [|[i d] l (j & Hj & -> & -> & Hn) _ IHl]; simpl; [by apply wp_ret|].
  apply wp_bind. eapply wp_rd_son; [exact HC|exact Hat|done|done|].
  destruct (na_sons _ _ _ _ _ _ Hat j Hj) as (Hts & Hoks & Hnull).
  apply wp_bind.
  apply (IH (S n - S (length pre))%nat (sons (Node pre s0 s1 s2 s3) j)); [lia|done|done| |exact IHl].
  by rewrite <- Hnull.
Qed.

(** At the entry and the exit of the functions that change a trie. *)
Lemma wp_triev2_make_assertions heaviness fuel n t p (Q : Z → state → Prop) :
  (n < fuel)%nat → trie_ok n t → is_trie C p t → Q 1 s →
  wp (triev2_make_assertions heaviness fuel p (2 * Z.of_nat n)) Q s.
Proof.
  intros Hf Hok Ht HQ. unfold triev2_make_assertions. destruct (bool_decide _ || _) eqn:E; [by apply wp_ret|].
  apply orb_false_iff in E as [E%bool_decide_eq_false _]. apply wp_bind.
  eapply wp_make_assertions; [exact Hf|exact Hok|exact Ht| |by apply wp_ret].
  intros ->. by apply E.
Qed.
End assertions.


Lemma find_run fuel p n m key s : trie_repr (blk s) p n m → (1 ≤ n ≤ 16)%nat → (n < fuel)%nat →
  triev2_find fuel p key (2 * Z.of_nat n) s = Ok (default_word (m !! key_of n key)) s.
Proof.
  intros Hr Hn Hf.
  destruct (wp_inv (triev2_find fuel p key (2 * Z.of_nat n)) (λ r s', r = default_word (m !! key_of n key) ∧ s' = s) s)
  as (r & s' & E & -> & ->); [|done].
  apply (wp_searching s (blk s) p n m key (mret NULL_WORD) (loop fuel triev2_find_step)); [apply holds_blk|done|done|..].
  - intros ->. apply wp_ret. by rewrite lookup_empty.
  - intros st Hst. by eapply wp_find_loop; [apply holds_blk|exact Hst|done|].
Qed.

(** * An example *)

(** [trie_map] decided for short keys. *)
Definition trie_mapb (n : nat) (t : trie) (m : gmap Z Z) : bool :=
  forallb (λ k, bool_decide (m !! Z.of_nat k = lookup t (digits n (Z.of_nat k)))) (seq 0 (Z.to_nat (4 ^ Z.of_nat n))) &&
  forallb (λ '(k, _), bool_decide (0 ≤ k < 4 ^ Z.of_nat n)) (map_to_list m).

Lemma trie_mapb_sound n t m : trie_mapb n t m = true → trie_map n t m.
Proof.
  unfold trie_mapb. rewrite andb_true_iff, !forallb_forall. intros [H1 H2] k. destruct (decide _) as [Hk|Hk].
  - specialize (H1 (Z.to_nat k)). rewrite bool_decide_eq_true, Z2Nat.id in H1 by lia. apply H1, in_seq. lia.
  - destruct (m !! k) as [d|] eqn:E; [|done]. exfalso. apply Hk.
    apply elem_of_map_to_list, list_elem_of_In in E. apply H2 in E. by apply bool_decide_eq_true in E.
Qed.

(** A trie of the four-bit keys 3, 6 and 7. *)
Definition example_build : M Z :=
  p1 ← allocate 2 CELL_trie4; wr p1 1 300;;
  p2 ← allocate 3 CELL_trie34; wr p2 1 100;; wr p2 2 200;;
  p3 ← allocate 3 CELL_trie12; wr p3 1 p1;; wr p3 2 p2;;
  mret p3.
Definition example_state : state := exec example_build (init_state 4 200 []).
Definition example_root : Z := value 0 example_build (init_state 4 200 []).
Definition example_map : gmap Z Z := {[ 3 := 300; 6 := 100; 7 := 200 ]}.

Lemma example_repr : trie_repr (blk example_state) example_root 2 example_map.
Proof.
  exists (Node [] (Node [] Empty Empty Empty (Leaf 300)) (Node [] Empty Empty (Leaf 100) (Leaf 200)) Empty Empty).
  split; [|split].
  - repeat (simpl; split_and!); first [done | by constructor | lia | by intros (? & ? & ? & ?)].
  - simpl. exists (first_generation_start example_state - 8), (first_generation_start example_state - 20), 0, 0.
    split; [apply blkb_sound; by vm_compute|]. split_and!; [|..|done|done].
    + exists 0, 0, 0, 300. split; [apply blkb_sound; by vm_compute|done].
    + exists 0, 0, 100, 200. split; [apply blkb_sound; by vm_compute|done].
  - apply trie_mapb_sound. by vm_compute.
Qed.

(** * Properties *)

(** C30. Looking a key up in a trie that carries the map [m] finds what [m] has
    for the key's significant bits: [triev2_find] returns the data or
    [NULL_WORD], [triev2_contains] 1 or 0.  They terminate within one round per
    digit, no assertion fails and nothing is changed. *)
Theorem triev2_find_correct fuel p n m key s :
  trie_repr (blk s) p n m → (1 ≤ n ≤ 16)%nat → (n < fuel)%nat →
  triev2_find fuel p key (2 * Z.of_nat n) s = Ok (default_word (m !! key_of n key)) s ∧
  triev2_contains fuel p key (2 * Z.of_nat n) s = Ok (found (m !! key_of n key)) s.
Proof.
  intros Hr Hn Hf. split.
  - by apply find_run.
  - destruct (wp_inv (triev2_contains fuel p key (2 * Z.of_nat n)) (λ r s', r = found (m !! key_of n key) ∧ s' = s) s)
      as (r & s' & E & -> & ->); [|done].
    apply (wp_searching s (blk s) p n m key (mret 0) (loop fuel triev2_contains_step)); [apply holds_blk|done|done|..].
    + intros ->. apply wp_ret. by rewrite lookup_empty.
    + intros st Hst. by eapply wp_contains_loop; [apply holds_blk|exact Hst|done|].
Qed.

Lemma triev2_find_correct_witness :
  triev2_find 17 example_root 6 4 example_state = Ok 100 example_state ∧
  triev2_contains 17 example_root 6 4 example_state = Ok 1 example_state.
Proof. apply (triev2_find_correct 17 example_root 2 example_map 6); [apply example_repr|lia|lia]. Defined.

(** C31. On a key that is there [triev2_find_quick], which checks nothing but
    its assertions, is equivalent to [triev2_find]. *)
Theorem triev2_find_quick_equiv fuel p n m key s :
  trie_repr (blk s) p n m → (1 ≤ n ≤ 16)%nat → (n < fuel)%nat → is_Some (m !! key_of n key) →
  triev2_find_quick fuel p key (2 * Z.of_nat n) s = triev2_find fuel p key (2 * Z.of_nat n) s.
Proof.
  intros Hr Hn Hf [d Hd].
  destruct (wp_inv (triev2_find_quick fuel p key (2 * Z.of_nat n)) (λ r s', r = d ∧ s' = s) s) as (r & s' & -> & -> & ->).
  { assert (Hp : p ≠ NULL_PTR).
    { intros Hp. rewrite (trie_repr_null _ _ _ _ _ (holds_blk s) Hr Hp) in Hd. by rewrite lookup_empty in Hd. }
    destruct Hr as (t & Hok & Ht & Hm). do 2 (apply wp_bind, wp_assert; [apply bool_decide_eq_true; (done || lia)|]).
    pose proof (searching_start s _ _ _ _ _ key (holds_blk s) Hok Ht Hm Hp Hn) as Hst. rewrite Hd in Hst.
    by eapply wp_find_quick_loop; [apply holds_blk|exact Hst|done|]. }
  rewrite (find_run fuel p n m key s Hr Hn Hf). by rewrite Hd.
Qed.

Lemma triev2_find_quick_equiv_witness :
  triev2_find_quick 17 example_root 7 4 example_state = triev2_find 17 example_root 7 4 example_state.
Proof.
  apply (triev2_find_quick_equiv 17 example_root 2 example_map 7); [apply example_repr|lia|lia|].
  by exists 200.
Defined.

(** C32. [triev2_find_max] returns the greatest key of a non-empty trie, and
    [NULL_WORD] for the empty one; and the trie passes [triev2_make_assertions]
    whatever the heaviness of the assertions. *)
Theorem triev2_find_max_correct heaviness fuel p n m s :
  trie_repr (blk s) p n m → (1 ≤ n ≤ 16)%nat → (n < fuel)%nat →
  triev2_make_assertions heaviness fuel p (2 * Z.of_nat n) s = Ok 1 s ∧
  ∃ k, triev2_find_max fuel p (2 * Z.of_nat n) s = Ok k s ∧
    (m = ∅ ∧ k = NULL_WORD ∨ is_Some (m !! k) ∧ ∀ k', is_Some (m !! k') → k' ≤ k).
Proof.
  intros Hr Hn Hf. pose proof Hr as (t & Hok & Ht & Hm). split.
  { destruct (wp_inv (triev2_make_assertions heaviness fuel p (2 * Z.of_nat n)) (λ r s', r = 1 ∧ s' = s) s)
      as (r & s' & -> & -> & ->); [|done].
    by eapply wp_triev2_make_assertions; [apply holds_blk|exact Hf|exact Hok|exact Ht|]. }
  destruct (wp_inv (triev2_find_max fuel p (2 * Z.of_nat n)) (λ k s', s' = s ∧
    (m = ∅ ∧ k = NULL_WORD ∨ is_Some (m !! k) ∧ ∀ k', is_Some (m !! k') → k' ≤ k)) s) as (k & s' & E & -> & H); [|eauto].
  unfold triev2_find_max. case_bool_decide as Hp.
  { apply wp_ret. split; [done|]. left. split; [|done]. by eapply trie_repr_null; [apply holds_blk|..]. }
  apply wp_bind, wp_assert; [apply bool_decide_eq_true; lia|].
  pose proof (is_trie_null _ _ _ _ _ (holds_blk s) Hok Ht) as Hnull.
  assert (∃ pre s0 s1 s2 s3, t = Node pre s0 s1 s2 s3) as (pre & s0 & s1 & s2 & s3 & ->).
  { destruct n as [|n]; [lia|]. destruct (trie_ok_S _ _ Hok) as [->|]; [by destruct Hp; apply Hnull|done]. }
  destruct (is_trie_node _ _ _ _ _ _ _ _ _ (holds_blk s) Hok Ht) as (_ & ws & Hat).
  eapply (wp_find_max_loop (blk s) s (holds_blk s) (is_max n (Node pre s0 s1 s2 s3))); [|exact Hf|].
  { split; [done|]. exists [], (Node pre s0 s1 s2 s3), pre, ws.
    split_and!; [exact Hat|done|eauto|done|simpl; lia|done|done|done]. }
  intros mx [Hd [d Hth] Hl Hle]. split; [done|]. right. rewrite <- Hl in Hm. pose proof (num_bound _ Hd). split.
  - exists d. rewrite Hm, decide_True by done. by rewrite digits_num.
  - intros k' Hk'. rewrite Hm in Hk'. destruct (decide _) as [Hk|]; [|by destruct Hk'].
    rewrite <- (Z.mod_small k' (4 ^ Z.of_nat (length mx))), <- num_digits by done. by apply Hle; [apply digits_digit|].
Qed.

Lemma triev2_find_max_correct_witness :
  triev2_make_assertions 10 17 example_root 4 example_state = Ok 1 example_state ∧
  ∃ k, triev2_find_max 17 example_root 4 example_state = Ok k example_state ∧
    (example_map = ∅ ∧ k = NULL_WORD ∨ is_Some (example_map !! k) ∧ ∀ k', is_Some (example_map !! k') → k' ≤ k).
Proof. apply (triev2_find_max_correct 10 17 example_root 2 example_map); [apply example_repr|lia|lia]. Defined.
