(* ===== verification/Triev2Insert.v ===== *)
(** Insertion into tries and replacement of a key's data: triev2_insert and
    triev2_replace of triev2.c.

    Both copy the nodes on the key's path from the root downwards.  The pointer
    [pp] tells where the next copy is to be linked: the local variable [new_root]
    first, later a word of the node copied last, which holds what [allocate] left
    there until then. *)

From S2P Require Import Prelude Machine Celltypes Shades Cow Bitops Compare Cells Digits Triev2.

(** * The switches

    A case of the switches on the cell type and the branch: the cell that is
    allocated, the index of the word that [pp] will point to, that of the old
    data in the old node (or [NULL_WORD]) and the words that are copied. *)

Record node_case := NodeCase {
  case_size : Z;
  case_type : cell_type;
  case_slot : Z;
  case_old : option Z;
  case_copies : list (Z * Z)
}.

Definition insert_case_1234 (t : cell_type) (b : Z) : option node_case :=
  match t, b with
  | CELL_trie1234, 0 => Some (NodeCase 5 CELL_trie1234 1 (Some 1) [(2, 2); (3, 3); (4, 4)])
  | CELL_trie1234, 1 => Some (NodeCase 5 CELL_trie1234 2 (Some 2) [(1, 1); (3, 3); (4, 4)])
  | CELL_trie1234, 2 => Some (NodeCase 5 CELL_trie1234 3 (Some 3) [(1, 1); (2, 2); (4, 4)])
  | CELL_trie1234, 3 => Some (NodeCase 5 CELL_trie1234 4 (Some 4) [(1, 1); (2, 2); (3, 3)])
  | CELL_trie123, 0 => Some (NodeCase 4 CELL_trie123 1 (Some 1) [(2, 2); (3, 3)])
  | CELL_trie123, 1 => Some (NodeCase 4 CELL_trie123 2 (Some 2) [(1, 1); (3, 3)])
  | CELL_trie123, 2 => Some (NodeCase 4 CELL_trie123 3 (Some 3) [(1, 1); (2, 2)])
  | CELL_trie123, 3 => Some (NodeCase 5 CELL_trie1234 4 None [(1, 1); (2, 2); (3, 3)])
  | CELL_trie124, 0 => Some (NodeCase 4 CELL_trie124 1 (Some 1) [(2, 2); (3, 3)])
  | CELL_trie124, 1 => Some (NodeCase 4 CELL_trie124 2 (Some 2) [(1, 1); (3, 3)])
  | CELL_trie124, 2 => Some (NodeCase 5 CELL_trie1234 3 None [(1, 1); (2, 2); (4, 3)])
  | CELL_trie124, 3 => Some (NodeCase 4 CELL_trie124 3 (Some 3) [(1, 1); (2, 2)])
  | CELL_trie12, 0 => Some (NodeCase 3 CELL_trie12 1 (Some 1) [(2, 2)])
  | CELL_trie12, 1 => Some (NodeCase 3 CELL_trie12 2 (Some 2) [(1, 1)])
  | CELL_trie12, 2 => Some (NodeCase 4 CELL_trie123 3 None [(1, 1); (2, 2)])
  | CELL_trie12, 3 => Some (NodeCase 4 CELL_trie124 3 None [(1, 1); (2, 2)])
  | _, _ => None
  end.

Definition insert_case_134 (t : cell_type) (b : Z) : option node_case :=
  match t, b with
  | CELL_trie134, 0 => Some (NodeCase 4 CELL_trie134 1 (Some 1) [(2, 2); (3, 3)])
  | CELL_trie134, 1 => Some (NodeCase 5 CELL_trie1234 2 None [(1, 1); (3, 2); (4, 3)])
  | CELL_trie134, 2 => Some (NodeCase 4 CELL_trie134 2 (Some 2) [(1, 1); (3, 3)])
  | CELL_trie134, 3 => Some (NodeCase 4 CELL_trie134 3 (Some 3) [(1, 1); (2, 2)])
  | CELL_trie13, 0 => Some (NodeCase 3 CELL_trie13 1 (Some 1) [(2, 2)])
  | CELL_trie13, 1 => Some (NodeCase 4 CELL_trie123 2 None [(1, 1); (3, 2)])
  | CELL_trie13, 2 => Some (NodeCase 3 CELL_trie13 2 (Some 2) [(1, 1)])
  | CELL_trie13, 3 => Some (NodeCase 4 CELL_trie134 3 None [(1, 1); (2, 2)])
  | CELL_trie14, 0 => Some (NodeCase 3 CELL_trie14 1 (Some 1) [(2, 2)])
  | CELL_trie14, 1 => Some (NodeCase 4 CELL_trie124 2 None [(1, 1); (3, 2)])
  | CELL_trie14, 2 => Some (NodeCase 4 CELL_trie134 2 None [(1, 1); (3, 2)])
  | CELL_trie14, 3 => Some (NodeCase 3 CELL_trie14 2 (Some 2) [(1, 1)])
  | CELL_trie1, 0 => Some (NodeCase 2 CELL_trie1 1 (Some 1) [])
  | CELL_trie1, 1 => Some (NodeCase 3 CELL_trie12 2 None [(1, 1)])
  | CELL_trie1, 2 => Some (NodeCase 3 CELL_trie13 2 None [(1, 1)])
  | CELL_trie1, 3 => Some (NodeCase 3 CELL_trie14 2 None [(1, 1)])
  | _, _ => None
  end.

Definition insert_case_234 (t : cell_type) (b : Z) : option node_case :=
  match t, b with
  | CELL_trie234, 0 => Some (NodeCase 5 CELL_trie1234 1 None [(2, 1); (3, 2); (4, 3)])
  | CELL_trie234, 1 => Some (NodeCase 4 CELL_trie234 1 (Some 1) [(2, 2); (3, 3)])
  | CELL_trie234, 2 => Some (NodeCase 4 CELL_trie234 2 (Some 2) [(1, 1); (3, 3)])
  | CELL_trie234, 3 => Some (NodeCase 4 CELL_trie234 3 (Some 3) [(1, 1); (2, 2)])
  | CELL_trie23, 0 => Some (NodeCase 4 CELL_trie123 1 None [(2, 1); (3, 2)])
  | CELL_trie23, 1 => Some (NodeCase 3 CELL_trie23 1 (Some 1) [(2, 2)])
  | CELL_trie23, 2 => Some (NodeCase 3 CELL_trie23 2 (Some 2) [(1, 1)])
  | CELL_trie23, 3 => Some (NodeCase 4 CELL_trie234 3 None [(1, 1); (2, 2)])
  | CELL_trie24, 0 => Some (NodeCase 4 CELL_trie124 1 None [(2, 1); (3, 2)])
  | CELL_trie24, 1 => Some (NodeCase 3 CELL_trie24 1 (Some 1) [(2, 2)])
  | CELL_trie24, 2 => Some (NodeCase 4 CELL_trie234 2 None [(1, 1); (3, 2)])
  | CELL_trie24, 3 => Some (NodeCase 3 CELL_trie24 2 (Some 2) [(1, 1)])
  | CELL_trie2, 0 => Some (NodeCase 3 CELL_trie12 1 None [(2, 1)])
  | CELL_trie2, 1 => Some (NodeCase 2 CELL_trie2 1 (Some 1) [])
  | CELL_trie2, 2 => Some (NodeCase 3 CELL_trie23 2 None [(1, 1)])
  | CELL_trie2, 3 => Some (NodeCase 3 CELL_trie24 2 None [(1, 1)])
  | _, _ => None
  end.

Definition insert_case_34 (t : cell_type) (b : Z) : option node_case :=
  match t, b with
  | CELL_trie34, 0 => Some (NodeCase 4 CELL_trie134 1 None [(2, 1); (3, 2)])
  | CELL_trie34, 1 => Some (NodeCase 4 CELL_trie234 1 None [(2, 1); (3, 2)])
  | CELL_trie34, 2 => Some (NodeCase 3 CELL_trie34 1 (Some 1) [(2, 2)])
  | CELL_trie34, 3 => Some (NodeCase 3 CELL_trie34 2 (Some 2) [(1, 1)])
  | CELL_trie3, 0 => Some (NodeCase 3 CELL_trie13 1 None [(2, 1)])
  | CELL_trie3, 1 => Some (NodeCase 3 CELL_trie23 1 None [(2, 1)])
  | CELL_trie3, 2 => Some (NodeCase 2 CELL_trie3 1 (Some 1) [])
  | CELL_trie3, 3 => Some (NodeCase 3 CELL_trie34 2 None [(1, 1)])
  | CELL_trie4, 0 => Some (NodeCase 3 CELL_trie14 1 None [(2, 1)])
  | CELL_trie4, 1 => Some (NodeCase 3 CELL_trie24 1 None [(2, 1)])
  | CELL_trie4, 2 => Some (NodeCase 3 CELL_trie34 1 None [(2, 1)])
  | CELL_trie4, 3 => Some (NodeCase 2 CELL_trie4 1 (Some 1) [])
  | _, _ => None
  end.

Definition insert_case (t : cell_type) (b : Z) : option node_case :=
  match t with
  | CELL_trie1234 | CELL_trie123 | CELL_trie124 | CELL_trie12 => insert_case_1234 t b
  | CELL_trie134 | CELL_trie13 | CELL_trie14 | CELL_trie1 => insert_case_134 t b
  | CELL_trie234 | CELL_trie23 | CELL_trie24 | CELL_trie2 => insert_case_234 t b
  | CELL_trie34 | CELL_trie3 | CELL_trie4 => insert_case_34 t b
  | _ => None
  end.

Definition replace_case_1234 (t : cell_type) (b : Z) : option node_case :=
  match t, b with
  | CELL_trie1234, 0 => Some (NodeCase 5 CELL_trie1234 1 (Some 1) [(2, 2); (3, 3); (4, 4)])
  | CELL_trie1234, 1 => Some (NodeCase 5 CELL_trie1234 2 (Some 2) [(1, 1); (3, 3); (4, 4)])
  | CELL_trie1234, 2 => Some (NodeCase 5 CELL_trie1234 3 (Some 3) [(1, 1); (2, 2); (4, 4)])
  | CELL_trie1234, 3 => Some (NodeCase 5 CELL_trie1234 4 (Some 4) [(1, 1); (2, 2); (3, 3)])
  | CELL_trie123, 0 => Some (NodeCase 4 CELL_trie123 1 (Some 1) [(2, 2); (3, 3)])
  | CELL_trie123, 1 => Some (NodeCase 4 CELL_trie123 2 (Some 2) [(1, 1); (3, 3)])
  | CELL_trie123, 2 => Some (NodeCase 4 CELL_trie123 3 (Some 3) [(1, 1); (2, 2)])
  | CELL_trie123, 3 => Some (NodeCase 5 CELL_trie1234 4 None [(1, 1); (2, 2); (3, 3)])
  | CELL_trie124, 0 => Some (NodeCase 4 CELL_trie124 1 (Some 1) [(2, 2); (3, 3)])
  | CELL_trie124, 1 => Some (NodeCase 4 CELL_trie124 2 (Some 2) [(1, 1); (3, 3)])
  | CELL_trie124, 2 => Some (NodeCase 5 CELL_trie1234 3 None [(1, 1); (2, 2); (4, 3)])
  | CELL_trie124, 3 => Some (NodeCase 4 CELL_trie124 3 (Some 3) [(1, 1); (2, 2)])
  | CELL_trie12, 0 => Some (NodeCase 3 CELL_trie12 1 (Some 1) [(2, 2)])
  | CELL_trie12, 1 => Some (NodeCase 3 CELL_trie12 2 (Some 2) [(1, 1)])
  | CELL_trie12, 2 => Some (NodeCase 4 CELL_trie123 3 None [(1, 1); (2, 2)])
  | CELL_trie12, 3 => Some (NodeCase 4 CELL_trie124 3 None [(1, 1); (2, 2)])
  | _, _ => None
  end.

Definition replace_case_134 (t : cell_type) (b : Z) : option node_case :=
  match t, b with
  | CELL_trie134, 0 => Some (NodeCase 4 CELL_trie134 1 (Some 1) [(2, 2); (3, 3)])
  | CELL_trie134, 1 => Some (NodeCase 5 CELL_trie1234 2 None [(1, 1); (3, 2); (4, 3)])
  | CELL_trie134, 2 => Some (NodeCase 4 CELL_trie134 2 (Some 2) [(1, 1); (3, 3)])
  | CELL_trie134, 3 => Some (NodeCase 4 CELL_trie134 3 (Some 3) [(1, 1); (2, 2)])
  | CELL_trie13, 0 => Some (NodeCase 3 CELL_trie13 1 (Some 1) [(2, 2)])
  | CELL_trie13, 1 => Some (NodeCase 4 CELL_trie123 2 None [(1, 1); (3, 2)])
  | CELL_trie13, 2 => Some (NodeCase 3 CELL_trie13 2 (Some 2) [(1, 1)])
  | CELL_trie13, 3 => Some (NodeCase 4 CELL_trie134 3 None [(1, 1); (2, 2)])
  | CELL_trie14, 0 => Some (NodeCase 3 CELL_trie14 1 (Some 1) [(2, 2)])
  | CELL_trie14, 1 => Some (NodeCase 4 CELL_trie124 2 None [(1, 1); (3, 2)])
  | CELL_trie14, 2 => Some (NodeCase 4 CELL_trie134 2 None [(1, 1); (3, 2)])
  | CELL_trie14, 3 => Some (NodeCase 3 CELL_trie14 2 (Some 2) [(1, 1)])
  | CELL_trie1, 0 => Some (NodeCase 2 CELL_trie1 1 (Some 1) [])
  | CELL_trie1, 1 => Some (NodeCase 3 CELL_trie12 2 None [(1, 1)])
  | CELL_trie1, 2 => Some (NodeCase 3 CELL_trie13 2 None [(1, 1)])
  | CELL_trie1, 3 => Some (NodeCase 3 CELL_trie14 2 None [(1, 1)])
  | _, _ => None
  end.

Definition replace_case_234 (t : cell_type) (b : Z) : option node_case :=
  match t, b with
  | CELL_trie234, 0 => Some (NodeCase 5 CELL_trie1234 1 None [(2, 1); (3, 2); (4, 3)])
  | CELL_trie234, 1 => Some (NodeCase 4 CELL_trie234 1 (Some 1) [(2, 2); (3, 3)])
  | CELL_trie234, 2 => Some (NodeCase 4 CELL_trie234 2 (Some 2) [(1, 1); (3, 3)])
  | CELL_trie234, 3 => Some (NodeCase 4 CELL_trie234 3 (Some 3) [(1, 1); (2, 2)])
  | CELL_trie23, 0 => Some (NodeCase 4 CELL_trie123 1 None [(2, 1); (3, 2)])
  | CELL_trie23, 1 => Some (NodeCase 3 CELL_trie23 1 (Some 1) [(2, 2)])
  | CELL_trie23, 2 => Some (NodeCase 3 CELL_trie23 2 (Some 2) [(1, 1)])
  | CELL_trie23, 3 => Some (NodeCase 4 CELL_trie234 3 None [(1, 1); (2, 2)])
  | CELL_trie24, 0 => Some (NodeCase 4 CELL_trie124 1 None [(2, 1); (3, 2)])
  | CELL_trie24, 1 => Some (NodeCase 3 CELL_trie24 1 (Some 1) [(2, 2)])
  | CELL_trie24, 2 => Some (NodeCase 4 CELL_trie234 2 None [(1, 1); (3, 2)])
  | CELL_trie24, 3 => Some (NodeCase 3 CELL_trie24 2 (Some 2) [(1, 1)])
  | CELL_trie2, 0 => Some (NodeCase 3 CELL_trie12 1 None [(2, 1)])
  | CELL_trie2, 1 => Some (NodeCase 2 CELL_trie2 1 (Some 1) [])
  | CELL_trie2, 2 => Some (NodeCase 3 CELL_trie23 2 None [(1, 1)])
  | CELL_trie2, 3 => Some (NodeCase 3 CELL_trie24 2 None [(1, 1)])
  | _, _ => None
  end.

Definition replace_case_34 (t : cell_type) (b : Z) : option node_case :=
  match t, b with
  | CELL_trie34, 0 => Some (NodeCase 4 CELL_trie134 1 None [(2, 1); (3, 2)])
  | CELL_trie34, 1 => Some (NodeCase 4 CELL_trie234 1 None [(2, 1); (3, 2)])
  | CELL_trie34, 2 => Some (NodeCase 3 CELL_trie34 1 (Some 1) [(2, 2)])
  | CELL_trie34, 3 => Some (NodeCase 3 CELL_trie34 2 (Some 2) [(1, 1)])
  | CELL_trie3, 0 => Some (NodeCase 3 CELL_trie13 1 None [(2, 1)])
  | CELL_trie3, 1 => Some (NodeCase 3 CELL_trie23 1 None [(2, 1)])
  | CELL_trie3, 2 => Some (NodeCase 2 CELL_trie3 1 (Some 1) [])
  | CELL_trie3, 3 => Some (NodeCase 3 CELL_trie34 2 None [(1, 1)])
  | CELL_trie4, 0 => Some (NodeCase 3 CELL_trie14 1 None [(2, 1)])
  | CELL_trie4, 1 => Some (NodeCase 3 CELL_trie24 1 None [(2, 1)])
  | CELL_trie4, 2 => Some (NodeCase 3 CELL_trie34 1 None [(2, 1)])
  | CELL_trie4, 3 => Some (NodeCase 2 CELL_trie4 1 (Some 1) [])
  | _, _ => None
  end.

Definition replace_case (t : cell_type) (b : Z) : option node_case :=
  match t with
  | CELL_trie1234 | CELL_trie123 | CELL_trie124 | CELL_trie12 => replace_case_1234 t b
  | CELL_trie134 | CELL_trie13 | CELL_trie14 | CELL_trie1 => replace_case_134 t b
  | CELL_trie234 | CELL_trie23 | CELL_trie24 | CELL_trie2 => replace_case_234 t b
  | CELL_trie34 | CELL_trie3 | CELL_trie4 => replace_case_34 t b
  | _ => None
  end.

(** * Operations *)

(** The code of a case: it yields [new_p], [tmp_pp] and [old_data]. *)
Definition run_case (c : node_case) (p full_prefix : Z) : M (Z * slot_ptr * Z) :=
  new_p ← allocate (case_size c) (case_type c);
  old_data ← (match case_old c with Some i => rd p i | None => mret NULL_WORD end);
  foldr (λ '(i, j) rest, w ← rd p j; wr new_p i w;; rest) (mret tt) (case_copies c);;
  or_header new_p full_prefix;;
  mret (new_p, CellSlot new_p (case_slot c), old_data).

(** The local variables that live through the loops. *)
Record path_state := PathState {
  ps_p : Z;
  ps_key : Z;
  ps_key_length : Z;
  ps_old_data : Z;
  ps_new_root : Z;
  ps_pp : slot_ptr
}.

(** The branch for an empty position: a node with a single son. *)
Definition insert_fresh (key key_length : Z) : M (Z * Z * Z) :=
  if bool_decide (key_length > 2) then
    let prefix_length := if bool_decide (key_length < 22) then key_length - 2 else 20 in
    let key_prefix := shr32 key (32 - prefix_length) in
    let key := shl32 key prefix_length in
    let key_length := key_length - prefix_length in
    t ← tab uni_cell_type (shr32 key 30);
    new_p ← allocate 2 t;
    or_header new_p (Z.lor (shl32 prefix_length 19) key_prefix);;
    mret (new_p, key, key_length)
  else
    t ← tab uni_cell_type (shr32 key 30);
    new_p ← allocate 2 t;
    mret (new_p, key, key_length).

(** [for (i = 1; i < cs; i++) old_p\[i\] = p\[i\];] *)
Definition copy_sons (old_p p : Z) (n : nat) : M unit :=
  for_ n (λ i _, w ← rd p (1 + Z.of_nat i); wr old_p (1 + Z.of_nat i) w) tt.

(** The code at [split]: the prefixes differ. *)
Definition insert_split (p key key_length prefix_length node_prefix key_prefix : Z) (pp : slot_ptr) (new_root : Z)
    : M (Z * Z * Z * slot_ptr) :=
  ct ← node_type p;
  size ← tab cell_size (type_index ct);
  old_p ← allocate size ct;
  h ← of_option (highest_bit (Z.lxor node_prefix key_prefix));
  let old_prefix_length := Z.land h (Z.lnot 0x1) in
  let old_prefix := Z.land node_prefix (Z.shiftl 1 old_prefix_length - 1) in
  or_header old_p (Z.lor (shl32 old_prefix_length 19) old_prefix);;
  copy_sons old_p p (Z.to_nat (size - 1));;
  let prefix_length := prefix_length - (2 + old_prefix_length) in
  let digit := Z.land (shr32 node_prefix old_prefix_length) 0x3 in
  ct ← tab2 bi_cell_type (shr32 (shl32 key prefix_length) 30) digit;
  size ← tab cell_size (type_index ct);
  massert (bool_decide (size = 3));;
  new_p ← allocate 3 ct;
  '(key, key_length) ← (if bool_decide (prefix_length > 0) then
      or_header new_p (Z.lor (shl32 prefix_length 19) (shr32 key (32 - prefix_length)));;
      mret (shl32 key prefix_length, key_length - prefix_length)
    else mret (key, key_length));
  i ← tab2 offset (type_index ct) digit;
  massert (bool_decide (i ≠ 0));;
  wr new_p i old_p;;
  new_root ← set_slot pp new_p new_root;
  j ← tab2 offset (type_index ct) (shr32 key 30);
  mret (key, key_length, new_root, CellSlot new_p j).

(** The branch for a node whose prefix, if any, is that of the key. *)
Definition insert_copy (cases : cell_type → Z → option node_case) (p key full_prefix : Z) (pp : slot_ptr) (new_root : Z)
    : M (Z * Z * slot_ptr) :=
  t ← node_type p;
  c ← of_option (cases t (shr32 key 30));
  '(new_p, tmp_pp, old_data) ← run_case c p full_prefix;
  new_root ← set_slot pp new_p new_root;
  mret (old_data, new_root, tmp_pp).

(** What a round yields: the rest of the key, [old_data], [new_root], [pp]. *)
Definition round : Type := Z * Z * Z * Z * slot_ptr.

Definition insert_round (s : path_state) : M round :=
  let p := ps_p s in let key := ps_key s in let key_length := ps_key_length s in
  let pp := ps_pp s in let new_root := ps_new_root s in
  if bool_decide (p = NULL_PTR) then
    '(new_p, key, key_length) ← insert_fresh key key_length;
    new_root ← set_slot pp new_p new_root;
    mret (key, key_length, ps_old_data s, new_root, CellSlot new_p 1)
  else
    w ← rd p 0;
    let full_prefix := Z.land w FULL_PREFIX_MASK in
    if bool_decide (full_prefix ≠ 0) then
      let prefix_length := Z.land (shr32 full_prefix 19) 0x1E in
      let node_prefix := Z.land full_prefix NODE_PREFIX_MASK in
      let key_prefix := shr32 key (32 - prefix_length) in
      if bool_decide (node_prefix ≠ key_prefix) then
        '(key, key_length, new_root, pp) ← insert_split p key key_length prefix_length node_prefix key_prefix pp new_root;
        mret (key, key_length, NULL_WORD, new_root, pp)
      else
        let key := shl32 key prefix_length in
        '(old_data, new_root, pp) ← insert_copy insert_case p key full_prefix pp new_root;
        mret (key, key_length - prefix_length, old_data, new_root, pp)
    else
      '(old_data, new_root, pp) ← insert_copy insert_case p key full_prefix pp new_root;
      mret (key, key_length, old_data, new_root, pp).

(** The loops: [body] is the code between [loop] and [out]. *)
Definition path_step (body : path_state → M round) (s : path_state) : M (path_state + path_state) :=
  massert (bool_decide (Z.land (ps_key_length s) 0x1 = 0));;
  '(key, key_length, old_data, new_root, pp) ← body s;
  let key := shl32 key 2 in
  let key_length := key_length - 2 in
  if bool_decide (key_length ≠ 0) then
    massert (TAGGED_IS_PTR old_data);;
    mret (inl (PathState old_data key key_length old_data new_root pp))
  else mret (inr (PathState old_data key key_length old_data new_root pp)).

(** [heaviness] is that of the self-tests at the beginning and the end. *)
Definition triev2_insert (heaviness : Z) (fuel : nat) (trie_root key key_length : Z) (f : update_fun) (data : Z) : M Z :=
  ok ← triev2_make_assertions heaviness fuel trie_root key_length;
  massert (bool_decide (ok ≠ 0));;
  ap ← get_allocation_point;
  massert (bool_decide (key_length > 0));;
  s ← loop fuel (path_step insert_round)
    (PathState trie_root (shl32 key (32 - key_length)) key_length NULL_WORD NULL_WORD RootSlot);
  massert (bool_decide (ps_key s = 0));;
  data ← (match f with
          | Some f => if bool_decide (ps_old_data s ≠ NULL_WORD) then f (ps_old_data s) data else mret data
          | None => mret data
          end);
  if bool_decide (ps_old_data s ≠ NULL_WORD) && bool_decide (ps_old_data s = data) then
    restore_allocation_point ap;;
    mret trie_root
  else
    new_root ← set_slot (ps_pp s) data (ps_new_root s);
    ok ← triev2_make_assertions heaviness fuel new_root key_length;
    massert (bool_decide (ok ≠ 0));;
    mret new_root.

Definition replace_round (s : path_state) : M round :=
  let p := ps_p s in let key := ps_key s in let key_length := ps_key_length s in
  massert (bool_decide (p ≠ NULL_PTR));;
  w ← rd p 0;
  let full_prefix := Z.land w FULL_PREFIX_MASK in
  '(key, key_length) ← (if bool_decide (full_prefix ≠ 0) then
      let prefix_length := Z.land (shr32 full_prefix 19) 0x1E in
      massert (bool_decide (Z.land full_prefix NODE_PREFIX_MASK = shr32 key (32 - prefix_length)));;
      mret (shl32 key prefix_length, key_length - prefix_length)
    else mret (key, key_length));
  '(old_data, new_root, pp) ← insert_copy replace_case p key full_prefix (ps_pp s) (ps_new_root s);
  mret (key, key_length, old_data, new_root, pp).

Definition triev2_replace (heaviness : Z) (fuel : nat) (trie_root key key_length : Z) (f : update_fun) (data : Z) : M Z :=
  ok ← triev2_make_assertions heaviness fuel trie_root key_length;
  massert (bool_decide (ok ≠ 0));;
  ap ← get_allocation_point;
  massert (bool_decide (key_length > 0));;
  s ← loop fuel (path_step replace_round)
    (PathState trie_root (shl32 key (32 - key_length)) key_length NULL_WORD NULL_WORD RootSlot);
  massert (bool_decide (ps_key s = 0));;
  data ← (match f with Some f => f (ps_old_data s) data | None => mret data end);
  if bool_decide (ps_old_data s = data) then
    restore_allocation_point ap;;
    mret trie_root
  else
    new_root ← set_slot (ps_pp s) data (ps_new_root s);
    ok ← triev2_make_assertions heaviness fuel new_root key_length;
    massert (bool_decide (ok ≠ 0));;
    mret new_root.

(** * Nodes with a hole

    The node copied last has in the word that [pp] points to what [allocate]
    left there. *)

Definition hole_words (ws : list Z) (b : nat) : list Z := <[b := FIRST_GENERATION_DEADBEEF]> ws.

(** The words of a cell after the copies of a case. *)
Definition copied (old : list Z) (copies : list (Z * Z)) (l : list Z) : list Z :=
  fold_left (λ l '(i, j), <[Z.to_nat i := nth (Z.to_nat j) old NULL_WORD]> l) copies l.

Lemma some_son w : w ≠ NULL_WORD → is_some_son w = true.
Proof. unfold is_some_son. lia. Qed.

(** All ways in which four sons can be there or not. *)
Ltac son_cases ws H4 :=
  let w0 := fresh "w" in let w1 := fresh "w" in let w2 := fresh "w" in let w3 := fresh "w" in
  destruct (four_words ws H4) as (w0 & w1 & w2 & w3 & ->); clear H4;
  destruct (is_some_son w0) eqn:?, (is_some_son w1) eqn:?, (is_some_son w2) eqn:?, (is_some_son w3) eqn:?.
Ltac son_simpl :=
  unfold hole_words, slot, node_words, sons_type, present;
  cbn [List.filter fmap list_fmap list_insert insert take nth app length];
  change (is_some_son FIRST_GENERATION_DEADBEEF) with true;
  change (is_some_son NULL_WORD) with false;
  repeat match goal with E : is_some_son _ = _ |- _ => rewrite E end;
  cbn [List.filter fmap list_fmap list_insert insert take nth app length].

(** What the cases of the switches do. *)
Record case_ok (ws : list Z) (b : nat) (c : node_case) : Prop := {
  case_size_ok : case_size c = 1 + Z.of_nat (length (present (hole_words ws b)));
  case_type_ok : case_type c = sons_type (hole_words ws b);
  case_slot_ok : case_slot c = slot (hole_words ws b) b;
  case_old_ok : case_old c = if is_some_son (nth b ws NULL_WORD) then Some (slot ws b) else None;
  case_bounds : Forall (λ '(i, j), 1 ≤ i < case_size c ∧ 1 ≤ j ≤ Z.of_nat (length (present ws))) (case_copies c);
  case_copied pre h : copied (node_words pre ws) (case_copies c)
    (h :: replicate (Z.to_nat (case_size c) - 1) FIRST_GENERATION_DEADBEEF) = h :: present (hole_words ws b)
}.

Section hole.
Context (ws : list Z) (H4 : length ws = 4%nat) (b : nat) (Hb : (b < 4)%nat).

Lemma length_hole : length (hole_words ws b) = 4%nat.
Proof. unfold hole_words. by rewrite length_insert. Qed.

Lemma present_insert v : is_some_son v = true → present (<[b := v]> ws) ≠ [].
Proof.
  intros Hv. revert b Hb. son_cases ws H4; apply four_cases; unfold present;
    cbn [List.filter list_insert insert]; son_simpl; rewrite ?Hv; done.
Qed.

Lemma present_hole : present (hole_words ws b) ≠ [].
Proof. by apply present_insert. Qed.

Lemma hole_slot pre : 0 < slot (hole_words ws b) b < Z.of_nat (length (node_words pre (hole_words ws b))).
Proof. revert b Hb. son_cases ws H4; apply four_cases; son_simpl; lia. Qed.

(** [*pp = v] fills the hole. *)
Lemma fill_hole pre v : is_some_son v = true →
  <[Z.to_nat (slot (hole_words ws b) b) := v]> (node_words pre (hole_words ws b)) = node_words pre (<[b := v]> ws).
Proof.
  intros Hv. revert b Hb. son_cases ws H4; apply four_cases; son_simpl; rewrite ?Hv; reflexivity.
Qed.

Lemma insert_case_ok : present ws ≠ [] → ∃ c, insert_case (sons_type ws) (Z.of_nat b) = Some c ∧ case_ok ws b c.
Proof.
  intros Hne. revert b Hb. son_cases ws H4; try (exfalso; revert Hne; son_simpl; done); clear Hne; apply four_cases;
    (eexists; split; [son_simpl; reflexivity|]; split; cbn [case_size case_type case_slot case_old case_copies]; son_simpl;
     [reflexivity..|repeat constructor; lia|reflexivity]).
Qed.
End hole.

Lemma replace_case_same : replace_case = insert_case.
Proof. reflexivity. Qed.

(** * Replacing a son *)

Definition node_of (pre : list Z) (g : nat → trie) : trie := Node pre (g 0%nat) (g 1%nat) (g 2%nat) (g 3%nat).
Definition graft (g : nat → trie) (b : nat) (t' : trie) (j : nat) : trie := if decide (j = b) then t' else g j.

(** [t'] is [t] with [o] behind the key [ds]. *)
Definition upd (t : trie) (ds : list Z) (o : option Z) (t' : trie) : Prop :=
  ∀ ds', Forall digit ds' → length ds' = length ds →
    lookup t' ds' = if decide (ds' = ds) then o else lookup t ds'.

Lemma pick_fun (g : nat → trie) j : (j < 4)%nat → pick j (g 0%nat) (g 1%nat) (g 2%nat) (g 3%nat) = g j.
Proof. revert j. by apply four_cases. Qed.

Lemma lookup_node_of pre g b rest : digit b →
  lookup (node_of pre g) (pre ++ b :: rest) = lookup (g (Z.to_nat b)) rest.
Proof.
  intros Hb. unfold digit in Hb. unfold node_of. rewrite (lookup_node _ _ _ _ _ b rest) by apply strip_app.
  by rewrite pick_fun by lia.
Qed.

Lemma lookup_node_of_cases pre g ds : Forall digit ds →
  (∃ b rest, ds = pre ++ b :: rest ∧ digit b ∧ Forall digit rest) ∨
  (lookup (node_of pre g) ds = None ∧ ∀ b rest, ds ≠ pre ++ b :: rest).
Proof.
  intros Hd. destruct (strip pre ds) as [[|b rest]|] eqn:E.
  - right. split; [by simpl; rewrite E|]. intros b rest ->. by rewrite strip_app in E.
  - left. exists b, rest. apply strip_Some in E. rewrite E in Hd. apply Forall_app in Hd as [_ [? ?]%Forall_cons]. done.
  - right. split; [by simpl; rewrite E|]. intros b rest ->. by rewrite strip_app in E.
Qed.

Lemma upd_graft pre g b rest o t t' : digit b →
  (∀ ds', Forall digit ds' → length ds' = length (pre ++ b :: rest) → lookup t ds' = lookup (node_of pre g) ds') →
  upd (g (Z.to_nat b)) rest o t' → upd t (pre ++ b :: rest) o (node_of pre (graft g (Z.to_nat b) t')).
Proof.
  intros Hb Ht Hu ds' Hd Hl. rewrite (Ht ds' Hd Hl).
  destruct (lookup_node_of_cases pre g ds' Hd) as [(b' & rest' & -> & Hb' & Hr)|[E Hne]].
  - rewrite !lookup_node_of by done. unfold graft, digit in *. rewrite !length_app in Hl. simpl in Hl.
    destruct (decide (Z.to_nat b' = Z.to_nat b)) as [E|E].
    + assert (b' = b) as -> by lia. rewrite Hu by (done || lia). apply decide_ext. split; [by intros ->|].
      intros ?%app_inv_head. by simplify_eq.
    + rewrite decide_False; [done|]. intros ?%app_inv_head. by simplify_eq.
  - destruct (decide _) as [->|]; [by destruct (Hne b rest)|].
    destruct (lookup_node_of_cases pre (graft g (Z.to_nat b) t') ds' Hd) as [(b' & rest' & -> & _)|[-> _]]; [|done].
    by destruct (Hne b' rest').
Qed.

Lemma is_trie_graft C q pre ws g b v t' : length ws = 4%nat → (b < 4)%nat →
  C q (node_words pre (<[b := v]> ws)) →
  (∀ j, (j < 4)%nat → j ≠ b → is_trie C (nth j ws NULL_WORD) (g j)) → is_trie C v t' →
  is_trie C q (node_of pre (graft g b t')).
Proof.
  intros H4 Hb Hq Hg Hv.
  assert (Hj : ∀ j, (j < 4)%nat → is_trie C (nth j (<[b := v]> ws) NULL_WORD) (graft g b t' j)).
  { intros j Hj. unfold graft. destruct (decide (j = b)) as [->|Hne].
    - rewrite (nth_lookup_Some _ _ _ v); [done|]. by rewrite list_lookup_insert_eq by lia.
    - rewrite nth_lookup, list_lookup_insert_ne, <- nth_lookup by done. by apply Hg. }
  destruct (four_words (<[b := v]> ws)) as (w0 & w1 & w2 & w3 & E); [by rewrite length_insert|].
  rewrite E in Hq, Hj. exists w0, w1, w2, w3. split; [done|].
  split_and!; [apply (Hj 0%nat)|apply (Hj 1%nat)|apply (Hj 2%nat)|apply (Hj 3%nat)]; lia.
Qed.

Lemma trie_ok_graft n pre g b t' : Forall digit pre → (length pre ≤ 10)%nat → (S (length pre) ≤ n)%nat → (b < 4)%nat →
  t' ≠ Empty → trie_ok (n - S (length pre)) t' →
  (∀ j, (j < 4)%nat → j ≠ b → trie_ok (n - S (length pre)) (g j)) → trie_ok n (node_of pre (graft g b t')).
Proof.
  intros Hpre Hl Hn Hb Hne Hok Hg.
  assert (Hj : ∀ j, (j < 4)%nat → trie_ok (n - S (length pre)) (graft g b t' j)).
  { intros j Hj. unfold graft. destruct (decide _); [done|by apply Hg]. }
  simpl. split_and!; [done..| |apply Hj; lia|apply Hj; lia|apply Hj; lia|apply Hj; lia].
  intros (E0 & E1 & E2 & E3). apply Hne. unfold graft in *.
  clear Hj Hg. revert b Hb E0 E1 E2 E3. by apply (four_cases (λ b, _ → _ → _ → _ → _)).
Qed.

(** * The path under construction *)

Inductive hole := Top | Hole (q : Z) (pre ws : list Z) (b : nat).

Definition hole_cells (h : hole) : list cell :=
  match h with Top => [] | Hole q pre ws b => [(q, node_words pre (hole_words ws b))] end.
Definition filled (h : hole) (v : Z) : list cell :=
  match h with Top => [] | Hole q pre ws b => [(q, node_words pre (<[b := v]> ws))] end.
Definition hole_pp (h : hole) : slot_ptr :=
  match h with Top => RootSlot | Hole q pre ws b => CellSlot q (slot (hole_words ws b) b) end.
Definition hole_root (h : hole) (new_root v : Z) : Z := match h with Top => v | Hole _ _ _ _ => new_root end.
Definition hole_ok (h : hole) : Prop :=
  match h with Top => True | Hole _ _ ws b => length ws = 4%nat ∧ (b < 4)%nat end.

Lemma wp_set_slot s0 s u new h done v new_root (Q : Z → state → Prop) :
  grow s0 s u (new ++ hole_cells h ++ done) → hole_ok h → v ≠ NULL_WORD →
  (∀ s', grow s0 s' u (new ++ filled h v ++ done) → Q (hole_root h new_root v) s') →
  wp (set_slot (hole_pp h) v new_root) Q s.
Proof.
  intros HG Hok Hv HQ. destruct h as [|q pre ws b]; simpl in *; [by apply wp_ret, HQ|].
  destruct Hok as [H4 Hb]. pose proof (hole_slot ws H4 b Hb pre) as Hs.
  apply wp_bind. eapply (wp_wr _ _ _ _ (length new)); [exact HG|by rewrite lookup_app_r, Nat.sub_diag by reflexivity|lia|].
  intros s' HG'. rewrite fill_hole in HG' by (done || by apply some_son).
  rewrite <- (Nat.add_0_r (length new)), insert_app_r in HG'. by apply wp_ret, HQ.
Qed.

(** * Running the cases *)

Section run.
Context (s0 : state) (C : cenv) (HC : holds s0 C).

Lemma grow_C s u cs : grow s0 s u cs → holds s C.
Proof. intros HG. eapply holds_ext; [apply HG|done]. Qed.

(** The copies of a case into the newest cell. *)
Lemma wp_copies p q old copies l s u cs (Q : unit → state → Prop) :
  C p old → grow s0 s u ((q, l) :: cs) →
  Forall (λ '(i, j), 1 ≤ i < Z.of_nat (length l) ∧ 1 ≤ j < Z.of_nat (length old)) copies →
  (∀ s', grow s0 s' u ((q, copied old copies l) :: cs) → Q tt s') →
  wp (foldr (λ '(i, j) rest, w ← rd p j; wr q i w;; rest) (mret tt) copies) Q s.
Proof.
  intros Hp. revert l s. induction copies as [|[i j] copies IH]; intros l s HG Hb HQ; [by apply wp_ret, HQ|].
  apply Forall_cons in Hb as [[Hi Hj] Hb]. simpl.
  apply wp_bind. eapply wp_rd; [by eapply grow_C|lia| |].
  { apply lookup_nth. lia. }
  apply wp_bind. eapply (wp_wr _ _ _ _ 0%nat); [exact HG|done|lia|].
  intros s' HG'. simpl in HG'. apply (IH (<[Z.to_nat i := nth (Z.to_nat j) old NULL_WORD]> l)); [exact HG'| |exact HQ].
  by rewrite length_insert.
Qed.

Lemma length_present ws : length ws = 4%nat → Z.of_nat (length (present ws)) ≤ 4.
Proof. intros H4. pose proof (filter_length_le is_some_son ws). unfold present. lia. Qed.

(** Set the prefix of a new node. *)
Lemma wp_set_prefix s u q t pre ws cs (Q : unit → state → Prop) :
  grow s0 s u ((q, header t 0 :: ws) :: cs) → Forall digit pre → (length pre ≤ 10)%nat →
  (∀ s', grow s0 s' u ((q, header t (prefix_bits pre) :: ws) :: cs) → Q tt s') →
  wp (or_header q (prefix_bits pre)) Q s.
Proof.
  intros HG Hd Hl HQ. apply wp_bind. eapply wp_rd; [by eapply (grow_blk_new _ _ _ _ 0)|lia|done|].
  eapply (wp_wr _ _ _ _ 0%nat); [exact HG|done|simpl; lia|].
  intros s' HG'. simpl in HG'. rewrite header_prefix_lor in HG' by done. by apply HQ.
Qed.

Lemma wp_run_case s u cs p pre ws n t b c (Q : Z * slot_ptr * Z → state → Prop) :
  node_at C p pre ws n t → (b < 4)%nat → case_ok ws b c → grow s0 s u cs → room s0 (u + 5) →
  (∀ q s' u', 0 < q → u < u' ≤ u + 5 → grow s0 s' u' ((q, node_words pre (hole_words ws b)) :: cs) →
    Q (q, CellSlot q (slot (hole_words ws b) b), nth b ws NULL_WORD) s') →
  wp (run_case c p (prefix_bits pre)) Q s.
Proof.
  intros Hat Hb [E1 E2 E3 E4 Hbd Hcp] HG Hroom HQ. pose proof (na_length _ _ _ _ _ _ Hat) as H4.
  pose proof (length_present (hole_words ws b) (length_hole ws H4 b)) as Hlp.
  pose proof (hole_slot ws H4 b Hb pre) as Hs. unfold node_words in Hs. cbn [length] in Hs.
  apply wp_bind. eapply wp_allocate; [exact HG|unfold room in *; lia|rewrite E1; change NUMBER_OF_WORDS_PER_PAGE with 16384; lia|].
  intros q s1 Hq HG1. apply wp_bind. eapply (wp_mono _ (λ r s', r = nth b ws NULL_WORD ∧ s' = s1)).
  { rewrite E4. destruct (is_some_son (nth b ws NULL_WORD)) eqn:Es.
    - eapply wp_rd_son; [by eapply grow_C|exact Hat|done| |done]. intros E. rewrite E in Es. done.
    - apply wp_ret. unfold is_some_son in Es. split; [lia|done]. }
  intros r s' [-> ->]. apply wp_bind. eapply wp_copies; [apply Hat|exact HG1| |].
  { eapply Forall_impl; [exact Hbd|]. intros [i j] [Hi Hj]. unfold node_words. cbn [length]. rewrite length_replicate. lia. }
  intros s2 HG2. rewrite Hcp, E2 in HG2. apply wp_bind. eapply wp_set_prefix; [exact HG2|apply Hat|apply Hat|].
  intros s3 HG3. apply wp_ret. rewrite E3. eapply HQ; [done| |exact HG3]. lia.
Qed.

(** * The invariant of the loops *)

Context (n : nat) (T0 : trie) (ds0 : list Z).

(** Completing the hole [h] with an update of [t] at [ds] completes the new
    trie. *)
Definition plug (h : hole) (new_root : Z) (done : list cell) (t : trie) (ds : list Z) : Prop :=
  ∀ C' v t' o, csub (adds C (filled h v ++ done)) C' → is_trie C' v t' → trie_ok (length ds) t' → t' ≠ Empty →
    v ≠ NULL_WORD → upd t ds o t' →
    ∃ T', is_trie C' (hole_root h new_root v) T' ∧ trie_ok n T' ∧ T' ≠ Empty ∧ upd T0 ds0 o T'.

Record walking (s : state) (p : Z) (t : trie) (ds : list Z) (h : hole) (new_root : Z) (done : list cell) (u : Z) : Prop := {
  walk_grow : grow s0 s u (hole_cells h ++ done);
  walk_hole : hole_ok h;
  walk_plug : plug h new_root done t ds;
  walk_trie : is_trie C p t;
  walk_ok : trie_ok (length ds) t;
  walk_digits : Forall digit ds;
  walk_length : (length ds ≤ 16)%nat;
  walk_lookup : lookup T0 ds0 = lookup t ds;
  walk_used : 0 ≤ u;
  walk_room : u + 5 * Z.of_nat (length ds) + (match t with Empty => 0 | _ => 5 end) ≤ TRIEV2_MAX_ALLOCATION
}.
End run.

(** * The rounds *)

Section rounds.
Context (s0 : state) (C : cenv) (HC : holds s0 C) (n : nat) (T0 : trie) (ds0 : list Z).
Context (Hroom : room s0 TRIEV2_MAX_ALLOCATION).

(** A new node at the end of the path; [g] are the other sons. *)
Lemma plug_step t h new_root done q pre ws b rest g done2 :
  plug C n T0 ds0 h new_root done t (pre ++ b :: rest) → digit b → Forall digit pre → (length pre ≤ 10)%nat →
  length ws = 4%nat → q ≠ NULL_WORD →
  (∀ ds', Forall digit ds' → length ds' = length (pre ++ b :: rest) → lookup t ds' = lookup (node_of pre g) ds') →
  (∀ j, (j < 4)%nat → j ≠ Z.to_nat b → is_trie (adds C done2) (nth j ws NULL_WORD) (g j) ∧ trie_ok (length rest) (g j)) →
  plug C n T0 ds0 (Hole q pre ws (Z.to_nat b)) (hole_root h new_root q) (done2 ++ filled h q ++ done)
    (g (Z.to_nat b)) rest.
Proof.
  intros Hplug Hb Hpre Hl H4 Hq Ht Hg C' v t' o Hsub Hv Hok Hne Hvn Hu. pose proof Hb as Hb4. unfold digit in Hb4.
  assert (Hlen : (length (pre ++ b :: rest) - S (length pre))%nat = length rest) by (rewrite length_app; simpl; lia).
  assert (Hs2 : csub (adds C done2) C').
  { etrans; [|exact Hsub]. apply adds_mono; [done|]. intros c Hc. apply elem_of_cons. right. apply elem_of_app. by left. }
  apply (Hplug C' q (node_of pre (graft g (Z.to_nat b) t')) o); [| | |done|done|].
  - etrans; [|exact Hsub]. apply adds_mono; [done|]. intros c Hc. apply elem_of_cons. right. apply elem_of_app. by right.
  - eapply is_trie_graft; [exact H4|lia| | |exact Hv].
    + apply Hsub. right. simpl. apply list_elem_of_here.
    + intros j Hj Hjb. eapply is_trie_mono; [exact Hs2|]. by apply Hg.
  - apply trie_ok_graft; [done|done|rewrite length_app; simpl; lia|lia|done|by rewrite Hlen|].
    intros j Hj Hjb. rewrite Hlen. by apply Hg.
  - by apply upd_graft.
Qed.

(** The result of a round. *)
Definition after (ds : list Z) (r : round) (s : state) : Prop :=
  ∃ t b rest h done u v new_root, r = (just (b :: rest), 2 * Z.of_nat (length (b :: rest)), v, new_root, hole_pp h) ∧
    digit b ∧ (length rest < length ds)%nat ∧ walking s0 C n T0 ds0 s v t rest h new_root done u.

Definition at_path (p : Z) (ds : list Z) (old new_root : Z) (h : hole) : path_state :=
  PathState p (just ds) (2 * Z.of_nat (length ds)) old new_root (hole_pp h).

(** The rest of the path behind a node. *)
Lemma walk_next s s' p t pre b rest h new_root done u q ws g done2 v u' :
  walking s0 C n T0 ds0 s p t (pre ++ b :: rest) h new_root done u → (length pre ≤ 10)%nat → length ws = 4%nat → q ≠ NULL_WORD →
  (∀ ds', Forall digit ds' → length ds' = length (pre ++ b :: rest) → lookup t ds' = lookup (node_of pre g) ds') →
  (∀ j, (j < 4)%nat → j ≠ Z.to_nat b → is_trie (adds C done2) (nth j ws NULL_WORD) (g j) ∧ trie_ok (length rest) (g j)) →
  is_trie C v (g (Z.to_nat b)) → trie_ok (length rest) (g (Z.to_nat b)) →
  grow s0 s' u' ((q, node_words pre (hole_words ws (Z.to_nat b))) :: done2 ++ filled h q ++ done) →
  u ≤ u' → u' + (match g (Z.to_nat b) with Empty => 0 | _ => 5 end) ≤ u + 5 + (match t with Empty => 0 | _ => 5 end) →
  walking s0 C n T0 ds0 s' v (g (Z.to_nat b)) rest (Hole q pre ws (Z.to_nat b)) (hole_root h new_root q)
    (done2 ++ filled h q ++ done) u'.
Proof.
  intros [HG Hok Hplug Ht Htok Hd Hl Hlk Hu Hr] Hpl H4 Hq Heq Hg Hv Hvok HG' Hu1 Hu2.
  pose proof Hd as [Hdp [Hb Hdr]%Forall_cons]%Forall_app. pose proof Hb as Hb4. unfold digit in Hb4.
  rewrite length_app in Hl, Hr. cbn [length] in Hl, Hr.
  split; [exact HG'|simpl; split; [done|lia]|by eapply plug_step|done|done|done|lia| |lia|].
  - rewrite Hlk, (Heq _ Hd eq_refl). by apply lookup_node_of.
  - lia.
Qed.

Lemma uni_sons ws b : (b < 4)%nat → ws = replicate 4 NULL_WORD →
  uni_cell_type !! b = Some (sons_type (hole_words ws b)).
Proof. intros Hb ->. revert b Hb. by apply four_cases. Qed.

Lemma hole_single pre b : (b < 4)%nat → let ws := replicate 4 NULL_WORD in
  node_words pre (hole_words ws b) = [header (sons_type (hole_words ws b)) (prefix_bits pre); FIRST_GENERATION_DEADBEEF] ∧
  slot (hole_words ws b) b = 1.
Proof. revert b. by apply four_cases. Qed.

(** A new node for an empty position. *)
Lemma wp_insert_fresh s u cs ds (Q : Z * Z * Z → state → Prop) :
  grow s0 s u cs → u + 2 ≤ TRIEV2_MAX_ALLOCATION → Forall digit ds → ds ≠ [] → (length ds ≤ 16)%nat →
  (∀ pre b rest q s', ds = pre ++ b :: rest → (length pre ≤ 10)%nat → 0 < q → 
    grow s0 s' (u + 2) ((q, node_words pre (hole_words (replicate 4 NULL_WORD) (Z.to_nat b))) :: cs) →
    Q (q, just (b :: rest), 2 * Z.of_nat (length (b :: rest))) s') →
  wp (insert_fresh (just ds) (2 * Z.of_nat (length ds))) Q s.
Proof.
  intros HG Hu Hd Hne Hl HQ. unfold insert_fresh. assert (Hr : room s0 (u + 2)) by (unfold room in *; lia).
  assert (Hs : ∀ pre b rest (k : Z → M (Z * Z * Z)), ds = pre ++ b :: rest →
    (∀ q s', 0 < q → grow s0 s' (u + 2) ((q, node_words [] (hole_words (replicate 4 NULL_WORD) (Z.to_nat b))) :: cs) →
      wp (k q) Q s') →
    wp (t ← tab uni_cell_type (shr32 (just (b :: rest)) 30); new_p ← allocate 2 t; k new_p) Q s).
  { intros pre b rest k E Hk. subst ds. apply Forall_app in Hd as [_ Hd]. rewrite length_app in Hl.
    pose proof Hd as [Hb Hdr]%Forall_cons. pose proof Hb as Hb4. unfold digit in Hb4.
    rewrite just_digit by (done || lia). apply wp_bind. eapply wp_tab; [lia|by apply uni_sons; [lia|]|].
    apply wp_bind. eapply wp_allocate; [exact HG|done|by vm_compute|]. intros q s' Hq HG'. apply Hk; [done|].
    destruct (hole_single [] (Z.to_nat b) ltac:(lia)) as [E _]. rewrite E. done. }
  case_bool_decide as Hlong.
  - set (m := if decide (length ds < 11)%nat then (length ds - 1)%nat else 10%nat).
    assert (Em : (if bool_decide (2 * Z.of_nat (length ds) < 22) then 2 * Z.of_nat (length ds) - 2 else 20) = 2 * Z.of_nat m).
    { unfold m. case_bool_decide; destruct (decide _); lia. }
    rewrite Em. assert (Hm : (0 < m ≤ 10)%nat ∧ (m < length ds)%nat) by (unfold m; destruct (decide _); lia).
    assert (Ed : ∃ b rest, ds = take m ds ++ b :: rest).
    { destruct (drop m ds) as [|b rest] eqn:E; [apply (f_equal length) in E; rewrite length_drop in E; simpl in E; lia|].
      exists b, rest. by rewrite <- E, take_drop. }
    destruct Ed as (b & rest & Ed). assert (Hlp : length (take m ds) = m) by (rewrite length_take; lia).
    set (pre := take m ds) in *. clearbody pre. rewrite <- Hlp.
    pose proof Hd as Hd'. rewrite Ed in Hd'. apply Forall_app in Hd' as [Hdp Hdr]. pose proof Hl as Hl'. rewrite Ed in Hl'.
    cbn zeta. replace (just ds) with (just (pre ++ b :: rest)) by (by rewrite Ed). rewrite just_drop, just_take by done.
    eapply Hs; [exact Ed|]. intros q s' Hq HG'. assert (Hlp10 : (length pre ≤ 10)%nat) by lia.
    rewrite (prefix_lor pre Hdp Hlp10). apply wp_bind.
    pose proof Hdr as [Hb _]%Forall_cons. unfold digit in Hb.
    destruct (hole_single [] (Z.to_nat b) ltac:(lia)) as [E _], (hole_single pre (Z.to_nat b) ltac:(lia)) as [E' _].
    rewrite E in HG'. eapply wp_set_prefix; [exact HG'|done|lia|]. intros s2 HG2. apply wp_ret.
    replace (2 * Z.of_nat (length ds) - 2 * Z.of_nat (length pre)) with (2 * Z.of_nat (length (b :: rest)))
      by (rewrite Ed, length_app; lia).
    eapply HQ; [exact Ed|lia|exact Hq|]. rewrite E'. exact HG2.
  - destruct ds as [|b [|]]; [by destruct Hne| |cbn [length] in Hlong; lia]. cbn zeta. apply (Hs []); [done|].
    intros q s' Hq HG'. apply wp_ret. apply (HQ [] b [] q s'); [done|simpl; lia|done|exact HG'].
Qed.

(** A node on the path is copied. *)
Lemma wp_insert_copy s p t pre b rest ws h new_root done u (Q : Z * Z * slot_ptr → state → Prop) :
  walking s0 C n T0 ds0 s p t (pre ++ b :: rest) h new_root done u →
  node_at C p pre ws (length rest) t → t = node_of pre (sons t) →
  (∀ v h' r' done' u' s', walking s0 C n T0 ds0 s' v (sons t (Z.to_nat b)) rest h' r' done' u' →
    Q (v, r', hole_pp h') s') →
  wp (insert_copy insert_case p (just (b :: rest)) (prefix_bits pre) (hole_pp h) new_root) Q s.
Proof.
  intros Hw Hat Ht HQ. pose proof Hw as [HG Hok _ _ _ Hd Hl _ Hu Hr].
  pose proof Hd as [_ Hdr]%Forall_app. pose proof Hdr as [Hb Hdr2]%Forall_cons. pose proof Hb as Hb4. unfold digit in Hb4.
  rewrite length_app in Hl, Hr. cbn [length] in Hl, Hr. pose proof (grow_C s0 C HC _ _ _ HG) as HCs.
  assert (Hr5 : u + 5 ≤ TRIEV2_MAX_ALLOCATION) by (destruct t; [discriminate Ht..|]; cbv iota in Hr; lia).
  destruct (insert_case_ok ws (na_length _ _ _ _ _ _ Hat) (Z.to_nat b) ltac:(lia) (na_present _ _ _ _ _ _ Hat)) as (c & Ec & Hc).
  rewrite Z2Nat.id in Ec by lia.
  apply wp_bind. eapply wp_node_type; [exact HCs|exact Hat|].
  apply wp_bind. rewrite just_digit by (done || (simpl; lia)). eapply wp_of_option; [exact Ec|].
  assert (Hbn : (Z.to_nat b < 4)%nat) by lia.
  apply wp_bind. eapply wp_run_case; [exact HC|exact Hat|exact Hbn|exact Hc|exact HG|unfold room in *; lia|].
  intros q s1 u1 Hq Hu1 HG1. apply wp_bind.
  eapply (wp_set_slot _ _ _ [_]); [exact HG1|done|unfold NULL_WORD; lia|].
  intros s2 HG2. apply wp_ret.
  apply (HQ _ (Hole q pre ws (Z.to_nat b)) _ ([] ++ filled h q ++ done) u1).
  destruct (na_sons _ _ _ _ _ _ Hat (Z.to_nat b) ltac:(lia)) as (Hs & Hsok & _).
  eapply walk_next; [exact Hw|apply Hat|apply Hat|unfold NULL_WORD; lia| | |exact Hs|exact Hsok|exact HG2|lia|].
  - intros ds' _ _. by rewrite <- Ht.
  - intros j Hj _. destruct (na_sons _ _ _ _ _ _ Hat j Hj) as (Hsj & Hsokj & _). split; [|done].
    eapply is_trie_mono; [|exact Hsj]. apply adds_base.
  - destruct t; [discriminate Ht..|]. destruct (sons _ (Z.to_nat b)); cbv iota; lia.
Qed.

(** ** Splitting a prefix *)

Lemma first_difference (pre ds : list Z) : (length pre < length ds)%nat → take (length pre) ds ≠ pre →
  ∃ c x a y b, pre = c ++ x :: a ∧ ds = c ++ y :: b ∧ x ≠ y ∧ (length a < length b)%nat.
Proof.
  revert ds. induction pre as [|x a IH]; intros ds Hl Hne; [done|].
  destruct ds as [|y b]; [simpl in Hl; lia|]. cbn [length take] in Hl, Hne.
  destruct (decide (x = y)) as [->|Hxy].
  - destruct (IH b) as (c & x' & a' & y' & b' & -> & -> & Hx' & Hl'); [lia|congruence|].
    by exists (y :: c), x', a', y', b'.
  - exists [], x, a, y, b. split_and!; [done..|lia].
Qed.

Section digit_at.
Context (c a : list Z) (x : Z) (Ha : Forall digit a) (Hx : digit x).

Lemma num_low : Z.land (num (c ++ x :: a)) (Z.shiftl 1 (2 * Z.of_nat (length a)) - 1) = num a.
Proof.
  rewrite Z.shiftl_mul_pow2, Z.mul_1_l, land_ones_mod by lia. rewrite num_app, num_cons. cbn [length].
  rewrite pow4_S, <- pow4. pose proof (num_bound a Ha) as B. pose proof (pow4_pos (length a)).
  replace (num c * (4 * 4 ^ Z.of_nat (length a)) + (x * 4 ^ Z.of_nat (length a) + num a))
    with (num a + (4 * num c + x) * 4 ^ Z.of_nat (length a)) by ring.
  rewrite Z_mod_plus_full. by apply Z.mod_small.
Qed.

Lemma num_digit_at : Z.land (shr32 (num (c ++ x :: a)) (2 * Z.of_nat (length a))) 0x3 = x.
Proof.
  unfold shr32. rewrite Z.shiftr_div_pow2 by lia. rewrite num_app, num_cons. cbn [length].
  rewrite pow4_S, <- pow4. pose proof (num_bound a Ha) as B. pose proof (pow4_pos (length a)).
  replace (num c * (4 * 4 ^ Z.of_nat (length a)) + (x * 4 ^ Z.of_nat (length a) + num a))
    with ((x + num c * 4) * 4 ^ Z.of_nat (length a) + num a) by ring.
  rewrite Z.div_add_l, (Z.div_small (num a)), Z.add_0_r by lia.
  change 0x3 with (2 ^ 2 - 1). rewrite land_ones_mod by lia. change (2 ^ 2) with 4.
  rewrite Z_mod_plus_full. by apply Z.mod_small.
Qed.
End digit_at.

(** The sons of the new node: [v] at [x] and the hole at [y]. *)
Definition pair_words (x : nat) (v : Z) : list Z := <[x := v]> (replicate 4 NULL_WORD).

Record split_node (x y : nat) (v : Z) : Prop := {
  split_type : ∃ r, bi_cell_type !! y = Some r ∧ r !! x = Some (sons_type (hole_words (pair_words x v) y));
  split_size : cell_size !! Z.to_nat (type_index (sons_type (hole_words (pair_words x v) y))) = Some 3;
  split_offset : ∃ r, offset !! Z.to_nat (type_index (sons_type (hole_words (pair_words x v) y))) = Some r ∧
    r !! x = Some (slot (hole_words (pair_words x v) y) x) ∧ r !! y = Some (slot (hole_words (pair_words x v) y) y);
  split_index : 0 ≤ type_index (sons_type (hole_words (pair_words x v) y));
  split_slot : 0 < slot (hole_words (pair_words x v) y) x < 3;
  split_words h : <[Z.to_nat (slot (hole_words (pair_words x v) y) x) := v]>
    [h; FIRST_GENERATION_DEADBEEF; FIRST_GENERATION_DEADBEEF] = h :: present (hole_words (pair_words x v) y)
}.

Lemma split_node_ok x y v : (x < 4)%nat → (y < 4)%nat → x ≠ y → is_some_son v = true → split_node x y v.
Proof.
  intros Hx Hy Hxy Hv. revert y Hy Hxy. revert x Hx.
  apply (four_cases (λ x, ∀ y, (y < 4)%nat → x ≠ y → split_node x y v));
    apply (four_cases (λ y, _ ≠ y → split_node _ y v)); intros Hxy; try done; clear Hxy;
    (split; unfold pair_words; cbn [replicate]; son_simpl; [eexists; split; reflexivity|reflexivity|
      eexists; split; [reflexivity|split; reflexivity]|by vm_compute|lia|intros h; reflexivity]).
Qed.

Lemma wp_copy_sons s u q h l0 cs p h' l (Q : unit → state → Prop) :
  C p (h' :: l) → grow s0 s u ((q, h :: l0) :: cs) → length l0 = length l →
  (∀ s', grow s0 s' u ((q, h :: l) :: cs) → Q tt s') →
  wp (copy_sons q p (length l)) Q s.
Proof.
  intros Hp HG Hl HQ. unfold copy_sons.
  apply (wp_for (λ i _ s1, grow s0 s1 u ((q, h :: take i l ++ drop i l0) :: cs))).
  - by rewrite drop_0.
  - intros i [] s1 Hi HG1. destruct (lookup_lt_is_Some_2 l i) as [w Ew]; [done|].
    apply wp_bind. eapply wp_rd; [by eapply (grow_C s0 C HC), Hp|lia| |].
    { replace (Z.to_nat (1 + Z.of_nat i)) with (S i) by lia. exact Ew. }
    eapply (wp_wr _ _ _ _ 0%nat); [exact HG1|done|cbn [length]; rewrite length_app, length_take, length_drop; lia|].
    intros s2 HG2. replace (Z.to_nat (1 + Z.of_nat i)) with (S i) in HG2 by lia. simpl in HG2.
    destruct (lookup_lt_is_Some_2 l0 i) as [w0 Ew0]; [lia|].
    rewrite (drop_S _ w0), insert_app_r_alt in HG2 by (done || rewrite length_take; lia).
    rewrite length_take, Nat.min_l, Nat.sub_diag in HG2 by lia. simpl in HG2.
    rewrite (take_S_r _ _ w) by done. by rewrite <- app_assoc.
  - intros [] s1 HG1. apply HQ. rewrite take_ge, drop_ge, app_nil_r in HG1 by lia. done.
Qed.

(** The old node behind the new one. *)
Definition split_sons (x : nat) (old : trie) (j : nat) : trie := if decide (j = x) then old else Empty.

Lemma strip_cons x a b r : strip (x :: a) (b :: r) = if decide (b = x) then strip a r else None.
Proof.
  unfold strip. cbn [length take drop]. destruct (decide (b = x)) as [->|Hne].
  - apply decide_ext. split; [by intros [= ->]|by intros ->].
  - rewrite decide_False; [done|]. by intros [= -> _].
Qed.

Lemma split_lookup c x a s1 s2 s3 s4 ds : digit x → Forall digit ds →
  lookup (Node (c ++ x :: a) s1 s2 s3 s4) ds =
  lookup (node_of c (split_sons (Z.to_nat x) (Node a s1 s2 s3 s4))) ds.
Proof.
  intros Hx Hd. destruct (lookup_node_of_cases c (split_sons (Z.to_nat x) (Node a s1 s2 s3 s4)) ds Hd)
    as [(b & rest & -> & Hb & _)|[-> Hne]].
  - rewrite lookup_node_of by done. unfold split_sons, digit in *.
    assert (E : strip (c ++ x :: a) (c ++ b :: rest) = if decide (b = x) then strip a rest else None).
    { rewrite <- strip_cons. destruct (strip (x :: a) (b :: rest)) as [r|] eqn:E.
      - apply strip_Some in E. rewrite E, app_assoc. apply strip_app.
      - destruct (strip (c ++ _) _) as [r|] eqn:E'; [|done]. apply strip_Some in E'.
        rewrite <- app_assoc in E'. apply app_inv_head in E'. by rewrite E', (strip_app (x :: a)) in E. }
    destruct (decide (b = x)) as [->|Hbx].
    + rewrite decide_True by done. simpl. by rewrite E.
    + rewrite decide_False by lia. simpl. by rewrite E.
  - simpl. destruct (strip _ _) as [r|] eqn:E; [|done]. apply strip_Some in E.
    destruct (Hne x (a ++ r)). by rewrite E, <- app_assoc.
Qed.

(** The header of the new node, which has a prefix if there are common digits. *)
Lemma wp_split_header s u q t ws cs c y rest (Q : Z * Z → state → Prop) :
  grow s0 s u ((q, header t 0 :: ws) :: cs) → Forall digit (c ++ y :: rest) → (length c ≤ 10)%nat →
  (length (c ++ y :: rest) ≤ 16)%nat →
  (∀ s', grow s0 s' u ((q, header t (prefix_bits c) :: ws) :: cs) →
    Q (just (y :: rest), 2 * Z.of_nat (length (y :: rest))) s') →
  wp (if bool_decide (2 * Z.of_nat (length c) > 0) then
      or_header q (Z.lor (shl32 (2 * Z.of_nat (length c)) 19)
        (shr32 (just (c ++ y :: rest)) (32 - 2 * Z.of_nat (length c))));;
      mret (just (y :: rest),
        2 * Z.of_nat (length (c ++ y :: rest)) - 2 * Z.of_nat (length c))
    else mret (just (c ++ y :: rest), 2 * Z.of_nat (length (c ++ y :: rest)))) Q s.
Proof.
  intros HG Hd Hc Hl HQ. pose proof Hd as [Hdc Hdr]%Forall_app. case_bool_decide as E.
  - rewrite just_take, prefix_lor by done. apply wp_bind.
    eapply wp_set_prefix; [exact HG|done|done|]. intros s' HG'. apply wp_ret.
    replace (2 * Z.of_nat (length (c ++ y :: rest)) - 2 * Z.of_nat (length c)) with (2 * Z.of_nat (length (y :: rest)))
      by (rewrite length_app; lia). by apply HQ.
  - destruct c; [|cbn [length] in E; lia]. apply wp_ret. by apply HQ.
Qed.

(** A cell with the same sons and another prefix. *)
Lemma same_sons C1 C' p q pre l ws m s1 s2 s3 s4 :
  csub C1 C' → node_at C1 p pre ws m (Node pre s1 s2 s3 s4) → C' q (node_words l ws) →
  is_trie C' q (Node l s1 s2 s3 s4).
Proof.
  intros Hsub Hat Hq. destruct (four_words ws) as (w0 & w1 & w2 & w3 & ->); [apply Hat|].
  exists w0, w1, w2, w3. split; [done|].
  assert (Hj : ∀ j, (j < 4)%nat → is_trie C' (nth j [w0; w1; w2; w3] NULL_WORD) (pick j s1 s2 s3 s4)).
  { intros j Hj. eapply is_trie_mono; [exact Hsub|]. by apply (na_sons _ _ _ _ _ _ Hat). }
  split_and!; [apply (Hj 0%nat)|apply (Hj 1%nat)|apply (Hj 2%nat)|apply (Hj 3%nat)]; lia.
Qed.

Lemma split_ok c x a y rest s1 s2 s3 s4 :
  trie_ok (length (c ++ y :: rest)) (Node (c ++ x :: a) s1 s2 s3 s4) →
  trie_ok (length rest) (Node a s1 s2 s3 s4).
Proof.
  intros ([_ [_ Ha]%Forall_cons]%Forall_app & Hl & Hn & Hne & Hok). rewrite !length_app in *. cbn [length] in *.
  split; [done|]. split; [lia|]. split; [lia|]. split; [done|].
  by replace (length rest - S (length a))%nat
    with (length c + S (length rest) - S (length c + S (length a)))%nat by lia.
Qed.

Lemma wp_insert_split s p t pre ds ws h new_root done u (Q : Z * Z * Z * slot_ptr → state → Prop) :
  walking s0 C n T0 ds0 s p t ds h new_root done u →
  (length pre < length ds)%nat → node_at C p pre ws (length ds - S (length pre)) t → (∃ s1 s2 s3 s4, t = Node pre s1 s2 s3 s4) →
  take (length pre) ds ≠ pre →
  (∀ y rest h' r' done' u' s', digit y → (length rest < length ds)%nat →
    walking s0 C n T0 ds0 s' NULL_WORD Empty rest h' r' done' u' →
    Q (just (y :: rest), 2 * Z.of_nat (length (y :: rest)), r', hole_pp h') s') →
  wp (insert_split p (just ds) (2 * Z.of_nat (length ds)) (2 * Z.of_nat (length pre)) (num pre)
    (num (take (length pre) ds)) (hole_pp h) new_root) Q s.
Proof.
  intros Hw Hlp Hat (s1 & s2 & s3 & s4 & Et) Hne HQ.
  destruct (first_difference pre ds Hlp Hne) as (c & x & a & y & rest & Epre & Eds & Hxy & Hlr).
  pose proof Hw as [HG Hok _ _ Htok Hd Hl _ Hu Hr]. pose proof (na_prefix _ _ _ _ _ _ Hat) as Hdp.
  pose proof (na_prefix_length _ _ _ _ _ _ Hat) as Hlp10.
  pose proof (na_length _ _ _ _ _ _ Hat) as H4. pose proof (na_present _ _ _ _ _ _ Hat) as Hpr.
  pose proof (length_present ws H4) as Hlw. pose proof (grow_C s0 C HC _ _ _ HG) as HCs.
  assert (Hone : (1 ≤ length (present ws))%nat) by (destruct (present ws); simpl; [done|lia]).
  subst pre ds. pose proof Hd as [Hdc [Hy Hdr]%Forall_cons]%Forall_app. pose proof Hdp as [_ [Hx Hda]%Forall_cons]%Forall_app.
  pose proof Hx as Hx4. pose proof Hy as Hy4. unfold digit in Hx4, Hy4.
  assert (Hr8 : u + 8 ≤ TRIEV2_MAX_ALLOCATION).
  { rewrite Et in Hr. cbv iota in Hr. rewrite length_app in Hr. cbn [length] in Hr. lia. }
  assert (Ekey : take (length (c ++ x :: a)) (c ++ y :: rest) = c ++ y :: take (length a) rest).
  { rewrite length_app. rewrite take_app_add. done. }
  assert (Hlc : (length c + S (length a) ≤ 10)%nat) by (rewrite length_app in Hlp10; simpl in Hlp10; lia).
  assert (Hlcr : (length c + S (length rest) ≤ 16)%nat) by (rewrite length_app in Hl; simpl in Hl; lia).
  unfold insert_split. rewrite Ekey.
  apply wp_bind. eapply wp_node_type; [exact HCs|exact Hat|].
  apply wp_bind. eapply wp_tab; [by apply type_index_range|by apply size_sons|].
  apply wp_bind. eapply wp_allocate; [exact HG|unfold room in *; lia|change NUMBER_OF_WORDS_PER_PAGE with 16384; lia|].
  intros old_p s1' Hold HG1. apply wp_bind.
  destruct (highest_different c x y a (take (length a) rest)) as (hb & Ehb & Elow);
    [done..|by apply Forall_take|rewrite length_take; lia|rewrite length_app; simpl; lia|done|].
  eapply wp_of_option; [exact Ehb|]. change (Z.lnot 0x1) with (Z.lnot 1). rewrite Elow. cbn zeta.
  rewrite num_low, num_digit_at, prefix_lor by (done || lia).
  apply wp_bind. eapply wp_set_prefix; [exact HG1|done|lia|]. intros s2' HG2.
  replace (Z.to_nat (1 + Z.of_nat (length (present ws)) - 1)) with (length (present ws)) by lia.
  replace (Z.to_nat (1 + Z.of_nat (length (present ws))) - 1)%nat with (length (present ws)) in HG2 by lia.
  apply wp_bind. eapply wp_copy_sons; [apply Hat|exact HG2|by rewrite length_replicate|]. intros s3' HG3.
  change (header (sons_type ws) (prefix_bits a) :: present ws) with (node_words a ws) in HG3.
  replace (2 * Z.of_nat (length (c ++ x :: a)) - (2 + 2 * Z.of_nat (length a))) with (2 * Z.of_nat (length c))
    by (rewrite length_app; simpl; lia).
  assert (Hdyr : Forall digit (y :: rest)) by (by constructor).
  rewrite just_drop, just_digit by (done || (simpl; lia)).
  assert (Hos : is_some_son old_p = true) by (apply some_son; unfold NULL_WORD; lia).
  destruct (split_node_ok (Z.to_nat x) (Z.to_nat y) old_p ltac:(lia) ltac:(lia) ltac:(lia) Hos)
    as [(rb & Erb & Erx) Esz (ro & Ero & Eox & Eoy) Hti Hsl Hwords].
  set (W := hole_words (pair_words (Z.to_nat x) old_p) (Z.to_nat y)) in *.
  apply wp_bind. eapply wp_tab2; [lia|lia|exact Erb|exact Erx|].
  apply wp_bind. eapply wp_tab; [exact Hti|exact Esz|]. apply wp_bind, wp_assert; [by apply bool_decide_eq_true|].
  apply wp_bind. eapply wp_allocate; [exact HG3|unfold room in *; lia|by vm_compute|].
  intros q s4' Hq HG4. apply wp_bind. eapply wp_split_header; [exact HG4|done|lia|done|]. intros s5' HG5.
  apply wp_bind. eapply wp_tab2; [exact Hti|lia|exact Ero|exact Eox|].
  apply wp_bind, wp_assert; [apply bool_decide_eq_true; lia|].
  apply wp_bind. eapply (wp_wr _ _ _ _ 0%nat); [exact HG5|done|simpl; lia|]. intros s6' HG6.
  change (Z.to_nat 3 - 1)%nat with 2%nat in HG6. cbn [replicate] in HG6. rewrite Hwords in HG6. simpl in HG6.
  apply wp_bind. eapply (wp_set_slot _ _ _ [_; _]); [exact HG6|done|unfold NULL_WORD; lia|]. intros s7' HG7.
  apply wp_bind. rewrite just_digit by (done || (simpl; lia)). eapply wp_tab2; [exact Hti|lia|exact Ero|exact Eoy|].
  apply wp_ret. eapply (HQ y rest (Hole q c (pair_words (Z.to_nat x) old_p) (Z.to_nat y))); [done|rewrite length_app; simpl; lia|].
  assert (Hg : split_sons (Z.to_nat x) (Node a s1 s2 s3 s4) (Z.to_nat y) = Empty)
    by (unfold split_sons; rewrite decide_False by lia; done).
  rewrite <- Hg. eapply (walk_next _ _ _ _ _ _ _ _ _ _ _ _ _ (split_sons (Z.to_nat x) (Node a s1 s2 s3 s4)) [_]);
    [exact Hw|lia|unfold pair_words; by rewrite length_insert|unfold NULL_WORD; lia| | |by rewrite Hg|by rewrite Hg|exact HG7|lia|].
  - intros ds' Hds' _. rewrite Et. by apply split_lookup.
  - intros j Hj Hjy. unfold split_sons, pair_words. destruct (decide (j = Z.to_nat x)) as [->|Hjx].
    + rewrite (nth_lookup_Some _ _ _ old_p) by (apply list_lookup_insert_eq; simpl; lia).
      split; [|rewrite Et in Htok; by eapply split_ok]. rewrite Et in Hat. eapply same_sons; [apply adds_base|exact Hat|].
      right. apply list_elem_of_here.
    + rewrite nth_lookup, list_lookup_insert_ne by done. rewrite lookup_replicate_2 by lia. done.
  - rewrite Hg, Et. lia.
Qed.

(** The fields of the low bits of a header. *)
Lemma prefix_bits_length pre : Forall digit pre → (length pre ≤ 10)%nat →
  Z.land (shr32 (prefix_bits pre) 19) 0x1E = 2 * Z.of_nat (length pre).
Proof. intros Hd Hl. by apply (low_length pre Hd Hl 0). Qed.

Lemma prefix_bits_num pre : Forall digit pre → (length pre ≤ 10)%nat → Z.land (prefix_bits pre) NODE_PREFIX_MASK = num pre.
Proof.
  intros Hd Hl. pose proof (num_prefix_bound pre Hd Hl) as B. change NODE_PREFIX_MASK with (2 ^ 20 - 1).
  rewrite land_ones_mod by lia. unfold prefix_bits. rewrite Z.add_comm, Z_mod_plus_full. by apply Z.mod_small.
Qed.

(** What a round starts from, where there is a node. *)
Lemma walking_node s p t ds h new_root done u :
  walking s0 C n T0 ds0 s p t ds h new_root done u → ds ≠ [] → p ≠ NULL_PTR →
  ∃ pre ws, node_at C p pre ws (length ds - S (length pre)) t ∧ (length pre < length ds)%nat ∧
    (∃ s1 s2 s3 s4, t = Node pre s1 s2 s3 s4) ∧ blk s p (node_words pre ws).
Proof.
  intros [HG _ _ Ht Hok _ _ _ _ _] Hne Hp. destruct ds as [|d ds]; [by destruct Hne|].
  destruct (trie_ok_S _ _ Hok) as [->|(pre & s1 & s2 & s3 & s4 & ->)]; [by destruct Hp|].
  destruct (is_trie_node _ _ _ _ _ _ _ _ _ HC Hok Ht) as (Hl & ws & Hat).
  exists pre, ws. split; [exact Hat|]. split; [lia|]. split; [eauto|]. eapply node_blk; [by eapply grow_C|exact Hat].
Qed.

(** The copy of the node and what follows. *)
Lemma wp_copied_round s p t pre b rest ws h new_root done u kl :
  walking s0 C n T0 ds0 s p t (pre ++ b :: rest) h new_root done u →
  node_at C p pre ws (length (pre ++ b :: rest) - S (length pre)) t → (∃ s1 s2 s3 s4, t = Node pre s1 s2 s3 s4) →
  kl = 2 * Z.of_nat (length (b :: rest)) →
  wp ('(old_data, new_root, pp) ← insert_copy insert_case p (just (b :: rest)) (prefix_bits pre) (hole_pp h) new_root;
      mret (just (b :: rest), kl, old_data, new_root, pp)) (after (pre ++ b :: rest)) s.
Proof.
  intros Hw Hat (s1 & s2 & s3 & s4 & Et) ->. apply wp_bind.
  assert (El : (length (pre ++ b :: rest) - S (length pre) = length rest)%nat) by (rewrite length_app; simpl; lia).
  rewrite El in Hat. eapply wp_insert_copy; [exact Hw|exact Hat|by rewrite Et|].
  intros v h' r' done' u' s' Hw'. apply wp_ret. exists (sons t (Z.to_nat b)), b, rest, h', done', u', v, r'.
  split; [done|]. split; [|split; [rewrite length_app; simpl; lia|exact Hw']].
  pose proof (walk_digits _ _ _ _ _ _ _ _ _ _ _ _ _ Hw) as [_ [Hb _]%Forall_cons]%Forall_app. exact Hb.
Qed.

Lemma wp_insert_round s p t ds old h new_root done u :
  walking s0 C n T0 ds0 s p t ds h new_root done u → ds ≠ [] → (p = NULL_PTR → old = NULL_WORD) →
  wp (insert_round (at_path p ds old new_root h)) (after ds) s.
Proof.
  intros Hw Hne Hold. pose proof Hw as [HG Hok _ Ht Htok Hd Hl _ Hu Hr].
  unfold insert_round, at_path. cbn [ps_p ps_key ps_key_length ps_pp ps_new_root ps_old_data]. cbn zeta.
  case_bool_decide as Hp.
  - rewrite (Hold Hp). assert (Et : t = Empty) by (by eapply (is_trie_null _ _ _ _ _ HC Htok Ht)).
    rewrite Et in Hw, Hr. apply wp_bind. eapply wp_insert_fresh; [exact HG| |done|done|done|].
    { destruct ds; [by destruct Hne|]. cbv iota in Hr. cbn [length] in Hr. lia. }
    intros pre b rest q s1 Eds Hpl Hq HG1. apply wp_bind. rewrite Eds in Hw, Hd |- *.
    pose proof Hd as [_ [Hb _]%Forall_cons]%Forall_app. pose proof Hb as Hb4. unfold digit in Hb4.
    eapply (wp_set_slot _ _ _ [_]); [exact HG1|done|unfold NULL_WORD; lia|]. intros s2 HG2. apply wp_ret.
    destruct (hole_single pre (Z.to_nat b) ltac:(lia)) as [_ Eslot].
    eexists Empty, b, rest, (Hole q pre (replicate 4 NULL_WORD) (Z.to_nat b)), ([] ++ filled h q ++ done), (u + 2), NULL_WORD, _.
    split; [cbn [hole_pp]; by rewrite Eslot|]. split; [done|]. split; [rewrite length_app; simpl; lia|].
    eapply (walk_next _ _ _ _ _ _ _ _ _ _ _ _ _ (λ _, Empty)); [exact Hw|done|done|unfold NULL_WORD; lia| | |done|done|exact HG2|lia|cbv beta iota; lia].
    + intros ds' Hd' _. by destruct (lookup_node_of_cases pre (λ _, Empty) ds' Hd') as [(b' & r' & -> & Hb' & _)|[-> _]];
        [rewrite lookup_node_of|].
    + intros j Hj _. by rewrite nth_lookup, lookup_replicate_2 by lia.
  - destruct (walking_node _ _ _ _ _ _ _ _ Hw Hne Hp) as (pre & ws & Hat & Hlp & Et & Hblk).
    pose proof (na_prefix _ _ _ _ _ _ Hat) as Hdp. pose proof (na_prefix_length _ _ _ _ _ _ Hat) as Hlp10.
    apply wp_bind. eapply wp_rd; [exact Hblk|done|done|]. rewrite header_full_prefix by done.
    assert (Hz : prefix_bits pre = 0 ↔ pre = []) by (by apply prefix_bits_zero). case_bool_decide as Epre.
    + rewrite prefix_bits_length, prefix_bits_num by done.
      destruct (prefix_eq _ _ _ _ _ _ Hat ds Hd Hl Hlp) as [Ek Eq]. rewrite Ek. case_bool_decide as Ekey.
      * apply wp_bind. eapply wp_insert_split; [exact Hw|done|exact Hat|done|intros E; apply Ekey; by apply Eq|].
        intros y rest h' r' done' u' s' Hy Hlr Hw'. apply wp_ret.
        by exists Empty, y, rest, h', done', u', NULL_WORD, r'.
      * assert (Etake : take (length pre) ds = pre) by exact (proj1 Eq Ekey).
        destruct (drop (length pre) ds) as [|b rest] eqn:Ed.
        { apply (f_equal length) in Ed. rewrite length_drop in Ed. simpl in Ed. lia. }
        assert (Eds : ds = pre ++ b :: rest) by (rewrite <- Etake at 1; rewrite <- Ed; by rewrite take_drop).
        rewrite Eds in Hw, Hat, Hd, Hl |- *. pose proof Hd as [_ Hdr]%Forall_app. rewrite just_drop by done.
        eapply wp_copied_round; [exact Hw|exact Hat|exact Et|]. rewrite length_app. lia.
    + apply Hz in Epre. subst pre. destruct ds as [|b rest]; [by destruct Hne|].
      eapply (wp_copied_round s p t [] b rest ws); [exact Hw|exact Hat|exact Et|done].
Qed.

(** The rounds of [triev2_replace], where the key is there. *)
Lemma wp_replace_round s p t ds old h new_root done u d :
  walking s0 C n T0 ds0 s p t ds h new_root done u → ds ≠ [] → lookup t ds = Some d →
  wp (replace_round (at_path p ds old new_root h)) (after ds) s.
Proof.
  intros Hw Hne Hlk. pose proof Hw as [HG Hok _ Ht Htok Hd Hl _ Hu Hr].
  unfold replace_round, at_path. cbn [ps_p ps_key ps_key_length ps_pp ps_new_root ps_old_data]. cbn zeta.
  assert (Hp : p ≠ NULL_PTR).
  { intros Hp. apply (is_trie_null _ _ _ _ _ HC Htok Ht) in Hp. by rewrite Hp in Hlk. }
  apply wp_bind, wp_assert; [by apply bool_decide_eq_true|].
  destruct (walking_node _ _ _ _ _ _ _ _ Hw Hne Hp) as (pre & ws & Hat & Hlp & Et & Hblk).
  pose proof (na_prefix _ _ _ _ _ _ Hat) as Hdp. pose proof (na_prefix_length _ _ _ _ _ _ Hat) as Hlp10.
  apply wp_bind. eapply wp_rd; [exact Hblk|done|done|]. rewrite header_full_prefix by done.
  destruct Et as (s1 & s2 & s3 & s4 & Et). rewrite Et in Hlk.
  destruct (lookup_son _ _ _ _ _ _ _ Hlk) as (b & rest & Eds & _). rewrite Eds in Hw, Hat, Hd, Hl |- *.
  pose proof Hd as [_ Hdr]%Forall_app. rewrite replace_case_same.
  assert (Hz : prefix_bits pre = 0 ↔ pre = []) by (by apply prefix_bits_zero).
  apply wp_bind. eapply (wp_mono _ (λ r s', r = (just (b :: rest), 2 * Z.of_nat (length (b :: rest))) ∧ s' = s)).
  { case_bool_decide as Epre.
    - rewrite prefix_bits_length, prefix_bits_num by done. rewrite just_take by done.
      apply wp_bind, wp_assert; [by apply bool_decide_eq_true|]. apply wp_ret. rewrite just_drop by done.
      split; [|done]. f_equal. rewrite length_app. lia.
    - apply Hz in Epre. subst pre. by apply wp_ret. }
  intros r s' [-> ->]. eapply wp_copied_round; [exact Hw|exact Hat|by exists s1, s2, s3, s4|done].
Qed.

(** * The loops *)

Section path_loop.
Context (body : path_state → M round).
Context (Hbody : ∀ s p t ds old h new_root done u,
  walking s0 C n T0 ds0 s p t ds h new_root done u → ds ≠ [] → (p = NULL_PTR → old = NULL_WORD) →
  wp (body (at_path p ds old new_root h)) (after ds) s).

Lemma wp_path_loop fuel s p t ds old h new_root done u (Q : path_state → state → Prop) :
  walking s0 C n T0 ds0 s p t ds h new_root done u → ds ≠ [] → (p = NULL_PTR → old = NULL_WORD) →
  (length ds < fuel)%nat →
  (∀ v t' h' r' done' u' s', walking s0 C n T0 ds0 s' v t' [] h' r' done' u' → Q (at_path v [] v r' h') s') →
  wp (loop fuel (path_step body) (at_path p ds old new_root h)) Q s.
Proof.
  intros Hw Hne Hold Hf HQ.
  eapply wp_loop with (I := λ k st s, ∃ p t ds old h r done u, st = at_path p ds old r h ∧
    walking s0 C n T0 ds0 s p t ds h r done u ∧ ds ≠ [] ∧ (p = NULL_PTR → old = NULL_WORD) ∧ k = length ds); [exact Hf| |].
  { exists p, t, ds, old, h, new_root, done, u. done. }
  clear fuel s p t ds old h new_root done u Hw Hne Hold Hf.
  intros k st s (p & t & ds & old & h & r & done & u & -> & Hw & Hne & Hold & ->).
  unfold path_step. cbn [ps_key_length at_path]. apply wp_bind, wp_assert.
  { apply bool_decide_eq_true. change 0x1 with (2 ^ 1 - 1). rewrite land_ones_mod by lia.
    change (2 ^ 1) with 2. rewrite Z.mul_comm. apply Z_mod_mult. }
  apply wp_bind. eapply wp_mono; [by apply (Hbody s p t ds old h r done u)|].
  intros res s1 (t' & b & rest & h' & done' & u' & v & r' & -> & Hb & Hlr & Hw').
  pose proof (walk_digits _ _ _ _ _ _ _ _ _ _ _ _ _ Hw') as Hdr. pose proof (walk_length _ _ _ _ _ _ _ _ _ _ _ _ _ Hw) as Hl.
  rewrite just_tail by (done || (simpl; lia)). cbn zeta.
  replace (2 * Z.of_nat (length (b :: rest)) - 2) with (2 * Z.of_nat (length rest)) by (simpl; lia).
  destruct rest as [|d rest].
  - rewrite bool_decide_eq_false_2 by (intros H; by apply H). apply wp_ret. apply (HQ v t' h' r' done' u' s1 Hw').
  - rewrite bool_decide_eq_true_2 by (simpl; lia). apply wp_bind, wp_assert.
    + destruct Hw' as [HG' _ _ Ht' Hok' _ _ _ _ _].
      destruct (trie_ok_S _ _ Hok') as [->|(pre & s1' & s2 & s3 & s4 & ->)]; [simpl in Ht'; by rewrite Ht'|].
      destruct (is_trie_node _ _ _ _ _ _ _ _ _ HC Hok' Ht') as (_ & ws & Hat). by eapply node_tagged; [exact HC|exact Hat].
    + apply wp_ret. exists (length (d :: rest)). split; [done|].
      exists v, t', (d :: rest), v, h', r', done', u'. done.
Qed.
End path_loop.

Lemma walking_start root : wf s0 → trie_ok n T0 → is_trie C root T0 → Forall digit ds0 → length ds0 = n → (n ≤ 16)%nat →
  walking s0 C n T0 ds0 s0 root T0 ds0 Top NULL_WORD [] 0.
Proof.
  intros Hw Hok Ht Hd Hl Hn. split; [by apply grow_refl|done| |done|by rewrite Hl|done|lia|done|lia|].
  - intros C' v t' o _ Hv Hok' Hne _ Hu. exists t'. by rewrite <- Hl.
  - change TRIEV2_MAX_ALLOCATION with 85. destruct T0; lia.
Qed.

(** What the loops arrive at. *)
Lemma walking_end s v t h new_root done u : walking s0 C n T0 ds0 s v t [] h new_root done u →
  v = default_word (lookup T0 ds0).
Proof.
  intros [_ _ _ Ht Hok _ _ -> _ _]. destruct (trie_ok_0 _ Hok) as [->|(d & -> & _)]; simpl in *; done.
Qed.

(** [*pp = data] and the self-test. *)
Lemma wp_path_finish heaviness fuel s v t h new_root done u data :
  walking s0 C n T0 ds0 s v t [] h new_root done u → data ≠ NULL_WORD → (n < fuel)%nat →
  wp (new_root ← set_slot (hole_pp h) data new_root;
      ok ← triev2_make_assertions heaviness fuel new_root (2 * Z.of_nat n);
      massert (bool_decide (ok ≠ 0));;
      mret new_root)
    (λ r s', ∃ cs u', 0 ≤ u' ≤ TRIEV2_MAX_ALLOCATION ∧ grow s0 s' u' cs ∧
      ∃ T', is_trie (adds C cs) r T' ∧ trie_ok n T' ∧ upd T0 ds0 (Some data) T') s.
Proof.
  intros [HG Hok Hplug Ht Htok _ _ Hlk Hu Hr] Hdata Hf. apply wp_bind.
  eapply (wp_set_slot _ _ _ []); [exact HG|done|done|]. intros s1 HG1. cbn [app] in HG1.
  destruct (Hplug (adds C (filled h data ++ done)) data (Leaf data) (Some data)) as (T' & HT & HokT & HneT & HuT);
    [done|done|done|done|done| |].
  { intros [|? ?] _ El; [|done]. by rewrite decide_True. }
  apply wp_bind. eapply wp_triev2_make_assertions; [by eapply grow_holds; [exact HG1|]|exact Hf|exact HokT|exact HT|].
  apply wp_bind, wp_assert; [done|]. apply wp_ret. exists (filled h data ++ done), u.
  split; [destruct t; simpl in Hr; lia|]. split; [exact HG1|]. by exists T'.
Qed.
End rounds.

(** * The two functions *)

(** An updated trie carries the updated map. *)
Lemma upd_map n T m key data T' : trie_map n T m → upd T (digits n key) (Some data) T' →
  trie_map n T' (<[key_of n key := data]> m).
Proof.
  intros Hm Hu k. destruct (decide (key_of n key = k)) as [<-|Hne].
  - rewrite lookup_insert_eq, decide_True by apply key_of_range. rewrite key_of_digits, Hu by (done || apply digits_digit).
    by rewrite decide_True.
  - rewrite lookup_insert_ne, Hm by done. destruct (decide _) as [Hk|]; [|done].
    rewrite Hu by (rewrite ?length_digits; done || apply digits_digit). rewrite decide_False; [done|].
    intros E. apply Hne. apply digits_inj with n; [apply key_of_range|done|]. by rewrite key_of_digits, E.
Qed.

(** The data that is put behind the key. *)
Definition new_data (g : option (Z → Z → Z)) (old : option Z) (data : Z) : Z :=
  match old with Some d => updated g d data | None => data end.

(** What the functions do with the key's data: nothing, if the data would not
    change, or an update. *)
Definition update_result (s : state) (n : nat) (m : gmap Z Z) (k data : Z) (root r : Z) (s' : state) : Prop :=
  s ⊑ₛ s' ∧ wf s' ∧
  first_generation_allocation_ptr s - 4 * TRIEV2_MAX_ALLOCATION ≤ first_generation_allocation_ptr s' ∧
  if decide (m !! k = Some data) then
    r = root ∧ first_generation_allocation_ptr s' = first_generation_allocation_ptr s
  else trie_repr (blk s') r n (<[k := data]> m).

(** The trie is that of [s0]; the update function may have noted something in
    the global variables, which makes [s1] of it. *)
Section results.
Context (s0 s1 : state) (HC : holds s1 (blk s0)) (n : nat) (m : gmap Z Z) (root key : Z).

Lemma update_unchanged data s' : m !! key_of n key = Some data → grow s1 s' 0 [] →
  update_result s1 n m (key_of n key) data root root s'.
Proof.
  intros E HG. split; [apply HG|]. split; [apply HG|]. pose proof (grow_used _ _ _ _ HG) as Hu.
  split; [unfold TRIEV2_MAX_ALLOCATION; lia|]. rewrite decide_True by done. split; [done|lia].
Qed.

Lemma update_changed T data r s' cs u : trie_map n T m → m !! key_of n key ≠ Some data →
  0 ≤ u ≤ TRIEV2_MAX_ALLOCATION → grow s1 s' u cs →
  (∃ T', is_trie (adds (blk s0) cs) r T' ∧ trie_ok n T' ∧ upd T (digits n key) (Some data) T') →
  update_result s1 n m (key_of n key) data root r s'.
Proof.
  intros Hm Hne Hu HG (T' & HT & Hok & Hupd). split; [apply HG|]. split; [apply HG|].
  split; [pose proof (grow_used _ _ _ _ HG); lia|]. rewrite decide_False by done.
  exists T'. split; [done|]. split; [|by eapply upd_map]. eapply is_trie_mono; [|exact HT].
  intros p ws Hp. by apply (grow_holds _ _ _ _ _ HG HC).
Qed.
End results.

Section update.
Context (s0 : state) (n : nat) (m : gmap Z Z) (root key : Z).
Context (Hwf : wf s0) (Hn : (1 ≤ n ≤ 16)%nat) (Hroom : room s0 TRIEV2_MAX_ALLOCATION).

Lemma noted_holds g o old data : holds (noted g o old data s0) (blk s0).
Proof.
  destruct g, old; [|apply holds_blk..].
  eapply same_cells_holds, holds_blk. apply set_old_value_same_cells.
Qed.

(** What the update function noted, the rest of the operation keeps. *)
Lemma noted_grow g o old data s u cs : grow s0 s u cs →
  grow (noted g o old data s0) (noted g o old data s) u cs.
Proof.
  intros HG. assert (old_value s = old_value s0) as E by apply HG.
  destruct g, old; [|done..]. simpl. rewrite E. by apply grow_set_old_value.
Qed.

Lemma noted_walking C T ds0 g o old data s p t ds h r done u :
  walking s0 C n T ds0 s p t ds h r done u →
  walking (noted g o old data s0) C n T ds0 (noted g o old data s) p t ds h r done u.
Proof. intros [HG ? ? ? ? ? ? ? ? ?]. split; [by apply noted_grow|done..]. Qed.

Lemma wp_triev2_insert_noting heaviness fuel f g o data :
  trie_repr (blk s0) root n m → noting_update (blk s0) f g o → (n < fuel)%nat →
  new_data g (m !! key_of n key) data ≠ NULL_WORD →
  wp (triev2_insert heaviness fuel root key (2 * Z.of_nat n) f data)
    (update_result (noted g o (m !! key_of n key) data s0) n m (key_of n key) (new_data g (m !! key_of n key) data) root) s0.
Proof.
  intros (T & Hok & Ht & Hm) Hg Hf Hdata. pose proof (trie_map_lookup _ _ _ key Hm) as Hlk. pose proof (holds_blk s0) as HC.
  unfold triev2_insert. apply wp_bind. eapply wp_triev2_make_assertions; [exact HC|exact Hf|exact Hok|exact Ht|].
  apply wp_bind, wp_assert; [done|]. apply wp_bind, wp_gets. apply wp_bind, wp_assert; [apply bool_decide_eq_true; lia|].
  rewrite just_digits by lia. apply wp_bind.
  replace (PathState root (just (digits n key)) (2 * Z.of_nat n) NULL_WORD NULL_WORD RootSlot)
    with (at_path root (digits n key) NULL_WORD NULL_WORD Top) by (unfold at_path; by rewrite length_digits).
  eapply (wp_path_loop s0 (blk s0) HC n T (digits n key)).
  { intros s p t ds old h r done u Hw Hne Hold. by eapply wp_insert_round. }
  { by apply walking_start; [..|apply digits_digit|apply length_digits|lia]. }
  { destruct n; [lia|done]. }
  { done. }
  { by rewrite length_digits. }
  intros v t' h r done u s Hw. pose proof (walking_end _ _ _ _ _ _ _ _ _ _ _ _ Hw) as Ev. rewrite <- Hlk in Ev.
  cbn [at_path ps_key ps_old_data ps_pp ps_new_root]. apply wp_bind, wp_assert; [done|].
  pose proof (grow_C s0 (blk s0) HC _ _ _ (walk_grow _ _ _ _ _ _ _ _ _ _ _ _ _ Hw)) as HCs.
  assert (Hv : v ≠ NULL_WORD ↔ is_Some (m !! key_of n key)).
  { rewrite Ev, Hlk. destruct (lookup T _) as [d|] eqn:E; simpl; [|split; [done|by intros [? ?]]].
    split; [by eauto|]. intros _. apply (lookup_length _ _ _ _ Hok E). }
  apply wp_bind. eapply (wp_mono _ (λ d s', d = new_data g (m !! key_of n key) data ∧ s' = noted g o (m !! key_of n key) data s)).
  { destruct (m !! key_of n key) as [d|]; simpl in *.
    - subst v. destruct f as [f|], g as [g|]; [|done..|by apply wp_ret].
      rewrite bool_decide_eq_true_2 by (apply Hv; eauto). by eapply wp_run; [apply Hg|].
    - rewrite bool_decide_eq_false_2 by (rewrite Hv; by intros [? ?]). by destruct f, g. }
  intros d s' [-> ->]. pose proof (noted_holds g o (m !! key_of n key) data) as HC1.
  pose proof (noted_walking _ _ _ g o (m !! key_of n key) data _ _ _ _ _ _ _ _ Hw) as Hw1.
  destruct (bool_decide _ && _) eqn:E.
  - apply andb_true_iff in E as [E1%bool_decide_eq_true E2%bool_decide_eq_true]. apply wp_bind.
    replace (first_generation_allocation_ptr s0) with (first_generation_allocation_ptr (noted g o (m !! key_of n key) data s0))
      by (by destruct g, (m !! _)).
    eapply wp_restore; [|apply (walk_grow _ _ _ _ _ _ _ _ _ _ _ _ _ Hw1)|].
    { destruct g, (m !! _); [|done..]. eapply same_cells_wf, Hwf. apply set_old_value_same_cells. }
    intros s' HG'. apply wp_ret.
    apply update_unchanged; [|done]. apply Hv in E1 as [d Ed]. rewrite <- E2, Ev, Ed. done.
  - eapply wp_mono; [eapply wp_path_finish; [exact HC1|exact Hw1|exact Hdata|exact Hf]|]. intros r' s' (cs & u' & Hu' & HG' & HT).
    eapply update_changed; [exact HC1|exact Hm| |exact Hu'|exact HG'|exact HT].
    revert Hdata E. generalize (new_data g (m !! key_of n key) data). intros x Hdata E Ed.
    rewrite Ed in Ev. simpl in Ev. subst v. by rewrite !bool_decide_eq_true_2 in E.
Qed.

Lemma wp_triev2_insert heaviness fuel f g data :
  trie_repr (blk s0) root n m → pure_update (blk s0) f g → (n < fuel)%nat →
  new_data g (m !! key_of n key) data ≠ NULL_WORD →
  wp (triev2_insert heaviness fuel root key (2 * Z.of_nat n) f data)
    (update_result s0 n m (key_of n key) (new_data g (m !! key_of n key) data) root) s0.
Proof.
  intros Hr Hg Hf Hd. rewrite <- (noted_no_note g (m !! key_of n key) data s0) at 1.
  apply wp_triev2_insert_noting; [done|by apply pure_update_noting|done..].
Qed.

Lemma wp_triev2_replace heaviness fuel f g data d :
  trie_repr (blk s0) root n m → pure_update (blk s0) f g → (n < fuel)%nat →
  m !! key_of n key = Some d → updated g d data ≠ NULL_WORD →
  wp (triev2_replace heaviness fuel root key (2 * Z.of_nat n) f data)
    (update_result s0 n m (key_of n key) (updated g d data) root) s0.
Proof.
  intros (T & Hok & Ht & Hm) Hg Hf Hd Hdata. pose proof (trie_map_lookup _ _ _ key Hm) as Hlk. pose proof (holds_blk s0) as HC.
  unfold triev2_replace. apply wp_bind. eapply wp_triev2_make_assertions; [exact HC|exact Hf|exact Hok|exact Ht|].
  apply wp_bind, wp_assert; [done|]. apply wp_bind, wp_gets. apply wp_bind, wp_assert; [apply bool_decide_eq_true; lia|].
  rewrite just_digits by lia. apply wp_bind.
  replace (PathState root (just (digits n key)) (2 * Z.of_nat n) NULL_WORD NULL_WORD RootSlot)
    with (at_path root (digits n key) NULL_WORD NULL_WORD Top) by (unfold at_path; by rewrite length_digits).
  eapply (wp_path_loop s0 (blk s0) HC n T (digits n key)).
  { intros s p t ds old h r done u Hw Hne Hold. eapply wp_replace_round; [done..|exact Hw|done|].
    rewrite <- (walk_lookup _ _ _ _ _ _ _ _ _ _ _ _ _ Hw), <- Hlk. exact Hd. }
  { by apply walking_start; [..|apply digits_digit|apply length_digits|lia]. }
  { destruct n; [lia|done]. }
  { done. }
  { by rewrite length_digits. }
  intros v t' h r done u s Hw. pose proof (walking_end _ _ _ _ _ _ _ _ _ _ _ _ Hw) as Ev. rewrite <- Hlk, Hd in Ev.
  simpl in Ev. subst v. cbn [at_path ps_key ps_old_data ps_pp ps_new_root]. apply wp_bind, wp_assert; [done|].
  pose proof (grow_C s0 (blk s0) HC _ _ _ (walk_grow _ _ _ _ _ _ _ _ _ _ _ _ _ Hw)) as HCs.
  apply wp_bind. eapply (wp_mono _ (λ x s', x = updated g d data ∧ s' = s)).
  { destruct f as [f|]; [by eapply wp_update|]. destruct g; [done|by apply wp_ret]. }
  intros x s' [-> ->]. case_bool_decide as E.
  - apply wp_bind. eapply wp_restore; [done|apply (walk_grow _ _ _ _ _ _ _ _ _ _ _ _ _ Hw)|]. intros s' HG'. apply wp_ret.
    apply update_unchanged; [|done]. by rewrite Hd, <- E.
  - eapply wp_mono; [eapply wp_path_finish; [exact HC|exact Hw|exact Hdata|exact Hf]|]. intros r' s' (cs & u' & Hu' & HG' & HT).
    eapply update_changed; [exact HC|exact Hm| |exact Hu'|exact HG'|exact HT]. rewrite Hd. congruence.
Qed.
End update.

(** * Properties *)

(** C33. [triev2_insert] puts [data], or what the update function makes of it and
    the key's old data, behind the key: it terminates with the root of a trie
    that carries the updated map, on which the source's own assertions pass, or,
    if nothing would change, with the old root and everything it had allocated
    given back.  It stays within [TRIEV2_MAX_ALLOCATION] words and no trie of the
    old state changes. *)
Theorem triev2_insert_correct heaviness fuel root n m key f g data s :
  wf s → trie_repr (blk s) root n m → pure_update (blk s) f g → (1 ≤ n ≤ 16)%nat → (n < fuel)%nat →
  room s TRIEV2_MAX_ALLOCATION → new_data g (m !! key_of n key) data ≠ NULL_WORD →
  ∃ r s', triev2_insert heaviness fuel root key (2 * Z.of_nat n) f data s = Ok r s' ∧
    update_result s n m (key_of n key) (new_data g (m !! key_of n key) data) root r s' ∧
    (∀ p0 n0 m0, trie_repr (blk s) p0 n0 m0 → trie_repr (blk s') p0 n0 m0).
Proof.
  intros Hw Hr Hg Hn Hf Hroom Hd.
  destruct (wp_inv _ _ _ (wp_triev2_insert s n m root key Hw Hn Hroom heaviness fuel f g data Hr Hg Hf Hd))
    as (r & s' & E & Hres).
  exists r, s'. split; [done|]. split; [done|]. intros p0 n0 m0. apply trie_repr_mono. intros a ws. apply blk_ext, Hres.
Qed.

Lemma triev2_insert_correct_witness :
  ∃ r s', triev2_insert 10 17 example_root 2 4 (Some (λ a b, mret (a + b))) 50 example_state = Ok r s' ∧
    update_result example_state 2 example_map 2 50 example_root r s' ∧
    (∀ p0 n0 m0, trie_repr (blk example_state) p0 n0 m0 → trie_repr (blk s') p0 n0 m0).
Proof.
  apply (triev2_insert_correct 10 17 example_root 2 example_map 2 (Some (λ a b, mret (a + b))) (Some Z.add) 50).
  - apply wfb_sound. by vm_compute.
  - apply example_repr.
  - done.
  - lia.
  - lia.
  - vm_compute. discriminate.
  - by vm_compute.
Defined.

(** C34. On a key that is there, [triev2_replace] has the same effect on the map
    as [triev2_insert]: the old data is replaced by [data] or what the update
    function makes of them; if nothing would change, the old root is returned and
    everything is given back. *)
Theorem triev2_replace_correct heaviness fuel root n m key f g data d s :
  wf s → trie_repr (blk s) root n m → pure_update (blk s) f g → (1 ≤ n ≤ 16)%nat → (n < fuel)%nat →
  room s TRIEV2_MAX_ALLOCATION → m !! key_of n key = Some d → updated g d data ≠ NULL_WORD →
  ∃ r s', triev2_replace heaviness fuel root key (2 * Z.of_nat n) f data s = Ok r s' ∧
    update_result s n m (key_of n key) (updated g d data) root r s' ∧
    (∀ p0 n0 m0, trie_repr (blk s) p0 n0 m0 → trie_repr (blk s') p0 n0 m0).
Proof.
  intros Hw Hr Hg Hn Hf Hroom Hk Hd.
  destruct (wp_inv _ _ _ (wp_triev2_replace s n m root key Hw Hn Hroom heaviness fuel f g data d Hr Hg Hf Hk Hd))
    as (r & s' & E & Hres).
  exists r, s'. split; [done|]. split; [done|]. intros p0 n0 m0. apply trie_repr_mono. intros a ws. apply blk_ext, Hres.
Qed.

Lemma triev2_replace_correct_witness :
  ∃ r s', triev2_replace 10 17 example_root 6 4 None 50 example_state = Ok r s' ∧
    update_result example_state 2 example_map 6 50 example_root r s' ∧
    (∀ p0 n0 m0, trie_repr (blk example_state) p0 n0 m0 → trie_repr (blk s') p0 n0 m0).
Proof.
  apply (triev2_replace_correct 10 17 example_root 2 example_map 6 None None 50 100).
  - apply wfb_sound. by vm_compute.
  - apply example_repr.
  - done.
  - lia.
  - lia.
  - vm_compute. discriminate.
  - done.
  - by vm_compute.
Defined.

(** C35. Looking up after an insertion: the inserted key has its new data, every
    other key what it had, and the old root still answers as before. *)
Theorem triev2_insert_find heaviness fuel root n m key data s key' :
  wf s → trie_repr (blk s) root n m → (1 ≤ n ≤ 16)%nat → (n < fuel)%nat →
  room s TRIEV2_MAX_ALLOCATION → data ≠ NULL_WORD →
  ∃ r s' old, triev2_insert heaviness fuel root key (2 * Z.of_nat n) None data s = Ok r s' ∧
    triev2_find fuel root key' (2 * Z.of_nat n) s = Ok old s ∧
    triev2_find fuel root key' (2 * Z.of_nat n) s' = Ok old s' ∧
    triev2_find fuel r key' (2 * Z.of_nat n) s' = Ok (if decide (key_of n key' = key_of n key) then data else old) s'.
Proof.
  intros Hw Hr Hn Hf Hroom Hd.
  assert (E : new_data None (m !! key_of n key) data = data) by (by destruct (m !! _)).
  destruct (wp_inv _ _ _ (wp_triev2_insert s n m root key Hw Hn Hroom heaviness fuel None None data Hr I Hf
    ltac:(by rewrite E))) as (r & s' & Er & Hres). rewrite E in Hres.
  pose proof Hres as (He & _ & _ & Hres').
  assert (Hr' : trie_repr (blk s') root n m) by (eapply trie_repr_mono; [|exact Hr]; intros a ws; by apply blk_ext).
  assert (Hmap : trie_repr (blk s') r n (<[key_of n key := data]> m)).
  { destruct (decide _) as [Ek|]; [|done]. destruct Hres' as [-> _]. by rewrite insert_id. }
  exists r, s', (default_word (m !! key_of n key')). split; [done|].
  split; [by apply find_run|]. split; [by apply find_run|]. rewrite (find_run fuel r n _ key' s' Hmap) by done.
  f_equal. destruct (decide (key_of n key' = key_of n key)) as [Ek|Ek].
  - by rewrite Ek, lookup_insert_eq.
  - by rewrite lookup_insert_ne by done.
Qed.

Lemma triev2_insert_find_witness :
  ∃ r s' old, triev2_insert 10 17 example_root 1 4 None 77 example_state = Ok r s' ∧
    triev2_find 17 example_root 6 4 example_state = Ok old example_state ∧
    triev2_find 17 example_root 6 4 s' = Ok old s' ∧
    triev2_find 17 r 6 4 s' = Ok (if decide (key_of 2 6 = key_of 2 1) then 77 else old) s'.
Proof.
  apply (triev2_insert_find 10 17 example_root 2 example_map 1 77 example_state 6).
  - apply wfb_sound. by vm_compute.
  - apply example_repr.
  - lia.
  - lia.
  - vm_compute. discriminate.
  - done.
Defined.
