(* ===== verification/Triev2Delete.v ===== *)
(** Deletion from tries: triev2_delete of triev2.c.

    The nodes on the key's path are recorded on the way down; on the way up the
    nodes that had no other son are dropped, a node that is left with one son is
    joined with it where the prefixes allow it, and the others are copied. *)

From S2P Require Import Prelude Machine Celltypes Shades Cow Bitops Compare Cells Digits Triev2 Triev2Insert.

(** * Operations *)

(** The elements of the local array [path]; the list of them is kept in reverse
    order. *)
Record path_item := PathItem {
  pi_node : Z;
  pi_ix : Z;
  pi_offset : Z
}.
Definition MAX_PATH : nat := 16 + 1.

(** The search for the data; [None] where the key is not there. *)
Definition delete_descend_step :
    Z * Z * Z * list path_item → M ((Z * Z * Z * list path_item) + option (list path_item * Z)) :=
  λ '(p, key, key_length, path),
  r ← match_prefix p key key_length;
  match r with
  | None => mret (inr None)
  | Some (key, key_length) =>
    i ← branch p key;
    if bool_decide (i = 0) then mret (inr None)
    else
      (if bool_decide (length path < MAX_PATH)%nat then mret tt else fail BadAddress);;
      let path := PathItem p (shr32 key 30) i :: path in
      old_data ← rd p i;
      let key := shl32 key 2 in
      let key_length := key_length - 2 in
      if bool_decide (key_length ≠ 0) then
        massert (TAGGED_IS_PTR old_data);;
        mret (inl (old_data, key, key_length, path))
      else mret (inr (Some (path, old_data)))
  end.

(** Join [p] with its only descendant [q]. *)
Definition merge_nodes (p q cti ix_offset prefix_length q_prefix_length : Z) : M Z :=
  t ← node_type q;
  massert (bool_decide (t ≠ CELL_word_vector));;
  cs ← tab cell_size (type_index t);
  new_p ← allocate cs t;
  node_prefix ← node_prefix_of p;
  let node_prefix := shl32 node_prefix 2 in
  d ← tab2 deoffset cti (2 - ix_offset);
  massert (bool_decide (d ≠ 0xFF));;
  let node_prefix := Z.lor node_prefix d in
  let node_prefix := shl32 node_prefix q_prefix_length in
  q_prefix ← node_prefix_of q;
  let node_prefix := Z.lor node_prefix q_prefix in
  or_header new_p (Z.lor (shl32 (prefix_length + q_prefix_length + 2) 19) node_prefix);;
  copy_sons new_p q (Z.to_nat (cs - 1));;
  mret new_p.

(** The code at [no_merge]: copy [p] such that its only descendant is [q]. *)
Definition no_merge (p q cti ix : Z) : M Z :=
  t ← tab2 cell_type_without cti ix;
  let i := type_index t in
  cs ← tab cell_size i;
  massert (bool_decide (cs = 2));;
  t ← tab cell_type_ i;
  new_p ← allocate 2 t;
  w ← rd p 0;
  or_header new_p (Z.land w FULL_PREFIX_MASK);;
  wr new_p 1 q;;
  mret new_p.

(** Copy [p] without the son at [ix]. *)
Definition copy_without (p cs cti ix : Z) : M Z :=
  t ← tab2 cell_type_without cti ix;
  let i := type_index t in
  size ← tab cell_size i;
  massert (bool_decide (size = cs - 1));;
  t ← tab cell_type_ i;
  new_p ← allocate (cs - 1) t;
  w ← rd p 0;
  or_header new_p (Z.land w FULL_PREFIX_MASK);;
  for_ 4 (λ j k,
    i ← tab2 offset cti (Z.of_nat j);
    if bool_decide (i ≠ 0) && bool_decide (Z.of_nat j ≠ ix) then
      w ← rd p i;
      wr new_p (k + 1) w;;
      mret (k + 1)
    else mret k) 0;;
  mret new_p.

(** The loop that removes the data: the new node and the rest of the path, or
    [None] if the whole tree has been emptied.  [last] tells whether this is the
    level [last_internal_node_level]. *)
Fixpoint delete_remove (last : bool) (path : list path_item) : M (option (Z * list path_item)) :=
  match path with
  | [] => mret None
  | item :: path =>
    let p := pi_node item in
    cti ← node_index p;
    cs ← tab cell_size cti;
    if bool_decide (cs = 3) then
      q ← rd p (3 - pi_offset item);
      if last then
        new_p ← no_merge p q cti (pi_ix item);
        mret (Some (new_p, path))
      else
        prefix_length ← prefix_length_of p;
        q_prefix_length ← prefix_length_of q;
        new_p ← (if bool_decide (prefix_length + q_prefix_length <= 18) then
            merge_nodes p q cti (pi_offset item) prefix_length q_prefix_length
          else no_merge p q cti (pi_ix item));
        mret (Some (new_p, path))
    else if bool_decide (cs = 4) || bool_decide (cs = 5) then
      new_p ← copy_without p cs cti (pi_ix item);
      mret (Some (new_p, path))
    else delete_remove false path
  end.

Definition copy_word (new_p p i : Z) : M unit := w ← rd p i; wr new_p i w.

(** Copy [p] with another son. *)
Definition copy_node (p offset data : Z) : M Z :=
  t ← node_type p;
  cs ← tab cell_size (type_index t);
  new_p ← allocate cs t;
  copy_word new_p p 0;;
  copy_word new_p p 1;;
  (if bool_decide (cs >= 4) then
     copy_word new_p p 2;;
     copy_word new_p p 3;;
     (if bool_decide (cs = 5) then copy_word new_p p 4 else mret tt)
   else if bool_decide (cs = 3) then copy_word new_p p 2
   else mret tt);;
  wr new_p offset data;;
  mret new_p.

(** The loop at [out]; [new_p] is [None] while it has no value. *)
Fixpoint delete_up (path : list path_item) (data : Z) (new_p : option Z) : M Z :=
  match path with
  | [] => of_option new_p
  | item :: path =>
    new_p ← copy_node (pi_node item) (pi_offset item) data;
    delete_up path new_p (Some new_p)
  end.

Definition triev2_delete (heaviness : Z) (fuel : nat) (trie_root key key_length : Z) (f : update_fun) (data : Z) : M Z :=
  if bool_decide (trie_root = NULL_PTR) then mret NULL_PTR
  else
    ok ← triev2_make_assertions heaviness fuel trie_root key_length;
    massert (bool_decide (ok ≠ 0));;
    massert (bool_decide (key_length > 0));;
    r ← loop fuel delete_descend_step (trie_root, shl32 key (32 - key_length), key_length, []);
    match r with
    | None => mret trie_root
    | Some (path, old_data) =>
      data ← (match f with Some f => f old_data data | None => mret data end);
      if bool_decide (data = old_data) then mret trie_root
      else
        r ← (if bool_decide (data = NULL_WORD) then
            r ← delete_remove true path;
            mret ((λ '(new_p, path), (path, new_p, Some new_p)) <$> r)
          else mret (Some (path, data, None)));
        match r with
        | None => mret NULL_PTR
        | Some (path, data, new_p) =>
          new_p ← delete_up path data new_p;
          ok ← triev2_make_assertions heaviness fuel new_p key_length;
          massert (bool_decide (ok ≠ 0));;
          mret new_p
        end
    end.

(** * Removing and replacing a son *)

Section son.
Context (ws : list Z) (H4 : length ws = 4%nat) (b : nat) (Hb : (b < 4)%nat) (Hs : is_some_son (nth b ws NULL_WORD) = true).

(** [p\[slot\] = v] *)
Lemma fill_slot pre v : is_some_son v = true →
  <[Z.to_nat (slot ws b) := v]> (node_words pre ws) = node_words pre (<[b := v]> ws).
Proof.
  intros Hv. revert b Hb Hs. son_cases ws H4; refine (four_cases _ _ _ _ _); cbn [nth]; intros Hs'; try congruence; clear Hs';
    son_simpl; rewrite ?Hv; reflexivity.
Qed.

Lemma slot_bound : 0 < slot ws b ≤ Z.of_nat (length (present ws)).
Proof. clear H4 Hb. pose proof (slot_range ws b) as H. unfold slot in H |- *. rewrite Hs in H |- *. lia. Qed.

Lemma length_without : (length (present (<[b := NULL_WORD]> ws)) = length (present ws) - 1)%nat.
Proof.
  revert b Hb Hs. son_cases ws H4; refine (four_cases _ _ _ _ _); cbn [nth]; intros Hs'; try congruence; clear Hs'; by son_simpl.
Qed.

Lemma present_none : present ws = [] → ∀ j, (j < 4)%nat → nth j ws NULL_WORD = NULL_WORD.
Proof.
  clear Hs Hb b. intros E j Hj. destruct (is_some_son (nth j ws NULL_WORD)) eqn:Hjs; [|unfold is_some_son in Hjs; lia].
  exfalso. assert (Hin : nth j ws NULL_WORD ∈ present ws); [|rewrite E in Hin; by apply not_elem_of_nil in Hin].
  apply list_elem_of_In, filter_In. split; [apply nth_In; lia|done].
Qed.

(** Where another son is left, and where not. *)
Lemma other_present : (2 ≤ length (present ws))%nat → ∃ j, (j < 4)%nat ∧ j ≠ b ∧ nth j ws NULL_WORD ≠ NULL_WORD.
Proof.
  intros Hl. pose proof length_without as El. pose proof Hb as Hb'.
  assert (Hl4 : length (<[b := NULL_WORD]> ws) = 4%nat) by (by rewrite length_insert).
  assert (Hne : present (<[b := NULL_WORD]> ws) ≠ []) by (intros E; rewrite E in El; simpl in El; lia).
  destruct (last_son _ Hl4 Hne) as (j & Hj & _ & Hn & _). exists j. split; [done|].
  destruct (decide (j = b)) as [->|Hjb].
  { rewrite (nth_lookup_Some _ _ _ NULL_WORD) in Hn; [done|]. by rewrite list_lookup_insert_eq by lia. }
  split; [done|]. by rewrite nth_lookup, list_lookup_insert_ne, <- nth_lookup in Hn by done.
Qed.

Lemma only_present : length (present ws) = 1%nat → ∀ j, (j < 4)%nat → j ≠ b → nth j ws NULL_WORD = NULL_WORD.
Proof.
  intros Hl j Hj Hjb. pose proof length_without as El. rewrite Hl in El. apply length_zero_iff_nil in El.
  assert (Hl4 : length (<[b := NULL_WORD]> ws) = 4%nat) by (by rewrite length_insert).
  destruct (is_some_son (nth j ws NULL_WORD)) eqn:Hjs; [|unfold is_some_son in Hjs; lia].
  exfalso. assert (Hin : nth j ws NULL_WORD ∈ present (<[b := NULL_WORD]> ws));
    [|rewrite El in Hin; by apply not_elem_of_nil in Hin].
  apply list_elem_of_In, filter_In. split; [|done].
  assert (E : nth j ws NULL_WORD = nth j (<[b := NULL_WORD]> ws) NULL_WORD)
    by (by rewrite !nth_lookup, list_lookup_insert_ne by done).
  rewrite E. apply nth_In. lia.
Qed.

(** The other one of two sons. *)
Lemma two_present : length (present ws) = 2%nat →
  ∃ j, (j < 4)%nat ∧ j ≠ b ∧ nth j ws NULL_WORD ≠ NULL_WORD ∧ slot ws j = 3 - slot ws b ∧
    (∀ k, (k < 4)%nat → k ≠ b → k ≠ j → nth k ws NULL_WORD = NULL_WORD) ∧
    present (<[b := NULL_WORD]> ws) = [nth j ws NULL_WORD].
Proof.
  intros Hl. destruct other_present as (j & Hj & Hjb & Hn); [lia|]. exists j. split; [done|]. split; [done|]. split; [done|].
  pose proof (some_son _ Hn) as Hjs. revert b Hb Hs Hjb. revert j Hj Hn Hjs. revert Hl.
  son_cases ws H4; intros Hl; try (exfalso; revert Hl; son_simpl; discriminate); clear Hl;
    (refine (four_cases _ _ _ _ _);
     cbn [nth]; intros Hn Hjs; try congruence; clear Hn Hjs; refine (four_cases _ _ _ _ _); cbn [nth]; intros Hs Hjb; try congruence; clear Hs Hjb).
  all: split; [son_simpl; reflexivity|split; [|son_simpl; reflexivity]].
  all: refine (four_cases _ _ _ _ _); cbn [nth]; intros ? ?; try congruence;
    match goal with E : is_some_son ?w = false |- ?w = NULL_WORD => unfold is_some_son in E; lia end.
Qed.
End son.

Lemma sons_type_node ws : length ws = 4%nat → present ws ≠ [] → sons_type ws ≠ CELL_word_vector.
Proof. intros H4. son_cases ws H4; son_simpl; done. Qed.

(** * Rules *)

Section ops.
Context (s0 : state) (C : cenv) (HC : holds s0 C).

Lemma wp_copy_word s u q l cs p old i w (Q : unit → state → Prop) :
  C p old → grow s0 s u ((q, l) :: cs) → 0 ≤ i < Z.of_nat (length l) → old !! Z.to_nat i = Some w →
  (∀ s', grow s0 s' u ((q, <[Z.to_nat i := w]> l) :: cs) → Q tt s') → wp (copy_word q p i) Q s.
Proof.
  intros Hp HG Hi Hw HQ. apply wp_bind. eapply wp_rd; [by eapply (grow_C s0 C HC), Hp|lia|exact Hw|].
  eapply (wp_wr _ _ _ _ 0%nat); [exact HG|done|exact Hi|exact HQ].
Qed.

Lemma wp_copy_node s u cs p pre ws n t b v (Q : Z → state → Prop) :
  node_at C p pre ws n t → (b < 4)%nat → is_some_son (nth b ws NULL_WORD) = true → is_some_son v = true →
  grow s0 s u cs → room s0 (u + 5) →
  (∀ q s' u', 0 < q → u ≤ u' ≤ u + 5 → grow s0 s' u' ((q, node_words pre (<[b := v]> ws)) :: cs) → Q q s') →
  wp (copy_node p (slot ws b) v) Q s.
Proof.
  intros Hat Hb Hs Hv HG Hroom HQ. pose proof (na_length _ _ _ _ _ _ Hat) as H4. pose proof (na_present _ _ _ _ _ _ Hat) as Hne.
  pose proof (length_present ws H4) as Hl. pose proof (slot_bound ws b Hs) as Hsl.
  pose proof (na_cell _ _ _ _ _ _ Hat) as Hp. rewrite <- (fill_slot ws H4 b Hb Hs pre v Hv) in HQ.
  apply wp_bind. eapply wp_node_type; [by eapply (grow_C s0 C HC)|exact Hat|].
  apply wp_bind. eapply wp_tab; [by apply type_index_range|by apply size_sons|].
  apply wp_bind. eapply wp_allocate; [exact HG|unfold room in *; lia| |].
  { change NUMBER_OF_WORDS_PER_PAGE with 16384. destruct (present ws); [done|]. cbn [length] in *. lia. }
  intros q s1 Hq HG1. unfold node_words in *.
  set (h := header (sons_type ws) (prefix_bits pre)) in *. set (h0 := header (sons_type ws) 0) in *.
  assert (Hcopy : wp (copy_word q p 0;; copy_word q p 1;;
    (if bool_decide (1 + Z.of_nat (length (present ws)) >= 4) then
       copy_word q p 2;; copy_word q p 3;;
       (if bool_decide (1 + Z.of_nat (length (present ws)) = 5) then copy_word q p 4 else mret tt)
     else if bool_decide (1 + Z.of_nat (length (present ws)) = 3) then copy_word q p 2
     else mret tt))
    (λ _ s', grow s0 s' (u + (1 + Z.of_nat (length (present ws)))) ((q, h :: present ws) :: cs)) s1).
  { clear -HC Hp Hl Hne HG1. clearbody h h0.
    destruct (present ws) as [|w1 [|w2 [|w3 [|w4 [|]]]]]; [done|..|simpl in Hl; lia];
      (apply wp_bind; eapply wp_copy_word; [exact Hp|exact HG1|simpl; lia|reflexivity|]; intros s2 HG2;
       apply wp_bind; eapply wp_copy_word; [exact Hp|exact HG2|simpl; lia|reflexivity|]; intros s3 HG3).
    - by apply wp_ret.
    - eapply wp_copy_word; [exact Hp|exact HG3|simpl; lia|reflexivity|]. by intros.
    - apply wp_bind. eapply wp_copy_word; [exact Hp|exact HG3|simpl; lia|reflexivity|]. intros s4 HG4.
      apply wp_bind. eapply wp_copy_word; [exact Hp|exact HG4|simpl; lia|reflexivity|]. intros s5 HG5.
      by apply wp_ret.
    - apply wp_bind. eapply wp_copy_word; [exact Hp|exact HG3|simpl; lia|reflexivity|]. intros s4 HG4.
      apply wp_bind. eapply wp_copy_word; [exact Hp|exact HG4|simpl; lia|reflexivity|]. intros s5 HG5.
      eapply wp_copy_word; [exact Hp|exact HG5|simpl; lia|reflexivity|]. by intros. }
  apply wp_bind_inv in Hcopy. apply wp_bind. eapply wp_mono; [exact Hcopy|]. intros [] s2 H2.
  apply wp_bind_inv in H2. apply wp_bind. eapply wp_mono; [exact H2|]. intros [] s3 H3.
  apply wp_bind. eapply wp_mono; [exact H3|]. intros [] s4 HG4.
  apply wp_bind. eapply (wp_wr _ _ _ _ 0%nat); [exact HG4|done|cbn [length]; lia|].
  intros s5 HG5. apply wp_ret. eapply HQ; [exact Hq| |exact HG5]. lia.
Qed.

(** The header of a new node: [new_p\[0\] |= p\[0\] & FULL_PREFIX_MASK]. *)
Lemma wp_set_header s u q t l cs p pre ws n t' (Q : unit → state → Prop) :
  node_at C p pre ws n t' → grow s0 s u ((q, header t 0 :: l) :: cs) →
  (∀ s', grow s0 s' u ((q, header t (prefix_bits pre) :: l) :: cs) → Q tt s') →
  wp (w ← rd p 0; or_header q (Z.land w FULL_PREFIX_MASK)) Q s.
Proof.
  intros Hat HG HQ. apply wp_bind. eapply wp_rd; [by eapply node_blk; [by eapply (grow_C s0 C HC)|exact Hat]|done|done|].
  rewrite header_full_prefix by apply Hat. eapply wp_set_prefix; [exact HG|apply Hat|apply Hat|exact HQ].
Qed.

Section without.
Context (s : state) (p : Z) (pre ws : list Z) (n : nat) (t : trie) (b : nat).
Context (HG : grow s0 s 0 []) (Hat : node_at C p pre ws n t) (Hb : (b < 4)%nat).
Context (Hs : is_some_son (nth b ws NULL_WORD) = true) (Hroom : room s0 5).
Let ws' : list Z := <[b := NULL_WORD]> ws.

Lemma without_length : length ws' = 4%nat.
Proof. unfold ws'. rewrite length_insert. apply Hat. Qed.

(** What both ways to copy without a son begin with. *)
Lemma wp_without_start {A} (size : Z) (k : Z → M A) (Q : A → state → Prop) :
  present ws' ≠ [] → size = 1 + Z.of_nat (length (present ws')) →
  (∀ q s', 0 < q → grow s0 s' size [(q, header (sons_type ws') (prefix_bits pre) ::
     replicate (length (present ws')) FIRST_GENERATION_DEADBEEF)] → wp (k q) Q s') →
  wp (t ← tab2 cell_type_without (type_index (sons_type ws)) (Z.of_nat b);
      size' ← tab cell_size (type_index t);
      massert (bool_decide (size' = size));;
      t ← tab cell_type_ (type_index t);
      new_p ← allocate size t;
      w ← rd p 0;
      or_header new_p (Z.land w FULL_PREFIX_MASK);;
      k new_p) Q s.
Proof.
  intros Hne Hsize HQ. pose proof (na_length _ _ _ _ _ _ Hat) as H4. pose proof (na_present _ _ _ _ _ _ Hat) as Hp.
  pose proof without_length as H4'. pose proof (length_present ws' H4') as Hl.
  destruct (without_sons ws H4 Hp) as (r & Er & Hr).
  apply wp_bind. eapply wp_tab2; [by apply type_index_range|lia|exact Er|rewrite Nat2Z.id; by apply Hr|]. fold ws'.
  apply wp_bind. eapply wp_tab; [by apply type_index_range|by apply size_sons|].
  apply wp_bind, wp_assert; [by apply bool_decide_eq_true|].
  apply wp_bind. eapply wp_tab; [by apply type_index_range|by apply cell_type_sons|].
  assert (Hpos : (1 ≤ length (present ws'))%nat) by (destruct (present ws'); simpl; [done|lia]).
  apply wp_bind. eapply wp_allocate; [exact HG|unfold room in *; lia|change NUMBER_OF_WORDS_PER_PAGE with 16384; lia|].
  intros q s1 Hq HG1. rewrite Z.add_0_l in HG1.
  replace (Z.to_nat size - 1)%nat with (length (present ws')) in HG1 by lia.
  assert (H : wp (w ← rd p 0; or_header q (Z.land w FULL_PREFIX_MASK)) (λ _, wp (k q) Q) s1).
  { eapply wp_set_header; [exact Hat|exact HG1|]. intros s2 HG2. by apply HQ. }
  apply wp_bind_inv in H. apply wp_bind. eapply wp_mono; [exact H|]. intros w s2 Hw. by apply wp_bind.
Qed.

Lemma wp_no_merge q (Q : Z → state → Prop) :
  present ws' = [q] →
  (∀ r s', 0 < r → grow s0 s' 2 [(r, node_words pre ws')] → Q r s') →
  wp (no_merge p q (type_index (sons_type ws)) (Z.of_nat b)) Q s.
Proof.
  intros Hq HQ. unfold no_merge. apply wp_without_start; [by rewrite Hq|by rewrite Hq|].
  intros r s1 Hr HG1. rewrite Hq in HG1. simpl in HG1. apply wp_bind.
  eapply (wp_wr _ _ _ _ 0%nat); [exact HG1|done|simpl; lia|]. intros s2 HG2. apply wp_ret, HQ; [done|].
  unfold node_words. by rewrite Hq.
Qed.

Lemma wp_copy_without cs (Q : Z → state → Prop) :
  present ws' ≠ [] → cs = 1 + Z.of_nat (length (present ws)) →
  (∀ r s', 0 < r → grow s0 s' (cs - 1) [(r, node_words pre ws')] → Q r s') →
  wp (copy_without p cs (type_index (sons_type ws)) (Z.of_nat b)) Q s.
Proof.
  intros Hne Hcs HQ. pose proof (na_length _ _ _ _ _ _ Hat) as H4. pose proof (na_present _ _ _ _ _ _ Hat) as Hp.
  pose proof without_length as H4'. pose proof (length_without ws H4 b Hb Hs) as Hlw. fold ws' in Hlw.
  assert (Hpos : (1 ≤ length (present ws'))%nat) by (destruct (present ws'); simpl; [done|lia]).
  unfold copy_without. apply wp_without_start; [done|lia|].
  intros q s1 Hq HG1. apply wp_bind.
  apply (wp_for (λ j k s2, k = Z.of_nat (length (present (take j ws'))) ∧
    grow s0 s2 (cs - 1) [(q, header (sons_type ws') (prefix_bits pre) :: present (take j ws') ++
      replicate (length (present ws') - length (present (take j ws'))) FIRST_GENERATION_DEADBEEF)])).
  - split; [done|]. simpl. by rewrite Nat.sub_0_r.
  - intros j k s2 Hj (-> & HG2). destruct (offset_sons ws H4 Hp) as (r & Er & Hr).
    apply wp_bind. eapply wp_tab2; [by apply type_index_range|lia|exact Er|rewrite Nat2Z.id; by apply Hr|].
    assert (Hw : ws' !! j = Some (nth j ws' NULL_WORD)) by (apply lookup_nth; lia).
    pose proof (present_take_S _ _ _ Hw) as Etake.
    destruct (decide (j = b)) as [->|Hjb].
    + rewrite (bool_decide_eq_false_2 (Z.of_nat b ≠ Z.of_nat b)) by (intros H; by apply H). rewrite andb_false_r. apply wp_ret.
      assert (E : nth b ws' NULL_WORD = NULL_WORD).
      { apply nth_lookup_Some. unfold ws'. apply list_lookup_insert_eq. lia. }
      rewrite E in Etake. simpl in Etake. rewrite app_nil_r in Etake. rewrite Etake. done.
    + rewrite (bool_decide_eq_true_2 (Z.of_nat j ≠ Z.of_nat b)) by lia. rewrite andb_true_r.
      assert (E : nth j ws' NULL_WORD = nth j ws NULL_WORD).
      { unfold ws'. by rewrite !nth_lookup, list_lookup_insert_ne by done. }
      rewrite E in Etake. case_bool_decide as Hslot; rewrite slot_null in Hslot.
      * apply wp_bind. eapply wp_rd_son; [by eapply (grow_C s0 C HC)|exact Hat|done|done|].
        rewrite (some_son _ Hslot) in Etake. pose proof (present_take_le (S j) ws') as Hle.
        rewrite Etake, length_app in Hle. simpl in Hle.
        apply wp_bind. eapply (wp_wr _ _ _ _ 0%nat); [exact HG2|done| |].
        { cbn [length]. rewrite length_app, length_replicate. lia. }
        intros s3 HG3. apply wp_ret. rewrite Etake, length_app. split; [simpl; lia|].
        replace (Z.to_nat (Z.of_nat (length (present (take j ws'))) + 1)) with (S (length (present (take j ws')))) in HG3 by lia.
        simpl in HG3. rewrite <- (Nat.add_0_r (length (present (take j ws')))) in HG3 at 1. rewrite insert_app_r in HG3.
        destruct (length (present ws') - length (present (take j ws')))%nat as [|m] eqn:Em; [lia|].
        simpl in HG3. rewrite <- app_assoc. simpl.
        by replace (length (present ws') - (length (present (take j ws')) + 1))%nat with m by lia.
      * apply wp_ret. rewrite Hslot in Etake. simpl in Etake. rewrite app_nil_r in Etake. by rewrite Etake.
  - intros k s2 (-> & HG2). apply wp_ret, HQ; [done|]. rewrite take_ge in HG2 by lia.
    rewrite Nat.sub_diag, app_nil_r in HG2. exact HG2.
Qed.

(** Joining the node with the only other son. *)
Lemma wp_merge_nodes j qpre qws m t2 (Q : Z → state → Prop) :
  (j < 4)%nat → slot ws j = 3 - slot ws b → nth j ws NULL_WORD ≠ NULL_WORD →
  node_at C (nth j ws NULL_WORD) qpre qws m t2 → (length pre + length qpre ≤ 9)%nat →
  (∀ r s' u, 0 < r → 0 ≤ u ≤ 5 → grow s0 s' u [(r, node_words (pre ++ Z.of_nat j :: qpre) qws)] → Q r s') →
  wp (merge_nodes p (nth j ws NULL_WORD) (type_index (sons_type ws)) (slot ws b)
    (2 * Z.of_nat (length pre)) (2 * Z.of_nat (length qpre))) Q s.
Proof.
  intros Hj Hslot Hn Hat2 Hl HQ. pose proof (na_length _ _ _ _ _ _ Hat) as H4. pose proof (na_present _ _ _ _ _ _ Hat) as Hp.
  pose proof (na_length _ _ _ _ _ _ Hat2) as H4q. pose proof (na_present _ _ _ _ _ _ Hat2) as Hpq.
  pose proof (na_prefix _ _ _ _ _ _ Hat) as Hd. pose proof (na_prefix _ _ _ _ _ _ Hat2) as Hdq.
  pose proof (length_present qws H4q) as Hlq. pose proof (grow_C s0 C HC _ _ _ HG) as HCs.
  assert (Hpos : (1 ≤ length (present qws))%nat) by (destruct (present qws); simpl; [done|lia]).
  assert (Hdj : digit (Z.of_nat j)) by (unfold digit; lia).
  assert (Hd' : Forall digit (pre ++ Z.of_nat j :: qpre)) by (apply Forall_app; split; [done|by constructor]).
  assert (Hl' : (length (pre ++ Z.of_nat j :: qpre) ≤ 10)%nat) by (rewrite length_app; simpl; lia).
  apply wp_bind. eapply wp_node_type; [exact HCs|exact Hat2|].
  apply wp_bind, wp_assert; [apply bool_decide_eq_true; by apply sons_type_node|].
  apply wp_bind. eapply wp_tab; [by apply type_index_range|by apply size_sons|].
  apply wp_bind. eapply wp_allocate; [exact HG|unfold room in *; lia|change NUMBER_OF_WORDS_PER_PAGE with 16384; lia|].
  intros r s1 Hr HG1. pose proof (grow_C s0 C HC _ _ _ HG1) as HC1.
  apply wp_bind. eapply wp_node_prefix_of; [exact HC1|exact Hat|]. cbn zeta.
  destruct (deoffset_sons ws H4 Hp) as (rd & Erd & Hrd).
  apply wp_bind. eapply wp_tab2; [by apply type_index_range| |exact Erd| |].
  { pose proof (slot_range ws j). assert (slot ws j ≠ 0) by (by rewrite slot_null). lia. }
  { replace (2 - slot ws b) with (slot ws j - 1) by lia. apply Hrd; [done|by rewrite slot_null]. }
  apply wp_bind, wp_assert; [apply bool_decide_eq_true; lia|].
  apply wp_bind. eapply wp_node_prefix_of; [exact HC1|exact Hat2|]. cbn zeta.
  assert (Hdp' : Forall digit (pre ++ [Z.of_nat j])) by (apply Forall_app; split; [done|by apply Forall_singleton]).
  assert (Hlj : (length ((pre ++ [Z.of_nat j]) ++ qpre) ≤ 16)%nat) by (rewrite !length_app; simpl; lia).
  rewrite num_snoc by (done || lia). rewrite (num_shift (pre ++ [Z.of_nat j]) qpre Hdp' Hdq Hlj).
  replace (2 * Z.of_nat (length pre) + 2 * Z.of_nat (length qpre) + 2)
    with (2 * Z.of_nat (length (pre ++ Z.of_nat j :: qpre))) by (rewrite length_app; simpl; lia).
  rewrite <- app_assoc. cbn [app]. rewrite (prefix_lor _ Hd' Hl').
  apply wp_bind. eapply wp_set_prefix; [exact HG1|exact Hd'|exact Hl'|]. intros s2 HG2.
  replace (Z.to_nat (1 + Z.of_nat (length (present qws))) - 1)%nat with (length (present qws)) in HG2 by lia.
  replace (Z.to_nat (1 + Z.of_nat (length (present qws)) - 1)) with (length (present qws)) by lia.
  apply wp_bind. eapply wp_copy_sons; [exact HC|apply Hat2|exact HG2|by rewrite length_replicate|].
  intros s3 HG3. apply wp_ret. eapply HQ; [exact Hr| |exact HG3]. lia.
Qed.
End without.
End ops.

(** * Paths *)

Lemma node_of_ext pre g g' : (∀ j, (j < 4)%nat → g j = g' j) → node_of pre g = node_of pre g'.
Proof. intros H. unfold node_of. by rewrite !H by lia. Qed.

Lemma node_of_empty pre g ds : (∀ j, (j < 4)%nat → g j = Empty) → Forall digit ds → lookup (node_of pre g) ds = None.
Proof.
  intros Hg Hd. destruct (lookup_node_of_cases pre g ds Hd) as [(b & rest & -> & Hb & _)|[E _]]; [|done].
  rewrite lookup_node_of by done. unfold digit in Hb. by rewrite Hg by lia.
Qed.

Lemma trie_ok_node_of n pre g j : Forall digit pre → (length pre ≤ 10)%nat → (S (length pre) ≤ n)%nat →
  (j < 4)%nat → g j ≠ Empty → (∀ k, (k < 4)%nat → trie_ok (n - S (length pre)) (g k)) → trie_ok n (node_of pre g).
Proof.
  intros Hpre Hl Hn Hj Hne Hg. simpl. split_and!; [done..| |apply Hg; lia|apply Hg; lia|apply Hg; lia|apply Hg; lia].
  intros (E0 & E1 & E2 & E3). apply Hne. clear Hne Hg. revert j Hj. by apply four_cases.
Qed.

Section path.
Context (s0 : state) (C : cenv) (HC : holds s0 C) (n : nat) (T0 : trie) (ds0 : list Z).
Context (Hroom : room s0 TRIEV2_MAX_ALLOCATION) (Hds0 : length ds0 = n).

(** The path from the root to the trie [t] behind which [ds] is left of the key. *)
Inductive zip : list path_item → trie → list Z → Prop :=
| zip_nil : zip [] T0 ds0
| zip_cons path t p pre b rest ws :
    zip path t (pre ++ b :: rest) → node_at C p pre ws (length rest) t → t = node_of pre (sons t) →
    digit b → Forall digit rest → is_some_son (nth (Z.to_nat b) ws NULL_WORD) = true →
    zip (PathItem p b (slot ws (Z.to_nat b)) :: path) (sons t (Z.to_nat b)) rest.

Lemma zip_length path t ds : zip path t ds → (length path + length ds ≤ length ds0)%nat.
Proof.
  clear Hds0 Hroom HC n s0. induction 1 as [|path t p pre b rest ws _ IH]; [done|]. rewrite length_app in IH. simpl in *. lia. Qed.

(** Going up with a new son. *)
Lemma wp_delete_up path t ds v t' o s u cs new :
  zip path t ds → grow s0 s u cs → is_trie (adds C cs) v t' → trie_ok (length ds) t' → t' ≠ Empty → v ≠ NULL_WORD →
  upd t ds o t' → 0 ≤ u → u + 5 * Z.of_nat (length path) ≤ TRIEV2_MAX_ALLOCATION → (path = [] → new = Some v) →
  wp (delete_up path v new) (λ r s', ∃ cs' u', 0 ≤ u' ≤ TRIEV2_MAX_ALLOCATION ∧ grow s0 s' u' cs' ∧
    ∃ T', is_trie (adds C cs') r T' ∧ trie_ok n T' ∧ upd T0 ds0 o T') s.
Proof.
  intros Hz. revert v t' s u cs new.
  induction Hz as [|path t p pre b rest ws Hz IH Hat Et Hb Hdr Hs]; intros v t' s u cs new HG Hv Hok Hne Hvn Hu Hu0 Hmax Hnew; simpl.
  - rewrite Hnew by done. eapply wp_of_option; [done|]. exists cs, u. split; [lia|]. split; [done|].
    exists t'. by rewrite <- Hds0.
  - pose proof Hb as Hb4. unfold digit in Hb4. cbn [length] in Hmax.
    assert (Hlen : (length (pre ++ b :: rest) - S (length pre))%nat = length rest) by (rewrite length_app; simpl; lia).
    apply wp_bind. eapply wp_copy_node; [exact HC|exact Hat|lia|exact Hs|by apply some_son|exact HG|unfold room in *; lia|].
    intros q s1 u1 Hq Hu1 HG1.
    assert (Hsub : csub (adds C cs) (adds C ((q, node_words pre (<[Z.to_nat b := v]> ws)) :: cs)))
      by (apply adds_mono; [done|]; solve_incl).
    eapply (IH q (node_of pre (graft (sons t) (Z.to_nat b) t'))); [exact HG1| | |done|unfold NULL_WORD; lia| |lia|lia|done].
    + eapply is_trie_graft; [apply Hat|lia|right; apply list_elem_of_here| |by eapply is_trie_mono].
      intros j Hj _. eapply is_trie_mono; [|by apply (na_sons _ _ _ _ _ _ Hat)]. apply adds_base.
    + apply trie_ok_graft; [apply Hat|apply Hat|rewrite length_app; simpl; lia|lia|done|by rewrite Hlen|].
      intros j Hj _. rewrite Hlen. by apply (na_sons _ _ _ _ _ _ Hat).
    + apply upd_graft; [done| |exact Hu]. intros ds' _ _. by rewrite <- Et.
Qed.

(** What the removal arrives at: the new node, its place and the emptied trie. *)
Definition removed (path : list path_item) (r : option (Z * list path_item)) (s : state) : Prop :=
  match r with
  | None => grow s0 s 0 [] ∧ upd T0 ds0 None Empty
  | Some (q, path') => ∃ t ds t' cs u, zip path' t ds ∧ (length path' < length path)%nat ∧
      grow s0 s u cs ∧ 0 ≤ u ≤ 5 ∧ is_trie (adds C cs) q t' ∧ trie_ok (length ds) t' ∧ t' ≠ Empty ∧ q ≠ NULL_WORD ∧
      upd t ds None t'
  end.

Lemma removed_skip item path r s : removed path r s → removed (item :: path) r s.
Proof.
  destruct r as [[q path']|]; [|done]. intros (t & ds & t' & cs & u & ? & ? & ?). exists t, ds, t', cs, u.
  split; [done|]. split; [simpl; lia|done].
Qed.

(** A copy of a node without the son. *)
Lemma removed_without item path t p pre b rest ws q s u j :
  zip path t (pre ++ b :: rest) → node_at C p pre ws (length rest) t → t = node_of pre (sons t) → digit b →
  upd (sons t (Z.to_nat b)) rest None Empty → (j < 4)%nat → j ≠ Z.to_nat b → nth j ws NULL_WORD ≠ NULL_WORD →
  0 < q → 0 ≤ u ≤ 5 → grow s0 s u [(q, node_words pre (<[Z.to_nat b := NULL_WORD]> ws))] →
  removed (item :: path) (Some (q, path)) s.
Proof.
  intros Hz Hat Et Hb Hu Hj Hjb Hn Hq Hu5 HG. pose proof Hb as Hb4. unfold digit in Hb4.
  assert (Hlen : (length (pre ++ b :: rest) - S (length pre))%nat = length rest) by (rewrite length_app; simpl; lia).
  exists t, (pre ++ b :: rest), (node_of pre (graft (sons t) (Z.to_nat b) Empty)).
  eexists _, _. split; [exact Hz|]. split; [simpl; lia|]. split; [exact HG|]. split; [exact Hu5|].
  split_and!; [| |done|unfold NULL_WORD; lia|].
  - eapply is_trie_graft; [apply Hat|lia|right; apply list_elem_of_here| |done].
    intros k Hk _. eapply is_trie_mono; [|by apply (na_sons _ _ _ _ _ _ Hat)]. apply adds_base.
  - eapply trie_ok_node_of; [apply Hat|apply Hat|rewrite length_app; simpl; lia|exact Hj| |].
    + unfold graft. rewrite decide_False by done. intros E. apply Hn. by apply (na_sons _ _ _ _ _ _ Hat j Hj).
    + intros k Hk. rewrite Hlen. unfold graft. destruct (decide _); [done|]. by apply (na_sons _ _ _ _ _ _ Hat k Hk).
  - apply upd_graft; [done| |exact Hu]. intros ds' _ _. by rewrite <- Et.
Qed.

(** A son that took over the place of its parent. *)
Lemma removed_merged item path t p pre b rest ws q s u j qpre q1 q2 q3 q4 qws m :
  zip path t (pre ++ b :: rest) → node_at C p pre ws (length rest) t → t = node_of pre (sons t) → digit b →
  upd (sons t (Z.to_nat b)) rest None Empty → (j < 4)%nat → j ≠ Z.to_nat b →
  (∀ k, (k < 4)%nat → k ≠ Z.to_nat b → k ≠ j → nth k ws NULL_WORD = NULL_WORD) →
  sons t j = Node qpre q1 q2 q3 q4 → node_at C (nth j ws NULL_WORD) qpre qws m (sons t j) →
  (length pre + length qpre ≤ 9)%nat →
  0 < q → 0 ≤ u ≤ 5 → grow s0 s u [(q, node_words (pre ++ Z.of_nat j :: qpre) qws)] →
  removed (item :: path) (Some (q, path)) s.
Proof.
  intros Hz Hat Et Hb Hu Hj Hjb Hothers Ej Hatj Hl Hq Hu5 HG. pose proof Hb as Hb4. unfold digit in Hb4.
  destruct (na_sons _ _ _ _ _ _ Hat j Hj) as (_ & Hokj & _). rewrite Ej in Hokj, Hatj.
  assert (Hdj : digit (Z.of_nat j)) by (unfold digit; lia).
  exists t, (pre ++ b :: rest), (Node (pre ++ Z.of_nat j :: qpre) q1 q2 q3 q4).
  eexists _, _. split; [exact Hz|]. split; [simpl; lia|]. split; [exact HG|]. split; [exact Hu5|].
  split_and!; [| |done|unfold NULL_WORD; lia|].
  - eapply same_sons; [apply adds_base|exact Hatj|]. right. apply list_elem_of_here.
  - destruct Hokj as (Hdq & Hlq & Hnq & Hneq & Hokq). rewrite !length_app. cbn [length].
    split; [apply Forall_app; split; [apply Hat|by constructor]|]. rewrite length_app. cbn [length].
    split; [lia|]. split; [lia|]. split; [done|].
    by replace (length pre + S (length rest) - S (length pre + S (length qpre)))%nat
      with (length rest - S (length qpre))%nat by lia.
  - assert (Hup : upd t (pre ++ b :: rest) None (node_of pre (graft (sons t) (Z.to_nat b) Empty))).
    { apply upd_graft; [done| |exact Hu]. intros ds' _ _. by rewrite <- Et. }
    intros ds' Hd' Hl'. rewrite <- (Hup ds' Hd' Hl'). rewrite split_lookup by done. rewrite Nat2Z.id. f_equal.
    apply node_of_ext. intros k Hk. unfold split_sons, graft. destruct (decide (k = j)) as [->|Hkj].
    + by rewrite decide_False.
    + destruct (decide (k = Z.to_nat b)); [done|]. symmetry. apply (na_sons _ _ _ _ _ _ Hat k Hk). by apply Hothers.
Qed.

Lemma wp_trie_remove path t ds last s :
  zip path t ds → grow s0 s 0 [] → upd t ds None Empty → last = bool_decide (ds = []) →
  wp (delete_remove last path) (removed path) s.
Proof.
  intros Hz. revert last. induction Hz as [|path t p pre b rest ws Hz IH Hat Et Hb Hdr Hs]; intros last HG Hu Hlast.
  { by apply wp_ret. }
  pose proof (na_length _ _ _ _ _ _ Hat) as H4. pose proof (na_present _ _ _ _ _ _ Hat) as Hp.
  pose proof (length_present ws H4) as Hl. pose proof (grow_C s0 C HC _ _ _ HG) as HCs. pose proof Hb as Hb4. unfold digit in Hb4.
  assert (Hbn : (Z.to_nat b < 4)%nat) by lia. assert (Hr5 : room s0 5).
  { unfold room in *. change TRIEV2_MAX_ALLOCATION with 85 in Hroom. lia. }
  pose proof (length_without ws H4 (Z.to_nat b) Hbn Hs) as Hlw.
  cbn [delete_remove pi_node pi_offset pi_ix]. apply wp_bind. eapply wp_node_index; [exact HCs|exact Hat|].
  apply wp_bind. eapply wp_tab; [by apply type_index_range|by apply size_sons|].
  destruct (decide (length (present ws) = 1)%nat) as [E1|E1]; [|destruct (decide (length (present ws) = 2)%nat) as [E2|E2]].
  - rewrite E1, !bool_decide_eq_false_2 by lia. cbn [orb]. eapply wp_mono; [|intros r s'; apply removed_skip].
    apply IH; [done| |symmetry; apply bool_decide_eq_false; by destruct pre].
    pose proof (only_present ws H4 (Z.to_nat b) Hbn Hs E1) as Honly.
    assert (Hup : upd t (pre ++ b :: rest) None (node_of pre (graft (sons t) (Z.to_nat b) Empty))).
    { apply upd_graft; [done| |exact Hu]. intros ds' _ _. by rewrite <- Et. }
    intros ds' Hd' Hl'. rewrite <- (Hup ds' Hd' Hl'). symmetry. apply node_of_empty; [|done].
    intros j Hj. unfold graft. destruct (decide _) as [|Hjb]; [done|]. apply (na_sons _ _ _ _ _ _ Hat j Hj). by apply Honly.
  - rewrite E2, bool_decide_eq_true_2 by lia.
    destruct (two_present ws H4 (Z.to_nat b) Hbn Hs E2) as (j & Hj & Hjb & Hn & Eslot & Hothers & Eonly).
    rewrite <- Eslot. apply wp_bind. eapply wp_rd_son; [exact HCs|exact Hat|exact Hj|exact Hn|].
    assert (Hno : wp (new_p ← no_merge p (nth j ws NULL_WORD) (type_index (sons_type ws)) b; mret (Some (new_p, path)))
      (removed (PathItem p b (slot ws (Z.to_nat b)) :: path)) s).
    { rewrite <- (Z2Nat.id b) at 1 by lia. apply wp_bind. eapply wp_no_merge; [exact HC|exact HG|exact Hat|exact Hbn|done|exact Eonly|].
      intros q s1 Hq HG1. apply wp_ret. eapply removed_without; [exact Hz|exact Hat|exact Et|exact Hb|exact Hu|exact Hj|done|done|done| |exact HG1]. lia. }
    destruct last; [exact Hno|]. symmetry in Hlast. apply bool_decide_eq_false in Hlast.
    destruct rest as [|d rest]; [done|].
    destruct (son_node _ _ _ _ _ _ _ _ HCs Hat Hj Hn) as (qpre & q1 & q2 & q3 & q4 & qws & Ej & Hlq & Hatq).
    apply wp_bind. eapply wp_prefix_length_of; [exact HCs|exact Hat|].
    apply wp_bind. eapply wp_prefix_length_of; [exact HCs|exact Hatq|].
    clear IH.
    destruct (decide (2 * Z.of_nat (length pre) + 2 * Z.of_nat (length qpre) ≤ 18)) as [Hsum|Hsum];
      [rewrite bool_decide_eq_true_2 by done|rewrite bool_decide_eq_false_2 by done; exact Hno]. apply wp_bind.
    eapply wp_merge_nodes; [exact HC|exact HG|exact Hat|exact Hbn|exact Hr5|exact Hj|exact Eslot|exact Hn|exact Hatq|lia|].
    intros q s1 u1 Hq Hu1 HG1. apply wp_ret.
    eapply removed_merged; [exact Hz|exact Hat|exact Et|exact Hb|exact Hu|exact Hj|done|exact Hothers|exact Ej|exact Hatq|lia|done|exact Hu1|exact HG1].
  - assert (E3 : (3 ≤ length (present ws))%nat) by (destruct (length (present ws)) as [|[|[|]]] eqn:E; [apply length_zero_iff_nil in E; done|lia..]).
    rewrite bool_decide_eq_false_2 by lia.
    assert (E45 : bool_decide (1 + Z.of_nat (length (present ws)) = 4) || bool_decide (1 + Z.of_nat (length (present ws)) = 5) = true).
    { apply orb_true_iff. rewrite !bool_decide_eq_true. lia. }
    rewrite E45. destruct (other_present ws H4 (Z.to_nat b) Hbn Hs ltac:(lia)) as (j & Hj & Hjb & Hn).
    rewrite <- (Z2Nat.id b) at 1 by lia. apply wp_bind.
    eapply wp_copy_without; [exact HC|exact HG|exact Hat|exact Hbn|exact Hs|done| |reflexivity|].
    { intros E. rewrite E in Hlw. simpl in Hlw. lia. }
    intros q s1 Hq HG1. apply wp_ret.
    eapply removed_without; [exact Hz|exact Hat|exact Et|exact Hb|exact Hu|exact Hj|done|done|done| |exact HG1]. lia.
Qed.

(** The search. *)
Lemma wp_delete_descend fuel s p t ds path (Q : option (list path_item * Z) → state → Prop) :
  holds s C → search_at C p t ds → zip path t ds → (n ≤ 16)%nat → lookup T0 ds0 = lookup t ds → (length ds < fuel)%nat →
  (lookup T0 ds0 = None → Q None s) →
  (∀ path d, path ≠ [] → zip path (Leaf d) [] → lookup T0 ds0 = Some d → Q (Some (path, d)) s) →
  wp (loop fuel delete_descend_step (p, just ds, 2 * Z.of_nat (length ds), path)) Q s.
Proof.
  intros HCs Hs Hz Hn Hlk Hf HQn HQs.
  eapply wp_loop with (I := λ k '(p, key, kl, path) s', s' = s ∧ ∃ t ds, search_at C p t ds ∧ zip path t ds ∧
    key = just ds ∧ kl = 2 * Z.of_nat (length ds) ∧ lookup T0 ds0 = lookup t ds ∧ k = length ds); [exact Hf| |].
  { split; [done|]. by exists t, ds. }
  clear fuel p t ds path Hs Hz Hlk Hf.
  intros k [[[p key] kl] path] s' (-> & t & ds & Hs & Hz & -> & -> & Hlk & ->).
  unfold delete_descend_step. eapply wp_descend; [exact HCs|exact Hs| |].
  - intros E. apply wp_ret, HQn. by rewrite Hlk.
  - intros pre b rest ws Eds Hat Hb Hn' El. pose proof (sa_digits _ _ _ _ Hs) as Hd. pose proof (sa_length _ _ _ _ Hs) as Hl.
    pose proof (zip_length _ _ _ Hz) as Hzl. destruct (na_node _ _ _ _ _ _ Hat) as (s1 & s2 & s3 & s4 & Et).
    rewrite Eds in Hd, Hl, Hzl, Hz. apply Forall_app in Hd as [_ Hd]. rewrite length_app in Hl, Hzl. cbn [length] in Hl, Hzl.
    pose proof Hd as [Hdb Hdr]%Forall_cons.
    apply wp_bind. rewrite bool_decide_eq_true_2 by (unfold MAX_PATH; lia). apply wp_ret. cbn zeta.
    rewrite just_digit by (done || (simpl; lia)).
    assert (Hz' : zip (PathItem p b (slot ws (Z.to_nat b)) :: path) (sons t (Z.to_nat b)) rest).
    { eapply zip_cons; [exact Hz|exact Hat| |exact Hdb|exact Hdr|by apply some_son]. by rewrite Et. }
    apply wp_bind. eapply wp_rd_son; [exact HCs|exact Hat|exact Hb|exact Hn'|].
    rewrite just_tail by (done || (simpl; lia)).
    replace (2 * Z.of_nat (length (b :: rest)) - 2) with (2 * Z.of_nat (length rest)) by (simpl; lia).
    destruct (decide (rest = [])) as [->|Hr].
    + rewrite bool_decide_eq_false_2 by (intros H; by apply H). apply wp_ret.
      rewrite (son_leaf _ _ _ _ _ _ Hat Hb Hn') in Hz'. apply HQs; [done|exact Hz'|].
      rewrite Hlk, El. eapply search_leaf; [exact Hat|done|done].
    + rewrite bool_decide_eq_true_2 by (destruct rest; simpl; [done|lia]).
      destruct (search_next _ _ HCs _ _ _ _ _ _ Hat Hb Hn' Hdr ltac:(lia) Hr) as [Hs' Htag].
      apply wp_bind, wp_assert; [exact Htag|]. apply wp_ret. exists (length rest).
      split; [rewrite Eds, length_app; simpl; lia|]. split; [done|]. exists (sons t (Z.to_nat b)), rest.
      split_and!; [exact Hs'|exact Hz'|done|done|by rewrite Hlk|done].
Qed.

(** The way up and the self-test. *)
Lemma wp_delete_finish heaviness fuel path t ds v t' o s u cs new :
  zip path t ds → grow s0 s u cs → is_trie (adds C cs) v t' → trie_ok (length ds) t' → t' ≠ Empty → v ≠ NULL_WORD →
  upd t ds o t' → 0 ≤ u → u + 5 * Z.of_nat (length path) ≤ TRIEV2_MAX_ALLOCATION → (path = [] → new = Some v) →
  (n < fuel)%nat →
  wp (new_p ← delete_up path v new;
      ok ← triev2_make_assertions heaviness fuel new_p (2 * Z.of_nat n);
      massert (bool_decide (ok ≠ 0));;
      mret new_p)
    (λ r s', ∃ cs' u', 0 ≤ u' ≤ TRIEV2_MAX_ALLOCATION ∧ grow s0 s' u' cs' ∧
      ∃ T', is_trie (adds C cs') r T' ∧ trie_ok n T' ∧ upd T0 ds0 o T') s.
Proof.
  intros Hz HG Hv Hok Hne Hvn Hu Hu0 Hmax Hnew Hf. apply wp_bind.
  eapply wp_mono; [by eapply (wp_delete_up path t ds v t' o s u cs new)|].
  intros r s1 (cs' & u' & Hu' & HG' & T' & HT & HokT & HuT).
  apply wp_bind. eapply wp_triev2_make_assertions; [by eapply grow_holds; [exact HG'|]|exact Hf|exact HokT|exact HT|].
  apply wp_bind, wp_assert; [done|]. apply wp_ret. exists cs', u'. split; [done|]. split; [done|]. by exists T'.
Qed.
End path.

(** * The function *)

Lemma upd_delete n T m key T' : trie_map n T m → upd T (digits n key) None T' → trie_map n T' (delete (key_of n key) m).
Proof.
  intros Hm Hu k. destruct (decide (key_of n key = k)) as [<-|Hne].
  - rewrite lookup_delete_eq, decide_True by apply key_of_range. rewrite key_of_digits, Hu by (done || apply digits_digit).
    by rewrite decide_True.
  - rewrite lookup_delete_ne, Hm by done. destruct (decide _) as [Hk|]; [|done].
    rewrite Hu by (rewrite ?length_digits; done || apply digits_digit). rewrite decide_False; [done|].
    intros E. apply Hne. apply digits_inj with n; [apply key_of_range|done|]. by rewrite key_of_digits, E.
Qed.

(** The map behind a deletion or an update. *)
Definition deleted_map (m : gmap Z Z) (k data : Z) : gmap Z Z :=
  if decide (data = NULL_WORD) then delete k m else <[k := data]> m.

(** The results of [triev2_delete], where [data] is what the update function
    makes of the key's old data. *)
Definition delete_result (s : state) (n : nat) (m : gmap Z Z) (k : Z) (data : Z → Z) (root r : Z) (s' : state) : Prop :=
  s ⊑ₛ s' ∧ wf s' ∧
  first_generation_allocation_ptr s - 4 * TRIEV2_MAX_ALLOCATION ≤ first_generation_allocation_ptr s' ∧
  match m !! k with
  | None => r = root ∧ s' = s
  | Some d => if decide (data d = d) then r = root ∧ s' = s else trie_repr (blk s') r n (deleted_map m k (data d))
  end.

Lemma delete_nothing s n m key data root : wf s → (∀ d, m !! key_of n key = Some d → data d = d) →
  delete_result s n m (key_of n key) data root root s.
Proof.
  intros Hwf H. split; [done|]. split; [done|]. split; [change TRIEV2_MAX_ALLOCATION with 85; lia|].
  destruct (m !! _) as [d|] eqn:E; [|done]. by rewrite decide_True by by apply H.
Qed.

(** The trie is that of [s0]; the update function may have noted something in
    the global variables, which gives [s1]. *)
Section delete.
Context (s0 s1 : state) (n : nat) (m : gmap Z Z) (root key : Z).
Context (HC : holds s1 (blk s0)) (Hwf : wf s1) (Hn : (1 ≤ n ≤ 16)%nat) (Hroom : room s1 TRIEV2_MAX_ALLOCATION).

Lemma delete_done d x o r s' cs u T T' : trie_map n T m → m !! key_of n key = Some d → x ≠ d →
  o = (if decide (x = NULL_WORD) then None else Some x) →
  0 ≤ u ≤ TRIEV2_MAX_ALLOCATION → grow s1 s' u cs → is_trie (adds (blk s0) cs) r T' → trie_ok n T' →
  upd T (digits n key) o T' → delete_result s1 n m (key_of n key) (λ _, x) root r s'.
Proof.
  intros Hm Hd Hne -> Hu HG HT Hok Hupd. split; [apply HG|]. split; [apply HG|].
  split; [pose proof (grow_used _ _ _ _ HG); lia|]. rewrite Hd, decide_False by done.
  exists T'. split; [done|]. split.
  - eapply is_trie_mono; [|exact HT]. intros p ws Hp. by apply (grow_holds _ _ _ _ _ HG HC).
  - unfold deleted_map. destruct (decide _); [by eapply upd_delete|by eapply upd_map].
Qed.

(** Deletion of a key that is there, whose data [d] becomes [x]. *)
Lemma wp_delete_present heaviness fuel f data d x :
  trie_repr (blk s0) root n m → (n < fuel)%nat → m !! key_of n key = Some d →
  (match f with Some f => f d data | None => mret data end : M Z) s0 = Ok x s1 →
  wp (triev2_delete heaviness fuel root key (2 * Z.of_nat n) f data)
    (delete_result s1 n m (key_of n key) (λ _, x) root) s0.
Proof.
  intros Hrep Hf Hd Hx. pose proof Hrep as (T & Hok & Ht & Hm). pose proof (trie_map_lookup _ _ _ key Hm) as Hlk.
  pose proof (holds_blk s0) as HC0. unfold triev2_delete. case_bool_decide as Hroot.
  { by rewrite (trie_repr_null _ _ _ _ _ HC0 Hrep Hroot), lookup_empty in Hd. }
  apply wp_bind. eapply wp_triev2_make_assertions; [exact HC0|exact Hf|exact Hok|exact Ht|].
  apply wp_bind, wp_assert; [done|]. apply wp_bind, wp_assert; [apply bool_decide_eq_true; lia|].
  rewrite just_digits by lia. apply wp_bind.
  replace (2 * Z.of_nat n) with (2 * Z.of_nat (length (digits n key))) at 1 by (by rewrite length_digits).
  eapply (wp_delete_descend (blk s0) n T (digits n key));
    [apply length_digits|exact HC0|by eapply search_start|apply zip_nil|lia|done|by rewrite length_digits| |].
  { intros E. by rewrite Hlk, E in Hd. }
  intros path d' Hpath Hz Hd'. rewrite <- Hlk, Hd in Hd'. injection Hd' as <-.
  pose proof Hz as Hzl. apply zip_length in Hzl. rewrite length_digits in Hzl. cbn [length] in Hzl.
  apply wp_bind. eapply wp_run; [exact Hx|].
  case_bool_decide as Ex.
  { apply wp_ret, delete_nothing; [done|]. intros d'. rewrite Hd. by intros [= <-]. }
  apply wp_bind. case_bool_decide as Enull.
  - apply wp_bind. eapply wp_mono.
    { eapply (wp_trie_remove s1 (blk s0) HC n T (digits n key) Hroom); [apply length_digits|exact Hz|by apply grow_refl| |done].
      intros [|? ?] _ El; [|done]. by rewrite decide_True. }
    intros [[q path']|] s2 Hres; apply wp_ret; simpl.
    + destruct Hres as (t & ds & t' & cs & u & Hz' & Hlp & HG & Hu & HT & HokT & HneT & Hq & Hupd).
      eapply wp_mono; [eapply wp_delete_finish; [exact HC|exact Hroom|apply length_digits|exact Hz'|exact HG|exact HT|exact HokT|exact HneT|exact Hq|exact Hupd|lia| |done|exact Hf]|].
      { change TRIEV2_MAX_ALLOCATION with 85. lia. }
      intros r s3 (cs' & u' & Hu' & HG' & T' & HT' & HokT' & HuT').
      eapply (delete_done d x None); [exact Hm|exact Hd|exact Ex| |exact Hu'|exact HG'|exact HT'|exact HokT'|exact HuT'].
      by rewrite decide_True.
    + destruct Hres as [HG Hupd]. apply wp_ret.
      eapply (delete_done d x None _ _ [] 0 T Empty); [exact Hm|exact Hd|exact Ex| |change TRIEV2_MAX_ALLOCATION with 85; lia|exact HG|done|done|exact Hupd].
      by rewrite decide_True.
  - apply wp_ret.
    eapply wp_mono; [eapply (wp_delete_finish s1 (blk s0) HC n T (digits n key) Hroom (length_digits n key) heaviness fuel path (Leaf d) [] x (Leaf x) (Some x) s1 0 [] None);
      [exact Hz|by apply grow_refl|done|done|done|done| |lia| |by intros ->|exact Hf]|].
    { intros [|? ?] _ El; [|done]. by rewrite decide_True. }
    { change TRIEV2_MAX_ALLOCATION with 85. lia. }
    intros r s3 (cs' & u' & Hu' & HG' & T' & HT' & HokT' & HuT').
    eapply (delete_done d x (Some x)); [exact Hm|exact Hd|exact Ex| |exact Hu'|exact HG'|exact HT'|exact HokT'|exact HuT'].
    by rewrite decide_False.
Qed.
End delete.

Lemma wp_delete_absent heaviness fuel s n m root key f data g :
  wf s → (1 ≤ n ≤ 16)%nat → trie_repr (blk s) root n m → (n < fuel)%nat → m !! key_of n key = None →
  wp (triev2_delete heaviness fuel root key (2 * Z.of_nat n) f data)
    (delete_result s n m (key_of n key) g root) s.
Proof.
  intros Hwf Hn Hrep Hf Hd. pose proof Hrep as (T & Hok & Ht & Hm). pose proof (trie_map_lookup _ _ _ key Hm) as Hlk.
  pose proof (holds_blk s) as HC0. unfold triev2_delete.
  assert (Hnothing : delete_result s n m (key_of n key) g root root s) by (apply delete_nothing; [done|congruence]).
  case_bool_decide as Hroot; [rewrite <- Hroot at 1; by apply wp_ret|].
  apply wp_bind. eapply wp_triev2_make_assertions; [exact HC0|exact Hf|exact Hok|exact Ht|].
  apply wp_bind, wp_assert; [done|]. apply wp_bind, wp_assert; [apply bool_decide_eq_true; lia|].
  rewrite just_digits by lia. apply wp_bind.
  replace (2 * Z.of_nat n) with (2 * Z.of_nat (length (digits n key))) at 1 by (by rewrite length_digits).
  eapply (wp_delete_descend (blk s) n T (digits n key));
    [apply length_digits|exact HC0|by eapply search_start|apply zip_nil|lia|done|by rewrite length_digits| |].
  { intros _. by apply wp_ret. }
  intros path d Hpath Hz Hd'. rewrite <- Hlk in Hd'. congruence.
Qed.

Lemma wp_triev2_delete s n m root key heaviness fuel f g data :
  wf s → (1 ≤ n ≤ 16)%nat → room s TRIEV2_MAX_ALLOCATION →
  trie_repr (blk s) root n m → pure_update (blk s) f g → (n < fuel)%nat →
  wp (triev2_delete heaviness fuel root key (2 * Z.of_nat n) f data)
    (delete_result s n m (key_of n key) (λ d, updated g d data) root) s.
Proof.
  intros Hwf Hn Hroom Hrep Hg Hf. destruct (m !! key_of n key) as [d|] eqn:Hd; [|by apply wp_delete_absent].
  eapply wp_mono; [eapply (wp_delete_present s s); [apply holds_blk|done..|exact Hrep|exact Hf|exact Hd|]|].
  { instantiate (1 := updated g d data). destruct f as [f|], g as [g|]; [|done..]. apply Hg, holds_blk. }
  unfold delete_result. rewrite Hd. done.
Qed.

(** * Properties *)

(** C36. [triev2_delete] removes the key or updates its data, as the update
    function says: it returns the root of a trie that carries the map without the
    key or with the new data ([NULL] when it has become empty), on which the
    source's own assertions pass; if the key is not there or its data would not
    change it returns the old root and does nothing.  It terminates, does not
    leave the local array, stays within [TRIEV2_MAX_ALLOCATION] words and changes
    no trie of the old state. *)
Theorem triev2_delete_correct heaviness fuel root n m key f g data s :
  wf s → trie_repr (blk s) root n m → pure_update (blk s) f g → (1 ≤ n ≤ 16)%nat → (n < fuel)%nat →
  room s TRIEV2_MAX_ALLOCATION →
  ∃ r s', triev2_delete heaviness fuel root key (2 * Z.of_nat n) f data s = Ok r s' ∧
    delete_result s n m (key_of n key) (λ d, updated g d data) root r s' ∧
    (∀ p0 n0 m0, trie_repr (blk s) p0 n0 m0 → trie_repr (blk s') p0 n0 m0).
Proof.
  intros Hw Hr Hg Hn Hf Hroom.
  destruct (wp_inv _ _ _ (wp_triev2_delete s n m root key heaviness fuel f g data Hw Hn Hroom Hr Hg Hf))
    as (r & s' & E & Hres).
  exists r, s'. split; [done|]. split; [done|]. intros p0 n0 m0. apply trie_repr_mono. intros a ws. apply blk_ext, Hres.
Qed.

Lemma triev2_delete_correct_witness :
  ∃ r s', triev2_delete 10 17 example_root 3 4 None NULL_WORD example_state = Ok r s' ∧
    delete_result example_state 2 example_map 3 (λ d, NULL_WORD) example_root r s' ∧
    (∀ p0 n0 m0, trie_repr (blk example_state) p0 n0 m0 → trie_repr (blk s') p0 n0 m0).
Proof.
  apply (triev2_delete_correct 10 17 example_root 2 example_map 3 None None NULL_WORD).
  - apply wfb_sound. by vm_compute.
  - apply example_repr.
  - done.
  - lia.
  - lia.
  - vm_compute. discriminate.
Defined.
