(* ===== verification/Triev2Search.v ===== *)
(** Searching in tries for keys near a given one: triev2_find_at_most and
    triev2_find_nonexistent_key of triev2.c. *)

From S2P Require Import Prelude Machine Celltypes Shades Cow Bitops Compare Cells Digits Triev2 Triev2Insert.

(** * [triev2_find_at_most]

    The labels of the C function become functions: the first loop, [find_smaller]
    with the loop around it, and [find_max].  An element of the local array
    [path] is a node and its [offset]; the list of the levels above the current
    one is kept in reverse order. *)

Definition MAX_LEVELS : nat := 16 + 1.

(** How the first loop ends: the key is there; [goto find_smaller] at a node
    with the given offset; [goto check_prefix] with the two prefixes. *)
Inductive at_most_exit :=
| KeyFound (data key final_key : Z)
| FindSmaller (p offset key key_length final_key : Z) (path : list (Z * Z))
| CheckPrefix (p data node_prefix key_prefix key key_length final_key : Z) (path : list (Z * Z)).

Record at_most_state := AtMost {
  am_p : Z;
  am_data : Z;
  am_key : Z;
  am_key_length : Z;
  am_final_key : Z;
  am_path : list (Z * Z)
}.

Definition at_most_step (st : at_most_state) : M (at_most_state + at_most_exit) :=
  let p := am_p st in let key := am_key st in let key_length := am_key_length st in
  let final_key := am_final_key st in let path := am_path st in
  (if bool_decide (length path < MAX_LEVELS)%nat then mret tt else fail BadAddress);;
  prefix_length ← prefix_length_of p;
  node_prefix ← (if bool_decide (prefix_length ≠ 0) then node_prefix_of p else mret 0);
  let key_prefix := shr32 key (32 - prefix_length) in
  if bool_decide (prefix_length ≠ 0) && bool_decide (node_prefix ≠ key_prefix) then
    mret (inr (CheckPrefix p (am_data st) node_prefix key_prefix key key_length final_key path))
  else
    let '(key, key_length, final_key) :=
      if bool_decide (prefix_length ≠ 0) then
        (shl32 key prefix_length, key_length - prefix_length, Z.lor (shl32 final_key prefix_length) node_prefix)
      else (key, key_length, final_key) in
    let ix := shr32 key 30 in
    i ← branch p key;
    if bool_decide (i = 0) then
      c ← node_index p;
      g ← tab2 greatest_non_null c ix;
      mret (inr (FindSmaller p (g + 1) key key_length final_key path))
    else
      data ← rd p i;
      let key := shl32 key 2 in
      let key_length := key_length - 2 in
      let final_key := Z.lor (shl32 final_key 2) ix in
      if bool_decide (key_length ≠ 0) then
        massert (TAGGED_IS_PTR data);;
        mret (inl (AtMost data data key key_length final_key ((p, i) :: path)))
      else mret (inr (KeyFound data key final_key)).

(** [find_smaller] and the climb: the node, the index of the son to the left,
    [prefix_length], [key_length] and [final_key]; or [None] if the search
    fails. *)
Fixpoint find_smaller (path : list (Z * Z)) (p offset key_length final_key : Z) : M (option (Z * Z * Z * Z * Z)) :=
  prefix_length ← prefix_length_of p;
  let key_length := key_length + prefix_length in
  let final_key := shr32 final_key prefix_length in
  let i := offset - 1 in
  if bool_decide (i < 1) then
    match path with
    | [] => mret None
    | (p, offset) :: path => find_smaller path p offset (key_length + 2) (shr32 final_key 2)
    end
  else mret (Some (p, i, prefix_length, key_length, final_key)).

(** Going up from a node whose keys are all greater. *)
Definition go_up (path : list (Z * Z)) (key_length final_key : Z) : M (option (Z * Z * Z * Z * Z)) :=
  match path with
  | [] => mret None
  | (p, offset) :: path => find_smaller path p offset (key_length + 2) (shr32 final_key 2)
  end.

(** The son to the left that the greatest key is searched in. *)
Definition take_smaller (p i prefix_length key_length final_key : Z) : M (Z * Z * Z) :=
  '(final_key, key_length) ← (if bool_decide (prefix_length ≠ 0) then
      node_prefix ← node_prefix_of p;
      mret (Z.lor (shl32 final_key prefix_length) node_prefix, key_length - prefix_length)
    else mret (final_key, key_length));
  let final_key := shl32 final_key 2 in
  c ← node_index p;
  d ← tab2 deoffset c (i - 1);
  massert (bool_decide (d ≠ 0xFF));;
  let final_key := Z.lor final_key d in
  data ← rd p i;
  mret (data, key_length - 2, final_key).

Definition find_max_step : Z * Z * Z → M ((Z * Z * Z) + (Z * Z)) := λ '(data, key_length, final_key),
  if bool_decide (key_length = 0) then mret (inr (data, final_key))
  else
    massert (TAGGED_IS_PTR data);;
    let p := data in
    prefix_length ← prefix_length_of p;
    '(final_key, key_length) ← (if bool_decide (prefix_length ≠ 0) then
        node_prefix ← node_prefix_of p;
        mret (Z.lor (shl32 final_key prefix_length) node_prefix, key_length - prefix_length)
      else mret (final_key, key_length));
    c ← node_index p;
    i ← tab2 greatest_non_null c 4;
    data ← rd p i;
    let key_length := key_length - 2 in
    let final_key := shl32 final_key 2 in
    d ← tab2 deoffset c (i - 1);
    massert (bool_decide (d ≠ 0xFF));;
    mret (inl (data, key_length, Z.lor final_key d)).

(** The result and the new value of [*keyp]. *)
Definition triev2_find_at_most (fuel : nat) (trie_root keyp key_length : Z) : M (Z * Z) :=
  if bool_decide (trie_root = NULL_PTR) then mret (NULL_WORD, keyp)
  else
    massert (bool_decide (key_length > 0));;
    e ← loop fuel at_most_step (AtMost trie_root NULL_WORD (shl32 keyp (32 - key_length)) key_length 0 []);
    match e with
    | KeyFound data _ final_key => mret (data, final_key)
    | FindSmaller p offset key key_length final_key path =>
      r ← find_smaller path p offset key_length final_key;
      match r with
      | None => mret (NULL_WORD, key)
      | Some (p, i, prefix_length, key_length, final_key) =>
        st ← take_smaller p i prefix_length key_length final_key;
        loop fuel find_max_step st
      end
    | CheckPrefix p data node_prefix key_prefix key key_length final_key path =>
      if bool_decide (node_prefix < key_prefix) then
        loop fuel find_max_step (match path with [] => p | _ => data end, key_length, final_key)
      else
        r ← go_up path key_length final_key;
        match r with
        | None => mret (NULL_WORD, key)
        | Some (p, i, prefix_length, key_length, final_key) =>
          st ← take_smaller p i prefix_length key_length final_key;
          loop fuel find_max_step st
        end
    end.

(** * [triev2_find_nonexistent_key]

    The loop yields [None] where the key is not there, otherwise the last node
    and its father, or [NULL_PTR]. *)

Definition nonexistent_step : Z * Z * Z * Z → M ((Z * Z * Z * Z) + option (Z * Z * Z)) := λ '(p, up, rest_of_key, key_length),
  r ← match_prefix p rest_of_key key_length;
  match r with
  | None => mret (inr None)
  | Some (rest_of_key, key_length) =>
    i ← branch p rest_of_key;
    if bool_decide (i = 0) then mret (inr None)
    else
      let rest_of_key := shl32 rest_of_key 2 in
      let key_length := key_length - 2 in
      if bool_decide (key_length ≠ 0) then
        w ← rd p i;
        massert (TAGGED_IS_PTR w);;
        q ← rd p i;
        mret (inl (q, p, rest_of_key, key_length))
      else mret (inr (Some (p, up, rest_of_key)))
  end.

(** [p = WORD_TO_PTR(up\[offset\[CELL_TYPE(up) - CELL_trie1234\]\[j\]\])] with the test
    before it: [None] where there is no such son. *)
Definition cousin (up j : Z) : M (option Z) :=
  c ← node_index up;
  i ← tab2 offset c j;
  if bool_decide (i = 0) then mret None
  else p ← rd up i; mret (Some p).

(** The rest of the function, on the son [p] of [up] at [j]: go on with the next
    son if this one is full. *)
Definition first_gap (p key base : Z) (next : M Z) : M Z :=
  t ← node_type p;
  if bool_decide (t ≠ CELL_trie1234) then
    k ← tab first_nonexistent_key (type_index t);
    mret (w32 (key + base + k))
  else next.

Definition next_cousin (up key j base : Z) (next : M Z) : M Z :=
  q ← cousin up j;
  match q with
  | None => mret (w32 (key + base))
  | Some p =>
    prefix_length ← prefix_length_of p;
    massert (bool_decide (prefix_length = 0));;
    first_gap p key base next
  end.

Definition triev2_find_nonexistent_key (fuel : nat) (p key key_length : Z) : M Z :=
  massert (bool_decide (key mod 16 = 0));;
  if bool_decide (p = NULL_PTR) then mret key
  else
    massert (bool_decide (key_length > 0));;
    r ← loop fuel nonexistent_step (p, NULL_PTR, shl32 key (32 - key_length), key_length);
    match r with
    | None => mret key
    | Some (p, up, rest_of_key) =>
      massert (bool_decide (rest_of_key = 0));;
      first_gap p key 0 (
        prefix_length ← prefix_length_of p;
        if bool_decide (prefix_length ≠ 0) then mret (w32 (key + 4))
        else
          next_cousin up key 1 4 (
          next_cousin up key 2 8 (
          next_cousin up key 3 12 (
          mret 0xFFFFFFFF))))
    end.

(** * The greatest key up to a given one *)

Definition all_keys (t : trie) (n : nat) (P : list Z → Prop) : Prop :=
  ∀ ds, Forall digit ds → length ds = n → is_Some (lookup t ds) → P ds.

(** [m] is the greatest key of [t] that is not above [ds], [d] its data. *)
Record best (t : trie) (ds m : list Z) (d : Z) : Prop := {
  best_digits : Forall digit m;
  best_length : length m = length ds;
  best_there : lookup t m = Some d;
  best_le : num m ≤ num ds;
  best_greatest : all_keys t (length ds) (λ k, num k ≤ num ds → num k ≤ num m)
}.

(** All keys of [t] are above [ds]. *)
Definition none_le (t : trie) (ds : list Z) : Prop := all_keys t (length ds) (λ k, num ds < num k).

Lemma lookup_node_some pre g ds : Forall digit ds → is_Some (lookup (node_of pre g) ds) →
  ∃ b rest, ds = pre ++ b :: rest ∧ digit b ∧ Forall digit rest ∧ is_Some (lookup (g (Z.to_nat b)) rest).
Proof.
  intros Hd [d Hl]. destruct (lookup_node_of_cases pre g ds Hd) as [(b & rest & -> & Hb & Hr)|[E _]]; [|congruence].
  rewrite lookup_node_of in Hl by done. exists b, rest. split_and!; [done..|]. by exists d.
Qed.

Lemma num_lt_prefix pre a b : length a = length b → num a < num b → num (pre ++ a) < num (pre ++ b).
Proof. intros Hl H. rewrite !num_app, Hl. lia. Qed.

Lemma num_le_prefix pre a b : length a = length b → num (pre ++ a) ≤ num (pre ++ b) ↔ num a ≤ num b.
Proof. intros Hl. rewrite !num_app, Hl. lia. Qed.

Section steps.
Context (pre : list Z) (g : nat → trie) (b : Z) (rest : list Z).
Context (Hpre : Forall digit pre) (Hb : digit b) (Hrest : Forall digit rest).

(** The best key of the son is that of the node. *)
Lemma best_son m d : best (g (Z.to_nat b)) rest m d → best (node_of pre g) (pre ++ b :: rest) (pre ++ b :: m) d.
Proof.
  intros [Hd Hl Ht Hle Hg]. split.
  - apply Forall_app. split; [done|]. by constructor.
  - rewrite !length_app. simpl. lia.
  - by rewrite lookup_node_of.
  - apply num_le_prefix; [simpl; lia|]. rewrite !num_cons, Hl. lia.
  - intros ds Hds Hlds Hsome. apply lookup_node_some in Hsome as (c & r & -> & Hc & Hr & Hs); [|done].
    rewrite !length_app in Hlds. simpl in Hlds. rewrite !num_le_prefix by (simpl; lia).
    rewrite !num_cons. assert (Hlr : length r = length rest) by lia. rewrite Hlr, Hl.
    pose proof (num_bound r Hr) as B1. pose proof (num_bound rest Hrest) as B2. pose proof (num_bound m Hd) as B3.
    rewrite Hlr in B1. rewrite Hl in B3. intros Hle'. destruct (decide (c = b)) as [->|Hcb]; [|nia].
    assert (Hx : num r ≤ num m) by (apply (Hg r Hr Hlr Hs); lia). lia.
Qed.

(** The son has none: the greatest key of the next son to the left. *)
Lemma best_left j m d : none_le (g (Z.to_nat b)) rest → (Z.of_nat j < b) →
  (∀ k, (j < k)%nat → Z.of_nat k < b → g k = Empty) →
  is_max (length rest) (g j) m → lookup (g j) m = Some d →
  best (node_of pre g) (pre ++ b :: rest) (pre ++ Z.of_nat j :: m) d.
Proof.
  intros Hnone Hj Hbetween [Hd _ Hl Hmax] Hlk. unfold digit in Hb. assert (Hdj : digit (Z.of_nat j)) by (unfold digit; lia).
  assert (Hlt : num (pre ++ Z.of_nat j :: m) < num (pre ++ b :: rest)) by (by apply num_lt_app).
  split.
  - apply Forall_app. split; [done|]. by constructor.
  - rewrite !length_app. simpl. lia.
  - rewrite lookup_node_of by done. by rewrite Nat2Z.id.
  - lia.
  - intros ds Hds Hlds Hsome. apply lookup_node_some in Hsome as (c & r & -> & Hc & Hr & Hs); [|done].
    rewrite !length_app in Hlds. simpl in Hlds. assert (Hlr : length r = length rest) by lia.
    rewrite !num_le_prefix by (simpl; lia). rewrite !num_cons, Hlr, Hl. unfold digit in Hc.
    pose proof (num_bound r Hr) as B1. pose proof (num_bound rest Hrest) as B2. pose proof (num_bound m Hd) as B3.
    rewrite Hlr in B1. rewrite Hl in B3. intros Hle.
    destruct (decide (c = b)) as [->|Hcb]; [pose proof (Hnone r Hr Hlr Hs) as Hx; cbv beta in Hx; lia|].
    destruct (decide (c = Z.of_nat j)) as [->|Hcj].
    + rewrite Nat2Z.id in Hs. pose proof (Hmax r Hr Hs). nia.
    + destruct (decide (Z.of_nat j < c)); [|nia].
      rewrite (Hbetween (Z.to_nat c)) in Hs by nia. by destruct Hs.
Qed.

(** No son to the left either. *)
Lemma none_left : none_le (g (Z.to_nat b)) rest → (∀ k, Z.of_nat k < b → g k = Empty) →
  none_le (node_of pre g) (pre ++ b :: rest).
Proof.
  intros Hnone Hleft ds Hds Hlds Hsome. apply lookup_node_some in Hsome as (c & r & -> & Hc & Hr & Hs); [|done].
  rewrite !length_app in Hlds. simpl in Hlds. assert (Hlr : length r = length rest) by lia.
  apply num_lt_prefix; [simpl; lia|]. rewrite !num_cons, Hlr. unfold digit in Hc.
  pose proof (num_bound r Hr) as B1. pose proof (num_bound rest Hrest) as B2. rewrite Hlr in B1.
  destruct (decide (c = b)) as [->|Hcb]; [pose proof (Hnone r Hr Hlr Hs) as Hx; cbv beta in Hx; lia|].
  destruct (decide (c < b)); [|nia]. rewrite (Hleft (Z.to_nat c)) in Hs by lia. by destruct Hs.
Qed.
End steps.

Lemma none_le_empty ds : none_le Empty ds.
Proof. intros k _ _ [? ?]. done. Qed.

(** A prefix that differs. *)
Section differs.
Context (pre : list Z) (g : nat → trie) (ds : list Z) (Hpre : Forall digit pre) (Hd : Forall digit ds).
Context (Hl : (length pre < length ds)%nat).

Lemma prefix_less : num pre < num (take (length pre) ds) → ∀ r, Forall digit r → (length pre + length r = length ds)%nat →
  num (pre ++ r) < num ds.
Proof.
  intros Hlt r Hr Hlr. rewrite <- (take_drop (length pre) ds) at 1. rewrite !num_app, length_drop.
  replace (length ds - length pre)%nat with (length r) by lia.
  pose proof (num_bound r Hr). pose proof (num_bound _ (Forall_drop _ (length pre) _ Hd)) as B.
  rewrite length_drop in B. nia.
Qed.

Lemma prefix_greater : num (take (length pre) ds) < num pre → none_le (node_of pre g) ds.
Proof.
  intros Hlt k Hk Hlk Hsome. apply lookup_node_some in Hsome as (c & r & -> & Hc & Hr & _); [|done].
  rewrite length_app in Hlk. simpl in Hlk. rewrite <- (take_drop (length pre) ds) at 1. rewrite !num_app, length_drop. cbn [length].
  replace (length ds - length pre)%nat with (S (length r)) by lia.
  assert (Hcr : Forall digit (c :: r)) by (by constructor).
  pose proof (num_bound _ Hcr) as B1. pose proof (num_bound _ (Forall_drop _ (length pre) _ Hd)) as B.
  rewrite length_drop in B. replace (length ds - length pre)%nat with (S (length r)) in B by lia. cbn [length] in B1. nia.
Qed.

(** The greatest key of a trie whose keys are all smaller. *)
Lemma best_max m d : num pre < num (take (length pre) ds) → is_max (length ds) (node_of pre g) m →
  lookup (node_of pre g) m = Some d → best (node_of pre g) ds m d.
Proof.
  intros Hlt [Hm _ Hlm Hmax] Hlk. split; [done|done|done| |].
  - pose proof (ex_intro _ d Hlk : is_Some _) as Hs. apply lookup_node_some in Hs as (c & r & -> & Hc & Hr & _); [|done].
    rewrite length_app in Hlm. simpl in Hlm. apply Z.lt_le_incl, prefix_less; [done|by constructor|simpl; lia].
  - intros k Hk _ Hs _. by apply Hmax.
Qed.
End differs.

(** ** The sons to the left of a digit *)

Lemma son_below ws b : (b ≤ length ws)%nat →
  (length (present (take b ws)) = 0%nat ∧ ∀ k, (k < b)%nat → nth k ws NULL_WORD = NULL_WORD) ∨
  (∃ j, (j < b)%nat ∧ slot ws j = Z.of_nat (length (present (take b ws))) ∧ nth j ws NULL_WORD ≠ NULL_WORD ∧
    ∀ k, (j < k < b)%nat → nth k ws NULL_WORD = NULL_WORD).
Proof.
  induction b as [|b IH]; intros Hb; [left; split; [done|lia]|].
  assert (Hw : ws !! b = Some (nth b ws NULL_WORD)) by (apply lookup_nth; lia).
  pose proof (present_take_S b _ _ Hw) as E. destruct (is_some_son (nth b ws NULL_WORD)) eqn:Es.
  - right. exists b. split; [lia|]. rewrite E, length_app. unfold slot. rewrite Es. split; [simpl; lia|].
    split; [|lia]. intros H. by rewrite H in Es.
  - rewrite app_nil_r in E. rewrite E. assert (Hn : nth b ws NULL_WORD = NULL_WORD) by (unfold is_some_son in Es; lia).
    destruct IH as [[Hl H]|(j & Hj & Hs & Hnj & H)]; [lia| |].
    + left. split; [done|]. intros k Hk. destruct (decide (k = b)) as [->|]; [done|]. apply H. lia.
    + right. exists j. split; [lia|]. split; [done|]. split; [done|].
      intros k Hk. destruct (decide (k = b)) as [->|]; [done|]. apply H. lia.
Qed.

Lemma slot_there ws b : nth b ws NULL_WORD ≠ NULL_WORD → slot ws b = 1 + Z.of_nat (length (present (take b ws))).
Proof. intros H. unfold slot. by rewrite (some_son _ H). Qed.

(** [final_key >>= n] *)
Lemma num_unshift a b : Forall digit b → shr32 (num (a ++ b)) (2 * Z.of_nat (length b)) = num a.
Proof.
  intros Hb. unfold shr32. rewrite Z.shiftr_div_pow2, <- pow4, num_app by lia. pose proof (num_bound b Hb).
  rewrite Z.div_add_l, Z.div_small by lia. lia.
Qed.

Section at_most.
Context (C : cenv) (s : state) (HC : holds s C) (T0 : trie) (ds0 : list Z).
Context (Hd0 : Forall digit ds0) (Hl0 : (length ds0 ≤ 16)%nat).

(** The path to the trie [t], behind the digits [a] of the key; [ds] are left. *)
Inductive left_path : list (Z * Z) → trie → list Z → list Z → Prop :=
| left_nil : left_path [] T0 [] ds0
| left_cons path t p pre b rest ws a :
    left_path path t a (pre ++ b :: rest) → node_at C p pre ws (length rest) t → nth (Z.to_nat b) ws NULL_WORD ≠ NULL_WORD →
    left_path ((p, slot ws (Z.to_nat b)) :: path) (sons t (Z.to_nat b)) (a ++ pre ++ [b]) rest.

Lemma node_at_eq p pre ws m t : node_at C p pre ws m t → t = node_of pre (sons t).
Proof. intros Hat. by destruct (na_node _ _ _ _ _ _ Hat) as (s1 & s2 & s3 & s4 & ->). Qed.

Lemma left_whole path t a ds : left_path path t a ds → a ++ ds = ds0.
Proof. induction 1 as [|path t p pre b rest ws a _ IH]; [done|]. by rewrite <- !app_assoc. Qed.

Lemma left_digits path t a ds : left_path path t a ds → Forall digit a ∧ Forall digit ds ∧ (length a + length ds ≤ 16)%nat.
Proof.
  intros H%left_whole. rewrite <- H in Hd0, Hl0. apply Forall_app in Hd0 as [? ?]. by rewrite length_app in Hl0.
Qed.

Lemma left_levels path t a ds : left_path path t a ds → (length path + length ds ≤ length ds0)%nat.
Proof. clear Hl0. induction 1 as [|path t p pre b rest ws a _ IH]; [done|]. rewrite length_app in IH. simpl in *. lia. Qed.

Lemma left_best path t a ds m d : left_path path t a ds → best t ds m d → best T0 ds0 (a ++ m) d.
Proof.
  intros Hp. revert m. induction Hp as [|path t p pre b rest ws a Hp IH Hat _]; intros m Hb; [done|].
  rewrite <- !app_assoc. cbn [app]. apply IH. pose proof (left_digits _ _ _ _ Hp) as (_ & Hd & _).
  apply Forall_app in Hd as [Hdp [Hdb Hdr]%Forall_cons]. rewrite (node_at_eq _ _ _ _ _ Hat). by apply best_son.
Qed.

(** A node to whose left the search goes on. *)
Record leaving (path : list (Z * Z)) (p : Z) (t : trie) (a pre : list Z) (b : Z) (rest ws : list Z) : Prop := {
  leaving_path : left_path path t a (pre ++ b :: rest);
  leaving_node : node_at C p pre ws (length rest) t;
  leaving_none : none_le (sons t (Z.to_nat b)) rest
}.

(** The son that the greatest key is in. *)
Definition smaller (r : Z * Z * Z * Z * Z) : Prop :=
  ∃ path p t a pre b rest ws j, leaving path p t a pre b rest ws ∧ (Z.of_nat j < b) ∧ nth j ws NULL_WORD ≠ NULL_WORD ∧
    (∀ k, (j < k)%nat → Z.of_nat k < b → nth k ws NULL_WORD = NULL_WORD) ∧
    r = (p, slot ws j, 2 * Z.of_nat (length pre), 2 * Z.of_nat (length (pre ++ b :: rest)), num a).

Definition climbed (r : option (Z * Z * Z * Z * Z)) : Prop :=
  match r with None => none_le T0 ds0 | Some x => smaller x end.

Lemma leaving_digit path p t a pre b rest ws : leaving path p t a pre b rest ws →
  Forall digit a ∧ Forall digit pre ∧ digit b ∧ Forall digit rest ∧ (length a + length pre + S (length rest) ≤ 16)%nat.
Proof.
  intros [Hp _ _]. apply left_digits in Hp as (Ha & Hd & Hl). apply Forall_app in Hd as [Hdp [Hdb Hdr]%Forall_cons].
  rewrite length_app in Hl. simpl in Hl. split_and!; [done..|lia].
Qed.

Lemma wp_find_smaller path p t a pre b rest ws (Q : option (Z * Z * Z * Z * Z) → state → Prop) :
  leaving path p t a pre b rest ws → (∀ r, climbed r → Q r s) →
  wp (find_smaller path p (1 + Z.of_nat (length (present (take (Z.to_nat b) ws)))) (2 * Z.of_nat (length (b :: rest)))
    (num (a ++ pre))) Q s.
Proof.
  intros Hlv HQ. pose proof Hlv as [Hp _ _]. remember (pre ++ b :: rest) as ds eqn:Eds.
  revert p pre b rest ws Hlv Eds.
  induction Hp as [|path t p' pre' b' rest' ws' a Hp IH Hat' Hn']; intros p pre b rest ws Hlv Eds;
    pose proof (leaving_digit _ _ _ _ _ _ _ _ Hlv) as (Ha & Hdp & Hdb & Hdr & Hlen); pose proof Hlv as [_ Hat Hnone];
    unfold digit in Hdb; pose proof (na_length _ _ _ _ _ _ Hat) as H4; cbn [find_smaller];
    apply wp_bind; (eapply wp_prefix_length_of; [exact HC|exact Hat|]); cbn zeta;
    rewrite (num_unshift _ pre Hdp);
    (destruct (son_below ws (Z.to_nat b)) as [[Hl0' Hleft]|(j & Hj & Hs & Hnj & Hbetween)]; [lia| |]).
  - rewrite Hl0'. rewrite bool_decide_eq_true_2 by lia. apply wp_ret, HQ. simpl. rewrite Eds, (node_at_eq _ _ _ _ _ Hat).
    apply none_left; [done|done|]. intros k Hk. apply (na_sons _ _ _ _ _ _ Hat k ltac:(lia)). apply Hleft. lia.
  - rewrite bool_decide_eq_false_2 by (pose proof (slot_range ws j); rewrite <- slot_null in Hnj; lia).
    apply wp_ret, HQ. exists [], p, T0, [], pre, b, rest, ws, j. split; [done|]. split; [lia|]. split; [done|].
    split; [intros k ? ?; apply Hbetween; lia|]. repeat f_equal; [lia|rewrite length_app; simpl; lia].
  - rewrite Hl0'. rewrite bool_decide_eq_true_2 by lia.
    assert (Hnone' : none_le (sons t (Z.to_nat b')) rest').
    { rewrite Eds, (node_at_eq _ _ _ _ _ Hat). apply none_left; [done|done|].
      intros k Hk. apply (na_sons _ _ _ _ _ _ Hat k ltac:(lia)). apply Hleft. lia. }
    assert (Hlv' : leaving path p' t a pre' b' rest' ws') by done.
    pose proof (leaving_digit _ _ _ _ _ _ _ _ Hlv') as (_ & _ & Hdb' & _).
    assert (Efinal : shr32 (num (a ++ pre' ++ [b'])) 2 = num (a ++ pre')).
    { rewrite app_assoc. apply (num_unshift (a ++ pre') [b']). by apply Forall_singleton. }
    rewrite Efinal.
    replace (2 * Z.of_nat (length (b :: rest)) + 2 * Z.of_nat (length pre) + 2) with (2 * Z.of_nat (length (b' :: rest')))
      by (rewrite Eds; simpl; rewrite length_app; simpl; lia).
    rewrite slot_there by done. apply (IH p' pre' b' rest' ws' Hlv' eq_refl).
  - rewrite bool_decide_eq_false_2 by (pose proof (slot_range ws j); rewrite <- slot_null in Hnj; lia).
    apply wp_ret, HQ. eexists _, p, _, _, pre, b, rest, ws, j. split; [exact Hlv|]. split; [lia|]. split; [done|].
    split; [intros k ? ?; apply Hbetween; lia|]. repeat f_equal; [lia|rewrite length_app; simpl; lia].
Qed.

Lemma wp_go_up path t a ds (Q : option (Z * Z * Z * Z * Z) → state → Prop) :
  left_path path t a ds → none_le t ds → (∀ r, climbed r → Q r s) →
  wp (go_up path (2 * Z.of_nat (length ds)) (num a)) Q s.
Proof.
  intros Hp Hnone HQ. destruct Hp as [|path t p pre b rest ws a Hp Hat Hn]; simpl; [by apply wp_ret, HQ|].
  assert (Hlv : leaving path p t a pre b rest ws) by done.
  pose proof (leaving_digit _ _ _ _ _ _ _ _ Hlv) as (_ & _ & Hdb & _).
  assert (Efinal : shr32 (num (a ++ pre ++ [b])) 2 = num (a ++ pre)).
  { rewrite app_assoc. apply (num_unshift (a ++ pre) [b]). by apply Forall_singleton. }
  rewrite Efinal, slot_there by done.
  replace (2 * Z.of_nat (length rest) + 2) with (2 * Z.of_nat (length (b :: rest))) by (simpl; lia).
  by eapply wp_find_smaller.
Qed.

(** ** The greatest key of a subtree *)

Definition maximal (R : list Z → Z → Prop) (k : nat) (st : Z * Z * Z) : Prop :=
  ∃ a t, is_trie C st.1.1 t ∧ trie_ok k t ∧ t ≠ Empty ∧ Forall digit a ∧ (length a + k ≤ 16)%nat ∧
    st.1.2 = 2 * Z.of_nat k ∧ st.2 = num a ∧ ∀ m d, is_max k t m → lookup t m = Some d → R (a ++ m) d.

(** The prefix of the node is put behind the digits found. *)
Lemma wp_add_prefix p pre ws m t a k (Q : Z * Z → state → Prop) :
  node_at C p pre ws m t → Forall digit a → (length a + length pre ≤ 16)%nat → (length pre ≤ k)%nat →
  Q (num (a ++ pre), 2 * Z.of_nat (k - length pre)) s →
  wp (if bool_decide (2 * Z.of_nat (length pre) ≠ 0) then
        node_prefix ← node_prefix_of p;
        mret (Z.lor (shl32 (num a) (2 * Z.of_nat (length pre))) node_prefix, 2 * Z.of_nat k - 2 * Z.of_nat (length pre))
      else mret (num a, 2 * Z.of_nat k)) Q s.
Proof.
  intros Hat Ha Hl Hk HQ. pose proof (na_prefix _ _ _ _ _ _ Hat) as Hd. destruct (decide (pre = [])) as [E|E].
  - revert HQ. rewrite E. rewrite bool_decide_eq_false_2 by (intros H; by apply H). rewrite app_nil_r, Nat.sub_0_r. apply wp_ret.
  - rewrite bool_decide_eq_true_2 by (destruct pre; simpl; [done|lia]).
    apply wp_bind. eapply wp_node_prefix_of; [exact HC|exact Hat|]. apply wp_ret.
    rewrite num_shift by (done || rewrite ?length_app; lia).
    by replace (2 * Z.of_nat k - 2 * Z.of_nat (length pre)) with (2 * Z.of_nat (k - length pre)) by lia.
Qed.

(** [deoffset\[..\]\[i - 1\]] and its check. *)
Lemma wp_deoffset p pre ws m t j {A} (k : Z → M A) (Q : A → state → Prop) :
  node_at C p pre ws m t → (j < 4)%nat → nth j ws NULL_WORD ≠ NULL_WORD → wp (k (Z.of_nat j)) Q s →
  wp (d ← tab2 deoffset (type_index (sons_type ws)) (slot ws j - 1);
      massert (bool_decide (d ≠ 0xFF));;
      k d) Q s.
Proof.
  intros Hat Hj Hn HQ. pose proof (na_length _ _ _ _ _ _ Hat) as H4. pose proof (na_present _ _ _ _ _ _ Hat) as Hne.
  destruct (deoffset_sons ws H4 Hne) as (r & Er & Hr). pose proof (slot_range ws j) as Hsr. rewrite <- slot_null in Hn.
  apply wp_bind. eapply wp_tab2; [by eapply index_nonneg|lia|exact Er|by apply Hr|].
  apply wp_bind, wp_assert; [apply bool_decide_eq_true; lia|exact HQ].
Qed.

Lemma wp_find_max_step_loop R k fuel st (Q : Z * Z → state → Prop) :
  maximal R k st → (k < fuel)%nat → (∀ m d, R m d → Q (d, num m) s) → wp (loop fuel find_max_step st) Q s.
Proof.
  intros Hst Hf HQ. eapply wp_loop with (I := λ k st s', s' = s ∧ maximal R k st); [exact Hf|by split|].
  clear k fuel st Hst Hf. intros k [[data kl] final] s' (-> & a & t & Ht & Hok & Hne & Ha & Hl & E1 & E2 & HR).
  cbn [fst snd] in *. subst kl final. unfold find_max_step. destruct k as [|k].
  - rewrite bool_decide_eq_true_2 by done. apply wp_ret, HQ.
    destruct (trie_ok_0 _ Hok) as [->|(d & -> & _)]; [done|]. simpl in Ht. subst d.
    pose proof (HR [] data (is_max_leaf data) eq_refl) as H. by rewrite app_nil_r in H.
  - rewrite bool_decide_eq_false_2 by lia.
    destruct (trie_ok_S _ _ Hok) as [->|(pre & s1 & s2 & s3 & s4 & ->)]; [done|].
    destruct (is_trie_node _ _ _ _ _ _ _ _ _ HC Hok Ht) as (Hlp & ws & Hat).
    pose proof (na_length _ _ _ _ _ _ Hat) as H4. pose proof (na_present _ _ _ _ _ _ Hat) as Hp.
    pose proof (na_prefix _ _ _ _ _ _ Hat) as Hdp.
    apply wp_bind, wp_assert; [by eapply node_tagged; [exact HC|exact Hat]|].
    apply wp_bind. eapply wp_prefix_length_of; [exact HC|exact Hat|].
    apply wp_bind. eapply (wp_add_prefix data pre ws _ _ a (S k)); [exact Hat|done|lia|lia|].
    destruct (last_son ws H4 Hp) as (j & Hj & Es & Hn & Hlast).
    destruct (greatest_sons ws H4 Hp) as (rg & Erg & Hrg).
    apply wp_bind. eapply wp_node_index; [exact HC|exact Hat|].
    apply wp_bind. eapply wp_tab2; [by eapply index_nonneg|done|exact Erg|apply Hrg; lia|].
    rewrite take_ge by lia. rewrite <- Es.
    apply wp_bind. eapply wp_rd_son; [exact HC|exact Hat|exact Hj|exact Hn|]. cbn zeta.
    eapply wp_deoffset; [exact Hat|exact Hj|exact Hn|].
    assert (Hdj : digit (Z.of_nat j)) by (unfold digit; lia).
    rewrite num_snoc by (done || (rewrite length_app; lia) || (by apply Forall_app)).
    apply wp_ret. exists (S k - S (length pre))%nat. split; [lia|]. split; [done|].
    destruct (na_sons _ _ _ _ _ _ Hat j Hj) as (Hts & Hoks & Hnull).
    exists ((a ++ pre) ++ [Z.of_nat j]), (sons (Node pre s1 s2 s3 s4) j). cbn [fst snd].
    split_and!; [done|done|by rewrite <- Hnull| | |lia|done|].
    + apply Forall_app. split; [by apply Forall_app|by apply Forall_singleton].
    + rewrite !length_app. simpl. lia.
    + intros m d Hm Hlk. rewrite <- !app_assoc. apply HR.
      * eapply is_max_node; [exact Hok|exact Hj| |exact Hm].
        intros j' Hj'. apply (na_sons _ _ _ _ _ _ Hat); [lia|]. by apply Hlast.
      * cbn [app]. rewrite (lookup_node _ _ _ _ _ (Z.of_nat j) m) by apply strip_app. by rewrite Nat2Z.id.
Qed.

(** From the son to the left to the result. *)
Lemma wp_take_smaller fuel r (Q : Z * Z → state → Prop) :
  smaller r → (length ds0 < fuel)%nat → (∀ m d, best T0 ds0 m d → Q (d, num m) s) →
  wp (let '(p, i, prefix_length, key_length, final_key) := r in
      st ← take_smaller p i prefix_length key_length final_key;
      loop fuel find_max_step st) Q s.
Proof.
  intros (path & p & t & a & pre & b & rest & ws & j & Hlv & Hj & Hn & Hbetween & ->) Hf HQ.
  pose proof (leaving_digit _ _ _ _ _ _ _ _ Hlv) as (Ha & Hdp & Hdb & Hdr & Hl). destruct Hlv as [Hp Hat Hnone].
  pose proof Hdb as Hdb4. unfold digit in Hdb4. assert (Hj4 : (j < 4)%nat) by lia.
  pose proof (left_levels _ _ _ _ Hp) as Hlev. rewrite length_app in Hlev. cbn [length] in Hlev.
  apply wp_bind. unfold take_smaller. apply wp_bind.
  eapply (wp_add_prefix p pre ws _ _ a (length (pre ++ b :: rest))); [exact Hat|done|lia|rewrite length_app; lia|]. cbn zeta.
  apply wp_bind. eapply wp_node_index; [exact HC|exact Hat|].
  eapply wp_deoffset; [exact Hat|exact Hj4|exact Hn|]. cbn zeta.
  assert (Hdj : digit (Z.of_nat j)) by (unfold digit; lia).
  rewrite num_snoc by (done || (rewrite length_app; lia) || (by apply Forall_app)).
  apply wp_bind. eapply wp_rd_son; [exact HC|exact Hat|exact Hj4|exact Hn|]. apply wp_ret.
  destruct (na_sons _ _ _ _ _ _ Hat j Hj4) as (Hts & Hoks & Hnull).
  eapply (wp_find_max_step_loop (λ m d, best T0 ds0 m d) (length rest)); [|lia|exact HQ].
  exists ((a ++ pre) ++ [Z.of_nat j]), (sons t j). cbn [fst snd].
  split_and!; [done|done|by rewrite <- Hnull| | |rewrite length_app; simpl; lia|done|].
  - apply Forall_app. split; [by apply Forall_app|by apply Forall_singleton].
  - rewrite !length_app. simpl. lia.
  - intros m d Hm Hlk. rewrite <- !app_assoc. apply (left_best _ _ _ _ _ _ Hp).
    rewrite (node_at_eq _ _ _ _ _ Hat). apply best_left; [done..| |done|done].
    intros k Hk Hkb. apply (na_sons _ _ _ _ _ _ Hat); [lia|]. by apply Hbetween.
Qed.

(** ** The first loop *)

Definition at_most_inv (k : nat) (st : at_most_state) (s' : state) : Prop :=
  s' = s ∧ ∃ t a ds, search_at C (am_p st) t ds ∧ left_path (am_path st) t a ds ∧ am_key st = just ds ∧
    am_key_length st = 2 * Z.of_nat (length ds) ∧ am_final_key st = num a ∧ k = length ds ∧
    (am_path st ≠ [] → am_data st = am_p st).

Definition at_most_out (e : at_most_exit) : Prop :=
  match e with
  | KeyFound data _ final_key => lookup T0 ds0 = Some data ∧ final_key = num ds0
  | FindSmaller p offset _ key_length final_key path => ∃ t a pre b rest ws, leaving path p t a pre b rest ws ∧
      offset = 1 + Z.of_nat (length (present (take (Z.to_nat b) ws))) ∧
      key_length = 2 * Z.of_nat (length (b :: rest)) ∧ final_key = num (a ++ pre)
  | CheckPrefix p data node_prefix key_prefix _ key_length final_key path => ∃ t a ds pre ws,
      left_path path t a ds ∧ node_at C p pre ws (length ds - S (length pre)) t ∧ trie_ok (length ds) t ∧ is_trie C p t ∧
      (length pre < length ds)%nat ∧
      node_prefix = num pre ∧ key_prefix = num (take (length pre) ds) ∧ node_prefix ≠ key_prefix ∧
      key_length = 2 * Z.of_nat (length ds) ∧ final_key = num a ∧ (path ≠ [] → data = p)
  end.

Lemma wp_at_most_step k st : at_most_inv k st s →
  wp (at_most_step st) (λ r s', match r with
    | inl st' => ∃ k', (k' < k)%nat ∧ at_most_inv k' st' s'
    | inr e => s' = s ∧ at_most_out e
    end) s.
Proof.
  destruct st as [p data key kl final path].
  intros (_ & t & a & ds & [Ht Hok (pre & s1 & s2 & s3 & s4 & ->) Hd Hl] & Hp & Ekey & Ekl & Efinal & -> & Edata).
  unfold at_most_step. cbn [am_p am_data am_key am_key_length am_final_key am_path] in *. cbn zeta. subst key kl final.
  destruct (is_trie_node _ _ _ _ _ _ _ _ _ HC Hok Ht) as (Hlp & ws & Hat). pose proof (na_prefix _ _ _ _ _ _ Hat) as Hdp.
  pose proof (left_levels _ _ _ _ Hp) as Hlev. pose proof (left_digits _ _ _ _ Hp) as (Ha & _ & Hla).
  destruct (prefix_eq _ _ _ _ _ _ Hat ds Hd Hl Hlp) as [Ek Eq].
  apply wp_bind. rewrite bool_decide_eq_true_2 by (unfold MAX_LEVELS; lia). apply wp_ret.
  apply wp_bind. eapply wp_prefix_length_of; [exact HC|exact Hat|]. apply wp_bind.
  eapply (wp_mono _ (λ r s', s' = s ∧ r = num pre)).
  { destruct (decide (pre = [])) as [->|E].
    - rewrite bool_decide_eq_false_2 by (intros H; by apply H). by apply wp_ret.
    - rewrite bool_decide_eq_true_2 by (destruct pre; simpl; [done|lia]). by eapply wp_node_prefix_of; [exact HC|exact Hat|]. }
  intros np s' [-> ->]. rewrite Ek.
  destruct (bool_decide (2 * Z.of_nat (length pre) ≠ 0) && bool_decide (num pre ≠ num (take (length pre) ds))) eqn:Em.
  { apply andb_true_iff in Em as [_ Em%bool_decide_eq_true]. apply wp_ret. split; [done|].
    exists (Node pre s1 s2 s3 s4), a, ds, pre, ws. by split_and!. }
  assert (Etake : take (length pre) ds = pre).
  { destruct (decide (pre = [])) as [->|E]; [done|]. apply andb_false_iff in Em as [Em|Em]; apply bool_decide_eq_false in Em.
    - exfalso. apply Em. destruct pre; simpl; [done|lia].
    - apply Eq. by apply dec_stable. }
  destruct (drop (length pre) ds) as [|b rest] eqn:Ed.
  { apply (f_equal length) in Ed. rewrite length_drop in Ed. simpl in Ed. lia. }
  assert (Eds : ds = pre ++ b :: rest) by (rewrite <- Etake at 1; rewrite <- Ed; by rewrite take_drop).
  clear Ed Etake Ek Eq Em. subst ds. apply Forall_app in Hd as [_ Hd]. pose proof Hd as [Hb Hr]%Forall_cons.
  rewrite length_app in Hl, Hla, Hat. cbn [length] in Hl, Hla, Hat.
  replace (length pre + S (length rest) - S (length pre))%nat with (length rest) in Hat by lia.
  pose proof (na_length _ _ _ _ _ _ Hat) as H4. pose proof (na_present _ _ _ _ _ _ Hat) as Hpr.
  assert (Estate : (if bool_decide (2 * Z.of_nat (length pre) ≠ 0) then
      (shl32 (just (pre ++ b :: rest)) (2 * Z.of_nat (length pre)),
       2 * Z.of_nat (length (pre ++ b :: rest)) - 2 * Z.of_nat (length pre),
       Z.lor (shl32 (num a) (2 * Z.of_nat (length pre))) (num pre))
    else (just (pre ++ b :: rest), 2 * Z.of_nat (length (pre ++ b :: rest)), num a)) =
    (just (b :: rest), 2 * Z.of_nat (length (b :: rest)), num (a ++ pre))).
  { case_bool_decide as E.
    - rewrite just_drop by (done || rewrite length_app; simpl; lia). rewrite num_shift by (done || rewrite length_app; lia).
      repeat f_equal. rewrite length_app. lia.
    - destruct pre; [by rewrite app_nil_r|simpl in E; lia]. }
  rewrite Estate. clear Estate. unfold digit in Hb. rewrite just_digit by (done || simpl; lia).
  apply wp_bind. eapply wp_branch; [exact HC|exact Hat|done|simpl; lia|].
  assert (Hlv : none_le (sons (Node pre s1 s2 s3 s4) (Z.to_nat b)) rest → leaving path p (Node pre s1 s2 s3 s4) a pre b rest ws)
    by done.
  case_bool_decide as Ez.
  - apply slot_null in Ez. destruct (greatest_sons ws H4 Hpr) as (rg & Erg & Hrg).
    apply wp_bind. eapply wp_node_index; [exact HC|exact Hat|].
    apply wp_bind. eapply wp_tab2; [by eapply index_nonneg|lia|exact Erg|apply Hrg; lia|]. apply wp_ret.
    split; [done|]. exists (Node pre s1 s2 s3 s4), a, pre, b, rest, ws.
    split; [|split; [lia|done]]. apply Hlv.
    destruct (na_sons _ _ _ _ _ _ Hat (Z.to_nat b) ltac:(lia)) as (_ & _ & Hnull). apply Hnull in Ez. rewrite Ez. apply none_le_empty.
  - assert (Hn : nth (Z.to_nat b) ws NULL_WORD ≠ NULL_WORD) by (by rewrite <- slot_null).
    assert (Hbn : (Z.to_nat b < 4)%nat) by lia.
    apply wp_bind. eapply wp_rd_son; [exact HC|exact Hat|exact Hbn|done|].
    rewrite just_tail by (done || simpl; lia).
    rewrite num_snoc by (done || (by apply Forall_app) || (rewrite length_app; lia)).
    replace (2 * Z.of_nat (length (b :: rest)) - 2) with (2 * Z.of_nat (length rest)) by (simpl; lia).
    assert (Hp' : left_path ((p, slot ws (Z.to_nat b)) :: path) (sons (Node pre s1 s2 s3 s4) (Z.to_nat b)) ((a ++ pre) ++ [b]) rest).
    { rewrite <- app_assoc. by eapply left_cons. }
    destruct (decide (rest = [])) as [->|Hr0].
    + rewrite bool_decide_eq_false_2 by (intros H; by apply H). apply wp_ret. split; [done|]. split.
      * rewrite <- (left_whole _ _ _ _ Hp).
        pose proof (left_best _ _ _ _ [] (nth (Z.to_nat b) ws NULL_WORD) Hp') as Hbest.
        destruct Hbest as [_ _ Hthere _ _].
        { rewrite (son_leaf _ _ _ _ _ _ Hat Hbn Hn). split; [done|done|done|done|]. by intros ? ? ? ?. }
        by rewrite app_nil_r, <- app_assoc in Hthere.
      * rewrite <- (left_whole _ _ _ _ Hp). by rewrite <- app_assoc.
    + rewrite bool_decide_eq_true_2 by (destruct rest; simpl; [done|lia]).
      destruct (search_next _ _ HC _ _ _ _ _ _ Hat Hbn Hn Hr ltac:(lia) Hr0) as [Hs Htag].
      apply wp_bind, wp_assert; [exact Htag|]. apply wp_ret. exists (length rest).
      split; [rewrite length_app; simpl; lia|]. split; [done|]. eexists _, _, rest. by split_and!.
Qed.

Lemma wp_find_at_most_loops fuel root (Q : Z * Z → state → Prop) :
  is_trie C root T0 → trie_ok (length ds0) T0 → T0 ≠ Empty → ds0 ≠ [] → (length ds0 < fuel)%nat →
  (∀ m d, best T0 ds0 m d → Q (d, num m) s) → (∀ key, none_le T0 ds0 → Q (NULL_WORD, key) s) →
  wp (e ← loop fuel at_most_step (AtMost root NULL_WORD (just ds0) (2 * Z.of_nat (length ds0)) 0 []);
    match e with
    | KeyFound data _ final_key => mret (data, final_key)
    | FindSmaller p offset key key_length final_key path =>
      r ← find_smaller path p offset key_length final_key;
      match r with
      | None => mret (NULL_WORD, key)
      | Some (p, i, prefix_length, key_length, final_key) =>
        st ← take_smaller p i prefix_length key_length final_key;
        loop fuel find_max_step st
      end
    | CheckPrefix p data node_prefix key_prefix key key_length final_key path =>
      if bool_decide (node_prefix < key_prefix) then
        loop fuel find_max_step (match path with [] => p | _ => data end, key_length, final_key)
      else
        r ← go_up path key_length final_key;
        match r with
        | None => mret (NULL_WORD, key)
        | Some (p, i, prefix_length, key_length, final_key) =>
          st ← take_smaller p i prefix_length key_length final_key;
          loop fuel find_max_step st
        end
    end) Q s.
Proof.
  intros Ht Hok Hne Hds Hf Hbest Hnone.
  assert (Hclimb : ∀ key r, climbed r → wp (match r with
      | None => mret (NULL_WORD, key)
      | Some (p, i, prefix_length, key_length, final_key) =>
        st ← take_smaller p i prefix_length key_length final_key;
        loop fuel find_max_step st
      end) Q s).
  { intros key [r|] Hr; [by apply (wp_take_smaller fuel r)|by apply wp_ret, Hnone]. }
  apply wp_bind. eapply (wp_loop at_most_inv) with (n := length ds0); [exact Hf| |].
  { split; [done|]. exists T0, [], ds0. cbn [am_p am_data am_key am_key_length am_final_key am_path].
    split_and!; [|apply left_nil|done..]. split; [done|done| |done|done].
    destruct ds0; [done|]. destruct (trie_ok_S _ _ Hok) as [|(pre & s1 & s2 & s3 & s4 & E)]; [done|]. by exists pre, s1, s2, s3, s4. }
  intros k st s' Hst. pose proof Hst as [-> _]. eapply wp_mono; [by apply wp_at_most_step|].
  intros [st'|e] s'; [done|]. intros [-> He]. destruct e as [data key final|p offset key kl final path|p data np kp key kl final path]; simpl in He.
  - destruct He as [Hlk ->]. apply wp_ret, Hbest. split; [done..|]. by intros ? ? ? ? ?.
  - destruct He as (t & a & pre & b & rest & ws & Hlv & -> & -> & ->). apply wp_bind.
    eapply wp_find_smaller; [exact Hlv|]. intros r Hr. by apply Hclimb.
  - destruct He as (t & a & ds & pre & ws & Hp & Hat & Hokt & Htt & Hl & -> & -> & Hneq & -> & -> & Edata).
    pose proof (left_digits _ _ _ _ Hp) as (Ha & Hd & Hla). pose proof (na_prefix _ _ _ _ _ _ Hat) as Hdp.
    pose proof (left_levels _ _ _ _ Hp) as Hlev. pose proof (node_at_eq _ _ _ _ _ Hat) as Et.
    assert (Edp : match path with [] => p | _ => data end = p) by (destruct path; [done|by apply Edata]).
    rewrite Edp. case_bool_decide as Hlt.
    + eapply (wp_find_max_step_loop (λ m d, best T0 ds0 m d) (length ds)); [|lia|exact Hbest].
      exists a, t. cbn [fst snd]. split_and!; [done|done|by destruct (na_node _ _ _ _ _ _ Hat) as (? & ? & ? & ? & ->)|done|lia|done|done|].
      intros m d Hm Hlk. apply (left_best _ _ _ _ _ _ Hp). rewrite Et in Hm, Hlk |- *. by apply best_max.
    + apply wp_bind. eapply wp_go_up; [exact Hp| |].
      * rewrite Et. apply prefix_greater; [done..|]. lia.
      * intros r Hr. by apply Hclimb.
Qed.
End at_most.

(** * A key that is not there *)

Section nonexistent.
Context (C : cenv) (s : state) (HC : holds s C) (T0 : trie) (ds0 : list Z).
Context (Hd0 : Forall digit ds0) (Hl0 : (length ds0 ≤ 16)%nat).

(** [t] is what is behind the digits [a]. *)
Definition behind (a : list Z) (t : trie) : Prop := ∀ r, Forall digit r → lookup T0 (a ++ r) = lookup t r.

Lemma behind_son p pre ws m t a b : behind a t → node_at C p pre ws m t → digit b →
  behind (a ++ pre ++ [b]) (sons t (Z.to_nat b)).
Proof.
  intros Ha Hat Hb r Hr. rewrite <- !app_assoc. cbn [app]. rewrite Ha.
  - rewrite (node_at_eq C p pre ws m t Hat) at 1. by apply lookup_node_of.
  - apply Forall_app. split; [apply Hat|by constructor].
Qed.

(** The father of a node, or [NULL_PTR]. *)
Definition father (up : Z) (a : list Z) (t : trie) (m : nat) : Prop :=
  a = [] ∨ ∃ t2 a2 pre2 b2 ws2, a = a2 ++ pre2 ++ [b2] ∧ t = sons t2 (Z.to_nat b2) ∧ behind a2 t2 ∧
    node_at C up pre2 ws2 m t2.

Lemma wp_nonexistent_loop fuel p t (Q : option (Z * Z * Z) → state → Prop) :
  search_at C p t ds0 → T0 = t → (length ds0 < fuel)%nat →
  (lookup T0 ds0 = None → Q None s) →
  (∀ p up t a pre b ws, ds0 = a ++ pre ++ [b] → behind a t → node_at C p pre ws 0 t → father up a t (S (length pre)) →
    is_Some (lookup T0 ds0) → Q (Some (p, up, 0)) s) →
  wp (loop fuel nonexistent_step (p, NULL_PTR, just ds0, 2 * Z.of_nat (length ds0))) Q s.
Proof.
  intros Hs <- Hf HQn HQs.
  eapply wp_loop with (I := λ k '(p, up, rest, kl) s', s' = s ∧ ∃ t a ds, search_at C p t ds ∧ behind a t ∧ a ++ ds = ds0 ∧
    rest = just ds ∧ kl = 2 * Z.of_nat (length ds) ∧ father up a t (length ds) ∧ k = length ds); [exact Hf| |].
  { split; [done|]. exists T0, [], ds0. split_and!; [done|by intros r _|done..|by left|done]. }
  clear fuel p Hs Hf. intros k [[[p up] rest0] kl] s' (-> & t & a & ds & Hs & Hbh & Eds0 & -> & -> & Hfa & ->).
  unfold nonexistent_step. pose proof (sa_digits _ _ _ _ Hs) as Hd.
  assert (Hlk : lookup T0 ds0 = lookup t ds) by (rewrite <- Eds0; by apply Hbh).
  eapply wp_descend; [exact HC|exact Hs| |].
  - intros E. apply wp_ret, HQn. by rewrite Hlk.
  - intros pre b rest ws Eds Hat Hb Hn El. pose proof (sa_length _ _ _ _ Hs) as Hl. rewrite Eds in Hd, Hl, Hfa, Eds0.
    pose proof Hd as [_ Hdb]%Forall_app. pose proof Hdb as [Hbd Hr]%Forall_cons. rewrite length_app in Hl. cbn [length] in Hl.
    rewrite just_tail by (done || simpl; lia). cbn zeta.
    replace (2 * Z.of_nat (length (b :: rest)) - 2) with (2 * Z.of_nat (length rest)) by (simpl; lia).
    destruct (decide (rest = [])) as [->|Hr0].
    + rewrite bool_decide_eq_false_2 by (intros H; by apply H). apply wp_ret.
      eapply (HQs p up t a pre b ws); [by rewrite <- Eds0|done|exact Hat| |].
      * rewrite length_app, Nat.add_comm in Hfa. exact Hfa.
      * rewrite Hlk, El. eexists. by eapply search_leaf.
    + rewrite bool_decide_eq_true_2 by (destruct rest; simpl; [done|lia]).
      destruct (search_next _ _ HC _ _ _ _ _ _ Hat Hb Hn Hr ltac:(lia) Hr0) as [Hs' Htag].
      apply wp_bind. eapply wp_rd_son; [exact HC|exact Hat|exact Hb|exact Hn|].
      apply wp_bind, wp_assert; [exact Htag|].
      apply wp_bind. eapply wp_rd_son; [exact HC|exact Hat|exact Hb|exact Hn|]. apply wp_ret.
      exists (length rest). split; [rewrite Eds, length_app; simpl; lia|]. split; [done|].
      exists (sons t (Z.to_nat b)), (a ++ pre ++ [b]), rest.
      split_and!; [done|by eapply behind_son|by rewrite <- Eds0, <- !app_assoc|done|done| |done].
      right. exists t, a, pre, b, ws. done.
Qed.

(** [first_nonexistent_key] *)
Lemma first_gap_sons ws : length ws = 4%nat → present ws ≠ [] →
  if decide (sons_type ws = CELL_trie1234) then ∀ k, (k < 4)%nat → nth k ws NULL_WORD ≠ NULL_WORD
  else ∃ k, (k < 4)%nat ∧ nth k ws NULL_WORD = NULL_WORD ∧
    first_nonexistent_key !! Z.to_nat (type_index (sons_type ws)) = Some (Z.of_nat k).
Proof.
  intros H4 Hne. assert (Hf : ∀ w, is_some_son w = false → w = NULL_WORD) by (unfold is_some_son; lia).
  revert Hne. son_cases ws H4; intros Hne; try (exfalso; revert Hne; son_simpl; done); clear Hne; son_simpl.
  1: { rewrite decide_True by done. apply four_cases; cbn [nth]; intros E; rewrite E in *; discriminate. }
  all: rewrite decide_False by done.
  all: first [exists 0%nat; split; [lia|]; split; [by apply Hf|reflexivity]
             |exists 1%nat; split; [lia|]; split; [by apply Hf|reflexivity]
             |exists 2%nat; split; [lia|]; split; [by apply Hf|reflexivity]
             |exists 3%nat; split; [lia|]; split; [by apply Hf|reflexivity]].
Qed.

(** The keys with the last digit [y] behind [a] and [pre]. *)
Lemma last_lookup p pre ws t a y : behind a t → node_at C p pre ws 0 t → (y < 4)%nat →
  lookup T0 (a ++ pre ++ [Z.of_nat y]) = None ↔ nth y ws NULL_WORD = NULL_WORD.
Proof.
  intros Hbh Hat Hy. assert (Hdy : digit (Z.of_nat y)) by (unfold digit; lia).
  pose proof (behind_son _ _ _ _ _ _ _ Hbh Hat Hdy [] ltac:(by constructor)) as E.
  rewrite app_nil_r in E. rewrite E, Nat2Z.id. destruct (na_sons _ _ _ _ _ _ Hat y Hy) as (_ & _ & Hnull). split.
  - intros Hl. destruct (decide (nth y ws NULL_WORD = NULL_WORD)) as [|Hn]; [done|].
    by rewrite (son_leaf _ _ _ _ _ _ Hat Hy Hn) in Hl.
  - intros Hl. apply Hnull in Hl. by rewrite Hl.
Qed.

Lemma wp_first_gap p pre ws t a key base next (Q : Z → state → Prop) :
  behind a t → node_at C p pre ws 0 t →
  (∀ y, (y < 4)%nat → lookup T0 (a ++ pre ++ [Z.of_nat y]) = None → Q (w32 (key + base + Z.of_nat y)) s) →
  ((∀ y, (y < 4)%nat → is_Some (lookup T0 (a ++ pre ++ [Z.of_nat y]))) → wp next Q s) →
  wp (first_gap p key base next) Q s.
Proof.
  intros Hbh Hat HQ Hnext. pose proof (na_length _ _ _ _ _ _ Hat) as H4. pose proof (na_present _ _ _ _ _ _ Hat) as Hp.
  apply wp_bind. eapply wp_node_type; [exact HC|exact Hat|]. pose proof (first_gap_sons ws H4 Hp) as Hgap.
  destruct (decide _) as [E|E] in Hgap.
  - rewrite bool_decide_eq_false_2 by (intros H; by apply H). apply Hnext. intros y Hy.
    apply not_eq_None_Some. rewrite (last_lookup _ _ _ _ _ _ Hbh Hat Hy). by apply Hgap.
  - rewrite bool_decide_eq_true_2 by done. destruct Hgap as (y & Hy & Hn & Ey).
    apply wp_bind. eapply wp_tab; [by eapply index_nonneg|exact Ey|]. apply wp_ret, HQ; [done|].
    by apply (last_lookup _ _ _ _ _ _ Hbh Hat Hy).
Qed.

(** The cousins below the same grandfather. *)
Lemma wp_next_cousin up pre ws t a j key base next (Q : Z → state → Prop) :
  behind a t → node_at C up pre ws 1 t → (j < 4)%nat →
  (∀ y, (y < 4)%nat → lookup T0 (a ++ pre ++ [Z.of_nat j; Z.of_nat y]) = None → Q (w32 (key + base + Z.of_nat y)) s) →
  ((∀ y, (y < 4)%nat → is_Some (lookup T0 (a ++ pre ++ [Z.of_nat j; Z.of_nat y]))) → wp next Q s) →
  wp (next_cousin up key (Z.of_nat j) base next) Q s.
Proof.
  intros Hbh Hat Hj HQ Hnext. pose proof (na_length _ _ _ _ _ _ Hat) as H4. pose proof (na_present _ _ _ _ _ _ Hat) as Hp.
  assert (Hdj : digit (Z.of_nat j)) by (unfold digit; lia).
  pose proof (behind_son _ _ _ _ _ _ _ Hbh Hat Hdj) as Hbj. rewrite Nat2Z.id in Hbj.
  destruct (offset_sons ws H4 Hp) as (r & Er & Hr). apply wp_bind. unfold cousin.
  apply wp_bind. eapply wp_node_index; [exact HC|exact Hat|].
  apply wp_bind. eapply wp_tab2; [by eapply index_nonneg|lia|exact Er|rewrite Nat2Z.id; by apply Hr|].
  case_bool_decide as Ez.
  - apply wp_ret, wp_ret. rewrite <- (Z.add_0_r (key + base)). apply (HQ 0%nat); [lia|].
    apply slot_null in Ez. apply (na_sons _ _ _ _ _ _ Hat j Hj) in Ez. rewrite Ez in Hbj.
    specialize (Hbj [0] ltac:(apply Forall_singleton; unfold digit; lia)). rewrite <- !app_assoc in Hbj. exact Hbj.
  - assert (Hn : nth j ws NULL_WORD ≠ NULL_WORD) by (by rewrite <- slot_null).
    apply wp_bind. eapply wp_rd_son; [exact HC|exact Hat|exact Hj|exact Hn|]. apply wp_ret.
    destruct (son_node _ _ _ _ _ _ _ _ HC Hat Hj Hn) as (pre' & s1 & s2 & s3 & s4 & ws' & _ & Hl' & Hat').
    destruct pre' as [|]; [|simpl in Hl'; lia].
    apply wp_bind. eapply wp_prefix_length_of; [exact HC|exact Hat'|]. apply wp_bind, wp_assert; [done|].
    eapply wp_first_gap; [exact Hbj|exact Hat'| |].
    + intros y Hy Hlk. apply HQ; [done|]. by rewrite <- !app_assoc in Hlk.
    + intros Hall. apply Hnext. intros y Hy. specialize (Hall y Hy). by rewrite <- !app_assoc in Hall.
Qed.

(** Behind the loop: [c] are the digits of the key but the last two. *)
Lemma wp_nonexistent_rest p up t a pre b ws c key (Q : Z → state → Prop) :
  ds0 = a ++ pre ++ [b] → ds0 = c ++ [0; 0] → behind a t → node_at C p pre ws 0 t → father up a t (S (length pre)) →
  (∀ x y, (x < 4)%nat → (y < 4)%nat → lookup T0 (c ++ [Z.of_nat x; Z.of_nat y]) = None →
    Q (w32 (key + 4 * Z.of_nat x + Z.of_nat y)) s) →
  ((∀ x y, (x < 4)%nat → (y < 4)%nat → is_Some (lookup T0 (c ++ [Z.of_nat x; Z.of_nat y]))) → Q 0xFFFFFFFF s) →
  wp (first_gap p key 0 (
      prefix_length ← prefix_length_of p;
      if bool_decide (prefix_length ≠ 0) then mret (w32 (key + 4))
      else
        next_cousin up key 1 4 (
        next_cousin up key 2 8 (
        next_cousin up key 3 12 (
        mret 0xFFFFFFFF))))) Q s.
Proof.
  intros Ea Ec Hbh Hat Hfa HQ Hfull.
  assert (Eap : a ++ pre = c ++ [0] ∧ b = 0).
  { rewrite Ec in Ea. replace (c ++ [0; 0]) with ((c ++ [0]) ++ [0]) in Ea by (by rewrite <- app_assoc).
    rewrite app_assoc in Ea. apply app_inj_tail in Ea as [-> ->]. done. }
  destruct Eap as [Eap ->].
  assert (Ey : ∀ y, a ++ pre ++ [y] = c ++ [0; y]) by (intros y; by rewrite app_assoc, Eap, <- app_assoc).
  eapply wp_first_gap; [exact Hbh|exact Hat| |].
  { intros y Hy Hlk. rewrite Ey in Hlk. apply (HQ 0%nat y); [lia|done|done]. }
  intros Hall0. apply wp_bind. eapply wp_prefix_length_of; [exact HC|exact Hat|]. case_bool_decide as Epre.
  - apply wp_ret. destruct pre as [|z pre'] using rev_ind; [by destruct Epre|]. clear IHpre'.
    rewrite app_assoc in Eap. apply app_inj_tail in Eap as [Eap ->].
    replace (key + 4) with (key + 4 * Z.of_nat 1 + Z.of_nat 0) by lia. apply HQ; [lia|lia|].
    rewrite <- Eap, <- app_assoc. pose proof (na_prefix _ _ _ _ _ _ Hat) as [Hdp _]%Forall_app.
    assert (Hd : Forall digit (pre' ++ [1; 0])).
    { apply Forall_app. split; [done|]. repeat (apply Forall_cons; split; [unfold digit; lia|]). by apply Forall_nil. }
    rewrite Hbh by done. rewrite (node_at_eq C _ _ _ _ _ Hat).
    destruct (lookup_node_of_cases (pre' ++ [0]) (sons t) (pre' ++ [1; 0]) Hd) as [(b & r & E & _)|[E _]]; [|exact E].
    rewrite <- app_assoc in E. apply app_inv_head in E. done.
  - destruct pre; [|simpl in Epre; lia]. rewrite app_nil_r in Eap. destruct Hfa as [->|(t2 & a2 & pre2 & b2 & ws2 & Ea2 & Et & Hbh2 & Hat2)].
    { by apply app_cons_not_nil in Eap. }
    rewrite Eap, app_assoc in Ea2. apply app_inj_tail in Ea2 as [-> <-]. 
    assert (E2 : ∀ x y, a2 ++ pre2 ++ [x; y] = (a2 ++ pre2) ++ [x; y]) by (intros; by rewrite app_assoc).
    eapply (wp_next_cousin up pre2 ws2 t2 a2 1); [exact Hbh2|exact Hat2|lia| |].
    { intros y Hy Hlk. rewrite E2 in Hlk. apply (HQ 1%nat y); [lia|done|done]. }
    intros Hall1. eapply (wp_next_cousin up pre2 ws2 t2 a2 2); [exact Hbh2|exact Hat2|lia| |].
    { intros y Hy Hlk. rewrite E2 in Hlk. apply (HQ 2%nat y); [lia|done|done]. }
    intros Hall2. eapply (wp_next_cousin up pre2 ws2 t2 a2 3); [exact Hbh2|exact Hat2|lia| |].
    { intros y Hy Hlk. rewrite E2 in Hlk. apply (HQ 3%nat y); [lia|done|done]. }
    intros Hall3. apply wp_ret, Hfull. intros x y Hx Hy. revert x Hx. apply four_cases.
    + specialize (Hall0 y Hy). by rewrite Ey in Hall0.
    + specialize (Hall1 y Hy). by rewrite E2 in Hall1.
    + specialize (Hall2 y Hy). by rewrite E2 in Hall2.
    + specialize (Hall3 y Hy). by rewrite E2 in Hall3.
Qed.
End nonexistent.

(** Keys that share all digits but the last two. *)
Lemma digits_last n q x y : (2 ≤ n)%nat → digit x → digit y →
  digits n (16 * q + 4 * x + y) = digits (n - 2) q ++ [x; y].
Proof.
  intros Hn Hx Hy. assert (Hd : Forall digit [x; y]) by (repeat (apply Forall_cons; split; [done|]); by apply Forall_nil).
  apply num_inj; [rewrite length_app, !length_digits; simpl; lia|apply digits_digit|apply Forall_app; split; [apply digits_digit|done]|].
  rewrite num_app, !num_digits. cbn [length]. change (4 ^ Z.of_nat 2) with 16. unfold num. cbn [foldl].
  replace n with (S (S (n - 2))) at 1 by lia. rewrite !pow4_S. set (e := 4 ^ Z.of_nat (n - 2)).
  pose proof (pow4_pos (n - 2)) as He. fold e in He. unfold digit in *.
  replace (16 * q + 4 * x + y) with ((4 * x + y) + 16 * q) by lia. replace (4 * (4 * e)) with (16 * e) by lia.
  pose proof (Z.mod_pos_bound q e He). rewrite Z.rem_mul_r by lia.
  replace ((4 * x + y + 16 * q) mod 16) with (4 * x + y) by zdiv.
  replace ((4 * x + y + 16 * q) / 16) with q by zdiv. lia.
Qed.

Lemma wp_find_nonexistent_key fuel p n m key s :
  trie_repr (blk s) p n m → (2 ≤ n ≤ 16)%nat → (n < fuel)%nat → is_word key → key mod 16 = 0 →
  wp (triev2_find_nonexistent_key fuel p key (2 * Z.of_nat n)) (λ r s', s' = s ∧
    ((key ≤ r < key + 16 ∧ m !! key_of n r = None) ∨
     (r = 0xFFFFFFFF ∧ ∀ i, 0 ≤ i < 16 → is_Some (m !! key_of n (key + i))))) s.
Proof.
  intros Hr Hn Hf Hkey Hmod. pose proof Hr as (t & Hok & Ht & Hm).
  assert (Hq : key = 16 * (key / 16)) by zdiv. set (q := key / 16) in *.
  unfold is_word in Hkey. rewrite word_modulus_val in Hkey.
  assert (Hlk : ∀ x y, (x < 4)%nat → (y < 4)%nat →
    m !! key_of n (key + 4 * Z.of_nat x + Z.of_nat y) = lookup t (digits (n - 2) q ++ [Z.of_nat x; Z.of_nat y])).
  { intros x y Hx Hy. rewrite (trie_map_lookup _ _ _ _ Hm), Hq. f_equal. apply digits_last; [lia|unfold digit; lia..]. }
  unfold triev2_find_nonexistent_key. apply wp_bind, wp_assert; [by apply bool_decide_eq_true|]. case_bool_decide as Hp.
  { apply wp_ret. split; [done|]. left. split; [lia|]. by rewrite (trie_repr_null _ _ _ _ _ (holds_blk s) Hr Hp). }
  apply wp_bind, wp_assert; [apply bool_decide_eq_true; lia|]. rewrite just_digits by lia. apply wp_bind.
  assert (Hds : digits n key = digits (n - 2) q ++ [0; 0]).
  { rewrite Hq. rewrite <- (digits_last n q 0 0) by (done || lia). f_equal. lia. }
  replace (2 * Z.of_nat n) with (2 * Z.of_nat (length (digits n key))) by (by rewrite length_digits).
  eapply (wp_nonexistent_loop (blk s) s (holds_blk s) t (digits n key));
    [rewrite length_digits; lia|apply (search_start s _ _ n t key (holds_blk s) Hok Ht Hp); lia|done|by rewrite length_digits| |].
  { intros Hnone. apply wp_ret. split; [done|]. left. split; [lia|]. by rewrite (trie_map_lookup _ _ _ _ Hm). }
  intros p' up t' a pre b ws Ea Hbh Hat Hfa _. apply wp_bind, wp_assert; [done|].
  eapply (wp_nonexistent_rest (blk s) s (holds_blk s) t (digits n key)); [rewrite length_digits; lia|exact Ea|exact Hds|exact Hbh|exact Hat|exact Hfa| |].
  - intros x y Hx Hy Hnone. split; [done|]. left. rewrite w32_small by (unfold is_word; rewrite word_modulus_val; zdiv).
    split; [lia|]. by rewrite Hlk.
  - intros Hall. split; [done|]. right. split; [done|]. intros i Hi.
    specialize (Hall (Z.to_nat (i / 4)) (Z.to_nat (i mod 4)) ltac:(zdiv) ltac:(zdiv)).
    rewrite <- Hlk in Hall by zdiv. replace (key + i) with (key + 4 * Z.of_nat (Z.to_nat (i / 4)) + Z.of_nat (Z.to_nat (i mod 4)))
      by zdiv. exact Hall.
Qed.

(** * Properties *)

(** C37. [triev2_find_at_most] finds the greatest key that is not above the given
    one, with its data, or answers [NULL_WORD] if there is none.  It terminates,
    does not leave the local array and changes nothing. *)
Theorem triev2_find_at_most_correct fuel p n m key s :
  trie_repr (blk s) p n m → (1 ≤ n ≤ 16)%nat → (n < fuel)%nat →
  ∃ d k, triev2_find_at_most fuel p key (2 * Z.of_nat n) s = Ok (d, k) s ∧
    ((m !! k = Some d ∧ k ≤ key_of n key ∧ ∀ k', is_Some (m !! k') → k' ≤ key_of n key → k' ≤ k) ∨
     (d = NULL_WORD ∧ ∀ k', is_Some (m !! k') → key_of n key < k')).
Proof.
  intros Hr Hn Hf. pose proof Hr as (t & Hok & Ht & Hm).
  assert (Hin : ∀ k', is_Some (m !! k') → num (digits n k') = k' ∧ is_Some (lookup t (digits n k'))).
  { intros k'. rewrite Hm. destruct (decide _) as [Hk|]; [|by intros [? ?]]. rewrite num_digits, Z.mod_small by done. done. }
  assert (Hkey : num (digits n key) = key_of n key) by apply num_digits.
  destruct (wp_inv (triev2_find_at_most fuel p key (2 * Z.of_nat n)) (λ r s', s' = s ∧
    ((m !! r.2 = Some r.1 ∧ r.2 ≤ key_of n key ∧ ∀ k', is_Some (m !! k') → k' ≤ key_of n key → k' ≤ r.2) ∨
     (r.1 = NULL_WORD ∧ ∀ k', is_Some (m !! k') → key_of n key < k'))) s) as ([d k] & s' & E & -> & H); [|eauto].
  unfold triev2_find_at_most. case_bool_decide as Hp.
  { apply wp_ret. split; [done|]. right. split; [done|]. intros k'.
    rewrite (trie_repr_null _ _ _ _ _ (holds_blk s) Hr Hp), lookup_empty. by intros [? ?]. }
  apply wp_bind, wp_assert; [apply bool_decide_eq_true; lia|]. rewrite just_digits by lia.
  replace (2 * Z.of_nat n) with (2 * Z.of_nat (length (digits n key))) by (by rewrite length_digits).
  apply (wp_find_at_most_loops (blk s) s (holds_blk s) t (digits n key));
    [apply digits_digit|rewrite length_digits; lia|done|by rewrite length_digits| |by destruct n; [lia|]|by rewrite length_digits| |].
  - intros E. apply Hp. by eapply (is_trie_null _ _ _ _ _ (holds_blk s) Hok Ht).
  - intros mx d [Hd Hl Hlk Hle Hg]. rewrite length_digits in Hl, Hg. rewrite Hkey in Hle, Hg. pose proof (num_bound _ Hd) as B.
    rewrite Hl in B. split; [done|]. left. split; [|split; [done|]].
    + cbn [fst snd]. rewrite Hm, decide_True by done. rewrite <- Hl, digits_num by done. exact Hlk.
    + intros k' [Ek Hs]%Hin Hk'. rewrite <- Ek in Hk' |- *. apply (Hg (digits n k') (digits_digit _ _) (length_digits _ _) Hs Hk').
  - intros k0 Hnone. split; [done|]. right. split; [done|]. intros k' [Ek Hs]%Hin. rewrite <- Hkey, <- Ek.
    apply Hnone; [apply digits_digit|by rewrite !length_digits|done].
Qed.

Lemma triev2_find_at_most_correct_witness :
  ∃ d k, triev2_find_at_most 17 example_root 5 4 example_state = Ok (d, k) example_state ∧
    ((example_map !! k = Some d ∧ k ≤ 5 ∧ ∀ k', is_Some (example_map !! k') → k' ≤ 5 → k' ≤ k) ∨
     (d = NULL_WORD ∧ ∀ k', is_Some (example_map !! k') → 5 < k')).
Proof. apply (triev2_find_at_most_correct 17 example_root 2 example_map 5); [apply example_repr|lia|lia]. Defined.

(** C38. [triev2_find_nonexistent_key] on a key divisible by 16 finds one of
    [key], ..., [key + 15] that is not in the trie, or answers [0xFFFFFFFF] if all
    are there.  (For the last 16 keys of 32 bits that answer is a key, too.)
    Keys of two bits would have no grandfather: the key has at least four. *)
Theorem triev2_find_nonexistent_key_correct fuel p n m key s :
  trie_repr (blk s) p n m → (2 ≤ n ≤ 16)%nat → (n < fuel)%nat → is_word key → key mod 16 = 0 →
  ∃ r, triev2_find_nonexistent_key fuel p key (2 * Z.of_nat n) s = Ok r s ∧
    ((key ≤ r < key + 16 ∧ m !! key_of n r = None) ∨
     (r = 0xFFFFFFFF ∧ ∀ i, 0 ≤ i < 16 → is_Some (m !! key_of n (key + i)))).
Proof.
  intros Hr Hn Hf Hkey Hmod.
  destruct (wp_inv _ _ _ (wp_find_nonexistent_key fuel p n m key s Hr Hn Hf Hkey Hmod)) as (r & s' & E & -> & H). eauto.
Qed.

Lemma triev2_find_nonexistent_key_correct_witness :
  ∃ r, triev2_find_nonexistent_key 17 example_root 0 4 example_state = Ok r example_state ∧
    ((0 ≤ r < 16 ∧ example_map !! key_of 2 r = None) ∨
     (r = 0xFFFFFFFF ∧ ∀ i, 0 ≤ i < 16 → is_Some (example_map !! key_of 2 (0 + i)))).
Proof.
  apply (triev2_find_nonexistent_key_correct 17 example_root 2 example_map 0);
    [apply example_repr|lia|lia|by vm_compute|done].
Defined.
