(* ===== verification/Oid.v ===== *)
(** Object identities: oid.h and oid.c, on top of the root block and of the
    index trie.

    [random] are the results of the pseudo random number generator: an attempt
    at a random point that leaves [i] further ones takes [random i].  [heaviness] is that of the self-tests of the
    trie and [fuel] bounds the loops of its functions. *)

From S2P Require Import Prelude Machine Celltypes Shades Cow Root Compare Cells Digits.
From S2P Require Import Triev2 Triev2Insert Triev2Delete Triev2Search.

(** * Operations *)

Definition INVALID_OID : Z := 0xFFFFFFFF.
Definition OID_ALLOCATE_MAX_ALLOCATION : Z := TRIEV2_MAX_ALLOCATION.
Definition OID_DISPOSE_MAX_ALLOCATION : Z := TRIEV2_MAX_ALLOCATION + 3.
Definition OID_UPDATE_MAX_ALLOCATION : Z := TRIEV2_MAX_ALLOCATION.

Section operations.
Context (random : nat → Z) (heaviness : Z) (fuel : nat).

Definition oid_map_find (oid : Z) : M Z :=
  p ← get_root ROOT_IX_oid_map; triev2_find fuel p oid 30.

(** [triev2_find_nonexistent_key(GET_ROOT_PTR(oid_map), tmp, 30)] *)
Definition try_range (tmp : Z) : M Z :=
  p ← get_root ROOT_IX_oid_map; triev2_find_nonexistent_key fuel p tmp 30.

(** Move [oid_allocation_cursor] on from the range at [tmp]. *)
Definition next_range (tmp : Z) : M Z :=
  let tmp := w32 (tmp + 16) in
  max ← get_root ROOT_IX_oid_max;
  let tmp := if bool_decide (max ≤ tmp) then 0 else tmp in
  set_root_item ROOT_IX_oid_allocation_cursor tmp;;
  mret tmp.

(** The loop that tries the next two ranges; [None] if it ends. *)
Fixpoint try_ranges (i : nat) (tmp : Z) : M (option Z) :=
  match i with
  | O => mret None
  | S i =>
    oid ← try_range tmp;
    if bool_decide (oid = 0xFFFFFFFF) then tmp ← next_range tmp; try_ranges i tmp
    else
      max ← get_root ROOT_IX_oid_max;
      if bool_decide (oid < max) then massert (bool_decide (oid < w32 (tmp + 16)));; mret (Some oid)
      else try_ranges i tmp
  end.

(** "Try looking around the `ROOT_oid_allocation_cursor'". *)
Definition try_cursor : M (option Z) :=
  tmp ← get_root ROOT_IX_oid_allocation_cursor;
  massert (bool_decide (tmp mod 16 = 0));;
  oid ← try_range tmp;
  if bool_decide (oid = 0xFFFFFFFF) then tmp ← next_range tmp; try_ranges 2 tmp
  else
    max ← get_root ROOT_IX_oid_max;
    if bool_decide (oid < max) then massert (bool_decide (oid < w32 (tmp + 16)));; mret (Some oid)
    else mret None.

(** The place where an unused key was found previously. *)
Definition try_previous : M (option Z) :=
  oid ← get_root ROOT_IX_oid_prev_random;
  if bool_decide (oid ≠ 0xFFFFFFFF) then
    massert (bool_decide (oid mod 16 = 0));;
    oid ← try_range oid;
    max ← get_root ROOT_IX_oid_max;
    mret (if bool_decide (oid < max) then Some oid else None)
  else mret None.

(** The number of random points to try. *)
Definition attempts (in_use max : Z) : nat :=
  if bool_decide (w32 (in_use + shr32 in_use 4) > max) then 0
  else if bool_decide (w32 (in_use + shr32 in_use 3) > max) then 1
  else if bool_decide (w32 (in_use + shr32 in_use 2) > max) then 2
  else if bool_decide (w32 (in_use + shr32 in_use 1) > max) then 5
  else 16.

Fixpoint try_points (i : nat) : M (option Z) :=
  match i with
  | O => mret None
  | S i =>
    max ← get_root ROOT_IX_oid_max;
    let tmp := Z.land (w32 (random i mod max)) 0xFFFFFFF0 in
    oid ← try_range tmp;
    max ← get_root ROOT_IX_oid_max;
    if bool_decide (oid < max) then
      set_root_item ROOT_IX_oid_prev_random tmp;; mret (Some oid)
    else try_points i
  end.

(** "Try looking at a random point." *)
Definition try_random : M (option Z) :=
  max ← get_root ROOT_IX_oid_max;
  if bool_decide (max > 0) then
    found ← try_previous;
    match found with
    | Some oid => mret (Some oid)
    | None =>
      in_use ← get_root ROOT_IX_oid_in_use;
      max ← get_root ROOT_IX_oid_max;
      found ← try_points (attempts in_use max);
      match found with
      | Some oid => mret (Some oid)
      | None => set_root_item ROOT_IX_oid_prev_random 0xFFFFFFFF;; mret None
      end
    end
  else mret None.

(** The part of [oid_allocate] before the label [found]. *)
Definition choose_oid : M Z :=
  free ← get_root ROOT_IX_oid_freelist;
  if bool_decide (free ≠ NULL_WORD) then
    oid ← rd free 1;
    next ← rd free 2;
    set_root_item ROOT_IX_oid_freelist next;;
    mret oid
  else
    found ← try_cursor;
    match found with
    | Some oid => mret oid
    | None =>
      found ← try_random;
      match found with
      | Some oid => mret oid
      | None =>
        oid ← get_root ROOT_IX_oid_max;
        max ← get_root ROOT_IX_oid_max;
        set_root_item ROOT_IX_oid_max (w32 (max + 1));;
        mret oid
      end
    end.

Definition oid_allocate (value : Z) : M Z :=
  oid ← choose_oid;
  d ← oid_map_find oid;
  massert (bool_decide (d = NULL_WORD));;
  in_use ← get_root ROOT_IX_oid_in_use;
  set_root_item ROOT_IX_oid_in_use (w32 (in_use + 1));;
  p ← get_root ROOT_IX_oid_map;
  p ← triev2_insert heaviness fuel p oid 30 None value;
  set_root_item ROOT_IX_oid_map p;;
  mret (Z.lor (shl32 oid 2) 0x2).

Definition oid_dispose_f (old_data new_data : Z) : M Z :=
  massert (bool_decide (new_data = NULL_WORD));;
  modify (set_old_value old_data);;
  mret NULL_WORD.

Definition oid_dispose (oid : Z) : M Z :=
  massert (TAGGED_IS_OID oid);;
  let oid := shr32 oid 2 in
  max ← get_root ROOT_IX_oid_max;
  massert (bool_decide (oid ≤ max));;
  freelist ← allocate 3 CELL_oid_freelist;
  wr freelist 1 oid;;
  free ← get_root ROOT_IX_oid_freelist;
  wr freelist 2 free;;
  set_root_item ROOT_IX_oid_freelist freelist;;
  in_use ← get_root ROOT_IX_oid_in_use;
  set_root_item ROOT_IX_oid_in_use (w32 (in_use - 1));;
  modify (set_old_value NULL_WORD);;
  p ← get_root ROOT_IX_oid_map;
  p ← triev2_delete heaviness fuel p oid 30 (Some oid_dispose_f) NULL_WORD;
  set_root_item ROOT_IX_oid_map p;;
  d ← oid_map_find oid;
  massert (bool_decide (d = NULL_WORD));;
  gets old_value.

Definition oid_ref (oid : Z) : M Z :=
  massert (TAGGED_IS_OID oid);;
  let oid := shr32 oid 2 in
  max ← get_root ROOT_IX_oid_max;
  massert (bool_decide (oid ≤ max));;
  oid_map_find oid.

Definition oid_update_f (old_data new_data : Z) : M Z :=
  modify (set_old_value old_data);;
  mret new_data.

Definition oid_update (oid new_value : Z) : M Z :=
  massert (TAGGED_IS_OID oid);;
  modify (set_old_value NULL_WORD);;
  max ← get_root ROOT_IX_oid_max;
  massert (bool_decide (oid ≤ max));;
  p ← get_root ROOT_IX_oid_map;
  p ← triev2_insert heaviness fuel p oid 30 (Some oid_update_f) new_value;
  set_root_item ROOT_IX_oid_map p;;
  gets old_value.
End operations.

(** Nothing to initialise. *)
Definition oid_init : M unit := mret tt.

(** * Representation *)

(** The oids that were freed during this commit group. *)
Fixpoint is_freelist (C : cenv) (w : Z) (os : list Z) : Prop :=
  match os with
  | [] => w = NULL_WORD
  | o :: os => ∃ next, C w [header CELL_oid_freelist 0; o; next] ∧ is_freelist C next os
  end.

Lemma is_freelist_mono C C' w os : csub C C' → is_freelist C w os → is_freelist C' w os.
Proof.
  intros HC. revert w. induction os as [|o os IH]; intros w; [done|].
  intros (next & Hc & H). exists next. split; [by apply HC|by apply IH].
Qed.

Definition root_at (s : state) (x : root_ix) (v : Z) : Prop := root s !! root_ix_num x = Some v.

(** The words of the root block that oid.c uses. *)
Record oid_root := OidRoot {
  or_map : Z;
  or_freelist : Z;
  or_in_use : Z;
  or_max : Z;
  or_cursor : Z;
  or_random : Z
}.

Record has_root (s : state) (r : oid_root) : Prop := {
  hr_length : length (root s) = 128%nat;
  hr_map : root_at s ROOT_IX_oid_map (or_map r);
  hr_freelist : root_at s ROOT_IX_oid_freelist (or_freelist r);
  hr_in_use : root_at s ROOT_IX_oid_in_use (or_in_use r);
  hr_max : root_at s ROOT_IX_oid_max (or_max r);
  hr_cursor : root_at s ROOT_IX_oid_allocation_cursor (or_cursor r);
  hr_random : root_at s ROOT_IX_oid_prev_random (or_random r)
}.

Definition with_map v r := OidRoot v (or_freelist r) (or_in_use r) (or_max r) (or_cursor r) (or_random r).
Definition with_freelist v r := OidRoot (or_map r) v (or_in_use r) (or_max r) (or_cursor r) (or_random r).
Definition with_in_use v r := OidRoot (or_map r) (or_freelist r) v (or_max r) (or_cursor r) (or_random r).
Definition with_max v r := OidRoot (or_map r) (or_freelist r) (or_in_use r) v (or_cursor r) (or_random r).
Definition with_cursor v r := OidRoot (or_map r) (or_freelist r) (or_in_use r) (or_max r) v (or_random r).
Definition with_random v r := OidRoot (or_map r) (or_freelist r) (or_in_use r) (or_max r) (or_cursor r) v.

(** The state of the oid system: [m] maps the oids in use (without tags) to
    their values, [free] are the freed ones that can be given out again. *)
Record oids (s : state) (r : oid_root) (m : gmap Z Z) (free : list Z) : Prop := {
  oids_root : has_root s r;
  oids_map : trie_repr (blk s) (or_map r) 15 m;
  oids_free : is_freelist (blk s) (or_freelist r) free;
  oids_in_use : or_in_use r = Z.of_nat (size m);
  oids_max : 0 ≤ or_max r ≤ 2 ^ 30;
  oids_cursor : is_word (or_cursor r) ∧ or_cursor r mod 16 = 0;
  oids_random : or_random r = 0xFFFFFFFF ∨ is_word (or_random r) ∧ or_random r mod 16 = 0;
  oids_keys o : is_Some (m !! o) → 0 ≤ o < or_max r;
  oids_free_nodup : NoDup free;
  oids_free_keys o : o ∈ free → 0 ≤ o < or_max r ∧ m !! o = None
}.

(** * Rules for the root block *)

Lemma root_at_set s x v y w : length (root s) = 128%nat →
  root_at s y w → root_at (set_root (<[root_ix_num x := v]> (root s)) s) y (if decide (x = y) then v else w).
Proof.
  intros Hl Hy. unfold root_at in *. cbn [root set_root]. pose proof (root_ix_num_lt x).
  destruct (decide (x = y)) as [->|Hne]; [by rewrite list_lookup_insert_eq by lia|].
  rewrite list_lookup_insert_ne; [done|]. by intros E%root_ix_num_inj.
Qed.

(** What an assignment to a word of the root block leaves. *)
Lemma wp_set s r x v (Q : unit → state → Prop) : has_root s r →
  (∀ s', same_cells s s' → old_value s' = old_value s → length (root s') = 128%nat →
    (∀ y w, root_at s y w → root_at s' y (if decide (x = y) then v else w)) → Q tt s') →
  wp (set_root_item x v) Q s.
Proof.
  intros Hr HQ. pose proof (hr_length _ _ Hr) as Hl. pose proof (root_ix_num_lt x).
  apply wp_set_root_item; [lia|]. apply HQ; [apply set_root_same_cells|done|cbn; by rewrite length_insert|].
  intros y w. by apply root_at_set.
Qed.

Section set.
Context (s : state) (r : oid_root) (v : Z) (Q : unit → state → Prop) (Hr : has_root s r).

Ltac set_tac :=
  intros HQ; eapply wp_set; [exact Hr|]; intros s' Hs Hov Hl Hat; apply HQ; [done|done|];
  destruct Hr as [_ H1 H2 H3 H4 H5 H6];
  split; [done|exact (Hat _ _ H1)|exact (Hat _ _ H2)|exact (Hat _ _ H3)|exact (Hat _ _ H4)|exact (Hat _ _ H5)|exact (Hat _ _ H6)].

Lemma wp_set_map : (∀ s', same_cells s s' → old_value s' = old_value s → has_root s' (with_map v r) → Q tt s') →
  wp (set_root_item ROOT_IX_oid_map v) Q s.
Proof. set_tac. Qed.
Lemma wp_set_freelist : (∀ s', same_cells s s' → old_value s' = old_value s → has_root s' (with_freelist v r) → Q tt s') →
  wp (set_root_item ROOT_IX_oid_freelist v) Q s.
Proof. set_tac. Qed.
Lemma wp_set_in_use : (∀ s', same_cells s s' → old_value s' = old_value s → has_root s' (with_in_use v r) → Q tt s') →
  wp (set_root_item ROOT_IX_oid_in_use v) Q s.
Proof. set_tac. Qed.
Lemma wp_set_max : (∀ s', same_cells s s' → old_value s' = old_value s → has_root s' (with_max v r) → Q tt s') →
  wp (set_root_item ROOT_IX_oid_max v) Q s.
Proof. set_tac. Qed.
Lemma wp_set_cursor : (∀ s', same_cells s s' → old_value s' = old_value s → has_root s' (with_cursor v r) → Q tt s') →
  wp (set_root_item ROOT_IX_oid_allocation_cursor v) Q s.
Proof. set_tac. Qed.
Lemma wp_set_random : (∀ s', same_cells s s' → old_value s' = old_value s → has_root s' (with_random v r) → Q tt s') →
  wp (set_root_item ROOT_IX_oid_prev_random v) Q s.
Proof. set_tac. Qed.
End set.

(** * Choosing an oid *)

Lemma oids_moved s s' r r' m free : same_cells s s' → has_root s' r' →
  or_map r' = or_map r → or_freelist r' = or_freelist r → or_in_use r' = or_in_use r → or_max r' = or_max r →
  is_word (or_cursor r') ∧ or_cursor r' mod 16 = 0 →
  or_random r' = 0xFFFFFFFF ∨ is_word (or_random r') ∧ or_random r' mod 16 = 0 →
  oids s r m free → oids s' r' m free.
Proof.
  intros Hs Hr Em Ef Eu Ex Hc Hd [].
  assert (csub (blk s) (blk s')) by (intros p ws; by apply same_cells_blk).
  split; rewrite ?Em, ?Ef, ?Eu, ?Ex; try done.
  - by eapply trie_repr_mono.
  - by eapply is_freelist_mono.
Qed.

Section choose.
Context (random : nat → Z) (fuel : nat) (Hfuel : (15 < fuel)%nat).
Context (s0 : state) (m : gmap Z Z) (max in_use : Z).

(** The states in which oids are searched for: only the cursors move. *)
Definition searching_oid (s : state) : Prop :=
  same_cells s0 s ∧ old_value s = old_value s0 ∧ ∃ r, oids s r m [] ∧ or_max r = max ∧ or_in_use r = in_use.

(** A good choice. *)
Definition unused (oid : Z) : Prop := 0 ≤ oid < max ∧ m !! oid = None.

Definition chosen (o : option Z) (s : state) : Prop :=
  searching_oid s ∧ match o with Some oid => unused oid | None => True end.

Lemma searching_max (Q : Z → state → Prop) s : searching_oid s → Q max s → wp (get_root ROOT_IX_oid_max) Q s.
Proof. intros (_ & _ & r & Ho & E & _) HQ. rewrite <- E in HQ. eapply wp_get_root, HQ. apply Ho. Qed.

Lemma searching_range s : searching_oid s → 0 ≤ max ≤ 2 ^ 30.
Proof. intros (_ & _ & r & Ho & <- & _). apply Ho. Qed.

Lemma searching_cursor s v (Q : unit → state → Prop) : searching_oid s → is_word v → v mod 16 = 0 →
  (∀ s', searching_oid s' → Q tt s') → wp (set_root_item ROOT_IX_oid_allocation_cursor v) Q s.
Proof.
  intros (Hc & Hov & r & Ho & Ex & Eu) Hv Hv16 HQ. eapply wp_set_cursor; [apply Ho|].
  intros s' Hs Hov' Hr. apply HQ. split; [by destruct Hc as (?&?&?&?), Hs as (?&?&?&?); split_and!; congruence|].
  split; [congruence|]. exists (with_cursor v r). split; [|done].
  apply (oids_moved s s' r); [done..|apply Ho|exact Ho].
Qed.

Lemma searching_random s v (Q : unit → state → Prop) : searching_oid s → v = 0xFFFFFFFF ∨ is_word v ∧ v mod 16 = 0 →
  (∀ s', searching_oid s' → Q tt s') → wp (set_root_item ROOT_IX_oid_prev_random v) Q s.
Proof.
  intros (Hc & Hov & r & Ho & Ex & Eu) Hv HQ. eapply wp_set_random; [apply Ho|].
  intros s' Hs Hov' Hr. apply HQ. split; [by destruct Hc as (?&?&?&?), Hs as (?&?&?&?); split_and!; congruence|].
  split; [congruence|]. exists (with_random v r). split; [|done].
  apply (oids_moved s s' r); [done..|apply Ho|exact Hv|exact Ho].
Qed.

Lemma wp_try_range s tmp (Q : Z → state → Prop) : searching_oid s → is_word tmp → tmp mod 16 = 0 →
  (∀ oid, oid = 0xFFFFFFFF ∨ tmp ≤ oid < tmp + 16 → (oid < max → unused oid ∧ oid < w32 (tmp + 16)) → Q oid s) →
  wp (try_range fuel tmp) Q s.
Proof.
  intros Hs Hw H16 HQ. pose proof (searching_range _ Hs) as Hmax. destruct Hs as (Hc & Hov & r & Ho & Ex & Eu).
  apply wp_bind. eapply wp_get_root; [apply Ho|]. eapply wp_mono.
  { eapply (wp_find_nonexistent_key fuel _ 15 m); [apply Ho|lia|lia|done|done]. }
  intros oid s' (-> & Hoid). unfold is_word in Hw. rewrite word_modulus_val in Hw. apply HQ.
  - destruct Hoid as [[? _]|[? _]]; auto.
  - intros Hlt. destruct Hoid as [[Hr Hn]|[-> _]]; [|lia]. unfold unused.
    unfold key_of in Hn. rewrite Z.mod_small in Hn by (change (4 ^ Z.of_nat 15) with (2 ^ 30); lia).
    split; [split; [lia|done]|]. rewrite w32_small; [lia|]. unfold is_word. rewrite word_modulus_val. lia.
Qed.

Lemma w32_mod16 x : w32 x mod 16 = x mod 16.
Proof. unfold w32. rewrite word_modulus_val. zdiv. Qed.

Lemma wp_next_range s tmp (Q : Z → state → Prop) : searching_oid s → is_word tmp → tmp mod 16 = 0 →
  (∀ tmp' s', searching_oid s' → is_word tmp' → tmp' mod 16 = 0 → Q tmp' s') → wp (next_range tmp) Q s.
Proof.
  intros Hs Hw H16 HQ. apply wp_bind. eapply searching_max; [done|]. apply wp_bind.
  assert (w32 (tmp + 16) mod 16 = 0) by (rewrite w32_mod16; zdiv).
  case_bool_decide.
  - apply searching_cursor; [done|by vm_compute|done|]. intros s' Hs'. by apply wp_ret, HQ.
  - apply searching_cursor; [done|apply w32_is_word|done|]. intros s' Hs'. apply wp_ret, HQ; [done|apply w32_is_word|done].
Qed.

Lemma wp_try_ranges i s tmp : searching_oid s → is_word tmp → tmp mod 16 = 0 → wp (try_ranges fuel i tmp) chosen s.
Proof.
  revert s tmp. induction i as [|i IH]; intros s tmp Hs Hw H16; [by apply wp_ret|].
  apply wp_bind. eapply wp_try_range; [done..|]. intros oid _ Hoid. case_bool_decide.
  - apply wp_bind. eapply wp_next_range; [done..|]. intros tmp' s' Hs'. by apply IH.
  - apply wp_bind. eapply searching_max; [done|]. case_bool_decide as Hlt; [|by apply IH].
    apply Hoid in Hlt as [Hun Hlt]. apply wp_bind, wp_assert; [by apply bool_decide_eq_true|]. by apply wp_ret.
Qed.

Lemma wp_try_cursor s : searching_oid s → wp (try_cursor fuel) chosen s.
Proof.
  intros Hs. pose proof Hs as (_ & _ & r & Ho & _). destruct (oids_cursor _ _ _ _ Ho) as [Hw H16].
  apply wp_bind. eapply wp_get_root; [apply Ho|]. apply wp_bind, wp_assert; [by apply bool_decide_eq_true|].
  apply wp_bind. eapply wp_try_range; [done..|]. intros oid _ Hoid. case_bool_decide.
  - apply wp_bind. eapply wp_next_range; [done..|]. intros tmp' s' Hs'. by apply wp_try_ranges.
  - apply wp_bind. eapply searching_max; [done|]. case_bool_decide as Hlt; [|by apply wp_ret].
    apply Hoid in Hlt as [Hun Hlt]. apply wp_bind, wp_assert; [by apply bool_decide_eq_true|]. by apply wp_ret.
Qed.

Lemma wp_try_previous s : searching_oid s → wp (try_previous fuel) chosen s.
Proof.
  intros Hs. pose proof Hs as (_ & _ & r & Ho & _).
  apply wp_bind. eapply wp_get_root; [apply Ho|]. case_bool_decide as Hne; [|by apply wp_ret].
  destruct (oids_random _ _ _ _ Ho) as [|[Hw H16]]; [done|].
  apply wp_bind, wp_assert; [by apply bool_decide_eq_true|]. apply wp_bind. eapply wp_try_range; [done..|].
  intros oid _ Hoid. apply wp_bind. eapply searching_max; [done|]. apply wp_ret. split; [done|].
  case_bool_decide as Hlt; [|done]. by apply Hoid.
Qed.

Lemma round_down x : is_word x → is_word (Z.land x 0xFFFFFFF0) ∧ Z.land x 0xFFFFFFF0 mod 16 = 0.
Proof.
  intros Hx. assert (E : Z.land x 0xFFFFFFF0 = x - x mod 16).
  { assert (Hd : Z.ldiff x (Z.ones 4) = Z.land x 0xFFFFFFF0).
    { apply Z.bits_inj'. intros i Hi. rewrite Z.ldiff_spec, Z.land_spec.
      destruct (decide (i < 32)) as [Hlt|Hge].
      - f_equal. change 0xFFFFFFF0 with (Z.ldiff (Z.ones 32) (Z.ones 4)).
        rewrite Z.ldiff_spec, (Z.ones_spec_low 32 i) by lia. done.
      - replace (Z.testbit x i) with false; [done|]. symmetry. unfold is_word in Hx. rewrite word_modulus_val in Hx.
        destruct (decide (x = 0)) as [->|]; [apply Z.bits_0|]. apply Z.bits_above_log2; [lia|].
        apply Z.lt_le_trans with 32; [|lia]. apply Z.log2_lt_pow2; lia. }
    rewrite <- Hd, Z.ldiff_ones_r, Z.shiftl_mul_pow2, Z.shiftr_div_pow2 by lia. zdiv. }
  rewrite E. unfold is_word in *. split; zdiv.
Qed.

Lemma wp_try_points i s : searching_oid s → wp (try_points random fuel i) chosen s.
Proof.
  revert s. induction i as [|i IH]; intros s Hs; [by apply wp_ret|].
  apply wp_bind. eapply searching_max; [done|].
  destruct (round_down (w32 (random i mod max)) (w32_is_word _)) as [Hw H16].
  apply wp_bind. eapply wp_try_range; [done..|]. intros oid _ Hoid. apply wp_bind. eapply searching_max; [done|].
  case_bool_decide as Hlt; [|by apply IH]. apply wp_bind. eapply searching_random; [done|by right|].
  intros s' Hs'. apply wp_ret. split; [done|]. by apply Hoid.
Qed.

Lemma wp_try_random s : searching_oid s → wp (try_random random fuel) chosen s.
Proof.
  intros Hs. apply wp_bind. eapply searching_max; [done|]. case_bool_decide; [|by apply wp_ret].
  apply wp_bind. eapply wp_mono; [by apply wp_try_previous|]. intros [oid|] s1 [Hs1 Hc]; [by apply wp_ret|].
  pose proof Hs1 as (_ & _ & r & Ho & _). apply wp_bind. eapply wp_get_root; [apply Ho|].
  apply wp_bind. eapply searching_max; [done|]. apply wp_bind. eapply wp_mono; [by apply wp_try_points|].
  intros [oid|] s2 [Hs2 Hc2]; [by apply wp_ret|]. apply wp_bind. eapply searching_random; [done|by left|].
  intros s' Hs'. by apply wp_ret.
Qed.
End choose.

Lemma wp_choose_oid random fuel s r m free (Q : Z → state → Prop) : (15 < fuel)%nat →
  oids s r m free → or_max r < 2 ^ 30 →
  (∀ oid s' r' free', same_cells s s' → old_value s' = old_value s → oids s' r' m free' →
    0 ≤ oid < or_max r' → m !! oid = None → oid ∉ free' → or_max r ≤ or_max r' ≤ or_max r + 1 → Q oid s') →
  wp (choose_oid random fuel) Q s.
Proof.
  intros Hf Ho Hmax HQ. pose proof (oids_max _ _ _ _ Ho) as H0. apply wp_bind. eapply wp_get_root; [apply Ho|].
  pose proof (oids_free _ _ _ _ Ho) as Hfree. destruct free as [|o free].
  - simpl in Hfree. rewrite bool_decide_eq_false_2 by (rewrite Hfree; by intros []).
    assert (Hs : searching_oid s m (or_max r) (or_in_use r) s) by (split; [done|]; split; [done|]; by exists r).
    assert (Hgood : ∀ oid s', chosen s m (or_max r) (or_in_use r) (Some oid) s' → Q oid s').
    { intros oid s' [(Hc & Hov & r' & Ho' & Ex & _) [Hr Hn]]. apply (HQ oid s' r' []); [done..|by rewrite Ex|done|apply not_elem_of_nil|].
      rewrite Ex. lia. }
    apply wp_bind. eapply wp_mono; [by apply wp_try_cursor|]. intros [oid|] s1 Hs1; [by apply wp_ret, Hgood|].
    apply wp_bind. eapply wp_mono; [apply wp_try_random; [done|apply Hs1]|].
    intros [oid|] s2 Hs2; [by apply wp_ret, Hgood|]. clear s1 Hs1 Hgood Hs.
    destruct Hs2 as [(Hc & Hov & r2 & Ho2 & Ex & Eu) _].
    apply wp_bind. eapply wp_get_root; [apply Ho2|]. apply wp_bind. eapply wp_get_root; [apply Ho2|].
    apply wp_bind. eapply wp_set_max; [apply Ho2|]. intros s3 Hs3 Hov3 Hr3. apply wp_ret.
    assert (Ew : w32 (or_max r2 + 1) = or_max r2 + 1).
    { apply w32_small. unfold is_word. rewrite word_modulus_val. lia. }
    rewrite Ew in Hr3. apply (HQ _ s3 (with_max (or_max r2 + 1) r2) []).
    + destruct Hc as (?&?&?&?), Hs3 as (?&?&?&?); split_and!; congruence.
    + congruence.
    + destruct Ho2. assert (csub (blk s2) (blk s3)) by (intros p ws; by apply same_cells_blk).
      split; [done|by eapply trie_repr_mono|by eapply is_freelist_mono|done|simpl; lia|done|done| |done|].
      * intros o Hk. simpl. specialize (oids_keys0 _ Hk). lia.
      * intros o [] % not_elem_of_nil.
    + simpl. lia.
    + destruct (m !! or_max r2) eqn:E; [|done]. pose proof (oids_keys _ _ _ _ Ho2 (or_max r2) ltac:(eauto)). lia.
    + apply not_elem_of_nil.
    + simpl. lia.
  - destruct Hfree as (next & Hw & Hnext). pose proof (blk_pos _ _ _ Hw).
    rewrite bool_decide_eq_true_2 by (unfold NULL_WORD; lia).
    apply wp_bind. eapply wp_rd; [exact Hw|lia|done|]. apply wp_bind. eapply wp_rd; [exact Hw|lia|done|].
    apply wp_bind. eapply wp_set_freelist; [apply Ho|]. intros s1 Hs1 Hov1 Hr1. apply wp_ret.
    destruct (oids_free_keys _ _ _ _ Ho o ltac:(by left)) as [Hlt Hn].
    pose proof (oids_free_nodup _ _ _ _ Ho) as [Hno Hnd]%NoDup_cons.
    apply (HQ _ s1 (with_freelist next r) free); [done..| |done|done|done|simpl; lia].
    destruct Ho. assert (csub (blk s) (blk s1)) by (intros p ws; by apply same_cells_blk).
    split; [done|by eapply trie_repr_mono|by eapply is_freelist_mono|done..|].
    intros o' Ho'. apply oids_free_keys0. by right.
Qed.

(** * The operations *)

(** The keys are few enough for 32 bits. *)
Lemma size_keys (m : gmap Z Z) max : 0 ≤ max → (∀ o, is_Some (m !! o) → 0 ≤ o < max) → Z.of_nat (size m) ≤ max.
Proof.
  intros Hmax H. rewrite <- size_dom. transitivity (Z.of_nat (length (seqZ 0 max))); [|rewrite length_seqZ; lia].
  apply inj_le. transitivity (size (list_to_set (seqZ 0 max) : gset Z)).
  - apply subseteq_size. intros o Ho%elem_of_dom. apply elem_of_list_to_set, elem_of_seqZ. apply H in Ho. lia.
  - rewrite size_list_to_set by apply NoDup_seqZ. done.
Qed.

Lemma key_of_oid o : 0 ≤ o < 2 ^ 30 → key_of 15 o = o.
Proof. intros Ho. unfold key_of. by apply Z.mod_small. Qed.

Lemma tagged_oid o : 0 ≤ o < 2 ^ 30 → Z.lor (shl32 o 2) 0x2 = 4 * o + 2.
Proof.
  intros Ho. assert (E : shl32 o 2 = 4 * o).
  { unfold shl32. rewrite Z.shiftl_mul_pow2 by lia. rewrite w32_small; [lia|]. unfold is_word. rewrite word_modulus_val. lia. }
  rewrite E. change (Z.lor (4 * o) 2) with (Z.lor (4 * o) 2). rewrite (lor_add_disjoint _ _ 2); [lia|lia|lia|zdiv].
Qed.

Lemma untag_oid o : shr32 (4 * o + 2) 2 = o.
Proof. unfold shr32. rewrite Z.shiftr_div_pow2 by lia. zdiv. Qed.

Lemma is_oid o : TAGGED_IS_OID (4 * o + 2) = true.
Proof. unfold TAGGED_IS_OID. change 3 with (2 ^ 2 - 1). rewrite land_ones_mod by lia. apply bool_decide_eq_true. zdiv. Qed.

Lemma has_root_same s s' r : root s' = root s → has_root s r → has_root s' r.
Proof. intros E []. unfold root_at in *. split; unfold root_at; by rewrite ?E. Qed.

Lemma same_cells_csub s s' : same_cells s s' → csub (blk s) (blk s').
Proof. intros Hs p ws. by apply same_cells_blk. Qed.

Lemma ext_csub s s' : s ⊑ₛ s' → csub (blk s) (blk s').
Proof. intros Hs p ws. by apply blk_ext. Qed.

(** What an operation keeps: all cells are as they were, and at most [n] words
    were allocated. *)
Definition keeps (n : Z) (s s' : state) : Prop :=
  wf s' ∧ csub (blk s) (blk s') ∧ first_generation_end s' = first_generation_end s ∧
  first_generation_allocation_ptr s - 4 * n ≤ first_generation_allocation_ptr s'.

Lemma keeps_room n s s' k : keeps n s s' → room s (n + k) → room s' k.
Proof. intros (_ & _ & E & Hap) Hr. unfold room in *. rewrite E. lia. Qed.

Section found.
Context (heaviness : Z) (fuel : nat) (Hfuel : (15 < fuel)%nat).

Lemma wp_oid_map_find s p m oid (Q : Z → state → Prop) :
  root_at s ROOT_IX_oid_map p → trie_repr (blk s) p 15 m → Q (default_word (m !! key_of 15 oid)) s →
  wp (oid_map_find fuel oid) Q s.
Proof.
  intros Hp Hm HQ. apply wp_bind. eapply wp_get_root; [exact Hp|].
  eapply wp_run; [apply (find_run fuel p 15 m oid s Hm); lia|done].
Qed.

Lemma wp_oid_allocate random s r m free value :
  wf s → room s OID_ALLOCATE_MAX_ALLOCATION → oids s r m free → or_max r < 2 ^ 30 → value ≠ NULL_WORD →
  wp (oid_allocate random heaviness fuel value) (λ t s', ∃ o r' free',
    t = 4 * o + 2 ∧ m !! o = None ∧ keeps OID_ALLOCATE_MAX_ALLOCATION s s' ∧ oids s' r' (<[o := value]> m) free' ∧
    or_max r ≤ or_max r' ≤ or_max r + 1) s.
Proof.
  intros Hwf Hroom Ho Hmax Hv. apply wp_bind. eapply wp_choose_oid; [done..|].
  intros o s1 r1 free1 Hc1 _ Ho1 Hlt Hn Hnf Hr1. pose proof (oids_max _ _ _ _ Ho1) as Hmax1.
  apply wp_bind. eapply wp_oid_map_find; [apply Ho1|apply Ho1|]. rewrite key_of_oid, Hn by lia.
  apply wp_bind, wp_assert; [done|]. apply wp_bind. eapply wp_get_root; [apply Ho1|].
  pose proof (size_keys m (or_max r1) ltac:(lia) (oids_keys _ _ _ _ Ho1)) as Hsize. rewrite (oids_in_use _ _ _ _ Ho1).
  rewrite w32_small by (unfold is_word; rewrite word_modulus_val; lia).
  apply wp_bind. eapply wp_set_in_use; [apply Ho1|]. intros s2 Hc2 _ Hr2.
  apply wp_bind. eapply wp_get_root; [apply Hr2|]. simpl or_map.
  assert (Hc : same_cells s s2) by (destruct Hc1 as (?&?&?&?), Hc2 as (?&?&?&?); split_and!; congruence).
  assert (Hm2 : trie_repr (blk s2) (or_map r1) 15 m) by (eapply trie_repr_mono, Ho1; by apply same_cells_csub).
  apply wp_bind. eapply wp_mono.
  { eapply (wp_triev2_insert s2 15 m _ o) with (g := None); [by eapply same_cells_wf|lia|by eapply same_cells_room|exact Hm2|exact I|lia|].
    unfold new_data. by destruct (m !! key_of 15 o). }
  rewrite key_of_oid, Hn by lia. cbn [new_data]. intros p s3 (He & Hw3 & Hap & Hres).
  rewrite decide_False in Hres by (by rewrite Hn).
  apply wp_bind. eapply wp_set_map; [eapply has_root_same, Hr2; apply He|]. intros s4 Hc4 _ Hr4.
  apply wp_ret. exists o, (with_map p (with_in_use (Z.of_nat (size m) + 1) r1)), free1.
  assert (Hsub : csub (blk s1) (blk s4)).
  { etrans; [apply (same_cells_csub _ _ Hc2)|]. etrans; [by apply ext_csub|]. by apply same_cells_csub. }
  split; [apply tagged_oid; lia|]. split; [done|]. split.
  { split; [by eapply same_cells_wf|]. split; [etrans; [apply (same_cells_csub _ _ Hc1)|exact Hsub]|].
    destruct Hc as (_&_&Ee&E), Hc4 as (_&_&->&->). rewrite <- E, <- Ee. split; [apply He|exact Hap]. }
  split; [|done]. destruct Ho1. split; [done| | | |done|done|done| |done|]; simpl.
  - eapply trie_repr_mono, Hres. by apply same_cells_csub.
  - by eapply is_freelist_mono.
  - rewrite map_size_insert_None by done. lia.
  - intros o'. destruct (decide (o' = o)) as [->|]; [lia|]. rewrite lookup_insert_ne by done. apply oids_keys0.
  - intros o' Ho'. destruct (oids_free_keys0 _ Ho') as [? ?]. split; [done|].
    rewrite lookup_insert_ne; [done|]. by intros ->.
Qed.
End found.

Lemma trie_repr_data C p n m key d : trie_repr C p n m → m !! key_of n key = Some d → d ≠ NULL_WORD.
Proof.
  intros (T & Hok & _ & Hm) Hd. rewrite (trie_map_lookup _ _ _ _ Hm) in Hd.
  by apply (lookup_length _ _ _ _ Hok) in Hd as [_ ?].
Qed.

Section operations_correct.
Context (heaviness : Z) (fuel : nat) (Hfuel : (15 < fuel)%nat).

Lemma wp_oid_ref s r m free o (Q : Z → state → Prop) : oids s r m free → 0 ≤ o ≤ or_max r → o < 2 ^ 30 →
  Q (default_word (m !! o)) s → wp (oid_ref fuel (4 * o + 2)) Q s.
Proof.
  intros Ho Hlt Hlt2 HQ. apply wp_bind, wp_assert; [apply is_oid|]. apply wp_bind.
  eapply wp_get_root; [apply Ho|]. rewrite untag_oid. apply wp_bind, wp_assert; [apply bool_decide_eq_true; lia|].
  eapply wp_oid_map_find; [done|apply Ho|apply Ho|]. by rewrite key_of_oid by lia.
Qed.

Lemma wp_oid_dispose s r m free o d :
  wf s → room s OID_DISPOSE_MAX_ALLOCATION → oids s r m free → m !! o = Some d →
  wp (oid_dispose heaviness fuel (4 * o + 2)) (λ v s', v = d ∧ ∃ r',
    keeps OID_DISPOSE_MAX_ALLOCATION s s' ∧ oids s' r' (delete o m) (o :: free) ∧ or_max r' = or_max r) s.
Proof.
  intros Hwf Hroom Ho Hd. pose proof (oids_keys _ _ _ _ Ho o ltac:(eauto)) as Hlt.
  pose proof (oids_max _ _ _ _ Ho) as Hmax. unfold OID_DISPOSE_MAX_ALLOCATION in *. change TRIEV2_MAX_ALLOCATION with 85 in *.
  pose proof (grow_refl s Hwf) as HG. apply wp_bind, wp_assert; [apply is_oid|]. apply wp_bind.
  eapply wp_get_root; [apply Ho|]. rewrite untag_oid. wp_steps. eapply wp_get_root; [|wp_steps].
  { rewrite (ext_root _ _ (grow_ext _ _ _ _ HG)). apply Ho. }
  assert (Hr1 : has_root s0 r) by (eapply has_root_same; [apply HG|apply Ho]).
  eapply wp_set_freelist; [exact Hr1|]. intros s4 Hc4 _ Hr4. wp_step. eapply wp_get_root; [apply Hr4|]. wp_step.
  eapply wp_set_in_use; [exact Hr4|]. intros s5 Hc5 _ Hr5. wp_step. apply wp_modify. wp_step.
  set (s6 := set_old_value NULL_WORD s5).
  assert (Hc : same_cells s0 s6) by (destruct Hc4 as (?&?&?&?), Hc5 as (?&?&?&?); split_and!; simpl; congruence).
  eapply wp_get_root; [apply Hr5|]. wp_step. simpl or_map.
  pose proof (ext_csub _ _ (grow_ext _ _ _ _ HG)) as Hsub1. pose proof (same_cells_csub _ _ Hc) as Hsub2.
  assert (Hm6 : trie_repr (blk s6) (or_map r) 15 m) by (eapply trie_repr_mono, Ho; by etrans).
  set (s7 := set_old_value d s6). assert (Hc7 : same_cells s0 s7) by exact Hc.
  eapply wp_mono.
  { eapply (wp_delete_present s6 s7 15 m _ o) with (x := NULL_WORD) (d := d);
      [eapply same_cells_holds, holds_blk; apply set_old_value_same_cells|
       eapply same_cells_wf, HG; exact Hc7|lia| |exact Hm6|lia|by rewrite key_of_oid by lia|done].
    eapply same_cells_room; [exact Hc7|]. eapply grow_room; [exact HG|]. change TRIEV2_MAX_ALLOCATION with 85. unfold room in *. lia. }
  intros q s8 (He & Hw8 & Hap & Hres). rewrite key_of_oid, Hd in Hres by lia.
  assert (Hdn : d ≠ NULL_WORD) by (eapply (trie_repr_data _ _ _ _ o); [exact Hm6|by rewrite key_of_oid by lia]).
  rewrite decide_False in Hres by done. unfold deleted_map in Hres. rewrite decide_True in Hres by done.
  wp_step. eapply wp_set_map; [eapply has_root_same, Hr5; apply He|]. intros s9 Hc9 Hov9 Hr9. wp_step.
  pose proof (same_cells_csub _ _ Hc9) as Hsub9.
  assert (Hsub3 : csub (blk s0) (blk s9)).
  { etrans; [apply (same_cells_csub _ _ Hc7)|]. etrans; [apply (ext_csub _ _ He)|exact Hsub9]. }
  assert (Hm9 : trie_repr (blk s9) q 15 (delete o m)) by (eapply trie_repr_mono; [exact Hsub9|exact Hres]).
  eapply wp_oid_map_find; [done|apply Hr9|exact Hm9|]. rewrite key_of_oid, lookup_delete_eq by lia. wp_steps.
  split; [rewrite Hov9; apply He|].
  exists (with_map q (with_in_use (w32 (or_in_use r - 1)) (with_freelist p r))). split.
  { split; [by eapply same_cells_wf|]. split; [by etrans|]. destruct Hc9 as (_&_&->&->).
    pose proof (grow_used _ _ _ _ HG) as Hu. pose proof (ext_end _ _ (grow_ext _ _ _ _ HG)) as Eu.
    destruct Hc7 as (_&_&Ee&E). rewrite E in Hap. rewrite (ext_end _ _ He), Ee, Eu. split; [done|]. change TRIEV2_MAX_ALLOCATION with 85 in Hap. lia. }
  split; [|done]. destruct Ho. split; [exact Hr9|exact Hm9| | |done|done|done| | |]; simpl.
  - exists (or_freelist r). split; [|eapply is_freelist_mono, oids_free0; by etrans].
    apply Hsub3. eapply (grow_blk_new _ _ _ _ 0%nat); [exact HG|done].
  - rewrite map_size_delete_Some by eauto. rewrite oids_in_use0. pose proof (size_keys m (or_max r) ltac:(lia) oids_keys0).
    assert (size m ≠ 0%nat) by (intros E%map_size_empty_iff; by rewrite E in Hd).
    rewrite w32_small; [lia|]. unfold is_word. rewrite word_modulus_val. lia.
  - intros o' Hk. apply oids_keys0. destruct Hk as [d' Hk]. apply lookup_delete_Some in Hk as [_ ?]. eauto.
  - apply NoDup_cons. split; [|done]. intros Hin. destruct (oids_free_keys0 _ Hin) as [_ E]. congruence.
  - intros o' [->|Hin]%elem_of_cons; [by rewrite lookup_delete_eq|].
    destruct (oids_free_keys0 _ Hin) as [? E]. split; [done|]. apply lookup_delete_None. by right.
Qed.

(** The oid is used with its tag as the key. *)
Lemma wp_oid_update s r m free o value :
  wf s → room s OID_UPDATE_MAX_ALLOCATION → oids s r m free → 0 ≤ o → 4 * o + 2 ≤ or_max r → value ≠ NULL_WORD →
  wp (oid_update heaviness fuel (4 * o + 2) value) (λ old s', old = default_word (m !! (4 * o + 2)) ∧
    keeps OID_UPDATE_MAX_ALLOCATION s s' ∧ ∃ p, has_root s' (with_map p r) ∧
    trie_repr (blk s') p 15 (<[4 * o + 2 := value]> m)) s.
Proof.
  intros Hwf Hroom Ho H0 Hlt Hv. pose proof (oids_max _ _ _ _ Ho) as Hmax. apply wp_bind, wp_assert; [apply is_oid|].
  wp_step. apply wp_modify. set (s1 := set_old_value NULL_WORD s). wp_step.
  assert (Hc : same_cells s s1) by done. assert (Hr1 : has_root s1 r) by (eapply has_root_same, Ho; done).
  eapply wp_get_root; [apply Hr1|]. wp_steps. eapply wp_get_root; [apply Hr1|]. wp_step.
  assert (Hm1 : trie_repr (blk s1) (or_map r) 15 m) by (eapply trie_repr_mono, Ho; by apply same_cells_csub).
  assert (Hk : key_of 15 (4 * o + 2) = 4 * o + 2).
  { apply key_of_oid. split; [lia|]. zdiv. }
  eapply wp_mono.
  { eapply (wp_triev2_insert_noting s1 15 m _ (4 * o + 2)) with (g := Some (λ _ x, x)) (o := λ old _ _, old);
      [by eapply same_cells_wf|lia|by eapply same_cells_room|exact Hm1|done|lia|].
    unfold new_data. by destruct (m !! key_of 15 _). }
  rewrite Hk. intros p s2 (He & Hw2 & Hap & Hres).
  assert (En : new_data (Some (λ _ x, x)) (m !! (4 * o + 2)) value = value) by (by destruct (m !! _)).
  rewrite En in Hres.
  assert (Hov : old_value s2 = default_word (m !! (4 * o + 2))).
  { rewrite (ext_old_value _ _ He). by destruct (m !! _). }
  assert (Hap' : first_generation_allocation_ptr s - 4 * OID_UPDATE_MAX_ALLOCATION ≤ first_generation_allocation_ptr s2).
  { by destruct (m !! (4 * o + 2)) in Hap. }
  assert (Hsub : csub (blk s) (blk s2)).
  { etrans; [apply (same_cells_csub _ _ Hc)|]. etrans; [|apply (ext_csub _ _ He)]. apply same_cells_csub. by destruct (m !! _). }
  assert (Hm2 : trie_repr (blk s2) p 15 (<[4 * o + 2 := value]> m)).
  { case_decide as Hd; [|done]. destruct Hres as [-> _]. rewrite insert_id by done. by eapply trie_repr_mono, Ho. }
  wp_step. eapply wp_set_map; [eapply has_root_same, Hr1; rewrite (ext_root _ _ He); by destruct (m !! _)|].
  intros s3 Hc3 Hov3 Hr3. wp_steps. split; [congruence|]. split.
  - split; [by eapply same_cells_wf|]. split; [etrans; [exact Hsub|by apply same_cells_csub]|].
    destruct Hc3 as (_&_&->&->). split; [rewrite (ext_end _ _ He); by destruct (m !! _)|exact Hap'].
  - exists p. split; [done|]. eapply trie_repr_mono, Hm2. by apply same_cells_csub.
Qed.
End operations_correct.

(** * What the oid system promises

    The specification of its operations, on a table [m] of the objects and the
    set [issued] of all oids ever given out. *)

Inductive oid_op :=
| Allocate (value : Z)
| Dispose (oid : Z)
| Ref (oid : Z).

Definition objects : Type := gmap Z Z * gset Z.

Inductive oid_spec : objects → oid_op → Z → objects → Prop :=
| spec_allocate m issued value o : m !! o = None →
    oid_spec (m, issued) (Allocate value) (4 * o + 2) (<[o := value]> m, {[o]} ∪ issued)
| spec_dispose m issued o d : m !! o = Some d →
    oid_spec (m, issued) (Dispose (4 * o + 2)) d (delete o m, issued)
| spec_ref m issued o :
    oid_spec (m, issued) (Ref (4 * o + 2)) (default_word (m !! o)) (m, issued).

(** What a client may ask for. *)
Definition oid_allowed (x : objects) (op : oid_op) : Prop :=
  match op with
  | Allocate value => value ≠ NULL_WORD
  | Dispose t => ∃ o, t = 4 * o + 2 ∧ is_Some (x.1 !! o)
  | Ref t => ∃ o, t = 4 * o + 2 ∧ o ∈ x.2
  end.

(** Clients choose their next operation by the results of the earlier ones;
    [client_spec x c v y]: from the objects [x] the client [c] can end with the
    result [v] and the objects [y]. *)
Inductive client :=
| Return (v : Z)
| Do (op : oid_op) (k : Z → client).

Inductive client_spec : objects → client → Z → objects → Prop :=
| client_return x v : client_spec x (Return v) v x
| client_do x op k v y w z : oid_spec x op v y → client_spec y (k v) w z → client_spec x (Do op k) w z.

(** All that a client may do is allowed, in at most [n] operations. *)
Fixpoint client_allowed (n : nat) (x : objects) (c : client) : Prop :=
  match c, n with
  | Return _, _ => True
  | Do op k, S n => oid_allowed x op ∧ ∀ v y, oid_spec x op v y → client_allowed n y (k v)
  | Do _ _, O => False
  end.

Section run.
Context (random : nat → nat → Z) (heaviness : Z) (fuel : nat).

Definition run_op (i : nat) (op : oid_op) : M Z :=
  match op with
  | Allocate value => oid_allocate (random i) heaviness fuel value
  | Dispose oid => oid_dispose heaviness fuel oid
  | Ref oid => oid_ref fuel oid
  end.

(** The client's run; its [i]th operation draws the random numbers [random i]. *)
Fixpoint run_client (i : nat) (c : client) : M Z :=
  match c with
  | Return v => mret v
  | Do op k => v ← run_op i op; run_client (S i) (k v)
  end.

(** The state holds the objects [x]; [k] oids were made so far. *)
Definition represents (k : Z) (s : state) (x : objects) : Prop :=
  wf s ∧ ∃ r free, oids s r x.1 free ∧ or_max r ≤ k ∧ ∀ o, o ∈ x.2 → 0 ≤ o < or_max r.

Lemma represents_weaken k k' s x : represents k s x → k ≤ k' → represents k' s x.
Proof. intros (Hw & r & free & Ho & Hk & Hi) Hle. split; [done|]. exists r, free. split; [done|]. split; [lia|done]. Qed.

Context (Hfuel : (15 < fuel)%nat).

(** One operation. *)
Lemma wp_run_op i k s x op : represents k s x → oid_allowed x op → k < 2 ^ 30 → room s OID_DISPOSE_MAX_ALLOCATION →
  wp (run_op i op) (λ v s', ∃ y, oid_spec x op v y ∧ represents (k + 1) s' y ∧ keeps OID_DISPOSE_MAX_ALLOCATION s s') s.
Proof.
  destruct x as [m issued]. intros (Hw & r & free & Ho & Hk & Hi) Ha Hlt Hroom. cbn [fst snd] in *.
  pose proof (oids_max _ _ _ _ Ho) as Hmax. destruct op as [value|t|t]; cbn [run_op oid_allowed fst snd] in *.
  - eapply wp_mono; [eapply wp_oid_allocate; [done|done| |exact Ho|lia|done]|].
    { unfold room, OID_DISPOSE_MAX_ALLOCATION, OID_ALLOCATE_MAX_ALLOCATION in *. lia. }
    intros v s' (o & r' & free' & -> & Hn & Hkeeps & Ho' & Hr'). eexists. split; [by constructor|]. split.
    + split; [apply Hkeeps|]. exists r', free'. split; [done|]. split; [lia|]. cbn [snd]. intros o' [->%elem_of_singleton|Hin]%elem_of_union.
      * apply (oids_keys _ _ _ _ Ho'). cbn [fst]. rewrite lookup_insert_eq. eauto.
      * specialize (Hi _ Hin). lia.
    + destruct Hkeeps as (? & ? & ? & Hap). do 3 (split; [done|]).
      unfold OID_DISPOSE_MAX_ALLOCATION, OID_ALLOCATE_MAX_ALLOCATION in *. lia.
  - destruct Ha as (o & -> & d & Hd). eapply wp_mono; [eapply wp_oid_dispose; [done|done|done|exact Ho|exact Hd]|].
    intros v s' (-> & r' & Hkeeps & Ho' & Hr'). eexists. split; [by apply spec_dispose|]. split; [|done].
    split; [apply Hkeeps|]. exists r', (o :: free). split; [done|]. rewrite Hr'. split; [lia|done].
  - destruct Ha as (o & -> & Hin). pose proof (Hi _ Hin). eapply wp_oid_ref; [done|exact Ho|lia|lia|].
    exists (m, issued). split; [constructor|]. split.
    + split; [done|]. exists r, free. split; [done|]. split; [lia|done].
    + split; [done|]. split; [reflexivity|]. split; [done|]. unfold OID_DISPOSE_MAX_ALLOCATION. change TRIEV2_MAX_ALLOCATION with 85. lia.
Qed.

(** A whole client. *)
Lemma wp_run_client n i k s x c : represents k s x → client_allowed n x c → k + Z.of_nat n ≤ 2 ^ 30 →
  room s (OID_DISPOSE_MAX_ALLOCATION * Z.of_nat n) →
  wp (run_client i c) (λ v s', ∃ y, client_spec x c v y ∧ represents (k + Z.of_nat n) s' y) s.
Proof.
  revert n i k s x. induction c as [v|op c IH]; intros n i k s x Hr Ha Hk Hroom.
  { apply wp_ret. exists x. split; [constructor|]. eapply represents_weaken; [done|lia]. }
  destruct n as [|n]; [done|]. destruct Ha as [Hop Ha]. apply wp_bind.
  assert (Hd : OID_DISPOSE_MAX_ALLOCATION * Z.of_nat (S n) = OID_DISPOSE_MAX_ALLOCATION + OID_DISPOSE_MAX_ALLOCATION * Z.of_nat n) by lia.
  eapply wp_mono; [eapply wp_run_op; [exact Hr|exact Hop|lia|]|].
  { rewrite Hd in Hroom. unfold room, OID_DISPOSE_MAX_ALLOCATION in *. change TRIEV2_MAX_ALLOCATION with 85 in *. lia. }
  intros v s' (y & Hs & Hy & Hkeeps). eapply wp_mono; [apply (IH v n); [exact Hy|by apply Ha|lia|]|].
  { eapply keeps_room; [exact Hkeeps|]. by rewrite <- Hd. }
  intros w s2 (z & Hz & Hrz). exists z. split; [by eapply client_do|]. eapply represents_weaken; [done|lia].
Qed.
End run.


(** * Properties *)

Lemma wp_init_root_oids s (Q : unit → state → Prop) :
  wf s → length (root s) = 128%nat → (128 ≤ length (ix_is_ptr s))%nat →
  (∀ s', same_cells s s' → represents 0 s' (∅, ∅) → Q tt s') → wp init_root Q s.
Proof.
  intros Hw Hr Hi HQ. apply wp_bind, wp_assert; [done|].
  apply wp_init_root_items; [lia|done|by apply (bool_decide_unpack _); vm_compute|].
  intros s' Hs Hl _ Hin _. apply HQ; [done|]. split; [by eapply same_cells_wf|].
  assert (Hx : ∀ x, root_at s' x (initial_value x)).
  { intros x. apply Hin. eapply list_elem_of_lookup_2, root_ixs_lookup. }
  exists (OidRoot 0 0 0 0 0 0), []. split; [|split; [done|intros o Ho; by apply not_elem_of_empty in Ho]].
  split; simpl; [split; [congruence|exact (Hx _)..]| | |done|lia|by split; vm_compute|right; by split; vm_compute| |constructor|].
  - exists Empty. split; [done|]. split; [done|]. intros k. by destruct (decide _).
  - done.
  - intros o [d Hd]. by rewrite lookup_empty in Hd.
  - intros o Ho. by apply not_elem_of_nil in Ho.
Qed.

(** * Properties *)

(** C8. From an initialised root block on, any client that uses the object
    identities as [oid_allowed] says - it never stores [NULL_WORD], disposes only
    of objects in use and refers only to oids it was given - runs to its end with
    a result that the specification has: every allocation yields an oid that is
    not in use, references and disposals yield the object's value, and
    disposing forgets just that object.  No assertion fails and the functions
    stay within the sizes oid.h declares, whatever the random numbers are. *)
Theorem oid_client_refines random heaviness fuel n c s :
  (15 < fuel)%nat → wf s → length (root s) = 128%nat → length (ix_is_ptr s) = 128%nat →
  client_allowed n (∅, ∅) c → Z.of_nat n ≤ 2 ^ 30 → room s (OID_DISPOSE_MAX_ALLOCATION * Z.of_nat n) →
  ∃ v s' y, (init_root;; run_client random heaviness fuel 0 c) s = Ok v s' ∧ client_spec (∅, ∅) c v y ∧
    represents (Z.of_nat n) s' y.
Proof.
  intros Hf Hw Hr Hi Ha Hn Hroom.
  destruct (wp_inv (init_root;; run_client random heaviness fuel 0 c)
    (λ v s', ∃ y, client_spec (∅, ∅) c v y ∧ represents (Z.of_nat n) s' y) s) as (v & s' & E & y & H); [|eauto].
  apply wp_bind, wp_init_root_oids; [done|done|lia|]. intros s1 Hs1 Hrep.
  eapply (wp_run_client random heaviness fuel Hf n 0 0); [done..|]. by eapply same_cells_room.
Qed.

(** A client: two objects, of which the first is given up. *)
Definition example_client : client :=
  Do (Allocate 100) (λ a, Do (Allocate 200) (λ b, Do (Dispose a) (λ _, Do (Ref b) Return))).

Lemma example_client_allowed : client_allowed 4 (∅, ∅) example_client.
Proof.
  split; [done|]. intros v y H1. inversion H1 as [? ? ? o1 Hn1| |]; subst. split; [done|].
  intros v y H2. inversion H2 as [? ? ? o2 Hn2| |]; subst. split.
  { exists o1. split; [done|]. cbn [fst]. rewrite lookup_insert_ne; [rewrite lookup_insert_eq; eauto|].
    intros ->. by rewrite lookup_insert_eq in Hn2. }
  intros v y H3. inversion H3 as [|? ? o3 d3 Hd3|]; subst. split; [|done]. exists o2. split; [done|]. cbn [snd].
  apply elem_of_union. left. by apply elem_of_singleton.
Qed.

Definition oid_start : state := set_ix_is_ptr (replicate 128 false) (init_state 4 400 (replicate 128 0)).

Lemma oid_client_refines_witness :
  ∃ v s' y, (init_root;; run_client (λ _ _, 7) 10 16 0 example_client) oid_start = Ok v s' ∧
    client_spec (∅, ∅) example_client v y ∧ represents 4 s' y.
Proof.
  apply (oid_client_refines (λ _ _, 7) 10 16 4 example_client oid_start).
  - lia.
  - apply wfb_sound. by vm_compute.
  - done.
  - done.
  - apply example_client_allowed.
  - lia.
  - vm_compute. discriminate.
Defined.

(** C40. [oid_update] does not update the object: unlike the other functions it
    does not remove the tag, so that for an object [o] it writes to the object
    [4 o + 2], whose old value it returns, and that fails its assertion if there
    were never so many objects; the object [o] keeps its value. *)
Theorem oid_update_misses heaviness fuel s r m free o d value :
  (15 < fuel)%nat → wf s → room s OID_UPDATE_MAX_ALLOCATION → oids s r m free → m !! o = Some d → value ≠ NULL_WORD →
  (or_max r < 4 * o + 2 → oid_update heaviness fuel (4 * o + 2) value s = Err AssertFailed) ∧
  (4 * o + 2 ≤ or_max r → ∃ s',
    oid_update heaviness fuel (4 * o + 2) value s = Ok (default_word (m !! (4 * o + 2))) s' ∧
    oid_ref fuel (4 * o + 2) s' = Ok d s' ∧ oid_ref fuel (4 * (4 * o + 2) + 2) s' = Ok value s').
Proof.
  intros Hf Hw Hroom Ho Hd Hv. pose proof (oids_keys _ _ _ _ Ho o ltac:(eauto)) as Hlt.
  pose proof (oids_max _ _ _ _ Ho) as Hmax. split; intros Hle.
  - pose proof (hr_max _ _ (oids_root _ _ _ _ Ho)) as Hat. unfold root_at in Hat. unfold oid_update. rewrite is_oid.
    unfold mbind, M_bind. cbn [massert mret M_ret]. unfold modify, get_root, gets, mbind, M_bind.
    change (root (set_old_value NULL_WORD s)) with (root s). rewrite Hat. cbn [of_option mret M_ret].
    by rewrite bool_decide_eq_false_2 by lia.
  - destruct (wp_inv _ _ _ (wp_oid_update heaviness fuel Hf s r m free o value Hw Hroom Ho ltac:(lia) Hle Hv))
      as (old & s' & E & -> & Hk & p & Hr & Hm).
    exists s'. split; [done|].
    assert (Hread : ∀ k x, 0 ≤ k ≤ or_max r → k < 2 ^ 30 → default_word (<[4 * o + 2 := value]> m !! k) = x →
      oid_ref fuel (4 * k + 2) s' = Ok x s').
    { intros k x Hk1 Hk2 Hx.
      destruct (wp_inv (oid_ref fuel (4 * k + 2)) (λ y s2, y = x ∧ s2 = s') s') as (y & s2 & Ey & -> & ->); [|done].
      apply wp_bind, wp_assert; [apply is_oid|]. apply wp_bind. eapply wp_get_root; [apply Hr|]. rewrite untag_oid.
      apply wp_bind, wp_assert; [apply bool_decide_eq_true; simpl; lia|].
      eapply wp_oid_map_find; [done|apply Hr|exact Hm|]. by rewrite key_of_oid, Hx by lia. }
    split; apply Hread; [lia|lia| |lia| |by rewrite lookup_insert_eq].
    + rewrite lookup_insert_ne by lia. by rewrite Hd.
    + zdiv.
Qed.

(** Three objects. *)
Definition example_objects : gmap Z Z := <[2 := 300]> (<[1 := 200]> (<[0 := 100]> ∅)).
Definition three_objects : M Z :=
  init_root;; oid_allocate (λ _, 0) 10 16 100;; oid_allocate (λ _, 0) 10 16 200;; oid_allocate (λ _, 0) 10 16 300.
Definition example_oids : state := exec three_objects oid_start.

(** As long as all oids are in use the next one is new. *)
Lemma wp_next_oid random s m max value :
  wf s → room s OID_ALLOCATE_MAX_ALLOCATION → (∃ r free, oids s r m free ∧ or_max r = max) → max < 2 ^ 30 →
  (∀ k, 0 ≤ k < max → is_Some (m !! k)) → value ≠ NULL_WORD →
  wp (oid_allocate random 10 16 value) (λ _ s', keeps OID_ALLOCATE_MAX_ALLOCATION s s' ∧
    ∃ r' free', oids s' r' (<[max := value]> m) free' ∧ or_max r' = max + 1) s.
Proof.
  intros Hw Hr (r & free & Ho & <-) Hlt Hall Hv. eapply wp_mono; [by eapply wp_oid_allocate; [lia|..]|].
  intros t s' (o & r' & free' & -> & Hn & Hk & Ho' & Hm).
  assert (0 ≤ o < or_max r') by (apply (oids_keys _ _ _ _ Ho'); rewrite lookup_insert_eq; eauto).
  assert (o = or_max r) as ->.
  { destruct (decide (o < or_max r)); [|lia]. destruct (Hall o ltac:(lia)). congruence. }
  split; [done|]. exists r', free'. split; [done|lia].
Qed.

Lemma example_oids_ok : wf example_oids ∧ ∃ r free, oids example_oids r example_objects free ∧ or_max r = 3.
Proof.
  destruct (wp_inv three_objects (λ _ s, wf s ∧ ∃ r free, oids s r example_objects free ∧ or_max r = 3) oid_start) as (v & s & E & H);
    [|unfold example_oids, exec; by rewrite E].
  apply wp_bind, wp_init_root_oids; [apply wfb_sound; by vm_compute|done|by apply (bool_decide_unpack _); vm_compute|].
  intros s0 Hs0 (Hw & r & free & Ho & Hr & _). pose proof (oids_max _ _ _ _ Ho).
  assert (Hroom : room s0 (3 * OID_ALLOCATE_MAX_ALLOCATION)) by (eapply same_cells_room; [exact Hs0|]; vm_compute; discriminate).
  unfold OID_ALLOCATE_MAX_ALLOCATION in *. change TRIEV2_MAX_ALLOCATION with 85 in *.
  apply wp_bind. eapply wp_mono; [apply (wp_next_oid _ _ ∅ 0); [done|change OID_ALLOCATE_MAX_ALLOCATION with 85; unfold room in *; lia|exists r, free; split; [done|lia]|lia|lia|done]|].
  intros _ s1 [Hk1 Ho1]. assert (Hroom1 : room s1 (2 * 85)) by (eapply keeps_room; [exact Hk1|exact Hroom]).
  apply wp_bind. eapply wp_mono; [apply (wp_next_oid _ _ (<[0 := 100]> ∅) 1); [apply Hk1|change OID_ALLOCATE_MAX_ALLOCATION with 85; unfold room in *; lia|exact Ho1|lia| |done]|].
  { intros k Hk. replace k with 0 by lia. by exists 100. }
  intros _ s2 [Hk2 Ho2]. assert (Hroom2 : room s2 85) by (eapply keeps_room; [exact Hk2|exact Hroom1]).
  eapply wp_mono; [apply (wp_next_oid _ _ (<[1 := 200]> (<[0 := 100]> ∅)) 2); [apply Hk2|exact Hroom2|exact Ho2|lia| |done]|].
  { intros k Hk. assert (k = 0 ∨ k = 1) as [-> | ->] by lia; by eexists. }
  intros _ s3 [Hk3 Ho3]. split; [apply Hk3|exact Ho3].
Qed.

Lemma oid_update_misses_witness : ∃ r free, oids example_oids r example_objects free ∧
  (or_max r < 2 → oid_update 10 16 2 150 example_oids = Err AssertFailed) ∧
  (2 ≤ or_max r → ∃ s', oid_update 10 16 2 150 example_oids = Ok 300 s' ∧
    oid_ref 16 2 s' = Ok 100 s' ∧ oid_ref 16 10 s' = Ok 150 s').
Proof.
  destruct example_oids_ok as (Hw & r & free & Ho & Hr). exists r, free. split; [done|].
  apply (oid_update_misses 10 16 example_oids r example_objects free 0 100 150).
  - lia.
  - done.
  - vm_compute. discriminate.
  - done.
  - done.
  - done.
Defined.
