(* ===== verification/Dh.v ===== *)
(** Dynamic hashing: dh.h and dh.c.  The keys are words whose base-4 digits lead from
    internal nodes of four sons to leaves of up to 32 keys with their data. *)

From S2P Require Import Prelude Machine Celltypes Shades Cow Bitops Compare Cells Digits.

Definition MAX_KEYS_IN_LEAF : Z := 32.
Definition DH_MAX_ALLOCATION : Z := (INTERNAL_NODE_SIZE + 1) * 32 / (DO_ILOG2 INTERNAL_NODE_SIZE - 1) + 4 * 2 + 1.

(** [offset] *)
Definition dh_offset : Z := DO_ILOG2 INTERNAL_NODE_SIZE - 1.
(** [(key << bits_compared) >> (32 - offset)] *)
Definition dh_digit (key bits_compared : Z) : Z := shr32 (shl32 key bits_compared) (32 - dh_offset).
(** [p\[0\] & 0xFFFFFF]; the size of the cell is twice that and one. *)
Definition number_of_keys (p : Z) : M Z := w ← rd p 0; mret (Z.land w 0xFFFFFF).

(** * Searching *)

(** [for (i = 1; i < cell_size; i += 2) if (p\[i\] == key)]: the index, if there is one;
    [n] keys are left. *)
Fixpoint leaf_search (n : nat) (p i key : Z) : M (option Z) :=
  match n with
  | O => mret None
  | S n => k ← rd p i; if bool_decide (k = key) then mret (Some i) else leaf_search n p (i + 2) key
  end.

Definition dh_find_step (key : Z) : Z * Z → M (Z * Z + Z) := λ '(p, bits_compared),
  if bool_decide (p = NULL_PTR) then mret (inr NULL_PTR)
  else
    t ← CELL_TYPE p;
    if bool_decide (t = Some CELL_leaf) then
      n ← number_of_keys p;
      r ← leaf_search (Z.to_nat n) p 1 key;
      match r with
      | Some i => d ← rd p (i + 1); mret (inr d)
      | None => mret (inr NULL_PTR)
      end
    else
      massert (bool_decide (t = Some CELL_internal));;
      p ← rd p (dh_digit key bits_compared + 1);
      mret (inl (p, bits_compared + dh_offset)).

Definition dh_find (fuel : nat) (root key : Z) : M Z := loop fuel (dh_find_step key) (root, 0).

(** [dh_find_min] yields the data and [*key_p]. *)
Definition first_son (fuel : nat) (p : Z) : M Z :=
  loop fuel (λ i, w ← rd p i; mret (if bool_decide (w = NULL_WORD) then inl (i + 1) else inr i)) 1.

Definition dh_find_min_step (fuel : nat) (p : Z) : M (Z + Z * Z) :=
  t ← CELL_TYPE p;
  if bool_decide (t = Some CELL_leaf) then
    k ← rd p 1;
    n ← number_of_keys p;
    key ← for_ (Z.to_nat n - 1) (λ j key, k ← rd p (3 + 2 * Z.of_nat j); mret (if bool_decide (k < key) then k else key)) k;
    d ← rd p 4;
    mret (inr (d, key))
  else
    massert (bool_decide (t = Some CELL_internal));;
    i ← first_son fuel p;
    massert (bool_decide (i ≤ INTERNAL_NODE_SIZE));;
    p ← rd p i;
    mret (inl p).

Definition dh_find_min (fuel : nat) (root key : Z) : M (Z * Z) :=
  if bool_decide (root = NULL_PTR) then mret (NULL_PTR, key) else loop fuel (dh_find_min_step fuel) root.

(** * Insertion *)

Definition call_f (f : update_fun) (old data : Z) : M Z :=
  match f with Some f => f old data | None => mret data end.

(** [new_p\[i\] = p\[i\]; new_p\[i + 1\] = p\[i + 1\]] for [n] pairs *)
Definition copy_pairs (n : nat) (p new_p : Z) : M unit :=
  for_ n (λ j _,
    k ← rd p (1 + 2 * Z.of_nat j); wr new_p (1 + 2 * Z.of_nat j) k;;
    d ← rd p (2 + 2 * Z.of_nat j); wr new_p (2 + 2 * Z.of_nat j) d) tt.

(** The key is there, at [p\[i\]]. *)
Definition leaf_update (ap root : Z) (f : update_fun) (data p n i : Z) (pp : slot_ptr) (new_root : Z) : M Z :=
  data ← match f with Some f => d ← rd p (i + 1); f d data | None => mret data end;
  d ← rd p (i + 1);
  if bool_decide (d = data) then restore_allocation_point ap;; mret root
  else
    new_p ← allocate (2 * n + 1) CELL_leaf;
    w ← rd p 0;
    wr new_p 0 w;;
    copy_pairs (Z.to_nat n) p new_p;;
    wr new_p (i + 1) data;;
    set_slot pp new_p new_root.

(** There is room for the key. *)
Definition leaf_add (key data p n : Z) (pp : slot_ptr) (new_root : Z) : M Z :=
  new_p ← allocate (2 * n + 1 + 2) CELL_leaf;
  or_header new_p (n + 1);;
  copy_pairs (Z.to_nat n) p new_p;;
  wr new_p (2 * n + 1) key;;
  wr new_p (2 * n + 2) data;;
  set_slot pp new_p new_root.

(** [new_overflow]: all keys have the same digit. *)
Definition overflows (key p n bits_compared : Z) : M bool :=
  k ← rd p 1;
  if bool_decide (dh_digit key bits_compared ≠ dh_digit k bits_compared) then mret false
  else
    for_ (Z.to_nat n - 1) (λ j b,
      k ← rd p (1 + 2 * Z.of_nat j);
      k' ← rd p (3 + 2 * Z.of_nat j);
      mret (if bool_decide (dh_digit k bits_compared ≠ dh_digit k' bits_compared) then false else b)) true.

(** [items\[i\]++] *)
Definition count (items : list Z) (i : Z) : M (list Z) :=
  x ← of_option (zlookup items i); mret (zinsert i (x + 1) items).

(** The pairs of [p] whose keys have the digit [i], from index [ix] of the new leaf on. *)
Definition distribute (p new_leaf n bits_compared i ix : Z) : M Z :=
  for_ (Z.to_nat n) (λ j ix,
    k ← rd p (1 + 2 * Z.of_nat j);
    if bool_decide (dh_digit k bits_compared = i) then
      wr new_leaf ix k;;
      d ← rd p (2 + 2 * Z.of_nat j);
      wr new_leaf (ix + 1) d;;
      mret (ix + 2)
    else mret ix) ix.

Definition split_son (key data p n bits_compared new_pp : Z) (items : list Z) (j : nat) : M unit :=
  let i := Z.of_nat j in
  c ← of_option (zlookup items i);
  if bool_decide (c = 0) then wr new_pp (i + 1) NULL_WORD
  else
    new_leaf ← allocate (2 * c + 1) CELL_leaf;
    or_header new_leaf c;;
    ix ← (if bool_decide (dh_digit key bits_compared = i)
          then wr new_leaf 1 key;; wr new_leaf 2 data;; mret 3 else mret 1);
    distribute p new_leaf n bits_compared i ix;;
    wr new_pp (i + 1) new_leaf.

Definition leaf_split (key : Z) (f : update_fun) (data p n bits_compared new_pp : Z) : M unit :=
  data ← call_f f NULL_PTR data;
  items ← count (replicate 4 0) (dh_digit key bits_compared);
  items ← for_ (Z.to_nat n) (λ j items, k ← rd p (1 + 2 * Z.of_nat j); count items (dh_digit k bits_compared)) items;
  for_ 4 (λ j _, split_son key data p n bits_compared new_pp items j) tt.

(** The leaf is full. *)
Definition leaf_overflow (key : Z) (f : update_fun) (data p n : Z) (pp : slot_ptr) (bits_compared new_root : Z) :
    M (Z * slot_ptr * Z * Z + Z) :=
  massert (bool_decide (2 * n + 1 = 2 * MAX_KEYS_IN_LEAF + 1));;
  new_pp ← allocate (INTERNAL_NODE_SIZE + 1) CELL_internal;
  new_root ← set_slot pp new_pp new_root;
  b ← overflows key p n bits_compared;
  if b : bool then
    for_ 4 (λ i _, wr new_pp (1 + Z.of_nat i) NULL_WORD) tt;;
    let i := dh_digit key bits_compared + 1 in
    wr new_pp i p;;
    mret (inl (p, CellSlot new_pp i, bits_compared + dh_offset, new_root))
  else
    leaf_split key f data p n bits_compared new_pp;;
    mret (inr new_root).

Definition dh_insert_step (ap root key : Z) (f : update_fun) (data : Z) : Z * slot_ptr * Z * Z → M (Z * slot_ptr * Z * Z + Z) :=
  λ '(p, pp, bits_compared, new_root),
  if bool_decide (p = NULL_PTR) then
    data ← call_f f NULL_PTR data;
    p ← allocate 3 CELL_leaf;
    or_header p 1;;
    wr p 1 key;;
    wr p 2 data;;
    new_root ← set_slot pp p new_root;
    mret (inr new_root)
  else
    t ← CELL_TYPE p;
    if bool_decide (t = Some CELL_internal) then
      new_p ← allocate (INTERNAL_NODE_SIZE + 1) CELL_internal;
      for_ 4 (λ i _, w ← rd p (1 + Z.of_nat i); wr new_p (1 + Z.of_nat i) w) tt;;
      new_root ← set_slot pp new_p new_root;
      let i := dh_digit key bits_compared + 1 in
      p ← rd new_p i;
      mret (inl (p, CellSlot new_p i, bits_compared + dh_offset, new_root))
    else if bool_decide (t = Some CELL_leaf) then
      n ← number_of_keys p;
      r ← leaf_search (Z.to_nat n) p 1 key;
      match r with
      | Some i => r ← leaf_update ap root f data p n i pp new_root; mret (inr r)
      | None =>
        if bool_decide (n < MAX_KEYS_IN_LEAF) then r ← leaf_add key data p n pp new_root; mret (inr r)
        else leaf_overflow key f data p n pp bits_compared new_root
      end
    else mret (inl (p, pp, bits_compared, new_root)).

Definition dh_insert (fuel : nat) (root key : Z) (f : update_fun) (data : Z) : M Z :=
  ap ← get_allocation_point;
  loop fuel (dh_insert_step ap root key f data) (root, RootSlot, 0, NULL_WORD).

Definition dh_delete (root key : Z) : M Z := mret NULL_PTR.

(** * The self-test *)

Fixpoint dh_make_assertions (fuel : nat) (p bits_compared prefix : Z) : M unit :=
  match fuel with
  | O => fail OutOfFuel
  | S fuel =>
    massert (bool_decide (bits_compared ≤ 32));;
    if bool_decide (p = NULL_PTR) then mret tt
    else
      t ← CELL_TYPE p;
      if bool_decide (t = Some CELL_internal) then
        let prefix := shl32 prefix dh_offset in
        let bits_compared := bits_compared + dh_offset in
        for_ 4 (λ i _,
          q ← rd p (1 + Z.of_nat i);
          (if bool_decide (q = NULL_PTR) then mret tt
           else t ← CELL_TYPE q; massert (bool_decide (t = Some CELL_internal) || bool_decide (t = Some CELL_leaf)));;
          dh_make_assertions fuel q bits_compared (Z.lor prefix (Z.of_nat i))) tt
      else
        massert (bool_decide (t = Some CELL_leaf));;
        n ← number_of_keys p;
        for_ (Z.to_nat n) (λ j _,
          if bool_decide (0 < bits_compared) then
            k ← rd p (1 + 2 * Z.of_nat j);
            massert (bool_decide (shr32 k (32 - bits_compared) = prefix))
          else mret tt) tt
  end.

(** * Digits of keys *)

Definition key_digits (key : Z) : list Z := digits 16 key.
(** The digit behind the first [d] ones. *)
Definition dg (d : nat) (key : Z) : nat := Z.to_nat (nth d (key_digits key) 0).

Lemma length_key_digits key : length (key_digits key) = 16%nat.
Proof. apply length_digits. Qed.

Lemma key_digit key d : (d < 16)%nat → key_digits key !! d = Some (Z.of_nat (dg d key)) ∧ (dg d key < 4)%nat.
Proof.
  intros Hd.
  assert (Hl : (d < length (key_digits key))%nat) by by rewrite length_key_digits.
  destruct (lookup_lt_is_Some_2 _ _ Hl) as [x Hx]. pose proof (digits_digit 16 key) as Hf. rewrite Forall_lookup in Hf.
  specialize (Hf d x Hx). unfold digit in Hf. unfold dg. rewrite (nth_lookup_Some _ _ 0 x Hx). rewrite Hx. split; [f_equal; lia|lia].
Qed.

Lemma key_just key : is_word key → just (key_digits key) = key.
Proof.
  intros Hk. unfold just. rewrite length_key_digits. unfold key_digits. rewrite num_digits. unfold is_word in Hk. rewrite word_modulus_val in Hk.
  change (4 ^ Z.of_nat 16) with 4294967296. rewrite Z.mod_small by done. change (32 - 2 * Z.of_nat 16) with 0. lia.
Qed.

Lemma key_inj k k' : is_word k → is_word k' → key_digits k = key_digits k' → k = k'.
Proof. intros Hk Hk' E. by rewrite <- (key_just k), <- (key_just k'), E by done. Qed.

Lemma dh_digit_dg key d : is_word key → (d < 16)%nat → dh_digit key (2 * Z.of_nat d) = Z.of_nat (dg d key).
Proof.
  intros Hk Hd. destruct (key_digit key d Hd) as [Hx H4]. set (ds := key_digits key) in *.
  assert (E : ds = take d ds ++ Z.of_nat (dg d key) :: drop (S d) ds) by by rewrite take_drop_middle.
  pose proof (digits_digit 16 key) as Hf. change (digits 16 key) with ds in Hf. rewrite E in Hf.
  apply Forall_app in Hf as [Hf1 Hf2]. apply Forall_cons in Hf2 as [Hfd Hf2].
  assert (Hl : length (take d ds) = d) by (rewrite length_take; unfold ds; rewrite length_key_digits; lia).
  assert (Hl2 : (length (take d ds ++ Z.of_nat (dg d key) :: drop (S d) ds) ≤ 16)%nat) by (rewrite <- E; unfold ds; by rewrite length_key_digits).
  unfold dh_digit. change dh_offset with 2. change (32 - 2) with 30. rewrite <- (key_just key Hk) at 1. fold ds. rewrite E.
  pose proof (just_drop (take d ds) (Z.of_nat (dg d key) :: drop (S d) ds)) as Ej. rewrite Hl in Ej. rewrite Ej; [|by constructor|done].
  apply just_digit; [exact Hf2|]. rewrite length_app in Hl2. cbn [length] in *. lia.
Qed.

(** * Trees *)

Inductive dh :=
| Empty
| Leaf (l : list (Z * Z))
| Node (s0 s1 s2 s3 : dh).

Definition sons (t : dh) (j : nat) : dh := match t with Node s0 s1 s2 s3 => pick j s0 s1 s2 s3 | _ => Empty end.
Definition node_of (g : nat → dh) : dh := Node (g 0%nat) (g 1%nat) (g 2%nat) (g 3%nat).

(** The data of a key among pairs. *)
Fixpoint assoc (l : list (Z * Z)) (key : Z) : option Z :=
  match l with
  | [] => None
  | (k, d) :: l => if decide (k = key) then Some d else assoc l key
  end.

(** What is behind a key whose first [d] digits led to the tree. *)
Fixpoint find (t : dh) (d : nat) (key : Z) : option Z :=
  match t with
  | Empty => None
  | Leaf l => assoc l key
  | Node s0 s1 s2 s3 => pick (dg d key) (find s0 (S d) key) (find s1 (S d) key) (find s2 (S d) key) (find s3 (S d) key)
  end.

(** Well-formed trees of keys whose first digits are [pre]. *)
Fixpoint dh_ok (pre : list Z) (t : dh) : Prop :=
  match t with
  | Empty => True
  | Leaf l => NoDup l.*1 ∧ (1 ≤ length l ≤ 32)%nat ∧ ∀ k, k ∈ l.*1 → is_word k ∧ take (length pre) (key_digits k) = pre
  | Node s0 s1 s2 s3 => (length pre < 16)%nat ∧
    dh_ok (pre ++ [0]) s0 ∧ dh_ok (pre ++ [1]) s1 ∧ dh_ok (pre ++ [2]) s2 ∧ dh_ok (pre ++ [3]) s3
  end.

(** * Trees in memory *)

Fixpoint flat (l : list (Z * Z)) : list Z :=
  match l with [] => [] | (k, d) :: l => k :: d :: flat l end.
Definition leaf_words (l : list (Z * Z)) : list Z := header CELL_leaf (Z.of_nat (length l)) :: flat l.
Definition node_words (ws : list Z) : list Z := header CELL_internal 0 :: ws.

Fixpoint is_dh (C : cenv) (p : Z) (t : dh) : Prop :=
  match t with
  | Empty => p = NULL_WORD
  | Leaf l => C p (leaf_words l)
  | Node s0 s1 s2 s3 => ∃ w0 w1 w2 w3, C p (node_words [w0; w1; w2; w3]) ∧
    is_dh C w0 s0 ∧ is_dh C w1 s1 ∧ is_dh C w2 s2 ∧ is_dh C w3 s3
  end.

(** The tree at [root] has the data of the map [m]. *)
Definition dh_repr (C : cenv) (root : Z) (m : gmap Z Z) : Prop :=
  ∃ T, is_dh C root T ∧ dh_ok [] T ∧ (∀ key, is_word key → find T 0 key = m !! key) ∧ ∀ key, is_Some (m !! key) → is_word key.

(** * Leaves *)

Lemma length_flat l : length (flat l) = (2 * length l)%nat.
Proof. induction l as [|[k d] l IH]; [done|]. simpl. rewrite IH. lia. Qed.

Lemma flat_app l1 l2 : flat (l1 ++ l2) = flat l1 ++ flat l2.
Proof. induction l1 as [|[k d] l1 IH]; [done|]. simpl. by rewrite IH. Qed.

Lemma flat_lookup l j k d : l !! j = Some (k, d) → flat l !! (2 * j)%nat = Some k ∧ flat l !! S (2 * j) = Some d.
Proof.
  revert j. induction l as [|[k' d'] l IH]; intros [|j]; [done..| |].
  - by intros [= -> ->].
  - intros Hj. replace (2 * S j)%nat with (S (S (2 * j))) by lia. by apply IH.
Qed.

(** The words of the pair [j]. *)
Lemma leaf_word l j k d : l !! j = Some (k, d) →
  leaf_words l !! Z.to_nat (1 + 2 * Z.of_nat j) = Some k ∧ leaf_words l !! Z.to_nat (2 + 2 * Z.of_nat j) = Some d.
Proof.
  intros Hj. destruct (flat_lookup l j k d Hj) as [H1 H2].
  replace (Z.to_nat (1 + 2 * Z.of_nat j)) with (S (2 * j)) by lia. replace (Z.to_nat (2 + 2 * Z.of_nat j)) with (S (S (2 * j))) by lia. done.
Qed.

(** The position of a key. *)
Fixpoint position (l : list (Z * Z)) (key : Z) : option nat :=
  match l with
  | [] => None
  | (k, d) :: l => if decide (k = key) then Some 0%nat else S <$> position l key
  end.

Lemma position_Some l key j : position l key = Some j → ∃ d, l !! j = Some (key, d) ∧ assoc l key = Some d.
Proof.
  revert j. induction l as [|[k d] l IH]; intros j; [done|]. simpl. case_decide as E.
  - intros [= <-]. exists d. by subst.
  - destruct (position l key) as [i|]; [|done]. intros [= <-]. by apply IH.
Qed.

Lemma position_None l key : position l key = None ↔ key ∉ l.*1.
Proof.
  induction l as [|[k d] l IH]; csimpl; [split; [intros _; apply not_elem_of_nil|done]|]. case_decide as E.
  - split; [done|]. intros H. exfalso. apply H. subst. by left.
  - rewrite fmap_None, IH, not_elem_of_cons. split; [intros H; split; [congruence|done]|by intros [_ ?]].
Qed.

Lemma assoc_None l key : assoc l key = None ↔ key ∉ l.*1.
Proof.
  induction l as [|[k d] l IH]; csimpl; [split; [intros _; apply not_elem_of_nil|done]|]. case_decide as E.
  - split; [done|]. intros H. exfalso. apply H. subst. by left.
  - rewrite not_elem_of_cons, IH. split; [intros H; split; [congruence|done]|by intros [_ ?]].
Qed.

Lemma assoc_Some l key d : NoDup l.*1 → assoc l key = Some d ↔ (key, d) ∈ l.
Proof.
  induction l as [|[k d'] l IH]; csimpl; [split; [done|by intros ?%not_elem_of_nil]|]. intros [Hk Hnd]%NoDup_cons. rewrite elem_of_cons. case_decide as E.
  - subst k. split; [intros [= ->]; by left|]. intros [[= ->]|Hin]; [done|]. exfalso. apply Hk. by apply (list_elem_of_fmap_2 fst) in Hin.
  - rewrite (IH Hnd). split; [by right|]. intros [[= -> _]|]; done.
Qed.

Lemma assoc_ext l l' : NoDup l.*1 → NoDup l'.*1 → (∀ c, c ∈ l ↔ c ∈ l') → ∀ key, assoc l key = assoc l' key.
Proof.
  intros H1 H2 Hl key. apply option_eq. intros d. by rewrite !assoc_Some.
Qed.

Lemma wp_leaf_search s p l key i0 (Q : option Z → state → Prop) : ∀ n j, blk s p (leaf_words l) → (j + n = length l)%nat →
  i0 = 1 + 2 * Z.of_nat j → Q ((λ i, 1 + 2 * (Z.of_nat j + Z.of_nat i)) <$> position (drop j l) key) s → wp (leaf_search n p i0 key) Q s.
Proof.
  intros n. revert i0. induction n as [|n IH]; intros i0 j Hb Hn -> HQ; simpl.
  - rewrite drop_ge in HQ by lia. by apply wp_ret.
  - destruct (lookup_lt_is_Some_2 l j) as [[k d] Hj]; [lia|]. apply wp_bind. eapply wp_rd; [exact Hb|lia|apply (leaf_word l j k d Hj)|].
    rewrite (drop_S _ _ _ Hj) in HQ. simpl in HQ. case_bool_decide as E.
    + rewrite decide_True in HQ by done. apply wp_ret. simpl in HQ. by rewrite Z.add_0_r in HQ.
    + rewrite decide_False in HQ by done. apply (IH _ (S j)); [done|lia|lia|]. destruct (position (drop (S j) l) key) as [i|]; simpl in *; [|done].
      by replace (Z.of_nat (S j) + Z.of_nat i) with (Z.of_nat j + Z.of_nat (S i)) by lia.
Qed.

Lemma leaf_search_rule s p l key (Q : option Z → state → Prop) : blk s p (leaf_words l) →
  Q ((λ i : nat, 1 + 2 * Z.of_nat i) <$> position l key) s → wp (leaf_search (length l) p 1 key) Q s.
Proof. intros Hb HQ. eapply (wp_leaf_search _ _ l _ _ _ _ 0); [exact Hb|done|done|]. exact HQ. Qed.

Lemma wp_number_of_keys s p l (Q : Z → state → Prop) : blk s p (leaf_words l) → (length l ≤ 32)%nat → Q (Z.of_nat (length l)) s →
  wp (number_of_keys p) Q s.
Proof.
  intros Hb Hl HQ. apply wp_bind. eapply wp_rd; [exact Hb|done|done|]. apply wp_ret. change 0xFFFFFF with LOW_MASK. rewrite header_low; [done|lia].
Qed.

(** * Nodes *)

Record node_at (C : cenv) (p : Z) (pre ws : list Z) (t : dh) : Prop := {
  na_cell : C p (node_words ws);
  na_length : length ws = 4%nat;
  na_depth : (length pre < 16)%nat;
  na_sons j : (j < 4)%nat → ∃ w, ws !! j = Some w ∧ is_dh C w (sons t j) ∧ dh_ok (pre ++ [Z.of_nat j]) (sons t j);
  na_find d key : find t d key = find (sons t (dg d key)) (S d) key
}.

Lemma is_dh_node C p pre s0 s1 s2 s3 : is_dh C p (Node s0 s1 s2 s3) → dh_ok pre (Node s0 s1 s2 s3) →
  ∃ ws, node_at C p pre ws (Node s0 s1 s2 s3).
Proof.
  intros (w0 & w1 & w2 & w3 & Hp & H0 & H1 & H2 & H3) (Hd & O0 & O1 & O2 & O3). exists [w0; w1; w2; w3]. split; [done|done|done| |].
  - apply four_cases; eauto.
  - intros d key. simpl. by destruct (dg d key) as [|[|[|]]].
Qed.

Lemma is_dh_mono C C' p t : csub C C' → is_dh C p t → is_dh C' p t.
Proof.
  intros HC. revert p. induction t as [|l|s0 IH0 s1 IH1 s2 IH2 s3 IH3]; intros p; [done|apply HC|].
  intros (w0 & w1 & w2 & w3 & Hp & H0 & H1 & H2 & H3). exists w0, w1, w2, w3. split; [by apply HC|]. auto.
Qed.

Lemma is_dh_null C s p t : holds s C → is_dh C p t → p = NULL_WORD ↔ t = Empty.
Proof.
  intros HC Ht. destruct t as [|l|s0 s1 s2 s3]; simpl in *; [done| |].
  - apply HC, blk_pos in Ht. change NULL_WORD with 0. split; [lia|done].
  - destruct Ht as (w0 & w1 & w2 & w3 & Hp & _). apply HC, blk_pos in Hp. change NULL_WORD with 0. split; [lia|done].
Qed.

Lemma take_key d key : (d < 16)%nat → take (S d) (key_digits key) = take d (key_digits key) ++ [Z.of_nat (dg d key)].
Proof. intros Hd. apply take_S_r. by apply key_digit. Qed.

(** * Searching *)

Lemma wp_dh_find fuel s C p t d key (Q : Z → state → Prop) : holds s C → is_word key → is_dh C p t → dh_ok (take d (key_digits key)) t →
  (d ≤ 16)%nat → (16 < fuel + d)%nat → Q (default NULL_PTR (find t d key)) s →
  wp (loop fuel (dh_find_step key) (p, 2 * Z.of_nat d)) Q s.
Proof.
  intros HC Hk. revert p t d. induction fuel as [|fuel IH]; intros p t d Ht Hok Hd Hf HQ; [lia|]. apply wp_loop_S. unfold dh_find_step.
  destruct t as [|l|s0 s1 s2 s3].
  - rewrite bool_decide_eq_true_2 by done. by apply wp_ret.
  - assert (Hp : p ≠ NULL_PTR) by (intros E; by apply (is_dh_null C s p (Leaf l) HC Ht) in E). rewrite bool_decide_eq_false_2 by done.
    simpl in Ht, Hok. destruct Hok as (_ & Hl & _). pose proof (HC _ _ Ht) as Hb. apply wp_bind. eapply wp_CELL_TYPE; [exact Hb|done|].
    rewrite header_type by lia. rewrite bool_decide_eq_true_2 by done. apply wp_bind. eapply wp_number_of_keys; [exact Hb|lia|]. rewrite Nat2Z.id.
    apply wp_bind, (leaf_search_rule _ _ l); [exact Hb|]. simpl in HQ. destruct (position l key) as [i|] eqn:Ep; simpl.
    + destruct (position_Some _ _ _ Ep) as (d' & Hi & Ea). rewrite Ea in HQ. apply wp_bind.
      replace (1 + 2 * Z.of_nat i + 1) with (2 + 2 * Z.of_nat i) by lia. eapply wp_rd; [exact Hb|lia|apply (leaf_word l i key d' Hi)|]. by apply wp_ret.
    + apply position_None, assoc_None in Ep. rewrite Ep in HQ. by apply wp_ret.
  - assert (Hp : p ≠ NULL_PTR) by (intros E; by apply (is_dh_null C s p (Node s0 s1 s2 s3) HC Ht) in E). rewrite bool_decide_eq_false_2 by done.
    destruct (is_dh_node _ _ _ _ _ _ _ Ht Hok) as (ws & [Hc Hlw Hd16 Hs Hfind]). rewrite length_take, length_key_digits in Hd16. pose proof (HC _ _ Hc) as Hb.
    assert (Hd' : (d < 16)%nat) by lia. destruct (key_digit key d Hd') as [Hx H4]. destruct (Hs (dg d key) H4) as (w & Hw & Htw & Hokw).
    apply wp_bind. eapply wp_CELL_TYPE; [exact Hb|done|]. rewrite header_type by lia. rewrite bool_decide_eq_false_2 by done.
    apply wp_bind, wp_assert; [done|]. rewrite dh_digit_dg by done. apply wp_bind. eapply wp_rd; [exact Hb|lia| |].
    { replace (Z.to_nat (Z.of_nat (dg d key) + 1)) with (S (dg d key)) by lia. exact Hw. }
    apply wp_ret. change dh_offset with 2. replace (2 * Z.of_nat d + 2) with (2 * Z.of_nat (S d)) by lia.
    eapply IH; [exact Htw| |lia|lia|by rewrite Hfind in HQ]. by rewrite take_key.
Qed.


(** * Writing leaves *)

(** A leaf with the header [h] in which the pairs [l] have been written and [n] have not. *)
Definition partial_leaf (h : Z) (l : list (Z * Z)) (n : nat) : list Z := h :: flat l ++ replicate (2 * n) FIRST_GENERATION_DEADBEEF.
(** The next key has been written, too. *)
Definition half_leaf (h : Z) (l : list (Z * Z)) (k : Z) (n : nat) : list Z :=
  h :: flat l ++ k :: FIRST_GENERATION_DEADBEEF :: replicate (2 * n) FIRST_GENERATION_DEADBEEF.

Lemma partial_leaf_full l : partial_leaf (header CELL_leaf (Z.of_nat (length l))) l 0 = leaf_words l.
Proof. unfold partial_leaf. by rewrite app_nil_r. Qed.

Lemma partial_key h l n k : <[Z.to_nat (1 + 2 * Z.of_nat (length l)) := k]> (partial_leaf h l (S n)) = half_leaf h l k n.
Proof.
  replace (Z.to_nat (1 + 2 * Z.of_nat (length l))) with (S (length (flat l) + 0)) by (rewrite length_flat; lia).
  unfold partial_leaf, half_leaf. replace (2 * S n)%nat with (S (S (2 * n))) by lia. simpl. f_equal. etrans; [apply insert_app_r|reflexivity].
Qed.

Lemma partial_data h l n k d : <[Z.to_nat (2 + 2 * Z.of_nat (length l)) := d]> (half_leaf h l k n) = partial_leaf h (l ++ [(k, d)]) n.
Proof.
  replace (Z.to_nat (2 + 2 * Z.of_nat (length l))) with (S (length (flat l) + 1)) by (rewrite length_flat; lia).
  unfold partial_leaf, half_leaf. rewrite flat_app, <- app_assoc. simpl. f_equal. etrans; [apply insert_app_r|reflexivity].
Qed.

Section writing.
Context (s0 : state) (u : Z) (q : Z) (cs : list cell).
Implicit Types (l : list (Z * Z)) (Q : unit → state → Prop).

Lemma wp_put_key h l n k i Q s : grow s0 s u ((q, partial_leaf h l (S n)) :: cs) → i = 1 + 2 * Z.of_nat (length l) →
  (∀ s', grow s0 s' u ((q, half_leaf h l k n) :: cs) → Q tt s') → wp (wr q i k) Q s.
Proof.
  intros HG -> HQ. eapply (wp_wr _ _ _ _ 0%nat); [exact HG|done| |].
  - unfold partial_leaf. cbn [length]. rewrite length_app, length_flat, length_replicate. lia.
  - intros s' HG'. apply HQ. by rewrite partial_key in HG'.
Qed.

Lemma wp_put_data h l n k d i Q s : grow s0 s u ((q, half_leaf h l k n) :: cs) → i = 2 + 2 * Z.of_nat (length l) →
  (∀ s', grow s0 s' u ((q, partial_leaf h (l ++ [(k, d)]) n) :: cs) → Q tt s') → wp (wr q i d) Q s.
Proof.
  intros HG -> HQ. eapply (wp_wr _ _ _ _ 0%nat); [exact HG|done| |].
  - unfold half_leaf. cbn [length]. rewrite length_app, length_flat. cbn [length]. lia.
  - intros s' HG'. apply HQ. by rewrite partial_data in HG'.
Qed.

Lemma wp_or_leaf l n c Q s : grow s0 s u ((q, partial_leaf (header CELL_leaf 0) l n) :: cs) → 0 ≤ c ≤ 33 →
  (∀ s', grow s0 s' u ((q, partial_leaf (header CELL_leaf c) l n) :: cs) → Q tt s') → wp (or_header q c) Q s.
Proof.
  intros HG Hc HQ. apply wp_bind. eapply wp_rd; [by eapply (grow_blk_new _ _ _ _ 0)|done|done|].
  eapply (wp_wr _ _ _ _ 0%nat); [exact HG|done|simpl; lia|]. intros s' HG'. rewrite header_lor in HG' by lia. by apply HQ.
Qed.

Lemma wp_allocate_leaf u' c n (Q : Z → state → Prop) s : grow s0 s u' cs → c = 2 * Z.of_nat n + 1 → (1 ≤ n ≤ 33)%nat → room s0 (u' + c) →
  (∀ q' s', 0 < q' → grow s0 s' (u' + c) ((q', partial_leaf (header CELL_leaf 0) [] n) :: cs) → Q q' s') → wp (allocate c CELL_leaf) Q s.
Proof.
  intros HG -> Hn Hr HQ. eapply wp_allocate; [exact HG|done|change NUMBER_OF_WORDS_PER_PAGE with 16384; lia|].
  intros q' s' Hq HG'. apply HQ; [done|]. unfold partial_leaf. by replace (Z.to_nat (2 * Z.of_nat n + 1) - 1)%nat with (2 * n)%nat in HG' by lia.
Qed.

Context (C : cenv) (HC : holds s0 C) (p : Z) (l : list (Z * Z)) (Hp : C p (leaf_words l)).

Lemma wp_rd_key j k d s cs' u' (Q : Z → state → Prop) : grow s0 s u' cs' → l !! j = Some (k, d) → Q k s → wp (rd p (1 + 2 * Z.of_nat j)) Q s.
Proof. intros HG Hj HQ. eapply wp_rd; [by eapply grow_blk_old|lia|apply (leaf_word l j k d Hj)|done]. Qed.

Lemma wp_rd_data j k d i s cs' u' (Q : Z → state → Prop) : grow s0 s u' cs' → l !! j = Some (k, d) → i = 2 + 2 * Z.of_nat j →
  Q d s → wp (rd p i) Q s.
Proof. intros HG Hj -> HQ. eapply wp_rd; [by eapply grow_blk_old|lia|apply (leaf_word l j k d Hj)|done]. Qed.

Lemma wp_copy_pairs h n Q s : grow s0 s u ((q, partial_leaf h [] (length l + n)) :: cs) →
  (∀ s', grow s0 s' u ((q, partial_leaf h l n) :: cs) → Q tt s') → wp (copy_pairs (length l) p q) Q s.
Proof.
  intros HG HQ. apply wp_for with (I := λ j _ s, grow s0 s u ((q, partial_leaf h (take j l) (length l - j + n)) :: cs)).
  - by rewrite Nat.sub_0_r.
  - intros j [] s1 Hj HG1. destruct (lookup_lt_is_Some_2 l j Hj) as [[k d] Hk].
    replace (length l - j + n)%nat with (S (length l - S j + n)) in HG1 by lia.
    assert (Hlt : length (take j l) = j) by (rewrite length_take; lia).
    apply wp_bind. eapply wp_rd_key; [exact HG1|exact Hk|]. apply wp_bind. eapply wp_put_key; [exact HG1|by rewrite Hlt|].
    intros s2 HG2. apply wp_bind. eapply wp_rd_data; [exact HG2|exact Hk|done|]. eapply wp_put_data; [exact HG2|by rewrite Hlt|].
    intros s3 HG3. by rewrite (take_S_r _ _ _ Hk).
  - intros [] s1. rewrite take_ge, Nat.sub_diag by done. apply HQ.
Qed.
End writing.

(** * Buckets *)

(** The pairs whose keys have the digit [j] at [d]. *)
Definition bucket (d j : nat) (l : list (Z * Z)) : list (Z * Z) := filter (λ c, dg d c.1 = j) l.
Definition counts (d : nat) (l : list (Z * Z)) : list Z := (λ j, Z.of_nat (length (bucket d j l))) <$> seq 0 4.
(** The number of pairs in the buckets before [j]. *)
Definition spread (d j : nat) (l : list (Z * Z)) : nat := length (filter (λ c, (dg d c.1 < j)%nat) l).

Lemma bucket_snoc d j l c : bucket d j (l ++ [c]) = bucket d j l ++ (if decide (dg d c.1 = j) then [c] else []).
Proof. unfold bucket. by rewrite filter_app. Qed.

Lemma bucket_cons d j l c : bucket d j (c :: l) = (if decide (dg d c.1 = j) then [c] else []) ++ bucket d j l.
Proof. unfold bucket. rewrite filter_cons. by case_decide. Qed.

Lemma spread_S d j l : spread d (S j) l = (spread d j l + length (bucket d j l))%nat.
Proof.
  unfold spread, bucket. induction l as [|c l IH]; [done|]. rewrite !filter_cons.
  destruct (decide (dg d c.1 < S j)%nat), (decide (dg d c.1 < j)%nat), (decide (dg d c.1 = j)); cbn [length]; lia.
Qed.

Lemma spread_le d j l : (spread d j l ≤ length l)%nat.
Proof. apply length_filter. Qed.

Lemma counts_lookup d l j : (j < 4)%nat → zlookup (counts d l) (Z.of_nat j) = Some (Z.of_nat (length (bucket d j l))).
Proof. revert j. by apply four_cases. Qed.

Lemma counts_snoc d l c : (dg d c.1 < 4)%nat →
  zinsert (Z.of_nat (dg d c.1)) (Z.of_nat (length (bucket d (dg d c.1) l)) + 1) (counts d l) = counts d (l ++ [c]).
Proof.
  intros H4. unfold counts. cbn [seq fmap list_fmap]. rewrite !bucket_snoc, !length_app. revert H4. generalize (dg d c.1). apply four_cases;
    unfold zinsert; rewrite Nat2Z.id; cbn [insert list_insert];
    repeat (first [rewrite decide_True by done|rewrite decide_False by done]; cbn [length]); repeat f_equal; lia.
Qed.

Lemma elem_of_bucket d j l c : c ∈ bucket d j l ↔ dg d c.1 = j ∧ c ∈ l.
Proof. unfold bucket. by rewrite list_elem_of_filter. Qed.

Lemma bucket_short d j l c : c ∈ l → dg d c.1 ≠ j → (length (bucket d j l) < length l)%nat.
Proof.
  intros Hc Hj. destruct (list_elem_of_split _ _ Hc) as (l1 & l2 & ->). unfold bucket. rewrite filter_app, filter_cons, decide_False by done.
  rewrite !length_app. cbn [length]. pose proof (length_filter (λ c, dg d c.1 = j) l1). pose proof (length_filter (λ c, dg d c.1 = j) l2). lia.
Qed.

Lemma bucket_keys d j l : (bucket d j l).*1 `sublist_of` l.*1.
Proof. apply fmap_sublist, sublist_filter. Qed.

Lemma bucket_assoc d l k : assoc (bucket d (dg d k) l) k = assoc l k.
Proof.
  induction l as [|[k' x] l IH]; [done|]. rewrite bucket_cons. cbn [fst assoc]. case_decide as E; cbn [app assoc]; rewrite IH; [done|].
  rewrite decide_False; [done|]. intros ->. done.
Qed.

Definition keys_ok (l : list (Z * Z)) : Prop := ∀ k, k ∈ l.*1 → is_word k.

Lemma keys_ok_lookup l j k x : keys_ok l → l !! j = Some (k, x) → is_word k.
Proof. intros Hl Hj. apply Hl. apply (list_elem_of_fmap_2 fst l (k, x)). by eapply list_elem_of_lookup_2. Qed.

(** * Splitting a leaf *)

Lemma wp_write_son s0 N j w s u leaves ws cs (Q : unit → state → Prop) :
  grow s0 s u (leaves ++ (N, node_words ws) :: cs) →
  length ws = 4%nat → (j < 4)%nat → (∀ s', grow s0 s' u (leaves ++ (N, node_words (<[j := w]> ws)) :: cs) → Q tt s') →
  wp (wr N (Z.of_nat j + 1) w) Q s.
Proof.
  intros HG H4 Hj HQ. eapply (wp_wr _ _ _ _ (length leaves)); [exact HG|by rewrite lookup_app_r, Nat.sub_diag by reflexivity| |].
  - unfold node_words. cbn [length]. lia.
  - intros s' HG'. rewrite <- (Nat.add_0_r (length leaves)), insert_app_r in HG'. apply HQ.
    replace (Z.to_nat (Z.of_nat j + 1)) with (S j) in HG' by lia. exact HG'.
Qed.

Definition son_of (l : list (Z * Z)) : dh := match l with [] => Empty | _ => Leaf l end.

Section splitting.
Context (s0 : state) (C : cenv) (HC : holds s0 C) (p : Z) (l : list (Z * Z)) (Hp : C p (leaf_words l)).
Context (d : nat) (Hd : (d < 16)%nat) (key : Z) (Hkey : is_word key) (Hl : keys_ok l).
Let bits : Z := 2 * Z.of_nat d.

Lemma leaf_digit j k x : l !! j = Some (k, x) → dh_digit k bits = Z.of_nat (dg d k).
Proof. intros Hj. apply dh_digit_dg; [by eapply keys_ok_lookup|done]. Qed.

Lemma own_digit : dh_digit key bits = Z.of_nat (dg d key).
Proof. by apply dh_digit_dg. Qed.

Lemma wp_overflows s u cs (Q : bool → state → Prop) : grow s0 s u cs → l ≠ [] →
  Q (bool_decide (Forall (λ c, dg d c.1 = dg d key) l)) s → wp (overflows key p (Z.of_nat (length l)) bits) Q s.
Proof.
  intros HG Hne HQ. destruct (lookup_lt_is_Some_2 l 0) as [[k x] H0]; [by destruct l; [|simpl; lia]|].
  apply wp_bind. eapply (wp_rd_key s0 C HC p l Hp 0); [exact HG|exact H0|].
  rewrite (leaf_digit _ _ _ H0), own_digit. destruct (decide (dg d k = dg d key)) as [E|E].
  2: { rewrite (bool_decide_eq_true_2 (Z.of_nat _ ≠ _)) by lia. apply wp_ret. rewrite bool_decide_eq_false_2 in HQ; [done|].
    rewrite Forall_lookup. intros HF. apply E. apply (HF _ _ H0). }
  rewrite (bool_decide_eq_false_2 (Z.of_nat _ ≠ _)) by lia.
  apply wp_for with (I := λ j b s', s' = s ∧ b = bool_decide (Forall (λ c, dg d c.1 = dg d key) (take (S j) l))).
  - split; [done|]. symmetry. apply bool_decide_eq_true_2. rewrite (take_S_r _ _ _ H0). apply Forall_singleton. done.
  - intros j b s' Hj [-> ->]. destruct (lookup_lt_is_Some_2 l j) as [[k1 x1] H1]; [lia|]. destruct (lookup_lt_is_Some_2 l (S j)) as [[k2 x2] H2]; [lia|].
    apply wp_bind. eapply (wp_rd_key s0 C HC p l Hp j); [exact HG|exact H1|].
    apply wp_bind. replace (3 + 2 * Z.of_nat j) with (1 + 2 * Z.of_nat (S j)) by lia.
    eapply (wp_rd_key s0 C HC p l Hp (S j)); [exact HG|exact H2|]. apply wp_ret. split; [done|].
    rewrite (leaf_digit _ _ _ H1), (leaf_digit _ _ _ H2), (take_S_r l (S j) _ H2), (take_S_r l j _ H1).
    destruct (decide (dg d k1 = dg d k2)) as [E'|E'].
    + rewrite (bool_decide_eq_false_2 (Z.of_nat _ ≠ _)) by lia. apply bool_decide_ext. rewrite !Forall_app, !Forall_singleton. cbn [fst]. rewrite E'. tauto.
    + rewrite (bool_decide_eq_true_2 (Z.of_nat _ ≠ _)) by lia. symmetry. apply bool_decide_eq_false_2. rewrite !Forall_app, !Forall_singleton.
      cbn [fst]. intros [[_ ?] ?]. congruence.
  - intros b s' [-> ->]. rewrite take_ge; [done|]. lia.
Qed.

Lemma wp_count s items j c (Q : list Z → state → Prop) : zlookup items j = Some c → Q (zinsert j (c + 1) items) s → wp (count items j) Q s.
Proof. intros Hj HQ. apply wp_bind. eapply wp_of_option; [exact Hj|]. by apply wp_ret. Qed.

Lemma wp_distribute q j cs u l' s (Q : Z → state → Prop) ix : let h := header CELL_leaf (Z.of_nat (length l' + length (bucket d j l))) in
  grow s0 s u ((q, partial_leaf h l' (length (bucket d j l))) :: cs) → ix = 1 + 2 * Z.of_nat (length l') →
  (∀ r s', grow s0 s' u ((q, leaf_words (l' ++ bucket d j l)) :: cs) → Q r s') →
  wp (distribute p q (Z.of_nat (length l)) bits (Z.of_nat j) ix) Q s.
Proof.
  intros h HG -> HQ. unfold distribute. rewrite Nat2Z.id.
  apply wp_for with (I := λ i ix s, ix = 1 + 2 * Z.of_nat (length (l' ++ bucket d j (take i l))) ∧
    grow s0 s u ((q, partial_leaf h (l' ++ bucket d j (take i l)) (length (bucket d j (drop i l)))) :: cs)).
  - rewrite take_0, drop_0. change (bucket d j []) with (@nil (Z * Z)). rewrite app_nil_r. done.
  - intros i _ s1 Hi [-> HG1]. destruct (lookup_lt_is_Some_2 l i Hi) as [[k x] Hk].
    rewrite (drop_S _ _ _ Hk), bucket_cons in HG1. rewrite (take_S_r _ _ _ Hk), bucket_snoc. cbn [fst] in *.
    apply wp_bind. eapply (wp_rd_key s0 C HC p l Hp i); [exact HG1|exact Hk|]. rewrite (leaf_digit _ _ _ Hk).
    destruct (decide (dg d k = j)) as [E|E].
    + rewrite bool_decide_eq_true_2 by (by rewrite E). rewrite app_assoc. apply wp_bind. eapply wp_put_key; [exact HG1|done|].
      intros s2 HG2. apply wp_bind. eapply (wp_rd_data s0 C HC p l Hp i); [exact HG2|exact Hk|done|].
      apply wp_bind. eapply wp_put_data; [exact HG2|lia|]. intros s3 HG3. apply wp_ret. split; [|exact HG3].
      rewrite (length_app _ [(k, x)]). cbn [length]. lia.
    + rewrite bool_decide_eq_false_2 by lia. rewrite app_nil_r. by apply wp_ret.
  - intros ix s1 [_ HG1]. rewrite take_ge, drop_ge in HG1 by done. apply (HQ ix). rewrite <- partial_leaf_full, length_app. exact HG1.
Qed.

Context (x : Z).
Let L : list (Z * Z) := (key, x) :: l.

(** The sons written before the [j]th. *)
Definition written (leaves : list cell) (ws : list Z) (j : nat) : Prop :=
  ∀ i, (i < j)%nat → ∃ w, ws !! i = Some w ∧
    match bucket d i L with [] => w = NULL_WORD | b => (w, leaf_words b) ∈ leaves end.

Lemma written_S leaves leaves' ws j w : written leaves ws j → leaves ⊆ leaves' → (j < length ws)%nat →
  match bucket d j L with [] => w = NULL_WORD | b => (w, leaf_words b) ∈ leaves' end → written leaves' (<[j := w]> ws) (S j).
Proof.
  intros Hw Hs Hj Hb i Hi. destruct (decide (i = j)) as [->|Hne].
  - exists w. split; [by apply list_lookup_insert_eq|done].
  - destruct (Hw i) as (w' & Hw' & H); [lia|]. exists w'. rewrite list_lookup_insert_ne by done. split; [done|].
    destruct (bucket d i L); [done|]. by apply Hs.
Qed.

(** A new leaf with the pair of the key, if it goes there. *)
Lemma wp_first_pair q j b cs u s (Q : Z → state → Prop) : b = bucket d j l →
  let h := header CELL_leaf (Z.of_nat (length (bucket d j L))) in
  grow s0 s u ((q, partial_leaf h [] (length (bucket d j L))) :: cs) →
  (∀ l' s', l' ++ b = bucket d j L → grow s0 s' u ((q, partial_leaf h l' (length b)) :: cs) → Q (1 + 2 * Z.of_nat (length l')) s') →
  wp (if bool_decide (dh_digit key bits = Z.of_nat j) then wr q 1 key;; wr q 2 x;; mret 3 else mret 1) Q s.
Proof.
  intros -> h HG HQ. rewrite own_digit. unfold L in *. rewrite bucket_cons in *. cbn [fst] in *.
  destruct (decide (dg d key = j)) as [E|E].
  - rewrite bool_decide_eq_true_2 by (by rewrite E). apply wp_bind. eapply wp_put_key; [exact HG|done|]. intros s1 HG1.
    apply wp_bind. eapply wp_put_data; [exact HG1|done|]. intros s2 HG2. apply wp_ret. by apply (HQ [(key, x)]).
  - rewrite bool_decide_eq_false_2 by lia. apply wp_ret. by apply (HQ []).
Qed.

(** Before the [j]th son of the node [N]. *)
Definition splitting_at (N u : Z) (cs : list cell) (j : nat) (s : state) : Prop :=
  ∃ leaves ws u', grow s0 s u' (leaves ++ (N, node_words ws) :: cs) ∧ length ws = 4%nat ∧ written leaves ws j ∧
    u ≤ u' ≤ u + Z.of_nat j + 2 * Z.of_nat (spread d j L).

Context (Hlen : (length l ≤ 32)%nat).

Lemma bucket_room j : (spread d j L + length (bucket d j L) ≤ 33)%nat.
Proof. rewrite <- spread_S. pose proof (spread_le d (S j) L) as H. unfold L in *. cbn [length] in *. lia. Qed.

Lemma wp_split_son N u cs j s : splitting_at N u cs j s → (j < 4)%nat → room s0 (u + 70) →
  wp (split_son key x p (Z.of_nat (length l)) bits N (counts d L) j) (λ _, splitting_at N u cs (S j)) s.
Proof.
  intros (leaves & ws & u' & HG & H4 & Hw & Hu) Hj Hr. pose proof (bucket_room j) as Hb. pose proof (spread_S d j L) as HS.
  apply wp_bind. eapply wp_of_option; [by apply counts_lookup|]. destruct (bucket d j L) as [|c b] eqn:Eb.
  - rewrite bool_decide_eq_true_2 by done. eapply wp_write_son; [exact HG|done|done|]. intros s1 HG1.
    exists leaves, (<[j := NULL_WORD]> ws), u'. rewrite length_insert. split_and!; [exact HG1|done| |lia|cbn [length] in *; lia].
    eapply written_S; [exact Hw|done|lia|by rewrite Eb].
  - rewrite bool_decide_eq_false_2 by (cbn [length]; lia). rewrite <- Eb in *. assert (H1 : (1 ≤ length (bucket d j L))%nat) by (rewrite Eb; simpl; lia).
    apply wp_bind. eapply (wp_allocate_leaf s0 _ _ _ (length (bucket d j L))); [exact HG|lia|lia|unfold room in *; lia|]. intros q s1 Hq HG1.
    apply wp_bind. eapply wp_or_leaf; [exact HG1|lia|]. intros s2 HG2.
    apply wp_bind. eapply wp_first_pair; [reflexivity|exact HG2|]. intros l' s3 El HG3.
    apply wp_bind. eapply wp_distribute; [|reflexivity|].
    { rewrite <- length_app, El. exact HG3. }
    intros r s4 HG4. rewrite El in HG4. eapply (wp_write_son _ N j q s4 _ ((q, leaf_words (bucket d j L)) :: leaves)); [exact HG4|done|done|].
    intros s5 HG5. eexists _, (<[j := q]> ws), _. rewrite length_insert. split_and!; [exact HG5|done| |lia|lia].
    eapply written_S; [exact Hw|by apply list_subseteq_cons|lia|]. rewrite Eb. apply list_elem_of_here.
Qed.

Lemma wp_leaf_split f g data N u cs ws s (Q : unit → state → Prop) : pure_update C f g → x = updated g NULL_PTR data → room s0 (u + 70) →
  grow s0 s u ((N, node_words ws) :: cs) → length ws = 4%nat → (∀ s', splitting_at N u cs 4 s' → Q tt s') →
  wp (leaf_split key f data p (Z.of_nat (length l)) bits N) Q s.
Proof.
  intros Hf Hx Hr HG H4 HQ. apply wp_bind. eapply (wp_mono _ (λ r s', r = x ∧ s' = s)).
  { destruct f as [f|]; simpl; [|destruct g; [done|]; by apply wp_ret].
    eapply wp_update; [|exact Hf|done]. eapply holds_ext; [apply HG|done]. }
  intros r s' [-> ->]. apply wp_bind. rewrite own_digit. pose proof (key_digit key d Hd) as [_ Hk4].
  eapply wp_count; [by apply (counts_lookup d [])|].
  change (replicate 4 0) with (counts d []). pose proof (counts_snoc d [] (key, x)) as E0. cbn [fst] in E0. rewrite E0 by done. clear E0. apply wp_bind.
  rewrite Nat2Z.id. apply wp_for with (I := λ i items s', s' = s ∧ items = counts d ((key, x) :: take i l)).
  - by rewrite take_0.
  - intros i items s' Hi [-> ->]. destruct (lookup_lt_is_Some_2 l i Hi) as [[k y] Hk].
    apply wp_bind. eapply (wp_rd_key s0 C HC p l Hp i); [exact HG|exact Hk|]. rewrite (leaf_digit _ _ _ Hk).
    pose proof (key_digit k d Hd) as [_ Hk4']. eapply wp_count; [by apply counts_lookup|]. split; [done|].
    pose proof (counts_snoc d ((key, x) :: take i l) (k, y)) as E0. cbn [fst] in E0. rewrite E0 by done. by rewrite (take_S_r _ _ _ Hk).
  - intros items s' [-> ->]. rewrite take_ge by done. apply wp_for with (I := λ j _ s', splitting_at N u cs j s').
    + exists [], ws, u. split_and!; [exact HG|done|intros i Hi; lia|lia|]. pose proof (spread_le d 0 L). lia.
    + intros j [] s1 Hj Hs. by apply wp_split_son.
    + intros [] s1. apply HQ.
Qed.
End splitting.

(** * Replacing a son *)

Definition graft (g : nat → dh) (b : nat) (t' : dh) (j : nat) : dh := if decide (j = b) then t' else g j.

(** [t'] is [t] with the data [x] behind the key; the first [d] digits led to both. *)
Definition upd (t : dh) (d : nat) (key x : Z) (t' : dh) : Prop :=
  ∀ k, is_word k → take d (key_digits k) = take d (key_digits key) → find t' d k = if decide (k = key) then Some x else find t d k.

Lemma pick_sons {A} (g : nat → A) j : (j < 4)%nat → pick j (g 0%nat) (g 1%nat) (g 2%nat) (g 3%nat) = g j.
Proof. revert j. by apply four_cases. Qed.

Lemma find_node_of g d k : (d < 16)%nat → find (node_of g) d k = find (g (dg d k)) (S d) k.
Proof.
  intros Hd. destruct (key_digit k d Hd) as [_ H4]. unfold node_of. cbn [find].
  by rewrite (pick_sons (λ j, find (g j) (S d) k)).
Qed.

Lemma find_sons t d k s0 s1 s2 s3 : t = Node s0 s1 s2 s3 → find t d k = find (node_of (sons t)) d k.
Proof. by intros ->. Qed.

Lemma upd_ext t1 t2 d key x t' : (∀ k, is_word k → take d (key_digits k) = take d (key_digits key) → find t1 d k = find t2 d k) →
  upd t2 d key x t' → upd t1 d key x t'.
Proof. intros Ht Hu k Hk Hp. rewrite (Hu k Hk Hp). case_decide; [done|]. by rewrite Ht. Qed.

Lemma upd_graft_dh g d key x t' : (d < 16)%nat → upd (g (dg d key)) (S d) key x t' → upd (node_of g) d key x (node_of (graft g (dg d key) t')).
Proof.
  intros Hd Hu k Hk Hp. rewrite !find_node_of by done. unfold graft at 1. destruct (decide (dg d k = dg d key)) as [E|E].
  - rewrite Hu by (done || by rewrite !take_key, Hp, E by done). by rewrite E.
  - rewrite decide_False; [done|]. by intros ->.
Qed.

Lemma is_dh_graft C q ws g b v t' : length ws = 4%nat → (b < 4)%nat → C q (node_words (<[b := v]> ws)) →
  (∀ j, (j < 4)%nat → j ≠ b → ∃ w, ws !! j = Some w ∧ is_dh C w (g j)) → is_dh C v t' → is_dh C q (node_of (graft g b t')).
Proof.
  intros H4 Hb Hq Hg Hv.
  assert (Hj : ∀ j, (j < 4)%nat → ∃ w, <[b := v]> ws !! j = Some w ∧ is_dh C w (graft g b t' j)).
  { intros j Hj. unfold graft. destruct (decide (j = b)) as [->|Hne].
    - exists v. split; [|done]. apply list_lookup_insert_eq. lia.
    - rewrite list_lookup_insert_ne by done. by apply Hg. }
  set (l := <[b := v]> ws) in *. assert (Hl : length l = 4%nat) by (unfold l; by rewrite length_insert). clearbody l.
  destruct l as [|w0 [|w1 [|w2 [|w3 [|]]]]]; try done. exists w0, w1, w2, w3. split; [done|].
  destruct (Hj 0%nat) as (? & [= ->] & ?); [lia|]. destruct (Hj 1%nat) as (? & [= ->] & ?); [lia|].
  destruct (Hj 2%nat) as (? & [= ->] & ?); [lia|]. destruct (Hj 3%nat) as (? & [= ->] & ?); [lia|]. done.
Qed.

Lemma dh_ok_node_of pre g : (length pre < 16)%nat → (∀ j, (j < 4)%nat → dh_ok (pre ++ [Z.of_nat j]) (g j)) → dh_ok pre (node_of g).
Proof. intros Hl Hg. split; [done|]. split_and!; [apply (Hg 0%nat)|apply (Hg 1%nat)|apply (Hg 2%nat)|apply (Hg 3%nat)]; lia. Qed.

Lemma dh_ok_graft pre g b t' : (length pre < 16)%nat → dh_ok (pre ++ [Z.of_nat b]) t' →
  (∀ j, (j < 4)%nat → j ≠ b → dh_ok (pre ++ [Z.of_nat j]) (g j)) → dh_ok pre (node_of (graft g b t')).
Proof. intros Hl Hok Hg. apply dh_ok_node_of; [done|]. intros j Hj. unfold graft. destruct (decide (j = b)) as [->|]; [done|by apply Hg]. Qed.

(** * Changed leaves *)

Lemma assoc_insert (l : list (Z * Z)) j key old x k : NoDup l.*1 → l !! j = Some (key, old) →
  assoc (<[j := (key, x)]> l) k = if decide (k = key) then Some x else assoc l k.
Proof.
  revert j. induction l as [|[k0 x0] l IH]; intros [|j]; csimpl; [done..| |]; intros [Hk0 Hnd]%NoDup_cons Hj.
  - injection Hj as -> ->. destruct (decide (key = k)) as [->|Hne]; [by rewrite decide_True|]. by rewrite decide_False.
  - rewrite (IH j Hnd Hj). destruct (decide (k0 = k)) as [->|Hne]; [|done]. rewrite decide_False; [done|]. intros ->. apply Hk0.
    apply (list_elem_of_fmap_2 fst l (key, old)). by eapply list_elem_of_lookup_2.
Qed.

Lemma insert_keys (l : list (Z * Z)) j key old x : l !! j = Some (key, old) → (<[j := (key, x)]> l).*1 = l.*1.
Proof. intros Hj. rewrite list_fmap_insert. apply list_insert_id. by rewrite list_lookup_fmap, Hj. Qed.

Lemma flat_insert l j key old x : l !! j = Some (key, old) → flat (<[j := (key, x)]> l) = <[S (2 * j) := x]> (flat l).
Proof.
  revert j. induction l as [|[k0 x0] l IH]; intros [|j] Hj; [done..|by injection Hj as -> ->|].
  replace (S (2 * S j)) with (S (S (S (2 * j)))) by lia.
  change (flat (<[S j := (key, x)]> ((k0, x0) :: l))) with (k0 :: x0 :: flat (<[j := (key, x)]> l)). by rewrite (IH j Hj).
Qed.

Lemma leaf_words_insert l j key old x : l !! j = Some (key, old) →
  <[Z.to_nat (2 + 2 * Z.of_nat j) := x]> (leaf_words l) = leaf_words (<[j := (key, x)]> l).
Proof.
  intros Hj. unfold leaf_words. rewrite length_insert. replace (Z.to_nat (2 + 2 * Z.of_nat j)) with (S (S (2 * j))) by lia.
  by rewrite (flat_insert _ _ _ _ x Hj).
Qed.

Lemma assoc_snoc l key x k : key ∉ l.*1 → assoc (l ++ [(key, x)]) k = if decide (k = key) then Some x else assoc l k.
Proof.
  induction l as [|[k0 x0] l IH]; csimpl.
  - intros _. destruct (decide (key = k)) as [->|Hne]; [by rewrite decide_True|]. by rewrite decide_False.
  - rewrite not_elem_of_cons. intros [Hne Hk]. rewrite (IH Hk). destruct (decide (k0 = k)) as [->|]; [|done]. by rewrite decide_False.
Qed.

Lemma find_son_of l d k : find (son_of l) d k = assoc l k.
Proof. by destruct l. Qed.

(** * The path under construction *)

(** The node copied last; its son [b] is the subtree that is being replaced. *)
Inductive hole := Top | Hole (q : Z) (ws : list Z) (b : nat).

Definition hole_cells (h : hole) : list cell := match h with Top => [] | Hole q ws b => [(q, node_words ws)] end.
Definition filled (h : hole) (v : Z) : list cell := match h with Top => [] | Hole q ws b => [(q, node_words (<[b := v]> ws))] end.
Definition hole_pp (h : hole) : slot_ptr := match h with Top => RootSlot | Hole q ws b => CellSlot q (Z.of_nat b + 1) end.
Definition hole_root (h : hole) (new_root v : Z) : Z := match h with Top => v | Hole _ _ _ => new_root end.
Definition hole_ok (h : hole) : Prop := match h with Top => True | Hole _ ws b => length ws = 4%nat ∧ (b < 4)%nat end.

Lemma wp_fill_hole s0 s u new h done v new_root (Q : Z → state → Prop) :
  grow s0 s u (new ++ hole_cells h ++ done) → hole_ok h →
  (∀ s', grow s0 s' u (new ++ filled h v ++ done) → Q (hole_root h new_root v) s') →
  wp (set_slot (hole_pp h) v new_root) Q s.
Proof.
  intros HG Hok HQ. destruct h as [|q ws b]; simpl in *; [by apply wp_ret, HQ|]. destruct Hok as [H4 Hb].
  apply wp_bind. eapply wp_write_son; [exact HG|done|done|]. intros s' HG'. by apply wp_ret, HQ.
Qed.

Section walk.
Context (s0 : state) (C : cenv) (HC : holds s0 C) (T0 : dh) (key : Z) (Hkey : is_word key) (Hroom : room s0 150).
Let kd : list Z := key_digits key.

(** Completing the hole [h] with an update of [t], at depth [d], completes the new tree. *)
Definition plug (h : hole) (new_root : Z) (done : list cell) (t : dh) (d : nat) : Prop :=
  ∀ C' v t' x, csub (adds C (filled h v ++ done)) C' → is_dh C' v t' → dh_ok (take d kd) t' → upd t d key x t' →
    ∃ T', is_dh C' (hole_root h new_root v) T' ∧ dh_ok [] T' ∧ upd T0 0 key x T'.

Record walking (s : state) (p : Z) (t : dh) (d : nat) (h : hole) (new_root : Z) (done : list cell) (u : Z) : Prop := {
  walk_grow : grow s0 s u (hole_cells h ++ done);
  walk_hole : hole_ok h;
  walk_plug : plug h new_root done t d;
  walk_tree : is_dh C p t;
  walk_ok : dh_ok (take d kd) t;
  walk_depth : (d ≤ 16)%nat;
  walk_find : find T0 0 key = find t d key;
  walk_used : 0 ≤ u ≤ 5 * Z.of_nat d
}.

Lemma length_prefix d : (d ≤ 16)%nat → length (take d kd) = d.
Proof. intros Hd. rewrite length_take. unfold kd. rewrite length_key_digits. lia. Qed.

(** A new node at the end of the path; [g] are the other sons. *)
Lemma plug_node t h new_root done q ws d g : plug h new_root done t d → (d < 16)%nat → length ws = 4%nat →
  (∀ k, is_word k → take d (key_digits k) = take d kd → find t d k = find (node_of g) d k) →
  (∀ j, (j < 4)%nat → j ≠ dg d key → ∃ w, ws !! j = Some w ∧ is_dh C w (g j) ∧ dh_ok (take d kd ++ [Z.of_nat j]) (g j)) →
  plug (Hole q ws (dg d key)) (hole_root h new_root q) (filled h q ++ done) (g (dg d key)) (S d).
Proof.
  intros Hplug Hd H4 Ht Hg C' v t' x Hsub Hv Hok Hu. destruct (key_digit key d Hd) as [_ Hb].
  assert (HC' : csub C C') by (etrans; [apply adds_base|exact Hsub]).
  apply (Hplug C' q (node_of (graft g (dg d key) t')) x).
  - etrans; [|exact Hsub]. apply adds_mono; [done|]. intros c Hc. simpl. by apply list_elem_of_further.
  - eapply is_dh_graft; [exact H4|exact Hb| | |exact Hv].
    + apply Hsub. right. simpl. apply list_elem_of_here.
    + intros j Hj Hjb. destruct (Hg j Hj Hjb) as (w & Hw & Htw & _). exists w. split; [done|]. by eapply is_dh_mono.
  - apply dh_ok_graft; [rewrite length_prefix by lia; done| |].
    + unfold kd in Hok. by rewrite take_key in Hok.
    + intros j Hj Hjb. destruct (Hg j Hj Hjb) as (w & _ & _ & Hj'). exact Hj'.
  - eapply upd_ext; [exact Ht|]. by apply upd_graft_dh.
Qed.

Context (g : option (Z → Z → Z)) (f : update_fun) (Hf : pure_update C f g) (data root ap : Z).
Context (Hwf : wf s0) (Hap : ap = first_generation_allocation_ptr s0) (Hroot : is_dh C root T0) (HT0 : dh_ok [] T0).

(** What the insertion stores. *)
Definition stored (x : Z) : Prop :=
  match find T0 0 key with Some old => x = updated g old data | None => x = updated g NULL_PTR data ∨ x = data end.
Definition inserted (r : Z) (s' : state) : Prop :=
  ∃ x u cs T', stored x ∧ 0 ≤ u ≤ 150 ∧ grow s0 s' u cs ∧ is_dh (adds C cs) r T' ∧ dh_ok [] T' ∧ upd T0 0 key x T' ∧
    (find T0 0 key = Some x → r = root ∧ u = 0).

Lemma finish s p t d h new_root done u s' u' new v t' x : walking s p t d h new_root done u → stored x →
  grow s0 s' u' (new ++ filled h v ++ done) → 0 ≤ u' ≤ 150 → is_dh (adds C new) v t' → dh_ok (take d kd) t' → upd t d key x t' →
  find t d key ≠ Some x → inserted (hole_root h new_root v) s'.
Proof.
  intros [_ _ Hplug _ _ _ Hfind _] Hx HG Hu Hv Hok Hupd Hne.
  destruct (Hplug (adds C (new ++ filled h v ++ done)) v t' x) as (T' & H1 & H2 & H3).
  - apply adds_mono; [done|]. apply list_subseteq_app_r. done.
  - eapply is_dh_mono; [|exact Hv]. apply adds_mono; [done|]. apply list_subseteq_app_l. done.
  - done.
  - done.
  - exists x, u', (new ++ filled h v ++ done), T'. split_and!; [done|lia|lia|done..|]. rewrite Hfind. done.
Qed.

Lemma wp_called old s u cs (Q : Z → state → Prop) : grow s0 s u cs → Q (updated g old data) s → wp (call_f f old data) Q s.
Proof.
  intros HG HQ. destruct f as [f'|]; simpl; [|by destruct g; [|apply wp_ret]].
  eapply wp_update; [|exact Hf|exact HQ]. eapply holds_ext; [apply HG|done].
Qed.

Lemma own_prefix d : (d ≤ 16)%nat → take (length (take d kd)) (key_digits key) = take d kd.
Proof. intros Hd. by rewrite length_prefix. Qed.

Lemma finish_leaf s p t d h new_root done u s' u' q l x : walking s p t d h new_root done u → stored x →
  grow s0 s' u' ((q, leaf_words l) :: filled h q ++ done) → 0 ≤ u' ≤ 150 → dh_ok (take d kd) (Leaf l) →
  (∀ k, assoc l k = if decide (k = key) then Some x else find t d k) → find t d key ≠ Some x → inserted (hole_root h new_root q) s'.
Proof.
  intros Hw Hx HG Hu Hok Ha Hne. apply (finish s p t d h new_root done u s' u' [(q, leaf_words l)] q (Leaf l) x); [done|done|exact HG|done| |done| |done].
  - right. apply list_elem_of_here.
  - intros k _ _. apply Ha.
Qed.

(** What an iteration does at depth [d]. *)
Definition step_post (d : nat) (r : Z * slot_ptr * Z * Z + Z) (s' : state) : Prop :=
  match r with
  | inl (p, pp, bits_compared, new_root) =>
    ∃ t h done u, pp = hole_pp h ∧ bits_compared = 2 * Z.of_nat (S d) ∧ walking s' p t (S d) h new_root done u
  | inr r => inserted r s'
  end.

Lemma wp_step_empty s p d h new_root done u (Q : Z * slot_ptr * Z * Z + Z → state → Prop) : walking s p Empty d h new_root done u →
  (∀ r s', inserted r s' → Q (inr r) s') →
  wp (data ← call_f f NULL_PTR data; p ← allocate 3 CELL_leaf; or_header p 1;; wr p 1 key;; wr p 2 data;;
    new_root ← set_slot (hole_pp h) p new_root; mret (inr new_root)) Q s.
Proof.
  intros Hw HQ. pose proof Hw as [HG Hh _ _ _ Hd Hfind Hu]. unfold room in Hroom.
  apply wp_bind. eapply wp_called; [exact HG|]. apply wp_bind. eapply (wp_allocate_leaf s0 _ _ _ 1); [exact HG|done|lia|unfold room; lia|].
  intros q s1 Hq HG1. apply wp_bind. eapply wp_or_leaf; [exact HG1|lia|]. intros s2 HG2.
  apply wp_bind. eapply wp_put_key; [exact HG2|done|]. intros s3 HG3. apply wp_bind. eapply wp_put_data; [exact HG3|done|]. intros s4 HG4.
  apply wp_bind. eapply (wp_fill_hole _ _ _ [(q, leaf_words [(key, updated g NULL_PTR data)])]); [exact HG4|done|]. intros s5 HG5.
  apply wp_ret, HQ. eapply finish_leaf; [exact Hw| |exact HG5|lia| | |done].
  - unfold stored. rewrite Hfind. by left.
  - split_and!; [apply NoDup_singleton|simpl; lia..|]. intros k Hk. apply list_elem_of_singleton in Hk as ->. by rewrite own_prefix.
  - intros k. simpl. apply decide_ext. split; congruence.
Qed.

Lemma wp_step_node s p d h new_root done u t0 t1 t2 t3 (Q : Z * slot_ptr * Z * Z + Z → state → Prop) :
  walking s p (Node t0 t1 t2 t3) d h new_root done u → (∀ r s', step_post d r s' → Q r s') →
  wp (new_p ← allocate (INTERNAL_NODE_SIZE + 1) CELL_internal;
      for_ 4 (λ i _, w ← rd p (1 + Z.of_nat i); wr new_p (1 + Z.of_nat i) w) tt;;
      new_root ← set_slot (hole_pp h) new_p new_root;
      let i := dh_digit key (2 * Z.of_nat d) + 1 in
      p ← rd new_p i;
      mret (inl (p, CellSlot new_p i, 2 * Z.of_nat d + dh_offset, new_root))) Q s.
Proof.
  intros Hw HQ. pose proof Hw as [HG Hh Hplug Ht Hok Hd Hfind Hu]. unfold room in Hroom.
  destruct (is_dh_node _ _ _ _ _ _ _ Ht Hok) as (ws & [Hc H4 Hd16 Hs Hfs]). rewrite length_prefix in Hd16 by done.
  apply wp_bind. eapply wp_allocate; [exact HG|unfold room; change (INTERNAL_NODE_SIZE + 1) with 5; lia|done|]. intros q s1 Hq HG1.
  change (INTERNAL_NODE_SIZE + 1) with 5 in HG1. change (Z.to_nat 5 - 1)%nat with 4%nat in HG1. apply wp_bind.
  apply wp_for with (I := λ i _ s', grow s0 s' (u + 5) ((q, node_words (take i ws ++ replicate (4 - i) FIRST_GENERATION_DEADBEEF)) :: hole_cells h ++ done)).
  { by rewrite take_0. }
  { intros i [] s2 Hi HG2. destruct (lookup_lt_is_Some_2 ws i) as [w Hwi]; [lia|]. apply wp_bind.
    eapply wp_rd; [eapply grow_blk_old; [exact HG2|exact HC|exact Hc]|lia| |].
    { replace (Z.to_nat (1 + Z.of_nat i)) with (S i) by lia. exact Hwi. }
    eapply (wp_wr _ _ _ _ 0%nat); [exact HG2|done| |].
    { unfold node_words. cbn [length]. rewrite length_app, length_take, length_replicate. lia. }
    intros s3 HG3. replace (Z.to_nat (1 + Z.of_nat i)) with (S (length (take i ws) + 0)) in HG3 by (rewrite length_take; lia).
    unfold node_words in HG3. cbn [insert list_insert] in HG3. rewrite (take_S_r _ _ _ Hwi), <- app_assoc.
    replace (4 - i)%nat with (S (4 - S i)) in HG3 by lia. unfold node_words. erewrite (insert_app_r (take i ws)) in HG3. exact HG3. }
  intros [] s2 HG2. rewrite take_ge, app_nil_r in HG2 by lia. apply wp_bind.
  eapply (wp_fill_hole _ _ _ [(q, node_words ws)]); [exact HG2|done|]. intros s3 HG3. cbv zeta. rewrite dh_digit_dg by done.
  destruct (key_digit key d Hd16) as [_ Hb]. destruct (Hs _ Hb) as (w & Hwb & Htw & Hokw).
  apply wp_bind. eapply wp_rd; [by eapply (grow_blk_new _ _ _ _ 0)|lia| |].
  { replace (Z.to_nat (Z.of_nat (dg d key) + 1)) with (S (dg d key)) by lia. exact Hwb. }
  apply wp_ret, HQ. set (g' := sons (Node t0 t1 t2 t3)) in *. exists (g' (dg d key)), (Hole q ws (dg d key)), (filled h q ++ done), (u + 5).
  split; [done|]. split; [change dh_offset with 2; lia|]. split; [exact HG3|done| |done| |lia| |lia].
  - apply (plug_node (Node t0 t1 t2 t3)); [exact Hplug|done|done|done|]. intros j Hj _. destruct (Hs j Hj) as (wj & ? & ? & ?). by exists wj.
  - unfold kd. by rewrite take_key.
  - by rewrite Hfind, Hfs.
Qed.

Section leaf.
(** The leaf at the end of the path. *)
Context (s : state) (p : Z) (l : list (Z * Z)) (d : nat) (h : hole) (new_root : Z) (done : list cell) (u : Z).
Context (Hw : walking s p (Leaf l) d h new_root done u).

Lemma leaf_ok : NoDup l.*1 ∧ (1 ≤ length l ≤ 32)%nat ∧ keys_ok l ∧ ∀ k, k ∈ l.*1 → take d (key_digits k) = take d kd.
Proof.
  pose proof (walk_ok _ _ _ _ _ _ _ _ Hw) as (Hnd & Hl & Hk). pose proof (walk_depth _ _ _ _ _ _ _ _ Hw) as Hd.
  split_and!; [done|lia|lia|intros k Hin; by apply Hk|]. intros k Hin. destruct (Hk k Hin) as [_ E]. by rewrite length_prefix in E.
Qed.

Lemma leaf_cell : C p (leaf_words l).
Proof. exact (walk_tree _ _ _ _ _ _ _ _ Hw). Qed.

(** A leaf of the keys of the old one, or of these and the key. *)
Lemma leaf_dh_ok l' : NoDup l'.*1 → (1 ≤ length l' ≤ 32)%nat → (∀ k, k ∈ l'.*1 → k = key ∨ k ∈ l.*1) → dh_ok (take d kd) (Leaf l').
Proof.
  intros Hnd Hl Hk. destruct leaf_ok as (_ & _ & Hok & Hp). pose proof (walk_depth _ _ _ _ _ _ _ _ Hw) as Hd.
  split_and!; [done|lia|lia|]. intros k Hin. rewrite length_prefix by done. destruct (Hk k Hin) as [->|Hin']; [done|]. split; [by apply Hok|by apply Hp].
Qed.

Lemma wp_leaf_update j (Q : Z → state → Prop) : position l key = Some j → (∀ r s', inserted r s' → Q r s') →
  wp (leaf_update ap root f data p (Z.of_nat (length l)) (1 + 2 * Z.of_nat j) (hole_pp h) new_root) Q s.
Proof.
  intros Hj HQ. destruct (position_Some _ _ _ Hj) as (old & Hlj & Ha). destruct leaf_ok as (Hnd & Hl & Hok & Hp). pose proof leaf_cell as Hc.
  pose proof Hw as [HG Hh _ _ _ Hd Hfind Hu]. simpl in Hfind. rewrite Ha in Hfind. unfold room in Hroom.
  set (x := updated g old data). assert (Hx : stored x) by (unfold stored; by rewrite Hfind).
  replace (1 + 2 * Z.of_nat j + 1) with (2 + 2 * Z.of_nat j) by lia. unfold leaf_update.
  replace (1 + 2 * Z.of_nat j + 1) with (2 + 2 * Z.of_nat j) by lia. apply wp_bind. eapply (wp_mono _ (λ r s', r = x ∧ s' = s)).
  { unfold x. destruct f as [f'|]; [|destruct g; [done|]; by apply wp_ret].
    apply wp_bind. eapply (wp_rd_data s0 C HC p l Hc j); [exact HG|exact Hlj|done|].
    eapply wp_update; [|exact Hf|done]. eapply holds_ext; [apply HG|done]. }
  intros r s' [-> ->]. apply wp_bind. eapply (wp_rd_data s0 C HC p l Hc j); [exact HG|exact Hlj|done|].
  destruct (decide (old = x)) as [E|E].
  - rewrite bool_decide_eq_true_2 by done. apply wp_bind. rewrite Hap. eapply wp_restore; [exact Hwf|exact HG|].
    intros s' HG'. apply wp_ret, HQ. exists x, 0, [], T0. split_and!; [done|lia|lia|exact HG'| |done| |done].
    + eapply is_dh_mono; [apply adds_base|done].
    + intros k Hk _. case_decide as Ek; [|done]. by rewrite Ek, Hfind, E.
  - rewrite bool_decide_eq_false_2 by done. apply wp_bind.
    eapply (wp_allocate_leaf s0 _ _ _ (length l)); [exact HG|lia|lia|unfold room; lia|]. intros q s1 Hq HG1.
    apply wp_bind. eapply wp_rd; [eapply grow_blk_old; [exact HG1|exact HC|exact Hc]|done|done|].
    apply wp_bind. eapply (wp_wr _ _ _ _ 0%nat); [exact HG1|done|simpl; lia|]. intros s2 HG2. cbn [insert list_insert] in HG2.
    apply wp_bind. rewrite Nat2Z.id. eapply (wp_copy_pairs s0 _ q _ C HC p l Hc _ 0); [rewrite Nat.add_0_r; exact HG2|]. intros s3 HG3.
    rewrite partial_leaf_full in HG3. apply wp_bind. eapply (wp_wr _ _ _ _ 0%nat); [exact HG3|done| |].
    { unfold leaf_words. cbn [length]. rewrite length_flat. apply lookup_lt_Some in Hlj. lia. }
    intros s4 HG4. cbn [insert list_insert] in HG4. rewrite (leaf_words_insert _ _ _ _ x Hlj) in HG4.
    eapply (wp_fill_hole _ _ _ [(q, leaf_words (<[j := (key, x)]> l))]); [exact HG4|done|]. intros s5 HG5. apply HQ.
    eapply finish_leaf; [exact Hw|done|exact HG5|lia| | |simpl; congruence].
    + apply leaf_dh_ok; [by rewrite (insert_keys _ _ _ _ _ Hlj)|by rewrite length_insert|].
      rewrite (insert_keys _ _ _ _ _ Hlj). by right.
    + intros k. by apply (assoc_insert _ _ _ old).
Qed.

Lemma wp_leaf_add (Q : Z → state → Prop) : key ∉ l.*1 → (length l < 32)%nat → (∀ r s', inserted r s' → Q r s') →
  wp (leaf_add key data p (Z.of_nat (length l)) (hole_pp h) new_root) Q s.
Proof.
  intros Hkl Hl32 HQ. destruct leaf_ok as (Hnd & Hl & Hok & Hp). pose proof leaf_cell as Hc.
  pose proof Hw as [HG Hh _ _ _ Hd Hfind Hu]. simpl in Hfind. rewrite (proj2 (assoc_None l key) Hkl) in Hfind. unfold room in Hroom.
  apply wp_bind. eapply (wp_allocate_leaf s0 _ _ _ (S (length l))); [exact HG|lia|lia|unfold room; lia|]. intros q s1 Hq HG1.
  apply wp_bind. eapply wp_or_leaf; [exact HG1|lia|]. intros s2 HG2.
  apply wp_bind. rewrite Nat2Z.id. eapply (wp_copy_pairs s0 _ q _ C HC p l Hc _ 1); [by rewrite Nat.add_1_r|]. intros s3 HG3.
  apply wp_bind. eapply wp_put_key; [exact HG3|lia|]. intros s4 HG4. apply wp_bind. eapply wp_put_data; [exact HG4|lia|]. intros s5 HG5.
  assert (E : header CELL_leaf (Z.of_nat (length l) + 1) = header CELL_leaf (Z.of_nat (length (l ++ [(key, data)])))) by (rewrite length_app; f_equal; simpl; lia).
  rewrite E, partial_leaf_full in HG5.
  eapply (wp_fill_hole _ _ _ [(q, leaf_words (l ++ [(key, data)]))]); [exact HG5|done|]. intros s6 HG6. apply HQ.
  eapply finish_leaf; [exact Hw| |exact HG6|lia| | |].
  - unfold stored. rewrite Hfind. by right.
  - apply leaf_dh_ok; [|rewrite length_app; simpl; lia|].
    + rewrite fmap_app. apply NoDup_app. split_and!; [done| |apply NoDup_singleton]. intros k Hk ->%list_elem_of_singleton. done.
    + intros k. rewrite fmap_app, elem_of_app. intros [Hk| ->%list_elem_of_singleton]; [by right|by left].
  - intros k. by apply assoc_snoc.
  - simpl. by rewrite (proj2 (assoc_None l key) Hkl).
Qed.

(** The key has another digit than those of a leaf with the same prefix. *)
Lemma leaf_depth k : k ∈ l.*1 → key ∉ l.*1 → (d < 16)%nat.
Proof.
  intros Hk Hkl. destruct leaf_ok as (_ & _ & Hok & Hp). pose proof (walk_depth _ _ _ _ _ _ _ _ Hw) as Hd.
  destruct (decide (d = 16%nat)) as [E|]; [|lia]. exfalso. apply Hkl. specialize (Hp k Hk). unfold kd in Hp.
  rewrite E, !take_ge in Hp by (by rewrite length_key_digits). by rewrite <- (key_inj _ _ (Hok k Hk) Hkey Hp).
Qed.

Context (Hkl : key ∉ l.*1) (Hd16 : (d < 16)%nat).

(** All keys have the same digit: another node above the leaf. *)
Lemma walk_chain s' q u' : Forall (λ c, dg d c.1 = dg d key) l → u' = u + 5 →
  grow s0 s' u' ((q, node_words (<[dg d key := p]> (replicate 4 NULL_WORD))) :: filled h q ++ done) →
  walking s' p (Leaf l) (S d) (Hole q (<[dg d key := p]> (replicate 4 NULL_WORD)) (dg d key)) (hole_root h new_root q) (filled h q ++ done) u'.
Proof.
  intros HF -> HG. destruct leaf_ok as (Hnd & Hl & Hok & Hp). destruct (key_digit key d Hd16) as [_ Hb].
  pose proof Hw as [_ Hh Hplug Ht _ _ Hfind Hu]. set (b := dg d key) in *.
  set (g' := graft (λ _, Empty) b (Leaf l)). assert (Eg : g' b = Leaf l) by (unfold g', graft; by rewrite decide_True).
  assert (Hdig : ∀ c, c ∈ l → dg d c.1 = b) by (by rewrite <- Forall_forall).
  assert (Hdk : ∀ k, k ∈ l.*1 → dg d k = b) by (intros k (c & -> & Hc)%list_elem_of_fmap; by apply Hdig).
  split; [exact HG|simpl; by rewrite length_insert|rewrite <- Eg|done| |lia|done|lia].
  - apply (plug_node (Leaf l)); [exact Hplug|done|by rewrite length_insert| |].
    + intros k Hk Hpk. rewrite find_node_of by done. unfold g', graft. destruct (decide (dg d k = b)) as [E|E]; [done|].
      simpl. apply assoc_None. intros Hin. by apply E, Hdk.
    + intros j Hj Hjb. exists NULL_WORD. rewrite list_lookup_insert_ne by done. unfold g', graft. rewrite decide_False by done.
      split; [by apply lookup_replicate_2|done].
  - split_and!; [done|lia|lia|]. intros k Hk. rewrite length_prefix by lia. split; [by apply Hok|].
    unfold kd. rewrite !take_key by done. by rewrite (Hp k Hk), (Hdk k Hk).
Qed.

Let L (x : Z) : list (Z * Z) := (key, x) :: l.
Let split_tree (x : Z) : dh := node_of (λ j, son_of (bucket d j (L x))).

Lemma split_dh_ok x : ¬ Forall (λ c, dg d c.1 = dg d key) l → dh_ok (take d kd) (split_tree x).
Proof.
  intros HF. destruct leaf_ok as (Hnd & Hl & Hok & Hp). apply dh_ok_node_of; [by rewrite length_prefix by lia|]. intros j Hj.
  destruct (bucket d j (L x)) as [|c b] eqn:Eb; [done|]. change (son_of (c :: b)) with (Leaf (c :: b)). rewrite <- Eb.
  split_and!.
  - eapply sublist_NoDup; [|apply bucket_keys]. simpl. by apply NoDup_cons.
  - rewrite Eb. simpl. lia.
  - assert (∃ c, c ∈ L x ∧ dg d c.1 ≠ j) as (c' & Hc' & Hj').
    { destruct (decide (dg d key = j)) as [<-|Hne]; [|exists (key, x); split; [apply list_elem_of_here|done]].
      apply not_Forall_Exists in HF; [|solve_decision]. apply Exists_exists in HF as (c' & Hc' & Hj'). exists c'. split; [by apply list_elem_of_further|done]. }
    pose proof (bucket_short _ _ _ _ Hc' Hj'). simpl in *. lia.
  - intros k (c' & -> & [Hj' Hc']%elem_of_bucket)%list_elem_of_fmap. rewrite length_app, length_prefix by lia. cbn [length].
    assert (Hk : is_word c'.1 ∧ take d (key_digits c'.1) = take d kd).
    { apply elem_of_cons in Hc' as [->|Hc']; [done|]. apply (list_elem_of_fmap_2 fst) in Hc'. split; [by apply Hok|by apply Hp]. }
    destruct Hk as [Hk Hpk]. split; [done|]. rewrite Nat.add_1_r, take_key by done. by rewrite Hpk, Hj'.
Qed.

Lemma split_upd x : upd (Leaf l) d key x (split_tree x).
Proof.
  intros k Hk Hpk. unfold split_tree. rewrite find_node_of by done. rewrite find_son_of, bucket_assoc. simpl.
  destruct (decide (key = k)); [by rewrite decide_True by congruence|by rewrite decide_False by congruence].
Qed.

Lemma split_is_dh x leaves ws q : written l d key x leaves ws 4 → length ws = 4%nat →
  is_dh (adds C (leaves ++ [(q, node_words ws)])) q (split_tree x).
Proof.
  intros Hwr H4.
  assert (Hj : ∀ j, (j < 4)%nat → ∃ w, ws !! j = Some w ∧ is_dh (adds C (leaves ++ [(q, node_words ws)])) w (son_of (bucket d j (L x)))).
  { intros j Hj. destruct (Hwr j Hj) as (w & Hwj & Hb). exists w. split; [done|]. change ((key, x) :: l) with (L x) in Hb.
    destruct (bucket d j (L x)) as [|c b]; [done|]. right. apply elem_of_app. by left. }
  assert (Hq : adds C (leaves ++ [(q, node_words ws)]) q (node_words ws)) by (right; apply elem_of_app; right; apply list_elem_of_here).
  revert Hj Hq. generalize (adds C (leaves ++ [(q, node_words ws)])). intros C' Hj Hq.
  destruct ws as [|w0 [|w1 [|w2 [|w3 [|]]]]]; try done. exists w0, w1, w2, w3. split; [done|].
  destruct (Hj 0%nat) as (? & [= ->] & ?); [lia|]. destruct (Hj 1%nat) as (? & [= ->] & ?); [lia|].
  destruct (Hj 2%nat) as (? & [= ->] & ?); [lia|]. destruct (Hj 3%nat) as (? & [= ->] & ?); [lia|]. done.
Qed.

Lemma wp_leaf_overflow (Q : Z * slot_ptr * Z * Z + Z → state → Prop) : length l = 32%nat → (∀ r s', step_post d r s' → Q r s') →
  wp (leaf_overflow key f data p (Z.of_nat (length l)) (hole_pp h) (2 * Z.of_nat d) new_root) Q s.
Proof.
  intros Hl HQ. destruct leaf_ok as (_ & _ & Hok & _). pose proof leaf_cell as Hc. pose proof Hw as [HG Hh _ _ _ _ Hfind Hu]. unfold room in Hroom.
  pose proof (key_digit key d Hd16) as [_ Hb]. simpl in Hfind. rewrite (proj2 (assoc_None l key) Hkl) in Hfind.
  apply wp_bind, wp_assert; [by rewrite Hl|]. apply wp_bind. eapply wp_allocate; [exact HG|unfold room; change (INTERNAL_NODE_SIZE + 1) with 5; lia|done|].
  intros q s1 Hq HG1. change (INTERNAL_NODE_SIZE + 1) with 5 in HG1. change (Z.to_nat 5 - 1)%nat with 4%nat in HG1.
  apply wp_bind. eapply (wp_fill_hole _ _ _ [(q, node_words (replicate 4 FIRST_GENERATION_DEADBEEF))]); [exact HG1|done|]. intros s2 HG2. cbn [app] in HG2.
  apply wp_bind. eapply (wp_overflows s0 C HC p l Hc d Hd16 key Hkey Hok); [exact HG2|by destruct l|].
  destruct (decide (Forall (λ c, dg d c.1 = dg d key) l)) as [HF|HF].
  - rewrite bool_decide_eq_true_2 by done. apply wp_bind.
    apply wp_for with (I := λ i _ s', grow s0 s' (u + 5) ((q, node_words (replicate i NULL_WORD ++ replicate (4 - i) FIRST_GENERATION_DEADBEEF)) :: filled h q ++ done)).
    { exact HG2. }
    { intros i [] s3 Hi HG3. replace (1 + Z.of_nat i) with (Z.of_nat i + 1) by lia.
      eapply (wp_write_son _ _ _ _ _ _ []); [exact HG3|by rewrite length_app, !length_replicate; lia|done|]. intros s4 HG4. cbn [app] in HG4.
      clear -HG4 Hi. revert i Hi HG4. by apply (four_cases (λ i, _ → _)). }
    intros [] s3 HG3. cbv zeta. rewrite dh_digit_dg by done. apply wp_bind. eapply (wp_write_son _ _ _ _ _ _ []); [exact HG3|done|done|]. intros s4 HG4.
    apply wp_ret, HQ. eexists _, (Hole q (<[dg d key := p]> (replicate 4 NULL_WORD)) (dg d key)), _, (u + 5). split; [done|]. split; [change dh_offset with 2; lia|].
    apply walk_chain; [done|done|exact HG4].
  - rewrite bool_decide_eq_false_2 by done. apply wp_bind. set (x := updated g NULL_PTR data).
    eapply (wp_leaf_split s0 C HC p l Hc d Hd16 key Hkey Hok x ltac:(lia) f g data q (u + 5)); [exact Hf|done|unfold room; lia|exact HG2|done|].
    intros s3 (leaves & ws & u' & HG3 & H4 & Hwr & Hu'). apply wp_ret, HQ.
    pose proof (spread_le d 4 ((key, x) :: l)) as Hsp. cbn [length] in Hsp.
    apply (finish s p (Leaf l) d h new_root done u s3 u' (leaves ++ [(q, node_words ws)]) q (split_tree x) x); [exact Hw| | |lia| | | |].
    + unfold stored. rewrite Hfind. by left.
    + rewrite <- app_assoc. exact HG3.
    + by apply split_is_dh.
    + by apply split_dh_ok.
    + apply split_upd.
    + simpl. by rewrite (proj2 (assoc_None l key) Hkl).
Qed.
End leaf.

Lemma walk_not_null s p t d h new_root done u : walking s p t d h new_root done u → t ≠ Empty → p ≠ NULL_PTR.
Proof. intros Hw Ht E. apply Ht. apply (is_dh_null C s0 p t HC); [apply Hw|exact E]. Qed.

Lemma wp_dh_insert_step s p t d h new_root done u : walking s p t d h new_root done u →
  wp (dh_insert_step ap root key f data (p, hole_pp h, 2 * Z.of_nat d, new_root)) (step_post d) s.
Proof.
  intros Hw. unfold dh_insert_step. destruct t as [|l|t0 t1 t2 t3].
  - rewrite bool_decide_eq_true_2 by apply (walk_tree _ _ _ _ _ _ _ _ Hw). by eapply wp_step_empty.
  - rewrite bool_decide_eq_false_2 by (by eapply walk_not_null). pose proof (leaf_ok _ _ _ _ _ _ _ _ Hw) as (Hnd & Hl & Hok & Hp).
    pose proof (leaf_cell _ _ _ _ _ _ _ _ Hw) as Hc. assert (Hb : blk s p (leaf_words l)) by (eapply grow_blk_old; [apply Hw|exact HC|exact Hc]).
    apply wp_bind. eapply wp_CELL_TYPE; [exact Hb|done|]. rewrite header_type by lia. rewrite bool_decide_eq_false_2 by done.
    rewrite bool_decide_eq_true_2 by done. apply wp_bind. eapply wp_number_of_keys; [exact Hb|lia|]. rewrite Nat2Z.id.
    apply wp_bind, (leaf_search_rule _ _ l); [exact Hb|]. destruct (position l key) as [j|] eqn:Ej; simpl.
    + apply wp_bind. eapply wp_leaf_update; [exact Hw|exact Ej|]. intros r s' Hr. by apply wp_ret.
    + apply position_None in Ej. destruct (decide (length l < 32)%nat) as [Hlt|Hge].
      * rewrite bool_decide_eq_true_2 by (unfold MAX_KEYS_IN_LEAF; lia). apply wp_bind. eapply wp_leaf_add; [exact Hw|exact Ej|done|].
        intros r s' Hr. by apply wp_ret.
      * rewrite bool_decide_eq_false_2 by (unfold MAX_KEYS_IN_LEAF; lia). eapply wp_leaf_overflow; [exact Hw|exact Ej| |lia|done].
        destruct l as [|[k y] l]; [simpl in Hl; lia|]. eapply leaf_depth; [exact Hw|simpl; apply list_elem_of_here|exact Ej].
  - rewrite bool_decide_eq_false_2 by (by eapply walk_not_null).
    pose proof (walk_tree _ _ _ _ _ _ _ _ Hw) as (w0 & w1 & w2 & w3 & Hc & _).
    assert (Hb : blk s p (node_words [w0; w1; w2; w3])) by (eapply grow_blk_old; [apply Hw|exact HC|exact Hc]).
    apply wp_bind. eapply wp_CELL_TYPE; [exact Hb|done|]. rewrite header_type by lia. rewrite bool_decide_eq_true_2 by done. by eapply wp_step_node.
Qed.

Lemma wp_dh_insert_loop fuel s p t d h new_root done u : walking s p t d h new_root done u → (16 < fuel + d)%nat →
  wp (loop fuel (dh_insert_step ap root key f data) (p, hole_pp h, 2 * Z.of_nat d, new_root)) inserted s.
Proof.
  revert s p t d h new_root done u. induction fuel as [|fuel IH]; intros s p t d h new_root done u Hw Hfuel.
  { pose proof (walk_depth _ _ _ _ _ _ _ _ Hw). lia. }
  apply wp_loop_S. eapply wp_mono; [by apply wp_dh_insert_step with (t := t) (done := done) (u := u)|]. intros [[[[p' pp] b] nr]|r] s' Hr; [|exact Hr].
  destruct Hr as (t' & h' & done' & u' & -> & -> & Hw'). eapply IH; [exact Hw'|lia].
Qed.

Lemma dh_walking_start : walking s0 root T0 0 Top NULL_WORD [] 0.
Proof.
  split; [by apply grow_refl|done| |done|done|lia|done|lia]. intros C' v t' x Hsub Hv Hok Hu. by exists t'.
Qed.

Lemma wp_dh_insert_root fuel : (17 ≤ fuel)%nat → wp (loop fuel (dh_insert_step ap root key f data) (root, RootSlot, 0, NULL_WORD)) inserted s0.
Proof. intros Hf'. apply (wp_dh_insert_loop fuel s0 root T0 0 Top NULL_WORD [] 0 dh_walking_start). lia. Qed.
End walk.

(** * The operations *)

(** C21. [dh_find] yields the data of a key, or [NULL_PTR]; 17 rounds suffice. *)
Theorem dh_find_correct C root m key fuel s : wf s → holds s C → dh_repr C root m → is_word key → (17 ≤ fuel)%nat →
  dh_find fuel root key s = Ok (default NULL_PTR (m !! key)) s.
Proof.
  intros Hwf HC (T & HT & Hok & Hm & _) Hkey Hf. rewrite <- (Hm key Hkey).
  assert (H : wp (dh_find fuel root key) (λ r s', r = default NULL_PTR (find T 0 key) ∧ s' = s) s).
  { eapply wp_dh_find with (d := 0%nat); [exact HC|done|exact HT|done|lia|lia|done]. }
  apply wp_inv in H as (r & s' & E & -> & ->). exact E.
Qed.

(** C20. [dh_insert] yields a tree that has the new data behind the key and everything else unchanged; the old tree
    stays as it was.  The data are those that [f] makes of the old ones; where the key is new they are those that [f]
    makes of [NULL_PTR], or, if the leaf has room, the given ones.  Data equal to the old ones make it undo its
    allocations and return the old tree.  17 rounds and 150 words suffice. *)
Theorem dh_insert_correct C root m key f g data fuel s : wf s → holds s C → dh_repr C root m → is_word key → pure_update C f g →
  room s 150 → (17 ≤ fuel)%nat →
  wp (dh_insert fuel root key f data) (λ r s', ∃ x u cs, 0 ≤ u ≤ 150 ∧ grow s s' u cs ∧ dh_repr (adds C cs) r (<[key := x]> m) ∧
    match m !! key with
    | Some old => x = updated g old data ∧ (x = old → r = root ∧ first_generation_allocation_ptr s' = first_generation_allocation_ptr s)
    | None => x = updated g NULL_PTR data ∨ x = data
    end) s.
Proof.
  intros Hwf HC (T & HT & Hok & Hm & Hdom) Hkey Hg Hroom Hf. apply wp_bind, wp_gets.
  eapply wp_mono. { exact (wp_dh_insert_root s C HC T key Hkey Hroom g f Hg data root _ Hwf eq_refl HT Hok fuel Hf). }
  intros r s' (x & u & cs & T' & Hx & Hu & HG & HT' & Hok' & Hupd & Hsame). exists x, u, cs. split; [done|]. split; [done|]. split.
  - exists T'. split_and!; [done|done| |].
    + intros k Hk. rewrite (Hupd k Hk eq_refl). destruct (decide (k = key)) as [->|Hne]; [by rewrite lookup_insert_eq|].
      rewrite lookup_insert_ne by done. by apply Hm.
    + intros k [<-|[_ Hy]]%lookup_insert_is_Some; [done|]. by apply Hdom.
  - unfold stored in Hx. rewrite (Hm key Hkey) in *. destruct (m !! key) as [old|]; [|done]. split; [done|]. intros ->.
    destruct (Hsame eq_refl) as [-> ->]. split; [done|]. rewrite (grow_used _ _ _ _ HG). lia.
Qed.

(** * The self-test *)

Lemma dh_prefix_lor pre i : Forall digit pre → (length pre < 16)%nat → (i < 4)%nat →
  Z.lor (shl32 (num pre) dh_offset) (Z.of_nat i) = num (pre ++ [Z.of_nat i]).
Proof.
  intros Hd Hl Hi. pose proof (num_bound pre Hd) as B. rewrite num_app. change (num [Z.of_nat i]) with (4 * 0 + Z.of_nat i). cbn [length].
  change (4 ^ Z.of_nat 1) with (2 ^ 2). assert (H4 : 4 ^ Z.of_nat (length pre) ≤ 4 ^ 15) by (apply Z.pow_le_mono_r; lia). change (4 ^ 15) with 1073741824 in H4.
  unfold shl32. change dh_offset with 2. rewrite Z.shiftl_mul_pow2, w32_small by (unfold is_word; rewrite ?word_modulus_val; lia).
  apply lor_add_disjoint with 2; [lia|change (2 ^ 2) with 4; lia|apply Z_mod_mult].
Qed.

Lemma key_prefix k d : is_word k → (d ≤ 16)%nat → shr32 k (32 - 2 * Z.of_nat d) = num (take d (key_digits k)).
Proof.
  intros Hk Hd. rewrite <- (key_just k Hk) at 1. pose proof (digits_digit 16 k) as Hf. change (digits 16 k) with (key_digits k) in Hf.
  assert (Hl : length (take d (key_digits k)) = d) by (rewrite length_take, length_key_digits; lia). rewrite <- Hl at 1.
  rewrite <- (take_drop d (key_digits k)) in Hf |- * at 1. apply just_take; [by apply Forall_app in Hf as [_ ?]|].
  by rewrite take_drop, length_key_digits.
Qed.

Lemma wp_dh_make_assertions fuel s C p pre t (Q : unit → state → Prop) : holds s C → is_dh C p t → Forall digit pre → (length pre ≤ 16)%nat →
  dh_ok pre t → (16 < fuel + length pre)%nat → Q tt s → wp (dh_make_assertions fuel p (2 * Z.of_nat (length pre)) (num pre)) Q s.
Proof.
  intros HC. revert p pre t Q. induction fuel as [|fuel IH]; intros p pre t Q Ht Hpre Hl Hok Hf HQ; [lia|].
  apply wp_bind, wp_assert; [apply bool_decide_eq_true_2; lia|]. destruct t as [|l|t0 t1 t2 t3].
  - rewrite bool_decide_eq_true_2 by done. by apply wp_ret.
  - rewrite bool_decide_eq_false_2 by (intros E; by apply (is_dh_null C s p (Leaf l) HC Ht) in E).
    destruct Hok as (_ & Hl32 & Hk). simpl in Ht. pose proof (HC _ _ Ht) as Hb. apply wp_bind. eapply wp_CELL_TYPE; [exact Hb|done|].
    rewrite header_type by lia. rewrite bool_decide_eq_false_2 by done. apply wp_bind, wp_assert; [done|].
    apply wp_bind. eapply wp_number_of_keys; [exact Hb|lia|]. rewrite Nat2Z.id.
    apply wp_for with (I := λ _ _ s', s' = s); [done| |by intros [] s' ->]. intros j [] s' Hj ->.
    destruct (decide (0 < 2 * Z.of_nat (length pre))) as [E|E]; [|rewrite bool_decide_eq_false_2 by done; by apply wp_ret].
    rewrite bool_decide_eq_true_2 by done. destruct (lookup_lt_is_Some_2 l j Hj) as [[k x] Hlj].
    apply wp_bind. eapply wp_rd; [exact Hb|lia|apply (leaf_word l j k x Hlj)|]. apply wp_assert; [|done]. apply bool_decide_eq_true_2.
    destruct (Hk k) as [Hw Hp]; [by eapply (list_elem_of_fmap_2 fst l (k, x)), list_elem_of_lookup_2|]. by rewrite key_prefix, Hp.
  - rewrite bool_decide_eq_false_2 by (intros E; by apply (is_dh_null C s p (Node t0 t1 t2 t3) HC Ht) in E).
    destruct (is_dh_node _ _ _ _ _ _ _ Ht Hok) as (ws & [Hc H4 Hd16 Hs _]). pose proof (HC _ _ Hc) as Hb.
    apply wp_bind. eapply wp_CELL_TYPE; [exact Hb|done|]. rewrite header_type by lia. rewrite bool_decide_eq_true_2 by done. cbv zeta.
    apply wp_for with (I := λ _ _ s', s' = s); [done| |by intros [] s' ->]. intros j [] s' Hj ->. destruct (Hs j Hj) as (w & Hw & Htw & Hokw).
    apply wp_bind. eapply wp_rd; [exact Hb|lia| |].
    { replace (Z.to_nat (1 + Z.of_nat j)) with (S j) by lia. exact Hw. }
    rewrite dh_prefix_lor by done. apply wp_bind.
    eapply (wp_mono _ (λ _ s', s' = s)); [|intros [] s' ->; replace (2 * Z.of_nat (length pre) + dh_offset) with (2 * Z.of_nat (length (pre ++ [Z.of_nat j])))
      by (rewrite length_app; change dh_offset with 2; simpl; lia); eapply IH; [exact Htw| | |exact Hokw| |done]].
    + destruct (sons (Node t0 t1 t2 t3) j) as [|l|? ? ? ?] eqn:Et.
      * rewrite bool_decide_eq_true_2 by done. by apply wp_ret.
      * rewrite bool_decide_eq_false_2 by (intros E; by apply (is_dh_null C s w (Leaf l) HC Htw) in E). destruct Hokw as (_ & Hl32 & _).
        apply wp_bind. eapply wp_CELL_TYPE; [exact (HC _ _ Htw)|done|]. rewrite header_type by lia. by apply wp_assert.
      * rewrite bool_decide_eq_false_2 by (intros E; by apply (is_dh_null C s w (Node _ _ _ _) HC Htw) in E). destruct Htw as (? & ? & ? & ? & Htw & _).
        apply wp_bind. eapply wp_CELL_TYPE; [exact (HC _ _ Htw)|done|]. rewrite header_type by lia. by apply wp_assert.
    + apply Forall_app. split; [done|]. apply Forall_singleton. unfold digit. lia.
    + rewrite length_app. simpl. lia.
    + rewrite length_app. simpl. lia.
Qed.

(** The self-test passes on every tree. *)
Lemma dh_make_assertions_pass C root m fuel s : holds s C → dh_repr C root m → (17 ≤ fuel)%nat → dh_make_assertions fuel root 0 0 s = Ok tt s.
Proof.
  intros HC (T & HT & Hok & _) Hf.
  assert (H : wp (dh_make_assertions fuel root 0 0) (λ _ s', s' = s) s).
  { apply (wp_dh_make_assertions fuel s C root [] T); [done|done|by constructor|simpl; lia|done|simpl; lia|done]. }
  by apply wp_inv in H as ([] & s' & E & ->).
Qed.

(** * Examples *)

(** The keys from 0 on, with their lowest two bits moved to the fifth digit; the data are the keys. *)
Definition example_key (i : nat) : Z := Z.of_nat i + Z.of_nat i mod 4 * 2 ^ 22.
Definition example_tree (n : nat) : M Z := for_ n (λ i root, dh_insert 17 root (example_key i) None (example_key i)) NULL_PTR.

(** A tree of 32 keys takes a 33rd one, for which the insertion allocates 95 words. *)
Example dh_insert_allocates : let s := init_state 4 2000 [] in let root := value 0 (example_tree 32) s in let s1 := exec (example_tree 32) s in
  let s2 := exec (dh_insert 17 root (example_key 32) None 7) s1 in
  (first_generation_allocation_ptr s1 - first_generation_allocation_ptr s2) / 4 = 95 ∧ DH_MAX_ALLOCATION = 89.
Proof. split; vm_compute; reflexivity. Qed.

(** The data that [dh_find_min] yields are not those of the key it finds. *)
Example dh_find_min_wrong : let m := root ← dh_insert 17 NULL_PTR 3 None 30; root ← dh_insert 17 root 5 None 50; dh_find_min 17 root 0 in
  value (0, 0) m (init_state 4 100 []) = (50, 3).
Proof. vm_compute. reflexivity. Qed.

(** A tree of one key that is a single leaf. *)
Definition example_leaf : M Z := dh_insert 17 NULL_PTR 3 None 30.
Definition leaf_state : state := exec example_leaf (init_state 4 400 []).
Definition leaf_root : Z := value 0 example_leaf (init_state 4 400 []).

Lemma leaf_state_wf : wf leaf_state.
Proof. apply wfb_sound. vm_compute. reflexivity. Qed.

Lemma leaf_state_holds : holds leaf_state (blk leaf_state).
Proof. apply holds_blk. Qed.

Lemma leaf_state_repr : dh_repr (blk leaf_state) leaf_root {[ 3 := 30 ]}.
Proof.
  exists (Leaf [(3, 30)]). split_and!.
  - apply blkb_sound. vm_compute. reflexivity.
  - split_and!; [apply NoDup_singleton|simpl; lia..|]. intros k Hk. apply list_elem_of_singleton in Hk as ->. done.
  - intros k _. simpl. destruct (decide (3 = k)) as [<-|]; [by rewrite lookup_singleton_eq|by rewrite lookup_singleton_ne].
  - intros k [y [<- _]%lookup_singleton_Some]. done.
Qed.

Lemma leaf_state_room : room leaf_state 150.
Proof. apply Z.leb_le. vm_compute. reflexivity. Qed.

Lemma dh_find_correct_witness : dh_find 17 leaf_root 3 leaf_state = Ok (default NULL_PTR (({[ 3 := 30 ]} : gmap Z Z) !! 3)) leaf_state.
Proof.
  apply (dh_find_correct (blk leaf_state)); [exact leaf_state_wf|exact leaf_state_holds|exact leaf_state_repr|done|lia].
Defined.

Lemma dh_insert_correct_witness : wp (dh_insert 17 leaf_root 5 None 50) (λ r s', ∃ x u cs, 0 ≤ u ≤ 150 ∧ grow leaf_state s' u cs ∧
    dh_repr (adds (blk leaf_state) cs) r (<[5 := x]> {[ 3 := 30 ]}) ∧
    match ({[ 3 := 30 ]} : gmap Z Z) !! 5 with
    | Some old => x = updated None old 50 ∧ (x = old → r = leaf_root ∧ first_generation_allocation_ptr s' = first_generation_allocation_ptr leaf_state)
    | None => x = updated None NULL_PTR 50 ∨ x = 50
    end) leaf_state.
Proof.
  apply (dh_insert_correct (blk leaf_state) leaf_root {[ 3 := 30 ]} 5 None None 50 17);
    [exact leaf_state_wf|exact leaf_state_holds|exact leaf_state_repr|done|done|exact leaf_state_room|lia].
Defined.
